(* ===== verification/_CoqProject ===== *)
-Q . S2P
Prelude.v
Mem.v
Mmu.v
Spinlock.v
Kalloc.v
Vm.v
Uvm.v
Ualloc.v
Kvm.v
Copyuvm.v
Copyout.v
VmProps.v
Proc.v
ProcRules.v
Sched.v
System.v
SchedRules.v
Machine.v
ProcMem.v
ProcProps.v
Trap.v
TrapProps.v
Bio.v
Log.v
BioRules.v
LogRules.v
LogProps.v
Fs.v
FsRules.v
FsFile.v
FsProps.v
Ring.v
Pipe.v
File.v
FileProps.v
Sysfile.v
Exec.v
ExecProps.v
Grep.v
Sh.v
ShProps.v
Umalloc.v
UmallocProps.v
Net.v
NetProps.v
Numeral.v
Console.v
ConsoleProps.v
Ulib.v
UlibProps.v
ShRun.v
ShRunProps.v
Uthread.v
UthreadProps.v
Uswitch.v
Io.v
Kbd.v
Apic.v
ApicProps.v
Uart.v
Pci.v
FontBin.v
Uefi.v
Graphic.v
Ide.v
IdeProps.v
Bootmain.v
Mkfs.v
MkfsLay.v
MkfsProps.v
Desc.v
Trapasm.v
TrapasmProps.v
Resume.v
Startup.v
FsVol.v
FsName.v
FsGrow.v
FsWrite.v
