(* ===== verification/Prelude.v ===== *)
(** * xv6: a verification development

    A shallow embedding of the xv6 kernel, its drivers and boot loader, the builder of
    its disk image, and of its user library and programs under [src/xv6/]: C functions
    as computations in a small state monad, with theorems about what they do.

    ** The program

    A small Unix for 32-bit x86 multiprocessors.  Physical pages come from a free
    list (kalloc.c); page tables built from them give each process an address
    space (vm.c), filled lazily by the page-fault handler (trap.c).  Processes
    (proc.c) are created by [fork], end by [exit] and [wait], sleep and wake on
    channels, and are scheduled round robin or by a multi-level feedback queue,
    one scheduler loop per CPU, under one spin lock (spinlock.c).  System calls
    (syscall.c, sysproc.c, sysfile.c) enter through [trap].  The file system is a
    stack of layers: a disk in memory (memide.c), a buffer cache (bio.c), a
    write-ahead log (log.c), blocks, inodes, directories and paths (fs.c), open
    files and pipes (file.c, pipe.c), and [exec] (exec.c), which runs a program
    from a file.  The console (console.c) edits input lines and prints; a small
    network stack answers ARP, ping and TCP packets.  User programs call the
    kernel through a library with its own allocator (ulib.c, umalloc.c); the shell
    (sh.c) parses a line and starts the processes it asks for, and three libraries
    (uthread1.c, uthread2.c, uthread3.c) run threads inside a process.  Drivers talk
    to the keyboard, the serial line, the disk, the clock, the interrupt controllers,
    the network card and the frame buffer; the boot loader (bootmain.c) brings the
    kernel into memory, and mkfs.c makes the disk image on the build host.

    ** How code becomes definitions

    A C function is a computation of type [M S A] (below) over the state [S] of its
    component: it returns ([Ret]), calls the kernel's [panic] or dereferences a
    null pointer ([Panic]), or does not return ([NoFuel]): a loop out of fuel, a
    lock another CPU holds, a process that goes to sleep.  [wp m Q s] says that
    [m] returns from [s] and establishes [Q], [wlp] that it does so if it returns.
    Machine integers are [Z] with the wrap-around ([u32], [s32], ...) written where
    the C code can overflow; memory is a map of bytes ([Mem]).  A routine that
    gives up the CPU is cut at [swtch] into two halves, which [Machine] puts
    together again; in the file system, modelled for one process at a time, it
    does not return.  Pointers to table entries are indices.  What is not under
    [src/] (devices, firmware, the linker's addresses) is a parameter.

    ** The files

    - [Prelude]: the monad, weakest preconditions, tactics, integers.
    - [Mem] (string.c, x86.h): byte memory, words, [memset], [memmove], strings.
    - [Mmu] (mmu.h, memlayout.h): address arithmetic and page-table entries.
    - [Spinlock] (spinlock.c): interrupt nesting, [acquire], [release]; CPUs racing
      for a lock as a step relation: mutual exclusion, no panic, and a refinement
      of an abstract lock.
    - [Kalloc] (kalloc.c): the free list threaded through memory refines a stack of
      distinct pages; boot frees exactly the physical memory.
    - [Vm], [Uvm], [Ualloc], [Kvm], [Copyuvm], [Copyout], [VmProps] (vm.c): page
      tables in memory represent a finite map of pages; [mappages], [allocuvm],
      [deallocuvm], [freevm], [setupkvm], [copyuvm], [copyout] do to that map and
      to the pool of pages what they should, on success and on failure.
    - [Proc], [Sched] (proc.c): every routine of processes and the scheduler;
      [ProcRules], [SchedRules], [ProcMem] their rules; [System] and [Machine] the
      system of CPUs and processes, its invariant (who runs where, who holds which
      lock, parents, process ids) by rule induction over all interleavings of
      routines; [ProcProps] what [fork], [wait], [exit], [kill], [wakeup] and the
      scheduling policies guarantee, starvation included.
    - [Trap], [TrapProps] (trap.c, syscall.c, sysproc.c): demand paging, [sbrk],
      preemption, arguments from user memory, exceptions.
    - [Bio], [Log] (bio.c, sleeplock.c, memide.c, log.c): buffer cache and log;
      [BioRules], [LogRules] their rules; [LogProps]: a crash at any disk write of
      [commit] followed by recovery leaves either all of the transaction or none
      of it, and a transaction is an atomic multi-block write.
    - [Fs] (fs.c): blocks, inodes, directories, paths; [FsRules], [FsFile] rules
      inside a transaction with room for so many blocks; [FsProps]: the block
      allocator, reading back what was written, the inode cache, path parsing.  The
      class [Txn] of [FsRules] is what the routines on the free map need of a
      transaction, with an instance for a caller that holds a block ([bmap]).
      [FsName]: directories and their graph on the disk; [namei] finds what a walk of
      that graph finds, and keeps the inode cache in step.  [FsVol]: all files of the
      disk and the blocks each of them owns; [FsGrow]: [bmap], [iupdate] and [writei]
      on a file that grows; [FsWrite]: [filewrite] of any length up to the largest
      file, with every other file as it was.
    - [Ring]: a bounded buffer indexed by wrapping 32-bit counters; [Pipe] (pipe.c)
      uses it for the pipe as a queue shared by readers and writers.
    - [File], [FileProps] (file.c): open files; a [write] that returned is on the
      disk; the life of a pipe's page and files.  The page allocator enters
      through the class [PageOps] and its laws [PageLaws], discharged by [Kalloc].
    - [Sysfile] (sysfile.c): the file system's calls, and the instance of the class
      [FileOps] through which [Proc] uses files.
    - [Exec], [ExecProps] (exec.c): [exec] changes the process only on success.
    - [Numeral], [Console], [ConsoleProps] (console.c): printed numbers, the cursor,
      and the input line, which refines a line editor.
    - [Net], [NetProps] (eth.c, arp.c, ipv4.c, icmp.c, tcp.c, http.c, sending in
      i8254.c): packets made in memory and queued for the card; pings and ARP
      requests are answered with packets whose checksums verify; the ARP table.
    - [Ulib], [UlibProps] (ulib.c, printf.c): user-level strings and numbers;
      [printf] prints what the kernel's [cprintf] prints.
    - [Umalloc], [UmallocProps] (umalloc.c): the user-level allocator refines a store
      of blocks and merges freed memory completely.
    - [Grep] (grep.c): the matcher decides the language of the pattern; the lines
      printed.
    - [Sh], [ShProps] (sh.c, parsing): parsing ends on every line and undoes printing;
      [ShRun], [ShRunProps] (sh.c, running): the processes a command starts, as a
      tree, with the descriptors each of them holds; no end of a pipe stays open
      where it is not used.
    - [Uthread], [UthreadProps] (uthread1.c, uthread2.c, uthread3.c): the thread
      libraries and their programs as state machines a timer may preempt: the
      programs end, and only when every thread is done; [Uswitch] (uthread_switch.S):
      the switch itself on registers and memory.
    - [Io] (x86.h): ports, with what the devices answer as input and what is written
      recorded.  The drivers over it: [Kbd] (kbd.c), typed text reaches the console;
      [Apic], [ApicProps] (lapic.c, ioapic.c, picirq.c), routing of interrupts, the
      clock, the start of a processor; [Uart] (uart.c, debug.c); [Pci] (pci.c,
      set-up in i8254.c), the scan of the bus and the card's set-up.
    - [Uefi] (mp_uefi.c): the processors found in the firmware's table.
    - [FontBin], [Graphic] (font_bin.h, font.c, graphic.c): the frame
      buffer is the picture of a grid of characters, which the console moves as a
      teletype would; no store leaves the buffer.
    - [Ide], [IdeProps] (ide.c): requests queued by any processes reach the disk in
      order and one at a time, and each is served.
    - [Bootmain] (bootmain.c): the segments of the kernel's image in memory.
    - [Mkfs], [MkfsLay], [MkfsProps] (mkfs.c): the image built from a list of files is
      a file system in the sense of [Fs], and the kernel's [readi] reads from it what
      was put in.
    - [Desc] (mmu.h, x86.h; [seginit], [tvinit], [idtinit] and the task state of
      [switchuvm]): descriptors in memory, bit by bit, and what the processor reads
      from them.  [Trapasm], [TrapasmProps] (trapasm.S, vectors.pl, swtch.S, usys.S,
      initcode.S): the assembly as instructions of a model of the processor: every way
      into the kernel builds a trap frame on the process's kernel stack, the way back
      restores the program, and [swtch] leaves and resumes a context.  [Resume]: [fork]
      down to the instructions: parent and child both return to user mode.
    - [Startup] (entry.S, entryother.S, bootasm.S, asm.h, [startothers]): from real
      mode to the C code, with the boot page table, and the other processors started.

    ** Bounds and fuel

    Loops over tables run for the size of the table; other loops take fuel computed
    from their arguments (the pages of a range, the blocks of a transfer, the
    bytes of a path) that suffices for every input, so that the total-correctness
    theorems ([wp]) show in passing that the fuel is enough.  A loop that polls a
    device takes its fuel as an argument, since only the device bounds it.

    ** Not modelled

    The sequence of initialisers in [main] (main.c); the table search for machines
    without UEFI (mp.c), which is not linked; the small user programs and the tests of
    the kernel; of the drivers, the messages they print. *)

From stdpp Require Export functions.
From stdpp Require Export base tactics list gmap numbers strings.
From Stdlib Require Export ZArith Lia ZifyBool.

Create HintDb xv6.
Declare Scope xv6_scope.
Delimit Scope xv6_scope with xv6.
#[global] Open Scope Z_scope.

(** ** Machine integers

    C's [uchar], [ushort], [uint] and [int] are kept as [Z] together with the
    reduction that the hardware performs on every store and every arithmetic
    result. *)

Definition u8 (x : Z) : Z := x mod 2 ^ 8.
Definition u16 (x : Z) : Z := x mod 2 ^ 16.
Definition u32 (x : Z) : Z := x mod 2 ^ 32.
Definition s32 (x : Z) : Z :=
  if u32 x <? 2 ^ 31 then u32 x else u32 x - 2 ^ 32.

(** ** Outcomes and the kernel monad

    A kernel routine either returns, or calls [panic], which prints a message
    and never returns.  [NoFuel] is the value of a bounded loop whose bound was
    too small; every theorem about such a loop excludes it. *)

Inductive outcome (A : Type) : Type :=
| Ret (a : A)
| Panic (msg : string)
| NoFuel.
Arguments Ret {A} a.
Arguments Panic {A} msg.
Arguments NoFuel {A}.

(** A computation over a state [S]: explicit state passing, sequenced with
    [x <- m ;; k]. *)
Definition M (S A : Type) : Type := S -> outcome (A * S).
Definition ret {S A} (a : A) : M S A := fun s => Ret (a, s).
Definition panic {S A} (msg : string) : M S A := fun _ => Panic msg.
Definition nofuel {S A} : M S A := fun _ => NoFuel.
Definition bind {S A B} (m : M S A) (k : A -> M S B) : M S B :=
  fun s => match m s with
           | Ret (a, s') => k a s'
           | Panic e => Panic e
           | NoFuel => NoFuel
           end.
Definition get {S} : M S S := fun s => Ret (s, s).
Definition put {S} (s : S) : M S unit := fun _ => Ret (tt, s).
Definition gets {S A} (f : S -> A) : M S A := fun s => Ret (f s, s).
Definition modify {S} (f : S -> S) : M S unit := fun s => Ret (tt, f s).

Notation "x <- m ;; k" := (bind m (fun x => k))
  (at level 100, m at next level, right associativity) : xv6_scope.
Notation "m ;;; k" := (bind m (fun _ => k))
  (at level 100, right associativity) : xv6_scope.
#[global] Open Scope xv6_scope.

(** [forM n body i]: the C loop [for(; n iterations; i++) body(i)] whose body
    may stop early by returning [Some r]; the loop yields [None] when it ran to
    its end. *)
Fixpoint forM {S R} (n : nat) (body : Z -> M S (option R)) (i : Z) : M S (option R) :=
  match n with
  | O => ret None
  | Datatypes.S n' =>
      r <- body i ;;
      match r with
      | Some x => ret (Some x)
      | None => forM n' body (i + 1)
      end
  end.

(** Run a component's computation on its part of the state. *)
Definition lift {S T A} (sel : S -> T) (upd : T -> S -> S) (f : M T A) : M S A :=
  fun s => match f (sel s) with
           | Ret (a, t) => Ret (a, upd t s)
           | Panic e => Panic e
           | NoFuel => NoFuel
           end.

(** ** Automation *)

(** Unfold the monad's plumbing and compute. *)
Ltac munfold := unfold bind, ret, get, put, gets, modify, panic, nofuel in *.
Ltac mstep := repeat (progress (munfold; cbn beta iota)).

(** Turn the boolean tests of the code into propositions. *)
Ltac zbool :=
  repeat match goal with
  | H : (_ =? _) = true |- _ => apply Z.eqb_eq in H
  | H : (_ =? _) = false |- _ => apply Z.eqb_neq in H
  | H : (_ <? _) = true |- _ => apply Z.ltb_lt in H
  | H : (_ <? _) = false |- _ => apply Z.ltb_ge in H
  | H : (_ <=? _) = true |- _ => apply Z.leb_le in H
  | H : (_ <=? _) = false |- _ => apply Z.leb_gt in H
  | H : (_ >? _) = true |- _ => rewrite Z.gtb_ltb in H; apply Z.ltb_lt in H
  | H : (_ >? _) = false |- _ => rewrite Z.gtb_ltb in H; apply Z.ltb_ge in H
  | H : (_ >=? _) = true |- _ => rewrite Z.geb_leb in H; apply Z.leb_le in H
  | H : (_ >=? _) = false |- _ => rewrite Z.geb_leb in H; apply Z.leb_gt in H
  | H : (_ && _)%bool = true |- _ => apply andb_true_iff in H; destruct H
  | H : (_ && _)%bool = false |- _ => apply andb_false_iff in H
  | H : (_ || _)%bool = true |- _ => apply orb_true_iff in H
  | H : (_ || _)%bool = false |- _ => apply orb_false_iff in H; destruct H
  | H : negb _ = true |- _ => apply negb_true_iff in H
  | H : negb _ = false |- _ => apply negb_false_iff in H
  end.

(** Case analysis on the test of the first [if] or [match] of the goal. *)
Ltac case_if :=
  match goal with
  | |- context [ if ?b then _ else _ ] =>
      match type of b with
      | bool => let E := fresh "E" in destruct b eqn:E; zbool
      end
  end.

(** Case analysis on a test in a hypothesis. *)
Ltac case_if_in H :=
  match type of H with
  | context [ if ?b then _ else _ ] =>
      match type of b with
      | bool => let E := fresh "E" in destruct b eqn:E; zbool
      end
  end.

(** ** Lemmas on the monad *)

Lemma bind_ret_inv {S A B} (m : M S A) (k : A -> M S B) s b s'' :
  bind m k s = Ret (b, s'') ->
  exists a s', m s = Ret (a, s') /\ k a s' = Ret (b, s'').
Proof.
  unfold bind. destruct (m s) as [[a s']| |] eqn:E; try discriminate. eauto.
Qed.

Lemma bind_step {S A B} (m : M S A) (k : A -> M S B) s a s' :
  m s = Ret (a, s') -> bind m k s = k a s'.
Proof. unfold bind. intros ->. reflexivity. Qed.

Ltac inv_bind H :=
  let a := fresh "a" in let s := fresh "s" in let H1 := fresh "H" in
  apply bind_ret_inv in H; destruct H as (a & s & H1 & H).

(** ** Weakest preconditions

    [wp m Q s]: from [s] the computation [m] returns, and establishes [Q];
    [wlp m Q s]: if it returns, it establishes [Q]. *)

Definition wp {S A} (m : M S A) (Q : A -> S -> Prop) (s : S) : Prop :=
  match m s with Ret (a, s') => Q a s' | _ => False end.
Definition wlp {S A} (m : M S A) (Q : A -> S -> Prop) (s : S) : Prop :=
  match m s with Ret (a, s') => Q a s' | _ => True end.

Lemma wp_run {S A} (m : M S A) (Q : A -> S -> Prop) s a s' : wp m Q s -> m s = Ret (a, s') -> Q a s'.
Proof. intros H E. unfold wp in H. rewrite E in H. exact H. Qed.

Lemma wp_bind {S A B} (m : M S A) (k : A -> M S B) Q s :
  wp m (fun a s' => wp (k a) Q s') s -> wp (bind m k) Q s.
Proof. unfold wp, bind. destruct (m s) as [[a s']| |]; auto. Qed.

Lemma wlp_bind {S A B} (m : M S A) (k : A -> M S B) Q s :
  wlp m (fun a s' => wlp (k a) Q s') s -> wlp (bind m k) Q s.
Proof. unfold wlp, bind. destruct (m s) as [[a s']| |]; auto. Qed.

Lemma wp_pure {S A} (a : A) (Q : A -> S -> Prop) s : Q a s -> wp (ret a) Q s.
Proof. auto. Qed.

Lemma wp_gets {S A} (f : S -> A) (Q : A -> S -> Prop) s : Q (f s) s -> wp (gets f) Q s.
Proof. auto. Qed.

Lemma wlp_gets {S A} (f : S -> A) (Q : A -> S -> Prop) s : Q (f s) s -> wlp (gets f) Q s.
Proof. auto. Qed.

Lemma wp_modify {S} (f : S -> S) (Q : unit -> S -> Prop) s : Q tt (f s) -> wp (modify f) Q s.
Proof. auto. Qed.

Lemma wlp_modify {S} (f : S -> S) (Q : unit -> S -> Prop) s : Q tt (f s) -> wlp (modify f) Q s.
Proof. auto. Qed.

Lemma wp_mono {S A} (m : M S A) (Q R : A -> S -> Prop) s :
  wp m Q s -> (forall a s', Q a s' -> R a s') -> wp m R s.
Proof. unfold wp. destruct (m s) as [[a s']| |]; auto. Qed.

Lemma wlp_mono {S A} (m : M S A) (Q R : A -> S -> Prop) s :
  wlp m Q s -> (forall a s', Q a s' -> R a s') -> wlp m R s.
Proof. unfold wlp. destruct (m s) as [[a s']| |]; auto. Qed.

Lemma wp_wlp {S A} (m : M S A) (Q : A -> S -> Prop) s : wp m Q s -> wlp m Q s.
Proof. unfold wp, wlp. destruct (m s) as [[a s']| |]; tauto. Qed.

(** A computation that returns and is correct if it returns is correct. *)
Definition returns {S A} (m : M S A) (s : S) : Prop := wp m (fun _ _ => True) s.

Lemma wp_split {S A} (m : M S A) (Q : A -> S -> Prop) s : returns m s -> wlp m Q s -> wp m Q s.
Proof. unfold returns, wp, wlp. destruct (m s) as [[a s']| |]; tauto. Qed.

Lemma wp_and {S A} (m : M S A) (P Q : A -> S -> Prop) s :
  wp m P s -> wlp m Q s -> wp m (fun a s' => P a s' /\ Q a s') s.
Proof. unfold wp, wlp. destruct (m s) as [[a s']| |]; tauto. Qed.

Lemma wp_ret {S A} (m : M S A) (Q : A -> S -> Prop) s :
  wp m Q s -> exists a s', m s = Ret (a, s') /\ Q a s'.
Proof. unfold wp. destruct (m s) as [[a s']| |]; [eauto|tauto|tauto]. Qed.

Lemma wlp_ret {S A} (m : M S A) (Q : A -> S -> Prop) s a s' :
  wlp m Q s -> m s = Ret (a, s') -> Q a s'.
Proof. unfold wlp. intros HQ E. rewrite E in HQ. exact HQ. Qed.

(** ** Maps as functions *)

Lemma fn_insert_eq {B} (f : nat -> B) c x : <[c := x]> f c = x.
Proof. apply fn_lookup_insert. Qed.

Lemma fn_insert_ne {B} (f : nat -> B) c d x : c <> d -> <[c := x]> f d = f d.
Proof. apply fn_lookup_insert_ne. Qed.

(** Read a pointwise-updated map at [d]. *)
Ltac fn_at c d :=
  destruct (decide (c = d)) as [<-|];
  [rewrite ?fn_insert_eq in *|rewrite ?(fn_insert_ne _ c d) in * by assumption].

(** ** Lemmas on machine integers *)

Lemma u32_range x : 0 <= u32 x < 2 ^ 32.
Proof. apply Z.mod_pos_bound. lia. Qed.

Lemma u8_range x : 0 <= u8 x < 256.
Proof. apply Z.mod_pos_bound. lia. Qed.

Lemma u16_range x : 0 <= u16 x < 65536.
Proof. apply Z.mod_pos_bound. lia. Qed.

Lemma u32_small x : 0 <= x < 2 ^ 32 -> u32 x = x.
Proof. apply Z.mod_small. Qed.

Lemma u8_small x : 0 <= x < 256 -> u8 x = x.
Proof. apply Z.mod_small. Qed.

Lemma u16_small x : 0 <= x < 65536 -> u16 x = x.
Proof. apply Z.mod_small. Qed.

Lemma u32_u32 x : u32 (u32 x) = u32 x.
Proof. apply u32_small, u32_range. Qed.

Lemma u8_u8 x : u8 (u8 x) = u8 x.
Proof. apply u8_small, u8_range. Qed.

Lemma s32_range x : - 2 ^ 31 <= s32 x < 2 ^ 31.
Proof. unfold s32. pose proof (u32_range x). case_if; lia. Qed.

Lemma s32_small x : - 2 ^ 31 <= x < 2 ^ 31 -> s32 x = x.
Proof.
  intros H. unfold s32, u32. destruct (Z_lt_dec x 0).
  - replace (x mod 2 ^ 32) with (x + 2 ^ 32).
    + case_if; lia.
    + apply Z.mod_unique with (-1); lia.
  - rewrite Z.mod_small by lia. case_if; lia.
Qed.

#[export] Hint Resolve u32_range u8_range u16_range s32_range : xv6.

(** ** Counting *)

Definition one (b : bool) : nat := if b then 1 else 0.

(** How many of [l] satisfy a predicate, when it changes at one place. *)
Lemma count_change {A} `{EqDecision A} (P Q : A -> Prop) `{forall i, Decision (P i)} `{forall i, Decision (Q i)} l i :
  NoDup l -> i ∈ l -> (forall j, j <> i -> P j <-> Q j) ->
  (length (filter Q l) + one (bool_decide (P i)) = length (filter P l) + one (bool_decide (Q i)))%nat.
Proof.
  intros Hnd Hi Hpq. induction Hnd as [|a l Ha Hnd IH]; [by apply elem_of_nil in Hi|].
  assert (E : i ∉ l -> filter Q l = filter P l).
  { clear IH Hi Hnd Ha. induction l as [|b l IHl]; [done|]. rewrite not_elem_of_cons. intros [Hb Hn]. rewrite !filter_cons, IHl by done.
    destruct (decide (Q b)), (decide (P b)); try done; destruct (Hpq b); try tauto; congruence. }
  destruct (decide (a = i)) as [->|Hne].
  - rewrite !filter_cons, (E Ha). destruct (decide (P i)), (decide (Q i));
      repeat case_bool_decide; try contradiction; cbn; lia.
  - apply elem_of_cons in Hi as [|Hi]; [congruence|]. specialize (IH Hi). rewrite !filter_cons.
    destruct (decide (Q a)) as [Hq|Hq], (decide (P a)) as [Hp|Hp]; cbn; try lia; destruct (Hpq a Hne); tauto.
Qed.

Lemma eqb_decide a b : bool_decide (a = b) = (a =? b).
Proof. case_bool_decide; lia. Qed.
