(* ===== verification/Mem.v ===== *)
(** * Byte memory and the kernel's memory and string routines

    Models [src/xv6/string.c] over a byte-addressed memory.  A pointer is its
    address, an integer; a routine that the source declares to return its first
    argument returns the updated memory only.  [stosb] and [stosl] are the
    string instructions of [src/xv6/x86.h]. *)

From S2P Require Import Prelude.
Local Open Scope Z_scope.

(** Memory: a finite map from addresses to bytes. *)
Abbreviation mem := (gmap Z Z).

(** [*(uchar* )a] and [*(uchar* )a = v]. *)
Definition ldb (m : mem) (a : Z) : Z := u8 (default 0 (m !! a)).
Definition stb (m : mem) (a v : Z) : mem := <[a := u8 v]> m.

(** [*(uint* )a] and [*(uint* )a = v], little endian. *)
Definition ld32 (m : mem) (a : Z) : Z :=
  ldb m a + 2 ^ 8 * ldb m (a + 1) + 2 ^ 16 * ldb m (a + 2) + 2 ^ 24 * ldb m (a + 3).
Definition st32 (m : mem) (a v : Z) : mem :=
  stb (stb (stb (stb m a v) (a + 1) (Z.shiftr v 8)) (a + 2) (Z.shiftr v 16))
      (a + 3) (Z.shiftr v 24).

(** [cld; rep stosb]: store the low byte of [data] [cnt] times. *)
Fixpoint stosb (m : mem) (addr data : Z) (cnt : nat) : mem :=
  match cnt with
  | O => m
  | S cnt' => stosb (stb m addr data) (addr + 1) data cnt'
  end.

(** [cld; rep stosl]: store the word [data] [cnt] times. *)
Fixpoint stosl (m : mem) (addr data : Z) (cnt : nat) : mem :=
  match cnt with
  | O => m
  | S cnt' => stosl (st32 m addr data) (addr + 4) data cnt'
  end.

Definition memset (m : mem) (dst c n : Z) : mem :=
  if (Z.rem (s32 dst) 4 =? 0) && (n mod 4 =? 0) then
    let c := Z.land c 0xFF in
    stosl m dst
      (u32 (Z.lor (Z.lor (Z.lor (Z.shiftl c 24) (Z.shiftl c 16)) (Z.shiftl c 8)) c))
      (Z.to_nat (n / 4))
  else
    stosb m dst c (Z.to_nat n).

Fixpoint memcmp_loop (m : mem) (s1 s2 : Z) (n : nat) : Z :=
  match n with
  | O => 0
  | S n' =>
      if negb (ldb m s1 =? ldb m s2) then ldb m s1 - ldb m s2
      else memcmp_loop m (s1 + 1) (s2 + 1) n'
  end.
Definition memcmp (m : mem) (v1 v2 n : Z) : Z := memcmp_loop m v1 v2 (Z.to_nat n).

(** The two copying loops of [memmove]. *)
Fixpoint move_down (m : mem) (d s : Z) (n : nat) : mem :=
  match n with
  | O => m
  | S n' => move_down (stb m (d - 1) (ldb m (s - 1))) (d - 1) (s - 1) n'
  end.
Fixpoint move_up (m : mem) (d s : Z) (n : nat) : mem :=
  match n with
  | O => m
  | S n' => move_up (stb m d (ldb m s)) (d + 1) (s + 1) n'
  end.
Definition memmove (m : mem) (dst src n : Z) : mem :=
  if (src <? dst) && (src + n >? dst)
  then move_down m (dst + n) (src + n) (Z.to_nat n)
  else move_up m dst src (Z.to_nat n).

Definition memcpy (m : mem) (dst src n : Z) : mem := memmove m dst src n.

Fixpoint strncmp_loop (m : mem) (p q : Z) (n : nat) : Z :=
  match n with
  | O => 0
  | S n' =>
      if negb (ldb m p =? 0) && (ldb m p =? ldb m q)
      then strncmp_loop m (p + 1) (q + 1) n'
      else ldb m p - ldb m q
  end.
Definition strncmp (m : mem) (p q n : Z) : Z := strncmp_loop m p q (Z.to_nat n).

(** First loop of [strncpy]: copy up to and including the NUL; the result is
    the memory, the advanced [s] and the count left for the padding loop. *)
Fixpoint strncpy_copy (m : mem) (s t : Z) (n : nat) : mem * Z * nat :=
  match n with
  | O => (m, s, O)
  | S n' =>
      let c := ldb m t in
      let m' := stb m s c in
      if negb (c =? 0) then strncpy_copy m' (s + 1) (t + 1) n'
      else (m', s + 1, n')
  end.
Fixpoint strncpy_pad (m : mem) (s : Z) (n : nat) : mem :=
  match n with
  | O => m
  | S n' => strncpy_pad (stb m s 0) (s + 1) n'
  end.
Definition strncpy (m : mem) (s t n : Z) : mem :=
  let '(m', s', n') := strncpy_copy m s t (Z.to_nat n) in
  strncpy_pad m' s' n'.

(** Loop of [safestrcpy], entered with the count already decremented; returns
    the memory and the advanced [s]. *)
Fixpoint safestrcpy_copy (m : mem) (s t : Z) (n : nat) : mem * Z :=
  match n with
  | O => (m, s)
  | S n' =>
      let c := ldb m t in
      let m' := stb m s c in
      if negb (c =? 0) then safestrcpy_copy m' (s + 1) (t + 1) n'
      else (m', s + 1)
  end.
Definition safestrcpy (m : mem) (s t n : Z) : mem :=
  if n <=? 0 then m
  else
    let '(m', s') := safestrcpy_copy m s t (Z.to_nat (n - 1)) in
    stb m' s' 0.

(** [strlen] has no bound in the source: [fuel] bounds the scan. *)
Fixpoint strlen_loop (fuel : nat) (m : mem) (s n : Z) : outcome Z :=
  match fuel with
  | O => NoFuel
  | S fuel' => if ldb m (s + n) =? 0 then Ret n else strlen_loop fuel' m s (n + 1)
  end.
Definition strlen (fuel : nat) (m : mem) (s : Z) : outcome Z := strlen_loop fuel m s 0.

(** ** Loads after stores *)

Lemma ldb_range m a : 0 <= ldb m a < 256.
Proof. apply u8_range. Qed.
#[export] Hint Resolve ldb_range : xv6.

Lemma ldb_stb m a v x : ldb (stb m a v) x = if x =? a then u8 v else ldb m x.
Proof.
  unfold ldb, stb. case_if.
  - subst. rewrite lookup_insert_eq. apply u8_u8.
  - rewrite lookup_insert_ne by congruence. reflexivity.
Qed.

Lemma ldb_stb_same m a v : ldb (stb m a v) a = u8 v.
Proof. rewrite ldb_stb, Z.eqb_refl. reflexivity. Qed.

Lemma ldb_stb_ne m a v x : x <> a -> ldb (stb m a v) x = ldb m x.
Proof. intros. rewrite ldb_stb. case_if; congruence. Qed.

(** Byte [k] of the word [v]. *)
Definition byte_of (v k : Z) : Z := u8 (Z.shiftr v (8 * k)).

Lemma ldb_st32 m a v x :
  ldb (st32 m a v) x = if (a <=? x) && (x <? a + 4) then byte_of v (x - a) else ldb m x.
Proof.
  unfold st32, byte_of. rewrite !ldb_stb.
  repeat case_if; try lia; subst; try (f_equal; f_equal; lia).
  replace (8 * (a - a)) with 0 by lia. rewrite Z.shiftr_0_r. reflexivity.
Qed.

Lemma u32_bytes v :
  byte_of v 0 + 2 ^ 8 * byte_of v 1 + 2 ^ 16 * byte_of v 2 + 2 ^ 24 * byte_of v 3 = u32 v.
Proof.
  unfold byte_of, u8, u32. rewrite !Z.shiftr_div_pow2 by lia.
  change (8 * 0) with 0. change (8 * 1) with 8. change (8 * 2) with 16.
  change (8 * 3) with 24.
  change (2 ^ 0) with 1. rewrite Z.div_1_r.
  change (2 ^ 32) with (2 ^ 8 * (2 ^ 8 * (2 ^ 8 * 2 ^ 8))).
  change (2 ^ 16) with (2 ^ 8 * 2 ^ 8). change (2 ^ 24) with (2 ^ 8 * (2 ^ 8 * 2 ^ 8)).
  rewrite !Z.rem_mul_r, <- !Z.div_div by lia. lia.
Qed.

Lemma ld32_range m a : 0 <= ld32 m a < 2 ^ 32.
Proof.
  unfold ld32. pose proof (ldb_range m a). pose proof (ldb_range m (a + 1)).
  pose proof (ldb_range m (a + 2)). pose proof (ldb_range m (a + 3)). lia.
Qed.
#[export] Hint Resolve ld32_range : xv6.

Lemma ld32_st32_same m a v : ld32 (st32 m a v) a = u32 v.
Proof.
  unfold ld32. rewrite !ldb_st32, <- (u32_bytes v).
  repeat case_if; try lia.
  replace (a - a) with 0 by lia. replace (a + 1 - a) with 1 by lia.
  replace (a + 2 - a) with 2 by lia. replace (a + 3 - a) with 3 by lia. reflexivity.
Qed.

Lemma ld32_ext m m' a :
  (forall x, a <= x < a + 4 -> ldb m x = ldb m' x) -> ld32 m a = ld32 m' a.
Proof. intros H. unfold ld32. rewrite !H by lia. reflexivity. Qed.

Lemma ld32_st32_ne m a v b : a + 4 <= b \/ b + 4 <= a -> ld32 (st32 m a v) b = ld32 m b.
Proof.
  intros H. apply ld32_ext. intros x Hx. rewrite ldb_st32. case_if; [lia|reflexivity].
Qed.

(** ** The fill instructions *)

Lemma ldb_stosb n : forall m a c x,
  ldb (stosb m a c n) x = if (a <=? x) && (x <? a + Z.of_nat n) then u8 c else ldb m x.
Proof.
  induction n as [|n IH]; intros m a c x.
  - cbn [stosb]. case_if; [lia|reflexivity].
  - cbn [stosb]. rewrite IH, ldb_stb. repeat case_if; try lia; reflexivity.
Qed.

Lemma ldb_stosl n : forall m a w x,
  ldb (stosl m a w n) x =
  if (a <=? x) && (x <? a + 4 * Z.of_nat n) then byte_of w ((x - a) mod 4) else ldb m x.
Proof.
  induction n as [|n IH]; intros m a w x.
  - cbn [stosl]. case_if; [lia|reflexivity].
  - cbn [stosl]. rewrite IH, ldb_st32. repeat case_if; try lia; try reflexivity.
    + f_equal. replace (x - (a + 4)) with (x - a + (-1) * 4) by lia.
      apply Z.mod_add. lia.
    + f_equal. symmetry. apply Z.mod_small. lia.
Qed.

(** The word [memset] replicates has [c] in each of its bytes. *)
Lemma splat_byte c k :
  0 <= k < 4 ->
  let c' := Z.land c 0xFF in
  byte_of (u32 (Z.lor (Z.lor (Z.lor (Z.shiftl c' 24) (Z.shiftl c' 16)) (Z.shiftl c' 8)) c')) k
  = u8 c.
Proof.
  intros Hk c'. unfold byte_of, u8, u32.
  apply Z.bits_inj'. intros i Hi.
  destruct (Z_lt_dec i 8) as [Hlt|Hge].
  2: { rewrite !Z.mod_pow2_bits_high by lia. reflexivity. }
  rewrite !Z.mod_pow2_bits_low by lia.
  rewrite Z.shiftr_spec, Z.mod_pow2_bits_low by lia.
  rewrite !Z.lor_spec, !Z.shiftl_spec by lia.
  subst c'. rewrite !Z.land_spec.
  change 0xFF with (Z.ones 8).
  assert (Hb : forall j, Z.testbit (Z.ones 8) j = (0 <=? j) && (j <? 8)).
  { intros j. destruct (Z_lt_dec j 0).
    - rewrite Z.testbit_neg_r by lia. symmetry. apply andb_false_iff. lia.
    - rewrite Z.testbit_ones_nonneg by lia. destruct (Z.leb_spec 0 j); [reflexivity|lia]. }
  rewrite !Hb.
  assert (k = 0 \/ k = 1 \/ k = 2 \/ k = 3) as [ -> | [ -> | [ -> | -> ] ] ] by lia.
  all: repeat match goal with |- context [?a <=? ?b] =>
         let E := fresh in destruct (a <=? b) eqn:E; zbool; try lia end.
  all: repeat match goal with |- context [?a <? ?b] =>
         let E := fresh in destruct (a <? b) eqn:E; zbool; try lia end.
  all: rewrite ?andb_true_r, ?andb_false_r, ?orb_false_l, ?orb_false_r; cbn.
  all: f_equal; lia.
Qed.

Lemma rem4_s32 x : (Z.rem (s32 x) 4 =? 0) = (x mod 4 =? 0).
Proof.
  apply eq_true_iff_eq. rewrite !Z.eqb_eq, Z.rem_divide, Z.mod_divide by lia.
  unfold s32, u32.
  assert (Hx : x mod 2 ^ 32 = x - 4 * (2 ^ 30 * (x / 2 ^ 32))).
  { pose proof (Z.div_mod x (2 ^ 32)). lia. }
  rewrite Hx. case_if; split; intros [q Hq].
  - exists (q + 2 ^ 30 * (x / 2 ^ 32)). lia.
  - exists (q - 2 ^ 30 * (x / 2 ^ 32)). lia.
  - exists (q + 2 ^ 30 * (x / 2 ^ 32) + 2 ^ 30). lia.
  - exists (q - 2 ^ 30 * (x / 2 ^ 32) - 2 ^ 30). lia.
Qed.

(** Functional behaviour of [memset], whichever instruction it selects. *)
Lemma ldb_memset m dst c n x :
  0 <= n ->
  ldb (memset m dst c n) x =
  if (dst <=? x) && (x <? dst + n) then u8 c else ldb m x.
Proof.
  intros Hn. unfold memset. rewrite rem4_s32.
  destruct ((dst mod 4 =? 0) && (n mod 4 =? 0)) eqn:E; zbool.
  - rewrite ldb_stosl, Z2Nat.id by (apply Z.div_pos; lia).
    replace (4 * (n / 4)) with n by (pose proof (Z.div_mod n 4); lia).
    case_if; [|reflexivity]. apply splat_byte. apply Z.mod_pos_bound. lia.
  - rewrite ldb_stosb, Z2Nat.id by lia. reflexivity.
Qed.

Lemma ld32_memset_out m dst c n a :
  0 <= n -> a + 4 <= dst \/ dst + n <= a -> ld32 (memset m dst c n) a = ld32 m a.
Proof.
  intros Hn Ha. apply ld32_ext. intros x Hx. rewrite ldb_memset by lia.
  case_if; [lia|reflexivity].
Qed.

Lemma ld32_memset_zero m dst n a :
  0 <= n -> dst <= a -> a + 4 <= dst + n -> ld32 (memset m dst 0 n) a = 0.
Proof.
  intros Hn H1 H2. unfold ld32. rewrite !ldb_memset by lia.
  repeat case_if; lia || reflexivity.
Qed.

(** ** Copies *)

Lemma ldb_move_up n : forall m d s x,
  ~ (s < d < s + Z.of_nat n) ->
  ldb (move_up m d s n) x =
  if (d <=? x) && (x <? d + Z.of_nat n) then ldb m (s + (x - d)) else ldb m x.
Proof.
  induction n as [|n IH]; intros m d s x Hsep; cbn [move_up].
  - case_if; [lia|reflexivity].
  - rewrite IH by lia. rewrite !ldb_stb. repeat case_if; try lia; try reflexivity.
    + f_equal. lia.
    + subst. rewrite u8_small by apply ldb_range. f_equal. lia.
Qed.

Lemma ldb_move_down n : forall m d s x,
  s <= d ->
  ldb (move_down m d s n) x =
  if (d - Z.of_nat n <=? x) && (x <? d) then ldb m (s + (x - d)) else ldb m x.
Proof.
  induction n as [|n IH]; intros m d s x Hsep; cbn [move_down].
  - case_if; [lia|reflexivity].
  - rewrite IH by lia. rewrite !ldb_stb. repeat case_if; try lia; try reflexivity.
    + f_equal. lia.
    + subst. rewrite u8_small by apply ldb_range. f_equal. lia.
Qed.

Lemma ldb_memmove m dst src n x :
  0 <= n ->
  ldb (memmove m dst src n) x =
  if (dst <=? x) && (x <? dst + n) then ldb m (src + (x - dst)) else ldb m x.
Proof.
  intros Hn. unfold memmove. case_if.
  - rewrite ldb_move_down, Z2Nat.id by lia.
    replace (dst + n - n) with dst by lia. case_if; [|reflexivity]. f_equal. lia.
  - rewrite ldb_move_up; rewrite Z2Nat.id by lia; [reflexivity|lia].
Qed.

(** ** Comparisons *)

Lemma memcmp_loop_spec n : forall m a b,
  (memcmp_loop m a b n = 0 <->
   forall i, 0 <= i < Z.of_nat n -> ldb m (a + i) = ldb m (b + i)).
Proof.
  induction n as [|n IH]; intros m a b; cbn [memcmp_loop].
  - split; intros; [lia|reflexivity].
  - destruct (ldb m a =? ldb m b) eqn:E; zbool; cbn [negb].
    + rewrite IH. split; intros H i Hi.
      * destruct (Z.eq_dec i 0) as [->|]; [rewrite !Z.add_0_r; exact E|].
        specialize (H (i - 1)). replace (a + 1 + (i - 1)) with (a + i) in H by lia.
        replace (b + 1 + (i - 1)) with (b + i) in H by lia. apply H. lia.
      * specialize (H (i + 1)). replace (a + (i + 1)) with (a + 1 + i) in H by lia.
        replace (b + (i + 1)) with (b + 1 + i) in H by lia. apply H. lia.
    + split; intros H.
      * pose proof (ldb_range m a). lia.
      * specialize (H 0). rewrite !Z.add_0_r in H. lia.
Qed.

Lemma memcmp_zero_iff m v1 v2 n :
  0 <= n ->
  memcmp m v1 v2 n = 0 <-> forall i, 0 <= i < n -> ldb m (v1 + i) = ldb m (v2 + i).
Proof. intros Hn. unfold memcmp. rewrite memcmp_loop_spec, Z2Nat.id by lia. reflexivity. Qed.

(** ** Strings *)

(** The string at [p]: its bytes before the first NUL, at most [n] of them. *)
Fixpoint cstr (m : mem) (p : Z) (n : nat) : list Z :=
  match n with
  | O => []
  | S n' => if ldb m p =? 0 then [] else ldb m p :: cstr m (p + 1) n'
  end.

Lemma cstr_ext n : forall m m' p,
  (forall x, p <= x < p + Z.of_nat n -> ldb m x = ldb m' x) -> cstr m p n = cstr m' p n.
Proof.
  induction n as [|n IH]; intros m m' p H; cbn [cstr]; [reflexivity|].
  rewrite <- H by lia. rewrite (IH m m') by (intros; apply H; lia). reflexivity.
Qed.

Lemma cstr_length n : forall m p, (length (cstr m p n) <= n)%nat.
Proof.
  induction n as [|n IH]; intros m p; cbn [cstr]; [reflexivity|].
  case_if; cbn [length]; [lia|]. specialize (IH m (p + 1)). lia.
Qed.

Lemma cstr_lookup n : forall m p k b,
  cstr m p n !! k = Some b -> b = ldb m (p + Z.of_nat k) /\ b <> 0.
Proof.
  induction n as [|n IH]; intros m p k b; cbn [cstr]; [rewrite lookup_nil; discriminate|].
  case_if; [rewrite lookup_nil; discriminate|].
  destruct k as [|k]; cbn [lookup list_lookup]; intros H.
  - injection H as <-. rewrite Z.add_0_r. auto.
  - apply IH in H. replace (p + Z.of_nat (S k)) with (p + 1 + Z.of_nat k) by lia. exact H.
Qed.

Lemma strncmp_loop_zero n : forall m p q,
  strncmp_loop m p q n = 0 <-> cstr m p n = cstr m q n.
Proof.
  induction n as [|n IH]; intros m p q; cbn [strncmp_loop cstr]; [tauto|].
  destruct (ldb m p =? 0) eqn:E1; zbool; cbn [negb andb].
  - rewrite E1. case_if; zbool; split; intros; lia || congruence.
  - destruct (ldb m p =? ldb m q) eqn:E2; zbool.
    + rewrite IH, <- E2. case_if; [lia|]. split; [intros ->; reflexivity|congruence].
    + case_if; split; intros; lia || congruence.
Qed.

Lemma ldb_strncpy_pad n : forall m s x,
  ldb (strncpy_pad m s n) x = if (s <=? x) && (x <? s + Z.of_nat n) then 0 else ldb m x.
Proof.
  induction n as [|n IH]; intros m s x; cbn [strncpy_pad].
  - case_if; [lia|reflexivity].
  - rewrite IH, ldb_stb. repeat case_if; try lia; reflexivity.
Qed.

(** Byte [i] of the field [strncpy] writes. *)
Definition pad_at (l : list Z) (i : Z) : Z := default 0 (l !! Z.to_nat i).

Lemma pad_at_cons b l i : 0 < i -> pad_at (b :: l) i = pad_at l (i - 1).
Proof.
  intros Hi. unfold pad_at. replace (Z.to_nat i) with (S (Z.to_nat (i - 1))) by lia.
  reflexivity.
Qed.

Lemma ldb_strncpy_loops n : forall m s t x,
  s + Z.of_nat n <= t \/ t + Z.of_nat n <= s ->
  ldb (let '(m', s', n') := strncpy_copy m s t n in strncpy_pad m' s' n') x =
  if (s <=? x) && (x <? s + Z.of_nat n) then pad_at (cstr m t n) (x - s) else ldb m x.
Proof.
  induction n as [|n IH]; intros m s t x Hsep; cbn [strncpy_copy cstr].
  - cbn [strncpy_pad]. case_if; [lia|reflexivity].
  - destruct (ldb m t =? 0) eqn:E; zbool; cbn [negb].
    + rewrite ldb_strncpy_pad, ldb_stb. repeat case_if; try lia; try reflexivity.
      rewrite E. unfold pad_at. rewrite lookup_nil. reflexivity.
    + rewrite IH by lia.
      rewrite (cstr_ext n (stb m s (ldb m t)) m (t + 1))
        by (intros y Hy; rewrite ldb_stb_ne by lia; reflexivity).
      rewrite ldb_stb. repeat case_if; try lia; try reflexivity.
      * rewrite pad_at_cons by lia. f_equal. lia.
      * subst x. rewrite Z.sub_diag. cbn. apply u8_small, ldb_range.
Qed.

Lemma ldb_strncpy m s t n x :
  0 <= n -> s + n <= t \/ t + n <= s ->
  ldb (strncpy m s t n) x =
  if (s <=? x) && (x <? s + n) then pad_at (cstr m t (Z.to_nat n)) (x - s) else ldb m x.
Proof.
  intros Hn Hsep. unfold strncpy.
  rewrite ldb_strncpy_loops by (rewrite Z2Nat.id by lia; exact Hsep).
  rewrite Z2Nat.id by lia. reflexivity.
Qed.

Lemma ldb_safestrcpy_loop n : forall m s t x,
  s + Z.of_nat n + 1 <= t \/ t + Z.of_nat n <= s ->
  ldb (let '(m', s') := safestrcpy_copy m s t n in stb m' s' 0) x =
  let l := cstr m t n in
  if (s <=? x) && (x <=? s + Z.of_nat (length l)) then pad_at l (x - s)
  else if (Z.of_nat (length l) <? Z.of_nat n) && (x =? s + Z.of_nat (length l) + 1)
       then 0 else ldb m x.
Proof.
  induction n as [|n IH]; intros m s t x Hsep; cbn [safestrcpy_copy cstr].
  - rewrite ldb_stb. cbn [length]. repeat case_if; try lia; reflexivity.
  - destruct (ldb m t =? 0) eqn:E; zbool; cbn [negb].
    + rewrite !ldb_stb. cbn [length]. repeat case_if; try lia; try reflexivity.
      rewrite E. unfold pad_at. rewrite lookup_nil. reflexivity.
    + rewrite IH by lia.
      rewrite (cstr_ext n (stb m s (ldb m t)) m (t + 1))
        by (intros y Hy; rewrite ldb_stb_ne by lia; reflexivity).
      rewrite ldb_stb. cbn [length]. cbv zeta.
      repeat case_if; try lia; try reflexivity.
      * rewrite pad_at_cons by lia. f_equal. lia.
      * subst x. rewrite Z.sub_diag. cbn. apply u8_small, ldb_range.
Qed.
