(* ===== verification/Mmu.v ===== *)
(** * Address arithmetic

    The macros of [src/xv6/mmu.h] and [src/xv6/memlayout.h] on 32-bit
    addresses, with the arithmetic reading of the bit operations. *)

From S2P Require Import Prelude.
Local Open Scope Z_scope.

Definition PGSIZE : Z := 4096.
Definition NPDENTRIES : Z := 1024.
Definition NPTENTRIES : Z := 1024.
Definition PTXSHIFT : Z := 12.
Definition PDXSHIFT : Z := 22.

Definition EXTMEM : Z := 0x100000.
Definition PHYSTOP : Z := 0x20000000.
Definition DEVSPACE : Z := 0xFE000000.
Definition KERNBASE : Z := 0x80000000.
Definition KERNLINK : Z := KERNBASE + EXTMEM.
Definition PCI_BAR_BASE : Z := 0x80000000.
Definition PCI_VP_OFFSET : Z := 0x40000000.
Definition KSTACKSIZE : Z := 4096.

Definition V2P (a : Z) : Z := u32 (a - KERNBASE).
Definition P2V (a : Z) : Z := u32 (a + KERNBASE).

Definition PDX (va : Z) : Z := Z.land (Z.shiftr va PDXSHIFT) 0x3FF.
Definition PTX (va : Z) : Z := Z.land (Z.shiftr va PTXSHIFT) 0x3FF.
Definition PGADDR (d t o : Z) : Z :=
  u32 (Z.lor (Z.lor (Z.shiftl d PDXSHIFT) (Z.shiftl t PTXSHIFT)) o).

Definition PGROUNDUP (sz : Z) : Z := Z.land (u32 (sz + PGSIZE - 1)) (u32 (Z.lnot (PGSIZE - 1))).
Definition PGROUNDDOWN (a : Z) : Z := Z.land a (u32 (Z.lnot (PGSIZE - 1))).

Definition PTE_P : Z := 0x001.
Definition PTE_W : Z := 0x002.
Definition PTE_U : Z := 0x004.
Definition PTE_PS : Z := 0x080.

Definition PTE_ADDR (pte : Z) : Z := Z.land pte (u32 (Z.lnot 0xFFF)).
Definition PTE_FLAGS (pte : Z) : Z := Z.land pte 0xFFF.

(** [*pte & bit] as a truth value. *)
Definition has (pte bit : Z) : bool := negb (Z.land pte bit =? 0).

(** ** Bit operations read as arithmetic *)

Lemma land_mask_down a :
  0 <= a < 2 ^ 32 -> Z.land a (u32 (Z.lnot 0xFFF)) = a / 4096 * 4096.
Proof.
  intros Ha. change (u32 (Z.lnot 0xFFF)) with (Z.shiftl (Z.ones 20) 12).
  change 4096 with (2 ^ 12).
  rewrite <- Z.shiftl_mul_pow2, <- Z.shiftr_div_pow2 by lia.
  apply Z.bits_inj'. intros i Hi.
  rewrite Z.land_spec, !Z.shiftl_spec by lia.
  destruct (Z_lt_dec i 12).
  - rewrite !(Z.testbit_neg_r _ (i - 12)) by lia. apply andb_false_r.
  - rewrite Z.shiftr_spec by lia. replace (i - 12 + 12) with i by lia.
    destruct (Z_lt_dec i 32).
    + rewrite Z.ones_spec_low by lia. apply andb_true_r.
    + rewrite Z.ones_spec_high by lia.
      rewrite <- (Z.mod_small a (2 ^ 32)) by lia.
      rewrite Z.mod_pow2_bits_high by lia. reflexivity.
Qed.

Lemma PGROUNDDOWN_arith a : 0 <= a < 2 ^ 32 -> PGROUNDDOWN a = a / 4096 * 4096.
Proof. apply land_mask_down. Qed.

Lemma PTE_ADDR_arith a : 0 <= a < 2 ^ 32 -> PTE_ADDR a = a / 4096 * 4096.
Proof. apply land_mask_down. Qed.

Lemma PGROUNDUP_arith sz : PGROUNDUP sz = u32 (sz + 4095) / 4096 * 4096.
Proof.
  unfold PGROUNDUP, PGSIZE. replace (sz + 4096 - 1) with (sz + 4095) by lia.
  apply land_mask_down, u32_range.
Qed.

Lemma PTE_FLAGS_arith a : PTE_FLAGS a = a mod 4096.
Proof. apply (Z.land_ones a 12). lia. Qed.

Lemma PDX_arith va : PDX va = va / 2 ^ 22 mod 1024.
Proof.
  unfold PDX. rewrite Z.shiftr_div_pow2 by (unfold PDXSHIFT; lia).
  apply (Z.land_ones _ 10). lia.
Qed.

Lemma PTX_arith va : PTX va = va / 4096 mod 1024.
Proof.
  unfold PTX. rewrite Z.shiftr_div_pow2 by (unfold PTXSHIFT; lia).
  apply (Z.land_ones _ 10). lia.
Qed.

Lemma PDX_range va : 0 <= PDX va < 1024.
Proof. rewrite PDX_arith. apply Z.mod_pos_bound. lia. Qed.

Lemma PTX_range va : 0 <= PTX va < 1024.
Proof. rewrite PTX_arith. apply Z.mod_pos_bound. lia. Qed.
#[export] Hint Resolve PDX_range PTX_range : xv6.

(** The two indices determine the page. *)
Lemma page_index va : 0 <= va < 2 ^ 32 -> va / 4096 = 1024 * PDX va + PTX va.
Proof.
  intros H. rewrite PDX_arith, PTX_arith.
  change (2 ^ 22) with (4096 * 1024). rewrite <- Z.div_div by lia.
  rewrite (Z.mod_small (va / 4096 / 1024)).
  - apply Z.div_mod. lia.
  - split; [apply Z.div_pos; [apply Z.div_pos; lia|lia]|].
    apply Z.div_lt_upper_bound; [lia|]. apply Z.div_lt_upper_bound; lia.
Qed.

Lemma PGROUNDDOWN_aligned a : 0 <= a < 2 ^ 32 -> PGROUNDDOWN a mod 4096 = 0.
Proof. intros. rewrite PGROUNDDOWN_arith by assumption. apply Z.mod_mul. lia. Qed.

Lemma PGROUNDDOWN_bounds a :
  0 <= a < 2 ^ 32 -> 0 <= PGROUNDDOWN a <= a /\ a < PGROUNDDOWN a + 4096.
Proof.
  intros. rewrite PGROUNDDOWN_arith by assumption.
  pose proof (Z.div_mod a 4096). pose proof (Z.mod_pos_bound a 4096).
  pose proof (Z.div_pos a 4096). lia.
Qed.

Lemma PGROUNDDOWN_id a : 0 <= a < 2 ^ 32 -> a mod 4096 = 0 -> PGROUNDDOWN a = a.
Proof.
  intros H Ha. rewrite PGROUNDDOWN_arith by assumption.
  pose proof (Z.div_mod a 4096). lia.
Qed.

Lemma V2P_P2V a : 0 <= a < 2 ^ 31 -> V2P (P2V a) = a.
Proof. intros. unfold V2P, P2V, KERNBASE. rewrite !u32_small; rewrite ?u32_small; lia. Qed.

Lemma P2V_V2P a : KERNBASE <= a < 2 ^ 32 -> P2V (V2P a) = a.
Proof.
  unfold V2P, P2V, KERNBASE. intros. rewrite !u32_small; rewrite ?u32_small; lia.
Qed.

(** A page-aligned address or-ed with flag bits: the parts are recovered. *)
Lemma lor_aligned pa fl : 0 <= fl < 4096 -> pa mod 4096 = 0 -> Z.lor pa fl = pa + fl.
Proof.
  intros Hf Hp. rewrite <- Z.add_lor_land.
  replace (Z.land pa fl) with 0; [lia|].
  symmetry. apply Z.bits_inj'. intros i Hi. rewrite Z.land_spec, Z.bits_0.
  destruct (Z_lt_dec i 12).
  - replace pa with (pa / 4096 * 2 ^ 12) by (pose proof (Z.div_mod pa 4096); lia).
    rewrite Z.mul_pow2_bits_low by lia. reflexivity.
  - rewrite <- (Z.mod_small fl (2 ^ 12)) by lia.
    rewrite Z.mod_pow2_bits_high by lia. apply andb_false_r.
Qed.
