(* ===== verification/Spinlock.v ===== *)
(** * Spin locks

    Models [src/xv6/spinlock.c] and [mycpu] of [src/xv6/proc.c]: interrupt
    nesting ([pushcli], [popcli]), the lock operations as one CPU executes them,
    and all CPUs competing for one lock as a step relation whose steps are the
    atomic memory operations of [acquire] and [release].

    The last section is the interface the other components use: a lock as its
    holder sees it, one bit that [acquire] sets and [release] clears. *)

From S2P Require Import Prelude Mem Mmu.
Local Open Scope Z_scope.

(** ** Per-CPU interrupt state *)

Definition FL_IF : Z := 0x200.

(** The fields of [struct cpu] the locks use, and the CPU's flags register. *)
Record cpu := mkcpu { eflags : Z; ncli : Z; intena : Z; apicid : Z }.

Definition cli (c : cpu) : cpu :=
  mkcpu (Z.ldiff (eflags c) FL_IF) (ncli c) (intena c) (apicid c).
Definition sti (c : cpu) : cpu :=
  mkcpu (Z.lor (eflags c) FL_IF) (ncli c) (intena c) (apicid c).

(** [mycpu]: the index in [cpus] of the running CPU, found by its APIC id. *)
Fixpoint mycpu_scan (cpus : list cpu) (id : Z) (i : nat) : outcome nat :=
  match cpus with
  | [] => Panic "unknown apicid"
  | c :: cs => if apicid c =? id then Ret i else mycpu_scan cs id (S i)
  end.
Definition mycpu (cpus : list cpu) (flags lapicid : Z) : outcome nat :=
  if negb (Z.land flags FL_IF =? 0) then Panic "mycpu called with interrupts enabled"
  else mycpu_scan cpus lapicid 0.

Definition pushcli : M cpu unit :=
  fl <- gets eflags ;;
  modify cli ;;;
  c <- get ;;
  (if ncli c =? 0
   then put (mkcpu (eflags c) (ncli c) (Z.land fl FL_IF) (apicid c)) else ret tt) ;;;
  modify (fun c => mkcpu (eflags c) (ncli c + 1) (intena c) (apicid c)).

Definition popcli : M cpu unit :=
  c <- get ;;
  if negb (Z.land (eflags c) FL_IF =? 0) then panic "popcli - interruptible"
  else
    put (mkcpu (eflags c) (ncli c - 1) (intena c) (apicid c)) ;;;
    if ncli c - 1 <? 0 then panic "popcli"
    else if (ncli c - 1 =? 0) && negb (intena c =? 0) then modify sti
    else ret tt.

(** ** The call stack recorded in a lock *)

Fixpoint getcallerpcs_walk (n : nat) (m : mem) (ebp : Z) : list Z :=
  match n with
  | O => []
  | S n' =>
      if (ebp =? 0) || (ebp <? KERNBASE) || (ebp =? 0xffffffff)
      then replicate n 0
      else ld32 m (ebp + 4) :: getcallerpcs_walk n' m (ld32 m ebp)
  end.
Definition getcallerpcs (m : mem) (v : Z) : list Z := getcallerpcs_walk 10 m (u32 (v - 8)).

(** ** The lock *)

Record spinlock := mklock {
  locked : Z; lname : string; lcpu : option nat; pcs : list Z }.

Definition initlock (name : string) (lk : spinlock) : spinlock :=
  mklock 0 name None (pcs lk).

Definition holding (lk : spinlock) (me : nat) : bool :=
  negb (locked lk =? 0) && bool_decide (lcpu lk = Some me).

(** [acquire] and [release] as executed by CPU [me]; [m] and [v] are the stack
    memory and the address the debugging record is taken from.  [fuel] bounds
    the spinning. *)
Record lkst := mklkst { self : cpu; lk : spinlock }.

Definition on_cpu {A} (f : M cpu A) : M lkst A :=
  fun s => match f (self s) with
           | Ret (a, c) => Ret (a, mklkst c (lk s))
           | Panic e => Panic e
           | NoFuel => NoFuel
           end.
Definition xchg_locked (newval : Z) : M lkst Z :=
  fun s => Ret (locked (lk s),
                mklkst (self s) (mklock newval (lname (lk s)) (lcpu (lk s)) (pcs (lk s)))).

Fixpoint acquire_spin (fuel : nat) : M lkst unit :=
  match fuel with
  | O => nofuel
  | S f => old <- xchg_locked 1 ;; if negb (old =? 0) then acquire_spin f else ret tt
  end.

Definition acquire (fuel me : nat) (m : mem) (v : Z) : M lkst unit :=
  on_cpu pushcli ;;;
  l <- gets lk ;;
  if holding l me then panic "acquire"
  else
    acquire_spin fuel ;;;
    modify (fun s => mklkst (self s)
      (mklock (locked (lk s)) (lname (lk s)) (Some me) (getcallerpcs m v))).

Definition release (me : nat) : M lkst unit :=
  l <- gets lk ;;
  if negb (holding l me) then panic "release"
  else
    modify (fun s => mklkst (self s)
      (mklock (locked (lk s)) (lname (lk s)) None (<[0%nat := 0]> (pcs (lk s))))) ;;;
    modify (fun s => mklkst (self s)
      (mklock 0 (lname (lk s)) (lcpu (lk s)) (pcs (lk s)))) ;;;
    on_cpu popcli.

(** ** All CPUs and one lock

    [pc c] is where CPU [c] stands: outside, spinning in [acquire], past the
    successful [xchg], inside the critical section, past clearing [lk->cpu] in
    [release], past clearing [lk->locked]. *)

Inductive point := Out | Spin | Got | In | Rel | Pop.
#[export] Instance point_eq_dec : EqDecision point.
Proof. solve_decision. Defined.

Record mach := mkmach { mcpu : nat -> cpu; mlk : spinlock; mpc : nat -> point }.

Section Machine.
Context (m : mem) (v : Z).

Inductive step : mach -> mach -> Prop :=
| step_enter c cs l p cpu' :
    p c = Out -> pushcli (cs c) = Ret (tt, cpu') -> holding l c = false ->
    step (mkmach cs l p) (mkmach (<[c := cpu']> cs) l (<[c := Spin]> p))
| step_spin c cs l p :
    p c = Spin -> locked l <> 0 ->
    step (mkmach cs l p)
         (mkmach cs (mklock 1 (lname l) (lcpu l) (pcs l)) p)
| step_got c cs l p :
    p c = Spin -> locked l = 0 ->
    step (mkmach cs l p)
         (mkmach cs (mklock 1 (lname l) (lcpu l) (pcs l)) (<[c := Got]> p))
| step_record c cs l p :
    p c = Got ->
    step (mkmach cs l p)
         (mkmach cs (mklock (locked l) (lname l) (Some c) (getcallerpcs m v)) (<[c := In]> p))
| step_clear c cs l p :
    p c = In -> holding l c = true ->
    step (mkmach cs l p)
         (mkmach cs (mklock (locked l) (lname l) None (<[0%nat := 0]> (pcs l))) (<[c := Rel]> p))
| step_unlock c cs l p :
    p c = Rel ->
    step (mkmach cs l p)
         (mkmach cs (mklock 0 (lname l) (lcpu l) (pcs l)) (<[c := Pop]> p))
| step_leave c cs l p cpu' :
    p c = Pop -> popcli (cs c) = Ret (tt, cpu') ->
    step (mkmach cs l p) (mkmach (<[c := cpu']> cs) l (<[c := Out]> p)).

(** Any number of CPUs outside, none with a pending [pushcli], the lock as
    [initlock] leaves it. *)
Definition initial (s : mach) : Prop :=
  (forall c, mpc s c = Out) /\ (forall c, ncli (mcpu s c) = 0) /\
  locked (mlk s) = 0 /\ lcpu (mlk s) = None.

Inductive reachable : mach -> Prop :=
| reach_init s : initial s -> reachable s
| reach_step s s' : reachable s -> step s s' -> reachable s'.
End Machine.

(** The points between a successful [xchg] and the store that frees the lock. *)
Definition owns (p : point) : bool :=
  match p with Got | In | Rel => true | _ => false end.

(** ** The interface: a lock as its holder sees it *)

Definition lacquire (held : bool) : outcome bool :=
  if held then Panic "acquire" else Ret true.
Definition lrelease (held : bool) : outcome bool :=
  if held then Ret false else Panic "release".

(** ** Interrupt nesting *)

Definition if_off (c : cpu) : bool := Z.land (eflags c) FL_IF =? 0.

Lemma cli_off c : if_off (cli c) = true.
Proof.
  unfold if_off, cli. cbn [eflags]. rewrite Z.land_ldiff. reflexivity.
Qed.

Lemma pushcli_eq c :
  pushcli c = Ret (tt, mkcpu (Z.ldiff (eflags c) FL_IF) (ncli c + 1)
    (if ncli c =? 0 then Z.land (eflags c) FL_IF else intena c) (apicid c)).
Proof. unfold pushcli, cli. mstep. cbn [eflags ncli intena apicid]. case_if; reflexivity. Qed.

Lemma popcli_eq c :
  if_off c = true -> 1 <= ncli c ->
  popcli c = Ret (tt, let c' := mkcpu (eflags c) (ncli c - 1) (intena c) (apicid c) in
                      if (ncli c =? 1) && negb (intena c =? 0) then sti c' else c').
Proof.
  unfold if_off. intros H Hn. unfold popcli. mstep. rewrite H. cbn [negb].
  case_if; [lia|]. replace (ncli c - 1 =? 0) with (ncli c =? 1) by lia. case_if; reflexivity.
Qed.

Lemma sti_on c : Z.land (eflags (sti c)) FL_IF = FL_IF.
Proof.
  unfold sti. cbn [eflags]. rewrite Z.land_lor_distr_l, Z.land_diag.
  apply Z.bits_inj'. intros i Hi. rewrite Z.lor_spec, Z.land_spec.
  destruct (Z.testbit (eflags c) i), (Z.testbit FL_IF i); reflexivity.
Qed.

(** [n] calls in a row. *)
Fixpoint repeatM {S} (n : nat) (f : M S unit) : M S unit :=
  match n with O => ret tt | Datatypes.S n' => f ;;; repeatM n' f end.

Lemma pushcli_n n : forall c,
  exists c', repeatM n pushcli c = Ret (tt, c') /\
    ncli c' = ncli c + Z.of_nat n /\
    (n = O -> c' = c) /\
    (n <> O -> eflags c' = Z.ldiff (eflags c) FL_IF) /\
    apicid c' = apicid c /\
    (n <> O -> 0 <= ncli c ->
       intena c' = if ncli c =? 0 then Z.land (eflags c) FL_IF else intena c).
Proof.
  induction n as [|n IH]; intros c; cbn [repeatM].
  - exists c. unfold ret. repeat split; try lia; congruence.
  - rewrite (bind_step _ _ _ _ _ (pushcli_eq c)).
    edestruct IH as (c' & -> & Hn & H0 & H1 & Ha & Hi). exists c'. cbn in *.
    split; [reflexivity|]. split; [lia|]. split; [discriminate|].
    destruct n as [|n].
    + rewrite H0 by reflexivity. cbn. repeat split; reflexivity.
    + rewrite H1, Ha by discriminate. repeat split; auto.
      * intros _. rewrite Z.ldiff_ldiff_l, Z.lor_diag. reflexivity.
      * intros _ Hc. rewrite Hi by (discriminate || lia). case_if; [lia|reflexivity].
Qed.

Lemma popcli_n n : forall c,
  if_off c = true -> Z.of_nat n < ncli c ->
  repeatM n popcli c = Ret (tt, mkcpu (eflags c) (ncli c - Z.of_nat n) (intena c) (apicid c)).
Proof.
  induction n as [|n IH]; intros c Hoff Hn; cbn [repeatM].
  - unfold ret. destruct c. cbn. do 3 f_equal. lia.
  - rewrite (bind_step _ _ _ _ _ (popcli_eq c Hoff ltac:(lia))).
    replace (ncli c =? 1) with false by lia. cbn [andb].
    rewrite IH; cbn; [|exact Hoff|lia]. do 3 f_equal. lia.
Qed.

(** ** The lock invariant *)

(** [o] is the CPU that owns the lock, if any. *)
Definition owner_inv (o : option nat) (l : spinlock) (p : nat -> point) : Prop :=
  (forall c, owns (p c) = true <-> o = Some c) /\
  (locked l = 0 <-> o = None) /\
  (forall c, lcpu l = Some c <-> p c = In).

Definition cpu_inv (c : cpu) (p : point) : Prop :=
  ncli c = match p with Out => 0 | _ => 1 end /\ (p <> Out -> if_off c = true).

Definition lock_inv (s : mach) : Prop :=
  (exists o, owner_inv o (mlk s) (mpc s)) /\ (forall c, cpu_inv (mcpu s c) (mpc s c)).

Lemma initial_inv s : initial s -> lock_inv s.
Proof.
  intros (Hp & Hn & Hl & Hc). split.
  - exists None. unfold owner_inv. rewrite Hl, Hc.
    repeat split; intros; rewrite ?Hp in *; cbn in *; congruence.
  - intros c. unfold cpu_inv. rewrite Hp, Hn. split; [reflexivity|congruence].
Qed.

(** A CPU moves between points on the same side of [owns]; the lock word and
    the owner field stay. *)
Lemma owner_inv_move o l l' p c pt :
  owner_inv o l p -> locked l' = locked l -> lcpu l' = lcpu l ->
  owns pt = owns (p c) -> pt <> In -> p c <> In -> owner_inv o l' (<[c := pt]> p).
Proof.
  intros (H1 & H2 & H3) El Ec Ho Hi Hpi. unfold owner_inv. rewrite El, Ec.
  split; [|split; [exact H2|]].
  - intros d. fn_at c d; [rewrite Ho|]; apply H1.
  - intros d. rewrite H3. fn_at c d; [tauto|reflexivity].
Qed.

Lemma owner_step m v s s' o :
  owner_inv o (mlk s) (mpc s) -> step m v s s' -> exists o', owner_inv o' (mlk s') (mpc s').
Proof.
  intros Hinv Hstep. pose proof Hinv as (H1 & H2 & H3).
  destruct Hstep as [c cs l p cpu' Hp Hpush Hh|c cs l p Hp Hlk|c cs l p Hp Hlk
    |c cs l p Hp|c cs l p Hp Hh|c cs l p Hp|c cs l p cpu' Hp Hpop];
    cbn [mpc mlk] in *.
  - exists o. eapply owner_inv_move; eauto; rewrite ?Hp; reflexivity || discriminate.
  - exists o. repeat split; cbn; intros; try apply H1; try apply H3; auto; try lia.
    apply H2 in H. contradiction.
  - exists (Some c). unfold owner_inv. cbn. split; [|split].
    + intros d. fn_at c d; cbn; [tauto|]. rewrite H1, (proj1 H2 Hlk). split; congruence.
    + split; intros; lia || discriminate.
    + intros d. rewrite H3. fn_at c d; [rewrite Hp; split; discriminate|reflexivity].
  - exists o. unfold owner_inv. cbn. split; [|split; [exact H2|]].
    + intros d. rewrite <- H1. fn_at c d; [rewrite Hp|]; reflexivity.
    + intros d. fn_at c d; [tauto|]. split; [congruence|].
      intros Hd. assert (o = Some c) by (apply H1; rewrite Hp; reflexivity).
      assert (o = Some d) by (apply H1; rewrite Hd; reflexivity). congruence.
  - exists o. unfold owner_inv. cbn. split; [|split; [exact H2|]].
    + intros d. rewrite <- H1. fn_at c d; [rewrite Hp|]; reflexivity.
    + intros d. fn_at c d; [split; discriminate|]. split; [discriminate|].
      intros Hd. assert (o = Some c) by (apply H1; rewrite Hp; reflexivity).
      assert (o = Some d) by (apply H1; rewrite Hd; reflexivity). congruence.
  - exists None. assert (o = Some c) as -> by (apply H1; rewrite Hp; reflexivity).
    unfold owner_inv. cbn. split; [|split; [tauto|]].
    + intros d. fn_at c d; cbn; [split; discriminate|]. rewrite H1. split; congruence.
    + intros d. rewrite H3. fn_at c d; [rewrite Hp; split; discriminate|reflexivity].
  - exists o. eapply owner_inv_move; eauto; rewrite ?Hp; reflexivity || discriminate.
Qed.

Lemma cpu_step m v s s' c :
  (forall c, cpu_inv (mcpu s c) (mpc s c)) -> step m v s s' -> cpu_inv (mcpu s' c) (mpc s' c).
Proof.
  intros Hinv Hstep.
  destruct Hstep as [d cs l p cpu' Hp Hpush Hh|d cs l p Hp Hlk|d cs l p Hp Hlk
    |d cs l p Hp|d cs l p Hp Hh|d cs l p Hp|d cs l p cpu' Hp Hpop];
    cbn [mpc mcpu] in *; pose proof (Hinv d) as [Hn Hoff]; rewrite ?Hp in *;
    try (fn_at d c; [split; [exact Hn|intros _; apply Hoff; discriminate]|apply Hinv]).
  - fn_at d c; [|apply Hinv]. rewrite pushcli_eq in Hpush. injection Hpush as <-.
    split; [cbn [ncli]; rewrite Hn; reflexivity|intros _; apply (cli_off (cs d))].
  - apply Hinv.
  - fn_at d c; [|apply Hinv]. cbn in Hn.
    rewrite popcli_eq in Hpop by first [apply Hoff; discriminate | lia].
    injection Hpop as <-. split; [|congruence]. rewrite Hn. case_if; reflexivity.
Qed.

Lemma reachable_inv m v s : reachable m v s -> lock_inv s.
Proof.
  induction 1 as [s Hi|s s' _ [[o Ho] Hc] Hs].
  - apply initial_inv, Hi.
  - split; [eapply owner_step; eauto|intros c; eapply cpu_step; eauto].
Qed.

(** ** Properties *)

(** C1: mutual exclusion.  In every state reachable from free locks by any
    interleaving of the CPUs' memory operations, at most one CPU stands between
    the successful [xchg] of [acquire] and the store of [release] that frees the
    lock, and while one does the lock word is non-zero. *)
Theorem spinlock_mutual_exclusion m v s c1 c2 :
  reachable m v s -> owns (mpc s c1) = true ->
  locked (mlk s) <> 0 /\ (owns (mpc s c2) = true -> c1 = c2).
Proof.
  intros Hr H1. destruct (reachable_inv m v s Hr) as [[o (Ho & Hl & _)] _].
  apply Ho in H1 as Hc. split.
  - rewrite Hl, Hc. discriminate.
  - intros H2. apply Ho in H2. congruence.
Qed.

(** the sanity checks of the lock code never fire.  A CPU that is outside
    does not pass the [holding] test of [acquire]; one inside passes the test of
    [release]; the [popcli] that ends [release] returns with the nesting count
    back at zero. *)
Theorem spinlock_never_panics m v s c :
  reachable m v s ->
  (mpc s c = Out -> holding (mlk s) c = false) /\
  (mpc s c = In -> holding (mlk s) c = true) /\
  (mpc s c = Pop -> exists c', popcli (mcpu s c) = Ret (tt, c') /\ ncli c' = 0).
Proof.
  intros Hr. destruct (reachable_inv m v s Hr) as [[o (Ho & Hl & Hc)] Hcpu].
  unfold holding. split; [|split]; intros Hp.
  - rewrite bool_decide_eq_false_2; [apply andb_false_r|]. rewrite Hc, Hp. discriminate.
  - rewrite bool_decide_eq_true_2 by (apply Hc; exact Hp). rewrite andb_true_r.
    assert (o = Some c) as -> by (apply Ho; rewrite Hp; reflexivity).
    destruct (locked (mlk s) =? 0) eqn:E; zbool; [|reflexivity].
    apply Hl in E. discriminate.
  - destruct (Hcpu c) as [Hn Hoff]. rewrite Hp in *. cbn in Hn.
    eexists. split; [apply popcli_eq; [apply Hoff; discriminate|lia]|].
    case_if; cbn; lia.
Qed.

(** [pushcli] and [popcli] nest.  [n+1] calls of [pushcli] followed by [n]
    of [popcli] leave interrupts off; the last [popcli] restores the interrupt
    flag the CPU had before the first [pushcli]. *)
Theorem pushcli_popcli_nest c n :
  ncli c = 0 ->
  exists c1 c2, repeatM (S n) pushcli c = Ret (tt, c1) /\
    repeatM n popcli c1 = Ret (tt, c2) /\ if_off c2 = true /\
    exists c3, popcli c2 = Ret (tt, c3) /\ ncli c3 = 0 /\
      Z.land (eflags c3) FL_IF = Z.land (eflags c) FL_IF.
Proof.
  intros H0. destruct (pushcli_n (S n) c) as (c1 & Hpush & Hn1 & _ & He & _ & Hi).
  rewrite H0 in *. specialize (He ltac:(discriminate)).
  specialize (Hi ltac:(discriminate) ltac:(lia)). cbn in Hi.
  assert (Hoff : if_off c1 = true) by (unfold if_off; rewrite He, Z.land_ldiff; reflexivity).
  eexists c1, _. split; [exact Hpush|]. split; [apply popcli_n; [exact Hoff|lia]|].
  split; [exact Hoff|].
  eexists. split; [apply popcli_eq; [exact Hoff|cbn; lia]|]. cbn [ncli intena].
  replace (ncli c1 - Z.of_nat n =? 1) with true by lia. cbn [andb]. rewrite Hi.
  destruct (Z.land (eflags c) FL_IF =? 0) eqn:E; zbool; cbn [negb].
  - rewrite E. cbn. unfold if_off in Hoff. split; lia.
  - split; [cbn; lia|]. rewrite sti_on.
    apply Z.bits_inj'. intros i Hi'. rewrite Z.land_spec.
    destruct (Z.eq_dec i 9) as [->|Hne].
    + change (Z.testbit FL_IF 9) with true. rewrite andb_true_r.
      destruct (Z.testbit (eflags c) 9) eqn:E9; [reflexivity|]. exfalso. apply E.
      apply Z.bits_inj'. intros j Hj. rewrite Z.land_spec, Z.bits_0.
      destruct (Z.eq_dec j 9) as [->|]; [rewrite E9; reflexivity|].
      change FL_IF with (2 ^ 9). rewrite Z.pow2_bits_false by lia. apply andb_false_r.
    + change FL_IF with (2 ^ 9). rewrite Z.pow2_bits_false by lia. symmetry. apply andb_false_r.
Qed.

(** the one-bit interface is what the code implements.  On a lock that no
    other CPU holds, [acquire] and [release] return or panic exactly as
    [lacquire] and [lrelease] do on the bit [holding], and establish its new
    value; one [xchg] is enough. *)
Theorem lock_interface_refinement s me m v :
  locked (lk s) = 0 \/ holding (lk s) me = true ->
  match lacquire (holding (lk s) me) with
  | Ret b => exists s', acquire 1 me m v s = Ret (tt, s') /\ holding (lk s') me = b
  | Panic e => acquire 1 me m v s = Panic e
  | NoFuel => False
  end /\
  (if_off (self s) = true -> 1 <= ncli (self s) ->
   match lrelease (holding (lk s) me) with
   | Ret b => exists s', release me s = Ret (tt, s') /\ holding (lk s') me = b
                         /\ locked (lk s') = 0
   | Panic e => release me s = Panic e
   | NoFuel => False
   end).
Proof.
  destruct s as [c l]. cbn [lk self]. intros Hfree. split.
  - unfold acquire, on_cpu, bind, gets. cbn [self lk]. rewrite pushcli_eq. cbn [lk].
    destruct (holding l me) eqn:Eh; cbn [lacquire]; [reflexivity|].
    destruct Hfree as [Hl|]; [|discriminate]. cbn [acquire_spin].
    unfold bind, xchg_locked, modify, ret. cbn. rewrite Hl. cbn.
    eexists. split; [reflexivity|]. unfold holding. cbn.
    rewrite bool_decide_eq_true_2; reflexivity.
  - intros Hoff Hn. unfold release, bind, gets, modify, on_cpu. cbn [lk self].
    destruct (holding l me) eqn:Eh; cbn [lrelease negb]; [|reflexivity].
    rewrite popcli_eq by assumption.
    eexists. split; [reflexivity|]. split; reflexivity.
Qed.

(** ** Witnesses *)

Definition cpu0 : cpu := mkcpu 0x202 0 0 0.
Definition mach0 : mach := mkmach (fun _ => cpu0) (mklock 0 "l" None (replicate 10 0)) (fun _ => Out).
Definition cpu1 : cpu := mkcpu 2 1 0x200 0.
Definition mach1 : mach :=
  mkmach (<[0%nat := cpu1]> (fun _ => cpu0)) (mklock 0 "l" None (replicate 10 0))
    (<[0%nat := Spin]> (fun _ => Out)).
Definition mach2 : mach :=
  mkmach (<[0%nat := cpu1]> (fun _ => cpu0)) (mklock 1 "l" None (replicate 10 0))
    (<[0%nat := Got]> (<[0%nat := Spin]> (fun _ => Out))).

Lemma mach2_reachable : reachable ∅ 0 mach2.
Proof.
  apply reach_step with mach1; [apply reach_step with mach0|].
  - apply reach_init. repeat split; reflexivity.
  - unfold mach0, mach1. apply step_enter; reflexivity.
  - unfold mach1, mach2.
    apply (step_got _ _ 0%nat _ (mklock 0 "l" None (replicate 10 0)) _); reflexivity.
Qed.

Lemma spinlock_mutual_exclusion_witness :
  locked (mlk mach2) <> 0 /\ (owns (mpc mach2 1%nat) = true -> 0%nat = 1%nat).
Proof. apply (spinlock_mutual_exclusion ∅ 0 mach2 0%nat 1%nat mach2_reachable). reflexivity. Defined.

Lemma spinlock_never_panics_witness :
  (mpc mach2 1%nat = Out -> holding (mlk mach2) 1 = false) /\
  (mpc mach2 1%nat = In -> holding (mlk mach2) 1 = true) /\
  (mpc mach2 1%nat = Pop -> exists c', popcli (mcpu mach2 1%nat) = Ret (tt, c') /\ ncli c' = 0).
Proof. apply (spinlock_never_panics ∅ 0 mach2 1%nat mach2_reachable). Defined.

Lemma pushcli_popcli_nest_witness :
  exists c1 c2, repeatM 4 pushcli cpu0 = Ret (tt, c1) /\
    repeatM 3 popcli c1 = Ret (tt, c2) /\ if_off c2 = true /\
    exists c3, popcli c2 = Ret (tt, c3) /\ ncli c3 = 0 /\
      Z.land (eflags c3) FL_IF = Z.land (eflags cpu0) FL_IF.
Proof. apply (pushcli_popcli_nest cpu0 3). reflexivity. Defined.

Lemma lock_interface_refinement_witness :
  exists s', acquire 1 0 ∅ 0 (mklkst cpu0 (mklock 0 "l" None (replicate 10 0))) = Ret (tt, s')
    /\ holding (lk s') 0 = true.
Proof.
  refine (proj1 (lock_interface_refinement
    (mklkst cpu0 (mklock 0 "l" None (replicate 10 0))) 0 ∅ 0 _)).
  left. reflexivity.
Defined.
