(* ===== verification/Kalloc.v ===== *)
(** * Physical page allocator

    Models [src/xv6/kalloc.c].  The free list is threaded through the free
    pages themselves: the first word of a free page is the address of the next
    one, so the list lives in the byte memory and the state keeps its head.
    [kend] stands for the linker symbol [end], the first address after the
    kernel image. *)

From S2P Require Import Prelude Mem Mmu Spinlock.
Local Open Scope Z_scope.

(** [struct kmem]: the lock as its holder sees it, [use_lock], the list head,
    and the memory the pages live in. *)
Record kmem := mkkmem { k_lock : bool; use_lock : bool; freelist : Z; k_mem : mem }.

Definition set_mem (m : mem) (s : kmem) : kmem :=
  mkkmem (k_lock s) (use_lock s) (freelist s) m.

Definition k_acquire : M kmem unit := fun s =>
  match lacquire (k_lock s) with
  | Ret b => Ret (tt, mkkmem b (use_lock s) (freelist s) (k_mem s))
  | Panic e => Panic e
  | NoFuel => NoFuel
  end.
Definition k_release : M kmem unit := fun s =>
  match lrelease (k_lock s) with
  | Ret b => Ret (tt, mkkmem b (use_lock s) (freelist s) (k_mem s))
  | Panic e => Panic e
  | NoFuel => NoFuel
  end.

(** [if(kmem.use_lock) ...] *)
Definition if_use_lock (f : M kmem unit) : M kmem unit :=
  u <- gets use_lock ;; if u : bool then f else ret tt.

Section Kalloc.
Context (kend : Z).

Definition kfree (v : Z) : M kmem unit :=
  if negb (v mod PGSIZE =? 0) || (v <? kend) || (V2P v >=? PHYSTOP) then panic "kfree"
  else
    modify (fun s => set_mem (memset (k_mem s) v 1 PGSIZE) s) ;;;
    if_use_lock k_acquire ;;;
    modify (fun s => set_mem (st32 (k_mem s) v (freelist s)) s) ;;;
    modify (fun s => mkkmem (k_lock s) (use_lock s) v (k_mem s)) ;;;
    if_use_lock k_release.

Definition kalloc : M kmem Z :=
  if_use_lock k_acquire ;;;
  r <- gets freelist ;;
  (if negb (r =? 0)
   then modify (fun s => mkkmem (k_lock s) (use_lock s) (ld32 (k_mem s) r) (k_mem s))
   else ret tt) ;;;
  if_use_lock k_release ;;;
  ret r.

(** [for(; p + PGSIZE <= vend; p += PGSIZE) kfree(p)] *)
Fixpoint freerange_loop (fuel : nat) (p vend : Z) : M kmem unit :=
  match fuel with
  | O => nofuel
  | S f =>
      if p + PGSIZE <=? vend then kfree p ;;; freerange_loop f (p + PGSIZE) vend
      else ret tt
  end.
Definition freerange (vstart vend : Z) : M kmem unit :=
  let p := PGROUNDUP vstart in
  freerange_loop (S (Z.to_nat ((vend - p) / PGSIZE))) p vend.

Definition kinit1 (vstart vend : Z) : M kmem unit :=
  modify (fun s => mkkmem false (use_lock s) (freelist s) (k_mem s)) ;;;
  modify (fun s => mkkmem (k_lock s) false (freelist s) (k_mem s)) ;;;
  freerange vstart vend.

Definition kinit2 (vstart vend : Z) : M kmem unit :=
  freerange vstart vend ;;;
  modify (fun s => mkkmem (k_lock s) true (freelist s) (k_mem s)).

(** ** The free list *)

(** A page [kfree] accepts. *)
Definition page_ok (v : Z) : Prop :=
  v mod PGSIZE = 0 /\ kend <= v /\ KERNBASE <= v < KERNBASE + PHYSTOP.

(** The pages on the list that starts at [head]. *)
Fixpoint chain (m : mem) (head : Z) (l : list Z) : Prop :=
  match l with
  | [] => head = 0
  | p :: l' => head = p /\ page_ok p /\ chain m (ld32 m p) l'
  end.

(** The allocator's invariant: [l] lists the free pages, without repetition;
    between operations the lock is free. *)
Definition kmem_inv (l : list Z) (s : kmem) : Prop :=
  k_lock s = false /\ NoDup l /\ chain (k_mem s) (freelist s) l.

Lemma page_ok_bounds p : page_ok p -> KERNBASE <= p <= KERNBASE + PHYSTOP - PGSIZE.
Proof.
  unfold page_ok, KERNBASE, PHYSTOP, PGSIZE. intros (Ha & _ & Hb).
  pose proof (Z.div_mod p 4096). lia.
Qed.

Lemma page_ok_pos p : page_ok p -> 0 < p.
Proof. intros H%page_ok_bounds. unfold KERNBASE in H. lia. Qed.

(** Distinct pages do not overlap. *)
Lemma page_ok_disjoint p q :
  page_ok p -> page_ok q -> p <> q -> p + PGSIZE <= q \/ q + PGSIZE <= p.
Proof.
  unfold page_ok, PGSIZE. intros (Hp & _) (Hq & _) Hne.
  pose proof (Z.div_mod p 4096). pose proof (Z.div_mod q 4096). lia.
Qed.

Lemma chain_page_ok m l : forall h, chain m h l -> Forall page_ok l.
Proof.
  induction l as [|p l IH]; intros h; cbn [chain]; [constructor|].
  intros (_ & Hp & Hc). constructor; eauto.
Qed.

(** The list only depends on the first words of its pages. *)
Lemma chain_ext m m' l : forall h,
  (forall p, p ∈ l -> ld32 m' p = ld32 m p) -> chain m h l -> chain m' h l.
Proof.
  induction l as [|p l IH]; intros h Heq; cbn [chain]; [auto|].
  intros (-> & Hp & Hc). split; [reflexivity|split; [exact Hp|]].
  rewrite Heq by set_solver. apply IH; [|exact Hc]. intros q Hq. apply Heq. set_solver.
Qed.

Lemma chain_head m h p l : chain m h (p :: l) -> h = p /\ 0 < p.
Proof. cbn [chain]. intros (-> & Hp & _). split; [reflexivity|]. apply page_ok_pos, Hp. Qed.

(** ** What the operations do *)

Lemma if_use_lock_acquire s :
  k_lock s = false ->
  if_use_lock k_acquire s = Ret (tt, mkkmem (use_lock s) (use_lock s) (freelist s) (k_mem s)).
Proof.
  destruct s as [k u f m]. cbn. intros ->.
  unfold if_use_lock, bind, gets, k_acquire, ret. cbn. destruct u; reflexivity.
Qed.

Lemma if_use_lock_release s :
  k_lock s = use_lock s ->
  if_use_lock k_release s = Ret (tt, mkkmem false (use_lock s) (freelist s) (k_mem s)).
Proof.
  destruct s as [k u f m]. cbn. intros ->.
  unfold if_use_lock, bind, gets, k_release, ret. cbn. destruct u; reflexivity.
Qed.

Lemma kalloc_eq s :
  k_lock s = false ->
  kalloc s = Ret (freelist s,
    mkkmem false (use_lock s)
      (if freelist s =? 0 then 0 else ld32 (k_mem s) (freelist s)) (k_mem s)).
Proof.
  intros Hl. unfold kalloc. rewrite (bind_step _ _ _ _ _ (if_use_lock_acquire s Hl)).
  unfold bind at 1, gets. cbn [freelist].
  destruct (freelist s =? 0) eqn:E; cbn [negb].
  - unfold bind at 1, ret at 1.
    erewrite bind_step by (apply if_use_lock_release; reflexivity).
    unfold ret. cbn. zbool. rewrite E. reflexivity.
  - unfold bind at 1, modify.
    erewrite bind_step by (apply if_use_lock_release; reflexivity). reflexivity.
Qed.

Lemma kfree_eq s v :
  k_lock s = false -> page_ok v ->
  kfree v s = Ret (tt,
    mkkmem false (use_lock s) v (st32 (memset (k_mem s) v 1 PGSIZE) v (freelist s))).
Proof.
  intros Hl (Ha & He & Hb). unfold kfree.
  assert (V2P v < PHYSTOP) by (unfold V2P; rewrite u32_small; unfold KERNBASE, PHYSTOP in *; lia).
  replace (negb (v mod PGSIZE =? 0) || (v <? kend) || (V2P v >=? PHYSTOP)) with false
    by (rewrite Ha; symmetry; rewrite !orb_false_iff; repeat split; lia).
  unfold bind at 1, modify at 1.
  erewrite bind_step by (apply if_use_lock_acquire; exact Hl).
  unfold bind at 1, modify at 1. unfold bind at 1, modify at 1.
  rewrite if_use_lock_release by reflexivity. reflexivity.
Qed.

(** [kfree] refuses every other address. *)
Lemma kfree_panic s v : 0 <= v < 2 ^ 32 -> ~ page_ok v -> kfree v s = Panic "kfree".
Proof.
  intros Hv Hno. unfold kfree. case_if; [reflexivity|]. exfalso. apply Hno.
  unfold page_ok. unfold V2P, u32, KERNBASE, PHYSTOP in *.
  destruct (Z_lt_dec v 0x80000000).
  - replace ((v - 0x80000000) mod 2 ^ 32) with (v - 0x80000000 + 2 ^ 32) in * by
      (apply Z.mod_unique with (-1); lia). lia.
  - rewrite Z.mod_small in * by lia. lia.
Qed.

(** ** The allocator against a pool of pages *)

Lemma kalloc_cons p l s :
  kmem_inv (p :: l) s ->
  exists s', kalloc s = Ret (p, s') /\ kmem_inv l s' /\
    k_mem s' = k_mem s /\ use_lock s' = use_lock s.
Proof.
  intros (Hl & Hnd & Hc). destruct (chain_head _ _ _ _ Hc) as [Hh Hp].
  rewrite kalloc_eq, Hh by exact Hl. case_if; [lia|].
  eexists. split; [reflexivity|]. split; [|auto].
  split; [reflexivity|]. split; [apply NoDup_cons in Hnd; apply Hnd|]. apply Hc.
Qed.

Lemma kalloc_nil s :
  kmem_inv [] s -> exists s', kalloc s = Ret (0, s') /\ kmem_inv [] s' /\
    k_mem s' = k_mem s /\ use_lock s' = use_lock s.
Proof.
  intros (Hl & Hnd & Hc). cbn in Hc. rewrite kalloc_eq, Hc by exact Hl.
  eexists. split; [reflexivity|]. split; [|auto]. split; [reflexivity|]. split; [exact Hnd|].
  reflexivity.
Qed.

Lemma kfree_cons v l s :
  kmem_inv l s -> page_ok v -> v ∉ l ->
  exists s', kfree v s = Ret (tt, s') /\ kmem_inv (v :: l) s' /\ use_lock s' = use_lock s /\
    forall a, a < v \/ v + PGSIZE <= a -> ldb (k_mem s') a = ldb (k_mem s) a.
Proof.
  intros (Hl & Hnd & Hc) Hv Hin. rewrite kfree_eq by assumption.
  eexists. split; [reflexivity|]. split; [|split; [reflexivity|]].
  - split; [reflexivity|]. split; [apply NoDup_cons; auto|]. cbn [chain freelist k_mem].
    split; [reflexivity|]. split; [exact Hv|]. rewrite ld32_st32_same, u32_small.
    + apply chain_ext with (k_mem s); [|exact Hc].
      intros q Hq. pose proof (chain_page_ok _ _ _ Hc) as Hok.
      rewrite Forall_forall in Hok. specialize (Hok q Hq).
      pose proof (page_ok_disjoint v q Hv Hok ltac:(congruence)) as Hd.
      unfold PGSIZE in *. rewrite ld32_st32_ne by lia. apply ld32_memset_out; lia.
    + destruct l as [|q l]; cbn in Hc; [rewrite Hc; lia|]. destruct Hc as (-> & Hq & _).
      apply page_ok_bounds in Hq. unfold KERNBASE, PHYSTOP, PGSIZE in Hq. lia.
  - intros a Ha. cbn [k_mem]. rewrite ldb_st32, ldb_memset by (unfold PGSIZE; lia).
    unfold PGSIZE in *. repeat case_if; try lia; reflexivity.
Qed.

(** [n] consecutive pages from [a]. *)
Fixpoint pages (a : Z) (n : nat) : list Z :=
  match n with O => [] | S n' => a :: pages (a + PGSIZE) n' end.

Lemma elem_of_pages n : forall a p,
  p ∈ pages a n <-> exists k, 0 <= k < Z.of_nat n /\ p = a + k * PGSIZE.
Proof.
  induction n as [|n IH]; intros a p; cbn [pages].
  - rewrite elem_of_nil. split; [tauto|]. intros (k & ? & _). lia.
  - rewrite elem_of_cons, IH. unfold PGSIZE. split.
    + intros [->|(k & Hk & ->)]; [exists 0|exists (k + 1)]; lia.
    + intros (k & Hk & ->). destruct (Z.eq_dec k 0) as [->|]; [left; lia|].
      right. exists (k - 1). lia.
Qed.

Lemma freerange_loop_spec n : forall fuel p vend l s,
  (n < fuel)%nat -> kmem_inv l s ->
  Forall page_ok (pages p n) -> (forall q, q ∈ pages p n -> q ∉ l) ->
  p + Z.of_nat n * PGSIZE <= vend < p + (Z.of_nat n + 1) * PGSIZE ->
  exists s', freerange_loop fuel p vend s = Ret (tt, s') /\
    kmem_inv (rev (pages p n) ++ l) s' /\ use_lock s' = use_lock s.
Proof.
  induction n as [|n IH]; intros fuel p vend l s Hf Hinv Hok Hdis Hend;
    (destruct fuel as [|fuel]; [lia|]); cbn [freerange_loop pages rev]; unfold PGSIZE in *.
  - case_if; [lia|]. exists s. auto.
  - cbn [pages] in Hok. apply Forall_cons in Hok as [Hp Hok].
    case_if; [|lia].
    destruct (kfree_cons p l s Hinv Hp) as (s1 & Hk & Hinv1 & Hu & _).
    { apply Hdis. left. }
    rewrite (bind_step _ _ _ _ _ Hk).
    destruct (IH fuel (p + 4096) vend (p :: l) s1) as (s2 & H2 & Hinv2 & Hu2); try lia; auto.
    + intros q Hq. apply not_elem_of_cons. split.
      * intros ->. apply elem_of_pages in Hq as (k & Hk' & Hq). unfold PGSIZE in Hq. lia.
      * apply Hdis. right. exact Hq.
    + exists s2. split; [exact H2|]. split; [|congruence].
      rewrite <- app_assoc. exact Hinv2.
Qed.

Lemma kmem_inv_pages l s : kmem_inv l s -> forall p, p ∈ l -> page_ok p.
Proof.
  intros (_ & _ & Hc) p Hp. pose proof (chain_page_ok _ _ _ Hc) as H.
  rewrite Forall_forall in H. auto.
Qed.

(** A range of memory above [end] that lies in physical memory. *)
Definition range_ok (vstart vend : Z) : Prop :=
  kend <= vstart /\ KERNBASE <= vstart <= vend /\ vend <= KERNBASE + PHYSTOP.

Lemma PGROUNDUP_bounds a : 0 <= a < 2 ^ 32 - 4096 ->
  a <= PGROUNDUP a < a + 4096 /\ PGROUNDUP a mod 4096 = 0.
Proof.
  intros H. rewrite PGROUNDUP_arith, u32_small by lia.
  pose proof (Z.div_mod (a + 4095) 4096). pose proof (Z.mod_pos_bound (a + 4095) 4096).
  rewrite Z.mod_mul by lia. lia.
Qed.

(** [freerange] adds exactly the whole pages of the range. *)
Lemma freerange_spec vstart vend l s :
  kmem_inv l s -> range_ok vstart vend ->
  (forall p, p ∈ l -> p < vstart) ->
  exists l' s', freerange vstart vend s = Ret (tt, s') /\ kmem_inv (l' ++ l) s' /\
    use_lock s' = use_lock s /\
    forall p, p ∈ l' <-> (p mod PGSIZE = 0 /\ vstart <= p /\ p + PGSIZE <= vend).
Proof.
  intros Hinv (He & Hs & Hv) Hl. unfold freerange.
  destruct (PGROUNDUP_bounds vstart) as [Hb Ha]; [unfold KERNBASE, PHYSTOP in *; lia|].
  set (p := PGROUNDUP vstart) in *. set (n := Z.to_nat ((vend - p) / PGSIZE)).
  assert (Hpg : forall q, q ∈ pages p n <->
            (q mod PGSIZE = 0 /\ vstart <= q /\ q + PGSIZE <= vend)).
  { intros q. rewrite elem_of_pages. unfold n, PGSIZE in *.
    pose proof (Z.div_mod p 4096). pose proof (Z.div_mod (vend - p) 4096).
    pose proof (Z.mod_pos_bound (vend - p) 4096).
    split.
    - intros (k & Hk & ->). rewrite Z.mod_add by lia. lia.
    - intros (Hq & Hq1 & Hq2). pose proof (Z.div_mod q 4096).
      exists (q / 4096 - p / 4096). lia. }
  destruct (Z_le_dec p vend) as [Hle|Hgt].
  - destruct (freerange_loop_spec n (S n) p vend l s) as (s' & H1 & H2 & H3); auto.
    + apply Forall_forall. intros q Hq%Hpg. unfold page_ok, KERNBASE, PGSIZE in *. lia.
    + intros q Hq%Hpg Hin%Hl. lia.
    + unfold n, PGSIZE. pose proof (Z.div_mod (vend - p) 4096).
      pose proof (Z.mod_pos_bound (vend - p) 4096). pose proof (Z.div_pos (vend - p) 4096). lia.
    + exists (rev (pages p n)), s'. repeat (split; [assumption|]).
      intros q. rewrite <- Hpg, !list_elem_of_In, <- in_rev. reflexivity.
  - assert (n = O) as Hn.
    { unfold n, PGSIZE. assert ((vend - p) / 4096 < 0) by (apply Z.div_lt_upper_bound; lia). lia. }
    exists [], s. rewrite Hn. cbn [freerange_loop]. unfold PGSIZE in *.
    case_if; [lia|]. split; [reflexivity|]. split; [exact Hinv|]. split; [reflexivity|].
    intros q. rewrite <- Hpg, Hn. reflexivity.
Qed.
End Kalloc.

(** ** The pool a client sees

    A stack of pages: allocation pops, freeing pushes. *)

Inductive kop := KAlloc | KFree (v : Z).

#[export] Instance page_ok_dec kend v : Decision (page_ok kend v).
Proof. unfold page_ok. apply _. Defined.

Definition pool_op (kend : Z) (o : kop) (l : list Z) : option (Z * list Z) :=
  match o with
  | KAlloc => match l with [] => Some (0, []) | p :: l' => Some (p, l') end
  | KFree v => if decide (page_ok kend v /\ v ∉ l) then Some (0, v :: l) else None
  end.
Fixpoint pool_run (kend : Z) (os : list kop) (l : list Z) : option (list Z * list Z) :=
  match os with
  | [] => Some ([], l)
  | o :: os' =>
      '(r, l1) ← pool_op kend o l; '(rs, l2) ← pool_run kend os' l1; Some (r :: rs, l2)
  end.

Definition code_op (kend : Z) (o : kop) : M kmem Z :=
  match o with KAlloc => kalloc | KFree v => kfree kend v ;;; ret 0 end.
Fixpoint code_run (kend : Z) (os : list kop) : M kmem (list Z) :=
  match os with
  | [] => ret []
  | o :: os' => r <- code_op kend o ;; rs <- code_run kend os' ;; ret (r :: rs)
  end.

Lemma code_op_refines kend o l r l' s :
  kmem_inv kend l s -> pool_op kend o l = Some (r, l') ->
  exists s', code_op kend o s = Ret (r, s') /\ kmem_inv kend l' s'.
Proof.
  intros Hinv. destruct o as [|v]; cbn.
  - destruct l as [|p l]; intros [= <- <-].
    + destruct (kalloc_nil kend s Hinv) as (s' & H & Hi & _). eauto.
    + destruct (kalloc_cons kend p l s Hinv) as (s' & H & Hi & _). eauto.
  - case_decide as Hd; intros [= <- <-].
    destruct (kfree_cons kend v l s Hinv) as (s' & H & Hi & _); [tauto|tauto|].
    exists s'. split; [|exact Hi]. rewrite (bind_step _ _ _ _ _ H). reflexivity.
Qed.

(** ** Properties *)

(** C6: the allocator is a stack of distinct pages.  For every sequence of
    [kalloc] and [kfree] calls in which only allocated, valid pages are freed,
    the code runs to its end without panicking and returns exactly what a stack
    of free pages returns: never a page that is already handed out, 0 exactly
    when no page is left. *)
Theorem kalloc_refines_pool kend os : forall l s rs l',
  kmem_inv kend l s -> pool_run kend os l = Some (rs, l') ->
  exists s', code_run kend os s = Ret (rs, s') /\ kmem_inv kend l' s'.
Proof.
  induction os as [|o os IH]; intros l s rs l' Hinv; cbn.
  - intros [= <- <-]. exists s. auto.
  - destruct (pool_op kend o l) as [[r l1]|] eqn:E1; [|discriminate]. cbn.
    destruct (pool_run kend os l1) as [[rs1 l2]|] eqn:E2; [|discriminate]. cbn.
    intros [= <- <-].
    destruct (code_op_refines _ _ _ _ _ _ Hinv E1) as (s1 & H1 & Hinv1).
    destruct (IH _ _ _ _ Hinv1 E2) as (s2 & H2 & Hinv2).
    exists s2. split; [|exact Hinv2].
    rewrite (bind_step _ _ _ _ _ H1), (bind_step _ _ _ _ _ H2). reflexivity.
Qed.

(** boot builds the pool from physical memory.  [kinit1] and [kinit2] with
    the bounds [main] passes, from an empty list, put on the free list exactly
    the page-aligned addresses from [end] up to the end of physical memory, each
    once, and leave locking enabled. *)
Theorem kinit_frees_physical_memory kend s :
  KERNBASE <= kend <= P2V (4 * 1024 * 1024) -> freelist s = 0 ->
  exists l s1 s2,
    kinit1 kend kend (P2V (4 * 1024 * 1024)) s = Ret (tt, s1) /\
    kinit2 kend (P2V (4 * 1024 * 1024)) (P2V PHYSTOP) s1 = Ret (tt, s2) /\
    use_lock s2 = true /\ kmem_inv kend l s2 /\
    forall p, p ∈ l <-> page_ok kend p.
Proof.
  intros Hk Hf.
  change (P2V (4 * 1024 * 1024)) with 0x80400000 in *. change (P2V PHYSTOP) with 0xa0000000.
  unfold KERNBASE in Hk. unfold kinit1, kinit2.
  destruct (freerange_spec kend kend 0x80400000 [] (mkkmem false false (freelist s) (k_mem s)))
    as (l1 & s1 & H1 & Hi1 & _ & Hl1).
  { split; [reflexivity|]. split; [constructor|]. cbn. exact Hf. }
  { unfold range_ok, KERNBASE, PHYSTOP. lia. }
  { intros p. rewrite elem_of_nil. tauto. }
  rewrite app_nil_r in Hi1.
  destruct (freerange_spec kend 0x80400000 0xa0000000 l1 s1) as (l2 & s2 & H2 & Hi2 & _ & Hl2);
    [exact Hi1|unfold range_ok, KERNBASE, PHYSTOP; lia|intros p Hp%Hl1; unfold PGSIZE in Hp; lia|].
  exists (l2 ++ l1), s1, (mkkmem (k_lock s2) true (freelist s2) (k_mem s2)).
  split; [unfold bind, modify; exact H1|].
  split; [rewrite (bind_step _ _ _ _ _ H2); reflexivity|]. split; [reflexivity|].
  split; [exact Hi2|]. intros p. rewrite elem_of_app, Hl1, Hl2.
  unfold page_ok, KERNBASE, PHYSTOP, PGSIZE. pose proof (Z.div_mod p 4096). lia.
Qed.

(** [kfree] accepts exactly the pages of the pool's memory and panics on
    every other address; on a page it accepts it fills all but the link word
    with the junk byte 1 and touches no other byte. *)
Theorem kfree_guard kend v s :
  0 <= v < 2 ^ 32 -> k_lock s = false ->
  if decide (page_ok kend v)
  then exists s', kfree kend v s = Ret (tt, s') /\ freelist s' = v /\ k_lock s' = false /\
         forall a, ldb (k_mem s') a =
           if (v <=? a) && (a <? v + 4) then byte_of (freelist s) (a - v)
           else if (v <=? a) && (a <? v + PGSIZE) then 1 else ldb (k_mem s) a
  else kfree kend v s = Panic "kfree".
Proof.
  intros Hv Hl. case_decide as Hd; [|apply kfree_panic; assumption].
  rewrite kfree_eq by assumption. eexists. split; [reflexivity|]. cbn.
  split; [reflexivity|]. split; [reflexivity|]. intros a.
  rewrite ldb_st32, ldb_memset by (unfold PGSIZE; lia). repeat case_if; reflexivity.
Qed.

(** ** Witnesses *)

Lemma empty_pool_inv kend : kmem_inv kend [] (mkkmem false true 0 ∅).
Proof. split; [reflexivity|]. split; [constructor|reflexivity]. Qed.

Lemma kalloc_refines_pool_witness :
  exists s', code_run 0x80110000
      [KAlloc; KFree 0x80200000; KFree 0x80201000; KAlloc; KAlloc; KAlloc]
      (mkkmem false true 0 ∅) = Ret ([0; 0; 0; 0x80201000; 0x80200000; 0], s')
    /\ kmem_inv 0x80110000 [] s'.
Proof.
  apply (kalloc_refines_pool 0x80110000
           [KAlloc; KFree 0x80200000; KFree 0x80201000; KAlloc; KAlloc; KAlloc]
           [] (mkkmem false true 0 ∅)).
  - apply empty_pool_inv.
  - vm_compute. reflexivity.
Defined.

Lemma kinit_frees_physical_memory_witness :
  exists l s1 s2,
    kinit1 0x80115000 0x80115000 (P2V (4 * 1024 * 1024)) (mkkmem false false 0 ∅) = Ret (tt, s1) /\
    kinit2 0x80115000 (P2V (4 * 1024 * 1024)) (P2V PHYSTOP) s1 = Ret (tt, s2) /\
    use_lock s2 = true /\ kmem_inv 0x80115000 l s2 /\ forall p, p ∈ l <-> page_ok 0x80115000 p.
Proof.
  apply (kinit_frees_physical_memory 0x80115000 (mkkmem false false 0 ∅)).
  - vm_compute. split; discriminate.
  - reflexivity.
Defined.

Lemma kfree_guard_witness :
  kfree 0x80115000 0x80100000 (mkkmem false true 0 ∅) = Panic "kfree".
Proof.
  refine (kfree_guard 0x80115000 0x80100000 (mkkmem false true 0 ∅) _ _).
  - split; vm_compute; congruence.
  - reflexivity.
Defined.
