(* ===== verification/Vm.v ===== *)
(** * Virtual memory

    Models [src/xv6/vm.c] on the page allocator's state: page directories and
    page tables are words of the byte memory, entries are read and written
    through [walkpgdir], and every routine threads the allocator's state.  The
    linker symbols [end] and [data] and the frame buffer description filled in
    by [graphic_init] are parameters. *)

From S2P Require Import Prelude Mem Mmu Spinlock Kalloc.
Local Open Scope Z_scope.

(** [struct gpu], the fields [setupkvm] reads. *)
Record gpu := mkgpu { pvram_addr : Z; vram_size : Z }.

(** [struct kmap]: virtual start, physical start and end, permissions. *)
Record kmap_entry := mkkmap { virt : Z; phys_start : Z; phys_end : Z; kperm : Z }.

Section Vm.
Context (kend kdata : Z) (gpu0 : gpu).

Definition ld (a : Z) : M kmem Z := gets (fun s => ld32 (k_mem s) a).
Definition st (a v : Z) : M kmem unit := modify (fun s => set_mem (st32 (k_mem s) a v) s).
Definition mset (dst c n : Z) : M kmem unit :=
  modify (fun s => set_mem (memset (k_mem s) dst c n) s).
Definition mmove (dst src n : Z) : M kmem unit :=
  modify (fun s => set_mem (memmove (k_mem s) dst src n) s).

(** The address of the entry for [va], 0 for the null pointer. *)
Definition walkpgdir (pgdir va : Z) (alloc : bool) : M kmem Z :=
  let pde := pgdir + 4 * PDX va in
  v <- ld pde ;;
  if has v PTE_P then ret (P2V (PTE_ADDR v) + 4 * PTX va)
  else if negb alloc then ret 0
  else
    pgtab <- kalloc ;;
    if pgtab =? 0 then ret 0
    else
      mset pgtab 0 PGSIZE ;;;
      st pde (Z.lor (Z.lor (Z.lor (V2P pgtab) PTE_P) PTE_W) PTE_U) ;;;
      ret (pgtab + 4 * PTX va).

(** The endless loop of [mappages], left when [a == last]. *)
Fixpoint mappages_loop (fuel : nat) (pgdir a last pa perm : Z) : M kmem Z :=
  match fuel with
  | O => nofuel
  | S f =>
      pte <- walkpgdir pgdir a true ;;
      if pte =? 0 then ret (-1)
      else
        v <- ld pte ;;
        if has v PTE_P then panic "remap"
        else
          st pte (Z.lor (Z.lor pa perm) PTE_P) ;;;
          if a =? last then ret 0
          else mappages_loop f pgdir (u32 (a + PGSIZE)) last (u32 (pa + PGSIZE)) perm
  end.
Definition mappages (pgdir va size pa perm : Z) : M kmem Z :=
  let a := PGROUNDDOWN va in
  let last := PGROUNDDOWN (u32 (va + size - 1)) in
  mappages_loop (S (Z.to_nat (u32 (last - a) / PGSIZE))) pgdir a last pa perm.

Definition kmap : list kmap_entry :=
  [ mkkmap KERNBASE 0 EXTMEM PTE_W;
    mkkmap KERNLINK (V2P KERNLINK) (V2P kdata) 0;
    mkkmap kdata (V2P kdata) PHYSTOP PTE_W;
    mkkmap (u32 (DEVSPACE - vram_size gpu0)) (pvram_addr gpu0)
           (u32 (pvram_addr gpu0 + vram_size gpu0)) PTE_W;
    mkkmap (u32 (PCI_BAR_BASE + PCI_VP_OFFSET)) PCI_BAR_BASE
           (u32 (0x10000000 + PCI_BAR_BASE)) PTE_W;
    mkkmap DEVSPACE DEVSPACE 0 PTE_W ].

(** [for(; a < oldsz; a += PGSIZE)] of [deallocuvm]. *)
Fixpoint deallocuvm_loop (fuel : nat) (pgdir a oldsz : Z) : M kmem unit :=
  match fuel with
  | O => nofuel
  | S f =>
      if negb (a <? oldsz) then ret tt
      else
        pte <- walkpgdir pgdir a false ;;
        if pte =? 0 then deallocuvm_loop f pgdir (u32 (a + PGSIZE)) oldsz
        else
          v <- ld pte ;;
          (if has v PTE_P then
             let pa := PTE_ADDR v in
             if pa =? 0 then panic "kfree"
             else kfree kend (P2V pa) ;;; st pte 0
           else ret tt) ;;;
          deallocuvm_loop f pgdir (u32 (a + PGSIZE)) oldsz
  end.
Definition deallocuvm (pgdir oldsz newsz : Z) : M kmem Z :=
  if newsz >=? oldsz then ret oldsz
  else
    let a := PGROUNDDOWN newsz in
    deallocuvm_loop (S (Z.to_nat ((oldsz - a + PGSIZE - 1) / PGSIZE))) pgdir a oldsz ;;;
    ret newsz.

(** The page-table pages of [freevm]: entries [i], [i+1], ... *)
Fixpoint freevm_loop (n : nat) (pgdir i : Z) : M kmem unit :=
  match n with
  | O => ret tt
  | S n' =>
      v <- ld (pgdir + 4 * i) ;;
      (if has v PTE_P then kfree kend (P2V (PTE_ADDR v)) else ret tt) ;;;
      freevm_loop n' pgdir (i + 1)
  end.
Definition freevm (pgdir : Z) : M kmem unit :=
  if pgdir =? 0 then panic "freevm: no pgdir"
  else
    deallocuvm pgdir KERNBASE 0 ;;;
    freevm_loop (Z.to_nat NPDENTRIES) pgdir 0 ;;;
    kfree kend pgdir.

(** [for(k = kmap; ...) if(mappages(...) < 0) ...]: true when all entries are
    mapped. *)
Fixpoint setupkvm_loop (ks : list kmap_entry) (pgdir : Z) : M kmem bool :=
  match ks with
  | [] => ret true
  | k :: ks' =>
      r <- mappages pgdir (virt k) (u32 (phys_end k - phys_start k)) (phys_start k) (kperm k) ;;
      if r <? 0 then ret false else setupkvm_loop ks' pgdir
  end.
Definition setupkvm : M kmem Z :=
  pgdir <- kalloc ;;
  if pgdir =? 0 then ret 0
  else
    mset pgdir 0 PGSIZE ;;;
    if P2V PHYSTOP >? DEVSPACE then panic "PHYSTOP too high"
    else
      ok <- setupkvm_loop kmap pgdir ;;
      if ok : bool then ret pgdir else freevm pgdir ;;; ret 0.

Definition inituvm (pgdir init sz : Z) : M kmem unit :=
  if sz >=? PGSIZE then panic "inituvm: more than a page"
  else
    m <- kalloc ;;
    mset m 0 PGSIZE ;;;
    mappages pgdir 0 PGSIZE (V2P m) (Z.lor PTE_W PTE_U) ;;;
    mmove m init sz.

(** [for(; a < newsz; a += PGSIZE)] of [allocuvm]; [oldsz] is needed to undo. *)
Fixpoint allocuvm_loop (fuel : nat) (pgdir a oldsz newsz : Z) : M kmem Z :=
  match fuel with
  | O => nofuel
  | S f =>
      if negb (a <? newsz) then ret newsz
      else
        m <- kalloc ;;
        if m =? 0 then deallocuvm pgdir newsz oldsz ;;; ret 0
        else
          mset m 0 PGSIZE ;;;
          r <- mappages pgdir a PGSIZE (V2P m) (Z.lor PTE_W PTE_U) ;;
          if r <? 0 then deallocuvm pgdir newsz oldsz ;;; kfree kend m ;;; ret 0
          else allocuvm_loop f pgdir (u32 (a + PGSIZE)) oldsz newsz
  end.
Definition allocuvm (pgdir oldsz newsz : Z) : M kmem Z :=
  if newsz >=? KERNBASE then ret 0
  else if newsz <? oldsz then ret oldsz
  else
    let a := PGROUNDUP oldsz in
    allocuvm_loop (S (Z.to_nat ((newsz - a + PGSIZE - 1) / PGSIZE))) pgdir a oldsz newsz.

Definition clearpteu (pgdir uva : Z) : M kmem unit :=
  pte <- walkpgdir pgdir uva false ;;
  if pte =? 0 then panic "clearpteu"
  else v <- ld pte ;; st pte (Z.land v (u32 (Z.lnot PTE_U))).

(** [for(i = 0; i < KERNBASE; i += PGSIZE)] of [copyuvm]: true when the loop
    reaches its end, false for [goto bad]. *)
Fixpoint copyuvm_loop (n : nat) (pgdir d i : Z) : M kmem bool :=
  match n with
  | O => ret true
  | S n' =>
      pte <- walkpgdir pgdir i false ;;
      if pte =? 0 then copyuvm_loop n' pgdir d (i + PGSIZE)
      else
        v <- ld pte ;;
        if negb (has v PTE_P) then copyuvm_loop n' pgdir d (i + PGSIZE)
        else
          let pa := PTE_ADDR v in
          let flags := PTE_FLAGS v in
          m <- kalloc ;;
          if m =? 0 then ret false
          else
            mmove m (P2V pa) PGSIZE ;;;
            r <- mappages d i PGSIZE (V2P m) flags ;;
            if r <? 0 then ret false else copyuvm_loop n' pgdir d (i + PGSIZE)
  end.
Definition copyuvm (pgdir sz : Z) : M kmem Z :=
  d <- setupkvm ;;
  if d =? 0 then ret 0
  else
    ok <- copyuvm_loop (Z.to_nat (KERNBASE / PGSIZE)) pgdir d 0 ;;
    if ok : bool then ret d else freevm d ;;; ret 0.

(** [uva2ka] dereferences the entry without a null test: on an address without
    a page table the source reads through a null pointer, [Panic] here. *)
Definition uva2ka (pgdir uva : Z) : M kmem Z :=
  pte <- walkpgdir pgdir uva false ;;
  if pte =? 0 then panic "null pte"
  else
    v <- ld pte ;;
    if negb (has v PTE_P) then ret 0
    else if negb (has v PTE_U) then ret 0
    else ret (P2V (PTE_ADDR v)).

Fixpoint copyout_loop (fuel : nat) (pgdir va buf len : Z) : M kmem Z :=
  match fuel with
  | O => nofuel
  | S f =>
      if negb (len >? 0) then ret 0
      else
        let va0 := PGROUNDDOWN va in
        pa0 <- uva2ka pgdir va0 ;;
        if pa0 =? 0 then ret (-1)
        else
          let n := if PGSIZE - (va - va0) >? len then len else PGSIZE - (va - va0) in
          mmove (pa0 + (va - va0)) buf n ;;;
          copyout_loop f pgdir (u32 (va0 + PGSIZE)) (buf + n) (len - n)
  end.
Definition copyout (pgdir va p len : Z) : M kmem Z :=
  copyout_loop (S (S (S (Z.to_nat (len / PGSIZE))))) pgdir va p len.

Lemma mset_eq dst c n s : mset dst c n s = Ret (tt, set_mem (memset (k_mem s) dst c n) s).
Proof. reflexivity. Qed.

Lemma mmove_eq dst src n s : mmove dst src n s = Ret (tt, set_mem (memmove (k_mem s) dst src n) s).
Proof. reflexivity. Qed.

(** ** Reading a page directory

    The entries as the hardware reads them: the directory entry of [va], the
    page table it names, and the page-table entry, 0 where there is no page
    table. *)

Definition pde_at (m : mem) (pgdir i : Z) : Z := ld32 m (pgdir + 4 * i).
Definition ptpage (pde : Z) : Z := P2V (PTE_ADDR pde).
Definition pte_at (m : mem) (pgdir va : Z) : Z :=
  let pde := pde_at m pgdir (PDX va) in
  if has pde PTE_P then ld32 m (ptpage pde + 4 * PTX va) else 0.

(** A directory whose tables are allocated pages, all distinct. *)
Record dir_ok (m : mem) (pgdir : Z) (l : list Z) : Prop := mkdir_ok {
  dir_page : page_ok kend pgdir;
  dir_free : pgdir ∉ l;
  dir_pt : forall i, 0 <= i < 1024 -> has (pde_at m pgdir i) PTE_P = true ->
    page_ok kend (ptpage (pde_at m pgdir i)) /\ ptpage (pde_at m pgdir i) ∉ l /\
    ptpage (pde_at m pgdir i) <> pgdir;
  dir_inj : forall i j, 0 <= i < 1024 -> 0 <= j < 1024 ->
    has (pde_at m pgdir i) PTE_P = true -> has (pde_at m pgdir j) PTE_P = true ->
    ptpage (pde_at m pgdir i) = ptpage (pde_at m pgdir j) -> i = j }.

(** The pages a directory consists of. *)
Definition table_page (m : mem) (pgdir q : Z) : Prop :=
  q = pgdir \/
  exists i, 0 <= i < 1024 /\ has (pde_at m pgdir i) PTE_P = true /\ q = ptpage (pde_at m pgdir i).

(** The byte [a] lies in the page [p]. *)
Definition in_page (a p : Z) : Prop := p <= a < p + PGSIZE.

(** ** Flag bits *)

Lemma has_P v : has v PTE_P = Z.odd v.
Proof.
  unfold has, PTE_P. change 1 with (Z.ones 1). rewrite Z.land_ones by lia.
  change (2 ^ 1) with 2. rewrite Zmod_odd. destruct (Z.odd v); reflexivity.
Qed.

Lemma has_0 b : has 0 b = false.
Proof. unfold has. rewrite Z.land_0_l. reflexivity. Qed.

Lemma has_lor_P v : has (Z.lor v PTE_P) PTE_P = true.
Proof.
  unfold has. rewrite Z.land_lor_distr_l. change (Z.land PTE_P PTE_P) with 1.
  destruct (Z.lor (Z.land v PTE_P) 1 =? 0) eqn:E; [|reflexivity].
  apply Z.eqb_eq, Z.lor_eq_0_iff in E. lia.
Qed.

(** The directory entry [walkpgdir] installs. *)
Definition pde_new (p : Z) : Z := Z.lor (Z.lor (Z.lor (V2P p) PTE_P) PTE_W) PTE_U.

Lemma V2P_page p : page_ok kend p ->
  0 <= V2P p < PHYSTOP /\ V2P p mod 4096 = 0 /\ V2P p = p - KERNBASE.
Proof.
  intros (Ha & _ & Hb). unfold V2P, PGSIZE, KERNBASE, PHYSTOP in *.
  rewrite u32_small by lia. split; [lia|]. split; [|reflexivity].
  replace (p - 2147483648) with (p + (-524288) * 4096) by lia. rewrite Z.mod_add by lia. exact Ha.
Qed.

Lemma pde_new_arith p : page_ok kend p -> pde_new p = V2P p + 7.
Proof.
  intros Hp. destruct (V2P_page p Hp) as (_ & Ha & _). unfold pde_new.
  rewrite <- !Z.lor_assoc. change (Z.lor PTE_P (Z.lor PTE_W PTE_U)) with 7.
  apply lor_aligned; [lia|exact Ha].
Qed.

Lemma pde_new_range p : page_ok kend p -> 0 <= pde_new p < 2 ^ 32.
Proof.
  intros Hp. rewrite pde_new_arith by exact Hp. destruct (V2P_page p Hp) as (Hr & _ & _).
  unfold PHYSTOP in Hr. lia.
Qed.

(** A page-aligned physical address with flags: its parts. *)
Lemma aligned_div a k : a mod 4096 = 0 -> 0 <= k < 4096 -> (a + k) / 4096 * 4096 = a.
Proof. intros Ha Hk. pose proof (Z.div_mod a 4096). pose proof (Z.div_mod (a + k) 4096).
  pose proof (Z.mod_pos_bound (a + k) 4096). lia. Qed.

Lemma ptpage_new p : page_ok kend p -> ptpage (pde_new p) = p.
Proof.
  intros Hp. pose proof (pde_new_range p Hp). unfold ptpage.
  rewrite PTE_ADDR_arith, pde_new_arith by assumption.
  destruct (V2P_page p Hp) as (_ & Ha & Hv). rewrite aligned_div by (exact Ha || lia).
  apply P2V_V2P. destruct Hp as (_ & _ & Hb). unfold KERNBASE, PHYSTOP in *. lia.
Qed.

Lemma has_pde_new p : page_ok kend p -> has (pde_new p) PTE_P = true.
Proof.
  intros Hp. rewrite has_P, pde_new_arith by exact Hp.
  destruct (V2P_page p Hp) as (_ & Ha & _).
  pose proof (Z.div_mod (V2P p) 4096). rewrite Z.odd_add.
  replace (V2P p) with (2 * (2048 * (V2P p / 4096))) by lia. rewrite Z.odd_mul. reflexivity.
Qed.

Lemma ptpage_aligned v : 0 <= v < 2 ^ 32 -> ptpage v mod 4096 = 0.
Proof.
  intros Hv. unfold ptpage, P2V, u32, KERNBASE. rewrite PTE_ADDR_arith by exact Hv.
  pose proof (Z.div_mod (v / 4096 * 4096 + 2147483648) (2 ^ 32)).
  replace ((v / 4096 * 4096 + 2147483648) mod 2 ^ 32) with
    ((v / 4096 + 524288 - 1048576 * ((v / 4096 * 4096 + 2147483648) / 2 ^ 32)) * 4096) by lia.
  apply Z.mod_mul. lia.
Qed.

(** ** Entries and pages *)

(** Entry [k] of the table page [p] lies in that page. *)
Lemma entry_in_page p k a : 0 <= k < 1024 -> p + 4 * k <= a < p + 4 * k + 4 -> in_page a p.
Proof. unfold in_page, PGSIZE. lia. Qed.

Lemma pages_apart p q a : page_ok kend p -> page_ok kend q -> p <> q ->
  in_page a p -> in_page a q -> False.
Proof.
  intros Hp Hq Hne H1 H2. pose proof (page_ok_disjoint _ _ _ Hp Hq Hne).
  unfold in_page in *. lia.
Qed.

(** Words of a page unchanged on that page. *)
Lemma ld32_in_page m m' p k : 0 <= k < 1024 ->
  (forall a, in_page a p -> ldb m' a = ldb m a) -> ld32 m' (p + 4 * k) = ld32 m (p + 4 * k).
Proof. intros Hk H. apply ld32_ext. intros x Hx. apply H. eapply entry_in_page; eauto. Qed.

(** If the bytes of the directory's pages are unchanged, so are its entries. *)
Lemma pde_at_frame m m' pgdir i : 0 <= i < 1024 ->
  (forall a, in_page a pgdir -> ldb m' a = ldb m a) -> pde_at m' pgdir i = pde_at m pgdir i.
Proof. intros Hi H. apply ld32_in_page; assumption. Qed.

Lemma pte_at_frame m m' pgdir va :
  (forall q a, table_page m pgdir q -> in_page a q -> ldb m' a = ldb m a) ->
  pte_at m' pgdir va = pte_at m pgdir va.
Proof.
  intros H. unfold pte_at.
  rewrite (pde_at_frame m m' pgdir (PDX va) (PDX_range va)) by (intros a; apply H; left; reflexivity).
  destruct (has (pde_at m pgdir (PDX va)) PTE_P) eqn:E; [|reflexivity].
  apply ld32_in_page; [apply PTX_range|]. intros a. apply H. right. exists (PDX va).
  split; [apply PDX_range|auto].
Qed.

Lemma dir_ok_frame m m' pgdir l :
  (forall a, in_page a pgdir -> ldb m' a = ldb m a) -> dir_ok m pgdir l -> dir_ok m' pgdir l.
Proof.
  intros Hf [H1 H2 H3 H4].
  assert (He : forall i, 0 <= i < 1024 -> pde_at m' pgdir i = pde_at m pgdir i)
    by (intros; apply pde_at_frame; assumption).
  split; auto.
  - intros i Hi. rewrite He by exact Hi. auto.
  - intros i j Hi Hj. rewrite !He by assumption. auto.
Qed.

Lemma dir_ok_sub m pgdir l l' : (forall p, p ∈ l' -> p ∈ l) -> dir_ok m pgdir l -> dir_ok m pgdir l'.
Proof.
  intros Hs [H1 H2 H3 H4]. split; [exact H1|intros Hin; apply H2, Hs, Hin| |exact H4].
  intros i Hi Hp. destruct (H3 i Hi Hp) as (? & Hn & ?).
  split; [assumption|]. split; [intros Hin; apply Hn, Hs, Hin|assumption].
Qed.

Lemma table_page_ok m pgdir l q : dir_ok m pgdir l -> table_page m pgdir q ->
  page_ok kend q /\ q ∉ l.
Proof.
  intros [H1 H2 H3 H4] [->|(i & Hi & Hp & ->)]; [auto|]. destruct (H3 i Hi Hp) as (? & ? & ?). auto.
Qed.

(** ** [walkpgdir] *)

Lemma walk_ro pgdir va s :
  walkpgdir pgdir va false s =
  Ret (let pde := pde_at (k_mem s) pgdir (PDX va) in
       if has pde PTE_P then ptpage pde + 4 * PTX va else 0, s).
Proof. unfold walkpgdir, ld, bind, gets, pde_at, ptpage. cbn. case_if; reflexivity. Qed.

Lemma walk_present pgdir va alloc s :
  has (pde_at (k_mem s) pgdir (PDX va)) PTE_P = true ->
  walkpgdir pgdir va alloc s = Ret (ptpage (pde_at (k_mem s) pgdir (PDX va)) + 4 * PTX va, s).
Proof. intros H. unfold walkpgdir, ld, bind, gets. unfold pde_at in *. rewrite H. reflexivity. Qed.

(** The memory after [walkpgdir] installed the table page [p]. *)
Definition mem_install (m : mem) (pgdir i p : Z) : mem :=
  st32 (memset m p 0 PGSIZE) (pgdir + 4 * i) (pde_new p).

Lemma install_frame m pgdir i p a : 0 <= i < 1024 ->
  ~ in_page a pgdir -> ~ in_page a p -> ldb (mem_install m pgdir i p) a = ldb m a.
Proof.
  intros Hi H1 H2. unfold mem_install. rewrite ldb_st32, ldb_memset by (unfold PGSIZE; lia).
  unfold in_page, PGSIZE in *. repeat case_if; try lia; reflexivity.
Qed.

Lemma install_pde m pgdir i p j :
  0 <= i < 1024 -> 0 <= j < 1024 -> page_ok kend p -> page_ok kend pgdir -> p <> pgdir ->
  pde_at (mem_install m pgdir i p) pgdir j = if i =? j then pde_new p else pde_at m pgdir j.
Proof.
  intros Hi Hj Hp Hd Hne. unfold pde_at, mem_install. case_if.
  - subst. rewrite ld32_st32_same. apply u32_small, pde_new_range, Hp.
  - rewrite ld32_st32_ne by lia. apply ld32_memset_out; [unfold PGSIZE; lia|].
    pose proof (page_ok_disjoint _ _ _ Hp Hd Hne). unfold PGSIZE in *. lia.
Qed.

Lemma install_dir_ok m pgdir i p l :
  0 <= i < 1024 -> dir_ok m pgdir (p :: l) -> page_ok kend p -> p ∉ l ->
  dir_ok (mem_install m pgdir i p) pgdir l.
Proof.
  intros Hi [H1 H2 H3 H4] Hp Hpl. apply not_elem_of_cons in H2 as [Hne Hfree].
  assert (He : forall j, 0 <= j < 1024 -> pde_at (mem_install m pgdir i p) pgdir j =
      if i =? j then pde_new p else pde_at m pgdir j) by (intros; apply install_pde; auto).
  assert (Hfr : forall j, 0 <= j < 1024 -> has (pde_at m pgdir j) PTE_P = true ->
      ptpage (pde_at m pgdir j) <> p)
    by (intros j Hj Hpj; destruct (H3 j Hj Hpj) as (_ & Hn & _);
        apply not_elem_of_cons in Hn; tauto).
  split; [exact H1|exact Hfree| |].
  - intros j Hj. rewrite He by exact Hj. case_if.
    + intros _. rewrite ptpage_new by exact Hp. auto.
    + intros Hpj. destruct (H3 j Hj Hpj) as (? & Hn & ?). apply not_elem_of_cons in Hn. tauto.
  - intros j k Hj Hk. rewrite !He by assumption. repeat case_if; try lia; intros Hpj Hpk.
    + rewrite ptpage_new by exact Hp. intros Heq. exfalso. apply (Hfr k); auto.
    + rewrite ptpage_new by exact Hp. intros Heq. exfalso. apply (Hfr j); auto.
    + apply H4; assumption.
Qed.

Lemma install_pte m pgdir i p l va :
  0 <= i < 1024 -> dir_ok m pgdir (p :: l) -> page_ok kend p -> p ∉ l ->
  has (pde_at m pgdir i) PTE_P = false ->
  pte_at (mem_install m pgdir i p) pgdir va = pte_at m pgdir va.
Proof.
  intros Hi [H1 H2 H3 H4] Hp Hpl Habs. apply not_elem_of_cons in H2 as [Hne _].
  unfold pte_at. rewrite install_pde by auto using PDX_range.
  destruct (Z.eqb_spec i (PDX va)) as [->|Hni].
  - rewrite Habs, has_pde_new, ptpage_new by exact Hp. unfold mem_install.
    pose proof (page_ok_disjoint _ _ _ Hp H1 ltac:(congruence)) as Hd.
    pose proof (PTX_range va). unfold PGSIZE in *.
    rewrite ld32_st32_ne by lia. apply ld32_memset_zero; lia.
  - destruct (has (pde_at m pgdir (PDX va)) PTE_P) eqn:Ep; [|reflexivity].
    destruct (H3 _ (PDX_range va) Ep) as (Hq & Hn & Hqd). apply not_elem_of_cons in Hn as [Hqp _].
    apply ld32_in_page; [apply PTX_range|]. intros a Ha.
    apply install_frame; [exact Hi| |]; intros Ha'.
    + eapply (pages_apart _ pgdir a Hq H1); eauto.
    + eapply (pages_apart _ p a Hq Hp); eauto.
Qed.

Lemma install_tables m pgdir i p l q :
  0 <= i < 1024 -> dir_ok m pgdir (p :: l) -> page_ok kend p ->
  has (pde_at m pgdir i) PTE_P = false ->
  table_page (mem_install m pgdir i p) pgdir q <-> table_page m pgdir q \/ q = p.
Proof.
  intros Hi [H1 H2 _ _] Hp Habs. apply not_elem_of_cons in H2 as [Hne _].
  assert (Hpde : forall j, 0 <= j < 1024 -> pde_at (mem_install m pgdir i p) pgdir j =
      if i =? j then pde_new p else pde_at m pgdir j) by (intros; apply install_pde; auto).
  unfold table_page. split.
  - intros [->|(j & Hj & Hpj & ->)]; [auto|]. rewrite Hpde in * by exact Hj.
    destruct (Z.eqb_spec i j); [right; apply ptpage_new, Hp|left; right; eauto].
  - intros [[->|(j & Hj & Hpj & ->)]| ->]; [auto| |]; right; [exists j|exists i]; rewrite Hpde by assumption.
    + destruct (Z.eqb_spec i j); [congruence|auto].
    + rewrite Z.eqb_refl. split; [exact Hi|]. split; [apply has_pde_new, Hp|].
      symmetry. apply ptpage_new, Hp.
Qed.

(** Memory changes outside the free pages keep the allocator's invariant. *)
Lemma kmem_inv_frame l s m' :
  kmem_inv kend l s -> (forall q a, q ∈ l -> in_page a q -> ldb m' a = ldb (k_mem s) a) ->
  kmem_inv kend l (set_mem m' s).
Proof.
  intros Hinv Hf. pose proof (kmem_inv_pages _ _ _ Hinv) as Hok.
  destruct Hinv as (Hl & Hnd & Hc). split; [exact Hl|]. split; [exact Hnd|].
  cbn [freelist k_mem set_mem]. eapply chain_ext; [|exact Hc]. intros q Hq.
  rewrite <- (Z.add_0_r q). change 0 with (4 * 0). apply ld32_in_page; [lia|].
  intros a. apply Hf, Hq.
Qed.

Lemma install_inv pgdir i p l s s1 :
  0 <= i < 1024 -> kmem_inv kend (p :: l) s -> dir_ok (k_mem s) pgdir (p :: l) ->
  kmem_inv kend l s1 -> k_mem s1 = k_mem s ->
  kmem_inv kend l (set_mem (mem_install (k_mem s) pgdir i p) s1).
Proof.
  intros Hi Hinv [H1 H2 _ _] Hinv1 Hm. apply kmem_inv_frame; [exact Hinv1|].
  pose proof (kmem_inv_pages _ _ _ Hinv) as Hok. rewrite Hm. apply not_elem_of_cons in H2 as [Hne Hd].
  assert (p ∉ l) by (destruct Hinv as (_ & Hnd & _); apply NoDup_cons in Hnd; tauto).
  intros q a Hq Ha. apply install_frame; [exact Hi| |]; intros Ha'.
  - eapply (pages_apart q pgdir a); eauto; [apply Hok; right; exact Hq|congruence].
  - eapply (pages_apart q p a); eauto; [apply Hok; right; exact Hq|apply Hok; left|congruence].
Qed.

(** A step that extends or edits the directory [pgdir]: it takes the pages
    [ts] for new tables, leaves [l'] free and changes only table pages. *)
Record space_step (pgdir : Z) (ts l' : list Z) (s s' : kmem) : Prop := mkspace {
  ss_inv : kmem_inv kend l' s';
  ss_dir : dir_ok (k_mem s') pgdir l';
  ss_lock : use_lock s' = use_lock s;
  ss_tables : forall q, table_page (k_mem s') pgdir q <-> table_page (k_mem s) pgdir q \/ q ∈ ts;
  ss_frame : forall a, (forall q, table_page (k_mem s') pgdir q -> ~ in_page a q) ->
    ldb (k_mem s') a = ldb (k_mem s) a }.

Lemma space_step_refl pgdir l s :
  kmem_inv kend l s -> dir_ok (k_mem s) pgdir l -> space_step pgdir [] l s s.
Proof. intros. split; auto. intros q. rewrite elem_of_nil. tauto. Qed.

Lemma space_step_trans pgdir ts1 ts2 l1 l2 s s1 s2 :
  space_step pgdir ts1 l1 s s1 -> space_step pgdir ts2 l2 s1 s2 ->
  space_step pgdir (ts1 ++ ts2) l2 s s2.
Proof.
  intros [_ _ Hu1 Ht1 Hf1] [Hi Hd Hu2 Ht2 Hf2]. split; auto.
  - congruence.
  - intros q. rewrite Ht2, Ht1, elem_of_app. tauto.
  - intros a Ha. rewrite Hf2 by exact Ha. apply Hf1. intros q Hq. apply Ha, Ht2. auto.
Qed.

(** A directory without a present entry at [i] gets the first free page. *)
Lemma install_step pgdir i p l s s1 :
  0 <= i < 1024 -> kmem_inv kend (p :: l) s -> dir_ok (k_mem s) pgdir (p :: l) ->
  has (pde_at (k_mem s) pgdir i) PTE_P = false ->
  kmem_inv kend l s1 -> k_mem s1 = k_mem s -> use_lock s1 = use_lock s ->
  space_step pgdir [p] l s (set_mem (mem_install (k_mem s) pgdir i p) s1).
Proof.
  intros Hi Hinv Hdir Ep Hinv1 Hm Hu.
  assert (Hp : page_ok kend p) by (apply (kmem_inv_pages _ _ _ Hinv); left).
  assert (Hpl : p ∉ l) by (destruct Hinv as (_ & Hnd & _); apply NoDup_cons in Hnd; tauto).
  pose proof (install_tables _ _ _ _ _ p Hi Hdir Hp Ep) as Htp.
  split; cbn [k_mem set_mem use_lock].
  - apply install_inv; assumption.
  - apply install_dir_ok; assumption.
  - exact Hu.
  - intros q. rewrite (install_tables _ _ _ _ l) by assumption.
    rewrite list_elem_of_singleton. reflexivity.
  - intros a Ha. apply install_frame; [exact Hi|apply Ha; left; reflexivity|].
    apply Ha, Htp. auto.
Qed.

(** [walkpgdir] with [alloc]: it either finds the table, or takes a page for it
    and leaves every entry as it was, or returns 0 because no page is free. *)
Lemma walk_alloc pgdir va l s :
  kmem_inv kend l s -> dir_ok (k_mem s) pgdir l ->
  exists r ts l' s',
    l = ts ++ l' /\ walkpgdir pgdir va true s = Ret (r, s') /\ space_step pgdir ts l' s s' /\
    (forall va, pte_at (k_mem s') pgdir va = pte_at (k_mem s) pgdir va) /\
    ((r = 0 /\ l' = []) \/
     (has (pde_at (k_mem s') pgdir (PDX va)) PTE_P = true /\
      r = ptpage (pde_at (k_mem s') pgdir (PDX va)) + 4 * PTX va)).
Proof.
  intros Hinv Hdir. destruct (has (pde_at (k_mem s) pgdir (PDX va)) PTE_P) eqn:Ep.
  - exists (ptpage (pde_at (k_mem s) pgdir (PDX va)) + 4 * PTX va), [], l, s.
    rewrite walk_present by exact Ep. split; [reflexivity|]. split; [reflexivity|].
    split; [apply space_step_refl; assumption|]. auto.
  - unfold walkpgdir, ld. unfold bind at 1, gets. pose proof Ep as Ep'.
    unfold pde_at in Ep'. rewrite Ep'. cbn [negb]. destruct l as [|p l].
    + destruct (kalloc_nil kend s Hinv) as (s' & Hk & Hi & Hm & Hu).
      rewrite (bind_step _ _ _ _ _ Hk). exists 0, [], [], s'.
      split; [reflexivity|]. split; [reflexivity|]. rewrite Hm. split; [|auto].
      split; rewrite ?Hm; auto. intros q. rewrite elem_of_nil. tauto.
    + destruct (kalloc_cons kend p l s Hinv) as (s1 & Hk & Hi & Hm & Hu).
      rewrite (bind_step _ _ _ _ _ Hk).
      assert (Hp : page_ok kend p) by (apply (kmem_inv_pages _ _ _ Hinv); left).
      pose proof (page_ok_pos _ _ Hp). case_if; [lia|].
      pose proof (dir_free _ _ _ Hdir) as Hdf. apply not_elem_of_cons in Hdf as [Hne _].
      exists (p + 4 * PTX va), [p], l, (set_mem (mem_install (k_mem s) pgdir (PDX va) p) s1).
      split; [reflexivity|].
      split; [unfold mset, st, mem_install, bind, modify, ret, set_mem; cbn; rewrite Hm; reflexivity|].
      split; [apply install_step; auto using PDX_range|]. cbn [k_mem set_mem].
      assert (p ∉ l) by (destruct Hinv as (_ & Hnd & _); apply NoDup_cons in Hnd; tauto).
      split; [intros va'; eapply install_pte; eauto using PDX_range|].
      rewrite install_pde, Z.eqb_refl, ptpage_new
        by (auto using PDX_range; apply (dir_page _ _ _ Hdir)).
      right. split; [apply has_pde_new, Hp|reflexivity].
Qed.
End Vm.
