(* ===== verification/Uvm.v ===== *)
(** * Address spaces

    Theorems about [src/xv6/vm.c] as modelled in [Vm]: what [mappages],
    [setupkvm], [deallocuvm], [allocuvm], [freevm], [copyuvm] and [copyout] do
    to the page-table entries of a directory, to the free pages and to the
    contents of memory. *)

From S2P Require Import Prelude Mem Mmu Spinlock Kalloc Vm.
Local Open Scope Z_scope.

Section Uvm.
Context (kend kdata : Z) (gpu0 : gpu).

(** ** Storing one entry *)

(** The number of the page an address lies in. *)
Definition vpn (va : Z) : Z := va / 4096.

Lemma vpn_eq va va' : 0 <= va < 2 ^ 32 -> 0 <= va' < 2 ^ 32 ->
  vpn va = vpn va' <-> PDX va = PDX va' /\ PTX va = PTX va'.
Proof.
  intros H H'. unfold vpn. rewrite !page_index by assumption.
  pose proof (PTX_range va). pose proof (PTX_range va'). lia.
Qed.

(** The memory after [*pte = v] for the entry of [va]. *)
Definition set_pte (m : mem) (pgdir va v : Z) : mem :=
  st32 m (ptpage (pde_at m pgdir (PDX va)) + 4 * PTX va) v.

Section SetPte.
Context (m : mem) (pgdir va v : Z) (l : list Z).

Lemma set_pte_out a : ~ in_page a (ptpage (pde_at m pgdir (PDX va))) -> ldb (set_pte m pgdir va v) a = ldb m a.
Proof.
  intros Ha. unfold set_pte. rewrite ldb_st32. case_if; [|reflexivity].
  exfalso. apply Ha, (entry_in_page _ (PTX va)); [apply PTX_range|lia].
Qed.

Context (Hdir : dir_ok kend m pgdir l).
Context (Hp : has (pde_at m pgdir (PDX va)) PTE_P = true).

Lemma set_pte_pde i : 0 <= i < 1024 -> pde_at (set_pte m pgdir va v) pgdir i = pde_at m pgdir i.
Proof.
  intros Hi. apply pde_at_frame; [exact Hi|]. intros a Ha. apply set_pte_out. intros Ha'.
  destruct (dir_pt _ _ _ _ Hdir _ (PDX_range va) Hp) as (Hq & _ & Hne).
  eapply (pages_apart kend _ _ a Hq (dir_page _ _ _ _ Hdir)); eauto.
Qed.

Lemma set_pte_dir : dir_ok kend (set_pte m pgdir va v) pgdir l.
Proof.
  apply (dir_ok_frame kend m); [|exact Hdir]. intros a Ha. apply set_pte_out. intros Ha'.
  destruct (dir_pt _ _ _ _ Hdir _ (PDX_range va) Hp) as (Hq & _ & Hne).
  eapply (pages_apart kend _ _ a Hq (dir_page _ _ _ _ Hdir)); eauto.
Qed.

Lemma set_pte_tables q : table_page (set_pte m pgdir va v) pgdir q <-> table_page m pgdir q.
Proof.
  unfold table_page. split; (intros [?|(i & Hi & H1 & H2)]; [auto|right; exists i]);
    rewrite set_pte_pde in * by exact Hi; auto.
Qed.

Lemma set_pte_at va' : 0 <= va < 2 ^ 32 -> 0 <= v < 2 ^ 32 -> 0 <= va' < 2 ^ 32 ->
  pte_at (set_pte m pgdir va v) pgdir va' = if vpn va' =? vpn va then v else pte_at m pgdir va'.
Proof.
  intros Hva Hv Hva'. unfold pte_at. rewrite set_pte_pde by apply PDX_range.
  pose proof (vpn_eq _ _ Hva' Hva) as Hn. pose proof (PTX_range va). pose proof (PTX_range va').
  destruct (Z.eqb_spec (vpn va') (vpn va)) as [E|E].
  - apply Hn in E as [-> ->]. rewrite Hp. unfold set_pte. rewrite ld32_st32_same. apply u32_small, Hv.
  - destruct (has (pde_at m pgdir (PDX va')) PTE_P) eqn:Ep; [|reflexivity].
    destruct (Z.eq_dec (PDX va') (PDX va)) as [Heq|Hne].
    + rewrite Heq in *. unfold set_pte. apply ld32_st32_ne. lia.
    + apply ld32_in_page; [apply PTX_range|]. intros a Ha. apply set_pte_out. intros Ha'.
      destruct (dir_pt _ _ _ _ Hdir _ (PDX_range va) Hp) as (Hq & _).
      destruct (dir_pt _ _ _ _ Hdir _ (PDX_range va') Ep) as (Hq' & _).
      eapply (pages_apart kend _ _ a Hq' Hq); eauto. intros Heq.
      apply Hne. eapply dir_inj; eauto using PDX_range.
Qed.
End SetPte.

(** The store through the pointer [walkpgdir] returned. *)
Lemma set_pte_step pgdir va v l s :
  0 <= va < 2 ^ 32 -> kmem_inv kend l s -> dir_ok kend (k_mem s) pgdir l ->
  has (pde_at (k_mem s) pgdir (PDX va)) PTE_P = true ->
  space_step kend pgdir [] l s
    (set_mem (set_pte (k_mem s) pgdir va v) s).
Proof.
  intros Hva Hinv Hdir Hp.
  pose proof (dir_pt _ _ _ _ Hdir _ (PDX_range va) Hp) as (Hq & Hql & Hqd).
  assert (Ht : table_page (k_mem s) pgdir (ptpage (pde_at (k_mem s) pgdir (PDX va))))
    by (right; exists (PDX va); auto using PDX_range).
  split; cbn [k_mem set_mem use_lock].
  - apply kmem_inv_frame; [exact Hinv|]. intros q a Hqin Ha. apply set_pte_out. intros Ha'.
    eapply (pages_apart kend q _ a (kmem_inv_pages _ _ _ Hinv _ Hqin) Hq); eauto. congruence.
  - apply set_pte_dir; assumption.
  - reflexivity.
  - intros q. rewrite elem_of_nil. rewrite (set_pte_tables _ _ _ _ l) by assumption. tauto.
  - intros a Ha. apply set_pte_out. apply Ha. apply (set_pte_tables _ _ _ _ l); assumption.
Qed.

(** ** [mappages] *)

(** The entry [mappages] stores for the physical page [pa]. *)
Definition mk_pte (pa perm : Z) : Z := Z.lor (Z.lor pa perm) PTE_P.

Lemma lor_small perm : 0 <= perm < 4096 -> 0 <= Z.lor perm PTE_P < 4096.
Proof.
  intros H. split; [apply Z.lor_nonneg; unfold PTE_P; lia|].
  destruct (Z.eq_dec (Z.lor perm PTE_P) 0) as [->|]; [lia|].
  apply (Z.log2_lt_pow2 _ 12); [pose proof (Z.lor_nonneg perm PTE_P); unfold PTE_P in *; lia|].
  rewrite Z.log2_lor by (unfold PTE_P; lia). apply Z.max_lub_lt; [|reflexivity].
  destruct (Z.eq_dec perm 0) as [->|]; [reflexivity|]. apply Z.log2_lt_pow2; lia.
Qed.

Lemma mk_pte_arith pa perm : pa mod 4096 = 0 -> 0 <= perm < 4096 ->
  mk_pte pa perm = pa + Z.lor perm PTE_P.
Proof.
  intros Ha Hp. unfold mk_pte. rewrite <- Z.lor_assoc.
  apply lor_aligned; [apply lor_small, Hp|exact Ha].
Qed.

(** A page-aligned physical address below 4 GB. *)
Definition pa_ok (pa : Z) : Prop := 0 <= pa < 2 ^ 32 /\ pa mod 4096 = 0.

Lemma mk_pte_range pa perm : pa_ok pa -> 0 <= perm < 4096 -> 0 <= mk_pte pa perm < 2 ^ 32.
Proof.
  intros [Hr Ha] Hp. rewrite mk_pte_arith by assumption. pose proof (lor_small perm Hp).
  pose proof (Z.div_mod pa 4096). lia.
Qed.

Lemma mk_pte_present pa perm : has (mk_pte pa perm) PTE_P = true.
Proof. apply has_lor_P. Qed.

Lemma mk_pte_addr pa perm : pa_ok pa -> 0 <= perm < 4096 -> PTE_ADDR (mk_pte pa perm) = pa.
Proof.
  intros Hpa Hp. rewrite PTE_ADDR_arith by (apply mk_pte_range; assumption).
  destruct Hpa as [_ Ha]. rewrite mk_pte_arith by assumption.
  apply aligned_div; [exact Ha|apply lor_small, Hp].
Qed.

Lemma mk_pte_flags pa perm : pa_ok pa -> 0 <= perm < 4096 ->
  PTE_FLAGS (mk_pte pa perm) = Z.lor perm PTE_P.
Proof.
  intros [_ Ha] Hp. rewrite PTE_FLAGS_arith, mk_pte_arith by assumption.
  rewrite <- Z.add_mod_idemp_l, Ha, Z.add_0_l by lia.
  apply Z.mod_small, lor_small, Hp.
Qed.

(** The address of the entry of [va] in a directory that has its table. *)
Lemma ld_pte pgdir va s : has (pde_at (k_mem s) pgdir (PDX va)) PTE_P = true ->
  ld (ptpage (pde_at (k_mem s) pgdir (PDX va)) + 4 * PTX va) s = Ret (pte_at (k_mem s) pgdir va, s).
Proof. intros H. unfold ld, gets, pte_at. rewrite H. reflexivity. Qed.

Lemma pte_addr_pos m pgdir va l : dir_ok kend m pgdir l ->
  has (pde_at m pgdir (PDX va)) PTE_P = true ->
  0 < ptpage (pde_at m pgdir (PDX va)) + 4 * PTX va.
Proof.
  intros Hd Hp. destruct (dir_pt _ _ _ _ Hd _ (PDX_range va) Hp) as (Hq & _).
  pose proof (page_ok_pos _ _ Hq). pose proof (PTX_range va). lia.
Qed.

(** One iteration of the loop. *)
Lemma mappages_iter f pgdir a last pa perm l s :
  kmem_inv kend l s -> dir_ok kend (k_mem s) pgdir l ->
  0 <= a < 2 ^ 32 -> pa_ok pa -> 0 <= perm < 4096 ->
  exists ts l' s', l = ts ++ l' /\ space_step kend pgdir ts l' s s' /\
    ((l' = [] /\ mappages_loop (S f) pgdir a last pa perm s = Ret (-1, s') /\
      forall va, 0 <= va < 2 ^ 32 -> pte_at (k_mem s') pgdir va = pte_at (k_mem s) pgdir va) \/
     (has (pte_at (k_mem s) pgdir a) PTE_P = true /\
      mappages_loop (S f) pgdir a last pa perm s = Panic "remap") \/
     (has (pte_at (k_mem s) pgdir a) PTE_P = false /\
      mappages_loop (S f) pgdir a last pa perm s =
        (if a =? last then ret 0
         else mappages_loop f pgdir (u32 (a + PGSIZE)) last (u32 (pa + PGSIZE)) perm) s' /\
      forall va, 0 <= va < 2 ^ 32 -> pte_at (k_mem s') pgdir va =
        if vpn va =? vpn a then mk_pte pa perm else pte_at (k_mem s) pgdir va)).
Proof.
  intros Hinv Hdir Ha Hpa Hperm. cbn [mappages_loop].
  destruct (walk_alloc kend pgdir a l s Hinv Hdir) as (r & ts & l' & s1 & -> & Hw & Hs & Hpte & Hr).
  rewrite (bind_step _ _ _ _ _ Hw). destruct Hr as [[-> ->]|[Hp ->]].
  - exists ts, [], s1. split; [reflexivity|]. split; [exact Hs|]. left.
    split; [reflexivity|]. split; [reflexivity|]. intros va _. apply Hpte.
  - pose proof (pte_addr_pos _ _ _ _ (ss_dir _ _ _ _ _ _ Hs) Hp).
    case_if; [lia|]. rewrite (bind_step _ _ _ _ _ (ld_pte _ _ _ Hp)), Hpte.
    destruct (has (pte_at (k_mem s) pgdir a) PTE_P) eqn:Ea.
    + exists ts, l', s1. split; [reflexivity|]. split; [exact Hs|]. right. left. auto.
    + exists ts, l', (set_mem (set_pte (k_mem s1) pgdir a (mk_pte pa perm)) s1).
      split; [reflexivity|]. split.
      { rewrite <- (app_nil_r ts). eapply space_step_trans; [exact Hs|].
        apply set_pte_step; auto; apply Hs. }
      right. right. split; [reflexivity|]. split; [reflexivity|].
      intros va Hva. cbn [k_mem set_mem].
      rewrite (set_pte_at _ _ _ _ l') by (auto using mk_pte_range; apply Hs).
      rewrite Hpte. reflexivity.
Qed.

(** The entries after [k] pages from [a] were mapped to [pa]. *)
Definition map_upd (m : mem) (pgdir a k pa perm va : Z) : Z :=
  if (vpn a <=? vpn va) && (vpn va <? vpn a + k)
  then mk_pte (pa + (vpn va - vpn a) * 4096) perm else pte_at m pgdir va.

Lemma map_upd_0 m pgdir a pa perm va : map_upd m pgdir a 0 pa perm va = pte_at m pgdir va.
Proof. unfold map_upd. case_if; [lia|reflexivity]. Qed.

Lemma vpn_next a : vpn (a + 4096) = vpn a + 1.
Proof. unfold vpn. replace (a + 4096) with (a + 1 * 4096) by lia. apply Z.div_add. lia. Qed.

Lemma vpn_aligned a : a mod 4096 = 0 -> vpn a * 4096 = a.
Proof. unfold vpn. intros H. pose proof (Z.div_mod a 4096). lia. Qed.

Lemma vpn_range va : 0 <= va < 2 ^ 32 <-> 0 <= vpn va < 2 ^ 20.
Proof. unfold vpn. pose proof (Z.div_mod va 4096). pose proof (Z.mod_pos_bound va 4096). lia. Qed.

Lemma vpn_mul k : vpn (k * 4096) = k.
Proof. apply Z.div_mul. lia. Qed.

Lemma pa_ok_next pa : pa_ok pa -> pa + 4096 < 2 ^ 32 -> pa_ok (pa + 4096).
Proof.
  intros [Hr Ha] Hb. split; [lia|]. replace (pa + 4096) with (pa + 1 * 4096) by lia.
  rewrite Z.mod_add by lia. exact Ha.
Qed.

(** What [mappages] has done when it returns: [k] pages are mapped, all of the
    [n] asked for when it returns 0; it fails only for lack of free pages. *)
Definition map_result (pgdir a n pa perm : Z) (l : list Z) (s : kmem) (o : outcome (Z * kmem)) : Prop :=
  exists r k ts l' s', o = Ret (r, s') /\ l = ts ++ l' /\ space_step kend pgdir ts l' s s' /\
    (r = 0 /\ k = n \/ r = -1 /\ l' = [] /\ 0 <= k < n) /\
    forall va, 0 <= va < 2 ^ 32 -> pte_at (k_mem s') pgdir va = map_upd (k_mem s) pgdir a k pa perm va.

Lemma mappages_loop_ok pgdir perm n : forall fuel a pa l s,
  (n < fuel)%nat -> kmem_inv kend l s -> dir_ok kend (k_mem s) pgdir l -> 0 <= perm < 4096 ->
  pa_ok a -> pa_ok pa -> a + Z.of_nat n * 4096 < 2 ^ 32 -> pa + Z.of_nat n * 4096 < 2 ^ 32 ->
  (forall va, vpn a <= vpn va <= vpn a + Z.of_nat n -> has (pte_at (k_mem s) pgdir va) PTE_P = false) ->
  map_result pgdir a (Z.of_nat n + 1) pa perm l s
    (mappages_loop fuel pgdir a (a + Z.of_nat n * 4096) pa perm s).
Proof.
  induction n as [n IH] using (well_founded_induction lt_wf).
  intros fuel a pa l s Hf Hinv Hdir Hperm Haok Hpa Ha1 Hpa1 Habs.
  destruct fuel as [|fuel]; [lia|]. pose proof Haok as [Ha0 Ham].
  destruct (mappages_iter fuel pgdir a (a + Z.of_nat n * 4096) pa perm l s Hinv Hdir Ha0 Hpa Hperm)
    as (ts & l' & s1 & -> & Hs & [(-> & -> & Hpte)|[[Hp _]|(Hp & -> & Hpte)]]).
  - exists (-1), 0, ts, [], s1. split; [reflexivity|]. split; [reflexivity|].
    split; [exact Hs|]. split; [auto with lia|]. intros va Hva. rewrite map_upd_0. auto.
  - rewrite Habs in Hp by lia. discriminate.
  - destruct (Z.eqb_spec a (a + Z.of_nat n * 4096)) as [Hn|Hn].
    + exists 0, 1, ts, l', s1. split; [reflexivity|]. split; [reflexivity|].
      split; [exact Hs|]. split; [auto with lia|]. intros va Hva. rewrite Hpte by exact Hva. unfold map_upd.
      destruct (Z.eqb_spec (vpn va) (vpn a)) as [Heq|Hne]; case_if; try lia; try reflexivity.
      f_equal. lia.
    + unfold PGSIZE. rewrite !u32_small by (destruct Hpa; lia). destruct n as [|n]; [lia|].
      replace (a + Z.of_nat (S n) * 4096) with (a + 4096 + Z.of_nat n * 4096) by lia.
      destruct (IH n ltac:(lia) fuel (a + 4096) (pa + 4096) l' s1)
        as (r & k & ts' & l2 & s2 & H2 & -> & Hs2 & Hr & Hpte2);
        try (lia || apply Hs || (apply pa_ok_next; [assumption|lia])).
      * intros va Hva. rewrite vpn_next in Hva.
        pose proof (vpn_aligned a Ham).
        assert (0 <= va < 2 ^ 32) by (apply vpn_range; lia).
        rewrite Hpte by assumption. case_if; [lia|]. apply Habs. lia.
      * exists r, (k + 1), (ts ++ ts'), l2, s2. split; [exact H2|].
        split; [rewrite app_assoc; reflexivity|]. split; [eapply space_step_trans; eauto|].
        split; [destruct Hr as [[-> ->]|(-> & -> & Hk)]; [left|right]; auto with lia|].
        intros va Hva. rewrite Hpte2 by exact Hva. unfold map_upd.
        rewrite Hpte, vpn_next by exact Hva.
        repeat case_if; try lia; try reflexivity; f_equal; lia.
Qed.

(** The number of pages a mapping of [size] bytes at [va] covers. *)
Definition npages (va size : Z) : Z := vpn (va + size - 1) - vpn va + 1.

Lemma mappages_eq pgdir va size pa perm :
  0 <= va -> 0 < size -> va + size <= 2 ^ 32 ->
  mappages pgdir va size pa perm =
  mappages_loop (S (Z.to_nat (npages va size - 1))) pgdir (PGROUNDDOWN va)
    (PGROUNDDOWN va + Z.of_nat (Z.to_nat (npages va size - 1)) * 4096) pa perm.
Proof.
  intros H1 H2 H3. unfold mappages. rewrite (u32_small (va + size - 1)) by lia.
  rewrite !PGROUNDDOWN_arith by lia. fold (vpn va) (vpn (va + size - 1)).
  assert (vpn va <= vpn (va + size - 1)) by (apply Z.div_le_mono; lia).
  pose proof (proj1 (vpn_range va)). pose proof (proj1 (vpn_range (va + size - 1))).
  rewrite u32_small by lia.
  replace (vpn (va + size - 1) * 4096 - vpn va * 4096) with ((npages va size - 1) * 4096)
    by (unfold npages; lia).
  unfold PGSIZE. rewrite Z.div_mul by lia. f_equal. unfold npages in *. lia.
Qed.

Lemma mappages_ok pgdir va size pa perm l s :
  kmem_inv kend l s -> dir_ok kend (k_mem s) pgdir l ->
  0 <= va -> 0 < size -> va + size <= 2 ^ 32 ->
  pa_ok pa -> pa + (npages va size - 1) * 4096 < 2 ^ 32 -> 0 <= perm < 4096 ->
  (forall va', vpn va <= vpn va' < vpn va + npages va size ->
     has (pte_at (k_mem s) pgdir va') PTE_P = false) ->
  map_result pgdir (PGROUNDDOWN va) (npages va size) pa perm l s (mappages pgdir va size pa perm s).
Proof.
  intros Hinv Hdir H1 H2 H3 Hpa Hpb Hperm Habs. rewrite mappages_eq by assumption.
  assert (Hle : vpn va <= vpn (va + size - 1)) by (apply Z.div_le_mono; lia).
  pose proof (proj1 (vpn_range (va + size - 1))).
  assert (Hr : PGROUNDDOWN va = vpn va * 4096) by (rewrite PGROUNDDOWN_arith by lia; reflexivity).
  pose proof (PGROUNDDOWN_aligned va). pose proof (proj1 (vpn_range va)).
  set (n := Z.to_nat (npages va size - 1)).
  assert (Hn : npages va size = Z.of_nat n + 1) by (unfold n, npages; lia).
  rewrite Hn in *. apply mappages_loop_ok; auto with lia.
  - split; [unfold npages in Hn; lia|lia].
  - unfold npages in Hn. lia.
  - intros va' Hva'. apply Habs. rewrite Hr, vpn_mul in Hva'. lia.
Qed.

Lemma mappages_remap pgdir va size pa perm s l :
  dir_ok kend (k_mem s) pgdir l -> 0 <= va -> 0 < size -> va + size <= 2 ^ 32 ->
  has (pte_at (k_mem s) pgdir va) PTE_P = true ->
  mappages pgdir va size pa perm s = Panic "remap".
Proof.
  intros Hdir H1 H2 H3 Hp. rewrite mappages_eq by assumption. cbn [mappages_loop].
  assert (Heq : PDX (PGROUNDDOWN va) = PDX va /\ PTX (PGROUNDDOWN va) = PTX va).
  { apply vpn_eq; [pose proof (PGROUNDDOWN_bounds va); lia|lia|].
    rewrite PGROUNDDOWN_arith by lia. apply vpn_mul. }
  destruct Heq as [Hd Ht]. unfold pte_at in Hp.
  destruct (has (pde_at (k_mem s) pgdir (PDX va)) PTE_P) eqn:Ep; [|rewrite has_0 in Hp; discriminate].
  erewrite bind_step by (apply walk_present; rewrite Hd; exact Ep). rewrite Hd, Ht.
  pose proof (pte_addr_pos _ _ _ _ Hdir Ep). case_if; [lia|].
  rewrite (bind_step _ _ _ _ _ (ld_pte _ _ _ Ep)). unfold pte_at. rewrite Ep, Hp. reflexivity.
Qed.

(** ** User memory *)

(** A present user entry. *)
Definition present (m : mem) (pgdir va : Z) : Prop :=
  0 <= va < KERNBASE /\ has (pte_at m pgdir va) PTE_P = true.

(** The invariant of a process's address space: its directory is well formed,
    its user pages are allocated pages outside the tables, and no page is mapped
    twice below [KERNBASE]. *)
Record uvm_ok (m : mem) (pgdir : Z) (l : list Z) : Prop := mkuvm_ok {
  uvm_dir : dir_ok kend m pgdir l;
  uvm_frame : forall va, present m pgdir va ->
    page_ok kend (ptpage (pte_at m pgdir va)) /\ ptpage (pte_at m pgdir va) ∉ l /\
    ~ table_page m pgdir (ptpage (pte_at m pgdir va));
  uvm_inj : forall va va', present m pgdir va -> present m pgdir va' ->
    ptpage (pte_at m pgdir va) = ptpage (pte_at m pgdir va') -> vpn va = vpn va' }.

(** The entry of an address only depends on its page. *)
Lemma pte_at_vpn m pgdir va va' : 0 <= va < 2 ^ 32 -> 0 <= va' < 2 ^ 32 ->
  vpn va = vpn va' -> pte_at m pgdir va = pte_at m pgdir va'.
Proof. intros H H' Hv. apply vpn_eq in Hv as [Hd Ht]; auto. unfold pte_at. rewrite Hd, Ht. reflexivity. Qed.

Lemma present_range m pgdir va : present m pgdir va -> 0 <= va < 2 ^ 32.
Proof. unfold present, KERNBASE. lia. Qed.

(** The pages a range of page numbers maps. *)
Definition frames (m : mem) (pgdir lo hi q : Z) : Prop :=
  exists va, lo <= vpn va < hi /\ present m pgdir va /\ q = ptpage (pte_at m pgdir va).

(** The range [lo, hi) of page numbers has been unmapped and its pages freed,
    and nothing else changed. *)
Record dealloc (pgdir lo hi : Z) (l l' : list Z) (s s' : kmem) : Prop := mkdealloc {
  de_inv : kmem_inv kend l' s';
  de_uvm : uvm_ok (k_mem s') pgdir l';
  de_lock : use_lock s' = use_lock s;
  de_tables : forall q, table_page (k_mem s') pgdir q <-> table_page (k_mem s) pgdir q;
  de_pte : forall va, 0 <= va < 2 ^ 32 -> pte_at (k_mem s') pgdir va =
    if (lo <=? vpn va) && (vpn va <? hi) && has (pte_at (k_mem s) pgdir va) PTE_P
    then 0 else pte_at (k_mem s) pgdir va;
  de_free : forall q, q ∈ l' <-> q ∈ l \/ frames (k_mem s) pgdir lo hi q;
  de_frame : forall a, (forall q, table_page (k_mem s) pgdir q \/ frames (k_mem s) pgdir lo hi q ->
    ~ in_page a q) -> ldb (k_mem s') a = ldb (k_mem s) a }.

Lemma dealloc_refl pgdir lo hi l s :
  kmem_inv kend l s -> uvm_ok (k_mem s) pgdir l ->
  (forall va, lo <= vpn va < hi -> ~ present (k_mem s) pgdir va) -> hi * 4096 <= KERNBASE + 4095 -> 0 <= lo ->
  dealloc pgdir lo hi l l s s.
Proof.
  intros Hinv Hu Habs Hhi Hlo. split; auto; try reflexivity.
  - intros va Hva. destruct (_ && _ && _) eqn:E; [|reflexivity]. zbool. exfalso.
    apply (Habs va); [lia|]. split; [|assumption]. unfold vpn, KERNBASE in *.
    pose proof (Z.div_mod va 4096). pose proof (Z.mod_pos_bound va 4096). lia.
  - intros q. split; [auto|]. intros [?|(va & Hr & Hp & _)]; [assumption|].
    exfalso. apply (Habs va); auto.
Qed.

Lemma dealloc_present pgdir lo hi l l' s s' va : dealloc pgdir lo hi l l' s s' ->
  present (k_mem s') pgdir va <-> present (k_mem s) pgdir va /\ ~ (lo <= vpn va < hi).
Proof.
  intros Hd. unfold present. split.
  - intros [Hr Hp]. rewrite (de_pte _ _ _ _ _ _ _ Hd) in Hp by (unfold KERNBASE in Hr; lia).
    destruct (_ && _ && _) eqn:E in Hp; [rewrite has_0 in Hp; discriminate|]. rewrite Hp in E. zbool. lia.
  - intros [[Hr Hp] Hn]. split; [exact Hr|].
    rewrite (de_pte _ _ _ _ _ _ _ Hd) by (unfold KERNBASE in Hr; lia).
    destruct (_ && _ && _) eqn:E; [|exact Hp]. zbool. lia.
Qed.

Lemma dealloc_frames pgdir lo mid hi l l' s s' q : dealloc pgdir lo mid l l' s s' -> lo <= mid <= hi ->
  frames (k_mem s) pgdir lo hi q <->
  frames (k_mem s) pgdir lo mid q \/ frames (k_mem s') pgdir mid hi q.
Proof.
  intros Hd Hm. unfold frames.
  assert (Hsame : forall va, mid <= vpn va -> present (k_mem s) pgdir va ->
            pte_at (k_mem s') pgdir va = pte_at (k_mem s) pgdir va).
  { intros va Hv Hp. rewrite (de_pte _ _ _ _ _ _ _ Hd) by (eapply present_range, Hp).
    destruct (_ && _ && _) eqn:E; [|reflexivity]. zbool. lia. }
  split.
  - intros (va & Hr & Hp & ->). destruct (Z_lt_dec (vpn va) mid); [left; exists va; auto with lia|].
    right. exists va. split; [lia|]. split; [apply (dealloc_present _ _ _ _ _ _ _ _ Hd); auto with lia|].
    rewrite Hsame by (assumption || lia). reflexivity.
  - intros [(va & Hr & Hp & ->)|(va & Hr & Hp & ->)]; exists va; (split; [lia|]).
    + auto.
    + apply (dealloc_present _ _ _ _ _ _ _ _ Hd) in Hp as [Hp _]. rewrite Hsame by (assumption || lia). auto.
Qed.

Lemma dealloc_trans pgdir lo mid hi l l1 l2 s s1 s2 : lo <= mid <= hi ->
  dealloc pgdir lo mid l l1 s s1 -> dealloc pgdir mid hi l1 l2 s1 s2 ->
  dealloc pgdir lo hi l l2 s s2.
Proof.
  intros Hm H1 H2. pose proof (fun q => dealloc_frames _ _ _ hi _ _ _ _ q H1 Hm) as Hfr.
  destruct H1 as [Hi1 Hu1 Hl1 Ht1 Hp1 Hf1 Hm1], H2 as [Hi2 Hu2 Hl2 Ht2 Hp2 Hf2 Hm2]. split; auto.
  - congruence.
  - intros q. rewrite Ht2, Ht1. reflexivity.
  - intros va Hva. rewrite Hp2, Hp1 by exact Hva.
    destruct (has (pte_at (k_mem s) pgdir va) PTE_P) eqn:E, (lo <=? vpn va) eqn:E1,
      (vpn va <? mid) eqn:E2, (mid <=? vpn va) eqn:E3, (vpn va <? hi) eqn:E4;
      cbn; rewrite ?has_0, ?E; try reflexivity; lia.
  - intros q. rewrite Hf2, Hf1, Hfr. tauto.
  - intros a Ha. rewrite Hm2, Hm1; [reflexivity| |].
    + intros q [Hq|Hq]; apply Ha; [auto|]. right. apply Hfr. auto.
    + intros q [Hq|Hq]; apply Ha; [left; apply Ht1, Hq|]. right. apply Hfr. auto.
Qed.

Lemma dir_ok_cons m pgdir l f :
  dir_ok kend m pgdir l -> ~ table_page m pgdir f -> dir_ok kend m pgdir (f :: l).
Proof.
  intros [H1 H2 H3 H4] Hf. split; [exact H1| | |exact H4].
  - apply not_elem_of_cons. split; [intros ->; apply Hf; left; reflexivity|exact H2].
  - intros i Hi Hp. destruct (H3 i Hi Hp) as (? & ? & ?). split; [assumption|]. split; [|assumption].
    apply not_elem_of_cons. split; [|assumption]. intros Heq. apply Hf. right. eauto.
Qed.

(** The tables of a directory do not change when another page changes. *)
Lemma table_page_frame m m' pgdir q :
  (forall a, in_page a pgdir -> ldb m' a = ldb m a) ->
  table_page m' pgdir q <-> table_page m pgdir q.
Proof.
  intros Hf. unfold table_page.
  split; (intros [?|(i & Hi & H1 & H2)]; [auto|right; exists i]);
    rewrite (pde_at_frame _ _ _ _ Hi Hf) in *; auto.
Qed.

(** Freeing a page [f] that the directory [pgdir] does not consist of. *)
Lemma kfree_space pgdir f l s :
  kmem_inv kend l s -> dir_ok kend (k_mem s) pgdir l -> page_ok kend f -> f ∉ l ->
  ~ table_page (k_mem s) pgdir f ->
  exists s', kfree kend f s = Ret (tt, s') /\ kmem_inv kend (f :: l) s' /\
    dir_ok kend (k_mem s') pgdir (f :: l) /\ use_lock s' = use_lock s /\
    (forall i, 0 <= i < 1024 -> pde_at (k_mem s') pgdir i = pde_at (k_mem s) pgdir i) /\
    (forall q, table_page (k_mem s') pgdir q <-> table_page (k_mem s) pgdir q) /\
    (forall va, pte_at (k_mem s') pgdir va = pte_at (k_mem s) pgdir va) /\
    (forall a, ~ in_page a f -> ldb (k_mem s') a = ldb (k_mem s) a).
Proof.
  intros Hinv Hdir Hf Hfl Hft.
  destruct (kfree_cons kend f l s Hinv Hf Hfl) as (s' & Hk & Hinv' & Hu & Hm).
  assert (Hm' : forall a, ~ in_page a f -> ldb (k_mem s') a = ldb (k_mem s) a)
    by (intros a Ha; apply Hm; unfold in_page in Ha; lia).
  assert (Ht : forall q a, table_page (k_mem s) pgdir q -> in_page a q ->
            ldb (k_mem s') a = ldb (k_mem s) a).
  { intros q a Hq Ha. apply Hm'. intros Ha'.
    destruct (table_page_ok _ _ _ _ _ Hdir Hq) as [Hqo _].
    apply (pages_apart kend q f a Hqo Hf); auto. congruence. }
  assert (Hd : forall a, in_page a pgdir -> ldb (k_mem s') a = ldb (k_mem s) a)
    by (intros a; apply Ht; left; reflexivity).
  exists s'. split; [exact Hk|]. split; [exact Hinv'|].
  split; [apply (dir_ok_frame kend (k_mem s)); [exact Hd|apply dir_ok_cons; assumption]|].
  split; [exact Hu|]. split; [intros i Hi; apply pde_at_frame; assumption|].
  split; [intros q; apply table_page_frame, Hd|].
  split; [intros va; apply pte_at_frame, Ht|exact Hm'].
Qed.

(** [kfree(P2V(pa)); *pte = 0;] on a present user entry. *)
Lemma dealloc_one pgdir a l s :
  kmem_inv kend l s -> uvm_ok (k_mem s) pgdir l -> present (k_mem s) pgdir a ->
  exists s1, kfree kend (ptpage (pte_at (k_mem s) pgdir a)) s = Ret (tt, s1) /\
    pde_at (k_mem s1) pgdir (PDX a) = pde_at (k_mem s) pgdir (PDX a) /\
    dealloc pgdir (vpn a) (vpn a + 1) l (ptpage (pte_at (k_mem s) pgdir a) :: l) s
      (set_mem (set_pte (k_mem s1) pgdir a 0) s1).
Proof.
  intros Hinv [Hdir Hfr Hij] Ha. pose proof (Hfr _ Ha) as (Hf & Hfl & Hft).
  pose proof (present_range _ _ _ Ha) as Har.
  destruct (kfree_space pgdir _ l s Hinv Hdir Hf Hfl Hft)
    as (s1 & Hk & Hinv1 & Hdir1 & Hu & Hpde & Ht & Hpte & Hm).
  exists s1. split; [exact Hk|]. split; [apply Hpde, PDX_range|].
  assert (Hp : has (pde_at (k_mem s1) pgdir (PDX a)) PTE_P = true).
  { rewrite Hpde by apply PDX_range. destruct Ha as [_ Ha]. unfold pte_at in Ha.
    destruct (has (pde_at (k_mem s) pgdir (PDX a)) PTE_P); [reflexivity|].
    rewrite has_0 in Ha. discriminate. }
  set (f := ptpage (pte_at (k_mem s) pgdir a)) in *.
  destruct (set_pte_step pgdir a 0 _ s1 Har Hinv1 Hdir1 Hp) as [Hi2 Hd2 Hu2 Ht2 Hm2].
  assert (Hat : forall va, 0 <= va < 2 ^ 32 -> pte_at (set_pte (k_mem s1) pgdir a 0) pgdir va =
            if vpn va =? vpn a then 0 else pte_at (k_mem s) pgdir va).
  { intros va Hva. rewrite (set_pte_at _ _ _ _ _ Hdir1 Hp) by (lia || assumption).
    rewrite Hpte. reflexivity. }
  assert (Htt : forall q, table_page (set_pte (k_mem s1) pgdir a 0) pgdir q <->
            table_page (k_mem s) pgdir q).
  { intros q. cbn [k_mem set_mem] in Ht2. rewrite Ht2, Ht, elem_of_nil. tauto. }
  assert (Hpr : forall va, present (set_pte (k_mem s1) pgdir a 0) pgdir va ->
            present (k_mem s) pgdir va /\ vpn va <> vpn a /\
            pte_at (set_pte (k_mem s1) pgdir a 0) pgdir va = pte_at (k_mem s) pgdir va).
  { intros va [Hr Hv]. rewrite Hat in * by (unfold KERNBASE in Hr; lia). unfold present.
    destruct (Z.eqb_spec (vpn va) (vpn a)); [rewrite has_0 in Hv; discriminate|auto]. }
  split; cbn [k_mem set_mem use_lock]; auto.
  - split; [exact Hd2| |].
    + intros va (Hv & Hne & ->)%Hpr. destruct (Hfr _ Hv) as (? & ? & ?). rewrite Htt.
      split; [assumption|]. split; [|assumption]. apply not_elem_of_cons.
      split; [|assumption]. intros Heq. apply Hne, Hij; assumption.
    + intros va va' (Hv & _ & ->)%Hpr (Hv' & _ & ->)%Hpr. apply Hij; assumption.
  - intros va Hva. rewrite Hat by exact Hva.
    destruct (Z.eqb_spec (vpn va) (vpn a)) as [Heq|Hne].
    + rewrite (pte_at_vpn _ _ va a Hva Har Heq), (proj2 Ha). destruct (_ && _ && _) eqn:E; [reflexivity|].
      rewrite andb_true_r in E. zbool. lia.
    + destruct (_ && _ && _) eqn:E; [|reflexivity]. zbool. lia.
  - intros q. rewrite elem_of_cons. unfold frames. split.
    + intros [->|?]; [|auto]. right. exists a. auto with lia.
    + intros [?|(va & Hr & Hv & ->)]; [auto|]. left. unfold f. f_equal.
      apply pte_at_vpn; [eapply present_range, Hv|exact Har|lia].
  - intros b Hb. rewrite set_pte_out, Hm; [reflexivity| |].
    + apply Hb. right. exists a. auto with lia.
    + rewrite Hpde by apply PDX_range. rewrite Hpde in Hp by apply PDX_range.
      apply Hb. left. right. exists (PDX a). auto using PDX_range.
Qed.

(** The frame address of a present user entry is never 0: physical page 0 lies
    below the end of the kernel image. *)
Lemma frame_addr_pos v : KERNBASE < kend -> page_ok kend (ptpage v) -> 0 <= v < 2 ^ 32 -> PTE_ADDR v <> 0.
Proof. intros Hk (_ & He & _) Hv H0. unfold ptpage in He. rewrite H0 in He. change (P2V 0) with KERNBASE in He. lia. Qed.

Lemma pte_at_range m pgdir va : 0 <= pte_at m pgdir va < 2 ^ 32.
Proof. unfold pte_at. destruct (has _ _); [apply ld32_range|lia]. Qed.

Lemma deallocuvm_iter f pgdir a oldsz l s :
  KERNBASE < kend -> kmem_inv kend l s -> uvm_ok (k_mem s) pgdir l ->
  0 <= a < oldsz -> oldsz <= KERNBASE ->
  exists l' s', dealloc pgdir (vpn a) (vpn a + 1) l l' s s' /\
    deallocuvm_loop kend (S f) pgdir a oldsz s =
    deallocuvm_loop kend f pgdir (u32 (a + PGSIZE)) oldsz s'.
Proof.
  intros Hk Hinv Hu Ha Ho. cbn [deallocuvm_loop]. case_if; [lia|].
  assert (Har : 0 <= a < 2 ^ 32) by (unfold KERNBASE in Ho; lia).
  assert (Hskip : has (pte_at (k_mem s) pgdir a) PTE_P = false ->
            dealloc pgdir (vpn a) (vpn a + 1) l l s s).
  { intros Hn. apply dealloc_refl; auto.
    - intros va Hv [Hr Hp].
      rewrite (pte_at_vpn _ _ va a) in Hp by (unfold KERNBASE in Hr; lia). congruence.
    - unfold vpn, KERNBASE in *. pose proof (Z.div_mod a 4096). pose proof (Z.mod_pos_bound a 4096). lia.
    - pose proof (proj1 (vpn_range a)). lia. }
  rewrite (bind_step _ _ _ _ _ (walk_ro _ _ _)). cbv zeta.
  destruct (has (pde_at (k_mem s) pgdir (PDX a)) PTE_P) eqn:Ep.
  - pose proof (pte_addr_pos _ _ _ _ (uvm_dir _ _ _ Hu) Ep). case_if; [lia|].
    rewrite (bind_step _ _ _ _ _ (ld_pte _ _ _ Ep)).
    destruct (has (pte_at (k_mem s) pgdir a) PTE_P) eqn:Ea.
    + assert (Hpr : present (k_mem s) pgdir a) by (split; [lia|exact Ea]).
      destruct (dealloc_one pgdir a l s Hinv Hu Hpr) as (s1 & Hkf & Hpde & Hd).
      eexists _, _. split; [exact Hd|].
      pose proof (frame_addr_pos (pte_at (k_mem s) pgdir a) Hk) as Hnz.
      destruct (Z.eqb_spec (PTE_ADDR (pte_at (k_mem s) pgdir a)) 0) as [Ez|_].
      { exfalso. apply Hnz; [apply (uvm_frame _ _ _ Hu _ Hpr)|apply pte_at_range|exact Ez]. }
      erewrite bind_step; [reflexivity|]. rewrite (bind_step _ _ _ _ _ Hkf).
      unfold st, modify, set_pte. rewrite Hpde. reflexivity.
    + exists l, s. split; [apply Hskip; reflexivity|reflexivity].
  - exists l, s. split; [|reflexivity]. apply Hskip. unfold pte_at. rewrite Ep. apply has_0.
Qed.

Lemma deallocuvm_loop_ok pgdir oldsz n : forall fuel a l s,
  KERNBASE < kend -> (n < fuel)%nat -> kmem_inv kend l s -> uvm_ok (k_mem s) pgdir l ->
  0 <= a -> a mod 4096 = 0 -> oldsz <= KERNBASE ->
  a + Z.of_nat n * 4096 - 4096 < oldsz <= a + Z.of_nat n * 4096 ->
  exists l' s', deallocuvm_loop kend fuel pgdir a oldsz s = Ret (tt, s') /\
    dealloc pgdir (vpn a) (vpn a + Z.of_nat n) l l' s s'.
Proof.
  induction n as [|n IH]; intros fuel a l s Hk Hf Hinv Hu Ha Ham Ho Hn;
    (destruct fuel as [|fuel]; [lia|]).
  - cbn [deallocuvm_loop]. case_if; [|lia]. exists l, s. split; [reflexivity|].
    pose proof (vpn_aligned a Ham). apply dealloc_refl; auto; unfold vpn in *; lia.
  - destruct (deallocuvm_iter fuel pgdir a oldsz l s Hk Hinv Hu) as (l1 & s1 & Hd1 & ->); [lia|exact Ho|].
    unfold PGSIZE. rewrite u32_small by (unfold KERNBASE in Ho; lia).
    destruct (IH fuel (a + 4096) l1 s1) as (l2 & s2 & H2 & Hd2); auto; try lia;
      try solve [apply Hd1].
    + replace (a + 4096) with (a + 1 * 4096) by lia. rewrite Z.mod_add by lia. exact Ham.
    + exists l2, s2. split; [exact H2|]. rewrite vpn_next in Hd2.
      apply (dealloc_trans _ _ (vpn a + 1) _ _ l1 _ _ s1); [lia|exact Hd1|].
      replace (vpn a + Z.of_nat (S n)) with (vpn a + 1 + Z.of_nat n) by lia. exact Hd2.
Qed.

Lemma deallocuvm_ok pgdir oldsz newsz l s :
  KERNBASE < kend -> kmem_inv kend l s -> uvm_ok (k_mem s) pgdir l ->
  0 <= newsz < oldsz -> oldsz <= KERNBASE ->
  exists l' s', deallocuvm kend pgdir oldsz newsz s = Ret (newsz, s') /\
    dealloc pgdir (vpn newsz) (vpn (oldsz + 4095)) l l' s s'.
Proof.
  intros Hk Hinv Hu Hn Ho. unfold deallocuvm. case_if; [lia|].
  assert (Hr : PGROUNDDOWN newsz = vpn newsz * 4096)
    by (rewrite PGROUNDDOWN_arith by (unfold KERNBASE in Ho; lia); reflexivity).
  rewrite Hr. set (n := Z.to_nat (vpn (oldsz + 4095) - vpn newsz)).
  assert (Hb : vpn newsz <= vpn (oldsz + 4095)) by (apply Z.div_le_mono; lia).
  replace ((oldsz - vpn newsz * 4096 + PGSIZE - 1) / PGSIZE) with (Z.of_nat n).
  2: { unfold n, vpn, PGSIZE in *.
       replace (oldsz - newsz / 4096 * 4096 + 4096 - 1) with (oldsz + 4095 + (- (newsz / 4096)) * 4096) by lia.
       rewrite Z.div_add by lia. lia. }
  rewrite Nat2Z.id.
  destruct (deallocuvm_loop_ok pgdir oldsz n (S n) (vpn newsz * 4096) l s) as (l' & s' & H1 & Hd);
    auto with lia.
  - unfold vpn. pose proof (Z.div_pos newsz 4096). lia.
  - apply Z.mod_mul. lia.
  - unfold n, vpn in *. pose proof (Z.div_mod (oldsz + 4095) 4096).
    pose proof (Z.mod_pos_bound (oldsz + 4095) 4096). lia.
  - exists l', s'. rewrite (bind_step _ _ _ _ _ H1). split; [reflexivity|].
    rewrite vpn_mul in Hd.
    replace (vpn newsz + Z.of_nat n) with (vpn (oldsz + 4095)) in Hd by (unfold n; lia). exact Hd.
Qed.

(** ** [freevm] *)

(** The page tables of the directory entries [lo, hi). *)
Definition ptables (m : mem) (pgdir lo hi q : Z) : Prop :=
  exists i, lo <= i < hi /\ has (pde_at m pgdir i) PTE_P = true /\ q = ptpage (pde_at m pgdir i).

Lemma ptables_step m pgdir lo hi q : lo < hi ->
  ptables m pgdir lo hi q <->
  (has (pde_at m pgdir lo) PTE_P = true /\ q = ptpage (pde_at m pgdir lo)) \/ ptables m pgdir (lo + 1) hi q.
Proof.
  intros Hlt. unfold ptables. split.
  - intros (i & Hi & Hp & ->). destruct (Z.eq_dec i lo) as [->|]; [auto|]. right. exists i. auto with lia.
  - intros [[Hp ->]|(i & Hi & Hp & ->)]; [exists lo|exists i]; auto with lia.
Qed.

Lemma ptables_frame m m' pgdir lo hi q : 0 <= lo -> hi <= 1024 ->
  (forall a, in_page a pgdir -> ldb m' a = ldb m a) ->
  ptables m' pgdir lo hi q <-> ptables m pgdir lo hi q.
Proof.
  intros Hl Hh Hf. unfold ptables.
  split; intros (i & Hi & H1 & H2); exists i; rewrite (pde_at_frame m m') in * by (lia || assumption); auto.
Qed.

(** Each entry's page is still to be freed. *)
Definition tables_left (m : mem) (pgdir lo : Z) (l : list Z) : Prop :=
  (forall q, ptables m pgdir lo 1024 q -> page_ok kend q /\ q ∉ l /\ q <> pgdir) /\
  (forall i j, lo <= i < 1024 -> lo <= j < 1024 ->
    has (pde_at m pgdir i) PTE_P = true -> has (pde_at m pgdir j) PTE_P = true ->
    ptpage (pde_at m pgdir i) = ptpage (pde_at m pgdir j) -> i = j).

Lemma tables_left_next m m' pgdir lo l l' :
  0 <= lo < 1024 -> (forall a, in_page a pgdir -> ldb m' a = ldb m a) ->
  (forall q, q ∈ l' <-> q ∈ l \/ has (pde_at m pgdir lo) PTE_P = true /\ q = ptpage (pde_at m pgdir lo)) ->
  tables_left m pgdir lo l -> tables_left m' pgdir (lo + 1) l'.
Proof.
  intros Hlo Hf Hl' [H1 H2]. split.
  - intros q Hq. apply (ptables_frame m m') in Hq; [|lia|lia|exact Hf].
    destruct (H1 q) as (? & ? & ?); [apply ptables_step; [lia|]; auto|].
    split; [assumption|]. split; [|assumption]. rewrite Hl'. intros [?|[Hp ->]]; [auto|].
    destruct Hq as (i & Hi & Hpi & Heq). enough (lo = i) by lia. apply H2; auto with lia.
  - intros i j Hi Hj. rewrite !(pde_at_frame m m') by (lia || assumption). apply H2; lia.
Qed.

(** What [freevm_loop] leaves: the tables from [i] on are free. *)
Definition tables_freed (pgdir i : Z) (l l' : list Z) (s s' : kmem) : Prop :=
  kmem_inv kend l' s' /\ use_lock s' = use_lock s /\
  (forall q, q ∈ l' <-> q ∈ l \/ ptables (k_mem s) pgdir i 1024 q) /\
  forall a, (forall q, ptables (k_mem s) pgdir i 1024 q -> ~ in_page a q) ->
    ldb (k_mem s') a = ldb (k_mem s) a.

Lemma freevm_entry pgdir i l s :
  kmem_inv kend l s -> 0 <= i < 1024 -> tables_left (k_mem s) pgdir i l ->
  exists l1 s1,
    (if has (pde_at (k_mem s) pgdir i) PTE_P
     then kfree kend (P2V (PTE_ADDR (pde_at (k_mem s) pgdir i))) else ret tt) s = Ret (tt, s1) /\
    kmem_inv kend l1 s1 /\ use_lock s1 = use_lock s /\
    (forall q, q ∈ l1 <-> q ∈ l \/
       has (pde_at (k_mem s) pgdir i) PTE_P = true /\ q = ptpage (pde_at (k_mem s) pgdir i)) /\
    forall a, (forall q, ptables (k_mem s) pgdir i 1024 q -> ~ in_page a q) ->
      ldb (k_mem s1) a = ldb (k_mem s) a.
Proof.
  intros Hinv Hi Hleft. destruct (has (pde_at (k_mem s) pgdir i) PTE_P) eqn:Ep.
  - assert (Ht : ptables (k_mem s) pgdir i 1024 (ptpage (pde_at (k_mem s) pgdir i)))
      by (exists i; auto with lia).
    destruct (proj1 Hleft _ Ht) as (Hok & Hnl & _).
    destruct (kfree_cons kend _ l s Hinv Hok Hnl) as (s1 & Hk & Hi1 & Hu1 & Hm1).
    exists (ptpage (pde_at (k_mem s) pgdir i) :: l), s1. split; [exact Hk|]. split; [exact Hi1|].
    split; [exact Hu1|]. split; [intros q; rewrite elem_of_cons; tauto|].
    intros a Ha. apply Hm1. specialize (Ha _ Ht). unfold in_page in Ha. lia.
  - exists l, s. split; [reflexivity|]. split; [exact Hinv|]. split; [reflexivity|].
    split; [intros q; split; [auto|intros [?|[? _]]; [assumption|discriminate]]|auto].
Qed.

Lemma freevm_loop_ok pgdir n : forall i l s,
  kmem_inv kend l s -> page_ok kend pgdir -> 0 <= i -> i + Z.of_nat n = 1024 ->
  tables_left (k_mem s) pgdir i l ->
  exists l' s', freevm_loop kend n pgdir i s = Ret (tt, s') /\ tables_freed pgdir i l l' s s'.
Proof.
  induction n as [|n IH]; intros i l s Hinv Hpg Hi Hn Hleft; cbn [freevm_loop].
  - exists l, s. split; [reflexivity|]. split; [exact Hinv|]. split; [reflexivity|].
    split; [|auto]. intros q. split; [auto|]. intros [?|(j & Hj & _)]; [assumption|lia].
  - destruct (freevm_entry pgdir i l s) as (l1 & s1 & H1 & Hinv1 & Hu1 & Hl1 & Hm1);
      [assumption|lia|assumption|].
    assert (Hdm : forall a, in_page a pgdir -> ldb (k_mem s1) a = ldb (k_mem s) a).
    { intros a Ha. apply Hm1. intros q Hq Haq. destruct (proj1 Hleft _ Hq) as (Hok & _ & Hne).
      apply (pages_apart kend q pgdir a); auto. }
    destruct (IH (i + 1) l1 s1) as (l2 & s2 & H2 & Hinv2 & Hu2 & Hl2 & Hm2); auto with lia.
    { eapply tables_left_next; eauto with lia. }
    exists l2, s2. unfold bind at 1, ld, gets. fold (pde_at (k_mem s) pgdir i).
    rewrite (bind_step _ _ _ _ _ H1). split; [exact H2|]. split; [exact Hinv2|].
    split; [congruence|]. split.
    + intros q. rewrite Hl2, Hl1, (ptables_step (k_mem s) pgdir i), (ptables_frame (k_mem s) (k_mem s1)) by (lia || assumption).
      tauto.
    + intros a Ha. rewrite Hm2, Hm1; [reflexivity|exact Ha|]. intros q Hq. apply Ha.
      apply ptables_step; [lia|]. right. apply (ptables_frame (k_mem s) (k_mem s1)); auto with lia.
Qed.

Lemma table_page_ptables m pgdir q : table_page m pgdir q <-> q = pgdir \/ ptables m pgdir 0 1024 q.
Proof. reflexivity. Qed.

Lemma frames_all m pgdir q :
  frames m pgdir (vpn 0) (vpn (KERNBASE + 4095)) q <->
  exists va, present m pgdir va /\ q = ptpage (pte_at m pgdir va).
Proof.
  unfold frames. split; [intros (va & _ & ?); eauto|].
  intros (va & Hp & ->). exists va. split; [|auto]. destruct Hp as [Hr _].
  change (vpn 0) with 0. change (vpn (KERNBASE + 4095)) with 524288. unfold vpn, KERNBASE in *.
  pose proof (Z.div_mod va 4096). pose proof (Z.mod_pos_bound va 4096). lia.
Qed.

(** All pages of an address space: its tables and its user pages. *)
Definition space_page (m : mem) (pgdir q : Z) : Prop :=
  table_page m pgdir q \/ exists va, present m pgdir va /\ q = ptpage (pte_at m pgdir va).

Lemma freevm_ok pgdir l s :
  KERNBASE < kend -> kmem_inv kend l s -> uvm_ok (k_mem s) pgdir l ->
  exists l' s', freevm kend pgdir s = Ret (tt, s') /\ kmem_inv kend l' s' /\
    use_lock s' = use_lock s /\
    (forall q, q ∈ l' <-> q ∈ l \/ space_page (k_mem s) pgdir q) /\
    forall a, (forall q, space_page (k_mem s) pgdir q -> ~ in_page a q) ->
      ldb (k_mem s') a = ldb (k_mem s) a.
Proof.
  intros Hk Hinv Hu. pose proof (dir_page _ _ _ _ (uvm_dir _ _ _ Hu)) as Hpg.
  unfold freevm. pose proof (page_ok_pos _ _ Hpg). case_if; [lia|].
  destruct (deallocuvm_ok pgdir KERNBASE 0 l s Hk Hinv Hu) as (l1 & s1 & H1 & Hd);
    [unfold KERNBASE; lia|lia|]. rewrite (bind_step _ _ _ _ _ H1).
  destruct Hd as [Hi1 Hu1 Hl1 Ht1 Hp1 Hf1 Hm1]. pose proof (uvm_dir _ _ _ Hu1) as Hd1.
  destruct (freevm_loop_ok pgdir (Z.to_nat NPDENTRIES) 0 l1 s1) as (l2 & s2 & H2 & Hi2 & Hl2 & Hf2 & Hm2);
    auto with lia; [split; intros; [|eapply dir_inj; eauto]|].
  { destruct H0 as (i & Hi & Hp & ->). apply (dir_pt _ _ _ _ Hd1); assumption. }
  rewrite (bind_step _ _ _ _ _ H2).
  assert (Hn2 : pgdir ∉ l2).
  { rewrite Hf2. intros [Hin|(i & Hi & Hp & Heq)]; [apply (dir_free _ _ _ _ Hd1), Hin|].
    destruct (dir_pt _ _ _ _ Hd1 _ Hi Hp) as (_ & _ & Hne). congruence. }
  destruct (kfree_cons kend pgdir l2 s2 Hi2 Hpg Hn2) as (s3 & H3 & Hi3 & Hl3 & Hm3).
  exists (pgdir :: l2), s3. split; [exact H3|]. split; [exact Hi3|]. split; [congruence|]. split.
  - intros q. rewrite elem_of_cons, Hf2, Hf1, frames_all. unfold space_page.
    rewrite <- Ht1, table_page_ptables. tauto.
  - intros a Ha. assert (Hat : forall q, table_page (k_mem s) pgdir q -> ~ in_page a q)
      by (intros q Hq; apply Ha; left; exact Hq).
    rewrite Hm3, Hm2, Hm1; [reflexivity| | |].
    + intros q [Hq|Hq%frames_all]; apply Ha; [left|right]; assumption.
    + intros q Hq. apply Hat, Ht1. right. exact Hq.
    + specialize (Hat pgdir (or_introl eq_refl)). unfold in_page in Hat. lia.
Qed.

End Uvm.
