(* ===== verification/Ualloc.v ===== *)
(** * Allocating and copying user memory

    Theorems about [allocuvm], [copyuvm] and the allocation step they share
    with the page-fault handler ([src/xv6/vm.c], as modelled in [Vm]): a free
    page is taken, filled and mapped into a directory. *)

From S2P Require Import Prelude Mem Mmu Spinlock Kalloc Vm Uvm.
Local Open Scope Z_scope.

Section Ualloc.
Context (kend kdata : Z) (gpu0 : gpu).

(** ** Mapping a fresh page *)

Lemma uvm_ok_sub m pgdir l l' : (forall p, p ∈ l' -> p ∈ l) ->
  uvm_ok kend m pgdir l -> uvm_ok kend m pgdir l'.
Proof.
  intros Hs [H1 H2 H3]. split; [eapply dir_ok_sub; eauto| |exact H3].
  intros va Hp. destruct (H2 va Hp) as (? & Hn & ?). split; [assumption|].
  split; [intros Hin; apply Hn, Hs, Hin|assumption].
Qed.

(** The directory's entries, tables and user pages do not depend on other
    pages. *)
Lemma uvm_ok_frame m m' pgdir l :
  (forall q a, table_page m pgdir q -> in_page a q -> ldb m' a = ldb m a) ->
  uvm_ok kend m pgdir l -> uvm_ok kend m' pgdir l.
Proof.
  intros Hf [H1 H2 H3].
  assert (Hd : forall a, in_page a pgdir -> ldb m' a = ldb m a) by (intros a; apply Hf; left; reflexivity).
  assert (Hp : forall va, pte_at m' pgdir va = pte_at m pgdir va) by (intros va; apply pte_at_frame, Hf).
  split; unfold present in *.
  - eapply dir_ok_frame; eauto.
  - intros va. rewrite Hp, (table_page_frame _ _ _ _ Hd). apply H2.
  - intros va va'. rewrite !Hp. apply H3.
Qed.

(** A page taken from the free list is not part of the address space. *)
Lemma uvm_ok_fresh m pgdir p l : uvm_ok kend m pgdir (p :: l) -> ~ space_page m pgdir p.
Proof.
  intros [Hd Hf _] [Ht|(va & Hp & Heq)].
  - destruct (table_page_ok _ _ _ _ _ Hd Ht) as [_ Hn]. apply not_elem_of_cons in Hn. tauto.
  - destruct (Hf va Hp) as (_ & Hn & _). apply not_elem_of_cons in Hn as [Hne _]. congruence.
Qed.

Lemma V2P_pa_ok p : page_ok kend p -> pa_ok (V2P p).
Proof. intros Hp. destruct (V2P_page _ _ Hp) as (Hr & Ha & _). unfold PHYSTOP in Hr. split; [lia|exact Ha]. Qed.

Lemma ptpage_mk p perm : page_ok kend p -> 0 <= perm < 4096 -> ptpage (mk_pte (V2P p) perm) = p.
Proof.
  intros Hp Hperm. unfold ptpage. rewrite mk_pte_addr by (auto using V2P_pa_ok).
  apply P2V_V2P. destruct Hp as (_ & _ & Hb). unfold KERNBASE, PHYSTOP in *. lia.
Qed.

(** A step that takes the pages [ts] for tables and at most maps [p] at [a]
    keeps the address space well formed. *)
Lemma uvm_ok_step pgdir a p perm ts l s s' :
  uvm_ok kend (k_mem s) pgdir (ts ++ l) -> NoDup (ts ++ l) -> space_step kend pgdir ts l s s' ->
  page_ok kend p -> p ∉ ts ++ l -> ~ space_page (k_mem s) pgdir p -> 0 <= perm < 4096 ->
  (forall va, 0 <= va < 2 ^ 32 -> pte_at (k_mem s') pgdir va = pte_at (k_mem s) pgdir va \/
     vpn va = vpn a /\ pte_at (k_mem s') pgdir va = mk_pte (V2P p) perm) ->
  uvm_ok kend (k_mem s') pgdir l.
Proof.
  intros [Hd Hf Hij] Hnd [_ Hd' _ Ht _] Hp Hpl Hps Hperm Hpte. rewrite elem_of_app in Hpl.
  assert (Hold : forall va, present (k_mem s') pgdir va ->
            present (k_mem s) pgdir va /\ pte_at (k_mem s') pgdir va = pte_at (k_mem s) pgdir va \/
            vpn va = vpn a /\ ptpage (pte_at (k_mem s') pgdir va) = p).
  { intros va Hv. pose proof (present_range _ _ _ Hv) as Hr. destruct Hv as [Hr' Hv].
    destruct (Hpte va Hr) as [Heq|[Ha Heq]]; rewrite Heq in *; [left|right].
    - unfold present. auto.
    - auto using ptpage_mk. }
  split; [exact Hd'| |].
  - intros va Hv. rewrite Ht. destruct (Hold va Hv) as [[Hv' ->]|[_ ->]].
    + destruct (Hf va Hv') as (? & Hn & ?). rewrite elem_of_app in Hn. tauto.
    + split; [exact Hp|]. split; [tauto|]. intros [?|?]; [|tauto]. apply Hps. left. assumption.
  - assert (Hnew : forall va, present (k_mem s) pgdir va -> ptpage (pte_at (k_mem s) pgdir va) <> p)
      by (intros va Hv Heq; apply Hps; right; eauto).
    intros va va' Hv Hv'. destruct (Hold va Hv) as [[H1 ->]|[H1 ->]], (Hold va' Hv') as [[H2 ->]|[H2 ->]].
    + apply Hij; assumption.
    + intros Heq. destruct (Hnew va H1 Heq).
    + intros Heq. destruct (Hnew va' H2). auto.
    + congruence.
Qed.

Lemma vpn_absent m pgdir a : 0 <= a < KERNBASE -> ~ present m pgdir a ->
  forall va, vpn va = vpn a -> has (pte_at m pgdir va) PTE_P = false.
Proof.
  intros Ha Hn va Hv. assert (0 <= a < 2 ^ 32) by (unfold KERNBASE in Ha; lia).
  assert (0 <= va < 2 ^ 32) by (apply vpn_range; rewrite Hv; apply vpn_range; assumption).
  rewrite (pte_at_vpn _ _ va a) by assumption. destruct (has _ _) eqn:E; [|reflexivity].
  exfalso. apply Hn. split; assumption.
Qed.

Lemma npages_one a : a mod 4096 = 0 -> npages a PGSIZE = 1.
Proof.
  intros Ha. unfold npages, PGSIZE, vpn. pose proof (Z.div_mod a 4096).
  replace (a + 4096 - 1) with (4095 + (a / 4096) * 4096) by lia. rewrite Z.div_add by lia.
  change (4095 / 4096) with 0. lia.
Qed.

(** [mappages(pgdir, a, PGSIZE, V2P(p), perm)] for a page [p] of the caller. *)
Lemma map_user pgdir a p perm l s :
  kmem_inv kend l s -> uvm_ok kend (k_mem s) pgdir l -> page_ok kend p -> p ∉ l ->
  ~ space_page (k_mem s) pgdir p -> 0 <= perm < 4096 ->
  0 <= a < KERNBASE -> a mod 4096 = 0 -> ~ present (k_mem s) pgdir a ->
  exists r ts l' s', mappages pgdir a PGSIZE (V2P p) perm s = Ret (r, s') /\ l = ts ++ l' /\
    space_step kend pgdir ts l' s s' /\ uvm_ok kend (k_mem s') pgdir l' /\
    (r = 0 /\ (forall va, 0 <= va < 2 ^ 32 -> pte_at (k_mem s') pgdir va =
         if vpn va =? vpn a then mk_pte (V2P p) perm else pte_at (k_mem s) pgdir va) \/
     r = -1 /\ l' = [] /\ forall va, 0 <= va < 2 ^ 32 ->
         pte_at (k_mem s') pgdir va = pte_at (k_mem s) pgdir va).
Proof.
  intros Hinv Hu Hp Hpl Hps Hperm Ha Ham Hna.
  pose proof (npages_one a Ham) as Hn1. pose proof (V2P_pa_ok p Hp) as Hpa.
  destruct (mappages_ok kend pgdir a PGSIZE (V2P p) perm l s) as (r & k & ts & l' & s' & H & -> & Hs & Hr & Hpte);
    auto; try (unfold KERNBASE, PGSIZE in *; lia); try apply Hu.
  { rewrite Hn1. destruct Hpa. lia. }
  { intros va Hv. apply (vpn_absent _ _ a); [assumption|assumption|lia]. }
  rewrite Hn1 in Hr. unfold map_upd in Hpte.
  rewrite PGROUNDDOWN_id in Hpte by (unfold KERNBASE in Ha; lia || assumption).
  assert (Hpte' : forall va, 0 <= va < 2 ^ 32 -> pte_at (k_mem s') pgdir va =
            if (vpn va =? vpn a) && (k =? 1) then mk_pte (V2P p) perm else pte_at (k_mem s) pgdir va).
  { intros va Hva. rewrite Hpte by exact Hva. assert (k = 0 \/ k = 1) as [->| ->] by lia;
      destruct (Z.eqb_spec (vpn va) (vpn a)) as [Heq|]; cbn [andb Z.eqb];
      try (case_if; [lia|reflexivity]).
    case_if; [|lia]. rewrite Heq. f_equal. lia. }
  exists r, ts, l', s'. split; [exact H|]. split; [reflexivity|]. split; [exact Hs|]. split.
  - eapply (uvm_ok_step pgdir a p perm); eauto; [apply Hinv|].
    intros va Hva. rewrite Hpte' by exact Hva. case_if; [right; auto|left; reflexivity].
  - destruct Hr as [[-> ->]|(-> & -> & Hk)]; [left|right; split; [reflexivity|]];
      (split; [reflexivity|]); intros va Hva; rewrite Hpte' by exact Hva.
    + rewrite andb_true_r. reflexivity.
    + replace k with 0 by lia. rewrite andb_false_r. reflexivity.
Qed.

(** Writing a page of the caller. *)
Lemma fill_page pgdir p m' l s :
  kmem_inv kend l s -> uvm_ok kend (k_mem s) pgdir l -> page_ok kend p -> p ∉ l ->
  ~ table_page (k_mem s) pgdir p ->
  (forall a, ~ in_page a p -> ldb m' a = ldb (k_mem s) a) ->
  kmem_inv kend l (set_mem m' s) /\ uvm_ok kend m' pgdir l /\
  (forall va, pte_at m' pgdir va = pte_at (k_mem s) pgdir va) /\
  (forall q, table_page m' pgdir q <-> table_page (k_mem s) pgdir q).
Proof.
  intros Hinv Hu Hp Hpl Hpt Hm.
  assert (Hf : forall q a, table_page (k_mem s) pgdir q -> in_page a q -> ldb m' a = ldb (k_mem s) a).
  { intros q a Hq Ha. apply Hm. intros Ha'.
    destruct (table_page_ok _ _ _ _ _ (uvm_dir _ _ _ _ Hu) Hq) as [Hqo _].
    apply (pages_apart kend q p a); auto. congruence. }
  split.
  - apply kmem_inv_frame; [exact Hinv|]. intros q a Hq Ha. apply Hm. intros Ha'.
    apply (pages_apart kend q p a); auto; [apply (kmem_inv_pages _ _ _ Hinv _ Hq)|congruence].
  - split; [eapply uvm_ok_frame; eauto|]. split; [intros va; apply pte_at_frame, Hf|].
    intros q. apply table_page_frame. intros a. apply Hf. left. reflexivity.
Qed.

(** A free page [p] was filled with [fill p] and handed to [mappages], which
    took the pages [ts] for tables and returned [r]. *)
Record grow (fill : Z -> mem -> mem) (pgdir a p perm r : Z) (ts l' : list Z) (s s' : kmem) : Prop := mkgrow {
  gr_inv : kmem_inv kend l' s';
  gr_uvm : uvm_ok kend (k_mem s') pgdir l';
  gr_lock : use_lock s' = use_lock s;
  gr_result : r = 0 \/ r = -1 /\ l' = [];
  gr_tables : forall q, table_page (k_mem s') pgdir q <-> table_page (k_mem s) pgdir q \/ q ∈ ts;
  gr_pte : forall va, 0 <= va < 2 ^ 32 -> pte_at (k_mem s') pgdir va =
    if (r =? 0) && (vpn va =? vpn a) then mk_pte (V2P p) perm else pte_at (k_mem s) pgdir va;
  gr_page : forall b, in_page b p -> ldb (k_mem s') b = ldb (fill p (k_mem s)) b;
  gr_frame : forall b, ~ in_page b p -> (forall q, table_page (k_mem s') pgdir q -> ~ in_page b q) ->
    ldb (k_mem s') b = ldb (k_mem s) b }.

Lemma alloc_page fill pgdir a perm p l s :
  (forall q m b, ~ in_page b q -> ldb (fill q m) b = ldb m b) ->
  kmem_inv kend (p :: l) s -> uvm_ok kend (k_mem s) pgdir (p :: l) ->
  0 <= perm < 4096 -> 0 <= a < KERNBASE -> a mod 4096 = 0 -> ~ present (k_mem s) pgdir a ->
  exists s1 r ts l' s', kalloc s = Ret (p, s1) /\ p =? 0 = false /\ l = ts ++ l' /\
    k_mem s1 = k_mem s /\
    mappages pgdir a PGSIZE (V2P p) perm (set_mem (fill p (k_mem s1)) s1) = Ret (r, s') /\
    grow fill pgdir a p perm r ts l' s s'.
Proof.
  intros Hfill Hinv Hu Hperm Ha Ham Hna.
  destruct (kalloc_cons kend p l s Hinv) as (s1 & Hk & Hinv1 & Hm1 & Hu1).
  assert (Hp : page_ok kend p) by (apply (kmem_inv_pages _ _ _ Hinv); left).
  assert (Hpl : p ∉ l) by (destruct Hinv as (_ & Hnd & _); apply NoDup_cons in Hnd; tauto).
  pose proof (uvm_ok_fresh _ _ _ _ Hu) as Hps.
  assert (Hut : uvm_ok kend (k_mem s1) pgdir l)
    by (rewrite Hm1; eapply uvm_ok_sub; [|exact Hu]; intros q Hq; right; exact Hq).
  destruct (fill_page pgdir p (fill p (k_mem s1)) l s1) as (Hinv2 & Hu2 & Hpte2 & Ht2); auto.
  { rewrite Hm1. intros Ht. apply Hps. left. exact Ht. }
  rewrite Hm1 in Hpte2, Ht2, Hu2, Hinv2.
  destruct (map_user pgdir a p perm l (set_mem (fill p (k_mem s)) s1)) as
    (r & ts & l' & s' & H & Hl & Hs & Hu' & Hr); auto.
  { intros [Ht|(va & [Hr Hv] & Heq)]; cbn [k_mem set_mem] in *; apply Hps.
    - left. apply Ht2, Ht.
    - right. exists va. unfold present. rewrite <- Hpte2. auto. }
  { intros [Hr Hv]. apply Hna. cbn [k_mem set_mem] in Hv. rewrite Hpte2 in Hv. split; assumption. }
  exists s1, r, ts, l', s'. pose proof (page_ok_pos _ _ Hp).
  split; [exact Hk|]. split; [lia|]. split; [exact Hl|]. split; [exact Hm1|].
  rewrite Hm1. split; [exact H|].
  destruct Hs as [Hi3 Hd3 Hu3 Ht3 Hm3]. cbn [k_mem set_mem use_lock] in *.
  split; [exact Hi3|exact Hu'|congruence|tauto| | | |].
  - intros q. rewrite Ht3, Ht2. reflexivity.
  - intros va Hva. destruct Hr as [[-> Hpte]|(-> & _ & Hpte)]; rewrite Hpte by exact Hva; cbn.
    + rewrite Hpte2. reflexivity.
    + apply Hpte2.
  - intros b Hb. apply Hm3. intros q [Hq|Hq]%Ht3 Hb'.
    + destruct (table_page_ok _ _ _ _ _ (uvm_dir _ _ _ _ Hu2) Hq) as [Hqo _].
      apply (pages_apart kend q p b); auto. intros ->. apply Hps. left. apply Ht2, Hq.
    + apply (pages_apart kend q p b); auto; [apply (kmem_inv_pages _ _ _ Hinv); subst l; right; apply elem_of_app; auto|].
      intros ->. apply Hpl. subst l. apply elem_of_app. auto.
  - intros b Hb Hq. rewrite Hm3 by exact Hq. apply Hfill, Hb.
Qed.

(** The two ways pages are filled: zeroed, or copied from another page. *)
Definition zero_fill (p : Z) (m : mem) : mem := memset m p 0 PGSIZE.
Definition copy_fill (src p : Z) (m : mem) : mem := memmove m p src PGSIZE.

Lemma zero_fill_out p m b : ~ in_page b p -> ldb (zero_fill p m) b = ldb m b.
Proof.
  intros H. unfold zero_fill, in_page in *. rewrite ldb_memset by (unfold PGSIZE; lia).
  case_if; [unfold PGSIZE in *; lia|reflexivity].
Qed.

Lemma zero_fill_in p m b : in_page b p -> ldb (zero_fill p m) b = 0.
Proof.
  intros H. unfold zero_fill, in_page in *. rewrite ldb_memset by (unfold PGSIZE; lia).
  case_if; [reflexivity|unfold PGSIZE in *; lia].
Qed.

Lemma zero_grow pgdir a p perm r ts l' s s' b :
  grow zero_fill pgdir a p perm r ts l' s s' -> in_page b p -> ldb (k_mem s') b = 0.
Proof. intros Hg Hb. rewrite (gr_page _ _ _ _ _ _ _ _ _ _ Hg) by exact Hb. apply zero_fill_in, Hb. Qed.

(** ** [allocuvm] *)

(** The pages of numbers [lo, hi) have been mapped to fresh zeroed pages; the
    pages [used] were taken from the free list. *)
Record alloced (pgdir lo hi : Z) (used l' : list Z) (s s' : kmem) : Prop := mkalloced {
  al_inv : kmem_inv kend l' s';
  al_uvm : uvm_ok kend (k_mem s') pgdir l';
  al_lock : use_lock s' = use_lock s;
  al_tables : forall q, table_page (k_mem s') pgdir q -> table_page (k_mem s) pgdir q \/ q ∈ used;
  al_new : forall va, lo <= vpn va < hi -> exists p, p ∈ used /\
    pte_at (k_mem s') pgdir va = mk_pte (V2P p) (Z.lor PTE_W PTE_U) /\
    forall b, in_page b p -> ldb (k_mem s') b = 0;
  al_old : forall va, 0 <= va < 2 ^ 32 -> ~ (lo <= vpn va < hi) ->
    pte_at (k_mem s') pgdir va = pte_at (k_mem s) pgdir va;
  al_used : forall q, q ∈ used -> page_ok kend q /\ q ∉ l' /\ space_page (k_mem s') pgdir q;
  al_frame : forall b, (forall q, q ∈ used \/ table_page (k_mem s) pgdir q -> ~ in_page b q) ->
    ldb (k_mem s') b = ldb (k_mem s) b }.

Lemma alloced_refl pgdir lo l s :
  kmem_inv kend l s -> uvm_ok kend (k_mem s) pgdir l -> alloced pgdir lo lo [] l s s.
Proof.
  intros Hi Hu. split; auto; try (intros; lia). intros q Hq%elem_of_nil. contradiction.
Qed.

Lemma grow_present fill pgdir a p perm r ts l' s s' va :
  grow fill pgdir a p perm r ts l' s s' -> 0 <= a < KERNBASE -> ~ present (k_mem s) pgdir a ->
  present (k_mem s) pgdir va ->
  present (k_mem s') pgdir va /\ pte_at (k_mem s') pgdir va = pte_at (k_mem s) pgdir va.
Proof.
  intros Hg Ha Hna Hv. pose proof (present_range _ _ _ Hv) as Hr. destruct Hv as [Hr' Hv].
  unfold present. rewrite (gr_pte _ _ _ _ _ _ _ _ _ _ Hg va Hr).
  destruct (_ && _) eqn:E; [|auto]. zbool. rewrite (vpn_absent _ _ a) in Hv by assumption. discriminate.
Qed.

(** The contents of the old user pages survive. *)
Lemma grow_contents fill pgdir a p perm r ts l' s s' va b :
  grow fill pgdir a p perm r ts l' s s' -> uvm_ok kend (k_mem s) pgdir (p :: ts ++ l') ->
  page_ok kend p -> Forall (page_ok kend) ts -> present (k_mem s) pgdir va ->
  in_page b (ptpage (pte_at (k_mem s) pgdir va)) -> ldb (k_mem s') b = ldb (k_mem s) b.
Proof.
  intros Hg Hu Hp Hts Hv Hb. destruct (uvm_frame _ _ _ _ Hu va Hv) as (Hf & Hn & Ht).
  apply not_elem_of_cons in Hn as [Hnp Hn]. rewrite elem_of_app in Hn.
  apply (gr_frame _ _ _ _ _ _ _ _ _ _ Hg).
  - intros Hb'. apply (pages_apart kend _ p b Hf Hp); auto.
  - intros q [Hq|Hq]%(gr_tables _ _ _ _ _ _ _ _ _ _ Hg) Hb'.
    + destruct (table_page_ok _ _ _ _ _ (uvm_dir _ _ _ _ Hu) Hq) as [Hqo _].
      apply (pages_apart kend _ q b Hf Hqo); auto. intros <-. contradiction.
    + rewrite Forall_forall in Hts. apply (pages_apart kend _ q b Hf (Hts _ Hq)); auto.
      intros <-. tauto.
Qed.

(** All pages of the address space stay in it. *)
Lemma grow_space_page fill pgdir a p perm r ts l' s s' q :
  grow fill pgdir a p perm r ts l' s s' -> 0 <= a < KERNBASE -> ~ present (k_mem s) pgdir a ->
  space_page (k_mem s) pgdir q -> space_page (k_mem s') pgdir q.
Proof.
  intros Hg Ha Hna [Ht|(va & Hv & ->)].
  - left. apply (gr_tables _ _ _ _ _ _ _ _ _ _ Hg). auto.
  - destruct (grow_present _ _ _ _ _ _ _ _ _ _ _ Hg Ha Hna Hv) as [Hv' <-]. right. eauto.
Qed.

Section AllocedStep.
Context (pgdir lo a p : Z) (used ts l' : list Z) (s0 s s' : kmem).
Context (Hal : alloced pgdir lo (vpn a) used (p :: ts ++ l') s0 s).
Context (Ha : 0 <= a < KERNBASE) (Hna : ~ present (k_mem s) pgdir a).
Context (Hg : grow zero_fill pgdir a p (Z.lor PTE_W PTE_U) 0 ts l' s s').

Lemma step_pages : page_ok kend p /\ Forall (page_ok kend) ts.
Proof.
  pose proof (kmem_inv_pages _ _ _ (al_inv _ _ _ _ _ _ _ Hal)) as Hok. split; [apply Hok; left|].
  apply Forall_forall. intros q Hq. apply Hok. right. apply elem_of_app. auto.
Qed.

Lemma step_pte va : vpn va = vpn a ->
  pte_at (k_mem s') pgdir va = mk_pte (V2P p) (Z.lor PTE_W PTE_U).
Proof.
  intros Hv. rewrite (gr_pte _ _ _ _ _ _ _ _ _ _ Hg).
  - rewrite Hv, !Z.eqb_refl. reflexivity.
  - apply vpn_range. rewrite Hv. apply vpn_range. unfold KERNBASE in Ha. lia.
Qed.

Lemma step_new va : 0 <= lo <= vpn va -> vpn va < vpn a + 1 -> exists q, q ∈ used ++ p :: ts /\
  pte_at (k_mem s') pgdir va = mk_pte (V2P q) (Z.lor PTE_W PTE_U) /\
  forall b, in_page b q -> ldb (k_mem s') b = 0.
Proof.
  intros Hv Hv1. destruct (Z.eq_dec (vpn va) (vpn a)) as [Heq|Hne].
  - exists p. split; [rewrite elem_of_app, elem_of_cons; auto|].
    split; [apply step_pte, Heq|]. intros b. eapply zero_grow, Hg.
  - destruct (al_new _ _ _ _ _ _ _ Hal va) as (q & Hin & Hpte & Hz); [lia|]. exists q.
    assert (Hv' : present (k_mem s) pgdir va).
    { split; [|rewrite Hpte; apply mk_pte_present]. unfold vpn, KERNBASE in *.
      pose proof (Z.div_mod va 4096). pose proof (Z.mod_pos_bound va 4096).
      pose proof (Z.div_mod a 4096). pose proof (Z.mod_pos_bound a 4096). lia. }
    destruct (grow_present _ _ _ _ _ _ _ _ _ _ _ Hg Ha Hna Hv') as [_ ->].
    split; [rewrite elem_of_app; auto|]. split; [exact Hpte|]. intros b Hb.
    rewrite (grow_contents _ _ _ _ _ _ _ _ _ _ va b Hg (al_uvm _ _ _ _ _ _ _ Hal));
      [apply Hz, Hb|apply step_pages|apply step_pages|exact Hv'|].
    rewrite Hpte, ptpage_mk; [exact Hb|apply (al_used _ _ _ _ _ _ _ Hal), Hin|cbv; split; congruence].
Qed.

Lemma step_used q : q ∈ used ++ p :: ts ->
  page_ok kend q /\ q ∉ l' /\ space_page (k_mem s') pgdir q.
Proof.
  pose proof (proj1 (proj2 (al_inv _ _ _ _ _ _ _ Hal))) as Hnd.
  apply NoDup_cons in Hnd as [Hpn Hnd]. apply NoDup_app in Hnd as (_ & Hdis & _).
  rewrite elem_of_app in Hpn. rewrite elem_of_app, elem_of_cons. destruct step_pages as [Hp Hts].
  intros [Hq|[->|Hq]].
  - destruct (al_used _ _ _ _ _ _ _ Hal q Hq) as (? & Hn & Hsp).
    rewrite not_elem_of_cons, elem_of_app in Hn. split; [assumption|]. split; [tauto|].
    eapply grow_space_page; eauto.
  - split; [exact Hp|]. split; [tauto|]. right. exists a. rewrite step_pte by reflexivity.
    split; [split; [exact Ha|]|].
    + rewrite step_pte by reflexivity. apply mk_pte_present.
    + symmetry. apply ptpage_mk; [exact Hp|cbv; split; congruence].
  - rewrite Forall_forall in Hts. split; [auto|]. split; [auto|]. left.
    apply (gr_tables _ _ _ _ _ _ _ _ _ _ Hg). auto.
Qed.

Lemma step_tables q : table_page (k_mem s') pgdir q ->
  table_page (k_mem s0) pgdir q \/ q ∈ used ++ p :: ts.
Proof.
  intros [Hq|Hq]%(gr_tables _ _ _ _ _ _ _ _ _ _ Hg); rewrite elem_of_app, elem_of_cons; [|auto].
  destruct (al_tables _ _ _ _ _ _ _ Hal q Hq); auto.
Qed.

Lemma alloced_step : 0 <= lo <= vpn a -> alloced pgdir lo (vpn a + 1) (used ++ p :: ts) l' s0 s'.
Proof.
  intros Hlo. split; try (apply Hg); auto using step_used, step_tables.
  - rewrite (gr_lock _ _ _ _ _ _ _ _ _ _ Hg). apply Hal.
  - intros va Hv. apply step_new; lia.
  - intros va Hva Hn. rewrite (gr_pte _ _ _ _ _ _ _ _ _ _ Hg) by exact Hva.
    destruct (Z.eqb_spec (vpn va) (vpn a)); cbn; [lia|].
    apply (al_old _ _ _ _ _ _ _ Hal); [exact Hva|lia].
  - intros b Hb.
    rewrite (gr_frame _ _ _ _ _ _ _ _ _ _ Hg), (al_frame _ _ _ _ _ _ _ Hal); [reflexivity| | |].
    + intros q [Hq|Hq]; apply Hb; [left; rewrite elem_of_app|]; auto.
    + apply Hb. left. rewrite elem_of_app, elem_of_cons. auto.
    + intros q Hq. apply Hb. destruct (step_tables q Hq); auto.
Qed.
End AllocedStep.

(** Freeing a page that is not part of the address space. *)
Lemma kfree_uvm pgdir p l s :
  kmem_inv kend l s -> uvm_ok kend (k_mem s) pgdir l -> page_ok kend p -> p ∉ l ->
  ~ space_page (k_mem s) pgdir p ->
  exists s', kfree kend p s = Ret (tt, s') /\ kmem_inv kend (p :: l) s' /\
    uvm_ok kend (k_mem s') pgdir (p :: l) /\ use_lock s' = use_lock s /\
    (forall va, pte_at (k_mem s') pgdir va = pte_at (k_mem s) pgdir va) /\
    (forall q, table_page (k_mem s') pgdir q <-> table_page (k_mem s) pgdir q) /\
    (forall b, ~ in_page b p -> ldb (k_mem s') b = ldb (k_mem s) b).
Proof.
  intros Hinv Hu Hp Hpl Hps.
  destruct (kfree_space kend pgdir p l s Hinv (uvm_dir _ _ _ _ Hu) Hp Hpl)
    as (s' & Hk & Hi & Hd & Hlk & _ & Ht & Hpte & Hm).
  { intros H. apply Hps. left. exact H. }
  exists s'. do 2 (split; [assumption|]). split; [|auto]. split; [exact Hd| |].
  - intros va [Hr Hv]. rewrite Hpte, Ht in *. destruct (uvm_frame _ _ _ _ Hu va (conj Hr Hv)) as (? & ? & ?).
    split; [assumption|]. split; [|assumption]. apply not_elem_of_cons. split; [|assumption].
    intros Heq. apply Hps. right. exists va. split; [split; assumption|auto].
  - intros va va' [Hr Hv] [Hr' Hv']. rewrite !Hpte in *. apply (uvm_inj _ _ _ _ Hu); split; assumption.
Qed.

(** The state when [allocuvm] gives up: pages of the range may be mapped, the
    caller may still hold the pages [xs]. *)
Record partial (pgdir lo hi : Z) (l0 l xs : list Z) (s0 s : kmem) : Prop := mkpartial {
  pa_inv : kmem_inv kend l s;
  pa_uvm : uvm_ok kend (k_mem s) pgdir l;
  pa_lock : use_lock s = use_lock s0;
  pa_pte : forall va, 0 <= va < 2 ^ 32 -> ~ (lo <= vpn va < hi) ->
    pte_at (k_mem s) pgdir va = pte_at (k_mem s0) pgdir va;
  pa_data : forall va b, present (k_mem s0) pgdir va ->
    in_page b (ptpage (pte_at (k_mem s0) pgdir va)) -> ldb (k_mem s) b = ldb (k_mem s0) b;
  pa_pages : forall q, q ∈ l0 -> q ∈ l \/ q ∈ xs \/ space_page (k_mem s) pgdir q }.

(** What a failed [allocuvm] leaves: the user pages outside [lost, lo) as they
    were, and no page gone except into the directory's tables. *)
Record undone (pgdir lost lo : Z) (l0 l : list Z) (s0 s : kmem) : Prop := mkundone {
  un_inv : kmem_inv kend l s;
  un_uvm : uvm_ok kend (k_mem s) pgdir l;
  un_lock : use_lock s = use_lock s0;
  un_present : forall va, present (k_mem s) pgdir va <->
    present (k_mem s0) pgdir va /\ ~ (lost <= vpn va < lo);
  un_data : forall va b, present (k_mem s) pgdir va ->
    pte_at (k_mem s) pgdir va = pte_at (k_mem s0) pgdir va /\
    (in_page b (ptpage (pte_at (k_mem s0) pgdir va)) -> ldb (k_mem s) b = ldb (k_mem s0) b);
  un_pages : forall q, q ∈ l0 -> q ∈ l \/ table_page (k_mem s) pgdir q }.

Section Undo.
Context (pgdir lost lo hi : Z) (l0 l l' xs : list Z) (s0 s s' : kmem).
Context (Hu0 : uvm_ok kend (k_mem s0) pgdir l0).
Context (Hpa : partial pgdir lo hi l0 l xs s0 s).
Context (Habs : forall va, lo <= vpn va < hi -> ~ present (k_mem s0) pgdir va).
Context (Hlost : lost <= lo <= hi).
Context (Hde : dealloc kend pgdir lost hi l l' s s').

Lemma undo_present va : present (k_mem s') pgdir va <->
  present (k_mem s0) pgdir va /\ ~ (lost <= vpn va < lo).
Proof.
  rewrite (dealloc_present _ _ _ _ _ _ _ _ _ Hde).
  assert (Hp : ~ (lo <= vpn va < hi) -> present (k_mem s) pgdir va <-> present (k_mem s0) pgdir va).
  { intros Hn. unfold present. split; intros [Hr Hv];
      rewrite (pa_pte _ _ _ _ _ _ _ _ Hpa va) in * by (assumption || (unfold KERNBASE in Hr; lia)); auto. }
  split.
  - intros [Hv Hn]. rewrite Hp in Hv by lia. split; [exact Hv|lia].
  - intros [Hv Hn]. assert (~ (lo <= vpn va < hi)) by (intros H; apply (Habs va H Hv)).
    rewrite Hp by assumption. split; [exact Hv|lia].
Qed.

Lemma undo_data va b : present (k_mem s') pgdir va ->
  pte_at (k_mem s') pgdir va = pte_at (k_mem s0) pgdir va /\
  (in_page b (ptpage (pte_at (k_mem s0) pgdir va)) -> ldb (k_mem s') b = ldb (k_mem s0) b).
Proof.
  intros Hv. pose proof (present_range _ _ _ Hv) as Hr. pose proof (proj1 (undo_present va) Hv) as [Hv0 Hn].
  assert (~ (lo <= vpn va < hi)) by (intros H; apply (Habs va H Hv0)).
  assert (Hpte : pte_at (k_mem s) pgdir va = pte_at (k_mem s0) pgdir va)
    by (apply (pa_pte _ _ _ _ _ _ _ _ Hpa); assumption).
  apply (dealloc_present _ _ _ _ _ _ _ _ _ Hde) in Hv as [Hvs Hns].
  split.
  - rewrite (de_pte _ _ _ _ _ _ _ _ Hde) by exact Hr. rewrite <- Hpte.
    destruct (_ && _ && _) eqn:E; [|reflexivity]. zbool. lia.
  - intros Hb. rewrite <- (pa_data _ _ _ _ _ _ _ _ Hpa va b Hv0 Hb).
    apply (de_frame _ _ _ _ _ _ _ _ Hde). rewrite <- Hpte in Hb.
    destruct (uvm_frame _ _ _ _ (pa_uvm _ _ _ _ _ _ _ _ Hpa) va Hvs) as (Hf & _ & Hnt).
    intros q [Hq|(va' & Hr' & Hv' & ->)] Hb'.
    + destruct (table_page_ok _ _ _ _ _ (uvm_dir _ _ _ _ (pa_uvm _ _ _ _ _ _ _ _ Hpa)) Hq) as [Hqo _].
      apply (pages_apart kend _ q b Hf Hqo); auto. intros <-. contradiction.
    + destruct (uvm_frame _ _ _ _ (pa_uvm _ _ _ _ _ _ _ _ Hpa) va' Hv') as (Hf' & _).
      apply (pages_apart kend _ _ b Hf Hf'); auto. intros Heq.
      apply Hns. rewrite (uvm_inj _ _ _ _ (pa_uvm _ _ _ _ _ _ _ _ Hpa) va va' Hvs Hv' Heq). exact Hr'.
Qed.

Lemma undo_pages q : q ∈ l0 -> q ∈ l' \/ q ∈ xs \/ table_page (k_mem s') pgdir q.
Proof.
  intros Hq. rewrite (de_free _ _ _ _ _ _ _ _ Hde), (de_tables _ _ _ _ _ _ _ _ Hde).
  destruct (pa_pages _ _ _ _ _ _ _ _ Hpa q Hq) as [?|[?|[?|(va & Hv & ->)]]]; auto.
  destruct (decide (lost <= vpn va < hi)) as [Hin|Hout]; [left; right; exists va; auto|].
  assert (Hp' : present (k_mem s') pgdir va)
    by (apply (dealloc_present _ _ _ _ _ _ _ _ _ Hde); auto).
  pose proof (proj1 (undo_present va) Hp') as [Hv0 _].
  rewrite (pa_pte _ _ _ _ _ _ _ _ Hpa va) in Hq by (lia || eapply present_range, Hv).
  destruct (uvm_frame _ _ _ _ Hu0 va Hv0) as (_ & Hn & _). contradiction.
Qed.

Lemma undo_ok : xs = [] -> undone pgdir lost lo l0 l' s0 s'.
Proof.
  intros Hxs. split; try (apply Hde).
  - rewrite (de_lock _ _ _ _ _ _ _ _ Hde). apply Hpa.
  - apply undo_present.
  - apply undo_data.
  - intros q Hq. destruct (undo_pages q Hq) as [?|[Hin|?]]; auto.
    rewrite Hxs, elem_of_nil in Hin. contradiction.
Qed.
End Undo.

(** A user page of the old space lies apart from the pages taken since. *)
Lemma old_page_apart pgdir m l va b q : uvm_ok kend m pgdir l -> present m pgdir va ->
  in_page b (ptpage (pte_at m pgdir va)) -> q ∈ l /\ page_ok kend q \/ table_page m pgdir q -> ~ in_page b q.
Proof.
  intros Hu Hv Hb Hq Hb'. destruct (uvm_frame _ _ _ _ Hu va Hv) as (Hf & Hn & Ht).
  destruct Hq as [[Hq Hqo]|Hq].
  - apply (pages_apart kend _ q b Hf Hqo); auto. congruence.
  - destruct (table_page_ok _ _ _ _ _ (uvm_dir _ _ _ _ Hu) Hq) as [Hqo _].
    apply (pages_apart kend _ q b Hf Hqo); auto. congruence.
Qed.

Lemma alloced_partial pgdir lo mid hi used l s0 s :
  uvm_ok kend (k_mem s0) pgdir (used ++ l) -> mid <= hi ->
  alloced pgdir lo mid used l s0 s -> partial pgdir lo hi (used ++ l) l [] s0 s.
Proof.
  intros Hu0 Hm Hal. split; try (apply Hal).
  - intros va Hva Hn. apply (al_old _ _ _ _ _ _ _ Hal); [exact Hva|lia].
  - intros va b Hv Hb. apply (al_frame _ _ _ _ _ _ _ Hal). intros q Hq.
    eapply (old_page_apart _ _ _ va); eauto. destruct Hq as [Hq|?]; [left|auto].
    split; [apply elem_of_app; auto|apply (al_used _ _ _ _ _ _ _ Hal), Hq].
  - intros q [Hq|Hq]%elem_of_app; [|auto]. right. right. apply (al_used _ _ _ _ _ _ _ Hal), Hq.
Qed.

Lemma grow_partial pgdir lo a hi used p ts l s0 s s' :
  uvm_ok kend (k_mem s0) pgdir (used ++ p :: ts ++ l) -> vpn a <= hi -> 0 <= a < KERNBASE ->
  (forall va, lo <= vpn va < hi -> ~ present (k_mem s0) pgdir va) ->
  ~ present (k_mem s) pgdir a ->
  alloced pgdir lo (vpn a) used (p :: ts ++ l) s0 s ->
  grow zero_fill pgdir a p (Z.lor PTE_W PTE_U) (-1) ts l s s' ->
  partial pgdir lo hi (used ++ p :: ts ++ l) l [p] s0 s'.
Proof.
  intros Hu0 Hm Ha Habs Hna Hal Hg. destruct (step_pages _ _ _ _ _ _ _ _ _ Hal) as [Hp Hts].
  assert (Hpte : forall va, 0 <= va < 2 ^ 32 -> pte_at (k_mem s') pgdir va = pte_at (k_mem s) pgdir va)
    by (intros va Hva; apply (gr_pte _ _ _ _ _ _ _ _ _ _ Hg va Hva)).
  pose proof (alloced_partial _ _ _ hi _ _ _ _ Hu0 Hm Hal) as Hpa. split; try (apply Hg).
  - rewrite (gr_lock _ _ _ _ _ _ _ _ _ _ Hg). apply Hal.
  - intros va Hva Hn. rewrite Hpte by exact Hva. apply (pa_pte _ _ _ _ _ _ _ _ Hpa); assumption.
  - intros va b Hv Hb. pose proof (present_range _ _ _ Hv) as Hr.
    rewrite <- (pa_data _ _ _ _ _ _ _ _ Hpa va b Hv Hb).
    assert (Heq : pte_at (k_mem s) pgdir va = pte_at (k_mem s0) pgdir va)
      by (apply (pa_pte _ _ _ _ _ _ _ _ Hpa); [exact Hr|intros H; apply (Habs va H Hv)]).
    apply (grow_contents _ _ _ _ _ _ _ _ _ _ va b Hg (al_uvm _ _ _ _ _ _ _ Hal) Hp Hts);
      [unfold present in *|]; rewrite Heq; assumption.
  - intros q Hq. destruct (pa_pages _ _ _ _ _ _ _ _ Hpa q Hq) as [Hin|[Hin%elem_of_nil|Hsp]];
      [|contradiction|].
    + rewrite elem_of_cons, elem_of_app in Hin. rewrite list_elem_of_singleton.
      destruct Hin as [?|[?|?]]; auto. right. right. left.
      apply (gr_tables _ _ _ _ _ _ _ _ _ _ Hg). auto.
    + right. right. eapply grow_space_page; eauto.
Qed.

(** The page of a failed mapping is still the caller's alone. *)
Lemma grow_fresh fill pgdir a p perm ts l s s' :
  grow fill pgdir a p perm (-1) ts l s s' -> kmem_inv kend (p :: ts ++ l) s ->
  uvm_ok kend (k_mem s) pgdir (p :: ts ++ l) -> ~ space_page (k_mem s') pgdir p.
Proof.
  intros Hg (_ & Hnd & _) Hu Hsp. apply (uvm_ok_fresh _ _ _ _ Hu).
  apply NoDup_cons in Hnd as [Hn _]. rewrite elem_of_app in Hn. destruct Hsp as [Ht|(va & Hv & Heq)].
  - apply (gr_tables _ _ _ _ _ _ _ _ _ _ Hg) in Ht as [Ht|Ht]; [left; exact Ht|tauto].
  - pose proof (present_range _ _ _ Hv) as Hr. right. exists va. unfold present in *.
    rewrite (gr_pte _ _ _ _ _ _ _ _ _ _ Hg va Hr) in Hv, Heq. cbn [andb Z.eqb] in *. auto.
Qed.

Lemma partial_kalloc pgdir lo hi l0 s0 s s1 :
  partial pgdir lo hi l0 [] [] s0 s -> kmem_inv kend [] s1 -> k_mem s1 = k_mem s ->
  use_lock s1 = use_lock s -> partial pgdir lo hi l0 [] [] s0 s1.
Proof. intros [H1 H2 H3 H4 H5 H6] Hi Hm Hl. split; rewrite ?Hm; auto. congruence. Qed.

(** [kfree(mem)] after the pages were unmapped. *)
Lemma undo_kfree pgdir lost lo hi p l0 l l' s0 s s' :
  uvm_ok kend (k_mem s0) pgdir l0 -> partial pgdir lo hi l0 l [p] s0 s ->
  (forall va, lo <= vpn va < hi -> ~ present (k_mem s0) pgdir va) -> lost <= lo <= hi ->
  dealloc kend pgdir lost hi l l' s s' -> page_ok kend p -> p ∉ l -> ~ space_page (k_mem s) pgdir p ->
  exists s'', kfree kend p s' = Ret (tt, s'') /\ undone pgdir lost lo l0 (p :: l') s0 s''.
Proof.
  intros Hu0 Hpa Habs Hb Hde Hp Hpl Hps.
  assert (Hnl : p ∉ l').
  { rewrite (de_free _ _ _ _ _ _ _ _ Hde). intros [?|(va & _ & Hv & ->)]; [contradiction|].
    apply Hps. right. eauto. }
  assert (Hns : ~ space_page (k_mem s') pgdir p).
  { intros [Ht|(va & Hv & ->)]; apply Hps; [left; apply (de_tables _ _ _ _ _ _ _ _ Hde), Ht|].
    right. exists va. pose proof (present_range _ _ _ Hv) as Hr. pose proof (proj2 Hv) as Hp1.
    apply (dealloc_present _ _ _ _ _ _ _ _ _ Hde) in Hv as [Hv Hn]. split; [exact Hv|].
    rewrite (de_pte _ _ _ _ _ _ _ _ Hde) by exact Hr. destruct (_ && _ && _) eqn:E; [zbool; lia|reflexivity]. }
  destruct (kfree_uvm pgdir p l' s' (de_inv _ _ _ _ _ _ _ _ Hde) (de_uvm _ _ _ _ _ _ _ _ Hde) Hp Hnl Hns)
    as (s2 & Hk & Hi & Hu & Hl & Hpte & Ht & Hm).
  exists s2. split; [exact Hk|]. split; [exact Hi|exact Hu| | | |].
  - rewrite Hl, (de_lock _ _ _ _ _ _ _ _ Hde). apply Hpa.
  - intros va. unfold present at 1. rewrite Hpte.
    apply (undo_present pgdir lost lo hi l0 l l' [p] s0 s s'); assumption.
  - intros va b Hv. unfold present in Hv. rewrite Hpte in *.
    destruct (undo_data pgdir lost lo hi l0 l l' [p] s0 s s' Hpa Habs Hb Hde va b Hv) as [He Hd].
    split; [exact He|]. intros Hb'. rewrite Hm; [auto|]. intros Hbp.
    destruct (uvm_frame _ _ _ _ (de_uvm _ _ _ _ _ _ _ _ Hde) va Hv) as (Hf & _).
    apply (pages_apart kend _ p b Hf Hp); [|rewrite He; exact Hb'|exact Hbp].
    intros Heq. apply Hns. right. exists va. auto.
  - intros q Hq. rewrite elem_of_cons, Ht.
    destruct (undo_pages pgdir lost lo hi l0 l l' [p] s0 s s' Hu0 Hpa Habs Hb Hde q Hq) as [?|[Hin|?]]; auto.
    apply list_elem_of_singleton in Hin. auto.
Qed.

Section AllocLoop.
Context (pgdir oldsz newsz lo : Z) (l0 : list Z) (s0 : kmem).
Local Definition hi : Z := vpn (newsz + 4095).
Context (Hk : KERNBASE < kend) (Hu0 : uvm_ok kend (k_mem s0) pgdir l0).
Context (Hsz : 0 <= oldsz < newsz) (Hnew : newsz < KERNBASE) (Hlo : lo = vpn (oldsz + 4095)).
Context (Habs : forall va, lo <= vpn va < hi -> ~ present (k_mem s0) pgdir va).

Lemma range_order : 0 <= vpn oldsz <= lo /\ lo <= hi /\ hi <= 524288.
Proof.
  rewrite Hlo. unfold hi, vpn, KERNBASE in *.
  pose proof (Z.div_pos oldsz 4096). pose proof (Z.div_le_mono oldsz (oldsz + 4095) 4096).
  pose proof (Z.div_le_mono (oldsz + 4095) (newsz + 4095) 4096).
  pose proof (Z.div_le_mono (newsz + 4095) 0x80000fff 4096).
  change (0x80000fff / 4096) with 524288 in *. lia.
Qed.

(** One iteration: the loop goes on with one page more, or fails and undoes. *)
Lemma allocuvm_iter f a used l s :
  l0 = used ++ l -> alloced pgdir lo (vpn a) used l s0 s ->
  0 <= a < newsz -> a mod 4096 = 0 -> lo <= vpn a ->
  (exists l' s', allocuvm_loop kend (S f) pgdir a oldsz newsz s = Ret (0, s') /\
     undone pgdir (vpn oldsz) lo l0 l' s0 s') \/
  (exists used' l' s', allocuvm_loop kend (S f) pgdir a oldsz newsz s =
       allocuvm_loop kend f pgdir (u32 (a + PGSIZE)) oldsz newsz s' /\
     l0 = used' ++ l' /\ alloced pgdir lo (vpn a + 1) used' l' s0 s').
Proof.
  intros Hl0 Hal Ha Ham Hav. pose proof range_order as (Hr1 & Hr2 & Hr3).
  assert (Hah : vpn a < hi) by (unfold hi, vpn; apply Z.div_lt_upper_bound; [lia|];
    pose proof (Z.div_mod a 4096); pose proof (Z.div_mod (newsz + 4095) 4096);
    pose proof (Z.mod_pos_bound (newsz + 4095) 4096); lia).
  assert (Hak : 0 <= a < KERNBASE) by lia.
  assert (Hna : ~ present (k_mem s) pgdir a).
  { intros [_ Hv]. rewrite (al_old _ _ _ _ _ _ _ Hal) in Hv by (unfold KERNBASE in Hak; lia).
    apply (Habs a); [lia|]. split; assumption. }
  cbn [allocuvm_loop]. case_if; [lia|]. destruct l as [|p l].
  - left. destruct (kalloc_nil kend s (al_inv _ _ _ _ _ _ _ Hal)) as (s1 & H1 & Hi1 & Hm1 & Hl1).
    rewrite (bind_step _ _ _ _ _ H1). cbn [Z.eqb].
    pose proof Hu0 as Hu0'. rewrite Hl0 in Hu0'.
    pose proof (alloced_partial _ _ _ hi _ _ _ _ Hu0' (Z.lt_le_incl _ _ Hah) Hal) as Hpa.
    rewrite <- Hl0 in Hpa. apply (partial_kalloc _ _ _ _ _ _ s1) in Hpa; [|assumption..].
    destruct (deallocuvm_ok kend pgdir newsz oldsz [] s1 Hk Hi1) as (l2 & s2 & H2 & Hd);
      [apply Hpa|lia|lia|].
    rewrite (bind_step _ _ _ _ _ H2). exists l2, s2. split; [reflexivity|].
    apply (undo_ok pgdir (vpn oldsz) lo hi l0 [] l2 [] s0 s1 s2); auto with lia.
  - destruct (alloc_page zero_fill pgdir a (Z.lor PTE_W PTE_U) p l s) as
      (s1 & r & ts & l' & s2 & H1 & Hp0 & -> & Hm1 & H2 & Hg); auto;
      [apply zero_fill_out|apply Hal|apply Hal|cbv; split; congruence|].
    rewrite (bind_step _ _ _ _ _ H1), Hp0, (bind_step _ _ _ _ _ (mset_eq _ _ _ _)).
    rewrite (bind_step _ _ _ _ _ H2).
    destruct (gr_result _ _ _ _ _ _ _ _ _ _ Hg) as [->|[-> ->]]; cbn [Z.ltb Z.compare].
    + right. exists (used ++ p :: ts), l', s2. split; [reflexivity|].
      split; [rewrite Hl0, <- app_assoc; reflexivity|].
      apply (alloced_step _ _ _ _ _ _ _ _ s); auto with lia.
    + left. pose proof Hu0 as Hu0'. rewrite Hl0 in Hu0'.
      pose proof (grow_partial _ _ _ hi _ _ _ _ _ _ _ Hu0' (Z.lt_le_incl _ _ Hah) Hak Habs Hna Hal Hg) as Hpa.
      rewrite <- Hl0 in Hpa.
      destruct (deallocuvm_ok kend pgdir newsz oldsz [] s2 Hk) as (l3 & s3 & H3 & Hd);
        [apply Hg|apply Hg|lia|lia|].
      rewrite (bind_step _ _ _ _ _ H3).
      destruct (undo_kfree pgdir (vpn oldsz) lo hi p l0 [] l3 s0 s2 s3 Hu0 Hpa Habs) as (s4 & H4 & Hun);
        auto with lia.
      * apply (step_pages _ _ _ _ _ _ _ _ _ Hal).
      * intros H. apply elem_of_nil in H. exact H.
      * apply (grow_fresh _ _ _ _ _ _ _ _ _ Hg); apply Hal.
      * rewrite (bind_step _ _ _ _ _ H4). exists (p :: l3), s4. split; [reflexivity|exact Hun].
Qed.

(** What [allocuvm] does: all pages, or none. *)
Definition alloc_result (o : outcome (Z * kmem)) : Prop :=
  (exists used l' s', o = Ret (newsz, s') /\ l0 = used ++ l' /\ alloced pgdir lo hi used l' s0 s') \/
  (exists l' s', o = Ret (0, s') /\ undone pgdir (vpn oldsz) lo l0 l' s0 s').

Lemma allocuvm_loop_ok n : forall fuel a used l s,
  (n < fuel)%nat -> l0 = used ++ l -> alloced pgdir lo (vpn a) used l s0 s ->
  0 <= a -> a mod 4096 = 0 -> lo <= vpn a -> vpn a + Z.of_nat n = hi ->
  alloc_result (allocuvm_loop kend fuel pgdir a oldsz newsz s).
Proof.
  induction n as [|n IH]; intros fuel a used l s Hf Hl0 Hal Ha Ham Hav Hn;
    (destruct fuel as [|fuel]; [lia|]).
  - left. exists used, l, s. cbn [allocuvm_loop].
    assert (newsz <= a) by (unfold hi, vpn in Hn; pose proof (Z.div_mod a 4096);
      pose proof (Z.div_mod (newsz + 4095) 4096); pose proof (Z.mod_pos_bound (newsz + 4095) 4096); lia).
    case_if; [|lia]. split; [reflexivity|]. split; [exact Hl0|].
    replace hi with (vpn a) by lia. exact Hal.
  - assert (a < newsz) by (unfold hi, vpn in Hn; pose proof (Z.div_mod a 4096);
      pose proof (Z.div_mod (newsz + 4095) 4096); pose proof (Z.mod_pos_bound (newsz + 4095) 4096); lia).
    destruct (allocuvm_iter fuel a used l s) as [(l' & s' & H1 & Hun)|(used' & l' & s' & H1 & Hl' & Hal')];
      auto with lia; rewrite H1.
    + right. eauto.
    + unfold PGSIZE. rewrite u32_small by (unfold KERNBASE in Hnew; lia).
      apply (IH fuel (a + 4096) used' l' s'); rewrite ?vpn_next; auto with lia.
      replace (a + 4096) with (a + 1 * 4096) by lia. rewrite Z.mod_add by lia. exact Ham.
Qed.

Lemma allocuvm_ok : kmem_inv kend l0 s0 -> alloc_result (allocuvm kend pgdir oldsz newsz s0).
Proof.
  intros Hinv. unfold allocuvm. case_if; [lia|]. case_if; [lia|].
  pose proof range_order as (Hr1 & Hr2 & Hr3).
  assert (Hup : PGROUNDUP oldsz = lo * 4096)
    by (rewrite PGROUNDUP_arith, u32_small by (unfold KERNBASE in Hnew; lia); rewrite Hlo; reflexivity).
  rewrite Hup. apply (allocuvm_loop_ok (Z.to_nat (hi - lo)) _ _ [] l0 s0); rewrite ?vpn_mul; auto with lia.
  - unfold hi, vpn, PGSIZE in *. pose proof (Z.div_add (newsz + 4095) (- lo) 4096).
    replace (newsz + 4095 + - lo * 4096) with (newsz - lo * 4096 + 4096 - 1) in * by lia. lia.
  - apply alloced_refl; assumption.
  - apply Z.mod_mul. lia.
Qed.
End AllocLoop.

End Ualloc.
