(* ===== verification/Kvm.v ===== *)
(** * The kernel half of an address space

    Theorems about [setupkvm] and its table [kmap] ([src/xv6/vm.c], as modelled
    in [Vm]).  The layout of the image and of the frame buffer enters as the
    hypotheses of [kmap_ok], which state what the linker script and the firmware
    provide. *)

From S2P Require Import Prelude Mem Mmu Spinlock Kalloc Vm Uvm Ualloc.
Local Open Scope Z_scope.

Section Kvm.
Context (kend kdata : Z) (gpu0 : gpu).

(** ** The regions of [kmap] *)

Definition ksize (k : kmap_entry) : Z := u32 (phys_end k - phys_start k).
Definition covers (k : kmap_entry) (va : Z) : Prop :=
  vpn (virt k) <= vpn va < vpn (virt k) + ksize k / 4096.
Definition entry_pte (k : kmap_entry) (va : Z) : Z :=
  mk_pte (phys_start k + (vpn va - vpn (virt k)) * 4096) (kperm k).

Record entry_ok (k : kmap_entry) : Prop := mkentry_ok {
  en_virt : pa_ok (virt k);
  en_phys : pa_ok (phys_start k);
  en_size : 0 < ksize k /\ ksize k mod 4096 = 0;
  en_vend : virt k + ksize k <= 2 ^ 32;
  en_pend : phys_start k + ksize k <= 2 ^ 32;
  en_kern : KERNBASE <= virt k;
  en_perm : 0 <= kperm k < 4096 }.

Definition disj (k k' : kmap_entry) : Prop := forall va, covers k va -> ~ covers k' va.

Fixpoint apart (ks : list kmap_entry) : Prop :=
  match ks with
  | [] => True
  | k :: ks' => (forall k', k' ∈ ks' -> disj k k') /\ apart ks'
  end.

(** The entries describe exactly the regions [ks]. *)
Definition maps (m : mem) (pgdir : Z) (ks : list kmap_entry) : Prop :=
  forall va, 0 <= va < 2 ^ 32 ->
    (forall k, k ∈ ks -> covers k va -> pte_at m pgdir va = entry_pte k va) /\
    ((forall k, k ∈ ks -> ~ covers k va) -> pte_at m pgdir va = 0).

Lemma entry_npages k : entry_ok k -> npages (virt k) (ksize k) = ksize k / 4096.
Proof.
  intros [[Hv Hva] _ [Hs Hsa] _ _ _ _]. unfold npages, vpn.
  pose proof (Z.div_mod (virt k) 4096). pose proof (Z.div_mod (ksize k) 4096).
  replace (virt k + ksize k - 1) with (4095 + (virt k / 4096 + ksize k / 4096 - 1) * 4096) by lia.
  rewrite Z.div_add by lia. change (4095 / 4096) with 0. lia.
Qed.

Lemma user_below va k : entry_ok k -> 0 <= va < KERNBASE -> vpn va < vpn (virt k).
Proof.
  intros [_ _ _ _ _ He _] Hva. unfold vpn, KERNBASE in *.
  pose proof (Z.div_mod va 4096). pose proof (Z.mod_pos_bound va 4096).
  pose proof (Z.div_le_mono 0x80000000 (virt k) 4096). change (0x80000000 / 4096) with 524288 in *. lia.
Qed.

Lemma maps_user m pgdir ks va : maps m pgdir ks -> Forall entry_ok ks -> 0 <= va < KERNBASE ->
  pte_at m pgdir va = 0.
Proof.
  intros Hm Hok Hva. rewrite Forall_forall in Hok. apply (Hm va); [unfold KERNBASE in Hva; lia|].
  intros k Hk [Hc _]. pose proof (user_below va k (Hok k Hk) Hva). lia.
Qed.

Lemma map_upd_user m pgdir k n pa perm va : entry_ok k -> 0 <= va < KERNBASE ->
  map_upd m pgdir (PGROUNDDOWN (virt k)) n pa perm va = pte_at m pgdir va.
Proof.
  intros Hk Hva. pose proof (user_below va k Hk Hva). unfold map_upd.
  rewrite PGROUNDDOWN_id by (apply Hk). destruct (_ && _) eqn:E; [zbool; lia|reflexivity].
Qed.

(** ** The loop *)

Lemma maps_step m m' pgdir ks k n :
  maps m pgdir ks -> entry_ok k -> (forall k', k' ∈ ks -> disj k' k) -> n = ksize k / 4096 ->
  (forall va, 0 <= va < 2 ^ 32 -> pte_at m' pgdir va =
     map_upd m pgdir (PGROUNDDOWN (virt k)) n (phys_start k) (kperm k) va) ->
  maps m' pgdir (ks ++ [k]).
Proof.
  intros Hm Hok Hdis -> Hpte va Hva. destruct (Hm va Hva) as [H1 H2].
  destruct (en_virt _ Hok) as [Hv Hvm].
  rewrite Hpte by exact Hva. unfold map_upd. rewrite PGROUNDDOWN_id by assumption.
  destruct (_ && _) eqn:E.
  - assert (Hc : covers k va) by (unfold covers; zbool; lia). split.
    + intros k' [Hk|Hk]%elem_of_app Hc'; [destruct (Hdis k' Hk va Hc' Hc)|].
      apply list_elem_of_singleton in Hk as ->. reflexivity.
    + intros Hn. destruct (Hn k); [|exact Hc]. apply elem_of_app. right. left.
  - assert (Hc : ~ covers k va) by (unfold covers; zbool; lia). split.
    + intros k' [Hk|Hk]%elem_of_app Hc'; [auto|]. apply list_elem_of_singleton in Hk as ->. contradiction.
    + intros Hn. apply H2. intros k' Hk. apply Hn, elem_of_app. auto.
Qed.

Lemma setupkvm_loop_ok pgdir ks : forall done l s,
  kmem_inv kend l s -> dir_ok kend (k_mem s) pgdir l -> maps (k_mem s) pgdir done ->
  Forall entry_ok ks -> apart ks -> (forall k k', k ∈ done -> k' ∈ ks -> disj k k') ->
  exists ok ts l' s', setupkvm_loop ks pgdir s = Ret (ok, s') /\ l = ts ++ l' /\
    space_step kend pgdir ts l' s s' /\
    (if ok : bool then maps (k_mem s') pgdir (done ++ ks)
     else forall va, 0 <= va < KERNBASE -> pte_at (k_mem s') pgdir va = pte_at (k_mem s) pgdir va).
Proof.
  induction ks as [|k ks IH]; intros done l s Hinv Hdir Hm Hok Hap Hdis; cbn [setupkvm_loop].
  - exists true, [], l, s. rewrite app_nil_r. split; [reflexivity|]. split; [reflexivity|].
    split; [apply space_step_refl; assumption|exact Hm].
  - apply Forall_cons in Hok as [Hk Hok]. destruct Hap as [Hap1 Hap].
    pose proof (entry_npages k Hk) as Hn. pose proof Hk as [Hv Hp [Hs Hsa] Hve Hpe Hkb Hpm].
    fold (ksize k).
    destruct (mappages_ok kend pgdir (virt k) (ksize k) (phys_start k) (kperm k) l s)
      as (r & n & ts & l1 & s1 & H1 & -> & Hs1 & Hr & Hpte); auto.
    + apply Hv.
    + rewrite Hn. pose proof (Z.div_mod (ksize k) 4096). lia.
    + intros va Hva. rewrite Hn in Hva.
      assert (0 <= va < 2 ^ 32).
      { apply vpn_range. pose proof (proj1 (vpn_range (virt k)) (proj1 Hv)).
        pose proof (Z.div_mod (ksize k) 4096). destruct Hv as [Hv Hva'].
        pose proof (vpn_aligned (virt k) Hva'). lia. }
      rewrite (proj2 (Hm va ltac:(assumption))); [apply has_0|].
      intros k' Hk' Hc. apply (Hdis k' k Hk' (list_elem_of_here _ _) va Hc Hva).
    + rewrite (bind_step _ _ _ _ _ H1). destruct Hr as [[-> ->]|(-> & -> & Hnr)]; cbn [Z.ltb Z.compare].
      * destruct (IH (done ++ [k]) l1 s1) as (ok & ts' & l' & s' & H2 & -> & Hs2 & Hres);
          auto; try apply Hs1.
        -- eapply maps_step; eauto. intros k' Hk'. apply Hdis; [exact Hk'|left].
        -- intros k' k2 [Hk'|Hk']%elem_of_app Hk2; [apply Hdis; [exact Hk'|right; exact Hk2]|].
           apply list_elem_of_singleton in Hk' as ->. auto.
        -- exists ok, (ts ++ ts'), l', s'. split; [exact H2|]. split; [apply app_assoc|].
           split; [eapply space_step_trans; eauto|]. destruct ok; [rewrite <- app_assoc in Hres; exact Hres|].
           intros va Hva. rewrite Hres, Hpte by (unfold KERNBASE in *; lia). apply map_upd_user; assumption.
      * exists false, ts, [], s1. split; [reflexivity|]. split; [reflexivity|]. split; [exact Hs1|].
        intros va Hva. rewrite Hpte by (unfold KERNBASE in *; lia). apply map_upd_user; assumption.
Qed.

(** ** [setupkvm] *)

(** What the linker script and the firmware provide. *)
Record kmap_ok : Prop := mkkmap_ok {
  ko_data : pa_ok kdata /\ KERNLINK < kdata < KERNBASE + PHYSTOP;
  ko_vsize : 0 < vram_size gpu0 <= 0x2E000000 /\ vram_size gpu0 mod 4096 = 0;
  ko_vram : pa_ok (pvram_addr gpu0) /\ pvram_addr gpu0 + vram_size gpu0 <= 2 ^ 32 }.

(** An entry of [n] pages from page [v] to physical page [p]. *)
Definition region (k : kmap_entry) (v p n : Z) : Prop :=
  virt k = v * 4096 /\ phys_start k = p * 4096 /\ ksize k = n * 4096.

Lemma region_ok k v p n : region k v p n -> 0 < n -> 524288 <= v -> v + n <= 1048576 ->
  0 <= p -> p + n <= 1048576 -> 0 <= kperm k < 4096 -> entry_ok k.
Proof.
  intros (Hv & Hp & Hs) Hn H1 H2 H3 H4 Hperm.
  split; rewrite ?Hv, ?Hp, ?Hs; unfold pa_ok, KERNBASE; rewrite ?Z.mod_mul by lia; lia.
Qed.

Lemma region_covers k v p n va : region k v p n -> covers k va <-> v <= vpn va < v + n.
Proof. intros (Hv & _ & Hs). unfold covers. rewrite Hv, Hs, vpn_mul, Z.div_mul by lia. reflexivity. Qed.

Lemma kmap_regions : kmap_ok -> exists d p n, exists k1 k2 k3 k4 k5 k6,
  kmap kdata gpu0 = [k1; k2; k3; k4; k5; k6] /\
  region k1 524288 0 256 /\ region k2 524544 256 (d - 524544) /\
  region k3 d (d - 524288) (655360 - d) /\ region k4 (1040384 - n) p n /\
  region k5 786432 524288 65536 /\ region k6 1040384 1040384 8192 /\
  Forall (fun k => 0 <= kperm k < 4096) [k1; k2; k3; k4; k5; k6] /\
  524544 < d < 655360 /\ 0 < n <= 188416 /\ 0 <= p /\ p + n <= 1048576.
Proof.
  intros [[[Hd1 Hd2] Hd] [Hv Hvm] [[Hp1 Hp2] Hp]]. unfold KERNLINK, KERNBASE, EXTMEM, PHYSTOP in *.
  pose proof (vpn_aligned _ Hd2) as Ed. pose proof (vpn_aligned _ Hvm) as Ev. pose proof (vpn_aligned _ Hp2) as Ep.
  set (d := vpn kdata) in *. set (n := vpn (vram_size gpu0)) in *. set (p := vpn (pvram_addr gpu0)) in *.
  exists d, p, n. do 6 eexists. split; [reflexivity|]. unfold region, ksize.
  cbn [virt phys_start phys_end kperm].
  change (V2P KERNLINK) with 0x100000. change (u32 (PCI_BAR_BASE + PCI_VP_OFFSET)) with 0xC0000000.
  assert (V2P kdata = kdata - 0x80000000) as -> by (unfold V2P, KERNBASE; apply u32_small; lia).
  assert (u32 (DEVSPACE - vram_size gpu0) = 0xFE000000 - vram_size gpu0) as ->
    by (unfold DEVSPACE; apply u32_small; lia).
  assert (u32 (u32 (pvram_addr gpu0 + vram_size gpu0) - pvram_addr gpu0) = vram_size gpu0) as ->.
  { unfold u32. rewrite Zminus_mod_idemp_l.
    replace (pvram_addr gpu0 + vram_size gpu0 - pvram_addr gpu0) with (vram_size gpu0) by lia.
    apply Z.mod_small. lia. }
  rewrite !(u32_small (_ - _)) by (cbv [EXTMEM PHYSTOP] in *; lia).
  unfold EXTMEM, KERNBASE, PHYSTOP, KERNLINK.
  repeat split; try reflexivity; try lia.
  repeat constructor; cbn [kperm]; unfold PTE_W; lia.
Qed.

Lemma kmap_entries : kmap_ok -> Forall entry_ok (kmap kdata gpu0) /\ apart (kmap kdata gpu0).
Proof.
  intros H. destruct (kmap_regions H) as
    (d & p & n & k1 & k2 & k3 & k4 & k5 & k6 & -> & R1 & R2 & R3 & R4 & R5 & R6 & Hperm & Hd & Hn & Hp0 & Hp).
  rewrite !Forall_cons in Hperm. destruct Hperm as (P1 & P2 & P3 & P4 & P5 & P6 & _).
  split.
  - repeat (apply Forall_cons; split); [eapply region_ok; eauto; lia..|constructor].
  - repeat split; try (intros k' Hk'; rewrite ?elem_of_cons, elem_of_nil in Hk';
      destruct_or? Hk'; try contradiction; subst k'; intros va;
      erewrite !region_covers by eassumption; lia).
Qed.

(** A zeroed page as an empty directory. *)
Lemma empty_dir p m l : page_ok kend p -> p ∉ l ->
  dir_ok kend (zero_fill p m) p l /\ (forall q, table_page (zero_fill p m) p q <-> q = p) /\
  (forall va, pte_at (zero_fill p m) p va = 0) /\ maps (zero_fill p m) p [].
Proof.
  intros Hp Hpl.
  assert (Hz : forall i, 0 <= i < 1024 -> pde_at (zero_fill p m) p i = 0)
    by (intros i Hi; apply ld32_memset_zero; unfold PGSIZE; lia).
  assert (Hpt : forall va, pte_at (zero_fill p m) p va = 0)
    by (intros va; unfold pte_at; rewrite Hz by apply PDX_range; rewrite has_0; reflexivity).
  split; [split; auto|split; [|split; [exact Hpt|]]].
  - intros i Hi. rewrite Hz, has_0 by exact Hi. discriminate.
  - intros i j Hi Hj. rewrite Hz, has_0 by exact Hi. discriminate.
  - intros q. unfold table_page. split; [|auto]. intros [?|(i & Hi & Hpi & _)]; [assumption|].
    rewrite Hz, has_0 in Hpi by exact Hi. discriminate.
  - intros va Hva. split; [intros k Hk%elem_of_nil; contradiction|auto].
Qed.

Lemma no_user_ok m pgdir l : dir_ok kend m pgdir l ->
  (forall va, 0 <= va < KERNBASE -> pte_at m pgdir va = 0) -> uvm_ok kend m pgdir l.
Proof.
  intros Hd Hz. assert (Hn : forall va, ~ present m pgdir va)
    by (intros va [Hr Hv]; rewrite Hz, has_0 in Hv by exact Hr; discriminate).
  split; [exact Hd| |]; intros va; [intros Hv|intros va' Hv]; destruct (Hn _ Hv).
Qed.

(** What [setupkvm] does: a new directory with exactly the kernel's mappings,
    made of pages [d :: ts] from the free list; or, for lack of pages, nothing. *)
Definition setup_result (l : list Z) (s : kmem) (o : outcome (Z * kmem)) : Prop :=
  (exists d ts l' s', o = Ret (d, s') /\ l = d :: ts ++ l' /\ page_ok kend d /\
     kmem_inv kend l' s' /\ use_lock s' = use_lock s /\ uvm_ok kend (k_mem s') d l' /\
     maps (k_mem s') d (kmap kdata gpu0) /\
     (forall q, table_page (k_mem s') d q <-> q = d \/ q ∈ ts) /\
     forall a, (forall q, q = d \/ q ∈ ts -> ~ in_page a q) -> ldb (k_mem s') a = ldb (k_mem s) a) \/
  (exists l' s', o = Ret (0, s') /\ kmem_inv kend l' s' /\ use_lock s' = use_lock s /\
     (forall q, q ∈ l' <-> q ∈ l) /\
     forall a, (forall q, q ∈ l -> ~ in_page a q) -> ldb (k_mem s') a = ldb (k_mem s) a).

(** [freevm] on a directory without user pages gives back its tables. *)
Lemma setup_undo d (ts l : list Z) s : KERNBASE < kend -> kmem_inv kend l s -> dir_ok kend (k_mem s) d l ->
  (forall va, 0 <= va < KERNBASE -> pte_at (k_mem s) d va = 0) ->
  (forall q, table_page (k_mem s) d q <-> q = d \/ q ∈ ts) ->
  exists l' s', freevm kend d s = Ret (tt, s') /\ kmem_inv kend l' s' /\ use_lock s' = use_lock s /\
    (forall q, q ∈ l' <-> q ∈ l \/ q = d \/ q ∈ ts) /\
    forall a, (forall q, q = d \/ q ∈ ts -> ~ in_page a q) -> ldb (k_mem s') a = ldb (k_mem s) a.
Proof.
  intros Hk Hi Hd Hz Ht.
  destruct (freevm_ok kend d l s Hk Hi (no_user_ok _ _ _ Hd Hz)) as (l3 & s3 & H3 & Hi3 & Hl3 & Hf3 & Hm3).
  assert (Hsp : forall q, space_page (k_mem s) d q <-> q = d \/ q ∈ ts).
  { intros q. rewrite <- Ht. unfold space_page. split; [|auto].
    intros [?|(va & [Hr Hv] & _)]; [assumption|]. rewrite Hz, has_0 in Hv by exact Hr. discriminate. }
  exists l3, s3. split; [exact H3|]. split; [exact Hi3|]. split; [exact Hl3|].
  split; [intros q; rewrite Hf3, Hsp; reflexivity|].
  intros a Ha. apply Hm3. intros q Hq. apply Ha, Hsp, Hq.
Qed.

Lemma setupkvm_ok l s : KERNBASE < kend -> kmap_ok -> kmem_inv kend l s ->
  setup_result l s (setupkvm kend kdata gpu0 s).
Proof.
  intros Hk Hko Hinv. destruct (kmap_entries Hko) as [Hent Hapart]. unfold setupkvm. destruct l as [|d l].
  - right. destruct (kalloc_nil kend s Hinv) as (s1 & H1 & Hi1 & Hm1 & Hl1).
    rewrite (bind_step _ _ _ _ _ H1). exists [], s1. rewrite Hm1. do 4 (split; [auto; reflexivity|]). auto.
  - destruct (kalloc_cons kend d l s Hinv) as (s1 & H1 & Hi1 & Hm1 & Hl1).
    assert (Hd : page_ok kend d) by (apply (kmem_inv_pages _ _ _ Hinv); left).
    assert (Hdl : d ∉ l) by (destruct Hinv as (_ & Hnd & _); apply NoDup_cons in Hnd; tauto).
    pose proof (page_ok_pos _ _ Hd). rewrite (bind_step _ _ _ _ _ H1). case_if; [lia|].
    rewrite (bind_step _ _ _ _ _ (mset_eq _ _ _ _)). change (P2V PHYSTOP >? DEVSPACE) with false. cbv iota.
    fold (zero_fill d (k_mem s1)).
    destruct (empty_dir d (k_mem s1) l Hd Hdl) as (Hdir & Htab & Hpt & Hmaps).
    destruct (setupkvm_loop_ok d (kmap kdata gpu0) [] l (set_mem (zero_fill d (k_mem s1)) s1))
      as (ok & ts & l' & s2 & H2 & -> & Hs2 & Hres); auto.
    { apply kmem_inv_frame; [exact Hi1|]. intros q a Hq Ha. apply zero_fill_out. intros Ha'.
      apply (pages_apart kend q d a); auto; [apply (kmem_inv_pages _ _ _ Hi1 _ Hq)|congruence]. }
    { intros k k' Hkk%elem_of_nil. contradiction. }
    rewrite (bind_step _ _ _ _ _ H2). destruct Hs2 as [Hi2 Hd2 Hl2 Ht2 Hm2]. cbn [k_mem set_mem use_lock] in *.
    assert (Ht : forall q, table_page (k_mem s2) d q <-> q = d \/ q ∈ ts)
      by (intros q; rewrite Ht2, Htab; reflexivity).
    assert (Hfr : forall a, (forall q, q = d \/ q ∈ ts -> ~ in_page a q) -> ldb (k_mem s2) a = ldb (k_mem s) a).
    { intros a Ha. rewrite Hm2 by (intros q Hq; apply Ha, Ht, Hq). rewrite zero_fill_out, Hm1; auto. }
    destruct ok.
    + left. exists d, ts, l', s2. split; [reflexivity|]. split; [reflexivity|]. split; [exact Hd|].
      split; [exact Hi2|]. split; [congruence|].
      split; [apply no_user_ok; [exact Hd2|]; intros va Hva; apply (maps_user _ _ _ _ Hres Hent Hva)|auto].
    + right.
      destruct (setup_undo d ts l' s2) as (l3 & s3 & H3 & Hi3 & Hl3 & Hf3 & Hm3); auto.
      { intros va Hva. rewrite Hres by exact Hva. apply Hpt. }
      rewrite (bind_step _ _ _ _ _ H3). exists l3, s3. split; [reflexivity|]. split; [exact Hi3|].
      split; [congruence|]. split; [intros q; rewrite Hf3, elem_of_cons, elem_of_app; tauto|].
      intros a Ha. rewrite Hm3, Hfr; [reflexivity| |]; intros q Hq; apply Ha;
        rewrite elem_of_cons, elem_of_app; tauto.
Qed.
End Kvm.
