(* ===== verification/Copyuvm.v ===== *)
(** * Copying an address space

    Theorems about [copyuvm] ([src/xv6/vm.c], as modelled in [Vm]), the heart
    of [fork]: the child's pages are fresh, carry the same bytes and flags as
    the parent's, and the parent is not touched. *)

From S2P Require Import Prelude Mem Mmu Spinlock Kalloc Vm Uvm Ualloc Kvm.
Local Open Scope Z_scope.

Section Copyuvm.
Context (kend kdata : Z) (gpu0 : gpu).

Lemma copy_fill_out src p m b : ~ in_page b p -> ldb (copy_fill src p m) b = ldb m b.
Proof.
  intros H. unfold copy_fill, in_page in *. rewrite ldb_memmove by (unfold PGSIZE; lia).
  case_if; [unfold PGSIZE in *; lia|reflexivity].
Qed.

Lemma copy_fill_in src p m k : 0 <= k < 4096 -> ldb (copy_fill src p m) (p + k) = ldb m (src + k).
Proof.
  intros H. unfold copy_fill. rewrite ldb_memmove by (unfold PGSIZE; lia).
  case_if; [f_equal; lia|unfold PGSIZE in *; lia].
Qed.

(** The user page of [va] in [d] is a copy of the one in [pgdir]: same flags,
    same bytes. *)
Definition copy_of (m0 : mem) (pgdir : Z) (m : mem) (d va : Z) : Prop :=
  let v := pte_at m0 pgdir va in
  exists p, page_ok kend p /\ pte_at m d va = mk_pte (V2P p) (PTE_FLAGS v) /\
    forall k, 0 <= k < 4096 -> ldb m (p + k) = ldb m0 (ptpage v + k).

(** The first [i] pages are copied. [l0] are the pages that were free before. *)
Record copied (pgdir d i : Z) (l0 l : list Z) (s0 s : kmem) : Prop := mkcopied {
  cp_inv : kmem_inv kend l s;
  cp_lock : use_lock s = use_lock s0;
  cp_dst : uvm_ok kend (k_mem s) d l;
  cp_own : forall q, space_page (k_mem s) d q -> q ∈ l0;
  cp_sub : forall q, q ∈ l -> q ∈ l0;
  cp_pages : forall q, q ∈ l0 -> q ∈ l \/ space_page (k_mem s) d q;
  cp_done : forall va, vpn va < i -> present (k_mem s0) pgdir va -> copy_of (k_mem s0) pgdir (k_mem s) d va;
  cp_only : forall va, present (k_mem s) d va -> vpn va < i /\ present (k_mem s0) pgdir va;
  cp_kern : forall va k, KERNBASE <= va < 2 ^ 32 -> k ∈ kmap kdata gpu0 -> covers k va ->
    pte_at (k_mem s) d va = entry_pte k va;
  cp_frame : forall a, (forall q, q ∈ l0 -> ~ in_page a q) -> ldb (k_mem s) a = ldb (k_mem s0) a }.

Section Step.
Context (pgdir d i a : Z) (l0 : list Z) (s0 : kmem).
Context (Hi0 : kmem_inv kend l0 s0) (Hu0 : uvm_ok kend (k_mem s0) pgdir l0).

Lemma source_frame l s q b : copied pgdir d i l0 l s0 s -> space_page (k_mem s0) pgdir q -> in_page b q ->
  ldb (k_mem s) b = ldb (k_mem s0) b.
Proof.
  intros Hcp Hq Hb. apply (cp_frame _ _ _ _ _ _ _ Hcp). intros q' Hq' Hb'.
  pose proof (kmem_inv_pages _ _ _ Hi0 _ Hq') as Hok'.
  assert (page_ok kend q /\ q ∉ l0) as [Hok Hn].
  { destruct Hq as [Ht|(va & Hv & ->)]; [apply (table_page_ok _ _ _ _ _ (uvm_dir _ _ _ _ Hu0) Ht)|].
    destruct (uvm_frame _ _ _ _ Hu0 va Hv) as (? & ? & _). auto. }
  apply (pages_apart kend q q' b); auto. congruence.
Qed.

(** The parent's entries are still there. *)
Lemma source_pte l s va : copied pgdir d i l0 l s0 s -> pte_at (k_mem s) pgdir va = pte_at (k_mem s0) pgdir va.
Proof. intros Hcp. apply pte_at_frame. intros q b Hq. apply (source_frame l); [exact Hcp|left; exact Hq]. Qed.

Lemma source_pde l s j : copied pgdir d i l0 l s0 s -> 0 <= j < 1024 ->
  pde_at (k_mem s) pgdir j = pde_at (k_mem s0) pgdir j.
Proof. intros Hcp Hj. apply pde_at_frame; [exact Hj|]. intros b. apply (source_frame l); [exact Hcp|].
  left. left. reflexivity. Qed.

(** A page without a user entry is skipped. *)
Lemma copied_skip l s : copied pgdir d i l0 l s0 s ->
  (forall va, vpn va = i -> ~ present (k_mem s0) pgdir va) -> copied pgdir d (i + 1) l0 l s0 s.
Proof.
  intros [] Hn. split; auto.
  - intros va Hv Hp. destruct (Z.eq_dec (vpn va) i); [destruct (Hn va); auto|]. auto with lia.
  - intros va Hp. destruct (cp_only0 va Hp). auto with lia.
Qed.

Section Copy.
Context (p : Z) (ts l : list Z) (s s' : kmem).
Local Notation v := (pte_at (k_mem s0) pgdir a).
Context (Hcp : copied pgdir d i l0 (p :: ts ++ l) s0 s).
Context (Hai : a = i * 4096) (Ha : present (k_mem s0) pgdir a).
Context (Hg : grow kend (copy_fill (ptpage v)) d a p (PTE_FLAGS v) 0 ts l s s').

Lemma dst_absent : ~ present (k_mem s) d a.
Proof. intros Hp. destruct (cp_only _ _ _ _ _ _ _ Hcp a Hp) as [Hv _]. rewrite Hai, vpn_mul in Hv. lia. Qed.

Lemma copy_pages : page_ok kend p /\ Forall (page_ok kend) ts.
Proof.
  pose proof (kmem_inv_pages _ _ _ (cp_inv _ _ _ _ _ _ _ Hcp)) as Hok. split; [apply Hok; left|].
  apply Forall_forall. intros q Hq. apply Hok. right. apply elem_of_app. auto.
Qed.

Lemma copy_pte va : 0 <= va < 2 ^ 32 ->
  pte_at (k_mem s') d va = if vpn va =? i then mk_pte (V2P p) (PTE_FLAGS v) else pte_at (k_mem s) d va.
Proof.
  intros Hva. rewrite (gr_pte _ _ _ _ _ _ _ _ _ _ _ Hg va Hva). rewrite Hai, vpn_mul. reflexivity.
Qed.

Lemma copy_new : copy_of (k_mem s0) pgdir (k_mem s') d a.
Proof.
  exists p. split; [apply copy_pages|].
  split; [rewrite copy_pte, Hai, vpn_mul, Z.eqb_refl by (eapply present_range, Ha); reflexivity|].
  intros k Hk. rewrite (gr_page _ _ _ _ _ _ _ _ _ _ _ Hg) by (unfold in_page, PGSIZE; lia).
  rewrite copy_fill_in by exact Hk.
  apply (source_frame (p :: ts ++ l) s (ptpage v)); [exact Hcp|right; eauto|unfold in_page, PGSIZE; lia].
Qed.

Lemma copy_old va : vpn va < i -> present (k_mem s0) pgdir va -> copy_of (k_mem s0) pgdir (k_mem s') d va.
Proof.
  intros Hv Hp. destruct (cp_done _ _ _ _ _ _ _ Hcp va Hv Hp) as (q & Hq & Hpte & Hd).
  pose proof (present_range _ _ _ Hp) as Hr. exists q. split; [exact Hq|].
  rewrite copy_pte by exact Hr. destruct (Z.eqb_spec (vpn va) i); [lia|]. split; [exact Hpte|].
  intros k Hk. rewrite <- (Hd k Hk).
  apply (grow_contents _ _ _ _ _ _ _ _ _ _ _ va (q + k) Hg (cp_dst _ _ _ _ _ _ _ Hcp));
    [apply copy_pages|apply copy_pages| |].
  - split; [apply Hp|]. rewrite Hpte. apply mk_pte_present.
  - rewrite Hpte, (ptpage_mk kend); [unfold in_page, PGSIZE; lia|exact Hq|].
    rewrite PTE_FLAGS_arith. apply Z.mod_pos_bound. lia.
Qed.

Lemma copy_space q : space_page (k_mem s') d q <-> space_page (k_mem s) d q \/ q = p \/ q ∈ ts.
Proof.
  assert (Hpp : ptpage (mk_pte (V2P p) (PTE_FLAGS v)) = p).
  { apply (ptpage_mk kend); [apply copy_pages|]. rewrite PTE_FLAGS_arith. apply Z.mod_pos_bound. lia. }
  split.
  - intros [[Ht|Ht]%(gr_tables _ _ _ _ _ _ _ _ _ _ _ Hg)|(va & Hv & ->)]; [left; left; exact Ht|auto|].
    pose proof (present_range _ _ _ Hv) as Hr. unfold present in Hv. rewrite copy_pte in * by exact Hr.
    destruct (vpn va =? i); [auto|]. left. right. exists va. auto.
  - intros [Hs|[->|Ht]].
    + eapply grow_space_page; eauto; [apply Ha|apply dst_absent].
    + right. exists a. unfold present. rewrite copy_pte, Hai, vpn_mul, Z.eqb_refl, <- Hai, Hpp
        by (eapply present_range, Ha). split; [|reflexivity]. split; [apply Ha|apply mk_pte_present].
    + left. apply (gr_tables _ _ _ _ _ _ _ _ _ _ _ Hg). auto.
Qed.

Lemma copied_step : copied pgdir d (i + 1) l0 l s0 s'.
Proof.
  assert (Hin : forall q, q = p \/ q ∈ ts \/ q ∈ l -> q ∈ l0).
  { intros q Hq. apply (cp_sub _ _ _ _ _ _ _ Hcp). rewrite elem_of_cons, elem_of_app. exact Hq. }
  split; try (apply Hg).
  - rewrite (gr_lock _ _ _ _ _ _ _ _ _ _ _ Hg). apply Hcp.
  - intros q [Hq|Hq]%copy_space; [apply (cp_own _ _ _ _ _ _ _ Hcp), Hq|]. apply Hin. tauto.
  - intros q Hq. apply Hin. auto.
  - intros q Hq. rewrite copy_space. destruct (cp_pages _ _ _ _ _ _ _ Hcp q Hq) as [Hl|Hs]; [|auto].
    rewrite elem_of_cons, elem_of_app in Hl. tauto.
  - intros va Hv Hp. destruct (Z.eq_dec (vpn va) i) as [Heq|]; [|apply copy_old; auto with lia].
    assert (Heq' : forall m g, pte_at m g va = pte_at m g a).
    { intros m g. apply pte_at_vpn; [eapply present_range, Hp|eapply present_range, Ha|].
      rewrite Hai, vpn_mul. exact Heq. }
    pose proof copy_new as Hc. unfold copy_of in *. rewrite !Heq'. exact Hc.
  - intros va Hp. pose proof (present_range _ _ _ Hp) as Hr. destruct Hp as [Hr' Hp].
    rewrite copy_pte in Hp by exact Hr. destruct (Z.eqb_spec (vpn va) i) as [Heq|Hne].
    + split; [lia|]. split; [exact Hr'|]. rewrite (pte_at_vpn _ _ va a); [apply Ha|exact Hr|eapply present_range, Ha|].
      rewrite Hai, vpn_mul. exact Heq.
    + destruct (cp_only _ _ _ _ _ _ _ Hcp va (conj Hr' Hp)). auto with lia.
  - intros va k Hva Hk Hc. rewrite copy_pte by (unfold KERNBASE in Hva; lia).
    destruct (Z.eqb_spec (vpn va) i) as [Heq|_]; [|eapply (cp_kern _ _ _ _ _ _ _ Hcp); eauto].
    exfalso. destruct Ha as [Har _]. unfold vpn, KERNBASE in *.
    pose proof (Z.div_mod va 4096). pose proof (Z.mod_pos_bound va 4096). lia.
  - intros b Hb.
    rewrite (gr_frame _ _ _ _ _ _ _ _ _ _ _ Hg), (cp_frame _ _ _ _ _ _ _ Hcp); [reflexivity|exact Hb| |].
    + apply Hb, Hin. auto.
    + intros q [Hq|Hq]%(gr_tables _ _ _ _ _ _ _ _ _ _ _ Hg); apply Hb; [|apply Hin; auto].
      apply (cp_own _ _ _ _ _ _ _ Hcp). left. exact Hq.
Qed.
End Copy.
End Step.

(** The state at [goto bad]: a partly built directory [d], and the pages
    [leaked], which nobody owns any more. *)
Record bad (d : Z) (l0 l leaked : list Z) (s0 s : kmem) : Prop := mkbad {
  bad_inv : kmem_inv kend l s;
  bad_lock : use_lock s = use_lock s0;
  bad_dst : uvm_ok kend (k_mem s) d l;
  bad_leak : (length leaked <= 1)%nat;
  bad_pages : forall q, q ∈ l0 <-> q ∈ l \/ space_page (k_mem s) d q \/ q ∈ leaked;
  bad_frame : forall a, (forall q, q ∈ l0 -> ~ in_page a q) -> ldb (k_mem s) a = ldb (k_mem s0) a }.

Lemma copied_bad pgdir d i l0 s0 s s1 :
  copied pgdir d i l0 [] s0 s -> kmem_inv kend [] s1 -> k_mem s1 = k_mem s -> use_lock s1 = use_lock s ->
  bad d l0 [] [] s0 s1.
Proof.
  intros Hcp Hi Hm Hl. split; rewrite ?Hm; try apply Hcp; auto.
  - rewrite Hl. apply Hcp.
  - intros q. rewrite !elem_of_nil. split.
    + intros Hq. destruct (cp_pages _ _ _ _ _ _ _ Hcp q Hq) as [?%elem_of_nil|?]; auto.
    + intros [[]|[Hs|[]]]. apply (cp_own _ _ _ _ _ _ _ Hcp), Hs.
Qed.

Lemma grow_bad fill pgdir d a p perm i ts l0 s0 s s' :
  copied pgdir d i l0 (p :: ts ++ []) s0 s -> 0 <= a < KERNBASE -> ~ present (k_mem s) d a ->
  grow kend fill d a p perm (-1) ts [] s s' -> bad d l0 [] [p] s0 s'.
Proof.
  intros Hcp Ha Hna Hg. split; try apply Hg; auto.
  - rewrite (gr_lock _ _ _ _ _ _ _ _ _ _ _ Hg). apply Hcp.
  - intros q. rewrite list_elem_of_singleton, elem_of_nil.
    assert (Hs : space_page (k_mem s') d q <-> space_page (k_mem s) d q \/ q ∈ ts).
    { split.
      - intros [[?|?]%(gr_tables _ _ _ _ _ _ _ _ _ _ _ Hg)|(va & Hv & ->)]; [left; left; assumption|auto|].
        left. right. exists va. pose proof (present_range _ _ _ Hv) as Hr. unfold present in *.
        rewrite (gr_pte _ _ _ _ _ _ _ _ _ _ _ Hg va Hr) in *. auto.
      - intros [?|?]; [eapply grow_space_page; eauto|]. left.
        apply (gr_tables _ _ _ _ _ _ _ _ _ _ _ Hg). auto. }
    rewrite Hs. split.
    + intros Hq. destruct (cp_pages _ _ _ _ _ _ _ Hcp q Hq) as [Hin|?]; [|auto].
      rewrite elem_of_cons, elem_of_app, elem_of_nil in Hin. tauto.
    + intros [[]|[[Hq|Hq]|Hq]]; [apply (cp_own _ _ _ _ _ _ _ Hcp), Hq|..];
        apply (cp_sub _ _ _ _ _ _ _ Hcp); rewrite elem_of_cons, elem_of_app; auto.
  - intros b Hb. assert (Hin : forall q, q = p \/ q ∈ ts -> q ∈ l0)
      by (intros q Hq; apply (cp_sub _ _ _ _ _ _ _ Hcp); rewrite elem_of_cons, elem_of_app; tauto).
    rewrite (gr_frame _ _ _ _ _ _ _ _ _ _ _ Hg), (cp_frame _ _ _ _ _ _ _ Hcp); [reflexivity|exact Hb| |].
    + apply Hb, Hin. auto.
    + intros q [Hq|Hq]%(gr_tables _ _ _ _ _ _ _ _ _ _ _ Hg); apply Hb; [|apply Hin; auto].
      apply (cp_own _ _ _ _ _ _ _ Hcp). left. exact Hq.
Qed.

Section Loop.
Context (pgdir d : Z) (l0 : list Z) (s0 : kmem).
Context (Hi0 : kmem_inv kend l0 s0) (Hu0 : uvm_ok kend (k_mem s0) pgdir l0).

(** One iteration: the page is copied, or skipped, or the loop fails. *)
Lemma copyuvm_iter n i l s : 0 <= i < 524288 -> copied pgdir d i l0 l s0 s ->
  (exists l' s', copyuvm_loop (S n) pgdir d (i * 4096) s = copyuvm_loop n pgdir d (i * 4096 + PGSIZE) s' /\
     copied pgdir d (i + 1) l0 l' s0 s') \/
  (exists l' leaked s', copyuvm_loop (S n) pgdir d (i * 4096) s = Ret (false, s') /\
     bad d l0 l' leaked s0 s').
Proof.
  intros Hir Hcp. set (a := i * 4096). cbn [copyuvm_loop].
  assert (Har : 0 <= a < KERNBASE) by (unfold a, KERNBASE; lia).
  assert (Hskip : has (pte_at (k_mem s0) pgdir a) PTE_P = false -> copied pgdir d (i + 1) l0 l s0 s).
  { intros Hn. apply copied_skip; [exact Hcp|]. intros va Hv [Hr Hp].
    rewrite (pte_at_vpn _ _ va a) in Hp by (unfold KERNBASE in *; lia || (unfold a; rewrite vpn_mul; exact Hv)).
    congruence. }
  rewrite (bind_step _ _ _ _ _ (walk_ro _ _ _)). cbv zeta.
  pose proof (source_pde pgdir d i l0 s0 Hi0 Hu0 _ _ (PDX a) Hcp (PDX_range a)) as Hpde. rewrite Hpde.
  destruct (has (pde_at (k_mem s0) pgdir (PDX a)) PTE_P) eqn:Ep.
  2: { left. exists l, s. split; [reflexivity|]. apply Hskip. unfold pte_at. rewrite Ep. apply has_0. }
  pose proof (pte_addr_pos _ _ _ _ _ (uvm_dir _ _ _ _ Hu0) Ep). case_if; [lia|].
  rewrite <- Hpde. erewrite bind_step by (apply ld_pte; rewrite Hpde; exact Ep).
  rewrite (source_pte pgdir d i l0 s0 Hi0 Hu0 l s a Hcp).
  destruct (has (pte_at (k_mem s0) pgdir a) PTE_P) eqn:Ea; cbn [negb].
  2: { left. exists l, s. auto. }
  assert (Hna : ~ present (k_mem s) d a).
  { intros Hp. destruct (cp_only _ _ _ _ _ _ _ Hcp a Hp) as [Hv _]. unfold a in Hv. rewrite vpn_mul in Hv. lia. }
  destruct l as [|p l].
  - right. destruct (kalloc_nil kend s (cp_inv _ _ _ _ _ _ _ Hcp)) as (s1 & H1 & Hi1 & Hm1 & Hl1).
    rewrite (bind_step _ _ _ _ _ H1). exists [], [], s1. split; [reflexivity|]. eapply copied_bad; eauto.
  - destruct (alloc_page kend (copy_fill (ptpage (pte_at (k_mem s0) pgdir a))) d a
      (PTE_FLAGS (pte_at (k_mem s0) pgdir a)) p l s) as
      (s1 & r & ts & l' & s2 & H1 & Hp0 & -> & Hm1 & H2 & Hg); auto.
    { intros. apply copy_fill_out. assumption. }
    { apply Hcp. } { apply Hcp. }
    { rewrite PTE_FLAGS_arith. apply Z.mod_pos_bound. lia. }
    { unfold a. apply Z.mod_mul. lia. }
    rewrite (bind_step _ _ _ _ _ H1), Hp0, (bind_step _ _ _ _ _ (mmove_eq _ _ _ _)), (bind_step _ _ _ _ _ H2).
    destruct (gr_result _ _ _ _ _ _ _ _ _ _ _ Hg) as [->|[-> ->]]; cbn [Z.ltb Z.compare].
    + left. exists l', s2. split; [reflexivity|]. eapply copied_step; eauto. split; assumption.
    + right. exists [], [p], s2. split; [reflexivity|]. eapply grow_bad; eauto.
Qed.

Lemma copyuvm_loop_ok n : forall i l s, 0 <= i -> i + Z.of_nat n = 524288 -> copied pgdir d i l0 l s0 s ->
  (exists l' s', copyuvm_loop n pgdir d (i * 4096) s = Ret (true, s') /\ copied pgdir d 524288 l0 l' s0 s') \/
  (exists l' leaked s', copyuvm_loop n pgdir d (i * 4096) s = Ret (false, s') /\ bad d l0 l' leaked s0 s').
Proof.
  induction n as [|n IH]; intros i l s Hi Hn Hcp.
  - left. exists l, s. split; [reflexivity|]. replace 524288 with i by lia. exact Hcp.
  - destruct (copyuvm_iter n i l s) as [(l' & s' & -> & Hcp')|Hbad]; [lia|exact Hcp| |auto].
    replace (i * 4096 + PGSIZE) with ((i + 1) * 4096) by (unfold PGSIZE; lia).
    eapply IH; eauto; lia.
Qed.
End Loop.

(** What [copyuvm] does. *)
Definition copy_result (pgdir : Z) (l0 : list Z) (s0 : kmem) (o : outcome (Z * kmem)) : Prop :=
  (exists d l s, o = Ret (d, s) /\ page_ok kend d /\ copied pgdir d 524288 l0 l s0 s) \/
  (exists l leaked s, o = Ret (0, s) /\ kmem_inv kend l s /\ use_lock s = use_lock s0 /\
     (length leaked <= 1)%nat /\ (forall q, q ∈ l0 <-> q ∈ l \/ q ∈ leaked) /\
     forall a, (forall q, q ∈ l0 -> ~ in_page a q) -> ldb (k_mem s) a = ldb (k_mem s0) a).

Lemma copyuvm_ok pgdir sz l s : KERNBASE < kend -> kmap_ok kdata gpu0 -> kmem_inv kend l s ->
  uvm_ok kend (k_mem s) pgdir l -> copy_result pgdir l s (copyuvm kend kdata gpu0 pgdir sz s).
Proof.
  intros Hk Hko Hinv Hu. unfold copyuvm.
  destruct (setupkvm_ok kend kdata gpu0 l s Hk Hko Hinv) as
    [(d & ts & l' & s1 & H1 & -> & Hd & Hi1 & Hl1 & Hu1 & Hm1 & Ht1 & Hf1)|(l' & s1 & H1 & Hi1 & Hl1 & Hq1 & Hf1)];
    rewrite (bind_step _ _ _ _ _ H1).
  2: { right. exists l', [], s1. split; [reflexivity|]. split; [exact Hi1|]. split; [exact Hl1|].
       split; [cbn; lia|]. split; [|exact Hf1]. intros q. rewrite Hq1, elem_of_nil. tauto. }
  pose proof (page_ok_pos _ _ Hd). case_if; [lia|].
  destruct (kmap_entries kdata gpu0 Hko) as [Hent _].
  assert (Hz : forall va, 0 <= va < KERNBASE -> pte_at (k_mem s1) d va = 0)
    by (intros va Hva; eapply maps_user; eauto).
  assert (Hnp : forall va, ~ present (k_mem s1) d va)
    by (intros va [Hr Hv]; rewrite Hz, has_0 in Hv by exact Hr; discriminate).
  assert (Hsp : forall q, space_page (k_mem s1) d q <-> q = d \/ q ∈ ts).
  { intros q. rewrite <- Ht1. unfold space_page. split; [|auto]. intros [?|(va & Hv & _)]; [assumption|].
    destruct (Hnp va Hv). }
  assert (Hcp : copied pgdir d 0 (d :: ts ++ l') l' s s1).
  { split; auto.
    - intros q. rewrite Hsp, elem_of_cons, elem_of_app. tauto.
    - intros q Hq. rewrite elem_of_cons, elem_of_app. auto.
    - intros q. rewrite Hsp, elem_of_cons, elem_of_app. tauto.
    - intros va Hv [Hr _]. exfalso. pose proof (Z.div_pos va 4096). unfold vpn in Hv. lia.
    - intros va Hv. destruct (Hnp va Hv).
    - intros va k Hva Hkk Hc. eapply Hm1; eauto. unfold KERNBASE in Hva. lia.
    - intros a Ha. apply Hf1. intros q Hq. apply Ha. rewrite elem_of_cons, elem_of_app. tauto. }
  destruct (copyuvm_loop_ok pgdir d (d :: ts ++ l') s Hinv Hu (Z.to_nat (KERNBASE / PGSIZE)) 0 l' s1)
    as [(l2 & s2 & H2 & Hcp2)|(l2 & leaked & s2 & H2 & Hb2)]; [lia|reflexivity|exact Hcp| |];
    change (0 * 4096) with 0 in H2; rewrite (bind_step _ _ _ _ _ H2).
  - left. exists d, l2, s2. auto.
  - right. destruct Hb2 as [Hi2 Hl2 Hu2 Hlk Hpg2 Hf2].
    destruct (freevm_ok kend d l2 s2 Hk Hi2 Hu2) as (l3 & s3 & H3 & Hi3 & Hl3 & Hf3 & Hm3).
    rewrite (bind_step _ _ _ _ _ H3). exists l3, leaked, s3. split; [reflexivity|]. split; [exact Hi3|].
    split; [congruence|]. split; [exact Hlk|]. split; [intros q; rewrite Hpg2, Hf3; tauto|].
    intros a Ha. rewrite Hm3; [apply Hf2, Ha|]. intros q Hq. apply Ha, Hpg2. auto.
Qed.
End Copyuvm.
