(* ===== verification/Copyout.v ===== *)
(** * Copying to user memory

    Theorems about [uva2ka] and [copyout] ([src/xv6/vm.c], as modelled in
    [Vm]): user addresses are translated through the page tables, and a copy
    writes exactly the translated bytes. *)

From S2P Require Import Prelude Mem Mmu Spinlock Kalloc Vm Uvm Ualloc.
Local Open Scope Z_scope.

Section Copyout.
Context (kend : Z).

(** A user page the process may access. *)
Definition user_page (m : mem) (pgdir va : Z) : Prop :=
  present m pgdir va /\ has (pte_at m pgdir va) PTE_U = true.

(** The kernel address of the byte at user address [va]. *)
Definition uaddr (m : mem) (pgdir va : Z) : Z := ptpage (pte_at m pgdir va) + va mod 4096.

Lemma user_page_vpn m pgdir va va' : 0 <= va' < KERNBASE -> vpn va = vpn va' ->
  user_page m pgdir va -> user_page m pgdir va'.
Proof.
  intros Hr Hv [Hp Hu]. pose proof (present_range _ _ _ Hp). unfold user_page, present.
  rewrite (pte_at_vpn _ _ va' va) by (unfold KERNBASE in Hr; lia). split; [split; [exact Hr|apply Hp]|exact Hu].
Qed.

Lemma uaddr_inj m pgdir l va va' : uvm_ok kend m pgdir l -> user_page m pgdir va -> user_page m pgdir va' ->
  uaddr m pgdir va = uaddr m pgdir va' -> va = va'.
Proof.
  intros Hu [Hp _] [Hp' _] Heq. unfold uaddr in Heq.
  destruct (uvm_frame _ _ _ _ Hu va Hp) as (Hf & _), (uvm_frame _ _ _ _ Hu va' Hp') as (Hf' & _).
  pose proof (Z.mod_pos_bound va 4096). pose proof (Z.mod_pos_bound va' 4096).
  destruct (Z.eq_dec (ptpage (pte_at m pgdir va)) (ptpage (pte_at m pgdir va'))) as [He|Hne].
  - pose proof (uvm_inj _ _ _ _ Hu va va' Hp Hp' He) as Hv. unfold vpn in Hv.
    pose proof (Z.div_mod va 4096). pose proof (Z.div_mod va' 4096). lia.
  - pose proof (page_ok_disjoint _ _ _ Hf Hf' Hne) as Hd. unfold PGSIZE in Hd. lia.
Qed.

Lemma uva2ka_ok pgdir va l s : uvm_ok kend (k_mem s) pgdir l -> user_page (k_mem s) pgdir va ->
  uva2ka pgdir va s = Ret (ptpage (pte_at (k_mem s) pgdir va), s).
Proof.
  intros Hu [[Hr Hp] Hus]. unfold uva2ka. rewrite (bind_step _ _ _ _ _ (walk_ro _ _ _)). cbv zeta.
  destruct (has (pde_at (k_mem s) pgdir (PDX va)) PTE_P) eqn:Ep.
  - pose proof (pte_addr_pos _ _ _ _ _ (uvm_dir _ _ _ _ Hu) Ep). case_if; [lia|].
    rewrite (bind_step _ _ _ _ _ (ld_pte _ _ _ Ep)), Hp, Hus. reflexivity.
  - unfold pte_at in Hp. rewrite Ep, has_0 in Hp. discriminate.
Qed.

(** [m'] is [m] with [len] bytes from [buf] copied to user address [va]. *)
Definition copied_out (m m' : mem) (pgdir va buf len : Z) : Prop :=
  (forall k, 0 <= k < len -> ldb m' (uaddr m pgdir (va + k)) = ldb m (buf + k)) /\
  (forall a, (forall k, 0 <= k < len -> a <> uaddr m pgdir (va + k)) -> ldb m' a = ldb m a).

(** The bytes can be copied: the pages are there and the source is elsewhere. *)
Record out_ok (m : mem) (pgdir va buf len : Z) : Prop := mkout_ok {
  oo_range : 0 <= va /\ va + len <= KERNBASE;
  oo_page : forall k, 0 <= k < len -> user_page m pgdir (va + k);
  oo_src : forall k j, 0 <= k < len -> 0 <= j < len -> buf + k <> uaddr m pgdir (va + j) }.

Section Step.
Context (pgdir va buf len : Z) (l : list Z) (m : mem).
Context (Hu : uvm_ok kend m pgdir l) (Hok : out_ok m pgdir va buf len) (Hlen : 0 < len).
Local Notation off := (va mod 4096).
Local Notation n := (Z.min len (4096 - off)).
Local Notation m1 := (memmove m (ptpage (pte_at m pgdir va) + off) buf n).

Lemma step_off : 0 <= off < 4096 /\ 0 < n.
Proof. pose proof (Z.mod_pos_bound va 4096). lia. Qed.

Lemma step_uaddr k : 0 <= k < n -> uaddr m pgdir (va + k) = ptpage (pte_at m pgdir va) + off + k.
Proof.
  intros Hk. destruct Hok as [Hr _ _]. pose proof step_off. unfold uaddr.
  pose proof (Z.div_mod va 4096).
  replace (va + k) with (off + k + (va / 4096) * 4096) by lia.
  rewrite Z.mod_add, (Z.mod_small (off + k)) by lia.
  rewrite (pte_at_vpn _ _ (off + k + va / 4096 * 4096) va); [lia|unfold KERNBASE in Hr; lia..|].
  unfold vpn. rewrite Z.div_add, (Z.div_small (off + k)) by lia. lia.
Qed.

Lemma step_mem a : ldb m1 a =
  if (ptpage (pte_at m pgdir va) + off <=? a) && (a <? ptpage (pte_at m pgdir va) + off + n)
  then ldb m (buf + (a - (ptpage (pte_at m pgdir va) + off))) else ldb m a.
Proof. apply ldb_memmove. pose proof step_off. lia. Qed.

Lemma out_step_tables q a : table_page m pgdir q -> in_page a q -> ldb m1 a = ldb m a.
Proof.
  intros Hq Ha. rewrite step_mem. pose proof step_off as Ho.
  destruct (oo_page _ _ _ _ _ Hok 0) as [Hp _]; [lia|]. rewrite Z.add_0_r in Hp.
  destruct (uvm_frame _ _ _ _ Hu va Hp) as (Hf & _ & Ht).
  destruct (_ && _) eqn:E; [zbool|reflexivity].
  destruct (table_page_ok _ _ _ _ _ (uvm_dir _ _ _ _ Hu) Hq) as [Hqo _].
  exfalso. apply (pages_apart kend q _ a Hqo Hf); [congruence|exact Ha|unfold in_page, PGSIZE; lia].
Qed.

Lemma out_step_pte va' : pte_at m1 pgdir va' = pte_at m pgdir va'.
Proof. apply pte_at_frame, out_step_tables. Qed.

Lemma step_uvm : uvm_ok kend m1 pgdir l.
Proof. eapply uvm_ok_frame; [apply out_step_tables|exact Hu]. Qed.

Lemma step_out_ok : n < len -> out_ok m1 pgdir (va + n) (buf + n) (len - n).
Proof.
  intros Hlt. destruct Hok as [Hr Hp Hs]. pose proof step_off. split; [lia|..].
  - intros k Hk. unfold user_page, present. rewrite !out_step_pte. replace (va + n + k) with (va + (n + k)) by lia.
    apply Hp. lia.
  - intros k j Hk Hj. unfold uaddr. rewrite out_step_pte.
    replace (va + n + j) with (va + (n + j)) by lia. replace (buf + n + k) with (buf + (n + k)) by lia.
    apply Hs; lia.
Qed.

Lemma step_here : len <= n -> copied_out m m1 pgdir va buf len.
Proof.
  intros Hle. split.
  - intros k Hk. rewrite step_uaddr, step_mem by lia.
    destruct (_ && _) eqn:E; zbool; [f_equal; lia|lia].
  - intros a Ha. rewrite step_mem. destruct (_ && _) eqn:E; [zbool|reflexivity].
    destruct (Ha (a - (ptpage (pte_at m pgdir va) + off))); [lia|]. rewrite step_uaddr; lia.
Qed.

Lemma step_rest m2 : n < len -> copied_out m1 m2 pgdir (va + n) (buf + n) (len - n) ->
  copied_out m m2 pgdir va buf len.
Proof.
  intros Hlt [H1 H2]. pose proof Hok as [Hr Hp Hs]. pose proof step_off as Ho.
  assert (Hua : forall k, uaddr m1 pgdir (va + n + k) = uaddr m pgdir (va + (n + k)))
    by (intros k; unfold uaddr; rewrite out_step_pte; f_equal; f_equal; lia || (f_equal; lia)).
  assert (Hsrc : forall k, 0 <= k < len -> ldb m1 (buf + k) = ldb m (buf + k)).
  { intros k Hk. rewrite step_mem. destruct (_ && _) eqn:E; [zbool|reflexivity].
    destruct (Hs k (buf + k - (ptpage (pte_at m pgdir va) + off)) Hk); [lia|]. rewrite step_uaddr; lia. }
  split.
  - intros k Hk. destruct (Z_lt_dec k n) as [Hkn|Hkn].
    + rewrite H2; [rewrite step_uaddr, step_mem by lia; destruct (_ && _) eqn:E; zbool; [f_equal; lia|lia]|].
      intros j Hj. rewrite Hua. intros Heq. apply (uaddr_inj _ _ _ _ _ Hu) in Heq; [lia|apply Hp; lia..].
    + specialize (H1 (k - n)). rewrite Hua in H1. replace (n + (k - n)) with k in H1 by lia.
      rewrite H1 by lia. replace (buf + n + (k - n)) with (buf + k) by lia. apply Hsrc, Hk.
  - intros a Ha. rewrite H2.
    + rewrite step_mem. destruct (_ && _) eqn:E; [zbool|reflexivity].
      destruct (Ha (a - (ptpage (pte_at m pgdir va) + off))); [lia|]. rewrite step_uaddr; lia.
    + intros k Hk. rewrite Hua. apply Ha. lia.
Qed.
End Step.

Lemma PGROUNDDOWN_off va : 0 <= va < 2 ^ 32 -> va - PGROUNDDOWN va = va mod 4096.
Proof. intros H. rewrite PGROUNDDOWN_arith by exact H. pose proof (Z.div_mod va 4096). lia. Qed.

Lemma copyout_loop_ok pgdir fuel : forall va buf len l s,
  uvm_ok kend (k_mem s) pgdir l -> out_ok (k_mem s) pgdir va buf len -> 0 <= len ->
  (va mod 4096 + len + 4095) / 4096 < Z.of_nat fuel ->
  exists m', copyout_loop fuel pgdir va buf len s = Ret (0, set_mem m' s) /\
    copied_out (k_mem s) m' pgdir va buf len.
Proof.
  induction fuel as [|fuel IH]; intros va buf len l s Hu Hok Hlen Hf.
  { pose proof (Z.mod_pos_bound va 4096). pose proof (Z.div_pos (va mod 4096 + len + 4095) 4096). lia. }
  cbn [copyout_loop]. destruct (Z.eq_dec len 0) as [->|Hnz].
  { exists (k_mem s). split; [destruct s; reflexivity|]. split; [intros; lia|auto]. }
  pose proof (oo_range _ _ _ _ _ Hok) as Hr. assert (Hva : 0 <= va < 2 ^ 32) by (unfold KERNBASE in Hr; lia).
  destruct (oo_page _ _ _ _ _ Hok 0) as [Hp HU]; [lia|]. rewrite Z.add_0_r in Hp, HU.
  assert (Hv0 : vpn (PGROUNDDOWN va) = vpn va) by (rewrite PGROUNDDOWN_arith by exact Hva; apply vpn_mul).
  pose proof (PGROUNDDOWN_bounds va Hva) as Hb.
  assert (Hup : user_page (k_mem s) pgdir (PGROUNDDOWN va))
    by (apply (user_page_vpn _ _ va); [unfold KERNBASE in *; lia|auto|split; assumption]).
  case_if; [lia|]. cbv zeta. rewrite (bind_step _ _ _ _ _ (uva2ka_ok _ _ _ _ Hu Hup)).
  rewrite (pte_at_vpn _ _ (PGROUNDDOWN va) va) by (assumption || lia).
  destruct (uvm_frame _ _ _ _ Hu va Hp) as (Hfr & _). pose proof (page_ok_pos _ _ Hfr).
  case_if; [lia|]. rewrite PGROUNDDOWN_off by exact Hva.
  pose proof (Z.mod_pos_bound va 4096) as Hm. pose proof (PGROUNDDOWN_off va Hva).
  replace (if PGSIZE - va mod 4096 >? len then len else PGSIZE - va mod 4096)
    with (Z.min len (4096 - va mod 4096)) by (unfold PGSIZE; case_if; lia).
  rewrite (bind_step _ _ _ _ _ (mmove_eq _ _ _ _)).
  destruct (Z_lt_dec (Z.min len (4096 - va mod 4096)) len) as [Hlt|Hge].
  - assert (Hn : Z.min len (4096 - va mod 4096) = 4096 - va mod 4096) by lia.
    rewrite u32_small by (unfold PGSIZE, KERNBASE in *; lia).
    replace (PGROUNDDOWN va + PGSIZE) with (va + Z.min len (4096 - va mod 4096)) by (unfold PGSIZE; lia).
    destruct (IH (va + Z.min len (4096 - va mod 4096)) (buf + Z.min len (4096 - va mod 4096))
      (len - Z.min len (4096 - va mod 4096)) l
      (set_mem (memmove (k_mem s) (ptpage (pte_at (k_mem s) pgdir va) + va mod 4096) buf
                  (Z.min len (4096 - va mod 4096))) s)) as (m' & H1 & Hco).
    + eapply step_uvm; eauto; lia.
    + eapply step_out_ok; eauto; lia.
    + lia.
    + rewrite Hn. pose proof (Z.div_mod va 4096).
      replace (va + (4096 - va mod 4096)) with ((va / 4096 + 1) * 4096) by lia. rewrite Z.mod_mul by lia.
      replace (va mod 4096 + len + 4095) with (0 + (len - (4096 - va mod 4096)) + 4095 + 1 * 4096) in Hf by lia.
      rewrite Z.div_add in Hf by lia. lia.
    + exists m'. split; [exact H1|]. eapply step_rest; eauto; lia.
  - eexists. split; [|eapply step_here; eauto; lia].
    assert (Hn : Z.min len (4096 - va mod 4096) = len) by lia. rewrite Hn, Z.sub_diag.
    destruct fuel as [|fuel]; [|reflexivity].
    assert (1 <= (va mod 4096 + len + 4095) / 4096) by (apply Z.div_le_lower_bound; lia). lia.
Qed.

Lemma copyout_ok pgdir va buf len l s :
  uvm_ok kend (k_mem s) pgdir l -> out_ok (k_mem s) pgdir va buf len -> 0 <= len ->
  exists m', copyout pgdir va buf len s = Ret (0, set_mem m' s) /\
    copied_out (k_mem s) m' pgdir va buf len.
Proof.
  intros Hu Hok Hlen. apply (copyout_loop_ok _ _ _ _ _ l); auto.
  assert ((va mod 4096 + len + 4095) / 4096 <= (len + 2 * 4096) / 4096)
    by (apply Z.div_le_mono; pose proof (Z.mod_pos_bound va 4096); lia).
  rewrite Z.div_add in H by lia. unfold PGSIZE. pose proof (Z.div_pos len 4096). lia.
Qed.
End Copyout.
