(* ===== verification/VmProps.v ===== *)
(** * Properties of virtual memory

    The theorems about [src/xv6/vm.c] that its callers rely on, each with an
    application to a concrete address space. *)

From S2P Require Import Prelude Mem Mmu Spinlock Kalloc Vm Uvm Ualloc Kvm Copyuvm Copyout.
Local Open Scope Z_scope.

(** ** A concrete machine

    The kernel image ends at 0x80120000; a process has the directory
    0x80200000, one page table at 0x80201000 and one user page, 0x80202000,
    mapped at address 0; three pages are free. *)

Definition demo_end : Z := 0x80120000.
Definition demo_free : list Z := [0x80203000; 0x80204000; 0x80205000].
Definition demo_mem : mem :=
  st32 (st32 (st32 (st32 (st32 ∅ 0x80200000 0x201007) 0x80201000 0x202007)
    0x80203000 0x80204000) 0x80204000 0x80205000) 0x80205000 0.
Definition demo : kmem := mkkmem false true 0x80203000 demo_mem.

Lemma demo_inv : kmem_inv demo_end demo_free demo.
Proof.
  split; [reflexivity|]. split; [apply (bool_decide_unpack _); vm_compute; exact I|].
  cbn [chain demo_free demo freelist k_mem].
  repeat split; try (vm_compute; congruence).
Qed.

Lemma ld32_empty a : ld32 ∅ a = 0.
Proof. unfold ld32, ldb. rewrite !lookup_empty. reflexivity. Qed.

Lemma demo_pde i : 0 <= i < 1024 -> pde_at demo_mem 0x80200000 i = if i =? 0 then 0x201007 else 0.
Proof.
  intros Hi. destruct (Z.eqb_spec i 0) as [->|Hne]; [vm_compute; reflexivity|].
  unfold pde_at, demo_mem. rewrite !ld32_st32_ne by lia. apply ld32_empty.
Qed.

Lemma demo_pte va : 0 <= va < 2 ^ 32 ->
  pte_at demo_mem 0x80200000 va = if vpn va =? 0 then 0x202007 else 0.
Proof.
  intros Hva. unfold pte_at. rewrite demo_pde by apply PDX_range.
  pose proof (page_index va Hva) as Hx. fold (vpn va) in Hx.
  pose proof (PDX_range va). pose proof (PTX_range va).
  destruct (Z.eqb_spec (PDX va) 0) as [Hd|Hd]; [|rewrite has_0; case_if; [lia|reflexivity]].
  change (has 0x201007 PTE_P) with true. change (ptpage 0x201007) with 0x80201000. cbv iota.
  destruct (Z.eqb_spec (vpn va) 0) as [Hv|Hv].
  - replace (PTX va) with 0 by lia. vm_compute. reflexivity.
  - unfold demo_mem. rewrite !ld32_st32_ne by lia. apply ld32_empty.
Qed.

Lemma demo_uvm : uvm_ok demo_end demo_mem 0x80200000 demo_free.
Proof.
  assert (Hok : forall q, q = 0x80200000 \/ q = 0x80201000 \/ q = 0x80202000 ->
            page_ok demo_end q /\ q ∉ demo_free).
  { intros q [->|[->|Hq]]; [| |subst q]; (split; apply (bool_decide_unpack _); vm_compute; exact I). }
  assert (Hp : forall va, present demo_mem 0x80200000 va ->
            vpn va = 0 /\ pte_at demo_mem 0x80200000 va = 0x202007).
  { intros va Hv. pose proof (present_range _ _ _ Hv) as Hr. destruct Hv as [_ Hv].
    rewrite demo_pte in * by exact Hr. destruct (Z.eqb_spec (vpn va) 0); [auto|discriminate]. }
  split; [split|..].
  - apply Hok. auto.
  - apply Hok. auto.
  - intros i Hi. rewrite demo_pde by exact Hi. case_if; [intros _|discriminate].
    change (ptpage 0x201007) with 0x80201000. destruct (Hok 0x80201000); [auto|]. auto.
  - intros i j Hi Hj. rewrite !demo_pde by assumption. repeat case_if; try discriminate. lia.
  - intros va [Hv ->]%Hp. change (ptpage 0x202007) with 0x80202000.
    destruct (Hok 0x80202000); [auto|]. split; [assumption|]. split; [assumption|].
    intros [?|(i & Hi & Hpi & Heq)]; [discriminate|]. rewrite demo_pde in * by exact Hi.
    destruct (i =? 0); [discriminate|]. rewrite has_0 in Hpi. discriminate.
  - intros va va' [-> _]%Hp [-> _]%Hp. reflexivity.
Qed.

(** ** Properties *)

(** [mappages] on a range of absent pages maps page [i] of the range to
    physical page [pa + i*PGSIZE] with the given permissions and PTE_P, leaves
    every other entry as it was, takes table pages only from the free list, and
    fails with -1 only when no page is free; on a range whose first page is
    present it panics with "remap". *)
Theorem mappages_correct kend pgdir va size pa perm l s :
  kmem_inv kend l s -> dir_ok kend (k_mem s) pgdir l ->
  0 <= va -> 0 < size -> va + size <= 2 ^ 32 ->
  pa_ok pa -> pa + (npages va size - 1) * 4096 < 2 ^ 32 -> 0 <= perm < 4096 ->
  ((forall va', vpn va <= vpn va' < vpn va + npages va size ->
      has (pte_at (k_mem s) pgdir va') PTE_P = false) ->
   map_result kend pgdir (PGROUNDDOWN va) (npages va size) pa perm l s
     (mappages pgdir va size pa perm s)) /\
  (has (pte_at (k_mem s) pgdir va) PTE_P = true ->
   mappages pgdir va size pa perm s = Panic "remap").
Proof. intros. split; [apply mappages_ok|eapply mappages_remap]; eauto. Qed.

(** [deallocuvm] to a smaller size returns the new size and frees exactly
    the present pages from the one that contains [newsz] up to [oldsz]: their
    entries become 0, their frames join the free list, every other entry and
    every byte outside the tables and the freed frames is unchanged, and the
    address space stays well formed. *)
Theorem deallocuvm_frees_range kend pgdir oldsz newsz l s :
  KERNBASE < kend -> kmem_inv kend l s -> uvm_ok kend (k_mem s) pgdir l ->
  0 <= newsz < oldsz -> oldsz <= KERNBASE ->
  exists l' s', deallocuvm kend pgdir oldsz newsz s = Ret (newsz, s') /\
    dealloc kend pgdir (vpn newsz) (vpn (oldsz + 4095)) l l' s s'.
Proof. apply deallocuvm_ok. Qed.

(** C8: [freevm] gives back every page of an address space.  Afterwards the
    free pages are those that were free, the directory, its page tables and all
    user pages, each exactly once; no other memory is touched. *)
Theorem freevm_returns_every_page kend pgdir l s :
  KERNBASE < kend -> kmem_inv kend l s -> uvm_ok kend (k_mem s) pgdir l ->
  exists l' s', freevm kend pgdir s = Ret (tt, s') /\ kmem_inv kend l' s' /\
    use_lock s' = use_lock s /\
    (forall q, q ∈ l' <-> q ∈ l \/ space_page (k_mem s) pgdir q) /\
    forall a, (forall q, space_page (k_mem s) pgdir q -> ~ in_page a q) ->
      ldb (k_mem s') a = ldb (k_mem s) a.
Proof. apply freevm_ok. Qed.

(** [allocuvm] is all or nothing.  Growing over absent pages either returns
    [newsz] with every page of the range mapped, writable by the user, to a fresh
    zeroed page, and nothing else changed; or it returns 0 with the user pages and
    their contents as before (except the page that [oldsz] cuts, when [oldsz] is
    not page aligned) and every page it took given back or used as a table. *)
Theorem allocuvm_all_or_nothing kend pgdir oldsz newsz l s :
  KERNBASE < kend -> kmem_inv kend l s -> uvm_ok kend (k_mem s) pgdir l ->
  0 <= oldsz < newsz -> newsz < KERNBASE ->
  (forall va, vpn (oldsz + 4095) <= vpn va < vpn (newsz + 4095) -> ~ present (k_mem s) pgdir va) ->
  alloc_result kend pgdir oldsz newsz (vpn (oldsz + 4095)) l s (allocuvm kend pgdir oldsz newsz s).
Proof. intros. apply allocuvm_ok; auto. Qed.

(** [setupkvm] maps the kernel and nothing else.  It returns a directory in
    which exactly the regions of [kmap] are mapped, each address to its physical
    page with the entry's permissions, and no user address; if memory runs out it
    returns 0 and every page it took is free again. *)
Theorem setupkvm_maps_the_kernel kend kdata gpu0 l s :
  KERNBASE < kend -> kmap_ok kdata gpu0 -> kmem_inv kend l s ->
  setup_result kend kdata gpu0 l s (setupkvm kend kdata gpu0 s).
Proof. apply setupkvm_ok. Qed.


(** [copyout] to accessible user pages returns 0 and writes exactly the
    bytes the user sees at [va], ..., [va+len-1], across page boundaries, to the
    values of the buffer. *)
Theorem copyout_writes_user_memory kend pgdir va buf len l s :
  uvm_ok kend (k_mem s) pgdir l -> out_ok (k_mem s) pgdir va buf len -> 0 <= len ->
  exists m', copyout pgdir va buf len s = Ret (0, set_mem m' s) /\
    copied_out (k_mem s) m' pgdir va buf len.
Proof. apply copyout_ok. Qed.

(** ** Consequences worth knowing *)

(** [deallocuvm] rounds the new size down: a shrink to a size inside a page
    unmaps that page although its first bytes are still within the size. *)
Lemma dealloc_loses_live_page kend pgdir oldsz newsz l s :
  KERNBASE < kend -> kmem_inv kend l s -> uvm_ok kend (k_mem s) pgdir l ->
  0 < newsz < oldsz -> oldsz <= KERNBASE -> newsz mod 4096 <> 0 ->
  present (k_mem s) pgdir (newsz - 1) ->
  exists s', deallocuvm kend pgdir oldsz newsz s = Ret (newsz, s') /\
    ~ present (k_mem s') pgdir (newsz - 1).
Proof.
  intros Hk Hi Hu Hn Ho Hm Hp.
  destruct (deallocuvm_ok kend pgdir oldsz newsz l s) as (l' & s' & H1 & Hd); auto with lia.
  exists s'. split; [exact H1|]. rewrite (dealloc_present _ _ _ _ _ _ _ _ _ Hd).
  intros [_ Hn']. apply Hn'. unfold vpn.
  assert ((newsz - 1) / 4096 = newsz / 4096) as ->.
  { symmetry. apply (Z.div_unique _ _ _ (newsz mod 4096 - 1)); pose proof (Z.div_mod newsz 4096);
      pose proof (Z.mod_pos_bound newsz 4096); lia. }
  pose proof (Z.div_le_mono (newsz + 1 * 4096) (oldsz + 4095) 4096). rewrite Z.div_add in H by lia. lia.
Qed.

(** ** Witnesses *)

Lemma demo_entry va : 0 <= va < 2 ^ 32 -> vpn va <> 0 -> has (pte_at demo_mem 0x80200000 va) PTE_P = false.
Proof. intros Hr Hv. rewrite demo_pte by exact Hr. case_if; [contradiction|apply has_0]. Qed.

Lemma mappages_correct_witness :
  map_result demo_end 0x80200000 0x1000 2 0x300000 6 demo_free demo
    (mappages 0x80200000 0x1000 0x2000 0x300000 6 demo) /\
  mappages 0x80200000 0 0x1000 0x300000 6 demo = Panic "remap".
Proof.
  split.
  - refine (proj1 (mappages_correct demo_end 0x80200000 0x1000 0x2000 0x300000 6 demo_free demo
      demo_inv (uvm_dir _ _ _ _ demo_uvm) _ _ _ _ _ _) _);
      [lia|lia|lia|cbv; repeat split; congruence|cbv; congruence|lia|].
    intros va Hv. change (vpn 0x1000) with 1 in Hv. change (npages 0x1000 0x2000) with 2 in Hv.
    apply demo_entry; [apply vpn_range; lia|lia].
  - refine (proj2 (mappages_correct demo_end 0x80200000 0 0x1000 0x300000 6 demo_free demo
      demo_inv (uvm_dir _ _ _ _ demo_uvm) _ _ _ _ _ _) _);
      [lia|lia|lia|cbv; repeat split; congruence|cbv; congruence|lia|].
    cbn [demo k_mem]. rewrite demo_pte by lia. reflexivity.
Defined.

Lemma deallocuvm_frees_range_witness :
  exists l' s', deallocuvm demo_end 0x80200000 0x1000 0 demo = Ret (0, s') /\
    dealloc demo_end 0x80200000 (vpn 0) (vpn (0x1000 + 4095)) demo_free l' demo s'.
Proof.
  apply (deallocuvm_frees_range demo_end 0x80200000 0x1000 0 demo_free demo);
    [reflexivity|apply demo_inv|apply demo_uvm|lia|cbv; congruence].
Defined.

Lemma freevm_returns_every_page_witness :
  exists l' s', freevm demo_end 0x80200000 demo = Ret (tt, s') /\ kmem_inv demo_end l' s' /\
    use_lock s' = use_lock demo /\
    (forall q, q ∈ l' <-> q ∈ demo_free \/ space_page (k_mem demo) 0x80200000 q) /\
    forall a, (forall q, space_page (k_mem demo) 0x80200000 q -> ~ in_page a q) ->
      ldb (k_mem s') a = ldb (k_mem demo) a.
Proof.
  apply (freevm_returns_every_page demo_end 0x80200000 demo_free demo);
    [reflexivity|apply demo_inv|apply demo_uvm].
Defined.

Lemma allocuvm_all_or_nothing_witness :
  alloc_result demo_end 0x80200000 0x1000 0x2800 (vpn (0x1000 + 4095)) demo_free demo
    (allocuvm demo_end 0x80200000 0x1000 0x2800 demo).
Proof.
  apply (allocuvm_all_or_nothing demo_end 0x80200000 0x1000 0x2800 demo_free demo);
    [reflexivity|apply demo_inv|apply demo_uvm|lia|reflexivity|].
  change (vpn (0x1000 + 4095)) with 1. change (vpn (0x2800 + 4095)) with 3.
  intros va Hv [_ Hp]. cbn [demo k_mem] in Hp. rewrite demo_entry in Hp by (try apply vpn_range; lia).
  discriminate.
Defined.

Definition demo_gpu : gpu := mkgpu 0x90000000 0x800000.

Lemma setupkvm_maps_the_kernel_witness :
  setup_result demo_end 0x80108000 demo_gpu demo_free demo (setupkvm demo_end 0x80108000 demo_gpu demo).
Proof.
  apply (setupkvm_maps_the_kernel demo_end 0x80108000 demo_gpu demo_free demo);
    [reflexivity| |apply demo_inv].
  split; cbn [demo_gpu vram_size pvram_addr]; unfold pa_ok, KERNLINK, KERNBASE, EXTMEM, PHYSTOP;
    repeat split; lia || reflexivity.
Defined.


Lemma copyout_writes_user_memory_witness :
  exists m', copyout 0x80200000 0x10 0x80300000 5 demo = Ret (0, set_mem m' demo) /\
    copied_out (k_mem demo) m' 0x80200000 0x10 0x80300000 5.
Proof.
  apply (copyout_writes_user_memory demo_end 0x80200000 0x10 0x80300000 5 demo_free demo);
    [apply demo_uvm| |lia].
  assert (Hv : forall k, 0 <= k < 5 -> pte_at demo_mem 0x80200000 (0x10 + k) = 0x202007).
  { intros k Hk. rewrite demo_pte by lia. unfold vpn. rewrite Z.div_small by lia. reflexivity. }
  split; [cbv; split; congruence| |].
  - intros k Hk. unfold user_page, present. cbn [demo k_mem]. rewrite Hv by exact Hk.
    split; [split; [unfold KERNBASE; lia|reflexivity]|reflexivity].
  - intros k j Hk Hj. unfold uaddr. cbn [demo k_mem]. rewrite Hv by exact Hj.
    change (ptpage 0x202007) with 0x80202000. pose proof (Z.mod_pos_bound (0x10 + j) 4096). lia.
Defined.
