(* ===== verification/Proc.v ===== *)
(** * Processes

    Models [src/xv6/proc.c] and [src/xv6/proc.h]: the process table and the
    operations on it, as one CPU executes them in a kernel with a page
    allocator, per-CPU interrupt state, locks and a file system.

    A routine that gives up the CPU is modelled in two halves, what it does
    before [swtch] and what it does when it runs again; module [Sched] puts the
    scheduler between them.  Pointers into [ptable.proc] are indices, pointers
    to files and inodes are the addresses the file system hands out, and the
    file system's routines enter through the class [FileOps]. *)

From S2P Require Import Prelude Mem Mmu Spinlock Kalloc Vm.
Local Open Scope Z_scope.

(** ** Data *)

Definition NPROC : nat := 64.
Definition NOFILE : nat := 16.
Definition GUARD_SIZE : Z := 8 * PGSIZE.
Definition USERSTACKTOP : Z := KERNBASE - GUARD_SIZE.

Inductive procstate := UNUSED | EMBRYO | SLEEPING | RUNNABLE | RUNNING | ZOMBIE.
#[export] Instance procstate_eq_dec : EqDecision procstate.
Proof. solve_decision. Defined.

(** Sleep channels: the address of a process slot, of [ticks], or another. *)
Inductive chanid := ChProc (i : nat) | ChTicks | ChAddr (a : Z).
#[export] Instance chanid_eq_dec : EqDecision chanid.
Proof. solve_decision. Defined.

(** Locks: [ptable.lock], [tickslock], or another by its address. *)
Inductive lockid := Ptable | Tickslock | LkAddr (a : Z).
#[export] Instance lockid_eq_dec : EqDecision lockid.
Proof. solve_decision. Defined.

(** [struct proc]; [name] as the bytes before the terminating NUL. *)
Record proc := mkproc {
  sz : Z;
  pgdir : Z;
  kstack : Z;
  pstate : procstate;
  pid : Z;
  parent : option nat;
  tf : Z;
  context : Z;
  chan : option chanid;
  killed : bool;
  ofile : list Z;
  cwd : Z;
  pname : list Z;
  uscheduler : Z;
  check_thread : Z }.

Definition set_sz (v : Z) (x : proc) : proc :=
  mkproc v (pgdir x) (kstack x) (pstate x) (pid x) (parent x) (tf x) (context x) (chan x) (killed x) (ofile x) (cwd x) (pname x) (uscheduler x) (check_thread x).
Definition set_pgdir (v : Z) (x : proc) : proc :=
  mkproc (sz x) v (kstack x) (pstate x) (pid x) (parent x) (tf x) (context x) (chan x) (killed x) (ofile x) (cwd x) (pname x) (uscheduler x) (check_thread x).
Definition set_kstack (v : Z) (x : proc) : proc :=
  mkproc (sz x) (pgdir x) v (pstate x) (pid x) (parent x) (tf x) (context x) (chan x) (killed x) (ofile x) (cwd x) (pname x) (uscheduler x) (check_thread x).
Definition set_pstate (v : procstate) (x : proc) : proc :=
  mkproc (sz x) (pgdir x) (kstack x) v (pid x) (parent x) (tf x) (context x) (chan x) (killed x) (ofile x) (cwd x) (pname x) (uscheduler x) (check_thread x).
Definition set_pid (v : Z) (x : proc) : proc :=
  mkproc (sz x) (pgdir x) (kstack x) (pstate x) v (parent x) (tf x) (context x) (chan x) (killed x) (ofile x) (cwd x) (pname x) (uscheduler x) (check_thread x).
Definition set_parent (v : option nat) (x : proc) : proc :=
  mkproc (sz x) (pgdir x) (kstack x) (pstate x) (pid x) v (tf x) (context x) (chan x) (killed x) (ofile x) (cwd x) (pname x) (uscheduler x) (check_thread x).
Definition set_tf (v : Z) (x : proc) : proc :=
  mkproc (sz x) (pgdir x) (kstack x) (pstate x) (pid x) (parent x) v (context x) (chan x) (killed x) (ofile x) (cwd x) (pname x) (uscheduler x) (check_thread x).
Definition set_context (v : Z) (x : proc) : proc :=
  mkproc (sz x) (pgdir x) (kstack x) (pstate x) (pid x) (parent x) (tf x) v (chan x) (killed x) (ofile x) (cwd x) (pname x) (uscheduler x) (check_thread x).
Definition set_chan (v : option chanid) (x : proc) : proc :=
  mkproc (sz x) (pgdir x) (kstack x) (pstate x) (pid x) (parent x) (tf x) (context x) v (killed x) (ofile x) (cwd x) (pname x) (uscheduler x) (check_thread x).
Definition set_killed (v : bool) (x : proc) : proc :=
  mkproc (sz x) (pgdir x) (kstack x) (pstate x) (pid x) (parent x) (tf x) (context x) (chan x) v (ofile x) (cwd x) (pname x) (uscheduler x) (check_thread x).
Definition set_ofile (v : list Z) (x : proc) : proc :=
  mkproc (sz x) (pgdir x) (kstack x) (pstate x) (pid x) (parent x) (tf x) (context x) (chan x) (killed x) v (cwd x) (pname x) (uscheduler x) (check_thread x).
Definition set_cwd (v : Z) (x : proc) : proc :=
  mkproc (sz x) (pgdir x) (kstack x) (pstate x) (pid x) (parent x) (tf x) (context x) (chan x) (killed x) (ofile x) v (pname x) (uscheduler x) (check_thread x).
Definition set_pname (v : list Z) (x : proc) : proc :=
  mkproc (sz x) (pgdir x) (kstack x) (pstate x) (pid x) (parent x) (tf x) (context x) (chan x) (killed x) (ofile x) (cwd x) v (uscheduler x) (check_thread x).
Definition set_uscheduler (v : Z) (x : proc) : proc :=
  mkproc (sz x) (pgdir x) (kstack x) (pstate x) (pid x) (parent x) (tf x) (context x) (chan x) (killed x) (ofile x) (cwd x) (pname x) v (check_thread x).
Definition set_check_thread (v : Z) (x : proc) : proc :=
  mkproc (sz x) (pgdir x) (kstack x) (pstate x) (pid x) (parent x) (tf x) (context x) (chan x) (killed x) (ofile x) (cwd x) (pname x) (uscheduler x) v.

(** [struct cpu], the fields proc.c and vm.c use: interrupt state, the running
    process, the scheduling policy and the kernel stack in the task state; and
    the CPU's page-directory register. *)
Record kcpu := mkkcpu {
  kc : cpu; cproc : option nat; sched_policy : Z; cr3 : Z; esp0 : Z }.

Definition set_kc (v : cpu) (x : kcpu) : kcpu :=
  mkkcpu v (cproc x) (sched_policy x) (cr3 x) (esp0 x).
Definition set_cproc (v : option nat) (x : kcpu) : kcpu :=
  mkkcpu (kc x) v (sched_policy x) (cr3 x) (esp0 x).
Definition set_sched_policy (v : Z) (x : kcpu) : kcpu :=
  mkkcpu (kc x) (cproc x) v (cr3 x) (esp0 x).
Definition set_cr3 (v : Z) (x : kcpu) : kcpu :=
  mkkcpu (kc x) (cproc x) (sched_policy x) v (esp0 x).
Definition set_esp0 (v : Z) (x : kcpu) : kcpu :=
  mkkcpu (kc x) (cproc x) (sched_policy x) (cr3 x) v.

(** The kernel's state; [F] is the file system's. *)
Record kst (F : Type) := mkkst {
  km : kmem;
  locks : lockid -> option nat;
  ticks : Z;
  ptable : nat -> proc;
  nextpid : Z;
  initproc : option nat;
  proc_priority : nat -> Z;
  proc_ticks : nat -> Z -> Z;
  proc_wait_ticks : nat -> Z -> Z;
  kcpus : nat -> kcpu;
  fstate : F }.
Arguments mkkst {F}.
Arguments km {F}.
Arguments locks {F}.
Arguments ticks {F}.
Arguments ptable {F}.
Arguments nextpid {F}.
Arguments initproc {F}.
Arguments proc_priority {F}.
Arguments proc_ticks {F}.
Arguments proc_wait_ticks {F}.
Arguments kcpus {F}.
Arguments fstate {F}.

Section Setters.
Context {F : Type}.
Definition set_km (v : kmem) (x : kst F) : kst F :=
  mkkst v (locks x) (ticks x) (ptable x) (nextpid x) (initproc x) (proc_priority x) (proc_ticks x) (proc_wait_ticks x) (kcpus x) (fstate x).
Definition set_locks (v : lockid -> option nat) (x : kst F) : kst F :=
  mkkst (km x) v (ticks x) (ptable x) (nextpid x) (initproc x) (proc_priority x) (proc_ticks x) (proc_wait_ticks x) (kcpus x) (fstate x).
Definition set_ticks (v : Z) (x : kst F) : kst F :=
  mkkst (km x) (locks x) v (ptable x) (nextpid x) (initproc x) (proc_priority x) (proc_ticks x) (proc_wait_ticks x) (kcpus x) (fstate x).
Definition set_ptable (v : nat -> proc) (x : kst F) : kst F :=
  mkkst (km x) (locks x) (ticks x) v (nextpid x) (initproc x) (proc_priority x) (proc_ticks x) (proc_wait_ticks x) (kcpus x) (fstate x).
Definition set_nextpid (v : Z) (x : kst F) : kst F :=
  mkkst (km x) (locks x) (ticks x) (ptable x) v (initproc x) (proc_priority x) (proc_ticks x) (proc_wait_ticks x) (kcpus x) (fstate x).
Definition set_initproc (v : option nat) (x : kst F) : kst F :=
  mkkst (km x) (locks x) (ticks x) (ptable x) (nextpid x) v (proc_priority x) (proc_ticks x) (proc_wait_ticks x) (kcpus x) (fstate x).
Definition set_proc_priority (v : nat -> Z) (x : kst F) : kst F :=
  mkkst (km x) (locks x) (ticks x) (ptable x) (nextpid x) (initproc x) v (proc_ticks x) (proc_wait_ticks x) (kcpus x) (fstate x).
Definition set_proc_ticks (v : nat -> Z -> Z) (x : kst F) : kst F :=
  mkkst (km x) (locks x) (ticks x) (ptable x) (nextpid x) (initproc x) (proc_priority x) v (proc_wait_ticks x) (kcpus x) (fstate x).
Definition set_proc_wait_ticks (v : nat -> Z -> Z) (x : kst F) : kst F :=
  mkkst (km x) (locks x) (ticks x) (ptable x) (nextpid x) (initproc x) (proc_priority x) (proc_ticks x) v (kcpus x) (fstate x).
Definition set_kcpus (v : nat -> kcpu) (x : kst F) : kst F :=
  mkkst (km x) (locks x) (ticks x) (ptable x) (nextpid x) (initproc x) (proc_priority x) (proc_ticks x) (proc_wait_ticks x) v (fstate x).
Definition set_fstate (v : F) (x : kst F) : kst F :=
  mkkst (km x) (locks x) (ticks x) (ptable x) (nextpid x) (initproc x) (proc_priority x) (proc_ticks x) (proc_wait_ticks x) (kcpus x) v.
End Setters.

(** ** The file system as processes use it *)

Class FileOps (F : Type) := {
  filedup : Z -> M F Z;
  fileclose : Z -> M F unit;
  begin_op : M F unit;
  end_op : M F unit;
  iput : Z -> M F unit;
  idup : Z -> M F Z;
  namei : list Z -> M F Z;
  iinit : Z -> M F unit;
  initlog : Z -> M F unit }.

(** The first index from [i] on, among [n], that satisfies [f]: the loop
    [for(p = ptable.proc; p < &ptable.proc[NPROC]; p++) if(f(p)) break]. *)
Fixpoint scan (f : nat -> bool) (n i : nat) : option nat :=
  match n with
  | O => None
  | S n' => if f i then Some i else scan f n' (S i)
  end.

Section Proc.
Context {F : Type} `{FileOps F}.
Context (kend kdata : Z) (gpu0 : gpu).
(** The addresses of [trapret] (trapasm.S) and [forkret], and the CPU that runs. *)
Context (trapret forkret_addr : Z) (me : nat).

Definition on_mem {A} (f : M kmem A) : M (kst F) A := lift km set_km f.
Definition on_fs {A} (f : M F A) : M (kst F) A := lift fstate set_fstate f.
Definition upd_cpu (f : kcpu -> kcpu) : M (kst F) unit :=
  modify (fun s => set_kcpus (<[me := f (kcpus s me)]> (kcpus s)) s).
Definition on_kc {A} (f : M cpu A) : M (kst F) A :=
  lift (fun s => kc (kcpus s me))
       (fun c s => set_kcpus (<[me := set_kc c (kcpus s me)]> (kcpus s)) s) f.
Definition upd_proc (i : nat) (f : proc -> proc) : M (kst F) unit :=
  modify (fun s => set_ptable (<[i := f (ptable s i)]> (ptable s)) s).
Definition getp {A} (i : nat) (f : proc -> A) : M (kst F) A := gets (fun s => f (ptable s i)).

(** ** Locks *)

(** A lock that another CPU holds makes [acquire] spin, [NoFuel] here. *)
Definition kacquire (l : lockid) : M (kst F) unit :=
  on_kc pushcli ;;;
  h <- gets (fun s => locks s l) ;;
  match h with
  | None => modify (fun s => set_locks (<[l := Some me]> (locks s)) s)
  | Some c => if bool_decide (c = me) then panic "acquire" else nofuel
  end.
Definition kholding (l : lockid) (s : kst F) : bool := bool_decide (locks s l = Some me).
Definition krelease (l : lockid) : M (kst F) unit :=
  h <- gets (kholding l) ;;
  if negb h then panic "release"
  else modify (fun s => set_locks (<[l := None]> (locks s)) s) ;;; on_kc popcli.

Definition pinit : M (kst F) unit := modify (fun s => set_locks (<[Ptable := None]> (locks s)) s).

Definition myproc : M (kst F) (option nat) :=
  on_kc pushcli ;;;
  p <- gets (fun s => cproc (kcpus s me)) ;;
  on_kc popcli ;;;
  ret p.

(** [myproc()->f]: the source dereferences without a test. *)
Definition curproc : M (kst F) nat :=
  p <- myproc ;; match p with Some i => ret i | None => panic "null proc" end.

(** ** Address-space switches (vm.c) *)

Definition switchkvm (kpgdir : Z) : M (kst F) unit := upd_cpu (set_cr3 (V2P kpgdir)).

Definition switchuvm (i : nat) : M (kst F) unit :=
  p <- gets (fun s => ptable s i) ;;
  if kstack p =? 0 then panic "switchuvm: no kstack"
  else if pgdir p =? 0 then panic "switchuvm: no pgdir"
  else
    on_kc pushcli ;;;
    upd_cpu (set_esp0 (u32 (kstack p + KSTACKSIZE))) ;;;
    upd_cpu (set_cr3 (V2P (pgdir p))) ;;;
    on_kc popcli.

(** [kpgdir = setupkvm(); switchkvm()]: the value of [kpgdir]. *)
Definition kvmalloc : M (kst F) Z :=
  kpgdir <- on_mem (setupkvm kend kdata gpu0) ;;
  switchkvm kpgdir ;;;
  ret kpgdir.

(** ** Creation *)

Definition TF_SIZE : Z := 76.
Definition CONTEXT_SIZE : Z := 20.

(** Offsets in [struct trapframe]. *)
Definition TF_EAX : Z := 28.
Definition TF_ES : Z := 40.
Definition TF_DS : Z := 44.
Definition TF_TRAPNO : Z := 48.
Definition TF_ERR : Z := 52.
Definition TF_EIP : Z := 56.
Definition TF_CS : Z := 60.
Definition TF_EFLAGS : Z := 64.
Definition TF_ESP : Z := 68.
Definition TF_SS : Z := 72.

Definition zero_levels : Z -> Z := fun _ => 0.

Definition allocproc : M (kst F) (option nat) :=
  kacquire Ptable ;;;
  f <- gets (fun s => scan (fun i => bool_decide (pstate (ptable s i) = UNUSED)) NPROC 0) ;;
  match f with
  | None => krelease Ptable ;;; ret None
  | Some i =>
      upd_proc i (set_pstate EMBRYO) ;;;
      n <- gets nextpid ;;
      upd_proc i (set_pid n) ;;;
      modify (set_nextpid (s32 (n + 1))) ;;;
      modify (fun s => set_proc_priority (<[i := 3]> (proc_priority s)) s) ;;;
      modify (fun s => set_proc_ticks (<[i := zero_levels]> (proc_ticks s)) s) ;;;
      modify (fun s => set_proc_wait_ticks (<[i := zero_levels]> (proc_wait_ticks s)) s) ;;;
      krelease Ptable ;;;
      k <- on_mem kalloc ;;
      upd_proc i (set_kstack k) ;;;
      if k =? 0 then upd_proc i (set_pstate UNUSED) ;;; ret None
      else
        let sp := k + KSTACKSIZE - TF_SIZE in
        upd_proc i (set_tf sp) ;;;
        on_mem (st (sp - 4) trapret) ;;;
        let sp := sp - 4 - CONTEXT_SIZE in
        upd_proc i (set_context sp) ;;;
        on_mem (mset sp 0 CONTEXT_SIZE) ;;;
        on_mem (st (sp + 16) forkret_addr) ;;;
        ret (Some i)
  end.

(** [sizeof(p->name)] is 16: [safestrcpy] keeps 15 bytes. *)
Definition name_of (l : list Z) : list Z := take 15 l.

Definition st16 (a v : Z) : M kmem unit :=
  modify (fun s => set_mem (stb (stb (k_mem s) a v) (a + 1) (Z.shiftr v 8)) s).
Definition ld16 (a : Z) : M kmem Z :=
  gets (fun s => ldb (k_mem s) a + 256 * ldb (k_mem s) (a + 1)).

Definition SEG_KCODE : Z := 1.
Definition SEG_UCODE : Z := 3.
Definition SEG_UDATA : Z := 4.
Definition DPL_USER : Z := 3.

(** [init_start] and [init_size] are [_binary_initcode_start] and
    [_binary_initcode_size]; "initcode" and "/" are given as bytes. *)
Definition userinit (init_start init_size : Z) : M (kst F) unit :=
  a <- allocproc ;;
  modify (set_initproc a) ;;;
  match a with
  | None => panic "null proc"
  | Some i =>
      d <- on_mem (setupkvm kend kdata gpu0) ;;
      upd_proc i (set_pgdir d) ;;;
      if d =? 0 then panic "userinit: out of memory?"
      else
        on_mem (inituvm d init_start init_size) ;;;
        upd_proc i (set_sz PGSIZE) ;;;
        if PGSIZE >? USERSTACKTOP - PGSIZE then panic "userinit: stack/heap overlap"
        else
          r <- on_mem (allocuvm kend d (USERSTACKTOP - 2 * PGSIZE) USERSTACKTOP) ;;
          if r =? 0 then panic "userinit: allocuvm fail"
          else
            t <- getp i tf ;;
            on_mem (mset t 0 TF_SIZE) ;;;
            on_mem (st16 (t + TF_CS) (Z.lor (Z.shiftl SEG_UCODE 3) DPL_USER)) ;;;
            on_mem (st16 (t + TF_DS) (Z.lor (Z.shiftl SEG_UDATA 3) DPL_USER)) ;;;
            ds <- on_mem (ld16 (t + TF_DS)) ;;
            on_mem (st16 (t + TF_ES) ds) ;;;
            on_mem (st16 (t + TF_SS) ds) ;;;
            on_mem (st (t + TF_EFLAGS) FL_IF) ;;;
            on_mem (st (t + TF_ESP) (USERSTACKTOP - 4)) ;;;
            on_mem (st (t + TF_EIP) 0) ;;;
            upd_proc i (set_pname (name_of [105; 110; 105; 116; 99; 111; 100; 101])) ;;;
            c <- on_fs (namei [47]) ;;
            upd_proc i (set_cwd c) ;;;
            kacquire Ptable ;;;
            upd_proc i (set_pstate RUNNABLE) ;;;
            krelease Ptable
  end.

Definition growproc (n : Z) : M (kst F) Z :=
  i <- curproc ;;
  s0 <- getp i sz ;;
  d <- getp i pgdir ;;
  r <- (if n >? 0 then ret (Some (u32 (s0 + n)))
        else if n <? 0 then
          if s32 (s32 s0 + n) <=? 0 then
            on_mem (deallocuvm kend d KERNBASE 0) ;;; ret (Some 0)
          else
            z <- on_mem (deallocuvm kend d s0 (u32 (s0 + n))) ;;
            if z =? 0 then ret None else ret (Some z)
        else ret (Some s0)) ;;
  match r with
  | None => ret (-1)
  | Some z => upd_proc i (set_sz z) ;;; switchuvm i ;;; ret 0
  end.

(** [for(i = 0; i < NOFILE; i++) if(curproc->ofile[i]) np->ofile[i] = filedup(...)] *)
Fixpoint fork_files (n : nat) (cur np fd : nat) : M (kst F) unit :=
  match n with
  | O => ret tt
  | S n' =>
      f <- getp cur (fun p => default 0 (ofile p !! fd)) ;;
      (if negb (f =? 0) then
         g <- on_fs (filedup f) ;;
         upd_proc np (fun p => set_ofile (<[fd := g]> (ofile p)) p)
       else ret tt) ;;;
      fork_files n' cur np (S fd)
  end.

Definition fork : M (kst F) Z :=
  cur <- curproc ;;
  a <- allocproc ;;
  match a with
  | None => ret (-1)
  | Some np =>
      c <- gets (fun s => ptable s cur) ;;
      d <- on_mem (copyuvm kend kdata gpu0 (pgdir c) (sz c)) ;;
      upd_proc np (set_pgdir d) ;;;
      if d =? 0 then
        k <- getp np kstack ;;
        on_mem (kfree kend k) ;;;
        upd_proc np (set_kstack 0) ;;;
        upd_proc np (set_pstate UNUSED) ;;;
        ret (-1)
      else
        upd_proc np (set_sz (sz c)) ;;;
        upd_proc np (set_parent (Some cur)) ;;;
        t <- getp np tf ;;
        on_mem (mmove t (tf c) TF_SIZE) ;;;
        on_mem (st (t + TF_EAX) 0) ;;;
        fork_files NOFILE cur np 0 ;;;
        w <- on_fs (idup (cwd c)) ;;
        upd_proc np (set_cwd w) ;;;
        upd_proc np (set_pname (name_of (pname c))) ;;;
        n <- getp np pid ;;
        kacquire Ptable ;;;
        upd_proc np (set_pstate RUNNABLE) ;;;
        krelease Ptable ;;;
        ret n
  end.

(** ** Sleeping and waking *)

Definition wake_one (ch : option chanid) (p : proc) : proc :=
  if bool_decide (pstate p = SLEEPING) && bool_decide (chan p = ch)
  then set_pstate RUNNABLE p else p.

(** [for(p = ptable.proc; p < &ptable.proc[NPROC]; p++) f(p)] for a body that
    only changes its own slot. *)
Definition map_procs (f : nat -> proc -> proc) : M (kst F) unit :=
  modify (fun s => set_ptable
    (fun i => if (i <? NPROC)%nat then f i (ptable s i) else ptable s i) s).

Definition wakeup1 (ch : option chanid) : M (kst F) unit := map_procs (fun _ => wake_one ch).
Definition wakeup (ch : chanid) : M (kst F) unit :=
  kacquire Ptable ;;; wakeup1 (Some ch) ;;; krelease Ptable.

(** [sched] up to [swtch]; the result is the saved [intena]. *)
Definition sched : M (kst F) Z :=
  i <- curproc ;;
  h <- gets (kholding Ptable) ;;
  c <- gets (fun s => kc (kcpus s me)) ;;
  st <- getp i pstate ;;
  if negb h then panic "sched ptable.lock"
  else if negb (ncli c =? 1) then panic "sched locks"
  else if bool_decide (st = RUNNING) then panic "sched running"
  else if negb (Z.land (eflags c) FL_IF =? 0) then panic "sched interruptible"
  else ret (intena c).
(** After [swtch]: [mycpu()->intena = intena]. *)
Definition sched_back (i : Z) : M (kst F) unit :=
  upd_cpu (fun k => set_kc (mkcpu (eflags (kc k)) (ncli (kc k)) i (apicid (kc k))) k).

Definition tick_self (i : nat) : M (kst F) unit :=
  modify (fun s => set_proc_ticks
    (<[i := <[proc_priority s i := s32 (proc_ticks s i (proc_priority s i) + 1)]> (proc_ticks s i)]>
       (proc_ticks s)) s).

Definition yield : M (kst F) Z :=
  kacquire Ptable ;;;
  i <- curproc ;;
  tick_self i ;;;
  upd_proc i (set_pstate RUNNABLE) ;;;
  sched.
Definition yield_back (saved : Z) : M (kst F) unit :=
  sched_back saved ;;; krelease Ptable.

Definition sleep (ch : chanid) (lk : lockid) : M (kst F) Z :=
  p <- myproc ;;
  match p with
  | None => panic "sleep"
  | Some i =>
      (if bool_decide (lk <> Ptable) then kacquire Ptable ;;; krelease lk else ret tt) ;;;
      upd_proc i (set_chan (Some ch)) ;;;
      upd_proc i (set_pstate SLEEPING) ;;;
      sched
  end.
Definition sleep_back (lk : lockid) (saved : Z) : M (kst F) unit :=
  sched_back saved ;;;
  i <- curproc ;;
  upd_proc i (set_chan None) ;;;
  if bool_decide (lk <> Ptable) then krelease Ptable ;;; kacquire lk else ret tt.

Definition forkret (first : bool) : M (kst F) unit :=
  krelease Ptable ;;;
  if first then on_fs (iinit 1) ;;; on_fs (initlog 1) else ret tt.

(** ** Exit and wait *)

(** [for(fd = 0; fd < NOFILE; fd++) if(curproc->ofile[fd]) ...] of [exit]. *)
Fixpoint exit_files (n : nat) (cur fd : nat) : M (kst F) unit :=
  match n with
  | O => ret tt
  | S n' =>
      f <- getp cur (fun p => default 0 (ofile p !! fd)) ;;
      (if negb (f =? 0) then
         on_fs (fileclose f) ;;;
         upd_proc cur (fun p => set_ofile (<[fd := 0]> (ofile p)) p)
       else ret tt) ;;;
      exit_files n' cur (S fd)
  end.

(** The loop that passes abandoned children to init. *)
Fixpoint exit_children (n : nat) (cur i : nat) : M (kst F) unit :=
  match n with
  | O => ret tt
  | S n' =>
      p <- gets (fun s => ptable s i) ;;
      (if bool_decide (parent p = Some cur) then
         ip <- gets initproc ;;
         upd_proc i (set_parent ip) ;;;
         if bool_decide (pstate p = ZOMBIE)
         then wakeup1 (ChProc <$> ip) else ret tt
       else ret tt) ;;;
      exit_children n' cur (S i)
  end.

(** [exit] up to the [swtch] in [sched]; it never comes back. *)
Definition exit : M (kst F) Z :=
  cur <- curproc ;;
  ip <- gets initproc ;;
  if bool_decide (ip = Some cur) then panic "init exiting"
  else
    exit_files NOFILE cur 0 ;;;
    on_fs begin_op ;;;
    w <- getp cur cwd ;;
    on_fs (iput w) ;;;
    on_fs end_op ;;;
    upd_proc cur (set_cwd 0) ;;;
    kacquire Ptable ;;;
    par <- getp cur parent ;;
    wakeup1 (ChProc <$> par) ;;;
    exit_children NPROC cur 0 ;;;
    tick_self cur ;;;
    upd_proc cur (set_pstate ZOMBIE) ;;;
    sched.

(** What one pass of [wait] over the table finds. *)
Inductive wait_res := WFound (pid : Z) | WNone | WKids.

(** The reaping of the zombie in slot [i]. *)
Definition reap (i : nat) : M (kst F) Z :=
  n <- getp i pid ;;
  k <- getp i kstack ;;
  on_mem (kfree kend k) ;;;
  upd_proc i (set_kstack 0) ;;;
  d <- getp i pgdir ;;
  on_mem (freevm kend d) ;;;
  upd_proc i (set_pid 0) ;;;
  upd_proc i (set_parent None) ;;;
  upd_proc i (set_pname []) ;;;
  upd_proc i (set_killed false) ;;;
  upd_proc i (set_pstate UNUSED) ;;;
  ret n.

Fixpoint wait_scan (n : nat) (cur i : nat) (havekids : bool) : M (kst F) wait_res :=
  match n with
  | O => ret (if havekids then WKids else WNone)
  | S n' =>
      p <- gets (fun s => ptable s i) ;;
      if negb (bool_decide (parent p = Some cur)) then wait_scan n' cur (S i) havekids
      else if bool_decide (pstate p = ZOMBIE) then n <- reap i ;; ret (WFound n)
      else wait_scan n' cur (S i) true
  end.

(** One iteration of [wait]'s loop, entered with [ptable.lock] held: the result
    of [wait], or the [intena] saved by the [sleep] the loop continues after. *)
Definition wait_iter : M (kst F) (Z + Z) :=
  cur <- curproc ;;
  r <- wait_scan NPROC cur 0 false ;;
  match r with
  | WFound n => krelease Ptable ;;; ret (inl n)
  | WNone => krelease Ptable ;;; ret (inl (-1))
  | WKids =>
      k <- getp cur killed ;;
      if k : bool then krelease Ptable ;;; ret (inl (-1))
      else i <- sleep (ChProc cur) Ptable ;; ret (inr i)
  end.
Definition wait : M (kst F) (Z + Z) := kacquire Ptable ;;; wait_iter.
Definition wait_back (saved : Z) : M (kst F) (Z + Z) := sleep_back Ptable saved ;;; wait_iter.

Definition kill (n : Z) : M (kst F) Z :=
  kacquire Ptable ;;;
  f <- gets (fun s => scan (fun i => pid (ptable s i) =? n) NPROC 0) ;;
  match f with
  | None => krelease Ptable ;;; ret (-1)
  | Some i =>
      upd_proc i (set_killed true) ;;;
      s <- getp i pstate ;;
      (if bool_decide (s = SLEEPING) then upd_proc i (set_pstate RUNNABLE) else ret tt) ;;;
      krelease Ptable ;;;
      ret 0
  end.

Definition find_proc_by_pid (n : Z) : M (kst F) (option nat) :=
  gets (fun s => scan (fun i => pid (ptable s i) =? n) NPROC 0).

(** [procdump]: what it prints for each slot in use, the pid, the state, the
    name, and for a sleeper the return addresses up to the first 0. *)
Definition state_name (s : procstate) : string :=
  match s with
  | UNUSED => "unused" | EMBRYO => "embryo" | SLEEPING => "sleep "
  | RUNNABLE => "runble" | RUNNING => "run   " | ZOMBIE => "zombie"
  end.
Fixpoint upto_zero (l : list Z) : list Z :=
  match l with
  | [] => []
  | x :: l' => if x =? 0 then [] else x :: upto_zero l'
  end.
Definition dump_one (m : mem) (p : proc) : list (Z * string * list Z * list Z) :=
  if bool_decide (pstate p = UNUSED) then []
  else [(pid p, state_name (pstate p), pname p,
         if bool_decide (pstate p = SLEEPING)
         then upto_zero (getcallerpcs m (u32 (ld32 m (context p + 12) + 8))) else [])].
Definition procdump (s : kst F) : list (Z * string * list Z * list Z) :=
  concat (map (fun i => dump_one (k_mem (km s)) (ptable s i)) (seq 0 NPROC)).
End Proc.
