(* ===== verification/ProcRules.v ===== *)
(** * Rules for the process routines

    Weakest-precondition rules for the primitives of [Proc] (locks, the running
    process, [sched]) and for the routines built from them. *)

From S2P Require Import Prelude Mem Mmu Spinlock Kalloc Vm Proc.
Local Open Scope Z_scope.

Section Rules.
Context {F : Type} `{FileOps F}.
Context (me : nat).

(** The state with a lock's holder replaced, with a process slot replaced. *)
Definition with_lock (l : lockid) (h : option nat) (s : kst F) : kst F :=
  set_locks (<[l := h]> (locks s)) s.
Definition with_proc (i : nat) (p : proc) (s : kst F) : kst F :=
  set_ptable (<[i := p]> (ptable s)) s.

(** CPU [c]'s interrupt state: nesting [n], interrupts off if [n > 0]. *)
Definition nest (s : kst F) (c : nat) (n : Z) : Prop :=
  ncli (kc (kcpus s c)) = n /\ (0 < n -> if_off (kc (kcpus s c)) = true).

(** Only the running CPU's interrupt state changed; its nesting is now [n]. *)
Record kstep (n : Z) (s s' : kst F) : Prop := mkkstep {
  ks_rest : s' = set_kcpus (kcpus s') s;
  ks_other : forall c, c <> me -> kcpus s' c = kcpus s c;
  ks_self : kcpus s' me = set_kc (kc (kcpus s' me)) (kcpus s me);
  ks_nest : nest s' me n }.

Lemma kstep_trans n1 n2 s s1 s2 : kstep n1 s s1 -> kstep n2 s1 s2 -> kstep n2 s s2.
Proof.
  intros [R1 O1 S1 N1] [R2 O2 S2 N2]. split; auto.
  - rewrite R2, R1 at 1. reflexivity.
  - intros c Hc. rewrite O2, O1 by exact Hc. reflexivity.
  - rewrite S2, S1 at 1. reflexivity.
Qed.

Lemma kstep_refl n s : nest s me n -> kstep n s s.
Proof. intros Hn. split; auto; [destruct s; reflexivity|]. destruct (kcpus s me). reflexivity. Qed.

Lemma kstep_ptable n s s' : kstep n s s' -> ptable s' = ptable s.
Proof. intros [-> _ _ _]. reflexivity. Qed.
Lemma kstep_locks n s s' : kstep n s s' -> locks s' = locks s.
Proof. intros [-> _ _ _]. reflexivity. Qed.
Lemma kstep_km n s s' : kstep n s s' -> km s' = km s.
Proof. intros [-> _ _ _]. reflexivity. Qed.
Lemma kstep_initproc n s s' : kstep n s s' -> initproc s' = initproc s.
Proof. intros [-> _ _ _]. reflexivity. Qed.
Lemma kstep_mlfq n s s' : kstep n s s' -> proc_priority s' = proc_priority s /\
  proc_ticks s' = proc_ticks s /\ proc_wait_ticks s' = proc_wait_ticks s.
Proof. intros [-> _ _ _]. auto. Qed.

Lemma kstep_cproc n s s' c : kstep n s s' -> cproc (kcpus s' c) = cproc (kcpus s c).
Proof.
  intros [_ O S' _]. destruct (decide (c = me)) as [->|Hne]; [rewrite S'; reflexivity|].
  rewrite O by exact Hne. reflexivity.
Qed.

Lemma kstep_policy n s s' c : kstep n s s' -> sched_policy (kcpus s' c) = sched_policy (kcpus s c).
Proof.
  intros [_ O S' _]. destruct (decide (c = me)) as [->|Hne]; [rewrite S'; reflexivity|].
  rewrite O by exact Hne. reflexivity.
Qed.

Lemma kstep_set k n s : ncli k = n -> (0 < n -> if_off k = true) ->
  kstep n s (set_kcpus (<[me := set_kc k (kcpus s me)]> (kcpus s)) s).
Proof.
  intros Hn Ho. split; cbn [kcpus set_kcpus].
  - reflexivity.
  - intros c Hc. apply fn_insert_ne. congruence.
  - rewrite fn_insert_eq. reflexivity.
  - unfold nest. cbn [kcpus set_kcpus]. rewrite fn_insert_eq. auto.
Qed.

Lemma wlp_on_mem {A} (f : M kmem A) (Q : A -> kst F -> Prop) s :
  (forall a m, Q a (set_km m s)) -> wlp (on_mem f) Q s.
Proof. intros HQ. unfold wlp, on_mem, lift. destruct (f (km s)) as [[a m]| |]; auto. Qed.

Lemma wlp_on_fs {A} (f : M F A) (Q : A -> kst F -> Prop) s :
  (forall a m, Q a (set_fstate m s)) -> wlp (on_fs f) Q s.
Proof. intros HQ. unfold wlp, on_fs, lift. destruct (f (fstate s)) as [[a m]| |]; auto. Qed.

Lemma wp_pushcli (Q : unit -> kst F -> Prop) n s : nest s me n -> 0 <= n ->
  (forall s', kstep (n + 1) s s' -> Q tt s') -> wp (on_kc me pushcli) Q s.
Proof.
  intros [Hn Hoff] H0 HQ. unfold wp, on_kc, lift. rewrite pushcli_eq. apply HQ, kstep_set; cbn [ncli].
  - lia.
  - intros _. unfold if_off. cbn [eflags]. rewrite Z.land_ldiff. reflexivity.
Qed.

Lemma wp_popcli (Q : unit -> kst F -> Prop) n s : nest s me n -> 1 <= n ->
  (forall s', kstep (n - 1) s s' -> Q tt s') -> wp (on_kc me popcli) Q s.
Proof.
  intros [Hn Hoff] H1 HQ. unfold wp, on_kc, lift. rewrite popcli_eq by (auto with lia).
  cbv zeta. apply HQ, kstep_set; case_if; cbn; try lia; auto with lia.
Qed.

Lemma wp_acquire (Q : unit -> kst F -> Prop) l n s : nest s me n -> 0 <= n -> locks s l = None ->
  (forall s', kstep (n + 1) s s' -> Q tt (with_lock l (Some me) s')) ->
  wp (kacquire me l) Q s.
Proof.
  intros Hn H0 Hl HQ. unfold kacquire. apply wp_bind. eapply wp_pushcli; eauto. intros s' Hs.
  apply wp_bind. unfold wp at 1, gets. rewrite (kstep_locks _ _ _ Hs), Hl. apply HQ, Hs.
Qed.

Lemma wp_release (Q : unit -> kst F -> Prop) l n s : nest s me n -> 1 <= n -> locks s l = Some me ->
  (forall s', kstep (n - 1) (with_lock l None s) s' -> Q tt s') ->
  wp (krelease me l) Q s.
Proof.
  intros Hn H1 Hl HQ. unfold krelease, kholding. apply wp_bind. unfold wp at 1, gets.
  rewrite bool_decide_eq_true_2 by exact Hl. cbn [negb].
  apply wp_bind. unfold wp at 1, modify. eapply wp_popcli; eauto.
Qed.

Lemma wp_myproc (Q : option nat -> kst F -> Prop) n s : nest s me n -> 0 <= n ->
  (forall s', kstep n s s' -> Q (cproc (kcpus s me)) s') -> wp (myproc me) Q s.
Proof.
  intros Hn H0 HQ. unfold myproc. apply wp_bind. eapply wp_pushcli; eauto. intros s1 H1.
  apply wp_bind. unfold wp at 1, gets. rewrite (kstep_cproc _ _ _ _ H1).
  apply wp_bind. eapply wp_popcli; [apply H1|lia|]. intros s2 H2.
  replace (n + 1 - 1) with n in H2 by lia. apply HQ. eapply kstep_trans; eauto.
Qed.

Lemma wp_curproc (Q : nat -> kst F -> Prop) i n s : nest s me n -> 0 <= n ->
  cproc (kcpus s me) = Some i -> (forall s', kstep n s s' -> Q i s') -> wp (curproc me) Q s.
Proof.
  intros Hn H0 Hc HQ. unfold curproc. apply wp_bind. eapply wp_myproc; eauto. rewrite Hc. exact HQ.
Qed.

Lemma wp_sched (Q : Z -> kst F -> Prop) i s : nest s me 1 -> cproc (kcpus s me) = Some i ->
  locks s Ptable = Some me -> pstate (ptable s i) <> RUNNING ->
  (forall v s', kstep 1 s s' -> Q v s') -> wp (sched me) Q s.
Proof.
  intros Hn Hc Hl Hst HQ. unfold sched. apply wp_bind. eapply wp_curproc; eauto; [lia|]. intros s1 H1.
  do 3 (apply wp_bind, wp_gets).
  unfold kholding. rewrite (kstep_locks _ _ _ H1), bool_decide_eq_true_2 by exact Hl.
  destruct (ks_nest _ _ _ H1) as [Hn1 Ho1]. rewrite Hn1. cbn [negb Z.eqb Pos.eqb].
  rewrite (kstep_ptable _ _ _ H1), bool_decide_eq_false_2 by exact Hst.
  unfold if_off in Ho1. rewrite Ho1 by lia. apply HQ, H1.
Qed.

Lemma wp_sched_back (Q : unit -> kst F -> Prop) v n s : nest s me n ->
  (forall s', kstep n s s' -> Q tt s') -> wp (sched_back me v) Q s.
Proof.
  intros [Hn Ho] HQ. apply wp_modify, HQ. split; cbn [kcpus set_kcpus].
  - reflexivity.
  - intros c Hc. apply fn_insert_ne. congruence.
  - rewrite fn_insert_eq. reflexivity.
  - unfold nest. cbn [kcpus set_kcpus]. rewrite fn_insert_eq. auto.
Qed.
End Rules.
