(* ===== verification/Sched.v ===== *)
(** * The scheduler

    Models [scheduler] of [src/xv6/proc.c]: round robin (policy 0) and the
    multi-level feedback queue (other policies).  The scheduler's loop is cut at
    [swtch]: [sched_top] runs from the top of the loop to the switch into a
    process or to the end of the iteration, [sched_resume] from the return of
    that switch.  A CPU's position in between is its [loop_at]. *)

From S2P Require Import Prelude Mem Mmu Spinlock Kalloc Vm Proc.
Local Open Scope Z_scope.

(** Where a CPU's scheduler stands: at the top of its loop, or inside [swtch]
    to process [i], in the round-robin loop or under the given policy. *)
Inductive loop_at := LTop | LRR (i : nat) | LMlfq (policy : Z) (i : nat).

(** [(int[]){0, 32, 16, 8}[level]] *)
Definition slice (level : Z) : Z :=
  if level =? 1 then 32 else if level =? 2 then 16 else if level =? 3 then 8 else 0.

Section Sched.
Context {F : Type} `{FileOps F}.
Context (kpgdir : Z) (me : nat).

Definition dispatch (i : nat) : M (kst F) unit :=
  upd_cpu me (set_cproc (Some i)) ;;;
  switchuvm me i ;;;
  upd_proc i (set_pstate RUNNING).

(** The round-robin loop from slot [i]. *)
Fixpoint rr_scan (n i : nat) : M (kst F) loop_at :=
  match n with
  | O => krelease me Ptable ;;; ret LTop
  | S n' =>
      s <- getp i pstate ;;
      if negb (bool_decide (s = RUNNABLE)) then rr_scan n' (S i)
      else dispatch i ;;; ret (LRR i)
  end.

(** The search for the first runnable process of the highest level. *)
Definition mlfq_level (s : kst F) (level : Z) : option nat :=
  scan (fun i => bool_decide (pstate (ptable s i) = RUNNABLE) && (proc_priority s i =? level)) NPROC 0.
Fixpoint mlfq_choose (n : nat) (level : Z) (s : kst F) : option nat :=
  match n with
  | O => None
  | S n' => match mlfq_level s level with
            | Some i => Some i
            | None => mlfq_choose n' (level - 1) s
            end
  end.

(** The accounting after the chosen process gave the CPU back. *)
Definition account (i : nat) : M (kst F) unit :=
  tick_self i ;;;
  s <- get ;;
  let l := proc_priority s i in
  if (proc_ticks s i l >=? slice l) && (l >? 0) then
    modify (set_proc_priority (<[i := l - 1]> (proc_priority s))) ;;;
    modify (set_proc_wait_ticks (<[i := zero_levels]> (proc_wait_ticks s)))
  else ret tt.

Definition count_waiting (chosen : option nat) : M (kst F) unit :=
  modify (fun s => set_proc_wait_ticks (fun i =>
    if (i <? NPROC)%nat && bool_decide (pstate (ptable s i) = RUNNABLE) && bool_decide (Some i <> chosen)
    then let l := proc_priority s i in <[l := s32 (proc_wait_ticks s i l + 1)]> (proc_wait_ticks s i)
    else proc_wait_ticks s i) s).

(** How long a process waits at a level before it is raised. *)
Definition required (level : Z) : Z := if level =? 0 then 500 else 10 * slice level.
Definition boosts (s : kst F) (i : nat) : bool :=
  (i <? NPROC)%nat && bool_decide (pstate (ptable s i) = RUNNABLE) && (proc_priority s i <? 3) &&
  (proc_wait_ticks s i (proc_priority s i) >=? required (proc_priority s i)).
Definition boost : M (kst F) unit :=
  modify (fun s =>
    set_proc_priority (fun i => if boosts s i then proc_priority s i + 1 else proc_priority s i)
      (set_proc_wait_ticks (fun i => if boosts s i then zero_levels else proc_wait_ticks s i) s)).

(** The rest of a feedback-queue iteration. *)
Definition mlfq_tail (policy : Z) (chosen : option nat) : M (kst F) loop_at :=
  count_waiting chosen ;;;
  (if negb (policy =? 3) then boost else ret tt) ;;;
  krelease me Ptable ;;;
  ret LTop.

Definition sched_top : M (kst F) loop_at :=
  on_kc me (modify sti) ;;;
  kacquire me Ptable ;;;
  policy <- gets (fun s => sched_policy (kcpus s me)) ;;
  if policy =? 0 then rr_scan NPROC 0
  else
    c <- gets (mlfq_choose 4 3) ;;
    match c with
    | Some i => dispatch i ;;; ret (LMlfq policy i)
    | None => mlfq_tail policy None
    end.

Definition sched_resume (l : loop_at) : M (kst F) loop_at :=
  match l with
  | LTop => panic "swtch"
  | LRR i =>
      switchkvm me kpgdir ;;;
      upd_cpu me (set_cproc None) ;;;
      rr_scan (NPROC - S i) (S i)
  | LMlfq policy i =>
      switchkvm me kpgdir ;;;
      account i ;;;
      upd_cpu me (set_cproc None) ;;;
      mlfq_tail policy (Some i)
  end.

(** [sys_setSchedPolicy] after its argument is fetched. *)
Definition setSchedPolicy (policy : Z) : M (kst F) Z :=
  on_kc me pushcli ;;;
  upd_cpu me (set_sched_policy policy) ;;;
  on_kc me popcli ;;;
  ret 0.
End Sched.
