(* ===== verification/System.v ===== *)
(** * The process system

    All CPUs running processes: a step relation whose steps are the routines of
    [Proc] and [Sched] between context switches, and the invariant of the process
    table that every interleaving of these steps keeps. *)

From S2P Require Import Prelude Mem Mmu Spinlock Kalloc Vm Proc ProcRules Sched.
Local Open Scope Z_scope.

(** ** The invariant of the process table *)

Definition active (st : procstate) : bool :=
  match st with SLEEPING | RUNNABLE | RUNNING => true | _ => false end.

(** [t] is the table, [np] the next pid, [init] the slot of the first process. *)
Record table_inv (t : nat -> proc) (np : Z) (init : option nat) : Prop := mktable {
  ti_bound : forall i, (NPROC <= i)%nat -> pstate (t i) = UNUSED;
  ti_embryo : forall i, pstate (t i) <> EMBRYO;
  ti_live : forall i, pstate (t i) <> UNUSED -> kstack (t i) <> 0 /\ pgdir (t i) <> 0;
  ti_init : forall i, init = Some i -> active (pstate (t i)) = true;
  ti_parent : forall i, pstate (t i) <> UNUSED -> init <> Some i ->
    exists j, parent (t i) = Some j /\ active (pstate (t j)) = true;
  ti_pid : forall i, pstate (t i) <> UNUSED -> 1 <= pid (t i) < np;
  ti_uniq : forall i j, pstate (t i) <> UNUSED -> pstate (t j) <> UNUSED ->
    pid (t i) = pid (t j) -> i = j }.

(** A change of one slot's state (and of fields the invariant does not read). *)
Definition same_core (p p' : proc) : Prop :=
  kstack p' = kstack p /\ pgdir p' = pgdir p /\ parent p' = parent p /\ pid p' = pid p.

Lemma table_inv_states t t' np init :
  (forall i, same_core (t i) (t' i)) ->
  (forall i, pstate (t' i) = UNUSED <-> pstate (t i) = UNUSED) ->
  (forall i, pstate (t' i) <> EMBRYO) ->
  (forall i, active (pstate (t i)) = true -> active (pstate (t' i)) = true) ->
  table_inv t np init -> table_inv t' np init.
Proof.
  intros Hc Hu He Ha [H1 H2 H3 H4 H5 H6 H7].
  split; auto; intros i; destruct (Hc i) as (C1 & C2 & C3 & C4).
  - intros Hi. apply Hu, H1, Hi.
  - rewrite Hu, C1, C2. apply H3.
  - rewrite Hu, C3. intros Hn Hi. destruct (H5 i Hn Hi) as (j & Hp & Hj). eauto.
  - rewrite Hu, C4. apply H6.
  - intros j. destruct (Hc j) as (D1 & D2 & D3 & D4). rewrite !Hu, C4, D4. apply H7.
Qed.

(** The running process [i] ends: its children go to init, it becomes a zombie. *)
Lemma table_inv_exit t t' np init i k :
  table_inv t np init -> init = Some k -> i <> k -> active (pstate (t i)) = true ->
  (forall j, kstack (t' j) = kstack (t j) /\ pgdir (t' j) = pgdir (t j) /\ pid (t' j) = pid (t j)) ->
  (forall j, j <> i -> (pstate (t' j) = UNUSED <-> pstate (t j) = UNUSED) /\ pstate (t' j) <> EMBRYO /\
     (active (pstate (t j)) = true -> active (pstate (t' j)) = true)) ->
  pstate (t' i) = ZOMBIE ->
  (forall j, pstate (t j) <> UNUSED ->
     parent (t' j) = if decide (parent (t j) = Some i) then init else parent (t j)) ->
  table_inv t' np init.
Proof.
  intros [H1 H2 H3 H4 H5 H6 H7] Hk Hik Hact Hc Hst Hz Hpar.
  assert (Hu : forall j, pstate (t' j) = UNUSED <-> pstate (t j) = UNUSED).
  { intros j. destruct (decide (j = i)) as [->|Hne]; [|apply Hst, Hne].
    rewrite Hz. destruct (pstate (t i)); cbn in Hact; split; congruence. }
  assert (Hik' : active (pstate (t' k)) = true).
  { apply Hst; [congruence|]. apply H4, Hk. }
  split.
  - intros j Hj. apply Hu, H1, Hj.
  - intros j. destruct (decide (j = i)) as [->|Hne]; [congruence|]. apply Hst, Hne.
  - intros j. destruct (Hc j) as (C1 & C2 & _). rewrite Hu, C1, C2. apply H3.
  - intros j Hj. rewrite Hk in Hj. injection Hj as <-. exact Hik'.
  - intros j Hn Hji. rewrite Hu in Hn. destruct (H5 j Hn Hji) as (q & Hp & Hq). rewrite Hpar, Hp by exact Hn.
    case_decide as Hd; [exists k; auto|]. exists q. split; [reflexivity|].
    apply Hst; [congruence|exact Hq].
  - intros j. destruct (Hc j) as (_ & _ & C3). rewrite Hu, C3. apply H6.
  - intros j j'. destruct (Hc j) as (_ & _ & C3), (Hc j') as (_ & _ & D3). rewrite !Hu, C3, D3. apply H7.
Qed.

(** A zombie is reaped: its slot becomes free. *)
Lemma table_inv_reap t t' np init i :
  table_inv t np init -> pstate (t i) = ZOMBIE -> pstate (t' i) = UNUSED ->
  (forall j, j <> i -> t' j = t j) -> table_inv t' np init.
Proof.
  intros [H1 H2 H3 H4 H5 H6 H7] Hz Hu Hs.
  assert (Hne : forall j, pstate (t' j) <> UNUSED -> j <> i) by congruence.
  assert (Ha : forall j, active (pstate (t j)) = true -> t' j = t j)
    by (intros j Hj; apply Hs; intros ->; rewrite Hz in Hj; discriminate).
  split.
  - intros j Hj. destruct (decide (j = i)) as [->|Hn]; [exact Hu|]. rewrite Hs by exact Hn. auto.
  - intros j. destruct (decide (j = i)) as [->|Hn]; [congruence|]. rewrite Hs by exact Hn. auto.
  - intros j Hj. pose proof (Hs j (Hne j Hj)) as E. rewrite E in *. auto.
  - intros j Hj. pose proof (H4 j Hj) as Hact. rewrite Ha by exact Hact. exact Hact.
  - intros j Hj Hi. pose proof (Hs j (Hne j Hj)) as E. rewrite E in *.
    destruct (H5 j Hj Hi) as (q & Hp & Hq). exists q. rewrite (Ha q Hq). auto.
  - intros j Hj. pose proof (Hs j (Hne j Hj)) as E. rewrite E in *. auto.
  - intros j j' Hj Hj'. pose proof (Hs j (Hne j Hj)) as E. pose proof (Hs j' (Hne j' Hj')) as E'.
    rewrite E, E' in *. auto.
Qed.

(** A free slot becomes a new runnable process with parent [c]. *)
Lemma table_inv_fork t t' np init i c :
  table_inv t np init -> 1 <= np -> (i < NPROC)%nat -> pstate (t i) = UNUSED -> active (pstate (t c)) = true ->
  active (pstate (t' i)) = true -> kstack (t' i) <> 0 -> pgdir (t' i) <> 0 ->
  parent (t' i) = Some c -> pid (t' i) = np -> (forall j, j <> i -> t' j = t j) ->
  table_inv t' (np + 1) init.
Proof.
  intros [H1 H2 H3 H4 H5 H6 H7] Hnp Hb Hu Hc Ha Hk Hd Hp Hpid Hs.
  assert (Hact : forall j, active (pstate (t j)) = true -> active (pstate (t' j)) = true).
  { intros j Hj. rewrite Hs; [exact Hj|]. intros ->. rewrite Hu in Hj. discriminate. }
  split.
  - intros j Hj. rewrite Hs by lia. auto.
  - intros j. destruct (decide (j = i)) as [->|Hn]; [destruct (pstate (t' i)); discriminate|].
    rewrite Hs by exact Hn. auto.
  - intros j Hj. destruct (decide (j = i)) as [->|Hn]; [auto|]. pose proof (Hs j Hn) as E. rewrite E in *. auto.
  - auto.
  - intros j Hj Hi. destruct (decide (j = i)) as [->|Hn]; [eauto|]. pose proof (Hs j Hn) as E. rewrite E in *.
    destruct (H5 j Hj Hi) as (q & Hq & Hq'). eauto.
  - intros j Hj. destruct (decide (j = i)) as [->|Hn]; [lia|]. pose proof (Hs j Hn) as E. rewrite E in *.
    pose proof (H6 j Hj). lia.
  - intros j j' Hj Hj' Heq.
    destruct (decide (j = i)) as [->|Hn], (decide (j' = i)) as [->|Hn']; auto.
    + pose proof (Hs j' Hn') as E. rewrite E in *. pose proof (H6 j' Hj'). lia.
    + pose proof (Hs j Hn) as E. rewrite E in *. pose proof (H6 j Hj). lia.
    + pose proof (Hs j Hn) as E. pose proof (Hs j' Hn') as E'. rewrite E, E' in *. auto.
Qed.

(** ** What a routine run by a process may do

    [running s c i]: CPU [c] runs process [i], no lock is held.  [op_post]: after
    the routine, either it is still running ([off] false), or it has left its
    state and is about to switch to the scheduler, holding [ptable.lock]. *)

Section System.
Context {F : Type} `{FileOps F}.

Definition tinv (s : kst F) : Prop := table_inv (ptable s) (nextpid s) (initproc s).

(** Every process is at one of the feedback queue's four levels. *)
Definition levels (s : kst F) : Prop := forall i, 0 <= proc_priority s i <= 3.

Lemma levels_eq s s' : proc_priority s' = proc_priority s -> levels s -> levels s'.
Proof. unfold levels. intros ->. auto. Qed.

Lemma levels_kstep me n s s' : kstep me n s s' -> levels s -> levels s'.
Proof. intros Hk. apply levels_eq, (kstep_mlfq _ _ _ _ Hk). Qed.

Definition locks_held (s : kst F) (h : option nat) : Prop :=
  locks s Ptable = h /\ forall l, l <> Ptable -> locks s l = None.

Record running (s : kst F) (c i : nat) : Prop := mkrunning {
  ru_cproc : cproc (kcpus s c) = Some i;
  ru_nest : nest s c 0;
  ru_locks : locks_held s None;
  ru_state : pstate (ptable s i) = RUNNING;
  ru_inv : tinv s }.

Record op_post (c i : nat) (off : bool) (s s' : kst F) : Prop := mkop {
  op_locks : locks_held s' (if off then Some c else None);
  op_cpus : forall c', c' <> c -> kcpus s' c' = kcpus s c';
  op_cproc : cproc (kcpus s' c) = cproc (kcpus s c);
  op_nest : nest s' c (if off then 1 else 0);
  op_self : pstate (ptable s' i) = RUNNING <-> off = false;
  op_others : forall j, j <> i -> pstate (ptable s' j) = RUNNING <-> pstate (ptable s j) = RUNNING;
  op_inv : tinv s';
  op_init : initproc s' = initproc s;
  op_levels : levels s -> levels s' }.

Lemma locks_held_kstep me n s s' h : kstep me n s s' -> locks_held s h -> locks_held s' h.
Proof. intros Hk. unfold locks_held. rewrite (kstep_locks _ _ _ _ Hk). auto. Qed.

Lemma locks_held_with s h h' : locks_held s h -> locks_held (with_lock Ptable h' s) h'.
Proof.
  intros [_ Ho]. split; cbn [locks with_lock set_locks]; [apply fn_lookup_insert|].
  intros l Hl. rewrite fn_lookup_insert_ne by congruence. auto.
Qed.

Lemma tinv_kstep me n s s' : kstep me n s s' -> tinv s -> tinv s'.
Proof. intros Hk. unfold tinv. rewrite (ks_rest _ _ _ _ Hk). auto. Qed.

(** The running process is an active one. *)
Lemma running_active s c i : running s c i -> active (pstate (ptable s i)) = true.
Proof. intros [_ _ _ -> _]. reflexivity. Qed.

(** Inside the critical section that CPU [c], running the process [o], entered in
    state [s]. *)
Record in_section (c : nat) (o : option nat) (s s' : kst F) : Prop := mksection {
  se_locks : locks_held s' (Some c);
  se_cpus : forall c', c' <> c -> kcpus s' c' = kcpus s c';
  se_cproc : cproc (kcpus s' c) = cproc (kcpus s c);
  se_self : cproc (kcpus s c) = o;
  se_nest : nest s' c 1;
  se_init : initproc s' = initproc s;
  se_levels : levels s -> levels s' }.

Lemma in_section_levels c o s s1 s2 : locks s2 = locks s1 -> kcpus s2 = kcpus s1 -> initproc s2 = initproc s1 ->
  (levels s1 -> levels s2) -> in_section c o s s1 -> in_section c o s s2.
Proof.
  intros El Ek Ei Ep [H1 H2 H3 H4 H5 H6 H7]. split; unfold locks_held, nest in *; rewrite ?El, ?Ek, ?Ei; auto.
Qed.

Lemma in_section_ext c o s s1 s2 : locks s2 = locks s1 -> kcpus s2 = kcpus s1 -> initproc s2 = initproc s1 ->
  proc_priority s2 = proc_priority s1 -> in_section c o s s1 -> in_section c o s s2.
Proof. intros El Ek Ei Ep. apply in_section_levels; auto. apply levels_eq, Ep. Qed.

Lemma in_section_kstep c o s s1 s2 : kstep c 1 s1 s2 -> in_section c o s s1 -> in_section c o s s2.
Proof.
  intros K [H1 H2 H3 H4 H5 H6 H7]. split; auto.
  - eapply locks_held_kstep; eauto.
  - intros c' Hc. rewrite (ks_other _ _ _ _ K) by exact Hc. auto.
  - rewrite (kstep_cproc _ _ _ _ _ K). exact H3.
  - apply K.
  - rewrite (kstep_initproc _ _ _ _ K). exact H6.
  - intros Hv. eapply levels_kstep; eauto.
Qed.

Lemma acquire_section (Q : unit -> kst F -> Prop) c i s : running s c i ->
  (forall s', in_section c (Some i) s s' -> ptable s' = ptable s -> nextpid s' = nextpid s -> Q tt s') ->
  wp (kacquire c Ptable) Q s.
Proof.
  intros [Hc Hn Hl Hs Hi] HQ. eapply wp_acquire; [exact Hn|lia|exact (proj1 Hl)|]. intros s1 K1.
  apply HQ.
  - split; cbn [with_lock set_locks kcpus initproc].
    + eapply locks_held_with, locks_held_kstep; eauto.
    + apply K1.
    + apply (kstep_cproc _ _ _ _ _ K1).
    + exact Hc.
    + exact (ks_nest _ _ _ _ K1).
    + apply (kstep_initproc _ _ _ _ K1).
    + apply (levels_kstep _ _ _ _ K1).
  - apply (kstep_ptable _ _ _ _ K1).
  - cbn [with_lock set_locks nextpid]. rewrite (ks_rest _ _ _ _ K1). reflexivity.
Qed.

(** [curproc] inside the section. *)
Lemma section_curproc (Q : nat -> kst F -> Prop) c i s s1 : in_section c (Some i) s s1 ->
  (forall s2, in_section c (Some i) s s2 -> ptable s2 = ptable s1 -> nextpid s2 = nextpid s1 -> Q i s2) ->
  wp (curproc c) Q s1.
Proof.
  intros Hs HQ. eapply (wp_curproc _ _ i 1); [apply (se_nest _ _ _ _ Hs)|lia| |].
  - rewrite (se_cproc _ _ _ _ Hs). apply (se_self _ _ _ _ Hs).
  - intros s2 K. apply HQ; [eapply in_section_kstep; eauto|apply (kstep_ptable _ _ _ _ K)|].
    rewrite (ks_rest _ _ _ _ K). reflexivity.
Qed.

(** [sched] from the section: the process leaves the CPU. *)
Lemma section_sched c i s s1 : in_section c (Some i) s s1 -> pstate (ptable s1 i) <> RUNNING ->
  (forall j, j <> i -> pstate (ptable s1 j) = RUNNING <-> pstate (ptable s j) = RUNNING) -> tinv s1 ->
  wp (sched c) (fun _ s' => op_post c i true s s' /\ ptable s' = ptable s1) s1.
Proof.
  intros Hs Hst Ho Hi. eapply (wp_sched _ _ i); auto.
  - apply (se_nest _ _ _ _ Hs).
  - rewrite (se_cproc _ _ _ _ Hs). apply (se_self _ _ _ _ Hs).
  - apply (se_locks _ _ _ _ Hs).
  - intros v s' K. pose proof (in_section_kstep _ _ _ _ _ K Hs) as [H1 H2 H3 H4 H5 H6 H7].
    split; [|apply (kstep_ptable _ _ _ _ K)]. split; auto; rewrite ?(kstep_ptable _ _ _ _ K); auto.
    + split; [contradiction|discriminate].
    + eapply tinv_kstep; eauto.
Qed.

(** [release] from the section: the process goes on. *)
Lemma section_release c i s s1 : in_section c (Some i) s s1 -> pstate (ptable s1 i) = RUNNING ->
  (forall j, j <> i -> pstate (ptable s1 j) = RUNNING <-> pstate (ptable s j) = RUNNING) -> tinv s1 ->
  wp (krelease c Ptable) (fun _ s' => op_post c i false s s' /\ ptable s' = ptable s1) s1.
Proof.
  intros Hs Hst Ho Hi. eapply wp_release; [apply (se_nest _ _ _ _ Hs)|lia|apply (se_locks _ _ _ _ Hs)|].
  intros s' K. destruct Hs as [H1 H2 H3 H4 H5 H6 H7]. pose proof (kstep_ptable _ _ _ _ K) as Ep.
  cbn [ptable with_lock set_locks] in Ep. split; [|exact Ep]. split; rewrite ?Ep; auto.
  - eapply locks_held_kstep, locks_held_with; eauto.
  - intros c' Hc. rewrite (ks_other _ _ _ _ K) by exact Hc. apply H2, Hc.
  - rewrite (kstep_cproc _ _ _ _ _ K). exact H3.
  - exact (ks_nest _ _ _ _ K).
  - tauto.
  - eapply tinv_kstep; [exact K|]. exact Hi.
  - rewrite (kstep_initproc _ _ _ _ K). exact H6.
  - intros Hv. apply (levels_kstep _ _ _ _ K), H7, Hv.
Qed.

(** A slot's state changed, between states in use. *)
Lemma tinv_set_state s s' i p : tinv s ->
  ptable s' i = p -> (forall j, j <> i -> ptable s' j = ptable s j) ->
  nextpid s' = nextpid s -> initproc s' = initproc s ->
  same_core (ptable s i) p -> (pstate p = UNUSED <-> pstate (ptable s i) = UNUSED) -> pstate p <> EMBRYO ->
  (active (pstate (ptable s i)) = true -> active (pstate p) = true) -> tinv s'.
Proof.
  intros Hi Ep Eo En Ei Hc Hu He Ha. unfold tinv. rewrite En, Ei.
  eapply table_inv_states; [..|exact Hi]; intros j;
    (destruct (decide (j = i)) as [->|Hne]; [rewrite Ep|rewrite (Eo j Hne)]); auto;
    try (unfold same_core; auto; fail); try reflexivity.
  apply (ti_embryo _ _ _ Hi).
Qed.

Lemma yield_post c i s : running s c i ->
  wp (yield c) (fun _ s' => op_post c i true s s' /\
    ptable s' = <[i := set_pstate RUNNABLE (ptable s i)]> (ptable s)) s.
Proof.
  intros Hr. unfold yield. apply wp_bind. eapply acquire_section; [exact Hr|]. intros s1 S1 E1 N1.
  apply wp_bind. eapply section_curproc; [exact S1|]. intros s2 S2 E2 N2.
  apply wp_bind, wp_modify, wp_bind, wp_modify. rewrite <- E2 in E1. pose proof (ru_state _ _ _ Hr) as Hst.
  rewrite <- E1. apply section_sched; cbn [ptable set_ptable set_proc_ticks].
  - eapply in_section_ext; [..|exact S2]; reflexivity.
  - rewrite fn_insert_eq. discriminate.
  - intros j Hj. rewrite fn_insert_ne, E1 by congruence. reflexivity.
  - eapply (tinv_set_state s _ i (set_pstate RUNNABLE (ptable s i))); cbn; rewrite ?Hst, ?E1;
      try discriminate; auto.
    + apply Hr.
    + apply fn_insert_eq.
    + intros j Hj. apply fn_insert_ne. congruence.
    + congruence.
    + apply (se_init _ _ _ _ S2).
    + unfold same_core. auto.
    + split; discriminate.
Qed.

(** [acquire(lk); ... sleep(chan, lk)], the way every caller of [sleep] with a
    lock of its own enters it. *)
Definition sleep_on (c : nat) (ch : chanid) (lk : lockid) : M (kst F) Z :=
  kacquire c lk ;;; sleep c ch lk.

(** Taking [ptable.lock] and giving up [lk] leads into the section. *)
Lemma sleep_enter (Q : unit -> kst F -> Prop) c i lk s s1 s2 : running s c i -> lk <> Ptable ->
  kstep c 1 s s1 -> kstep c 1 (with_lock lk (Some c) s1) s2 ->
  (forall s', in_section c (Some i) s s' -> ptable s' = ptable s -> nextpid s' = nextpid s -> Q tt s') ->
  wp (kacquire c Ptable ;;; krelease c lk) Q s2.
Proof.
  intros [Hc Hn Hl Hs Hi] Hlk K1 K2 HQ.
  assert (L2 : locks s2 = <[lk := Some c]> (locks s)).
  { rewrite (kstep_locks _ _ _ _ K2). cbn. rewrite (kstep_locks _ _ _ _ K1). reflexivity. }
  apply wp_bind. eapply (wp_acquire _ _ _ 1); [apply K2|lia| |].
  { rewrite L2, fn_lookup_insert_ne by exact Hlk. exact (proj1 Hl). }
  intros s3 K3. eapply (wp_release _ _ _ 2); [exact (ks_nest _ _ _ _ K3)|lia| |].
  { cbn. rewrite (kstep_locks _ _ _ _ K3), L2, fn_lookup_insert_ne, fn_lookup_insert by congruence. reflexivity. }
  intros s4 K4. apply HQ.
  - split.
    + unfold locks_held. rewrite (kstep_locks _ _ _ _ K4). cbn.
      rewrite (kstep_locks _ _ _ _ K3), L2. split.
      * rewrite fn_lookup_insert_ne, fn_lookup_insert by congruence. reflexivity.
      * intros l Hne. destruct (decide (lk = l)) as [<-|Hd]; [apply fn_lookup_insert|].
        rewrite !fn_lookup_insert_ne by congruence. apply (proj2 Hl), Hne.
    + intros c' Hne. rewrite (ks_other _ _ _ _ K4) by exact Hne. cbn.
      rewrite (ks_other _ _ _ _ K3), (ks_other _ _ _ _ K2) by exact Hne. cbn. apply K1, Hne.
    + rewrite (kstep_cproc _ _ _ _ _ K4). cbn. rewrite (kstep_cproc _ _ _ _ _ K3), (kstep_cproc _ _ _ _ _ K2).
      cbn. apply (kstep_cproc _ _ _ _ _ K1).
    + exact Hc.
    + exact (ks_nest _ _ _ _ K4).
    + rewrite (kstep_initproc _ _ _ _ K4). cbn. rewrite (kstep_initproc _ _ _ _ K3), (kstep_initproc _ _ _ _ K2).
      cbn. apply (kstep_initproc _ _ _ _ K1).
    + intros Hv. apply (levels_kstep _ _ _ _ K4), (levels_kstep _ _ _ _ K3), (levels_kstep _ _ _ _ K2),
        (levels_kstep _ _ _ _ K1), Hv.
  - rewrite (kstep_ptable _ _ _ _ K4). cbn. rewrite (kstep_ptable _ _ _ _ K3), (kstep_ptable _ _ _ _ K2).
    cbn. apply (kstep_ptable _ _ _ _ K1).
  - rewrite (ks_rest _ _ _ _ K4). cbn. rewrite (ks_rest _ _ _ _ K3), (ks_rest _ _ _ _ K2). cbn.
    rewrite (ks_rest _ _ _ _ K1). reflexivity.
Qed.

Lemma sleep_post c i ch lk s : running s c i -> lk <> Ptable ->
  wp (sleep_on c ch lk) (fun _ s' => op_post c i true s s' /\
    pstate (ptable s' i) = SLEEPING /\ chan (ptable s' i) = Some ch) s.
Proof.
  intros Hr Hlk. pose proof Hr as [Hc Hn Hl Hs Hi]. unfold sleep_on, sleep. apply wp_bind.
  eapply wp_acquire; [exact Hn|lia|apply (proj2 Hl), Hlk|]. intros s1 K1. apply wp_bind.
  eapply (wp_myproc _ _ 1); [exact (ks_nest _ _ _ _ K1)|lia|]. intros s2 K2. cbn [kcpus with_lock set_locks].
  rewrite (kstep_cproc _ _ _ _ _ K1), Hc. apply wp_bind. rewrite bool_decide_eq_true_2 by exact Hlk.
  eapply sleep_enter; eauto. intros s3 S3 E3 N3. apply wp_bind, wp_modify, wp_bind, wp_modify.
  eapply wp_mono; [apply (section_sched c i s)|]; cbn [ptable set_ptable]; rewrite ?fn_insert_eq.
  - eapply in_section_ext; [..|exact S3]; reflexivity.
  - discriminate.
  - intros j Hj. rewrite !fn_insert_ne, E3 by congruence. reflexivity.
  - eapply (tinv_set_state s _ i (set_pstate SLEEPING (set_chan (Some ch) (ptable s i)))); cbn; rewrite ?Hs;
      try discriminate; auto.
    + rewrite !fn_insert_eq, E3. reflexivity.
    + intros j Hj. rewrite !fn_insert_ne, E3 by congruence. reflexivity.
    + apply (se_init _ _ _ _ S3).
    + unfold same_core. auto.
    + split; discriminate.
  - intros _ s4 [Ho Et]. rewrite Et, fn_insert_eq. auto.
Qed.

(** ** Waking *)

(** The table after [wakeup1(ch)]. *)
Definition woken (ch : option chanid) (t : nat -> proc) (i : nat) : proc :=
  if (i <? NPROC)%nat then wake_one ch (t i) else t i.

Lemma woken_core ch t i : same_core (t i) (woken ch t i).
Proof. unfold woken, wake_one, same_core. repeat case_if; auto. Qed.

Lemma woken_running ch t i : pstate (woken ch t i) = RUNNING <-> pstate (t i) = RUNNING.
Proof.
  unfold woken, wake_one. repeat case_if; try reflexivity. apply bool_decide_eq_true in H0.
  cbn. rewrite H0. split; discriminate.
Qed.

Lemma woken_inv ch t np init : table_inv t np init -> table_inv (woken ch t) np init.
Proof.
  intros Hi. eapply table_inv_states; [..|exact Hi]; intros i; [apply woken_core|..];
    unfold woken, wake_one; repeat case_if; auto; try (apply (ti_embryo _ _ _ Hi)); try reflexivity;
    apply bool_decide_eq_true in H0; cbn; rewrite ?H0; try split; congruence.
Qed.

Lemma wakeup_post c i ch s : running s c i ->
  wp (wakeup c ch) (fun _ s' => op_post c i false s s' /\
    forall j, ptable s' j = woken (Some ch) (ptable s) j) s.
Proof.
  intros Hr. unfold wakeup. apply wp_bind. eapply acquire_section; [exact Hr|]. intros s1 S1 E1 N1.
  apply wp_bind, wp_modify. rewrite E1. fold (woken (Some ch) (ptable s)).
  pose proof (ru_state _ _ _ Hr) as Hst.
  eapply wp_mono; [apply (section_release c i s)|]; cbn [ptable set_ptable].
  - eapply in_section_ext; [..|exact S1]; reflexivity.
  - apply woken_running, Hst.
  - intros j _. apply woken_running.
  - unfold tinv. cbn. rewrite N1, (se_init _ _ _ _ S1). apply woken_inv, Hr.
  - intros _ s2 [Ho ->]. auto.
Qed.

Lemma scan_spec f n : forall i j, scan f n i = Some j ->
  (i <= j < i + n)%nat /\ f j = true /\ forall k, (i <= k < j)%nat -> f k = false.
Proof.
  induction n as [|n IH]; intros i j; cbn [scan]; [discriminate|].
  destruct (f i) eqn:E; [intros [= <-]; split; [lia|]; split; [exact E|lia]|].
  intros (Hr & Hf & Hk)%IH. split; [lia|]. split; [exact Hf|]. intros k Hki.
  destruct (decide (k = i)) as [->|]; [exact E|]. apply Hk. lia.
Qed.

Lemma scan_none f n : forall i, scan f n i = None <-> forall k, (i <= k < i + n)%nat -> f k = false.
Proof.
  induction n as [|n IH]; intros i; cbn [scan]; [split; [lia|reflexivity]|].
  destruct (f i) eqn:E.
  - split; [discriminate|]. intros Hk. rewrite Hk in E by lia. discriminate.
  - rewrite IH. split; intros Hk k Hki; [|apply Hk; lia].
    destruct (decide (k = i)) as [->|]; [exact E|]. apply Hk. lia.
Qed.

(** The slot [kill] changes. *)
Definition killed_proc (p : proc) : proc :=
  let q := set_killed true p in
  if bool_decide (pstate p = SLEEPING) then set_pstate RUNNABLE q else q.

Lemma killed_proc_inv s s' j : tinv s -> ptable s' j = killed_proc (ptable s j) ->
  (forall k, k <> j -> ptable s' k = ptable s k) -> nextpid s' = nextpid s -> initproc s' = initproc s ->
  tinv s'.
Proof.
  intros Hi Ej Eo En Ei. pose proof (ti_embryo _ _ _ Hi j) as Hem.
  eapply (tinv_set_state s s' j _ Hi Ej Eo En Ei); unfold killed_proc; case_bool_decide as E; cbn; auto;
    rewrite ?E; try discriminate; try (split; congruence); try reflexivity; unfold same_core; auto.
Qed.

Lemma killed_proc_running p : pstate (killed_proc p) = RUNNING <-> pstate p = RUNNING.
Proof. unfold killed_proc. case_bool_decide as E; cbn; [rewrite E; split; discriminate|reflexivity]. Qed.

Lemma kill_post c i n s : running s c i ->
  wp (kill c n) (fun r s' => op_post c i false s s' /\
    match scan (fun j => pid (ptable s j) =? n) NPROC 0 with
    | Some j => r = 0 /\ ptable s' j = killed_proc (ptable s j) /\ forall k, k <> j -> ptable s' k = ptable s k
    | None => r = -1 /\ ptable s' = ptable s
    end) s.
Proof.
  intros Hr. pose proof (ru_state _ _ _ Hr) as Hst. pose proof (ru_inv _ _ _ Hr) as Hi.
  unfold kill. apply wp_bind. eapply acquire_section; [exact Hr|]. intros s1 S1 E1 N1.
  apply wp_bind, wp_gets. rewrite E1. destruct (scan _ NPROC 0) as [j|] eqn:Ej.
  - apply wp_bind, wp_modify, wp_bind, wp_gets, wp_bind.
    cbn [ptable set_ptable]. rewrite fn_insert_eq, E1. cbn [pstate set_killed].
    assert (Hend : forall t, t j = killed_proc (ptable s j) -> (forall k, k <> j -> t k = ptable s k) ->
      wp (krelease c Ptable ;;; ret 0) (fun r s' => op_post c i false s s' /\ r = 0 /\
        ptable s' j = killed_proc (ptable s j) /\ forall k, k <> j -> ptable s' k = ptable s k) (set_ptable t s1)).
    { intros t Htj Hto. apply wp_bind.
      eapply wp_mono; [apply (section_release c i s)|]; cbn [ptable set_ptable].
      - eapply in_section_ext; [..|exact S1]; reflexivity.
      - destruct (decide (i = j)) as [->|Hne]; [rewrite Htj; apply killed_proc_running, Hst|].
        rewrite Hto by exact Hne. exact Hst.
      - intros k _. destruct (decide (k = j)) as [->|Hne]; [rewrite Htj; apply killed_proc_running|].
        rewrite Hto by exact Hne. reflexivity.
      - eapply (killed_proc_inv s _ j Hi); auto. apply (se_init _ _ _ _ S1).
      - intros _ s2 [Ho Et]. unfold wp, ret. rewrite Et. auto. }
    unfold killed_proc in *. destruct (bool_decide _) eqn:Eb; unfold wp at 1, upd_proc, modify, ret.
    + cbn [ptable set_ptable]. rewrite fn_insert_eq.
      apply (Hend (<[j := _]> (<[j := _]> (ptable s)))); [rewrite fn_insert_eq; reflexivity|].
      intros k Hk. rewrite !fn_insert_ne by congruence. reflexivity.
    + apply (Hend (<[j := _]> (ptable s))); [apply fn_insert_eq|].
      intros k Hk. apply fn_insert_ne. congruence.
  - apply wp_bind. eapply wp_mono; [apply (section_release c i s); rewrite ?E1; auto|].
    + unfold tinv. rewrite E1, N1, (se_init _ _ _ _ S1). exact Hi.
    + intros _ s2 [Ho E2]. unfold wp, ret. rewrite E2, E1. auto.
Qed.

(** ** Exit *)

(** The same process but for its open files and working directory. *)
Definition but_files (p : proc) : proc := set_cwd 0 (set_ofile [] p).

(** Only open files, working directories, the file system and memory changed. *)
Record files_only (s s' : kst F) : Prop := mkfiles {
  fo_locks : locks s' = locks s;
  fo_cpus : kcpus s' = kcpus s;
  fo_next : nextpid s' = nextpid s;
  fo_init : initproc s' = initproc s;
  fo_prio : proc_priority s' = proc_priority s;
  fo_table : forall j, but_files (ptable s' j) = but_files (ptable s j) }.

Lemma files_only_trans s s1 s2 : files_only s s1 -> files_only s1 s2 -> files_only s s2.
Proof. intros [] []. split; congruence. Qed.

Lemma but_files_core p p' : but_files p' = but_files p ->
  same_core p p' /\ pstate p' = pstate p /\ chan p' = chan p.
Proof. unfold but_files, set_cwd, set_ofile, same_core. cbn. intros [= ]. auto 10. Qed.

Lemma files_only_inv s s' : files_only s s' -> tinv s -> tinv s'.
Proof.
  intros [El Ec En Ei Ep Et] Hi. unfold tinv. rewrite En, Ei.
  eapply table_inv_states; [..|exact Hi]; intros j;
    destruct (but_files_core _ _ (Et j)) as (Hc & Hs & _); rewrite ?Hs; auto.
  apply (ti_embryo _ _ _ Hi).
Qed.

Lemma files_only_running s s' c i : files_only s s' -> running s c i -> running s' c i.
Proof.
  intros Hf [Hc Hn Hl Hs Hi]. pose proof (files_only_inv _ _ Hf Hi) as Hi'.
  destruct Hf as [El Ec En Ei Ep Et]. destruct (but_files_core _ _ (Et i)) as (_ & Hst & _).
  split; unfold nest, locks_held in *; rewrite ?El, ?Ec, ?Hst; auto.
Qed.

Lemma files_only_upd s i f : (forall p, but_files (f p) = but_files p) ->
  files_only s (set_ptable (<[i := f (ptable s i)]> (ptable s)) s).
Proof.
  intros Hf. split; try reflexivity. intros j. cbn [ptable set_ptable].
  fn_at i j; [apply Hf|reflexivity].
Qed.

(** What [exit] and [fork] rely on: these file-system calls return. *)
Class FileTotal : Prop := {
  ft_filedup : forall f s, returns (filedup (F := F) f) s;
  ft_fileclose : forall f s, returns (fileclose (F := F) f) s;
  ft_begin_op : forall s, returns (begin_op (F := F)) s;
  ft_end_op : forall s, returns (end_op (F := F)) s;
  ft_iput : forall f s, returns (iput (F := F) f) s;
  ft_idup : forall f s, returns (idup (F := F) f) s }.

Lemma wp_on_fs {A} (f : M F A) (Q : A -> kst F -> Prop) s : returns f (fstate s) ->
  (forall a m, Q a (set_fstate m s)) -> wp (on_fs f) Q s.
Proof. unfold returns, wp, on_fs, lift. destruct (f (fstate s)) as [[a m]| |]; auto; contradiction. Qed.

Lemma exit_files_returns `{FileTotal} cur n : forall fd s, returns (exit_files n cur fd) s.
Proof.
  induction n as [|n IH]; intros fd s; cbn [exit_files]; [exact I|].
  apply wp_bind, wp_gets, wp_bind. case_if; [|apply IH].
  apply wp_bind, wp_on_fs; [apply ft_fileclose|]. intros u m. apply wp_modify, IH.
Qed.

Lemma exit_files_only cur n : forall fd s,
  wlp (exit_files n cur fd) (fun _ s' => files_only s s') s.
Proof.
  induction n as [|n IH]; intros fd s; cbn [exit_files]; [split; reflexivity|].
  apply wlp_bind, wlp_gets, wlp_bind. case_if.
  - apply wlp_bind, wlp_on_fs. intros u m. apply wlp_modify.
    eapply wlp_mono; [apply IH|]. intros u' s'. apply files_only_trans.
    eapply files_only_trans; [|apply files_only_upd; reflexivity]. split; reflexivity.
  - unfold wlp at 1, ret. apply IH.
Qed.

(** The children of [cur] from slot [i] on now belong to [init]; sleepers may
    have been woken. *)
Definition adopted (cur : nat) (init : option nat) (i n : nat) (t t' : nat -> proc) : Prop :=
  forall j, kstack (t' j) = kstack (t j) /\ pgdir (t' j) = pgdir (t j) /\ pid (t' j) = pid (t j) /\
    (pstate (t' j) = pstate (t j) \/ pstate (t j) = SLEEPING /\ pstate (t' j) = RUNNABLE) /\
    parent (t' j) = if decide ((i <= j < i + n)%nat /\ parent (t j) = Some cur) then init else parent (t j).

(** Only the process table changed. *)
Definition table_only (s s' : kst F) : Prop := s' = set_ptable (ptable s') s.

Lemma woken_adopted ch cur init i t : adopted cur init i 0 t (woken ch t).
Proof.
  intros j. destruct (woken_core ch t j) as (C1 & C2 & C3 & C4). rewrite C1, C2, C3, C4.
  rewrite decide_False by lia. repeat split. unfold woken, wake_one.
  repeat case_if; auto. right. apply bool_decide_eq_true in H0. auto.
Qed.

Lemma adopted_trans cur init i n t t1 t2 : init <> Some cur ->
  adopted cur init i 1 t t1 -> adopted cur init (S i) n t1 t2 -> adopted cur init i (S n) t t2.
Proof.
  intros Hne H1 H2 j. destruct (H1 j) as (A1 & A2 & A3 & A4 & A5), (H2 j) as (B1 & B2 & B3 & B4 & B5).
  rewrite B1, B2, B3, A1, A2, A3. split; [auto|]. split; [auto|]. split; [auto|]. split.
  - destruct A4 as [A4|[A4 A4']], B4 as [B4|[B4 B4']]; rewrite ?A4, ?A4' in *; auto; congruence.
  - rewrite B5. destruct (decide (j = i)) as [->|Hj].
    + rewrite (decide_False (P := (S i <= i < S i + n)%nat /\ _)) by lia. rewrite A5.
      destruct (decide (parent (t i) = Some cur)) as [Hp|Hp].
      * rewrite !decide_True by (split; [lia|exact Hp]). reflexivity.
      * rewrite !decide_False by tauto. reflexivity.
    + assert (parent (t1 j) = parent (t j)) as -> by (rewrite A5; apply decide_False; lia).
      apply decide_ext. intuition lia.
Qed.

Lemma exit_children_adopts cur n : forall i s, initproc s <> Some cur ->
  wp (exit_children n cur i) (fun _ s' => table_only s s' /\ adopted cur (initproc s) i n (ptable s) (ptable s')) s.
Proof.
  induction n as [|n IH]; intros i s Hne; cbn [exit_children].
  { split; [destruct s; reflexivity|]. intros j. rewrite decide_False by lia. auto 10. }
  assert (Hnext : forall t, adopted cur (initproc s) i 1 (ptable s) t ->
    wp (exit_children n cur (S i)) (fun _ s' => table_only s s' /\
       adopted cur (initproc s) i (S n) (ptable s) (ptable s')) (set_ptable t s)).
  { intros t Ht. eapply wp_mono; [apply IH, Hne|]. intros _ s' [-> Ha]. split; [reflexivity|].
    eapply adopted_trans; eauto. }
  apply wp_bind, wp_gets, wp_bind. case_bool_decide as Hp.
  - apply wp_bind, wp_gets, wp_bind, wp_modify.
    assert (H1 : adopted cur (initproc s) i 1 (ptable s)
              (<[i := set_parent (initproc s) (ptable s i)]> (ptable s))).
    { intros j. fn_at i j; cbn; [rewrite decide_True by (auto with lia)|rewrite decide_False by lia]; auto 10. }
    case_bool_decide as Hz.
    + apply wp_modify.
      apply (Hnext (woken (ChProc <$> initproc s) (<[i := set_parent (initproc s) (ptable s i)]> (ptable s)))).
      intros j.
      pose proof (woken_adopted (ChProc <$> initproc s) cur (initproc s) 0
        (<[i := set_parent (initproc s) (ptable s i)]> (ptable s)) j) as (B1 & B2 & B3 & B4 & B5).
      rewrite decide_False in B5 by lia. destruct (H1 j) as (A1 & A2 & A3 & A4 & A5).
      rewrite B1, B2, B3, B5, A1, A2, A3, A5. do 3 (split; [reflexivity|]). split; [|reflexivity].
      destruct A4 as [A4|[A4 A4']], B4 as [B4|[B4 B4']]; rewrite ?A4, ?A4' in *; auto; congruence.
    + unfold wp at 1, ret. apply Hnext, H1.
  - unfold wp at 1, ret. pose proof (Hnext (ptable s)) as Hx.
    replace (set_ptable (ptable s) s) with s in Hx by (destruct s; reflexivity). apply Hx. intros j. rewrite decide_False by (intros [? ?]; assert (j = i) as -> by lia; contradiction).
    auto 10.
Qed.

(** The table after [exit]: the parent and init woken, the children adopted. *)
Definition exited (i : nat) (init : option nat) (t t' : nat -> proc) : Prop :=
  pstate (t' i) = ZOMBIE /\
  (forall j, j <> i -> pstate (t' j) = pstate (t j) \/ pstate (t j) = SLEEPING /\ pstate (t' j) = RUNNABLE) /\
  (forall j, (j < NPROC)%nat -> parent (t' j) = if decide (parent (t j) = Some i) then init else parent (t j)) /\
  (forall j, parent (t i) = Some j -> pstate (t j) = SLEEPING -> chan (t j) = Some (ChProc j) ->
     (j < NPROC)%nat -> j <> i -> pstate (t' j) = RUNNABLE).

(** Changes before a routine's critical section that no other CPU can notice. *)
Record quiet (c : nat) (s s' : kst F) : Prop := mkquiet {
  q_cpus : forall c', c' <> c -> kcpus s' c' = kcpus s c';
  q_cproc : cproc (kcpus s' c) = cproc (kcpus s c);
  q_init : initproc s' = initproc s;
  q_levels : levels s -> levels s';
  q_table : forall j, but_files (ptable s' j) = but_files (ptable s j) }.

Lemma quiet_trans c s s1 s2 : quiet c s s1 -> quiet c s1 s2 -> quiet c s s2.
Proof.
  intros [A1 A2 A3 A4 A5] [B1 B2 B3 B4 B5]. split; [|congruence|congruence|auto|].
  - intros c' Hc. rewrite B1 by exact Hc. auto.
  - intros j. rewrite B5. auto.
Qed.

Lemma kstep_quiet c n s s' : kstep c n s s' -> quiet c s s'.
Proof.
  intros K. split; [apply K|apply (kstep_cproc _ _ _ _ _ K)|apply (kstep_initproc _ _ _ _ K)
    |apply (levels_kstep _ _ _ _ K)|].
  rewrite (kstep_ptable _ _ _ _ K). reflexivity.
Qed.

Lemma files_quiet c s s' : files_only s s' -> quiet c s s'.
Proof. intros [El Ec En Ei Ep Et]. split; intros; rewrite ?Ec; auto. eapply levels_eq; eauto. Qed.

Lemma kstep_running c i s s' : kstep c 0 s s' -> running s c i -> running s' c i.
Proof.
  intros K [Hc Hn Hl Hs Hi]. split.
  - rewrite (kstep_cproc _ _ _ _ _ K). exact Hc.
  - apply K.
  - eapply locks_held_kstep; eauto.
  - rewrite (kstep_ptable _ _ _ _ K). exact Hs.
  - eapply tinv_kstep; eauto.
Qed.

Lemma quiet_op c i off s s1 s' : quiet c s s1 -> op_post c i off s1 s' -> op_post c i off s s'.
Proof.
  intros [Q1 Q2 Q3 Q4 Q5] [P1 P2 P3 P4 P5 P6 P7 P8 P9]. split; auto.
  - intros c' Hc. rewrite P2, Q1 by exact Hc. reflexivity.
  - congruence.
  - intros j Hj. rewrite P6 by exact Hj. destruct (but_files_core _ _ (Q5 j)) as (_ & -> & _). reflexivity.
  - congruence.
Qed.

Lemma adopted_inv t t' np init i k : table_inv t np init -> init = Some k -> i <> k ->
  active (pstate (t i)) = true -> adopted i init 0 NPROC t t' ->
  table_inv (<[i := set_pstate ZOMBIE (t' i)]> t') np init.
Proof.
  intros Hi Hk Hik Ha Had. eapply (table_inv_exit t _ np init i k); eauto.
  - intros j. destruct (Had j) as (A1 & A2 & A3 & _). fn_at i j; cbn; auto.
  - intros j Hj. rewrite fn_insert_ne by congruence. destruct (Had j) as (_ & _ & _ & A4 & _).
    pose proof (ti_embryo _ _ _ Hi j). destruct A4 as [->|[E ->]]; [auto|]. rewrite E. split; [split; discriminate|].
    split; [discriminate|auto].
  - rewrite fn_insert_eq. reflexivity.
  - intros j Hu. destruct (Had j) as (_ & _ & _ & _ & A5).
    assert (Hp : parent (<[i := set_pstate ZOMBIE (t' i)]> t' j) = parent (t' j)) by (fn_at i j; reflexivity).
    rewrite Hp, A5. apply decide_ext. split; [tauto|]. intros Hpar. split; [|exact Hpar].
    destruct (le_lt_dec NPROC j) as [Hge|]; [|lia]. destruct Hu. apply (ti_bound _ _ _ Hi), Hge.
Qed.

Lemma woken_exited ch i init t t' : ch = ChProc <$> parent (t i) ->
  adopted i init 0 NPROC (woken ch t) t' -> exited i init t (<[i := set_pstate ZOMBIE (t' i)]> t').
Proof.
  intros Hch Had. unfold exited. rewrite fn_insert_eq. split; [reflexivity|].
  assert (Hpar : forall j, parent (<[i := set_pstate ZOMBIE (t' i)]> t' j) = parent (t' j))
    by (intros j; fn_at i j; reflexivity).
  split; [|split].
  - intros j Hj. rewrite fn_insert_ne by congruence. destruct (Had j) as (_ & _ & _ & P & _).
    destruct (woken_adopted ch i init 0 t j) as (_ & _ & _ & W & _).
    destruct W as [W|[W W']], P as [P|[P P']]; rewrite ?W, ?W' in *; auto; congruence.
  - intros j Hj. rewrite Hpar. destruct (Had j) as (_ & _ & _ & _ & A). destruct (woken_core ch t j) as (_ & _ & C & _).
    rewrite A, C. apply decide_ext. split; [tauto|]. intros ?. split; [lia|assumption].
  - intros j Hp Hs Hc Hj Hne. rewrite fn_insert_ne by congruence. destruct (Had j) as (_ & _ & _ & P & _).
    assert (W : pstate (woken ch t j) = RUNNABLE).
    { unfold woken, wake_one. rewrite (proj2 (Nat.ltb_lt j NPROC) Hj), Hs, Hc, Hch, Hp. cbn.
      rewrite !bool_decide_eq_true_2 by reflexivity. reflexivity. }
    destruct P as [->|[P _]]; [exact W|]. congruence.
Qed.

Lemma exited_quiet i init t t1 t' : (forall j, but_files (t1 j) = but_files (t j)) ->
  exited i init t1 t' -> exited i init t t'.
Proof.
  intros Hb (H1 & H2 & H3 & H4). split; [exact H1|].
  split; [|split]; intros j; destruct (but_files_core _ _ (Hb j)) as ((_ & _ & P & _) & S' & C).
  - rewrite <- S'. apply H2.
  - rewrite <- P. apply H3.
  - destruct (but_files_core _ _ (Hb i)) as ((_ & _ & Pi & _) & _). rewrite <- S', <- C, <- Pi. apply H4.
Qed.

(** The critical section of [exit]. *)
Definition exit_section (c i : nat) : M (kst F) Z :=
  kacquire c Ptable ;;;
  par <- getp i parent ;;
  wakeup1 (ChProc <$> par) ;;;
  exit_children NPROC i 0 ;;;
  tick_self i ;;;
  upd_proc i (set_pstate ZOMBIE) ;;;
  sched c.

Lemma exit_section_post c i k s : running s c i -> initproc s = Some k -> i <> k ->
  wp (exit_section c i) (fun _ s' => op_post c i true s s' /\ exited i (initproc s) (ptable s) (ptable s')) s.
Proof.
  intros Hr Hk Hik. unfold exit_section. apply wp_bind. eapply acquire_section; [exact Hr|]. intros s1 S1 E1 N1.
  apply wp_bind, wp_gets, wp_bind, wp_modify. rewrite E1. set (ch := ChProc <$> parent (ptable s i)).
  fold (woken ch (ptable s)). pose proof (se_init _ _ _ _ S1) as I1. apply wp_bind.
  eapply wp_mono; [apply exit_children_adopts; cbn [initproc set_ptable]; congruence|].
  intros _ s2 [T2 A2]. cbn [initproc set_ptable ptable] in A2. rewrite I1 in A2.
  apply wp_bind, wp_modify, wp_bind, wp_modify.
  assert (H2 : in_section c (Some i) s s2) by (rewrite T2; eapply in_section_ext; [..|exact S1]; reflexivity).
  assert (Hrun : forall j, pstate (ptable s2 j) = RUNNING <-> pstate (ptable s j) = RUNNING).
  { intros j. destruct (A2 j) as (_ & _ & _ & P & _). pose proof (woken_running ch (ptable s) j) as W.
    destruct P as [->|[P ->]]; [exact W|]. rewrite P in W. rewrite <- W. split; discriminate. }
  eapply wp_mono; [apply (section_sched c i s)|]; cbn [ptable set_ptable set_proc_ticks].
  - eapply in_section_ext; [..|exact H2]; reflexivity.
  - rewrite fn_insert_eq. discriminate.
  - intros j Hj. rewrite fn_insert_ne by congruence. apply Hrun.
  - assert (N2 : nextpid s2 = nextpid s) by (rewrite T2; exact N1).
    unfold tinv. cbn. rewrite N2, (se_init _ _ _ _ H2).
    eapply adopted_inv; [|exact Hk|exact Hik| |exact A2]; [apply woken_inv, Hr|].
    rewrite (proj2 (woken_running ch (ptable s) i) (ru_state _ _ _ Hr)). reflexivity.
  - intros _ s3 [Ho ->]. split; [exact Ho|]. apply (woken_exited ch); [reflexivity|exact A2].
Qed.

Lemma exit_post c i k s : running s c i -> initproc s = Some k ->
  wlp (exit c) (fun _ s' => op_post c i true s s' /\ exited i (initproc s) (ptable s) (ptable s')) s.
Proof.
  intros Hr Hk. pose proof Hr as [Hc Hn Hl Hst Hi]. unfold exit. apply wlp_bind, wp_wlp.
  eapply (wp_curproc _ _ i 0); [exact Hn|lia|exact Hc|]. intros s0 K0.
  apply wlp_bind, wlp_gets. case_bool_decide as Hik; [exact I|].
  apply wlp_bind. eapply wlp_mono; [apply exit_files_only|]. intros u1 s1 F1.
  apply wlp_bind, wlp_on_fs. intros u2 m2. apply wlp_bind, wlp_gets, wlp_bind, wlp_on_fs. intros u3 m3.
  apply wlp_bind, wlp_on_fs. intros u4 m4. apply wlp_bind, wlp_modify.
  set (s2 := set_ptable _ _).
  assert (F2 : files_only s0 s2).
  { eapply files_only_trans; [exact F1|].
    eapply files_only_trans; [|apply files_only_upd; reflexivity]. split; reflexivity. }
  assert (Q2 : quiet c s s2) by (eapply quiet_trans; [eapply kstep_quiet, K0|apply files_quiet, F2]).
  assert (R2 : running s2 c i) by (eapply files_only_running, kstep_running; eauto).
  rewrite (kstep_initproc _ _ _ _ K0) in Hik.
  eapply wlp_mono; [apply wp_wlp, (exit_section_post c i k s2 R2)|].
  - rewrite (q_init _ _ _ Q2). exact Hk.
  - congruence.
  - intros u s' [Ho He]. split; [eapply quiet_op; eauto|].
    rewrite (q_init _ _ _ Q2) in He. eapply exited_quiet; [|exact He]. apply (q_table _ _ _ Q2).
Qed.

(** [exit] returns, as far as it goes, when the file system does. *)
Lemma exit_returns `{FileTotal} c i k s : running s c i -> initproc s = Some k -> i <> k -> returns (exit c) s.
Proof.
  intros Hr Hk Hik. pose proof Hr as [Hc Hn Hl Hst Hi]. unfold exit. apply wp_bind.
  eapply (wp_curproc _ _ i 0); [exact Hn|lia|exact Hc|]. intros s0 K0.
  apply wp_bind, wp_gets. rewrite (kstep_initproc _ _ _ _ K0), Hk, bool_decide_eq_false_2 by congruence.
  apply wp_bind. eapply wp_mono; [apply wp_split; [apply exit_files_returns|apply exit_files_only]|]. intros u1 s1 F1.
  apply wp_bind, wp_on_fs; [apply ft_begin_op|]. intros u2 m2. apply wp_bind, wp_gets.
  apply wp_bind, wp_on_fs; [apply ft_iput|]. intros u3 m3.
  apply wp_bind, wp_on_fs; [apply ft_end_op|]. intros u4 m4. apply wp_bind, wp_modify. set (s2 := set_ptable _ _).
  assert (F2 : files_only s0 s2).
  { eapply files_only_trans; [exact F1|].
    eapply files_only_trans; [|apply files_only_upd; reflexivity]. split; reflexivity. }
  eapply wp_mono; [apply (exit_section_post c i k s2); [eapply files_only_running, kstep_running; eauto| |exact Hik]|auto].
  rewrite (fo_init _ _ F2), (kstep_initproc _ _ _ _ K0). exact Hk.
Qed.

(** ** Wait *)

(** The slot of a reaped process. *)
Definition reaped (p : proc) : proc :=
  set_pstate UNUSED (set_killed false (set_pname [] (set_parent None (set_pid 0 (set_kstack 0 p))))).

(** [cur]'s zombie child in slot [j] was reaped. *)
Definition reap_post (cur j : nat) (n : Z) (s s' : kst F) : Prop :=
  (j < NPROC)%nat /\ parent (ptable s j) = Some cur /\ pstate (ptable s j) = ZOMBIE /\ n = pid (ptable s j) /\
  locks s' = locks s /\ kcpus s' = kcpus s /\ nextpid s' = nextpid s /\ initproc s' = initproc s /\
  proc_priority s' = proc_priority s /\ ptable s' j = reaped (ptable s j) /\ forall k, k <> j -> ptable s' k = ptable s k.

Lemma reap_spec kend cur j s : (j < NPROC)%nat -> parent (ptable s j) = Some cur -> pstate (ptable s j) = ZOMBIE ->
  wlp (reap kend j) (fun n s' => reap_post cur j n s s') s.
Proof.
  intros Hj Hp Hz. unfold reap. apply wlp_bind, wlp_gets, wlp_bind, wlp_gets, wlp_bind, wlp_on_mem. intros u m.
  apply wlp_bind, wlp_modify, wlp_bind, wlp_gets, wlp_bind, wlp_on_mem. intros u2 m2.
  do 5 (apply wlp_bind, wlp_modify). unfold wlp, ret, reap_post. cbn. do 9 (split; [auto|]).
  split; [rewrite !fn_insert_eq; reflexivity|]. intros k Hk. rewrite !fn_insert_ne by congruence. reflexivity.
Qed.

Lemma wait_scan_spec kend cur n : forall i kids s, (i + n = NPROC)%nat ->
  wlp (wait_scan kend n cur i kids) (fun r s' =>
    match r with
    | WFound m => exists j, reap_post cur j m s s'
    | WNone => s' = s /\ kids = false /\ forall j, (i <= j < NPROC)%nat -> parent (ptable s j) <> Some cur
    | WKids => s' = s /\ forall j, (i <= j < NPROC)%nat -> parent (ptable s j) = Some cur ->
        pstate (ptable s j) <> ZOMBIE
    end) s.
Proof.
  induction n as [|n IH]; intros i kids s Hn; cbn [wait_scan].
  { unfold wlp, ret. destruct kids; (split; [reflexivity|]); [lia|]. split; [reflexivity|lia]. }
  apply wlp_bind, wlp_gets. case_bool_decide as Hp; cbn [negb].
  - case_bool_decide as Hz.
    + apply wlp_bind. eapply wlp_mono; [apply (reap_spec kend cur); auto; lia|]. intros m s' Hr.
      exists i. exact Hr.
    + eapply wlp_mono; [apply IH; lia|]. intros r s'. destruct r; auto.
      * intros (-> & Hk & _). discriminate.
      * intros (-> & Hk). split; [reflexivity|]. intros j Hj Hpj.
        destruct (decide (j = i)) as [->|]; [exact Hz|]. apply Hk; [lia|exact Hpj].
  - eapply wlp_mono; [apply IH; lia|]. intros r s'. destruct r; auto.
    + intros (-> & Hk & Hno). split; [reflexivity|]. split; [exact Hk|]. intros j Hj.
      destruct (decide (j = i)) as [->|]; [exact Hp|]. apply Hno. lia.
    + intros (-> & Hk). split; [reflexivity|]. intros j Hj Hpj.
      destruct (decide (j = i)) as [->|]; [contradiction|]. apply Hk; [lia|exact Hpj].
Qed.

(** What [wait] returns or waits for, from the table at its critical section. *)
Definition wait_result (i : nat) (r : Z + Z) (t t' : nat -> proc) : Prop :=
  match r with
  | inl n => (exists j, (j < NPROC)%nat /\ parent (t j) = Some i /\ pstate (t j) = ZOMBIE /\
                n = pid (t j) /\ t' j = reaped (t j) /\ forall k, k <> j -> t' k = t k) \/
             (n = -1 /\ t' = t /\
              (killed (t i) = true \/ forall j, (j < NPROC)%nat -> parent (t j) <> Some i))
  | inr _ => pstate (t' i) = SLEEPING /\ chan (t' i) = Some (ChProc i) /\ killed (t i) = false /\
             (forall k, k <> i -> t' k = t k) /\
             forall j, (j < NPROC)%nat -> parent (t j) = Some i -> pstate (t j) <> ZOMBIE
  end.

Definition is_off {A B} (r : A + B) : bool := match r with inl _ => false | inr _ => true end.

(** [sleep(ch, &ptable.lock)] inside the section. *)
Lemma section_sleep c i ch s s1 : in_section c (Some i) s s1 -> pstate (ptable s1 i) = RUNNING ->
  (forall j, j <> i -> pstate (ptable s1 j) = RUNNING <-> pstate (ptable s j) = RUNNING) -> tinv s1 ->
  wp (sleep c ch Ptable) (fun _ s' => op_post c i true s s' /\
    ptable s' i = set_pstate SLEEPING (set_chan (Some ch) (ptable s1 i)) /\
    forall k, k <> i -> ptable s' k = ptable s1 k) s1.
Proof.
  intros S1 Hst Ho Hi. unfold sleep. apply wp_bind.
  eapply (wp_myproc _ _ 1); [apply S1|lia|]. intros s2 K2.
  rewrite (se_cproc _ _ _ _ S1), (se_self _ _ _ _ S1). pose proof (kstep_ptable _ _ _ _ K2) as E2.
  rewrite bool_decide_eq_false_2 by tauto. apply wp_bind. unfold wp at 1, ret.
  apply wp_bind, wp_modify, wp_bind, wp_modify.
  eapply wp_mono; [apply (section_sched c i s)|]; cbn [ptable set_ptable]; rewrite ?fn_insert_eq.
  - eapply in_section_ext; [..|eapply in_section_kstep; eauto]; reflexivity.
  - discriminate.
  - intros j Hj. rewrite !fn_insert_ne, E2 by congruence. apply Ho, Hj.
  - eapply (tinv_set_state s1 _ i (set_pstate SLEEPING (set_chan (Some ch) (ptable s1 i)))); cbn; rewrite ?Hst;
      try discriminate; auto.
    + rewrite !fn_insert_eq, E2. reflexivity.
    + intros j Hj. rewrite !fn_insert_ne, E2 by congruence. reflexivity.
    + rewrite (ks_rest _ _ _ _ K2). reflexivity.
    + apply (kstep_initproc _ _ _ _ K2).
    + unfold same_core. auto.
    + split; discriminate.
  - intros _ s4 [H4 Et]. rewrite Et, fn_insert_eq, E2. split; [exact H4|]. split; [reflexivity|].
    intros k Hk. rewrite !fn_insert_ne by congruence. reflexivity.
Qed.

Lemma wait_iter_post kend c i s s1 : in_section c (Some i) s s1 -> pstate (ptable s1 i) = RUNNING ->
  (forall j, j <> i -> pstate (ptable s1 j) = RUNNING <-> pstate (ptable s j) = RUNNING) -> tinv s1 ->
  wlp (wait_iter kend c) (fun r s' => op_post c i (is_off r) s s' /\
    wait_result i r (ptable s1) (ptable s')) s1.
Proof.
  intros S1 Hst Ho Hi. unfold wait_iter. apply wlp_bind, wp_wlp. eapply section_curproc; [exact S1|].
  intros s2 S2 E2 N2.
  assert (Hi2 : tinv s2) by (unfold tinv; rewrite E2, N2, (se_init _ _ _ _ S2), <- (se_init _ _ _ _ S1); exact Hi).
  assert (Hnone : (killed (ptable s1 i) = true \/ forall j, (j < NPROC)%nat -> parent (ptable s1 j) <> Some i) ->
    wlp (krelease c Ptable ;;; ret (inl (-1) : Z + Z)) (fun r s' => op_post c i (is_off r) s s' /\
      wait_result i r (ptable s1) (ptable s')) s2).
  { intros Hw. apply wlp_bind, wp_wlp. eapply wp_mono; [apply (section_release c i s); rewrite ?E2; auto|].
    intros _ s3 [H3 E3]. unfold wlp, ret. split; [exact H3|]. right. rewrite E3. auto. }
  apply wlp_bind. eapply wlp_mono; [apply wait_scan_spec; reflexivity|]. rewrite E2. intros r s3. destruct r as [n| |].
  - intros (j & Hj & Hp & Hz & -> & R1 & R2 & R3 & R4 & R7 & R5 & R6). rewrite E2 in *.
    assert (Hne : j <> i) by congruence. apply wlp_bind, wp_wlp.
    eapply wp_mono; [apply (section_release c i s)|].
    + eapply in_section_ext; [..|exact S2]; assumption.
    + rewrite R6 by congruence. exact Hst.
    + intros k Hk. destruct (decide (k = j)) as [->|Hkj]; [|rewrite R6 by exact Hkj; apply Ho, Hk].
      rewrite R5, <- (Ho j Hne), Hz. cbn. split; discriminate.
    + unfold tinv. rewrite R3, R4. unfold tinv in Hi2. rewrite E2 in Hi2.
      eapply (table_inv_reap _ _ _ _ j Hi2); [exact Hz|rewrite R5; reflexivity|exact R6].
    + intros _ s4 [H4 E4]. unfold wlp, ret. split; [exact H4|]. left. exists j. rewrite E4. auto 10.
  - intros (-> & _ & Hno). apply Hnone. right. intros j Hj. apply Hno. lia.
  - intros (-> & Hkids). apply wlp_bind, wlp_gets. rewrite E2.
    destruct (killed (ptable s1 i)) eqn:Ek; [apply Hnone; auto|]. apply wlp_bind, wp_wlp.
    eapply wp_mono; [apply (section_sleep c i _ s); rewrite ?E2; auto|].
    intros v s4 (H4 & Es & Eo). unfold wlp, ret. split; [exact H4|]. unfold wait_result. rewrite Es, E2 in *.
    split; [reflexivity|]. split; [reflexivity|]. split; [exact Ek|]. split; [exact Eo|].
    intros j Hj. apply Hkids. lia.
Qed.

Lemma wait_post kend c i s : running s c i ->
  wlp (wait kend c) (fun r s' => op_post c i (is_off r) s s' /\ wait_result i r (ptable s) (ptable s')) s.
Proof.
  intros Hr. unfold wait. apply wlp_bind, wp_wlp. eapply acquire_section; [exact Hr|]. intros s1 S1 E1 N1.
  rewrite <- E1. apply wait_iter_post; auto; rewrite ?E1.
  - apply Hr.
  - reflexivity.
  - unfold tinv. rewrite E1, N1, (se_init _ _ _ _ S1). apply Hr.
Qed.

(** ** Fork *)

(** No lock is held and only the running CPU's interrupt state changed. *)
Record calm (c : nat) (s s' : kst F) : Prop := mkcalm {
  ca_locks : locks_held s' None;
  ca_cpus : forall c', c' <> c -> kcpus s' c' = kcpus s c';
  ca_cproc : cproc (kcpus s' c) = cproc (kcpus s c);
  ca_nest : nest s' c 0;
  ca_init : initproc s' = initproc s;
  ca_levels : levels s -> levels s' }.

Lemma calm_ext c s s1 s2 : locks s2 = locks s1 -> kcpus s2 = kcpus s1 -> initproc s2 = initproc s1 ->
  proc_priority s2 = proc_priority s1 -> calm c s s1 -> calm c s s2.
Proof.
  intros El Ek Ei Ep [H1 H2 H3 H4 H5 H6]. split; unfold locks_held, nest in *; rewrite ?El, ?Ek, ?Ei; auto.
  intros Hv. eapply levels_eq; eauto.
Qed.

Lemma calm_kstep c s s1 s2 : kstep c 0 s1 s2 -> calm c s s1 -> calm c s s2.
Proof.
  intros K [H1 H2 H3 H4 H5 H6]. split.
  - eapply locks_held_kstep; eauto.
  - intros c' Hc. rewrite (ks_other _ _ _ _ K) by exact Hc. auto.
  - rewrite (kstep_cproc _ _ _ _ _ K). exact H3.
  - apply K.
  - rewrite (kstep_initproc _ _ _ _ K). exact H5.
  - intros Hv. apply (levels_kstep _ _ _ _ K), H6, Hv.
Qed.

(** The fields a critical section of [fork] is about, unchanged. *)
Definition same_data (s s' : kst F) : Prop :=
  ptable s' = ptable s /\ nextpid s' = nextpid s /\ km s' = km s.

Lemma calm_acquire (Q : unit -> kst F -> Prop) c o s s1 : calm c s s1 -> cproc (kcpus s c) = o ->
  (forall s2, in_section c o s s2 -> same_data s1 s2 -> Q tt s2) -> wp (kacquire c Ptable) Q s1.
Proof.
  intros [C1 C2 C3 C4 C5 C6] Hc HQ. eapply wp_acquire; [exact C4|lia|apply (proj1 C1)|]. intros s2 K2. apply HQ.
  - split; cbn [with_lock set_locks kcpus initproc].
    + eapply locks_held_with, locks_held_kstep; eauto.
    + intros c' Hne. rewrite (ks_other _ _ _ _ K2) by exact Hne. auto.
    + rewrite (kstep_cproc _ _ _ _ _ K2). exact C3.
    + exact Hc.
    + exact (ks_nest _ _ _ _ K2).
    + rewrite (kstep_initproc _ _ _ _ K2). exact C5.
    + intros Hv. apply (levels_kstep _ _ _ _ K2), C6, Hv.
  - unfold same_data. cbn. rewrite (ks_rest _ _ _ _ K2). auto.
Qed.

Lemma section_calm (Q : unit -> kst F -> Prop) c o s s1 : in_section c o s s1 ->
  (forall s2, calm c s s2 -> same_data s1 s2 -> Q tt s2) -> wp (krelease c Ptable) Q s1.
Proof.
  intros [H1 H2 H3 H4 H5 H6 H7] HQ. eapply wp_release; [exact H5|lia|apply (proj1 H1)|]. intros s2 K2. apply HQ.
  - split.
    + eapply locks_held_kstep, locks_held_with; eauto.
    + intros c' Hne. rewrite (ks_other _ _ _ _ K2) by exact Hne. apply H2, Hne.
    + rewrite (kstep_cproc _ _ _ _ _ K2). exact H3.
    + apply K2.
    + rewrite (kstep_initproc _ _ _ _ K2). exact H6.
    + intros Hv. apply (levels_kstep _ _ _ _ K2), H7, Hv.
  - unfold same_data. rewrite (ks_rest _ _ _ _ K2). auto.
Qed.

(** Only slot [i] of the table changed, and it was free. *)
Definition slot_only (i : nat) (t t' : nat -> proc) : Prop :=
  (i < NPROC)%nat /\ pstate (t i) = UNUSED /\ forall j, j <> i -> t' j = t j.

(** What [allocproc] hands out: a slot that was free, with a fresh pid, a kernel
    stack, and the rest of the slot as its last user left it. *)
Record embryo (s s' : kst F) (i : nat) : Prop := mkembryo {
  em_slot : slot_only i (ptable s) (ptable s');
  em_state : pstate (ptable s' i) = EMBRYO;
  em_pid : pid (ptable s' i) = nextpid s;
  em_kstack : kstack (ptable s' i) <> 0;
  em_next : nextpid s' = s32 (nextpid s + 1);
  em_stale : killed (ptable s' i) = killed (ptable s i) /\ uscheduler (ptable s' i) = uscheduler (ptable s i) /\
    check_thread (ptable s' i) = check_thread (ptable s i) }.

Definition alloc_post (r : option nat) (s s' : kst F) : Prop :=
  match r with
  | Some i => embryo s s' i
  | None => ptable s' = ptable s /\ nextpid s' = nextpid s \/
      exists i, slot_only i (ptable s) (ptable s') /\ pstate (ptable s' i) = UNUSED /\
        nextpid s' = s32 (nextpid s + 1)
  end.

Lemma allocproc_post trapret forkret c o s s0 : calm c s s0 -> cproc (kcpus s c) = o ->
  wlp (allocproc trapret forkret c) (fun r s' => calm c s s' /\ alloc_post r s0 s') s0.
Proof.
  intros C0 Hc. unfold allocproc. apply wlp_bind, wp_wlp. eapply calm_acquire; [exact C0|exact Hc|].
  intros s1 S1 (E1 & N1 & _). apply wlp_bind, wlp_gets. rewrite E1.
  destruct (scan _ NPROC 0) as [np|] eqn:Esc.
  2: { apply wlp_bind, wp_wlp. eapply section_calm; [exact S1|]. intros s2 C2 (E2 & N2 & _).
       unfold wlp, ret. split; [exact C2|]. left. split; congruence. }
  apply scan_spec in Esc as (Hnp & Hu & _). apply bool_decide_eq_true in Hu.
  apply wlp_bind, wlp_modify, wlp_bind, wlp_gets. do 5 (apply wlp_bind, wlp_modify).
  apply wlp_bind, wp_wlp. eapply section_calm; [eapply in_section_levels; [..|exact S1]; try reflexivity|].
  { intros Hv j. cbn. fn_at np j; [lia|apply Hv]. }
  cbn [ptable nextpid km set_ptable set_nextpid set_proc_priority set_proc_ticks set_proc_wait_ticks].
  rewrite fn_insert_eq, E1, N1. intros s2 C2 (E2 & N2 & _). cbn in E2, N2.
  assert (Es2 : ptable s2 np = set_pid (nextpid s0) (set_pstate EMBRYO (ptable s0 np)))
    by (rewrite E2; apply fn_insert_eq).
  assert (Eo2 : forall j, j <> np -> ptable s2 j = ptable s0 j)
    by (intros j Hj; rewrite E2, !fn_insert_ne by congruence; reflexivity).
  apply wlp_bind, wlp_on_mem. intros k m. apply wlp_bind, wlp_modify. case_if.
  - apply wlp_bind, wlp_modify. unfold wlp, ret. split; [eapply calm_ext; [..|exact C2]; reflexivity|].
    right. exists np. unfold slot_only. cbn. rewrite !fn_insert_eq.
    split; [split; [lia|]; split; [exact Hu|]|split; [reflexivity|exact N2]].
    intros j Hj. rewrite !fn_insert_ne by congruence. auto.
  - apply wlp_bind, wlp_modify, wlp_bind, wlp_on_mem. intros u1 m1.
    apply wlp_bind, wlp_modify, wlp_bind, wlp_on_mem. intros u2 m2. apply wlp_bind, wlp_on_mem. intros u3 m3.
    unfold wlp, ret. split; [eapply calm_ext; [..|exact C2]; reflexivity|].
    split; unfold slot_only; cbn; rewrite ?fn_insert_eq, ?Es2; auto.
    split; [lia|]. split; [exact Hu|]. intros j Hj. rewrite !fn_insert_ne by congruence. auto.
Qed.

Lemma fork_files_only cur np n : forall fd s,
  wlp (fork_files n cur np fd) (fun _ s' => files_only s s' /\ forall j, j <> np -> ptable s' j = ptable s j) s.
Proof.
  induction n as [|n IH]; intros fd s; cbn [fork_files]; [split; [split; reflexivity|auto]|].
  apply wlp_bind, wlp_gets, wlp_bind. case_if.
  - apply wlp_bind, wlp_on_fs. intros g m. apply wlp_modify.
    eapply wlp_mono; [apply IH|]. intros u' s' [Hf Ho]. split.
    + eapply files_only_trans; [|exact Hf].
      eapply files_only_trans; [|apply files_only_upd; reflexivity]. split; reflexivity.
    + intros j Hj. rewrite Ho by exact Hj. cbn. apply fn_insert_ne. congruence.
  - unfold wlp at 1, ret. apply IH.
Qed.

(** The child slot after [fork]: what is copied from the parent, what is new, and
    what the slot's last user left there. *)
Record child (n : Z) (p old q : proc) (i : nat) : Prop := mkchild {
  ch_state : pstate q = RUNNABLE;
  ch_pid : pid q = n;
  ch_parent : parent q = Some i;
  ch_size : sz q = sz p;
  ch_name : pname q = take 15 (pname p);
  ch_space : kstack q <> 0 /\ pgdir q <> 0;
  ch_stale : killed q = killed old /\ uscheduler q = uscheduler old /\ check_thread q = check_thread old }.

Definition fork_result (i : nat) (r np : Z) (t t' : nat -> proc) : Prop :=
  (exists k, (k < NPROC)%nat /\ pstate (t k) = UNUSED /\ r = np /\ child np (t i) (t k) (t' k) i /\
     forall j, j <> k -> t' j = t j) \/
  (r = -1 /\ forall j, (pstate (t' j) = UNUSED <-> pstate (t j) = UNUSED) /\
     (pstate (t j) <> UNUSED -> t' j = t j)).

Lemma slot_only_inv s s' k : tinv s -> slot_only k (ptable s) (ptable s') -> pstate (ptable s' k) = UNUSED ->
  nextpid s <= nextpid s' -> initproc s' = initproc s -> tinv s'.
Proof.
  intros [H1 H2 H3 H4 H5 H6 H7] (Hk & Hu & Ho) Hu' Hn Hi.
  assert (Hs : forall j, pstate (ptable s j) <> UNUSED \/ pstate (ptable s' j) <> UNUSED -> ptable s' j = ptable s j)
    by (intros j [Hj|Hj]; apply Ho; congruence).
  assert (Ha : forall j, active (pstate (ptable s j)) = true -> ptable s' j = ptable s j)
    by (intros j Hj; apply Hs; left; intros E; rewrite E in Hj; discriminate).
  unfold tinv. rewrite Hi. split.
  - intros j Hj. destruct (decide (j = k)) as [->|Hne]; [exact Hu'|]. rewrite Ho by exact Hne. auto.
  - intros j. destruct (decide (j = k)) as [->|Hne]; [congruence|]. rewrite Ho by exact Hne. auto.
  - intros j Hj. pose proof (Hs j (or_intror Hj)) as E. rewrite E in *. auto.
  - intros j Hj. pose proof (H4 j Hj) as Hact. rewrite Ha by exact Hact. exact Hact.
  - intros j Hj Hi'. pose proof (Hs j (or_intror Hj)) as E. rewrite E in *.
    destruct (H5 j Hj Hi') as (q & Hp & Hq). exists q. rewrite (Ha q Hq). auto.
  - intros j Hj. pose proof (Hs j (or_intror Hj)) as E. rewrite E in *. pose proof (H6 j Hj). lia.
  - intros j j' Hj Hj'. pose proof (Hs j (or_intror Hj)) as E. pose proof (Hs j' (or_intror Hj')) as E'.
    rewrite E, E' in *. auto.
Qed.

Lemma calm_op c i s s' : calm c s s' -> pstate (ptable s' i) = RUNNING ->
  (forall j, pstate (ptable s' j) = RUNNING <-> pstate (ptable s j) = RUNNING) -> tinv s' ->
  op_post c i false s s'.
Proof. intros [C1 C2 C3 C4 C5 C6] Hst Ho Hi. split; auto. tauto. Qed.

(** [fork] gives up: the slot it had taken is free again. *)
Lemma fork_fails c i k s s' : running s c i -> calm c s s' -> slot_only k (ptable s) (ptable s') ->
  pstate (ptable s' k) = UNUSED -> nextpid s < 2 ^ 31 - 1 -> 0 <= nextpid s -> nextpid s' = s32 (nextpid s + 1) ->
  op_post c i false s s' /\ fork_result i (-1) (nextpid s) (ptable s) (ptable s').
Proof.
  intros Hr Hc Hso Hu' Hb H0 Hn. pose proof Hso as (Hk & Hu & Ho). pose proof (ru_state _ _ _ Hr) as Hst.
  assert (Hne : i <> k) by congruence. split.
  - apply calm_op; auto.
    + rewrite Ho by exact Hne. exact Hst.
    + intros j. destruct (decide (j = k)) as [->|Hj]; [rewrite Hu, Hu'; split; discriminate|].
      rewrite Ho by exact Hj. reflexivity.
    + eapply slot_only_inv; eauto; [apply Hr| |apply Hc]. rewrite Hn, s32_small by lia. lia.
  - right. split; [reflexivity|]. intros j. split; [|intros Hj; apply Ho; congruence].
    destruct (decide (j = k)) as [->|Hj]; [rewrite Hu, Hu'; reflexivity|]. rewrite Ho by exact Hj. reflexivity.
Qed.

Lemma calm_refl c i s : running s c i -> calm c s s.
Proof. intros [Hc Hn Hl Hs Hi]. split; auto. Qed.

(** [fork] after the child's slot is complete. *)
Lemma fork_publish c i k n s s1 : running s c i -> calm c s s1 -> slot_only k (ptable s) (ptable s1) ->
  1 <= nextpid s < 2 ^ 31 - 1 -> nextpid s1 = s32 (nextpid s + 1) -> n = nextpid s ->
  child n (ptable s i) (ptable s k) (set_pstate RUNNABLE (ptable s1 k)) i ->
  wp (kacquire c Ptable ;;; upd_proc k (set_pstate RUNNABLE) ;;; krelease c Ptable ;;; ret n)
    (fun r s' => op_post c i false s s' /\ fork_result i r (nextpid s) (ptable s) (ptable s')) s1.
Proof.
  intros Hr C1 (Hk & Hu & Ho) Hb Hn -> Hch. pose proof (ru_state _ _ _ Hr) as Hst.
  assert (Hne : i <> k) by congruence.
  apply wp_bind. eapply calm_acquire; [exact C1|apply Hr|]. intros s2 S2 (E2 & N2 & _).
  apply wp_bind, wp_modify, wp_bind. eapply section_calm; [eapply in_section_ext; [..|exact S2]; reflexivity|].
  intros s3 C3 (E3 & N3 & _). cbn in E3, N3. unfold wp, ret.
  assert (Ek : ptable s3 k = set_pstate RUNNABLE (ptable s1 k)) by (rewrite E3, fn_insert_eq, E2; reflexivity).
  assert (Eo : forall j, j <> k -> ptable s3 j = ptable s j)
    by (intros j Hj; rewrite E3, fn_insert_ne, E2 by congruence; auto).
  rewrite <- Ek in Hch. destruct Hch as [Q1 Q2 Q3 Q4 Q5 [Q6 Q7] Q8]. split.
  - apply calm_op; auto.
    + rewrite Eo by exact Hne. exact Hst.
    + intros j. destruct (decide (j = k)) as [->|Hj]; [rewrite Q1, Hu; split; discriminate|].
      rewrite Eo by exact Hj. reflexivity.
    + unfold tinv. rewrite N3, N2, Hn, s32_small, (ca_init _ _ _ C3) by lia.
      eapply (table_inv_fork (ptable s) _ _ _ k i); auto; try lia.
      * apply (ru_inv _ _ _ Hr).
      * rewrite Hst. reflexivity.
      * rewrite Q1. reflexivity.
  - left. exists k. split; [exact Hk|]. split; [exact Hu|]. split; [reflexivity|]. split; [|exact Eo]. split; auto.
Qed.

Lemma fork_post kend kdata gpu0 trapret forkret c i s : running s c i -> 1 <= nextpid s < 2 ^ 31 - 1 ->
  wlp (fork kend kdata gpu0 trapret forkret c) (fun r s' =>
    op_post c i false s s' /\ fork_result i r (nextpid s) (ptable s) (ptable s')) s.
Proof.
  intros Hr Hb. pose proof Hr as [Hc Hn Hl Hst Hi]. unfold fork. apply wlp_bind, wp_wlp.
  eapply (wp_curproc _ _ i 0); [exact Hn|lia|exact Hc|]. intros s0 K0.
  pose proof (calm_kstep _ _ _ _ K0 (calm_refl _ _ _ Hr)) as C0. pose proof (kstep_ptable _ _ _ _ K0) as E0.
  assert (N0 : nextpid s0 = nextpid s) by (rewrite (ks_rest _ _ _ _ K0); reflexivity).
  apply wlp_bind. eapply wlp_mono; [apply (allocproc_post _ _ _ (Some i) s s0 C0 Hc)|]. intros [k|] s1 [C1 A1].
  2: { unfold wlp, ret. unfold alloc_post in A1. rewrite E0, N0 in A1.
       destruct A1 as [[E1 N1]|(k & Hso & Hu & N1)]; [|eapply fork_fails; eauto; lia].
       split; [apply calm_op; rewrite ?E1; auto|].
       - unfold tinv. rewrite E1, N1, (ca_init _ _ _ C1). exact Hi.
       - right. split; [reflexivity|]. rewrite E1. intros j. split; [reflexivity|auto]. }
  destruct A1 as [(Hk & Hu & Ho) A2 A3 A4 A5 A6]. rewrite E0, N0 in *. assert (Hne : i <> k) by congruence.
  apply wlp_bind, wlp_gets, wlp_bind, wlp_on_mem. intros d m. apply wlp_bind, wlp_modify. case_if.
  - apply wlp_bind, wlp_gets, wlp_bind, wlp_on_mem. intros u m1. do 2 (apply wlp_bind, wlp_modify).
    unfold wlp, ret. apply (fork_fails c i k); cbn; auto; try lia.
    + eapply calm_ext; [..|exact C1]; reflexivity.
    + split; [exact Hk|]. split; [exact Hu|]. intros j Hj. rewrite !fn_insert_ne by congruence. auto.
    + rewrite fn_insert_eq. reflexivity.
  - do 2 (apply wlp_bind, wlp_modify). apply wlp_bind, wlp_gets.
    do 2 (apply wlp_bind, wlp_on_mem; intros ? ?).
    apply wlp_bind. eapply wlp_mono; [apply fork_files_only|]. intros u s2 [F2 O2].
    apply wlp_bind, wlp_on_fs. intros w m3. do 2 (apply wlp_bind, wlp_modify). apply wlp_bind, wlp_gets, wp_wlp.
    pose proof (fo_table _ _ F2 k) as Tk. cbn [ptable set_km set_ptable] in Tk, O2. rewrite !fn_insert_eq in Tk.
    destruct (but_files_core _ _ Tk) as ((B1 & B2 & B3 & B4) & B5 & _).
    assert (Hrest : sz (ptable s2 k) = sz (ptable s1 i) /\ killed (ptable s2 k) = killed (ptable s1 k) /\
      uscheduler (ptable s2 k) = uscheduler (ptable s1 k) /\ check_thread (ptable s2 k) = check_thread (ptable s1 k))
      by (unfold but_files, set_cwd, set_ofile in Tk; cbn in Tk; injection Tk; auto).
    cbn in B1, B2, B3, B4. destruct Hrest as (R1 & R2 & R3 & R4).
    eapply (fork_publish c i k _ s); auto; cbn; rewrite ?fn_insert_eq; auto.
    + eapply calm_ext; [..|exact C1]; cbn; apply F2.
    + split; [exact Hk|]. split; [exact Hu|]. intros j Hj. cbn. rewrite !fn_insert_ne, O2, !fn_insert_ne by congruence.
      auto.
    + rewrite (fo_next _ _ F2). exact A5.
    + cbn. congruence.
    + destruct A6 as (A6 & A7 & A8). split; cbn; rewrite ?B1, ?B2; auto.
      * rewrite R1. rewrite Ho by exact Hne. reflexivity.
      * rewrite Ho by exact Hne. reflexivity.
      * rewrite R2, R3, R4. auto.
Qed.

(** ** Running again

    [entered s c i]: the scheduler on CPU [c] has just switched to process [i];
    [ptable.lock] is held for it. *)
Record entered (s : kst F) (c i : nat) : Prop := mkentered {
  en_section : in_section c (Some i) s s;
  en_state : pstate (ptable s i) = RUNNING;
  en_inv : tinv s }.

Lemma yield_back_post c i v s : entered s c i -> wp (yield_back c v) (fun _ s' => op_post c i false s s') s.
Proof.
  intros [He Hst Hi]. unfold yield_back. apply wp_bind. eapply wp_sched_back; [apply He|]. intros s1 K1.
  pose proof (kstep_ptable _ _ _ _ K1) as E1.
  eapply wp_mono; [apply (section_release c i s); rewrite ?E1; auto|].
  - eapply in_section_kstep; eauto.
  - eapply tinv_kstep; eauto.
  - intros _ s2 [Ho _]. exact Ho.
Qed.

(** The process stops waiting: [p->chan = 0]. *)
Lemma clear_chan {A} (K : M (kst F) A) c i s s1 :
  in_section c (Some i) s s1 -> pstate (ptable s1 i) = RUNNING -> tinv s1 ->
  exists s2, (j <- curproc c ;; upd_proc j (set_chan None) ;;; K) s1 = K s2 /\
    in_section c (Some i) s s2 /\ tinv s2 /\ ptable s2 i = set_chan None (ptable s1 i) /\
    forall k, k <> i -> ptable s2 k = ptable s1 k.
Proof.
  intros S1 Hst Hi.
  assert (Hc : wp (curproc c) (fun j s2 => j = i /\ in_section c (Some i) s s2 /\ ptable s2 = ptable s1 /\
    nextpid s2 = nextpid s1) s1) by (eapply section_curproc; eauto).
  apply wp_ret in Hc as (j & s2 & Hc & -> & S2 & E2 & N2). rewrite (bind_step _ _ _ _ _ Hc).
  exists (set_ptable (<[i := set_chan None (ptable s2 i)]> (ptable s2)) s2). split; [reflexivity|].
  cbn [ptable set_ptable]. rewrite fn_insert_eq, E2. split; [|split; [|split; [reflexivity|]]].
  - eapply in_section_ext; [..|exact S2]; reflexivity.
  - eapply (tinv_set_state s1 _ i (set_chan None (ptable s1 i))); cbn; rewrite ?Hst; auto; try discriminate.
    + apply fn_insert_eq.
    + intros j Hj. apply fn_insert_ne. congruence.
    + rewrite (se_init _ _ _ _ S2). symmetry. apply (se_init _ _ _ _ S1).
    + unfold same_core. auto.
  - intros k Hk. apply fn_insert_ne. congruence.
Qed.

(** [sleep] returning to a caller that then releases its lock. *)
Definition sleep_off (c : nat) (lk : lockid) (v : Z) : M (kst F) unit :=
  sleep_back c lk v ;;; krelease c lk.

Lemma sleep_back_post c i lk v s : entered s c i -> lk <> Ptable ->
  wp (sleep_off c lk v) (fun _ s' => op_post c i false s s' /\ chan (ptable s' i) = None) s.
Proof.
  intros [He Hst Hi] Hlk. unfold sleep_off, sleep_back. apply wp_bind, wp_bind.
  eapply wp_sched_back; [apply He|]. intros s1 K1. pose proof (kstep_ptable _ _ _ _ K1) as E1.
  rewrite bool_decide_eq_true_2 by exact Hlk.
  destruct (clear_chan (krelease c Ptable ;;; kacquire c lk) c i s s1) as (s2 & Hcl & S2 & I2 & P2 & O2);
    [eapply in_section_kstep; eauto|rewrite E1; exact Hst|eapply tinv_kstep; eauto|].
  rewrite E1 in *. unfold wp at 1. rewrite Hcl. change (wp (krelease c Ptable ;;; kacquire c lk) (fun _ s' =>
    wp (krelease c lk) (fun _ s'0 => op_post c i false s s'0 /\ chan (ptable s'0 i) = None) s') s2).
  apply wp_bind. eapply section_calm; [exact S2|]. intros s3 C3 (E3 & N3 & _).
  eapply wp_acquire; [apply C3|lia|apply (proj2 (ca_locks _ _ _ C3)), Hlk|]. intros s4 K4.
  eapply wp_release; [exact (ks_nest _ _ _ _ K4)|lia|apply fn_lookup_insert|]. intros s5 K5.
  pose proof (kstep_ptable _ _ _ _ K5) as E5. cbn in E5. rewrite (kstep_ptable _ _ _ _ K4), E3 in E5.
  rewrite E5, P2. split; [|reflexivity]. destruct C3 as [C1 C2 C3 C4 C5 C6]. apply calm_op; rewrite ?E5.
  - split.
    + unfold locks_held. rewrite (kstep_locks _ _ _ _ K5). cbn. rewrite (kstep_locks _ _ _ _ K4). split.
      * rewrite !fn_lookup_insert_ne by exact Hlk. apply (proj1 C1).
      * intros l Hl. destruct (decide (lk = l)) as [<-|Hd]; [apply fn_lookup_insert|].
        rewrite !fn_lookup_insert_ne by congruence. apply (proj2 C1), Hl.
    + intros c' Hc. rewrite (ks_other _ _ _ _ K5) by exact Hc. cbn. rewrite (ks_other _ _ _ _ K4) by exact Hc. auto.
    + rewrite (kstep_cproc _ _ _ _ _ K5). cbn. rewrite (kstep_cproc _ _ _ _ _ K4). exact C3.
    + exact (ks_nest _ _ _ _ K5).
    + rewrite (kstep_initproc _ _ _ _ K5). cbn. rewrite (kstep_initproc _ _ _ _ K4). exact C5.
    + intros Hv. apply (levels_kstep _ _ _ _ K5), (levels_kstep _ _ _ _ K4), C6, Hv.
  - rewrite P2. exact Hst.
  - intros j. destruct (decide (j = i)) as [->|Hj]; [rewrite P2; reflexivity|]. rewrite O2 by exact Hj. reflexivity.
  - eapply tinv_kstep; [exact K5|]. unfold tinv in *. cbn. rewrite (kstep_ptable _ _ _ _ K4), E3.
    rewrite (ks_rest _ _ _ _ K4). cbn. rewrite N3, C5, <- (se_init _ _ _ _ S2). exact I2.
Qed.

Lemma wait_back_post kend c i v s : entered s c i ->
  wlp (wait_back kend c v) (fun r s' => op_post c i (is_off r) s s') s.
Proof.
  intros [He Hst Hi]. unfold wait_back, sleep_back. apply wlp_bind, wlp_bind, wp_wlp.
  eapply wp_sched_back; [apply He|]. intros s1 K1. pose proof (kstep_ptable _ _ _ _ K1) as E1.
  rewrite bool_decide_eq_false_2 by tauto.
  destruct (clear_chan (ret tt) c i s s1) as (s2 & Hcl & S2 & I2 & P2 & O2);
    [eapply in_section_kstep; eauto|rewrite E1; exact Hst|eapply tinv_kstep; eauto|].
  rewrite E1 in *. unfold wlp at 1. rewrite Hcl. unfold ret.
  eapply wlp_mono; [apply (wait_iter_post kend c i s s2 S2)|].
  - rewrite P2. exact Hst.
  - intros j Hj. rewrite O2 by exact Hj. reflexivity.
  - exact I2.
  - intros r s' [Ho _]. exact Ho.
Qed.

Lemma forkret_post c i first s : entered s c i ->
  wlp (forkret c first) (fun _ s' => op_post c i false s s') s.
Proof.
  intros [He Hst Hi]. unfold forkret. apply wlp_bind, wp_wlp.
  eapply wp_mono; [apply (section_release c i s s He Hst); [reflexivity|exact Hi]|]. intros _ s1 [H1 _].
  destruct first; [|exact H1]. apply wlp_bind, wlp_on_fs. intros u m. apply wlp_on_fs. intros u2 m2.
  destruct H1 as [P1 P2 P3 P4 P5 P6 P7 P8 P9]. split; auto.
Qed.
End System.
