(* ===== verification/SchedRules.v ===== *)
(** * Rules for the scheduler

    What [sched_top] and [sched_resume] of [Sched] do: whom they dispatch, what
    they leave when nobody is runnable, and how the feedback queue's levels and
    counters move. *)

From S2P Require Import Prelude Mem Mmu Spinlock Kalloc Vm Proc ProcRules Sched System.
Local Open Scope Z_scope.

Section SchedRules.
Context {F : Type} `{FileOps F}.
Context (kpgdir : Z) (c : nat).

(** The process a scheduler position has switched to. *)
Definition target (l : loop_at) : option nat :=
  match l with LTop => None | LRR i => Some i | LMlfq _ i => Some i end.

(** The scheduler holds [ptable.lock]. *)
Record ready (s : kst F) : Prop := mkready {
  re_locks : locks_held s (Some c);
  re_nest : nest s c 1;
  re_inv : tinv s }.

(** After a stretch of the scheduler: a process was dispatched and the lock is
    held for it, or the iteration is over and the lock is free. *)
Record sched_post (l : loop_at) (s s' : kst F) : Prop := mksched_post {
  sp_cpus : forall c', c' <> c -> kcpus s' c' = kcpus s c';
  sp_init : initproc s' = initproc s;
  sp_levels : levels s -> levels s';
  sp_inv : tinv s';
  sp_case : match target l with
    | None => locks_held s' None /\ nest s' c 0 /\ cproc (kcpus s' c) = None /\ ptable s' = ptable s
    | Some i => locks_held s' (Some c) /\ nest s' c 1 /\ cproc (kcpus s' c) = Some i /\
        pstate (ptable s i) = RUNNABLE /\ ptable s' = <[i := set_pstate RUNNING (ptable s i)]> (ptable s)
    end }.

(** A change of the running CPU alone. *)
Lemma upd_cpu_other (f : kcpu -> kcpu) (s : kst F) c' : c' <> c ->
  kcpus (set_kcpus (<[c := f (kcpus s c)]> (kcpus s)) s) c' = kcpus s c'.
Proof. intros Hc. apply fn_insert_ne. congruence. Qed.

Lemma wp_switchuvm (Q : unit -> kst F -> Prop) i s : nest s c 1 ->
  kstack (ptable s i) <> 0 -> pgdir (ptable s i) <> 0 ->
  (forall s', ptable s' = ptable s -> locks s' = locks s -> nextpid s' = nextpid s -> initproc s' = initproc s ->
     proc_priority s' = proc_priority s -> nest s' c 1 ->
     (forall c', c' <> c -> kcpus s' c' = kcpus s c') -> cproc (kcpus s' c) = cproc (kcpus s c) ->
     cr3 (kcpus s' c) = V2P (pgdir (ptable s i)) -> Q tt s') ->
  wp (switchuvm c i) Q s.
Proof.
  intros Hn Hk Hp HQ. unfold switchuvm. apply wp_bind, wp_gets.
  rewrite (proj2 (Z.eqb_neq _ _) Hk), (proj2 (Z.eqb_neq _ _) Hp).
  apply wp_bind. eapply wp_pushcli; [exact Hn|lia|]. intros s1 K1. do 2 (apply wp_bind, wp_modify).
  eapply (wp_popcli _ _ 2).
  { unfold nest. cbn. rewrite !fn_insert_eq. exact (ks_nest _ _ _ _ K1). }
  { lia. }
  intros s2 K2. pose proof (ks_rest _ _ _ _ K2) as R2. cbn in R2. apply HQ.
  - rewrite R2. cbn. apply (kstep_ptable _ _ _ _ K1).
  - rewrite R2. cbn. apply (kstep_locks _ _ _ _ K1).
  - rewrite R2, (ks_rest _ _ _ _ K1). reflexivity.
  - rewrite R2, (ks_rest _ _ _ _ K1). reflexivity.
  - rewrite R2, (ks_rest _ _ _ _ K1). reflexivity.
  - apply K2.
  - intros c' Hc. rewrite (ks_other _ _ _ _ K2) by exact Hc. cbn. rewrite !fn_insert_ne by congruence.
    apply K1, Hc.
  - rewrite (kstep_cproc _ _ _ _ _ K2). cbn. rewrite !fn_insert_eq. cbn. apply (kstep_cproc _ _ _ _ _ K1).
  - rewrite (ks_self _ _ _ _ K2). cbn. rewrite !fn_insert_eq. reflexivity.
Qed.

Lemma dispatch_post l i s : ready s -> target l = Some i -> pstate (ptable s i) = RUNNABLE ->
  wp (dispatch c i ;;; ret l) (fun r s' => r = l /\ sched_post l s s' /\ proc_priority s' = proc_priority s /\
    cr3 (kcpus s' c) = V2P (pgdir (ptable s i))) s.
Proof.
  intros [Hl Hn Hi] Ht Hst. unfold dispatch. apply wp_bind, wp_bind, wp_modify, wp_bind.
  destruct (ti_live _ _ _ Hi i) as [Hk Hp]; [congruence|].
  eapply wp_switchuvm; cbn [ptable set_kcpus]; auto.
  { unfold nest. cbn. rewrite fn_insert_eq. exact Hn. }
  cbn [ptable locks nextpid initproc kcpus set_kcpus proc_priority].
  intros s1 E1 L1 N1 I1 P1 Nest1 O1 C1 R1. apply wp_modify. unfold wp, ret.
  split; [reflexivity|]. split; [|split; [exact P1|cbn; rewrite R1; reflexivity]]. split; cbn.
  - intros c' Hc. rewrite O1, fn_insert_ne by congruence. reflexivity.
  - exact I1.
  - apply levels_eq, P1.
  - eapply (tinv_set_state s _ i (set_pstate RUNNING (ptable s i))); cbn; rewrite ?Hst, ?E1; auto; try discriminate.
    + apply fn_insert_eq.
    + intros j Hj. apply fn_insert_ne. congruence.
    + unfold same_core. auto.
    + split; discriminate.
  - rewrite Ht. split; [unfold locks_held; cbn; rewrite L1; exact Hl|]. split; [exact Nest1|].
    split; [rewrite C1, fn_insert_eq; reflexivity|]. split; [exact Hst|]. rewrite E1. reflexivity.
Qed.

(** The iteration ends: [release(&ptable.lock)]. *)
Lemma end_post s : ready s -> cproc (kcpus s c) = None ->
  wp (krelease c Ptable ;;; ret LTop) (fun r s' => r = LTop /\ sched_post LTop s s' /\
    proc_priority s' = proc_priority s /\ proc_wait_ticks s' = proc_wait_ticks s /\ proc_ticks s' = proc_ticks s) s.
Proof.
  intros [Hl Hn Hi] Hc. apply wp_bind. eapply wp_release; [exact Hn|lia|apply (proj1 Hl)|]. intros s1 K1.
  unfold wp, ret. split; [reflexivity|]. split; [|destruct (kstep_mlfq _ _ _ _ K1) as (-> & -> & ->); auto].
  split; cbn [target].
  - apply K1.
  - apply (kstep_initproc _ _ _ _ K1).
  - apply (levels_kstep _ _ _ _ K1).
  - eapply tinv_kstep; [exact K1|]. exact Hi.
  - split; [eapply locks_held_kstep, locks_held_with; eauto|]. split; [exact (ks_nest _ _ _ _ K1)|].
    split; [rewrite (kstep_cproc _ _ _ _ _ K1); exact Hc|apply (kstep_ptable _ _ _ _ K1)].
Qed.

(** Round robin dispatches the first runnable process from slot [i] on. *)
Lemma rr_scan_post n : forall i s, ready s -> cproc (kcpus s c) = None -> (i + n = NPROC)%nat ->
  wp (rr_scan c n i) (fun l s' => sched_post l s s' /\
    match l with
    | LTop => forall j, (i <= j < NPROC)%nat -> pstate (ptable s j) <> RUNNABLE
    | LRR j => (i <= j < NPROC)%nat /\ forall k, (i <= k < j)%nat -> pstate (ptable s k) <> RUNNABLE
    | LMlfq _ _ => False
    end) s.
Proof.
  induction n as [|n IH]; intros i s Hr Hc Hn; cbn [rr_scan].
  - eapply wp_mono; [apply end_post; assumption|]. intros l s' (-> & Hp & _). split; [exact Hp|]. intros j Hj. lia.
  - apply wp_bind, wp_gets. case_bool_decide as Hst; cbn [negb].
    + eapply wp_mono; [apply (dispatch_post (LRR i) i); auto|]. intros l s' (-> & Hp & _).
      split; [exact Hp|]. split; [lia|]. intros k Hk. lia.
    + eapply wp_mono; [apply IH; auto; lia|]. intros l s' [Hp Hl]. split; [exact Hp|].
      destruct l as [|j|]; [| |exact Hl].
      * intros j Hj. destruct (decide (j = i)) as [->|]; [exact Hst|]. apply Hl. lia.
      * destruct Hl as [Hj Hk]. split; [lia|]. intros k Hk'.
        destruct (decide (k = i)) as [->|]; [exact Hst|]. apply Hk. lia.
Qed.

(** ** The feedback queue *)

(** [i] is the runnable process of the highest level [<= top], the first of its
    level. *)
Definition best (s : kst F) (top : Z) (i : nat) : Prop :=
  (i < NPROC)%nat /\ pstate (ptable s i) = RUNNABLE /\ 0 <= proc_priority s i <= top /\
  forall j, (j < NPROC)%nat -> pstate (ptable s j) = RUNNABLE -> 0 <= proc_priority s j <= top ->
    proc_priority s j < proc_priority s i \/ proc_priority s j = proc_priority s i /\ (i <= j)%nat.

Lemma mlfq_choose_spec s n : forall top, Z.of_nat n = top + 1 ->
  match mlfq_choose n top s with
  | Some i => best s top i
  | None => forall j, (j < NPROC)%nat -> pstate (ptable s j) = RUNNABLE -> ~ (0 <= proc_priority s j <= top)
  end.
Proof.
  induction n as [|n IH]; intros top Hn; cbn [mlfq_choose]; [intros; lia|].
  destruct (mlfq_level s top) as [i|] eqn:E; unfold mlfq_level in E.
  - apply scan_spec in E as (Hi & Ht & Hf). apply andb_true_iff in Ht as [Ht Hp].
    apply bool_decide_eq_true in Ht. apply Z.eqb_eq in Hp. split; [lia|]. split; [exact Ht|]. split; [lia|].
    intros j Hj Hst Hr. rewrite Hp. destruct (Z.eq_dec (proc_priority s j) top) as [He|]; [|lia].
    right. split; [exact He|]. destruct (le_lt_dec i j); [assumption|]. exfalso.
    assert (Hfj := Hf j ltac:(lia)). rewrite bool_decide_eq_true_2, He, Z.eqb_refl in Hfj by exact Hst. discriminate.
  - rewrite scan_none in E. specialize (IH (top - 1) ltac:(lia)).
    assert (Hno : forall j, (j < NPROC)%nat -> pstate (ptable s j) = RUNNABLE -> proc_priority s j <> top).
    { intros j Hj Hst He. specialize (E j ltac:(lia)).
      rewrite bool_decide_eq_true_2, He, Z.eqb_refl in E by exact Hst. discriminate. }
    destruct (mlfq_choose n (top - 1) s) as [i|].
    + destruct IH as (Hi & Hst & Hr & Hb). split; [exact Hi|]. split; [exact Hst|]. split; [lia|].
      intros j Hj Hsj Hrj. apply Hb; auto. pose proof (Hno j Hj Hsj). lia.
    + intros j Hj Hst Hr. pose proof (Hno j Hj Hst). apply (IH j Hj Hst). lia.
Qed.

(** Levels and counters of one process through the end of an iteration in which
    it was not running: one more tick of waiting, and with boosting the next
    level when it has waited long enough. *)
Definition waits (s : kst F) (chosen : option nat) (i : nat) : bool :=
  (i <? NPROC)%nat && bool_decide (pstate (ptable s i) = RUNNABLE) && bool_decide (Some i <> chosen).
Definition waited (s : kst F) (chosen : option nat) (i : nat) : Z :=
  let l := proc_priority s i in
  if waits s chosen i then s32 (proc_wait_ticks s i l + 1) else proc_wait_ticks s i l.
Definition raised (policy : Z) (s : kst F) (chosen : option nat) (i : nat) : bool :=
  negb (policy =? 3) && (i <? NPROC)%nat && bool_decide (pstate (ptable s i) = RUNNABLE) &&
  (proc_priority s i <? 3) && (waited s chosen i >=? required (proc_priority s i)).

Record tail_post (policy : Z) (chosen : option nat) (s s' : kst F) : Prop := mktail {
  tp_prio : forall i, proc_priority s' i = proc_priority s i + (if raised policy s chosen i then 1 else 0);
  tp_wait : forall i, proc_wait_ticks s' i (proc_priority s' i) =
    if raised policy s chosen i then 0 else waited s chosen i;
  tp_ticks : proc_ticks s' = proc_ticks s }.

Lemma fnZ_insert_eq (f : Z -> Z) k x : <[k := x]> f k = x.
Proof. apply fn_lookup_insert. Qed.

Lemma boost_levels (s w : kst F) : levels s ->
  levels (set_proc_priority (fun i => if boosts s i then proc_priority s i + 1 else proc_priority s i) w).
Proof. intros Hv i. cbn. specialize (Hv i). unfold boosts. case_if; lia. Qed.

Lemma mlfq_tail_post policy chosen s : ready s -> cproc (kcpus s c) = None ->
  wp (mlfq_tail c policy chosen) (fun l s' => l = LTop /\ sched_post LTop s s' /\ tail_post policy chosen s s') s.
Proof.
  intros [Hl Hn Hi] Hc. unfold mlfq_tail. apply wp_bind, wp_modify.
  set (s1 := set_proc_wait_ticks _ s).
  assert (W1 : forall i, proc_wait_ticks s1 i (proc_priority s i) = waited s chosen i).
  { intros i. unfold s1, waited, waits. cbn. destruct (_ && _ && _); [apply fnZ_insert_eq|reflexivity]. }
  apply wp_bind. destruct (Z.eqb_spec policy 3) as [->|Hp]; cbn [negb].
  - unfold wp at 1, ret. eapply wp_mono; [apply (end_post s1); [split; auto|exact Hc]|].
    intros l s' (-> & [P1 P2 P3 P4 P5] & E1 & E2 & E3). split; [reflexivity|]. split; [split; auto|].
    split; unfold raised; cbn [negb Z.eqb Pos.eqb andb].
    + intros i. rewrite E1. cbn. lia.
    + intros i. rewrite E1, E2. cbn [proc_priority s1 set_proc_wait_ticks]. apply W1.
    + rewrite E3. reflexivity.
  - apply wp_modify. set (s2 := set_proc_priority _ _).
    eapply wp_mono; [apply (end_post s2); [split; auto|exact Hc]|].
    intros l s' (-> & [P1 P2 P3 P4 P5] & E1 & E2 & E3). split; [reflexivity|].
    split; [split; auto; intros Hv; apply P3, boost_levels, Hv|].
    assert (Hb : forall i, boosts s1 i = raised policy s chosen i).
    { intros i. unfold boosts, raised. rewrite (proj2 (Z.eqb_neq _ _) Hp). cbn [negb andb].
      change (proc_priority s1) with (proc_priority s). change (ptable s1) with (ptable s). rewrite W1. reflexivity. }
    split.
    + intros i. rewrite E1. cbn. rewrite Hb. change (proc_priority s1) with (proc_priority s). case_if; lia.
    + intros i. rewrite E1, E2. cbn. rewrite Hb. change (proc_priority s1) with (proc_priority s).
      destruct (raised policy s chosen i); [reflexivity|apply W1].
    + rewrite E3. reflexivity.
Qed.

(** The table and the locks are unchanged. *)
Definition queue_only (s s' : kst F) : Prop :=
  ptable s' = ptable s /\ locks s' = locks s /\ nextpid s' = nextpid s /\
  initproc s' = initproc s.

(** The level after a process has used the CPU once more at its level. *)
Definition demoted (s : kst F) (i : nat) : bool :=
  let l := proc_priority s i in (s32 (proc_ticks s i l + 1) >=? slice l) && (l >? 0).

Record accounted (i : nat) (s s' : kst F) : Prop := mkaccounted {
  ac_rest : queue_only s s';
  ac_prio : proc_priority s' i = proc_priority s i - (if demoted s i then 1 else 0);
  ac_ticks : proc_ticks s' i (proc_priority s i) = s32 (proc_ticks s i (proc_priority s i) + 1);
  ac_wait : proc_wait_ticks s' i = if demoted s i then zero_levels else proc_wait_ticks s i;
  ac_other : forall j, j <> i -> proc_priority s' j = proc_priority s j /\ proc_ticks s' j = proc_ticks s j /\
    proc_wait_ticks s' j = proc_wait_ticks s j }.

Lemma account_post i s : wp (account i) (fun _ s' => accounted i s s' /\ kcpus s' = kcpus s) s.
Proof.
  unfold account. apply wp_bind, wp_modify, wp_bind. unfold wp at 1, get.
  cbn [proc_priority proc_ticks set_proc_ticks proc_wait_ticks]. rewrite fn_insert_eq, fnZ_insert_eq.
  change ((s32 (proc_ticks s i (proc_priority s i) + 1) >=? slice (proc_priority s i)) && (proc_priority s i >? 0))
    with (demoted s i). destruct (demoted s i) eqn:Ed.
  - apply wp_bind, wp_modify, wp_modify. split; [|reflexivity]. split; rewrite ?Ed; unfold queue_only; cbn;
      rewrite ?fn_insert_eq, ?fnZ_insert_eq; auto 10.
    intros j Hj. rewrite !fn_insert_ne by congruence. auto.
  - unfold wp, ret. split; [|reflexivity]. split; rewrite ?Ed; unfold queue_only; cbn; rewrite ?fn_insert_eq, ?fnZ_insert_eq; auto 10 with lia.
    intros j Hj. rewrite !fn_insert_ne by congruence. auto.
Qed.

Lemma accounted_levels i s s' : accounted i s s' -> levels s -> levels s'.
Proof.
  intros [_ Hp _ _ Ho] Hv j. destruct (decide (j = i)) as [->|Hj].
  - rewrite Hp. specialize (Hv i). unfold demoted. case_if; lia.
  - destruct (Ho j Hj) as (-> & _). apply Hv.
Qed.

(** ** One stretch of the scheduler *)

(** CPU [c] is in the scheduler, between iterations. *)
Record idle (s : kst F) : Prop := mkidle {
  id_locks : locks_held s None;
  id_nest : nest s c 0;
  id_cproc : cproc (kcpus s c) = None;
  id_inv : tinv s }.

Lemma sched_post_trans l s s1 s2 : (forall c', c' <> c -> kcpus s1 c' = kcpus s c') -> initproc s1 = initproc s ->
  ptable s1 = ptable s -> (levels s -> levels s1) -> sched_post l s1 s2 -> sched_post l s s2.
Proof.
  intros Hk Hi Hp Hv [P1 P2 P3 P4 P5]. split; auto.
  - intros c' Hc. rewrite P1, Hk by exact Hc. reflexivity.
  - congruence.
  - rewrite Hp in P5. exact P5.
Qed.

(** Whom the top of the loop picks. *)
Definition picks (l : loop_at) (policy : Z) (s : kst F) : Prop :=
  if policy =? 0 then
    match l with
    | LTop => forall j, (j < NPROC)%nat -> pstate (ptable s j) <> RUNNABLE
    | LRR i => forall k, (k < i)%nat -> pstate (ptable s k) <> RUNNABLE
    | LMlfq _ _ => False
    end
  else
    match l with
    | LTop => forall j, (j < NPROC)%nat -> pstate (ptable s j) = RUNNABLE -> ~ (0 <= proc_priority s j <= 3)
    | LRR _ => False
    | LMlfq p i => p = policy /\ best s 3 i
    end.

Lemma sched_top_post s : idle s ->
  wp (sched_top c) (fun l s' => sched_post l s s' /\ picks l (sched_policy (kcpus s c)) s) s.
Proof.
  intros [Hl [Hn Ho] Hc Hi]. unfold sched_top. apply wp_bind. unfold wp at 1, on_kc, lift, modify.
  set (s0 := set_kcpus _ s).
  assert (N0 : nest s0 c 0) by (unfold nest, s0; cbn; rewrite fn_insert_eq; split; [exact Hn|lia]).
  apply wp_bind. eapply wp_acquire; [exact N0|lia|apply (proj1 Hl)|]. intros s1 K1.
  assert (E1 : ptable s1 = ptable s) by apply (kstep_ptable _ _ _ _ K1).
  assert (Q1 : proc_priority s1 = proc_priority s) by apply (kstep_mlfq _ _ _ _ K1).
  assert (P1 : sched_policy (kcpus s1 c) = sched_policy (kcpus s c))
    by (rewrite (kstep_policy _ _ _ _ _ K1); unfold s0; cbn; rewrite fn_insert_eq; reflexivity).
  assert (C1 : cproc (kcpus s1 c) = None)
    by (rewrite (kstep_cproc _ _ _ _ _ K1); unfold s0; cbn; rewrite fn_insert_eq; exact Hc).
  set (s2 := with_lock Ptable (Some c) s1).
  assert (R2 : ready s2).
  { split; [eapply locks_held_with, locks_held_kstep; [exact K1|exact Hl]|exact (ks_nest _ _ _ _ K1)|].
    eapply tinv_kstep in K1; [exact K1|]. exact Hi. }
  assert (O2 : forall c', c' <> c -> kcpus s2 c' = kcpus s c').
  { intros c' Hne. cbn. rewrite (ks_other _ _ _ _ K1) by exact Hne. unfold s0. cbn. apply fn_insert_ne. congruence. }
  assert (I2 : initproc s2 = initproc s) by apply (kstep_initproc _ _ _ _ K1).
  assert (V2 : levels s -> levels s2) by apply levels_eq, Q1.
  apply wp_bind, wp_gets. change (kcpus s2 c) with (kcpus s1 c). rewrite P1. unfold picks. case_if.
  - eapply wp_mono; [apply (rr_scan_post NPROC 0 s2 R2 C1 eq_refl)|]. intros l s' [Hp Hw].
    split; [eapply sched_post_trans; eauto|]. cbn [s2 ptable with_lock set_locks] in Hw. rewrite E1 in Hw.
    destruct l; auto; [intros j Hj|intros k Hk]; apply Hw; lia.
  - apply wp_bind, wp_gets. pose proof (mlfq_choose_spec s2 4 3 eq_refl) as Hch.
    destruct (mlfq_choose 4 3 s2) as [i|].
    + assert (Hb : best s 3 i) by (unfold best in *; cbn in Hch; rewrite E1, Q1 in Hch; exact Hch).
      eapply wp_mono; [apply (dispatch_post (LMlfq _ i) i s2 R2 eq_refl); apply Hch|].
      intros l s' (-> & Hp & _). split; [eapply sched_post_trans; eauto|]. auto.
    + eapply wp_mono; [apply (mlfq_tail_post _ None s2 R2 C1)|]. intros l s' (-> & Hp & _).
      split; [eapply sched_post_trans; eauto|]. cbn in Hch. rewrite E1, Q1 in Hch. exact Hch.
Qed.

(** What the scheduler does with the CPU it got back from process [i]: round robin
    goes on with the next slots, the feedback queue accounts for [i] and ends the
    iteration. *)
Definition resumed (l l' : loop_at) (s s' : kst F) : Prop :=
  match l with
  | LTop => False
  | LRR i =>
      match l' with
      | LTop => forall j, (i < j < NPROC)%nat -> pstate (ptable s j) <> RUNNABLE
      | LRR j => (i < j < NPROC)%nat /\ forall k, (i < k < j)%nat -> pstate (ptable s k) <> RUNNABLE
      | LMlfq _ _ => False
      end
  | LMlfq policy i => l' = LTop /\ exists sa, accounted i s sa /\ tail_post policy (Some i) sa s'
  end.

Lemma tail_post_ext policy chosen s s1 s' : ptable s1 = ptable s -> proc_priority s1 = proc_priority s ->
  proc_ticks s1 = proc_ticks s -> proc_wait_ticks s1 = proc_wait_ticks s ->
  tail_post policy chosen s1 s' -> tail_post policy chosen s s'.
Proof.
  intros E1 E2 E3 E4 [T1 T2 T3]. unfold raised, waited, waits in *. rewrite E1, E2, E4 in *.
  split; unfold raised, waited, waits; auto. congruence.
Qed.

(** CPU [c] comes back to the scheduler. *)
Lemma sched_resume_post l i s : ready s -> target l = Some i -> (i < NPROC)%nat ->
  wp (sched_resume kpgdir c l) (fun l' s' => sched_post l' s s' /\ resumed l l' s s') s.
Proof.
  intros [Hl Hn Hi] Ht Hb. destruct l as [|i'|policy i']; try discriminate; injection Ht as ->; cbn [sched_resume resumed].
  - do 2 (apply wp_bind, wp_modify). set (s1 := set_kcpus _ _).
    assert (O1 : forall c', c' <> c -> kcpus s1 c' = kcpus s c')
      by (intros c' Hc; cbn; rewrite !fn_insert_ne by congruence; reflexivity).
    assert (R1 : ready s1) by (split; auto; unfold nest; cbn; rewrite !fn_insert_eq; exact Hn).
    eapply wp_mono; [apply (rr_scan_post (NPROC - S i) (S i) s1 R1); [cbn; rewrite !fn_insert_eq; reflexivity|lia]|].
    intros l' s' [Hp Hw]. split; [eapply sched_post_trans; eauto|].
    destruct l' as [|j|]; auto.
  - apply wp_bind, wp_modify. set (s1 := set_kcpus _ _).
    apply wp_bind. eapply wp_mono; [apply account_post|]. intros u s2 [A2 E3]. apply wp_bind, wp_modify.
    pose proof (ac_rest _ _ _ A2) as (E1 & E2 & E4 & E5). set (s3 := set_kcpus _ s2).
    assert (R3 : ready s3).
    { split; unfold locks_held, nest, tinv; cbn; rewrite ?fn_insert_eq, ?E1, ?E2, ?E4, ?E5; auto.
      cbn. rewrite E3. cbn. rewrite fn_insert_eq. exact Hn. }
    eapply wp_mono; [apply (mlfq_tail_post policy (Some i) s3 R3); cbn; rewrite fn_insert_eq; reflexivity|].
    intros l' s' (-> & Hp & Htl). split.
    + eapply sched_post_trans; [..|exact Hp]; auto.
      * intros c' Hc. cbn. rewrite fn_insert_ne, E3 by congruence. cbn. apply fn_insert_ne. congruence.
      * intros Hv. apply (accounted_levels _ _ _ A2 Hv).
    + split; [reflexivity|]. exists s2. split; [|eapply tail_post_ext; [..|exact Htl]; reflexivity].
      destruct A2. split; auto.
Qed.
End SchedRules.
