(* ===== verification/Machine.v ===== *)
(** * The machine: all CPUs and processes together

    A step relation whose steps are the stretches of [scheduler] and of the
    process routines between two context switches, taken by any CPU in any
    order, and the invariant that every interleaving keeps: a process runs on at
    most one CPU, [ptable.lock] is held exactly across a context switch, and the
    process table stays well formed. *)

From S2P Require Import Prelude Mem Mmu Spinlock Kalloc Vm Proc ProcRules Sched System SchedRules.
Local Open Scope Z_scope.

(** ** Steps *)

(** What a CPU is executing: its scheduler, process [i] between [swtch] and the
    release of [ptable.lock], process [i] proper, or the scheduler just after
    process [i] called [swtch]. *)
Inductive phase := PSched | PIn (i : nat) | PRun (i : nat) | POut (i : nat).

(** Where a process that is not on a CPU continues ([p->context]). *)
Inductive kcont := KNew | KYield (saved : Z) | KSleep (lk : lockid) (saved : Z) | KWait (saved : Z) | KExit.

(** The routines of proc.c a process calls. *)
Inductive kop :=
| OYield | OSleep (ch : chanid) (lk : lockid) | OExit | OWait | OFork | OKill (n : Z) | OWakeup (ch : chanid)
| OPolicy (n : Z).

Record sys (F : Type) := mksys {
  sk : kst F;
  ph : nat -> phase;
  loc : nat -> loop_at;
  kont : nat -> kcont;
  sfirst : bool }.
Arguments mksys {F}.
Arguments sk {F}.
Arguments ph {F}.
Arguments loc {F}.
Arguments kont {F}.
Arguments sfirst {F}.

Section Machine.
Context {F : Type} `{FileOps F}.
Context (kend kdata : Z) (gpu0 : gpu) (trapret forkret_addr kpgdir : Z).

(** Continue a process; [Some k] when it gives up the CPU again. *)
Definition run_kont (first : bool) (c : nat) (k : kcont) : M (kst F) (option kcont) :=
  match k with
  | KNew => forkret c first ;;; ret None
  | KYield v => yield_back c v ;;; ret None
  | KSleep lk v => sleep_off c lk v ;;; ret None
  | KWait v =>
      r <- wait_back kend c v ;;
      ret (match r with inl _ => None | inr v' => Some (KWait v') end)
  | KExit => panic "zombie exit"
  end.

(** Run a routine; [Some k] when it gives up the CPU. *)
Definition run_op (c : nat) (o : kop) : M (kst F) (option kcont) :=
  match o with
  | OYield => v <- yield c ;; ret (Some (KYield v))
  | OSleep ch lk => v <- sleep_on c ch lk ;; ret (Some (KSleep lk v))
  | OExit => exit c ;;; ret (Some KExit)
  | OWait =>
      r <- wait kend c ;;
      ret (match r with inl _ => None | inr v => Some (KWait v) end)
  | OFork => fork kend kdata gpu0 trapret forkret_addr c ;;; ret None
  | OKill n => kill c n ;;; ret None
  | OWakeup ch => wakeup c ch ;;; ret None
  | OPolicy n => setSchedPolicy c n ;;; ret None
  end.

(** A new process starts in [forkret]. *)
Definition born (s s' : kst F) (k : nat -> kcont) (i : nat) : kcont :=
  if bool_decide (pstate (ptable s i) = UNUSED) && negb (bool_decide (pstate (ptable s' i) = UNUSED))
  then KNew else k i.

Definition after (i : nat) (r : option kcont) : phase := match r with None => PRun i | Some _ => POut i end.
Definition at_switch (l : loop_at) : phase := match target l with None => PSched | Some i => PIn i end.
Definition save (i : nat) (r : option kcont) (k : nat -> kcont) : nat -> kcont :=
  match r with None => k | Some x => <[i := x]> k end.

(** When a process may call a routine: [sleep] takes a lock other than
    [ptable.lock], and there are pids left for [fork]. *)
Definition op_ok (o : kop) (s : kst F) : Prop :=
  match o with
  | OSleep _ lk => lk <> Ptable
  | OFork => nextpid s < 2 ^ 31 - 1
  | _ => True
  end.

Inductive step : sys F -> sys F -> Prop :=
| step_top c s l k : ph s c = PSched -> sched_top c (sk s) = Ret (l, k) ->
    step s (mksys k (<[c := at_switch l]> (ph s)) (<[c := l]> (loc s)) (kont s) (sfirst s))
| step_out c i s l k : ph s c = POut i -> sched_resume kpgdir c (loc s c) (sk s) = Ret (l, k) ->
    step s (mksys k (<[c := at_switch l]> (ph s)) (<[c := l]> (loc s)) (kont s) (sfirst s))
| step_in c i s r k : ph s c = PIn i -> run_kont (sfirst s) c (kont s i) (sk s) = Ret (r, k) ->
    step s (mksys k (<[c := after i r]> (ph s)) (loc s) (save i r (kont s))
              (match kont s i with KNew => false | _ => sfirst s end))
| step_run c i o s r k : ph s c = PRun i -> op_ok o (sk s) -> run_op c o (sk s) = Ret (r, k) ->
    step s (mksys k (<[c := after i r]> (ph s)) (loc s) (save i r (born (sk s) k (kont s))) (sfirst s))
| step_tick c s ch k : ph s c = PSched -> wakeup c ch (sk s) = Ret (tt, k) ->
    step s (mksys k (ph s) (loc s) (kont s) (sfirst s)).

Inductive reach (s : sys F) : sys F -> Prop :=
| reach_refl : reach s s
| reach_step s1 s2 : reach s s1 -> step s1 s2 -> reach s s2.

(** ** The invariant *)

Definition in_crit (p : phase) : bool := match p with PIn _ | POut _ => true | _ => false end.
Definition who (p : phase) : option nat :=
  match p with PSched => None | PIn i | PRun i | POut i => Some i end.
Definition on_cpu (p : phase) : option nat := match p with PIn i | PRun i => Some i | _ => None end.

(** Sleepers in [kont] gave up a lock other than [ptable.lock]. *)
Definition konts (k : nat -> kcont) : Prop := forall i lk v, k i = KSleep lk v -> lk <> Ptable.

Record sys_inv (s : sys F) : Prop := mksysinv {
  si_table : tinv (sk s);
  si_levels : levels (sk s);
  si_init : exists k, initproc (sk s) = Some k;
  si_locks : locks_held (sk s) (locks (sk s) Ptable);
  si_holder : forall c, locks (sk s) Ptable = Some c <-> in_crit (ph s c) = true;
  si_nest : forall c, nest (sk s) c (if in_crit (ph s c) then 1 else 0);
  si_cproc : forall c, cproc (kcpus (sk s) c) = who (ph s c);
  si_bound : forall c i, who (ph s c) = Some i -> (i < NPROC)%nat;
  si_loc : forall c, who (ph s c) <> None -> target (loc s c) = who (ph s c);
  si_running : forall i, pstate (ptable (sk s) i) = RUNNING <-> exists c, on_cpu (ph s c) = Some i;
  si_once : forall c c' i, who (ph s c) = Some i -> on_cpu (ph s c') = Some i -> c = c';
  si_konts : konts (kont s) }.

(** From the invariant to the preconditions of the routines. *)
Lemma inv_free s c : sys_inv s -> locks (sk s) Ptable = None -> in_crit (ph s c) = false.
Proof. intros Hi Hl. apply not_true_is_false. rewrite <- (si_holder _ Hi). congruence. Qed.

Lemma inv_alone s c c' : sys_inv s -> in_crit (ph s c) = true -> c' <> c -> in_crit (ph s c') = false.
Proof.
  intros Hi Hc Hne. apply not_true_is_false. rewrite <- (si_holder _ Hi). apply (si_holder _ Hi) in Hc. congruence.
Qed.

Lemma inv_running s c i : sys_inv s -> ph s c = PRun i -> locks (sk s) Ptable = None -> running (sk s) c i.
Proof.
  intros Hi Hp Hl. pose proof (si_nest _ Hi c) as Hn. pose proof (si_cproc _ Hi c) as Hc.
  pose proof (si_locks _ Hi) as Hk. rewrite Hp, ?Hl in *. split; auto.
  - apply (si_running _ Hi). exists c. rewrite Hp. reflexivity.
  - apply Hi.
Qed.

Lemma inv_section s c i : sys_inv s -> who (ph s c) = Some i -> in_crit (ph s c) = true ->
  in_section c (Some i) (sk s) (sk s).
Proof.
  intros Hi Hw Hc. pose proof (si_nest _ Hi c) as Hn. pose proof (si_locks _ Hi) as Hk.
  rewrite Hc in Hn. apply (si_holder _ Hi) in Hc. rewrite Hc in Hk. split; auto. rewrite (si_cproc _ Hi). exact Hw.
Qed.

Lemma inv_entered s c i : sys_inv s -> ph s c = PIn i -> entered (sk s) c i.
Proof.
  intros Hi Hp. split; [apply inv_section; rewrite ?Hp; auto| |apply Hi].
  apply (si_running _ Hi). exists c. rewrite Hp. reflexivity.
Qed.

Lemma inv_ready s c i : sys_inv s -> ph s c = POut i -> ready c (sk s).
Proof.
  intros Hi Hp. destruct (inv_section s c i Hi) as [L _ _ _ N _ _]; rewrite ?Hp; auto. split; auto. apply Hi.
Qed.

Lemma inv_idle s c : sys_inv s -> ph s c = PSched -> locks (sk s) Ptable = None -> idle c (sk s).
Proof.
  intros Hi Hp Hl. pose proof (si_nest _ Hi c) as Hn. pose proof (si_cproc _ Hi c) as Hc.
  pose proof (si_locks _ Hi) as Hk. rewrite Hp, ?Hl in *. split; auto. apply Hi.
Qed.

(** ** Steps of a process *)

Lemma op_step s c i off k kn f : konts kn -> sys_inv s -> on_cpu (ph s c) = Some i ->
  (forall c', c' <> c -> in_crit (ph s c') = false) -> op_post c i off (sk s) k ->
  sys_inv (mksys k (<[c := if off then POut i else PRun i]> (ph s)) (loc s) kn f).
Proof.
  intros Hkn [I1 I2 I3 I4 I5 I6 I7 I8 I9 I10 I11 I12] Hon Hcrit [P1 P2 P3 P4 P5 P6 P7 P8 P9].
  assert (Hw : who (ph s c) = Some i) by (destruct (ph s c); simplify_eq/=; reflexivity).
  split; cbn [sk ph loc kont]; auto.
  - rewrite P8. exact I3.
  - rewrite (proj1 P1). exact P1.
  - intros c'. rewrite (proj1 P1). fn_at c c'; [destruct off; cbn; split; congruence|].
    rewrite Hcrit by congruence. destruct off; split; congruence.
  - intros c'. fn_at c c'; [destruct off; exact P4|]. unfold nest. rewrite P2 by congruence. apply I6.
  - intros c'. fn_at c c'; [rewrite P3, I7, Hw; destruct off; reflexivity|]. rewrite P2 by congruence. apply I7.
  - intros c' j. fn_at c c'; [intros Hj; apply (I8 c); rewrite Hw; destruct off; exact Hj|apply I8].
  - intros c'. fn_at c c'; [intros _; rewrite I9 by congruence; rewrite Hw; destruct off; reflexivity|apply I9].
  - intros j. destruct (decide (j = i)) as [->|Hj].
    + rewrite P5. split.
      * intros ->. exists c. rewrite fn_insert_eq. reflexivity.
      * intros [c' Hc']. fn_at c c'; [destruct off; [discriminate|reflexivity]|].
        exfalso. pose proof (I11 c c' i Hw Hc'). contradiction.
    + rewrite P6 by exact Hj. rewrite I10. split; intros [c' Hc']; exists c'.
      * rewrite fn_insert_ne; [exact Hc'|]. congruence.
      * fn_at c c'; [destruct off; cbn in Hc'; congruence|exact Hc'].
  - intros c1 c2 j. fn_at c c1; fn_at c c2; auto.
    + intros Hj Hon2. apply (I11 c c2 j); [rewrite Hw; destruct off; exact Hj|exact Hon2].
    + intros Hw1 Hj. destruct off; [discriminate|]. injection Hj as <-. apply (I11 c1 c i Hw1 Hon).
    + apply I11.
Qed.

(** ** Steps of the scheduler *)

Lemma sched_step s c l k kn f : konts kn -> sys_inv s -> on_cpu (ph s c) = None ->
  (forall c', c' <> c -> in_crit (ph s c') = false) -> sched_post c l (sk s) k ->
  sys_inv (mksys k (<[c := at_switch l]> (ph s)) (<[c := l]> (loc s)) kn f).
Proof.
  intros Hkn [I1 I2 I3 I4 I5 I6 I7 I8 I9 I10 I11 I12] Hoff Hcrit [P1 P2 P3 P4 P5].
  assert (Hother : forall c' j, c' <> c -> who (ph s c') = Some j -> on_cpu (ph s c') = Some j).
  { intros c' j Hne Hw. specialize (Hcrit c' Hne). destruct (ph s c'); try discriminate; exact Hw. }
  assert (Hcase : locks_held k (if in_crit (at_switch l) then Some c else None) /\
    nest k c (if in_crit (at_switch l) then 1 else 0) /\ cproc (kcpus k c) = who (at_switch l))
    by (unfold at_switch; destruct (target l); intuition auto).
  destruct Hcase as (L1 & N1 & C1).
  assert (Hrun : forall j, pstate (ptable k j) = RUNNING <-> pstate (ptable (sk s) j) = RUNNING \/ target l = Some j).
  { intros j. destruct (target l) as [i|].
    - destruct P5 as (_ & _ & _ & Hst & ->). fn_at i j; cbn; [tauto|]. intuition congruence.
    - destruct P5 as (_ & _ & _ & ->). intuition discriminate. }
  assert (Hnew : forall i, target l = Some i -> pstate (ptable (sk s) i) = RUNNABLE)
    by (intros i Hi; rewrite Hi in P5; apply P5).
  assert (Hat : forall j, who (at_switch l) = Some j <-> target l = Some j)
    by (intros j; unfold at_switch; destruct (target l); reflexivity).
  assert (Hat' : on_cpu (at_switch l) = who (at_switch l)) by (unfold at_switch; destruct (target l); reflexivity).
  split; cbn [sk ph loc kont]; auto.
  - rewrite P2. exact I3.
  - rewrite (proj1 L1). exact L1.
  - intros c'. rewrite (proj1 L1). fn_at c c'; [destruct (in_crit (at_switch l)); split; congruence|].
    rewrite Hcrit by congruence. destruct (in_crit (at_switch l)); split; congruence.
  - intros c'. fn_at c c'; [exact N1|]. unfold nest. rewrite P1 by congruence. apply I6.
  - intros c'. fn_at c c'; [exact C1|]. rewrite P1 by congruence. apply I7.
  - intros c' j. fn_at c c'; [|apply I8]. intros Hj%Hat. apply Hnew in Hj.
    destruct (le_lt_dec NPROC j) as [Hge|]; [|assumption]. apply (ti_bound _ _ _ I1) in Hge. congruence.
  - intros c'. fn_at c c'; [unfold at_switch; destruct (target l); cbn; congruence|apply I9].
  - intros j. rewrite Hrun, I10. split.
    + intros [[c' Hc']|Ht]; [exists c'; rewrite fn_insert_ne by congruence; exact Hc'|].
      exists c. rewrite fn_insert_eq, Hat', Hat. exact Ht.
    + intros [c' Hc']. fn_at c c'; [right; rewrite <- Hat, <- Hat'; exact Hc'|]. left. exists c'. exact Hc'.
  - assert (Hex : forall c' j, who (at_switch l) = Some j -> on_cpu (ph s c') = Some j -> False).
    { intros c' j Hj%Hat%Hnew Hc'. assert (pstate (ptable (sk s) j) = RUNNING) by (apply I10; eauto). congruence. }
    intros c1 c2 j. fn_at c c1; fn_at c c2; auto.
    + intros Hj Hc'. destruct (Hex _ _ Hj Hc').
    + intros Hw Hj. rewrite Hat' in Hj. destruct (Hex c1 j Hj). auto.
    + apply I11.
Qed.

(** ** Routines that find [ptable.lock] taken do not return *)

Section Blocked.
Context (c d : nat) (Hcd : d <> c).

Lemma blocked_acquire {A} (K : M (kst F) A) (Q : A -> kst F -> Prop) s : locks s Ptable = Some d ->
  wlp (kacquire c Ptable ;;; K) Q s.
Proof.
  intros Hl. unfold kacquire. do 2 apply wlp_bind. unfold wlp at 1, on_kc, lift. rewrite pushcli_eq.
  apply wlp_bind, wlp_gets. cbn [locks set_kcpus]. rewrite Hl, bool_decide_eq_false_2 by congruence. exact I.
Qed.

Lemma blocked_op o i s (Q : option kcont -> kst F -> Prop) : locks_held s (Some d) -> nest s c 0 ->
  cproc (kcpus s c) = Some i -> (forall n, o <> OPolicy n) -> op_ok o s -> wlp (run_op c o) Q s.
Proof.
  intros [Hl Ho] Hn Hc Hp Hok. destruct o; cbn [run_op]; apply wlp_bind; try (apply blocked_acquire; exact Hl).
  - unfold sleep_on. apply wlp_bind, wp_wlp. eapply wp_acquire; [exact Hn|lia|apply Ho, Hok|]. intros s1 K1.
    unfold sleep. apply wlp_bind, wp_wlp. eapply (wp_myproc _ _ 1); [exact (ks_nest _ _ _ _ K1)|lia|]. intros s2 K2.
    cbn [kcpus with_lock set_locks]. rewrite (kstep_cproc _ _ _ _ _ K1), Hc. apply wlp_bind.
    rewrite bool_decide_eq_true_2 by exact Hok. apply blocked_acquire. rewrite (kstep_locks _ _ _ _ K2). cbn.
    rewrite fn_lookup_insert_ne by exact Hok. rewrite (kstep_locks _ _ _ _ K1). exact Hl.
  - unfold exit. apply wlp_bind, wp_wlp. eapply (wp_curproc _ _ i 0); [exact Hn|lia|exact Hc|]. intros s0 K0.
    apply wlp_bind, wlp_gets. case_bool_decide; [exact I|]. apply wlp_bind.
    eapply wlp_mono; [apply exit_files_only|]. intros u1 s1 F1.
    apply wlp_bind, wlp_on_fs. intros u2 m2. apply wlp_bind, wlp_gets, wlp_bind, wlp_on_fs. intros u3 m3.
    apply wlp_bind, wlp_on_fs. intros u4 m4. apply wlp_bind, wlp_modify, blocked_acquire. cbn.
    rewrite (fo_locks _ _ F1), (kstep_locks _ _ _ _ K0). exact Hl.
  - unfold fork. apply wlp_bind, wp_wlp. eapply (wp_curproc _ _ i 0); [exact Hn|lia|exact Hc|]. intros s0 K0.
    apply wlp_bind, blocked_acquire. rewrite (kstep_locks _ _ _ _ K0). exact Hl.
  - destruct (Hp n). reflexivity.
Qed.

Lemma blocked_top (s : kst F) Q : locks s Ptable = Some d -> wlp (sched_top c) Q s.
Proof. intros Hl. apply wlp_bind. unfold wlp at 1, on_kc, lift, modify. apply blocked_acquire, Hl. Qed.
End Blocked.

(** ** Every step keeps the invariant *)

Definition gone (r : option kcont) : bool := match r with None => false | Some _ => true end.

Lemma run_kont_post first c i k s : entered s c i ->
  (forall lk v, k = KSleep lk v -> lk <> Ptable) ->
  wlp (run_kont first c k) (fun r s' => op_post c i (gone r) s s' /\
    (forall lk v, r = Some (KSleep lk v) -> lk <> Ptable)) s.
Proof.
  intros He Hk. destruct k; cbn [run_kont]; try (exact I); apply wlp_bind.
  - eapply wlp_mono; [apply forkret_post, He|]. intros u s' Ho. split; [exact Ho|discriminate].
  - eapply wlp_mono; [apply wp_wlp, yield_back_post, He|]. intros u s' Ho. split; [exact Ho|discriminate].
  - eapply wlp_mono; [apply wp_wlp, sleep_back_post; eauto|]. intros u s' [Ho _]. split; [exact Ho|discriminate].
  - eapply wlp_mono; [apply wait_back_post, He|]. intros [n|v] s' Ho; (split; [exact Ho|discriminate]).
Qed.

Lemma run_op_post c i o s : running s c i -> (exists k, initproc s = Some k) -> op_ok o s -> 1 <= nextpid s ->
  (forall n, o <> OPolicy n) ->
  wlp (run_op c o) (fun r s' => op_post c i (gone r) s s' /\
    (forall lk v, r = Some (KSleep lk v) -> lk <> Ptable)) s.
Proof.
  intros Hr [k Hk] Hok Hn Hp. destruct o; cbn [run_op]; apply wlp_bind.
  - eapply wlp_mono; [apply wp_wlp, yield_post, Hr|]. intros v s' [Ho _]. split; [exact Ho|discriminate].
  - eapply wlp_mono; [apply wp_wlp, sleep_post; eauto|]. intros v s' [Ho _]. split; [exact Ho|congruence].
  - eapply wlp_mono; [eapply exit_post; eauto|]. intros v s' [Ho _]. split; [exact Ho|discriminate].
  - eapply wlp_mono; [apply wait_post, Hr|]. intros [n|v] s' [Ho _]; (split; [exact Ho|discriminate]).
  - eapply wlp_mono; [apply fork_post; [exact Hr|cbn in Hok; lia]|]. intros v s' [Ho _]. split; [exact Ho|discriminate].
  - eapply wlp_mono; [apply wp_wlp, kill_post, Hr|]. intros v s' [Ho _]. split; [exact Ho|discriminate].
  - eapply wlp_mono; [apply wp_wlp, wakeup_post, Hr|]. intros v s' [Ho _]. split; [exact Ho|discriminate].
  - destruct (Hp n). reflexivity.
Qed.

(** A change no CPU's position depends on. *)
Lemma still_step s k p kn f : konts kn -> sys_inv s -> (forall c, p c = ph s c) -> tinv k -> (levels (sk s) -> levels k) ->
  initproc k = initproc (sk s) -> (forall l, locks k l = locks (sk s) l) ->
  (forall c n, nest (sk s) c n -> nest k c n) -> (forall c, cproc (kcpus k c) = cproc (kcpus (sk s) c)) ->
  (forall i, pstate (ptable k i) = RUNNING <-> pstate (ptable (sk s) i) = RUNNING) ->
  sys_inv (mksys k p (loc s) kn f).
Proof.
  intros Hkn [I1 I2 I3 I4 I5 I6 I7 I8 I9 I10 I11 I12] Hp Ht Hv Hi Hl Hn Hc Hr.
  split; cbn [sk ph loc kont]; auto.
  - rewrite Hi. exact I3.
  - split; [reflexivity|]. intros l Hne. rewrite Hl. apply I4, Hne.
  - intros c. rewrite Hl, Hp. apply I5.
  - intros c. rewrite Hp. apply Hn, I6.
  - intros c. rewrite Hc, Hp. apply I7.
  - intros c i. rewrite Hp. apply I8.
  - intros c. rewrite Hp. apply I9.
  - intros i. rewrite Hr, I10. split; intros [c Hx]; exists c; [rewrite Hp|rewrite <- Hp]; exact Hx.
  - intros c c' i. rewrite !Hp. apply I11.
Qed.

Lemma setSchedPolicy_post c n m (s : kst F) : nest s c m -> 0 <= m ->
  wp (setSchedPolicy c n) (fun r s' => r = 0 /\ s' = set_kcpus (kcpus s') s /\
    (forall c', c' <> c -> kcpus s' c' = kcpus s c') /\ cproc (kcpus s' c) = cproc (kcpus s c) /\
    nest s' c m /\ sched_policy (kcpus s' c) = n) s.
Proof.
  intros Hn Hm. unfold setSchedPolicy. apply wp_bind. eapply wp_pushcli; [exact Hn|exact Hm|]. intros s1 K1.
  apply wp_bind, wp_modify, wp_bind. eapply (wp_popcli _ _ (m + 1)); [|lia|].
  { unfold nest. cbn. rewrite fn_insert_eq. exact (ks_nest _ _ _ _ K1). }
  intros s2 K2. unfold wp, ret. split; [reflexivity|]. split.
  { rewrite (ks_rest _ _ _ _ K2) at 1. cbn. pose proof (ks_rest _ _ _ _ K1) as R1.
    destruct s1; injection R1 as; subst; reflexivity. }
  split; [|split; [|split]].
  - intros c' Hc. rewrite (ks_other _ _ _ _ K2) by exact Hc. cbn. rewrite fn_insert_ne by congruence. apply K1, Hc.
  - rewrite (kstep_cproc _ _ _ _ _ K2). cbn. rewrite fn_insert_eq. apply (kstep_cproc _ _ _ _ _ K1).
  - replace m with (m + 1 - 1) by lia. apply K2.
  - rewrite (kstep_policy _ _ _ _ _ K2). cbn. rewrite fn_insert_eq. reflexivity.
Qed.

(** [wakeup] from an interrupt in the scheduler. *)
Lemma idle_wakeup_post c ch (s : kst F) : idle c s ->
  wp (wakeup c ch) (fun _ s' => locks_held s' None /\ (forall c', c' <> c -> kcpus s' c' = kcpus s c') /\
    nest s' c 0 /\ cproc (kcpus s' c) = None /\ ptable s' = woken (Some ch) (ptable s) /\
    nextpid s' = nextpid s /\ initproc s' = initproc s /\ proc_priority s' = proc_priority s) s.
Proof.
  intros [Hl Hn Hc Hi]. unfold wakeup. apply wp_bind. eapply wp_acquire; [exact Hn|lia|apply (proj1 Hl)|].
  intros s1 K1. apply wp_bind, wp_modify.
  eapply (wp_release _ _ _ 1); [exact (ks_nest _ _ _ _ K1)|lia|apply fn_lookup_insert|]. intros s2 K2.
  pose proof (ks_rest _ _ _ _ K2) as R2. pose proof (ks_rest _ _ _ _ K1) as R1. split; [|split; [|split; [|split]]].
  - unfold locks_held. rewrite (kstep_locks _ _ _ _ K2). cbn. rewrite (kstep_locks _ _ _ _ K1).
    split; [apply fn_lookup_insert|]. intros l Hne. rewrite !fn_lookup_insert_ne by congruence. apply Hl, Hne.
  - intros c' Hne. rewrite (ks_other _ _ _ _ K2) by exact Hne. apply K1, Hne.
  - exact (ks_nest _ _ _ _ K2).
  - rewrite (kstep_cproc _ _ _ _ _ K2). cbn. rewrite (kstep_cproc _ _ _ _ _ K1). exact Hc.
  - rewrite R2. cbn. rewrite R1. auto.
Qed.

Lemma konts_save i r k : konts k -> (forall lk v, r = Some (KSleep lk v) -> lk <> Ptable) -> konts (save i r k).
Proof.
  intros Hk Hr j lk v. unfold save. destruct r as [x|]; [|apply Hk]. fn_at i j; [|apply Hk].
  intros ->. eapply Hr. reflexivity.
Qed.

Lemma konts_born s s' k : konts k -> konts (born s s' k).
Proof. intros Hk j lk v. unfold born. destruct (_ && _); [discriminate|apply Hk]. Qed.

Lemma after_off i r : after i r = if gone r then POut i else PRun i.
Proof. destruct r; reflexivity. Qed.

Lemma policy_step s c i n k kn f : konts kn -> sys_inv s -> ph s c = PRun i ->
  setSchedPolicy c n (sk s) = Ret (0, k) -> sys_inv (mksys k (<[c := PRun i]> (ph s)) (loc s) kn f).
Proof.
  intros Hkn Hi Hp E. pose proof (si_nest _ Hi c) as Hn. rewrite Hp in Hn. cbn in Hn.
  pose proof (wlp_ret _ _ _ _ _ (wp_wlp _ _ _ (setSchedPolicy_post c n 0 (sk s) Hn ltac:(lia))) E)
    as (_ & R & O & C & N & _).
  apply still_step; auto.
  - intros c'. fn_at c c'; auto.
  - rewrite R. apply Hi.
  - apply levels_eq. rewrite R. reflexivity.
  - rewrite R. reflexivity.
  - intros l. rewrite R. reflexivity.
  - intros c' m. destruct (decide (c' = c)) as [->|Hne]; [|unfold nest; rewrite O by exact Hne; auto].
    intros [Hm _]. replace m with 0; [exact N|]. destruct Hn. congruence.
  - intros c'. destruct (decide (c' = c)) as [->|Hne]; [exact C|]. rewrite O by exact Hne. reflexivity.
  - intros j. rewrite R. reflexivity.
Qed.

Lemma tick_step s c ch k : sys_inv s -> ph s c = PSched -> wakeup c ch (sk s) = Ret (tt, k) ->
  sys_inv (mksys k (ph s) (loc s) (kont s) (sfirst s)).
Proof.
  intros Hi Hp E. destruct (locks (sk s) Ptable) as [d|] eqn:Hl.
  { assert (Hcd : d <> c) by (intros ->; apply (si_holder _ Hi) in Hl; rewrite Hp in Hl; discriminate).
    destruct (wlp_ret _ (fun _ _ => False) _ _ _ (blocked_acquire c d Hcd _ _ _ Hl) E). }
  pose proof (inv_idle _ _ Hi Hp Hl) as Hid.
  pose proof (wlp_ret _ _ _ _ _ (wp_wlp _ _ _ (idle_wakeup_post c ch _ Hid)) E) as (L & O & N & C & T & X & I' & Q).
  apply still_step; auto; [apply Hi|..].
  - unfold tinv. rewrite T, X, I'. apply woken_inv, Hi.
  - apply levels_eq, Q.
  - intros l. destruct (decide (l = Ptable)) as [->|Hne]; [rewrite Hl; exact (proj1 L)|].
    rewrite (proj2 L), (proj2 (id_locks _ _ Hid)) by exact Hne. reflexivity.
  - intros c' m. destruct (decide (c' = c)) as [->|Hne]; [|unfold nest; rewrite O by exact Hne; auto].
    intros [Hm _]. replace m with 0; [exact N|]. destruct (id_nest _ _ Hid). congruence.
  - intros c'. destruct (decide (c' = c)) as [->|Hne]; [rewrite C, (id_cproc _ _ Hid); reflexivity|].
    rewrite O by exact Hne. reflexivity.
  - intros j. rewrite T. apply woken_running.
Qed.

Lemma inv_nextpid s : sys_inv s -> 1 <= nextpid (sk s).
Proof.
  intros Hi. destruct (si_init _ Hi) as [k Hk]. pose proof (ti_init _ _ _ (si_table _ Hi) k Hk) as Ha.
  assert (Hu : pstate (ptable (sk s) k) <> UNUSED) by (intros E; rewrite E in Ha; discriminate).
  pose proof (ti_pid _ _ _ (si_table _ Hi) k Hu). lia.
Qed.

Lemma run_step s c i o r k : sys_inv s -> ph s c = PRun i -> op_ok o (sk s) -> run_op c o (sk s) = Ret (r, k) ->
  sys_inv (mksys k (<[c := after i r]> (ph s)) (loc s) (save i r (born (sk s) k (kont s))) (sfirst s)).
Proof.
  intros Hi Hp Hok E. pose proof (konts_born (sk s) k _ (si_konts _ Hi)) as Hb.
  assert (Hpol : (exists n, o = OPolicy n) \/ forall n, o <> OPolicy n) by (destruct o; eauto; right; discriminate).
  destruct Hpol as [[n ->]|Hpol].
  { cbn [run_op] in E. inv_bind E. injection E as <- <-.
    pose proof (si_nest _ Hi c) as Hn. rewrite Hp in Hn.
    pose proof (wlp_ret _ _ _ _ _ (wp_wlp _ _ _ (setSchedPolicy_post c n 0 (sk s) Hn ltac:(lia))) H0) as (-> & _).
    eapply policy_step; eauto. }
  destruct (locks (sk s) Ptable) as [d|] eqn:Hl.
  { assert (Hcd : d <> c) by (intros ->; apply (si_holder _ Hi) in Hl; rewrite Hp in Hl; discriminate).
    pose proof (si_nest _ Hi c) as Hn. pose proof (si_cproc _ Hi c) as Hc. pose proof (si_locks _ Hi) as Hk.
    rewrite Hp in *. rewrite Hl in Hk.
    destruct (wlp_ret _ (fun _ _ => False) _ _ _ (blocked_op c d Hcd o i _ _ Hk Hn Hc Hpol Hok) E). }
  pose proof (wlp_ret _ _ _ _ _ (run_op_post c i o _ (inv_running _ _ _ Hi Hp Hl) (si_init _ Hi) Hok
    (inv_nextpid _ Hi) Hpol) E) as [Ho Hs].
  rewrite after_off. apply op_step; auto.
  - apply konts_save; auto.
  - rewrite Hp. reflexivity.
  - intros c' _. apply inv_free; auto.
Qed.

Lemma step_inv s s' : step s s' -> sys_inv s -> sys_inv s'.
Proof.
  intros Hs Hi. destruct Hs as [c s l k Hp E|c i s l k Hp E|c i s r k Hp E|c i o s r k Hp Hok E|c s ch k Hp E].
  - destruct (locks (sk s) Ptable) as [d|] eqn:Hl.
    { assert (Hcd : d <> c) by (intros ->; apply (si_holder _ Hi) in Hl; rewrite Hp in Hl; discriminate).
      destruct (wlp_ret _ (fun _ _ => False) _ _ _ (blocked_top c d Hcd _ _ Hl) E). }
    pose proof (wlp_ret _ _ _ _ _ (wp_wlp _ _ _ (sched_top_post c _ (inv_idle _ _ Hi Hp Hl))) E) as [Hpost _].
    apply sched_step; auto; [apply Hi|rewrite Hp; reflexivity|]. intros c' _. apply inv_free; auto.
  - assert (Hw : who (ph s c) = Some i) by (rewrite Hp; reflexivity).
    assert (Ht : target (loc s c) = Some i) by (rewrite (si_loc _ Hi), Hw by congruence; reflexivity).
    pose proof (wlp_ret _ _ _ _ _ (wp_wlp _ _ _ (sched_resume_post kpgdir c _ i _ (inv_ready _ _ _ Hi Hp) Ht
      (si_bound _ Hi c i Hw))) E) as [Hpost _].
    apply sched_step; auto; [apply Hi|rewrite Hp; reflexivity|]. intros c' Hne.
    apply (inv_alone s c); auto. rewrite Hp. reflexivity.
  - pose proof (wlp_ret _ _ _ _ _ (run_kont_post (sfirst s) c i (kont s i) _ (inv_entered _ _ _ Hi Hp)
      (si_konts _ Hi i)) E) as [Ho Hs].
    rewrite after_off. apply op_step; auto; [apply konts_save; [apply Hi|exact Hs]|rewrite Hp; reflexivity|].
    intros c' Hne. apply (inv_alone s c); auto. rewrite Hp. reflexivity.
  - eapply run_step; eauto.
  - eapply tick_step; eauto.
Qed.

Lemma reach_inv s s' : reach s s' -> sys_inv s -> sys_inv s'.
Proof. induction 1; eauto using step_inv. Qed.

(** ** The start *)

(** Before [userinit]: an empty table, all CPUs outside critical sections. *)
Record cold (s : kst F) : Prop := mkcold {
  co_table : forall i, pstate (ptable s i) = UNUSED;
  co_next : nextpid s = 1;
  co_levels : levels s;
  co_locks : locks_held s None;
  co_nest : forall c, nest s c 0;
  co_cproc : forall c, cproc (kcpus s c) = None }.

(** The first process exists and every CPU is about to enter its scheduler. *)
Record booted (s : sys F) : Prop := mkbooted {
  bo_phase : forall c, ph s c = PSched;
  bo_kont : forall i, kont s i = KNew;
  bo_table : tinv (sk s);
  bo_idle : forall i, pstate (ptable (sk s) i) <> RUNNING;
  bo_init : exists k, initproc (sk s) = Some k;
  bo_levels : levels (sk s);
  bo_locks : locks_held (sk s) None;
  bo_nest : forall c, nest (sk s) c 0;
  bo_cproc : forall c, cproc (kcpus (sk s) c) = None }.

Lemma booted_inv s : booted s -> sys_inv s.
Proof.
  intros [B1 B2 B3 B4 B5 B6 B7 B8 B9]. split; auto.
  - rewrite (proj1 B7). exact B7.
  - intros c. rewrite (proj1 B7), B1. split; discriminate.
  - intros c. rewrite B1. apply B8.
  - intros c. rewrite B1. apply B9.
  - intros c i. rewrite B1. discriminate.
  - intros c. rewrite B1. intros []. reflexivity.
  - intros i. split; [intros E; destruct (B4 i E)|]. intros [c Hc]. rewrite B1 in Hc. discriminate.
  - intros c c' i. rewrite B1. discriminate.
  - intros i lk v. rewrite B2. discriminate.
Qed.

Definition start (s : kst F) : sys F := mksys s (fun _ => PSched) (fun _ => LTop) (fun _ => KNew) true.

(** The table with the first process alone is well formed. *)
Lemma first_table t i np : (i < NPROC)%nat -> 1 <= pid (t i) < np -> pstate (t i) = RUNNABLE ->
  kstack (t i) <> 0 -> pgdir (t i) <> 0 -> (forall j, j <> i -> pstate (t j) = UNUSED) -> table_inv t np (Some i).
Proof.
  intros Hi Hp Hst Hk Hd Ho.
  assert (Hu : forall j, pstate (t j) <> UNUSED -> j = i).
  { intros j Hj. destruct (decide (j = i)) as [|Hne]; [assumption|]. destruct Hj. auto. }
  split.
  - intros j Hj. apply Ho. lia.
  - intros j. destruct (decide (j = i)) as [->|Hne]; [congruence|]. rewrite Ho by exact Hne. discriminate.
  - intros j ->%Hu. auto.
  - intros j [= <-]. rewrite Hst. reflexivity.
  - intros j ->%Hu. congruence.
  - intros j ->%Hu. exact Hp.
  - intros j j' ->%Hu ->%Hu. reflexivity.
Qed.

(** [userinit] publishes the first process. *)
Lemma publish_first c i s : (i < NPROC)%nat -> locks_held s None -> (forall c, nest s c 0) ->
  (forall c, cproc (kcpus s c) = None) -> levels s -> initproc s = Some i ->
  1 <= pid (ptable s i) < nextpid s -> kstack (ptable s i) <> 0 -> pgdir (ptable s i) <> 0 ->
  (forall j, j <> i -> pstate (ptable s j) = UNUSED) ->
  wp (kacquire c Ptable ;;; upd_proc i (set_pstate RUNNABLE) ;;; krelease c Ptable)
    (fun _ s' => booted (start s')) s.
Proof.
  intros Hi Hl Hn Hc Hv Hin Hp Hk Hd Ho.
  assert (C0 : calm c s s) by (split; auto).
  apply wp_bind. eapply calm_acquire; [exact C0|apply Hc|]. intros s1 S1 (E1 & N1 & _).
  apply wp_bind, wp_modify. eapply section_calm; [eapply in_section_ext; [..|exact S1]; reflexivity|].
  intros s2 [C1 C2 C3 C4 C5 C6] (E2 & N2 & _). cbn in E2, N2.
  assert (Ei : ptable s2 i = set_pstate RUNNABLE (ptable s i)) by (rewrite E2, fn_insert_eq, E1; reflexivity).
  assert (Eo : forall j, j <> i -> ptable s2 j = ptable s j) by (intros j Hj; rewrite E2, fn_insert_ne, E1; congruence).
  split; cbn [start sk ph kont]; auto.
  - unfold tinv. rewrite C5, Hin. apply first_table; rewrite ?Ei, ?N2, ?N1; auto.
    intros j Hj. rewrite Eo by exact Hj. auto.
  - intros j. destruct (decide (j = i)) as [->|Hj]; [rewrite Ei; discriminate|]. rewrite Eo, Ho by exact Hj. discriminate.
  - exists i. congruence.
  - intros c'. destruct (decide (c' = c)) as [->|Hne]; [exact C4|]. unfold nest. rewrite C2 by exact Hne. apply Hn.
  - intros c'. destruct (decide (c' = c)) as [->|Hne]; [rewrite C3; apply Hc|]. rewrite C2 by exact Hne. apply Hc.
Qed.

Lemma userinit_boots c a b s : cold s ->
  wlp (userinit kend kdata gpu0 trapret forkret_addr c a b) (fun _ s' => booted (start s')) s.
Proof.
  intros [T0 N0 V0 L0 Ne0 C0]. unfold userinit. apply wlp_bind.
  assert (Hcalm : calm c s s) by (split; auto).
  eapply wlp_mono; [eapply allocproc_post; [exact Hcalm|apply C0]|]. intros [i|] s1 [[A1 A2 A3 A4 A5 A6] Hal];
    apply wlp_bind, wlp_modify; [|exact I].
  destruct Hal as [(Hi & _ & Ho) _ Hpid Hk Hnx _]. rewrite N0 in *.
  apply wlp_bind, wlp_on_mem. intros d m. apply wlp_bind, wlp_modify.
  destruct (Z.eqb_spec d 0) as [|Hd]; [exact I|]. apply wlp_bind, wlp_on_mem. intros u m1. apply wlp_bind, wlp_modify.
  case_if; [exact I|]. apply wlp_bind, wlp_on_mem. intros r m2. case_if; [exact I|].
  apply wlp_bind, wlp_gets. do 9 (apply wlp_bind, wlp_on_mem; intros ? ?).
  apply wlp_bind, wlp_modify, wlp_bind, wlp_on_fs. intros w mf. apply wlp_bind, wlp_modify.
  apply wp_wlp, publish_first; cbn; rewrite ?fn_insert_eq; cbn; auto.
  - intros c'. destruct (decide (c' = c)) as [->|Hne]; [exact A4|]. unfold nest. cbn. rewrite A2 by exact Hne. apply Ne0.
  - intros c'. destruct (decide (c' = c)) as [->|Hne]; [rewrite A3; apply C0|]. rewrite A2 by exact Hne. apply C0.
  - rewrite Hpid, Hnx. rewrite s32_small by lia. lia.
  - intros j Hj. rewrite !fn_insert_ne by congruence. rewrite Ho by exact Hj. apply T0.
Qed.
End Machine.
