(* ===== verification/ProcMem.v ===== *)
(** * Processes and their memory

    [fork], [wait] and the page allocator together: the routines return, the
    child gets a copy of the parent's address space, and a reaped child's pages
    are free again. *)

From S2P Require Import Prelude Mem Mmu Spinlock Kalloc Vm Uvm Ualloc Kvm Copyuvm Proc ProcRules Sched System.
Local Open Scope Z_scope.

Section ProcMem.
Context {F : Type} `{FileOps F}.
Context (kend kdata : Z) (gpu0 : gpu) (trapret forkret_addr : Z) (c : nat).

Lemma wp_on_mem {A} (f : M kmem A) (Q : A -> kst F -> Prop) a m s :
  f (km s) = Ret (a, m) -> Q a (set_km m s) -> wp (on_mem f) Q s.
Proof. intros E HQ. unfold wp, on_mem, lift. rewrite E. exact HQ. Qed.

(** [kvmalloc] loads the directory [setupkvm] made; when memory runs out it loads 0. *)
Lemma kvmalloc_ok l (s : kst F) : KERNBASE < kend -> kmap_ok kdata gpu0 -> kmem_inv kend l (km s) ->
  wp (kvmalloc kend kdata gpu0 c) (fun d s' => cr3 (kcpus s' c) = V2P d /\
    setup_result kend kdata gpu0 l (km s) (Ret (d, km s'))) s.
Proof.
  intros Hk Hm Hi. pose proof (setupkvm_ok kend kdata gpu0 l (km s) Hk Hm Hi) as R.
  assert (E : exists d m, setupkvm kend kdata gpu0 (km s) = Ret (d, m))
    by (destruct R as [(d & ts & l' & m & E & _)|(l' & m & E & _)]; eauto).
  destruct E as (d & m & E). rewrite E in R. unfold kvmalloc. apply wp_bind. eapply wp_on_mem; [exact E|].
  unfold wp, switchkvm, upd_cpu, bind, modify, ret. cbn. rewrite fn_insert_eq. auto.
Qed.

(** ** Writing inside one page *)

(** [m'] is [m] but for page [k]. *)
Definition page_only (k : Z) (m m' : mem) : Prop := forall a, ~ in_page a k -> ldb m' a = ldb m a.

Lemma page_only_trans k m1 m2 m3 : page_only k m1 m2 -> page_only k m2 m3 -> page_only k m1 m3.
Proof. intros H1 H2 a Ha. rewrite H2, H1 by exact Ha. reflexivity. Qed.

Lemma page_only_st32 k m a v : k <= a -> a + 4 <= k + 4096 -> page_only k m (st32 m a v).
Proof. intros H1 H2 b Hb. unfold in_page, PGSIZE in Hb. rewrite ldb_st32. repeat case_if; try lia; reflexivity. Qed.

Lemma page_only_memset k m a v n : 0 <= n -> k <= a -> a + n <= k + 4096 -> page_only k m (memset m a v n).
Proof. intros H0 H1 H2 b Hb. unfold in_page, PGSIZE in Hb. rewrite ldb_memset by exact H0. case_if; [lia|reflexivity]. Qed.

Lemma page_only_memmove k m a b n : 0 <= n -> k <= a -> a + n <= k + 4096 -> page_only k m (memmove m a b n).
Proof. intros H0 H1 H2 x Hx. unfold in_page, PGSIZE in Hx. rewrite ldb_memmove by exact H0. case_if; [lia|reflexivity]. Qed.

Lemma page_only_inv k l s m' : kmem_inv kend l s -> page_ok kend k -> k ∉ l -> page_only k (k_mem s) m' ->
  kmem_inv kend l (set_mem m' s).
Proof.
  intros Hi Hk Hn Hm. apply kmem_inv_frame; [exact Hi|]. intros q a Hq Ha. apply Hm. intros Ha'.
  apply (pages_apart kend q k a); auto; [apply (kmem_inv_pages _ _ _ Hi _ Hq)|congruence].
Qed.

(** Pages of an address space: they are pages, and none of them is free. *)
Lemma space_page_ok m d l q : uvm_ok kend m d l -> space_page m d q -> page_ok kend q /\ q ∉ l.
Proof.
  intros Hu [Ht|(va & Hv & ->)]; [apply (table_page_ok _ _ _ _ _ (uvm_dir _ _ _ _ Hu) Ht)|].
  destruct (uvm_frame _ _ _ _ Hu va Hv) as (? & ? & _). auto.
Qed.

(** A change that keeps every page of the space [d] keeps its entries and its
    pages. *)
Definition keeps (m m' : mem) (d : Z) : Prop :=
  forall q a, space_page m d q -> in_page a q -> ldb m' a = ldb m a.

Lemma keeps_pte m m' d va : keeps m m' d -> pte_at m' d va = pte_at m d va.
Proof. intros Hk. apply pte_at_frame. intros q a Hq. apply Hk. left. exact Hq. Qed.

Lemma keeps_uvm m m' d l : keeps m m' d -> uvm_ok kend m d l -> uvm_ok kend m' d l.
Proof. intros Hk. apply uvm_ok_frame. intros q a Hq. apply Hk. left. exact Hq. Qed.

Lemma page_keeps k m m' d l : uvm_ok kend m d l -> page_ok kend k -> ~ space_page m d k -> page_only k m m' ->
  keeps m m' d.
Proof.
  intros Hu Hk Hn Hm q a Hq Ha. apply Hm. intros Ha'. destruct (space_page_ok _ _ _ _ Hu Hq) as [Hqo _].
  apply (pages_apart kend q k a); auto. congruence.
Qed.

(** A copy stays a copy when neither the original nor the copy is written. *)
Lemma copy_of_keeps m0 m0' pd m m' d va : present m0 pd va ->
  keeps m0 m0' pd -> keeps m m' d -> copy_of kend m0' pd m d va -> copy_of kend m0 pd m' d va.
Proof.
  intros Hp Hs Hd (p & Hpo & Hpte & Hb). rewrite (keeps_pte _ _ _ _ Hs) in *.
  assert (Hfl : 0 <= PTE_FLAGS (pte_at m0 pd va) < 4096) by (rewrite PTE_FLAGS_arith; apply Z.mod_pos_bound; lia).
  assert (Hsp : space_page m d p).
  { right. exists va. rewrite Hpte, (ptpage_mk kend) by auto. split; [|reflexivity].
    split; [apply Hp|]. rewrite Hpte. apply mk_pte_present. }
  exists p. split; [exact Hpo|]. split; [rewrite (keeps_pte _ _ _ _ Hd); exact Hpte|].
  intros k Hk. rewrite (Hd p) by (auto; unfold in_page, PGSIZE; lia). rewrite Hb by exact Hk.
  apply (Hs (ptpage (pte_at m0 pd va))); [right; exists va; auto|]. unfold in_page, PGSIZE. lia.
Qed.

(** ** [allocproc]: the kernel stack is one free page *)

(** The context of a process that has not run: [forkret] and, on return from it,
    [trapret]. *)
Definition new_context (k : Z) (q : proc) (m : mem) : Prop :=
  context q = k + 3996 /\ ld32 m (k + 4012) = u32 forkret_addr /\ ld32 m (k + 4016) = u32 trapret.

Definition stack_taken (l : list Z) (s s' : kst F) (i : nat) (l1 : list Z) : Prop :=
  exists k, l = k :: l1 /\ kstack (ptable s' i) = k /\ tf (ptable s' i) = k + 4096 - 76 /\
    new_context k (ptable s' i) (k_mem (km s')) /\ kmem_inv kend l1 (km s') /\ page_only k (k_mem (km s)) (k_mem (km s')).

Lemma allocproc_mem o l s s0 : calm c s s0 -> cproc (kcpus s c) = o -> kmem_inv kend l (km s0) ->
  wp (allocproc trapret forkret_addr c) (fun r s' =>
    match r with
    | Some i => exists l1, stack_taken l s0 s' i l1
    | None => kmem_inv kend l (km s') /\ k_mem (km s') = k_mem (km s0)
    end) s0.
Proof.
  intros C0 Hc Hm. unfold allocproc. apply wp_bind. eapply calm_acquire; [exact C0|exact Hc|].
  intros s1 S1 (_ & _ & K1). apply wp_bind, wp_gets. destruct (scan _ NPROC 0) as [np|].
  2: { apply wp_bind. eapply section_calm; [exact S1|]. intros s2 _ (_ & _ & K2). unfold wp, ret.
       rewrite K2, K1. auto. }
  apply wp_bind, wp_modify, wp_bind, wp_gets. do 5 (apply wp_bind, wp_modify).
  apply wp_bind. eapply section_calm; [eapply in_section_levels; [..|exact S1]; try reflexivity|].
  { intros Hv j. cbn. fn_at np j; [lia|apply Hv]. }
  intros s2 _ (_ & _ & K2). cbn in K2. rewrite K1 in K2. rewrite <- K2 in *. apply wp_bind.
  destruct l as [|k l1].
  - destruct (kalloc_nil kend _ Hm) as (m & E & Hm' & Hk & _). eapply wp_on_mem; [exact E|].
    apply wp_bind, wp_modify. cbn [Z.eqb]. apply wp_bind, wp_modify. unfold wp, ret. cbn. auto.
  - destruct (kalloc_cons kend k l1 _ Hm) as (m & E & Hm' & Hk & _). eapply wp_on_mem; [exact E|].
    assert (Hko : page_ok kend k) by (apply (kmem_inv_pages _ _ _ Hm); left).
    assert (Hkn : k ∉ l1) by (destruct Hm as (_ & Hnd & _); inversion Hnd; assumption).
    pose proof (page_ok_pos _ _ Hko). apply wp_bind, wp_modify. destruct (Z.eqb_spec k 0); [lia|].
    do 5 (apply wp_bind, wp_modify || (apply wp_bind; eapply wp_on_mem; [reflexivity|])).
    unfold wp, ret. exists l1, k. cbn [km set_km ptable set_ptable]. rewrite !fn_insert_eq. cbn.
    split; [reflexivity|]. split; [reflexivity|]. split; [unfold KSTACKSIZE, TF_SIZE; lia|].
    split.
    { unfold new_context. cbn. unfold KSTACKSIZE, TF_SIZE, CONTEXT_SIZE. split; [lia|].
      replace (k + 4012) with (k + 4096 - 76 - 4 - 20 + 16) by lia. split; [apply ld32_st32_same|].
      rewrite ld32_st32_ne, ld32_memset_out by lia. replace (k + 4016) with (k + 4096 - 76 - 4) by lia. apply ld32_st32_same. }
    assert (Ho : page_only k (k_mem (km s2)) (st32 (memset (st32 (k_mem m) (k + KSTACKSIZE - TF_SIZE - 4) trapret)
      (k + KSTACKSIZE - TF_SIZE - 4 - CONTEXT_SIZE) 0 CONTEXT_SIZE)
      (k + KSTACKSIZE - TF_SIZE - 4 - CONTEXT_SIZE + 16) forkret_addr)).
    { unfold KSTACKSIZE, TF_SIZE, CONTEXT_SIZE. rewrite <- Hk.
      eapply page_only_trans; [|apply page_only_st32; lia]. eapply page_only_trans; [|apply page_only_memset; lia].
      apply page_only_st32; lia. }
    split; [|rewrite <- K2; exact Ho]. apply (page_only_inv k l1 m); auto.
    intros a Ha. etransitivity; [apply Ho, Ha|]. rewrite Hk. reflexivity.
Qed.

(** ** [fork] *)

Section Fork.
Context `{!FileTotal (F := F)}.
Context (Hkend : KERNBASE < kend) (Hkmap : kmap_ok kdata gpu0).

Lemma fork_files_mem cur np n : forall fd s, wp (fork_files n cur np fd) (fun _ s' => km s' = km s) s.
Proof.
  induction n as [|n IH]; intros fd s; cbn [fork_files]; [reflexivity|].
  apply wp_bind, wp_gets, wp_bind. case_if.
  - apply wp_bind, wp_on_fs; [apply ft_filedup|]. intros g m. apply wp_modify.
    eapply wp_mono; [apply IH|]. intros u s' ->. reflexivity.
  - unfold wp at 1, ret. apply IH.
Qed.

(** The memory after [fork]: the child [k]'s directory holds a copy of exactly
    the parent's user pages, its trap frame is the parent's with [eax] = 0, its context
    starts at [forkret] with the frame above it, and no page in use before was written. *)
Record forked (p q : proc) (l : list Z) (s s' : kmem) : Prop := mkforked {
  fk_copy : forall va, present (k_mem s) (pgdir p) va -> copy_of kend (k_mem s) (pgdir p) (k_mem s') (pgdir q) va;
  fk_only : forall va, present (k_mem s') (pgdir q) va -> present (k_mem s) (pgdir p) va;
  fk_eax : ld32 (k_mem s') (tf q + TF_EAX) = 0;
  fk_tf : forall b, 0 <= b < TF_SIZE -> ~ (TF_EAX <= b < TF_EAX + 4) ->
    (forall r, r ∈ l -> ~ in_page (tf p + b) r) -> ldb (k_mem s') (tf q + b) = ldb (k_mem s) (tf p + b);
  fk_start : tf q = kstack q + 4020 /\ page_ok kend (kstack q) /\ new_context (kstack q) q (k_mem s');
  fk_frame : forall a, (forall r, r ∈ l -> ~ in_page a r) -> ldb (k_mem s') a = ldb (k_mem s) a }.

(** The memory part of [fork]: after [allocproc] left [m1] with the stack page [k]
    taken, [copyuvm] made [d], and the trap frame was written. *)
Lemma forked_mem p q k l1 m0 m1 m2 l2 d m3 :
  uvm_ok kend (k_mem m0) (pgdir p) (k :: l1) -> kmem_inv kend (k :: l1) m0 ->
  kmem_inv kend l1 m1 -> page_only k (k_mem m0) (k_mem m1) ->
  copied kend kdata gpu0 (pgdir p) d 524288 l1 l2 m1 m2 -> pgdir q = d -> tf q = k + 4096 - 76 ->
  kstack q = k -> new_context k q (k_mem m1) ->
  k_mem m3 = st32 (memmove (k_mem m2) (tf q) (tf p) TF_SIZE) (tf q + TF_EAX) 0 ->
  forked p q (k :: l1) m0 m3.
Proof.
  intros Hu Hm0 Hm1 Hpo Hcp Hd Ht Hks0 Hnc E3.
  assert (Hk : page_ok kend k) by (apply (kmem_inv_pages _ _ _ Hm0); left).
  assert (Hkl : k ∉ l1) by (destruct Hm0 as (_ & Hnd & _); inversion Hnd; assumption).
  pose proof (uvm_ok_fresh _ _ _ _ _ Hu) as Hks.
  assert (Kp : keeps (k_mem m0) (k_mem m1) (pgdir p)) by (eapply page_keeps; eauto).
  assert (H23 : page_only k (k_mem m2) (k_mem m3)).
  { rewrite E3, Ht. unfold TF_SIZE, TF_EAX. eapply page_only_trans; [apply page_only_memmove|apply page_only_st32]; lia. }
  assert (Kd : keeps (k_mem m2) (k_mem m3) d).
  { eapply page_keeps; eauto; [apply (cp_dst _ _ _ _ _ _ _ _ _ _ Hcp)|]. intros Hs.
    apply Hkl, (cp_own _ _ _ _ _ _ _ _ _ _ Hcp), Hs. }
  assert (Hfr : forall a, (forall r, r ∈ k :: l1 -> ~ in_page a r) -> ldb (k_mem m2) a = ldb (k_mem m0) a).
  { intros a Ha. rewrite (cp_frame _ _ _ _ _ _ _ _ _ _ Hcp); [|intros r Hr; apply Ha; right; exact Hr].
    apply Hpo, Ha. left. }
  assert (Hpm : forall va, present (k_mem m1) (pgdir p) va <-> present (k_mem m0) (pgdir p) va)
    by (intros va; unfold present; rewrite (keeps_pte _ _ _ _ Kp); reflexivity).
  split; rewrite ?Hd.
  - intros va Hp. eapply copy_of_keeps; eauto. apply (cp_done _ _ _ _ _ _ _ _ _ _ Hcp); [|apply Hpm, Hp].
    destruct Hp as [Hr _]. unfold vpn, KERNBASE in *. apply Z.div_lt_upper_bound; lia.
  - intros va Hp. apply Hpm, (cp_only _ _ _ _ _ _ _ _ _ _ Hcp va). unfold present in *.
    rewrite (keeps_pte _ _ _ _ Kd) in Hp. exact Hp.
  - rewrite E3, ld32_st32_same. reflexivity.
  - intros b Hb Hne Hfree. rewrite E3, ldb_st32. unfold TF_SIZE, TF_EAX in *.
    repeat (case_if; [lia|]). rewrite ldb_memmove by lia. case_if; [|lia].
    replace (tf p + (tf q + b - tf q)) with (tf p + b) by lia. apply Hfr, Hfree.
  - rewrite Hks0, Ht. split; [lia|]. split; [exact Hk|]. destruct Hnc as (Hc & Hc1 & Hc2). split; [exact Hc|].
    assert (Hw : forall a, k <= a -> a + 4 <= k + 4020 -> ld32 (k_mem m3) a = ld32 (k_mem m1) a).
    { intros a H1 H2. apply ld32_ext. intros x Hx. rewrite E3, Ht, ldb_st32. unfold TF_EAX, TF_SIZE. case_if; [lia|].
      rewrite ldb_memmove by lia. case_if; [lia|]. apply (cp_frame _ _ _ _ _ _ _ _ _ _ Hcp). intros r Hr Hin.
      apply (pages_apart kend k r x); [exact Hk|apply (kmem_inv_pages _ _ _ Hm1), Hr|congruence|unfold in_page, PGSIZE; lia|exact Hin]. }
    rewrite !Hw by lia. auto.
  - intros a Ha. rewrite H23 by (apply Ha; left). apply Hfr, Ha.
Qed.

(** The last steps of [fork], and that they leave memory alone. *)
Lemma publish_mem o k n (s s1 : kst F) : calm c s s1 -> cproc (kcpus s c) = o ->
  wp (kacquire c Ptable ;;; upd_proc k (set_pstate RUNNABLE) ;;; krelease c Ptable ;;; ret n)
    (fun (r : Z) s' => r = n /\ ptable s' = <[k := set_pstate RUNNABLE (ptable s1 k)]> (ptable s1) /\ km s' = km s1) s1.
Proof.
  intros C1 Hc. apply wp_bind. eapply calm_acquire; [exact C1|exact Hc|]. intros s2 S2 (E2 & N2 & K2).
  apply wp_bind, wp_modify, wp_bind. eapply section_calm; [eapply in_section_ext; [..|exact S2]; reflexivity|].
  intros s3 _ (E3 & _ & K3). cbn in E3, K3. unfold wp, ret. rewrite E3, K3, K2, E2. auto.
Qed.

Definition fork_space (i : nat) (l : list Z) (r : Z) (s s' : kst F) : Prop :=
  (exists l', kmem_inv kend l' (km s') /\ forall q, q ∈ l' -> q ∈ l) /\
  (r = -1 \/ exists k, pid (ptable s' k) = r /\ pstate (ptable s' k) = RUNNABLE /\
     forked (ptable s i) (ptable s' k) l (km s) (km s')).

Lemma fork_mem i l s : running s c i -> kmem_inv kend l (km s) ->
  uvm_ok kend (k_mem (km s)) (pgdir (ptable s i)) l ->
  wp (fork kend kdata gpu0 trapret forkret_addr c) (fun r s' => fork_space i l r s s') s.
Proof.
  intros Hr Hm Hu. pose proof Hr as [Hc Hn Hl Hst Hi]. unfold fork. apply wp_bind.
  eapply (wp_curproc _ _ i 0); [exact Hn|lia|exact Hc|]. intros s0 K0.
  pose proof (calm_kstep _ _ _ _ K0 (calm_refl _ _ _ Hr)) as C0. pose proof (kstep_ptable _ _ _ _ K0) as E0.
  pose proof (kstep_km _ _ _ _ K0) as M0. rewrite <- M0 in Hm. apply wp_bind.
  eapply wp_mono; [apply wp_and; [eapply allocproc_mem; eauto|eapply (allocproc_post _ _ _ (Some i)); eauto]|].
  intros [k|] s1 [A1 [C1 B1]].
  2: { unfold wp, ret. split; [exists l; split; [apply A1|auto]|left; reflexivity]. }
  destruct A1 as (l1 & kp & -> & Hks & Htf & Hnc & Hm1 & Hpo). destruct B1 as [(_ & Hun & Ho) _ _ _ _ _].
  assert (Hne : i <> k) by (intros ->; rewrite E0 in Hun; congruence).
  assert (Ei : ptable s1 i = ptable s i) by (rewrite Ho, E0 by exact Hne; reflexivity).
  rewrite M0 in Hm, Hpo.
  assert (Hkp : page_ok kend kp) by (apply (kmem_inv_pages _ _ _ Hm); left).
  assert (Hkl : kp ∉ l1) by (destruct Hm as (_ & Hnd & _); inversion Hnd; assumption).
  assert (Kp : keeps (k_mem (km s)) (k_mem (km s1)) (pgdir (ptable s i)))
    by (eapply page_keeps; [exact Hu|exact Hkp|eapply uvm_ok_fresh; exact Hu|exact Hpo]).
  assert (Hu1 : uvm_ok kend (k_mem (km s1)) (pgdir (ptable s i)) l1).
  { apply (keeps_uvm _ _ _ _ Kp). eapply uvm_ok_sub; [|exact Hu]. intros q Hq. right. exact Hq. }
  apply wp_bind, wp_gets. rewrite Ei.
  destruct (copyuvm_ok kend kdata gpu0 _ (sz (ptable s i)) l1 (km s1) Hkend Hkmap Hm1 Hu1) as
    [(d & l2 & m2 & Ed & Hdo & Hcp)|(l2 & lk & m2 & Ed & Hm2 & _ & _ & Hl2 & _)]; apply wp_bind;
    (eapply wp_on_mem; [exact Ed|]); apply wp_bind, wp_modify.
  - pose proof (page_ok_pos _ _ Hdo). destruct (Z.eqb_spec d 0); [lia|].
    do 2 (apply wp_bind, wp_modify). apply wp_bind, wp_gets.
    do 2 (apply wp_bind; eapply wp_on_mem; [reflexivity|]).
    apply wp_bind. eapply wp_mono; [apply wp_and; [apply fork_files_mem|apply fork_files_only]|].
    intros u s2 [M2 [F2 O2]]. apply wp_bind, wp_on_fs; [apply ft_idup|]. intros w m3.
    do 2 (apply wp_bind, wp_modify). apply wp_bind, wp_gets.
    pose proof (fo_table _ _ F2 k) as Tk. cbn [ptable set_km set_ptable] in Tk. rewrite !fn_insert_eq in Tk.
    eapply wp_mono; [eapply publish_mem; [|exact Hc]; eapply calm_ext; [..|exact C1]; cbn; apply F2|].
    intros r s3 (-> & E3 & M3). cbn [ptable set_ptable set_fstate] in E3. rewrite !fn_insert_eq in E3.
    cbn [km set_ptable set_fstate] in M3. rewrite M2 in M3. cbn [km set_ptable set_km] in M3.
    assert (Eq : ptable s3 k = set_pstate RUNNABLE (set_pname (name_of (pname (ptable s i))) (set_cwd w (ptable s2 k))))
      by (rewrite E3, fn_insert_eq; reflexivity).
    pose proof (f_equal tf Tk) as Tt. pose proof (f_equal pgdir Tk) as Td. cbn in Tt, Td.
    pose proof (f_equal kstack Tk) as Tks. pose proof (f_equal context Tk) as Tcx. cbn in Tks, Tcx.
    cbn in M3. rewrite !fn_insert_eq in M3. cbn in M3.
    assert (Hfk : forked (ptable s i) (ptable s3 k) (kp :: l1) (km s) (km s3)).
    { eapply (forked_mem _ _ kp l1 _ (km s1) m2 l2 d); eauto; rewrite ?Eq; cbn; try congruence.
      1: { destruct Hnc as (Hcx & Hcx'). split; [cbn; congruence|exact Hcx']. }
      rewrite M3. cbn. rewrite Tt. reflexivity. }
    split.
    + exists l2. split; [|intros q Hq; right; apply (cp_sub _ _ _ _ _ _ _ _ _ _ Hcp), Hq]. rewrite M3.
      apply (page_only_inv kp l2 m2); auto; [apply Hcp|intros Hq; apply Hkl, (cp_sub _ _ _ _ _ _ _ _ _ _ Hcp), Hq|].
      rewrite Htf. unfold TF_SIZE, TF_EAX.
      eapply page_only_trans; [apply page_only_memmove|apply page_only_st32]; lia.
    + right. exists k. split; [rewrite Eq; cbn; rewrite !fn_insert_eq; reflexivity|]. split; [rewrite Eq; reflexivity|exact Hfk].
  - cbn [Z.eqb]. apply wp_bind, wp_gets. cbn. rewrite fn_insert_eq. cbn. rewrite Hks.
    assert (Hkn : kp ∉ l2) by (intros Hq; apply Hkl, Hl2; auto).
    destruct (kfree_cons kend kp l2 m2 Hm2 Hkp Hkn) as (m3 & E3 & Hm3 & _). apply wp_bind.
    eapply wp_on_mem; [exact E3|]. do 2 (apply wp_bind, wp_modify). unfold wp, ret. split; [|left; reflexivity].
    exists (kp :: l2). split; [exact Hm3|]. intros q Hq. apply elem_of_cons in Hq as [->|Hq]; [left|right; apply Hl2; auto].
Qed.
End Fork.

(** ** [wait] *)

Lemma keeps_space m m' d q : keeps m m' d -> space_page m' d q <-> space_page m d q.
Proof.
  intros Hk. unfold space_page, present.
  rewrite (table_page_frame m m') by (intros a; apply Hk; left; left; reflexivity).
  split; (intros [Ht|(va & [Hr Hv] & ->)]; [left; exact Ht|right; exists va]);
    rewrite (keeps_pte _ _ _ _ Hk) in *; auto.
Qed.

(** A process whose pages can be given back: its kernel stack and its address
    space are disjoint and not free. *)
Definition reapable (l : list Z) (p : proc) (s : kmem) : Prop :=
  page_ok kend (kstack p) /\ kstack p ∉ l /\ uvm_ok kend (k_mem s) (pgdir p) (kstack p :: l).

(** All its pages are free now. *)
Definition given_back (l : list Z) (p : proc) (s s' : kmem) : Prop :=
  exists l', kmem_inv kend l' s' /\
    forall q, q ∈ l' <-> q ∈ l \/ q = kstack p \/ space_page (k_mem s) (pgdir p) q.

Section Wait.
Context (Hkend : KERNBASE < kend).

Lemma reap_mem j l s : kmem_inv kend l (km s) -> reapable l (ptable s j) (km s) ->
  wp (reap (F := F) kend j) (fun n s' => n = pid (ptable s j) /\ given_back l (ptable s j) (km s) (km s')) s.
Proof.
  intros Hm (Hp & Hn & Hu). unfold reap. apply wp_bind, wp_gets, wp_bind, wp_gets, wp_bind.
  destruct (kfree_cons kend _ l _ Hm Hp Hn) as (m1 & E1 & Hm1 & _ & Ho). eapply wp_on_mem; [exact E1|].
  apply wp_bind, wp_modify, wp_bind, wp_gets. cbn. rewrite fn_insert_eq. cbn.
  assert (Kd : keeps (k_mem (km s)) (k_mem m1) (pgdir (ptable s j))).
  { eapply page_keeps; [exact Hu|exact Hp|eapply uvm_ok_fresh; exact Hu|].
    intros a Ha. apply Ho. unfold in_page in Ha. lia. }
  destruct (freevm_ok kend (pgdir (ptable s j)) _ m1 Hkend Hm1 (keeps_uvm _ _ _ _ Kd Hu)) as (l' & m2 & E2 & Hm2 & _ & Hl & _).
  apply wp_bind. eapply wp_on_mem; [exact E2|]. do 5 (apply wp_bind, wp_modify). unfold wp, ret.
  split; [reflexivity|]. exists l'. split; [exact Hm2|]. intros q. rewrite Hl, (keeps_space _ _ _ _ Kd), elem_of_cons. tauto.
Qed.

Lemma wait_scan_mem cur l n : forall i kids s, kmem_inv kend l (km s) ->
  (forall j, parent (ptable s j) = Some cur -> pstate (ptable s j) = ZOMBIE -> reapable l (ptable s j) (km s)) ->
  wp (wait_scan (F := F) kend n cur i kids) (fun r s' =>
    match r with
    | WFound m => exists j, parent (ptable s j) = Some cur /\ pstate (ptable s j) = ZOMBIE /\
        m = pid (ptable s j) /\ given_back l (ptable s j) (km s) (km s')
    | _ => km s' = km s
    end) s.
Proof.
  induction n as [|n IH]; intros i kids s Hm Hz; cbn [wait_scan]; [unfold wp, ret; destruct kids; reflexivity|].
  apply wp_bind, wp_gets. case_bool_decide as Hp; cbn [negb]; [|apply IH; auto].
  case_bool_decide as Hst; [|apply IH; auto]. apply wp_bind.
  eapply wp_mono; [apply (reap_mem i l s Hm); auto|]. intros m s' [-> Hg]. unfold wp, ret. eauto.
Qed.

Definition wait_space (i : nat) (l : list Z) (r : Z + Z) (s s' : kst F) : Prop :=
  km s' = km s \/
  exists j, r = inl (pid (ptable s j)) /\ parent (ptable s j) = Some i /\ pstate (ptable s j) = ZOMBIE /\
    given_back l (ptable s j) (km s) (km s').

Lemma sleep_mem ch i s : nest s c 1 -> cproc (kcpus s c) = Some i -> locks s Ptable = Some c ->
  wp (sleep (F := F) c ch Ptable) (fun _ s' => km s' = km s) s.
Proof.
  intros Hn Hc Hl. unfold sleep. apply wp_bind. eapply (wp_myproc _ _ 1); [exact Hn|lia|]. intros s2 K2. rewrite Hc.
  rewrite bool_decide_eq_false_2 by tauto. apply wp_bind. unfold wp at 1, ret. apply wp_bind, wp_modify, wp_bind, wp_modify.
  eapply (wp_sched _ _ i); cbn.
  - apply K2.
  - rewrite (kstep_cproc _ _ _ _ _ K2). exact Hc.
  - rewrite (kstep_locks _ _ _ _ K2). exact Hl.
  - rewrite fn_insert_eq. discriminate.
  - intros v s3 K3. rewrite (kstep_km _ _ _ _ K3). apply (kstep_km _ _ _ _ K2).
Qed.

Lemma wait_mem i l s : running s c i -> kmem_inv kend l (km s) ->
  (forall j, parent (ptable s j) = Some i -> pstate (ptable s j) = ZOMBIE -> reapable l (ptable s j) (km s)) ->
  wp (wait (F := F) kend c) (fun r s' => wait_space i l r s s') s.
Proof.
  intros [Hc Hn Hl Hst Hi] Hm Hz. unfold wait, wait_iter. apply wp_bind.
  eapply wp_acquire; [exact Hn|lia|apply (proj1 Hl)|]. intros s1 K1. apply wp_bind.
  eapply (wp_curproc _ _ i 1); [exact (ks_nest _ _ _ _ K1)|lia|cbn; rewrite (kstep_cproc _ _ _ _ _ K1); exact Hc|].
  intros s2 K2. pose proof (kstep_ptable _ _ _ _ K2) as E2. pose proof (kstep_km _ _ _ _ K2) as M2.
  cbn in E2, M2. rewrite (kstep_ptable _ _ _ _ K1) in E2. rewrite (kstep_km _ _ _ _ K1) in M2.
  apply wp_bind. eapply wp_mono.
  { apply wp_and; [apply (wait_scan_mem i l); rewrite M2; [exact Hm|rewrite E2; exact Hz]|apply wait_scan_spec; reflexivity]. }
  assert (L2 : locks s2 Ptable = Some c) by (rewrite (kstep_locks _ _ _ _ K2); apply fn_lookup_insert).
  assert (C2 : cproc (kcpus s2 c) = Some i)
    by (rewrite (kstep_cproc _ _ _ _ _ K2); cbn; rewrite (kstep_cproc _ _ _ _ _ K1); exact Hc).
  assert (Hrel : forall (r : Z + Z) (s3 : kst F), locks s3 = locks s2 -> kcpus s3 = kcpus s2 ->
    wp (krelease c Ptable ;;; ret r) (fun r' s' => r' = r /\ km s' = km s3) s3).
  { intros r s3 El Ek. apply wp_bind. eapply (wp_release _ _ _ 1); [|lia|rewrite El; exact L2|].
    - unfold nest. rewrite Ek. apply K2.
    - intros s4 K4. split; [reflexivity|]. apply (kstep_km _ _ _ _ K4). }
  intros [n| |] s3 [G3 R3].
  - destruct R3 as (_ & _ & _ & _ & _ & R1 & R2 & _). eapply wp_mono; [apply Hrel; assumption|]. intros r s4 [-> M4].
    destruct G3 as (j & Hp & Hzj & -> & Hg). right. exists j. rewrite E2, M2, M4 in *. auto.
  - destruct R3 as [-> _]. eapply wp_mono; [apply Hrel; reflexivity|]. intros r s4 [-> M4]. left. congruence.
  - destruct R3 as [-> _]. apply wp_bind, wp_gets. destruct (killed _).
    + eapply wp_mono; [apply Hrel; reflexivity|]. intros r s4 [-> M4]. left. congruence.
    + apply wp_bind. eapply wp_mono; [apply (sleep_mem _ i); auto; apply K2|]. intros v s4 M4. left. congruence.
Qed.
End Wait.
End ProcMem.
