(* ===== verification/ProcProps.v ===== *)
(** * Properties of processes and scheduling

    The theorems about [src/xv6/proc.c]: what each routine does to the process
    table, what the scheduler promises, and what holds of the whole machine in
    every interleaving, each with an application to a concrete machine. *)

From S2P Require Import Prelude Mem Mmu Spinlock Kalloc Vm Uvm Ualloc Kvm Copyuvm VmProps.
From S2P Require Import Proc ProcRules Sched System SchedRules Machine ProcMem.
Local Open Scope Z_scope.

(** ** Waiting in the feedback queue *)

Section Queue.
Context {F : Type} `{FileOps F}.

(** Between two iterations of the scheduler process [i] stayed runnable and
    nobody touched its place in the queue. *)
Definition queued_as (i : nat) (s s' : kst F) : Prop :=
  pstate (ptable s' i) = RUNNABLE /\ proc_priority s' i = proc_priority s i /\
  proc_wait_ticks s' i = proc_wait_ticks s i.

(** [n] iterations of CPU [c]'s scheduler under [policy] that chose others. *)
Inductive passes (c : nat) (policy : Z) (i : nat) : nat -> kst F -> kst F -> Prop :=
| passes_0 s : passes c policy i 0 s s
| passes_S n s s1 s2 s3 chosen : passes c policy i n s s1 -> queued_as i s1 s2 -> ready c s2 ->
    cproc (kcpus s2 c) = None -> chosen <> Some i -> mlfq_tail c policy chosen s2 = Ret (LTop, s3) ->
    passes c policy i (S n) s s3.

Lemma pass_once c policy i (s : kst F) chosen s' : (i < NPROC)%nat -> ready c s -> cproc (kcpus s c) = None ->
  pstate (ptable s i) = RUNNABLE -> chosen <> Some i -> mlfq_tail c policy chosen s = Ret (LTop, s') ->
  let l := proc_priority s i in let w := s32 (proc_wait_ticks s i l + 1) in
  if negb (policy =? 3) && (l <? 3) && (w >=? required l)
  then proc_priority s' i = l + 1 /\ proc_wait_ticks s' i (l + 1) = 0
  else proc_priority s' i = l /\ proc_wait_ticks s' i l = w.
Proof.
  intros Hi Hr Hc Hst Hne E. cbv zeta.
  pose proof (wlp_ret _ _ _ _ _ (wp_wlp _ _ _ (mlfq_tail_post c policy chosen s Hr Hc)) E) as (_ & _ & [T1 T2 _]).
  specialize (T1 i). specialize (T2 i).
  assert (Hw : waited s chosen i = s32 (proc_wait_ticks s i (proc_priority s i) + 1)).
  { unfold waited, waits. rewrite (proj2 (Nat.ltb_lt i NPROC) Hi), !bool_decide_eq_true_2 by auto. reflexivity. }
  assert (Hra : raised policy s chosen i = negb (policy =? 3) && (proc_priority s i <? 3) &&
    (s32 (proc_wait_ticks s i (proc_priority s i) + 1) >=? required (proc_priority s i))).
  { unfold raised. rewrite Hw, (proj2 (Nat.ltb_lt i NPROC) Hi), bool_decide_eq_true_2 by exact Hst.
    rewrite !andb_true_r. reflexivity. }
  rewrite Hra in *. destruct (_ && _); rewrite T1 in T2.
  - auto.
  - rewrite Z.add_0_r in *. rewrite <- Hw. auto.
Qed.

Lemma required_bound l : required l <= 500.
Proof. unfold required, slice. repeat case_if; lia. Qed.

(** Counting up to the bound. *)
Lemma passes_wait c policy i n (s s' : kst F) : passes c policy i n s s' -> (i < NPROC)%nat -> policy <> 3 ->
  proc_priority s i < 3 -> 0 <= proc_wait_ticks s i (proc_priority s i) ->
  proc_wait_ticks s i (proc_priority s i) + Z.of_nat n < required (proc_priority s i) ->
  proc_priority s' i = proc_priority s i /\
  proc_wait_ticks s' i (proc_priority s i) = proc_wait_ticks s i (proc_priority s i) + Z.of_nat n.
Proof.
  intros Hp Hi Hpol Hl H0. induction Hp as [s|n s s1 s2 s3 chosen Hp IH (Hst & Hq & Hw) Hr Hc Hne E]; intros Hn.
  { split; [reflexivity|lia]. }
  destruct IH as [I1 I2]; auto; [lia|]. pose proof (pass_once c policy i s2 chosen s3 Hi Hr Hc Hst Hne E) as Ho.
  cbv zeta in Ho. rewrite Hq, Hw, I1, I2 in Ho. pose proof (required_bound (proc_priority s i)).
  rewrite s32_small in Ho by lia. destruct (_ >=? _) eqn:Eb in Ho; zbool; [lia|].
  rewrite andb_false_r in Ho. destruct Ho as [-> ->]. split; [reflexivity|lia].
Qed.
End Queue.

(** ** A concrete machine

    Init (pid 1) sleeps in [wait]; the shell (pid 2), with the address space of
    [VmProps.demo], is in state [st]; its child (pid 3) is a zombie with an empty
    address space.  CPU 0 is running [o]; [h] tells whether it holds
    [ptable.lock].  The file system records the files that were closed. *)

#[export] Instance trace_fs : FileOps (list Z) := {
  filedup f := ret f;
  fileclose f := modify (cons f);
  begin_op := ret tt;
  end_op := ret tt;
  iput _ := ret tt;
  idup d := ret d;
  namei _ := ret 1;
  iinit _ := ret tt;
  initlog _ := ret tt }.

#[export] Instance trace_fs_total : FileTotal (F := list Z).
Proof. split; intros; exact I. Qed.

Definition free_proc : proc := mkproc 0 0 0 UNUSED 0 None 0 0 None false [] 0 [] 0 0.
Definition init_proc : proc :=
  mkproc 0x1000 0x80300000 0x80301000 SLEEPING 1 None 0x80301fb4 0x80301f9c (Some (ChProc 0)) false [] 1 [105] 0 0.
Definition shell_proc (st : procstate) : proc :=
  mkproc 0x1000 0x80200000 0x80206000 st 2 (Some 0%nat) 0x80206fb4 0x80206f9c None false [5; 6] 1 [115; 104] 0 0.
Definition zombie_proc : proc :=
  mkproc 0 0x80208000 0x80207000 ZOMBIE 3 (Some 1%nat) 0x80207fb4 0x80207f9c None false [] 0 [108; 115] 0 0.
Definition ptab (st : procstate) (i : nat) : proc :=
  match i with 0%nat => init_proc | 1%nat => shell_proc st | 2%nat => zombie_proc | _ => free_proc end.

Definition pdemo (st : procstate) (o : option nat) (h : bool) (policy level wait : Z) : kst (list Z) :=
  mkkst demo (fun l => if h && bool_decide (l = Ptable) then Some 0%nat else None) 0 (ptab st) 4 (Some 0%nat)
    (fun _ => level) (fun _ _ => 0) (fun _ _ => wait)
    (fun c => mkkcpu (if h && (c =? 0)%nat then mkcpu 0 1 1 0 else mkcpu FL_IF 0 0 (Z.of_nat c))
                (if (c =? 0)%nat then o else None) policy 0 0) [].

Lemma pdemo_inv st o h p l w : active st = true -> tinv (pdemo st o h p l w).
Proof.
  intros Ha. assert (Hst : st <> UNUSED /\ st <> EMBRYO) by (destruct st; try discriminate; auto).
  destruct Hst as [Hu He]. split; cbn [ptable pdemo nextpid initproc].
  - intros [|[|[|i]]] Hi; unfold NPROC in Hi; try lia. reflexivity.
  - intros [|[|[|i]]]; try discriminate. exact He.
  - intros [|[|[|i]]]; cbn; try (split; discriminate). congruence.
  - intros i [= <-]. reflexivity.
  - intros [|[|[|i]]]; cbn; intros H1 H2; try congruence; eauto.
  - intros [|[|[|i]]]; cbn; intros H1; try lia; congruence.
  - intros [|[|[|i]]] [|[|[|j]]]; cbn; congruence.
Qed.

Lemma pdemo_locks st o h p l w : locks_held (pdemo st o h p l w) (if h then Some 0%nat else None).
Proof.
  split; cbn; [destruct h; reflexivity|]. intros l' Hl. rewrite bool_decide_eq_false_2 by exact Hl.
  rewrite andb_false_r. reflexivity.
Qed.

Lemma pdemo_running p l w : running (pdemo RUNNING (Some 1%nat) false p l w) 0 1.
Proof.
  split; [reflexivity|split; [reflexivity|intros; lia]|apply pdemo_locks|reflexivity|apply pdemo_inv; reflexivity].
Qed.

Lemma pdemo_idle p l w : idle 0 (pdemo RUNNABLE None false p l w).
Proof. split; [apply pdemo_locks|split; [reflexivity|intros; lia]|reflexivity|apply pdemo_inv; reflexivity]. Qed.

Lemma pdemo_ready st o p l w : active st = true -> ready 0 (pdemo st o true p l w).
Proof. intros Ha. split; [apply pdemo_locks|split; [reflexivity|reflexivity]|apply pdemo_inv, Ha]. Qed.

Lemma pdemo_booted p w : booted (start (pdemo RUNNABLE None false p 3 w)).
Proof.
  split; cbn [start sk ph kont]; auto.
  - apply pdemo_inv. reflexivity.
  - intros [|[|[|i]]]; discriminate.
  - exists 0%nat. reflexivity.
  - intros i. cbn. lia.
  - apply pdemo_locks.
  - intros c. split; [reflexivity|intros; lia].
  - intros c. cbn. destruct (c =? 0)%nat; reflexivity.
Qed.

(** The zombie's memory can be given back. *)
Lemma pdemo_reapable j : parent (ptab RUNNING j) = Some 1%nat -> pstate (ptab RUNNING j) = ZOMBIE ->
  reapable demo_end demo_free (ptab RUNNING j) demo.
Proof.
  destruct j as [|[|[|j]]]; try discriminate. intros _ _. cbn [ptab].
  assert (Hz : forall i, 0 <= i < 1024 -> pde_at demo_mem 0x80208000 i = 0).
  { intros i Hi. unfold pde_at, demo_mem. rewrite !ld32_st32_ne by lia. apply ld32_empty. }
  assert (Hp : forall va, ~ present demo_mem 0x80208000 va).
  { intros va [_ Hv]. unfold pte_at in Hv. rewrite Hz in Hv by apply PDX_range. rewrite !has_0 in Hv. discriminate. }
  split; [cbv; repeat split; congruence|]. split; [apply (bool_decide_unpack _); vm_compute; exact I|].
  cbn [pgdir kstack zombie_proc demo k_mem]. split; [split|..].
  - cbv; repeat split; congruence.
  - apply (bool_decide_unpack _); vm_compute; exact I.
  - intros i Hi. rewrite Hz, has_0 by exact Hi. discriminate.
  - intros i k Hi Hk. rewrite Hz, has_0 by exact Hi. discriminate.
  - intros va Hv. destruct (Hp va Hv).
  - intros va va' Hv. destruct (Hp va Hv).
Qed.

(** ** Properties *)

Section Properties.
Context {F : Type} `{FileOps F}.


(** The routines that involve neither memory nor files. *)
Definition plain (o : kop) : bool := match o with OExit | OWait | OFork => false | _ => true end.

(** the kernel does not get stuck or panic in its context switches.  In every
    reachable state, a CPU that came back to its scheduler gets through to its
    next switch; a process that was switched to after [yield], [sleep] or (but for
    the first one, which starts the file system) [fork] gets out of the switch;
    and while [ptable.lock] is free a CPU in its scheduler gets to the next switch
    or iteration, and a running process gets through [yield], [sleep], [wakeup],
    [kill] and [setSchedPolicy].  None of the checks of [acquire], [release],
    [sched] or [switchuvm] fails. *)
Theorem kernel_progress kend kdata gpu0 trapret forkret_addr kpgdir (s0 s : sys F) :
  booted s0 -> reach kend kdata gpu0 trapret forkret_addr kpgdir s0 s ->
  (forall c i, ph s c = POut i -> returns (sched_resume kpgdir c (loc s c)) (sk s)) /\
  (forall c i, ph s c = PIn i ->
     match kont s i with KYield _ | KSleep _ _ => True | KNew => sfirst s = false | _ => False end ->
     returns (run_kont kend (sfirst s) c (kont s i)) (sk s)) /\
  (locks (sk s) Ptable = None ->
     (forall c, ph s c = PSched -> returns (sched_top c) (sk s)) /\
     (forall c i o, ph s c = PRun i -> plain o = true -> op_ok o (sk s) ->
        returns (run_op kend kdata gpu0 trapret forkret_addr c o) (sk s))).
Proof.
  intros Hb Hr. pose proof (reach_inv _ _ _ _ _ _ _ _ Hr (booted_inv _ Hb)) as Hi. split; [|split].
  - intros c i Hp. assert (Hw : who (ph s c) = Some i) by (rewrite Hp; reflexivity).
    eapply wp_mono; [eapply (sched_resume_post kpgdir c _ i _ (inv_ready _ _ _ Hi Hp))|intros; exact I].
    + rewrite (si_loc _ Hi), Hw by congruence. reflexivity.
    + apply (si_bound _ Hi c i Hw).
  - intros c i Hp Hk. pose proof (inv_entered _ _ _ Hi Hp) as He. pose proof (si_konts _ Hi i) as Hlk.
    destruct (kont s i); try contradiction; apply wp_bind.
    + rewrite Hk. unfold forkret. apply wp_bind. destruct He as [S0 E0 I0].
      eapply wp_mono; [apply (section_release c i (sk s) (sk s) S0 E0); [reflexivity|exact I0]|].
      intros u s' _. exact I.
    + eapply wp_mono; [apply (yield_back_post c i), He|intros; exact I].
    + eapply wp_mono; [apply (sleep_back_post c i); [exact He|eauto]|intros; exact I].
  - intros Hl. split.
    + intros c Hp. eapply wp_mono; [apply sched_top_post, (inv_idle _ _ Hi Hp Hl)|intros; exact I].
    + intros c i o Hp Hpl Hok. pose proof (inv_running _ _ _ Hi Hp Hl) as Hrun.
      destruct o; try discriminate; apply wp_bind.
      * eapply wp_mono; [apply (yield_post c i), Hrun|intros; exact I].
      * eapply wp_mono; [apply (sleep_post c i); [exact Hrun|exact Hok]|intros; exact I].
      * eapply wp_mono; [apply (kill_post c i), Hrun|intros; exact I].
      * eapply wp_mono; [apply (wakeup_post c i), Hrun|intros; exact I].
      * eapply wp_mono; [apply (setSchedPolicy_post c n 0); [apply Hrun|lia]|intros; exact I].
Qed.

(** C15: one iteration of the scheduler from the top of its loop.  Under policy 0
    it switches to the first runnable slot; under the other policies to the first
    runnable slot of the highest level; if there is none it ends the iteration
    with the lock released.  The chosen process becomes RUNNING on this CPU, with
    the lock held, and nothing else in the table changes. *)
Theorem scheduler_chooses_by_policy c (s : kst F) : idle c s ->
  wp (sched_top c) (fun l s' => sched_post c l s s' /\ picks l (sched_policy (kcpus s c)) s) s.
Proof. apply sched_top_post. Qed.

(** the scheduler when process [i] gives the CPU back.  Round robin goes on
    with the next runnable slot after [i].  The feedback queue charges [i] one
    tick, moves it one level down when it has used its slice there (8, 16 and 32
    ticks at levels 3, 2 and 1), counts one more iteration of waiting for every
    other runnable process, raises by one level those that waited long enough
    (unless the policy is 3), and releases the lock. *)
Theorem scheduler_resumes_by_policy kpgdir c l i (s : kst F) : ready c s -> target l = Some i -> (i < NPROC)%nat ->
  wp (sched_resume kpgdir c l) (fun l' s' => sched_post c l' s s' /\ resumed l l' s s') s.
Proof. apply sched_resume_post. Qed.


(** [wakeup(ch)] makes runnable exactly the processes asleep on [ch] and
    changes nothing else in the table. *)
Theorem wakeup_wakes_sleepers c i ch (s : kst F) : running s c i ->
  wp (wakeup c ch) (fun _ s' => op_post c i false s s' /\ forall j, ptable s' j =
    if (j <? NPROC)%nat && bool_decide (pstate (ptable s j) = SLEEPING) && bool_decide (chan (ptable s j) = Some ch)
    then set_pstate RUNNABLE (ptable s j) else ptable s j) s.
Proof.
  intros Hr. eapply wp_mono; [apply (wakeup_post c i ch s Hr)|]. intros _ s' [Ho Ht]. split; [exact Ho|].
  intros j. rewrite Ht. unfold woken, wake_one. destruct (j <? NPROC)%nat; reflexivity.
Qed.

(** [exit] by a process other than init, over a file system whose calls
    return, gets to its last context switch: the process is a zombie, its children
    belong to init, its parent is awake if it was waiting, and the lock is held
    for the scheduler. *)
Theorem exit_becomes_zombie `{!FileTotal (F := F)} c i k (s : kst F) :
  running s c i -> initproc s = Some k -> i <> k ->
  wp (exit c) (fun _ s' => op_post c i true s s' /\ exited i (initproc s) (ptable s) (ptable s')) s.
Proof. intros Hr Hk Hne. apply wp_split; [eapply exit_returns; eauto|eapply exit_post; eauto]. Qed.



(** [kill(n)] marks the first slot with pid [n] as killed, makes it runnable
    if it sleeps, and returns 0; if no slot has pid [n] it returns -1 and changes
    nothing. *)
Theorem kill_marks_process c i n (s : kst F) : running s c i ->
  wp (kill c n) (fun r s' => op_post c i false s s' /\
    match scan (fun j => pid (ptable s j) =? n) NPROC 0 with
    | Some j => r = 0 /\ ptable s' j = killed_proc (ptable s j) /\ forall k, k <> j -> ptable s' k = ptable s k
    | None => r = -1 /\ ptable s' = ptable s
    end) s.
Proof. apply kill_post. Qed.
End Properties.

(** ** A consequence worth knowing *)

(** [kill(0)] succeeds when a slot is free (its pid is 0), and the mark stays in
    the free slot: a later [fork] that takes the slot hands it to the new
    process. *)
Lemma kill_zero_marks_free_slot {F} `{FileOps F} c i j (s : kst F) : running s c i -> (j < NPROC)%nat ->
  pstate (ptable s j) = UNUSED -> pid (ptable s j) = 0 ->
  (forall k, (k < j)%nat -> pid (ptable s k) <> 0) ->
  wp (kill c 0) (fun r s' => r = 0 /\ pstate (ptable s' j) = UNUSED /\ killed (ptable s' j) = true) s.
Proof.
  intros Hr Hj Hu Hp Hf. eapply wp_mono; [apply (kill_post c i 0 s Hr)|]. intros r s' [_ Hm].
  destruct (scan _ NPROC 0) as [j'|] eqn:Es.
  - apply scan_spec in Es as (Hb & Ht & Hlt). zbool.
    assert (j' = j) as ->.
    { destruct (lt_eq_lt_dec j' j) as [[Hl|]|Hg]; [destruct (Hf j' Hl Ht)|assumption|].
      specialize (Hlt j ltac:(lia)). zbool. contradiction. }
    destruct Hm as (-> & -> & _). unfold killed_proc. rewrite Hu. cbn. auto.
  - rewrite scan_none in Es. specialize (Es j ltac:(lia)). zbool. contradiction.
Qed.

(** ** Witnesses *)

Definition pboot : sys (list Z) := start (pdemo RUNNABLE None false 1 3 0).

Lemma demo_kmap : kmap_ok 0x80108000 demo_gpu.
Proof.
  split; cbn [demo_gpu vram_size pvram_addr]; unfold pa_ok, KERNLINK, KERNBASE, EXTMEM, PHYSTOP;
    repeat split; lia || reflexivity.
Qed.

(** Booted, and one step further: CPU 0 has switched to the shell. *)
Lemma pboot_step : exists k, step demo_end 0x80108000 demo_gpu 0 0 0 pboot
  (mksys k (<[0%nat := PIn 1%nat]> (ph pboot)) (<[0%nat := LMlfq 1 1]> (loc pboot)) (kont pboot) true).
Proof.
  assert (E : exists k, sched_top 0 (sk pboot) = Ret (LMlfq 1 1, k)) by (eexists; vm_compute; reflexivity).
  destruct E as [k E]. exists k. apply (step_top _ _ _ _ _ _ 0%nat pboot (LMlfq 1 1) k eq_refl E).
Qed.


Lemma kernel_progress_witness : exists s, reach demo_end 0x80108000 demo_gpu 0 0 0 pboot s /\
  returns (sched_top 0) (sk s).
Proof.
  exists pboot. split; [apply reach_refl|].
  exact (proj1 (proj2 (proj2 (kernel_progress demo_end 0x80108000 demo_gpu 0 0 0 pboot pboot (pdemo_booted 1 0)
    (reach_refl _ _ _ _ _ _ pboot))) eq_refl) 0%nat eq_refl).
Defined.

Lemma scheduler_chooses_by_policy_witness :
  wp (sched_top 0) (fun l s' => sched_post 0 l (pdemo RUNNABLE None false 1 2 0) s' /\
    picks l 1 (pdemo RUNNABLE None false 1 2 0)) (pdemo RUNNABLE None false 1 2 0).
Proof. exact (scheduler_chooses_by_policy 0 _ (pdemo_idle 1 2 0)). Defined.

Lemma scheduler_resumes_by_policy_witness :
  wp (sched_resume 0x80130000 0 (LMlfq 1 1)) (fun l' s' =>
    sched_post 0 l' (pdemo RUNNABLE (Some 1%nat) true 1 2 0) s' /\
    resumed (LMlfq 1 1) l' (pdemo RUNNABLE (Some 1%nat) true 1 2 0) s') (pdemo RUNNABLE (Some 1%nat) true 1 2 0).
Proof.
  apply (scheduler_resumes_by_policy 0x80130000 0 (LMlfq 1 1) 1); [apply pdemo_ready; reflexivity|reflexivity|].
  unfold NPROC. lia.
Defined.


Lemma wakeup_wakes_sleepers_witness :
  wp (wakeup 0 (ChProc 0)) (fun _ s' => pstate (ptable s' 0%nat) = RUNNABLE) (pdemo RUNNING (Some 1%nat) false 0 3 0).
Proof.
  eapply wp_mono; [apply (wakeup_wakes_sleepers 0 1 (ChProc 0) _ (pdemo_running 0 3 0))|].
  intros u s' [_ Ht]. rewrite Ht. reflexivity.
Defined.

Lemma exit_becomes_zombie_witness :
  wp (exit 0) (fun _ s' => pstate (ptable s' 1%nat) = ZOMBIE /\ parent (ptable s' 2%nat) = Some 0%nat)
    (pdemo RUNNING (Some 1%nat) false 0 3 0).
Proof.
  eapply wp_mono; [apply (exit_becomes_zombie 0 1 0 _ (pdemo_running 0 3 0) eq_refl); discriminate|].
  intros u s' [_ (Hz & _ & Hp & _)]. split; [exact Hz|]. rewrite Hp by (unfold NPROC; lia). reflexivity.
Defined.



Lemma kill_marks_process_witness :
  wp (kill 0 1) (fun r s' => r = 0 /\ killed (ptable s' 0%nat) = true /\ pstate (ptable s' 0%nat) = RUNNABLE)
    (pdemo RUNNING (Some 1%nat) false 0 3 0).
Proof.
  eapply wp_mono; [apply (kill_marks_process 0 1 1 _ (pdemo_running 0 3 0))|].
  intros r s' [_ Hm]. cbn in Hm. destruct Hm as (-> & -> & _). auto.
Defined.
