(* ===== verification/Trap.v ===== *)
(** * Traps and the system calls of processes

    Models [trap] of [src/xv6/trap.c], the argument fetching and dispatch of
    [src/xv6/syscall.c] and the system calls of [src/xv6/sysproc.c].

    A process's memory is read and written by the kernel through the page tables
    of the CPU ([uload], [ustore]): an access to an absent page traps into
    [page_fault], which maps a page, and is then repeated.  As in [Proc], a
    routine that gives up the CPU is cut at [swtch]: its first half returns
    [inr saved]. *)

From S2P Require Import Prelude Mem Mmu Spinlock Kalloc Vm Proc Sched.
Local Open Scope Z_scope.

Definition T_PGFLT : Z := 14.
Definition T_IRQ0 : Z := 32.
Definition T_SYSCALL : Z := 64.
Definition IRQ_TIMER : Z := 0.
Definition IRQ_KBD : Z := 1.
Definition IRQ_COM1 : Z := 4.
Definition IRQ_IDE : Z := 14.
Definition IRQ_SPURIOUS : Z := 31.

Section Trap.
Context {F : Type} `{FileOps F}.
Context (kend kdata : Z) (gpu0 : gpu) (trapret forkret_addr : Z) (me : nat).

(** ** Page faults *)

(** [case T_PGFLT], for the faulting address [cr2]. *)
Definition page_fault (cr2 : Z) : M (kst F) unit :=
  p <- myproc me ;;
  match p with
  | None => ret tt
  | Some i =>
      let va := PGROUNDDOWN cr2 in
      z <- getp i sz ;;
      if (va >=? KERNBASE) || (z =? 0) then upd_proc i (set_killed true)
      else
        d <- getp i pgdir ;;
        pte <- on_mem (walkpgdir d va false) ;;
        v <- (if pte =? 0 then ret 0 else on_mem (ld pte)) ;;
        if negb (pte =? 0) && has v PTE_P then upd_proc i (set_killed true)
        else
          mem <- on_mem kalloc ;;
          if mem =? 0 then upd_proc i (set_killed true)
          else
            on_mem (mset mem 0 PGSIZE) ;;;
            r <- on_mem (mappages d va PGSIZE (V2P mem) (Z.lor PTE_W PTE_U)) ;;
            if r <? 0 then
              on_mem (kfree kend mem) ;;;
              upd_proc i (set_killed true)
            else upd_cpu me (set_cr3 (V2P d))
  end.

(** ** User memory seen from the kernel *)

(** The kernel address of user address [va] in the current page tables, if its
    page is present (and, for a store, writable). *)
Definition translate (w : bool) (d va : Z) : M kmem (option Z) :=
  pte <- walkpgdir d va false ;;
  if pte =? 0 then ret None
  else
    v <- ld pte ;;
    ret (if has v PTE_P && (negb w || has v PTE_W)
         then Some (P2V (PTE_ADDR v) + va mod 4096) else None).

(** One access: if it faults, the handler runs and the access is tried again; if
    it faults again it never gets anywhere. *)
Definition access (w : bool) (va : Z) : M (kst F) Z :=
  d <- gets (fun s => P2V (cr3 (kcpus s me))) ;;
  a <- on_mem (translate w d va) ;;
  match a with
  | Some k => ret k
  | None =>
      page_fault va ;;;
      b <- on_mem (translate w d va) ;;
      match b with Some k => ret k | None => nofuel end
  end.

Definition uload (va : Z) : M (kst F) Z := a <- access false va ;; gets (fun s => ldb (k_mem (km s)) a).
Definition ustore (va v : Z) : M (kst F) unit :=
  a <- access true va ;; on_mem (modify (fun s => set_mem (stb (k_mem s) a v) s)).

(** [*(int* )va] and [*(int* )va = v]. *)
Definition uload32 (va : Z) : M (kst F) Z :=
  b0 <- uload va ;; b1 <- uload (va + 1) ;; b2 <- uload (va + 2) ;; b3 <- uload (va + 3) ;;
  ret (b0 + 2 ^ 8 * b1 + 2 ^ 16 * b2 + 2 ^ 24 * b3).
Definition ustore32 (va v : Z) : M (kst F) unit :=
  ustore va v ;;; ustore (va + 1) (Z.shiftr v 8) ;;;
  ustore (va + 2) (Z.shiftr v 16) ;;; ustore (va + 3) (Z.shiftr v 24).

(** ** Fetching arguments (syscall.c)

    [None] is the return value -1. *)

Definition fetchint (addr : Z) : M (kst F) (option Z) :=
  if (addr >=? KERNBASE) || (u32 (addr + 4) >? KERNBASE) then ret None
  else v <- uload32 addr ;; ret (Some (s32 v)).

(** The scan for the NUL of [fetchstr], from [s] up to [KERNBASE]. *)
Fixpoint fetchstr_loop (n : nat) (s : Z) : M (kst F) (option Z) :=
  match n with
  | O => ret None
  | S n' => b <- uload s ;; if b =? 0 then ret (Some s) else fetchstr_loop n' (s + 1)
  end.
Definition fetchstr (addr : Z) : M (kst F) (option (Z * Z)) :=
  if addr >=? KERNBASE then ret None
  else
    e <- fetchstr_loop (Z.to_nat (KERNBASE - addr)) addr ;;
    ret (match e with Some s => Some (addr, s - addr) | None => None end).

Definition argint (n : Z) : M (kst F) (option Z) :=
  i <- curproc me ;;
  t <- getp i tf ;;
  esp <- on_mem (ld (t + TF_ESP)) ;;
  fetchint (u32 (esp + 4 + 4 * n)).

Definition argptr (n size : Z) : M (kst F) (option Z) :=
  a <- argint n ;;
  match a with
  | None => ret None
  | Some i =>
      if (size <? 0) || (u32 i >=? KERNBASE) || (u32 (u32 i + size) >? KERNBASE) then ret None
      else ret (Some (u32 i))
  end.

Definition argstr (n : Z) : M (kst F) (option (Z * Z)) :=
  a <- argint n ;;
  match a with None => ret None | Some i => fetchstr (u32 i) end.

(** ** System calls (sysproc.c) *)

(** A system call's result, or the [intena] saved when it gave up the CPU. *)
Definition done (m : M (kst F) Z) : M (kst F) (Z + Z) := r <- m ;; ret (inl r).
Definition switched (m : M (kst F) Z) : M (kst F) (Z + Z) := v <- m ;; ret (inr v).

Definition sys_fork : M (kst F) Z := fork kend kdata gpu0 trapret forkret_addr me.
Definition sys_exit : M (kst F) Z := exit me.
Definition sys_wait : M (kst F) (Z + Z) := wait kend me.

Definition sys_kill : M (kst F) Z :=
  a <- argint 0 ;; match a with None => ret (-1) | Some n => kill me n end.

Definition sys_getpid : M (kst F) Z := i <- curproc me ;; getp i pid.

(** [sys_sbrk] of process [i] after its argument is fetched. *)
Definition sbrk (i : nat) (n : Z) : M (kst F) Z :=
  z <- getp i sz ;;
  let addr := s32 z in
  d <- getp i pgdir ;;
  ok <- (if n <? 0 then
           r <- on_mem (deallocuvm kend d (u32 addr) (u32 (addr + n))) ;;
           ret (negb (r =? 0))
         else ret true) ;;
  if negb ok then ret (-1)
  else upd_proc i (fun p => set_sz (u32 (sz p + n)) p) ;;; ret addr.
Definition sys_sbrk : M (kst F) Z :=
  i <- curproc me ;;
  a <- argint 0 ;;
  match a with None => ret (-1) | Some n => sbrk i n end.

(** The loop of [sys_sleep], entered with [tickslock] held. *)
Definition sleep_iter (n ticks0 : Z) : M (kst F) (Z + Z) :=
  t <- gets ticks ;;
  if u32 (t - ticks0) <? u32 n then
    i <- curproc me ;;
    k <- getp i killed ;;
    if k : bool then krelease me Tickslock ;;; ret (inl (-1))
    else switched (sleep me ChTicks Tickslock)
  else krelease me Tickslock ;;; ret (inl 0).
Definition sys_sleep : M (kst F) (Z + Z) :=
  a <- argint 0 ;;
  match a with
  | None => ret (inl (-1))
  | Some n => kacquire me Tickslock ;;; t <- gets ticks ;; sleep_iter n t
  end.
(** After [sleep] returned. *)
Definition sys_sleep_back (n ticks0 saved : Z) : M (kst F) (Z + Z) :=
  sleep_back me Tickslock saved ;;; sleep_iter n ticks0.

Definition sys_uptime : M (kst F) Z :=
  kacquire me Tickslock ;;; x <- gets ticks ;; krelease me Tickslock ;;; ret (s32 x).

Definition sys_uthread_init : M (kst F) Z :=
  a <- argint 0 ;;
  match a with
  | None => ret (-1)
  | Some addr => i <- curproc me ;; upd_proc i (set_uscheduler (u32 addr)) ;;; ret 0
  end.

Definition sys_check_thread : M (kst F) Z :=
  a <- argint 0 ;;
  match a with
  | None => ret (-1)
  | Some op =>
      i <- curproc me ;;
      upd_proc i (fun p => set_check_thread (s32 (check_thread p + op)) p) ;;; ret 0
  end.

Definition state_code (s : procstate) : Z :=
  match s with UNUSED => 0 | EMBRYO => 1 | SLEEPING => 2 | RUNNABLE => 3 | RUNNING => 4 | ZOMBIE => 5 end.

(** [struct pstat]: four arrays of [NPROC] ints, then two of [NPROC][4]. *)
Definition PSTAT_SIZE : Z := 3072.
Fixpoint pstat_levels (n : nat) (ps : Z) (i : nat) (j : Z) : M (kst F) unit :=
  match n with
  | O => ret tt
  | S n' =>
      t <- gets (fun s => proc_ticks s i j) ;;
      ustore32 (ps + 1024 + 16 * Z.of_nat i + 4 * j) t ;;;
      w <- gets (fun s => proc_wait_ticks s i j) ;;
      ustore32 (ps + 2048 + 16 * Z.of_nat i + 4 * j) w ;;;
      pstat_levels n' ps i (j + 1)
  end.
Fixpoint pstat_loop (n : nat) (ps : Z) (i : nat) : M (kst F) unit :=
  match n with
  | O => ret tt
  | S n' =>
      p <- gets (fun s => ptable s i) ;;
      ustore32 (ps + 4 * Z.of_nat i) (if bool_decide (pstate p = UNUSED) then 0 else 1) ;;;
      ustore32 (ps + 256 + 4 * Z.of_nat i) (pid p) ;;;
      l <- gets (fun s => proc_priority s i) ;;
      ustore32 (ps + 512 + 4 * Z.of_nat i) l ;;;
      ustore32 (ps + 768 + 4 * Z.of_nat i) (state_code (pstate p)) ;;;
      pstat_levels 4 ps i 0 ;;;
      pstat_loop n' ps (S i)
  end.
Definition sys_getpinfo : M (kst F) Z :=
  a <- argptr 0 PSTAT_SIZE ;;
  match a with
  | None => ret (-1)
  | Some ps => kacquire me Ptable ;;; pstat_loop NPROC ps 0 ;;; krelease me Ptable ;;; ret 0
  end.

Definition sys_setSchedPolicy : M (kst F) Z :=
  a <- argint 0 ;; match a with None => ret (-1) | Some n => setSchedPolicy me n end.

Definition sys_yield : M (kst F) Z := yield me.

(** [print_user_page_table]: the lines printed, one for each present page below
    [KERNBASE], as page number, user flag, writable flag, frame number. *)
Fixpoint print_loop (n : nat) (d va : Z) (m : kmem) : list (Z * bool * bool * Z) :=
  match n with
  | O => []
  | S n' =>
      match walkpgdir d va false m with
      | Ret (pte, _) =>
          let v := ld32 (k_mem m) pte in
          (if negb (pte =? 0) && has v PTE_P
           then [(va / PGSIZE, has v PTE_U, has v PTE_W, Z.shiftr (PTE_ADDR v) 12)] else [])
      | _ => []
      end ++ print_loop n' d (va + PGSIZE) m
  end.
Definition print_user_page_table (p : proc) (m : kmem) : list (Z * bool * bool * Z) :=
  print_loop (Z.to_nat (KERNBASE / PGSIZE)) (pgdir p) 0 m.
Definition sys_printpt : M (kst F) (Z * list (Z * bool * bool * Z)) :=
  a <- argint 0 ;;
  match a with
  | None => ret (-1, [])
  | Some n =>
      f <- find_proc_by_pid n ;;
      match f with
      | None => ret (-1, [])
      | Some i => s <- get ;; ret (0, print_user_page_table (ptable s i) (km s))
      end
  end.

(** ** Dispatch *)

(** The file system's calls: pipe, read, exec, fstat, chdir, dup, open, write,
    mknod, unlink, link, mkdir, close. *)
Context (fsys : Z -> M (kst F) (Z + Z)).

Definition syscalls (num : Z) : option (M (kst F) (Z + Z)) :=
  if num =? 1 then Some (done sys_fork)
  else if num =? 2 then Some (switched sys_exit)
  else if num =? 3 then Some sys_wait
  else if num =? 6 then Some (done sys_kill)
  else if num =? 11 then Some (done sys_getpid)
  else if num =? 12 then Some (done sys_sbrk)
  else if num =? 13 then Some sys_sleep
  else if num =? 14 then Some (done sys_uptime)
  else if num =? 22 then Some (done sys_uthread_init)
  else if num =? 23 then Some (done sys_check_thread)
  else if num =? 24 then Some (done sys_getpinfo)
  else if num =? 25 then Some (done sys_setSchedPolicy)
  else if num =? 26 then Some (switched sys_yield)
  else if num =? 27 then Some (r <- sys_printpt ;; ret (inl (fst r)))
  else if (0 <? num) && (num <? 22) then Some (fsys num)
  else None.

(** [curproc->tf->eax = v] *)
Definition set_eax (i : nat) (v : Z) : M (kst F) unit :=
  t <- getp i tf ;; on_mem (st (t + TF_EAX) v).

(** [syscall]; [Some saved] when the call gave up the CPU, after which the result
    is stored by [syscall_back]. *)
Definition syscall : M (kst F) (option Z) :=
  i <- curproc me ;;
  t <- getp i tf ;;
  e <- on_mem (ld (t + TF_EAX)) ;;
  let num := s32 e in
  match (if num >? 0 then syscalls num else None) with
  | Some f =>
      r <- f ;;
      match r with
      | inl v => set_eax i v ;;; ret None
      | inr saved => ret (Some saved)
      end
  | None => set_eax i (-1) ;;; ret None
  end.
Definition syscall_back (v : Z) : M (kst F) unit := i <- curproc me ;; set_eax i v.

(** ** [trap] *)

(** What [trap] comes to: it returns, or it gave up the CPU in [exit], in [yield]
    or in a system call. *)
Inductive trap_out := TDone | TExit (saved : Z) | TYield (saved : Z) | TSys (saved : Z).

(** The drivers' interrupt handlers: ide, keyboard, serial line, network card. *)
Context (dev_intr : Z -> M (kst F) unit).

(** The handler of each kind of trap but system calls, [p] being [myproc()] at
    entry and [t] the address of the trap frame. *)
Definition timer_intr (p : option nat) : M (kst F) unit :=
  (if (me =? 0)%nat then
     kacquire me Tickslock ;;;
     modify (fun s => set_ticks (u32 (ticks s + 1)) s) ;;;
     wakeup me ChTicks ;;;
     krelease me Tickslock
   else ret tt) ;;;
  match p with
  | None => ret tt
  | Some i =>
      q <- gets (fun s => ptable s i) ;;
      if bool_decide (pstate q = RUNNING) && negb (uscheduler q =? 0) && (check_thread q >=? 2)
      then on_mem (st (tf q + TF_EIP) (uscheduler q)) else ret tt
  end.

Definition trap_default (cs : Z) : M (kst F) unit :=
  p <- myproc me ;;
  match p with
  | None => panic "trap"
  | Some i => if Z.land cs 3 =? 0 then panic "trap" else upd_proc i (set_killed true)
  end.

Definition handle (trapno cs cr2 : Z) (p : option nat) : M (kst F) unit :=
  if trapno =? T_IRQ0 + IRQ_TIMER then timer_intr p
  else if trapno =? T_IRQ0 + IRQ_IDE then dev_intr trapno
  else if trapno =? T_IRQ0 + IRQ_IDE + 1 then ret tt
  else if trapno =? T_IRQ0 + IRQ_KBD then dev_intr trapno
  else if trapno =? T_IRQ0 + IRQ_COM1 then dev_intr trapno
  else if trapno =? T_IRQ0 + 0xB then dev_intr trapno
  else if trapno =? T_IRQ0 + IRQ_SPURIOUS then ret tt
  else if trapno =? T_PGFLT then page_fault cr2
  else trap_default cs.

(** [if(myproc() && myproc()->killed && (tf->cs&3) == DPL_USER) exit();] *)
Definition exit_if_killed (cs : Z) : M (kst F) (option Z) :=
  p <- myproc me ;;
  match p with
  | None => ret None
  | Some i =>
      k <- getp i killed ;;
      if k && (Z.land cs 3 =? DPL_USER) then v <- exit me ;; ret (Some v) else ret None
  end.

(** The end of [trap], from its last check on; also where a process that yielded
    continues. *)
Definition trap_end (cs : Z) : M (kst F) trap_out :=
  e <- exit_if_killed cs ;; ret (match e with Some v => TExit v | None => TDone end).
Definition trap_back (cs saved : Z) : M (kst F) trap_out := yield_back me saved ;;; trap_end cs.

Definition trap_tail (trapno cs : Z) : M (kst F) trap_out :=
  e <- exit_if_killed cs ;;
  match e with
  | Some v => ret (TExit v)
  | None =>
      p <- myproc me ;;
      run <- gets (fun s => match p with Some i => bool_decide (pstate (ptable s i) = RUNNING) | None => false end) ;;
      if run && (trapno =? T_IRQ0 + IRQ_TIMER) then v <- yield me ;; ret (TYield v)
      else trap_end cs
  end.

(** The rest of [trap] after a system call. *)
Definition trap_sys_end : M (kst F) trap_out :=
  j <- curproc me ;;
  k <- getp j killed ;;
  if k : bool then v <- exit me ;; ret (TExit v) else ret TDone.

Definition trap (t cr2 : Z) : M (kst F) trap_out :=
  p <- myproc me ;;
  trapno <- on_mem (ld (t + TF_TRAPNO)) ;;
  cs <- on_mem (ld16 (t + TF_CS)) ;;
  if trapno =? T_SYSCALL then
    i <- curproc me ;;
    k <- getp i killed ;;
    if k : bool then v <- exit me ;; ret (TExit v)
    else
      upd_proc i (set_tf t) ;;;
      r <- syscall ;;
      match r with
      | Some saved => ret (TSys saved)
      | None => trap_sys_end
      end
  else handle trapno cs cr2 p ;;; trap_tail trapno cs.
End Trap.
