(* ===== verification/TrapProps.v ===== *)
(** * Properties of traps and system calls

    Theorems about [src/xv6/trap.c], [src/xv6/syscall.c] and
    [src/xv6/sysproc.c] as modelled in [Trap]: allocation on demand, the break,
    argument fetching, and what a trap does to the process that took it. *)

From S2P Require Import Prelude Mem Mmu Spinlock Kalloc Vm Uvm Ualloc Kvm Copyuvm Copyout VmProps.
From S2P Require Import Proc ProcRules Sched System SchedRules Machine ProcMem ProcProps Trap.
Local Open Scope Z_scope.

Section Fault.
Context {F : Type} `{FileOps F}.
Context (kend : Z) (me : nat).

(** ** Page faults *)

Lemma vpn_rounddown a : 0 <= a < 2 ^ 32 -> vpn (PGROUNDDOWN a) = vpn a.
Proof. intros Ha. rewrite PGROUNDDOWN_arith by exact Ha. unfold vpn. apply Z.div_mul. lia. Qed.

(** The entry the handler finds. *)
Lemma fault_pte d va l (s : kst F) {A} (K : Z -> Z -> M (kst F) A) R :
  dir_ok kend (k_mem (km s)) d l ->
  (forall pte v, negb (pte =? 0) && has v PTE_P = has (pte_at (k_mem (km s)) d va) PTE_P -> wp (K pte v) R s) ->
  wp (pte <- on_mem (walkpgdir d va false) ;;
      v <- (if pte =? 0 then ret 0 else on_mem (ld pte)) ;; K pte v) R s.
Proof.
  intros Hd HK. apply wp_bind. eapply wp_on_mem; [apply walk_ro|]. cbv zeta.
  replace (set_km (km s) s) with s by (destruct s; reflexivity). unfold pte_at in HK.
  destruct (has (pde_at (k_mem (km s)) d (PDX va)) PTE_P) eqn:Ep.
  - pose proof (pte_addr_pos _ _ _ _ _ Hd Ep). apply wp_bind. case_if; [lia|].
    eapply wp_on_mem; [apply ld_pte, Ep|]. replace (set_km (km s) s) with s by (destruct s; reflexivity).
    apply HK. unfold pte_at. rewrite Ep, (proj2 (Z.eqb_neq _ _)) by lia. reflexivity.
  - apply wp_bind. cbn [Z.eqb]. unfold wp at 1, ret. apply HK. rewrite has_0. reflexivity.
Qed.

(** What the handler does to memory and to the process: it mapped a zeroed page,
    or it marked the process killed and left its user pages as they were. *)
Definition fault_mapped (i : nat) (va : Z) (l : list Z) (s s' : kst F) : Prop :=
  ptable s' = ptable s /\ cr3 (kcpus s' me) = V2P (pgdir (ptable s i)) /\
  exists p ts l', l = p :: ts ++ l' /\
    grow kend zero_fill (pgdir (ptable s i)) va p (Z.lor PTE_W PTE_U) 0 ts l' (km s) (km s').

Definition fault_killed (i : nat) (s s' : kst F) : Prop :=
  ptable s' = <[i := set_killed true (ptable s i)]> (ptable s).

(** Out of memory: no user entry changed, and of the free pages only one that
    became a page table is gone. *)
Definition fault_nomem (i : nat) (l : list Z) (s s' : kst F) : Prop :=
  fault_killed i s s' /\
  (forall a, 0 <= a < 2 ^ 32 ->
     pte_at (k_mem (km s')) (pgdir (ptable s i)) a = pte_at (k_mem (km s)) (pgdir (ptable s i)) a) /\
  exists l' ts : list Z, kmem_inv kend l' (km s') /\ uvm_ok kend (k_mem (km s')) (pgdir (ptable s i)) l' /\
    (forall q, q ∈ l <-> q ∈ l' \/ q ∈ ts) /\ (length l' <= 1)%nat /\
    forall q, table_page (k_mem (km s')) (pgdir (ptable s i)) q <->
      table_page (k_mem (km s)) (pgdir (ptable s i)) q \/ q ∈ ts.

Lemma fault_ext i va l s s1 s' : ptable s1 = ptable s -> km s1 = km s ->
  fault_mapped i va l s1 s' \/ fault_nomem i l s1 s' -> fault_mapped i va l s s' \/ fault_nomem i l s s'.
Proof. unfold fault_mapped, fault_nomem, fault_killed. intros -> ->. auto. Qed.

Lemma page_fault_mem i n cr2 l s : nest s me n -> 0 <= n -> cproc (kcpus s me) = Some i ->
  kmem_inv kend l (km s) -> uvm_ok kend (k_mem (km s)) (pgdir (ptable s i)) l ->
  0 <= cr2 < KERNBASE -> sz (ptable s i) <> 0 -> ~ present (k_mem (km s)) (pgdir (ptable s i)) cr2 ->
  wp (page_fault kend me cr2) (fun _ s' =>
    fault_mapped i (PGROUNDDOWN cr2) l s s' \/ fault_nomem i l s s') s.
Proof.
  intros Hn H0 Hc Hm Hu Hr Hz Hab. unfold page_fault. apply wp_bind.
  eapply wp_myproc; [exact Hn|exact H0|]. intros s1 K1. rewrite Hc.
  pose proof (kstep_ptable _ _ _ _ K1) as E1. pose proof (kstep_km _ _ _ _ K1) as M1.
  eapply wp_mono; [|intros u s'; apply (fault_ext _ _ _ _ _ _ E1 M1)].
  rewrite <- M1, <- E1 in *. set (d := pgdir (ptable s1 i)) in *. set (va := PGROUNDDOWN cr2).
  assert (Hr' : 0 <= cr2 < 2 ^ 32) by (unfold KERNBASE in Hr; lia).
  pose proof (PGROUNDDOWN_bounds cr2 Hr') as Hb. pose proof (PGROUNDDOWN_aligned cr2 Hr') as Hal. fold va in Hb, Hal.
  assert (Hva : 0 <= va < KERNBASE) by lia.
  assert (Hnp : has (pte_at (k_mem (km s1)) d va) PTE_P = false)
    by (apply (vpn_absent _ _ cr2 Hr Hab), vpn_rounddown, Hr').
  assert (Hab' : ~ present (k_mem (km s1)) d va) by (intros [_ Hp]; congruence).
  apply wp_bind, wp_gets. rewrite (proj2 (Z.eqb_neq _ _) Hz). case_if; [lia|]. apply wp_bind, wp_gets. fold d.
  eapply fault_pte; [apply Hu|]. intros pte v Hpv. rewrite Hpv, Hnp. apply wp_bind. destruct l as [|p l0].
  - destruct (kalloc_nil kend _ Hm) as (m & E & Hm' & Hk & _). eapply wp_on_mem; [exact E|]. cbn [Z.eqb].
    apply wp_modify. right. unfold fault_nomem. cbn [ptable set_ptable set_km km]. rewrite Hk.
    split; [reflexivity|]. split; [reflexivity|].
    exists [], []. rewrite <- Hk. split; [exact Hm'|]. split; [rewrite Hk; exact Hu|]. split; [tauto|]. split; [cbn; lia|].
    intros q. rewrite Hk, elem_of_nil. tauto.
  - destruct (alloc_page kend zero_fill d va (Z.lor PTE_W PTE_U) p l0 (km s1)) as
      (m1 & r & ts & l' & m2 & Ek & Hp0 & -> & Hk1 & Emap & Hg); auto; [apply zero_fill_out|cbv; split; congruence|].
    eapply wp_on_mem; [exact Ek|]. rewrite Hp0. apply wp_bind. eapply wp_on_mem; [reflexivity|].
    apply wp_bind. eapply wp_on_mem; [exact Emap|]. destruct (gr_result _ _ _ _ _ _ _ _ _ _ _ Hg) as [->|[-> ->]].
    + cbn [Z.ltb Z.compare]. apply wp_modify. left. unfold fault_mapped. cbn. rewrite fn_insert_eq. cbn.
      split; [reflexivity|]. split; [reflexivity|]. exists p, ts, l'. split; [reflexivity|exact Hg].
    + change (-1 <? 0) with true. cbv iota. apply wp_bind.
      assert (Hpk : page_ok kend p) by (apply (kmem_inv_pages _ _ _ Hm); left).
      pose proof (grow_fresh _ _ _ _ _ _ _ _ _ _ Hg Hm Hu) as Hfresh.
      destruct (kfree_uvm kend d p [] m2) as (m3 & E3 & Hm3 & Hu3 & _ & Hp3 & Ht3 & _); auto;
        [apply Hg|apply Hg|apply not_elem_of_nil|].
      eapply wp_on_mem; [exact E3|]. apply wp_modify. right. split; [reflexivity|].
      cbn [km set_ptable set_km]. split.
      { intros a Ha. fold d. rewrite Hp3, (gr_pte _ _ _ _ _ _ _ _ _ _ _ Hg) by exact Ha. reflexivity. }
      exists [p], ts. fold d. split; [exact Hm3|]. split; [exact Hu3|].
      split; [intros q; rewrite !elem_of_cons, elem_of_app, elem_of_nil; tauto|]. split; [cbn; lia|].
      intros q. rewrite Ht3, (gr_tables _ _ _ _ _ _ _ _ _ _ _ Hg). reflexivity.
Qed.

(** The handler on an access that no page can satisfy. *)
Lemma page_fault_bad i n cr2 l s : nest s me n -> 0 <= n -> cproc (kcpus s me) = Some i ->
  dir_ok kend (k_mem (km s)) (pgdir (ptable s i)) l -> 0 <= cr2 < 2 ^ 32 ->
  KERNBASE <= cr2 \/ sz (ptable s i) = 0 \/ present (k_mem (km s)) (pgdir (ptable s i)) cr2 ->
  wp (page_fault kend me cr2) (fun _ s' => fault_killed i s s' /\ km s' = km s) s.
Proof.
  intros Hn H0 Hc Hd Hr Hbad. unfold page_fault. apply wp_bind.
  eapply wp_myproc; [exact Hn|exact H0|]. intros s1 K1. rewrite Hc.
  pose proof (kstep_ptable _ _ _ _ K1) as E1. pose proof (kstep_km _ _ _ _ K1) as M1.
  unfold fault_killed. rewrite <- M1, <- E1 in *.
  apply wp_bind, wp_gets. case_if; [apply wp_modify; auto|].
  destruct Hbad as [Hk|[Hz|Hp]].
  - pose proof (PGROUNDDOWN_bounds cr2 Hr). rewrite PGROUNDDOWN_arith in * by exact Hr. unfold KERNBASE in *.
    assert (0x80000 <= cr2 / 4096) by (apply Z.div_le_lower_bound; lia). lia.
  - congruence.
  - apply wp_bind, wp_gets. eapply fault_pte; [exact Hd|]. intros pte v Hpv. rewrite Hpv.
    destruct Hp as [Hp1 Hp2]. rewrite (pte_at_vpn _ _ _ cr2), Hp2; [apply wp_modify; auto| |exact Hr|apply vpn_rounddown, Hr].
    pose proof (PGROUNDDOWN_bounds cr2 Hr). lia.
Qed.

(** ** User memory *)

Lemma translate_present d va l s : dir_ok kend (k_mem s) d l -> present (k_mem s) d va ->
  translate false d va s = Ret (Some (uaddr (k_mem s) d va), s).
Proof.
  intros Hd [Hr Hp]. unfold translate. rewrite (bind_step _ _ _ _ _ (walk_ro _ _ _)). cbv zeta.
  destruct (has (pde_at (k_mem s) d (PDX va)) PTE_P) eqn:Ep.
  - pose proof (pte_addr_pos _ _ _ _ _ Hd Ep). rewrite (proj2 (Z.eqb_neq _ _)) by lia.
    rewrite (bind_step _ _ _ _ _ (ld_pte _ _ _ Ep)), Hp. reflexivity.
  - unfold pte_at in Hp. rewrite Ep, has_0 in Hp. discriminate.
Qed.

Lemma uload_present d va l (s : kst F) : P2V (cr3 (kcpus s me)) = d -> dir_ok kend (k_mem (km s)) d l ->
  present (k_mem (km s)) d va ->
  uload kend me va s = Ret (ldb (k_mem (km s)) (uaddr (k_mem (km s)) d va), s).
Proof.
  intros Hc Hd Hp. unfold uload, access.
  assert (Ht : on_mem (translate false d va) s = Ret (Some (uaddr (k_mem (km s)) d va), s)).
  { unfold on_mem, lift. rewrite (translate_present _ _ _ _ Hd Hp). destruct s. reflexivity. }
  unfold bind at 1, bind at 1, gets. rewrite Hc, (bind_step _ _ _ _ _ Ht). reflexivity.
Qed.
End Fault.

Section Calls.
Context {F : Type} `{FileOps F}.
Context (kend : Z) (me : nat).

(** ** Arguments *)

(** The bytes the user sees at [va], and the word there. *)
Definition user_byte (m : mem) (d va : Z) : Z := ldb m (uaddr m d va).
Definition user_word (m : mem) (d va : Z) : Z :=
  user_byte m d va + 2 ^ 8 * user_byte m d (va + 1) + 2 ^ 16 * user_byte m d (va + 2) + 2 ^ 24 * user_byte m d (va + 3).

(** The CPU runs on the page tables [d], which are well formed. *)
Definition in_space (d : Z) (s : kst F) : Prop :=
  P2V (cr3 (kcpus s me)) = d /\ exists l, dir_ok kend (k_mem (km s)) d l.

Lemma fetchint_present d addr s : in_space d s -> 0 <= addr -> addr + 4 <= KERNBASE ->
  (forall k, 0 <= k < 4 -> present (k_mem (km s)) d (addr + k)) ->
  fetchint kend me addr s = Ret (Some (s32 (user_word (k_mem (km s)) d addr)), s).
Proof.
  intros [Hc [l Hd]] H0 Hb Hp. unfold fetchint. rewrite u32_small by (unfold KERNBASE in Hb; lia).
  case_if; [unfold KERNBASE in *; lia|]. unfold uload32.
  assert (Hu : forall k, 0 <= k < 4 -> uload kend me (addr + k) s = Ret (user_byte (k_mem (km s)) d (addr + k), s))
    by (intros k Hk; eapply uload_present; eauto).
  pose proof (Hu 0 ltac:(lia)) as U0. rewrite Z.add_0_r in U0.
  pose proof (Hu 1 ltac:(lia)) as U1. pose proof (Hu 2 ltac:(lia)) as U2. pose proof (Hu 3 ltac:(lia)) as U3.
  unfold bind. rewrite U0, U1, U2, U3. reflexivity.
Qed.

(** The address of system-call argument [n] of process [i]. *)
Definition arg_addr (i : nat) (n : Z) (s : kst F) : Z :=
  u32 (ld32 (k_mem (km s)) (tf (ptable s i) + TF_ESP) + 4 + 4 * n).

Lemma argint_present d i m n s : in_space d s -> nest s me m -> 0 <= m -> cproc (kcpus s me) = Some i ->
  arg_addr i n s + 4 <= KERNBASE ->
  (forall k, 0 <= k < 4 -> present (k_mem (km s)) d (arg_addr i n s + k)) ->
  wp (argint kend me n) (fun r s' => r = Some (s32 (user_word (k_mem (km s)) d (arg_addr i n s))) /\ kstep me m s s') s.
Proof.
  intros [Hs Hl] Hn H0 Hc Hb Hp. unfold argint. apply wp_bind. eapply wp_curproc; [exact Hn|exact H0|exact Hc|].
  intros s1 K1. apply wp_bind, wp_gets, wp_bind. eapply wp_on_mem; [reflexivity|].
  replace (set_km (km s1) s1) with s1 by (destruct s1; reflexivity).
  unfold arg_addr in *. rewrite <- (kstep_ptable _ _ _ _ K1), <- (kstep_km _ _ _ _ K1) in *.
  unfold wp. erewrite (fetchint_present d); auto.
  - split; [|exact Hl]. rewrite (ks_self _ _ _ _ K1). exact Hs.
  - pose proof (u32_range (ld32 (k_mem (km s1)) (tf (ptable s1 i) + TF_ESP) + 4 + 4 * n)). lia.
Qed.

(** ** The break *)

Lemma sbrk_up i n (s : kst F) : 0 <= n ->
  sbrk kend i n s = Ret (s32 (sz (ptable s i)),
    set_ptable (<[i := set_sz (u32 (sz (ptable s i) + n)) (ptable s i)]> (ptable s)) s).
Proof. intros Hn. unfold sbrk, getp, bind, gets, ret. rewrite (proj2 (Z.ltb_ge _ _) Hn). reflexivity. Qed.

Lemma sbrk_down i n l (s : kst F) : KERNBASE < kend -> kmem_inv kend l (km s) ->
  uvm_ok kend (k_mem (km s)) (pgdir (ptable s i)) l -> n < 0 -> 0 < sz (ptable s i) < KERNBASE ->
  0 <= sz (ptable s i) + n ->
  wp (sbrk kend i n) (fun r s' => exists l',
    dealloc kend (pgdir (ptable s i)) (vpn (sz (ptable s i) + n)) (vpn (sz (ptable s i) + 4095)) l l' (km s) (km s') /\
    if sz (ptable s i) + n =? 0 then r = -1 /\ ptable s' = ptable s
    else r = sz (ptable s i) /\
      ptable s' = <[i := set_sz (sz (ptable s i) + n) (ptable s i)]> (ptable s)) s.
Proof.
  intros Hk Hm Hu Hn Hz Hs. unfold sbrk. do 2 (apply wp_bind, wp_gets). apply wp_bind.
  rewrite (proj2 (Z.ltb_lt _ _) Hn). apply wp_bind. unfold KERNBASE in Hz.
  rewrite (s32_small (sz _)), !u32_small by lia.
  destruct (deallocuvm_ok kend (pgdir (ptable s i)) (sz (ptable s i)) (sz (ptable s i) + n) l (km s)) as (l' & m & E & Hd);
    auto; try (unfold KERNBASE; lia).
  eapply wp_on_mem; [exact E|]. unfold wp at 1, ret. destruct (sz (ptable s i) + n =? 0) eqn:Ez; cbn [negb].
  - unfold wp, ret. exists l'. split; [exact Hd|]. auto.
  - apply wp_bind, wp_modify. unfold wp, ret. exists l'. split; [exact Hd|]. split; [reflexivity|].
    cbn. rewrite u32_small by lia. reflexivity.
Qed.

(** Shrinking by more than the size wraps around. *)
Lemma sbrk_under i n (s : kst F) : 0 < sz (ptable s i) < KERNBASE -> n < - sz (ptable s i) -> - 2 ^ 31 <= n ->
  sbrk kend i n s = Ret (sz (ptable s i),
    set_ptable (<[i := set_sz (sz (ptable s i) + n + 2 ^ 32) (ptable s i)]> (ptable s)) s).
Proof.
  intros Hz Hn Hb. unfold KERNBASE in Hz. unfold sbrk, getp, bind, gets, ret.
  rewrite (proj2 (Z.ltb_lt n 0)) by lia. rewrite (s32_small (sz _)), (u32_small (sz _)) by lia.
  assert (Hw : u32 (sz (ptable s i) + n) = sz (ptable s i) + n + 2 ^ 32)
    by (symmetry; apply (Z.mod_unique _ _ (-1)); lia).
  rewrite Hw. unfold on_mem, lift, deallocuvm. case_if; [|lia]. unfold ret. rewrite (proj2 (Z.eqb_neq _ _)) by lia.
  cbn [negb]. unfold upd_proc, modify. cbn. rewrite Hw. destruct s; reflexivity.
Qed.
End Calls.

Section Traps.
Context {F : Type} `{FileOps F}.
Context (kend : Z) (me : nat).

(** Changing fields of the running process that the table invariant ignores. *)
Lemma running_field (s : kst F) i p : running s me i -> same_core (ptable s i) p -> pstate p = RUNNING ->
  running (set_ptable (<[i := p]> (ptable s)) s) me i.
Proof.
  intros [Hc Hn Hl Hst Hi] Hp Hs. split; auto; cbn [ptable set_ptable]; [rewrite fn_insert_eq; exact Hs|].
  eapply (tinv_set_state s _ i p Hi); cbn; auto; try (rewrite ?Hs, ?Hst; (split; discriminate) || discriminate || auto).
  - apply fn_insert_eq.
  - intros j Hj. apply fn_insert_ne. congruence.
Qed.

Lemma running_mem (s : kst F) i m : running s me i -> running (set_km m s) me i.
Proof. intros [Hc Hn Hl Hst Hi]. split; auto. Qed.

(** ** The clock *)

(** [wakeup] while other locks are held. *)
Lemma wakeup_nested ch n (s : kst F) : nest s me n -> 0 <= n -> locks s Ptable = None ->
  wp (wakeup me ch) (fun _ s' => exists s1, kstep me n s s1 /\ s' = set_ptable (woken (Some ch) (ptable s))
    (set_locks (locks s') s1) /\ forall l, locks s' l = locks s l) s.
Proof.
  intros Hn H0 Hl. unfold wakeup. apply wp_bind. eapply wp_acquire; [exact Hn|exact H0|exact Hl|]. intros s1 K1.
  apply wp_bind, wp_modify.
  eapply (wp_release _ _ _ (n + 1)); [exact (ks_nest _ _ _ _ K1)|lia|apply fn_lookup_insert|]. intros s2 K2.
  exists (set_kcpus (kcpus s2) s). split; [|split].
  - split; cbn.
    + reflexivity.
    + intros c Hc. rewrite (ks_other _ _ _ _ K2) by exact Hc. apply K1, Hc.
    + rewrite (ks_self _ _ _ _ K2) at 1. cbn. rewrite (ks_self _ _ _ _ K1) at 1. reflexivity.
    + replace n with (n + 1 - 1) by lia. exact (ks_nest _ _ _ _ K2).
  - rewrite (ks_rest _ _ _ _ K2) at 1. cbn. pose proof (kstep_locks _ _ _ _ K2) as L2. cbn in L2. rewrite L2.
    pose proof (ks_rest _ _ _ _ K1) as R1. destruct s1. injection R1 as. subst. reflexivity.
  - intros l. rewrite (kstep_locks _ _ _ _ K2). cbn. rewrite (kstep_locks _ _ _ _ K1).
    destruct (decide (l = Ptable)) as [->|Hne]; [rewrite fn_lookup_insert; auto|]. rewrite !fn_lookup_insert_ne by congruence.
    reflexivity.
Qed.

(** The table and the clock after the timer interrupt on this CPU. *)
Definition ticked (s : kst F) : nat -> proc :=
  if (me =? 0)%nat then woken (Some ChTicks) (ptable s) else ptable s.

(** The interrupted user program continues in its own scheduler. *)
Definition redirected (p : proc) : bool := negb (uscheduler p =? 0) && (check_thread p >=? 2).

Lemma ticked_self (s : kst F) i : pstate (ptable s i) = RUNNING -> ticked s i = ptable s i.
Proof.
  intros Hst. unfold ticked. destruct (me =? 0)%nat; [|reflexivity]. unfold woken, wake_one. rewrite Hst.
  rewrite bool_decide_eq_false_2 by discriminate. destruct (i <? NPROC)%nat; reflexivity.
Qed.

(** After the clock part of the interrupt, and after all of it. *)
Record clock_post (i : nat) (s s' : kst F) : Prop := mkclock {
  ck_run : running s' me i;
  ck_cpus : forall c, c <> me -> kcpus s' c = kcpus s c;
  ck_table : ptable s' = ticked s;
  ck_init : initproc s' = initproc s;
  ck_prio : proc_priority s' = proc_priority s;
  ck_ticks : ticks s' = if (me =? 0)%nat then u32 (ticks s + 1) else ticks s }.

Definition eip_after (p : proc) (m : mem) : mem :=
  if redirected p then st32 m (tf p + TF_EIP) (uscheduler p) else m.

Lemma clock_post_ok i s : running s me i ->
  wp (if (me =? 0)%nat then
        kacquire me Tickslock ;;; modify (fun s => set_ticks (u32 (ticks s + 1)) s) ;;;
        wakeup me ChTicks ;;; krelease me Tickslock
      else ret tt) (fun _ s' => clock_post i s s' /\ km s' = km s) s.
Proof.
  intros Hr. pose proof Hr as [Hc Hn Hl Hst Hi]. destruct (me =? 0)%nat eqn:H0.
  2: { unfold wp, ret. split; [|reflexivity]. split; unfold ticked; rewrite ?H0; auto. }
  apply wp_bind. eapply wp_acquire; [exact Hn|lia|apply (proj2 Hl); discriminate|]. intros s1 K1.
  apply wp_bind, wp_modify, wp_bind. eapply wp_mono; [apply (wakeup_nested ChTicks 1)|].
  - exact (ks_nest _ _ _ _ K1).
  - lia.
  - cbn. rewrite fn_lookup_insert_ne by discriminate. rewrite (kstep_locks _ _ _ _ K1). apply (proj1 Hl).
  - intros u s3 (s2 & K2 & E3 & L3). rewrite E3 in *. cbn [locks set_ptable set_locks] in *. eapply (wp_release _ _ _ 1).
    + exact (ks_nest _ _ _ _ K2).
    + lia.
    + cbn. rewrite L3. apply fn_lookup_insert.
    + intros s4 K4. pose proof (ks_rest _ _ _ _ K4) as R4. pose proof (ks_rest _ _ _ _ K2) as R2. cbn in R2.
      assert (Et : ptable s4 = ticked s).
      { rewrite (kstep_ptable _ _ _ _ K4). cbn. unfold ticked. rewrite H0, (kstep_ptable _ _ _ _ K1). reflexivity. }
      assert (Ek : forall c, c <> me -> kcpus s4 c = kcpus s c).
      { intros c Hne. rewrite (ks_other _ _ _ _ K4) by exact Hne. cbn. rewrite (ks_other _ _ _ _ K2) by exact Hne. apply K1, Hne. }
      assert (Ei : initproc s4 = initproc s /\ nextpid s4 = nextpid s /\ km s4 = km s /\
        proc_priority s4 = proc_priority s /\ ticks s4 = u32 (ticks s + 1)).
      { rewrite R4. cbn. rewrite R2. cbn. rewrite (ks_rest _ _ _ _ K1). cbn. auto. }
      destruct Ei as (I4 & N4 & M4 & P4 & T4). split; [|exact M4]. split; rewrite ?H0; auto. split.
      * rewrite (kstep_cproc _ _ _ _ _ K4). cbn. rewrite (kstep_cproc _ _ _ _ _ K2). cbn.
        rewrite (kstep_cproc _ _ _ _ _ K1). exact Hc.
      * exact (ks_nest _ _ _ _ K4).
      * unfold locks_held. rewrite (kstep_locks _ _ _ _ K4). cbn. split.
        -- rewrite fn_lookup_insert_ne by discriminate. rewrite L3. cbn.
           rewrite fn_lookup_insert_ne by discriminate. rewrite (kstep_locks _ _ _ _ K1). apply (proj1 Hl).
        -- intros l Hne. destruct (decide (l = Tickslock)) as [->|Hd]; [apply fn_lookup_insert|].
           rewrite fn_lookup_insert_ne, L3 by congruence. cbn.
           rewrite fn_lookup_insert_ne by congruence. rewrite (kstep_locks _ _ _ _ K1). apply Hl, Hne.
      * rewrite Et, ticked_self by exact Hst. exact Hst.
      * unfold tinv. rewrite Et, N4, I4. unfold ticked. rewrite H0. apply woken_inv, Hi.
Qed.

Lemma timer_post i s : running s me i ->
  wp (timer_intr me (Some i)) (fun _ s' => clock_post i s s' /\
    k_mem (km s') = eip_after (ptable s i) (k_mem (km s))) s.
Proof.
  intros Hr. pose proof (ru_state _ _ _ Hr) as Hst. unfold timer_intr. apply wp_bind.
  eapply wp_mono; [apply (clock_post_ok i s Hr)|]. intros u s2 [[R2 O2 E2 I2 P2 T2] M2].
  apply wp_bind, wp_gets. rewrite E2, (ticked_self s i Hst), Hst, bool_decide_eq_true_2 by reflexivity. cbn [andb].
  fold (redirected (ptable s i)). unfold eip_after. destruct (redirected (ptable s i)).
  - eapply wp_on_mem; [reflexivity|]. cbn. rewrite M2. split; [|reflexivity]. split; auto. apply running_mem, R2.
  - unfold wp, ret. rewrite M2. split; [|reflexivity]. split; auto.
Qed.

(** ** Exceptions and the clock at the level of [trap] *)

Lemma myproc_running (Q : option nat -> kst F -> Prop) i s : running s me i ->
  (forall s', running s' me i -> kstep me 0 s s' -> Q (Some i) s') -> wp (myproc me) Q s.
Proof.
  intros Hr HQ. eapply wp_myproc; [apply Hr|lia|]. intros s' K. rewrite (ru_cproc _ _ _ Hr). apply HQ; [|exact K].
  eapply kstep_running; eauto.
Qed.

Lemma exit_if_killed_no cs i s : running s me i -> killed (ptable s i) = false ->
  wp (exit_if_killed me cs) (fun r s' => r = None /\ kstep me 0 s s') s.
Proof.
  intros Hr Hk. unfold exit_if_killed. apply wp_bind. eapply myproc_running; [exact Hr|]. intros s1 R1 K1.
  apply wp_bind, wp_gets. rewrite (kstep_ptable _ _ _ _ K1), Hk. cbn. unfold wp, ret. auto.
Qed.

Lemma exit_if_killed_yes `{!FileTotal (F := F)} cs i k s : running s me i -> killed (ptable s i) = true ->
  Z.land cs 3 = DPL_USER -> initproc s = Some k -> i <> k ->
  wp (exit_if_killed me cs) (fun r s' => r <> None /\ op_post me i true s s' /\
    exited i (initproc s) (ptable s) (ptable s')) s.
Proof.
  intros Hr Hk Hcs Hin Hne. unfold exit_if_killed. apply wp_bind. eapply myproc_running; [exact Hr|]. intros s1 R1 K1.
  apply wp_bind, wp_gets. rewrite (kstep_ptable _ _ _ _ K1), Hk, Hcs. cbn [andb Z.eqb Pos.eqb DPL_USER].
  pose proof (kstep_initproc _ _ _ _ K1) as I1. apply wp_bind.
  eapply wp_mono; [apply wp_split; [eapply (exit_returns me i k); eauto; congruence|eapply (exit_post me i k); eauto; congruence]|].
  intros v s2 [Ho He]. unfold wp, ret. split; [discriminate|]. split; [eapply quiet_op; [eapply kstep_quiet; exact K1|exact Ho]|].
  rewrite I1 in He. rewrite <- (kstep_ptable _ _ _ _ K1). exact He.
Qed.

Definition trapno_at (t : Z) (s : kst F) : Z := ld32 (k_mem (km s)) (t + TF_TRAPNO).
Definition cs_at (t : Z) (s : kst F) : Z :=
  ldb (k_mem (km s)) (t + TF_CS) + 256 * ldb (k_mem (km s)) (t + TF_CS + 1).

Context (kdata : Z) (gpu0 : gpu) (trapret forkret_addr : Z).
Context (fsys : Z -> M (kst F) (Z + Z)) (dev_intr : Z -> M (kst F) unit).

(** [trap] up to its handler, for everything but system calls. *)
Lemma trap_enter (Q : trap_out -> kst F -> Prop) i t cr2 s : running s me i -> trapno_at t s <> T_SYSCALL ->
  (forall s', running s' me i -> kstep me 0 s s' ->
     wp (handle kend me dev_intr (trapno_at t s) (cs_at t s) cr2 (Some i) ;;; trap_tail me (trapno_at t s) (cs_at t s)) Q s') ->
  wp (trap kend kdata gpu0 trapret forkret_addr me fsys dev_intr t cr2) Q s.
Proof.
  intros Hr Hn HQ. unfold trap. apply wp_bind. eapply myproc_running; [exact Hr|]. intros s1 R1 K1.
  assert (Hid : forall m, m = km s1 -> set_km m s1 = s1) by (intros m ->; destruct s1; reflexivity).
  apply wp_bind. eapply wp_on_mem; [reflexivity|]. rewrite Hid by reflexivity.
  apply wp_bind. eapply wp_on_mem; [reflexivity|]. rewrite Hid by reflexivity.
  rewrite (kstep_km _ _ _ _ K1). fold (trapno_at t s) (cs_at t s). rewrite (proj2 (Z.eqb_neq _ _) Hn). apply HQ; auto.
Qed.

Lemma timer_trap_post i t cr2 s : running s me i -> trapno_at t s = T_IRQ0 + IRQ_TIMER -> killed (ptable s i) = false ->
  wp (trap kend kdata gpu0 trapret forkret_addr me fsys dev_intr t cr2) (fun r s' =>
    (exists v, r = TYield v) /\ op_post me i true s s' /\
    ptable s' = <[i := set_pstate RUNNABLE (ptable s i)]> (ticked s)) s.
Proof.
  intros Hr Ht Hk. eapply trap_enter; [exact Hr|rewrite Ht; discriminate|]. rewrite Ht. intros s1 R1 K1.
  apply wp_bind. unfold handle. cbn [Z.eqb Pos.eqb T_IRQ0 IRQ_TIMER Z.add].
  eapply wp_mono; [apply (timer_post i s1 R1)|]. intros u s2 [[R2 O2 E2 I2 P2 T2] _].
  pose proof (kstep_ptable _ _ _ _ K1) as E1. pose proof (ru_state _ _ _ Hr) as Hst.
  assert (Et : ticked s1 = ticked s) by (unfold ticked; rewrite E1; reflexivity).
  assert (Ek : ptable s2 i = ptable s i) by (rewrite E2, Et; apply ticked_self, Hst).
  unfold trap_tail. apply wp_bind. eapply wp_mono; [eapply (exit_if_killed_no _ i); [exact R2|rewrite Ek; exact Hk]|].
  intros r s3 [-> K3]. pose proof (kstep_running _ _ _ _ K3 R2) as R3. apply wp_bind.
  eapply myproc_running; [exact R3|]. intros s4 R4 K4. apply wp_bind, wp_gets.
  rewrite (ru_state _ _ _ R4), bool_decide_eq_true_2 by reflexivity. cbn [andb Z.eqb Pos.eqb T_IRQ0 IRQ_TIMER Z.add].
  apply wp_bind. eapply wp_mono; [apply (yield_post me i s4 R4)|]. intros v s5 [Ho E5]. unfold wp, ret.
  split; [eauto|].
  assert (E4 : ptable s4 = ticked s)
    by (rewrite (kstep_ptable _ _ _ _ K4), (kstep_ptable _ _ _ _ K3), E2, Et; reflexivity).
  split; [|rewrite E5, E4, (ticked_self s i Hst); reflexivity].
  destruct Ho as [P1 P2' P3 P4 P5 P6 P7 P8 P9]. split; auto.
  - intros c Hc. rewrite P2', (ks_other _ _ _ _ K4), (ks_other _ _ _ _ K3), O2 by exact Hc. apply K1, Hc.
  - rewrite P3, (ru_cproc _ _ _ R4), (ru_cproc _ _ _ Hr). reflexivity.
  - intros j Hj. rewrite P6, E4 by exact Hj. unfold ticked. destruct (me =? 0)%nat; [apply woken_running|reflexivity].
  - rewrite P8, (kstep_initproc _ _ _ _ K4), (kstep_initproc _ _ _ _ K3), I2. apply (kstep_initproc _ _ _ _ K1).
  - intros Hv. apply P9, (levels_kstep _ _ _ _ K4), (levels_kstep _ _ _ _ K3), (levels_eq s1 s2 P2), (levels_kstep _ _ _ _ K1), Hv.
Qed.

(** A trap that only the default case handles. *)
Definition exception (n : Z) : bool :=
  negb ((n =? T_SYSCALL) || (n =? 32) || (n =? 46) || (n =? 47) || (n =? 33) || (n =? 36) || (n =? 43) ||
        (n =? 63) || (n =? T_PGFLT)).

Lemma exception_post `{!FileTotal (F := F)} i k t cr2 s : running s me i -> exception (trapno_at t s) = true ->
  Z.land (cs_at t s) 3 = DPL_USER -> initproc s = Some k -> i <> k ->
  wp (trap kend kdata gpu0 trapret forkret_addr me fsys dev_intr t cr2) (fun r s' =>
    (exists v, r = TExit v) /\ op_post me i true s s' /\ pstate (ptable s' i) = ZOMBIE /\
    forall j, j <> i -> parent (ptable s j) = Some i -> (j < NPROC)%nat -> parent (ptable s' j) = Some k) s.
Proof.
  intros Hr Hex Hcs Hin Hne. unfold exception in Hex. zbool.
  eapply trap_enter; [exact Hr|assumption|]. intros s1 R1 K1. apply wp_bind.
  unfold handle, T_IRQ0, IRQ_TIMER, IRQ_IDE, IRQ_KBD, IRQ_COM1, IRQ_SPURIOUS. cbn [Z.add].
  repeat (case_if; [lia|]). unfold trap_default. apply wp_bind. eapply myproc_running; [exact R1|]. intros s2 R2 K2.
  rewrite Hcs. cbn [Z.eqb DPL_USER]. apply wp_modify. set (s3 := set_ptable _ s2).
  assert (R3 : running s3 me i) by (apply running_field; [exact R2|unfold same_core; auto|apply R2]).
  assert (I3 : initproc s3 = Some k) by (cbn; rewrite (kstep_initproc _ _ _ _ K2), (kstep_initproc _ _ _ _ K1); exact Hin).
  unfold trap_tail. apply wp_bind. eapply wp_mono; [eapply (exit_if_killed_yes _ i k); eauto|].
  { cbn. rewrite fn_insert_eq. reflexivity. }
  intros r s4 (Hr4 & Ho & Hz & _ & Hp & _). destruct r as [v|]; [|congruence]. unfold wp, ret.
  assert (Eq3 : forall j, j <> i -> ptable s3 j = ptable s j).
  { intros j Hj. cbn. rewrite fn_insert_ne, (kstep_ptable _ _ _ _ K2), (kstep_ptable _ _ _ _ K1) by congruence. reflexivity. }
  split; [eauto|]. split; [|split; [exact Hz|]].
  - destruct Ho as [P1 P2' P3 P4 P5 P6 P7 P8 P9]. split; auto.
    + intros c Hc. rewrite P2' by exact Hc. cbn. rewrite (ks_other _ _ _ _ K2) by exact Hc. apply K1, Hc.
    + rewrite P3, (ru_cproc _ _ _ R3), (ru_cproc _ _ _ Hr). reflexivity.
    + intros j Hj. rewrite P6, Eq3 by exact Hj. reflexivity.
    + congruence.
    + intros Hv. apply P9, (levels_eq s2 s3 eq_refl), (levels_kstep _ _ _ _ K2), (levels_kstep _ _ _ _ K1), Hv.
  - intros j Hj Hpj Hb. rewrite Hp, Eq3 by assumption. rewrite decide_True by exact Hpj. exact I3.
Qed.
End Traps.

(** ** Properties *)

Section Properties.
Context {F : Type} `{FileOps F}.

(** C40: a page fault below [KERNBASE] on an absent page of a process with a
    non-empty image allocates on demand: a free page, zeroed, is mapped writable at
    the faulting page, the table pages it needs come from the free list, and
    nothing else changes; or, when memory runs out, the process is marked killed
    and its user pages are as before. *)
Theorem page_fault_allocates_on_demand kend me i n cr2 l (s : kst F) :
  nest s me n -> 0 <= n -> cproc (kcpus s me) = Some i ->
  kmem_inv kend l (km s) -> uvm_ok kend (k_mem (km s)) (pgdir (ptable s i)) l ->
  0 <= cr2 < KERNBASE -> sz (ptable s i) <> 0 -> ~ present (k_mem (km s)) (pgdir (ptable s i)) cr2 ->
  wp (page_fault kend me cr2) (fun _ s' =>
    fault_mapped kend me i (PGROUNDDOWN cr2) l s s' \/ fault_nomem kend i l s s') s.
Proof. apply page_fault_mem. Qed.

(** a page fault at a kernel address, in a process of size 0, or on a page
    that is present (a forbidden access) only marks the process killed: memory and
    the rest of the table are unchanged. *)
Theorem page_fault_kills_bad_access kend me i n cr2 l (s : kst F) :
  nest s me n -> 0 <= n -> cproc (kcpus s me) = Some i ->
  dir_ok kend (k_mem (km s)) (pgdir (ptable s i)) l -> 0 <= cr2 < 2 ^ 32 ->
  KERNBASE <= cr2 \/ sz (ptable s i) = 0 \/ present (k_mem (km s)) (pgdir (ptable s i)) cr2 ->
  wp (page_fault kend me cr2) (fun _ s' => fault_killed i s s' /\ km s' = km s) s.
Proof. apply page_fault_bad. Qed.

(** [sbrk] is lazy.  Growing returns the old size and changes nothing but the
    size; shrinking to a positive size returns the old size, frees exactly the
    present pages from the one of the new end up to the old end, and lowers the
    size. *)
Theorem sbrk_is_lazy kend i n l (s : kst F) :
  KERNBASE < kend -> kmem_inv kend l (km s) -> uvm_ok kend (k_mem (km s)) (pgdir (ptable s i)) l ->
  0 < sz (ptable s i) < KERNBASE ->
  (0 <= n -> sbrk kend i n s = Ret (sz (ptable s i),
     set_ptable (<[i := set_sz (u32 (sz (ptable s i) + n)) (ptable s i)]> (ptable s)) s)) /\
  (n < 0 -> 0 < sz (ptable s i) + n ->
     wp (sbrk kend i n) (fun r s' => r = sz (ptable s i) /\
       ptable s' = <[i := set_sz (sz (ptable s i) + n) (ptable s i)]> (ptable s) /\
       exists l', dealloc kend (pgdir (ptable s i)) (vpn (sz (ptable s i) + n)) (vpn (sz (ptable s i) + 4095))
         l l' (km s) (km s')) s).
Proof.
  intros Hk Hm Hu Hz. split.
  - intros Hn. rewrite sbrk_up by exact Hn. rewrite s32_small by (unfold KERNBASE in Hz; lia). reflexivity.
  - intros Hn Hs. eapply wp_mono; [apply (sbrk_down kend i n l); auto; lia|]. cbv beta. intros r s' (l' & Hd & Hr).
    rewrite (proj2 (Z.eqb_neq _ _)) in Hr by lia. destruct Hr. eauto.
Qed.

(** [argint(n)] reads the word the user program sees [4 + 4n] bytes above its
    stack pointer, through the page tables in use, when that word is below
    [KERNBASE] on present pages; only the interrupt flag of the CPU changes. *)
Theorem argint_reads_user_stack kend me d i m n (s : kst F) :
  in_space kend me d s -> nest s me m -> 0 <= m -> cproc (kcpus s me) = Some i ->
  arg_addr i n s + 4 <= KERNBASE ->
  (forall k, 0 <= k < 4 -> present (k_mem (km s)) d (arg_addr i n s + k)) ->
  wp (argint kend me n) (fun r s' =>
    r = Some (s32 (user_word (k_mem (km s)) d (arg_addr i n s))) /\ kstep me m s s') s.
Proof. apply argint_present. Qed.

(** the timer interrupt preempts.  A process that is not killed ends the
    trap in [yield]: it is RUNNABLE, [ptable.lock] is held for the scheduler, on
    CPU 0 the processes asleep on the clock are awake, and no other process
    changed. *)
Theorem timer_interrupt_preempts kend me kdata gpu0 trapret forkret_addr fsys dev_intr i t cr2 (s : kst F) :
  running s me i -> trapno_at t s = T_IRQ0 + IRQ_TIMER -> killed (ptable s i) = false ->
  wp (trap kend kdata gpu0 trapret forkret_addr me fsys dev_intr t cr2) (fun r s' =>
    (exists v, r = TYield v) /\ op_post me i true s s' /\
    ptable s' = <[i := set_pstate RUNNABLE (ptable s i)]> (ticked me s)) s.
Proof. apply timer_trap_post. Qed.

(** an exception in user mode ends the process: the trap ends in [exit], the
    process is a zombie and its children belong to init. *)
Theorem exception_ends_process `{!FileTotal (F := F)} kend me kdata gpu0 trapret forkret_addr fsys dev_intr
    i k t cr2 (s : kst F) :
  running s me i -> exception (trapno_at t s) = true -> Z.land (cs_at t s) 3 = DPL_USER ->
  initproc s = Some k -> i <> k ->
  wp (trap kend kdata gpu0 trapret forkret_addr me fsys dev_intr t cr2) (fun r s' =>
    (exists v, r = TExit v) /\ op_post me i true s s' /\ pstate (ptable s' i) = ZOMBIE /\
    forall j, j <> i -> parent (ptable s j) = Some i -> (j < NPROC)%nat -> parent (ptable s' j) = Some k) s.
Proof. intros. eapply exception_post; eauto. Qed.

(** ** Consequences worth knowing *)

(** Shrinking to size 0 frees every page, but reports failure and keeps the old
    size. *)
Lemma sbrk_to_zero_reports_failure kend i l (s : kst F) :
  KERNBASE < kend -> kmem_inv kend l (km s) -> uvm_ok kend (k_mem (km s)) (pgdir (ptable s i)) l ->
  0 < sz (ptable s i) < KERNBASE ->
  wp (sbrk kend i (- sz (ptable s i))) (fun r s' => r = -1 /\ sz (ptable s' i) = sz (ptable s i) /\
    exists l', dealloc kend (pgdir (ptable s i)) 0 (vpn (sz (ptable s i) + 4095)) l l' (km s) (km s')) s.
Proof.
  intros Hk Hm Hu Hz. eapply wp_mono; [apply (sbrk_down kend i _ l); auto; lia|]. cbv beta. intros r s' (l' & Hd & Hr).
  rewrite Z.add_opp_diag_r in *. cbn [Z.eqb] in Hr. destruct Hr as [-> ->]. eauto.
Qed.

(** Shrinking below zero frees nothing, succeeds, and leaves a size of more than
    2 GiB. *)
Lemma sbrk_below_zero_wraps kend i n (s : kst F) : 0 < sz (ptable s i) < KERNBASE ->
  - 2 ^ 31 <= n < - sz (ptable s i) ->
  exists s', sbrk kend i n s = Ret (sz (ptable s i), s') /\ km s' = km s /\ 2 ^ 31 < sz (ptable s' i).
Proof.
  intros Hz Hn. eexists. split; [apply sbrk_under; lia|]. split; [reflexivity|]. cbn. rewrite fn_insert_eq. cbn. lia.
Qed.

End Properties.

(** ** Witnesses *)

Definition prun : kst (list Z) := pdemo RUNNING (Some 1%nat) false 0 3 0.

Lemma prun_nest : nest prun 0 0.
Proof. apply (pdemo_running 0 3 0). Qed.

Lemma prun_absent va : 0 <= va < KERNBASE -> vpn va <> 0 -> ~ present demo_mem 0x80200000 va.
Proof. intros Hr Hv [_ Hp]. rewrite demo_entry in Hp; [discriminate|unfold KERNBASE in Hr; lia|exact Hv]. Qed.

(** The handler does not look at the size of the process: the shell has size
    0x1000, and an access at 0x5000 gets a page. *)
Lemma page_fault_ignores_size : sz (ptable prun 1%nat) = 0x1000 /\
  wp (page_fault demo_end 0 0x5000) (fun _ s' => killed (ptable s' 1%nat) = false /\
    pte_at (k_mem (km s')) 0x80200000 0x5000 = 0x203007) prun.
Proof. split; [reflexivity|]. vm_compute. auto. Qed.

Lemma page_fault_allocates_on_demand_witness :
  wp (page_fault demo_end 0 0x5123) (fun _ s' =>
    fault_mapped demo_end 0 1 0x5000 demo_free prun s' \/ fault_nomem demo_end 1 demo_free prun s') prun.
Proof.
  apply (page_fault_allocates_on_demand demo_end 0 1 0 0x5123 demo_free prun);
    [apply prun_nest|lia|reflexivity|apply demo_inv|apply demo_uvm|unfold KERNBASE; lia|discriminate|].
  apply prun_absent; [unfold KERNBASE; lia|discriminate].
Defined.

Lemma page_fault_kills_bad_access_witness :
  wp (page_fault demo_end 0 0x80001000) (fun _ s' => fault_killed 1 prun s' /\ km s' = km prun) prun.
Proof.
  apply (page_fault_kills_bad_access demo_end 0 1 0 0x80001000 demo_free prun);
    [apply prun_nest|lia|reflexivity|apply (uvm_dir _ _ _ _ demo_uvm)|lia|left; unfold KERNBASE; lia].
Defined.

Lemma sbrk_is_lazy_witness :
  sbrk demo_end 1 0x4000 prun = Ret (0x1000, set_ptable (<[1%nat := set_sz 0x5000 (shell_proc RUNNING)]> (ptab RUNNING)) prun) /\
  wp (sbrk demo_end 1 (-0x800)) (fun r s' => r = 0x1000 /\ sz (ptable s' 1%nat) = 0x800) prun.
Proof.
  assert (Hz : 0 < sz (ptable prun 1%nat) < KERNBASE) by (cbn; unfold KERNBASE; lia). split.
  - exact (proj1 (sbrk_is_lazy demo_end 1 0x4000 demo_free prun eq_refl demo_inv demo_uvm Hz) ltac:(lia)).
  - eapply wp_mono; [apply (proj2 (sbrk_is_lazy demo_end 1 (-0x800) demo_free prun eq_refl demo_inv demo_uvm Hz)); cbn; lia|].
    cbv beta. intros r s' (-> & -> & _). split; reflexivity.
Defined.

(** The shell's CPU on the shell's page tables; its stack pointer is 0. *)
Definition pspace : kst (list Z) :=
  set_kcpus (<[0%nat := set_cr3 0x200000 (kcpus prun 0%nat)]> (kcpus prun)) prun.

Lemma argint_reads_user_stack_witness :
  wp (argint demo_end 0 0) (fun r s' => r = Some 0 /\ kstep 0 0 pspace s') pspace.
Proof.
  eapply wp_mono; [apply (argint_reads_user_stack demo_end 0 0x80200000 1 0 0 pspace)|].
  - split; [reflexivity|]. exists demo_free. apply (uvm_dir _ _ _ _ demo_uvm).
  - apply prun_nest.
  - lia.
  - reflexivity.
  - vm_compute. congruence.
  - intros k Hk. change (arg_addr 1 0 pspace) with 4. split; [unfold KERNBASE; lia|].
    cbn [pspace km set_kcpus prun pdemo demo k_mem]. rewrite demo_pte by lia. unfold vpn. rewrite Z.div_small by lia. reflexivity.
  - cbv beta. intros r s' [-> K]. split; [vm_compute; reflexivity|exact K].
Defined.

(** A trap frame on the shell's kernel stack: trap number [n], user code segment. *)
Definition ptrap (n : Z) : kst (list Z) :=
  set_km (set_mem (st32 (st32 demo_mem 0x80206fe4 n) 0x80206ff0 0x1b) demo) prun.

Lemma ptrap_running n : running (ptrap n) 0 1.
Proof. apply running_mem, pdemo_running. Qed.

Lemma timer_interrupt_preempts_witness :
  wp (trap demo_end 0x80108000 demo_gpu 0 0 0 (fun _ => ret (inl (-1))) (fun _ => ret tt) 0x80206fb4 0)
    (fun r s' => (exists v, r = TYield v) /\ pstate (ptable s' 1%nat) = RUNNABLE) (ptrap 32).
Proof.
  eapply wp_mono; [apply (timer_interrupt_preempts demo_end 0 0x80108000 demo_gpu 0 0 (fun _ => ret (inl (-1)))
    (fun _ => ret tt) 1 0x80206fb4 0 (ptrap 32) (ptrap_running 32)); vm_compute; reflexivity|].
  cbv beta. intros r s' (Hv & _ & ->). split; [exact Hv|reflexivity].
Defined.

Lemma exception_ends_process_witness :
  wp (trap demo_end 0x80108000 demo_gpu 0 0 0 (fun _ => ret (inl (-1))) (fun _ => ret tt) 0x80206fb4 0)
    (fun r s' => (exists v, r = TExit v) /\ pstate (ptable s' 1%nat) = ZOMBIE /\ parent (ptable s' 2%nat) = Some 0%nat)
    (ptrap 13).
Proof.
  eapply wp_mono; [apply (exception_ends_process demo_end 0 0x80108000 demo_gpu 0 0 (fun _ => ret (inl (-1)))
    (fun _ => ret tt) 1 0 0x80206fb4 0 (ptrap 13) (ptrap_running 13)); try (vm_compute; reflexivity); discriminate|].
  cbv beta. intros r s' (Hv & _ & Hz & Hp). split; [exact Hv|]. split; [exact Hz|].
  apply Hp; [discriminate|reflexivity|unfold NPROC; lia].
Defined.
