(* ===== verification/Bio.v ===== *)
(** * Disk, sleep locks and the buffer cache

    Models [src/xv6/memide.c] (the disk), [src/xv6/sleeplock.c] and
    [src/xv6/bio.c], with the data of [src/xv6/buf.h], [src/xv6/fs.h] and
    [src/xv6/file.h].

    A disk block is the list of its bytes.  The file system is modelled as one
    process executes it: a routine that would sleep for another process
    ([acquiresleep] on a held lock) does not return ([NoFuel]), and the spin locks
    [bcache.lock], [icache.lock], [log.lock], which are only held across a few
    assignments, have no counterpart.  The disk keeps a record of the writes it
    performed, from which the states a crash can leave behind are read off. *)

From S2P Require Import Prelude Mem.
Local Open Scope Z_scope.

Definition BSIZE : Z := 512.
Definition NBUF : nat := 30.
Definition LOGSIZE : Z := 30.
Definition MAXOPBLOCKS : Z := 10.
Definition NINODE : nat := 50.
Definition ROOTDEV : Z := 1.

(** ** Data *)

(** [struct sleeplock] *)
Record sleeplock := mksl { locked : bool; lpid : Z }.

(** [struct buf]; the flags B_VALID and B_DIRTY as booleans. *)
Record buf := mkbuf {
  bvalid : bool;
  bdirty : bool;
  bdev : Z;
  blockno : Z;
  blk : sleeplock;
  refcnt : Z;
  bdata : list Z }.
Definition set_bvalid (v : bool) (x : buf) : buf :=
  mkbuf v (bdirty x) (bdev x) (blockno x) (blk x) (refcnt x) (bdata x).
Definition set_bdirty (v : bool) (x : buf) : buf :=
  mkbuf (bvalid x) v (bdev x) (blockno x) (blk x) (refcnt x) (bdata x).
Definition set_bdev (v : Z) (x : buf) : buf :=
  mkbuf (bvalid x) (bdirty x) v (blockno x) (blk x) (refcnt x) (bdata x).
Definition set_blockno (v : Z) (x : buf) : buf :=
  mkbuf (bvalid x) (bdirty x) (bdev x) v (blk x) (refcnt x) (bdata x).
Definition set_blk (v : sleeplock) (x : buf) : buf :=
  mkbuf (bvalid x) (bdirty x) (bdev x) (blockno x) v (refcnt x) (bdata x).
Definition set_refcnt (v : Z) (x : buf) : buf :=
  mkbuf (bvalid x) (bdirty x) (bdev x) (blockno x) (blk x) v (bdata x).
Definition set_bdata (v : list Z) (x : buf) : buf :=
  mkbuf (bvalid x) (bdirty x) (bdev x) (blockno x) (blk x) (refcnt x) v.

(** [struct log]; [lh] holds the first [lh.n] entries of [lh.block]. *)
Record log := mklog {
  lstart : Z;
  lsize : Z;
  outstanding : Z;
  committing : bool;
  ldev : Z;
  lh : list Z }.
Definition set_lstart (v : Z) (x : log) : log :=
  mklog v (lsize x) (outstanding x) (committing x) (ldev x) (lh x).
Definition set_lsize (v : Z) (x : log) : log :=
  mklog (lstart x) v (outstanding x) (committing x) (ldev x) (lh x).
Definition set_outstanding (v : Z) (x : log) : log :=
  mklog (lstart x) (lsize x) v (committing x) (ldev x) (lh x).
Definition set_committing (v : bool) (x : log) : log :=
  mklog (lstart x) (lsize x) (outstanding x) v (ldev x) (lh x).
Definition set_ldev (v : Z) (x : log) : log :=
  mklog (lstart x) (lsize x) (outstanding x) (committing x) v (lh x).
Definition set_lh (v : list Z) (x : log) : log :=
  mklog (lstart x) (lsize x) (outstanding x) (committing x) (ldev x) v.

(** [struct superblock] *)
Record superblock := mksb {
  sb_size : Z; sb_nblocks : Z; sb_ninodes : Z; sb_nlog : Z; sb_logstart : Z; sb_inodestart : Z; sb_bmapstart : Z }.

(** [struct inode] *)
Record inode := mkinode {
  idev : Z;
  inum : Z;
  iref : Z;
  ilk : sleeplock;
  ivalid : bool;
  itype : Z;
  imajor : Z;
  iminor : Z;
  inlink : Z;
  isize : Z;
  iaddrs : list Z }.
Definition set_idev (v : Z) (x : inode) : inode :=
  mkinode v (inum x) (iref x) (ilk x) (ivalid x) (itype x) (imajor x) (iminor x) (inlink x) (isize x) (iaddrs x).
Definition set_inum (v : Z) (x : inode) : inode :=
  mkinode (idev x) v (iref x) (ilk x) (ivalid x) (itype x) (imajor x) (iminor x) (inlink x) (isize x) (iaddrs x).
Definition set_iref (v : Z) (x : inode) : inode :=
  mkinode (idev x) (inum x) v (ilk x) (ivalid x) (itype x) (imajor x) (iminor x) (inlink x) (isize x) (iaddrs x).
Definition set_ilk (v : sleeplock) (x : inode) : inode :=
  mkinode (idev x) (inum x) (iref x) v (ivalid x) (itype x) (imajor x) (iminor x) (inlink x) (isize x) (iaddrs x).
Definition set_ivalid (v : bool) (x : inode) : inode :=
  mkinode (idev x) (inum x) (iref x) (ilk x) v (itype x) (imajor x) (iminor x) (inlink x) (isize x) (iaddrs x).
Definition set_itype (v : Z) (x : inode) : inode :=
  mkinode (idev x) (inum x) (iref x) (ilk x) (ivalid x) v (imajor x) (iminor x) (inlink x) (isize x) (iaddrs x).
Definition set_imajor (v : Z) (x : inode) : inode :=
  mkinode (idev x) (inum x) (iref x) (ilk x) (ivalid x) (itype x) v (iminor x) (inlink x) (isize x) (iaddrs x).
Definition set_iminor (v : Z) (x : inode) : inode :=
  mkinode (idev x) (inum x) (iref x) (ilk x) (ivalid x) (itype x) (imajor x) v (inlink x) (isize x) (iaddrs x).
Definition set_inlink (v : Z) (x : inode) : inode :=
  mkinode (idev x) (inum x) (iref x) (ilk x) (ivalid x) (itype x) (imajor x) (iminor x) v (isize x) (iaddrs x).
Definition set_isize (v : Z) (x : inode) : inode :=
  mkinode (idev x) (inum x) (iref x) (ilk x) (ivalid x) (itype x) (imajor x) (iminor x) (inlink x) v (iaddrs x).
Definition set_iaddrs (v : list Z) (x : inode) : inode :=
  mkinode (idev x) (inum x) (iref x) (ilk x) (ivalid x) (itype x) (imajor x) (iminor x) (inlink x) (isize x) v.

(** The file system's state: the disk with the writes it performed (latest
    first), the buffer cache ([lru] lists the buffers from [bcache.head.next]), the
    log, the superblock and the inode cache. *)
Record fs := mkfs {
  disk : Z -> list Z;
  disksize : Z;
  wtrace : list (Z * list Z);
  bufs : nat -> buf;
  lru : list nat;
  logst : log;
  sblock : superblock;
  icache : nat -> inode }.
Definition set_disk (v : Z -> list Z) (x : fs) : fs :=
  mkfs v (disksize x) (wtrace x) (bufs x) (lru x) (logst x) (sblock x) (icache x).
Definition set_disksize (v : Z) (x : fs) : fs :=
  mkfs (disk x) v (wtrace x) (bufs x) (lru x) (logst x) (sblock x) (icache x).
Definition set_wtrace (v : list (Z * list Z)) (x : fs) : fs :=
  mkfs (disk x) (disksize x) v (bufs x) (lru x) (logst x) (sblock x) (icache x).
Definition set_bufs (v : nat -> buf) (x : fs) : fs :=
  mkfs (disk x) (disksize x) (wtrace x) v (lru x) (logst x) (sblock x) (icache x).
Definition set_lru (v : list nat) (x : fs) : fs :=
  mkfs (disk x) (disksize x) (wtrace x) (bufs x) v (logst x) (sblock x) (icache x).
Definition set_logst (v : log) (x : fs) : fs :=
  mkfs (disk x) (disksize x) (wtrace x) (bufs x) (lru x) v (sblock x) (icache x).
Definition set_sblock (v : superblock) (x : fs) : fs :=
  mkfs (disk x) (disksize x) (wtrace x) (bufs x) (lru x) (logst x) v (icache x).
Definition set_icache (v : nat -> inode) (x : fs) : fs :=
  mkfs (disk x) (disksize x) (wtrace x) (bufs x) (lru x) (logst x) (sblock x) v.

(** ** Words in blocks *)

Definition byte_at (d : list Z) (off : Z) : Z := default 0 (d !! Z.to_nat off).
Definition rd16 (d : list Z) (off : Z) : Z := byte_at d off + 2 ^ 8 * byte_at d (off + 1).
Definition rd32 (d : list Z) (off : Z) : Z :=
  byte_at d off + 2 ^ 8 * byte_at d (off + 1) + 2 ^ 16 * byte_at d (off + 2) + 2 ^ 24 * byte_at d (off + 3).
Definition wr8 (d : list Z) (off v : Z) : list Z := <[Z.to_nat off := u8 v]> d.
Definition wr16 (d : list Z) (off v : Z) : list Z := wr8 (wr8 d off v) (off + 1) (Z.shiftr v 8).
Definition wr32 (d : list Z) (off v : Z) : list Z :=
  wr8 (wr8 (wr8 (wr8 d off v) (off + 1) (Z.shiftr v 8)) (off + 2) (Z.shiftr v 16)) (off + 3) (Z.shiftr v 24).

(** ** Sleep locks (sleeplock.c) *)

Section Sleeplock.
Context {S : Type} (sel : S -> sleeplock) (upd : sleeplock -> S -> S).

Definition initsleeplock : M S unit := modify (upd (mksl false 0)).
Definition acquiresleep (pid : Z) : M S unit :=
  l <- gets sel ;; if locked l then nofuel else modify (upd (mksl true pid)).
Definition releasesleep : M S unit := modify (upd (mksl false 0)).
Definition holdingsleep : M S bool := gets (fun s => locked (sel s)).
End Sleeplock.

(** ** The disk (memide.c) *)

Section Bio.
(** The process that runs. *)
Context (pid : Z).

Definition getb {A} (i : nat) (f : buf -> A) : M fs A := gets (fun s => f (bufs s i)).
Definition updb (i : nat) (f : buf -> buf) : M fs unit :=
  modify (fun s => set_bufs (<[i := f (bufs s i)]> (bufs s)) s).
Definition buf_lock (i : nat) : M fs unit :=
  acquiresleep (fun s => blk (bufs s i)) (fun l s => set_bufs (<[i := set_blk l (bufs s i)]> (bufs s)) s) pid.
Definition buf_unlock (i : nat) : M fs unit :=
  releasesleep (fun l s => set_bufs (<[i := set_blk l (bufs s i)]> (bufs s)) s).
Definition buf_holding (i : nat) : M fs bool := holdingsleep (fun s => blk (bufs s i)).

(** [ideinit]: the disk is the file-system image the linker put into the kernel. *)
Definition ideinit (img : Z -> list Z) (img_size : Z) : M fs unit :=
  modify (set_disk img) ;;; modify (set_disksize (u32 img_size / BSIZE)).

Definition iderw (i : nat) : M fs unit :=
  h <- buf_holding i ;;
  if negb h then panic "iderw: buf not locked"
  else
    b <- getb i id ;;
    n <- gets disksize ;;
    if bvalid b && negb (bdirty b) then panic "iderw: nothing to do"
    else if negb (bdev b =? 1) then panic "iderw: request not for disk 1"
    else if blockno b >=? n then panic "iderw: block out of range"
    else
      (if bdirty b then
         updb i (set_bdirty false) ;;;
         modify (fun s => set_wtrace ((blockno b, bdata b) :: wtrace s)
                            (set_disk (<[blockno b := bdata b]> (disk s)) s))
       else
         d <- gets (fun s => disk s (blockno b)) ;; updb i (set_bdata d)) ;;;
      updb i (set_bvalid true).

(** ** The buffer cache (bio.c) *)

(** [binit] inserts every buffer at the head of the list. *)
Fixpoint binit_loop (n : nat) (i : nat) : M fs unit :=
  match n with
  | O => ret tt
  | S n' =>
      initsleeplock (fun l s => set_bufs (<[i := set_blk l (bufs s i)]> (bufs s)) s) ;;;
      modify (fun s => set_lru (i :: lru s) s) ;;;
      binit_loop n' (S i)
  end.
Definition binit : M fs unit := modify (set_lru []) ;;; binit_loop NBUF 0.

Definition bget (dev bno : Z) : M fs nat :=
  s <- get ;;
  match list_find (fun i => bdev (bufs s i) = dev /\ blockno (bufs s i) = bno) (lru s) with
  | Some (_, i) =>
      updb i (fun b => set_refcnt (u32 (refcnt b + 1)) b) ;;;
      buf_lock i ;;;
      ret i
  | None =>
      match list_find (fun i => refcnt (bufs s i) = 0 /\ bdirty (bufs s i) = false) (reverse (lru s)) with
      | Some (_, i) =>
          updb i (fun b => set_refcnt 1 (set_bdirty false (set_bvalid false (set_blockno bno (set_bdev dev b))))) ;;;
          buf_lock i ;;;
          ret i
      | None => panic "bget: no buffers"
      end
  end.

Definition bread (dev bno : Z) : M fs nat :=
  i <- bget dev bno ;;
  v <- getb i bvalid ;;
  (if negb v then iderw i else ret tt) ;;;
  ret i.

Definition bwrite (i : nat) : M fs unit :=
  h <- buf_holding i ;;
  if negb h then panic "bwrite"
  else updb i (set_bdirty true) ;;; iderw i.

Definition brelse (i : nat) : M fs unit :=
  h <- buf_holding i ;;
  if negb h then panic "brelse"
  else
    buf_unlock i ;;;
    updb i (fun b => set_refcnt (u32 (refcnt b - 1)) b) ;;;
    r <- getb i refcnt ;;
    if r =? 0
    then modify (fun s => set_lru (i :: filter (fun j => j <> i) (lru s)) s)
    else ret tt.
End Bio.
