(* ===== verification/Log.v ===== *)
(** * The log

    Models [src/xv6/log.c], and [readsb] of [src/xv6/fs.c].  The block numbers of
    the log are C [int]s, converted to [uint] where they are passed to [bread]. *)

From S2P Require Import Prelude Mem Bio.
Local Open Scope Z_scope.

Section Log.
Context (pid : Z).

Definition getl {A} (f : log -> A) : M fs A := gets (fun s => f (logst s)).
Definition updl (f : log -> log) : M fs unit := modify (fun s => set_logst (f (logst s)) s).

(** [readsb] of fs.c: the seven words of block 1. *)
Definition decode_sb (d : list Z) : superblock :=
  mksb (rd32 d 0) (rd32 d 4) (rd32 d 8) (rd32 d 12) (rd32 d 16) (rd32 d 20) (rd32 d 24).
Definition readsb (dev : Z) : M fs superblock :=
  i <- bread pid dev 1 ;;
  d <- getb i bdata ;;
  brelse i ;;;
  ret (decode_sb d).

(** Copy committed blocks from the log, entries [tail], ..., to their homes. *)
Fixpoint install_loop (bs : list Z) (tail : Z) : M fs unit :=
  match bs with
  | [] => ret tt
  | b :: bs' =>
      l <- getl id ;;
      lbuf <- bread pid (ldev l) (u32 (lstart l + tail + 1)) ;;
      dbuf <- bread pid (ldev l) (u32 b) ;;
      d <- getb lbuf bdata ;;
      updb dbuf (set_bdata d) ;;;
      bwrite dbuf ;;;
      brelse lbuf ;;;
      brelse dbuf ;;;
      install_loop bs' (tail + 1)
  end.
Definition install_trans : M fs unit := bs <- getl lh ;; install_loop bs 0.

(** The log header: a count, then block numbers. *)
Fixpoint dec_blocks (n : nat) (d : list Z) (off : Z) : list Z :=
  match n with O => [] | S n' => s32 (rd32 d off) :: dec_blocks n' d (off + 4) end.
Definition dec_head (d : list Z) : list Z := dec_blocks (Z.to_nat (s32 (rd32 d 0))) d 4.
Fixpoint enc_blocks (bs : list Z) (d : list Z) (off : Z) : list Z :=
  match bs with [] => d | b :: bs' => enc_blocks bs' (wr32 d off b) (off + 4) end.
Definition enc_head (bs d : list Z) : list Z := enc_blocks bs (wr32 d 0 (Z.of_nat (length bs))) 4.

Definition read_head : M fs unit :=
  l <- getl id ;;
  i <- bread pid (ldev l) (u32 (lstart l)) ;;
  d <- getb i bdata ;;
  updl (set_lh (dec_head d)) ;;;
  brelse i.

Definition write_head : M fs unit :=
  l <- getl id ;;
  i <- bread pid (ldev l) (u32 (lstart l)) ;;
  d <- getb i bdata ;;
  updb i (set_bdata (enc_head (lh l) d)) ;;;
  bwrite i ;;;
  brelse i.

Definition recover_from_log : M fs unit :=
  read_head ;;;
  install_trans ;;;
  updl (set_lh []) ;;;
  write_head.

Definition initlog (dev : Z) : M fs unit :=
  sb <- readsb dev ;;
  updl (fun l => set_ldev dev (set_lsize (s32 (sb_nlog sb)) (set_lstart (s32 (sb_logstart sb)) l))) ;;;
  recover_from_log.

(** When [begin_op] would sleep, it does not return here. *)
Definition begin_op : M fs unit :=
  l <- getl id ;;
  if committing l then nofuel
  else if Z.of_nat (length (lh l)) + (outstanding l + 1) * MAXOPBLOCKS >? LOGSIZE then nofuel
  else updl (fun l => set_outstanding (outstanding l + 1) l).

(** Copy modified blocks from the cache to the log. *)
Fixpoint write_log_loop (bs : list Z) (tail : Z) : M fs unit :=
  match bs with
  | [] => ret tt
  | b :: bs' =>
      l <- getl id ;;
      to <- bread pid (ldev l) (u32 (lstart l + tail + 1)) ;;
      from <- bread pid (ldev l) (u32 b) ;;
      d <- getb from bdata ;;
      updb to (set_bdata d) ;;;
      bwrite to ;;;
      brelse from ;;;
      brelse to ;;;
      write_log_loop bs' (tail + 1)
  end.
Definition write_log : M fs unit := bs <- getl lh ;; write_log_loop bs 0.

Definition commit : M fs unit :=
  bs <- getl lh ;;
  if (0 <? Z.of_nat (length bs)) then
    write_log ;;;
    write_head ;;;
    install_trans ;;;
    updl (set_lh []) ;;;
    write_head
  else ret tt.

Definition end_op : M fs unit :=
  updl (fun l => set_outstanding (outstanding l - 1) l) ;;;
  l <- getl id ;;
  if committing l then panic "log.committing"
  else if outstanding l =? 0 then
    updl (set_committing true) ;;;
    commit ;;;
    updl (set_committing false)
  else ret tt.

(** The block is recorded once: a block already in the log is absorbed. *)
Definition log_write (i : nat) : M fs unit :=
  l <- getl id ;;
  let n := Z.of_nat (length (lh l)) in
  if (n >=? LOGSIZE) || (n >=? lsize l - 1) then panic "too big a transaction"
  else if outstanding l <? 1 then panic "log_write outside of trans"
  else
    b <- getb i blockno ;;
    (if bool_decide (b ∈ lh l) then ret tt else updl (fun l => set_lh (lh l ++ [b]) l)) ;;;
    updb i (set_bdirty true).

(** The use of the log that log.c prescribes: read a block, modify it, [log_write]
    it, release it; all of them between [begin_op] and [end_op]. *)
Definition logged_write (b : Z) (d : list Z) : M fs unit :=
  i <- bread pid ROOTDEV b ;;
  updb i (set_bdata d) ;;;
  log_write i ;;;
  brelse i.
Fixpoint logged_writes (ws : list (Z * list Z)) : M fs unit :=
  match ws with [] => ret tt | (b, d) :: ws' => logged_write b d ;;; logged_writes ws' end.
Definition transaction (ws : list (Z * list Z)) : M fs unit :=
  begin_op ;;; logged_writes ws ;;; end_op.
End Log.
