(* ===== verification/BioRules.v ===== *)
(** * The buffer cache seen from outside

    The promise of [src/xv6/bio.c] to its clients: a block has one current
    content, the cached copy if there is one and the disk's otherwise; [bread]
    returns it, locked; only [bwrite] changes the disk; a block with unwritten
    changes stays cached. *)

From S2P Require Import Prelude Mem Bio Log.
Local Open Scope Z_scope.

(** ** Words in blocks *)

Lemma length_wr8 d off v : length (wr8 d off v) = length d.
Proof. apply length_insert. Qed.
Lemma length_wr16 d off v : length (wr16 d off v) = length d.
Proof. unfold wr16. rewrite !length_wr8. reflexivity. Qed.
Lemma length_wr32 d off v : length (wr32 d off v) = length d.
Proof. unfold wr32. rewrite !length_wr8. reflexivity. Qed.

Lemma byte_wr8_eq d off v : 0 <= off < Z.of_nat (length d) -> byte_at (wr8 d off v) off = u8 v.
Proof. intros H. unfold byte_at, wr8. rewrite list_lookup_insert_eq by lia. reflexivity. Qed.
Lemma byte_wr8_ne d off off' v : 0 <= off -> 0 <= off' -> off <> off' -> byte_at (wr8 d off v) off' = byte_at d off'.
Proof. intros H1 H2 H. unfold byte_at, wr8. rewrite list_lookup_insert_ne by lia. reflexivity. Qed.

(** Read a byte of a block after writes of bytes. *)
Ltac bytes := repeat first [rewrite byte_wr8_eq by (rewrite ?length_wr8; lia) | rewrite byte_wr8_ne by lia].

Lemma u32_shift_bytes v : u8 v + 2 ^ 8 * u8 (Z.shiftr v 8) + 2 ^ 16 * u8 (Z.shiftr v 16) + 2 ^ 24 * u8 (Z.shiftr v 24) = u32 v.
Proof. unfold u8, u32. rewrite !Z.shiftr_div_pow2 by lia. Z.to_euclidean_division_equations. lia. Qed.

Lemma u16_shift_bytes v : u8 v + 2 ^ 8 * u8 (Z.shiftr v 8) = u16 v.
Proof. unfold u8, u16. rewrite !Z.shiftr_div_pow2 by lia. Z.to_euclidean_division_equations. lia. Qed.

Lemma rd32_wr32 d off v : 0 <= off -> off + 4 <= Z.of_nat (length d) -> rd32 (wr32 d off v) off = u32 v.
Proof. intros H1 H2. unfold rd32, wr32. bytes. apply u32_shift_bytes. Qed.

Lemma rd16_wr16 d off v : 0 <= off -> off + 2 <= Z.of_nat (length d) -> rd16 (wr16 d off v) off = u16 v.
Proof. intros H1 H2. unfold rd16, wr16. bytes. apply u16_shift_bytes. Qed.

Lemma rd32_wr32_ne d off off' v : 0 <= off -> 0 <= off' -> off + 4 <= off' \/ off' + 4 <= off ->
  rd32 (wr32 d off v) off' = rd32 d off'.
Proof. intros H1 H2 H. unfold rd32, wr32. bytes. reflexivity. Qed.

(** ** Invariant and abstraction *)

Record cinv (s : fs) : Prop := mkcinv {
  ci_lru : lru s ≡ₚ seq 0 NBUF;
  ci_uniq : forall i j, (i < NBUF)%nat -> (j < NBUF)%nat -> bdev (bufs s i) = 1 -> bdev (bufs s j) = 1 ->
    blockno (bufs s i) = blockno (bufs s j) -> i = j;
  ci_used : forall i, (i < NBUF)%nat -> bdev (bufs s i) <> 1 ->
    bdirty (bufs s i) = false /\ locked (blk (bufs s i)) = false;
  ci_ref : forall i, (i < NBUF)%nat -> refcnt (bufs s i) = if locked (blk (bufs s i)) then 1 else 0;
  ci_dirty : forall i, (i < NBUF)%nat -> bdirty (bufs s i) = true \/ locked (blk (bufs s i)) = true ->
    bvalid (bufs s i) = true;
  ci_clean : forall i, (i < NBUF)%nat -> bdev (bufs s i) = 1 -> bvalid (bufs s i) = true ->
    bdirty (bufs s i) = false -> locked (blk (bufs s i)) = false -> bdata (bufs s i) = disk s (blockno (bufs s i));
  ci_range : forall i, (i < NBUF)%nat -> bdev (bufs s i) = 1 -> 0 <= blockno (bufs s i) < disksize s }.

(** The buffer that caches block [b]. *)
Definition slot (s : fs) (b : Z) : option nat :=
  snd <$> list_find (fun i => bdev (bufs s i) = 1 /\ blockno (bufs s i) = b) (seq 0 NBUF).

Definition view (s : fs) (b : Z) : list Z :=
  match slot s b with
  | Some i => if bvalid (bufs s i) then bdata (bufs s i) else disk s b
  | None => disk s b
  end.
Definition isdirty (s : fs) (b : Z) : bool := match slot s b with Some i => bdirty (bufs s i) | None => false end.
Definition islocked (s : fs) (b : Z) : bool :=
  match slot s b with Some i => locked (blk (bufs s i)) | None => false end.

Definition caches (s : fs) (b : Z) (i : nat) : Prop :=
  (i < NBUF)%nat /\ bdev (bufs s i) = 1 /\ blockno (bufs s i) = b.

Lemma slot_caches s b i : slot s b = Some i -> caches s b i.
Proof.
  unfold slot. intros H. apply fmap_Some in H as ([k j] & E & ->). apply list_find_Some in E as (Hk & [H1 H2] & _).
  apply lookup_seq in Hk as [-> Hlt]. unfold caches. cbn. auto.
Qed.

Lemma caches_slot s b i : cinv s -> caches s b i -> slot s b = Some i.
Proof.
  intros Hi (Hlt & Hd & Hb). destruct (slot s b) as [j|] eqn:E.
  - apply slot_caches in E as (Hj & Hdj & Hbj). f_equal. apply (ci_uniq _ Hi); auto. congruence.
  - unfold slot in E. apply fmap_None, list_find_None in E. rewrite Forall_forall in E.
    destruct (E i); [apply elem_of_seq; lia|auto].
Qed.

Lemma slot_none s b i : slot s b = None -> ~ caches s b i.
Proof.
  unfold slot. intros E (Hlt & Hd & Hb). apply fmap_None, list_find_None in E. rewrite Forall_forall in E.
  apply (E i); [apply elem_of_seq; lia|auto].
Qed.

(** The abstraction of a state in which buffer [i] caches [b]. *)
Lemma abs_caches s b i : cinv s -> caches s b i ->
  view s b = (if bvalid (bufs s i) then bdata (bufs s i) else disk s b) /\
  isdirty s b = bdirty (bufs s i) /\ islocked s b = locked (blk (bufs s i)).
Proof. intros Hi Hc. unfold view, isdirty, islocked. rewrite (caches_slot _ _ _ Hi Hc). auto. Qed.

(** Two states that agree on the buffers of block [b] have the same abstraction
    there. *)
Lemma abs_same s s' b : cinv s -> cinv s' -> disk s' b = disk s b ->
  (forall i, caches s b i -> bufs s' i = bufs s i) -> (forall i, caches s' b i -> bufs s' i = bufs s i) ->
  view s' b = view s b /\ isdirty s' b = isdirty s b /\ islocked s' b = islocked s b.
Proof.
  intros Hi Hi' Hd H1 H2. destruct (slot s b) as [i|] eqn:E.
  - pose proof (slot_caches _ _ _ E) as Hc. pose proof (H1 i Hc) as Eb.
    assert (Hc' : caches s' b i) by (unfold caches in *; rewrite Eb; exact Hc).
    destruct (abs_caches _ _ _ Hi Hc) as (-> & -> & ->), (abs_caches _ _ _ Hi' Hc') as (-> & -> & ->).
    rewrite Eb, Hd. auto.
  - assert (E' : slot s' b = None).
    { destruct (slot s' b) as [j|] eqn:E'; [|reflexivity]. pose proof (slot_caches _ _ _ E') as Hc'.
      destruct (slot_none _ _ j E). pose proof (H2 j Hc') as Eb. unfold caches in *. rewrite <- Eb. exact Hc'. }
    unfold view, isdirty, islocked. rewrite E, E', Hd. auto.
Qed.

(** A change of buffer [i] that keeps its block or takes it from a buffer that was
    clean and unlocked. *)
Lemma cinv_upd s s' i b' : cinv s -> (i < NBUF)%nat -> b' = bufs s' i ->
  lru s' ≡ₚ lru s -> disksize s' = disksize s -> (forall j, j <> i -> bufs s' j = bufs s j) ->
  (forall b, disk s' b = disk s b \/ caches s' b i) ->
  bdev b' = 1 -> 0 <= blockno b' < disksize s -> (forall j, j <> i -> ~ caches s (blockno b') j) ->
  refcnt b' = (if locked (blk b') then 1 else 0) -> bvalid b' = true ->
  (bdirty b' = false -> locked (blk b') = false -> bdata b' = disk s' (blockno b')) -> cinv s'.
Proof.
  intros [C1 C2 C3 C4 C5 C6 C7] Hi -> El En Eo Ed Hdev Hr Hfree Href Hval Hclean.
  assert (Hcase : forall j, j = i \/ j <> i /\ bufs s' j = bufs s j)
    by (intros j; destruct (decide (j = i)); auto).
  split.
  - rewrite El. exact C1.
  - intros j k Hj Hk. destruct (Hcase j) as [->|[Hji Ej]], (Hcase k) as [->|[Hki Ek]]; auto.
    + rewrite Ek. intros _ Hdk Hb. destruct (Hfree k Hki). unfold caches. auto.
    + rewrite Ej. intros Hdj _ Hb. destruct (Hfree j Hji). unfold caches. auto.
    + rewrite Ej, Ek. auto.
  - intros j Hj. destruct (Hcase j) as [->|[_ ->]]; [congruence|auto].
  - intros j Hj. destruct (Hcase j) as [->|[_ ->]]; auto.
  - intros j Hj. destruct (Hcase j) as [->|[_ ->]]; auto.
  - intros j Hj. destruct (Hcase j) as [->|[Hji Ej]]; [auto|]. rewrite Ej. intros Hd Hv Hdi Hl.
    destruct (Ed (blockno (bufs s j))) as [->|(_ & _ & Hb)]; [auto|].
    destruct (Hfree j Hji). unfold caches. auto.
  - rewrite En. intros j Hj. destruct (Hcase j) as [->|[_ ->]]; auto.
Qed.

(** Effect on the abstraction of a change of buffer [i], for blocks it caches
    neither before nor after. *)
Lemma abs_upd s s' i : cinv s -> cinv s' -> (forall j, j <> i -> bufs s' j = bufs s j) ->
  forall b, ~ caches s b i -> ~ caches s' b i -> disk s' b = disk s b ->
  view s' b = view s b /\ isdirty s' b = isdirty s b /\ islocked s' b = islocked s b.
Proof.
  intros Hi Hi' Eo b H1 H2 Hd. apply abs_same; auto.
  - intros j Hj. apply Eo. intros ->. contradiction.
  - intros j Hj. apply Eo. intros ->. contradiction.
Qed.

(** ** [bread] *)

(** Something can be evicted, or the block is there already. *)
Definition avail (s : fs) (b : Z) : Prop :=
  (exists i, caches s b i) \/ exists i, (i < NBUF)%nat /\ refcnt (bufs s i) = 0 /\ bdirty (bufs s i) = false.

Record bread_post (b : Z) (i : nat) (s s' : fs) : Prop := mkbread {
  br_inv : cinv s';
  br_caches : caches s' b i;
  br_valid : bvalid (bufs s' i) = true;
  br_lock : locked (blk (bufs s' i)) = true;
  br_data : bdata (bufs s' i) = view s b;
  br_rest : s' = set_bufs (bufs s') s;
  br_view : forall b', view s' b' = view s b';
  br_dirty : forall b', isdirty s' b' = isdirty s b';
  br_locked : forall b', islocked s' b' = (b' =? b) || islocked s b';
  br_old : locked (blk (bufs s i)) = false;
  br_others : forall j, j <> i -> bufs s' j = bufs s j }.

Section Bread.
Context (pid : Z).

(** What [bget] leaves for [bread]: buffer [i], locked, caches [b]. *)
Record bget_post (b : Z) (i : nat) (s s' : fs) : Prop := mkbget {
  bg_slot : (i < NBUF)%nat;
  bg_rest : s' = set_bufs (bufs s') s;
  bg_others : forall j, j <> i -> bufs s' j = bufs s j;
  bg_dev : bdev (bufs s' i) = 1;
  bg_block : blockno (bufs s' i) = b;
  bg_blk : blk (bufs s' i) = mksl true pid;
  bg_ref : refcnt (bufs s' i) = 1;
  bg_free : forall j, j <> i -> ~ caches s b j;
  bg_old : locked (blk (bufs s i)) = false;
  bg_case : caches s b i /\ bvalid (bufs s' i) = bvalid (bufs s i) /\ bdirty (bufs s' i) = bdirty (bufs s i) /\
      bdata (bufs s' i) = bdata (bufs s i) \/
    (forall j, ~ caches s b j) /\ bdirty (bufs s i) = false /\ bdirty (bufs s' i) = false /\ bvalid (bufs s' i) = false }.

Lemma lru_elem s i : cinv s -> i ∈ lru s <-> (i < NBUF)%nat.
Proof. intros Hi. rewrite (ci_lru _ Hi), elem_of_seq. lia. Qed.

Lemma bget_ok b s : cinv s -> islocked s b = false -> avail s b ->
  wp (bget pid 1 b) (fun i s' => bget_post b i s s') s.
Proof.
  intros Hi Hl Ha. unfold bget. apply wp_bind. unfold wp at 1, get.
  destruct (list_find _ (lru s)) as [[k i]|] eqn:E1.
  - apply list_find_Some in E1 as (Hk & [Hd Hb] & _). apply list_elem_of_lookup_2, (lru_elem _ _ Hi) in Hk.
    assert (Hc : caches s b i) by (unfold caches; auto).
    destruct (abs_caches _ _ _ Hi Hc) as (_ & _ & Hlk). rewrite Hl in Hlk. symmetry in Hlk.
    apply wp_bind, wp_modify, wp_bind. unfold buf_lock, acquiresleep. apply wp_bind, wp_gets. cbn.
    rewrite fn_insert_eq. cbn. rewrite Hlk. apply wp_modify. unfold wp, ret.
    split; cbn; rewrite ?fn_insert_eq; cbn; auto.
    + intros j Hj. rewrite !fn_insert_ne by congruence. reflexivity.
    + rewrite (ci_ref _ Hi) by exact Hk. rewrite Hlk. reflexivity.
    + intros j Hj (Hj' & Hdj & Hbj). apply Hj. apply (ci_uniq _ Hi); auto. congruence.
  - apply list_find_None in E1. rewrite Forall_forall in E1.
    assert (Hno : forall j, ~ caches s b j).
    { intros j (Hj & Hd & Hb). apply (E1 j); [|auto]. apply (lru_elem _ _ Hi), Hj. }
    destruct (list_find _ (reverse _)) as [[k i]|] eqn:E2.
    + apply list_find_Some in E2 as (Hk & [Hr Hd] & _). apply list_elem_of_lookup_2 in Hk.
      rewrite elem_of_reverse in Hk. apply (lru_elem _ _ Hi) in Hk.
      assert (Hlk : locked (blk (bufs s i)) = false).
      { pose proof (ci_ref _ Hi i Hk) as Href. rewrite Hr in Href. destruct (locked _); [discriminate|reflexivity]. }
      apply wp_bind, wp_modify, wp_bind. unfold buf_lock, acquiresleep. apply wp_bind, wp_gets. cbn.
      rewrite fn_insert_eq. cbn. rewrite Hlk. apply wp_modify. unfold wp, ret.
      split; cbn; rewrite ?fn_insert_eq; cbn; auto.
      intros j Hj. rewrite !fn_insert_ne by congruence. reflexivity.
    + destruct Ha as [[j Hj]|(j & Hj & Hr & Hd)]; [destruct (Hno j Hj)|].
      apply list_find_None in E2. rewrite Forall_forall in E2. destruct (E2 j); [|auto].
      rewrite elem_of_reverse. apply (lru_elem _ _ Hi), Hj.
Qed.

(** After [bread] has made the buffer valid with the block's content. *)
Lemma bread_finish b i s s1 s' : cinv s -> islocked s b = false -> 0 <= b < disksize s -> bget_post b i s s1 ->
  (forall j, j <> i -> bufs s' j = bufs s1 j) -> s' = set_bufs (bufs s') s1 ->
  bufs s' i = set_bvalid true (set_bdata (view s b) (bufs s1 i)) -> bread_post b i s s'.
Proof.
  intros Hi Hl Hr [G1 G2 G3 G4 G5 G6 G7 G8 G9 G10] Eo Er Ei.
  assert (Er' : s' = set_bufs (bufs s') s) by (rewrite Er, G2; reflexivity).
  assert (Eo' : forall j, j <> i -> bufs s' j = bufs s j) by (intros j Hj; rewrite Eo, G3; auto).
  pose proof (f_equal disk Er') as Ed. pose proof (f_equal lru Er') as El. pose proof (f_equal disksize Er') as En.
  cbn in Ed, El, En.
  assert (Hc : caches s' b i) by (unfold caches; rewrite Ei; cbn; auto).
  assert (Hi' : cinv s').
  { apply (cinv_upd s s' i (bufs s' i)); auto; rewrite ?El, ?Ed, ?Ei; cbn; auto.
    - rewrite G5. exact Hr.
    - rewrite G5. exact G8.
    - rewrite G6, G7. reflexivity.
    - rewrite G6. discriminate. }
  assert (Hdirty : bdirty (bufs s1 i) = isdirty s b /\ (forall b0, caches s b0 i -> b0 <> b -> bdirty (bufs s i) = false)).
  { destruct G10 as [(Hcb & _ & Hd & _)|(Hn & Hd0 & Hd & _)].
    - split; [rewrite Hd; symmetry; apply (abs_caches _ _ _ Hi Hcb)|]. intros b0 (_ & _ & Hb0). destruct Hcb as (_ & _ & Hb). congruence.
    - split; [|auto]. rewrite Hd. unfold isdirty. destruct (slot s b) as [j|] eqn:E; [|reflexivity].
      destruct (Hn j). apply slot_caches, E. }
  destruct (abs_caches _ _ _ Hi' Hc) as (V & D & L). rewrite Ei in V, D, L. cbn in V, D, L.
  assert (Hpt : forall b', (b' = b \/ caches s b' i /\ b' <> b) \/
    (view s' b' = view s b' /\ isdirty s' b' = isdirty s b' /\ islocked s' b' = islocked s b')).
  { intros b'. destruct (Z.eq_dec b' b) as [->|Hne]; [auto|].
    destruct (decide (bdev (bufs s i) = 1 /\ blockno (bufs s i) = b')) as [[X Y]|Hn]; [left; right; unfold caches; auto|].
    right. apply (abs_upd s s' i Hi Hi' Eo'); [unfold caches; tauto| |rewrite Ed; reflexivity].
    intros (_ & _ & Hb). rewrite Ei in Hb. cbn in Hb. congruence. }
  assert (Hev : forall b', caches s b' i -> b' <> b ->
    view s' b' = view s b' /\ isdirty s' b' = isdirty s b' /\ islocked s' b' = islocked s b').
  { intros b' Hcb Hne. destruct (abs_caches _ _ _ Hi Hcb) as (V0 & D0 & L0).
    assert (E0 : slot s' b' = None).
    { destruct (slot s' b') as [j|] eqn:E; [|reflexivity]. apply slot_caches in E as (Hj & Hdj & Hbj). exfalso.
      destruct (decide (j = i)) as [->|Hji]; [rewrite Ei in Hbj; cbn in Hbj; congruence|].
      rewrite Eo' in Hdj, Hbj by exact Hji. apply Hji. destruct Hcb as (? & ? & ?). apply (ci_uniq _ Hi); auto. congruence. }
    unfold view at 1, isdirty at 1, islocked at 1. rewrite E0, D0, L0, V0, Ed, G9, (proj2 Hdirty b' Hcb Hne).
    split; [|auto]. destruct (bvalid (bufs s i)) eqn:Ev; [|reflexivity]. destruct Hcb as (H1 & H2 & <-). symmetry.
    apply (ci_clean _ Hi); auto. apply (proj2 Hdirty (blockno (bufs s i))); auto. unfold caches. auto. }
  split; auto; try (rewrite Ei; cbn; auto; rewrite G6; reflexivity).
  - intros b'. destruct (Hpt b') as [[->|[Hcb Hne]]|(H1 & _)]; [exact V|apply Hev; auto|exact H1].
  - intros b'. destruct (Hpt b') as [[->|[Hcb Hne]]|(_ & H1 & _)]; [rewrite D; apply Hdirty|apply Hev; auto|exact H1].
  - intros b'. destruct (Z.eqb_spec b' b) as [->|Hne]; [rewrite L, G6; reflexivity|].
    destruct (Hpt b') as [[->|[Hcb _]]|(_ & _ & H1)]; [congruence|apply Hev; auto|exact H1].
Qed.

(** [iderw] on a buffer that asks for a read. *)
Lemma iderw_read i s : locked (blk (bufs s i)) = true -> bvalid (bufs s i) = false -> bdirty (bufs s i) = false ->
  bdev (bufs s i) = 1 -> blockno (bufs s i) < disksize s ->
  wp (iderw i) (fun _ s' => s' = set_bufs (bufs s') s /\ (forall j, j <> i -> bufs s' j = bufs s j) /\
    bufs s' i = set_bvalid true (set_bdata (disk s (blockno (bufs s i))) (bufs s i))) s.
Proof.
  intros Hl Hv Hd Hdev Hr. unfold iderw, buf_holding, holdingsleep. apply wp_bind, wp_gets. rewrite Hl. cbn [negb].
  apply wp_bind, wp_gets, wp_bind, wp_gets. unfold id. rewrite Hv, Hd, Hdev. cbn [andb negb Z.eqb Pos.eqb].
  case_if; [lia|]. apply wp_bind, wp_bind, wp_gets, wp_modify, wp_modify. cbn. rewrite !fn_insert_eq.
  split; [reflexivity|]. split; [|reflexivity]. intros j Hj. rewrite !fn_insert_ne by congruence. reflexivity.
Qed.

Lemma bread_ok b s : cinv s -> islocked s b = false -> avail s b -> 0 <= b < disksize s ->
  wp (bread pid 1 b) (fun i s' => bread_post b i s s') s.
Proof.
  intros Hi Hl Ha Hr. unfold bread. apply wp_bind. eapply wp_mono; [apply bget_ok; auto|]. intros i s1 G.
  pose proof G as [G1 G2 G3 G4 G5 G6 G7 G8 G9 G10]. apply wp_bind, wp_gets, wp_bind.
  destruct (bvalid (bufs s1 i)) eqn:Ev; cbn [negb].
  - unfold wp, ret. apply (bread_finish b i s s1 s1); auto; [destruct s1; reflexivity|].
    destruct G10 as [(Hc & Hv & _ & Hd)|(_ & _ & _ & Hv)]; [|congruence].
    assert (view s b = bdata (bufs s1 i)) as ->.
    { destruct (abs_caches _ _ _ Hi Hc) as (-> & _). rewrite <- Hv, Hd. reflexivity. }
    destruct (bufs s1 i); cbn in *. rewrite Ev. reflexivity.
  - assert (Hd1 : bdirty (bufs s1 i) = false).
    { destruct G10 as [(Hc & Hv & Hd & _)|(_ & _ & Hd & _)]; [|exact Hd]. rewrite Hd.
      destruct (bdirty (bufs s i)) eqn:E; [|reflexivity]. rewrite (ci_dirty _ Hi i G1) in Hv by auto. congruence. }
    pose proof (f_equal disk G2) as Ed. pose proof (f_equal disksize G2) as En. cbn in Ed, En.
    eapply wp_mono; [apply iderw_read; rewrite ?G6, ?G5, ?En; auto; lia|]. intros u s2 (E2 & O2 & I2).
    unfold wp, ret. apply (bread_finish b i s s1 s2); auto. rewrite I2, G5, Ed. f_equal. f_equal. unfold view.
    destruct (slot s b) as [j|] eqn:Es; [|reflexivity]. apply slot_caches in Es.
    destruct G10 as [(Hc & Hv & _)|(Hn & _)]; [|destruct (Hn j Es)].
    assert (j = i) as ->.
    { destruct Es as (? & ? & ?), Hc as (? & ? & ?). apply (ci_uniq _ Hi); auto. congruence. }
    rewrite <- Hv. reflexivity.
Qed.

(** ** Held buffers *)

(** Buffer [i] caches [b] and is locked by the running process. *)
Definition holds (s : fs) (b : Z) (i : nat) : Prop := caches s b i /\ locked (blk (bufs s i)) = true.

(** The change of a held buffer's content or flags. *)
Record upd_post (b : Z) (i : nat) (d : list Z) (dirty : bool) (s s' : fs) : Prop := mkupd {
  up_inv : cinv s';
  up_holds : holds s' b i;
  up_data : bdata (bufs s' i) = d;
  up_dirt : bdirty (bufs s' i) = dirty;
  up_others : forall j, j <> i -> bufs s' j = bufs s j;
  up_view : forall b', view s' b' = if b' =? b then d else view s b';
  up_dirty : forall b', isdirty s' b' = if b' =? b then dirty else isdirty s b';
  up_locked : forall b', islocked s' b' = islocked s b' }.

Lemma held_upd b i d dirty s s' : cinv s -> holds s b i -> (forall j, j <> i -> bufs s' j = bufs s j) ->
  lru s' = lru s -> disksize s' = disksize s -> (forall b', b' <> b -> disk s' b' = disk s b') ->
  bufs s' i = set_bvalid true (set_bdirty dirty (set_bdata d (bufs s i))) -> upd_post b i d dirty s s'.
Proof.
  intros Hi [(H1 & H2 & H3) Hl] Eo El En Ed Ei.
  assert (Hc' : caches s' b i) by (unfold caches; rewrite Ei; cbn; auto).
  assert (Hi' : cinv s').
  { apply (cinv_upd s s' i (bufs s' i)); auto; rewrite ?El, ?Ei; cbn; auto.
    - intros b'. destruct (Z.eq_dec b' b) as [->|Hne]; auto.
    - apply (ci_range _ Hi); auto.
    - intros j Hj (Hj' & Hd & Hb). apply Hj. apply (ci_uniq _ Hi); auto.
    - apply (ci_ref _ Hi i H1).
    - intros _. rewrite Hl. discriminate. }
  destruct (abs_caches _ _ _ Hi' Hc') as (V & D & L). rewrite Ei in V, D, L. cbn in V, D, L.
  assert (Hoth : forall b', b' <> b -> view s' b' = view s b' /\ isdirty s' b' = isdirty s b' /\ islocked s' b' = islocked s b').
  { intros b' Hne. apply (abs_upd s s' i Hi Hi' Eo); auto.
    - intros (_ & _ & Hb). congruence.
    - intros (_ & _ & Hb). rewrite Ei in Hb. cbn in Hb. congruence. }
  split; auto.
  - split; [exact Hc'|rewrite Ei; exact Hl].
  - rewrite Ei. reflexivity.
  - rewrite Ei. reflexivity.
  - intros b'. destruct (Z.eqb_spec b' b) as [->|Hne]; [exact V|apply Hoth, Hne].
  - intros b'. destruct (Z.eqb_spec b' b) as [->|Hne]; [exact D|apply Hoth, Hne].
  - intros b'. destruct (Z.eq_dec b' b) as [->|Hne]; [|apply Hoth, Hne]. rewrite L. symmetry.
    apply (abs_caches _ _ _ Hi). unfold caches. auto.
Qed.

Lemma held_valid s b i : cinv s -> holds s b i -> bvalid (bufs s i) = true.
Proof. intros Hi [(H1 & _) Hl]. apply (ci_dirty _ Hi); auto. Qed.

(** [b->data = d] *)
Lemma set_data_ok b i d s : cinv s -> holds s b i ->
  wp (updb i (set_bdata d)) (fun _ s' => upd_post b i d (isdirty s b) s s' /\ s' = set_bufs (bufs s') s) s.
Proof.
  intros Hi Hh. pose proof (held_valid _ _ _ Hi Hh) as Hv. pose proof Hh as [Hc _]. apply wp_modify.
  split; [|reflexivity]. apply held_upd; auto.
  - intros j Hj. apply fn_insert_ne. congruence.
  - cbn. rewrite fn_insert_eq. destruct (abs_caches _ _ _ Hi Hc) as (_ & -> & _). destruct (bufs s i); cbn in *.
    rewrite Hv. reflexivity.
Qed.

(** [b->flags |= B_DIRTY] *)
Lemma set_dirty_ok b i s : cinv s -> holds s b i ->
  wp (updb i (set_bdirty true)) (fun _ s' => upd_post b i (bdata (bufs s i)) true s s' /\ s' = set_bufs (bufs s') s) s.
Proof.
  intros Hi Hh. pose proof (held_valid _ _ _ Hi Hh) as Hv. apply wp_modify. split; [|reflexivity]. apply held_upd; auto.
  - intros j Hj. apply fn_insert_ne. congruence.
  - cbn. rewrite fn_insert_eq. destruct (bufs s i); cbn in *. rewrite Hv. reflexivity.
Qed.

(** [bwrite]: the buffer's content goes to the disk. *)
Lemma bwrite_ok b i s : cinv s -> holds s b i ->
  wp (bwrite i) (fun _ s' => upd_post b i (bdata (bufs s i)) false s s' /\
    wtrace s' = (b, bdata (bufs s i)) :: wtrace s /\ disk s' = <[b := bdata (bufs s i)]> (disk s) /\
    disksize s' = disksize s /\ logst s' = logst s /\ sblock s' = sblock s /\ icache s' = icache s) s.
Proof.
  intros Hi Hh. pose proof (held_valid _ _ _ Hi Hh) as Hv. pose proof Hh as [(H1 & H2 & H3) Hl].
  pose proof (ci_range _ Hi i H1 H2) as Hr.
  unfold bwrite, iderw, buf_holding, holdingsleep. apply wp_bind, wp_gets. rewrite Hl. cbn [negb].
  apply wp_bind, wp_modify, wp_bind, wp_gets. cbn [bufs set_bufs]. rewrite fn_insert_eq. cbn [set_bdirty blk]. rewrite Hl.
  cbn [negb]. apply wp_bind, wp_gets, wp_bind, wp_gets. unfold id. cbn [bufs set_bufs disksize]. rewrite fn_insert_eq.
  cbn [bvalid bdirty bdev blockno set_bdirty bdata]. rewrite H2, H3. rewrite andb_false_r. cbn [negb Z.eqb Pos.eqb].
  case_if; [lia|]. apply wp_bind, wp_bind, wp_modify, wp_modify, wp_modify.
  cbn [wtrace disk disksize logst sblock icache set_bufs set_wtrace set_disk]. split; [|auto 10].
  apply held_upd; auto; cbn.
  - intros j Hj. rewrite !fn_insert_ne by congruence. reflexivity.
  - intros b' Hne. apply fn_lookup_insert_ne. congruence.
  - rewrite !fn_insert_eq. destruct (bufs s i); cbn in *. reflexivity.
Qed.

(** [brelse] of a buffer whose content is on disk or recorded in the log. *)
Record brelse_post (b : Z) (i : nat) (s s' : fs) : Prop := mkbrelse {
  re_inv : cinv s';
  re_rest : s' = set_lru (lru s') (set_bufs (bufs s') s);
  re_others : forall j, j <> i -> bufs s' j = bufs s j;
  re_view : forall b', view s' b' = view s b';
  re_dirty : forall b', isdirty s' b' = isdirty s b';
  re_locked : forall b', islocked s' b' = negb (b' =? b) && islocked s b' }.

Lemma move_front_perm (l : list nat) i : NoDup l -> i ∈ l -> i :: filter (fun j => j <> i) l ≡ₚ l.
Proof.
  intros Hnd Hin. apply NoDup_Permutation; [|exact Hnd|].
  - constructor; [|apply NoDup_filter, Hnd]. rewrite list_elem_of_filter. tauto.
  - intros j. rewrite elem_of_cons, list_elem_of_filter. destruct (decide (j = i)) as [->|]; tauto.
Qed.

Lemma brelse_ok b i s : cinv s -> holds s b i -> isdirty s b = true \/ bdata (bufs s i) = disk s b ->
  wp (brelse i) (fun _ s' => brelse_post b i s s') s.
Proof.
  intros Hi Hh Hw. pose proof (held_valid _ _ _ Hi Hh) as Hv. pose proof Hh as [Hc Hl]. pose proof Hc as (H1 & H2 & H3).
  destruct (abs_caches _ _ _ Hi Hc) as (V & D & L). rewrite Hv in V. rewrite Hl in L.
  unfold brelse, buf_holding, holdingsleep. apply wp_bind, wp_gets. rewrite Hl. cbn [negb].
  apply wp_bind, wp_modify, wp_bind, wp_modify, wp_bind, wp_gets. cbn. rewrite !fn_insert_eq. cbn.
  rewrite (ci_ref _ Hi i H1), Hl. cbn. apply wp_modify. set (s' := set_lru _ _).
  assert (Ei : bufs s' i = set_refcnt 0 (set_blk (mksl false 0) (bufs s i)))
    by (cbn; rewrite !fn_insert_eq; reflexivity).
  assert (Eo : forall j, j <> i -> bufs s' j = bufs s j)
    by (intros j Hj; cbn; rewrite !fn_insert_ne by congruence; reflexivity).
  assert (El : lru s' ≡ₚ lru s).
  { apply move_front_perm; [rewrite (ci_lru _ Hi); apply NoDup_seq|apply (lru_elem _ _ Hi), H1]. }
  assert (Hc' : caches s' b i) by (unfold caches; rewrite Ei; cbn; auto).
  assert (Hi' : cinv s').
  { apply (cinv_upd s s' i (bufs s' i)); auto; rewrite ?Ei; cbn; auto.
    - apply (ci_range _ Hi); auto.
    - intros j Hj (Hj' & Hd & Hb). apply Hj. apply (ci_uniq _ Hi); auto.
    - intros Hd _. destruct Hw as [Hw|Hw]; [congruence|]. rewrite H3. exact Hw. }
  destruct (abs_caches _ _ _ Hi' Hc') as (V' & D' & L'). rewrite Ei in V', D', L'. cbn in V', D', L'. rewrite Hv in V'.
  assert (Hoth : forall b', b' <> b -> view s' b' = view s b' /\ isdirty s' b' = isdirty s b' /\ islocked s' b' = islocked s b').
  { intros b' Hne. apply (abs_upd s s' i Hi Hi' Eo); auto.
    - intros (_ & _ & Hb). congruence.
    - intros (_ & _ & Hb). rewrite Ei in Hb. cbn in Hb. congruence. }
  split; auto.
  - intros b'. destruct (Z.eq_dec b' b) as [->|Hne]; [congruence|apply Hoth, Hne].
  - intros b'. destruct (Z.eq_dec b' b) as [->|Hne]; [congruence|apply Hoth, Hne].
  - intros b'. destruct (Z.eqb_spec b' b) as [->|Hne]; [exact L'|apply Hoth, Hne].
Qed.

(** ** Room in the cache *)

(** All buffers that cannot be evicted cache blocks of [l]. *)
Definition pinned_by (s : fs) (l : list Z) : Prop :=
  forall b, isdirty s b = true \/ islocked s b = true -> b ∈ l.

Lemma pinned_avail s l b : cinv s -> pinned_by s l -> (length l < NBUF)%nat -> avail s b.
Proof.
  intros Hi Hp Hl. right.
  destruct (decide (Exists (fun i => refcnt (bufs s i) = 0 /\ bdirty (bufs s i) = false) (seq 0 NBUF))) as [He|Hn].
  { apply Exists_exists in He as (i & Hin & H1 & H2). apply elem_of_seq in Hin. exists i. split; [lia|auto]. }
  exfalso. assert (Hall : forall i, (i < NBUF)%nat -> bdev (bufs s i) = 1 /\ blockno (bufs s i) ∈ l).
  { intros i Hlt. assert (Hpin : bdirty (bufs s i) = true \/ locked (blk (bufs s i)) = true).
    { destruct (bdirty (bufs s i)) eqn:Ed; [auto|right]. destruct (locked (blk (bufs s i))) eqn:El; [reflexivity|].
      destruct Hn. apply Exists_exists. exists i. split; [apply elem_of_seq; lia|].
      rewrite (ci_ref _ Hi i Hlt), El. auto. }
    destruct (Z.eq_dec (bdev (bufs s i)) 1) as [Hd|Hd].
    - split; [exact Hd|]. apply Hp. destruct (abs_caches s (blockno (bufs s i)) i Hi) as (_ & -> & ->); [unfold caches; auto|exact Hpin].
    - destruct (ci_used _ Hi i Hlt Hd). destruct Hpin; congruence. }
  assert (Hnd : NoDup ((fun i => blockno (bufs s i)) <$> seq 0 NBUF)).
  { apply NoDup_fmap_2_strong; [|apply NoDup_seq]. intros i j Hin Hjn Heq. apply elem_of_seq in Hin, Hjn.
    apply (ci_uniq _ Hi); try lia; try (apply Hall; lia). }
  assert (Hsub : (fun i => blockno (bufs s i)) <$> seq 0 NBUF ⊆ l).
  { intros x Hx. apply list_elem_of_fmap in Hx as (i & -> & Hin). apply elem_of_seq in Hin. apply Hall. lia. }
  pose proof (NoDup_submseteq _ _ Hnd Hsub) as Hsm. apply submseteq_length in Hsm. rewrite length_fmap, length_seq in Hsm. lia.
Qed.
End Bread.
