(* ===== verification/LogRules.v ===== *)
(** * The log's disk writes

    Rules for the routines of [src/xv6/log.c]: what each of them writes to the
    disk, in order, and how the writes change the contents of the blocks. *)

From S2P Require Import Prelude Mem Bio Log BioRules.
Local Open Scope Z_scope.

(** ** Sequences of block writes *)

Definition writes : Type := list (Z * list Z).
Fixpoint apply_writes (ws : writes) (f : Z -> list Z) : Z -> list Z :=
  match ws with [] => f | (b, d) :: ws' => apply_writes ws' (<[b := d]> f) end.

Lemma zfn_insert_eq {B} (f : Z -> B) c x : <[c := x]> f c = x.
Proof. apply fn_lookup_insert. Qed.
Lemma zfn_insert_ne {B} (f : Z -> B) c d x : c <> d -> <[c := x]> f d = f d.
Proof. apply fn_lookup_insert_ne. Qed.

Lemma apply_app ws1 ws2 f : apply_writes (ws1 ++ ws2) f = apply_writes ws2 (apply_writes ws1 f).
Proof. revert f. induction ws1 as [|[b d] ws1 IH]; intros f; [reflexivity|apply IH]. Qed.

Lemma apply_other ws f b : b ∉ ws.*1 -> apply_writes ws f b = f b.
Proof.
  revert f. induction ws as [|[c d] ws IH]; intros f Hb; [reflexivity|]. cbn in *.
  rewrite not_elem_of_cons in Hb. destruct Hb. rewrite IH by assumption. apply zfn_insert_ne. congruence.
Qed.

Lemma apply_ext ws f g b : f b = g b -> apply_writes ws f b = apply_writes ws g b.
Proof.
  revert f g. induction ws as [|[c d] ws IH]; intros f g E; [exact E|]. cbn. apply IH.
  destruct (Z.eq_dec c b) as [->|Hc]; [rewrite !zfn_insert_eq|rewrite !zfn_insert_ne by exact Hc]; auto.
Qed.

Lemma apply_in ws f b d : NoDup ws.*1 -> (b, d) ∈ ws -> apply_writes ws f b = d.
Proof.
  revert f. induction ws as [|[c e] ws IH]; intros f Hnd Hin; [set_solver|]. cbn in *.
  apply NoDup_cons in Hnd as [Hc Hnd]. apply elem_of_cons in Hin as [[= <- <-]|Hin]; [|apply IH; auto].
  rewrite apply_other by exact Hc. apply zfn_insert_eq.
Qed.

(** ** What a routine that writes blocks leaves *)

Record wrote (ws : writes) (s s' : fs) : Prop := mkwrote {
  wr_inv : cinv s';
  wr_free : forall b, islocked s' b = false;
  wr_trace : wtrace s' = reverse ws ++ wtrace s;
  wr_disk : forall b, disk s' b = apply_writes ws (disk s) b;
  wr_view : forall b, view s' b = apply_writes ws (view s) b;
  wr_dirty : forall b, isdirty s' b = isdirty s b && negb (bool_decide (b ∈ ws.*1));
  wr_size : disksize s' = disksize s;
  wr_log : logst s' = logst s;
  wr_sb : sblock s' = sblock s;
  wr_icache : icache s' = icache s }.

Lemma wrote_nil s : cinv s -> (forall b, islocked s b = false) -> wrote [] s s.
Proof.
  intros Hi Hl. split; auto. intros b. cbn [fmap list_fmap].
  rewrite bool_decide_eq_false_2 by apply not_elem_of_nil. cbn. rewrite andb_true_r. reflexivity.
Qed.

Lemma wrote_trans ws1 ws2 s s1 s2 : wrote ws1 s s1 -> wrote ws2 s1 s2 -> wrote (ws1 ++ ws2) s s2.
Proof.
  intros A B. split; try apply B; try (etransitivity; [apply B|apply A]).
  - rewrite (wr_trace _ _ _ B), (wr_trace _ _ _ A), reverse_app, app_assoc. reflexivity.
  - intros b. rewrite (wr_disk _ _ _ B), apply_app. apply apply_ext, A.
  - intros b. rewrite (wr_view _ _ _ B), apply_app. apply apply_ext, A.
  - intros b. rewrite (wr_dirty _ _ _ B), (wr_dirty _ _ _ A), fmap_app, <- andb_assoc. f_equal.
    rewrite <- negb_orb, <- bool_decide_or. f_equal. apply bool_decide_ext. symmetry. apply elem_of_app.
Qed.

(** A clean, unlocked block's content is the disk's. *)
Lemma view_clean s b : cinv s -> isdirty s b = false -> islocked s b = false -> view s b = disk s b.
Proof.
  unfold isdirty, islocked, view. intros Hi Hd Hl. destruct (slot s b) as [i|] eqn:E; [|reflexivity].
  apply slot_caches in E as (H1 & H2 & <-). destruct (bvalid (bufs s i)) eqn:Ev; [|reflexivity].
  apply (ci_clean _ Hi); auto.
Qed.

(** The part of the state a routine that only locks buffers leaves alone. *)
Definition beyond_cache (s s' : fs) : Prop :=
  wtrace s' = wtrace s /\ disk s' = disk s /\ disksize s' = disksize s /\ logst s' = logst s /\
  sblock s' = sblock s /\ icache s' = icache s.

Section Rules.
Context (pid : Z).

(** One block held: [*s'] differs from the unlocked state [s] in that [i] holds
    [b] and the held block has content [d]. *)
Record held1 (b : Z) (i : nat) (s s' : fs) : Prop := mkheld1 {
  h1_inv : cinv s';
  h1_holds : holds s' b i;
  h1_data : bdata (bufs s' i) = view s b;
  h1_view : forall b', view s' b' = view s b';
  h1_dirty : forall b', isdirty s' b' = isdirty s b';
  h1_locked : forall b', islocked s' b' = (b' =? b);
  h1_beyond : beyond_cache s s' }.

Lemma bread_held1 b s l : cinv s -> (forall b', islocked s b' = false) -> 0 <= b < disksize s ->
  pinned_by s l -> (length l < NBUF)%nat ->
  wp (bread pid 1 b) (fun i s' => held1 b i s s') s.
Proof.
  intros Hi Hl Hr Hp Hn. eapply wp_mono; [apply bread_ok; auto; apply (pinned_avail s l); auto|].
  intros i s' [B1 B2 B3 B4 B5 B6 B7 B8 B9 B10 B11]. split; auto; [split; auto| |].
  - intros b'. rewrite B9, Hl. apply orb_false_r.
  - rewrite B6. repeat split.
Qed.

(** Two blocks held. *)
Record held2 (b c : Z) (i j : nat) (s s' : fs) : Prop := mkheld2 {
  h2_inv : cinv s';
  h2_holds : holds s' b i;
  h2_holds' : holds s' c j;
  h2_data : bdata (bufs s' i) = view s b;
  h2_data' : bdata (bufs s' j) = view s c;
  h2_view : forall b', view s' b' = view s b';
  h2_dirty : forall b', isdirty s' b' = isdirty s b';
  h2_locked : forall b', islocked s' b' = (b' =? c) || (b' =? b);
  h2_beyond : beyond_cache s s' }.

Lemma holds_other s b c i j : b <> c -> holds s b i -> holds s c j -> i <> j.
Proof. intros Hbc [(_ & _ & H1) _] [(_ & _ & H2) _] ->. congruence. Qed.

Lemma bread_held2 b c i s s1 : held1 b i s s1 -> b <> c -> 0 <= c < disksize s -> avail s1 c ->
  wp (bread pid 1 c) (fun j s' => held2 b c i j s s') s1.
Proof.
  intros [A1 A2 A3 A4 A5 A6 A7] Hbc Hr Ha. pose proof A7 as (_ & _ & En & _).
  eapply wp_mono; [apply bread_ok; auto; [rewrite A6; lia|rewrite En; exact Hr]|].
  intros j s' [B1 B2 B3 B4 B5 B6 B7 B8 B9 B10 B11].
  assert (Hij : i <> j) by (intros ->; destruct A2; congruence).
  pose proof (B11 i Hij) as Ei. split; auto.
  - unfold holds, caches in *. rewrite Ei. exact A2.
  - split; auto.
  - rewrite Ei. exact A3.
  - rewrite B5. apply A4.
  - intros b'. rewrite B7. apply A4.
  - intros b'. rewrite B8. apply A5.
  - intros b'. rewrite B9, A6. reflexivity.
  - rewrite B6. exact A7.
Qed.

Lemma held2_sym b c i j s s' : held2 b c i j s s' -> held2 c b j i s s'.
Proof. intros [A1 A2 A3 A4 A5 A6 A7 A8 A9]. split; auto. intros b'. rewrite A8. apply orb_comm. Qed.

Lemma holds_upd s s' b i : holds s b i -> bufs s' i = bufs s i -> holds s' b i.
Proof. unfold holds, caches. intros Hh ->. exact Hh. Qed.

(** [b->data = d; bwrite(b)] *)
Record put_post (b : Z) (i : nat) (d : list Z) (s s' : fs) : Prop := mkput {
  pu_upd : upd_post b i d false s s';
  pu_trace : wtrace s' = (b, d) :: wtrace s;
  pu_disk : disk s' = <[b := d]> (disk s);
  pu_rest : disksize s' = disksize s /\ logst s' = logst s /\ sblock s' = sblock s /\ icache s' = icache s }.

Lemma put_ok b i d s (k : M fs unit) Q : cinv s -> holds s b i -> (forall s', put_post b i d s s' -> wp k Q s') ->
  wp (updb i (set_bdata d) ;;; bwrite i ;;; k) Q s.
Proof.
  intros Hi Hh HQ. apply wp_bind. eapply wp_mono; [apply (set_data_ok b); auto|]. intros _ s3 [U3 E3].
  apply wp_bind. eapply wp_mono; [apply (bwrite_ok b); apply U3|]. intros _ s4 (U4 & T4 & D4 & N4 & L4 & S4 & I4).
  rewrite (up_data _ _ _ _ _ _ U3) in *. apply HQ. rewrite E3 in T4, D4, N4, L4, S4, I4. cbn in T4, D4, N4, L4, S4, I4.
  split; auto. destruct U3 as [V1 V2 V3 V4 V5 V6 V7 V8], U4 as [W1 W2 W3 W4 W5 W6 W7 W8]. split; auto.
  - intros j Hj. rewrite W5, V5; auto.
  - intros b'. rewrite W6, V6. case_if; reflexivity.
  - intros b'. rewrite W7, V7. case_if; reflexivity.
  - intros b'. rewrite W8, V8. reflexivity.
Qed.

(** [s'] is [s] after the write of [d] to block [b], locks apart. *)
Record puts (b : Z) (d : list Z) (s s' : fs) : Prop := mkputs {
  ps_trace : wtrace s' = (b, d) :: wtrace s;
  ps_disk : disk s' = <[b := d]> (disk s);
  ps_view : forall b', view s' b' = if b' =? b then d else view s b';
  ps_dirty : forall b', isdirty s' b' = if b' =? b then false else isdirty s b';
  ps_rest : disksize s' = disksize s /\ logst s' = logst s /\ sblock s' = sblock s /\ icache s' = icache s }.

Lemma put_puts b i d s s' : put_post b i d s s' -> puts b d s s'.
Proof. intros [U P2 P3 P4]. split; auto; apply U. Qed.

Lemma brelse_beyond b i s s' : brelse_post b i s s' -> beyond_cache s s'.
Proof. intros R. rewrite (re_rest _ _ _ _ R). repeat split. Qed.

Lemma puts_brelse b c i d s s1 s2 : puts b d s s1 -> brelse_post c i s1 s2 -> puts b d s s2.
Proof.
  intros [P1 P2 P3 P4 (P5 & P6 & P7 & P8)] R. destruct (brelse_beyond _ _ _ _ R) as (E1 & E2 & E3 & E4 & E5 & E6).
  split; try congruence.
  - intros b'. rewrite (re_view _ _ _ _ R). apply P3.
  - intros b'. rewrite (re_dirty _ _ _ _ R). apply P4.
  - repeat split; congruence.
Qed.

Lemma puts_same b d s s1 s2 : puts b d s1 s2 -> beyond_cache s s1 -> (forall b, view s1 b = view s b) ->
  (forall b, isdirty s1 b = isdirty s b) -> puts b d s s2.
Proof.
  intros [P1 P2 P3 P4 (P5 & P6 & P7 & P8)] (E1 & E2 & E3 & E4 & E5 & E6) Hv Hd. split; try congruence.
  - intros b'. rewrite P3, Hv. reflexivity.
  - intros b'. rewrite P4, Hd. reflexivity.
  - repeat split; congruence.
Qed.

Lemma puts_wrote b d s s' : puts b d s s' -> cinv s' -> (forall b', islocked s' b' = false) -> wrote [(b, d)] s s'.
Proof.
  intros [P1 P2 P3 P4 (P5 & P6 & P7 & P8)] Hi Hl. split; auto.
  - intros b'. rewrite P2. reflexivity.
  - intros b'. rewrite P3. cbn.
    destruct (Z.eqb_spec b' b) as [->|]; [rewrite zfn_insert_eq|rewrite zfn_insert_ne by congruence]; reflexivity.
  - intros b'. rewrite P4. cbn. destruct (Z.eqb_spec b' b) as [->|Hne].
    + rewrite bool_decide_eq_true_2 by apply list_elem_of_here. symmetry. apply andb_false_r.
    + rewrite bool_decide_eq_false_2 by (rewrite list_elem_of_singleton; exact Hne). symmetry. apply andb_true_r.
Qed.

(** [memmove(dst->data, src->data, BSIZE); bwrite(dst); brelse(src); brelse(dst)] *)
Lemma copy_tail src dst i j s s2 (k : M fs unit) Q : held2 src dst i j s s2 -> src <> dst ->
  cinv s -> (forall b, islocked s b = false) ->
  (forall s', wrote [(dst, view s src)] s s' -> wp k Q s') ->
  wp (d <- getb i bdata ;; updb j (set_bdata d) ;;; bwrite j ;;; brelse i ;;; brelse j ;;; k) Q s2.
Proof.
  intros [A1 A2 A3 A4 A5 A6 A7 A8 A9] Hne Hi Hl HQ. pose proof (holds_other _ _ _ _ _ Hne A2 A3) as Hij.
  apply wp_bind, wp_gets. rewrite A4. apply (put_ok dst); auto. intros s4 P.
  pose proof (puts_same _ _ _ _ _ (put_puts _ _ _ _ _ P) A9 A6 A7) as PS. destruct P as [[U1 U2 U3 U4 U5 U6 U7 U8] _ _ _].
  pose proof (U5 i Hij) as Ei. apply wp_bind. eapply wp_mono; [apply (brelse_ok src); auto|].
  - apply (holds_upd s2); auto.
  - destruct (isdirty s src) eqn:Ed; [left; rewrite (ps_dirty _ _ _ _ PS), Ed; case_if; [congruence|reflexivity]|right].
    rewrite Ei, A4, (ps_disk _ _ _ _ PS), zfn_insert_ne by congruence. apply view_clean; auto.
  - intros [] s5 R. pose proof (re_others _ _ _ _ R j (not_eq_sym Hij)) as Ej.
    apply wp_bind. eapply wp_mono; [apply (brelse_ok dst); [apply R|apply (holds_upd s4); auto|right]|].
    + destruct (brelse_beyond _ _ _ _ R) as (_ & -> & _). rewrite Ej, U3, (ps_disk _ _ _ _ PS), zfn_insert_eq. reflexivity.
    + intros [] s6 R'. apply HQ. apply puts_wrote; [|apply R'|].
      * eapply puts_brelse; [|exact R']. eapply puts_brelse; eauto.
      * intros b. rewrite (re_locked _ _ _ _ R'), (re_locked _ _ _ _ R), U8, A8.
        destruct (b =? dst), (b =? src); reflexivity.
Qed.

(** ** The loops of [write_log] and [install_trans] *)

Definition in_log (l : log) (b : Z) : Prop := lstart l <= b < lstart l + lsize l.

Fixpoint log_writes (start t : Z) (bs : list Z) (v : Z -> list Z) : writes :=
  match bs with [] => [] | b :: bs' => (start + t + 1, v b) :: log_writes start (t + 1) bs' v end.
Fixpoint home_writes (start t : Z) (bs : list Z) (v : Z -> list Z) : writes :=
  match bs with [] => [] | b :: bs' => (b, v (start + t + 1)) :: home_writes start (t + 1) bs' v end.

(** The log lies on the disk and can take blocks [bs] at entry [t]; the cache can
    hold what must stay in it, which are blocks of [all]. *)
Record ready_log (all bs : list Z) (t : Z) (s : fs) : Prop := mkready {
  rl_inv : cinv s;
  rl_free : forall b, islocked s b = false;
  rl_pin : pinned_by s all;
  rl_all : (length all < NBUF)%nat;
  rl_dev : ldev (logst s) = 1;
  rl_lo : 0 <= lstart (logst s);
  rl_hi : lstart (logst s) + lsize (logst s) <= disksize s;
  rl_size : disksize s <= 2 ^ 31;
  rl_t : 0 <= t;
  rl_fit : t + Z.of_nat (length bs) <= lsize (logst s) - 1;
  rl_home : forall b, b ∈ bs -> 0 <= b < disksize s /\ ~ in_log (logst s) b;
  rl_room : (forall b, b ∈ bs -> isdirty s b = true) \/ (S (length all) < NBUF)%nat;
  rl_nodup : NoDup bs }.

Lemma pinned_clean s l b : pinned_by s l -> b ∉ l -> isdirty s b = false.
Proof. intros Hp Hb. destruct (isdirty s b) eqn:E; [|reflexivity]. destruct Hb. apply Hp. auto. Qed.

Lemma pinned_nil s : (forall b, isdirty s b = false) -> (forall b, islocked s b = false) -> pinned_by s [].
Proof. intros H1 H2 b [E|E]; [rewrite H1 in E|rewrite H2 in E]; discriminate. Qed.

Lemma pinned_wrote ws l s s' : wrote ws s s' -> pinned_by s l -> pinned_by s' l.
Proof.
  intros W Hp b [Hd|Hl]; [|rewrite (wr_free _ _ _ W) in Hl; discriminate].
  apply Hp. left. rewrite (wr_dirty _ _ _ W) in Hd. apply andb_true_iff in Hd as [Hd _]. exact Hd.
Qed.

Lemma ready_next all b bs t c d s s' : ready_log all (b :: bs) t s -> wrote [(c, d)] s s' -> c ∉ bs ->
  ready_log all bs (t + 1) s'.
Proof.
  intros [R1 R2 R3 R4 R5 R6 R7 R8 R9 R10 R11 R12 R13] W Hc. cbn [length] in R10.
  split; rewrite ?(wr_log _ _ _ W), ?(wr_size _ _ _ W); try apply W; auto; try lia.
  - eapply pinned_wrote; eauto.
  - intros b' Hb. apply R11. right. exact Hb.
  - destruct R12 as [R12|R12]; [left|right; exact R12]. intros b' Hb. rewrite (wr_dirty _ _ _ W), R12 by (right; exact Hb).
    rewrite bool_decide_eq_false_2; [reflexivity|]. intros Hin. apply list_elem_of_singleton in Hin as ->. contradiction.
  - apply NoDup_cons in R13. apply R13.
Qed.

Lemma dirty_avail s b : isdirty s b = true -> avail s b.
Proof.
  unfold isdirty. destruct (slot s b) as [i|] eqn:E; [|discriminate]. intros _. left. exists i. apply slot_caches, E.
Qed.

Lemma held1_avail all c b i s s1 : held1 c i s s1 -> pinned_by s all ->
  isdirty s b = true \/ (S (length all) < NBUF)%nat -> avail s1 b.
Proof.
  intros [A1 A2 A3 A4 A5 A6 A7] Hp [Hd|Hn]; [apply dirty_avail; rewrite A5; exact Hd|].
  apply (pinned_avail s1 (c :: all)); auto. intros b' [Hd|Hl].
  - right. apply Hp. left. rewrite <- A5. exact Hd.
  - rewrite A6 in Hl. apply Z.eqb_eq in Hl as ->. left.
Qed.

(** The first two reads of either loop: the log block and the home block. *)
Lemma ready_reads all b bs t s (k : nat -> nat -> M fs unit) Q : ready_log all (b :: bs) t s ->
  (forall i j s2, held2 (lstart (logst s) + t + 1) b i j s s2 -> wp (k i j) Q s2) ->
  wp (i <- bread pid (ldev (logst s)) (u32 (lstart (logst s) + t + 1)) ;;
      j <- bread pid (ldev (logst s)) (u32 b) ;; k i j) Q s.
Proof.
  intros [R1 R2 R3 R4 R5 R6 R7 R8 R9 R10 R11 R12 R13] HQ. cbn [length] in R10.
  destruct (R11 b ltac:(left)) as [Hb Hlog]. unfold in_log in Hlog. rewrite R5, !u32_small by lia.
  apply wp_bind. eapply wp_mono; [apply (bread_held1 _ s all); auto; lia|]. intros i s1 A.
  apply wp_bind. eapply wp_mono; [apply (bread_held2 _ b i s s1 A); auto; [lia|]|intros j s2; apply HQ].
  apply (held1_avail all _ _ _ _ _ A R3). destruct R12 as [R12|R12]; [left; apply R12; left|right; exact R12].
Qed.

Lemma wp_getl {A} (f : log -> A) (Q : A -> fs -> Prop) s : Q (f (logst s)) s -> wp (getl f) Q s.
Proof. auto. Qed.

Lemma log_writes_ext start t bs v w : (forall b, b ∈ bs -> v b = w b) -> log_writes start t bs v = log_writes start t bs w.
Proof.
  revert t. induction bs as [|b bs IH]; intros t E; [reflexivity|]. cbn. rewrite (E b) by left.
  f_equal. apply IH. intros c Hc. apply E. right. exact Hc.
Qed.

Lemma home_writes_ext start t bs v w :
  (forall k, t <= k < t + Z.of_nat (length bs) -> v (start + k + 1) = w (start + k + 1)) ->
  home_writes start t bs v = home_writes start t bs w.
Proof.
  revert t. induction bs as [|b bs IH]; intros t E; [reflexivity|]. cbn [home_writes length] in *. rewrite (E t) by lia.
  f_equal. apply IH. intros k Hk. apply E. lia.
Qed.

Lemma write_log_loop_ok all bs : forall t s, ready_log all bs t s ->
  wp (write_log_loop pid bs t) (fun _ s' => wrote (log_writes (lstart (logst s)) t bs (view s)) s s') s.
Proof.
  induction bs as [|b bs IH]; intros t s R; cbn [write_log_loop log_writes].
  - apply wrote_nil; apply R.
  - apply wp_bind, wp_getl. unfold id. apply (ready_reads _ _ _ _ _ _ _ R). intros i j s2 H2.
    assert (Hlog : forall b', b' ∈ b :: bs -> b' <> lstart (logst s) + t + 1).
    { intros b' Hb ->. destruct (rl_home _ _ _ _ R _ Hb) as [_ Hn]. apply Hn. unfold in_log.
      pose proof (rl_t _ _ _ _ R). pose proof (rl_fit _ _ _ _ R) as Hf. cbn [length] in Hf. lia. }
    apply (copy_tail b (lstart (logst s) + t + 1) j i s s2); [apply held2_sym, H2|apply Hlog; left|apply R|apply R|].
    intros s' W. assert (R' : ready_log all bs (t + 1) s').
    { eapply ready_next; eauto. intros Hin. apply (Hlog (lstart (logst s) + t + 1)); [right; exact Hin|reflexivity]. }
    eapply wp_mono; [apply (IH _ _ R')|]. intros [] s'' W'.
    apply (wrote_trans [_] _ _ s'); [exact W|]. rewrite (wr_log _ _ _ W) in W'.
    rewrite (log_writes_ext _ _ _ _ (view s')); [exact W'|]. intros b' Hb. rewrite (wr_view _ _ _ W). symmetry.
    apply apply_other. cbn. rewrite list_elem_of_singleton. apply Hlog. right. exact Hb.
Qed.

Lemma install_loop_ok all bs : forall t s, ready_log all bs t s ->
  wp (install_loop pid bs t) (fun _ s' => wrote (home_writes (lstart (logst s)) t bs (view s)) s s') s.
Proof.
  induction bs as [|b bs IH]; intros t s R; cbn [install_loop home_writes].
  - apply wrote_nil; apply R.
  - apply wp_bind, wp_getl. unfold id. apply (ready_reads _ _ _ _ _ _ _ R). intros i j s2 H2.
    assert (Hlog : forall k, t <= k < t + Z.of_nat (length (b :: bs)) -> lstart (logst s) + k + 1 <> b).
    { intros k Hk E. destruct (rl_home _ _ _ _ R b ltac:(left)) as [_ Hn]. apply Hn. unfold in_log.
      pose proof (rl_t _ _ _ _ R). pose proof (rl_fit _ _ _ _ R) as Hf. lia. }
    apply (copy_tail (lstart (logst s) + t + 1) b i j s s2); [exact H2|apply Hlog; cbn [length]; lia|apply R|apply R|].
    intros s' W. pose proof (rl_nodup _ _ _ _ R) as Hnd. apply NoDup_cons in Hnd as [Hb Hnd].
    assert (R' : ready_log all bs (t + 1) s') by (eapply ready_next; eauto).
    eapply wp_mono; [apply (IH _ _ R')|]. intros [] s'' W'.
    apply (wrote_trans [_] _ _ s'); [exact W|]. rewrite (wr_log _ _ _ W) in W'.
    rewrite (home_writes_ext _ _ _ _ (view s')); [exact W'|]. intros k Hk. rewrite (wr_view _ _ _ W). symmetry.
    apply apply_other. cbn. rewrite list_elem_of_singleton. apply Hlog. cbn [length]. lia.
Qed.

(** [write_head] writes the header block. *)
Lemma write_head_ok all s : cinv s -> (forall b, islocked s b = false) -> pinned_by s all -> (length all < NBUF)%nat ->
  ldev (logst s) = 1 -> 0 <= lstart (logst s) < disksize s -> disksize s <= 2 ^ 31 ->
  wp (write_head pid) (fun _ s' => wrote [(lstart (logst s), enc_head (lh (logst s)) (view s (lstart (logst s))))] s s') s.
Proof.
  intros Hi Hl Hp Hn Hd Hr Hs. unfold write_head. apply wp_bind, wp_getl. unfold id. rewrite Hd, u32_small by lia.
  apply wp_bind. eapply wp_mono; [apply (bread_held1 _ s all); auto|]. intros i s1 [A1 A2 A3 A4 A5 A6 A7].
  apply wp_bind, wp_gets. rewrite A3. apply (put_ok (lstart (logst s))); auto. intros s2 P.
  pose proof (puts_same _ _ _ _ _ (put_puts _ _ _ _ _ P) A7 A4 A5) as PS. destruct P as [[U1 U2 U3 U4 U5 U6 U7 U8] _ _ _].
  eapply wp_mono; [apply (brelse_ok (lstart (logst s))); auto|].
  - right. rewrite U3, (ps_disk _ _ _ _ PS), zfn_insert_eq. reflexivity.
  - intros [] s3 R. apply puts_wrote; [eapply puts_brelse; eauto|apply R|].
    intros b. rewrite (re_locked _ _ _ _ R), U8, A6. destruct (b =? lstart (logst s)); reflexivity.
Qed.

(** A change of the in-memory log. *)
Lemma cinv_logst l s : cinv s -> cinv (set_logst l s).
Proof. intros []. split; auto. Qed.

Lemma wrote_logst l ws s s' : wrote ws s s' -> wrote ws (set_logst l s) (set_logst l s').
Proof. intros [W1 W2 W3 W4 W5 W6 W7 W8 W9 W10]. split; auto using cinv_logst. Qed.

Lemma ready_wrote all bs t ws s s' : ready_log all bs t s -> wrote ws s s' -> (forall b, b ∈ bs -> b ∉ ws.*1) ->
  ready_log all bs t s'.
Proof.
  intros [R1 R2 R3 R4 R5 R6 R7 R8 R9 R10 R11 R12 R13] W Hc.
  split; rewrite ?(wr_log _ _ _ W), ?(wr_size _ _ _ W); try apply W; auto.
  - eapply pinned_wrote; eauto.
  - destruct R12 as [R12|R12]; [left|right; exact R12]. intros b' Hb. rewrite (wr_dirty _ _ _ W), R12 by exact Hb.
    rewrite bool_decide_eq_false_2 by (apply Hc, Hb). reflexivity.
Qed.

(** ** Where the loops write *)

Lemma log_writes_dom start t bs v : (log_writes start t bs v).*1 = seqZ (start + t + 1) (Z.of_nat (length bs)).
Proof.
  revert t. induction bs as [|b bs IH]; intros t; [reflexivity|]. cbn [log_writes length fmap list_fmap].
  change (fmap fst ?l) with (l.*1). rewrite IH. rewrite (seqZ_cons _ (Z.of_nat (S (length bs)))) by lia.
  cbn. f_equal. f_equal; lia.
Qed.

Lemma home_writes_dom start t bs v : (home_writes start t bs v).*1 = bs.
Proof. revert t. induction bs as [|b bs IH]; intros t; cbn; [reflexivity|]. f_equal. apply IH. Qed.

Lemma log_writes_in start t bs v k b : bs !! k = Some b -> (start + t + Z.of_nat k + 1, v b) ∈ log_writes start t bs v.
Proof.
  revert t k. induction bs as [|c bs IH]; intros t [|k] E; try discriminate; cbn in *.
  - injection E as ->. replace (start + t + Z.of_nat 0 + 1) with (start + t + 1) by lia. left.
  - right. replace (start + t + Z.of_nat (S k) + 1) with (start + (t + 1) + Z.of_nat k + 1) by lia. apply IH, E.
Qed.

Lemma log_writes_at start t bs v f k b : bs !! k = Some b ->
  apply_writes (log_writes start t bs v) f (start + t + Z.of_nat k + 1) = v b.
Proof.
  intros E. apply apply_in; [rewrite log_writes_dom; apply NoDup_seqZ|]. apply log_writes_in, E.
Qed.

(** The writes of [install_trans] when the log holds the blocks' contents. *)
Lemma home_writes_log start t bs v w :
  (forall k b, bs !! k = Some b -> v (start + t + Z.of_nat k + 1) = w b) ->
  home_writes start t bs v = (fun b => (b, w b)) <$> bs.
Proof.
  revert t. induction bs as [|b bs IH]; intros t E; [reflexivity|]. cbn. f_equal.
  - f_equal. rewrite <- (E 0%nat b eq_refl). f_equal. lia.
  - apply IH. intros k c Hk. rewrite <- (E (S k) c Hk). f_equal. lia.
Qed.

(** ** [commit] *)

(** What [commit] writes for blocks [bs] with contents [v]: the log, the header,
    the homes, the empty header. *)
Definition commit_head (start : Z) (bs : list Z) (v : Z -> list Z) : list Z := enc_head bs (v start).
Definition commit_writes (start : Z) (bs : list Z) (v : Z -> list Z) : writes :=
  log_writes start 0 bs v ++ [(start, commit_head start bs v)] ++
  ((fun b => (b, v b)) <$> bs) ++ [(start, enc_head [] (commit_head start bs v))].

Lemma ready_head all bs t s : ready_log all bs t s -> 0 <= lstart (logst s) < disksize s.
Proof. intros R. pose proof (rl_lo _ _ _ _ R). pose proof (rl_hi _ _ _ _ R). pose proof (rl_fit _ _ _ _ R). pose proof (rl_t _ _ _ _ R). lia. Qed.

Lemma ready_write_head all bs t s : ready_log all bs t s ->
  wp (write_head pid) (fun _ s' => wrote [(lstart (logst s), enc_head (lh (logst s)) (view s (lstart (logst s))))] s s') s.
Proof. intros R. pose proof (ready_head _ _ _ _ R). apply (write_head_ok all); auto; apply R. Qed.

(** Homes are neither the header nor entries of the log. *)
Lemma home_not_log all bs t s b : ready_log all bs t s -> b ∈ bs ->
  b <> lstart (logst s) /\ b ∉ seqZ (lstart (logst s) + t + 1) (Z.of_nat (length bs)).
Proof.
  intros R Hb. destruct (rl_home _ _ _ _ R b Hb) as [_ Hn]. unfold in_log in Hn.
  pose proof (rl_fit _ _ _ _ R). pose proof (rl_t _ _ _ _ R). rewrite elem_of_seqZ. lia.
Qed.

Lemma log_not_head start n : 0 <= n -> start ∉ seqZ (start + 0 + 1) n.
Proof. rewrite elem_of_seqZ. lia. Qed.

Lemma commit_log_at start bs v k b : bs !! k = Some b ->
  apply_writes (log_writes start 0 bs v ++ [(start, commit_head start bs v)]) v (start + 0 + Z.of_nat k + 1) = v b.
Proof. intros E. rewrite apply_app. cbn. rewrite zfn_insert_ne by lia. apply log_writes_at, E. Qed.

(** [log.lh.n = 0; write_head()] *)
Lemma erase_ok all bs t ws s s3 : ready_log all bs t s -> wrote ws s s3 ->
  wp (updl (set_lh []) ;;; write_head pid) (fun _ s' =>
    wrote (ws ++ [(lstart (logst s), enc_head [] (apply_writes ws (view s) (lstart (logst s))))])
      (set_logst (set_lh [] (logst s)) s) s') s3.
Proof.
  intros R W. apply wp_bind, wp_modify. rewrite (wr_log _ _ _ W). set (l := set_lh [] (logst s)).
  pose proof (wrote_logst l _ _ _ W) as W'. pose proof (ready_head _ _ _ _ R) as Hh.
  eapply wp_mono; [apply (write_head_ok all); [apply W'|apply W'| |apply R|apply R| |]|].
  - apply (pinned_wrote _ _ _ _ W), R.
  - cbn. rewrite (wr_size _ _ _ W). exact Hh.
  - cbn. rewrite (wr_size _ _ _ W). apply R.
  - intros [] s' W2. cbn [logst set_logst] in W2. change (lstart l) with (lstart (logst s)) in W2. change (lh l) with (@nil Z) in W2.
    rewrite (wr_view _ _ _ W') in W2. exact (wrote_trans _ _ _ _ _ W' W2).
Qed.

Lemma commit_ok s : ready_log (lh (logst s)) (lh (logst s)) 0 s -> lh (logst s) <> [] ->
  wp (commit pid) (fun _ s' =>
    wrote (commit_writes (lstart (logst s)) (lh (logst s)) (view s)) (set_logst (set_lh [] (logst s)) s) s') s.
Proof.
  intros R Hne. set (bs := lh (logst s)) in *. set (st := lstart (logst s)) in *.
  unfold commit. apply wp_bind, wp_getl. fold bs. destruct (0 <? Z.of_nat (length bs)) eqn:En;
    [|destruct bs; [congruence|cbn in En; lia]].
  unfold write_log. apply wp_bind, wp_bind, wp_getl. fold bs.
  eapply wp_mono; [apply (write_log_loop_ok bs bs 0 s R)|]. fold st. intros [] s1 W1.
  assert (R1 : ready_log bs bs 0 s1).
  { apply (ready_wrote _ _ _ _ _ _ R W1). intros b Hb. rewrite log_writes_dom. apply (home_not_log _ _ _ _ _ R Hb). }
  apply wp_bind. eapply wp_mono; [apply (ready_write_head _ _ _ _ R1)|]. rewrite (wr_log _ _ _ W1). fold st bs. intros [] s2 W2.
  rewrite (wr_view _ _ _ W1), apply_other in W2 by (rewrite log_writes_dom; apply log_not_head; lia).
  pose proof (wrote_trans _ _ _ _ _ W1 W2) as W12. assert (R2 : ready_log bs bs 0 s2).
  { apply (ready_wrote _ _ _ _ _ _ R1 W2). intros b Hb. cbn. rewrite list_elem_of_singleton. apply (home_not_log _ _ _ _ _ R Hb). }
  unfold install_trans. apply wp_bind, wp_bind, wp_getl. rewrite (wr_log _ _ _ W12). fold bs.
  eapply wp_mono; [apply (install_loop_ok bs bs 0 s2 R2)|]. rewrite (wr_log _ _ _ W12). fold st. intros [] s3 W3.
  rewrite (home_writes_log st 0 bs (view s2) (view s)) in W3
    by (intros k b E; rewrite (wr_view _ _ _ W12); apply commit_log_at, E).
  pose proof (wrote_trans _ _ _ _ _ W12 W3) as W13. rewrite <- app_assoc in W13.
  eapply wp_mono; [apply (erase_ok _ _ _ _ _ _ R W13)|]. fold st bs. intros [] s' W. unfold commit_writes.
  rewrite !app_assoc, !apply_app in W. rewrite !app_assoc. cbn [apply_writes] in W.
  rewrite (apply_other (_ <$> bs)), zfn_insert_eq in W; [exact W|].
  rewrite <- list_fmap_compose. cbn. rewrite list_fmap_id. intros Hin. exact (proj1 (home_not_log _ _ _ _ _ R Hin) eq_refl).
Qed.

(** ** Recovery *)

(** A block read and released. *)
Lemma release1 b i s s1 : cinv s -> (forall b', islocked s b' = false) -> held1 b i s s1 ->
  wp (brelse i) (fun _ s' => wrote [] s s') s1.
Proof.
  intros Hi Hl [A1 A2 A3 A4 A5 A6 A7]. pose proof A7 as (E1 & E2 & E3 & E4 & E5 & E6).
  eapply wp_mono; [apply (brelse_ok b); auto|].
  - rewrite A3, A5, E2. destruct (isdirty s b) eqn:Ed; [auto|right]. apply view_clean; auto.
  - intros [] s2 R. destruct (brelse_beyond _ _ _ _ R) as (F1 & F2 & F3 & F4 & F5 & F6).
    split; cbn; [apply R| |congruence|intros b'; congruence| | |congruence..].
    + intros b'. rewrite (re_locked _ _ _ _ R), A6. destruct (b' =? b); reflexivity.
    + intros b'. rewrite (re_view _ _ _ _ R). apply A4.
    + intros b'. rewrite (re_dirty _ _ _ _ R), A5, bool_decide_eq_false_2 by apply not_elem_of_nil.
      symmetry. apply andb_true_r.
Qed.

Lemma held1_logst l b i s s1 : held1 b i s s1 -> held1 b i (set_logst l s) (set_logst l s1).
Proof.
  intros [A1 A2 A3 A4 A5 A6 (E1 & E2 & E3 & E4 & E5 & E6)]. split; auto using cinv_logst. repeat split; auto.
Qed.

Lemma read_head_ok all s : cinv s -> (forall b', islocked s b' = false) -> pinned_by s all -> (length all < NBUF)%nat ->
  ldev (logst s) = 1 -> 0 <= lstart (logst s) < disksize s -> disksize s <= 2 ^ 31 ->
  wp (read_head pid) (fun _ s' => wrote [] (set_logst (set_lh (dec_head (view s (lstart (logst s)))) (logst s)) s) s') s.
Proof.
  intros Hi Hl Hp Hn Hd Hr Hs. unfold read_head. apply wp_bind, wp_getl. unfold id. rewrite Hd, u32_small by lia.
  apply wp_bind. eapply wp_mono; [apply (bread_held1 _ s all); auto|]. intros i s1 A.
  apply wp_bind, wp_gets. rewrite (h1_data _ _ _ _ A). apply wp_bind, wp_modify.
  destruct (h1_beyond _ _ _ _ A) as (_ & _ & _ & -> & _ & _).
  apply (release1 (lstart (logst s))); [apply cinv_logst, Hi|exact Hl|apply held1_logst, A].
Qed.

(** What recovery writes when the disk is [v]. *)
Definition recovery_writes (start : Z) (v : Z -> list Z) : writes :=
  home_writes start 0 (dec_head (v start)) v ++ [(start, enc_head [] (v start))].

Lemma recover_ok s bs : dec_head (view s (lstart (logst s))) = bs -> ready_log [] bs 0 s ->
  wp (recover_from_log pid) (fun _ s' =>
    wrote (recovery_writes (lstart (logst s)) (view s)) (set_logst (set_lh [] (logst s)) s) s') s.
Proof.
  intros Hbs R. pose proof (ready_head _ _ _ _ R) as Hh. unfold recover_from_log. apply wp_bind.
  eapply wp_mono; [apply (read_head_ok []); auto; apply R|]. rewrite Hbs. set (l := set_lh bs (logst s)). intros [] s1 W1.
  assert (R0 : ready_log [] bs 0 (set_logst l s)) by (destruct R; split; auto using cinv_logst).
  assert (R1 : ready_log [] bs 0 s1) by (apply (ready_wrote _ _ _ _ _ _ R0 W1); intros; apply not_elem_of_nil).
  unfold install_trans. apply wp_bind, wp_bind, wp_getl. rewrite (wr_log _ _ _ W1). cbn [logst set_logst lh l set_lh].
  eapply wp_mono; [apply (install_loop_ok [] bs 0 s1 R1)|]. rewrite (wr_log _ _ _ W1). intros [] s2 W2.
  pose proof (wrote_trans _ _ _ _ _ W1 W2) as W. eapply wp_mono; [apply (erase_ok _ _ _ _ _ _ R0 W)|].
  intros [] s' W'. unfold recovery_writes. rewrite Hbs. cbn in W'.
  rewrite (home_writes_ext _ _ _ _ (view s)) in W' by (intros; apply (wr_view _ _ _ W1)).
  rewrite apply_other in W'; [exact W'|]. rewrite home_writes_dom. intros Hin.
  exact (proj1 (home_not_log _ _ _ _ _ R Hin) eq_refl).
Qed.
End Rules.
