(* ===== verification/LogProps.v ===== *)
(** * Properties of the log

    A commit is atomic with respect to crashes: whatever prefix of its disk
    writes was performed, the recovery of the next boot produces the state before
    the transaction or the state after it. *)

From S2P Require Import Prelude Mem Bio Log BioRules LogRules.
Local Open Scope Z_scope.

(** ** The header block *)

Lemma length_enc_blocks bs : forall d off, length (enc_blocks bs d off) = length d.
Proof. induction bs as [|b bs IH]; intros d off; cbn; [reflexivity|]. rewrite IH. apply length_wr32. Qed.

Lemma enc_blocks_other bs : forall d off off', 0 <= off' -> off' + 4 <= off ->
  rd32 (enc_blocks bs d off) off' = rd32 d off'.
Proof.
  induction bs as [|b bs IH]; intros d off off' H1 H2; cbn; [reflexivity|].
  rewrite IH by lia. apply rd32_wr32_ne; lia.
Qed.

Lemma s32_u32 x : 0 <= x < 2 ^ 31 -> s32 (u32 x) = x.
Proof. intros H. rewrite u32_small by lia. apply s32_small. lia. Qed.

Lemma dec_enc_blocks bs : forall d off, Forall (fun b => 0 <= b < 2 ^ 31) bs -> 0 <= off ->
  off + 4 * Z.of_nat (length bs) <= Z.of_nat (length d) ->
  dec_blocks (length bs) (enc_blocks bs d off) off = bs.
Proof.
  induction bs as [|b bs IH]; intros d off Hb Ho Hl; cbn [dec_blocks enc_blocks length] in *; [reflexivity|].
  apply Forall_cons in Hb as [Hb Hbs]. f_equal.
  - rewrite enc_blocks_other, rd32_wr32 by lia. apply s32_u32, Hb.
  - apply IH; [exact Hbs|lia|rewrite length_wr32; lia].
Qed.

Lemma dec_enc_head bs d : Forall (fun b => 0 <= b < 2 ^ 31) bs ->
  4 + 4 * Z.of_nat (length bs) <= Z.of_nat (length d) < 2 ^ 31 -> dec_head (enc_head bs d) = bs.
Proof.
  intros Hb Hl. unfold dec_head, enc_head. rewrite enc_blocks_other, rd32_wr32, s32_u32 by lia.
  rewrite Nat2Z.id. apply dec_enc_blocks; [exact Hb|lia|rewrite length_wr32; lia].
Qed.

(** ** Booting *)

(** The memory of a machine that starts with disk [d] of [n] blocks. *)
Definition buf0 : buf := mkbuf false false 0 0 (mksl false 0) 0 (replicate 512 0).
Definition boot_fs (d : Z -> list Z) (n : Z) : fs :=
  mkfs d n [] (fun _ => buf0) [] (mklog 0 0 0 false 0 []) (mksb 0 0 0 0 0 0 0)
    (fun _ => mkinode 0 0 0 (mksl false 0) false 0 0 0 0 0 (replicate 13 0)).

Lemma binit_loop_ok n : forall i s, (forall j, bufs s j = buf0) ->
  wp (binit_loop n i) (fun _ s' => (forall j, bufs s' j = buf0) /\ lru s' = reverse (seq i n) ++ lru s /\
    s' = set_lru (lru s') (set_bufs (bufs s') s)) s.
Proof.
  induction n as [|n IH]; intros i s Hb; cbn [binit_loop].
  - split; [exact Hb|]. split; [reflexivity|]. destruct s; reflexivity.
  - apply wp_bind, wp_modify, wp_bind, wp_modify. eapply wp_mono; [apply IH|].
    + intros j. cbn. fn_at i j; [rewrite Hb; reflexivity|apply Hb].
    + intros [] s' (H1 & H2 & H3). split; [exact H1|]. split; [|rewrite H3; reflexivity].
      rewrite H2. cbn [lru set_lru set_bufs seq]. rewrite reverse_cons, <- app_assoc. reflexivity.
Qed.

Record booted_fs (d : Z -> list Z) (n : Z) (s : fs) : Prop := mkbooted {
  bf_inv : cinv s;
  bf_free : forall b, islocked s b = false;
  bf_clean : forall b, isdirty s b = false;
  bf_view : forall b, view s b = d b;
  bf_disk : disk s = d;
  bf_size : disksize s = n }.

Lemma binit_ok d n : wp binit (fun _ s => booted_fs d n s) (boot_fs d n).
Proof.
  unfold binit. apply wp_bind, wp_modify. eapply wp_mono; [apply binit_loop_ok; reflexivity|].
  intros [] s (H1 & H2 & H3). assert (Hs : forall b, slot s b = None).
  { intros b. destruct (slot s b) as [i|] eqn:E; [|reflexivity]. apply slot_caches in E as (_ & E & _).
    rewrite H1 in E. discriminate. }
  pose proof (f_equal disk H3) as Ed. pose proof (f_equal disksize H3) as En. cbn in Ed, En.
  split; auto; try (intros b; unfold islocked, isdirty, view; rewrite Hs; congruence).
  split; [rewrite H2; cbn [lru set_lru]; rewrite app_nil_r; apply reverse_Permutation|..].
  all: intros i; rewrite H1; cbn; try discriminate; auto.
  intros _ [?|?]; discriminate.
Qed.

(** ** Recovery at boot *)

(** A disk whose superblock places the log at [start], of [size] blocks, with a
    header naming blocks outside it. *)
Record log_disk (start size : Z) (d : Z -> list Z) (n : Z) : Prop := mklogdisk {
  ld_start : s32 (sb_logstart (decode_sb (d 1))) = start;
  ld_size : s32 (sb_nlog (decode_sb (d 1))) = size;
  ld_lo : 0 <= start;
  ld_hi : start + size <= n;
  ld_n : 1 < n <= 2 ^ 31;
  ld_fit : Z.of_nat (length (dec_head (d start))) <= size - 1;
  ld_home : forall b, b ∈ dec_head (d start) -> 0 <= b < n /\ ~ (start <= b < start + size);
  ld_nodup : NoDup (dec_head (d start)) }.

Lemma readsb_ok pid s : cinv s -> (forall b, islocked s b = false) -> (forall b, isdirty s b = false) -> 1 < disksize s ->
  wp (readsb pid 1) (fun sb s' => sb = decode_sb (view s 1) /\ wrote [] s s') s.
Proof.
  intros Hi Hl Hc Hn. unfold readsb. apply wp_bind.
  eapply wp_mono; [apply (bread_held1 pid 1 s []); auto; [lia| |unfold NBUF; cbn; lia]|].
  - intros b [Hd|Hd]; [rewrite Hc in Hd|rewrite Hl in Hd]; discriminate.
  - intros i s1 A. apply wp_bind, wp_gets. rewrite (h1_data _ _ _ _ A). apply wp_bind.
    eapply wp_mono; [apply (release1 1 i s); auto|]. intros [] s' W. split; [reflexivity|exact W].
Qed.

Lemma recovery_writes_ext start v w : (forall b, v b = w b) -> recovery_writes start v = recovery_writes start w.
Proof.
  intros E. unfold recovery_writes. rewrite (E start). f_equal. apply home_writes_ext. intros k _. apply E.
Qed.

Lemma boot_recovers pid start size d n : log_disk start size d n ->
  wp (binit ;;; initlog pid 1) (fun _ s' =>
    (forall b, disk s' b = apply_writes (recovery_writes start d) d b) /\ (forall b, view s' b = disk s' b) /\
    logst s' = mklog start size 0 false 1 [] /\ cinv s' /\
    (forall b, islocked s' b = false /\ isdirty s' b = false)) (boot_fs d n).
Proof.
  intros [D1 D2 D3 D4 D5 D6 D7 D8]. apply wp_bind.
  assert (Hlog : wlp binit (fun _ s => logst s = mklog 0 0 0 false 0 []) (boot_fs d n)) by (vm_compute; reflexivity).
  eapply wp_mono; [apply wp_and; [apply binit_ok|exact Hlog]|]. intros [] s0 [[B1 B2 B3 B4 B5 B6] Hl0].
  unfold initlog. apply wp_bind. eapply wp_mono; [apply readsb_ok; auto; lia|]. intros sb s1 [-> W1].
  rewrite B4. apply wp_bind, wp_modify. rewrite (wr_log _ _ _ W1), Hl0, D1, D2. set (l := mklog start size 0 false 1 []).
  match goal with |- wp _ _ (set_logst ?x s1) => change x with l end. pose proof (wrote_logst l _ _ _ W1) as W1'.
  assert (Hd1 : forall b, isdirty (set_logst l s1) b = false) by (intros b; rewrite (wr_dirty _ _ _ W1'); cbn; apply andb_false_iff; left; apply B3).
  assert (Hv1 : forall b, view (set_logst l s1) b = d b) by (intros b; rewrite (wr_view _ _ _ W1'); apply B4).
  assert (Hk1 : forall b, disk (set_logst l s1) b = d b) by (intros b; rewrite (wr_disk _ _ _ W1'); cbn; rewrite B5; reflexivity).
  pose proof (wr_size _ _ _ W1') as Hn1. change (disksize (set_logst l s0)) with (disksize s0) in Hn1. rewrite B6 in Hn1.
  assert (R : ready_log [] (dec_head (d start)) 0 (set_logst l s1)).
  { split; try apply W1'; rewrite ?Hn1; unfold NBUF; cbn; auto; try lia.
    intros b [Hd|Hd]; [rewrite Hd1 in Hd|rewrite (wr_free _ _ _ W1') in Hd]; discriminate. }
  eapply wp_mono; [apply (recover_ok pid _ (dec_head (d start))); [rewrite Hv1; reflexivity|exact R]|].
  intros [] s' W. change (logst (set_logst l s1)) with l in W. change (lstart l) with start in W.
  rewrite (recovery_writes_ext _ _ d) in W by exact Hv1. set (ws := recovery_writes start d) in *.
  assert (Hk : forall b, disk s' b = apply_writes ws d b) by (intros b; rewrite (wr_disk _ _ _ W); apply apply_ext, Hk1).
  split; [exact Hk|]. split; [|split; [apply W|split; [apply W|]]].
  - intros b. rewrite Hk, (wr_view _ _ _ W). apply apply_ext, Hv1.
  - intros b. split; [apply W|]. rewrite (wr_dirty _ _ _ W). apply andb_false_iff. left. apply Hd1.
Qed.

(** ** Crashes during a commit *)

(** The state in which [commit] starts: the transaction's blocks are those dirty
    in the cache, the log on the disk is empty. *)
Record committable (s : fs) : Prop := mkcommittable {
  cm_ready : ready_log (lh (logst s)) (lh (logst s)) 0 s;
  cm_start : s32 (sb_logstart (decode_sb (disk s 1))) = lstart (logst s);
  cm_size : s32 (sb_nlog (decode_sb (disk s 1))) = lsize (logst s);
  cm_sb : ~ in_log (logst s) 1 /\ 1 ∉ lh (logst s) /\ 1 < disksize s;
  cm_head : dec_head (disk s (lstart (logst s))) = [];
  cm_block : length (disk s (lstart (logst s))) = 512%nat }.

Section Crash.
Context (st sz : Z) (bs : list Z) (D v : Z -> list Z).
Hypothesis Hnd : NoDup bs.
Hypothesis Hfit : Z.of_nat (length bs) <= sz - 1.
Hypothesis Hhome : forall b, b ∈ bs -> ~ (st <= b < st + sz).
Hypothesis Hclean : forall b, b ∉ bs -> v b = D b.

Let head := commit_head st bs v.
Let logw := log_writes st 0 bs v.
Let homew := (fun b => (b, v b)) <$> bs.
Let ws := commit_writes st bs v.

Lemma homew_dom : homew.*1 = bs.
Proof. unfold homew. rewrite <- list_fmap_compose. apply list_fmap_id. Qed.

Lemma length_logw : length logw = length bs.
Proof.
  unfold logw. rewrite <- (length_fmap fst), log_writes_dom, length_seqZ. lia.
Qed.

Lemma logw_other b f : ~ (st < b < st + sz) -> apply_writes logw f b = f b.
Proof. intros Hb. apply apply_other. unfold logw. rewrite log_writes_dom, elem_of_seqZ. lia. Qed.

(** The disk after the first [k] writes. *)
Definition crash (k : nat) : Z -> list Z := apply_writes (take k ws) D.

(** Before the header is written, nothing has happened outside the log. *)
Lemma crash_before k b : (k <= length bs)%nat -> ~ (st < b < st + sz) -> crash k b = D b.
Proof.
  intros Hk Hb. unfold crash, ws, commit_writes. fold logw. rewrite take_app_le by (rewrite length_logw; lia).
  apply apply_other. intros Hin. assert (Hin' : b ∈ logw.*1).
  { rewrite fmap_take in Hin. apply elem_of_take in Hin as (i & Hi & _). apply list_elem_of_lookup_2 in Hi. exact Hi. }
  unfold logw in Hin'. rewrite log_writes_dom, elem_of_seqZ in Hin'. lia.
Qed.

Lemma take_ws j : (j <= length bs)%nat ->
  take (length bs + S j) ws = logw ++ (st, head) :: take j homew.
Proof.
  intros Hj. unfold ws, commit_writes. fold logw head homew. rewrite <- length_logw, take_app_add. cbn [take app]. f_equal. f_equal.
  apply take_app_le. unfold homew. rewrite length_fmap. exact Hj.
Qed.

Lemma take_homew j b : b ∉ bs -> b ∉ (take j homew).*1.
Proof.
  intros Hb Hin. apply Hb. rewrite fmap_take, homew_dom in Hin. apply elem_of_take in Hin as (i & Hi & _).
  apply list_elem_of_lookup_2 in Hi. exact Hi.
Qed.

Lemma st_home : st ∉ bs.
Proof. intros Hin. apply (Hhome _ Hin). lia. Qed.

(** Between the header and the end: the header names the blocks, the log holds
    their contents, and other blocks are untouched. *)
Lemma crash_middle j : (j <= length bs)%nat ->
  crash (length bs + S j) st = head /\
  (forall k b, bs !! k = Some b -> crash (length bs + S j) (st + 0 + Z.of_nat k + 1) = v b) /\
  (forall b, b ∉ bs -> ~ (st <= b < st + sz) -> crash (length bs + S j) b = D b).
Proof.
  intros Hj. unfold crash. rewrite take_ws by exact Hj. rewrite apply_app. cbn [apply_writes]. split; [|split].
  - rewrite apply_other by (apply take_homew, st_home). apply zfn_insert_eq.
  - intros k b E. rewrite apply_other, zfn_insert_ne by (lia || (apply take_homew; intros Hin; apply (Hhome _ Hin);
      pose proof (lookup_lt_Some _ _ _ E); lia)). unfold logw. apply log_writes_at, E.
  - intros b Hb Hl. rewrite apply_other by (apply take_homew, Hb). rewrite zfn_insert_ne by lia. apply logw_other. lia.
Qed.

(** At the end every block outside the log has its new content. *)
Lemma crash_after k : (length bs + S (length bs) < k)%nat ->
  crash k st = enc_head [] head /\ forall b, ~ (st <= b < st + sz) -> crash k b = v b.
Proof.
  intros Hk. unfold crash. rewrite take_ge.
  - unfold ws, commit_writes. fold logw head homew. rewrite !apply_app. cbn [apply_writes]. split; [apply zfn_insert_eq|].
    intros b Hb. rewrite zfn_insert_ne by lia. destruct (decide (b ∈ bs)) as [Hin|Hn].
    + apply apply_in; [rewrite homew_dom; exact Hnd|]. apply list_elem_of_fmap. eauto.
    + rewrite apply_other by (rewrite homew_dom; exact Hn). rewrite zfn_insert_ne by lia.
      rewrite logw_other by lia. symmetry. apply Hclean, Hn.
  - unfold ws, commit_writes. fold logw. rewrite !length_app, length_logw, length_fmap. cbn. lia.
Qed.

Hypothesis Hold : dec_head (D st) = [].
Hypothesis Hhead : dec_head head = bs.
Hypothesis Hnil : dec_head (enc_head [] head) = [].

Lemma recovery_nil d b : dec_head (d st) = [] -> b <> st -> apply_writes (recovery_writes st d) d b = d b.
Proof. intros E Hb. unfold recovery_writes. rewrite E. cbn. apply zfn_insert_ne. congruence. Qed.

(** The header found after a crash. *)
Lemma crash_head k : dec_head (crash k st) = [] \/ dec_head (crash k st) = bs.
Proof.
  destruct (le_lt_dec k (length bs)) as [Hk|Hk]; [left; rewrite crash_before by lia; exact Hold|].
  destruct (le_lt_dec k (length bs + S (length bs))) as [Hk'|Hk'].
  - right. replace k with (length bs + S (k - S (length bs)))%nat by lia.
    destruct (crash_middle (k - S (length bs))) as (-> & _); [lia|exact Hhead].
  - left. destruct (crash_after k Hk') as [-> _]. exact Hnil.
Qed.

(** Recovery turns every crash state into the old or the new one. *)
Lemma crash_recovered k b : ~ (st <= b < st + sz) ->
  apply_writes (recovery_writes st (crash k)) (crash k) b = if (k <=? length bs)%nat then D b else v b.
Proof.
  intros Hb. destruct (Nat.leb_spec k (length bs)) as [Hk|Hk].
  - rewrite recovery_nil, crash_before by (rewrite ?crash_before by lia; auto; lia). reflexivity.
  - destruct (le_lt_dec k (length bs + S (length bs))) as [Hk'|Hk'].
    + replace k with (length bs + S (k - S (length bs)))%nat by lia. set (j := (k - S (length bs))%nat).
      destruct (crash_middle j) as (H1 & H2 & H3); [unfold j; lia|]. unfold recovery_writes. rewrite H1, Hhead.
      rewrite (home_writes_log st 0 bs _ v H2), apply_app. cbn [apply_writes]. rewrite zfn_insert_ne by lia.
      fold homew. destruct (decide (b ∈ bs)) as [Hin|Hn].
      * apply apply_in; [rewrite homew_dom; exact Hnd|]. apply list_elem_of_fmap. eauto.
      * rewrite apply_other by (rewrite homew_dom; exact Hn). rewrite H3 by auto. symmetry. apply Hclean, Hn.
    + destruct (crash_after k Hk') as [H1 H2]. rewrite recovery_nil by (rewrite ?H1; auto; lia). apply H2, Hb.
Qed.

Lemma crash_untouched k b : b ∉ bs -> ~ (st <= b < st + sz) -> crash k b = D b.
Proof.
  intros Hn Hb. destruct (le_lt_dec k (length bs)) as [Hk|Hk]; [apply crash_before; lia|].
  destruct (le_lt_dec k (length bs + S (length bs))) as [Hk'|Hk'].
  - replace k with (length bs + S (k - S (length bs)))%nat by lia. apply crash_middle; auto. lia.
  - destruct (crash_after k Hk') as [_ ->]; auto.
Qed.

Lemma length_crash_head k : length (D st) = 512%nat -> length head = 512%nat -> length (crash k st) = 512%nat.
Proof.
  intros H1 H2. destruct (le_lt_dec k (length bs)) as [Hk|Hk]; [rewrite crash_before by lia; exact H1|].
  destruct (le_lt_dec k (length bs + S (length bs))) as [Hk'|Hk'].
  - replace k with (length bs + S (k - S (length bs)))%nat by lia.
    destruct (crash_middle (k - S (length bs))) as (-> & _); [lia|exact H2].
  - destruct (crash_after k Hk') as [-> _]. unfold enc_head. rewrite length_enc_blocks, length_wr32. exact H2.
Qed.

(** Every crash state is a disk the boot can recover from. *)
Lemma crash_log_disk k n : s32 (sb_logstart (decode_sb (D 1))) = st -> s32 (sb_nlog (decode_sb (D 1))) = sz ->
  1 ∉ bs -> ~ (st <= 1 < st + sz) -> 0 <= st -> st + sz <= n -> 1 < n <= 2 ^ 31 -> (forall b, b ∈ bs -> 0 <= b < n) ->
  log_disk st sz (crash k) n.
Proof.
  intros S1 S2 H1 H1' Hlo Hhi Hn Hr. assert (E1 : crash k 1 = D 1) by (apply crash_untouched; auto).
  destruct (crash_head k) as [E|E]; split; rewrite ?E1, ?E; auto; cbn; try lia.
  - intros b Hin. apply elem_of_nil in Hin. contradiction.
  - constructor.
Qed.
End Crash.

Lemma length_commit_writes st bs v : length (commit_writes st bs v) = (2 * length bs + 2)%nat.
Proof.
  unfold commit_writes. rewrite !length_app, length_fmap, <- (length_fmap fst (log_writes _ _ _ _)), log_writes_dom, length_seqZ.
  cbn. lia.
Qed.

Lemma committable_clean s b : committable s -> b ∉ lh (logst s) -> view s b = disk s b.
Proof.
  intros [R _ _ _ _ _] Hb. apply view_clean; try apply R. apply (pinned_clean s (lh (logst s))); [apply R|exact Hb].
Qed.

Lemma committable_heads s : committable s -> let h := commit_head (lstart (logst s)) (lh (logst s)) (view s) in
  length h = 512%nat /\ dec_head h = lh (logst s) /\ dec_head (enc_head [] h) = [].
Proof.
  intros C h. pose proof C as [R _ _ _ _ Hlen].
  assert (Hst : lstart (logst s) ∉ lh (logst s)) by (intros Hin; exact (proj1 (home_not_log _ _ _ _ _ R Hin) eq_refl)).
  assert (Hh : length h = 512%nat).
  { unfold h, commit_head, enc_head. rewrite length_enc_blocks, length_wr32, (committable_clean s _ C Hst). exact Hlen. }
  split; [exact Hh|]. split.
  - unfold h, commit_head. apply dec_enc_head.
    + apply Forall_forall. intros b Hb. pose proof (rl_size _ _ _ _ R). destruct (rl_home _ _ _ _ R b Hb). lia.
    + rewrite (committable_clean s _ C Hst), Hlen. pose proof (rl_all _ _ _ _ R) as Hn. unfold NBUF in Hn. lia.
  - apply dec_enc_head; [constructor|]. rewrite Hh. cbn. lia.
Qed.

(** The disk after the first [k] writes of a commit, recovered by the next boot. *)
Lemma crash_boot pid s k : committable s ->
  wp (binit ;;; initlog pid 1) (fun _ s' =>
      lh (logst s') = [] /\ dec_head (disk s' (lstart (logst s))) = [] /\
      forall b, ~ in_log (logst s) b -> view s' b = disk s' b /\
        disk s' b = if (k <=? length (lh (logst s)))%nat then disk s b else view s b)
    (boot_fs (crash (lstart (logst s)) (lh (logst s)) (disk s) (view s) k) (disksize s)).
Proof.
  intros C. destruct (committable_heads s C) as (Hh1 & Hh2 & Hh3). pose proof C as [R C1 C2 (C3 & C4 & C5) C6 C7].
  assert (Hcl : forall b, b ∉ lh (logst s) -> view s b = disk s b) by (intros b; apply committable_clean, C).
  assert (Hho : forall b, b ∈ lh (logst s) -> ~ in_log (logst s) b) by (intros b Hb; apply (rl_home _ _ _ _ R b Hb)).
  eapply wp_mono; [apply (boot_recovers pid (lstart (logst s)) (lsize (logst s)))|].
  - pose proof (rl_size _ _ _ _ R). apply crash_log_disk; auto; try apply R; lia.
  - intros [] s' (H1 & H2 & H3 & _). rewrite H3. split; [reflexivity|]. split.
    + rewrite H1. unfold recovery_writes. rewrite apply_app. cbn [apply_writes]. rewrite zfn_insert_eq.
      apply dec_enc_head; [constructor|]. rewrite (length_crash_head _ (lsize (logst s))); auto; try apply R. cbn. lia.
    + intros b Hb. split; [apply H2|]. rewrite H1. apply (crash_recovered _ (lsize (logst s))); auto; apply R.
Qed.

(** ** Transactions *)

(** Inside a transaction that has logged blocks [bs]: exactly those are dirty. *)
Record in_trans (bs : list Z) (s : fs) : Prop := mkintrans {
  it_ready : ready_log bs bs 0 s;
  it_lh : lh (logst s) = bs;
  it_dirty : forall b, b ∈ bs -> isdirty s b = true;
  it_open : outstanding (logst s) = 1;
  it_idle : committing (logst s) = false }.

(** [log_write] records the held block once and marks it. *)
Lemma log_write_ok b i s : cinv s -> holds s b i -> Z.of_nat (length (lh (logst s))) < lsize (logst s) - 1 ->
  Z.of_nat (length (lh (logst s))) < LOGSIZE -> 1 <= outstanding (logst s) ->
  wp (log_write i) (fun _ s' => upd_post b i (bdata (bufs s i)) true s s' /\
    s' = set_logst (set_lh (if bool_decide (b ∈ lh (logst s)) then lh (logst s) else lh (logst s) ++ [b]) (logst s))
      (set_bufs (bufs s') s)) s.
Proof.
  intros Hi Hh H1 H2 H3. pose proof Hh as [(_ & _ & Hb) _]. unfold log_write. apply wp_bind, wp_getl. unfold id.
  destruct (_ || _) eqn:E1; zbool; [lia|]. destruct (outstanding _ <? 1) eqn:E2; zbool; [lia|].
  apply wp_bind, wp_gets. rewrite Hb. apply wp_bind. case_bool_decide as Hin.
  - apply wp_pure. eapply wp_mono; [apply (set_dirty_ok b); auto|]. intros [] s' [U E]. split; [exact U|]. rewrite E at 1.
    destruct s as [? ? ? ? ? [] ? ?]; reflexivity.
  - apply wp_modify. set (s1 := set_logst _ s). eapply wp_mono; [apply (set_dirty_ok b i s1); [apply cinv_logst, Hi|exact Hh]|].
    intros [] s' [U E]. split; [|exact E]. destruct U as [U1 U2 U3 U4 U5 U6 U7 U8]. split; auto.
Qed.
(** The transaction's invariant when block [b] is added. *)
Lemma trans_grow bs b s s' : ready_log bs bs 0 s -> (forall b', b' ∈ bs -> isdirty s b' = true) ->
  outstanding (logst s) = 1 -> committing (logst s) = false ->
  0 <= b < disksize s -> ~ in_log (logst s) b ->
  Z.of_nat (length bs) < lsize (logst s) - 1 -> (S (length bs) < NBUF)%nat ->
  cinv s' -> (forall b', islocked s' b' = false) -> (forall b', isdirty s' b' = (b' =? b) || isdirty s b') ->
  disksize s' = disksize s -> logst s' = set_lh (if bool_decide (b ∈ bs) then bs else bs ++ [b]) (logst s) ->
  in_trans (if bool_decide (b ∈ bs) then bs else bs ++ [b]) s'.
Proof.
  intros [R1 R2 R3 R4 R5 R6 R7 R8 R9 R10 R11 R12 R13] Hbs Eo Ec Hr Hlog Hf Hn Hi Hl Hd En El.
  set (bs' := if bool_decide _ then _ else _) in *.
  assert (Hin : forall b', b' ∈ bs' <-> b' = b \/ b' ∈ bs).
  { intros b'. unfold bs'. case_bool_decide; [split; [auto|intros [->|]; auto]|]. rewrite elem_of_app, list_elem_of_singleton. tauto. }
  assert (Hlen : (length bs' <= S (length bs))%nat) by (unfold bs'; case_bool_decide; rewrite ?length_app; cbn; lia).
  assert (Hdirty : forall b', isdirty s' b' = true <-> b' = b \/ isdirty s b' = true).
  { intros b'. rewrite Hd, orb_true_iff, Z.eqb_eq. reflexivity. }
  assert (Hall : forall b', b' ∈ bs' -> isdirty s' b' = true).
  { intros b' Hb. apply Hdirty. apply Hin in Hb as [->|Hb]; auto. }
  split; [split|..]; rewrite ?El, ?En; auto; cbn; try lia.
  - intros b' [Hb|Hb]; [|rewrite Hl in Hb; discriminate]. apply Hin. apply Hdirty in Hb as [->|Hb]; [auto|].
    right. apply R3. auto.
  - intros b' Hb. apply Hin in Hb as [->|Hb]; [auto|apply R11, Hb].
  - unfold bs'. case_bool_decide; [exact R13|]. apply NoDup_app. split; [exact R13|]. split; [|apply NoDup_singleton].
    intros x Hx Hx'. apply list_elem_of_singleton in Hx' as ->. contradiction.
Qed.

(** What a logged write of [d] to block [b] leaves: the block's content changes, and
    only the log knows. *)
Definition logged (bs : list Z) (b : Z) (d : list Z) (s s' : fs) : Prop :=
  in_trans (if bool_decide (b ∈ bs) then bs else bs ++ [b]) s' /\
  (forall b', view s' b' = if b' =? b then d else view s b') /\
  beyond_cache s (set_logst (logst s) s') /\ set_lh [] (logst s') = set_lh [] (logst s).

(** The transaction has room for one more block. *)
Definition room (bs : list Z) (s : fs) : Prop :=
  Z.of_nat (length bs) < lsize (logst s) - 1 /\ (S (length bs) < NBUF)%nat /\ Z.of_nat (length bs) < LOGSIZE.

(** [b->data = d; log_write(b); brelse(b)] on a held block. *)
Lemma log_tail_ok bs b i d s s1 : in_trans bs s -> held1 b i s s1 -> 0 <= b < disksize s -> ~ in_log (logst s) b ->
  room bs s -> wp (updb i (set_bdata d) ;;; log_write i ;;; brelse i) (fun _ s' => logged bs b d s s') s1.
Proof.
  intros [R Elh Hbs Eo Ec] [A1 A2 A3 A4 A5 A6 A7] Hr Hlog (Hfit & Hn & Hmax).
  apply wp_bind. eapply wp_mono; [apply (set_data_ok b); auto|]. intros [] s2 [U2 E2].
  assert (El2 : logst s2 = logst s) by (rewrite E2; apply A7).
  apply wp_bind. eapply wp_mono; [apply (log_write_ok b); try apply U2; rewrite El2; try rewrite Elh; auto; lia|].
  rewrite El2, Elh. set (bs' := if bool_decide _ then _ else _). intros [] s3 [U3 E3].
  assert (Hv : forall b', view s3 b' = if b' =? b then d else view s b').
  { intros b'. rewrite (up_view _ _ _ _ _ _ U3), (up_view _ _ _ _ _ _ U2), (up_data _ _ _ _ _ _ U2), A4.
    destruct (b' =? b); reflexivity. }
  assert (Hd : forall b', isdirty s3 b' = (b' =? b) || isdirty s b').
  { intros b'. rewrite (up_dirty _ _ _ _ _ _ U3), (up_dirty _ _ _ _ _ _ U2). destruct (b' =? b); [reflexivity|apply A5]. }
  assert (Hl : forall b', islocked s3 b' = (b' =? b)).
  { intros b'. rewrite (up_locked _ _ _ _ _ _ U3), (up_locked _ _ _ _ _ _ U2). apply A6. }
  assert (Hb3 : beyond_cache s (set_logst (logst s) s3) /\ logst s3 = set_lh bs' (logst s)).
  { rewrite E3, E2. destruct A7 as (F1 & F2 & F3 & F4 & F5 & F6). repeat split; auto. }
  eapply wp_mono; [apply (brelse_ok b); [apply U3|apply U3|left; rewrite Hd, Z.eqb_refl; reflexivity]|].
  intros [] s' Re. destruct (brelse_beyond _ _ _ _ Re) as (F1 & F2 & F3 & F4 & F5 & F6).
  destruct Hb3 as [(G1 & G2 & G3 & _ & G5 & G6) G4]. cbn in G1, G2, G3, G5, G6.
  split; [|split; [|split]].
  - apply (trans_grow bs b s s'); auto.
    + apply Re.
    + intros b'. rewrite (re_locked _ _ _ _ Re), Hl. destruct (b' =? b); reflexivity.
    + intros b'. rewrite (re_dirty _ _ _ _ Re). apply Hd.
    + congruence.
    + rewrite F4. exact G4.
  - intros b'. rewrite (re_view _ _ _ _ Re). apply Hv.
  - repeat split; cbn; congruence.
  - rewrite F4, G4. reflexivity.
Qed.

Lemma logged_write_ok pid bs b d s : in_trans bs s -> 0 <= b < disksize s -> ~ in_log (logst s) b -> room bs s ->
  wp (logged_write pid b d) (fun _ s' => logged bs b d s s') s.
Proof.
  intros T Hr Hlog Hroom. pose proof (it_ready _ _ T) as R. unfold logged_write. apply wp_bind.
  eapply wp_mono; [apply (bread_held1 pid b s bs); auto; apply R|]. intros i s1 A. apply log_tail_ok; auto.
Qed.

(** What a commit leaves when no crash interrupts it. *)
Lemma commit_installs pid s : committable s -> lh (logst s) <> [] ->
  wp (commit pid) (fun _ s' =>
    wrote (commit_writes (lstart (logst s)) (lh (logst s)) (view s)) (set_logst (set_lh [] (logst s)) s) s' /\
    (forall b, isdirty s' b = false) /\ (forall b, ~ in_log (logst s) b -> disk s' b = view s b) /\
    dec_head (disk s' (lstart (logst s))) = [] /\ length (disk s' (lstart (logst s))) = 512%nat) s.
Proof.
  intros C Hne. pose proof (cm_ready _ C) as R. eapply wp_mono; [apply (commit_ok pid s R Hne)|]. intros [] s1 W.
  destruct (committable_heads s C) as (Hh1 & Hh2 & Hh3).
  destruct (crash_after (lstart (logst s)) (lsize (logst s)) (lh (logst s)) (disk s) (view s)
    (rl_nodup _ _ _ _ R) (rl_fit _ _ _ _ R)) with (k := length (commit_writes (lstart (logst s)) (lh (logst s)) (view s)))
    as [Hst Hend]; auto.
  - intros c. apply committable_clean, C.
  - rewrite length_commit_writes. lia.
  - unfold crash in Hst, Hend. rewrite firstn_all in Hst, Hend.
    assert (Ed : forall b, disk s1 b = apply_writes (commit_writes (lstart (logst s)) (lh (logst s)) (view s)) (disk s) b) by apply W.
    split; [exact W|]. split; [|split; [|split]].
    + intros b. rewrite (wr_dirty _ _ _ W). change (isdirty (set_logst _ s) b) with (isdirty s b).
      destruct (isdirty s b) eqn:E; [|reflexivity]. apply negb_false_iff, bool_decide_eq_true.
      unfold commit_writes. rewrite !fmap_app, !elem_of_app. right. right. left. rewrite <- list_fmap_compose.
      apply list_elem_of_fmap. exists b. split; [reflexivity|]. apply (rl_pin _ _ _ _ R). auto.
    + intros b Hb. rewrite Ed. apply Hend, Hb.
    + rewrite Ed, Hst. exact Hh3.
    + rewrite Ed, Hst. unfold enc_head. rewrite length_enc_blocks, length_wr32. exact Hh1.
Qed.

(** The writes of [ws] inside a transaction. *)
Lemma logged_writes_ok pid ws : forall bs s, in_trans bs s ->
  (forall b d, (b, d) ∈ ws -> 0 <= b < disksize s /\ ~ in_log (logst s) b) ->
  Z.of_nat (length bs + length ws) <= lsize (logst s) - 1 -> (length bs + length ws < NBUF)%nat ->
  Z.of_nat (length bs + length ws) <= LOGSIZE ->
  wp (logged_writes pid ws) (fun _ s' => exists bs', in_trans bs' s' /\ (forall b, b ∈ bs' -> b ∈ bs \/ b ∈ ws.*1) /\
    (forall b, view s' b = apply_writes ws (view s) b) /\
    beyond_cache s (set_logst (logst s) s') /\ set_lh [] (logst s') = set_lh [] (logst s)) s.
Proof.
  induction ws as [|[b d] ws IH]; intros bs s T Hws H1 H2 H3; cbn [logged_writes apply_writes length] in *.
  - apply wp_pure. exists bs. split; [exact T|]. split; [auto|]. split; [reflexivity|]. split; [repeat split|reflexivity].
  - destruct (Hws b d ltac:(left)) as [Hb Hlog].
    apply wp_bind. eapply wp_mono; [apply (logged_write_ok pid bs); auto; repeat split; lia|].
    intros [] s1 (T1 & V1 & B1 & L1). set (bs1 := if bool_decide _ then _ else _) in *.
    assert (Hlen : (length bs1 <= S (length bs))%nat) by (unfold bs1; case_bool_decide; rewrite ?length_app; cbn; lia).
    assert (Hn : disksize s1 = disksize s) by apply B1.
    assert (Hsz : lsize (logst s1) = lsize (logst s)) by (apply (f_equal lsize) in L1; exact L1).
    assert (Hst : lstart (logst s1) = lstart (logst s)) by (apply (f_equal lstart) in L1; exact L1).
    eapply wp_mono; [apply (IH bs1 s1 T1); rewrite ?Hsz; try lia|].
    + intros b' d' Hin. unfold in_log. rewrite Hn, Hsz, Hst. apply (Hws b' d'). right. exact Hin.
    + intros [] s2 (bs' & T2 & I2 & V2 & B2 & L2). exists bs'. split; [exact T2|]. split; [|split; [|split; [|congruence]]].
      * intros b' Hin. destruct (I2 b' Hin) as [Hin'|Hin']; [|right; right; exact Hin'].
        unfold bs1 in Hin'. case_bool_decide; [left; exact Hin'|]. apply elem_of_app in Hin' as [?|Hin']; [auto|].
        apply list_elem_of_singleton in Hin' as ->. right. left.
      * intros b'. rewrite V2. apply apply_ext. rewrite V1. destruct (Z.eqb_spec b' b) as [->|];
          [rewrite zfn_insert_eq|rewrite zfn_insert_ne by congruence]; reflexivity.
      * destruct B1 as (? & ? & ? & ? & ? & ?), B2 as (? & ? & ? & ? & ? & ?). cbn in *. repeat split; cbn; congruence.
Qed.

(** Between transactions: nothing dirty, the log empty in memory and on the disk. *)
Record quiet_fs (s : fs) : Prop := mkquiet {
  qf_ready : ready_log [] [] 0 s;
  qf_lh : lh (logst s) = [];
  qf_out : outstanding (logst s) = 0;
  qf_idle : committing (logst s) = false;
  qf_start : s32 (sb_logstart (decode_sb (disk s 1))) = lstart (logst s);
  qf_size : s32 (sb_nlog (decode_sb (disk s 1))) = lsize (logst s);
  qf_sb : ~ in_log (logst s) 1 /\ 1 < disksize s;
  qf_head : dec_head (disk s (lstart (logst s))) = [];
  qf_block : length (disk s (lstart (logst s))) = 512%nat }.

Lemma quiet_clean s b : quiet_fs s -> isdirty s b = false.
Proof.
  intros Q. apply (pinned_clean s []); [apply Q|apply not_elem_of_nil].
Qed.

Lemma quiet_view s b : quiet_fs s -> view s b = disk s b.
Proof. intros Q. pose proof (quiet_clean s b Q). apply view_clean; auto; apply Q. Qed.

Lemma ready_logst l all bs t s : ready_log all bs t s -> ldev l = ldev (logst s) -> lstart l = lstart (logst s) ->
  lsize l = lsize (logst s) -> ready_log all bs t (set_logst l s).
Proof.
  intros [R1 R2 R3 R4 R5 R6 R7 R8 R9 R10 R11 R12 R13] E1 E2 E3.
  split; cbn; rewrite ?E1, ?E2, ?E3; auto using cinv_logst.
  intros b Hb. unfold in_log. rewrite E2, E3. apply R11, Hb.
Qed.

(** [begin_op] admits an operation when the log is idle. *)
Lemma begin_op_ok s : quiet_fs s -> wp begin_op (fun _ s' =>
  s' = set_logst (set_outstanding 1 (logst s)) s /\ in_trans [] s') s.
Proof.
  intros [R Q1 Q2 Q3 _ _ _ _ _]. unfold begin_op. apply wp_bind, wp_getl. unfold id. rewrite Q3, Q1, Q2. cbn.
  apply wp_modify. rewrite Q2. split; [reflexivity|]. split; auto.
  - apply ready_logst; auto.
  - intros b Hb. apply elem_of_nil in Hb. contradiction.
Qed.

(** After a commit, whatever was logged: nothing is dirty and the disk is current. *)
Lemma commit_quiet pid s : committable s ->
  wp (commit pid) (fun _ s' => cinv s' /\ (forall b, islocked s' b = false) /\ (forall b, isdirty s' b = false) /\
    (forall b, ~ in_log (logst s) b -> disk s' b = view s b) /\
    dec_head (disk s' (lstart (logst s))) = [] /\ length (disk s' (lstart (logst s))) = 512%nat /\
    disksize s' = disksize s /\ logst s' = set_lh [] (logst s) /\ icache s' = icache s /\ sblock s' = sblock s) s.
Proof.
  intros C. destruct (lh (logst s)) as [|b0 bs0] eqn:E.
  - unfold commit. apply wp_bind, wp_getl. rewrite E. cbn. apply wp_pure. pose proof C as [R _ _ _ C6 C7]. rewrite E in R.
    assert (Hc : forall b, isdirty s b = false).
    { intros b. apply (pinned_clean s []); [apply R|apply not_elem_of_nil]. }
    split; [apply R|]. split; [apply R|]. split; [exact Hc|]. split; [|split; [exact C6|split; [exact C7|split; [reflexivity|split; [|auto]]]]].
    + intros b _. symmetry. apply view_clean; auto; apply R.
    + unfold set_lh. rewrite <- E. destruct (logst s). reflexivity.
  - eapply wp_mono; [apply commit_installs; [exact C|congruence]|]. intros [] s' (W & H1 & H2 & H3 & H4).
    split; [apply W|]. split; [apply W|]. split; [exact H1|]. split; [exact H2|]. split; [exact H3|]. split; [exact H4|].
    split; [apply W|]. split; [apply W|]. split; apply W.
Qed.

Lemma end_op_ok pid bs s : in_trans bs s ->
  s32 (sb_logstart (decode_sb (disk s 1))) = lstart (logst s) -> s32 (sb_nlog (decode_sb (disk s 1))) = lsize (logst s) ->
  ~ in_log (logst s) 1 -> 1 ∉ bs -> 1 < disksize s -> dec_head (disk s (lstart (logst s))) = [] ->
  length (disk s (lstart (logst s))) = 512%nat ->
  wp (end_op pid) (fun _ s' => quiet_fs s' /\ logst s' = set_lh [] (set_outstanding 0 (logst s)) /\
    disksize s' = disksize s /\ icache s' = icache s /\ sblock s' = sblock s /\
    forall b, ~ in_log (logst s) b -> disk s' b = view s b) s.
Proof.
  intros [R Elh Hbs Eo Ec] S1 S2 S3 S4 S5 S6 S7. unfold end_op. apply wp_bind, wp_modify, wp_bind, wp_getl.
  cbn. rewrite Ec, Eo. cbn. apply wp_bind, wp_modify. cbn. set (l := set_committing true _).
  change (set_logst l (set_logst _ s)) with (set_logst l s).
  assert (C : committable (set_logst l s)).
  { split; cbn; auto; rewrite Elh; auto. apply ready_logst; auto. }
  apply wp_bind. eapply wp_mono; [apply (commit_quiet pid _ C)|]. cbn.
  intros [] s1 (H1 & H2 & H3 & H4 & H5 & H6 & H7 & H8 & H9 & H10).
  assert (E1 : disk s1 1 = disk s 1).
  { rewrite H4 by exact S3. change (view (set_logst l s) 1) with (view s 1).
    apply view_clean; try apply R. apply (pinned_clean s bs); [apply R|exact S4]. }
  assert (El : set_committing false (logst s1) = set_lh [] (set_outstanding 0 (logst s))).
  { rewrite H8. unfold l. cbn. rewrite <- Ec. destruct (logst s); reflexivity. }
  rewrite El. split; [|split; [reflexivity|split; [exact H7|split; [exact H9|split; [exact H10|exact H4]]]]].
  destruct R as [R1 R2 R3 R4 R5 R6 R7 R8 R9 R10 R11 R12 R13]. rewrite <- H7 in *.
  split; cbn; rewrite ?E1; auto. split; cbn; auto using cinv_logst; try lia.
  - apply pinned_nil; auto.
  - intros b Hb. apply elem_of_nil in Hb. contradiction.
  - right. unfold NBUF. lia.
  - constructor.
Qed.

Lemma log_reset l : lh l = [] -> outstanding l = 0 -> set_outstanding 0 (set_lh [] (set_outstanding 1 l)) = l.
Proof. destruct l as [? ? o ? ? h]. cbn. intros -> ->. reflexivity. Qed.

(** C17: A transaction is a multi-block write. From an idle file system, [begin_op], logged writes of at most [MAXOPBLOCKS] blocks outside the log, and [end_op] return without a panic; the disk then holds exactly the old contents updated by those writes, every cached view agrees with it, and the log is idle again. *)
Theorem transaction_commits pid ws s : quiet_fs s -> Z.of_nat (length ws) <= MAXOPBLOCKS ->
  Z.of_nat (length ws) <= lsize (logst s) - 1 ->
  (forall b d, (b, d) ∈ ws -> 0 <= b < disksize s /\ ~ in_log (logst s) b /\ b <> 1) ->
  wp (transaction pid ws) (fun _ s' => quiet_fs s' /\ logst s' = logst s /\
    forall b, ~ in_log (logst s) b -> disk s' b = apply_writes ws (disk s) b /\ view s' b = disk s' b) s.
Proof.
  intros Q Hn Hsz Hws. unfold MAXOPBLOCKS in Hn. unfold transaction. apply wp_bind.
  eapply wp_mono; [apply (begin_op_ok s Q)|]. intros [] s1 [E1 T1]. subst s1. apply wp_bind.
  eapply wp_mono; [apply (logged_writes_ok pid ws [] _ T1); cbn|].
  - intros b d Hin. destruct (Hws b d Hin) as (? & ? & _). auto.
  - exact Hsz.
  - unfold NBUF. lia.
  - unfold LOGSIZE. lia.
  - intros [] s2 (bs & T2 & I2 & V2 & (B1 & B2 & B3 & _) & L2). cbn in B2, B3, L2.
    assert (L2' : set_lh [] (set_outstanding 0 (logst s2)) = logst s).
    { transitivity (set_outstanding 0 (set_lh [] (logst s2))); [reflexivity|]. rewrite L2.
      apply log_reset; apply Q. }
    assert (Hst : lstart (logst s2) = lstart (logst s)) by (rewrite <- L2'; reflexivity).
    assert (Hls : lsize (logst s2) = lsize (logst s)) by (rewrite <- L2'; reflexivity).
    destruct Q as [R Q1 Q2 Q3 Q4 Q5 [Q6 Q6'] Q7 Q8].
    eapply wp_mono; [apply (end_op_ok pid bs s2 T2); rewrite ?Hst, ?Hls, ?B2, ?B3; auto|].
    + unfold in_log in *. rewrite Hst, Hls. exact Q6.
    + intros Hin. destruct (I2 1 Hin) as [Hin'|Hin']; [apply elem_of_nil in Hin'; contradiction|].
      apply list_elem_of_fmap in Hin' as ([b d] & E & Hin'). cbn in E. subst b. destruct (Hws 1 d Hin') as (_ & _ & ?). congruence.
    + intros [] s3 (Q' & L3 & _ & _ & _ & D3). rewrite L2' in L3. split; [exact Q'|]. split; [exact L3|].
      intros b Hb. split; [|apply quiet_view, Q']. rewrite D3 by (unfold in_log in *; rewrite Hst, Hls; exact Hb).
      rewrite V2. apply apply_ext. change (view (set_logst _ s) b) with (view s b).
      apply view_clean; try apply R. apply (pinned_clean s []); [apply R|apply not_elem_of_nil].
Qed.

(** C3: Commits are atomic across crashes. A commit of a non-empty transaction returns, leaves nothing dirty and the disk current; and if the machine stops after any number [k] of its disk writes, the next boot's recovery returns and yields, on every block outside the log, the contents from before the transaction when [k] is at most the number of logged blocks (the header is not written yet), and the contents from after it otherwise; the log is then empty. *)
Theorem commit_crash_atomic pid s : committable s -> lh (logst s) <> [] ->
  exists ws s1, commit pid s = Ret (tt, s1) /\ wtrace s1 = reverse ws ++ wtrace s /\
    lh (logst s1) = [] /\ (forall b, isdirty s1 b = false) /\
    (forall b, ~ in_log (logst s) b -> disk s1 b = view s b) /\
    forall k, wp (binit ;;; initlog pid 1) (fun _ s' =>
      lh (logst s') = [] /\ dec_head (disk s' (lstart (logst s))) = [] /\
      forall b, ~ in_log (logst s) b -> view s' b = disk s' b /\
        disk s' b = if (k <=? length (lh (logst s)))%nat then disk s b else view s b)
      (boot_fs (apply_writes (take k ws) (disk s)) (disksize s)).
Proof.
  intros C Hne. destruct (wp_ret _ _ _ (commit_installs pid s C Hne)) as ([] & s1 & E & W & H1 & H2 & _).
  exists (commit_writes (lstart (logst s)) (lh (logst s)) (view s)), s1.
  split; [exact E|]. split; [apply W|]. split; [rewrite (wr_log _ _ _ W); reflexivity|].
  split; [exact H1|]. split; [exact H2|]. intros k. apply crash_boot, C.
Qed.

(** ** A small disk *)

(** Block 1 is a superblock with the log at block 2, 30 blocks; other blocks are
    zero. *)
Definition demo_sb : list Z := wr32 (wr32 (replicate 512 0) 12 30) 16 2.
Definition demo_disk (b : Z) : list Z := if b =? 1 then demo_sb else replicate 512 0.
Definition demo_log (out : Z) (bs : list Z) : log := mklog 2 30 out false 1 bs.

(** The file system after boot, idle. *)
Definition fsdemo : fs := mkfs demo_disk 1000 [] (fun _ => buf0) (seq 0 NBUF) (demo_log 0 []) (decode_sb demo_sb)
  (fun _ => mkinode 0 0 0 (mksl false 0) false 0 0 0 0 0 (replicate 13 0)).

(** The same with block 100 modified and logged. *)
Definition fsdirty : fs := mkfs demo_disk 1000 []
  (fun i => match i with O => mkbuf true true 1 100 (mksl false 0) 0 (replicate 512 7) | S _ => buf0 end)
  (seq 0 NBUF) (demo_log 0 [100]) (decode_sb demo_sb) (icache fsdemo).

Lemma fsdemo_slot b : slot fsdemo b = None.
Proof.
  destruct (slot fsdemo b) as [i|] eqn:E; [|reflexivity]. apply slot_caches in E as (_ & E & _). discriminate.
Qed.

Lemma fsdemo_cinv : cinv fsdemo.
Proof. split; cbn; try discriminate; auto; intros i Hi [?|?]; discriminate. Qed.

Lemma fsdemo_quiet : quiet_fs fsdemo.
Proof.
  assert (Hl : forall b, islocked fsdemo b = false /\ isdirty fsdemo b = false)
    by (intros b; unfold islocked, isdirty; rewrite fsdemo_slot; auto).
  split; try (vm_compute; reflexivity).
  - split; try exact fsdemo_cinv; try (intros b; apply Hl); cbn; try lia.
    + apply pinned_nil; intros b; apply Hl.
    + unfold NBUF. lia.
    + intros b Hb. apply elem_of_nil in Hb. contradiction.
    + right. unfold NBUF. lia.
    + constructor.
  - unfold in_log. cbn. lia.
Qed.

Lemma fsdirty_caches b i : caches fsdirty b i -> i = O /\ b = 100.
Proof. intros (_ & H1 & H2). destruct i; cbn in *; [auto|discriminate]. Qed.

Lemma fsdirty_cinv : cinv fsdirty.
Proof.
  split; cbn; auto.
  - intros [|i] [|j]; cbn; auto; discriminate.
  - intros [|i]; cbn; auto. intros _ []. reflexivity.
  - intros [|i]; reflexivity.
  - intros [|i]; cbn; auto. intros _ [?|?]; discriminate.
  - intros [|i]; cbn; discriminate.
  - intros [|i]; cbn; [lia|discriminate].
Qed.

Lemma fsdirty_committable : committable fsdirty.
Proof.
  assert (Hl : forall b, islocked fsdirty b = false).
  { intros b. unfold islocked. destruct (slot fsdirty b) as [i|] eqn:E; [|reflexivity].
    apply slot_caches, fsdirty_caches in E as [-> _]. reflexivity. }
  split; try (vm_compute; reflexivity).
  - split; try exact fsdirty_cinv; try exact Hl; cbn; try lia; auto.
    + intros b [Hd|Hd]; [|rewrite Hl in Hd; discriminate]. unfold isdirty in Hd.
      destruct (slot fsdirty b) as [i|] eqn:E; [|discriminate]. apply slot_caches, fsdirty_caches in E as [_ ->]. left.
    + unfold NBUF. lia.
    + intros b Hb. apply list_elem_of_singleton in Hb as ->. unfold in_log. cbn. lia.
    + right. unfold NBUF. lia.
    + apply NoDup_singleton.
  - unfold in_log. cbn. split; [lia|]. split; [|lia]. rewrite list_elem_of_singleton. lia.
Qed.

(** A transaction that writes blocks 100 and 101. *)
Lemma transaction_commits_witness :
  quiet_fs fsdemo /\ wp (transaction 1 [(100, replicate 512 7); (101, replicate 512 8)]) (fun _ s' => quiet_fs s' /\
    logst s' = logst fsdemo /\ forall b, ~ in_log (logst fsdemo) b ->
      disk s' b = apply_writes [(100, replicate 512 7); (101, replicate 512 8)] (disk fsdemo) b /\
      view s' b = disk s' b) fsdemo.
Proof.
  split; [apply fsdemo_quiet|]. apply transaction_commits; [apply fsdemo_quiet|unfold MAXOPBLOCKS; cbn; lia|cbn; lia|].
  intros b d Hin. unfold in_log. rewrite !elem_of_cons, elem_of_nil in Hin. cbn.
  destruct Hin as [[= -> _]|[[= -> _]|[]]]; lia.
Defined.

Lemma commit_crash_atomic_witness : committable fsdirty /\
  exists ws s1, commit 1 fsdirty = Ret (tt, s1) /\ wtrace s1 = reverse ws ++ wtrace fsdirty /\
    lh (logst s1) = [] /\ (forall b, isdirty s1 b = false) /\
    (forall b, ~ in_log (logst fsdirty) b -> disk s1 b = view fsdirty b) /\
    forall k, wp (binit ;;; initlog 1 1) (fun _ s' =>
      lh (logst s') = [] /\ dec_head (disk s' (lstart (logst fsdirty))) = [] /\
      forall b, ~ in_log (logst fsdirty) b -> view s' b = disk s' b /\
        disk s' b = if (k <=? length (lh (logst fsdirty)))%nat then disk fsdirty b else view fsdirty b)
      (boot_fs (apply_writes (take k ws) (disk fsdirty)) (disksize fsdirty)).
Proof. split; [apply fsdirty_committable|]. apply commit_crash_atomic; [apply fsdirty_committable|discriminate]. Defined.

(** ** Reservation and capacity *)

(** Buffers 0, ..., 29 of a cache, for blocks 100, ..., 129. *)
Definition fsfull : fs := set_bufs (fun i => mkbuf true false 1 (100 + Z.of_nat i) (mksl true 1) 1 (replicate 512 0)) fsdemo.
Definition log_all (n : nat) : M fs unit := (fix go n i := match n with O => ret tt | S n' => log_write i ;;; go n' (S i) end) n O.

(** [begin_op] admits three operations, each of which may log [MAXOPBLOCKS]
    blocks, but the log of [LOGSIZE] blocks keeps one for its header: the thirtieth
    block is a panic. *)
Lemma reservation_exceeds_log :
  (begin_op ;;; begin_op ;;; begin_op ;;; log_all 30) fsfull = Panic "too big a transaction" /\
  returns (begin_op ;;; begin_op ;;; begin_op ;;; log_all 29) fsfull.
Proof. split; vm_compute; auto. Qed.
