(* ===== verification/Fs.v ===== *)
(** * Inodes, directories and path names

    Models [src/xv6/fs.c] over the buffer cache and the log, with the layout of
    [src/xv6/fs.h].

    An inode pointer is the index of its entry in [icache]; a null pointer is
    [None].  A routine that fills a buffer returns the bytes it stored; a routine
    that reads one takes them as a list.  The names and paths of C, strings ended
    by a zero byte or by the size of their array, are the lists of their bytes. *)

From S2P Require Import Prelude Mem Bio Log.
Local Open Scope Z_scope.

Definition NDEV : Z := 10.
Definition NDIRECT : Z := 12.
Definition NINDIRECT : Z := BSIZE / 4.
Definition MAXFILE : Z := NDIRECT + NINDIRECT.
Definition ROOTINO : Z := 1.
Definition DINODE : Z := 64.
Definition IPB : Z := BSIZE / DINODE.
Definition BPB : Z := BSIZE * 8.
Definition DIRSIZ : Z := 14.
Definition DIRENT : Z := 16.
Definition T_DIR : Z := 1.
Definition T_FILE : Z := 2.
Definition T_DEV : Z := 3.

Definition IBLOCK (i : Z) (sb : superblock) : Z := u32 (i / IPB + sb_inodestart sb).
Definition BBLOCK (b : Z) (sb : superblock) : Z := u32 (b / BPB + sb_bmapstart sb).

(** A C [short]. *)
Definition s16 (x : Z) : Z := if u16 x <? 2 ^ 15 then u16 x else u16 x - 2 ^ 16.

(** ** Bytes *)

(** [memmove(d + off, l, |l|)] inside a block. *)
Definition splice (d : list Z) (off : Z) (l : list Z) : list Z :=
  take (Z.to_nat off) d ++ l ++ drop (Z.to_nat off + length l) d.
(** [n] bytes at [off]. *)
Definition slice (d : list Z) (off n : Z) : list Z := take (Z.to_nat n) (drop (Z.to_nat off) d).
Definition le16 (v : Z) : list Z := [u8 v; u8 (Z.shiftr v 8)].
Definition le32 (v : Z) : list Z := [u8 v; u8 (Z.shiftr v 8); u8 (Z.shiftr v 16); u8 (Z.shiftr v 24)].

(** [struct dinode], at its offset in the block, and back. *)
Definition enc_dinode (ip : inode) : list Z :=
  le16 (itype ip) ++ le16 (imajor ip) ++ le16 (iminor ip) ++ le16 (inlink ip) ++ le32 (isize ip) ++
  concat (le32 <$> iaddrs ip).
Definition dec_dinode (d : list Z) (o : Z) (ip : inode) : inode :=
  set_itype (s16 (rd16 d o)) (set_imajor (s16 (rd16 d (o + 2))) (set_iminor (s16 (rd16 d (o + 4)))
    (set_inlink (s16 (rd16 d (o + 6))) (set_isize (rd32 d (o + 8))
      (set_iaddrs ((fun k => rd32 d (o + 12 + 4 * k)) <$> seqZ 0 (NDIRECT + 1)) ip))))).

Section Fs.
(** The process that runs, and the entry of its current directory; the device
    switch. *)
Context (pid : Z) (cwd : nat).
Context (dev_read : Z -> option (Z -> M fs (Z * list Z))) (dev_write : Z -> option (list Z -> M fs Z)).

Definition geti {A} (ip : nat) (f : inode -> A) : M fs A := gets (fun s => f (icache s ip)).
Definition updi (ip : nat) (f : inode -> inode) : M fs unit :=
  modify (fun s => set_icache (<[ip := f (icache s ip)]> (icache s)) s).

(** ** Blocks *)

Definition bzero (dev bno : Z) : M fs unit :=
  i <- bread pid dev (u32 bno) ;;
  updb i (set_bdata (replicate (Z.to_nat BSIZE) 0)) ;;;
  log_write i ;;;
  brelse i.

(** The mask of bit [bi] in its byte, and whether it is clear. *)
Definition bmask (bi : Z) : Z := Z.shiftl 1 (bi mod 8).
Definition bit_clear (d : list Z) (bi : Z) : bool := Z.land (byte_at d (bi / 8)) (bmask bi) =? 0.

(** [for(bi = 0; bi < BPB && b + bi < sb.size; bi++)] until a clear bit. *)
Fixpoint balloc_scan (n : nat) (d : list Z) (b bi size : Z) : option Z :=
  match n with
  | O => None
  | S n' =>
      if (bi <? BPB) && (b + bi <? size)
      then if bit_clear d bi then Some bi else balloc_scan n' d b (bi + 1) size
      else None
  end.

Fixpoint balloc_loop (fuel : nat) (dev b : Z) : M fs Z :=
  match fuel with
  | O => nofuel
  | S f =>
      sb <- gets sblock ;;
      if b <? sb_size sb then
        i <- bread pid dev (BBLOCK b sb) ;;
        d <- getb i bdata ;;
        match balloc_scan (Z.to_nat BPB) d b 0 (sb_size sb) with
        | Some bi =>
            updb i (set_bdata (wr8 d (bi / 8) (Z.lor (byte_at d (bi / 8)) (bmask bi)))) ;;;
            log_write i ;;;
            brelse i ;;;
            bzero dev (b + bi) ;;;
            ret (b + bi)
        | None => brelse i ;;; balloc_loop f dev (b + BPB)
        end
      else panic "balloc: out of blocks"
  end.
(** One iteration per bitmap block, and the one that fails. *)
Definition balloc (dev : Z) : M fs Z :=
  n <- gets (fun s => sb_size (sblock s)) ;;
  balloc_loop (Z.to_nat (n / BPB) + 2) dev 0.

Definition bfree (dev b : Z) : M fs unit :=
  sb <- readsb pid dev ;;
  modify (set_sblock sb) ;;;
  i <- bread pid dev (BBLOCK b sb) ;;
  d <- getb i bdata ;;
  let bi := b mod BPB in
  if bit_clear d bi then panic "freeing free block"
  else
    updb i (set_bdata (wr8 d (bi / 8) (Z.ldiff (byte_at d (bi / 8)) (bmask bi)))) ;;;
    log_write i ;;;
    brelse i.

(** ** Inodes *)

Definition ilockfield (ip : nat) : (fs -> sleeplock) := fun s => ilk (icache s ip).
Definition ilockset (ip : nat) (l : sleeplock) (s : fs) : fs :=
  set_icache (<[ip := set_ilk l (icache s ip)]> (icache s)) s.

Fixpoint iinit_loop (n i : nat) : M fs unit :=
  match n with
  | O => ret tt
  | S n' => initsleeplock (ilockset i) ;;; iinit_loop n' (S i)
  end.
Definition iinit (dev : Z) : M fs unit :=
  iinit_loop NINODE 0 ;;;
  sb <- readsb pid dev ;;
  modify (set_sblock sb).

Definition iget (dev n : Z) : M fs nat :=
  s <- get ;;
  match list_find (fun i => 0 < iref (icache s i) /\ idev (icache s i) = dev /\ inum (icache s i) = n) (seq 0 NINODE) with
  | Some (_, i) => updi i (fun p => set_iref (iref p + 1) p) ;;; ret i
  | None =>
      match list_find (fun i => iref (icache s i) = 0) (seq 0 NINODE) with
      | Some (_, i) =>
          updi i (fun p => set_ivalid false (set_iref 1 (set_inum n (set_idev dev p)))) ;;; ret i
      | None => panic "iget: no inodes"
      end
  end.

Fixpoint ialloc_loop (fuel : nat) (dev type n : Z) : M fs nat :=
  match fuel with
  | O => nofuel
  | S f =>
      sb <- gets sblock ;;
      if n <? sb_ninodes sb then
        i <- bread pid dev (IBLOCK n sb) ;;
        d <- getb i bdata ;;
        let o := n mod IPB * DINODE in
        if s16 (rd16 d o) =? 0 then
          updb i (set_bdata (splice d o (le16 type ++ replicate (Z.to_nat DINODE - 2) 0))) ;;;
          log_write i ;;;
          brelse i ;;;
          iget dev n
        else brelse i ;;; ialloc_loop f dev type (n + 1)
      else panic "ialloc: no inodes"
  end.
Definition ialloc (dev type : Z) : M fs nat :=
  n <- gets (fun s => sb_ninodes (sblock s)) ;;
  ialloc_loop (Z.to_nat n + 1) dev type 1.

(** The copied fields are the whole of the disk inode. *)
Definition iupdate (ip : nat) : M fs unit :=
  p <- geti ip id ;;
  sb <- gets sblock ;;
  i <- bread pid (idev p) (IBLOCK (inum p) sb) ;;
  d <- getb i bdata ;;
  updb i (set_bdata (splice d (inum p mod IPB * DINODE) (enc_dinode p))) ;;;
  log_write i ;;;
  brelse i.

Definition idup (ip : nat) : M fs nat := updi ip (fun p => set_iref (iref p + 1) p) ;;; ret ip.

Definition ilock (ip : nat) : M fs unit :=
  r <- geti ip iref ;;
  if r <? 1 then panic "ilock"
  else
    acquiresleep (ilockfield ip) (ilockset ip) pid ;;;
    v <- geti ip ivalid ;;
    if v then ret tt
    else
      p <- geti ip id ;;
      sb <- gets sblock ;;
      i <- bread pid (idev p) (IBLOCK (inum p) sb) ;;
      d <- getb i bdata ;;
      updi ip (dec_dinode d (inum p mod IPB * DINODE)) ;;;
      brelse i ;;;
      updi ip (set_ivalid true) ;;;
      t <- geti ip itype ;;
      if t =? 0 then panic "ilock: no type" else ret tt.

Definition iunlock (ip : nat) : M fs unit :=
  h <- holdingsleep (ilockfield ip) ;;
  r <- geti ip iref ;;
  if negb h || (r <? 1) then panic "iunlock"
  else releasesleep (ilockset ip).

(** ** File contents *)

Definition addr_at (p : inode) (k : Z) : Z := default 0 (iaddrs p !! Z.to_nat k).
Definition set_addr (k a : Z) (p : inode) : inode := set_iaddrs (<[Z.to_nat k := a]> (iaddrs p)) p.

Definition bmap (ip : nat) (bn : Z) : M fs Z :=
  p <- geti ip id ;;
  if bn <? NDIRECT then
    let a := addr_at p bn in
    if a =? 0 then
      a' <- balloc (idev p) ;;
      updi ip (set_addr bn a') ;;;
      ret a'
    else ret a
  else
    let bn := bn - NDIRECT in
    if bn <? NINDIRECT then
      (if addr_at p NDIRECT =? 0 then
         a' <- balloc (idev p) ;;
         updi ip (set_addr NDIRECT a')
       else ret tt) ;;;
      a <- geti ip (fun p => addr_at p NDIRECT) ;;
      i <- bread pid (idev p) a ;;
      d <- getb i bdata ;;
      let e := rd32 d (4 * bn) in
      if e =? 0 then
        e' <- balloc (idev p) ;;
        updb i (fun b => set_bdata (wr32 (bdata b) (4 * bn) e') b) ;;;
        log_write i ;;;
        brelse i ;;;
        ret e'
      else brelse i ;;; ret e
    else panic "bmap: out of range".

(** [for(i = 0; i < NDIRECT; i++) if(ip->addrs[i]) ...] *)
Fixpoint itrunc_direct (n : nat) (ip : nat) (k : Z) : M fs unit :=
  match n with
  | O => ret tt
  | S n' =>
      p <- geti ip id ;;
      (if addr_at p k =? 0 then ret tt
       else bfree (idev p) (addr_at p k) ;;; updi ip (set_addr k 0)) ;;;
      itrunc_direct n' ip (k + 1)
  end.
(** [for(j = 0; j < NINDIRECT; j++) if(a[j]) bfree(ip->dev, a[j])] *)
Fixpoint itrunc_indirect (n : nat) (dev : Z) (i : nat) (j : Z) : M fs unit :=
  match n with
  | O => ret tt
  | S n' =>
      e <- getb i (fun b => rd32 (bdata b) (4 * j)) ;;
      (if e =? 0 then ret tt else bfree dev e) ;;;
      itrunc_indirect n' dev i (j + 1)
  end.
Definition itrunc (ip : nat) : M fs unit :=
  itrunc_direct (Z.to_nat NDIRECT) ip 0 ;;;
  p <- geti ip id ;;
  (if addr_at p NDIRECT =? 0 then ret tt
   else
     i <- bread pid (idev p) (addr_at p NDIRECT) ;;
     itrunc_indirect (Z.to_nat NINDIRECT) (idev p) i 0 ;;;
     brelse i ;;;
     bfree (idev p) (addr_at p NDIRECT) ;;;
     updi ip (set_addr NDIRECT 0)) ;;;
  updi ip (set_isize 0) ;;;
  iupdate ip.

Definition iput (ip : nat) : M fs unit :=
  acquiresleep (ilockfield ip) (ilockset ip) pid ;;;
  p <- geti ip id ;;
  (if ivalid p && (inlink p =? 0) && (iref p =? 1) then
     itrunc ip ;;;
     updi ip (set_itype 0) ;;;
     iupdate ip ;;;
     updi ip (set_ivalid false)
   else ret tt) ;;;
  releasesleep (ilockset ip) ;;;
  updi ip (fun p => set_iref (iref p - 1) p).

Definition iunlockput (ip : nat) : M fs unit := iunlock ip ;;; iput ip.

(** [struct stat] *)
Record stat := mkstat { st_type : Z; st_dev : Z; st_ino : Z; st_nlink : Z; st_size : Z }.
Definition stati (ip : nat) : M fs stat :=
  geti ip (fun p => mkstat (itype p) (s32 (idev p)) (inum p) (inlink p) (isize p)).

(** One device: the major number selects its routine. *)
Definition devsw {A} (sw : Z -> option A) (major : Z) : option A :=
  if (major <? 0) || (major >=? NDEV) then None else sw major.

(** [for(tot=0; tot<n; tot+=m, off+=m, dst+=m)]; the bytes read so far are
    collected.  A block holds at least one of the remaining bytes. *)
Fixpoint readi_loop (fuel : nat) (ip : nat) (off n : Z) : M fs (list Z) :=
  match fuel with
  | O => nofuel
  | S f =>
      if n <=? 0 then ret []
      else
        dev <- geti ip idev ;;
        a <- bmap ip (off / BSIZE) ;;
        i <- bread pid dev a ;;
        let m := Z.min n (BSIZE - off mod BSIZE) in
        d <- getb i bdata ;;
        brelse i ;;;
        l <- readi_loop f ip (off + m) (n - m) ;;
        ret (slice d (off mod BSIZE) m ++ l)
  end.
Definition readi (ip : nat) (off n : Z) : M fs (Z * list Z) :=
  p <- geti ip id ;;
  if itype p =? T_DEV then
    match devsw dev_read (imajor p) with
    | None => ret (-1, [])
    | Some rd => rd (s32 n)
    end
  else if (off >? isize p) || (u32 (off + n) <? off) then ret (-1, [])
  else
    let n := if off + n >? isize p then isize p - off else n in
    l <- readi_loop (Z.to_nat (n / BSIZE) + 3) ip off n ;;
    ret (s32 n, l).

Fixpoint writei_loop (fuel : nat) (ip : nat) (src : list Z) (off : Z) : M fs unit :=
  match fuel with
  | O => nofuel
  | S f =>
      if Z.of_nat (length src) <=? 0 then ret tt
      else
        dev <- geti ip idev ;;
        a <- bmap ip (off / BSIZE) ;;
        i <- bread pid dev a ;;
        let m := Z.min (Z.of_nat (length src)) (BSIZE - off mod BSIZE) in
        updb i (fun b => set_bdata (splice (bdata b) (off mod BSIZE) (take (Z.to_nat m) src)) b) ;;;
        log_write i ;;;
        brelse i ;;;
        writei_loop f ip (drop (Z.to_nat m) src) (off + m)
  end.
Definition writei (ip : nat) (src : list Z) (off : Z) : M fs Z :=
  let n := Z.of_nat (length src) in
  p <- geti ip id ;;
  if itype p =? T_DEV then
    match devsw dev_write (imajor p) with
    | None => ret (-1)
    | Some wr => wr src
    end
  else if (off >? isize p) || (u32 (off + n) <? off) then ret (-1)
  else if u32 (off + n) >? MAXFILE * BSIZE then ret (-1)
  else
    writei_loop (Z.to_nat (n / BSIZE) + 3) ip src off ;;;
    sz <- geti ip isize ;;
    (if (n >? 0) && (off + n >? sz)
     then updi ip (set_isize (off + n)) ;;; iupdate ip
     else ret tt) ;;;
    ret (s32 n).

(** ** Directories *)

(** [strncmp(s, t, DIRSIZ) == 0]: the bytes agree up to the first zero. *)
Fixpoint name_eq (n : nat) (s t : list Z) : bool :=
  match n with
  | O => true
  | S n' =>
      (default 0 (head s) =? default 0 (head t)) &&
      ((default 0 (head s) =? 0) || name_eq n' (tail s) (tail t))
  end.
Definition namecmp (s t : list Z) : bool := name_eq (Z.to_nat DIRSIZ) s t.

(** [strncpy(de.name, name, DIRSIZ)] *)
Fixpoint dirname (n : nat) (s : list Z) : list Z :=
  match n with
  | O => []
  | S n' =>
      if default 0 (head s) =? 0 then replicate n 0 else default 0 (head s) :: dirname n' (tail s)
  end.

(** The entry of [name], with its offset. *)
Fixpoint dirlookup_loop (fuel : nat) (dp : nat) (name : list Z) (off : Z) : M fs (option (Z * Z)) :=
  match fuel with
  | O => nofuel
  | S f =>
      sz <- geti dp isize ;;
      if off <? sz then
        r <- readi dp off DIRENT ;;
        if negb (fst r =? DIRENT) then panic "dirlookup read"
        else
          let n := rd16 (snd r) 0 in
          if n =? 0 then dirlookup_loop f dp name (off + DIRENT)
          else if namecmp name (drop 2 (snd r)) then ret (Some (n, off))
          else dirlookup_loop f dp name (off + DIRENT)
      else ret None
  end.
Definition dirlookup (dp : nat) (name : list Z) : M fs (option (nat * Z)) :=
  p <- geti dp id ;;
  if negb (itype p =? T_DIR) then panic "dirlookup not DIR"
  else
    e <- dirlookup_loop (Z.to_nat (isize p / DIRENT) + 2) dp name 0 ;;
    match e with
    | None => ret None
    | Some (n, off) => ip <- iget (idev p) n ;; ret (Some (ip, off))
    end.

Fixpoint dirlink_loop (fuel : nat) (dp : nat) (off : Z) : M fs Z :=
  match fuel with
  | O => nofuel
  | S f =>
      sz <- geti dp isize ;;
      if off <? sz then
        r <- readi dp off DIRENT ;;
        if negb (fst r =? DIRENT) then panic "dirlink read"
        else if rd16 (snd r) 0 =? 0 then ret off
        else dirlink_loop f dp (off + DIRENT)
      else ret off
  end.
Definition dirlink (dp : nat) (name : list Z) (n : Z) : M fs Z :=
  e <- dirlookup dp name ;;
  match e with
  | Some (ip, _) => iput ip ;;; ret (-1)
  | None =>
      sz <- geti dp isize ;;
      off <- dirlink_loop (Z.to_nat (sz / DIRENT) + 2) dp 0 ;;
      r <- writei dp (le16 n ++ dirname (Z.to_nat DIRSIZ) name) off ;;
      if negb (r =? DIRENT) then panic "dirlink" else ret 0
  end.

(** ** Paths *)

Definition SLASH : Z := 47.
(** The path from its first byte that is not a slash. *)
Fixpoint skip_slashes (path : list Z) : list Z :=
  match path with c :: p => if c =? SLASH then skip_slashes p else path | [] => [] end.
(** What precedes the next slash, and the rest. *)
Fixpoint take_elem (path : list Z) : list Z * list Z :=
  match path with
  | c :: p => if c =? SLASH then ([], path) else let (e, r) := take_elem p in (c :: e, r)
  | [] => ([], [])
  end.
(** The rest of the path and the element, cut to the size of [name]. *)
Definition skipelem (path : list Z) : option (list Z * list Z) :=
  match skip_slashes path with
  | [] => None
  | p =>
      let (e, r) := take_elem p in
      Some (skip_slashes r, if Z.of_nat (length e) >=? DIRSIZ then take (Z.to_nat DIRSIZ) e else e)
  end.

(** An element is at least one byte, so the path bounds the loop. *)
Fixpoint namex_loop (fuel : nat) (ip : nat) (path : list Z) (parent : bool) (name : list Z) :
    M fs (option (nat * list Z)) :=
  match fuel with
  | O => nofuel
  | S f =>
      match skipelem path with
      | None => if parent then iput ip ;;; ret None else ret (Some (ip, name))
      | Some (path', name') =>
          ilock ip ;;;
          t <- geti ip itype ;;
          if negb (t =? T_DIR) then iunlockput ip ;;; ret None
          else if parent && bool_decide (path' = []) then iunlock ip ;;; ret (Some (ip, name'))
          else
            e <- dirlookup ip name' ;;
            match e with
            | None => iunlockput ip ;;; ret None
            | Some (next, _) => iunlockput ip ;;; namex_loop f next path' parent name'
            end
      end
  end.
Definition namex (path : list Z) (parent : bool) : M fs (option (nat * list Z)) :=
  ip <- (if bool_decide (head path = Some SLASH) then iget ROOTDEV ROOTINO else idup cwd) ;;
  namex_loop (length path + 1) ip path parent [].
Definition namei (path : list Z) : M fs (option nat) :=
  r <- namex path false ;; ret (fst <$> r).
Definition nameiparent (path : list Z) : M fs (option (nat * list Z)) := namex path true.
End Fs.
