(* ===== verification/FsRules.v ===== *)
(** * Rules for file-system routines inside a transaction

    A routine of [src/xv6/fs.c] sees the blocks through the buffer cache and
    changes them through the log.  The rules here speak about block contents only
    ([view]); [trans n] says that a transaction is open with room for [n] more
    blocks. *)

From S2P Require Import Prelude Mem Bio Log BioRules LogRules LogProps Fs.
Local Open Scope Z_scope.

Definition trans (n : nat) (s : fs) : Prop :=
  exists bs, in_trans bs s /\ 1 ∉ bs /\ Z.of_nat (length bs + n) <= lsize (logst s) - 1 /\ (length bs + n < NBUF)%nat /\
    Z.of_nat (length bs + n) <= LOGSIZE.

(** The blocks change by [ws]; the disk, the superblock and the inode cache do
    not. *)
Record fstep (ws : writes) (s s' : fs) : Prop := mkfstep {
  fs_view : forall b, view s' b = apply_writes ws (view s) b;
  fs_disk : forall b, disk s' b = disk s b;
  fs_size : disksize s' = disksize s;
  fs_sb : sblock s' = sblock s;
  fs_icache : icache s' = icache s;
  fs_log : set_lh [] (logst s') = set_lh [] (logst s) }.

Lemma fstep_refl s : fstep [] s s.
Proof. split; reflexivity. Qed.

Lemma fstep_trans ws1 ws2 s s1 s2 : fstep ws1 s s1 -> fstep ws2 s1 s2 -> fstep (ws1 ++ ws2) s s2.
Proof.
  intros [A1 A2 A3 A4 A5 A6] [B1 B2 B3 B4 B5 B6]. split; try congruence.
  intros b. rewrite B1, apply_app. apply apply_ext, A1.
Qed.

(** A block a transaction may write. *)
Definition home (s : fs) (b : Z) : Prop := 0 <= b < disksize s /\ ~ in_log (logst s) b /\ b <> 1.

Lemma fstep_in_log ws s s' b : fstep ws s s' -> in_log (logst s') b <-> in_log (logst s) b.
Proof.
  intros F. unfold in_log. pose proof (f_equal lstart (fs_log _ _ _ F)) as E1. pose proof (f_equal lsize (fs_log _ _ _ F)) as E2.
  cbn in E1, E2. rewrite E1, E2. reflexivity.
Qed.

Lemma fstep_home ws s s' b : fstep ws s s' -> home s b -> home s' b.
Proof.
  intros F [H1 H2]. unfold home. rewrite (fs_size _ _ _ F), (fstep_in_log _ _ _ _ F). auto.
Qed.

Lemma trans_weaken n m s : (m <= n)%nat -> trans n s -> trans m s.
Proof. intros H (bs & T & H0 & H1 & H2 & H3). exists bs. split; [exact T|]. split; [exact H0|]. lia. Qed.

#[export] Hint Resolve fstep_refl fstep_home : xv6.

(** ** Sequencing *)

Lemma wp_seq3 {S A B} (m1 m2 : M S unit) (k : M S A) (j : M S B) Q (s : S) :
  wp (m1 ;;; m2 ;;; k) (fun _ s' => wp j Q s') s -> wp (m1 ;;; m2 ;;; k ;;; j) Q s.
Proof.
  unfold wp, bind. destruct (m1 s) as [[[] s1]| |]; auto. destruct (m2 s1) as [[[] s2]| |]; auto.
  destruct (k s2) as [[a s3]| |]; auto.
Qed.

(** ** Holding one block *)

(** [s1] is [s], in which a transaction with room for [n] blocks is open, with
    buffer [i] holding block [b]. *)
Definition held (n : nat) (b : Z) (i : nat) (s s1 : fs) : Prop := trans n s /\ held1 b i s s1.

Section Rules.
Context (pid : Z).

Lemma bread_held n b s : trans n s -> 0 <= b < disksize s -> wp (bread pid 1 b) (fun i s1 => held n b i s s1) s.
Proof.
  intros (bs & T & H) Hr. pose proof (it_ready _ _ T) as R.
  eapply wp_mono; [apply (bread_held1 pid b s bs); auto; apply R|]. intros i s1 A1. split; [|exact A1].
  exists bs. auto.
Qed.

Lemma wp_bread {A} n b s (k : nat -> M fs A) Q : trans n s -> 0 <= b < disksize s ->
  (forall i s1, held n b i s s1 -> wp (k i) Q s1) -> wp (i <- bread pid 1 b ;; k i) Q s.
Proof. intros T Hr HQ. apply wp_bind. eapply wp_mono; [apply (bread_held n b s T Hr)|]. intros i s1. apply HQ. Qed.

Lemma wp_getdata {A} n b i s s1 (k : list Z -> M fs A) Q : held n b i s s1 ->
  wp (k (view s b)) Q s1 -> wp (d <- getb i bdata ;; k d) Q s1.
Proof. intros [_ A1] HQ. apply wp_bind, wp_gets. rewrite (h1_data _ _ _ _ A1). exact HQ. Qed.

Lemma in_trans_wrote bs s s' : in_trans bs s -> wrote [] s s' -> in_trans bs s'.
Proof.
  intros [R T1 T2 T3 T4] W. split; rewrite ?(wr_log _ _ _ W); auto.
  - apply (ready_wrote _ _ _ _ _ _ R W). intros b _. apply not_elem_of_nil.
  - intros b Hb. rewrite (wr_dirty _ _ _ W), T2 by exact Hb. rewrite bool_decide_eq_false_2 by apply not_elem_of_nil. reflexivity.
Qed.

(** The held block released unchanged. *)
Lemma brelse_held n b i s s1 : held n b i s s1 -> wp (brelse i) (fun _ s' => trans n s' /\ fstep [] s s') s1.
Proof.
  intros [(bs & T & H) A1]. pose proof (it_ready _ _ T) as R.
  eapply wp_mono; [apply (release1 b i s); auto; apply R|]. intros [] s' W. split.
  - exists bs. rewrite (wr_log _ _ _ W). split; [|exact H]. apply (in_trans_wrote _ _ _ T W).
  - split; try apply W. rewrite (wr_log _ _ _ W). reflexivity.
Qed.

Lemma wp_brelse {A} n b i s s1 (k : M fs A) Q : held n b i s s1 ->
  (forall s', trans n s' -> fstep [] s s' -> wp k Q s') -> wp (brelse i ;;; k) Q s1.
Proof. intros H HQ. apply wp_bind. eapply wp_mono; [apply (brelse_held _ _ _ _ _ H)|]. intros [] s' [T F]. auto. Qed.

(** The transaction after a block was logged. *)
Lemma logged_step bs n b d s s' : 1 ∉ bs -> Z.of_nat (length bs + S n) <= lsize (logst s) - 1 -> (length bs + S n < NBUF)%nat ->
  Z.of_nat (length bs + S n) <= LOGSIZE -> b <> 1 -> logged bs b d s s' -> trans n s' /\ fstep [(b, d)] s s'.
Proof.
  intros H0 H1 H2 H3 Hne (T' & V & (B1 & B2 & B3 & _ & B5 & B6) & L). cbn in B1, B2, B3, B5, B6. split.
  - exists (if bool_decide (b ∈ bs) then bs else bs ++ [b]). split; [exact T'|].
    split; [case_bool_decide; [exact H0|]; rewrite elem_of_app, list_elem_of_singleton; intros [?|?]; congruence|].
    pose proof (f_equal lsize L) as El. cbn in El. rewrite El.
    case_bool_decide; rewrite ?length_app; cbn; lia.
  - split; auto; [|intros b'; congruence]. intros b'. rewrite V. cbn.
    destruct (Z.eqb_spec b' b) as [->|]; [rewrite zfn_insert_eq|rewrite zfn_insert_ne by congruence]; reflexivity.
Qed.

(** The held block changed, logged and released. *)
Lemma log_held n b i d s s1 : held (S n) b i s s1 -> home s b ->
  wp (updb i (set_bdata d) ;;; log_write i ;;; brelse i) (fun _ s' => trans n s' /\ fstep [(b, d)] s s') s1.
Proof.
  intros [(bs & T & H0 & H1 & H2 & H3) A1] (Hr & Hl & Hne). eapply wp_mono; [apply (log_tail_ok bs b i d s s1); auto; repeat split; lia|].
  intros [] s' L. apply (logged_step bs); auto.
Qed.

Lemma wp_log {A} n b i d s s1 (k : M fs A) Q : held (S n) b i s s1 -> home s b ->
  (forall s', trans n s' -> fstep [(b, d)] s s' -> wp k Q s') ->
  wp (updb i (set_bdata d) ;;; log_write i ;;; brelse i ;;; k) Q s1.
Proof.
  intros H Hh HQ. apply wp_seq3. eapply wp_mono; [apply (log_held n b i d s s1 H Hh)|]. intros [] s' [T F]. auto.
Qed.
(** ** Transactions as an interface

    The routines on the free map run in a transaction in which no buffer is locked, and
    also while their caller holds a block.  [open_ n s s1]: the state is [s1], which is [s]
    but for the caller's lock, with room for [n] blocks; [held_ n b i s s2]: and block [b] is
    read into buffer [i]; [other b]: the caller does not hold [b]. *)
Class Txn (open_ : nat -> fs -> fs -> Prop) (held_ : nat -> Z -> nat -> fs -> fs -> Prop) (other : Z -> Prop) := {
  tx_sblock n s s1 : open_ n s s1 -> sblock s1 = sblock s;
  tx_bread n b s s1 : open_ n s s1 -> other b -> 0 <= b < disksize s -> wp (bread pid 1 b) (fun i s2 => held_ n b i s s2) s1;
  tx_data n b i s s2 : held_ n b i s s2 -> bdata (bufs s2 i) = view s b;
  tx_brelse n b i s s2 : held_ n b i s s2 -> wp (brelse i) (fun _ s1 => exists s', open_ n s' s1 /\ fstep [] s s') s2;
  tx_log n b i d s s2 : held_ (S n) b i s s2 -> home s b ->
    wp (updb i (set_bdata d) ;;; log_write i ;;; brelse i) (fun _ s1 => exists s', open_ n s' s1 /\ fstep [(b, d)] s s') s2 }.

(** With no lock held. *)
Definition alone (n : nat) (s s1 : fs) : Prop := trans n s /\ s1 = s.
#[global] Instance alone_txn : Txn alone held (fun _ => True).
Proof.
  split.
  - intros n s s1 [_ ->]. reflexivity.
  - intros n b s s1 [T ->] _ Hr. apply bread_held; assumption.
  - intros n b i s s2 [_ A]. apply (h1_data _ _ _ _ A).
  - intros n b i s s2 H. eapply wp_mono; [apply (brelse_held _ _ _ _ _ H)|]. intros [] s' [T F]. exists s'. unfold alone. auto.
  - intros n b i d s s2 H Hh. eapply wp_mono; [apply (log_held n b i d s s2 H Hh)|]. intros [] s' [T F]. exists s'. unfold alone. auto.
Qed.

(** While block [b0] is held in buffer [i0]. *)
Definition beside (b0 : Z) (i0 : nat) (n : nat) (s s1 : fs) : Prop := held (S n) b0 i0 s s1.
Definition held_beside (b0 : Z) (i0 : nat) (n : nat) (b : Z) (i : nat) (s s2 : fs) : Prop :=
  trans (S n) s /\ b <> b0 /\ held2 b0 b i0 i s s2.

(** The second block released unchanged. *)
Lemma brelse_beside b0 i0 n b i s s2 : held_beside b0 i0 n b i s s2 -> wp (brelse i) (fun _ s1 => beside b0 i0 n s s1) s2.
Proof.
  intros (T & Hne & [A1 A2 A3 A4 A5 A6 A7 A8 A9]). pose proof T as (bs & Ti & _). pose proof (it_ready _ _ Ti) as R.
  pose proof (holds_other _ _ _ _ _ Hne A3 A2) as Hij. pose proof A9 as (E1 & E2 & E3 & E4 & E5 & E6).
  eapply wp_mono; [apply (brelse_ok b i s2); auto|].
  - rewrite A5, A7, E2. destruct (isdirty s b) eqn:Ed; [auto|right]. apply view_clean; [apply R|exact Ed|apply R].
  - intros [] s1 Re. destruct (brelse_beyond _ _ _ _ Re) as (F1 & F2 & F3 & F4 & F5 & F6).
    pose proof (re_others _ _ _ _ Re i0 (not_eq_sym Hij)) as Ei. split; [exact T|]. split.
    + apply Re.
    + apply (holds_upd s2); auto.
    + rewrite Ei. exact A4.
    + intros b'. rewrite (re_view _ _ _ _ Re). apply A6.
    + intros b'. rewrite (re_dirty _ _ _ _ Re). apply A7.
    + intros b'. rewrite (re_locked _ _ _ _ Re), A8. destruct (Z.eqb_spec b' b), (Z.eqb_spec b' b0); subst; try reflexivity; congruence.
    + repeat split; congruence.
Qed.

(** [b->data = d; log_write(b); brelse(b)] beside a held block. *)
Lemma log_tail_beside bs b0 i0 b i d s s2 : in_trans bs s -> b <> b0 -> held2 b0 b i0 i s s2 -> 0 <= b < disksize s -> ~ in_log (logst s) b ->
  room bs s -> wp (updb i (set_bdata d) ;;; log_write i ;;; brelse i) (fun _ s1 => exists s', logged bs b d s s' /\ held1 b0 i0 s' s1) s2.
Proof.
  intros [R Elh Hbs Eo Ec] Hne [A1 A2 A3 A4 A5 A6 A7 A8 A9] Hr Hlog (Hfit & Hn & Hmax).
  pose proof (holds_other _ _ _ _ _ Hne A3 A2) as Hij. pose proof A9 as (G1 & G2 & G3 & G4 & G5 & G6).
  apply wp_bind. eapply wp_mono; [apply (set_data_ok b); auto|]. intros [] s3 [U3 E3].
  assert (El3 : logst s3 = logst s) by (rewrite E3; exact G4).
  apply wp_bind. eapply wp_mono; [apply (log_write_ok b); try apply U3; rewrite El3; try rewrite Elh; auto; lia|].
  rewrite El3, Elh. set (bs' := if bool_decide _ then _ else _). intros [] s4 [U4 E4].
  assert (Hv : forall b', view s4 b' = if b' =? b then d else view s b').
  { intros b'. rewrite (up_view _ _ _ _ _ _ U4), (up_view _ _ _ _ _ _ U3), (up_data _ _ _ _ _ _ U3), A6. destruct (b' =? b); reflexivity. }
  assert (Hd : forall b', isdirty s4 b' = (b' =? b) || isdirty s b').
  { intros b'. rewrite (up_dirty _ _ _ _ _ _ U4), (up_dirty _ _ _ _ _ _ U3). destruct (b' =? b); [reflexivity|apply A7]. }
  assert (Hl : forall b', islocked s4 b' = (b' =? b) || (b' =? b0)).
  { intros b'. rewrite (up_locked _ _ _ _ _ _ U4), (up_locked _ _ _ _ _ _ U3). apply A8. }
  assert (Ei : bufs s4 i0 = bufs s2 i0) by (rewrite (up_others _ _ _ _ _ _ U4), (up_others _ _ _ _ _ _ U3) by congruence; reflexivity).
  eapply wp_mono; [apply (brelse_ok b); [apply U4|apply U4|left; rewrite Hd, Z.eqb_refl; reflexivity]|]. intros [] s5 R5.
  pose proof (re_others _ _ _ _ R5 i0 (not_eq_sym Hij)) as Ei5. destruct (brelse_beyond _ _ _ _ R5) as (F1 & F2 & F3 & F4 & F5 & F6).
  assert (Hh5 : holds s5 b0 i0) by (apply (holds_upd s2); [exact A2|congruence]).
  assert (Hdt : isdirty s5 b0 = true \/ bdata (bufs s5 i0) = disk s5 b0).
  { rewrite (re_dirty _ _ _ _ R5), Hd, Ei5, Ei, A4, F2, E4, E3. cbn. rewrite G2. destruct (isdirty s b0) eqn:Ed; [left; apply orb_true_r|right].
    apply view_clean; [apply R|exact Ed|apply R]. }
  destruct (wp_ret _ _ _ (brelse_ok b0 i0 s5 (re_inv _ _ _ _ R5) Hh5 Hdt)) as ([] & s6 & _ & R6).
  destruct (brelse_beyond _ _ _ _ R6) as (K1 & K2 & K3 & K4 & K5 & K6). exists s6.
  assert (Hv6 : forall b', view s6 b' = if b' =? b then d else view s b') by (intros b'; rewrite (re_view _ _ _ _ R6), (re_view _ _ _ _ R5); apply Hv).
  assert (Hd6 : forall b', isdirty s6 b' = (b' =? b) || isdirty s b') by (intros b'; rewrite (re_dirty _ _ _ _ R6), (re_dirty _ _ _ _ R5); apply Hd).
  assert (B6 : wtrace s6 = wtrace s /\ disk s6 = disk s /\ disksize s6 = disksize s /\ logst s6 = set_lh bs' (logst s) /\ sblock s6 = sblock s /\ icache s6 = icache s)
    by (rewrite K1, K2, K3, K4, K5, K6, F1, F2, F3, F4, F5, F6, E4, E3; cbn; repeat split; congruence).
  destruct B6 as (B1 & B2 & B3 & B4 & B5 & B6). split; [split; [|split; [exact Hv6|split]]|split].
  - apply (trans_grow bs b s s6); auto; [apply R6|].
    intros b'. rewrite (re_locked _ _ _ _ R6), (re_locked _ _ _ _ R5), Hl. destruct (b' =? b), (b' =? b0); reflexivity.
  - repeat split; assumption.
  - rewrite B4. reflexivity.
  - apply R5.
  - exact Hh5.
  - rewrite Ei5, Ei, A4, Hv6. destruct (Z.eqb_spec b0 b); [congruence|reflexivity].
  - intros b'. rewrite (re_view _ _ _ _ R6). reflexivity.
  - intros b'. rewrite (re_dirty _ _ _ _ R6). reflexivity.
  - intros b'. rewrite (re_locked _ _ _ _ R5), Hl. destruct (Z.eqb_spec b' b), (Z.eqb_spec b' b0); subst; try reflexivity; congruence.
  - repeat split; congruence.
Qed.

Lemma log_beside b0 i0 n b i d s s2 : held_beside b0 i0 (S n) b i s s2 -> home s b ->
  wp (updb i (set_bdata d) ;;; log_write i ;;; brelse i) (fun _ s1 => exists s', beside b0 i0 n s' s1 /\ fstep [(b, d)] s s') s2.
Proof.
  intros ((bs & T & H0 & H1 & H2 & H3) & Hne & A) (Hr & Hl & Hb1).
  eapply wp_mono; [apply (log_tail_beside bs b0 i0 b i d s s2); auto; repeat split; lia|]. intros [] s1 (s' & L & A1).
  destruct (logged_step bs (S n) b d s s') as [T' F]; auto. exists s'. split; [|exact F]. split; assumption.
Qed.

#[global] Instance beside_txn b0 i0 : Txn (beside b0 i0) (held_beside b0 i0) (fun b => b <> b0).
Proof.
  split.
  - intros n s s1 [_ A]. apply (h1_beyond _ _ _ _ A).
  - intros n b s s1 [T A] Hne Hr. pose proof T as (bs & Ti & _ & _ & Hn & _).
    eapply wp_mono; [apply (bread_held2 pid b0 b i0 s s1 A (not_eq_sym Hne) Hr)|].
    + apply (held1_avail bs b0 b i0 s s1 A (rl_pin _ _ _ _ (it_ready _ _ Ti))). right. lia.
    + intros i s2 H2. split; auto.
  - intros n b i s s2 (_ & _ & H2). apply (h2_data' _ _ _ _ _ _ H2).
  - intros n b i s s2 H. eapply wp_mono; [apply (brelse_beside _ _ _ _ _ _ _ H)|]. intros [] s1 H1. exists s. auto using fstep_refl.
  - intros n b i d s s2. apply log_beside.
Qed.
End Rules.

(** ** The free bitmap *)

Lemma bit_clear_testbit d bi : bit_clear d bi = negb (Z.testbit (byte_at d (bi / 8)) (bi mod 8)).
Proof.
  unfold bit_clear, bmask. assert (Hk : 0 <= bi mod 8 < 8) by (apply Z.mod_pos_bound; lia).
  rewrite Z.shiftl_1_l. destruct (Z.testbit (byte_at d (bi / 8)) (bi mod 8)) eqn:E; cbn [negb].
  - apply Z.eqb_neq. intros H0. apply (f_equal (fun x => Z.testbit x (bi mod 8))) in H0.
    rewrite Z.land_spec, E, Z.pow2_bits_true, Z.bits_0 in H0 by lia. discriminate.
  - apply Z.eqb_eq, Z.bits_inj'. intros k Hk'. rewrite Z.land_spec, Z.bits_0, Z.pow2_bits_eqb by lia.
    destruct (Z.eqb_spec (bi mod 8) k) as [<-|]; [rewrite E; reflexivity|apply andb_false_r].
Qed.

Lemma u8_testbit x k : 0 <= k < 8 -> Z.testbit (u8 x) k = Z.testbit x k.
Proof. intros Hk. unfold u8. apply Z.mod_pow2_bits_low. lia. Qed.

(** A bit of the map after bit [bi] was changed to [v]. *)
Lemma bit_clear_upd d bi bj (x : Z) (v : bool) : 0 <= bi < 8 * Z.of_nat (length d) -> 0 <= bj ->
  (forall k, 0 <= k < 8 -> Z.testbit x k = if k =? bi mod 8 then v else Z.testbit (byte_at d (bi / 8)) k) ->
  bit_clear (wr8 d (bi / 8) x) bj = if bj =? bi then negb v else bit_clear d bj.
Proof.
  intros Hi Hj Hx. rewrite !bit_clear_testbit. assert (Hk : 0 <= bj mod 8 < 8) by (apply Z.mod_pos_bound; lia).
  assert (Hd : bi / 8 < Z.of_nat (length d)) by (apply Z.div_lt_upper_bound; lia). assert (0 <= bi / 8) by (apply Z.div_pos; lia).
  assert (0 <= bj / 8) by (apply Z.div_pos; lia).
  destruct (Z.eq_dec (bi / 8) (bj / 8)) as [E|E].
  - rewrite <- E, byte_wr8_eq, u8_testbit, Hx by lia. destruct (Z.eqb_spec bj bi) as [->|Hne]; [rewrite Z.eqb_refl; reflexivity|].
    destruct (Z.eqb_spec (bj mod 8) (bi mod 8)) as [E2|]; [|reflexivity].
    destruct Hne. rewrite (Z.div_mod bj 8), (Z.div_mod bi 8), E, E2 by lia. reflexivity.
  - rewrite byte_wr8_ne by lia. destruct (Z.eqb_spec bj bi) as [->|]; [congruence|reflexivity].
Qed.

Lemma bit_set d bi bj : 0 <= bi < 8 * Z.of_nat (length d) -> 0 <= bj ->
  bit_clear (wr8 d (bi / 8) (Z.lor (byte_at d (bi / 8)) (bmask bi))) bj = if bj =? bi then false else bit_clear d bj.
Proof.
  intros Hi Hj. apply (bit_clear_upd d bi bj _ true Hi Hj). intros k Hk. unfold bmask.
  assert (0 <= bi mod 8 < 8) by (apply Z.mod_pos_bound; lia).
  rewrite Z.lor_spec, Z.shiftl_1_l, Z.pow2_bits_eqb, Z.eqb_sym by lia.
  destruct (k =? bi mod 8); [apply orb_true_r|apply orb_false_r].
Qed.

Lemma bit_reset d bi bj : 0 <= bi < 8 * Z.of_nat (length d) -> 0 <= bj ->
  bit_clear (wr8 d (bi / 8) (Z.ldiff (byte_at d (bi / 8)) (bmask bi))) bj = if bj =? bi then true else bit_clear d bj.
Proof.
  intros Hi Hj. apply (bit_clear_upd d bi bj _ false Hi Hj). intros k Hk. unfold bmask.
  assert (0 <= bi mod 8 < 8) by (apply Z.mod_pos_bound; lia).
  rewrite Z.ldiff_spec, Z.shiftl_1_l, Z.pow2_bits_eqb, Z.eqb_sym by lia.
  destruct (k =? bi mod 8); [apply andb_false_r|apply andb_true_r].
Qed.

(** [balloc]'s inner loop stops at the first clear bit. *)
Lemma balloc_scan_some n d b size : forall bi r, 0 <= bi -> balloc_scan n d b bi size = Some r ->
  bi <= r < BPB /\ b + r < size /\ bit_clear d r = true /\ forall k, bi <= k < r -> bit_clear d k = false.
Proof.
  induction n as [|n IH]; intros bi r H0 E; cbn in E; [discriminate|]. case_if_in E; [|discriminate].
  destruct (bit_clear d bi) eqn:Eb.
  - injection E as <-. split; [lia|]. split; [lia|]. split; [exact Eb|]. intros k Hk. lia.
  - destruct (IH (bi + 1) r ltac:(lia) E) as (P1 & P2 & P3 & P4). split; [lia|]. split; [lia|]. split; [exact P3|].
    intros k Hk. destruct (Z.eq_dec k bi) as [->|]; [exact Eb|apply P4; lia].
Qed.

Lemma balloc_scan_none n d b size : forall bi, 0 <= bi -> BPB <= bi + Z.of_nat n -> balloc_scan n d b bi size = None ->
  forall k, bi <= k < BPB -> b + k < size -> bit_clear d k = false.
Proof.
  induction n as [|n IH]; intros bi H0 Hn E k Hk Hs; cbn in E; [lia|]. case_if_in E; [|lia].
  destruct (bit_clear d bi) eqn:Eb; [discriminate|]. destruct (Z.eq_dec k bi) as [->|]; [exact Eb|].
  apply (IH (bi + 1)); auto; lia.
Qed.

(** Block [b] is marked in use. *)
Definition inuse (s : fs) (b : Z) : bool := negb (bit_clear (view s (BBLOCK b (sblock s))) (b mod BPB)).

(** The free map lies on blocks a transaction may write, and blocks marked free
    are such blocks too, and not part of the map. *)
Record bitmap_ok (s : fs) : Prop := mkbitmap {
  bo_size : 0 < sb_size (sblock s) <= disksize s;
  bo_map : 0 <= sb_bmapstart (sblock s) /\ sb_bmapstart (sblock s) + sb_size (sblock s) / BPB < 2 ^ 31;
  bo_home : forall b, 0 <= b < sb_size (sblock s) -> home s (BBLOCK b (sblock s));
  bo_len : forall b, 0 <= b < sb_size (sblock s) -> length (view s (BBLOCK b (sblock s))) = Z.to_nat BSIZE;
  bo_free : forall b, 0 <= b < sb_size (sblock s) -> inuse s b = false ->
    home s b /\ forall c, 0 <= c < sb_size (sblock s) -> BBLOCK c (sblock s) <> b }.

Lemma BBLOCK_eq s b : bitmap_ok s -> 0 <= b < sb_size (sblock s) ->
  BBLOCK b (sblock s) = b / BPB + sb_bmapstart (sblock s).
Proof.
  intros [_ [H1 H2] _ _ _] Hb. unfold BBLOCK. apply u32_small.
  assert (0 <= b / BPB) by (apply Z.div_pos; unfold BPB, BSIZE; lia).
  assert (b / BPB <= sb_size (sblock s) / BPB) by (apply Z.div_le_mono; unfold BPB, BSIZE; lia). lia.
Qed.

Lemma same_bit s b c : bitmap_ok s -> 0 <= b < sb_size (sblock s) -> 0 <= c < sb_size (sblock s) ->
  BBLOCK b (sblock s) = BBLOCK c (sblock s) -> b mod BPB = c mod BPB -> b = c.
Proof.
  intros Ho Hb Hc E1 E2. rewrite !(BBLOCK_eq s) in E1 by assumption.
  rewrite (Z.div_mod b BPB), (Z.div_mod c BPB), E2 by (unfold BPB, BSIZE; lia). f_equal. f_equal. lia.
Qed.

Lemma inuse_same s s' b : fstep [] s s' -> inuse s' b = inuse s b.
Proof. intros F. unfold inuse. rewrite (fs_sb _ _ _ F), (fs_view _ _ _ F). reflexivity. Qed.

Lemma bitmap_same s s' : fstep [] s s' -> bitmap_ok s -> bitmap_ok s'.
Proof.
  intros F [H1 H2 H3 H4 H5]. split; rewrite ?(fs_sb _ _ _ F), ?(fs_size _ _ _ F); auto.
  - intros b Hb. eapply fstep_home; eauto.
  - intros b Hb. rewrite (fs_view _ _ _ F). apply H4, Hb.
  - intros b Hb Hi. rewrite (inuse_same _ _ _ F) in Hi. destruct (H5 b Hb Hi) as [A B]. split; [|exact B].
    eapply fstep_home; eauto.
Qed.

(** The content of the map's block after block [b]'s bit was set or reset. *)
Definition marked (s : fs) (b : Z) (f : Z -> Z -> Z) : list Z :=
  let d := view s (BBLOCK b (sblock s)) in let bi := b mod BPB in
  wr8 d (bi / 8) (f (byte_at d (bi / 8)) (bmask bi)).

Lemma BPB_mod b : 0 <= b mod BPB < BPB.
Proof. apply Z.mod_pos_bound. unfold BPB, BSIZE. lia. Qed.

(** [b] is the first block that is free. *)
Definition first_free (s : fs) (b : Z) : Prop :=
  0 <= b < sb_size (sblock s) /\ inuse s b = false /\ forall c, 0 <= c < b -> inuse s c = true.

Lemma div_BPB b bi : 0 <= bi < BPB -> b mod BPB = 0 -> (b + bi) / BPB = b / BPB /\ (b + bi) mod BPB = bi.
Proof. unfold BPB, BSIZE. intros H1 H2. Z.to_euclidean_division_equations. lia. Qed.

Lemma BBLOCK_add sb b bi : 0 <= bi < BPB -> b mod BPB = 0 -> BBLOCK (b + bi) sb = BBLOCK b sb.
Proof. intros H1 H2. unfold BBLOCK. rewrite (proj1 (div_BPB b bi H1 H2)). reflexivity. Qed.

Section BallocIn.
Context (pid : Z) (open_ : nat -> fs -> fs -> Prop) (held_ : nat -> Z -> nat -> fs -> fs -> Prop) (other : Z -> Prop).
Context `{TX : !Txn pid open_ held_ other}.

(** The rules of the interface, for sequences. *)
Lemma tx_read {A} n b s s1 (k : nat -> M fs A) Q : open_ n s s1 -> other b -> 0 <= b < disksize s ->
  (forall i s2, held_ n b i s s2 -> wp (k i) Q s2) -> wp (i <- bread pid 1 b ;; k i) Q s1.
Proof. intros O Hb Hr HQ. apply wp_bind. eapply wp_mono; [apply (tx_bread pid n b s s1 O Hb Hr)|]. intros i s2. apply HQ. Qed.

Lemma tx_getdata {A} n b i s s2 (k : list Z -> M fs A) Q : held_ n b i s s2 -> wp (k (view s b)) Q s2 -> wp (d <- getb i bdata ;; k d) Q s2.
Proof. intros H HQ. apply wp_bind, wp_gets. rewrite (tx_data pid n b i s s2 H). exact HQ. Qed.

Lemma tx_release {A} n b i s s2 (k : M fs A) Q : held_ n b i s s2 ->
  (forall s' s1, open_ n s' s1 -> fstep [] s s' -> wp k Q s1) -> wp (brelse i ;;; k) Q s2.
Proof. intros H HQ. apply wp_bind. eapply wp_mono; [apply (tx_brelse pid n b i s s2 H)|]. intros [] s1 (s' & O & F). eauto. Qed.

Lemma bzero_in n b s s1 : open_ (S n) s s1 -> other b -> home s b -> b < 2 ^ 31 ->
  wp (bzero pid 1 b) (fun _ s1' => exists s', open_ n s' s1' /\ fstep [(b, replicate (Z.to_nat BSIZE) 0)] s s') s1.
Proof.
  intros O Hb Hh Hlt. unfold bzero. pose proof Hh as [Hr _]. rewrite u32_small by lia.
  apply (tx_read (S n) b s); auto. intros i s2 H. apply (tx_log pid n b); auto.
Qed.

(** The bitmap block of [b] found with [bi] clear: take block [b + bi]. *)
Lemma balloc_take n b bi i s s2 : held_ (S (S n)) (BBLOCK b (sblock s)) i s s2 -> bitmap_ok s -> 0 <= b -> b mod BPB = 0 ->
  0 <= bi < BPB -> b + bi < sb_size (sblock s) -> inuse s (b + bi) = false -> other (b + bi) -> disksize s <= 2 ^ 31 ->
  let d := view s (BBLOCK b (sblock s)) in
  wp (updb i (set_bdata (wr8 d (bi / 8) (Z.lor (byte_at d (bi / 8)) (bmask bi)))) ;;;
      log_write i ;;; brelse i ;;; bzero pid 1 (b + bi) ;;; ret (b + bi))
    (fun r s1' => r = b + bi /\ exists s', open_ n s' s1' /\
       fstep [(BBLOCK r (sblock s), marked s r Z.lor); (r, replicate (Z.to_nat BSIZE) 0)] s s') s2.
Proof.
  intros H Ho H0 Hb Hbi Hsz Hfree Hot Hd d. destruct (div_BPB b bi Hbi Hb) as [E1 E2].
  pose proof (BBLOCK_add (sblock s) b bi Hbi Hb) as EB. assert (Hin : 0 <= b + bi < sb_size (sblock s)) by lia.
  destruct (bo_free _ Ho _ Hin Hfree) as [Hh _]. pose proof (bo_home _ Ho _ Hin) as Hm. rewrite EB in Hm.
  apply wp_seq3. eapply wp_mono; [apply (tx_log pid (S n) (BBLOCK b (sblock s)) i _ s s2); auto|]. intros [] s3 (sa & O2 & F2).
  apply wp_bind. eapply wp_mono; [apply (bzero_in n (b + bi) sa); auto|].
  - eapply fstep_home; eauto.
  - destruct Hh. lia.
  - intros [] s4 (sb' & O3 & F3). apply wp_pure. split; [reflexivity|]. exists sb'. split; [exact O3|].
    unfold marked. rewrite EB, E2. apply (fstep_trans [_] [_] _ _ _ F2 F3).
Qed.

(** The caller holds neither a block of the map nor a free block. *)
Definition map_other (s : fs) : Prop := forall c, 0 <= c < sb_size (sblock s) ->
  other (BBLOCK c (sblock s)) /\ (inuse s c = false -> other c).

Lemma balloc_loop_in f : forall n b s s1, open_ (S (S n)) s s1 -> bitmap_ok s -> map_other s -> disksize s <= 2 ^ 31 -> 0 <= b -> b mod BPB = 0 ->
  (forall c, 0 <= c < b -> c < sb_size (sblock s) -> inuse s c = true) ->
  (exists c, 0 <= c < sb_size (sblock s) /\ inuse s c = false) -> sb_size (sblock s) - b < BPB * Z.of_nat f ->
  wp (balloc_loop pid f 1 b) (fun r s1' => first_free s r /\ exists s', open_ n s' s1' /\
    fstep [(BBLOCK r (sblock s), marked s r Z.lor); (r, replicate (Z.to_nat BSIZE) 0)] s s') s1.
Proof.
  induction f as [|f IH]; intros n b s s1 O Ho Hmo Hd H0 Hb Hlow (c & Hc & Hfree) Hf; cbn [balloc_loop].
  { assert (b <= c) by (destruct (Z.le_gt_cases b c); [auto|]; rewrite Hlow in Hfree by lia; discriminate). lia. }
  assert (Hbc : b <= c) by (destruct (Z.le_gt_cases b c); [auto|]; rewrite Hlow in Hfree by lia; discriminate).
  apply wp_bind, wp_gets. rewrite (tx_sblock pid _ _ _ O). destruct (b <? sb_size (sblock s)) eqn:Eb; zbool; [|lia].
  destruct (bo_home _ Ho b ltac:(lia)) as [Hr _]. destruct (Hmo b ltac:(lia)) as [Hmb _].
  apply (tx_read (S (S n)) _ s); auto. intros i s2 H. apply (tx_getdata _ _ _ _ _ _ _ H).
  assert (Hbit : forall k, 0 <= k < BPB -> inuse s (b + k) = negb (bit_clear (view s (BBLOCK b (sblock s))) k)).
  { intros k Hk. unfold inuse. rewrite BBLOCK_add by assumption. rewrite (proj2 (div_BPB b k Hk Hb)). reflexivity. }
  destruct (balloc_scan _ _ b 0 _) as [bi|] eqn:E.
  - apply balloc_scan_some in E as (P1 & P2 & P3 & P4); [|lia].
    assert (Hfree' : inuse s (b + bi) = false) by (rewrite Hbit, P3 by lia; reflexivity).
    eapply wp_mono; [apply (balloc_take n b bi i s s2 H); auto; apply Hmo; [lia|assumption]|].
    intros r s' (-> & X). split; [|exact X].
    split; [lia|]. split; [exact Hfree'|]. intros k Hk. destruct (Z.le_gt_cases b k); [|apply Hlow; lia].
    replace k with (b + (k - b)) by lia. rewrite Hbit, P4 by lia. reflexivity.
  - pose proof (fun H1 H2 => balloc_scan_none _ _ _ _ 0 H1 H2 E) as Hnone. specialize (Hnone ltac:(lia) ltac:(lia)).
    apply (tx_release _ _ _ _ _ _ _ H). intros sa s3 O2 F2.
    eapply wp_mono; [apply (IH n (b + BPB) sa s3 O2 (bitmap_same _ _ F2 Ho)); rewrite ?(fs_sb _ _ _ F2), ?(fs_size _ _ _ F2); auto|].
    + intros k. rewrite (fs_sb _ _ _ F2), (inuse_same _ _ _ F2). apply Hmo.
    + unfold BPB, BSIZE. lia.
    + rewrite <- Hb. unfold BPB, BSIZE. Z.to_euclidean_division_equations. lia.
    + intros k Hk Hs. rewrite (inuse_same _ _ _ F2). destruct (Z.le_gt_cases b k); [|apply Hlow; lia].
      replace k with (b + (k - b)) by lia. rewrite Hbit, Hnone by lia. reflexivity.
    + exists c. rewrite (inuse_same _ _ _ F2). auto.
    + lia.
    + intros r s' ((P1 & P2 & P3) & sc & T' & F'). rewrite (fs_sb _ _ _ F2) in P1, F'. split; [|exists sc; split; [exact T'|]].
      * split; [exact P1|]. rewrite (inuse_same _ _ _ F2) in P2. split; [exact P2|].
        intros k Hk. rewrite <- (inuse_same _ _ k F2). apply P3, Hk.
      * pose proof (fstep_trans _ _ _ _ _ F2 F') as F. cbn [app] in F.
        replace (marked sa r Z.lor) with (marked s r Z.lor) in F; [exact F|].
        unfold marked. rewrite (fs_sb _ _ _ F2), (fs_view _ _ _ F2). reflexivity.
Qed.

Lemma balloc_in n s s1 : open_ (S (S n)) s s1 -> bitmap_ok s -> map_other s -> disksize s <= 2 ^ 31 ->
  (exists c, 0 <= c < sb_size (sblock s) /\ inuse s c = false) ->
  wp (balloc pid 1) (fun r s1' => first_free s r /\ exists s', open_ n s' s1' /\
    fstep [(BBLOCK r (sblock s), marked s r Z.lor); (r, replicate (Z.to_nat BSIZE) 0)] s s') s1.
Proof.
  intros O Ho Hmo Hd Hex. unfold balloc. apply wp_bind, wp_gets. rewrite (tx_sblock pid _ _ _ O). apply balloc_loop_in; auto; try lia.
  pose proof (bo_size _ Ho). unfold BPB, BSIZE. Z.to_euclidean_division_equations. lia.
Qed.
End BallocIn.

Section Balloc.
Context (pid : Z).

Lemma balloc_ok n s : trans (S (S n)) s -> bitmap_ok s -> disksize s <= 2 ^ 31 ->
  (exists c, 0 <= c < sb_size (sblock s) /\ inuse s c = false) ->
  wp (balloc pid 1) (fun r s' => first_free s r /\ trans n s' /\
    fstep [(BBLOCK r (sblock s), marked s r Z.lor); (r, replicate (Z.to_nat BSIZE) 0)] s s') s.
Proof.
  intros T Ho Hd Hex. eapply wp_mono; [apply (balloc_in pid alone held (fun _ => True) n s s); auto|].
  - split; auto.
  - intros c _. auto.
  - intros r s1 (P & s' & [T' ->] & F). auto.
Qed.

(** When nothing is free the scan runs to the end and panics. *)
Lemma balloc_loop_full f : forall n b s, trans n s -> bitmap_ok s -> 0 <= b -> b mod BPB = 0 ->
  (forall c, 0 <= c < sb_size (sblock s) -> inuse s c = true) -> sb_size (sblock s) - b < BPB * (Z.of_nat f - 1) -> (0 < f)%nat ->
  balloc_loop pid f 1 b s = Panic "balloc: out of blocks".
Proof.
  induction f as [|f IH]; intros n b s T Ho H0 Hb Hall Hf Hf0; [lia|]. cbn [balloc_loop].
  rewrite (bind_step _ _ _ (sblock s) s) by reflexivity. destruct (b <? sb_size (sblock s)) eqn:Eb; zbool; [|reflexivity].
  destruct (bo_home _ Ho b ltac:(lia)) as [Hr _].
  destruct (wp_ret _ _ _ (bread_held pid n _ s T Hr)) as (i & s1 & E1 & H). rewrite (bind_step _ _ _ _ _ E1).
  rewrite (bind_step _ _ _ (bdata (bufs s1 i)) s1) by reflexivity. pose proof H as [_ A]. rewrite (h1_data _ _ _ _ A).
  destruct (balloc_scan _ _ b 0 _) as [bi|] eqn:E.
  - apply balloc_scan_some in E as (P1 & P2 & P3 & _); [|lia]. exfalso.
    assert (Hu : inuse s (b + bi) = true) by (apply Hall; lia). unfold inuse in Hu.
    rewrite BBLOCK_add, (proj2 (div_BPB b bi P1 Hb)), P3 in Hu by assumption. discriminate.
  - destruct (wp_ret _ _ _ (brelse_held _ _ _ _ _ H)) as ([] & s2 & E2 & T2 & F2). rewrite (bind_step _ _ _ _ _ E2).
    apply (IH n); auto; rewrite ?(fs_sb _ _ _ F2).
    + eapply bitmap_same; eauto.
    + unfold BPB, BSIZE. lia.
    + rewrite <- Hb. unfold BPB, BSIZE. Z.to_euclidean_division_equations. lia.
    + intros c Hc. rewrite (inuse_same _ _ _ F2). apply Hall, Hc.
    + lia.
    + unfold BPB, BSIZE in *. lia.
Qed.

Lemma balloc_full n s : trans n s -> bitmap_ok s -> (forall c, 0 <= c < sb_size (sblock s) -> inuse s c = true) ->
  balloc pid 1 s = Panic "balloc: out of blocks".
Proof.
  intros T Ho Hall. unfold balloc. rewrite (bind_step _ _ _ (sb_size (sblock s)) s) by reflexivity.
  apply (balloc_loop_full _ n); auto; try lia. pose proof (bo_size _ Ho). unfold BPB, BSIZE. Z.to_euclidean_division_equations. lia.
Qed.

(** The map after one block's bit was changed. *)
Lemma inuse_marked s s' ws r (v : bool) f : bitmap_ok s -> 0 <= r < sb_size (sblock s) ->
  fstep ws s s' -> (forall c, 0 <= c < sb_size (sblock s) ->
    view s' (BBLOCK c (sblock s)) = if BBLOCK c (sblock s) =? BBLOCK r (sblock s) then marked s r f else view s (BBLOCK c (sblock s))) ->
  (forall d bi bj, 0 <= bi < 8 * Z.of_nat (length d) -> 0 <= bj ->
    bit_clear (wr8 d (bi / 8) (f (byte_at d (bi / 8)) (bmask bi))) bj = if bj =? bi then negb v else bit_clear d bj) ->
  forall c, 0 <= c < sb_size (sblock s) -> inuse s' c = if c =? r then v else inuse s c.
Proof.
  intros Ho Hr F Hv Hf c Hc. unfold inuse. rewrite (fs_sb _ _ _ F), Hv by exact Hc.
  pose proof (BPB_mod r). pose proof (BPB_mod c).
  destruct (Z.eqb_spec (BBLOCK c (sblock s)) (BBLOCK r (sblock s))) as [E|E].
  - unfold marked. rewrite Hf; [|rewrite (bo_len _ Ho) by exact Hr; unfold BPB, BSIZE in *; lia|lia].
    destruct (Z.eqb_spec c r) as [->|Hne]; [rewrite Z.eqb_refl; apply negb_involutive|].
    destruct (Z.eqb_spec (c mod BPB) (r mod BPB)) as [E2|]; [|rewrite E; reflexivity].
    destruct Hne. apply (same_bit s); auto.
  - destruct (Z.eqb_spec c r) as [->|]; [congruence|reflexivity].
Qed.

Lemma balloc_inuse s s' r : bitmap_ok s -> first_free s r ->
  fstep [(BBLOCK r (sblock s), marked s r Z.lor); (r, replicate (Z.to_nat BSIZE) 0)] s s' ->
  forall c, 0 <= c < sb_size (sblock s) -> inuse s' c = (c =? r) || inuse s c.
Proof.
  intros Ho (Hr & Hfree & _) F c Hc. destruct (bo_free _ Ho r Hr Hfree) as [_ Hne].
  rewrite (inuse_marked s s' _ r true Z.lor Ho Hr F); [destruct (c =? r); reflexivity| |exact bit_set|exact Hc].
  intros k Hk. rewrite (fs_view _ _ _ F). cbn. rewrite zfn_insert_ne by (apply not_eq_sym, Hne, Hk).
  destruct (Z.eqb_spec (BBLOCK k (sblock s)) (BBLOCK r (sblock s))) as [->|]; [rewrite zfn_insert_eq|rewrite zfn_insert_ne by congruence]; reflexivity.
Qed.

(** ** [bfree] *)

(** The superblock in memory is the one on the disk. *)
Definition sb_current (s : fs) : Prop := decode_sb (view s 1) = sblock s /\ 1 < disksize s.

Lemma sblock_same s : set_sblock (sblock s) s = s.
Proof. destruct s; reflexivity. Qed.

Lemma bfree_in open_ held_ other `{!Txn pid open_ held_ other} n b s s1 : open_ (S n) s s1 -> bitmap_ok s -> sb_current s ->
  0 <= b < sb_size (sblock s) -> inuse s b = true -> other 1 -> other (BBLOCK b (sblock s)) ->
  wp (bfree pid 1 b) (fun _ s1' => exists s', open_ n s' s1' /\ fstep [(BBLOCK b (sblock s), marked s b Z.ldiff)] s s') s1.
Proof.
  intros O Ho [Hsb H1] Hb Hu Ho1 Hob. unfold bfree, readsb. apply wp_bind. apply (tx_read pid open_ held_ other (S n) 1 s); auto; [lia|].
  intros i s2 H2. apply (tx_getdata pid open_ held_ other _ _ _ _ _ _ _ H2). apply (tx_release pid open_ held_ other _ _ _ _ _ _ _ H2).
  intros sa s3 O3 F3. apply wp_pure. rewrite Hsb.
  assert (Es : sblock s3 = sblock s) by (rewrite (tx_sblock pid _ _ _ O3); apply F3).
  apply wp_bind, wp_modify. rewrite <- Es, sblock_same, Es.
  pose proof (bo_home _ Ho b Hb) as Hh. pose proof (fstep_home _ _ _ _ F3 Hh) as Hh1.
  apply (tx_read pid open_ held_ other (S n) _ sa); [exact O3|exact Hob|apply Hh1|]. intros j s4 H4. apply (tx_getdata pid open_ held_ other _ _ _ _ _ _ _ H4).
  rewrite (fs_view _ _ _ F3). cbn [apply_writes]. cbv zeta.
  unfold inuse in Hu. apply negb_true_iff in Hu. rewrite Hu.
  eapply wp_mono; [apply (tx_log pid n (BBLOCK b (sblock s)) j _ sa s4 H4 Hh1)|]. intros [] s5 (s' & O' & F'). exists s'. split; [exact O'|].
  exact (fstep_trans _ _ _ _ _ F3 F').
Qed.

Lemma bfree_ok n b s : trans (S n) s -> bitmap_ok s -> sb_current s -> 0 <= b < sb_size (sblock s) -> inuse s b = true ->
  wp (bfree pid 1 b) (fun _ s' => trans n s' /\ fstep [(BBLOCK b (sblock s), marked s b Z.ldiff)] s s') s.
Proof.
  intros T Ho Hsb Hb Hu. eapply wp_mono; [apply (bfree_in alone held (fun _ => True) n b s s); auto; split; auto|].
  intros [] s1 (s' & [T' ->] & F). auto.
Qed.

Lemma bfree_free n b s : trans n s -> bitmap_ok s -> sb_current s -> 0 <= b < sb_size (sblock s) -> inuse s b = false ->
  bfree pid 1 b s = Panic "freeing free block".
Proof.
  intros T Ho [Hsb H1] Hb Hu. unfold bfree.
  assert (Hrs : wp (readsb pid 1) (fun sb s' => sb = sblock s /\ trans n s' /\ fstep [] s s') s).
  { unfold readsb. apply (wp_bread pid n); auto; [lia|]. intros i s1 H.
    apply (wp_getdata _ _ _ _ _ _ _ H). apply (wp_brelse _ _ _ _ _ _ _ H). intros s' T' F'. apply wp_pure. rewrite Hsb. auto. }
  destruct (wp_ret _ _ _ Hrs) as (sb & s1 & E1 & -> & T1 & F1). rewrite (bind_step _ _ _ _ _ E1).
  rewrite (bind_step _ _ _ tt s1) by (unfold modify; rewrite <- (fs_sb _ _ _ F1), sblock_same; reflexivity).
  destruct (fstep_home _ _ _ _ F1 (bo_home _ Ho b Hb)) as [Hr _].
  destruct (wp_ret _ _ _ (bread_held pid n _ s1 T1 Hr)) as (i & s2 & E2 & H2). rewrite (bind_step _ _ _ _ _ E2).
  rewrite (bind_step _ _ _ (bdata (bufs s2 i)) s2) by reflexivity. pose proof H2 as [_ A]. rewrite (h1_data _ _ _ _ A).
  rewrite (fs_view _ _ _ F1). cbn [apply_writes]. cbv zeta. unfold inuse in Hu. apply negb_false_iff in Hu. rewrite Hu. reflexivity.
Qed.
End Balloc.
