(* ===== verification/FsFile.v ===== *)
(** * Reading and writing files

    [bmap], [readi] and [writei] of [src/xv6/fs.c] on a file whose blocks are
    allocated, against the file's content seen as a sequence of bytes. *)

From S2P Require Import Prelude Mem Bio Log BioRules LogRules LogProps Fs FsRules.
Local Open Scope Z_scope.

(** ** Bytes of a block *)

Lemma BSIZE_eq : BSIZE = 512.
Proof. reflexivity. Qed.

Lemma slice_bytes d o m : 0 <= o -> 0 <= m -> o + m <= Z.of_nat (length d) -> slice d o m = byte_at d <$> seqZ o m.
Proof.
  intros H1 H2 H3. apply list_eq. intros i. unfold slice. rewrite list_lookup_fmap.
  destruct (decide (i < Z.to_nat m)%nat) as [Hi|Hi].
  - rewrite lookup_take_lt by exact Hi. rewrite lookup_drop, lookup_seqZ_lt by lia. cbn. unfold byte_at.
    replace (Z.to_nat (o + Z.of_nat i)) with (Z.to_nat o + i)%nat by lia.
    destruct (d !! (Z.to_nat o + i)%nat) eqn:E; [reflexivity|]. apply lookup_ge_None in E. lia.
  - rewrite lookup_take_ge, lookup_seqZ_ge by lia. reflexivity.
Qed.

Lemma length_splice d o l : 0 <= o -> o + Z.of_nat (length l) <= Z.of_nat (length d) -> length (splice d o l) = length d.
Proof. intros H1 H2. unfold splice. rewrite !length_app, length_take, length_drop. lia. Qed.

Lemma byte_splice d o l j : 0 <= o -> o + Z.of_nat (length l) <= Z.of_nat (length d) -> 0 <= j ->
  byte_at (splice d o l) j = if (o <=? j) && (j <? o + Z.of_nat (length l)) then byte_at l (j - o) else byte_at d j.
Proof.
  intros H1 H2 H3. unfold byte_at, splice. assert (Hl : length (take (Z.to_nat o) d) = Z.to_nat o) by (rewrite length_take; lia).
  destruct (Z.leb_spec o j); cbn [andb].
  - rewrite lookup_app_r by lia. rewrite Hl. destruct (Z.ltb_spec j (o + Z.of_nat (length l))).
    + rewrite lookup_app_l by lia. f_equal. f_equal. lia.
    + rewrite lookup_app_r, lookup_drop by lia. f_equal. f_equal. lia.
  - rewrite lookup_app_l by lia. rewrite lookup_take_lt by lia. reflexivity.
Qed.

(** ** A file and its content *)

(** The address of block [k] of the file. *)
Definition file_block (s : fs) (p : inode) (k : Z) : Z :=
  if k <? NDIRECT then addr_at p k else rd32 (view s (addr_at p NDIRECT)) (4 * (k - NDIRECT)).
Definition nblocks (p : inode) : Z := (isize p + BSIZE - 1) / BSIZE.
(** Byte [j] of the file. *)
Definition fbyte (s : fs) (p : inode) (j : Z) : Z := byte_at (view s (file_block s p (j / BSIZE))) (j mod BSIZE).

(** A regular file with all its blocks allocated, each to a block of its own. *)
Record file_ok (s : fs) (p : inode) : Prop := mkfile {
  fo_dev : idev p = 1;
  fo_type : itype p <> T_DEV;
  fo_size : 0 <= isize p <= MAXFILE * BSIZE;
  fo_block : forall k, 0 <= k < nblocks p ->
    home s (file_block s p k) /\ file_block s p k <> 0 /\ length (view s (file_block s p k)) = 512%nat;
  fo_indirect : NDIRECT < nblocks p -> (home s (addr_at p NDIRECT) /\ addr_at p NDIRECT <> 0) /\
    forall k, 0 <= k < nblocks p -> file_block s p k <> addr_at p NDIRECT;
  fo_inj : forall k j, 0 <= k < nblocks p -> 0 <= j < nblocks p -> file_block s p k = file_block s p j -> k = j }.

Lemma nblocks_in p j : 0 <= j < isize p -> 0 <= j / BSIZE < nblocks p.
Proof. unfold nblocks. rewrite BSIZE_eq. intros H. Z.to_euclidean_division_equations. lia. Qed.

Lemma nblocks_max p : 0 <= isize p <= MAXFILE * BSIZE -> nblocks p <= MAXFILE.
Proof. unfold nblocks, MAXFILE, NDIRECT, NINDIRECT. rewrite BSIZE_eq. intros H. Z.to_euclidean_division_equations. lia. Qed.

(** Steps that keep every block of the file. *)
Lemma file_same s s' p : fstep [] s s' -> file_ok s p -> file_ok s' p.
Proof.
  intros F [H1 H2 H3 H4 H5 H6].
  assert (E : forall k, file_block s' p k = file_block s p k) by (intros k; unfold file_block; rewrite (fs_view _ _ _ F); reflexivity).
  split; auto.
  - intros k Hk. rewrite E, (fs_view _ _ _ F). destruct (H4 k Hk) as (A & B & C). split; [|auto]. eapply fstep_home; eauto.
  - intros Hn. destruct (H5 Hn) as [[A1 A2] B]. split; [split; [eapply fstep_home; eauto|exact A2]|]. intros k Hk. rewrite E. apply B, Hk.
  - intros k j Hk Hj. rewrite !E. apply H6; auto.
Qed.

Lemma fbyte_same s s' p j : fstep [] s s' -> fbyte s' p j = fbyte s p j.
Proof. intros F. unfold fbyte, file_block. rewrite !(fs_view _ _ _ F). reflexivity. Qed.

(** The bytes of one block of the file. *)
Lemma fbyte_slice s p off m : 0 <= off -> 0 <= m <= BSIZE - off mod BSIZE ->
  byte_at (view s (file_block s p (off / BSIZE))) <$> seqZ (off mod BSIZE) m = fbyte s p <$> seqZ off m.
Proof.
  rewrite BSIZE_eq. intros H1 H2. apply list_eq. intros i. rewrite !list_lookup_fmap.
  destruct (decide (i < Z.to_nat m)%nat) as [Hi|Hi]; [|rewrite !lookup_seqZ_ge by lia; reflexivity].
  rewrite !lookup_seqZ_lt by lia. cbn. unfold fbyte. rewrite BSIZE_eq. f_equal.
  replace ((off + Z.of_nat i) / 512) with (off / 512) by (Z.to_euclidean_division_equations; lia).
  replace ((off + Z.of_nat i) mod 512) with (off mod 512 + Z.of_nat i) by (Z.to_euclidean_division_equations; lia). reflexivity.
Qed.

(** One run of bytes laid over another that ends where it starts. *)
Lemma overlay_app off src1 src2 j x :
  (let m := off + Z.of_nat (length src1) in
   if (m <=? j) && (j <? m + Z.of_nat (length src2)) then byte_at src2 (j - m)
   else if (off <=? j) && (j <? m) then byte_at src1 (j - off) else x) =
  if (off <=? j) && (j <? off + Z.of_nat (length (src1 ++ src2))) then byte_at (src1 ++ src2) (j - off) else x.
Proof.
  cbv zeta. rewrite length_app, Nat2Z.inj_add. unfold byte_at.
  repeat (case_if; zbool); try lia; try reflexivity.
  - rewrite lookup_app_r by lia. f_equal. f_equal. lia.
  - rewrite lookup_app_l by lia. reflexivity.
Qed.

Section File.
Context (pid : Z) (dev_read : Z -> option (Z -> M fs (Z * list Z))) (dev_write : Z -> option (list Z -> M fs Z)).
Context (ip : nat) (p : inode).

(** The inode's entry is [p], and the file is in order. *)
Definition opened (n : nat) (s : fs) : Prop := trans n s /\ icache s ip = p /\ file_ok s p.

Lemma opened_same n s s' : opened n s -> trans n s' -> fstep [] s s' -> opened n s'.
Proof. intros (T & E & H) T' F. split; [exact T'|]. rewrite (fs_icache _ _ _ F). split; [exact E|]. eapply file_same; eauto. Qed.

(** [bmap] on an allocated block. *)
Lemma bmap_ok n k s : opened n s -> 0 <= k < nblocks p ->
  wp (bmap pid ip k) (fun a s' => a = file_block s p k /\ trans n s' /\ fstep [] s s') s.
Proof.
  intros (T & E & H) Hk. unfold bmap. apply wp_bind, wp_gets. rewrite E. unfold id.
  destruct (fo_block _ _ H k Hk) as (_ & Hnz & _). unfold file_block in *. destruct (k <? NDIRECT) eqn:Ek; zbool.
  - destruct (Z.eqb_spec (addr_at p k) 0); [congruence|]. apply wp_pure. auto using fstep_refl.
  - pose proof (nblocks_max p (fo_size _ _ H)) as Hm. unfold MAXFILE in Hm.
    destruct (k - NDIRECT <? NINDIRECT) eqn:Ek2; zbool; [|lia].
    destruct (fo_indirect _ _ H ltac:(lia)) as [[[Hi _] Hi0] _].
    destruct (Z.eqb_spec (addr_at p NDIRECT) 0); [congruence|]. apply wp_bind, wp_pure, wp_bind, wp_gets. rewrite E, (fo_dev _ _ H).
    apply (wp_bread pid n); auto. intros i s1 H1. apply (wp_getdata _ _ _ _ _ _ _ H1). cbv zeta.
    destruct (Z.eqb_spec (rd32 (view s (addr_at p NDIRECT)) (4 * (k - NDIRECT))) 0); [congruence|].
    apply (wp_brelse _ _ _ _ _ _ _ H1). intros s' T' F'. apply wp_pure. auto.
Qed.

(** A change of a held block's data in place. *)
Lemma wp_updb_data {A} i (f : list Z -> list Z) (k : M fs A) Q s :
  wp (updb i (set_bdata (f (bdata (bufs s i)))) ;;; k) Q s -> wp (updb i (fun b => set_bdata (f (bdata b)) b) ;;; k) Q s.
Proof. auto. Qed.

(** Iterations left: [off] and [n] need this much fuel. *)
Definition enough (f : nat) (off n : Z) : Prop :=
  n <= 0 /\ (1 <= f)%nat \/ off mod BSIZE + n <= BSIZE * (Z.of_nat f - 1).

Lemma enough_step f off n : enough (S f) off n -> 0 < n -> 0 <= off ->
  enough f (off + Z.min n (BSIZE - off mod BSIZE)) (n - Z.min n (BSIZE - off mod BSIZE)).
Proof.
  unfold enough. rewrite BSIZE_eq. intros [[H _]|H] Hn Ho; [lia|].
  destruct (Z.le_gt_cases n (512 - off mod 512)).
  - left. split; [lia|]. Z.to_euclidean_division_equations. lia.
  - right. rewrite Z.min_r by lia. replace ((off + (512 - off mod 512)) mod 512) with 0 by (Z.to_euclidean_division_equations; lia). lia.
Qed.

Lemma enough_start off n : 0 <= n -> 0 <= off -> enough (Z.to_nat (n / BSIZE) + 3) off n.
Proof. unfold enough. rewrite BSIZE_eq. intros Hn Ho. right. Z.to_euclidean_division_equations. lia. Qed.

Lemma readi_loop_ok f : forall m off n s, opened m s -> 0 <= off -> 0 <= n -> off + n <= isize p -> enough f off n ->
  wp (readi_loop pid f ip off n) (fun l s' => l = (fbyte s p <$> seqZ off n) /\ trans m s' /\ fstep [] s s') s.
Proof.
  induction f as [|f IH]; intros m off n s Ho H0 Hn Hsz He; cbn [readi_loop].
  { exfalso. pose proof (Z.mod_pos_bound off BSIZE ltac:(reflexivity)) as Hm. destruct He as [[_ He]|He]; rewrite BSIZE_eq in *; lia. }
  pose proof Ho as (T & E & H). destruct (n <=? 0) eqn:En; zbool.
  - apply wp_pure. assert (n = 0) as -> by lia. auto using fstep_refl.
  - apply wp_bind, wp_gets. rewrite E, (fo_dev _ _ H). pose proof (nblocks_in p off ltac:(lia)) as Hk.
    apply wp_bind. eapply wp_mono; [apply (bmap_ok m _ s Ho Hk)|]. intros a s1 (-> & T1 & F1).
    destruct (fo_block _ _ H _ Hk) as ([Hr _] & _ & Hlen).
    apply (wp_bread pid m); auto; [rewrite (fs_size _ _ _ F1); exact Hr|]. intros i s2 H2. apply (wp_getdata _ _ _ _ _ _ _ H2).
    apply (wp_brelse _ _ _ _ _ _ _ H2). intros s3 T3 F3. pose proof (fstep_trans _ _ _ _ _ F1 F3) as F13.
    set (k := Z.min n (BSIZE - off mod BSIZE)). assert (Hm : 0 <= off mod BSIZE < BSIZE) by (apply Z.mod_pos_bound; reflexivity).
    assert (Hkk : 0 < k <= n /\ k <= BSIZE - off mod BSIZE) by (unfold k; lia).
    apply wp_bind. eapply wp_mono; [apply (IH m (off + k) (n - k) s3); try lia|].
    + eapply opened_same; eauto.
    + apply enough_step; auto; lia.
    + intros l s' (-> & T' & F'). apply wp_pure. split; [|split; [exact T'|exact (fstep_trans _ _ _ _ _ F13 F')]].
      rewrite (fs_view _ _ _ F1). cbn [apply_writes].
      rewrite slice_bytes, fbyte_slice by (rewrite ?Hlen; rewrite BSIZE_eq in *; lia).
      rewrite (list_fmap_ext (fbyte s3 p) (fbyte s p)) by (intros; apply (fbyte_same _ _ _ _ F13)).
      rewrite <- fmap_app. f_equal. rewrite <- seqZ_app by lia. f_equal. lia.
Qed.

(** [readi] returns the bytes of the file, up to its end. *)
Lemma readi_ok m off n s : opened m s -> 0 <= off <= isize p -> 0 <= n -> off + n < 2 ^ 31 ->
  let k := Z.min n (isize p - off) in
  wp (readi pid dev_read ip off n) (fun r s' => r = (k, fbyte s p <$> seqZ off k) /\ trans m s' /\ fstep [] s s') s.
Proof.
  intros Ho H0 Hn Hov k. pose proof Ho as (T & E & H). unfold readi. apply wp_bind, wp_gets. rewrite E. unfold id.
  destruct (Z.eqb_spec (itype p) T_DEV); [destruct (fo_type _ _ H); auto|].
  rewrite u32_small by lia. destruct (_ || _) eqn:E1; zbool; [destruct E1; zbool; lia|].
  assert (Ek : (if off + n >? isize p then isize p - off else n) = k).
  { unfold k. destruct (off + n >? isize p) eqn:E2; zbool; lia. }
  rewrite Ek. apply wp_bind. eapply wp_mono; [apply (readi_loop_ok _ m off k s Ho); try lia; apply enough_start; lia|].
  intros l s' (-> & T' & F'). apply wp_pure. split; [|auto]. f_equal. apply s32_small. lia.
Qed.

(** ** Writing *)

(** Bytes [off], ..., of the file replaced by [src]; nothing else. *)
Record over (off : Z) (src : list Z) (s s' : fs) : Prop := mkover {
  ov_file : file_ok s' p;
  ov_block : forall k, 0 <= k < nblocks p -> file_block s' p k = file_block s p k;
  ov_byte : forall j, 0 <= j < isize p ->
    fbyte s' p j = if (off <=? j) && (j <? off + Z.of_nat (length src)) then byte_at src (j - off) else fbyte s p j;
  ov_other : forall b, (forall k, 0 <= k < nblocks p -> b <> file_block s p k) -> view s' b = view s b }.

(** One block rewritten. *)
Lemma over_block k d off src s s' : file_ok s p -> 0 <= k < nblocks p -> length d = 512%nat ->
  fstep [(file_block s p k, d)] s s' ->
  (forall j, 0 <= j < BSIZE -> byte_at d j =
    if (off <=? k * BSIZE + j) && (k * BSIZE + j <? off + Z.of_nat (length src)) then byte_at src (k * BSIZE + j - off)
    else byte_at (view s (file_block s p k)) j) ->
  k * BSIZE <= off -> off + Z.of_nat (length src) <= (k + 1) * BSIZE -> over off src s s'.
Proof.
  intros H Hk Hd F Hb H1 H2.
  assert (Hv : forall b, view s' b = if b =? file_block s p k then d else view s b).
  { intros b. rewrite (fs_view _ _ _ F). cbn. destruct (Z.eqb_spec b (file_block s p k)) as [->|];
      [rewrite zfn_insert_eq|rewrite zfn_insert_ne by congruence]; reflexivity. }
  assert (E : forall j, 0 <= j < nblocks p -> file_block s' p j = file_block s p j).
  { intros j Hj. unfold file_block at 1. destruct (j <? NDIRECT) eqn:Ej; zbool;
      [unfold file_block; destruct (Z.ltb_spec j NDIRECT); [reflexivity|lia]|].
    destruct (fo_indirect _ _ H ltac:(lia)) as [_ Hne]. rewrite Hv. destruct (Z.eqb_spec (addr_at p NDIRECT) (file_block s p k)) as [E|];
      [destruct (Hne k Hk); auto|]. unfold file_block. destruct (Z.ltb_spec j NDIRECT); [lia|reflexivity]. }
  assert (Hsz : forall j, 0 <= j < isize p -> 0 <= j / BSIZE < nblocks p) by (intros j; apply nblocks_in).
  split; [|exact E| |].
  - destruct H as [F1 F2 F3 F4 F5 F6]. split; auto.
    + intros j Hj. rewrite E by exact Hj. destruct (F4 j Hj) as (A & B & C). split; [eapply fstep_home; eauto|]. split; [exact B|].
      rewrite Hv. case_if; auto.
    + intros Hn. destruct (F5 Hn) as [[A1 A2] B]. split; [split; [eapply fstep_home; eauto|exact A2]|]. intros j Hj. rewrite E by exact Hj. auto.
    + intros j l Hj Hl. rewrite !E by assumption. apply F6; auto.
  - intros j Hj. unfold fbyte. rewrite E, Hv by auto. destruct (Z.eqb_spec (file_block s p (j / BSIZE)) (file_block s p k)) as [Ek|Ek].
    + apply (fo_inj _ _ H) in Ek; auto. subst k. rewrite Hb by (apply Z.mod_pos_bound; reflexivity).
      replace (j / BSIZE * BSIZE + j mod BSIZE) with j by (rewrite BSIZE_eq; Z.to_euclidean_division_equations; lia). reflexivity.
    + destruct (_ && _) eqn:Eo; [|reflexivity]. zbool. destruct Ek. f_equal.
      rewrite BSIZE_eq in *. Z.to_euclidean_division_equations. lia.
  - intros b Hn. rewrite Hv. destruct (Z.eqb_spec b (file_block s p k)) as [->|]; [destruct (Hn k Hk); auto|reflexivity].
Qed.

Lemma over_trans off src1 src2 s s1 s2 : over off src1 s s1 -> over (off + Z.of_nat (length src1)) src2 s1 s2 ->
  over off (src1 ++ src2) s s2.
Proof.
  intros [A1 A2 A3 A4] [B1 B2 B3 B4]. split; auto.
  - intros k Hk. rewrite B2 by exact Hk. apply A2, Hk.
  - intros j Hj. rewrite B3, A3 by exact Hj. apply overlay_app.
  - intros b Hb. rewrite B4, A4; auto. intros k Hk. rewrite A2 by exact Hk. apply Hb, Hk.
Qed.

Lemma over_nil off s s' : file_ok s p -> fstep [] s s' -> over off [] s s'.
Proof.
  intros H F. split; [eapply file_same; eauto| | |].
  - intros k _. unfold file_block. rewrite (fs_view _ _ _ F). reflexivity.
  - intros j _. rewrite (fbyte_same _ _ _ _ F). cbn. destruct (_ && _) eqn:E; zbool; [lia|reflexivity].
  - intros b _. apply (fs_view _ _ _ F).
Qed.

(** The blocks [writei] touches. *)
Definition wblocks (off n : Z) : nat :=
  if n <=? 0 then O else Z.to_nat ((off mod BSIZE + n + BSIZE - 1) / BSIZE).

Lemma wblocks_step off n : 0 <= off -> 0 < n -> let m := Z.min n (BSIZE - off mod BSIZE) in
  0 < m /\ wblocks off n = S (wblocks (off + m) (n - m)).
Proof.
  intros Ho Hn m. unfold m, wblocks. clear m. rewrite BSIZE_eq. destruct (Z.leb_spec n 0); [lia|].
  assert (0 <= off mod 512 < 512) by (apply Z.mod_pos_bound; lia). destruct (Z.le_gt_cases n (512 - off mod 512)) as [Hle|Hgt].
  - rewrite Z.min_l by lia. split; [lia|]. destruct (Z.leb_spec (n - n) 0); [|lia]. Z.to_euclidean_division_equations. lia.
  - rewrite Z.min_r by lia. split; [lia|]. destruct (Z.leb_spec (n - (512 - off mod 512)) 0); [lia|].
    replace ((off + (512 - off mod 512)) mod 512) with 0 by (Z.to_euclidean_division_equations; lia).
    Z.to_euclidean_division_equations. lia.
Qed.

(** The spliced block of one iteration. *)
Lemma splice_block off m src s : file_ok s p -> 0 <= off -> off < isize p ->
  m = Z.min (Z.of_nat (length src)) (BSIZE - off mod BSIZE) -> 0 < m ->
  let k := off / BSIZE in let d := splice (view s (file_block s p k)) (off mod BSIZE) (take (Z.to_nat m) src) in
  length d = 512%nat /\ forall j, 0 <= j < BSIZE -> byte_at d j =
    if (off <=? k * BSIZE + j) && (k * BSIZE + j <? off + Z.of_nat (length (take (Z.to_nat m) src)))
    then byte_at (take (Z.to_nat m) src) (k * BSIZE + j - off) else byte_at (view s (file_block s p k)) j.
Proof.
  intros H Ho Hsz Hm Hm0 k d. destruct (fo_block _ _ H k (nblocks_in p off ltac:(lia))) as (_ & _ & Hlen).
  assert (Hmod : 0 <= off mod BSIZE < BSIZE) by (apply Z.mod_pos_bound; reflexivity).
  assert (Hl : Z.of_nat (length (take (Z.to_nat m) src)) = m) by (rewrite length_take; lia).
  assert (Eo : off = k * BSIZE + off mod BSIZE) by (unfold k; rewrite BSIZE_eq; Z.to_euclidean_division_equations; lia).
  split; [unfold d; rewrite length_splice; [exact Hlen|lia|rewrite Hl, Hlen; rewrite BSIZE_eq in *; lia]|].
  intros j Hj. unfold d. rewrite byte_splice; [|lia|rewrite Hl, Hlen; rewrite BSIZE_eq in *; lia|lia]. rewrite Hl.
  replace (off mod BSIZE <=? j) with (off <=? k * BSIZE + j) by lia.
  replace (j <? off mod BSIZE + m) with (k * BSIZE + j <? off + m) by lia.
  replace (k * BSIZE + j - off) with (j - off mod BSIZE) by lia. reflexivity.
Qed.

Lemma writei_loop_ok f : forall m src off s, opened (wblocks off (Z.of_nat (length src)) + m) s -> 0 <= off ->
  off + Z.of_nat (length src) <= isize p -> enough f off (Z.of_nat (length src)) ->
  wp (writei_loop pid f ip src off) (fun _ s' => trans m s' /\ over off src s s' /\ exists ws, fstep ws s s') s.
Proof.
  induction f as [|f IH]; intros m src off s Ho H0 Hsz He; cbn [writei_loop].
  { exfalso. pose proof (Z.mod_pos_bound off BSIZE ltac:(reflexivity)) as Hm. destruct He as [[_ He]|He]; rewrite BSIZE_eq in *; lia. }
  pose proof Ho as (T & E & H). set (n := Z.of_nat (length src)) in *. destruct (n <=? 0) eqn:En; zbool.
  - apply wp_pure. assert (src = []) as -> by (destruct src; [auto|unfold n in *; cbn in *; lia]).
    split; [eapply trans_weaken; [|exact T]; lia|]. split; [apply over_nil; auto using fstep_refl|]. exists []. apply fstep_refl.
  - apply wp_bind, wp_gets. rewrite E, (fo_dev _ _ H). pose proof (nblocks_in p off ltac:(lia)) as Hk.
    apply wp_bind. eapply wp_mono; [apply (bmap_ok _ _ s Ho Hk)|]. intros a s1 (-> & T1 & F1).
    destruct (fo_block _ _ H _ Hk) as (Hh & _ & _). set (k := Z.min n (BSIZE - off mod BSIZE)).
    destruct (wblocks_step off n H0 ltac:(lia)) as (W0 & W1). fold k in W0, W1.
    pose proof (fstep_home _ _ _ _ F1 Hh) as Hh1.
    apply (wp_bread pid (wblocks off n + m) _ s1); [exact T1|apply Hh1|]. intros i s2 H2.
    apply (wp_updb_data i (fun d => splice d (off mod BSIZE) (take (Z.to_nat k) src))). cbn beta. rewrite (h1_data _ _ _ _ (proj2 H2)), (fs_view _ _ _ F1). cbn [apply_writes].
    destruct (splice_block off k src s H H0 ltac:(lia) eq_refl W0) as [Hd1 Hd2].
    rewrite W1 in *. cbn [Nat.add] in *.
    apply (wp_log _ _ _ _ _ _ _ _ H2 Hh1). intros s3 T3 F3.
    pose proof (fstep_trans _ _ _ _ _ F1 F3) as F13. cbn [app] in F13.
    assert (Hlt : Z.of_nat (length (take (Z.to_nat k) src)) = k) by (rewrite length_take; lia).
    assert (O1 : over off (take (Z.to_nat k) src) s s3).
    { apply (over_block (off / BSIZE) _ off _ s s3 H Hk Hd1 F13 Hd2).
      - rewrite BSIZE_eq. Z.to_euclidean_division_equations. lia.
      - rewrite Hlt. unfold k. rewrite BSIZE_eq. Z.to_euclidean_division_equations. lia. }
    assert (Hld : Z.of_nat (length (drop (Z.to_nat k) src)) = n - k) by (rewrite length_drop; lia).
    eapply wp_mono; [apply (IH m (drop (Z.to_nat k) src) (off + k) s3); rewrite ?Hld; try lia|].
    + split; [exact T3|]. split; [rewrite (fs_icache _ _ _ F13); exact E|apply O1].
    + apply enough_step; auto; lia.
    + intros [] s' (T' & O' & ws & F'). split; [exact T'|]. split; [|eexists; exact (fstep_trans _ _ _ _ _ F13 F')].
      rewrite <- (take_drop (Z.to_nat k) src). apply (over_trans _ _ _ _ s3); [exact O1|]. rewrite Hlt. exact O'.
Qed.

(** [writei] inside the file. *)
Lemma writei_ok m src off s : opened (wblocks off (Z.of_nat (length src)) + m) s -> 0 <= off ->
  off + Z.of_nat (length src) <= isize p ->
  wp (writei pid dev_write ip src off) (fun r s' =>
    r = Z.of_nat (length src) /\ trans m s' /\ over off src s s' /\ exists ws, fstep ws s s') s.
Proof.
  intros Ho H0 Hsz. pose proof Ho as (T & E & H). pose proof (fo_size _ _ H) as Hmax. change (MAXFILE * BSIZE) with 71680 in *.
  unfold writei. apply wp_bind, wp_gets. rewrite E. unfold id.
  destruct (Z.eqb_spec (itype p) T_DEV); [destruct (fo_type _ _ H); auto|].
  rewrite u32_small by lia. destruct (_ || _) eqn:E1; zbool; [destruct E1; zbool; lia|].
  destruct (_ >? MAXFILE * BSIZE) eqn:E2; zbool; [change (MAXFILE * BSIZE) with 71680 in *; lia|].
  apply wp_bind. eapply wp_mono; [apply (writei_loop_ok _ m src off s Ho H0 Hsz); apply enough_start; lia|].
  intros [] s' (T' & O' & ws & F'). apply wp_bind, wp_gets. rewrite (fs_icache _ _ _ F'), E. apply wp_bind.
  destruct (_ && _) eqn:E3; zbool; [lia|]. apply wp_pure, wp_pure. rewrite s32_small by lia. eauto.
Qed.
End File.
