(* ===== verification/FsProps.v ===== *)
(** * Properties of the file system

    The block allocator, file contents, path names and the inode cache of
    [src/xv6/fs.c]. *)

From S2P Require Import Prelude Mem Bio Log BioRules LogRules LogProps Fs FsRules FsFile.
Local Open Scope Z_scope.

(** ** Path names *)

(** Splitting at slashes, the reference. *)
Fixpoint split (p : list Z) : list (list Z) :=
  match p with
  | [] => [[]]
  | c :: p' =>
      if c =? SLASH then [] :: split p'
      else match split p' with e :: r => (c :: e) :: r | [] => [[c]] end
  end.
Definition components (p : list Z) : list (list Z) := filter (fun e => e <> []) (split p).

(** [skipelem] until it returns 0. *)
Fixpoint elements (fuel : nat) (path : list Z) : option (list (list Z)) :=
  match fuel with
  | O => None
  | S f =>
      match skipelem path with
      | None => Some []
      | Some (path', e) => cons e <$> elements f path'
      end
  end.

Lemma split_ne p : exists e r, split p = e :: r.
Proof.
  induction p as [|c p (e & r & E)]; [cbn; eauto|]. cbn. destruct (c =? SLASH); [eauto|]. rewrite E. eauto.
Qed.

Lemma components_slash p : components (SLASH :: p) = components p.
Proof. unfold components. cbn. reflexivity. Qed.

Lemma components_skip p : components (skip_slashes p) = components p.
Proof.
  induction p as [|c p IH]; [reflexivity|]. cbn [skip_slashes]. destruct (Z.eqb_spec c SLASH) as [->|]; [|reflexivity].
  rewrite IH, components_slash. reflexivity.
Qed.

Lemma skip_head p c r : skip_slashes p = c :: r -> c <> SLASH.
Proof.
  induction p as [|a p IH]; cbn; [discriminate|]. destruct (Z.eqb_spec a SLASH); [apply IH|]. congruence.
Qed.

Lemma skip_length p : (length (skip_slashes p) <= length p)%nat.
Proof. induction p as [|a p IH]; cbn; [lia|]. destruct (a =? SLASH); cbn; lia. Qed.

Lemma take_elem_ok p e r : take_elem p = (e, r) ->
  p = e ++ r /\ (forall x, x ∈ e -> x <> SLASH) /\ (forall c r', r = c :: r' -> c = SLASH).
Proof.
  revert e r. induction p as [|c p IH]; cbn; intros e r E.
  - injection E as <- <-. split; [reflexivity|]. split; [intros x Hx; apply elem_of_nil in Hx; contradiction|discriminate].
  - destruct (Z.eqb_spec c SLASH) as [->|Hc].
    + injection E as <- <-. split; [reflexivity|]. split; [intros x Hx; apply elem_of_nil in Hx; contradiction|congruence].
    + destruct (take_elem p) as [e' r'] eqn:E'. injection E as <- <-. destruct (IH _ _ eq_refl) as (-> & H1 & H2).
      split; [reflexivity|]. split; [|exact H2]. intros x Hx. apply elem_of_cons in Hx as [->|Hx]; auto.
Qed.

(** An element followed by a slash or the end is the first component. *)
Lemma components_elem e r : e <> [] -> (forall x, x ∈ e -> x <> SLASH) -> (forall c r', r = c :: r' -> c = SLASH) ->
  components (e ++ r) = e :: components r.
Proof.
  intros He Hx Hr. assert (E : forall f, (forall x, x ∈ f -> x <> SLASH) -> split (f ++ r) = match r with [] => [f] | _ :: r' => f :: split r' end).
  { induction f as [|c f IH]; intros Hf; cbn [app].
    - destruct r as [|c r']; [reflexivity|]. rewrite (Hr c r' eq_refl). reflexivity.
    - cbn. destruct (Z.eqb_spec c SLASH) as [->|_]; [destruct (Hf SLASH); [left|reflexivity]|].
      rewrite IH by (intros x Hin; apply Hf; right; exact Hin). destruct r; reflexivity. }
  unfold components. rewrite (E e Hx). destruct r as [|c r'].
  - rewrite filter_cons_True by exact He. reflexivity.
  - rewrite filter_cons_True by exact He. rewrite (Hr c r' eq_refl).
    change (e :: components r' = e :: components (SLASH :: r')). rewrite components_slash. reflexivity.
Qed.

(** One call of [skipelem]. *)
Lemma skipelem_ok p : match skipelem p with
  | None => components p = []
  | Some (p', e) => exists e0, components p = e0 :: components p' /\ e = take (Z.to_nat DIRSIZ) e0 /\
      (length p' < length p)%nat /\ (components p' = [] <-> p' = [])
  end.
Proof.
  unfold skipelem. pose proof (components_skip p) as Ec. pose proof (skip_length p) as Hl. destruct (skip_slashes p) as [|c q] eqn:Eq.
  - rewrite <- Ec. reflexivity.
  - destruct (take_elem (c :: q)) as [e r] eqn:Et. destruct (take_elem_ok _ _ _ Et) as (E & Hx & Hr).
    pose proof (skip_head _ _ _ Eq) as Hc.
    assert (He : e <> []).
    { intros ->. cbn in E. subst r. destruct Hc. apply (Hr c q eq_refl). }
    exists e. rewrite <- Ec, E, components_elem by auto. rewrite components_skip. split; [reflexivity|]. split; [|split].
    + destruct (_ >=? DIRSIZ) eqn:Ed; zbool; [reflexivity|]. rewrite take_ge; [reflexivity|unfold DIRSIZ in *; lia].
    + apply (f_equal length) in E. rewrite length_app in E. pose proof (skip_length r). destruct e; [congruence|]. cbn in *. lia.
    + split; [|intros E0; rewrite <- components_skip, E0; reflexivity].
      destruct (skip_slashes r) as [|c' r'] eqn:Er; [auto|]. intros H0. exfalso.
      pose proof (skip_head _ _ _ Er) as Hc'. rewrite <- components_skip, Er in H0.
      unfold components in H0. cbn in H0. destruct (Z.eqb_spec c' SLASH); [congruence|].
      destruct (split_ne r') as (e1 & r1 & E1). rewrite E1 in H0. rewrite filter_cons_True in H0 by discriminate. discriminate.
Qed.

(** Path parsing. Repeated [skipelem] terminates and yields exactly the
    non-empty components of the path between slashes, each cut to DIRSIZ
    bytes; and after each call the rest of the path is empty exactly when the
    component returned was the last one, which is how [nameiparent] decides
    where to stop. *)
Theorem skipelem_splits_path (p : list Z) :
  elements (S (length p)) p = Some (take (Z.to_nat DIRSIZ) <$> components p) /\
  match skipelem p with
  | None => components p = []
  | Some (p', e) => length (components p) = S (length (components p')) /\ (p' = [] <-> length (components p) = 1%nat)
  end.
Proof.
  split.
  - remember (S (length p)) as f eqn:Ef. assert (Hf : (length p < f)%nat) by lia. clear Ef. revert p Hf.
    induction f as [|f IH]; intros p Hf; [lia|]. cbn [elements]. pose proof (skipelem_ok p) as H. destruct (skipelem p) as [[p' e]|].
    + destruct H as (e0 & -> & -> & Hl & _). rewrite IH by lia. reflexivity.
    + rewrite H. reflexivity.
  - pose proof (skipelem_ok p) as H. destruct (skipelem p) as [[p' e]|]; [|exact H].
    destruct H as (e0 & -> & _ & _ & Hn). split; [reflexivity|]. rewrite <- Hn. cbn. destruct (components p'); cbn; split; congruence.
Qed.

(** ** The block allocator *)

(** C19: The block allocator, inside a transaction with room in the log. [balloc]
    returns the lowest block the free map has as free, marks exactly that block
    used, clears it, and changes no other block but the one of the map; it
    panics when every block is in use. [bfree] clears exactly the block's bit and
    changes nothing but the map; freeing a free block panics. *)
Theorem block_allocator (pid : Z) (n : nat) (s : fs) :
  trans (S (S n)) s -> bitmap_ok s -> sb_current s -> disksize s <= 2 ^ 31 ->
  let inrange b := 0 <= b < sb_size (sblock s) in
  ((exists c, inrange c /\ inuse s c = false) ->
    wp (balloc pid 1) (fun r s' => first_free s r /\ trans n s' /\ view s' r = replicate (Z.to_nat BSIZE) 0 /\
      (forall c, inrange c -> inuse s' c = (c =? r) || inuse s c) /\
      (forall b, b <> r -> b <> BBLOCK r (sblock s) -> view s' b = view s b)) s) /\
  ((forall c, inrange c -> inuse s c = true) -> balloc pid 1 s = Panic "balloc: out of blocks") /\
  (forall b, inrange b -> inuse s b = true ->
    wp (bfree pid 1 b) (fun _ s' => trans (S n) s' /\ (forall c, inrange c -> inuse s' c = negb (c =? b) && inuse s c) /\
      (forall k, k <> BBLOCK b (sblock s) -> view s' k = view s k)) s) /\
  (forall b, inrange b -> inuse s b = false -> bfree pid 1 b s = Panic "freeing free block").
Proof.
  intros T Ho Hsb Hd inrange. split; [|split; [|split]].
  - intros Hex. eapply wp_mono; [apply (balloc_ok pid n s T Ho Hd Hex)|]. intros r s' (Hf & T' & F).
    split; [exact Hf|]. split; [exact T'|]. split; [|split; [exact (balloc_inuse _ _ _ Ho Hf F)|]].
    + rewrite (fs_view _ _ _ F). cbn [apply_writes]. apply zfn_insert_eq.
    + intros b H1 H2. rewrite (fs_view _ _ _ F). cbn [apply_writes]. rewrite !zfn_insert_ne by congruence. reflexivity.
  - apply (balloc_full pid _ s T Ho).
  - intros b Hb Hu. eapply wp_mono; [apply (bfree_ok pid (S n) b s T Ho Hsb Hb Hu)|]. intros [] s' (T' & F).
    split; [exact T'|]. split.
    + intros c Hc. rewrite (inuse_marked s s' _ b false Z.ldiff Ho Hb F); [destruct (c =? b); reflexivity| |exact bit_reset|exact Hc].
      intros k Hk. rewrite (fs_view _ _ _ F). cbn [apply_writes].
      destruct (Z.eqb_spec (BBLOCK k (sblock s)) (BBLOCK b (sblock s))) as [->|]; [apply zfn_insert_eq|apply zfn_insert_ne; congruence].
    + intros k Hk. rewrite (fs_view _ _ _ F). cbn [apply_writes]. apply zfn_insert_ne. congruence.
  - intros b Hb Hu. exact (bfree_free pid _ b s T Ho Hsb Hb Hu).
Qed.

(** ** File contents *)

(** C20: Writing and then reading a file whose blocks are allocated, up to the
    maximal size through the indirect block. [writei] of [src] at [off] returns
    its length; a following [readi] of any range returns the bytes of the range,
    cut at the end of the file: those of [src] where it was written and the old
    ones elsewhere. Blocks of no file block keep their contents. *)
Theorem file_write_then_read (pid : Z) (dev_read : Z -> option (Z -> M fs (Z * list Z)))
    (dev_write : Z -> option (list Z -> M fs Z)) (ip : nat) (p : inode) (m : nat) (src : list Z) (off off' n : Z) (s : fs) :
  opened ip p (wblocks off (Z.of_nat (length src)) + m) s -> 0 <= off -> off + Z.of_nat (length src) <= isize p ->
  0 <= off' <= isize p -> 0 <= n -> off' + n < 2 ^ 31 ->
  let k := Z.min n (isize p - off') in
  wp (r <- writei pid dev_write ip src off ;; q <- readi pid dev_read ip off' n ;; ret (r, q)) (fun x s' =>
    x = (Z.of_nat (length src), (k, (fun j => if (off <=? j) && (j <? off + Z.of_nat (length src)) then byte_at src (j - off)
                                              else fbyte s p j) <$> seqZ off' k)) /\
    trans m s' /\ icache s' = icache s /\
    (forall b, (forall j, 0 <= j < nblocks p -> b <> file_block s p j) -> view s' b = view s b)) s.
Proof.
  intros Ho H0 Hsz Hoff Hn Hov k. apply wp_bind. eapply wp_mono; [apply (writei_ok pid dev_read dev_write ip p m src off s Ho H0 Hsz)|].
  intros r s1 (-> & T1 & O1 & ws & F1). pose proof (fs_icache _ _ _ F1) as E1. apply wp_bind. eapply wp_mono.
  { apply (readi_ok pid dev_read dev_write ip p m off' n s1); [|auto..]. split; [exact T1|]. split; [rewrite E1; apply Ho|apply O1]. }
  intros q s2 (-> & T2 & F2). apply wp_pure. split; [|split; [exact T2|split]].
  - f_equal. f_equal. apply list_fmap_ext. intros i j Hj. apply lookup_seqZ in Hj. apply (ov_byte _ _ _ _ _ O1). lia.
  - rewrite (fs_icache _ _ _ F2). exact E1.
  - intros b Hb. rewrite (fs_view _ _ _ F2). cbn [apply_writes]. apply (ov_other _ _ _ _ _ O1), Hb.
Qed.

(** ** The inode cache *)

(** Entry [i] caches inode [n] of device [d]. *)
Definition refers (s : fs) (d n : Z) (i : nat) : Prop :=
  0 < iref (icache s i) /\ idev (icache s i) = d /\ inum (icache s i) = n.
#[global] Instance refers_dec s d n i : Decision (refers s d n i).
Proof. unfold refers. apply _. Defined.
(** No inode is cached twice. *)
Record icache_ok (s : fs) : Prop := mkicok {
  io_ref : forall i, (i < NINODE)%nat -> 0 <= iref (icache s i);
  io_uniq : forall d n i j, (i < NINODE)%nat -> (j < NINODE)%nat -> refers s d n i -> refers s d n j -> i = j }.
(** The references held to an inode. *)
Definition refs (s : fs) (d n : Z) : Z :=
  match list_find (refers s d n) (seq 0 NINODE) with Some (_, i) => iref (icache s i) | None => 0 end.

Lemma find_seq (P : nat -> Prop) `{forall i, Decision (P i)} n :
  match list_find P (seq 0 n) with Some (_, i) => (i < n)%nat /\ P i | None => forall i, (i < n)%nat -> ~ P i end.
Proof.
  destruct (list_find P (seq 0 n)) as [[k i]|] eqn:E.
  - apply list_find_Some in E as (E & HP & _). apply lookup_seq in E. split; [lia|exact HP].
  - apply list_find_None in E. intros i Hi. rewrite Forall_forall in E. apply E, elem_of_seq. lia.
Qed.

Lemma refs_at s d n i : icache_ok s -> (i < NINODE)%nat -> refers s d n i -> refs s d n = iref (icache s i).
Proof.
  intros Ho Hi H. unfold refs. pose proof (find_seq (refers s d n) NINODE) as Hf.
  destruct (list_find _ _) as [[k j]|]; [|destruct (Hf i Hi H)].
  destruct Hf as [Hj H']. rewrite (io_uniq _ Ho d n j i); auto.
Qed.

Lemma refs_none s d n : (forall i, (i < NINODE)%nat -> ~ refers s d n i) -> refs s d n = 0.
Proof.
  intros H. unfold refs. pose proof (find_seq (refers s d n) NINODE) as Hf.
  destruct (list_find _ _) as [[k j]|]; [|reflexivity]. destruct (H j); tauto.
Qed.

(** The cache with one entry's references, or a free entry, changed. *)
Record recount (i : nat) (d n v : Z) (s s' : fs) : Prop := mkrecount {
  rc_ref : iref (icache s' i) = v;
  rc_dev : idev (icache s' i) = d;
  rc_num : inum (icache s' i) = n;
  rc_other : forall j, j <> i -> icache s' j = icache s j }.

Lemma recount_ok i d n v s s' : icache_ok s -> (i < NINODE)%nat -> recount i d n v s s' -> 0 <= v ->
  (refers s d n i \/ iref (icache s i) = 0 /\ forall j, (j < NINODE)%nat -> ~ refers s d n j) ->
  icache_ok s' /\ forall d' n', refs s' d' n' = if (d' =? d) && (n' =? n) then v else refs s d' n'.
Proof.
  intros Ho Hi R Hv Hold.
  assert (Hr : forall d' n' j, j <> i -> refers s' d' n' j <-> refers s d' n' j)
    by (intros d' n' j Hj; unfold refers; rewrite (rc_other _ _ _ _ _ _ R j Hj); reflexivity).
  assert (Hri : forall d' n', refers s' d' n' i <-> 0 < v /\ d = d' /\ n = n').
  { intros d' n'. destruct R as [R1 R2 R3 _]. unfold refers. rewrite R1, R2, R3. reflexivity. }
  assert (Hone : forall j, (j < NINODE)%nat -> j <> i -> ~ refers s d n j).
  { intros j Hj Hne H. destruct Hold as [H1|[_ H1]]; [destruct Hne; eapply io_uniq; eauto|exact (H1 j Hj H)]. }
  assert (Ho' : icache_ok s').
  { split.
    - intros j Hj. destruct (decide (j = i)) as [->|Hne]; [rewrite (rc_ref _ _ _ _ _ _ R); exact Hv|].
      rewrite (rc_other _ _ _ _ _ _ R j Hne). apply Ho, Hj.
    - intros d' n' a b Ha Hb Ra Rb. destruct (decide (a = i)) as [->|Hna], (decide (b = i)) as [->|Hnb]; auto.
      + apply Hri in Ra as (_ & -> & ->). apply Hr in Rb; [|exact Hnb]. destruct (Hone b Hb Hnb Rb).
      + apply Hri in Rb as (_ & -> & ->). apply Hr in Ra; [|exact Hna]. destruct (Hone a Ha Hna Ra).
      + apply Hr in Ra, Rb; auto. eapply io_uniq; eauto. }
  split; [exact Ho'|]. intros d' n'. destruct (decide (d' = d /\ n' = n)) as [[-> ->]|Hdn].
  - rewrite !Z.eqb_refl. cbn [andb]. destruct (decide (0 < v)) as [Hp|Hp].
    + rewrite (refs_at s' d n i); [apply R|auto|auto|apply Hri; auto].
    + rewrite refs_none; [lia|]. intros j Hj. destruct (decide (j = i)) as [->|Hne]; [rewrite Hri; lia|].
      rewrite Hr by exact Hne. auto.
  - replace ((d' =? d) && (n' =? n)) with false by (symmetry; apply andb_false_iff; rewrite !Z.eqb_neq; lia).
    unfold refs at 2. pose proof (find_seq (refers s d' n') NINODE) as Hf. destruct (list_find _ _) as [[k j]|].
    + destruct Hf as [Hj H']. assert (Hne : j <> i).
      { intros ->. destruct Hold as [(_ & H1 & H2)|[H1 _]]; [destruct H' as (_ & H3 & H4)|destruct H']; [|lia].
        destruct Hdn. split; congruence. }
      rewrite (refs_at s' d' n' j); auto; [|apply Hr; auto]. rewrite (rc_other _ _ _ _ _ _ R j Hne). reflexivity.
    + apply refs_none. intros j Hj. destruct (decide (j = i)) as [->|Hne]; [|rewrite Hr by exact Hne; auto].
      rewrite Hri. intros (_ & E1 & E2). destruct Hdn. split; congruence.
Qed.

(** [iget] finds the entry of the inode or takes a free one. *)
Lemma iget_ok d n s : icache_ok s -> (exists i, (i < NINODE)%nat /\ (refers s d n i \/ iref (icache s i) = 0)) ->
  wp (iget d n) (fun i s' => (i < NINODE)%nat /\ refers s' d n i /\ recount i d n (refs s d n + 1) s s' /\
    (refers s d n i \/ iref (icache s i) = 0 /\ forall j, (j < NINODE)%nat -> ~ refers s d n j)) s.
Proof.
  intros Ho (i0 & Hi0 & Hex). unfold iget. apply wp_bind, wp_gets.
  pose proof (find_seq (fun i => 0 < iref (icache s i) /\ idev (icache s i) = d /\ inum (icache s i) = n) NINODE) as Hf.
  destruct (list_find _ _) as [[k i]|].
  - destruct Hf as (Hi & Hr). pose proof (refs_at s d n i Ho Hi Hr) as E. destruct Hr as (H1 & H2 & H3).
    apply wp_bind, wp_modify, wp_pure. split; [exact Hi|]. split; [|split].
    + unfold refers. cbn. rewrite !fn_lookup_insert. cbn. lia.
    + split; cbn; rewrite ?fn_lookup_insert; cbn; auto; [lia|]. intros j Hj. apply fn_lookup_insert_ne. congruence.
    + left. unfold refers. auto.
  - pose proof (find_seq (fun i => iref (icache s i) = 0) NINODE) as Hg. destruct (list_find _ _) as [[k i]|].
    + destruct Hg as (Hi & Hz). rewrite (refs_none s d n Hf).
      apply wp_bind, wp_modify, wp_pure. split; [exact Hi|]. split; [|split].
      * unfold refers. cbn. rewrite !fn_lookup_insert. cbn. lia.
      * split; cbn; rewrite ?fn_lookup_insert; cbn; auto. intros j Hj. apply fn_lookup_insert_ne. congruence.
      * right. auto.
    + destruct Hex as [Hex|Hex]; [destruct (Hf i0 Hi0 Hex)|destruct (Hg i0 Hi0 Hex)].
Qed.

(** C23: The inode cache. As long as no inode is cached twice, [iget] returns an
    entry for the inode asked for, the existing one when there is one, and
    panics exactly when the inode is not cached and every entry is referenced;
    [iget], [idup] and [iput] change the number of references of that inode by
    one and of no other inode, and no inode is ever cached twice. ([iput] of the
    last reference to an unlinked inode frees the inode first, the case excluded
    here.) *)
Theorem inode_cache_counts (pid : Z) (s : fs) : icache_ok s ->
  let counts d n v s' := icache_ok s' /\ forall d' n', refs s' d' n' = refs s d' n' + (if (d' =? d) && (n' =? n) then v else 0) in
  (forall d n, (exists i, (i < NINODE)%nat /\ (refers s d n i \/ iref (icache s i) = 0)) ->
    wp (iget d n) (fun i s' => (i < NINODE)%nat /\ refers s' d n i /\ counts d n 1 s') s) /\
  (forall d n, (forall i, (i < NINODE)%nat -> ~ refers s d n i /\ iref (icache s i) <> 0) ->
    iget d n s = Panic "iget: no inodes") /\
  (forall d n i, (i < NINODE)%nat -> refers s d n i ->
    wp (idup i) (fun j s' => j = i /\ counts d n 1 s') s) /\
  (forall d n i, (i < NINODE)%nat -> refers s d n i -> locked (ilk (icache s i)) = false ->
    ivalid (icache s i) && (inlink (icache s i) =? 0) && (iref (icache s i) =? 1) = false ->
    wp (iput pid i) (fun _ s' => counts d n (-1) s') s).
Proof.
  intros Ho counts.
  assert (Hc : forall i d n v s', (i < NINODE)%nat -> 0 <= refs s d n + v -> recount i d n (refs s d n + v) s s' ->
    (refers s d n i \/ iref (icache s i) = 0 /\ forall j, (j < NINODE)%nat -> ~ refers s d n j) -> counts d n v s').
  { intros i d n v s' Hi Hv R Hold. destruct (recount_ok i d n _ s s' Ho Hi R Hv Hold) as [Ho' E]. split; [exact Ho'|].
    intros d' n'. rewrite E. destruct (Z.eqb_spec d' d) as [->|], (Z.eqb_spec n' n) as [->|]; cbn [andb]; lia. }
  split; [|split; [|split]].
  - intros d n Hex. eapply wp_mono; [apply (iget_ok d n s Ho Hex)|]. intros i s' (Hi & Hr & R & Hold).
    split; [exact Hi|]. split; [exact Hr|]. apply (Hc i); auto. destruct R as [<- _ _ _]. destruct Hr. lia.
  - intros d n Hno. unfold iget. cbn -[NINODE]. 
    pose proof (find_seq (fun i => 0 < iref (icache s i) /\ idev (icache s i) = d /\ inum (icache s i) = n) NINODE) as Hf.
    destruct (list_find _ _) as [[k i]|]; [destruct (Hno i (proj1 Hf)) as [[] _]; exact (proj2 Hf)|].
    pose proof (find_seq (fun i => iref (icache s i) = 0) NINODE) as Hg.
    destruct (list_find _ _) as [[k i]|]; [destruct (Hno i (proj1 Hg)) as [_ []]; exact (proj2 Hg)|]. reflexivity.
  - intros d n i Hi Hr. pose proof (refs_at s d n i Ho Hi Hr) as E. pose proof Hr as (H1 & H2 & H3).
    unfold idup. apply wp_bind, wp_modify, wp_pure. split; [reflexivity|]. apply (Hc i); auto; [lia|].
    split; cbn; rewrite ?fn_lookup_insert; cbn; auto; [lia|]. intros j Hj. apply fn_lookup_insert_ne. congruence.
  - intros d n i Hi Hr Hl Hk. pose proof (refs_at s d n i Ho Hi Hr) as E. pose proof Hr as (H1 & H2 & H3).
    unfold iput, acquiresleep, releasesleep. apply wp_bind, wp_bind, wp_gets. unfold ilockfield. rewrite Hl. apply wp_modify, wp_bind, wp_gets.
    unfold id, ilockset. cbn [icache set_icache]. rewrite fn_lookup_insert. cbn [ivalid inlink iref set_ilk].
    rewrite Hk. apply wp_bind, wp_pure, wp_bind, wp_modify, wp_modify. apply (Hc i); auto; [lia|].
    split; cbn; rewrite ?fn_lookup_insert; cbn; rewrite ?fn_lookup_insert; cbn; auto; [lia|].
    intros j Hj. rewrite !fn_lookup_insert_ne by congruence. reflexivity.
Qed.

(** ** Example states *)

(** A volume of 1000 blocks: superblock, log at 2, inodes at 32, free map at 60
    with the first 104 blocks and blocks 200, 201 in use; inode 7, a file of 700
    bytes, is cached in entry 0, and a transaction is open. *)
Definition vol_sb : list Z := wr32 (wr32 (wr32 (wr32 (wr32 demo_sb 0 1000) 4 900) 8 200) 20 32) 24 60.
Definition vol_map : list Z := wr8 (replicate 13 255 ++ replicate 499 0) 25 3.
Definition vol_inode : inode := mkinode 1 7 1 (mksl false 0) true T_FILE 0 0 1 700 ([200; 201] ++ replicate 11 0).
Definition vol_disk (b : Z) : list Z :=
  if b =? 1 then vol_sb else if b =? 60 then vol_map else if b =? 32 then splice (replicate 512 0) 448 (enc_dinode vol_inode) else replicate 512 0.
(** A disk of [n] blocks with an empty buffer cache and a transaction open. *)
Definition volume (n : Z) (d : Z -> list Z) (sb : superblock) (c : nat -> inode) : fs :=
  mkfs d n [] (fun _ => buf0) (seq 0 NBUF) (demo_log 1 []) sb c.
Definition vol : fs := volume 1000 vol_disk (decode_sb vol_sb) (fun i => match i with O => vol_inode | S _ => icache fsdemo i end).

Section Volume.
Context (n : Z) (d : Z -> list Z) (sb : superblock) (c : nat -> inode).
Notation v := (volume n d sb c).

Lemma volume_slot b : slot v b = None.
Proof. destruct (slot v b) as [i|] eqn:E; [|reflexivity]. apply slot_caches in E as (_ & E & _). discriminate. Qed.

Lemma volume_view b : view v b = d b.
Proof. unfold view. rewrite volume_slot. reflexivity. Qed.

Lemma volume_trans : 32 <= n <= 2 ^ 31 -> trans 29 v.
Proof.
  intros Hn.
  assert (Hl : forall b, islocked v b = false /\ isdirty v b = false)
    by (intros b; unfold islocked, isdirty; rewrite volume_slot; auto).
  exists []. split; [|split; [apply not_elem_of_nil|cbn; unfold NBUF, LOGSIZE; lia]]. split; try reflexivity; [|intros b Hb; apply elem_of_nil in Hb; contradiction].
  split; try (intros b; apply Hl); cbn; try lia.
  - split; cbn; try discriminate; auto; intros i Hi [?|?]; discriminate.
  - apply pinned_nil; intros b; apply Hl.
  - unfold NBUF. lia.
  - intros b Hb. apply elem_of_nil in Hb. contradiction.
  - right. unfold NBUF. lia.
  - constructor.
Qed.
End Volume.

Lemma vol_view b : view vol b = vol_disk b.
Proof. apply volume_view. Qed.

Lemma vol_trans : trans 20 vol.
Proof. apply (trans_weaken 29); [lia|apply volume_trans; lia]. Qed.

Lemma vol_sblock : sblock vol = mksb 1000 900 200 30 2 32 60.
Proof. vm_compute. reflexivity. Qed.

Lemma vol_BBLOCK b : 0 <= b < 1000 -> BBLOCK b (sblock vol) = 60.
Proof. intros H. rewrite vol_sblock. unfold BBLOCK, BPB, BSIZE. cbn. rewrite Z.div_small by lia. reflexivity. Qed.

Lemma vol_free b : 0 <= b < 1000 -> inuse vol b = false -> 104 <= b.
Proof.
  intros Hb. unfold inuse. rewrite vol_BBLOCK, vol_view by exact Hb.
  assert (Hall : forallb (fun b => implb (negb (negb (bit_clear (vol_disk 60) (b mod BPB)))) (104 <=? b)) (seqZ 0 1000) = true)
    by (vm_compute; reflexivity).
  assert (Hin : b ∈ seqZ 0 1000) by (apply elem_of_seqZ; lia). apply list_elem_of_In in Hin.
  rewrite forallb_forall in Hall. specialize (Hall b Hin).
  intros E. rewrite E in Hall. cbn in Hall. lia.
Qed.

Lemma vol_bitmap : bitmap_ok vol.
Proof.
  split; rewrite ?vol_sblock; cbn [sb_size sb_bmapstart].
  - cbn. lia.
  - split; [lia|vm_compute; reflexivity].
  - intros b Hb. rewrite <- vol_sblock, vol_BBLOCK by exact Hb. unfold home, in_log. cbn. lia.
  - intros b Hb. rewrite <- vol_sblock, vol_BBLOCK, vol_view by exact Hb. reflexivity.
  - intros b Hb Hf. pose proof (vol_free b Hb Hf) as H. split; [unfold home, in_log; cbn; lia|].
    intros c Hc. rewrite <- vol_sblock, vol_BBLOCK by exact Hc. lia.
Qed.

Lemma vol_file : file_ok vol vol_inode.
Proof.
  assert (Hk : forall k, 0 <= k < nblocks vol_inode -> file_block vol vol_inode k = 200 + k).
  { intros k Hk. change (nblocks vol_inode) with 2 in Hk. assert (k = 0 \/ k = 1) as [-> | ->] by lia; reflexivity. }
  split; try reflexivity; try discriminate.
  - change (MAXFILE * BSIZE) with 71680. cbn. lia.
  - intros k H. rewrite Hk by exact H. change (nblocks vol_inode) with 2 in H. rewrite vol_view.
    assert (k = 0 \/ k = 1) as [-> | ->] by lia; (split; [unfold home, in_log; cbn; lia|split; [lia|reflexivity]]).
  - intros k j H1 H2. rewrite !Hk by assumption. lia.
Qed.

Lemma vol_icache : icache_ok vol.
Proof.
  split; [intros [|i] _; cbn; lia|]. intros d n [|i] [|j] _ _ [H1 _] [H2 _]; cbn in *; lia || reflexivity.
Qed.

(** The first free block of the volume is 104. *)
Lemma block_allocator_witness :
  wp (balloc 1 1) (fun r s' => first_free vol r /\ trans 18 s' /\ view s' r = replicate (Z.to_nat BSIZE) 0 /\
      (forall c, 0 <= c < sb_size (sblock vol) -> inuse s' c = (c =? r) || inuse vol c) /\
      (forall b, b <> r -> b <> BBLOCK r (sblock vol) -> view s' b = view vol b)) vol.
Proof.
  apply (proj1 (block_allocator 1 18 vol vol_trans vol_bitmap ltac:(split; [rewrite vol_view|]; reflexivity) ltac:(cbn; lia))).
  exists 104. split; [rewrite vol_sblock; cbn; lia|]. unfold inuse. rewrite vol_BBLOCK, vol_view by lia. reflexivity.
Defined.

(** Three bytes written across the block boundary of the 700-byte file, and
    eight bytes read around them. *)
Lemma file_write_then_read_witness :
  wp (r <- writei 1 (fun _ => None) 0 [1; 2; 3] 511 ;; q <- readi 1 (fun _ => None) 0 510 8 ;; ret (r, q)) (fun x s' =>
    x = (3, (8, [0; 1; 2; 3; 0; 0; 0; 0]))) vol.
Proof.
  eapply wp_mono.
  - apply (file_write_then_read 1 (fun _ => None) (fun _ => None) 0 vol_inode 18 [1; 2; 3] 511 510 8 vol); try (cbn; lia).
    split; [exact vol_trans|]. split; [reflexivity|exact vol_file].
  - intros x s' (-> & _). vm_compute. reflexivity.
Defined.

Lemma inode_cache_counts_witness :
  wp (iget 1 7) (fun i s' => (i < NINODE)%nat /\ refers s' 1 7 i /\
    icache_ok s' /\ forall d' n', refs s' d' n' = refs vol d' n' + (if (d' =? 1) && (n' =? 7) then 1 else 0)) vol.
Proof.
  apply (proj1 (inode_cache_counts 1 vol vol_icache)). exists 0%nat. split; [unfold NINODE; lia|]. left. unfold refers. cbn. lia.
Defined.
