(* ===== verification/Ring.v ===== *)
(** * Circular buffers with wrapping counters

    Pipes and the console keep bytes in an array indexed by 32-bit counters modulo
    the size of the array.  The size divides 2^32, so the counters may wrap. *)

From S2P Require Import Prelude.
Local Open Scope Z_scope.

Class RingSize (size : Z) : Prop := { ring_pos : 0 < size; ring_div : 2 ^ 32 mod size = 0 }.

(** The [n] bytes from counter [i] on. *)
Definition ring_at (size : Z) (buf : list Z) (i : Z) : Z := default 0 (buf !! Z.to_nat (i mod size)).
Definition ring (size : Z) (buf : list Z) (i n : Z) : list Z := (fun k => ring_at size buf (i + k)) <$> seqZ 0 n.

Section Ring.
Context {size : Z} `{RingSize size}.

Lemma u32_mod_ring x : u32 x mod size = x mod size.
Proof.
  pose proof ring_pos. pose proof ring_div as Hd. unfold u32. apply Z.mod_divide in Hd as [q Hq]; [|lia].
  rewrite (Z.mod_eq x (2 ^ 32)) by lia. rewrite Hq at 1.
  replace (x - q * size * (x / 2 ^ 32)) with (x + (- q * (x / 2 ^ 32)) * size) by ring. apply Z.mod_add. lia.
Qed.

Lemma ring_at_u32 buf i : ring_at size buf (u32 i) = ring_at size buf i.
Proof. unfold ring_at. rewrite u32_mod_ring. reflexivity. Qed.

Lemma ring_at_u32_add buf i k : ring_at size buf (u32 i + k) = ring_at size buf (i + k).
Proof. pose proof ring_pos. unfold ring_at. rewrite <- Z.add_mod_idemp_l, u32_mod_ring, Z.add_mod_idemp_l by lia. reflexivity. Qed.

Lemma ring_u32 buf i n : ring size buf (u32 i) n = ring size buf i n.
Proof. unfold ring. apply list_fmap_ext. intros j k _. apply ring_at_u32_add. Qed.

Lemma length_ring buf i n : length (ring size buf i n) = Z.to_nat n.
Proof. unfold ring. rewrite length_fmap, length_seqZ. reflexivity. Qed.

Lemma ring_nil buf i : ring size buf i 0 = [].
Proof. reflexivity. Qed.

Lemma ring_app buf i n m : 0 <= n -> 0 <= m -> ring size buf i (n + m) = ring size buf i n ++ ring size buf (u32 (i + n)) m.
Proof.
  intros Hn Hm. rewrite ring_u32. unfold ring. rewrite seqZ_app, fmap_app by lia. f_equal.
  rewrite Z.add_0_l. rewrite <- (Z.add_0_r n) at 1. rewrite <- (fmap_add_seqZ n 0), <- list_fmap_compose.
  apply list_fmap_ext. intros j k _. unfold compose. f_equal. lia.
Qed.

Lemma ring_one buf i : ring size buf i 1 = [ring_at size buf i].
Proof. unfold ring. rewrite (seqZ_cons 0 1) by lia. cbn. rewrite Z.add_0_r. reflexivity. Qed.

Lemma ring_cons buf i n : 0 < n -> ring size buf i n = ring_at size buf i :: ring size buf (u32 (i + 1)) (n - 1).
Proof. intros Hn. replace n with (1 + (n - 1)) at 1 by lia. rewrite ring_app, ring_one by lia. reflexivity. Qed.

Lemma ring_snoc buf i n : 0 <= n -> ring size buf i (n + 1) = ring size buf i n ++ [ring_at size buf (u32 (i + n))].
Proof. intros Hn. rewrite ring_app by lia. rewrite ring_one. reflexivity. Qed.

(** Writing the slot after the last byte. *)
Lemma ring_at_insert buf i k x : Z.of_nat (length buf) = size ->
  ring_at size (<[Z.to_nat (i mod size) := x]> buf) k = if k mod size =? i mod size then x else ring_at size buf k.
Proof.
  intros Hl. pose proof ring_pos. unfold ring_at. pose proof (Z.mod_pos_bound i size). pose proof (Z.mod_pos_bound k size).
  destruct (Z.eqb_spec (k mod size) (i mod size)) as [->|Hne].
  - rewrite list_lookup_insert_eq by lia. reflexivity.
  - rewrite list_lookup_insert_ne by lia. reflexivity.
Qed.

Lemma ring_insert_other buf i n m x : Z.of_nat (length buf) = size -> 0 <= n <= m -> m < size ->
  ring size (<[Z.to_nat (u32 (i + m) mod size) := x]> buf) i n = ring size buf i n.
Proof.
  intros Hl Hn Hm. rewrite u32_mod_ring. unfold ring. apply list_fmap_ext. intros j k Hk. apply lookup_seqZ in Hk.
  rewrite ring_at_insert by exact Hl. destruct (Z.eqb_spec ((i + k) mod size) ((i + m) mod size)) as [E|]; [|reflexivity]. exfalso.
  pose proof ring_pos. assert (E0 : (m - k) mod size = 0).
  { replace (m - k) with ((i + m) - (i + k)) by lia. rewrite Zminus_mod, E, Z.sub_diag. apply Z.mod_0_l. lia. }
  rewrite Z.mod_small in E0 by lia. lia.
Qed.

Lemma ring_insert buf i n x : Z.of_nat (length buf) = size -> 0 <= n < size ->
  ring size (<[Z.to_nat (u32 (i + n) mod size) := x]> buf) i (n + 1) = ring size buf i n ++ [x].
Proof.
  intros Hl Hn. rewrite ring_snoc, ring_insert_other by lia. f_equal. f_equal.
  rewrite ring_at_u32, u32_mod_ring, ring_at_insert, Z.eqb_refl by exact Hl. reflexivity.
Qed.
End Ring.
