(* ===== verification/Pipe.v ===== *)
(** * Pipes

    Models the buffer of [src/xv6/pipe.c].  The pipe's lock is held from the start
    of [pipewrite] and [piperead] to their end, except while they sleep, so each of
    them is cut at [sleep]: a piece runs under the lock and ends with a return
    value ([inl]) or with the process asleep ([inr]).  [pwoken] collects the
    channels on which a piece called [wakeup].

    The second half runs any number of readers and writers: bytes come out in the
    order they went in, and nobody sleeps on a pipe that has something for them. *)

From S2P Require Import Prelude Mem Ring.
Local Open Scope Z_scope.

Definition PIPESIZE : Z := 512.

(** [struct pipe] without its lock. *)
Record pipe := mkpipe {
  pdata : list Z; nread : Z; nwrite : Z; readopen : bool; writeopen : bool }.
Definition set_pdata (v : list Z) (x : pipe) : pipe := mkpipe v (nread x) (nwrite x) (readopen x) (writeopen x).
Definition set_nread (v : Z) (x : pipe) : pipe := mkpipe (pdata x) v (nwrite x) (readopen x) (writeopen x).
Definition set_nwrite (v : Z) (x : pipe) : pipe := mkpipe (pdata x) (nread x) v (readopen x) (writeopen x).
Definition set_readopen (v : bool) (x : pipe) : pipe := mkpipe (pdata x) (nread x) (nwrite x) v (writeopen x).
Definition set_writeopen (v : bool) (x : pipe) : pipe := mkpipe (pdata x) (nread x) (nwrite x) (readopen x) v.

(** The channels [&p->nread] and [&p->nwrite]. *)
Inductive pchan := ChRead | ChWrite.
#[export] Instance pchan_eq_dec : EqDecision pchan.
Proof. solve_decision. Defined.

Record pst := mkpst { ppipe : pipe; pwoken : list pchan }.

Definition getpp {A} (f : pipe -> A) : M pst A := gets (fun s => f (ppipe s)).
Definition updp (f : pipe -> pipe) : M pst unit := modify (fun s => mkpst (f (ppipe s)) (pwoken s)).
Definition wakeup (c : pchan) : M pst unit := modify (fun s => mkpst (ppipe s) (c :: pwoken s)).

(** A pipe as [pipealloc] sets it up, in a page that held [junk]. *)
Definition newpipe (junk : list Z) : pipe := mkpipe junk 0 0 true true.

(** [pipeclose] up to the release of the lock; the result tells whether the page
    is freed. *)
Definition pipeclose (writable : bool) : M pst bool :=
  (if writable then updp (set_writeopen false) ;;; wakeup ChRead
   else updp (set_readopen false) ;;; wakeup ChWrite) ;;;
  getpp (fun p => negb (readopen p) && negb (writeopen p)).

(** [p->data[p->nwrite++ % PIPESIZE] = b] *)
Definition put (b : Z) (p : pipe) : pipe :=
  set_nwrite (u32 (nwrite p + 1)) (set_pdata (<[Z.to_nat (nwrite p mod PIPESIZE) := b]> (pdata p)) p).
(** [p->data[p->nread++ % PIPESIZE]] *)
Definition peek (p : pipe) : Z := default 0 (pdata p !! Z.to_nat (nread p mod PIPESIZE)).
Definition drop1 (p : pipe) : pipe := set_nread (u32 (nread p + 1)) p.

(** [pipewrite] with [addr] the bytes left to write, of [n]. *)
Fixpoint pipewrite (killed : bool) (n : Z) (addr : list Z) : M pst (Z + list Z) :=
  match addr with
  | [] => wakeup ChRead ;;; ret (inl n)
  | b :: addr' =>
      p <- getpp id ;;
      if nwrite p =? u32 (nread p + PIPESIZE) then
        if negb (readopen p) || killed then ret (inl (-1))
        else wakeup ChRead ;;; ret (inr addr)
      else updp (put b) ;;; pipewrite killed n addr'
  end.

(** The copy loop of [piperead]: the bytes read, up to [n]. *)
Fixpoint piperead_loop (n : nat) : M pst (list Z) :=
  match n with
  | O => ret []
  | S n' =>
      p <- getpp id ;;
      if nread p =? nwrite p then ret []
      else
        updp drop1 ;;;
        l <- piperead_loop n' ;;
        ret (peek p :: l)
  end.
(** The return value and the bytes stored at [addr]. *)
Definition piperead (killed : bool) (n : Z) : M pst (Z * list Z + unit) :=
  p <- getpp id ;;
  if (nread p =? nwrite p) && writeopen p then
    if killed : bool then ret (inl (-1, [])) else ret (inr tt)
  else
    l <- piperead_loop (Z.to_nat n) ;;
    wakeup ChWrite ;;;
    ret (inl (Z.of_nat (length l), l)).

(** ** The buffer as a queue *)

Definition count (p : pipe) : Z := u32 (nwrite p - nread p).
Definition contents (p : pipe) : list Z := ring PIPESIZE (pdata p) (nread p) (count p).
#[export] Instance pipe_size : RingSize PIPESIZE.
Proof. split; reflexivity. Qed.

Record pipe_ok (p : pipe) : Prop := mkpipeok {
  po_len : length (pdata p) = 512%nat;
  po_read : 0 <= nread p < 2 ^ 32;
  po_write : 0 <= nwrite p < 2 ^ 32;
  po_count : count p <= PIPESIZE }.

Lemma count_range p : 0 <= count p < 2 ^ 32.
Proof. unfold count, u32. Z.to_euclidean_division_equations. lia. Qed.

Lemma length_contents p : length (contents p) = Z.to_nat (count p).
Proof. apply length_ring. Qed.

(** The test for a full pipe, and for an empty one. *)
Lemma full_iff p : pipe_ok p -> nwrite p = u32 (nread p + PIPESIZE) <-> count p = PIPESIZE.
Proof. intros [_ H1 H2 _]. unfold count, u32, PIPESIZE. Z.to_euclidean_division_equations. lia. Qed.

Lemma empty_iff p : pipe_ok p -> nread p = nwrite p <-> count p = 0.
Proof. intros [_ H1 H2 _]. unfold count, u32. Z.to_euclidean_division_equations. lia. Qed.

Lemma count_put b p : pipe_ok p -> count p < PIPESIZE -> count (put b p) = count p + 1.
Proof. intros [_ H1 H2 _]. unfold count, put, u32, PIPESIZE. cbn. Z.to_euclidean_division_equations. lia. Qed.

Lemma count_drop1 p : pipe_ok p -> 0 < count p -> count (drop1 p) = count p - 1.
Proof. intros [_ H1 H2 _]. unfold count, drop1, u32, PIPESIZE. cbn. Z.to_euclidean_division_equations. lia. Qed.

Lemma pipe_put_ok b p : pipe_ok p -> count p < PIPESIZE -> pipe_ok (put b p) /\ contents (put b p) = contents p ++ [b].
Proof.
  intros Ho Hc. pose proof (count_put b p Ho Hc) as E. pose proof (count_range p) as Hr. split.
  - destruct Ho as [H1 H2 H3 H4]. split; [unfold put; cbn; rewrite length_insert; exact H1|exact H2| |lia].
    unfold put, u32. cbn. Z.to_euclidean_division_equations. lia.
  - unfold contents. rewrite E. cbn. replace (nwrite p mod PIPESIZE) with (u32 (nread p + count p) mod PIPESIZE).
    + apply ring_insert; [rewrite (po_len _ Ho); reflexivity|lia].
    + rewrite u32_mod_ring. unfold count, u32, PIPESIZE. Z.to_euclidean_division_equations. lia.
Qed.

Lemma drop1_ok p : pipe_ok p -> 0 < count p -> pipe_ok (drop1 p) /\ contents p = peek p :: contents (drop1 p).
Proof.
  intros Ho Hc. pose proof (count_drop1 p Ho Hc) as E. split.
  - destruct Ho as [H1 H2 H3 H4]. split; [exact H1| |exact H3|lia]. unfold drop1, u32. cbn. Z.to_euclidean_division_equations. lia.
  - unfold contents. rewrite E. apply ring_cons, Hc.
Qed.

(** ** One piece of a call *)

Lemma pipewrite_ok killed n addr : forall s, pipe_ok (ppipe s) ->
  wp (pipewrite killed n addr) (fun r s' => let p := ppipe s in let p' := ppipe s' in
    exists w rest, addr = w ++ rest /\ pipe_ok p' /\ contents p' = contents p ++ w /\ nread p' = nread p /\
      readopen p' = readopen p /\ writeopen p' = writeopen p /\
      ((exists v, r = inl v /\ v = -1 /\ pwoken s' = pwoken s /\ count p' = PIPESIZE /\ negb (readopen p) || killed = true) \/
       (pwoken s' = ChRead :: pwoken s /\
        (r = inl n /\ rest = [] \/ r = inr rest /\ rest <> [] /\ count p' = PIPESIZE /\ readopen p = true)))) s.
Proof.
  induction addr as [|b addr IH]; intros s Ho; cbn [pipewrite].
  - apply wp_bind, wp_modify, wp_pure. exists [], []. do 6 (split; [first [reflexivity|assumption|symmetry; apply app_nil_r]|]). right. auto.
  - apply wp_bind, wp_gets. unfold id. pose proof (full_iff _ Ho) as Hf. pose proof (po_count _ Ho) as Hc.
    destruct (Z.eqb_spec (nwrite (ppipe s)) (u32 (nread (ppipe s) + PIPESIZE))) as [E|E].
    + destruct (negb (readopen (ppipe s)) || killed) eqn:Ek.
      * apply wp_pure. exists [], (b :: addr). do 6 (split; [first [reflexivity|assumption|symmetry; apply app_nil_r]|]). left. exists (-1). rewrite Hf in E. auto.
      * apply wp_bind, wp_modify, wp_pure. exists [], (b :: addr). do 6 (split; [first [reflexivity|assumption|symmetry; apply app_nil_r]|]). right.
        split; [reflexivity|]. right. rewrite Hf in E. apply orb_false_iff in Ek as [Ek _]. apply negb_false_iff in Ek. auto.
    + rewrite Hf in E. destruct (pipe_put_ok b (ppipe s) Ho ltac:(lia)) as [Ho' Ec]. apply wp_bind, wp_modify.
      eapply wp_mono; [apply IH; exact Ho'|]. cbn. intros r s' (w & rest & -> & Hp & Hw & Hr & H1 & H2 & Hcase).
      exists (b :: w), rest. rewrite Hw, Ec, <- app_assoc. do 6 (split; [first [reflexivity|assumption]|]). exact Hcase.
Qed.

Lemma piperead_loop_ok n : forall s, pipe_ok (ppipe s) ->
  wp (piperead_loop n) (fun l s' => let p := ppipe s in let p' := ppipe s' in
    l = take n (contents p) /\ contents p = l ++ contents p' /\ pipe_ok p' /\ nwrite p' = nwrite p /\
    readopen p' = readopen p /\ writeopen p' = writeopen p /\ pwoken s' = pwoken s) s.
Proof.
  induction n as [|n IH]; intros s Ho; cbn [piperead_loop].
  - apply wp_pure. cbn. auto 10.
  - apply wp_bind, wp_gets. unfold id. pose proof (count_range (ppipe s)). pose proof (empty_iff _ Ho) as He.
    destruct (Z.eqb_spec (nread (ppipe s)) (nwrite (ppipe s))) as [E|E].
    + apply wp_pure. rewrite He in E. assert (Ec : contents (ppipe s) = []) by (apply length_zero_iff_nil; rewrite length_contents; lia).
      rewrite Ec. cbn. auto 10.
    + rewrite He in E. destruct (drop1_ok (ppipe s) Ho ltac:(lia)) as [Ho' Ec]. apply wp_bind, wp_modify, wp_bind.
      eapply wp_mono; [apply IH; exact Ho'|]. cbn. intros l s' (-> & E1 & H1 & H2 & H3 & H4 & H5). apply wp_pure.
      rewrite Ec. cbn. rewrite <- E1. auto 10.
Qed.

(** A read takes the oldest bytes, as many as there are up to [n]; it returns none
    only from a pipe that is empty and has no writer left. *)
Lemma piperead_ok killed n s : pipe_ok (ppipe s) -> 0 <= n ->
  wp (piperead killed n) (fun r s' => let p := ppipe s in let p' := ppipe s' in
    pipe_ok p' /\ nwrite p' = nwrite p /\ readopen p' = readopen p /\ writeopen p' = writeopen p /\
    ((exists l, r = inl (Z.of_nat (length l), l) /\ l = take (Z.to_nat n) (contents p) /\ contents p = l ++ contents p' /\
        pwoken s' = ChWrite :: pwoken s /\ (count p = 0 -> writeopen p = false)) \/
     (p' = p /\ pwoken s' = pwoken s /\ count p = 0 /\ writeopen p = true /\
      r = if killed then inl (-1, []) else inr tt))) s.
Proof.
  intros Ho Hn. unfold piperead. apply wp_bind, wp_gets. unfold id. pose proof (empty_iff _ Ho) as He.
  destruct (Z.eqb_spec (nread (ppipe s)) (nwrite (ppipe s))) as [E|E]; cbn [andb].
  - destruct (writeopen (ppipe s)) eqn:Ew.
    + rewrite He in E. destruct killed; apply wp_pure; rewrite Ew; auto 12.
    + apply wp_bind. eapply wp_mono; [apply (piperead_loop_ok _ _ Ho)|]. cbv zeta. intros l s' (El & E1 & H1 & H2 & H3 & H4 & H5).
      apply wp_bind, wp_modify, wp_pure. cbn [ppipe pwoken]. rewrite H4, H5, Ew. split; [auto|]. do 3 (split; [auto|]). left. eauto 10.
  - apply wp_bind. eapply wp_mono; [apply (piperead_loop_ok _ _ Ho)|]. cbv zeta. intros l s' (El & E1 & H1 & H2 & H3 & H4 & H5).
    apply wp_bind, wp_modify, wp_pure. cbn [ppipe pwoken]. rewrite H5. split; [auto|]. do 3 (split; [auto|]). left.
    exists l. rewrite He in E. do 4 (split; [auto|]). lia.
Qed.

(** ** Readers and writers *)

(** A process: outside the pipe, in [pipewrite] of [n] bytes with [rest] left, or
    in [piperead]; the last two asleep or not. *)
Inductive thread := TIdle | TWrite (n : Z) (rest : list Z) (asleep : bool) | TRead (n : Z) (asleep : bool).

(** [swritten] and [sread] are the bytes taken from the writers' buffers and put
    into the readers' so far. *)
Record psys := mkpsys { spipe : pipe; sthr : nat -> thread; swritten : list Z; sread : list Z }.

Definition wake (ws : list pchan) (t : thread) : thread :=
  match t with
  | TIdle => TIdle
  | TWrite n rest a => TWrite n rest (a && negb (bool_decide (ChWrite ∈ ws)))
  | TRead n a => TRead n (a && negb (bool_decide (ChRead ∈ ws)))
  end.
Definition awake (ws : list pchan) (f : nat -> thread) : nat -> thread := fun i => wake ws (f i).

Definition after_write (n : Z) (r : Z + list Z) : thread :=
  match r with inl _ => TIdle | inr rest => TWrite n rest true end.
Definition after_read (n : Z) (r : Z * list Z + unit) : thread :=
  match r with inl _ => TIdle | inr _ => TRead n true end.
Definition bytes_of (r : Z * list Z + unit) : list Z := match r with inl (_, l) => l | inr _ => [] end.
(** The bytes of [rest] that went into the pipe, by its write counter. *)
Definition taken (p p' : pipe) (rest : list Z) : list Z := take (Z.to_nat (u32 (nwrite p' - nwrite p))) rest.

(** The steps; processes are killed only if [kills]. A file descriptor stays open
    while a process is in a call on it. *)
Inductive pstep (kills : bool) : psys -> psys -> Prop :=
| step_write_call (i : nat) (addr : list Z) s : sthr s i = TIdle -> writeopen (spipe s) = true ->
    pstep kills s (mkpsys (spipe s) (<[i := TWrite (Z.of_nat (length addr)) addr false]> (sthr s)) (swritten s) (sread s))
| step_read_call (i : nat) n s : sthr s i = TIdle -> readopen (spipe s) = true -> 0 <= n ->
    pstep kills s (mkpsys (spipe s) (<[i := TRead n false]> (sthr s)) (swritten s) (sread s))
| step_write (i : nat) (k : bool) n rest r p' ws s : sthr s i = TWrite n rest false -> (k = true -> kills = true) ->
    pipewrite k n rest (mkpst (spipe s) []) = Ret (r, mkpst p' ws) ->
    pstep kills s (mkpsys p' (<[i := after_write n r]> (awake ws (sthr s))) (swritten s ++ taken (spipe s) p' rest) (sread s))
| step_read (i : nat) (k : bool) n r p' ws s : sthr s i = TRead n false -> (k = true -> kills = true) ->
    piperead k n (mkpst (spipe s) []) = Ret (r, mkpst p' ws) ->
    pstep kills s (mkpsys p' (<[i := after_read n r]> (awake ws (sthr s))) (swritten s) (sread s ++ bytes_of r))
| step_close (w : bool) f p' ws s : (if w then writeopen (spipe s) else readopen (spipe s)) = true ->
    (forall i n rest a, w = true -> sthr s i <> TWrite n rest a) -> (forall i n a, w = false -> sthr s i <> TRead n a) ->
    pipeclose w (mkpst (spipe s) []) = Ret (f, mkpst p' ws) ->
    pstep kills s (mkpsys p' (awake ws (sthr s)) (swritten s) (sread s))
| step_kill (i : nat) s : kills = true ->
    pstep kills s (mkpsys (spipe s) (<[i := wake [ChRead; ChWrite] (sthr s i)]> (sthr s)) (swritten s) (sread s)).

Definition psys0 (junk : list Z) : psys := mkpsys (newpipe junk) (fun _ => TIdle) [] [].

(** A property of every process in the pipe, kept by the updates of the steps. *)
Definition allthr (P : thread -> Prop) (f : nat -> thread) : Prop := forall i, P (f i).

Definition read_size (t : thread) : Prop := match t with TRead n _ => 0 <= n | _ => True end.

Record fifo (s : psys) : Prop := mkfifo {
  ff_ok : pipe_ok (spipe s);
  ff_order : sread s ++ contents (spipe s) = swritten s;
  ff_n : allthr read_size (sthr s) }.

Lemma wake_read ws t n a : wake ws t = TRead n a -> exists a', t = TRead n a' /\ (a = true -> a' = true /\ ChRead ∉ ws).
Proof.
  destruct t as [| |n' a']; cbn; try discriminate. intros E. injection E as <- <-. exists a'. split; [reflexivity|].
  destruct a', (bool_decide_reflect (ChRead ∈ ws)); cbn; intros; try discriminate; auto.
Qed.

Lemma wake_write ws t n rest a : wake ws t = TWrite n rest a ->
  exists a', t = TWrite n rest a' /\ (a = true -> a' = true /\ ChWrite ∉ ws).
Proof.
  destruct t as [|n' r' a'|]; cbn; try discriminate. intros E. injection E as <- <- <-. exists a'. split; [reflexivity|].
  destruct a', (bool_decide_reflect (ChWrite ∈ ws)); cbn; intros; try discriminate; auto.
Qed.

Lemma taken_written p p' w rest : pipe_ok p -> pipe_ok p' -> nread p' = nread p -> contents p' = contents p ++ w ->
  taken p p' (w ++ rest) = w.
Proof.
  intros Ho Ho' Hr Hc. unfold taken. replace (Z.to_nat (u32 (nwrite p' - nwrite p))) with (length w); [apply take_app_length|].
  apply (f_equal length) in Hc. rewrite length_app, !length_contents in Hc.
  pose proof (count_range p). pose proof (count_range p'). destruct Ho as [_ H1 H2 H3], Ho' as [_ H4 H5 H6].
  unfold count, u32, PIPESIZE in *. rewrite Hr in *. Z.to_euclidean_division_equations. lia.
Qed.

(** [pipeclose] leaves the bytes alone. *)
Lemma pipeclose_ok w s : pipeclose w s = Ret (negb (if w then readopen (ppipe s) else writeopen (ppipe s)),
  mkpst (if w then set_writeopen false (ppipe s) else set_readopen false (ppipe s)) ((if w then ChRead else ChWrite) :: pwoken s)).
Proof. destruct w; cbn; unfold getpp, gets; cbn; rewrite ?andb_true_r; reflexivity. Qed.

Lemma allthr_insert P i t f : P t -> allthr P f -> allthr P (<[i := t]> f).
Proof.
  intros Ht Hf j. destruct (decide (i = j)) as [->|Hne]; [rewrite fn_lookup_insert; exact Ht|].
  rewrite fn_lookup_insert_ne by exact Hne. apply Hf.
Qed.

Lemma read_size_awake ws f : allthr read_size f -> allthr read_size (awake ws f).
Proof. intros H i. specialize (H i). unfold awake. destruct (f i); exact H. Qed.

Lemma fifo_step kills s s' : pstep kills s s' -> fifo s -> fifo s'.
Proof.
  intros St [Ho Hq Hn]. destruct St.
  - split; cbn; auto. apply allthr_insert; [exact I|exact Hn].
  - split; cbn; auto. apply allthr_insert; [exact H1|exact Hn].
  - pose proof (wp_run _ _ _ _ _ (pipewrite_ok k n rest (mkpst (spipe s) []) Ho) H1) as (w & rest' & E & Ho' & Hc & Hr & _).
    cbn in *. subst rest. split; cbn; [exact Ho'| |].
    + rewrite (taken_written _ _ _ _ Ho Ho' Hr Hc), Hc, app_assoc, Hq. reflexivity.
    + apply allthr_insert, read_size_awake, Hn. destruct r; exact I.
  - pose proof (Hn i) as Hi. rewrite H in Hi. cbn in Hi.
    pose proof (wp_run _ _ _ _ _ (piperead_ok k n (mkpst (spipe s) []) Ho Hi) H1) as (Ho' & _ & _ & _ & Hcase).
    cbn in *. split; cbn; [exact Ho'| |].
    + rewrite <- Hq, <- app_assoc. f_equal. destruct Hcase as [(l & -> & _ & Hc & _)|(-> & _ & _ & _ & ->)]; [symmetry; exact Hc|].
      destruct k; reflexivity.
    + apply allthr_insert, read_size_awake, Hn. destruct r; [exact I|exact Hi].
  - rewrite pipeclose_ok in H2. injection H2 as <- <- <-. split; cbn.
    + destruct w, Ho; split; auto.
    + destruct w; exact Hq.
    + apply read_size_awake, Hn.
  - split; cbn; auto. apply allthr_insert; [|exact Hn]. apply (read_size_awake _ _ Hn i).
Qed.

(** Who sleeps has nothing to do: a reader on an empty pipe that can still be
    written, a writer on a full one that can still be read; and whoever is in a
    call has its end of the pipe open. *)
Definition waits (p : pipe) (t : thread) : Prop :=
  match t with
  | TIdle => True
  | TRead _ a => readopen p = true /\ (a = true -> count p = 0 /\ writeopen p = true)
  | TWrite _ _ a => writeopen p = true /\ (a = true -> count p = PIPESIZE /\ readopen p = true)
  end.

Lemma waits_awake p p' ws f : allthr (waits p) f -> readopen p' = readopen p -> writeopen p' = writeopen p ->
  (ChRead ∉ ws -> readopen p = true -> count p = 0 -> count p' = 0) ->
  (ChWrite ∉ ws -> count p = PIPESIZE -> count p' = PIPESIZE) ->
  allthr (waits p') (awake ws f).
Proof.
  intros H Ero Ewo Hr Hw i. specialize (H i). unfold awake. destruct (f i) as [|n rest []|n []]; cbn in *; auto;
    rewrite Ero, Ewo; try case_bool_decide; cbn; intuition discriminate.
Qed.

Lemma waits_step s s' : pstep false s s' -> fifo s -> allthr (waits (spipe s)) (sthr s) -> allthr (waits (spipe s')) (sthr s').
Proof.
  intros St [Ho _ Hn] Hs. destruct St; cbn.
  - apply allthr_insert; [cbn; split; [assumption|discriminate]|exact Hs].
  - apply allthr_insert; [cbn; split; [assumption|discriminate]|exact Hs].
  - assert (k = false) as -> by (destruct k; [discriminate H0|]; auto). pose proof (Hs i) as Hi. rewrite H in Hi.
    pose proof (wp_run _ _ _ _ _ (pipewrite_ok false n rest (mkpst (spipe s) []) Ho) H1) as (w & rest' & E & Ho' & Hc & Hr & Hro & Hwo & Hcase).
    cbn in *. apply (f_equal length) in Hc. rewrite length_app, !length_contents in Hc.
    pose proof (count_range p'). pose proof (count_range (spipe s)). pose proof (po_count _ Ho'). unfold PIPESIZE in *.
    apply allthr_insert.
    + destruct Hcase as [(v & -> & _)|(_ & [[-> _]|(-> & _ & Hf & Ho1)])]; cbn; auto. rewrite Hro, Hwo. tauto.
    + apply (waits_awake (spipe s)); auto; [|unfold PIPESIZE; lia].
      intros Hnin Hop. destruct Hcase as [(v & _ & _ & _ & _ & Hk)|(-> & _)]; [rewrite Hop in Hk; discriminate|destruct Hnin; left].
  - assert (k = false) as -> by (destruct k; [discriminate H0|]; auto). pose proof (Hs i) as Hi. pose proof (Hn i) as Hi'. rewrite H in Hi, Hi'.
    pose proof (wp_run _ _ _ _ _ (piperead_ok false n (mkpst (spipe s) []) Ho Hi') H1) as (Ho' & _ & Hro & Hwo & Hcase). cbn in *.
    apply allthr_insert.
    + destruct Hcase as [(l & -> & _)|(-> & _ & E1 & E2 & ->)]; cbn; auto. tauto.
    + apply (waits_awake (spipe s)); auto.
      * intros _ _ E. destruct Hcase as [(l & _ & _ & E1 & _)|(-> & _)]; [|exact E].
        apply (f_equal length) in E1. rewrite length_app, !length_contents in E1. pose proof (count_range p'). lia.
      * intros Hnin. destruct Hcase as [(l & _ & _ & _ & -> & _)|(-> & _)]; [destruct Hnin; left|auto].
  - rewrite pipeclose_ok in H2. injection H2 as <- <- <-. intros j. specialize (Hs j). unfold awake. cbn.
    destruct (sthr s j) as [|m rest a|m a] eqn:Ej; [exact I|destruct w..]; cbn in *.
    + destruct (H0 j m rest a eq_refl Ej).
    + rewrite andb_false_r. split; [apply Hs|discriminate].
    + rewrite andb_false_r. split; [apply Hs|discriminate].
    + destruct (H1 j m a eq_refl Ej).
  - discriminate.
Qed.

Lemma fifo_start junk : length junk = 512%nat -> fifo (psys0 junk).
Proof. intros H. split; [split; cbn; auto; [lia..|vm_compute; discriminate]|reflexivity|intros i; exact I]. Qed.

(** C18: A pipe is a queue. Whatever readers and writers do, in whatever order they
    get the pipe's lock, sleep, are woken or are killed, and however often the
    32-bit counters wrap around: the bytes read so far followed by those in the
    buffer are exactly the bytes written so far, in order, and the buffer never
    holds more than PIPESIZE. *)
Theorem pipe_fifo (junk : list Z) (s : psys) : length junk = 512%nat -> rtc (pstep true) (psys0 junk) s ->
  sread s ++ contents (spipe s) = swritten s /\ Z.of_nat (length (contents (spipe s))) <= PIPESIZE.
Proof.
  intros Hj R. assert (F : fifo s).
  { revert s R. apply (rtc_ind_r fifo (psys0 junk)); [apply fifo_start, Hj|]. intros y z _ St IH. eapply fifo_step; eauto. }
  split; [apply F|]. rewrite length_contents. pose proof (po_count _ (ff_ok _ F)). pose proof (count_range (spipe s)). lia.
Qed.

(** C24: No wakeup on a pipe is lost. As long as no process is killed, a reader
    sleeps only while the pipe is empty and has a writer, and a writer sleeps only
    while it is full and has a reader. *)
Theorem pipe_no_lost_wakeup (junk : list Z) (s : psys) : length junk = 512%nat -> rtc (pstep false) (psys0 junk) s ->
  (forall i n, sthr s i = TRead n true -> contents (spipe s) = [] /\ writeopen (spipe s) = true) /\
  (forall i n rest, sthr s i = TWrite n rest true ->
     Z.of_nat (length (contents (spipe s))) = PIPESIZE /\ readopen (spipe s) = true).
Proof.
  intros Hj R. assert (F : fifo s /\ allthr (waits (spipe s)) (sthr s)).
  { revert s R. apply (rtc_ind_r (fun s => fifo s /\ allthr (waits (spipe s)) (sthr s)) (psys0 junk)); [split; [apply fifo_start, Hj|intros i; exact I]|].
    intros y z _ St [F W]. split; [eapply fifo_step|eapply waits_step]; eauto. }
  destruct F as [F W]. split.
  - intros i n E. specialize (W i). rewrite E in W. destruct W as [_ W]. destruct (W eq_refl) as [Hc Hw]. split; [|exact Hw].
    apply length_zero_iff_nil. rewrite length_contents, Hc. reflexivity.
  - intros i n rest E. specialize (W i). rewrite E in W. destruct W as [_ W]. destruct (W eq_refl) as [Hc Hr].
    rewrite length_contents, Hc. split; [reflexivity|exact Hr].
Qed.

(** ** Runs *)

Definition junk0 : list Z := replicate 512 1.

(** Process 0 reads and falls asleep; process 1 writes [addr], killed or not. *)
Definition thr_sleep : nat -> thread := <[0%nat := TRead 10 true]> (awake [] (<[0%nat := TRead 10 false]> (fun _ => TIdle))).
Definition run1 : psys := mkpsys (newpipe junk0) thr_sleep [] [].
Definition thr_write (addr : list Z) : nat -> thread := <[1%nat := TWrite (Z.of_nat (length addr)) addr false]> thr_sleep.

Lemma run1_reached k : rtc (pstep k) (psys0 junk0) run1.
Proof.
  eapply rtc_l; [exact (step_read_call k 0%nat 10 (psys0 junk0) eq_refl eq_refl ltac:(lia))|].
  apply rtc_once. refine (step_read k 0%nat false 10 (inr tt) _ [] (mkpsys _ _ _ _) _ _ _); [reflexivity|discriminate|reflexivity].
Qed.

Lemma run_write k killed addr r p' ws : (killed = true -> k = true) ->
  pipewrite killed (Z.of_nat (length addr)) addr (mkpst (newpipe junk0) []) = Ret (r, mkpst p' ws) ->
  rtc (pstep k) (psys0 junk0) (mkpsys p' (<[1%nat := after_write (Z.of_nat (length addr)) r]> (awake ws (thr_write addr)))
    (taken (newpipe junk0) p' addr) []).
Proof.
  intros Hk E. etrans; [apply run1_reached|].
  eapply rtc_l; [exact (step_write_call k 1%nat addr run1 eq_refl eq_refl)|].
  apply rtc_once. refine (step_write k 1%nat killed _ addr r p' ws (mkpsys (newpipe junk0) _ [] []) _ Hk E).
  apply fn_lookup_insert.
Qed.

Lemma pipe_fifo_witness :
  let s := mkpsys (put 8 (put 7 (newpipe junk0))) (<[1%nat := TIdle]> (awake [ChRead] (thr_write [7; 8]))) [7; 8] [] in
  sread s ++ contents (spipe s) = swritten s /\ Z.of_nat (length (contents (spipe s))) <= PIPESIZE.
Proof.
  apply (pipe_fifo junk0); [reflexivity|]. exact (run_write true false [7; 8] (inl 2) _ [ChRead] ltac:(discriminate) eq_refl).
Defined.

Lemma pipe_no_lost_wakeup_witness : contents (spipe run1) = [] /\ writeopen (spipe run1) = true.
Proof. apply (proj1 (pipe_no_lost_wakeup junk0 run1 eq_refl (run1_reached false)) 0%nat 10). reflexivity. Defined.

(** A writer that is killed returns without the [wakeup] its bytes call for: the
    reader sleeps although the buffer is full. *)
Lemma killed_writer_loses_wakeup : exists s, rtc (pstep true) (psys0 junk0) s /\
  sthr s 0%nat = TRead 10 true /\ length (contents (spipe s)) = 512%nat.
Proof.
  destruct (pipewrite true 513 (replicate 513 7) (mkpst (newpipe junk0) [])) as [[r [p' ws]]| |] eqn:E; [|vm_compute in E; discriminate..].
  eexists. split; [apply (run_write true true (replicate 513 7) r p' ws); auto; exact E|].
  vm_compute in E. injection E as <- <- <-. split; vm_compute; reflexivity.
Qed.
