(* ===== verification/File.v ===== *)
(** * Open files

    Models [src/xv6/file.c] and [pipealloc] and [pipeclose] of [src/xv6/pipe.c]:
    the table of open files over the file system of [Fs] and the pipes of [Pipe].

    As in [Fs] one process runs; where it would sleep the computation does not
    return ([NoFuel]).  The pages of pipes come from the page allocator through
    the class [PageOps].  A [struct file*] is the file's index in the table. *)

From S2P Require Import Prelude Mem Kalloc Bio Log Fs Pipe.
Local Open Scope Z_scope.

Definition NFILE : nat := 100.

(** What this component uses of the page allocator: allocate (0 when out of
    memory), free, and the bytes a page holds. *)
Class PageOps (P : Type) := {
  palloc : M P Z;
  pfree : Z -> M P unit;
  pbyte : P -> Z -> Z }.

(** The kernel's allocator, [kend] being the end of the kernel. *)
Definition kmem_pages (kend : Z) : PageOps kmem := {|
  palloc := kalloc;
  pfree := kfree kend;
  pbyte s a := ldb (k_mem s) a |}.

Inductive ftype := FD_NONE | FD_PIPE | FD_INODE.
#[export] Instance ftype_eq_dec : EqDecision ftype.
Proof. solve_decision. Defined.

(** [struct file]; [fip] is an index of the inode cache. *)
Record file := mkfd {
  ftyp : ftype; fref : Z; freadable : bool; fwritable : bool; fpipe : Z; fip : nat; foff : Z }.
Definition set_ftyp (v : ftype) (x : file) : file :=
  mkfd v (fref x) (freadable x) (fwritable x) (fpipe x) (fip x) (foff x).
Definition set_fref (v : Z) (x : file) : file :=
  mkfd (ftyp x) v (freadable x) (fwritable x) (fpipe x) (fip x) (foff x).
Definition set_foff (v : Z) (x : file) : file :=
  mkfd (ftyp x) (fref x) (freadable x) (fwritable x) (fpipe x) (fip x) v.

(** The state: the file system, [ftable.file], the pipes by their page, the page
    allocator, and the processes woken through pipes. *)
Record ffs (P : Type) := mkffs {
  ffsys : fs; ftab : nat -> file; fpipes : Z -> pipe; fpool : P; fwoken : list (Z * pchan) }.
Arguments mkffs {P}.
Arguments ffsys {P}.
Arguments ftab {P}.
Arguments fpipes {P}.
Arguments fpool {P}.
Arguments fwoken {P}.

Section Setters.
Context {P : Type}.
Definition set_ffsys (v : fs) (x : ffs P) : ffs P := mkffs v (ftab x) (fpipes x) (fpool x) (fwoken x).
Definition set_ftab (v : nat -> file) (x : ffs P) : ffs P := mkffs (ffsys x) v (fpipes x) (fpool x) (fwoken x).
Definition set_fpool (v : P) (x : ffs P) : ffs P := mkffs (ffsys x) (ftab x) (fpipes x) v (fwoken x).
Definition set_fpipes (v : Z -> pipe) (x : ffs P) : ffs P := mkffs (ffsys x) (ftab x) v (fpool x) (fwoken x).
Definition set_fwoken (v : list (Z * pchan)) (x : ffs P) : ffs P := mkffs (ffsys x) (ftab x) (fpipes x) (fpool x) v.
End Setters.

Section File.
Context {P : Type} `{PageOps P}.
(** The running process: its pid, whether it is killed; the device switch. *)
Context (pid : Z) (killed : bool).
Context (dev_read : Z -> option (Z -> M fs (Z * list Z))) (dev_write : Z -> option (list Z -> M fs Z)).

Definition on_fsys {A} (m : M fs A) : M (ffs P) A := lift ffsys set_ffsys m.
Definition on_pool {A} (m : M P A) : M (ffs P) A := lift fpool set_fpool m.
Definition on_pipe {A} (p : Z) (m : M pst A) : M (ffs P) A :=
  lift (fun s => mkpst (fpipes s p) [])
       (fun q s => set_fwoken ((pair p <$> pwoken q) ++ fwoken s) (set_fpipes (<[p := ppipe q]> (fpipes s)) s)) m.
Definition getf {A} (f : nat) (g : file -> A) : M (ffs P) A := gets (fun s => g (ftab s f)).
Definition updf (f : nat) (g : file -> file) : M (ffs P) unit :=
  modify (fun s => set_ftab (<[f := g (ftab s f)]> (ftab s)) s).

Definition filealloc : M (ffs P) (option nat) :=
  s <- get ;;
  match list_find (fun f => fref (ftab s f) = 0) (seq 0 NFILE) with
  | Some (_, f) => updf f (set_fref 1) ;;; ret (Some f)
  | None => ret None
  end.

Definition filedup (f : nat) : M (ffs P) nat :=
  r <- getf f fref ;;
  if r <? 1 then panic "filedup"
  else updf f (set_fref (s32 (r + 1))) ;;; ret f.

(** [pipeclose] with the release of the page. *)
Definition pipe_close (p : Z) (writable : bool) : M (ffs P) unit :=
  f <- on_pipe p (pipeclose writable) ;;
  if f : bool then on_pool (pfree p) else ret tt.

Definition fileclose (f : nat) : M (ffs P) unit :=
  r <- getf f fref ;;
  if r <? 1 then panic "fileclose"
  else
    updf f (set_fref (r - 1)) ;;;
    if r - 1 >? 0 then ret tt
    else
      ff <- getf f id ;;
      updf f (set_fref 0) ;;;
      updf f (set_ftyp FD_NONE) ;;;
      match ftyp ff with
      | FD_PIPE => pipe_close (fpipe ff) (fwritable ff)
      | FD_INODE => on_fsys begin_op ;;; on_fsys (iput pid (fip ff)) ;;; on_fsys (end_op pid)
      | FD_NONE => ret tt
      end.

Definition filestat (f : nat) : M (ffs P) (option stat) :=
  t <- getf f ftyp ;;
  if bool_decide (t = FD_INODE) then
    ip <- getf f fip ;;
    on_fsys (ilock pid ip) ;;;
    st <- on_fsys (stati ip) ;;
    on_fsys (iunlock ip) ;;;
    ret (Some st)
  else ret None.

(** The return value and the bytes put at [addr]. *)
Definition fileread (f : nat) (n : Z) : M (ffs P) (Z * list Z) :=
  x <- getf f id ;;
  if negb (freadable x) then ret (-1, [])
  else
    match ftyp x with
    | FD_PIPE =>
        r <- on_pipe (fpipe x) (piperead killed n) ;;
        match r with inl v => ret v | inr _ => nofuel end
    | FD_INODE =>
        on_fsys (ilock pid (fip x)) ;;;
        o <- getf f foff ;;
        r <- on_fsys (readi pid dev_read (fip x) o n) ;;
        (if fst r >? 0 then updf f (set_foff (u32 (o + fst r))) else ret tt) ;;;
        on_fsys (iunlock (fip x)) ;;;
        ret r
    | FD_NONE => panic "fileread"
    end.

(** [((MAXOPBLOCKS-1-1-2) / 2) * 512] *)
Definition WRITEMAX : Z := (MAXOPBLOCKS - 1 - 1 - 2) / 2 * 512.

(** One round of the loop of [filewrite], for the bytes [addr]. *)
Definition filewrite_chunk (f : nat) (addr : list Z) : M (ffs P) Z :=
  ip <- getf f fip ;;
  on_fsys begin_op ;;;
  on_fsys (ilock pid ip) ;;;
  o <- getf f foff ;;
  r <- on_fsys (writei pid dev_write ip addr o) ;;
  (if r >? 0 then updf f (set_foff (u32 (o + r))) else ret tt) ;;;
  on_fsys (iunlock ip) ;;;
  on_fsys (end_op pid) ;;;
  ret r.
(** [while(i < n)]; a round that returns writes at least a byte. *)
Fixpoint filewrite_loop (fuel : nat) (f : nat) (addr : list Z) (i n : Z) : M (ffs P) Z :=
  match fuel with
  | O => nofuel
  | S fu =>
      if i <? n then
        let n1 := Z.min (n - i) WRITEMAX in
        r <- filewrite_chunk f (slice addr i n1) ;;
        if r <? 0 then ret i
        else if negb (r =? n1) then panic "short filewrite"
        else filewrite_loop fu f addr (i + r) n
      else ret i
  end.
Definition filewrite (f : nat) (addr : list Z) : M (ffs P) Z :=
  x <- getf f id ;;
  if negb (fwritable x) then ret (-1)
  else
    match ftyp x with
    | FD_PIPE =>
        r <- on_pipe (fpipe x) (pipewrite killed (Z.of_nat (length addr)) addr) ;;
        match r with inl v => ret v | inr _ => nofuel end
    | FD_INODE =>
        let n := Z.of_nat (length addr) in
        i <- filewrite_loop (S (length addr)) f addr 0 n ;;
        ret (if i =? n then n else -1)
    | FD_NONE => panic "filewrite"
    end.

(** [sizeof(struct spinlock)]: the data of a pipe follows its lock. *)
Definition PIPE_DATA : Z := 52.

(** [pipealloc] once it has two files.  [None] is -1; [bad]: the files obtained
    are closed again. *)
Definition pipe_setup (f0 f1 : nat) : M (ffs P) (option (nat * nat)) :=
  p <- on_pool palloc ;;
  if p =? 0 then fileclose f0 ;;; fileclose f1 ;;; ret None
  else
    s <- get ;;
    modify (set_fpipes (<[p := newpipe (pbyte (fpool s) <$> seqZ (p + PIPE_DATA) PIPESIZE)]> (fpipes s))) ;;;
    updf f0 (fun x => mkfd FD_PIPE (fref x) true false p (fip x) (foff x)) ;;;
    updf f1 (fun x => mkfd FD_PIPE (fref x) false true p (fip x) (foff x)) ;;;
    ret (Some (f0, f1)).
Definition pipealloc : M (ffs P) (option (nat * nat)) :=
  a <- filealloc ;;
  match a with
  | None => ret None
  | Some f0 =>
      b <- filealloc ;;
      match b with
      | None => fileclose f0 ;;; ret None
      | Some f1 => pipe_setup f0 f1
      end
  end.
End File.
