(* ===== verification/FileProps.v ===== *)
(** * Properties of open files

    Writing through a file descriptor reaches the disk; the reference counts of
    the file table. *)

From S2P Require Import Prelude Mem Mmu Kalloc Bio Log BioRules LogRules LogProps Fs FsRules FsFile FsProps Pipe File.
Local Open Scope Z_scope.

(** ** The inode cache is not part of a transaction *)

Lemma ready_icache c all bs t s : ready_log all bs t s -> ready_log all bs t (set_icache c s).
Proof. intros [[]]. split; auto. split; auto. Qed.

Lemma trans_icache c n s : trans n s -> trans n (set_icache c s).
Proof. intros (bs & [R H1 H2 H3 H4] & H). exists bs. split; [|exact H]. split; auto using ready_icache. Qed.

Lemma quiet_icache c s : quiet_fs s -> quiet_fs (set_icache c s).
Proof. intros [R H1 H2 H3 H4 H5 H6 H7 H8]. split; auto using ready_icache. Qed.

(** Steps that read: only the inode cache changes, and what the buffer cache holds. *)
Definition reads (s s' : fs) : Prop := fstep [] (set_icache (icache s') s) s'.

Lemma reads_fstep s s' : fstep [] s s' -> reads s s'.
Proof. intros F. unfold reads. destruct F as [A1 A2 A3 A4 A5 A6]. split; auto. Qed.
Lemma reads_icache c s : reads s (set_icache c s).
Proof. split; reflexivity. Qed.
Lemma reads_trans s s1 s2 : reads s s1 -> reads s1 s2 -> reads s s2.
Proof.
  intros [A1 A2 A3 A4 A5 A6] [B1 B2 B3 B4 B5 B6]. split; cbn in *; try congruence. intros b. rewrite B1. apply A1.
Qed.
Lemma reads_view s s' b : reads s s' -> view s' b = view s b.
Proof. intros F. apply (fs_view _ _ _ F). Qed.

(** ** A file across a transaction *)

(** Two states that agree on every block outside the log. *)
Record agree (s s' : fs) : Prop := mkagree {
  ag_view : forall b, ~ in_log (logst s) b -> view s' b = view s b;
  ag_start : lstart (logst s') = lstart (logst s);
  ag_lsize : lsize (logst s') = lsize (logst s);
  ag_size : disksize s' = disksize s }.

Lemma agree_in_log s s' b : agree s s' -> in_log (logst s') b <-> in_log (logst s) b.
Proof. intros [_ H1 H2 _]. unfold in_log. rewrite H1, H2. reflexivity. Qed.

Lemma agree_home s s' b : agree s s' -> home s b -> home s' b.
Proof. intros A. unfold home. rewrite (agree_in_log s s' b A), (ag_size _ _ A). auto. Qed.

Lemma agree_file_block s s' p k : agree s s' -> file_ok s p -> 0 <= k < nblocks p -> file_block s' p k = file_block s p k.
Proof.
  intros A H Hk. unfold file_block. destruct (k <? NDIRECT) eqn:E; zbool; [reflexivity|].
  destruct (fo_indirect _ _ H ltac:(lia)) as [[(_ & Hl & _) _] _]. rewrite (ag_view _ _ A _ Hl). reflexivity.
Qed.

Lemma agree_file s s' p : agree s s' -> file_ok s p -> file_ok s' p.
Proof.
  intros A H. assert (E : forall k, 0 <= k < nblocks p -> file_block s' p k = file_block s p k)
    by (intros k; apply agree_file_block; auto). pose proof H as [H1 H2 H3 H4 H5 H6]. split; auto.
  - intros k Hk. rewrite E by exact Hk. destruct (H4 k Hk) as (Hh & Hz & Hl). pose proof Hh as (_ & Hlog & _).
    split; [eapply agree_home; eauto|]. split; [exact Hz|]. rewrite (ag_view _ _ A _ Hlog). exact Hl.
  - intros Hn. destruct (H5 Hn) as [[A1 A2] B]. split; [split; [eapply agree_home; eauto|exact A2]|].
    intros k Hk. rewrite E by exact Hk. auto.
  - intros k j Hk Hj. rewrite !E by assumption. auto.
Qed.

Lemma agree_fbyte s s' p j : agree s s' -> file_ok s p -> 0 <= j < isize p -> fbyte s' p j = fbyte s p j.
Proof.
  intros A H Hj. pose proof (nblocks_in p j Hj) as Hk. unfold fbyte. rewrite (agree_file_block s s') by auto.
  destruct (fo_block _ _ H _ Hk) as ((_ & Hl & _) & _). rewrite (ag_view _ _ A _ Hl). reflexivity.
Qed.

(** Bytes [off], ... of the file replaced by [src], and no block outside the log
    changed but the file's. *)
Record saved (p : inode) (off : Z) (src : list Z) (s s' : fs) : Prop := mksaved {
  sv_file : file_ok s' p;
  sv_block : forall k, 0 <= k < nblocks p -> file_block s' p k = file_block s p k;
  sv_byte : forall j, 0 <= j < isize p ->
    fbyte s' p j = if (off <=? j) && (j <? off + Z.of_nat (length src)) then byte_at src (j - off) else fbyte s p j;
  sv_other : forall b, ~ in_log (logst s) b -> (forall k, 0 <= k < nblocks p -> b <> file_block s p k) -> view s' b = view s b;
  sv_log : logst s' = logst s }.

Lemma saved_over p off src s s1 s2 s3 : file_ok s p -> agree s s1 -> over p off src s1 s2 -> agree s2 s3 ->
  (forall b, in_log (logst s2) b <-> in_log (logst s1) b) -> logst s3 = logst s -> saved p off src s s3.
Proof.
  intros H A1 [O1 O2 O3 O4] A3 Hl E. split; [eapply agree_file; eauto| | | |exact E].
  - intros k Hk. rewrite (agree_file_block s2 s3), O2, (agree_file_block s s1) by auto. reflexivity.
  - intros j Hj. rewrite (agree_fbyte s2 s3), O3, (agree_fbyte s s1) by auto. reflexivity.
  - intros b Hb Hn. rewrite (ag_view _ _ A3), O4, (ag_view _ _ A1); auto.
    + intros k Hk. rewrite (agree_file_block s s1) by auto. auto.
    + rewrite Hl, (agree_in_log _ _ _ A1). exact Hb.
Qed.

Lemma saved_trans p off src1 src2 s s1 s2 : saved p off src1 s s1 -> saved p (off + Z.of_nat (length src1)) src2 s1 s2 ->
  saved p off (src1 ++ src2) s s2.
Proof.
  intros [A1 A2 A3 A4 A5] [B1 B2 B3 B4 B5]. split; auto; [| | |congruence].
  - intros k Hk. rewrite B2 by exact Hk. apply A2, Hk.
  - intros j Hj. rewrite B3, A3 by exact Hj. apply overlay_app.
  - intros b Hb Hn. rewrite B4, A4; auto; [rewrite A5; exact Hb|]. intros k Hk. rewrite A2 by exact Hk. apply Hn, Hk.
Qed.

(** ** One round of [filewrite] *)

(** The file system is idle and inode [p], in entry [ip], is a file in order that
    nobody has locked. *)
Record wfile (ip : nat) (p : inode) (s : fs) : Prop := mkwfile {
  wf_quiet : quiet_fs s;
  wf_room : 5 <= lsize (logst s);
  wf_inode : icache s ip = p;
  wf_file : file_ok s p;
  wf_valid : ivalid p = true;
  wf_ref : 1 <= iref p;
  wf_lock : ilk p = mksl false 0 }.

Lemma wblocks_max off n : 0 <= off -> n <= WRITEMAX -> (wblocks off n <= 4)%nat.
Proof.
  unfold wblocks. change WRITEMAX with 1536. rewrite BSIZE_eq. intros Ho Hn. destruct (n <=? 0) eqn:E; zbool; [lia|].
  Z.to_euclidean_division_equations. lia.
Qed.

Lemma set_ilk_same p : ilk p = mksl false 0 -> set_ilk (mksl false 0) p = p.
Proof. intros <-. destruct p; reflexivity. Qed.

Section Chunk.
Context (pid : Z) (dev_read : Z -> option (Z -> M fs (Z * list Z))) (dev_write : Z -> option (list Z -> M fs Z)).

(** [begin_op] and [ilock] of an inode that is in the cache. *)
Definition begun (ip : nat) (p : inode) (s : fs) : fs :=
  set_icache (<[ip := set_ilk (mksl true pid) p]> (icache s)) (set_logst (set_outstanding 1 (logst s)) s).
Lemma begin_ilock_trans m ip p s : quiet_fs s -> Z.of_nat m < lsize (logst s) -> (m <= 29)%nat -> icache s ip = p -> ivalid p = true -> 1 <= iref p ->
  ilk p = mksl false 0 -> wp (begin_op ;;; ilock pid ip) (fun _ s1 => trans m s1 /\ s1 = begun ip p s) s.
Proof.
  intros Q Hr Hm Ei Hv H1 Hl. apply wp_bind. eapply wp_mono; [apply (begin_op_ok s Q)|]. intros [] s1 [-> T].
  unfold ilock. apply wp_bind, wp_gets. cbn [icache set_logst]. rewrite Ei. destruct (iref p <? 1) eqn:E; zbool; [lia|].
  unfold acquiresleep. apply wp_bind, wp_bind, wp_gets. unfold ilockfield. cbn [icache set_logst]. rewrite Ei, Hl. cbn [locked].
  apply wp_modify, wp_bind, wp_gets. unfold ilockset. cbn [icache set_icache set_logst]. rewrite fn_lookup_insert, Ei. cbn [ivalid set_ilk].
  rewrite Hv. apply wp_pure. split; [|reflexivity].
  apply trans_icache. exists []. split; [exact T|]. split; [apply not_elem_of_nil|]. cbn. unfold NBUF, LOGSIZE. lia.
Qed.
Lemma begin_ilock_ok ip p s : wfile ip p s ->
  wp (begin_op ;;; ilock pid ip) (fun _ s1 => opened ip (set_ilk (mksl true pid) p) 4 s1 /\ s1 = begun ip p s) s.
Proof.
  intros [Q Hr Ei Hf Hv H1 Hl]. eapply wp_mono; [apply (begin_ilock_trans 4 ip p s); auto; lia|]. intros [] s1 [T ->].
  split; [|reflexivity]. split; [exact T|]. split; [cbn; apply fn_lookup_insert|]. destruct Hf as [F1 F2 F3 F4 F5 F6]. split; auto.
Qed.

(** [iunlock] and [end_op]: the transaction is on the disk. *)
Lemma iunlock_end_trans ip q m s s2 : quiet_fs s -> trans m s2 -> set_lh [] (logst s2) = set_lh [] (set_outstanding 1 (logst s)) ->
  (forall b, disk s2 b = disk s b) -> disksize s2 = disksize s -> icache s2 ip = set_ilk (mksl true pid) q -> 1 <= iref q -> ilk q = mksl false 0 ->
  (forall j, j <> ip -> icache s2 j = icache s j) ->
  wp (iunlock ip ;;; end_op pid) (fun _ s' => quiet_fs s' /\ agree s2 s' /\ logst s' = logst s /\ sblock s' = sblock s2 /\
    forall j, icache s' j = <[ip := q]> (icache s) j) s2.
Proof.
  intros Q T2 L2 Hd Hsz Ei H1 Hl Hc.
  unfold iunlock, holdingsleep, releasesleep. apply wp_bind, wp_bind, wp_gets, wp_bind, wp_gets. unfold ilockfield.
  rewrite Ei. cbn [ilk set_ilk locked iref]. destruct (_ || _) eqn:E; zbool; [destruct E; zbool; [discriminate|lia]|]. apply wp_modify.
  set (s3 := ilockset ip (mksl false 0) s2). assert (Ec3 : forall j, icache s3 j = <[ip := q]> (icache s) j).
  { intros j. unfold s3, ilockset. cbn [icache set_icache]. rewrite Ei. destruct (decide (ip = j)) as [<-|Hne].
    - rewrite !fn_lookup_insert. exact (set_ilk_same q Hl).
    - rewrite !fn_lookup_insert_ne by exact Hne. apply Hc. congruence. }
  assert (L3 : set_lh [] (set_outstanding 0 (logst s2)) = logst s).
  { transitivity (set_outstanding 0 (set_lh [] (logst s2))); [reflexivity|]. rewrite L2. apply log_reset; apply Q. }
  assert (Hst : lstart (logst s2) = lstart (logst s)) by (rewrite <- L3; reflexivity).
  assert (Hls : lsize (logst s2) = lsize (logst s)) by (rewrite <- L3; reflexivity).
  destruct (trans_icache (<[ip := set_ilk (mksl false 0) (icache s2 ip)]> (icache s2)) _ _ T2) as (bs & T3 & Hn1 & _).
  pose proof Q as [R Q1 Q2 Q3 Q4 Q5 [Q6 Q6'] Q7 Q8].
  eapply wp_mono; [apply (end_op_ok pid bs s3 T3); cbn; rewrite ?Hst, ?Hls, ?Hd, ?Hsz; auto|].
  { unfold in_log in *. rewrite Hst, Hls. exact Q6. }
  intros [] s4 (Q' & L4 & Z4 & C4 & B4 & D4). cbn in L4, Z4. rewrite L3 in L4. rewrite Hsz in Z4.
  split; [exact Q'|]. split; [|split; [exact L4|split; [exact B4|intros j; rewrite C4; apply Ec3]]].
  split; [|congruence|congruence|congruence]. intros b Hb. rewrite (quiet_view s4 b Q'). apply D4. exact Hb.
Qed.
Lemma iunlock_end_ok ip p off src m s s2 ws : wfile ip p s ->
  trans m s2 -> fstep ws (begun ip p s) s2 -> over p off src (begun ip p s) s2 ->
  wp (iunlock ip ;;; end_op pid) (fun _ s' => wfile ip p s' /\ saved p off src s s' /\
    forall j, icache s' j = icache s j) s2.
Proof.
  intros W T2 F O. pose proof W as [Q Hr Ei Hf Hv H1 Hl]. pose proof (fs_icache _ _ _ F) as Ec. cbn [icache set_icache begun] in Ec.
  eapply wp_mono; [apply (iunlock_end_trans ip p m s s2); auto|].
  - rewrite (fs_log _ _ _ F). reflexivity.
  - intros b. rewrite (fs_disk _ _ _ F). reflexivity.
  - rewrite (fs_size _ _ _ F). reflexivity.
  - rewrite Ec. apply fn_lookup_insert.
  - intros j Hj. rewrite Ec. apply fn_lookup_insert_ne. congruence.
  - intros [] s4 (Q' & A24 & L4 & _ & C4).
    assert (C5 : forall j, icache s4 j = icache s j).
    { intros j. rewrite C4. destruct (decide (ip = j)) as [<-|Hne]; [rewrite fn_lookup_insert; auto|apply fn_lookup_insert_ne, Hne]. }
    assert (S : saved p off src s s4).
    { apply (saved_over p off src s (begun ip p s) s2 s4); auto; [split; reflexivity|]. intros b. apply (fstep_in_log _ _ _ _ F). }
    split; [|split; [exact S|exact C5]]. split; auto; [rewrite L4; exact Hr|rewrite C5; exact Ei|apply S].
Qed.
End Chunk.

(** A component's computation inside a larger one. *)
Lemma wp_lift {S T A B} (sel : S -> T) (upd : T -> S -> S) (m : M T A) (k : A -> M S B) Q s :
  wp m (fun a t => wp (k a) Q (upd t s)) (sel s) -> wp (a <- lift sel upd m ;; k a) Q s.
Proof. intros W. apply wp_bind. unfold wp at 1, lift. unfold wp at 1 in W. destruct (m (sel s)) as [[a t]| |]; auto. Qed.

(** ** [filewrite] *)

Section Write.
Context {P : Type} `{PageOps P}.
Context (pid : Z) (killed : bool).
Context (dev_read : Z -> option (Z -> M fs (Z * list Z))) (dev_write : Z -> option (list Z -> M fs Z)).

Lemma wp_fsys {A B} (m : M fs A) (k : A -> M (ffs P) B) Q s :
  wp m (fun a t => wp (k a) Q (set_ffsys t s)) (ffsys s) -> wp (a <- on_fsys m ;; k a) Q s.
Proof. apply wp_lift. Qed.

Lemma wp_fsys2 {A B C} (m : M fs A) (n : M fs B) (k : M (ffs P) C) Q s :
  wp (m ;;; n) (fun _ t => wp k Q (set_ffsys t s)) (ffsys s) -> wp (on_fsys m ;;; on_fsys n ;;; k) Q s.
Proof.
  intros W. apply wp_fsys. unfold wp, bind in W |- *. destruct (m (ffsys s)) as [[a t]| |]; auto.
  unfold on_fsys, lift. cbn. destruct (n t) as [[b u]| |]; auto.
Qed.

(** The state of the open file: the table entry of [f] is [x] with offset [o]. *)
Record wopen (f : nat) (x : file) (o : Z) (p : inode) (s : ffs P) : Prop := mkwopen {
  wo_file : wfile (fip x) p (ffsys s);
  wo_entry : ftab s f = set_foff o x;
  wo_off : 0 <= o }.

Lemma filewrite_chunk_ok f x o p addr s : wopen f x o p s -> o + Z.of_nat (length addr) <= isize p ->
  0 < Z.of_nat (length addr) <= WRITEMAX ->
  wp (filewrite_chunk pid dev_write f addr) (fun r s' => r = Z.of_nat (length addr) /\
    wopen f x (o + Z.of_nat (length addr)) p s' /\ saved p o addr (ffsys s) (ffsys s') /\
    (forall j, icache (ffsys s') j = icache (ffsys s) j) /\ (forall g, g <> f -> ftab s' g = ftab s g)) s.
Proof.
  intros [W Ex Ho] Hsz Hn. unfold filewrite_chunk. apply wp_bind, wp_gets. rewrite Ex. cbn [fip set_foff].
  apply wp_fsys2. eapply wp_mono; [apply (begin_ilock_ok pid _ p _ W)|]. intros [] s1 (Op & E1).
  apply wp_bind, wp_gets. cbn [ftab set_ffsys]. rewrite Ex. cbn [foff set_foff].
  apply wp_fsys. cbn [ffsys set_ffsys]. pose proof (wblocks_max o _ Ho (proj2 Hn)) as Hw.
  pose proof (fo_size _ _ (wf_file _ _ _ W)) as Hmax. change (MAXFILE * BSIZE) with 71680 in Hmax.
  eapply wp_mono; [apply (writei_ok pid dev_read dev_write (fip x) (set_ilk (mksl true pid) p) (4 - wblocks o (Z.of_nat (length addr)))%nat addr o s1); auto|].
  { replace (wblocks _ _ + _)%nat with 4%nat by lia. exact Op. }
  intros r s2 (-> & T2 & O2 & ws & F2). assert (O2' : over p o addr s1 s2) by (destruct O2 as [[] O22 O23 O24]; split; [split|..]; auto).
  apply wp_bind. destruct (_ >? 0) eqn:E; zbool; [|lia]. apply wp_modify. cbn [ftab set_ffsys]. rewrite Ex.
  apply wp_fsys2. cbn [ffsys set_ffsys set_ftab].
  eapply wp_mono; [apply (iunlock_end_ok pid _ p o addr _ _ s2 ws W T2); rewrite <- E1; [exact F2|exact O2']|]. intros [] s3 (W3 & S3 & C3). apply wp_pure.
  split; [reflexivity|]. split; [|split; [exact S3|split; [exact C3|]]].
  - split; cbn; [exact W3| |lia]. rewrite fn_lookup_insert. unfold set_foff. cbn. rewrite u32_small by lia. reflexivity.
  - intros g Hg. cbn. apply fn_lookup_insert_ne. congruence.
Qed.

Lemma filewrite_loop_ok fuel : forall f x o p addr i s, wopen f x (o + i) p s -> 0 <= i <= Z.of_nat (length addr) ->
  o + Z.of_nat (length addr) <= isize p -> Z.of_nat (length addr) - i < Z.of_nat fuel ->
  wp (filewrite_loop pid dev_write fuel f addr i (Z.of_nat (length addr))) (fun r s' => r = Z.of_nat (length addr) /\
    wopen f x (o + Z.of_nat (length addr)) p s' /\ saved p (o + i) (drop (Z.to_nat i) addr) (ffsys s) (ffsys s') /\
    (forall j, icache (ffsys s') j = icache (ffsys s) j) /\ (forall g, g <> f -> ftab s' g = ftab s g)) s.
Proof.
  induction fuel as [|fuel IH]; intros f x o p addr i s W Hi Hsz Hf; [lia|]. cbn [filewrite_loop].
  destruct (i <? Z.of_nat (length addr)) eqn:E; zbool.
  - set (n := Z.of_nat (length addr)) in *. set (n1 := Z.min (n - i) WRITEMAX). change WRITEMAX with 1536 in n1.
    assert (Hl : Z.of_nat (length (slice addr i n1)) = n1) by (unfold slice; rewrite length_take, length_drop; lia).
    apply wp_bind. eapply wp_mono; [apply (filewrite_chunk_ok f x (o + i) p (slice addr i n1) s W); rewrite Hl; change WRITEMAX with 1536; lia|].
    rewrite Hl. intros r s1 (-> & W1 & S1 & C1 & T1). destruct (n1 <? 0) eqn:E1; zbool; [lia|]. rewrite Z.eqb_refl. cbn [negb].
    eapply wp_mono; [apply (IH f x o p addr (i + n1) s1)|]; try lia.
    + rewrite Z.add_assoc. exact W1.
    + intros r s2 (-> & W2 & S2 & C2 & T2). split; [reflexivity|]. split; [exact W2|]. split; [|split; [congruence|]].
      * replace (drop (Z.to_nat i) addr) with (slice addr i n1 ++ drop (Z.to_nat (i + n1)) addr).
        -- apply (saved_trans _ _ _ _ _ (ffsys s1)); [exact S1|]. rewrite Hl, <- Z.add_assoc. exact S2.
        -- unfold slice. rewrite <- (take_drop (Z.to_nat n1) (drop (Z.to_nat i) addr)) at 2. f_equal. rewrite drop_drop. f_equal. lia.
      * intros g Hg. rewrite T2, T1 by exact Hg. reflexivity.
  - apply wp_pure. assert (i = Z.of_nat (length addr)) as -> by lia. split; [reflexivity|]. split; [exact W|]. split; [|auto].
    rewrite Nat2Z.id, drop_all. split; auto; [apply W|]. intros j _. cbn. destruct (_ && _) eqn:E1; zbool; [lia|reflexivity].
Qed.
End Write.

(** C5: A write through a descriptor is durable. From an idle file system, [filewrite] of [addr] at an open file's offset, inside the file, returns the number of bytes, however many transactions it takes; when it returns the disk itself holds the bytes at that place and the old bytes of the file elsewhere, no block outside the log changed but the file's, the offset has advanced, and the file system is idle again. *)
Theorem filewrite_durable {P} `{PageOps P} (pid : Z) (killed : bool) (dev_write : Z -> option (list Z -> M fs Z))
    (f : nat) (x : file) (o : Z) (p : inode) (addr : list Z) (s : ffs P) :
  wopen f x o p s -> ftyp x = FD_INODE -> fwritable x = true -> o + Z.of_nat (length addr) <= isize p ->
  wp (filewrite pid killed dev_write f addr) (fun r s' => r = Z.of_nat (length addr) /\
    foff (ftab s' f) = o + Z.of_nat (length addr) /\ quiet_fs (ffsys s') /\
    (forall j, 0 <= j < isize p ->
      let b := file_block (ffsys s) p (j / BSIZE) in
      byte_at (disk (ffsys s') b) (j mod BSIZE) =
        if (o <=? j) && (j <? o + Z.of_nat (length addr)) then byte_at addr (j - o) else byte_at (disk (ffsys s) b) (j mod BSIZE)) /\
    (forall b, ~ in_log (logst (ffsys s)) b -> (forall k, 0 <= k < nblocks p -> b <> file_block (ffsys s) p k) ->
      disk (ffsys s') b = disk (ffsys s) b)) s.
Proof.
  intros W Ht Hw Hsz. unfold filewrite. apply wp_bind, wp_gets. rewrite (wo_entry _ _ _ _ _ W). unfold id. cbn [fwritable ftyp set_foff].
  rewrite Hw, Ht. cbn [negb]. apply wp_bind. replace o with (o + 0) in W by lia.
  eapply wp_mono; [apply (filewrite_loop_ok pid (fun _ => None) dev_write (S (length addr)) f x o p addr 0 s W); lia|].
  intros r s' (-> & W' & S' & _). apply wp_pure. rewrite Z.eqb_refl. replace (o + 0) with o in S', W by lia. rewrite drop_0 in S'.
  pose proof (wf_quiet _ _ _ (wo_file _ _ _ _ _ W)) as Q. pose proof (wf_quiet _ _ _ (wo_file _ _ _ _ _ W')) as Q'.
  split; [reflexivity|]. split; [rewrite (wo_entry _ _ _ _ _ W'); reflexivity|]. split; [exact Q'|]. split.
  - intros j Hj. pose proof (nblocks_in p j Hj) as Hk. pose proof (sv_byte _ _ _ _ _ S' j Hj) as E. unfold fbyte in E.
    rewrite (sv_block _ _ _ _ _ S') in E by exact Hk. rewrite !quiet_view in E by assumption. exact E.
  - intros b Hb Hn. rewrite <- !quiet_view by assumption. apply (sv_other _ _ _ _ _ S'); auto.
Qed.

(** ** Pipes: the files and the page *)

(** What [pipealloc] relies on: the allocator is a stack [l] of free pages. *)
Class PageLaws (P : Type) `{PageOps P} := {
  pool_inv : list Z -> P -> Prop;
  pool_page : Z -> Prop;
  palloc_none s : pool_inv [] s -> wp palloc (fun p s' => p = 0 /\ pool_inv [] s') s;
  palloc_some p l s : pool_inv (p :: l) s ->
    p <> 0 /\ p ∉ l /\ pool_page p /\ wp palloc (fun q s' => q = p /\ pool_inv l s') s;
  pfree_ok p l s : pool_inv l s -> pool_page p -> p ∉ l -> wp (pfree p) (fun _ s' => pool_inv (p :: l) s') s }.

(** The kernel's allocator obeys them. *)
Definition kmem_laws (kend : Z) : PageLaws kmem (H := kmem_pages kend).
Proof.
  refine (Build_PageLaws kmem (kmem_pages kend) (fun l s => kmem_inv kend l s) (page_ok kend) _ _ _).
  - intros s Hi. destruct (kalloc_nil kend s Hi) as (s' & E & Hi' & _). unfold wp. cbn. rewrite E. auto.
  - intros p l s Hi. destruct (kalloc_cons kend p l s Hi) as (s' & E & Hi' & _).
    pose proof (kmem_inv_pages _ _ _ Hi p ltac:(left)) as Hp. pose proof (page_ok_pos _ _ Hp).
    split; [lia|]. split; [|split; [exact Hp|unfold wp; cbn; rewrite E; auto]].
    destruct Hi as (_ & Hnd & _). apply NoDup_cons in Hnd. apply Hnd.
  - intros p l s Hi Hp Hn. destruct (kfree_cons kend p l s Hi Hp Hn) as (s' & E & Hi' & _). unfold wp. cbn. rewrite E. exact Hi'.
Defined.

Section PipeLife.
Context {P : Type} `{PageLaws P}.
Context (pid : Z).

(** Free entries of the table have no type: [fileclose] left them so. *)
Definition ftable_ok (s : ffs P) : Prop := forall f, (f < NFILE)%nat -> fref (ftab s f) = 0 -> ftyp (ftab s f) = FD_NONE.
Definition free_file (s : ffs P) (f : nat) : Prop := (f < NFILE)%nat /\ fref (ftab s f) = 0.
(** The table is the same but for entries that are free in both. *)
Definition same_files (s s' : ffs P) : Prop :=
  forall f, ftab s' f = ftab s f \/ free_file s f /\ free_file s' f /\ ftyp (ftab s' f) = FD_NONE.

(** Files [f0] and [f1] are the two ends of a fresh pipe in page [p]. *)
Record pipe_ends (f0 f1 : nat) (p : Z) (l : list Z) (s : ffs P) : Prop := mkends {
  pe_in : (f0 < NFILE)%nat /\ (f1 < NFILE)%nat /\ f0 <> f1;
  pe_read : ftyp (ftab s f0) = FD_PIPE /\ fref (ftab s f0) = 1 /\ freadable (ftab s f0) = true /\
            fwritable (ftab s f0) = false /\ fpipe (ftab s f0) = p;
  pe_write : ftyp (ftab s f1) = FD_PIPE /\ fref (ftab s f1) = 1 /\ freadable (ftab s f1) = false /\
             fwritable (ftab s f1) = true /\ fpipe (ftab s f1) = p;
  pe_open : readopen (fpipes s p) = true /\ writeopen (fpipes s p) = true;
  pe_empty : contents (fpipes s p) = [] /\ pipe_ok (fpipes s p);
  pe_page : pool_page p /\ p ∉ l;
  pe_pool : pool_inv l (fpool s) }.

Lemma filealloc_ok s : wp filealloc (fun r s' => match r with
  | None => s' = s /\ forall f, ~ free_file s f
  | Some f => s' = set_ftab (<[f := set_fref 1 (ftab s f)]> (ftab s)) s /\ free_file s f
  end) s.
Proof.
  unfold filealloc. apply wp_bind, wp_gets. pose proof (find_seq (fun f => fref (ftab s f) = 0) NFILE) as Hf.
  destruct (list_find _ _) as [[k f]|].
  - apply wp_bind, wp_modify, wp_pure. split; [reflexivity|exact Hf].
  - apply wp_pure. split; [reflexivity|]. intros f [H1 H2]. exact (Hf f H1 H2).
Qed.

(** Closing a file that was allocated and not yet given a type. *)
Lemma fileclose_none f s : fref (ftab s f) = 1 -> ftyp (ftab s f) = FD_NONE ->
  wp (fileclose pid f) (fun _ s' => fpool s' = fpool s /\ ffsys s' = ffsys s /\ fref (ftab s' f) = 0 /\ ftyp (ftab s' f) = FD_NONE /\
    forall g, g <> f -> ftab s' g = ftab s g) s.
Proof.
  intros Hr Ht. unfold fileclose. apply wp_bind, wp_gets. rewrite Hr. cbn [Z.ltb Z.compare].
  apply wp_bind, wp_modify. cbn [Z.sub Z.gtb Z.add Z.compare Z.pos_sub Z.opp]. apply wp_bind, wp_gets. unfold id. cbn [ftab set_ftab].
  rewrite fn_lookup_insert. apply wp_bind, wp_modify, wp_bind, wp_modify. cbn [ftyp set_fref]. rewrite Ht. apply wp_pure.
  cbn. rewrite !fn_lookup_insert. cbn. do 4 (split; [auto|]). intros g Hg. rewrite !fn_lookup_insert_ne by congruence. reflexivity.
Qed.

(** Closing the last reference to one end of a pipe; [l'] is the pool afterwards. *)
Lemma fileclose_pipe f p w l l' s : fref (ftab s f) = 1 -> ftyp (ftab s f) = FD_PIPE -> fpipe (ftab s f) = p -> fwritable (ftab s f) = w ->
  pool_inv l (fpool s) -> pool_page p -> p ∉ l ->
  l' = (if (if w then readopen (fpipes s p) else writeopen (fpipes s p)) then l else p :: l) ->
  wp (fileclose pid f) (fun _ s' => pool_inv l' (fpool s') /\ fref (ftab s' f) = 0 /\ ftyp (ftab s' f) = FD_NONE /\
    (forall g, g <> f -> ftab s' g = ftab s g) /\
    fpipes s' p = (if w then set_writeopen false (fpipes s p) else set_readopen false (fpipes s p))) s.
Proof.
  intros Hr Ht Hp Hw Hi Hpg Hn El. unfold fileclose. apply wp_bind, wp_gets. rewrite Hr. cbn [Z.ltb Z.compare].
  apply wp_bind, wp_modify. cbn [Z.sub Z.gtb Z.add Z.compare Z.pos_sub Z.opp]. apply wp_bind, wp_gets. unfold id. cbn [ftab set_ftab].
  rewrite fn_lookup_insert. apply wp_bind, wp_modify, wp_bind, wp_modify. cbn [ftyp set_fref fpipe fwritable]. rewrite Ht, Hp, Hw.
  unfold pipe_close. apply wp_bind. unfold wp at 1, on_pipe, lift. rewrite pipeclose_ok. cbn [ppipe pwoken fpipes set_ftab].
  assert (Ho : (if w then readopen (fpipes s p) else writeopen (fpipes s p)) = negb (negb (if w then readopen (fpipes s p) else writeopen (fpipes s p))))
    by (rewrite negb_involutive; reflexivity).
  destruct (negb (if w then readopen (fpipes s p) else writeopen (fpipes s p))); rewrite Ho in El; cbn [negb] in El.
  - unfold wp, on_pool, lift. cbn [fpool set_ftab set_fpipes set_fwoken]. pose proof (pfree_ok p l (fpool s) Hi Hpg Hn) as W. unfold wp in W.
    destruct (pfree p (fpool s)) as [[[] pl]| |]; [|contradiction..]. subst l'. cbn. rewrite !fn_lookup_insert. cbn.
    do 3 (split; [auto|]). split; [|destruct w; reflexivity]. intros g Hg. rewrite !fn_lookup_insert_ne by congruence. reflexivity.
  - apply wp_pure. subst l'. cbn. rewrite !fn_lookup_insert. cbn.
    do 3 (split; [auto|]). split; [|destruct w; reflexivity]. intros g Hg. rewrite !fn_lookup_insert_ne by congruence. reflexivity.
Qed.

(** Both ends closed, in either order. *)
Lemma close_ends_ok (w : bool) f0 f1 p l s : pipe_ends f0 f1 p l s ->
  wp (fileclose pid (if w then f1 else f0) ;;; fileclose pid (if w then f0 else f1)) (fun _ s' => pool_inv (p :: l) (fpool s') /\
    (forall g, g = f0 \/ g = f1 -> free_file s' g /\ ftyp (ftab s' g) = FD_NONE) /\
    (forall g, g <> f0 -> g <> f1 -> ftab s' g = ftab s g)) s.
Proof.
  intros [(I0 & I1 & Hne) (R1 & R2 & R3 & R4 & R5) (W1 & W2 & W3 & W4 & W5) [O1 O2] _ [Hpg Hn] Hpl].
  apply wp_bind. eapply wp_mono.
  { apply (fileclose_pipe _ p w l l); destruct w; auto; rewrite ?O1, ?O2; auto. }
  intros [] s1 (P1 & Z1 & T1 & F1 & E1). eapply wp_mono.
  { apply (fileclose_pipe _ p (negb w) l (p :: l)); auto; destruct w; rewrite ?F1 by auto; auto; rewrite E1; reflexivity. }
  intros [] s2 (P2 & Z2 & T2 & F2 & E2). split; [exact P2|]. unfold free_file. split.
  - intros g [-> | ->]; destruct w; try (rewrite F2 by auto); auto.
  - intros g G0 G1. rewrite F2, F1; destruct w; auto.
Qed.

Lemma pipe_setup_ok f0 f1 l s : (f0 < NFILE)%nat -> (f1 < NFILE)%nat -> f0 <> f1 -> pool_inv l (fpool s) ->
  fref (ftab s f0) = 1 -> ftyp (ftab s f0) = FD_NONE -> fref (ftab s f1) = 1 -> ftyp (ftab s f1) = FD_NONE ->
  wp (pipe_setup pid f0 f1) (fun r s' => (forall g, g <> f0 -> g <> f1 -> ftab s' g = ftab s g) /\
    match r with
    | None => l = [] /\ pool_inv l (fpool s') /\ forall g, g = f0 \/ g = f1 -> fref (ftab s' g) = 0 /\ ftyp (ftab s' g) = FD_NONE
    | Some q => q = (f0, f1) /\ exists p l', l = p :: l' /\ pipe_ends f0 f1 p l' s'
    end) s.
Proof.
  intros I0 I1 Hne Hpl R0 T0 R1 T1. unfold pipe_setup. apply wp_lift. destruct l as [|p l].
  - eapply wp_mono; [apply (palloc_none _ Hpl)|]. intros ? t [-> Ht]. cbn [Z.eqb].
    apply wp_bind. eapply wp_mono; [apply fileclose_none; auto|].
    cbn [ftab set_fpool fpool]. intros [] s3 (P3 & _ & Z3 & T3 & F3). apply wp_bind.
    eapply wp_mono; [apply fileclose_none; rewrite F3 by auto; auto|].
    intros [] s4 (P4 & _ & Z4 & T4 & F4). apply wp_pure. split; [intros g G0 G1; rewrite F4, F3 by auto; reflexivity|].
    split; [reflexivity|]. split; [congruence|]. intros g [-> | ->]; [rewrite F4 by auto|]; auto.
  - destruct (palloc_some p l _ Hpl) as (Hp0 & Hpn & Hpp & W). eapply wp_mono; [exact W|]. intros ? t [-> Ht].
    destruct (Z.eqb_spec p 0); [contradiction|]. apply wp_bind, wp_gets, wp_bind, wp_modify, wp_bind, wp_modify, wp_bind, wp_modify, wp_pure.
    cbn [ftab fpipes set_ftab set_fpipes set_fpool]. split; [intros g G0 G1; rewrite !fn_lookup_insert_ne by congruence; reflexivity|].
    split; [reflexivity|]. exists p, l. split; [reflexivity|]. split; [auto| | | | |auto|exact Ht]; cbn [ftab fpipes set_ftab set_fpipes set_fpool].
    + rewrite fn_lookup_insert_ne, fn_lookup_insert by congruence. cbn. auto.
    + rewrite fn_lookup_insert, fn_lookup_insert_ne by congruence. cbn. auto.
    + rewrite fn_lookup_insert. auto.
    + rewrite fn_lookup_insert. split; [reflexivity|]. split; cbn; [rewrite length_fmap, length_seqZ; reflexivity|lia|lia|discriminate].
Qed.

Lemma pipealloc_ok l s : ftable_ok s -> pool_inv l (fpool s) ->
  wp (pipealloc pid) (fun r s' => match r with
    | None => same_files s s' /\ pool_inv l (fpool s') /\ (l = [] \/ forall f g, free_file s f -> free_file s g -> f = g)
    | Some (f0, f1) => exists p l', l = p :: l' /\ free_file s f0 /\ free_file s f1 /\ pipe_ends f0 f1 p l' s' /\
        forall g, g <> f0 -> g <> f1 -> ftab s' g = ftab s g
    end) s.
Proof.
  intros Hok Hpl. unfold pipealloc. apply wp_bind. eapply wp_mono; [apply filealloc_ok|]. intros [f0|] s1.
  2: { intros [-> Hno]. apply wp_pure. split; [intros f; auto|]. split; [exact Hpl|]. right. intros f g Hf. destruct (Hno f Hf). }
  intros [-> [I0 Z0]]. pose proof (Hok f0 I0 Z0) as T0. apply wp_bind. eapply wp_mono; [apply filealloc_ok|]. cbn [ftab set_ftab].
  intros [f1|] s2.
  - intros [-> [I1 Z1]]. cbn in Z1. assert (Hne : f0 <> f1) by (intros ->; rewrite fn_lookup_insert in Z1; discriminate).
    rewrite fn_lookup_insert_ne in Z1 by exact Hne. pose proof (Hok f1 I1 Z1) as T1. rewrite fn_lookup_insert_ne by exact Hne.
    eapply wp_mono; [apply (pipe_setup_ok f0 f1 l); auto; cbn; rewrite ?fn_lookup_insert; cbn; auto; rewrite fn_lookup_insert_ne, fn_lookup_insert by auto; auto|].
    cbn [ftab set_ftab]. intros r s3 [F3 H3]. assert (F3' : forall g, g <> f0 -> g <> f1 -> ftab s3 g = ftab s g).
    { intros g G0 G1. rewrite F3, !fn_lookup_insert_ne by auto. reflexivity. }
    destruct r as [[a b]|].
    + destruct H3 as (E & p & l' & -> & Hpe). injection E as -> ->. exists p, l'. unfold free_file. auto 10.
    + destruct H3 as (El & P3 & Hz). split; [|auto]. intros g. unfold free_file.
      destruct (decide (g = f0)) as [->|G0]; [right; destruct (Hz f0); auto|].
      destruct (decide (g = f1)) as [->|G1]; [right; destruct (Hz f1); auto|auto].
  - intros [-> Hno]. apply wp_bind. eapply wp_mono; [apply fileclose_none; cbn; rewrite fn_lookup_insert; auto|].
    cbn. intros [] s3 (P3 & _ & Z3 & T3 & F3). apply wp_pure. split; [|split; [congruence|right]].
    + intros g. destruct (decide (g = f0)) as [->|Hg]; [right; unfold free_file; auto|left].
      rewrite F3 by exact Hg. apply fn_lookup_insert_ne. congruence.
    + assert (Hf : forall g, free_file s g -> g = f0); [|intros f g Hf' Hg; rewrite (Hf f), (Hf g); auto].
      intros g [Ig Zg]. destruct (decide (g = f0)) as [->|Hg]; [reflexivity|]. destruct (Hno g). split; [exact Ig|].
      cbn. rewrite fn_lookup_insert_ne by congruence. exact Zg.
Qed.
End PipeLife.

(** The life of a pipe. [pipealloc] either yields two distinct free files, now the read and the write end of an empty pipe in a page taken from the allocator, or fails and leaves the file table and the pool of pages as they were, which happens only when there are not two free files or no page. Closing the two ends in either order gives the page back, exactly once, and frees both files. *)
Theorem pipe_lifecycle {P} `{PageLaws P} (pid : Z) (l : list Z) (s : ffs P) :
  (ftable_ok s -> pool_inv l (fpool s) ->
    wp (pipealloc pid) (fun r s' => match r with
      | None => same_files s s' /\ pool_inv l (fpool s') /\ (l = [] \/ forall f g, free_file s f -> free_file s g -> f = g)
      | Some (f0, f1) => exists p l', l = p :: l' /\ free_file s f0 /\ free_file s f1 /\ pipe_ends f0 f1 p l' s' /\
          forall g, g <> f0 -> g <> f1 -> ftab s' g = ftab s g
      end) s) /\
  (forall (w : bool) f0 f1 p, pipe_ends f0 f1 p l s ->
    wp (fileclose pid (if w then f1 else f0) ;;; fileclose pid (if w then f0 else f1)) (fun _ s' => pool_inv (p :: l) (fpool s') /\
      (forall g, g = f0 \/ g = f1 -> free_file s' g /\ ftyp (ftab s' g) = FD_NONE) /\
      (forall g, g <> f0 -> g <> f1 -> ftab s' g = ftab s g)) s).
Proof. split; [apply pipealloc_ok|]. intros w f0 f1 p. apply close_ends_ok. Qed.

(** ** Example states *)

(** The volume of [FsProps], idle; file 0 is its 700-byte file, open at offset
    500; the other files are free.  One page is left in the allocator. *)
Definition volq : fs := set_logst (demo_log 0 []) vol.
Definition file_free : file := mkfd FD_NONE 0 false false 0 0 0.
Definition file_open : file := mkfd FD_INODE 1 true true 0 0 500.
Definition demo_files (f : nat) : file := match f with O => file_open | S _ => file_free end.
#[local] Instance demo_pages : PageOps kmem := kmem_pages 0x80200000.
#[local] Instance demo_laws : PageLaws kmem := kmem_laws 0x80200000.
Definition demo_page : kmem := match kfree 0x80200000 0x80300000 (mkkmem false true 0 ∅) with Ret (_, s) => s | _ => mkkmem false true 0 ∅ end.
Definition demo_ffs : ffs kmem := mkffs volq demo_files (fun _ => newpipe []) demo_page [].

Lemma demo_page_inv : kmem_inv 0x80200000 [0x80300000] demo_page.
Proof.
  destruct (kfree_cons 0x80200000 0x80300000 [] _ (empty_pool_inv 0x80200000)) as (s' & E & Hi & _).
  - split; [reflexivity|]. unfold KERNBASE, PHYSTOP. lia.
  - apply not_elem_of_nil.
  - unfold demo_page. rewrite E. exact Hi.
Qed.

Lemma volq_quiet : quiet_fs volq.
Proof.
  destruct vol_trans as (bs & [R Hl _ _ _] & _). cbn in Hl. subst bs.
  split; try reflexivity; [|unfold in_log; cbn; lia]. apply (ready_logst (demo_log 0 [])); auto.
Qed.

Lemma demo_open : wopen 0 file_open 500 vol_inode demo_ffs.
Proof.
  split; [|reflexivity|lia]. split; try reflexivity; [exact volq_quiet|cbn; lia|].
  exact (agree_file vol volq vol_inode (mkagree vol volq (fun _ _ => eq_refl) eq_refl eq_refl eq_refl) vol_file).
Qed.

Lemma filewrite_durable_witness :
  wp (filewrite 1 false (fun _ => None) 0 [1; 2; 3]) (fun r s' => r = 3 /\ foff (ftab s' 0%nat) = 503 /\
    quiet_fs (ffsys s') /\ byte_at (disk (ffsys s') 200) 501 = 2) demo_ffs.
Proof.
  eapply wp_mono; [apply (filewrite_durable 1 false (fun _ => None) 0 file_open 500 vol_inode [1; 2; 3] demo_ffs demo_open);
    [reflexivity|reflexivity|cbn; lia]|].
  intros r s' (-> & E & Q & B & _). split; [reflexivity|]. split; [exact E|]. split; [exact Q|].
  exact (B 501 ltac:(cbn; lia)).
Defined.

Lemma pipe_lifecycle_witness :
  wp (pipealloc 1) (fun r s' => match r with
      | None => same_files demo_ffs s' /\ pool_inv [0x80300000] (fpool s') /\ 
                ([0x80300000] = [] \/ forall f g, free_file demo_ffs f -> free_file demo_ffs g -> f = g)
      | Some (f0, f1) => exists p l', [0x80300000] = p :: l' /\ free_file demo_ffs f0 /\ free_file demo_ffs f1 /\ pipe_ends f0 f1 p l' s' /\
          forall g, g <> f0 -> g <> f1 -> ftab s' g = ftab demo_ffs g
      end) demo_ffs.
Proof.
  apply (proj1 (pipe_lifecycle 1 [0x80300000] demo_ffs)); [|exact demo_page_inv].
  intros [|f] _ E; [discriminate|reflexivity].
Defined.
