(* ===== verification/Sysfile.v ===== *)
(** * The file system's calls

    Models [src/xv6/sysfile.c]: system calls that fetch their arguments from the
    caller's memory, check them, and run the routines of [Fs] and [File]; and the
    instance of [FileOps] through which processes use files.

    A [struct file*] or [struct inode*] in the process table is the index of the
    entry plus one, 0 being the null pointer.  [argstr] gives the address of a
    string in user memory; its bytes are fetched before the call proper starts.
    Where a call would sleep on a pipe it does not return ([NoFuel]). *)

From S2P Require Import Prelude Mem Mmu Spinlock Kalloc Vm Proc Sched Trap Bio Log Fs Pipe File.
Local Open Scope Z_scope.

Definition O_RDONLY : Z := 0.
Definition O_WRONLY : Z := 1.
Definition O_RDWR : Z := 2.
Definition O_CREATE : Z := 0x200.
Definition DOT : list Z := [46].
Definition DOTDOT : list Z := [46; 46].

(** ** Inside the file system *)

Section Ops.
(** The calling process: its pid and current directory. *)
Context (pid : Z) (cwd : nat).
Context (dev_read : Z -> option (Z -> M fs (Z * list Z))) (dev_write : Z -> option (list Z -> M fs Z)).

Local Notation namei := (Fs.namei pid cwd dev_read).
Local Notation nameiparent := (Fs.nameiparent pid cwd dev_read).
Local Notation dirlink := (Fs.dirlink pid dev_read dev_write).
Local Notation iput := (Fs.iput pid).
Local Notation begin_op := (Log.begin_op).
Local Notation end_op := (Log.end_op pid).

(** [bad:] of [sys_link]. *)
Definition link_bad (ip : nat) : M fs Z :=
  ilock pid ip ;;;
  updi ip (fun p => set_inlink (s16 (inlink p - 1)) p) ;;;
  iupdate pid ip ;;;
  iunlockput pid ip ;;;
  end_op ;;;
  ret (-1).

(** [sys_link] from [begin_op] on. *)
Definition link (old new : list Z) : M fs Z :=
  begin_op ;;;
  r <- namei old ;;
  match r with
  | None => end_op ;;; ret (-1)
  | Some ip =>
      ilock pid ip ;;;
      t <- geti ip itype ;;
      if t =? T_DIR then iunlockput pid ip ;;; end_op ;;; ret (-1)
      else
        updi ip (fun p => set_inlink (s16 (inlink p + 1)) p) ;;;
        iupdate pid ip ;;;
        iunlock ip ;;;
        r <- nameiparent new ;;
        match r with
        | None => link_bad ip
        | Some (dp, name) =>
            ilock pid dp ;;;
            d <- geti dp idev ;;
            p <- geti ip id ;;
            l <- (if negb (d =? idev p) then ret (-1) else dirlink dp name (inum p)) ;;
            if l <? 0 then iunlockput pid dp ;;; link_bad ip
            else iunlockput pid dp ;;; iput ip ;;; end_op ;;; ret 0
        end
  end.

Fixpoint isdirempty_loop (fuel : nat) (dp : nat) (off : Z) : M fs bool :=
  match fuel with
  | O => nofuel
  | S f =>
      sz <- geti dp isize ;;
      if off <? sz then
        r <- readi pid dev_read dp off DIRENT ;;
        if negb (fst r =? DIRENT) then panic "isdirempty: readi"
        else if negb (rd16 (snd r) 0 =? 0) then ret false
        else isdirempty_loop f dp (off + DIRENT)
      else ret true
  end.
Definition isdirempty (dp : nat) : M fs bool :=
  sz <- geti dp isize ;; isdirempty_loop (Z.to_nat (sz / DIRENT) + 2) dp (2 * DIRENT).

(** The removal of the entry at [off] of [dp] that names [ip], both locked. *)
Definition unlink_entry (dp ip : nat) (off : Z) : M fs Z :=
  r <- writei pid dev_write dp (replicate (Z.to_nat DIRENT) 0) off ;;
  if negb (r =? DIRENT) then panic "unlink: writei"
  else
    t <- geti ip itype ;;
    (if t =? T_DIR then
       updi dp (fun p => set_inlink (s16 (inlink p - 1)) p) ;;; iupdate pid dp
     else ret tt) ;;;
    iunlockput pid dp ;;;
    updi ip (fun p => set_inlink (s16 (inlink p - 1)) p) ;;;
    iupdate pid ip ;;;
    iunlockput pid ip ;;;
    end_op ;;;
    ret 0.
(** [sys_unlink] from [begin_op] on. *)
Definition unlink (path : list Z) : M fs Z :=
  begin_op ;;;
  r <- nameiparent path ;;
  match r with
  | None => end_op ;;; ret (-1)
  | Some (dp, name) =>
      let bad := iunlockput pid dp ;;; end_op ;;; ret (-1) in
      ilock pid dp ;;;
      if namecmp name DOT || namecmp name DOTDOT then bad
      else
        e <- dirlookup pid dev_read dp name ;;
        match e with
        | None => bad
        | Some (ip, off) =>
            ilock pid ip ;;;
            p <- geti ip id ;;
            if inlink p <? 1 then panic "unlink: nlink < 1"
            else
              em <- (if itype p =? T_DIR then isdirempty ip else ret true) ;;
              if negb em then iunlockput pid ip ;;; bad
              else unlink_entry dp ip off
        end
  end.

(** The new inode of [create] entered into [dp]; both are locked. *)
Definition create_link (dp ip : nat) (name : list Z) (type : Z) : M fs unit :=
  n <- geti ip inum ;;
  m <- geti dp inum ;;
  (if type =? T_DIR then
     updi dp (fun p => set_inlink (s16 (inlink p + 1)) p) ;;;
     iupdate pid dp ;;;
     a <- dirlink ip DOT n ;;
     if a <? 0 then panic "create dots"
     else b <- dirlink ip DOTDOT m ;; if b <? 0 then panic "create dots" else ret tt
   else ret tt) ;;;
  c <- dirlink dp name n ;;
  if c <? 0 then panic "create: dirlink" else ret tt.
(** The inode, locked. *)
Definition create (path : list Z) (type major minor : Z) : M fs (option nat) :=
  r <- nameiparent path ;;
  match r with
  | None => ret None
  | Some (dp, name) =>
      ilock pid dp ;;;
      e <- dirlookup pid dev_read dp name ;;
      match e with
      | Some (ip, _) =>
          iunlockput pid dp ;;;
          ilock pid ip ;;;
          t <- geti ip itype ;;
          if (type =? T_FILE) && (t =? T_FILE) then ret (Some ip)
          else iunlockput pid ip ;;; ret None
      | None =>
          d <- geti dp idev ;;
          ip <- ialloc pid d type ;;
          ilock pid ip ;;;
          updi ip (fun p => set_inlink 1 (set_iminor (s16 minor) (set_imajor (s16 major) p))) ;;;
          iupdate pid ip ;;;
          create_link dp ip name type ;;;
          iunlockput pid dp ;;;
          ret (Some ip)
      end
  end.

(** [sys_mkdir] and [sys_mknod] once their arguments are known: [None] when
    fetching them failed. *)
Definition make (arg : option (list Z * Z * Z * Z)) : M fs Z :=
  r <- match arg with None => ret None | Some (path, type, major, minor) => create path type major minor end ;;
  match r with
  | None => end_op ;;; ret (-1)
  | Some ip => iunlockput pid ip ;;; end_op ;;; ret 0
  end.

(** The inode of [sys_open], locked; [None] after [end_op]. *)
Definition open_inode (path : list Z) (omode : Z) : M fs (option nat) :=
  if negb (Z.land omode O_CREATE =? 0) then
    r <- create path T_FILE 0 0 ;;
    match r with None => end_op ;;; ret None | Some ip => ret (Some ip) end
  else
    r <- namei path ;;
    match r with
    | None => end_op ;;; ret None
    | Some ip =>
        ilock pid ip ;;;
        t <- geti ip itype ;;
        if (t =? T_DIR) && negb (omode =? O_RDONLY) then iunlockput pid ip ;;; end_op ;;; ret None
        else ret (Some ip)
    end.

(** [sys_chdir] once the path is known; the new directory. *)
Definition chdir (arg : option (list Z)) : M fs (option nat) :=
  r <- match arg with None => ret None | Some path => namei path end ;;
  match r with
  | None => end_op ;;; ret None
  | Some ip =>
      ilock pid ip ;;;
      t <- geti ip itype ;;
      if negb (t =? T_DIR) then iunlockput pid ip ;;; end_op ;;; ret None
      else iunlock ip ;;; iput cwd ;;; end_op ;;; ret (Some ip)
  end.
End Ops.

(** ** Files for processes *)

(** Pointers to table entries. *)
Definition ptr (i : nat) : Z := Z.of_nat i + 1.
Definition idx (p : Z) : nat := Z.to_nat (p - 1).
Definition optr (o : option nat) : Z := match o with Some i => ptr i | None => 0 end.

Section Instance_.
Context {P : Type} `{PageOps P}.
Context (pid : Z) (cwd : nat).
Context (dev_read : Z -> option (Z -> M fs (Z * list Z))).

Definition file_ops : FileOps (ffs P) := {|
  Proc.filedup z := f <- File.filedup (idx z) ;; ret (ptr f);
  Proc.fileclose z := File.fileclose pid (idx z);
  Proc.begin_op := on_fsys Log.begin_op;
  Proc.end_op := on_fsys (Log.end_op pid);
  Proc.iput z := on_fsys (Fs.iput pid (idx z));
  Proc.idup z := r <- on_fsys (Fs.idup (idx z)) ;; ret (ptr r);
  Proc.namei path := r <- on_fsys (Fs.namei pid cwd dev_read path) ;; ret (optr r);
  Proc.iinit dev := on_fsys (Fs.iinit pid dev);
  Proc.initlog dev := on_fsys (Log.initlog pid dev) |}.
End Instance_.

(** ** The calls *)

Section Sysfile.
Context {P : Type} `{PageOps P}.
Context (dev_read : Z -> option (Z -> M fs (Z * list Z))) (dev_write : Z -> option (list Z -> M fs Z)).
Context (kend : Z) (me : nat).
Notation K := (kst (ffs P)).

(** A step of the file layer, then the wakeups its pipes asked for: the channels
    are the addresses of [nread] and [nwrite] in the pipe. *)
Definition pipe_chan (w : Z * pchan) : chanid :=
  ChAddr (fst w + PIPE_DATA + PIPESIZE + match snd w with ChRead => 0 | ChWrite => 4 end).
Fixpoint wake_all (ws : list (Z * pchan)) : M K unit :=
  match ws with [] => ret tt | w :: ws' => Proc.wakeup me (pipe_chan w) ;;; wake_all ws' end.
Definition on_files {A} (m : M (ffs P) A) : M K A :=
  r <- on_fs m ;;
  ws <- gets (fun s => fwoken (fstate s)) ;;
  modify (fun s => set_fstate (set_fwoken [] (fstate s)) s) ;;;
  wake_all (reverse ws) ;;;
  ret r.

(** Bytes of user memory. *)
Fixpoint uload_bytes (n : nat) (a : Z) : M K (list Z) :=
  match n with
  | O => ret []
  | S n' => b <- uload kend me a ;; l <- uload_bytes n' (a + 1) ;; ret (b :: l)
  end.
Fixpoint ustore_bytes (l : list Z) (a : Z) : M K unit :=
  match l with [] => ret tt | b :: l' => ustore kend me a b ;;; ustore_bytes l' (a + 1) end.

(** The string at a user address, and a string argument. *)
Definition userstr (a : option (Z * Z)) : M K (option (list Z)) :=
  match a with
  | None => ret None
  | Some (p, n) => l <- uload_bytes (Z.to_nat n) p ;; ret (Some l)
  end.
Definition argpath (n : Z) : M K (option (list Z)) := a <- argstr kend me n ;; userstr a.

(** The descriptor and the file. *)
Definition argfd (n : Z) : M K (option (nat * Z)) :=
  a <- argint kend me n ;;
  match a with
  | None => ret None
  | Some fd =>
      if (fd <? 0) || (fd >=? Z.of_nat NOFILE) then ret None
      else
        i <- curproc me ;;
        f <- getp i (fun p => default 0 (ofile p !! Z.to_nat fd)) ;;
        if f =? 0 then ret None else ret (Some (Z.to_nat fd, f))
  end.

Definition fdalloc (f : Z) : M K (option nat) :=
  i <- curproc me ;;
  o <- getp i ofile ;;
  match scan (fun fd => default 0 (o !! fd) =? 0) NOFILE 0 with
  | None => ret None
  | Some fd => upd_proc i (set_ofile (<[fd := f]> o)) ;;; ret (Some fd)
  end.

Definition sys_dup : M K Z :=
  a <- argfd 0 ;;
  match a with
  | None => ret (-1)
  | Some (_, f) =>
      d <- fdalloc f ;;
      match d with
      | None => ret (-1)
      | Some fd => on_files (File.filedup (idx f)) ;;; ret (Z.of_nat fd)
      end
  end.

(** The file, length and buffer of [sys_read] and [sys_write]. *)
Definition argbuf : M K (option (Z * Z * Z)) :=
  a <- argfd 0 ;;
  match a with
  | None => ret None
  | Some (_, f) =>
      b <- argint kend me 2 ;;
      match b with
      | None => ret None
      | Some n =>
          c <- argptr kend me 1 n ;;
          match c with None => ret None | Some p => ret (Some (f, n, p)) end
      end
  end.

Definition sys_read : M K Z :=
  a <- argbuf ;;
  match a with
  | None => ret (-1)
  | Some (f, n, p) =>
      i <- curproc me ;;
      c <- getp i id ;;
      r <- on_files (fileread (pid c) (killed c) dev_read (idx f) n) ;;
      ustore_bytes (snd r) p ;;;
      ret (fst r)
  end.

Definition sys_write : M K Z :=
  a <- argbuf ;;
  match a with
  | None => ret (-1)
  | Some (f, n, p) =>
      i <- curproc me ;;
      c <- getp i id ;;
      l <- uload_bytes (Z.to_nat n) p ;;
      on_files (filewrite (pid c) (killed c) dev_write (idx f) l)
  end.

Definition sys_close : M K Z :=
  a <- argfd 0 ;;
  match a with
  | None => ret (-1)
  | Some (fd, f) =>
      i <- curproc me ;;
      upd_proc i (fun p => set_ofile (<[fd := 0]> (ofile p)) p) ;;;
      n <- getp i pid ;;
      on_files (File.fileclose n (idx f)) ;;;
      ret 0
  end.

(** [struct stat] in memory: short type; int dev; uint ino; short nlink; uint
    size.  [stati] leaves the padding alone. *)
Definition STAT_SIZE : Z := 20.
Definition put_stat (a : Z) (st : stat) : M K unit :=
  ustore_bytes (le16 (st_type st)) a ;;;
  ustore_bytes (le32 (st_dev st)) (a + 4) ;;;
  ustore_bytes (le32 (st_ino st)) (a + 8) ;;;
  ustore_bytes (le16 (st_nlink st)) (a + 12) ;;;
  ustore_bytes (le32 (st_size st)) (a + 16).
Definition sys_fstat : M K Z :=
  a <- argfd 0 ;;
  match a with
  | None => ret (-1)
  | Some (_, f) =>
      b <- argptr kend me 1 STAT_SIZE ;;
      match b with
      | None => ret (-1)
      | Some p =>
          i <- curproc me ;;
          n <- getp i pid ;;
          r <- on_files (filestat n (idx f)) ;;
          match r with None => ret (-1) | Some st => put_stat p st ;;; ret 0 end
      end
  end.

(** Run a routine of the file system for the calling process. *)
Definition as_caller {A} (m : Z -> nat -> M fs A) : M K A :=
  i <- curproc me ;;
  c <- getp i id ;;
  on_files (on_fsys (m (pid c) (idx (cwd c)))).

Definition sys_link : M K Z :=
  a <- argpath 0 ;;
  match a with
  | None => ret (-1)
  | Some old =>
      b <- argpath 1 ;;
      match b with
      | None => ret (-1)
      | Some new => as_caller (fun pid cwd => link pid cwd dev_read dev_write old new)
      end
  end.

Definition sys_unlink : M K Z :=
  a <- argpath 0 ;;
  match a with
  | None => ret (-1)
  | Some path => as_caller (fun pid cwd => unlink pid cwd dev_read dev_write path)
  end.

(** [sys_open] with the locked inode: a file and a descriptor for it. *)
Definition open_file (ip : nat) (omode : Z) : M K Z :=
  let fail := as_caller (fun pid _ => iunlockput pid ip ;;; Log.end_op pid) ;;; ret (-1) in
  a <- on_files filealloc ;;
  match a with
  | None => fail
  | Some f =>
      d <- fdalloc (ptr f) ;;
      match d with
      | None =>
          i <- curproc me ;;
          n <- getp i pid ;;
          on_files (File.fileclose n f) ;;;
          fail
      | Some fd =>
          as_caller (fun pid _ => iunlock ip ;;; Log.end_op pid) ;;;
          on_files (updf f (fun x => mkfd FD_INODE (fref x)
            (Z.land omode O_WRONLY =? 0)
            (negb (Z.land omode O_WRONLY =? 0) || negb (Z.land omode O_RDWR =? 0)) (fpipe x) ip 0)) ;;;
          ret (Z.of_nat fd)
      end
  end.
Definition sys_open : M K Z :=
  a <- argpath 0 ;;
  match a with
  | None => ret (-1)
  | Some path =>
      b <- argint kend me 1 ;;
      match b with
      | None => ret (-1)
      | Some omode =>
          r <- as_caller (fun pid cwd => Log.begin_op ;;; open_inode pid cwd dev_read dev_write path omode) ;;
          match r with None => ret (-1) | Some ip => open_file ip omode end
      end
  end.

Definition sys_mkdir : M K Z :=
  as_caller (fun _ _ => Log.begin_op) ;;;
  a <- argpath 0 ;;
  as_caller (fun pid cwd => make pid cwd dev_read dev_write ((fun path => (path, T_DIR, 0, 0)) <$> a)).

Definition sys_mknod : M K Z :=
  as_caller (fun _ _ => Log.begin_op) ;;;
  a <- argpath 0 ;;
  arg <- match a with
         | None => ret None
         | Some path =>
             b <- argint kend me 1 ;;
             match b with
             | None => ret None
             | Some major =>
                 c <- argint kend me 2 ;;
                 match c with None => ret None | Some minor => ret (Some (path, T_DEV, major, minor)) end
             end
         end ;;
  as_caller (fun pid cwd => make pid cwd dev_read dev_write arg).

Definition sys_chdir : M K Z :=
  i <- curproc me ;;
  as_caller (fun _ _ => Log.begin_op) ;;;
  a <- argpath 0 ;;
  r <- as_caller (fun pid cwd => chdir pid cwd dev_read a) ;;
  match r with
  | None => ret (-1)
  | Some ip => upd_proc i (set_cwd (ptr ip)) ;;; ret 0
  end.

(** Both ends of a pipe that cannot be given descriptors. *)
Definition pipe_undo (fd0 : option nat) (rf wf : nat) : M K Z :=
  i <- curproc me ;;
  match fd0 with Some fd => upd_proc i (fun p => set_ofile (<[fd := 0]> (ofile p)) p) | None => ret tt end ;;;
  n <- getp i pid ;;
  on_files (File.fileclose n rf) ;;;
  on_files (File.fileclose n wf) ;;;
  ret (-1).
Definition sys_pipe : M K Z :=
  a <- argptr kend me 0 8 ;;
  match a with
  | None => ret (-1)
  | Some p =>
      i <- curproc me ;;
      n <- getp i pid ;;
      r <- on_files (pipealloc n) ;;
      match r with
      | None => ret (-1)
      | Some (rf, wf) =>
          d0 <- fdalloc (ptr rf) ;;
          match d0 with
          | None => pipe_undo None rf wf
          | Some fd0 =>
              d1 <- fdalloc (ptr wf) ;;
              match d1 with
              | None => pipe_undo (Some fd0) rf wf
              | Some fd1 =>
                  ustore32 kend me p (Z.of_nat fd0) ;;;
                  ustore32 kend me (p + 4) (Z.of_nat fd1) ;;;
                  ret 0
              end
          end
      end
  end.
End Sysfile.
