(* ===== verification/Exec.v ===== *)
(** * Running a program

    Models [exec] of [src/xv6/exec.c], [loaduvm] of [src/xv6/vm.c] and [sys_exec]
    of [src/xv6/sysfile.c].  Argument strings are fetched from user memory by
    [sys_exec]; [copyout] is given the bytes to copy. *)

From S2P Require Import Prelude Mem Mmu Spinlock Kalloc Vm Proc Sched Trap Bio Log Fs Pipe File Sysfile.
Local Open Scope Z_scope.

Definition ELF_MAGIC : Z := 0x464C457F.
Definition ELF_PROG_LOAD : Z := 1.
Definition ELFHDR : Z := 52.
Definition PROGHDR : Z := 32.
Definition MAXARG : Z := 32.

(** [struct elfhdr], the fields [exec] uses, and [struct proghdr]. *)
Record elfhdr := mkelf { e_magic : Z; e_entry : Z; e_phoff : Z; e_phnum : Z }.
Definition dec_elf (d : list Z) : elfhdr := mkelf (rd32 d 0) (rd32 d 24) (rd32 d 28) (rd16 d 44).
Record proghdr := mkph { p_type : Z; p_off : Z; p_vaddr : Z; p_filesz : Z; p_memsz : Z }.
Definition dec_ph (d : list Z) : proghdr := mkph (rd32 d 0) (rd32 d 4) (rd32 d 8) (rd32 d 16) (rd32 d 20).

(** Bytes into kernel memory. *)
Fixpoint put_bytes (a : Z) (l : list Z) : M kmem unit :=
  match l with
  | [] => ret tt
  | b :: l' => modify (fun s => set_mem (stb (k_mem s) a b) s) ;;; put_bytes (a + 1) l'
  end.

(** [copyout] with the bytes at [p] given. *)
Fixpoint copyout_bytes_loop (fuel : nat) (pgdir va : Z) (l : list Z) : M kmem Z :=
  match fuel with
  | O => nofuel
  | S f =>
      if negb (Z.of_nat (length l) >? 0) then ret 0
      else
        let va0 := PGROUNDDOWN va in
        pa0 <- uva2ka pgdir va0 ;;
        if pa0 =? 0 then ret (-1)
        else
          let n := Z.min (Z.of_nat (length l)) (PGSIZE - (va - va0)) in
          put_bytes (pa0 + (va - va0)) (take (Z.to_nat n) l) ;;;
          copyout_bytes_loop f pgdir (u32 (va0 + PGSIZE)) (drop (Z.to_nat n) l)
  end.
Definition copyout_bytes (pgdir va : Z) (l : list Z) : M kmem Z :=
  copyout_bytes_loop (S (S (S (Z.to_nat (Z.of_nat (length l) / PGSIZE))))) pgdir va l.

(** The file name after the last slash of the path. *)
Fixpoint basename (last s : list Z) : list Z :=
  match s with
  | [] => last
  | c :: s' => basename (if c =? SLASH then s' else last) s'
  end.

Section Exec.
Context {P : Type} `{PageOps P}.
Context (dev_read : Z -> option (Z -> M fs (Z * list Z))).
Context (kend kdata : Z) (gpu0 : gpu) (me : nat).
Notation K := (kst (ffs P)).

(** A routine of the file system, run for process [pid] in directory [cwd]. *)
Definition on_disk {A} (m : M fs A) : M K A := on_fs (on_fsys m).

Fixpoint loaduvm_loop (fuel : nat) (pid : Z) (ip : nat) (pgdir addr i offset sz : Z) : M K Z :=
  match fuel with
  | O => nofuel
  | S f =>
      if negb (i <? sz) then ret 0
      else
        pte <- on_mem (walkpgdir pgdir (u32 (addr + i)) false) ;;
        if pte =? 0 then panic "loaduvm: address should exist"
        else
          v <- on_mem (ld pte) ;;
          let pa := PTE_ADDR v in
          let n := if sz - i <? PGSIZE then sz - i else PGSIZE in
          r <- on_disk (readi pid dev_read ip (u32 (offset + i)) n) ;;
          on_mem (put_bytes (P2V pa) (snd r)) ;;;
          if negb (fst r =? n) then ret (-1)
          else loaduvm_loop f pid ip pgdir addr (u32 (i + PGSIZE)) offset sz
  end.
Definition loaduvm (pid : Z) (ip : nat) (pgdir addr offset sz : Z) : M K Z :=
  if negb (addr mod PGSIZE =? 0) then panic "loaduvm: addr must be page aligned"
  else loaduvm_loop (S (Z.to_nat ((sz + PGSIZE - 1) / PGSIZE))) pid ip pgdir addr 0 offset sz.

(** The segments still to load, [n] of them; [None] is [goto bad]. *)
Fixpoint load_segments (n : nat) (pid : Z) (ip : nat) (pgdir off sz : Z) : M K (option Z) :=
  match n with
  | O => ret (Some sz)
  | S n' =>
      r <- on_disk (readi pid dev_read ip (u32 off) PROGHDR) ;;
      if negb (fst r =? PROGHDR) then ret None
      else
        let ph := dec_ph (snd r) in
        let next := load_segments n' pid ip pgdir (s32 (off + PROGHDR)) in
        if negb (p_type ph =? ELF_PROG_LOAD) then next sz
        else if p_memsz ph <? p_filesz ph then ret None
        else if u32 (p_vaddr ph + p_memsz ph) <? p_vaddr ph then ret None
        else
          sz' <- on_mem (allocuvm kend pgdir sz (u32 (p_vaddr ph + p_memsz ph))) ;;
          if sz' =? 0 then ret None
          else if negb (p_vaddr ph mod PGSIZE =? 0) then ret None
          else
            l <- loaduvm pid ip pgdir (p_vaddr ph) (p_off ph) (p_filesz ph) ;;
            if l <? 0 then ret None else next sz'
  end.

(** From [ilock] to the end of the transaction: the new address space and the
    entry point. *)
Definition load_image (pid : Z) (ip : nat) : M K (option (Z * Z)) :=
  let bad := on_disk (iunlockput pid ip) ;;; on_disk (Log.end_op pid) ;;; ret None in
  on_disk (ilock pid ip) ;;;
  r <- on_disk (readi pid dev_read ip 0 ELFHDR) ;;
  if negb (fst r =? ELFHDR) then bad
  else
    let elf := dec_elf (snd r) in
    if negb (e_magic elf =? ELF_MAGIC) then bad
    else
      pgdir <- on_mem (setupkvm kend kdata gpu0) ;;
      if pgdir =? 0 then bad
      else
        sz <- load_segments (Z.to_nat (e_phnum elf)) pid ip pgdir (s32 (e_phoff elf)) 0 ;;
        match sz with
        | None => on_mem (freevm kend pgdir) ;;; bad
        | Some _ => on_disk (iunlockput pid ip) ;;; on_disk (Log.end_op pid) ;;; ret (Some (pgdir, e_entry elf))
        end.

(** The strings of [argv] pushed below [sp]: the stack pointer and the addresses,
    or [goto bad]. *)
Fixpoint push_args (pgdir : Z) (argv : list (list Z)) (argc sp : Z) : M K (option (Z * list Z)) :=
  match argv with
  | [] => ret (Some (sp, []))
  | a :: argv' =>
      if argc >=? MAXARG then ret None
      else
        let sp' := Z.land (u32 (sp - (Z.of_nat (length a) + 1))) (u32 (Z.lnot 3)) in
        r <- on_mem (copyout_bytes pgdir sp' (a ++ [0])) ;;
        if r <? 0 then ret None
        else
          q <- push_args pgdir argv' (argc + 1) sp' ;;
          match q with None => ret None | Some (sp'', l) => ret (Some (sp'', sp' :: l)) end
  end.

(** The stack of the new image; its final stack pointer. *)
Definition build_stack (pgdir : Z) (argv : list (list Z)) : M K (option Z) :=
  z <- on_mem (allocuvm kend pgdir (KERNBASE - 1 - PGSIZE) (KERNBASE - 1)) ;;
  if z =? 0 then ret None
  else
    q <- push_args pgdir argv 0 (KERNBASE - 1) ;;
    match q with
    | None => ret None
    | Some (sp, l) =>
        let argc := Z.of_nat (length argv) in
        let ustack := [0xffffffff; argc; u32 (sp - (argc + 1) * 4)] ++ l ++ [0] in
        let sp' := u32 (sp - (3 + argc + 1) * 4) in
        r <- on_mem (copyout_bytes pgdir sp' (concat (le32 <$> ustack))) ;;
        if r <? 0 then ret None else ret (Some sp')
    end.

(** The commit to the new image. *)
Definition new_image (i : nat) (path : list Z) (pgdir' entry sp : Z) : M K unit :=
  upd_proc i (set_pname (name_of (basename path path))) ;;;
  old <- getp i pgdir ;;
  upd_proc i (set_pgdir pgdir') ;;;
  upd_proc i (set_sz (PGROUNDDOWN 0x3000)) ;;;
  t <- getp i tf ;;
  on_mem (st (t + TF_EIP) entry) ;;;
  on_mem (st (t + TF_ESP) sp) ;;;
  switchuvm me i ;;;
  on_mem (freevm kend old).

Definition exec (path : list Z) (argv : list (list Z)) : M K Z :=
  i <- curproc me ;;
  c <- getp i id ;;
  on_disk Log.begin_op ;;;
  r <- on_disk (Fs.namei (pid c) (idx (cwd c)) dev_read path) ;;
  match r with
  | None => on_disk (Log.end_op (pid c)) ;;; ret (-1)
  | Some ip =>
      im <- load_image (pid c) ip ;;
      match im with
      | None => ret (-1)
      | Some (pgdir', entry) =>
          sp <- build_stack pgdir' argv ;;
          match sp with
          | None => on_mem (freevm kend pgdir') ;;; ret (-1)
          | Some sp => new_image i path pgdir' entry sp ;;; ret 0
          end
      end
  end.

(** The argument vector at [uargv], entries [i] to [MAXARG - 1]. *)
Fixpoint fetch_argv (n : nat) (uargv i : Z) : M K (option (list (list Z))) :=
  match n with
  | O => ret None
  | S n' =>
      a <- fetchint kend me (u32 (uargv + 4 * i)) ;;
      match a with
      | None => ret None
      | Some uarg =>
          if uarg =? 0 then ret (Some [])
          else
            p <- fetchstr kend me (u32 uarg) ;;
            s <- userstr kend me p ;;
            match s with
            | None => ret None
            | Some str =>
                l <- fetch_argv n' uargv (i + 1) ;;
                ret (cons str <$> l)
            end
      end
  end.
Definition sys_exec : M K Z :=
  a <- argpath kend me 0 ;;
  match a with
  | None => ret (-1)
  | Some path =>
      b <- argint kend me 1 ;;
      match b with
      | None => ret (-1)
      | Some uargv =>
          v <- fetch_argv (Z.to_nat MAXARG) (u32 uargv) 0 ;;
          match v with None => ret (-1) | Some argv => exec path argv end
      end
  end.
End Exec.
