(* ===== verification/ExecProps.v ===== *)
(** * Properties of [exec]

    [exec] works on a new address space and touches the process only once that is
    complete. *)

From S2P Require Import Prelude Mem Mmu Spinlock Kalloc Vm Proc ProcRules Sched Trap Bio Log Fs Pipe File Sysfile Exec.
From S2P Require Import LogProps FsProps FileProps.
Local Open Scope Z_scope.

(** ** Code that changes memory and files only *)

Section Frames.
Context {F : Type}.

Definition frame (s s' : kst F) : Prop := s' = set_fstate (fstate s') (set_km (km s') s).
Definition frames {A} (m : M (kst F) A) : Prop := forall s, wlp m (fun _ s' => frame s s') s.

Lemma frame_refl s : frame s s.
Proof. destruct s; reflexivity. Qed.
Lemma frame_trans s s1 s2 : frame s s1 -> frame s1 s2 -> frame s s2.
Proof. unfold frame. intros E1 E2. rewrite E2, E1 at 1. reflexivity. Qed.

Lemma frames_ret {A} (a : A) : frames (ret a).
Proof. intros s. apply frame_refl. Qed.
Lemma frames_panic {A} e : frames (panic (A := A) e).
Proof. intros s. exact I. Qed.
Lemma frames_nofuel {A} : frames (nofuel (A := A)).
Proof. intros s. exact I. Qed.
Lemma frames_bind {A B} (m : M (kst F) A) (k : A -> M (kst F) B) : frames m -> (forall a, frames (k a)) -> frames (bind m k).
Proof.
  intros Hm Hk s. apply wlp_bind. eapply wlp_mono; [apply Hm|]. intros a s1 H1. cbn beta.
  eapply wlp_mono; [apply Hk|]. intros b s2 H2. exact (frame_trans _ _ _ H1 H2).
Qed.
Lemma frames_mem {A} (m : M kmem A) : frames (on_mem m).
Proof. intros s. unfold wlp, on_mem, lift. destruct (m (km s)) as [[a t]| |]; try exact I. destruct s; reflexivity. Qed.
Lemma frames_fs {A} (m : M F A) : frames (on_fs m).
Proof. intros s. unfold wlp, on_fs, lift. destruct (m (fstate s)) as [[a t]| |]; try exact I. destruct s; reflexivity. Qed.
End Frames.

Create HintDb frames.
#[export] Hint Resolve frames_ret frames_panic frames_nofuel frames_bind frames_mem frames_fs : frames.

(** Case analysis down to the primitives. *)
Ltac frames :=
  repeat (cbv zeta;
    match goal with
    | |- frames (bind _ _) => apply frames_bind; [|intros ?]
    | |- frames (if ?b then _ else _) => destruct b
    | |- frames (match ?x with _ => _ end) => destruct x
    | |- _ => solve [auto with frames]
    end).

Section ExecProps.
Context {P : Type} `{PageOps P}.
Context (dev_read : Z -> option (Z -> M fs (Z * list Z))).
Context (kend kdata : Z) (gpu0 : gpu) (me : nat).

Lemma on_disk_frames {A} (m : M fs A) : frames (on_disk (P := P) m).
Proof. apply frames_fs. Qed.
#[local] Hint Resolve on_disk_frames : frames.

Lemma loaduvm_frames pid ip pgdir addr offset sz : frames (loaduvm (P := P) dev_read pid ip pgdir addr offset sz).
Proof.
  unfold loaduvm. destruct (negb _); [auto with frames|]. generalize (S (Z.to_nat ((sz + PGSIZE - 1) / PGSIZE))) as f. intros f.
  generalize 0 as i. induction f as [|f IH]; intros i; cbn [loaduvm_loop]; frames; apply IH.
Qed.
#[local] Hint Resolve loaduvm_frames : frames.

Lemma load_segments_frames n : forall pid ip pgdir off sz, frames (load_segments (P := P) dev_read kend n pid ip pgdir off sz).
Proof. induction n as [|n IH]; intros pid ip pgdir off sz; cbn [load_segments]; frames. Qed.
#[local] Hint Resolve load_segments_frames : frames.

Lemma load_image_frames pid ip : frames (load_image (P := P) dev_read kend kdata gpu0 pid ip).
Proof. unfold load_image. frames. Qed.

Lemma push_args_frames pgdir argv : forall argc sp, frames (push_args (P := P) pgdir argv argc sp).
Proof. induction argv as [|a argv IH]; intros argc sp; cbn [push_args]; frames. Qed.
#[local] Hint Resolve push_args_frames : frames.

Lemma build_stack_frames pgdir argv : frames (build_stack (P := P) kend pgdir argv).
Proof. unfold build_stack. frames. Qed.

(** The commit. *)
Lemma new_image_ok i path d entry sp n s : nest s me n -> 0 <= n ->
  wlp (new_image (P := P) kend me i path d entry sp) (fun _ s' =>
    ptable s' i = set_sz 0x3000 (set_pgdir d (set_pname (name_of (basename path path)) (ptable s i))) /\
    (forall j, j <> i -> ptable s' j = ptable s j) /\ cr3 (kcpus s' me) = V2P d /\ d <> 0) s.
Proof.
  intros Hn H0. unfold new_image. apply wlp_bind, wlp_modify, wlp_bind, wlp_gets, wlp_bind, wlp_modify, wlp_bind, wlp_modify, wlp_bind, wlp_gets.
  apply wlp_bind, wlp_on_mem. intros _ m1. apply wlp_bind, wlp_on_mem. intros _ m2. apply wlp_bind. unfold switchuvm.
  apply wlp_bind, wlp_gets. cbn [ptable set_km set_ptable]. rewrite !fn_lookup_insert. cbn [kstack pgdir set_sz set_pgdir set_pname].
  destruct (_ =? 0); [exact I|]. destruct (Z.eqb_spec d 0) as [|Hd]; [exact I|].
  apply wlp_bind, wp_wlp. eapply wp_pushcli; [exact Hn|lia|]. intros s3 S3.
  apply wlp_bind, wlp_modify, wlp_bind, wlp_modify, wp_wlp. eapply wp_popcli with (n := n + 1); [|lia|].
  { destruct (ks_nest _ _ _ _ S3) as [N1 N2]. unfold nest. cbn. rewrite !fn_lookup_insert. cbn. auto. }
  intros s4 S4. apply wlp_on_mem. intros _ m3. cbn [ptable kcpus set_km].
  rewrite (kstep_ptable _ _ _ _ S4). cbn [ptable set_kcpus]. rewrite (kstep_ptable _ _ _ _ S3). cbn [ptable set_km set_ptable].
  rewrite !fn_lookup_insert. split; [reflexivity|]. split; [|split; [|exact Hd]].
  - intros j Hj. rewrite !fn_lookup_insert_ne by congruence. reflexivity.
  - rewrite (ks_self _ _ _ _ S4). cbn. rewrite !fn_lookup_insert. reflexivity.
Qed.

Lemma exec_ok path argv i n s : cproc (kcpus s me) = Some i -> nest s me n -> 0 <= n ->
  wlp (exec (P := P) dev_read kend kdata gpu0 me path argv) (fun r s' =>
    (r = -1 /\ ptable s' = ptable s /\ forall c, cr3 (kcpus s' c) = cr3 (kcpus s c)) \/
    (r = 0 /\ exists d, d <> 0 /\ cr3 (kcpus s' me) = V2P d /\
      ptable s' i = set_sz 0x3000 (set_pgdir d (set_pname (name_of (basename path path)) (ptable s i))) /\
      forall j, j <> i -> ptable s' j = ptable s j)) s.
Proof.
  intros Hc Hn H0. unfold exec. apply wlp_bind, wp_wlp. eapply wp_curproc; eauto. intros s0 S0.
  assert (B : forall s1, frame s0 s1 -> nest s1 me n /\ ptable s1 = ptable s /\ forall c, cr3 (kcpus s1 c) = cr3 (kcpus s c)).
  { intros s1 ->. split; [exact (ks_nest _ _ _ _ S0)|]. split; [exact (kstep_ptable _ _ _ _ S0)|]. intros c. cbn.
    destruct (decide (c = me)) as [->|Hne]; [rewrite (ks_self _ _ _ _ S0); reflexivity|rewrite (ks_other _ _ _ _ S0 c Hne); reflexivity]. }
  apply wlp_bind, wlp_gets. unfold id. set (c := ptable s0 i).
  assert (Hpre : forall A (m : M (kst (ffs P)) A) s1 Q, frame s0 s1 -> frames m ->
    (forall a s2, frame s0 s2 -> Q a s2) -> wlp m Q s1).
  { intros A m s1 Q F1 Hm HQ. eapply wlp_mono; [apply Hm|]. intros a s2 F2. apply HQ. exact (frame_trans _ _ _ F1 F2). }
  apply wlp_bind, Hpre; [apply frame_refl|apply frames_fs|]. intros _ s1 F1.
  apply wlp_bind, (Hpre _ _ s1); [exact F1|apply frames_fs|]. intros [ip|] s2 F2.
  2: { apply wlp_bind, (Hpre _ _ s2); [exact F2|apply frames_fs|]. intros _ s3 F3. left. split; [reflexivity|]. apply (B _ F3). }
  apply wlp_bind, (Hpre _ _ s2); [exact F2|apply load_image_frames|]. intros [[d entry]|] s3 F3.
  2: { left. split; [reflexivity|]. apply (B _ F3). }
  apply wlp_bind, (Hpre _ _ s3); [exact F3|apply build_stack_frames|]. intros [sp|] s4 F4.
  2: { apply wlp_bind, (Hpre _ _ s4); [exact F4|apply frames_mem|]. intros _ s5 F5. left. split; [reflexivity|]. apply (B _ F5). }
  destruct (B _ F4) as (N4 & P4 & _).
  apply wlp_bind. eapply wlp_mono; [apply (new_image_ok i path d entry sp n s4 N4 H0)|]. cbn beta.
  intros _ s5 (E1 & E2 & E3 & E4). right. split; [reflexivity|]. exists d. rewrite <- P4. auto.
Qed.
End ExecProps.


(** Process 1 runs on CPU 0; its current directory is not a directory, so the
    program is not found. *)
#[local] Instance exec_pages : PageOps kmem := kmem_pages 0x80200000.
Definition exec_proc : proc := mkproc 0x1000 0x80208000 0x80207000 RUNNING 3 None 0x80207fb4 0x80207f9c None false [] 1 [108; 115] 0 0.
Definition exec_demo : kst (ffs kmem) :=
  mkkst demo_page (fun _ => None) 0 (fun _ => exec_proc) 4 None (fun _ => 3) (fun _ _ => 0) (fun _ _ => 0)
    (fun c => mkkcpu (mkcpu FL_IF 0 0 (Z.of_nat c)) (if (c =? 0)%nat then Some 1%nat else None) 0 0 0) demo_ffs.

Definition exec_run := exec (fun _ => None) 0x80200000 0x80110000 (mkgpu 0 0) 0 [120] [] exec_demo.

Lemma exec_demo_nest : nest exec_demo 0 0.
Proof. split; [reflexivity|intros H; inversion H]. Qed.

