(* ===== verification/Grep.v ===== *)
(** * grep

    Models [src/xv6/grep.c]: the pattern matcher, on strings as lists of bytes
    without their final zero, and the loop that reads a file in pieces and prints
    the lines that match; and [strchr] of [src/xv6/ulib.c]. *)

From S2P Require Import Prelude.
Local Open Scope Z_scope.

Definition CARET : Z := 94.
Definition DOLLAR : Z := 36.
Definition DOT : Z := 46.
Definition STAR : Z := 42.
Definition NL : Z := 10.

(** ** The matcher *)

(** [matchstar(c, re, text)]; [here] is [matchhere(re, ...)]. *)
Fixpoint matchstar (here : list Z -> bool) (c : Z) (text : list Z) : bool :=
  here text ||
  match text with
  | t :: text' => ((t =? c) || (c =? DOT)) && matchstar here c text'
  | [] => false
  end.

(** The last two tests of [matchhere], for a pattern that starts with [c]; [next]
    is [matchhere(re+1, ...)]. *)
Definition match1 (next : list Z -> bool) (c : Z) (last : bool) (text : list Z) : bool :=
  if (c =? DOLLAR) && last then match text with [] => true | _ => false end
  else match text with
       | t :: text' => ((c =? DOT) || (c =? t)) && next text'
       | [] => false
       end.

Fixpoint matchhere (re : list Z) (text : list Z) : bool :=
  match re with
  | [] => true
  | c :: re1 =>
      match re1 with
      | s :: re2 => if s =? STAR then matchstar (matchhere re2) c text else match1 (matchhere re1) c false text
      | [] => match1 (fun _ => true) c true text
      end
  end.

(** [do if(matchhere(re, text)) return 1; while( *text++ != 0)] *)
Fixpoint matchany (re text : list Z) : bool :=
  matchhere re text || match text with _ :: text' => matchany re text' | [] => false end.

Definition match_ (re text : list Z) : bool :=
  match re with
  | c :: re' => if c =? CARET then matchhere re' text else matchany re text
  | [] => matchany re text
  end.

(** ** The loop over a file *)

(** [strchr(s, c)]: what precedes the first [c], and what follows; the search
    ends at a zero byte. *)
Fixpoint strchr (s : list Z) (c : Z) : option (list Z * list Z) :=
  match s with
  | [] => None
  | x :: s' =>
      if x =? 0 then None
      else if x =? c then Some ([], s')
      else match strchr s' c with Some (a, b) => Some (x :: a, b) | None => None end
  end.

(** The inner loop: the lines from [p] on, the output, and the rest of the buffer.
    A line is at least its newline. *)
Fixpoint grep_lines (fuel : nat) (pattern p : list Z) : list Z * list Z :=
  match fuel with
  | O => ([], p)
  | S f =>
      match strchr p NL with
      | None => ([], p)
      | Some (line, q) =>
          let (out, rest) := grep_lines f pattern q in
          ((if match_ pattern line then line ++ [NL] else []) ++ out, rest)
      end
  end.

(** One round: [buf] holds [m] bytes, [read] delivered [chunk].  When no line was
    found ([p == buf]) the buffer is dropped. *)
Definition grep_round (pattern buf chunk : list Z) : list Z * list Z :=
  let p := buf ++ chunk in
  let (out, rest) := grep_lines (length p) pattern p in
  (out, match strchr p NL with None => [] | Some _ => rest end).

(** The pieces [read] delivers, until it returns 0 or an error. *)
Fixpoint grep_loop (pattern buf : list Z) (reads : list (list Z)) : list Z :=
  match reads with
  | [] => []
  | chunk :: reads' =>
      match chunk with
      | [] => []
      | _ =>
          let (out, buf') := grep_round pattern buf chunk in
          out ++ grep_loop pattern buf' reads'
      end
  end.
Definition grep (pattern : list Z) (reads : list (list Z)) : list Z := grep_loop pattern [] reads.

(** ** The language of a pattern *)

(** A pattern is a sequence of characters ([.] for any), starred characters and,
    at the end, possibly the end of the line. *)
Inductive item := One (c : Z) | Star (c : Z) | End.

Fixpoint parse (re : list Z) : list item :=
  match re with
  | [] => []
  | c :: re1 =>
      match re1 with
      | s :: re2 => if s =? STAR then Star c :: parse re2 else One c :: parse re1
      | [] => if c =? DOLLAR then [End] else [One c]
      end
  end.

(** Character [t] is one that [c] stands for. *)
Definition stands (c t : Z) : Prop := c = DOT \/ c = t.

(** [lang its w rest]: the items match [w], followed by [rest]. *)
Inductive lang : list item -> list Z -> list Z -> Prop :=
| lang_nil rest : lang [] [] rest
| lang_one c t its w rest : stands c t -> lang its w rest -> lang (One c :: its) (t :: w) rest
| lang_star c ts its w rest : Forall (stands c) ts -> lang its w rest -> lang (Star c :: its) (ts ++ w) rest
| lang_end : lang [End] [] [].

Definition begins (its : list item) (text : list Z) : Prop := exists w rest, text = w ++ rest /\ lang its w rest.

Lemma stands_iff c t : (c =? DOT) || (c =? t) = true <-> stands c t.
Proof. unfold stands. rewrite orb_true_iff, !Z.eqb_eq. reflexivity. Qed.

Lemma begins_nil text : begins [] text.
Proof. exists [], text. split; [reflexivity|constructor]. Qed.

Lemma begins_one c its text : begins (One c :: its) text <-> exists t text', text = t :: text' /\ stands c t /\ begins its text'.
Proof.
  split.
  - intros (w & rest & -> & H). inversion H; subst. exists t, (w0 ++ rest). split; [reflexivity|]. split; [assumption|]. exists w0, rest. auto.
  - intros (t & text' & -> & Hs & w & rest & -> & H). exists (t :: w), rest. split; [reflexivity|]. constructor; auto.
Qed.

Lemma begins_end text : begins [End] text <-> text = [].
Proof.
  split; [|intros ->; exists [], []; split; [reflexivity|constructor]].
  intros (w & rest & -> & H). inversion H. reflexivity.
Qed.

Lemma matchstar_ok here its c : (forall text, here text = true <-> begins its text) ->
  forall text, matchstar here c text = true <-> begins (Star c :: its) text.
Proof.
  intros Hh text. induction text as [|t text IH].
  - cbn. rewrite orb_false_r, Hh. split; intros (w & rest & E & H).
    + symmetry in E. apply app_eq_nil in E as [-> ->]. exists [], []. split; [reflexivity|]. apply (lang_star c [] its [] []); auto.
    + inversion H; subst. symmetry in E. apply app_eq_nil in E as [E ->]. apply app_eq_nil in E as [-> ->]. exists [], []. auto.
  - cbn [matchstar]. rewrite orb_true_iff, andb_true_iff, IH, Hh, orb_comm.
    replace (t =? c) with (c =? t) by apply Z.eqb_sym. rewrite stands_iff. split.
    + intros [(w & rest & E & H)|(Hs & w & rest & -> & H)].
      * exists w, rest. split; [exact E|]. apply (lang_star c [] its w rest); auto.
      * inversion H; subst. exists ((t :: ts) ++ w0), rest. split; [reflexivity|]. constructor; auto.
    + intros (w & rest & E & H). inversion H as [| |c' ts its' w0 rest' Hts Hw|]; subst. destruct ts as [|t' ts]; cbn in E.
      * left. exists w0, rest. auto.
      * injection E as <- ->. apply Forall_cons in Hts as [Ht Hts]. right. split; [exact Ht|].
        exists (ts ++ w0), rest. split; [reflexivity|]. constructor; auto.
Qed.

Lemma match1_ok next its c text : (forall text, next text = true <-> begins its text) ->
  match1 next c false text = true <-> begins (One c :: its) text.
Proof.
  intros Hn. unfold match1. rewrite andb_false_r, begins_one. destruct text as [|t text].
  - split; [discriminate|]. intros (? & ? & ? & _). discriminate.
  - rewrite andb_true_iff, stands_iff, Hn. split; [intros []; eauto|]. intros (t' & text' & E & H). injection E as <- <-. exact H.
Qed.

Lemma matchhere_ok re : forall text, matchhere re text = true <-> begins (parse re) text.
Proof.
  assert (Hstrong : forall n re, (length re <= n)%nat -> forall text, matchhere re text = true <-> begins (parse re) text);
    [|intros; eapply Hstrong; reflexivity].
  clear re. induction n as [|n IH]; intros re Hn text.
  { destruct re; [|cbn in Hn; lia]. split; [intros _; apply begins_nil|reflexivity]. }
  destruct re as [|c [|s re2]].
  - split; [intros _; apply begins_nil|reflexivity].
  - cbn. unfold match1. rewrite andb_true_r. destruct (Z.eqb_spec c DOLLAR) as [->|Hc].
    + rewrite begins_end. destruct text; split; congruence.
    + destruct text as [|t text].
      * split; [discriminate|]. rewrite begins_one. intros (? & ? & ? & _). discriminate.
      * rewrite andb_true_r, stands_iff, begins_one. split; [intros; eauto using begins_nil|]. intros (? & ? & E & H & _). congruence.
  - cbn in Hn. change (matchhere (c :: s :: re2) text) with
      (if s =? STAR then matchstar (matchhere re2) c text else match1 (matchhere (s :: re2)) c false text).
    change (parse (c :: s :: re2)) with (if s =? STAR then Star c :: parse re2 else One c :: parse (s :: re2)).
    destruct (s =? STAR); [apply matchstar_ok; intros; apply IH; lia|apply match1_ok; intros; apply IH; cbn; lia].
Qed.

Lemma matchany_ok re text : matchany re text = true <-> exists pre suf, text = pre ++ suf /\ begins (parse re) suf.
Proof.
  induction text as [|t text IH]; cbn [matchany]; rewrite orb_true_iff, matchhere_ok.
  - split.
    + intros [H|]; [|discriminate]. exists [], []. auto.
    + intros (pre & suf & E & H). symmetry in E. apply app_eq_nil in E as [-> ->]. auto.
  - rewrite IH. split.
    + intros [H|(pre & suf & -> & H)]; [exists [], (t :: text)|exists (t :: pre), suf]; auto.
    + intros ([|t' pre] & suf & E & H); cbn in E; [left; rewrite E; exact H|]. injection E as <- ->. right. eauto.
Qed.

Lemma matchany_words re text : matchany re text = true <-> exists pre w rest, text = pre ++ w ++ rest /\ lang (parse re) w rest.
Proof.
  rewrite matchany_ok. split.
  - intros (pre & suf & -> & w & rest & -> & H). eauto.
  - intros (pre & w & rest & -> & H). exists pre, (w ++ rest). split; [reflexivity|]. exists w, rest. auto.
Qed.

(** C38: The matcher decides the language of the pattern. [match(re, text)] is true
    exactly when some stretch [w] of the text is a word of the pattern's items
    (characters, [.], starred characters, a final [$] that only matches the end
    of the text), starting at the beginning of the text if the pattern begins
    with [^]. *)
Theorem grep_match_correct (re text : list Z) :
  match_ re text = true <->
  exists pre w rest, text = pre ++ w ++ rest /\
    match re with
    | c :: re' => if c =? CARET then pre = [] /\ lang (parse re') w rest else lang (parse re) w rest
    | [] => lang (parse re) w rest
    end.
Proof.
  unfold match_. destruct re as [|c re].
  - apply matchany_words.
  - destruct (c =? CARET).
    + rewrite matchhere_ok. unfold begins. split.
      * intros (w & rest & -> & H). exists [], w, rest. auto.
      * intros (pre & w & rest & -> & -> & H). exists w, rest. auto.
    + apply matchany_words.
Qed.

(** ** The lines of a file *)

(** The complete lines of a text, without their newlines; [cur] is the start of
    the current one. *)
Fixpoint lines (cur s : list Z) : list (list Z) :=
  match s with
  | [] => []
  | x :: s' => if x =? NL then cur :: lines [] s' else lines (cur ++ [x]) s'
  end.
Definition print_matching (pattern : list Z) (ls : list (list Z)) : list Z :=
  concat ((fun l => l ++ [NL]) <$> filter (fun l => match_ pattern l = true) ls).

Lemma lines_none cur s : NL ∉ s -> lines cur s = [].
Proof.
  revert cur. induction s as [|x s IH]; intros cur H; [reflexivity|]. cbn. apply not_elem_of_cons in H as [H1 H2].
  destruct (Z.eqb_spec x NL); [congruence|]. auto.
Qed.

Lemma lines_app cur a s : NL ∉ a -> lines cur (a ++ s) = lines (cur ++ a) s.
Proof.
  revert cur. induction a as [|x a IH]; intros cur H; [rewrite app_nil_r; reflexivity|]. cbn. apply not_elem_of_cons in H as [H1 H2].
  destruct (Z.eqb_spec x NL); [congruence|]. rewrite IH, <- app_assoc by exact H2. reflexivity.
Qed.

Lemma strchr_ok s c : 0 ∉ s -> match strchr s c with
  | Some (a, b) => s = a ++ c :: b /\ c ∉ a
  | None => c ∉ s
  end.
Proof.
  induction s as [|x s IH]; intros H; cbn; [apply not_elem_of_nil|]. apply not_elem_of_cons in H as [H1 H2].
  destruct (Z.eqb_spec x 0); [congruence|]. destruct (Z.eqb_spec x c) as [->|Hx]; [split; [reflexivity|apply not_elem_of_nil]|].
  specialize (IH H2). destruct (strchr s c) as [[a b]|].
  - destruct IH as [-> Ha]. split; [reflexivity|]. apply not_elem_of_cons. auto.
  - apply not_elem_of_cons. auto.
Qed.

Lemma print_cons pattern l ls : print_matching pattern (l :: ls) = (if match_ pattern l then l ++ [NL] else []) ++ print_matching pattern ls.
Proof.
  unfold print_matching. destruct (match_ pattern l) eqn:E; [rewrite filter_cons_True by exact E|rewrite filter_cons_False by congruence]; reflexivity.
Qed.

Lemma print_app pattern l1 l2 : print_matching pattern (l1 ++ l2) = print_matching pattern l1 ++ print_matching pattern l2.
Proof. unfold print_matching. rewrite filter_app, fmap_app, concat_app. reflexivity. Qed.

(** The inner loop prints the matching lines of the buffer and keeps what follows
    the last newline. *)
Lemma grep_lines_ok fuel pattern : forall p, 0 ∉ p -> (length p <= fuel)%nat ->
  let (out, rest) := grep_lines fuel pattern p in
  out = print_matching pattern (lines [] p) /\ NL ∉ rest /\ 0 ∉ rest /\
  forall more, lines [] (p ++ more) = lines [] p ++ lines [] (rest ++ more).
Proof.
  induction fuel as [|f IH]; intros p H0 Hl; cbn [grep_lines].
  { destruct p; [|cbn in Hl; lia]. cbn. auto using not_elem_of_nil. }
  pose proof (strchr_ok p NL H0) as Hs. destruct (strchr p NL) as [[line q]|].
  - destruct Hs as [-> Hline]. rewrite length_app in Hl. cbn in Hl. rewrite not_elem_of_app, not_elem_of_cons in H0.
    specialize (IH q ltac:(tauto) ltac:(lia)). destruct (grep_lines f pattern q) as [out rest]. destruct IH as (-> & Hn & Hz & Hm).
    assert (E : forall t, lines [] ((line ++ NL :: q) ++ t) = line :: lines [] (q ++ t)).
    { intros t. rewrite <- app_assoc. rewrite lines_app by exact Hline. reflexivity. }
    pose proof (E []) as E0. rewrite !app_nil_r in E0. rewrite E0, print_cons. split; [reflexivity|]. split; [exact Hn|]. split; [exact Hz|].
    intros more. rewrite E, Hm. reflexivity.
  - rewrite (lines_none [] p) by exact Hs. auto.
Qed.

(** [grep] prints the lines that match. Whatever pieces [read] delivers, as long as each has a newline in it and no zero byte, the output is exactly the complete lines of the whole input that match the pattern, in order, each with its newline; lines that span pieces included. *)
Theorem grep_prints_matching_lines (pattern : list Z) (reads : list (list Z)) :
  Forall (fun chunk => NL ∈ chunk /\ 0 ∉ chunk) reads ->
  grep pattern reads = print_matching pattern (lines [] (concat reads)).
Proof.
  intros H. unfold grep. assert (Hg : forall buf, NL ∉ buf -> 0 ∉ buf -> grep_loop pattern buf reads = print_matching pattern (lines [] (buf ++ concat reads)));
    [|apply (Hg []); apply not_elem_of_nil].
  induction H as [|chunk reads [Hn Hz] _ IH]; intros buf Hb Hb0.
  - cbn. rewrite app_nil_r, lines_none by exact Hb. reflexivity.
  - cbn [grep_loop concat]. destruct chunk as [|x chunk'] eqn:Ec; [apply elem_of_nil in Hn; contradiction|]. rewrite <- Ec in *. clear Ec.
    unfold grep_round. assert (Hp0 : 0 ∉ buf ++ chunk) by (rewrite elem_of_app; tauto).
    pose proof (grep_lines_ok (length (buf ++ chunk)) pattern (buf ++ chunk) Hp0 ltac:(lia)) as Hl.
    pose proof (strchr_ok (buf ++ chunk) NL Hp0) as Hs. destruct (grep_lines _ _ _) as [out rest]. destruct Hl as (-> & Hr & Hr0 & Hm).
    destruct (strchr (buf ++ chunk) NL) as [q|]; [|rewrite elem_of_app in Hs; tauto].
    rewrite (IH rest Hr Hr0), app_assoc, Hm, print_app. reflexivity.
Qed.

(** "ab", newline, "b" / "c", newline with pattern "^b". *)
Lemma grep_prints_matching_lines_witness : grep [94; 98] [[97; 98; 10; 98]; [99; 10]] = [98; 99; 10].
Proof.
  rewrite grep_prints_matching_lines; [reflexivity|].
  repeat constructor; vm_compute; try (intros H; repeat (apply elem_of_cons in H as [H|H]; [discriminate|]); apply elem_of_nil in H; exact H).
Defined.

(** A line that [read] delivers in two pieces, the first without a newline, loses
    its beginning: the buffer is dropped when no newline was found. *)
Lemma grep_drops_split_line : grep [97] [[97; 98]; [99; 10]] = [] /\ match_ [97] [97; 98; 99] = true.
Proof. split; reflexivity. Qed.
