(* ===== verification/Sh.v ===== *)
(** * The shell's parser

    Models the parsing half of [src/xv6/sh.c].  A pointer into the line is the rest
    of the line from there, so that the parser's [char **ps] is the state of the
    monad, and [es] is the empty rest; the line has no zero byte before its end.
    A word remembers how much of the line is left at its end ([eq]), where
    [nulterminate] writes a zero.  [panic] prints a message and exits.

    [parseexec] fills [argv] of a command that redirections may already enclose;
    redirections are therefore collected in the order in which they are put
    around the command.  Recursion takes the length of the line as fuel. *)

From S2P Require Import Prelude.
Local Open Scope Z_scope.

Definition MAXARGS : nat := 10.
Definition O_RDONLY : Z := 0.
Definition O_WRONLY : Z := 1.
Definition O_CREATE : Z := 0x200.

(** The string at the head of a buffer, which [strlen] measures. *)
Fixpoint cstring (l : list Z) : list Z :=
  match l with c :: l' => if c =? 0 then [] else c :: cstring l' | [] => [] end.

(** The characters between [q] and [eq], and how many follow. *)
Record word := mkword { wtext : list Z; wleft : nat }.
Record redir := mkredir { r_file : word; r_mode : Z; r_fd : Z }.
Inductive cmd :=
| EXEC (argv : list word)
| REDIR (c : cmd) (r : redir)
| PIPE (left right : cmd)
| LIST (left right : cmd)
| BACK (c : cmd).

Definition whitespace : list Z := [32; 9; 13; 10; 11].
Definition symbols : list Z := [60; 124; 62; 38; 59; 40; 41].
Definition isin (c : Z) (l : list Z) : bool := bool_decide (c ∈ l).

(** [while(s < es && strchr(whitespace, *s)) s++] *)
Fixpoint skipws (s : list Z) : list Z :=
  match s with c :: s' => if isin c whitespace then skipws s' else s | [] => [] end.
(** [while(s < es && !strchr(whitespace, *s) && !strchr(symbols, *s)) s++]: the
    characters passed over, and the rest. *)
Fixpoint scan (s : list Z) : list Z * list Z :=
  match s with
  | c :: s' => if isin c whitespace || isin c symbols then ([], s) else let (w, r) := scan s' in (c :: w, r)
  | [] => ([], [])
  end.

(** The [switch] on the character at [s]: the token, the characters from [q] to
    [eq], and the rest from [eq] on. *)
Definition token (s : list Z) : Z * list Z * list Z :=
  match s with
  | [] => (0, [], [])
  | c :: s' =>
      if isin c [124; 40; 41; 59; 38; 60] then (c, [c], s')
      else if c =? 62 then
        match s' with
        | d :: s'' => if d =? 62 then (43, [c; d], s'') else (c, [c], s')
        | [] => (c, [c], s')
        end
      else (97, fst (scan s), snd (scan s))
  end.
(** The token, and the word from [q] to [eq]. *)
Definition gettoken : M (list Z) (Z * word) :=
  s <- gets skipws ;;
  let t := token s in
  put (skipws t.2) ;;;
  ret (t.1.1, mkword t.1.2 (length t.2)).

Definition peek (toks : list Z) : M (list Z) bool :=
  s <- gets skipws ;;
  put s ;;;
  ret match s with c :: _ => isin c toks | [] => false end.

(** [parseredirs]: the redirections so far, and those found here. *)
Fixpoint parseredirs (fuel : nat) (rs : list redir) : M (list Z) (list redir) :=
  match fuel with
  | O => nofuel
  | S f =>
      b <- peek [60; 62] ;;
      if negb b then ret rs
      else
        t <- gettoken ;;
        w <- gettoken ;;
        if negb (fst w =? 97) then panic "missing file for redirection"
        else
          let r := if fst t =? 60 then mkredir (snd w) O_RDONLY 0 else mkredir (snd w) (Z.lor O_WRONLY O_CREATE) 1 in
          parseredirs f (rs ++ [r])
  end.

(** [redircmd] for each. *)
Definition redircmds (c : cmd) (rs : list redir) : cmd := fold_left REDIR rs c.

(** The [while] loop of [parseexec], with the arguments and redirections so far. *)
Fixpoint parseargs (fuel : nat) (argv : list word) (rs : list redir) : M (list Z) cmd :=
  match fuel with
  | O => nofuel
  | S f =>
      b <- peek [124; 41; 38; 59] ;;
      if b then ret (redircmds (EXEC argv) rs)
      else
        t <- gettoken ;;
        if fst t =? 0 then ret (redircmds (EXEC argv) rs)
        else if negb (fst t =? 97) then panic "syntax"
        else
          let argv := argv ++ [snd t] in
          if bool_decide (MAXARGS <= length argv)%nat then panic "too many args"
          else rs <- parseredirs f rs ;; parseargs f argv rs
  end.

(** The [while] loop of [parseline]. *)
Fixpoint parseback (fuel : nat) (c : cmd) : M (list Z) cmd :=
  match fuel with
  | O => nofuel
  | S f =>
      b <- peek [38] ;;
      if b : bool then gettoken ;;; parseback f (BACK c) else ret c
  end.

Fixpoint parseline (fuel : nat) : M (list Z) cmd :=
  match fuel with
  | O => nofuel
  | S f =>
      c <- parsepipe f ;;
      c <- parseback f c ;;
      b <- peek [59] ;;
      if b : bool then gettoken ;;; r <- parseline f ;; ret (LIST c r) else ret c
  end
with parsepipe (fuel : nat) : M (list Z) cmd :=
  match fuel with
  | O => nofuel
  | S f =>
      c <- parseexec f ;;
      b <- peek [124] ;;
      if b : bool then gettoken ;;; r <- parsepipe f ;; ret (PIPE c r) else ret c
  end
with parseblock (fuel : nat) : M (list Z) cmd :=
  match fuel with
  | O => nofuel
  | S f =>
      b <- peek [40] ;;
      if negb b then panic "parseblock"
      else
        gettoken ;;;
        c <- parseline f ;;
        b <- peek [41] ;;
        if negb b then panic "syntax - missing )"
        else
          gettoken ;;;
          rs <- parseredirs f [] ;;
          ret (redircmds c rs)
  end
with parseexec (fuel : nat) : M (list Z) cmd :=
  match fuel with
  | O => nofuel
  | S f =>
      b <- peek [40] ;;
      if b : bool then parseblock f
      else rs <- parseredirs f [] ;; parseargs f [] rs
  end.

(** Fuel for a line. *)
Definition sh_fuel (s : list Z) : nat := (4 * length s + 8)%nat.

(** [parsecmd] up to the call of [nulterminate]. *)
Definition parse_only (s : list Z) : outcome (cmd * list Z) :=
  (c <- parseline (sh_fuel s) ;;
   peek [] ;;;
   s' <- get ;;
   match s' with [] => ret c | _ => panic "syntax" end) s.

(** The words of a command in the order in which [nulterminate] ends them. *)
Fixpoint cmd_words (c : cmd) : list word :=
  match c with
  | EXEC argv => argv
  | REDIR c r => cmd_words c ++ [r_file r]
  | PIPE l r => cmd_words l ++ cmd_words r
  | LIST l r => cmd_words l ++ cmd_words r
  | BACK c => cmd_words c
  end.
(** [*eq = 0] in the buffer [buf], which holds the line and its final zero. *)
Definition end_word (buf : list Z) (w : word) : list Z := <[(length buf - 1 - wleft w)%nat := 0]> buf.
Definition nulterminate (c : cmd) (buf : list Z) : list Z := fold_left end_word (cmd_words c) buf.

(** The command, and the buffer its strings are in. *)
Definition parsecmd (s : list Z) : outcome (cmd * list Z) :=
  match parse_only s with
  | Ret (c, _) => Ret (c, nulterminate c (s ++ [0]))
  | Panic e => Panic e
  | NoFuel => NoFuel
  end.
