(* ===== verification/ShProps.v ===== *)
(** * Properties of the shell's parser

    Every command, printed with the parentheses it needs, parses back to itself;
    parsing ends on every line; and after [nulterminate] the strings of a command
    are its words. *)

From S2P Require Import Prelude Sh.
Local Open Scope Z_scope.

(** ** Commands with plain words *)

Inductive scmd :=
| SExec (argv : list (list Z))
| SRedir (c : scmd) (file : list Z) (mode fd : Z)
| SPipe (l r : scmd)
| SList (l r : scmd)
| SBack (c : scmd).

(** A parsed command without the places of its words. *)
Fixpoint erase (c : cmd) : scmd :=
  match c with
  | EXEC argv => SExec (wtext <$> argv)
  | REDIR c r => SRedir (erase c) (wtext (r_file r)) (r_mode r) (r_fd r)
  | PIPE l r => SPipe (erase l) (erase r)
  | LIST l r => SList (erase l) (erase r)
  | BACK c => SBack (erase c)
  end.

(** A word of the shell: not empty, without blanks and symbols. *)
Definition delim (c : Z) : bool := isin c whitespace || isin c symbols.
Definition valid (w : list Z) : Prop := w <> [] /\ Forall (fun c => delim c = false) w.
(** Input is opened for reading, output for writing, created if need be. *)
Definition redir_ok (f : list Z) (mode fd : Z) : Prop :=
  valid f /\ (mode = O_RDONLY /\ fd = 0 \/ mode = Z.lor O_WRONLY O_CREATE /\ fd = 1).
Fixpoint ok (c : scmd) : Prop :=
  match c with
  | SExec argv => Forall valid argv /\ (length argv < MAXARGS)%nat
  | SRedir c f m d => ok c /\ redir_ok f m d
  | SPipe l r | SList l r => ok l /\ ok r
  | SBack c => ok c
  end.

(** ** Printing *)

Definition print_word (w : list Z) : list Z := 32 :: w.
Definition print_redir (f : list Z) (fd : Z) : list Z := 32 :: (if fd =? 0 then 60 else 62) :: 32 :: f.
(** [print n c]: [c] where the grammar takes an [exec] (0), a [pipe] (1), a command
    that [&] may follow (2) or a line (3). *)
Definition need (c : scmd) : nat :=
  match c with SExec _ | SRedir _ _ _ _ => 0 | SPipe _ _ => 1 | SBack _ => 2 | SList _ _ => 3 end%nat.
Definition paren (n : nat) (c : scmd) (body : list Z) : list Z :=
  if decide (need c <= n)%nat then body else 40 :: body ++ [41].
Fixpoint print (n : nat) (c : scmd) : list Z :=
  paren n c
    match c with
    | SExec argv => concat (print_word <$> argv)
    | SRedir c f m d => print 0 c ++ print_redir f d
    | SPipe l r => print 0 l ++ 124 :: print 1 r
    | SBack c => print 2 c ++ [38]
    | SList l r => print 2 l ++ 59 :: print 3 r
    end.

(** Redirections put around a command. *)
Definition swrap (c : scmd) (rs : list (list Z * Z * Z)) : scmd :=
  fold_left (fun c r => SRedir c r.1.1 r.1.2 r.2) rs c.
Definition erase_redir (r : redir) : list Z * Z * Z := (wtext (r_file r), r_mode r, r_fd r).
Definition print_redirs (rs : list (list Z * Z * Z)) : list Z := concat ((fun r => print_redir r.1.1 r.2) <$> rs).

Lemma erase_redircmds rs c : erase (redircmds c rs) = swrap (erase c) (erase_redir <$> rs).
Proof. revert c. induction rs as [|r rs IH]; intros c; [done|]. unfold redircmds, swrap in *. cbn. by rewrite IH. Qed.

(** ** Tokens *)

(** After blanks, the text ends here or goes on with one of [l], which are symbols. *)
Definition follow (l : list Z) (s : list Z) : Prop :=
  match skipws s with [] => True | c :: _ => c ∈ l /\ isin c symbols = true end.

Lemma symbol_not_blank c : isin c symbols = true -> isin c whitespace = false.
Proof.
  unfold isin. rewrite bool_decide_eq_true, bool_decide_eq_false. unfold symbols, whitespace.
  intros H. set_unfold. lia.
Qed.
Lemma skipws_symbol c s : isin c symbols = true -> skipws (c :: s) = c :: s.
Proof. intros H. cbn [skipws]. by rewrite symbol_not_blank. Qed.
Lemma follow_cons l c s : isin c symbols = true -> c ∈ l -> follow l (c :: s).
Proof. intros Hc Hl. unfold follow. by rewrite skipws_symbol. Qed.
Lemma follow_mono l m s : follow l s -> l ⊆ m -> follow m s.
Proof. unfold follow. destruct (skipws s); [done|]. intros [Hc ?] Hm. by split; [apply Hm|]. Qed.
Lemma skipws_word w s : valid w -> skipws (w ++ s) = w ++ s.
Proof.
  intros [Hn Hw]. destruct w as [|c w]; [done|]. apply Forall_cons in Hw as [Hc _].
  unfold delim in Hc. apply orb_false_iff in Hc as [Hc _]. cbn [skipws app]. by rewrite Hc.
Qed.
Lemma skipws_idem s : skipws (skipws s) = skipws s.
Proof. induction s as [|c s IH]; [done|]. cbn [skipws]. destruct (isin c whitespace) eqn:E; [done|]. cbn [skipws]. by rewrite E. Qed.

(** What may come after a word: nothing, a blank or a symbol. *)
Definition breaks (s : list Z) : Prop := match s with [] => True | c :: _ => delim c = true end.
Lemma scan_word w s : Forall (fun c => delim c = false) w -> breaks s -> scan (w ++ s) = (w, s).
Proof.
  intros Hw Hs. induction Hw as [|c w Hc Hw IH].
  - destruct s as [|c s]; [done|]. cbn [app scan]. unfold breaks, delim in Hs. by rewrite Hs.
  - cbn [app scan]. unfold delim in Hc. rewrite Hc, IH. done.
Qed.
Lemma follow_breaks l s : follow l s -> breaks s.
Proof.
  destruct s as [|c s]; [done|]. unfold follow, breaks, delim. cbn [skipws].
  destruct (isin c whitespace); [done|]. by intros [_ ->].
Qed.

Lemma gettoken_skip s : gettoken (skipws s) = gettoken s.
Proof. unfold gettoken. mstep. by rewrite skipws_idem. Qed.
Lemma gettoken_blank s : gettoken (32 :: s) = gettoken s.
Proof. rewrite <-(gettoken_skip s). by rewrite <-(gettoken_skip (32 :: s)). Qed.
Lemma gettoken_word w s :
  valid w -> breaks s -> gettoken (w ++ s) = Ret ((97, mkword w (length s)), skipws s).
Proof.
  intros Hw Hs. unfold gettoken. mstep. rewrite (skipws_word w s Hw).
  destruct w as [|c w]; [by destruct Hw|]. destruct Hw as [_ Hw].
  assert (Hc : isin c [124; 40; 41; 59; 38; 60] = false /\ (c =? 62) = false).
  { apply Forall_cons in Hw as [Hc _]. unfold delim, isin in Hc. unfold isin.
    rewrite orb_false_iff, !bool_decide_eq_false in Hc. unfold symbols in Hc. rewrite bool_decide_eq_false.
    destruct Hc as [_ Hc]. set_unfold. lia. }
  destruct Hc as [H1 H2]. cbn [app token]. rewrite H1, H2.
  change (c :: w ++ s) with ((c :: w) ++ s). by rewrite scan_word.
Qed.
Lemma gettoken_sym c s :
  isin c [124; 40; 41; 59; 38; 60] = true -> gettoken (c :: s) = Ret ((c, mkword [c] (length s)), skipws s).
Proof.
  intros H. unfold gettoken. mstep. rewrite skipws_symbol; [cbn [token]; by rewrite H|].
  unfold isin in *. rewrite bool_decide_eq_true in *. unfold symbols. set_unfold. lia.
Qed.
Lemma gettoken_gt c s :
  (c =? 62) = false -> gettoken (62 :: c :: s) = Ret ((62, mkword [62] (length (c :: s))), skipws (c :: s)).
Proof.
  intros H. assert (Ht : token (62 :: c :: s) = (62, [62], c :: s)) by (unfold token; by rewrite H).
  unfold gettoken. mstep. change (skipws (62 :: c :: s)) with (62 :: c :: s). by rewrite Ht.
Qed.
Lemma peek_skip l s : peek l s = peek l (skipws s).
Proof. unfold peek. mstep. by rewrite skipws_idem. Qed.
(** What follows is none of [l]. *)
Lemma peek_follow l m s : follow m s -> Forall (fun c => isin c l = false) m -> peek l s = Ret (false, skipws s).
Proof.
  intros H Hm. unfold peek. mstep. unfold follow in H. destruct (skipws s) as [|c r]; [done|].
  destruct H as [Hc _]. rewrite Forall_forall in Hm. by rewrite (Hm c Hc).
Qed.
Lemma peek_cons l c s : isin c symbols = true -> peek l (c :: s) = Ret (isin c l, c :: s).
Proof. intros H. unfold peek. mstep. by rewrite skipws_symbol. Qed.
Lemma peek_word l w s :
  Forall (fun c => isin c symbols = true) l -> valid w -> peek l (32 :: w ++ s) = Ret (false, w ++ s).
Proof.
  intros Hl Hw. rewrite peek_skip. change (skipws (32 :: w ++ s)) with (skipws (w ++ s)).
  rewrite (skipws_word w s Hw). unfold peek. mstep. rewrite (skipws_word w s Hw).
  destruct w as [|c w]; [by destruct Hw|]. destruct Hw as [_ Hw]. apply Forall_cons in Hw as [Hc _].
  cbn [app]. repeat f_equal. unfold isin. apply bool_decide_eq_false. intros Hin.
  rewrite Forall_forall in Hl. specialize (Hl c Hin). unfold delim in Hc. rewrite Hl, orb_true_r in Hc. done.
Qed.

(** ** Redirections *)

Lemma print_redirs_breaks rs s : breaks s -> breaks (print_redirs rs ++ s).
Proof. destruct rs; [done|]. done. Qed.

Lemma bind_peek_skip {B} l (k : bool -> M (list Z) B) s : bind (peek l) k (skipws s) = bind (peek l) k s.
Proof. unfold bind. by rewrite <-peek_skip. Qed.
Lemma parseredirs_skip fuel acc s : parseredirs fuel acc (skipws s) = parseredirs fuel acc s.
Proof. destruct fuel; [done|]. apply bind_peek_skip. Qed.
Lemma parseredirs_one fuel acc f m d t :
  redir_ok f m d -> breaks t ->
  parseredirs (S fuel) acc (print_redir f d ++ t) = parseredirs fuel (acc ++ [mkredir (mkword f (length t)) m d]) t.
Proof.
  intros [Hv Hm] Hb. unfold print_redir. cbn [parseredirs app]. rewrite <-bind_peek_skip.
  assert (Hw : gettoken (skipws (32 :: f ++ t)) = Ret ((97, mkword f (length t)), skipws t))
    by (rewrite gettoken_skip, gettoken_blank; by apply gettoken_word).
  destruct Hm as [[-> ->]|[-> ->]]; cbn [Z.eqb].
  - change (skipws (32 :: 60 :: 32 :: f ++ t)) with (60 :: 32 :: f ++ t).
    erewrite bind_step by (by apply peek_cons). change (isin 60 [60; 62]) with true. cbn [negb].
    erewrite bind_step by (by apply gettoken_sym).
    erewrite bind_step by exact Hw. apply parseredirs_skip.
  - change (skipws (32 :: 62 :: 32 :: f ++ t)) with (62 :: 32 :: f ++ t).
    erewrite bind_step by (by apply peek_cons). change (isin 62 [60; 62]) with true. cbn [negb].
    erewrite bind_step by (by apply gettoken_gt).
    erewrite bind_step by exact Hw. apply parseredirs_skip.
Qed.

(** Redirections, and then something that ends a command. *)
Lemma parseredirs_ok rs : forall fuel acc s l,
  Forall (fun r => redir_ok r.1.1 r.1.2 r.2) rs -> follow l s -> Forall (fun c => isin c [60; 62] = false) l ->
  (length (print_redirs rs ++ s) < fuel)%nat ->
  exists rs', parseredirs fuel acc (print_redirs rs ++ s) = Ret (acc ++ rs', skipws s) /\ erase_redir <$> rs' = rs.
Proof.
  induction rs as [|[[f m] d] rs IH]; intros fuel acc s l Hrs Hs Hl Hf.
  - destruct fuel as [|fuel]; [lia|]. cbn [parseredirs print_redirs]. change (print_redirs [] ++ s) with s.
    exists []. rewrite app_nil_r. split; [|done]. by erewrite bind_step by (by eapply peek_follow).
  - destruct fuel as [|fuel]; [lia|]. apply Forall_cons in Hrs as [[Hv Hm] Hrs]. cbn [fst snd] in *.
    assert (Hb : breaks (print_redirs rs ++ s)) by (apply print_redirs_breaks; by eapply follow_breaks).
    change (print_redirs ((f, m, d) :: rs)) with (print_redir f d ++ print_redirs rs) in *.
    rewrite <-app_assoc in *. rewrite (parseredirs_one fuel acc f m d) by done.
    destruct (IH fuel (acc ++ [mkredir (mkword f (length (print_redirs rs ++ s))) m d]) s l) as (rs' & He & Hr); [done..| |].
    { rewrite length_app in Hf. unfold print_redir in Hf. cbn [length] in Hf. lia. }
    exists (mkredir (mkword f (length (print_redirs rs ++ s))) m d :: rs'). split; [|cbn; by rewrite Hr].
    by rewrite He, <-app_assoc.
Qed.

(** ** Arguments *)

Definition args (ws : list (list Z)) : list Z := concat (print_word <$> ws).
(** What comes after a command. *)
Definition after : list Z := [124; 41; 38; 59].

Lemma after_no_redir : Forall (fun c => isin c [60; 62] = false) after.
Proof. by repeat constructor. Qed.
Lemma parseargs_skip fuel argv rs s : parseargs fuel argv rs (skipws s) = parseargs fuel argv rs s.
Proof. destruct fuel; [done|]. apply bind_peek_skip. Qed.

Lemma parseargs_end fuel argv rs s :
  follow after s -> parseargs (S fuel) argv rs s = Ret (redircmds (EXEC argv) rs, skipws s).
Proof.
  intros Hs. cbn [parseargs]. unfold peek, bind, gets, put, ret. unfold follow in Hs.
  destruct (skipws s) as [|c r] eqn:E.
  - unfold gettoken. by mstep.
  - destruct Hs as [Hc _]. assert (isin c [124; 41; 38; 59] = true) as -> by (by apply bool_decide_eq_true). done.
Qed.

(** Another argument: no redirection is in front of the next. *)
Lemma parseargs_one fuel argv w t :
  valid w -> breaks t -> (S (length argv) < MAXARGS)%nat ->
  parseargs (S fuel) argv [] (print_word w ++ t)
  = bind (parseredirs fuel []) (parseargs fuel (argv ++ [mkword w (length t)])) t.
Proof.
  intros Hw Hb Hn. unfold print_word. cbn [parseargs app].
  erewrite bind_step by (apply peek_word; [by repeat constructor|done]). cbn [negb].
  erewrite bind_step by (by apply gettoken_word).
  cbn [fst snd]. change (97 =? 0) with false. change (97 =? 97) with true. cbn [negb].
  rewrite bool_decide_eq_false_2 by (rewrite length_app; cbn; lia).
  unfold bind. by rewrite parseredirs_skip.
Qed.

Lemma parseredirs_word fuel acc w t :
  valid w -> parseredirs (S fuel) acc (print_word w ++ t) = Ret (acc, skipws (print_word w ++ t)).
Proof.
  intros Hw. unfold print_word. cbn [parseredirs app].
  erewrite bind_step by (apply peek_word; [by repeat constructor|done]). cbn [negb].
  change (skipws (32 :: w ++ t)) with (skipws (w ++ t)). by rewrite skipws_word.
Qed.
Lemma args_breaks ws s : breaks s -> breaks (args ws ++ s).
Proof. destruct ws; [done|]. done. Qed.

(** Arguments, and then redirections. *)
Lemma parseargs_ok ws : forall fuel argv rs s,
  Forall valid ws -> (length argv + length ws < MAXARGS)%nat ->
  Forall (fun r => redir_ok r.1.1 r.1.2 r.2) rs -> follow after s ->
  (length (args ws ++ print_redirs rs ++ s) < fuel)%nat ->
  exists c, bind (parseredirs fuel []) (parseargs fuel argv) (args ws ++ print_redirs rs ++ s) = Ret (c, skipws s)
    /\ erase c = swrap (SExec ((wtext <$> argv) ++ ws)) rs.
Proof.
  induction ws as [|w ws IH]; intros fuel argv rs s Hws Hn Hrs Hs Hf; cbn [args fmap list_fmap concat app] in *.
  - destruct (parseredirs_ok rs fuel [] s after) as (rs' & He & Hr); [done..|apply after_no_redir|done|].
    erewrite bind_step by exact He. destruct fuel as [|fuel]; [lia|]. rewrite parseargs_skip, parseargs_end by done.
    eexists. split; [done|]. rewrite erase_redircmds. cbn [erase app]. by rewrite Hr, app_nil_r.
  - apply Forall_cons in Hws as [Hw Hws]. destruct fuel as [|fuel]; [lia|].
    fold (args ws) in *. set (t := args ws ++ print_redirs rs ++ s) in *. rewrite <-!app_assoc in *. fold t in Hf |- *.
    erewrite bind_step by (by apply parseredirs_word). rewrite parseargs_skip. cbn [length] in Hn.
    rewrite parseargs_one; [|done| |lia].
    2:{ apply args_breaks, print_redirs_breaks. by eapply follow_breaks. }
    destruct (IH fuel (argv ++ [mkword w (length t)]) rs s) as (c & He & Hc); [done| |done|done| |].
    { rewrite length_app. cbn. lia. }
    { fold t. rewrite length_app in Hf. unfold print_word in Hf. cbn [length] in Hf. lia. }
    exists c. split; [done|]. rewrite Hc, fmap_app, <-app_assoc. done.
Qed.

(** ** Commands *)

(** A command where an [exec] is expected, with redirections behind it. *)
Definition parses_exec (c : scmd) : Prop := forall fuel rs s,
  Forall (fun r => redir_ok r.1.1 r.1.2 r.2) rs -> follow after s ->
  (4 * length (print 0 c ++ print_redirs rs ++ s) + 2 <= fuel)%nat ->
  exists c', parseexec fuel (print 0 c ++ print_redirs rs ++ s) = Ret (c', skipws s) /\ erase c' = swrap c rs.
Definition parses_pipe (c : scmd) : Prop := forall fuel s,
  follow [41; 38; 59] s -> (4 * length (print 1 c ++ s) + 3 <= fuel)%nat ->
  exists c', parsepipe fuel (print 1 c ++ s) = Ret (c', skipws s) /\ erase c' = c.
(** A command with [&] behind it, as often as one likes. *)
Definition backs (k : nat) (c : scmd) : scmd := Nat.iter k SBack c.
Definition parses_back (c : scmd) : Prop := forall fuel k s,
  follow [41; 59] s -> (4 * length (print 2 c ++ replicate k 38%Z ++ s) + 3 <= fuel)%nat ->
  exists c', (x <- parsepipe fuel ;; parseback fuel x) (print 2 c ++ replicate k 38 ++ s) = Ret (c', skipws s)
    /\ erase c' = backs k c.
Definition parses_line (c : scmd) : Prop := forall fuel s,
  follow [41] s -> (4 * length (print 3 c ++ s) + 4 <= fuel)%nat ->
  exists c', parseline fuel (print 3 c ++ s) = Ret (c', skipws s) /\ erase c' = c.

Lemma peek_no_paren ws rs s :
  Forall valid ws -> follow after s ->
  peek [40] (args ws ++ print_redirs rs ++ s) = Ret (false, skipws (args ws ++ print_redirs rs ++ s)).
Proof.
  intros Hws Hs. destruct ws as [|w ws].
  - destruct rs as [|[[f m] d] rs].
    + change (args [] ++ print_redirs [] ++ s) with s. apply (peek_follow _ after s Hs). by repeat constructor.
    + change (args [] ++ print_redirs ((f, m, d) :: rs) ++ s) with ((print_redir f d ++ print_redirs rs) ++ s).
      unfold print_redir. by destruct (d =? 0).
  - apply Forall_cons in Hws as [Hw Hws].
    change (args (w :: ws)) with (print_word w ++ args ws). rewrite <-app_assoc. unfold print_word. cbn [app].
    rewrite peek_word; [|by repeat constructor|done].
    change (skipws (32 :: ?l)) with (skipws l). by rewrite skipws_word.
Qed.
Lemma exec_of_args ws : Forall valid ws -> (length ws < MAXARGS)%nat -> parses_exec (SExec ws).
Proof.
  intros Hws Hn fuel rs s Hrs Hs Hf. destruct fuel as [|fuel]; [lia|]. cbn [parseexec].
  change (print 0 (SExec ws)) with (args ws) in *.
  destruct (parseargs_ok ws fuel [] rs s) as (c & He & Hc); [done|cbn; lia|done|done|lia|].
  exists c. split; [|done]. erewrite bind_step by (by apply peek_no_paren). rewrite <-He.
  unfold bind. by rewrite parseredirs_skip.
Qed.

Lemma bind_skip {A B} (m : M (list Z) A) (k : A -> M (list Z) B) s : m (skipws s) = m s -> bind m k (skipws s) = bind m k s.
Proof. unfold bind. by intros ->. Qed.
Lemma parseexec_skip fuel s : parseexec fuel (skipws s) = parseexec fuel s.
Proof. destruct fuel; [done|]. apply bind_peek_skip. Qed.
Lemma parsepipe_skip fuel s : parsepipe fuel (skipws s) = parsepipe fuel s.
Proof. destruct fuel; [done|]. apply bind_skip, parseexec_skip. Qed.
Lemma parseline_skip fuel s : parseline fuel (skipws s) = parseline fuel s.
Proof. destruct fuel; [done|]. apply bind_skip, parsepipe_skip. Qed.

(** A command in parentheses. *)
Lemma exec_of_line c : (0 < need c)%nat -> parses_line c -> parses_exec c.
Proof.
  intros Hc Hp fuel rs s Hrs Hs Hf.
  assert (Ht : print 0 c = 40 :: print 3 c ++ [41]) by (destruct c; cbn in Hc; try lia; reflexivity).
  rewrite Ht in *. do 2 (destruct fuel as [|fuel]; [lia|]). cbn [parseexec app] in *.
  erewrite bind_step by (by apply peek_cons). change (isin 40 [40]) with true. cbn [parseblock].
  erewrite bind_step by (by apply peek_cons). change (isin 40 [40]) with true. cbn [negb].
  erewrite bind_step by (by apply gettoken_sym). rewrite bind_skip by apply parseline_skip.
  rewrite <-app_assoc in *. cbn [length app] in *.
  destruct (Hp fuel (41 :: print_redirs rs ++ s)) as (c' & He & Hc'); [apply follow_cons; [done|by left]|lia|].
  erewrite bind_step by exact He. rewrite bind_peek_skip. erewrite bind_step by (by apply peek_cons).
  change (isin 41 [41]) with true. cbn [negb]. erewrite bind_step by (by apply gettoken_sym).
  destruct (parseredirs_ok rs fuel [] s after) as (rs' & Hr & Hrs'); [done..|apply after_no_redir| |].
  { rewrite length_app in Hf. cbn [length] in Hf. lia. }
  rewrite bind_skip by apply parseredirs_skip. erewrite bind_step by exact Hr.
  eexists. split; [done|]. rewrite erase_redircmds. cbn [app]. by rewrite Hc', Hrs'.
Qed.
Lemma exec_of_redir c f m d : redir_ok f m d -> parses_exec c -> parses_exec (SRedir c f m d).
Proof.
  intros Hr Hp fuel rs s Hrs Hs Hf.
  assert (Ht : print 0 (SRedir c f m d) ++ print_redirs rs ++ s = print 0 c ++ print_redirs ((f, m, d) :: rs) ++ s).
  { change (print 0 (SRedir c f m d)) with (print 0 c ++ print_redir f d).
    change (print_redirs ((f, m, d) :: rs)) with (print_redir f d ++ print_redirs rs). by rewrite <-!app_assoc. }
  rewrite Ht in *. apply (Hp fuel ((f, m, d) :: rs) s); [by constructor|done..].
Qed.

(** The levels of the grammar. *)
Lemma pipe_of_exec c : need c <> 1%nat -> parses_exec c -> parses_pipe c.
Proof.
  intros Hc Hp fuel s Hs Hf. destruct fuel as [|fuel]; [lia|]. cbn [parsepipe].
  assert (Ht : print 1 c = print 0 c) by (destruct c; done). rewrite Ht in *.
  destruct (Hp fuel [] s) as (c' & He & Hc'); [done|..].
  { eapply follow_mono; [exact Hs|]. unfold after. set_solver. }
  { change (print_redirs [] ++ s) with s. lia. }
  erewrite bind_step by exact He. rewrite bind_peek_skip.
  erewrite bind_step by (eapply peek_follow; [exact Hs|by repeat constructor]). by exists c'.
Qed.
Lemma pipe_of_pipe l r : parses_exec l -> parses_pipe r -> parses_pipe (SPipe l r).
Proof.
  intros Hl Hr fuel s Hs Hf. destruct fuel as [|fuel]; [lia|]. cbn [parsepipe].
  change (print 1 (SPipe l r)) with (print 0 l ++ 124 :: print 1 r) in *. rewrite <-app_assoc in *. cbn [app] in *.
  destruct (Hl fuel [] (124 :: print 1 r ++ s)) as (l' & He & Hl'); [done|apply follow_cons; [done|by left]| |].
  { change (print_redirs [] ++ ?x) with x. lia. }
  erewrite bind_step by exact He. rewrite bind_peek_skip. erewrite bind_step by (by apply peek_cons).
  change (isin 124 [124]) with true. cbn match. erewrite bind_step by (by apply gettoken_sym).
  rewrite length_app in Hf. cbn [length] in Hf.
  destruct (Hr fuel s) as (r' & He' & Hr'); [done|lia|].
  rewrite bind_skip by apply parsepipe_skip. erewrite bind_step by exact He'.
  exists (PIPE l' r'). split; [done|]. cbn [erase]. by rewrite Hl', Hr'.
Qed.
Lemma parseback_skip fuel c s : parseback fuel c (skipws s) = parseback fuel c s.
Proof. destruct fuel; [done|]. apply bind_peek_skip. Qed.
Lemma parseback_ok k : forall fuel c s,
  follow [41; 59] s -> (k < fuel)%nat ->
  exists c', parseback fuel c (replicate k 38 ++ s) = Ret (c', skipws s) /\ erase c' = backs k (erase c).
Proof.
  induction k as [|k IH]; intros fuel c s Hs Hf; (destruct fuel as [|fuel]; [lia|]); cbn [parseback replicate app].
  - erewrite bind_step by (eapply peek_follow; [exact Hs|by repeat constructor]). by exists c.
  - erewrite bind_step by (by apply peek_cons). change (isin 38 [38]) with true. cbn match.
    erewrite bind_step by (by apply gettoken_sym).
    rewrite parseback_skip. destruct (IH fuel (BACK c) s) as (c' & He & Hc'); [done|lia|].
    exists c'. split; [done|]. rewrite Hc'. cbn [erase]. unfold backs. by rewrite <-Nat.iter_succ_r.
Qed.
Lemma back_of_pipe c : need c <> 2%nat -> parses_pipe c -> parses_back c.
Proof.
  intros Hc Hp fuel k s Hs Hf. assert (Ht : print 2 c = print 1 c) by (destruct c; done). rewrite Ht in *.
  destruct (Hp fuel (replicate k 38 ++ s)) as (c' & He & Hc'); [|lia|].
  { destruct k; [|apply follow_cons; [done|set_solver]]. eapply follow_mono; [exact Hs|set_solver]. }
  erewrite bind_step by exact He. rewrite parseback_skip, <-Hc'. apply parseback_ok; [done|].
  rewrite !length_app, length_replicate in Hf. lia.
Qed.
Lemma back_of_back c : parses_back c -> parses_back (SBack c).
Proof.
  intros Hp fuel k s Hs Hf.
  assert (Ht : print 2 (SBack c) ++ replicate k 38 ++ s = print 2 c ++ replicate (S k) 38 ++ s)
    by (change (print 2 (SBack c)) with (print 2 c ++ [38]); by rewrite <-app_assoc).
  rewrite Ht in *. destruct (Hp fuel (S k) s) as (c' & He & Hc'); [done..|].
  exists c'. split; [done|]. rewrite Hc'. unfold backs. by rewrite Nat.iter_succ_r.
Qed.
Lemma parseline_eq fuel s :
  parseline (S fuel) s
  = bind (x <- parsepipe fuel ;; parseback fuel x)
      (fun c => b <- peek [59] ;; if b : bool then gettoken ;;; r <- parseline fuel ;; ret (LIST c r) else ret c) s.
Proof. cbn [parseline]. unfold bind. by destruct (parsepipe fuel s) as [[c s']| |]. Qed.
Lemma line_of_back c : need c <> 3%nat -> parses_back c -> parses_line c.
Proof.
  intros Hc Hp fuel s Hs Hf. destruct fuel as [|fuel]; [lia|]. rewrite parseline_eq.
  assert (Ht : print 3 c = print 2 c) by (destruct c; done). rewrite Ht in *.
  destruct (Hp fuel 0%nat s) as (c' & He & Hc').
  { eapply follow_mono; [exact Hs|set_solver]. }
  { cbn [replicate app]. lia. }
  erewrite bind_step by exact He. rewrite bind_peek_skip.
  erewrite bind_step by (eapply peek_follow; [exact Hs|by repeat constructor]). by exists c'.
Qed.
Lemma line_of_list l r : parses_back l -> parses_line r -> parses_line (SList l r).
Proof.
  intros Hl Hr fuel s Hs Hf. destruct fuel as [|fuel]; [lia|]. rewrite parseline_eq.
  change (print 3 (SList l r)) with (print 2 l ++ 59 :: print 3 r) in *. rewrite <-app_assoc in *. cbn [app] in *.
  destruct (Hl fuel 0%nat (59 :: print 3 r ++ s)) as (l' & He & Hl'); [apply follow_cons; [done|set_solver]| |].
  { cbn [replicate app]. lia. }
  erewrite bind_step by exact He. rewrite bind_peek_skip. erewrite bind_step by (by apply peek_cons).
  change (isin 59 [59]) with true. cbn match. erewrite bind_step by (by apply gettoken_sym).
  rewrite length_app in Hf. cbn [length] in Hf.
  destruct (Hr fuel s) as (r' & He' & Hr'); [done|lia|].
  rewrite bind_skip by apply parseline_skip. erewrite bind_step by exact He'.
  exists (LIST l' r'). split; [done|]. cbn [erase]. by rewrite Hl', Hr'.
Qed.

Lemma parses c : ok c -> parses_exec c /\ parses_pipe c /\ parses_back c /\ parses_line c.
Proof.
  assert (Hup : forall c, (need c = 0)%nat -> parses_exec c -> parses_exec c /\ parses_pipe c /\ parses_back c /\ parses_line c).
  { intros c' Hn He. assert (parses_pipe c') by (apply pipe_of_exec; [lia|done]).
    assert (parses_back c') by (apply back_of_pipe; [lia|done]). do 3 (split; [done|]). apply line_of_back; [lia|done]. }
  induction c as [ws|c IH f m d|l IHl r IHr|l IHl r IHr|c IH]; intros Hok; cbn [ok] in Hok.
  - apply Hup; [done|]. destruct Hok. by apply exec_of_args.
  - destruct Hok as [Hc Hr]. apply Hup; [done|]. apply exec_of_redir; [done|]. by apply IH.
  - destruct Hok as [Hl Hr]. destruct (IHl Hl) as (El & _), (IHr Hr) as (_ & Pr & _).
    assert (parses_pipe (SPipe l r)) by (by apply pipe_of_pipe).
    assert (parses_back (SPipe l r)) by (by apply back_of_pipe).
    assert (parses_line (SPipe l r)) by (by apply line_of_back).
    split; [|done]. by apply exec_of_line; [cbn; lia|].
  - destruct Hok as [Hl Hr]. destruct (IHl Hl) as (_ & _ & Bl & _), (IHr Hr) as (_ & _ & _ & Lr).
    assert (parses_line (SList l r)) by (by apply line_of_list).
    assert (parses_exec (SList l r)) by (by apply exec_of_line; [cbn; lia|]).
    assert (parses_pipe (SList l r)) by (by apply pipe_of_exec).
    do 2 (split; [done|]). split; [by apply back_of_pipe|done].
  - destruct (IH Hok) as (_ & _ & Bc & _).
    assert (parses_back (SBack c)) by (by apply back_of_back).
    assert (parses_line (SBack c)) by (by apply line_of_back).
    assert (parses_exec (SBack c)) by (by apply exec_of_line; [cbn; lia|]).
    split; [done|]. split; [by apply pipe_of_exec|done].
Qed.

(** ** Every line *)

(** The parser ends: it returns with [Q], or it reports an error. *)
Definition settles {A} (m : M (list Z) A) (Q : A -> list Z -> Prop) (s : list Z) : Prop :=
  match m s with Ret (a, s') => Q a s' | Panic _ => True | NoFuel => False end.

Lemma settles_bind {A B} (m : M (list Z) A) (k : A -> M (list Z) B) Q s :
  settles m (fun a s' => settles (k a) Q s') s -> settles (bind m k) Q s.
Proof. unfold settles, bind. by destruct (m s) as [[a s']| |]. Qed.
Lemma settles_mono {A} (m : M (list Z) A) (P Q : A -> list Z -> Prop) s :
  settles m P s -> (forall a s', P a s' -> Q a s') -> settles m Q s.
Proof. unfold settles. destruct (m s) as [[a s']| |]; naive_solver. Qed.

Lemma skipws_suffix s : skipws s `suffix_of` s.
Proof. induction s as [|c s IH]; [done|]. cbn [skipws]. destruct (isin c whitespace); [by apply suffix_cons_r|done]. Qed.
Lemma scan_parts s : s = (scan s).1 ++ (scan s).2 /\ Forall (fun c => delim c = false) (scan s).1 /\ breaks (scan s).2.
Proof.
  induction s as [|c s (He & Hw & Hb)]; [by repeat split|]. cbn [scan]. fold (delim c).
  destruct (delim c) eqn:E; [by repeat split|]. destruct (scan s) as [w r]. cbn in *. subst s. by split; [|split; [constructor|]].
Qed.
(** The head of what is left is no blank. *)
Lemma skipws_head s c r : skipws s = c :: r -> isin c whitespace = false.
Proof.
  induction s as [|d s IH]; [done|]. cbn [skipws]. destruct (isin d whitespace) eqn:E; [done|]. by intros [= -> _].
Qed.

Lemma token_cons c r :
  isin c whitespace = false ->
  (token (c :: r)).2 `suffix_of` r
  /\ ((token (c :: r)).1.1 = 97 ->
      c :: r = (token (c :: r)).1.2 ++ (token (c :: r)).2 /\ valid (token (c :: r)).1.2 /\ breaks (token (c :: r)).2).
Proof.
  intros Hc. unfold token. destruct (isin c [124; 40; 41; 59; 38; 60]) eqn:E1.
  { split; [done|]. cbn. intros ->. done. }
  destruct (c =? 62) eqn:E2.
  { apply Z.eqb_eq in E2 as ->. destruct r as [|d r]; [done|]. destruct (d =? 62); [|done]. by split; [exists [d]|]. }
  assert (Hd : delim c = false).
  { unfold delim. rewrite Hc. unfold isin in *. rewrite bool_decide_eq_false in E1. cbn. apply bool_decide_eq_false.
    unfold symbols. set_unfold. lia. }
  destruct (scan_parts (c :: r)) as (He & Hw & Hb). cbn [fst snd]. cbn [scan] in *. fold (delim c) in *. rewrite Hd in *.
  destruct (scan r) as [w t]. cbn in *. injection He as ->. split; [by exists w|]. intros _. by split; [|split].
Qed.

(** A word as it stands in the line [s0]. *)
Definition placed (s0 : list Z) (w : word) : Prop :=
  exists r, wtext w ++ r `suffix_of` s0 /\ wleft w = length r /\ valid (wtext w) /\ breaks r.
(** What [gettoken] takes is gone; a word stands in the line. *)
Lemma settles_gettoken s0 s :
  s `suffix_of` s0 ->
  settles gettoken (fun t s' => s' `suffix_of` s /\ (skipws s <> [] -> (length s' < length s)%nat)
    /\ (skipws s = [] -> fst t = 0) /\ (fst t = 97 -> placed s0 (snd t))) s.
Proof.
  intros Hs. unfold settles, gettoken. mstep. pose proof (skipws_suffix s) as Hk.
  destruct (skipws s) as [|c r] eqn:E; [by repeat split|].
  destruct (token_cons c r (skipws_head s c r E)) as [Ht Hw]. cbn [fst snd].
  assert (Hr : skipws (token (c :: r)).2 `suffix_of` r) by (etrans; [apply skipws_suffix|done]).
  split; [etrans; [exact Hr|]; etrans; [|exact Hk]; by apply suffix_cons_r|].
  split; [intros _; apply suffix_length in Hr, Hk; cbn in Hk; lia|]. split; [done|].
  intros H. destruct (Hw H) as (He & Hv & Hb). exists (token (c :: r)).2. cbn [wtext wleft]. rewrite <-He.
  split; [by etrans|done].
Qed.
Lemma settles_peek l s :
  settles (peek l) (fun b s' => s' = skipws s /\ (b = true -> exists c, head s' = Some c /\ c ∈ l)) s.
Proof.
  unfold settles, peek. mstep. split; [done|]. destruct (skipws s) as [|c r]; [done|].
  intros H. exists c. split; [done|]. by apply bool_decide_eq_true in H.
Qed.

(** A suffix of a suffix. *)
Ltac sfx := solve [eassumption | etransitivity; [eassumption|sfx]].

Section Line.
Context (s0 : list Z).

(** The two uses of the tokenizer: look ahead, and take what was seen. *)
Lemma settles_look {B} l (k : bool -> M (list Z) B) Q s :
  (forall s' c, s' `suffix_of` s -> skipws s' = s' -> head s' = Some c -> c ∈ l -> settles (k true) Q s') ->
  (forall s', s' `suffix_of` s -> skipws s' = s' -> settles (k false) Q s') ->
  settles (bind (peek l) k) Q s.
Proof.
  intros Ht Hf. apply settles_bind. eapply settles_mono; [apply settles_peek|]. intros b s' [-> Hb].
  destruct b; [|apply Hf; [apply skipws_suffix|apply skipws_idem]].
  destruct (Hb eq_refl) as (c & Hc & Hl). eapply Ht; [apply skipws_suffix|apply skipws_idem|done..].
Qed.
Lemma settles_take {B} (k : Z * word -> M (list Z) B) Q s c :
  s `suffix_of` s0 -> skipws s = s -> head s = Some c ->
  (forall t s', s' `suffix_of` s -> (length s' < length s)%nat -> (fst t = 97 -> placed s0 (snd t)) -> settles (k t) Q s') ->
  settles (bind gettoken k) Q s.
Proof.
  intros Hs Hk Hc H. apply settles_bind. eapply settles_mono; [by apply settles_gettoken|].
  intros t s' (Hx & Hl & _ & Hp). apply H; [done| |done]. apply Hl. rewrite Hk. by destruct s.
Qed.

Definition good_redir (r : redir) : Prop := redir_ok (wtext (r_file r)) (r_mode r) (r_fd r) /\ placed s0 (r_file r).
Definition good (c : cmd) : Prop := ok (erase c) /\ Forall (placed s0) (cmd_words c).

Lemma good_redircmds rs : forall c, good c -> Forall good_redir rs -> good (redircmds c rs).
Proof.
  induction rs as [|r rs IH]; intros c Hc Hrs; [done|]. apply Forall_cons in Hrs as [[Hr Hp] Hrs].
  apply IH; [|done]. destruct Hc as [Ho Hw]. split; [done|]. cbn [cmd_words]. apply Forall_app. split; [done|by constructor].
Qed.

Lemma settles_parseredirs fuel : forall rs s,
  s `suffix_of` s0 -> Forall good_redir rs -> (length s < fuel)%nat ->
  settles (parseredirs fuel rs) (fun rs' s' => s' `suffix_of` s /\ Forall good_redir rs') s.
Proof.
  induction fuel as [|fuel IH]; intros rs s Hs Hrs Hf; [lia|]. cbn [parseredirs].
  apply settles_look; [|by intros].
  intros s1 c H1 Hk Hc _. cbn [negb]. eapply settles_take; [by etrans|done..|].
  intros t s2 H2 Hl _. apply settles_bind. eapply settles_mono; [apply (settles_gettoken s0); sfx|].
  intros w s3 (H3 & _ & _ & Hw). destruct (fst w =? 97) eqn:E; [|done]. cbn [negb]. apply Z.eqb_eq in E. specialize (Hw E).
  apply suffix_length in H1 as L1. apply suffix_length in H3 as L3.
  eapply settles_mono; [apply IH|].
  - sfx.
  - apply Forall_app. split; [done|]. constructor; [|done].
    assert (Hv : valid (wtext (snd w))) by (by destruct Hw as (r & _ & _ & Hv & _)).
    destruct (fst t =? 60); (split; [|done]); (split; [done|]); [by left|by right].
  - lia.
  - intros rs' s4 [H4 Hr]. split; [sfx|done].
Qed.

Lemma settles_parseargs fuel : forall argv rs s,
  s `suffix_of` s0 -> Forall good_redir rs -> Forall (placed s0) argv -> (length argv < MAXARGS)%nat -> (length s < fuel)%nat ->
  settles (parseargs fuel argv rs) (fun c s' => s' `suffix_of` s /\ good c) s.
Proof.
  induction fuel as [|fuel IH]; intros argv rs s Hs Hrs Ha Hn Hf; [lia|]. cbn [parseargs].
  assert (Hg : good (redircmds (EXEC argv) rs)).
  { apply good_redircmds; [|done]. split; [|done]. split; [|by rewrite length_fmap].
    apply Forall_fmap. eapply Forall_impl; [exact Ha|]. by intros w (r & _ & _ & Hv & _). }
  apply settles_look; [by intros|]. intros s1 H1 Hk.
  apply settles_bind. eapply settles_mono; [apply (settles_gettoken s0); sfx|].
  intros t s2 (H2 & Hl & Hz & Hw). destruct (fst t =? 0) eqn:E; [by split; [sfx|]|].
  destruct (fst t =? 97) eqn:E7; [|done]. cbn [negb]. case_bool_decide as Hm; [done|].
  apply suffix_length in H1 as L1. assert (L2 : (length s2 < length s1)%nat) by (apply Hl; intros H; specialize (Hz H); lia).
  apply settles_bind. eapply settles_mono; [apply settles_parseredirs; [sfx|done|lia]|].
  intros rs' s3 [H3 Hr]. apply suffix_length in H3 as L3.
  eapply settles_mono; [apply IH; [sfx|done| |lia|lia]|].
  - apply Forall_app. split; [done|]. constructor; [|done]. apply Hw. lia.
  - intros c s4 [H4 Hc]. split; [sfx|done].
Qed.

Lemma settles_parseback fuel : forall c s,
  s `suffix_of` s0 -> good c -> (length s < fuel)%nat ->
  settles (parseback fuel c) (fun c s' => s' `suffix_of` s /\ good c) s.
Proof.
  induction fuel as [|fuel IH]; intros c s Hs Hc Hf; [lia|]. cbn [parseback].
  apply settles_look; [|by intros]. intros s1 x H1 Hk Hx _.
  eapply settles_take; [sfx|done..|]. intros t s2 H2 Hl _. apply suffix_length in H1 as L1.
  eapply settles_mono; [apply IH; [sfx|done|lia]|]. intros c' s3 [H3 Hg]. split; [sfx|done].
Qed.

Lemma good_pair (f : cmd -> cmd -> cmd) l r : f = PIPE \/ f = LIST -> good l -> good r -> good (f l r).
Proof. intros [-> | ->] [Hl Hl'] [Hr Hr']; (split; [done|]); by apply Forall_app. Qed.

(** The four levels of the grammar, with the fuel each needs. *)
Definition line_settles (m : nat -> M (list Z) cmd) (extra fuel : nat) : Prop := forall s,
  s `suffix_of` s0 -> (4 * length s + extra <= fuel)%nat ->
  settles (m fuel) (fun c s' => s' `suffix_of` s /\ good c) s.
Lemma settles_levels fuel :
  line_settles parseline 4 fuel /\ line_settles parsepipe 3 fuel
  /\ line_settles parseblock 1 fuel /\ line_settles parseexec 2 fuel.
Proof.
  induction fuel as [|fuel (IHl & IHp & IHb & IHe)]; [by repeat split; intros s _ Hf; lia|].
  repeat split; intros s Hs Hf.
  - cbn [parseline]. apply settles_bind. eapply settles_mono; [apply IHp; [done|lia]|].
    intros c s1 [H1 Hc]. apply suffix_length in H1 as L1.
    apply settles_bind. eapply settles_mono; [apply settles_parseback; [sfx|done|lia]|].
    intros c2 s2 [H2 Hc2]. apply suffix_length in H2 as L2. apply settles_look.
    + intros s3 x H3 Hk Hx _. eapply settles_take; [sfx|done..|]. intros t s4 H4 Hl _. apply suffix_length in H3 as L3.
      apply settles_bind. eapply settles_mono; [apply IHl; [sfx|lia]|].
      intros r s5 [H5 Hr]. split; [sfx|]. apply good_pair; auto.
    + intros s3 H3 Hk. split; [sfx|done].
  - cbn [parsepipe]. apply settles_bind. eapply settles_mono; [apply IHe; [done|lia]|].
    intros c s1 [H1 Hc]. apply suffix_length in H1 as L1. apply settles_look.
    + intros s3 x H3 Hk Hx _. eapply settles_take; [sfx|done..|]. intros t s4 H4 Hl _. apply suffix_length in H3 as L3.
      apply settles_bind. eapply settles_mono; [apply IHp; [sfx|lia]|].
      intros r s5 [H5 Hr]. split; [sfx|]. apply good_pair; auto.
    + intros s3 H3 Hk. split; [sfx|done].
  - cbn [parseblock]. apply settles_look; [|by intros]. intros s1 x H1 Hk Hx _. cbn [negb].
    eapply settles_take; [sfx|done..|]. intros t s2 H2 Hl _. apply suffix_length in H1 as L1.
    apply settles_bind. eapply settles_mono; [apply IHl; [sfx|lia]|].
    intros c s3 [H3 Hc]. apply suffix_length in H3 as L3. apply settles_look; [|by intros].
    intros s4 y H4 Hk4 Hy _. cbn [negb]. eapply settles_take; [sfx|done..|]. intros t' s5 H5 Hl5 _.
    apply suffix_length in H4 as L4.
    apply settles_bind. eapply settles_mono; [apply settles_parseredirs; [sfx|done|lia]|].
    intros rs s6 [H6 Hr]. split; [sfx|]. by apply good_redircmds.
  - cbn [parseexec]. apply settles_look.
    + intros s1 x H1 Hk Hx _. apply suffix_length in H1 as L1. eapply settles_mono; [apply IHb; [sfx|lia]|].
      intros c s2 [H2 Hc]. split; [sfx|done].
    + intros s1 H1 Hk. apply suffix_length in H1 as L1.
      apply settles_bind. eapply settles_mono; [apply settles_parseredirs; [sfx|done|lia]|].
      intros rs s2 [H2 Hr]. apply suffix_length in H2 as L2.
      eapply settles_mono; [apply settles_parseargs; [sfx|done|done|unfold MAXARGS; cbn; lia|lia]|].
      intros c s3 [H3 Hc]. split; [sfx|done].
Qed.
End Line.

(** [parsecmd] up to [nulterminate]: an error, or a command the grammar knows whose
    words stand in the line. *)
Lemma parse_only_settles s :
  match parse_only s with Ret (c, s') => s' = [] /\ good s c | Panic _ => True | NoFuel => False end.
Proof.
  change (settles (c <- parseline (sh_fuel s) ;; peek [] ;;; s' <- get ;; match s' with [] => ret c | _ => panic "syntax" end)
    (fun c s' => s' = [] /\ good s c) s).
  apply settles_bind. eapply settles_mono; [apply (settles_levels s (sh_fuel s)); [done|unfold sh_fuel; lia]|].
  intros c s1 [H1 Hc]. apply settles_look; [|intros s2 _ _; by destruct s2].
  intros s2 x _ _ _ Hx. by apply not_elem_of_nil in Hx.
Qed.

(** ** The strings of a command *)

(** Where a word starts in a line of [n] characters. *)
Definition wstart (n : nat) (w : word) : nat := (n - wleft w - length (wtext w))%nat.

Lemma cstring_app w l : Forall (fun c => c <> 0) w -> cstring (w ++ 0 :: l) = w.
Proof. induction 1 as [|c w Hc Hw IH]; [done|]. cbn [app cstring]. destruct (Z.eqb_spec c 0); [done|]. by rewrite IH. Qed.

(** Zeros come only where a word ends: at a blank, at a symbol or at the end. *)
Definition ended (buf : list Z) (ws : list word) (s : list Z) : Prop :=
  length buf = S (length s) /\
  forall i, buf !! i = (if bool_decide (i ∈ (fun w => (length s - wleft w)%nat) <$> ws) then Some 0 else (s ++ [0]) !! i).

Lemma end_word_ended s ws w buf : ended buf ws s -> ended (end_word buf w) (ws ++ [w]) s.
Proof.
  intros [Hl Hb]. unfold end_word, ended. rewrite length_insert. split; [done|]. intros i.
  rewrite Hl. replace (S (length s) - 1 - wleft w)%nat with (length s - wleft w)%nat by lia.
  destruct (decide (i = length s - wleft w)%nat) as [->|Hi].
  - rewrite list_lookup_insert_eq by lia. rewrite bool_decide_eq_true_2; [done|].
    rewrite fmap_app. apply elem_of_app. right. by left.
  - rewrite list_lookup_insert_ne, Hb by done. rewrite fmap_app.
    erewrite bool_decide_ext; [reflexivity|]. rewrite elem_of_app. cbn. rewrite list_elem_of_singleton.
    split; [by left|]. by intros [H|H].
Qed.
Lemma nulterminate_ended s c : ended (nulterminate c (s ++ [0])) (cmd_words c) s.
Proof.
  unfold nulterminate. set (ws := cmd_words c). clearbody ws.
  assert (H : forall ws dn buf, ended buf dn s -> ended (fold_left end_word ws buf) (dn ++ ws) s).
  { clear ws. intros ws. induction ws as [|w ws IH]; intros dn buf Hb; [by rewrite app_nil_r|]. cbn [fold_left].
    replace (dn ++ w :: ws) with ((dn ++ [w]) ++ ws) by (by rewrite <-app_assoc). by apply IH, end_word_ended. }
  apply (H ws []). split; [rewrite length_app; cbn; lia|]. done.
Qed.

Lemma placed_end s w : placed s w ->
  (length s - wleft w)%nat = length s \/ exists c, s !! (length s - wleft w)%nat = Some c /\ delim c = true.
Proof.
  intros (r & [pre ->] & -> & _ & Hb). rewrite !length_app. destruct r as [|c r]; [left; cbn; lia|].
  right. exists c. split; [|done].
  rewrite (app_assoc pre). apply list_lookup_middle. rewrite !length_app. lia.
Qed.
Lemma cstring_word s ws w buf :
  Forall (fun c => c <> 0) s -> ended buf ws s -> Forall (placed s) ws -> w ∈ ws ->
  cstring (drop (wstart (length s) w) buf) = wtext w.
Proof.
  intros Hz [Hl Hb] Hp Hw. rewrite Forall_forall in Hp. destruct (Hp w Hw) as (r & [pre Hr] & Hwl & [_ Hv] & _).
  assert (Hn : length s = (length pre + length (wtext w) + length r)%nat) by (rewrite Hr, !length_app; lia).
  replace (drop (wstart (length s) w) buf) with (wtext w ++ 0 :: drop (S (length pre + length (wtext w))) buf).
  { apply cstring_app. rewrite Hr in Hz. by apply Forall_app in Hz as [_ [Hz _]%Forall_app]. }
  unfold wstart. rewrite Hwl. apply list_eq. intros i. rewrite lookup_drop.
  replace (length s - length r - length (wtext w) + i)%nat with (length pre + i)%nat by lia.
  assert (Hs : forall j c, wtext w !! j = Some c -> (s ++ [0]) !! (length pre + j)%nat = Some c).
  { intros j c Hc. rewrite Hr, <-!app_assoc, lookup_app_r by lia. rewrite lookup_app_l.
    - by replace (length pre + j - length pre)%nat with j by lia.
    - apply lookup_lt_Some in Hc. lia. }
  destruct (decide (i < length (wtext w))%nat) as [Hi|Hi].
  - destruct (lookup_lt_is_Some_2 (wtext w) i Hi) as [c Hc]. rewrite lookup_app_l, Hc, Hb by done.
    rewrite bool_decide_eq_false_2; [by rewrite (Hs i c)|].
    intros (w' & Hw' & Hin)%list_elem_of_fmap. destruct (placed_end s w' (Hp w' Hin)) as [He|(d & Hd & Hdel)]; [lia|].
    rewrite <-Hw' in Hd. specialize (Hs i c Hc). rewrite lookup_app_l in Hs by lia.
    rewrite Hd in Hs. injection Hs as ->. rewrite Forall_lookup in Hv. by rewrite (Hv i c Hc) in Hdel.
  - rewrite lookup_app_r by lia. destruct (decide (i = length (wtext w))) as [->|Hne].
    + rewrite Nat.sub_diag, Hb, bool_decide_eq_true_2; [done|]. apply list_elem_of_fmap. exists w. split; [lia|done].
    + destruct (i - length (wtext w))%nat as [|j] eqn:Ej; [lia|].
      etrans; [apply lookup_drop|]. f_equal. lia.
Qed.

(** A printed command, with blanks behind it. *)
Lemma parsecmd_blanks c t :
  ok c -> skipws t = [] -> exists c' buf, parsecmd (print 3 c ++ t) = Ret (c', buf) /\ erase c' = c.
Proof.
  intros Hok Ht. destruct (parses c Hok) as (_ & _ & _ & Hp).
  destruct (Hp (sh_fuel (print 3 c ++ t)) t) as (c' & He & Hc); [unfold follow; by rewrite Ht|unfold sh_fuel; lia|].
  exists c', (nulterminate c' ((print 3 c ++ t) ++ [0])). split; [|done].
  unfold parsecmd, parse_only. erewrite bind_step by exact He. by rewrite Ht.
Qed.

(** ** The properties *)

(** C28: the shell's parser ends on every line: with a command or with an error. *)
Theorem parsecmd_ends s : (exists c buf, parsecmd s = Ret (c, buf)) \/ (exists e, parsecmd s = Panic e).
Proof.
  unfold parsecmd. pose proof (parse_only_settles s) as H.
  destruct (parse_only s) as [[c s']|e|]; [left; by eexists _, _|right; by exists e|done].
Qed.

(** what the parser accepts is a command of the grammar, and its strings in the
    buffer are the words of the line. *)
Theorem parsecmd_strings s c buf :
  Forall (fun x => x <> 0) s -> parsecmd s = Ret (c, buf) ->
  ok (erase c) /\ length buf = S (length s)
  /\ Forall (fun w => cstring (drop (wstart (length s) w) buf) = wtext w /\ placed s w) (cmd_words c).
Proof.
  intros Hz H. unfold parsecmd in H. pose proof (parse_only_settles s) as Hs.
  destruct (parse_only s) as [[c' s']| |]; [|done..]. injection H as <- <-. destruct Hs as [_ [Hok Hp]].
  pose proof (nulterminate_ended s c') as He. split; [done|]. split; [apply He|].
  apply Forall_forall. intros w Hw. split; [by eapply cstring_word|]. rewrite Forall_forall in Hp. by apply Hp.
Qed.

(** C27: a command, printed with the parentheses it needs, parses to itself. *)
Theorem parsecmd_print c : ok c -> exists c' buf, parsecmd (print 3 c) = Ret (c', buf) /\ erase c' = c.
Proof. intros Hok. rewrite <-(app_nil_r (print 3 c)). by apply parsecmd_blanks. Qed.

(** [(ls -l > f; a | b &)] and a line with blanks, parsed. *)
Definition sample : scmd :=
  SList (SRedir (SExec [[108; 115]; [45; 108]]) [102] (Z.lor O_WRONLY O_CREATE) 1)
    (SBack (SPipe (SExec [[97]]) (SExec [[98]]))).
Lemma sample_ok : ok sample.
Proof. unfold sample. cbn [ok]. unfold redir_ok, valid, MAXARGS. repeat (split || constructor || right); try done; cbn; lia. Qed.

Lemma parsecmd_print_witness : exists c' buf, parsecmd (print 3 sample) = Ret (c', buf) /\ erase c' = sample.
Proof. apply (parsecmd_print sample). exact sample_ok. Defined.

Lemma parsecmd_strings_witness :
  exists c buf, ok (erase c) /\ length buf = 8%nat
    /\ Forall (fun w => cstring (drop (wstart 7 w) buf) = wtext w /\ placed [97; 32; 62; 32; 102; 59; 98] w) (cmd_words c).
Proof.
  eexists _, _. apply (parsecmd_strings [97; 32; 62; 32; 102; 59; 98]); [repeat constructor; lia|vm_compute; reflexivity].
Defined.
