(* ===== verification/Umalloc.v ===== *)
(** * The user-level memory allocator

    Models [src/xv6/umalloc.c], the allocator of Kernighan and Ritchie, over the
    byte memory of a process: a circular list of free blocks threaded through
    their headers, each block a whole number of 8-byte units, the first of them
    its header.  [usbrk] is the system call as the process sees it
    ([src/xv6/sysproc.c]).  The loops go around the list at most
    once, or in [malloc] twice, the second time after the heap grew, and the list
    has fewer nodes than there are units below the break. *)

From S2P Require Import Prelude Mem Mmu.
Local Open Scope Z_scope.

(** The memory of the process, [freep], and the end of its memory. *)
Record ust := mkust { umem : mem; freep : Z; brk : Z }.
Definition set_umem (m : mem) (s : ust) : ust := mkust m (freep s) (brk s).
Definition set_freep (v : Z) (s : ust) : ust := mkust (umem s) v (brk s).

(** [sizeof(Header)], [p->s.ptr], [p->s.size], [p + n]. *)
Definition HDR : Z := 8.
Definition hptr (m : mem) (p : Z) : Z := ld32 m p.
Definition hsize (m : mem) (p : Z) : Z := ld32 m (p + 4).
Definition hadd (p n : Z) : Z := u32 (p + HDR * n).
Definition set_hptr (p v : Z) : M ust unit := modify (fun s => set_umem (st32 (umem s) p v) s).
Definition set_hsize (p v : Z) : M ust unit := modify (fun s => set_umem (st32 (umem s) (p + 4) v) s).

(** [sys_sbrk]: memory that is given back reads as zero when it is used again. *)
Definition usbrk (n : Z) : M ust Z :=
  s <- get ;;
  let new := u32 (brk s + n) in
  if n <? 0 then
    if (if new >=? brk s then brk s else new) =? 0 then ret (u32 (-1))
    else
      put (mkust (filter (fun x => ~ (PGROUNDDOWN new <= fst x < PGROUNDUP (brk s))) (umem s)) (freep s) new) ;;;
      ret (brk s)
  else put (mkust (umem s) (freep s) new) ;;; ret (brk s).

(** Bound on the length of the free list. *)
Definition heap_fuel (s : ust) : nat := (Z.to_nat (brk s / HDR) + 2)%nat.

(** The [for] loop of [free]. *)
Fixpoint free_find (fuel : nat) (m : mem) (bp p : Z) : outcome Z :=
  match fuel with
  | O => NoFuel
  | S f =>
      if (bp >? p) && (bp <? hptr m p) then Ret p
      else if (p >=? hptr m p) && ((bp >? p) || (bp <? hptr m p)) then Ret p
      else free_find f m bp (hptr m p)
  end.

Definition free_ (ap : Z) : M ust unit :=
  let bp := u32 (ap - HDR) in
  p <- (fun s => match free_find (heap_fuel s) (umem s) bp (freep s) with
                 | Ret p => Ret (p, s)
                 | Panic e => Panic e
                 | NoFuel => NoFuel
                 end) ;;
  m <- gets umem ;;
  (if hadd bp (hsize m bp) =? hptr m p then
     set_hsize bp (u32 (hsize m bp + hsize m (hptr m p))) ;;;
     m <- gets umem ;;
     set_hptr bp (hptr m (hptr m p))
   else set_hptr bp (hptr m p)) ;;;
  m <- gets umem ;;
  (if hadd p (hsize m p) =? bp then
     set_hsize p (u32 (hsize m p + hsize m bp)) ;;;
     m <- gets umem ;;
     set_hptr p (hptr m bp)
   else set_hptr p bp) ;;;
  modify (set_freep p).

Definition morecore (nu : Z) : M ust Z :=
  let nu := if nu <? 4096 then 4096 else nu in
  p <- usbrk (s32 (nu * HDR)) ;;
  if p =? u32 (-1) then ret 0
  else
    set_hsize p nu ;;;
    free_ (hadd p 1) ;;;
    gets freep.

(** [(nbytes + sizeof(Header) - 1)/sizeof(Header) + 1] *)
Definition nunits_for (nbytes : Z) : Z := u32 (nbytes + HDR - 1) / HDR + 1.

(** The block at [p], found big enough, with predecessor [prevp]. *)
Definition malloc_take (nunits prevp p : Z) : M ust Z :=
  m <- gets umem ;;
  p <- (if hsize m p =? nunits then set_hptr prevp (hptr m p) ;;; ret p
        else
          set_hsize p (u32 (hsize m p - nunits)) ;;;
          m <- gets umem ;;
          let p := hadd p (hsize m p) in
          set_hsize p nunits ;;;
          ret p) ;;
  modify (set_freep prevp) ;;;
  ret (hadd p 1).

Fixpoint malloc_loop (fuel : nat) (nunits prevp p : Z) : M ust Z :=
  match fuel with
  | O => nofuel
  | S f =>
      s <- get ;;
      if hsize (umem s) p >=? nunits then malloc_take nunits prevp p
      else if p =? freep s then
        p <- morecore nunits ;;
        if p =? 0 then ret 0
        else m <- gets umem ;; malloc_loop f nunits p (hptr m p)
      else malloc_loop f nunits p (hptr (umem s) p)
  end.

Section Malloc.
(** The address of the variable [base]. *)
Context (base : Z).

Definition malloc (nbytes : Z) : M ust Z :=
  let nunits := nunits_for nbytes in
  f <- gets freep ;;
  prevp <- (if f =? 0 then
              set_hptr base base ;;; modify (set_freep base) ;;;
              set_hsize base 0 ;;; ret base
            else ret f) ;;
  s <- get ;;
  malloc_loop (2 * heap_fuel s + Z.to_nat (Z.max nunits 4096)) nunits prevp (hptr (umem s) prevp).
End Malloc.
