(* ===== verification/UmallocProps.v ===== *)
(** * The allocator refines a store of blocks

    The heap is tiled by blocks, free or handed out; the free list threads the free
    ones in the order of their addresses, and no two free blocks touch. *)

From stdpp Require Import sorting.
From S2P Require Import Prelude Mem Mmu Umalloc.
Local Open Scope Z_scope.

(** ** Tiles *)

(** A tile: its size in units, header included, and whether it is free. *)
Abbreviation tiles := (list (Z * bool)).

Fixpoint units (ts : tiles) : Z := match ts with [] => 0 | (k, _) :: ts' => k + units ts' end.
(** Addresses of all tiles, of the free ones, and those handed out with sizes. *)
Fixpoint starts (a : Z) (ts : tiles) : list Z :=
  match ts with [] => [] | (k, _) :: ts' => a :: starts (a + HDR * k) ts' end.
Fixpoint frees (a : Z) (ts : tiles) : list Z :=
  match ts with [] => [] | (k, f) :: ts' => (if f : bool then [a] else []) ++ frees (a + HDR * k) ts' end.
Fixpoint allocs (a : Z) (ts : tiles) : list (Z * Z) :=
  match ts with [] => [] | (k, f) :: ts' => (if f : bool then [] else [(a, k)]) ++ allocs (a + HDR * k) ts' end.

(** The headers hold the sizes. *)
Fixpoint sized (m : mem) (a : Z) (ts : tiles) : Prop :=
  match ts with [] => True | (k, _) :: ts' => hsize m a = k /\ 0 < k /\ sized m (a + HDR * k) ts' end.

Definition head_free (ts : tiles) : bool := match ts with (_, f) :: _ => f | [] => false end.
(** No two free tiles are neighbours. *)
Fixpoint apart (ts : tiles) : Prop :=
  match ts with [] => True | (_, f) :: ts' => (f && head_free ts' = false) /\ apart ts' end.

(** The list from [p] through [L], whose last node points to [e]. *)
Fixpoint chain (m : mem) (p : Z) (L : list Z) (e : Z) : Prop :=
  match L with [] => hptr m p = e | q :: L' => hptr m p = q /\ chain m q L' e end.

(** Two headers are the same or do not overlap. *)
Definition sep (x y : Z) : Prop := x = y \/ x + HDR <= y \/ y + HDR <= x.

Lemma units_app t1 t2 : units (t1 ++ t2) = units t1 + units t2.
Proof. induction t1 as [|[k f] t1 IH]; cbn; [lia|]. rewrite IH. lia. Qed.
Lemma frees_app t2 t1 : forall a, frees a (t1 ++ t2) = frees a t1 ++ frees (a + HDR * units t1) t2.
Proof.
  induction t1 as [|[k f] t1 IH]; intros a; cbn [app frees units]; [rewrite Z.mul_0_r, Z.add_0_r; reflexivity|].
  rewrite IH, <- app_assoc. do 3 f_equal. lia.
Qed.
Lemma allocs_app t2 t1 : forall a, allocs a (t1 ++ t2) = allocs a t1 ++ allocs (a + HDR * units t1) t2.
Proof.
  induction t1 as [|[k f] t1 IH]; intros a; cbn [app allocs units]; [rewrite Z.mul_0_r, Z.add_0_r; reflexivity|].
  rewrite IH, <- app_assoc. do 3 f_equal. lia.
Qed.
Lemma starts_app t2 t1 : forall a, starts a (t1 ++ t2) = starts a t1 ++ starts (a + HDR * units t1) t2.
Proof.
  induction t1 as [|[k f] t1 IH]; intros a; cbn [app starts units]; [rewrite Z.mul_0_r, Z.add_0_r; reflexivity|].
  rewrite IH. cbn. do 3 f_equal. lia.
Qed.
Lemma sized_app m t2 t1 : forall a, sized m a (t1 ++ t2) <-> sized m a t1 /\ sized m (a + HDR * units t1) t2.
Proof.
  induction t1 as [|[k f] t1 IH]; intros a; cbn [app sized units]; [rewrite Z.mul_0_r, Z.add_0_r; tauto|].
  rewrite IH. replace (a + HDR * k + HDR * units t1) with (a + HDR * (k + units t1)) by lia. tauto.
Qed.

Lemma sized_units m ts : forall a, sized m a ts -> 0 <= units ts.
Proof. induction ts as [|[k f] ts IH]; intros a; cbn; [lia|]. intros (_ & Hk & H). pose proof (IH _ H). lia. Qed.

Lemma starts_range m ts : forall a, sized m a ts -> forall x, x ∈ starts a ts -> a <= x /\ x + HDR * hsize m x <= a + HDR * units ts /\ 0 < hsize m x.
Proof.
  induction ts as [|[k f] ts IH]; intros a H x Hx; cbn in *; [apply elem_of_nil in Hx; contradiction|].
  destruct H as (H1 & H2 & H3). pose proof (sized_units _ _ _ H3). apply elem_of_cons in Hx as [->|Hx]; [unfold HDR; lia|].
  destruct (IH _ H3 x Hx) as (A & B & D). unfold HDR in *. lia.
Qed.

Lemma frees_starts ts : forall a x, x ∈ frees a ts -> x ∈ starts a ts.
Proof.
  induction ts as [|[k f] ts IH]; intros a x Hx; cbn in *; [exact Hx|]. apply elem_of_app in Hx as [Hx|Hx].
  - destruct f; [apply list_elem_of_singleton in Hx as ->; left|apply elem_of_nil in Hx; contradiction].
  - right. apply IH, Hx.
Qed.

Lemma starts_sep m ts : forall a, sized m a ts -> forall x y, x ∈ starts a ts -> y ∈ starts a ts -> sep x y.
Proof.
  induction ts as [|[k f] ts IH]; intros a H x y Hx Hy; cbn in *; [apply elem_of_nil in Hx; contradiction|].
  destruct H as (H1 & H2 & H3). apply elem_of_cons in Hx as [->|Hx]; apply elem_of_cons in Hy as [->|Hy]; [left; reflexivity| | |eauto].
  - pose proof (starts_range _ _ _ H3 y Hy). unfold sep, HDR in *. lia.
  - pose proof (starts_range _ _ _ H3 x Hx). unfold sep, HDR in *. lia.
Qed.

Lemma frees_sorted m ts : forall a, sized m a ts -> StronglySorted Z.lt (frees a ts) /\ Forall (fun x => a <= x) (frees a ts).
Proof.
  induction ts as [|[k f] ts IH]; intros a H; cbn in *; [split; constructor|]. destruct H as (_ & Hk & H).
  destruct (IH _ H) as [I1 I2]. destruct f; cbn.
  - split; [constructor; [exact I1|eapply Forall_impl; [exact I2|]]|constructor; [lia|eapply Forall_impl; [exact I2|]]]; unfold HDR; cbn; lia.
  - split; [exact I1|]. eapply Forall_impl; [exact I2|]. unfold HDR; cbn; lia.
Qed.

(** ** Memory *)

Lemma hptr_set_ptr m p v x : sep x p -> hptr (st32 m p v) x = if x =? p then u32 v else hptr m x.
Proof.
  intros H. unfold hptr. case_if; [subst; apply ld32_st32_same|]. apply ld32_st32_ne. unfold sep, HDR in H. lia.
Qed.
Lemma hptr_set_size m p v x : sep x p -> hptr (st32 m (p + 4) v) x = hptr m x.
Proof. intros H. apply ld32_st32_ne. unfold sep, HDR in H. lia. Qed.
Lemma hsize_set_ptr m p v x : sep x p -> hsize (st32 m p v) x = hsize m x.
Proof. intros H. apply ld32_st32_ne. unfold sep, HDR in H. lia. Qed.
Lemma hsize_set_size m p v x : sep x p -> hsize (st32 m (p + 4) v) x = if x =? p then u32 v else hsize m x.
Proof.
  intros H. unfold hsize. case_if; [subst; apply ld32_st32_same|]. apply ld32_st32_ne. unfold sep, HDR in H. lia.
Qed.

Lemma sized_ext m m' ts : forall a, (forall x, x ∈ starts a ts -> hsize m' x = hsize m x) -> sized m a ts -> sized m' a ts.
Proof.
  induction ts as [|[k f] ts IH]; intros a He H; cbn in *; [exact H|]. destruct H as (H1 & H2 & H3).
  split; [rewrite He; [exact H1|left]|]. split; [exact H2|]. apply IH; [|exact H3]. intros x Hx. apply He. right. exact Hx.
Qed.
Lemma links_ext m m' L : forall p e, (forall x, x ∈ p :: L -> hptr m' x = hptr m x) -> chain m p L e -> chain m' p L e.
Proof.
  induction L as [|q L IH]; intros p e He H; cbn in *; [rewrite He; [exact H|left]|]. destruct H as [H1 H2].
  split; [rewrite He; [exact H1|left]|]. apply IH; [|exact H2]. intros x Hx. apply He. right. exact Hx.
Qed.

(** ** The list *)

Lemma chain_split m L2 L1 : forall p e, chain m p (L1 ++ L2) e <-> chain m p L1 (hd e L2) /\ match L2 with [] => True | q :: L2' => chain m q L2' e end.
Proof.
  induction L1 as [|q L1 IH]; intros p e; cbn [app chain]; [|rewrite IH; tauto]. destruct L2 as [|q L2]; cbn; tauto.
Qed.

(** The last node of the list. *)
Fixpoint lastn (p : Z) (L : list Z) : Z := match L with [] => p | q :: L' => lastn q L' end.

Lemma chain_last m L : forall p e, chain m p L e -> hptr m (lastn p L) = e.
Proof. induction L as [|q L IH]; intros p e H; [exact H|]. destruct H as [_ H]. apply IH, H. Qed.
Lemma last_in L : forall p, lastn p L ∈ p :: L.
Proof. induction L as [|q L IH]; intros p; [left|]. right. apply IH. Qed.
Lemma lastn_app A f B : forall p, lastn p (A ++ f :: B) = lastn f B.
Proof. induction A as [|r A IH]; intros p; [reflexivity|]. apply IH. Qed.

(** Redirect the last node. *)
Lemma chain_set_last m L : forall p e e', (forall x y, x ∈ p :: L -> y ∈ p :: L -> sep x y) -> NoDup (p :: L) -> 0 <= e' < 2 ^ 32 ->
  chain m p L e -> chain (st32 m (lastn p L) e') p L e'.
Proof.
  induction L as [|q L IH]; intros p e e' Hs Hn He H.
  - cbn. unfold hptr. rewrite ld32_st32_same. apply u32_small, He.
  - destruct H as [H1 H2]. cbn [lastn]. apply NoDup_cons in Hn as [Hp Hn]. split.
    + rewrite hptr_set_ptr; [|apply Hs; [left|right; apply last_in]]. case_if; [|exact H1]. exfalso. apply Hp. rewrite E. apply last_in.
    + eapply IH; eauto. intros x y Hx Hy. apply Hs; right; assumption.
Qed.

(** A node can take over from another. *)
Lemma chain_take_over m L b p e : (forall x, x ∈ p :: L -> sep x p) -> p ∉ L -> chain m b L e -> chain (st32 m p (hptr m b)) p L e.
Proof.
  intros Hs Hp H. destruct L as [|q L]; cbn in *.
  - unfold hptr at 1. rewrite ld32_st32_same, H. apply u32_small. rewrite <- H. apply ld32_range.
  - destruct H as [H1 H2]. split; [unfold hptr at 1; rewrite ld32_st32_same, H1; apply u32_small; rewrite <- H1; apply ld32_range|].
    eapply links_ext; [|exact H2]. intros x Hx. rewrite hptr_set_ptr by (apply Hs; right; exact Hx). case_if; [congruence|reflexivity].
Qed.

(** The same circle seen from another node. *)
Lemma chain_rotate m b L A f B : chain m b L b -> b :: L = A ++ f :: B -> chain m f (B ++ A) f.
Proof.
  intros H E. destruct A as [|a A]; cbn in E; injection E as <- ->; [rewrite app_nil_r; exact H|].
  apply chain_split in H as [H1 H2]. apply chain_split. split; [exact H2|exact H1].
Qed.

(** ** [free]: finding the place *)

Lemma find_up m bp e L : forall f n, chain m f L e -> StronglySorted Z.lt (f :: L) -> Forall (fun x => x < bp) (f :: L) ->
  bp < e \/ e <= lastn f L -> (length L < n)%nat -> free_find n m bp f = Ret (lastn f L).
Proof.
  induction L as [|q L IH]; intros f n Hc Hs Hb He Hn; (destruct n as [|n]; cbn in Hn; [lia|]); cbn [free_find].
  - cbn in *. rewrite Hc. apply Forall_inv in Hb. destruct ((bp >? f) && (bp <? e)) eqn:E1; [reflexivity|].
    destruct ((f >=? e) && _) eqn:E2; [reflexivity|]. lia.
  - destruct Hc as [H1 H2]. rewrite H1. cbn [lastn] in *. apply StronglySorted_inv in Hs as [Hs Hq]. apply Forall_inv in Hq.
    apply Forall_cons in Hb as [Hf Hb]. pose proof (Forall_inv Hb) as Hq'. cbn in Hq'.
    destruct ((bp >? f) && (bp <? q)) eqn:E1; [lia|]. destruct ((f >=? q) && _) eqn:E2; [lia|].
    apply IH; auto; lia.
Qed.

Lemma find_wrap m bp b n L : forall f, chain m f L b -> StronglySorted Z.lt (f :: L) -> Forall (fun x => bp < x) (f :: L) -> b < bp ->
  free_find (S (length L) + n) m bp f = free_find n m bp b.
Proof.
  induction L as [|q L IH]; intros f Hc Hs Hb He; cbn [length plus free_find].
  - cbn in Hc. rewrite Hc. apply Forall_inv in Hb. destruct ((bp >? f) && _) eqn:E1; [lia|].
    destruct ((f >=? b) && ((bp >? f) || (bp <? b))) eqn:E2; [lia|]. reflexivity.
  - destruct Hc as [H1 H2]. rewrite H1. apply StronglySorted_inv in Hs as [Hs Hq]. apply Forall_inv in Hq.
    apply Forall_cons in Hb as [Hf Hb]. destruct ((bp >? f) && _) eqn:E1; [lia|]. destruct ((f >=? q) && _) eqn:E2; [lia|].
    apply (IH q H2 Hs Hb He).
Qed.

(** ** The heap *)

Section Heap.
(** The address of [base], and where the heap begins. *)
Context (base lo : Z).

Record heap (m : mem) (ts : tiles) : Prop := mkheap {
  h_base : 0 < base /\ base + HDR <= lo;
  h_end : lo + HDR * units ts <= KERNBASE;
  h_sized : sized m lo ts;
  h_apart : apart ts;
  h_chain : chain m base (frees lo ts) base;
  h_zero : hsize m base = 0 }.

Lemma nodes_sep m ts : base + HDR <= lo -> sized m lo ts -> forall x y, x ∈ base :: starts lo ts -> y ∈ base :: starts lo ts -> sep x y.
Proof.
  intros Hb Hs x y Hx Hy. apply elem_of_cons in Hx as [->|Hx]; apply elem_of_cons in Hy as [->|Hy]; [left; reflexivity| | |eapply starts_sep; eauto].
  - pose proof (starts_range _ _ _ Hs y Hy). unfold sep. lia.
  - pose proof (starts_range _ _ _ Hs x Hx). unfold sep. lia.
Qed.

Lemma nodes_sorted m ts : base + HDR <= lo -> sized m lo ts -> StronglySorted Z.lt (base :: frees lo ts).
Proof.
  intros Hb Hs. destruct (frees_sorted _ _ _ Hs) as [H1 H2]. constructor; [exact H1|]. eapply Forall_impl; [exact H2|]. unfold HDR in *. cbn. lia.
Qed.

Lemma sorted_nodup (L : list Z) : StronglySorted Z.lt L -> NoDup L.
Proof.
  induction 1 as [|x L _ IH H]; constructor; [|exact IH]. intros Hx. rewrite Forall_forall in H. specialize (H x Hx). lia.
Qed.

Lemma apart_mid t1 k f t2 : apart (t1 ++ (k, f) :: t2) <-> apart (t1 ++ [(k, f)]) /\ (f && head_free t2 = false) /\ apart t2.
Proof.
  induction t1 as [|[k1 f1] t1 IH]; cbn [app apart head_free]; [rewrite andb_false_r; tauto|]. rewrite IH.
  destruct t1 as [|[k2 f2] t1]; cbn; tauto.
Qed.
Lemma apart_snoc t1 k1 f1 k f : apart (t1 ++ [(k1, f1)] ++ [(k, f)]) <-> apart (t1 ++ [(k1, f1)]) /\ (f1 && f = false).
Proof. rewrite (apart_mid t1 k1 f1 [(k, f)]). cbn. rewrite andb_false_r. tauto. Qed.

Lemma apart_size t1 k k' f : apart (t1 ++ [(k, f)]) -> apart (t1 ++ [(k', f)]).
Proof. induction t1 as [|[k1 f1] t1 IH]; cbn; [auto|]. intros [H1 H2]. split; [|auto]. destruct t1 as [|[k2 f2] t1]; exact H1. Qed.

(** Where the block at the given tile belongs in the list. *)
Lemma find_ok m t1 k t2 f n : heap m (t1 ++ (k, false) :: t2) -> f ∈ base :: frees lo (t1 ++ (k, false) :: t2) ->
  (length (frees lo (t1 ++ (k, false) :: t2)) < n)%nat ->
  free_find n m (lo + HDR * units t1) f = Ret (lastn base (frees lo t1)).
Proof.
  intros [Hb He Hs Ha Hc Hz] Hf Hn. pose proof (nodes_sorted _ _ (proj2 Hb) Hs) as Hsort.
  rewrite sized_app in Hs. destruct Hs as [Hs1 (Hk & Hk0 & Hs2)]. rewrite frees_app in *. cbn [frees app] in *.
  set (bp := lo + HDR * units t1) in *. set (F1 := frees lo t1) in *. set (F2 := frees (bp + HDR * k) t2) in *.
  assert (H1 : Forall (fun x => x < bp) (base :: F1)).
  { constructor; [pose proof (sized_units _ _ _ Hs1); unfold bp, HDR in *; lia|]. apply Forall_forall. intros x Hx.
    pose proof (starts_range _ _ _ Hs1 x (frees_starts _ _ _ Hx)). unfold bp, HDR in *. lia. }
  assert (H2 : Forall (fun x => bp < x) F2).
  { apply Forall_forall. intros x Hx. pose proof (starts_range _ _ _ Hs2 x (frees_starts _ _ _ Hx)). unfold HDR in *. lia. }
  rewrite app_comm_cons in Hsort. apply StronglySorted_app in Hsort as (_ & S1 & S2).
  apply chain_split in Hc as [C1 C2]. rewrite app_comm_cons in Hf. apply elem_of_app in Hf as [Hf|Hf].
  - apply list_elem_of_split in Hf as (A & B & E). rewrite E in S1, H1. apply StronglySorted_app in S1 as (_ & _ & S1).
    apply Forall_app in H1 as [_ H1]. assert (El : lastn base F1 = lastn f B).
    { destruct A as [|a A]; cbn in E; injection E as <- E; rewrite E; [reflexivity|apply lastn_app]. }
    rewrite El. apply (find_up m bp (hd base F2)); auto.
    + destruct A as [|a A]; cbn in E; injection E as -> E; [rewrite <- E; exact C1|]. rewrite E in C1. apply chain_split in C1 as [_ C1]. exact C1.
    + destruct F2 as [|q F2']; [right|left; apply (Forall_inv H2)]. cbn. rewrite <- El. pose proof (last_in F1 base) as Hl.
      apply elem_of_cons in Hl as [->|Hl]; [lia|]. pose proof (starts_range _ _ _ Hs1 _ (frees_starts _ _ _ Hl)). unfold HDR in *. lia.
    + apply (f_equal length) in E. rewrite length_app in E, Hn. cbn in E. lia.
  - apply list_elem_of_split in Hf as (A & B & E). rewrite E in S2, H2. apply StronglySorted_app in S2 as (_ & _ & S2).
    assert (Hh : bp < hd base F2) by (rewrite E; destruct A; [exact (Forall_inv (proj2 (proj1 (Forall_app _ _ _) H2)))|exact (Forall_inv H2)]).
    apply Forall_app in H2 as [_ H2]. pose proof (Forall_inv H1) as Hbp. cbn in Hbp. rewrite E, !length_app in Hn. cbn in Hn.
    replace n with (S (length B) + (n - S (length B)))%nat by lia. rewrite (find_wrap m bp base); auto.
    + apply (find_up m bp (hd base F2)); auto; lia.
    + destruct A as [|a A]; cbn in E; rewrite E in C2; cbn in C2; [exact C2|]. apply chain_split in C2 as [_ C2]. exact C2.
Qed.

(** ** [free]: linking in *)

(** Memory after the first and after the second conditional of [free]. *)
Definition next_mem (m : mem) (bp p : Z) : mem :=
  if hadd bp (hsize m bp) =? hptr m p then
    let m1 := st32 m (bp + 4) (u32 (hsize m bp + hsize m (hptr m p))) in st32 m1 bp (hptr m1 (hptr m1 p))
  else st32 m bp (hptr m p).
Definition prev_mem (m : mem) (bp p : Z) : mem :=
  if hadd p (hsize m p) =? bp then
    let m1 := st32 m (p + 4) (u32 (hsize m p + hsize m bp)) in st32 m1 p (hptr m1 bp)
  else st32 m p bp.

Lemma free_run ap s p : free_find (heap_fuel s) (umem s) (u32 (ap - HDR)) (freep s) = Ret p ->
  free_ ap s = Ret (tt, mkust (prev_mem (next_mem (umem s) (u32 (ap - HDR)) p) (u32 (ap - HDR)) p) p (brk s)).
Proof.
  intros H. unfold free_, prev_mem, next_mem, set_hptr, set_hsize. munfold. rewrite H.
  destruct (hadd _ _ =? hptr _ _); cbn [umem set_umem freep brk]; destruct (hadd p _ =? _); reflexivity.
Qed.

(** Only the header at [h] may differ. *)
Definition only (h : Z) (m m' : mem) : Prop := forall x, ~ (h <= x < h + HDR) -> ldb m' x = ldb m x.
Lemma only_ptr h m v : only h m (st32 m h v).
Proof. intros x Hx. rewrite ldb_st32. case_if; [unfold HDR in Hx; lia|reflexivity]. Qed.
Lemma only_size h m v : only h m (st32 m (h + 4) v).
Proof. intros x Hx. rewrite ldb_st32. case_if; [unfold HDR in Hx; lia|reflexivity]. Qed.
Lemma only_trans h m m1 m2 : only h m m1 -> only h m1 m2 -> only h m m2.
Proof. intros H1 H2 x Hx. rewrite H2, H1 by exact Hx. reflexivity. Qed.
Lemma only_node h m m' x : only h m m' -> sep x h -> x <> h -> hptr m' x = hptr m x /\ hsize m' x = hsize m x.
Proof. intros H Hs Hne. unfold sep, HDR in *. split; apply ld32_ext; intros y Hy; apply H; unfold HDR; lia. Qed.

Lemma only_sized h m m' a ts : only h m m' -> sized m a ts -> h + HDR <= a \/ a + HDR * units ts <= h -> sized m' a ts.
Proof.
  intros H Hs Hh. eapply sized_ext; [|exact Hs]. intros x Hx. pose proof (starts_range _ _ _ Hs x Hx).
  apply (only_node h m m' x H); unfold sep, HDR in *; lia.
Qed.
Lemma only_chain h m m' p L e : only h m m' -> (forall x, x ∈ p :: L -> sep x h /\ x <> h) -> chain m p L e -> chain m' p L e.
Proof. intros H Hx. apply links_ext. intros x Hxx. destruct (Hx x Hxx). apply (only_node h m m' x H); assumption. Qed.

Lemma frees_away m a ts h : sized m a ts -> h + HDR <= a \/ a + HDR * units ts <= h -> forall x, x ∈ frees a ts -> sep x h /\ x <> h.
Proof. intros Hs Hh x Hx. pose proof (starts_range _ _ _ Hs x (frees_starts _ _ _ Hx)). unfold sep, HDR in *. lia. Qed.

(** The block at [bp] to be freed, in front of [t2]: after the first conditional it
    is a node in front of [t2'], merged with the next tile if that was free. *)
Definition next_done (m m1 : mem) (t1 : tiles) (k : Z) (t2 : tiles) (k' : Z) (t2' : tiles) : Prop :=
  let bp := lo + HDR * units t1 in
  only bp m m1 /\ sized m1 lo (t1 ++ (k', true) :: t2') /\ (head_free t2' = false /\ apart t2') /\
  (k <= k' /\ k' + units t2' = k + units t2) /\ allocs (bp + HDR * k') t2' = allocs (bp + HDR * k) t2 /\
  (exists e, chain m1 base (frees lo t1) e) /\ chain m1 bp (frees (bp + HDR * k') t2') base.

Section Next.
Context (m : mem) (t1 : tiles) (k : Z) (t2 : tiles) (H : heap m (t1 ++ (k, false) :: t2)).
Let bp := lo + HDR * units t1.
Let p := lastn base (frees lo t1).

Lemma next_facts : sized m lo t1 /\ (hsize m bp = k /\ 0 < k /\ sized m (bp + HDR * k) t2) /\ apart t2 /\
  chain m base (frees lo t1) (hptr m p) /\ chain m p (frees (bp + HDR * k) t2) base /\ hadd bp (hsize m bp) = bp + HDR * k /\
  (forall x, x ∈ base :: frees lo t1 -> sep x bp /\ x <> bp) /\ lo <= bp /\ base + HDR <= bp /\ bp + HDR * (k + units t2) <= KERNBASE /\ 0 < base.
Proof.
  destruct H as [Hb He Hs Ha Hc Hz]. rewrite sized_app in Hs. destruct Hs as [Hs1 Hs0]. fold bp in Hs0. pose proof Hs0 as (Hk & Hk0 & Hs2).
  rewrite frees_app in Hc. cbn [frees app] in Hc. fold bp in Hc. apply chain_split in Hc as [C1 C2].
  apply apart_mid in Ha as (_ & _ & Ha2). rewrite units_app in He. cbn [units] in He.
  pose proof (sized_units _ _ _ Hs1) as U1. pose proof (sized_units _ _ _ Hs2) as U2.
  assert (Hp : hptr m p = hd base (frees (bp + HDR * k) t2)) by (apply chain_last, C1).
  split; [exact Hs1|]. split; [exact Hs0|]. split; [exact Ha2|]. split; [rewrite Hp; exact C1|].
  split; [destruct (frees (bp + HDR * k) t2); [exact Hp|split; [exact Hp|exact C2]]|].
  split; [unfold hadd; rewrite Hk; apply u32_small; unfold bp, HDR, KERNBASE in *; lia|]. split; [|unfold bp, HDR in *; lia].
  intros x Hx. apply elem_of_cons in Hx as [->|Hx]; [unfold sep, bp, HDR in *; lia|]. eapply frees_away; [exact Hs1| |exact Hx]. unfold bp. lia.
Qed.

Lemma next_merge k2 t2' : t2 = (k2, true) :: t2' -> next_done m (next_mem m bp p) t1 k t2 (k + k2) t2'.
Proof.
  intros E2. pose proof next_facts as (Hs1 & (Hk & Hk0 & Hs2) & Ha2 & C1 & C2 & Ekk & F1 & Hlo & Hbb & Hend & Hb0). unfold next_done. fold bp.
  rewrite E2 in *. cbn [sized units frees app hd apart allocs] in *. destruct C2 as [Hp C2]. unfold next_mem. rewrite Ekk, Hp.
  set (q := bp + HDR * k) in *. destruct Hs2 as (Hk2 & Hk20 & Hs3). rewrite Z.eqb_refl. cbv zeta.
  set (ms := st32 m (bp + 4) _). pose proof (sized_units _ _ _ Hs3) as U3.
  assert (Oq : only bp m ms) by apply only_size.
  assert (Hpq : hptr ms p = q) by (rewrite (proj1 (only_node bp m ms p Oq (proj1 (F1 p (last_in _ _))) (proj2 (F1 p (last_in _ _))))); exact Hp).
  rewrite Hpq. assert (O : only bp m (st32 ms bp (hptr ms q))) by (eapply only_trans; [exact Oq|apply only_ptr]).
  replace (bp + HDR * (k + k2)) with (q + HDR * k2) by (unfold q; lia).
  split; [exact O|]. split.
  { rewrite sized_app. split; [eapply only_sized; [exact O|exact Hs1|unfold bp; lia]|]. fold bp. cbn [sized]. split; [|split].
    - rewrite hsize_set_ptr by (left; reflexivity). unfold ms. rewrite hsize_set_size, Z.eqb_refl, u32_u32 by (left; reflexivity).
      rewrite Hk, Hk2. apply u32_small. unfold bp, HDR, KERNBASE in *. lia.
    - lia.
    - replace (bp + HDR * (k + k2)) with (q + HDR * k2) by (unfold q; lia). eapply only_sized; [exact O|exact Hs3|]. unfold q, HDR in *. lia. }
  cbn [andb] in Ha2. split; [tauto|]. split; [lia|]. split; [reflexivity|].
  split; [eexists; eapply only_chain; [exact O|exact F1|exact C1]|].
  assert (A3 : forall x, x ∈ frees (q + HDR * k2) t2' -> sep x bp /\ x <> bp) by (apply (frees_away m _ _ _ Hs3); unfold q, HDR in *; lia).
  apply chain_take_over.
  + intros x Hx. apply elem_of_cons in Hx as [->|Hx]; [left; reflexivity|]. apply A3, Hx.
  + intros Hx. apply (proj2 (A3 bp Hx)). reflexivity.
  + eapply only_chain; [exact Oq| |exact C2]. intros x Hx. apply elem_of_cons in Hx as [->|Hx]; [unfold sep, q, HDR; lia|apply A3, Hx].
Qed.

Lemma next_link : head_free t2 = false -> next_done m (next_mem m bp p) t1 k t2 k t2.
Proof.
  intros Eh. pose proof next_facts as (Hs1 & (Hk & Hk0 & Hs2) & Ha2 & C1 & C2' & Ekk & F1 & Hlo & Hbb & Hend & Hb0). unfold next_done. fold bp.
  assert (Hp : hptr m p = hd base (frees (bp + HDR * k) t2)) by (clear - C2'; destruct (frees _ t2); cbn in *; tauto).
  unfold next_mem. rewrite Ekk, Hp. pose proof (sized_units _ _ _ Hs2) as U2.
  assert (Hq : hd base (frees (bp + HDR * k) t2) <> bp + HDR * k).
  { destruct t2 as [|[k2 f2] t2']; [cbn; unfold bp, HDR in *; lia|]. cbn in Eh. subst f2. cbn in *. destruct Hs2 as (_ & Hk2 & Hs3).
    destruct (frees _ t2') as [|q F] eqn:EF; [cbn; unfold bp, HDR in *; lia|]. cbn.
    pose proof (starts_range _ _ _ Hs3 q ltac:(apply frees_starts; rewrite EF; left)). unfold HDR in *. lia. }
  destruct (Z.eqb_spec (bp + HDR * k) (hd base (frees (bp + HDR * k) t2))) as [E|_]; [congruence|]. rewrite <- Hp.
  assert (O : only bp m (st32 m bp (hptr m p))) by apply only_ptr. 
  assert (A3 : forall x, x ∈ frees (bp + HDR * k) t2 -> sep x bp /\ x <> bp) by (apply (frees_away m _ _ _ Hs2); unfold HDR in *; lia).
  split; [exact O|]. split.
  { rewrite sized_app. split; [eapply only_sized; [exact O|exact Hs1|unfold bp; lia]|]. fold bp. cbn [sized].
    split; [rewrite hsize_set_ptr by (left; reflexivity); exact Hk|]. split; [exact Hk0|]. eapply only_sized; [exact O|exact Hs2|unfold HDR; lia]. }
  split; [tauto|]. split; [lia|]. split; [reflexivity|]. split; [eexists; eapply only_chain; [exact O|exact F1|exact C1]|].
  apply chain_take_over; [| |exact C2'].
  + intros x Hx. apply elem_of_cons in Hx as [->|Hx]; [left; reflexivity|]. apply A3, Hx.
  + intros Hx. apply (proj2 (A3 bp Hx)). reflexivity.
Qed.

Lemma next_ok : exists k' t2', next_done m (next_mem m bp p) t1 k t2 k' t2'.
Proof.
  assert (E : head_free t2 = false \/ exists k2 t2', t2 = (k2, true) :: t2') by (clear; destruct t2 as [|[? []] ?]; cbn; eauto).
  destruct E as [E|(k2 & t2' & E)]; [exists k, t2; apply next_link, E|exists (k + k2), t2'; apply next_merge, E].
Qed.
End Next.

(** The predecessor touches the block exactly if the tile before it is free. *)
Lemma touches m t1 : base + HDR <= lo -> sized m lo t1 -> hsize m base = 0 -> lo + HDR * units t1 <= KERNBASE -> 0 < base ->
  let p := lastn base (frees lo t1) in
  hadd p (hsize m p) = lo + HDR * units t1 <-> exists t0 k0, t1 = t0 ++ [(k0, true)].
Proof.
  intros Hb Hs Hz He H0 p. assert (Eb : hadd base (hsize m base) = base) by (rewrite Hz; unfold hadd; rewrite Z.mul_0_r, Z.add_0_r; apply u32_small; pose proof (sized_units _ _ _ Hs); unfold HDR, KERNBASE in *; lia).
  pose proof (sized_units _ _ _ Hs) as U1. destruct t1 as [|[k0 f0] t0 _] using rev_ind.
  { cbn in p. subst p. rewrite Eb. cbn. split; [unfold HDR in *; lia|]. intros (t0 & k0 & E). destruct t0; discriminate. }
  apply sized_app in Hs as [Hs0 (Hk & Hk0 & _)]. subst p. rewrite units_app in *. rewrite frees_app. cbn [frees units app] in *. rewrite app_nil_r.
  pose proof (sized_units _ _ _ Hs0) as U0. destruct f0.
  - rewrite lastn_app. cbn [lastn]. split; [eauto|]. intros _. rewrite Hk. unfold hadd. rewrite u32_small by (unfold HDR, KERNBASE in *; lia). lia.
  - rewrite app_nil_r. split; [|intros (t' & k' & E); apply app_inj_tail in E as [_ E]; discriminate].
    pose proof (last_in (frees lo t0) base) as Hl. intros E. apply elem_of_cons in Hl as [Hl|Hl]; [rewrite Hl, Eb in E; unfold HDR in *; lia|].
    pose proof (starts_range _ _ _ Hs0 _ (frees_starts _ _ _ Hl)). unfold hadd in E. rewrite u32_small in E by (unfold HDR, KERNBASE in *; lia). unfold HDR in *. lia.
Qed.

Lemma free_tile m t1 k t2 : sized m lo (t1 ++ (k, true) :: t2) -> exists v, v ∈ frees lo (t1 ++ (k, true) :: t2) /\ k <= hsize m v.
Proof.
  intros H. apply sized_app in H as [_ (H & _)]. exists (lo + HDR * units t1). rewrite frees_app. split; [apply elem_of_app; right; left|lia].
Qed.

(** What [next_mem] established. *)
Record linked (m : mem) (t1 : tiles) (k : Z) (t2 : tiles) : Prop := mklinked {
  l_base : 0 < base /\ base + HDR <= lo;
  l_end : lo + HDR * (units t1 + (k + units t2)) <= KERNBASE;
  l_sized : sized m lo (t1 ++ (k, true) :: t2);
  l_apart : apart t1 /\ head_free t2 = false /\ apart t2;
  l_chain1 : exists e, chain m base (frees lo t1) e;
  l_chain2 : chain m (lo + HDR * units t1) (frees (lo + HDR * units t1 + HDR * k) t2) base;
  l_zero : hsize m base = 0 }.

Definition freed_tiles (m m2 : mem) (t1 : tiles) (k : Z) (t2 ts' : tiles) : Prop :=
  heap m2 ts' /\ units ts' = units t1 + (k + units t2) /\
  allocs lo ts' = allocs lo t1 ++ allocs (lo + HDR * units t1 + HDR * k) t2 /\
  lastn base (frees lo t1) ∈ base :: frees lo ts' /\ only (lastn base (frees lo t1)) m m2 /\
  (exists v, v ∈ frees lo ts' /\ k <= hsize m2 v).

Lemma prev_merge m t0 k0 k t2 : linked m (t0 ++ [(k0, true)]) k t2 ->
  freed_tiles m (prev_mem m (lo + HDR * units (t0 ++ [(k0, true)])) (lo + HDR * units t0)) (t0 ++ [(k0, true)]) k t2 (t0 ++ (k0 + k, true) :: t2).
Proof.
  intros [Hb He Hs Ha [e C1] C2 Hz]. apply sized_app in Hs as [Hs1 Hs2]. cbn [sized] in Hs2. destruct Hs2 as (Hk & Hk0 & Hs2).
  pose proof (sized_units _ _ _ Hs1) as U1. pose proof (sized_units _ _ _ Hs2) as U2.
  assert (Ht : hadd (lo + HDR * units t0) (hsize m (lo + HDR * units t0)) = lo + HDR * units (t0 ++ [(k0, true)])).
  { pose proof (proj2 (touches m (t0 ++ [(k0, true)]) (proj2 Hb) Hs1 Hz ltac:(unfold HDR in *; lia) (proj1 Hb)) ltac:(eauto)) as T.
    rewrite frees_app in T. cbn [frees app] in T. rewrite lastn_app in T. exact T. }
  unfold prev_mem. rewrite Ht, Z.eqb_refl. cbv zeta. unfold freed_tiles. rewrite !units_app, !allocs_app, !frees_app in *. cbn [frees units allocs app] in *.
  rewrite app_nil_r, !lastn_app. cbn [lastn]. rewrite Z.add_0_r in *. apply sized_app in Hs1 as [Hs0 (Hk1 & Hk10 & _)].
  set (p := lo + HDR * units t0) in *. set (bp := lo + HDR * (units t0 + k0)) in *. rewrite Hk1, Hk.
  set (ms := st32 m (p + 4) _). pose proof (sized_units _ _ _ Hs0) as U0.
  assert (O1 : only p m ms) by apply only_size. assert (O : only p m (st32 ms p (hptr ms bp))) by (eapply only_trans; [exact O1|apply only_ptr]).
  assert (Eq : p + HDR * (k0 + k) = bp + HDR * k) by (unfold p, bp; lia).
  assert (A2 : forall x, x ∈ frees (bp + HDR * k) t2 -> sep x p /\ x <> p) by (apply (frees_away m _ _ _ Hs2); unfold bp, p, HDR in *; lia).
  assert (A0 : forall x, x ∈ base :: frees lo t0 -> sep x p /\ x <> p).
  { intros x Hx. apply elem_of_cons in Hx as [->|Hx]; [unfold sep, p, HDR in *; lia|]. eapply frees_away; [exact Hs0| |exact Hx]. unfold p. lia. }
  assert (Hsz : sized (st32 ms p (hptr ms bp)) lo (t0 ++ (k0 + k, true) :: t2)).
  { rewrite sized_app. split; [eapply only_sized; [exact O|exact Hs0|unfold p; lia]|]. fold p. cbn [sized]. rewrite Eq.
    split; [|split; [lia|eapply only_sized; [exact O|exact Hs2|unfold bp, p, HDR in *; lia]]].
    rewrite hsize_set_ptr by (left; reflexivity). unfold ms. rewrite hsize_set_size, Z.eqb_refl, u32_u32 by (left; reflexivity).
    apply u32_small. unfold HDR, KERNBASE in *. lia. }
  rewrite !Eq. split; [split|].
  - exact Hb.
  - rewrite units_app. cbn [units]. unfold HDR in *. lia.
  - exact Hsz.
  - apply apart_mid. cbn [andb]. destruct Ha as (Ha1 & Ha2 & Ha3). split; [|auto]. apply (apart_size _ k0), Ha1.
  - rewrite frees_app. cbn [frees app]. fold p. rewrite Eq. apply chain_split in C1 as [C1 _]. apply chain_split.
    split; [eapply only_chain; [exact O|exact A0|exact C1]|]. apply chain_take_over.
    + intros x Hx. apply elem_of_cons in Hx as [->|Hx]; [left; reflexivity|apply A2, Hx].
    + intros Hx. apply (proj2 (A2 p Hx)). reflexivity.
    + eapply only_chain; [exact O1| |exact C2]. intros x Hx. apply elem_of_cons in Hx as [->|Hx]; [unfold sep, bp, p, HDR in *; lia|apply A2, Hx].
  - rewrite (proj2 (only_node p m _ base O (proj1 (A0 base ltac:(left))) (proj2 (A0 base ltac:(left))))). exact Hz.
  - assert (Hs' : sized (st32 ms p (hptr ms bp)) lo (t0 ++ (k0 + k, true) :: t2)) by exact Hsz.
    split; [lia|]. split; [reflexivity|]. split; [right; apply elem_of_app; right; left|]. split; [exact O|].
    destruct (free_tile _ _ _ _ Hs') as (v & Hv & Hv'). exists v. split; [|lia].
    rewrite frees_app in Hv. cbn [frees app] in Hv. fold p in Hv. rewrite Eq in Hv. exact Hv.
Qed.

Lemma prev_link m t1 k t2 : linked m t1 k t2 -> (forall t0 k0, t1 <> t0 ++ [(k0, true)]) ->
  freed_tiles m (prev_mem m (lo + HDR * units t1) (lastn base (frees lo t1))) t1 k t2 (t1 ++ (k, true) :: t2).
Proof.
  intros [Hb He Hs Ha [e C1] C2 Hz] Hne. pose proof (nodes_sep _ _ (proj2 Hb) Hs) as Hsep. pose proof (nodes_sorted _ _ (proj2 Hb) Hs) as Hsort.
  pose proof Hs as Hs'. apply sized_app in Hs' as [Hs1 Hs2]. cbn [sized] in Hs2. destruct Hs2 as (Hk & Hk0 & Hs2).
  pose proof (sized_units _ _ _ Hs1) as U1. pose proof (sized_units _ _ _ Hs2) as U2.
  set (p := lastn base (frees lo t1)). set (bp := lo + HDR * units t1) in *.
  assert (Hp : p ∈ base :: frees lo t1) by apply last_in.
  assert (Ap : p + HDR <= bp).
  { apply elem_of_cons in Hp as [->|Hp]; [unfold bp, HDR in *; lia|]. pose proof (starts_range _ _ _ Hs1 p (frees_starts _ _ _ Hp)). unfold bp, HDR in *. lia. }
  unfold prev_mem. destruct (Z.eqb_spec (hadd p (hsize m p)) bp) as [E|_].
  { exfalso. apply (touches m t1 (proj2 Hb) Hs1 Hz) in E as (t0 & k0 & E); [|unfold HDR in *; lia|lia]. exact (Hne t0 k0 E). }
  assert (O : only p m (st32 m p bp)) by apply only_ptr.
  assert (A2 : forall x, x ∈ bp :: frees (bp + HDR * k) t2 -> sep x p /\ x <> p).
  { intros x Hx. apply elem_of_cons in Hx as [->|Hx]; [unfold sep, HDR in *; lia|]. apply (frees_away m _ _ p Hs2 ltac:(unfold HDR in *; lia) x Hx). }
  assert (Hin : forall x, x ∈ base :: frees lo t1 -> x ∈ base :: starts lo (t1 ++ (k, true) :: t2)).
  { intros x Hx. apply elem_of_cons in Hx as [->|Hx]; [left|right]. apply frees_starts. rewrite frees_app. apply elem_of_app. auto. }
  assert (Hsz : sized (st32 m p bp) lo (t1 ++ (k, true) :: t2)).
  { eapply sized_ext; [|exact Hs]. intros x Hx. apply hsize_set_ptr, Hsep; [right; exact Hx|apply Hin, Hp]. }
  pose proof (free_tile _ _ _ _ Hsz) as Ht. rewrite frees_app in Ht. cbn [frees app] in Ht. fold bp in Ht.
  unfold freed_tiles. fold p. rewrite frees_app, allocs_app, units_app. cbn [frees units allocs app]. fold bp. split; [split|].
  - exact Hb.
  - rewrite units_app. cbn [units]. exact He.
  - exact Hsz.
  - apply apart_mid. cbn [andb]. destruct Ha as (Ha1 & Ha2 & Ha3). split; [|auto]. destruct t1 as [|[k1 [|]] t0 _] using rev_ind; [cbn; auto|elim (Hne t0 k1); reflexivity|].
    rewrite <- app_assoc. apply apart_snoc. auto.
  - rewrite frees_app. cbn [frees app]. fold bp. apply chain_split. split; [|eapply only_chain; [exact O|exact A2|exact C2]].
    cbn [hd]. eapply chain_set_last; [| | |exact C1].
    + intros x y Hx Hy. apply Hsep; apply Hin; assumption.
    + apply sorted_nodup. rewrite frees_app, app_comm_cons in Hsort. apply StronglySorted_app in Hsort. tauto.
    + unfold bp, HDR, KERNBASE in *. lia.
  - rewrite hsize_set_ptr; [exact Hz|]. apply Hsep; [left|apply Hin, Hp].
  - split; [reflexivity|]. split; [reflexivity|]. split; [|split; [exact O|exact Ht]]. rewrite app_comm_cons. apply elem_of_app. left. exact Hp.
Qed.

(** All of [free] on memory. *)
Lemma free_mem_ok m t1 k t2 : heap m (t1 ++ (k, false) :: t2) -> let bp := lo + HDR * units t1 in let p := lastn base (frees lo t1) in
  exists ts', heap (prev_mem (next_mem m bp p) bp p) ts' /\ units ts' = units (t1 ++ (k, false) :: t2) /\
    allocs lo ts' = allocs lo t1 ++ allocs (bp + HDR * k) t2 /\ p ∈ base :: frees lo ts' /\
    (exists v, v ∈ frees lo ts' /\ k <= hsize (prev_mem (next_mem m bp p) bp p) v) /\
    (forall x, ~ (bp <= x < bp + HDR) -> ~ (p <= x < p + HDR) -> ldb (prev_mem (next_mem m bp p) bp p) x = ldb m x).
Proof.
  intros H bp p. destruct (next_ok m t1 k t2 H) as (k' & t2' & O & Hs & Ha & [Hkk Hu] & Hal & C1 & C2). fold bp p in O, Hs, C1, C2, Hal.
  destruct H as [Hb He Hs0 Ha0 _ Hz]. rewrite units_app in *. cbn [units] in *. pose proof (sized_units _ _ _ (proj1 (proj1 (sized_app _ _ _ _) Hs0))) as U1.
  assert (L : linked (next_mem m bp p) t1 k' t2').
  { split; auto; [rewrite Hu; exact He| |].
    - apply apart_mid in Ha0 as (Ha1 & _). split; [|exact Ha]. clear - Ha1. destruct t1 as [|[k1 f1] t1 _] using rev_ind; [exact I|].
      rewrite <- app_assoc in Ha1. apply apart_snoc in Ha1. tauto.
    - rewrite (proj2 (only_node bp m _ base O ltac:(unfold sep, bp, HDR in *; lia) ltac:(unfold bp, HDR in *; lia))). exact Hz. }
  assert (F : exists ts', freed_tiles (next_mem m bp p) (prev_mem (next_mem m bp p) bp p) t1 k' t2' ts').
  { destruct t1 as [|[k1 [|]] t0 _] using rev_ind.
    - eexists. apply (prev_link _ [] _ _ L). intros [|? ?] ?; discriminate.
    - eexists. pose proof (prev_merge _ _ _ _ _ L) as F.
      replace (lo + HDR * units t0) with p in F by (unfold p; rewrite frees_app; cbn [frees app]; apply lastn_app). exact F.
    - eexists. apply (prev_link _ _ _ _ L). intros t' k2 E. apply app_inj_tail in E as [_ E]. discriminate. }
  destruct F as (ts' & F1 & F2 & F3 & F4 & F5 & v & Hv & Hv'). exists ts'. split; [exact F1|]. split; [lia|]. split; [|split; [exact F4|split; [exists v; split; [exact Hv|lia]|]]].
  - rewrite F3. fold bp. rewrite Hal. reflexivity.
  - intros x Hx1 Hx2. rewrite (F5 x Hx2), (O x Hx1). reflexivity.
Qed.

(** ** The routines *)

Record heap_ok (ts : tiles) (s : ust) : Prop := mkhok {
  ok_heap : heap (umem s) ts;
  ok_brk : brk s = lo + HDR * units ts;
  ok_freep : freep s ∈ base :: frees lo ts }.

(** The bytes of the blocks in [bs], headers apart, are the same. *)
Definition kept (bs : list (Z * Z)) (m m' : mem) : Prop :=
  forall a k, (a, k) ∈ bs -> forall x, a + HDR <= x < a + HDR * k -> ldb m' x = ldb m x.

Lemma kept_trans bs m m1 m2 : kept bs m m1 -> kept bs m1 m2 -> kept bs m m2.
Proof. intros H1 H2 a k Hin x Hx. rewrite (H2 a k Hin x Hx). apply (H1 a k Hin x Hx). Qed.
Lemma kept_sub bs bs' m m' : (forall b, b ∈ bs' -> b ∈ bs) -> kept bs m m' -> kept bs' m m'.
Proof. intros H K a k Hin. apply K, H, Hin. Qed.

Lemma allocs_split ts : forall a b k, (b, k) ∈ allocs a ts -> exists t1 t2, ts = t1 ++ (k, false) :: t2 /\ b = a + HDR * units t1.
Proof.
  induction ts as [|[k0 f] ts IH]; intros a b k H; cbn in H; [apply elem_of_nil in H; contradiction|]. apply elem_of_app in H as [H|H].
  - destruct f; [apply elem_of_nil in H; contradiction|]. apply list_elem_of_singleton in H. injection H as -> ->. exists [], ts. cbn. split; [reflexivity|lia].
  - destruct (IH _ _ _ H) as (t1 & t2 & -> & ->). exists ((k0, f) :: t1), t2. cbn. split; [reflexivity|lia].
Qed.
Lemma frees_split ts : forall a b, b ∈ frees a ts -> exists t1 k t2, ts = t1 ++ (k, true) :: t2 /\ b = a + HDR * units t1.
Proof.
  induction ts as [|[k0 f] ts IH]; intros a b H; cbn in H; [apply elem_of_nil in H; contradiction|]. apply elem_of_app in H as [H|H].
  - destruct f; [|apply elem_of_nil in H; contradiction]. apply list_elem_of_singleton in H. subst. exists [], k0, ts. cbn. split; [reflexivity|lia].
  - destruct (IH _ _ H) as (t1 & k & t2 & -> & ->). exists ((k0, f) :: t1), k, t2. cbn. split; [reflexivity|lia].
Qed.

Lemma allocs_range m ts a b k : sized m a ts -> (b, k) ∈ allocs a ts -> a <= b /\ 0 < k /\ b + HDR * k <= a + HDR * units ts.
Proof.
  intros Hs H. apply allocs_split in H as (t1 & t2 & -> & ->). apply sized_app in Hs as [Hs1 (_ & Hk & Hs2)].
  pose proof (sized_units _ _ _ Hs1). pose proof (sized_units _ _ _ Hs2). rewrite units_app. cbn [units]. unfold HDR in *. lia.
Qed.

(** Headers are outside the blocks handed out. *)
Lemma payload_sep m ts a k h x : base + HDR <= lo -> sized m lo ts -> (a, k) ∈ allocs lo ts -> h ∈ base :: starts lo ts ->
  a + HDR <= x < a + HDR * k -> ~ (h <= x < h + HDR).
Proof.
  intros Hb Hs Hin Hh Hx. apply allocs_split in Hin as (t1 & t2 & -> & ->). rewrite starts_app in Hh. cbn [starts] in Hh.
  apply sized_app in Hs as [Hs1 (Hk & Hk0 & Hs2)]. pose proof (sized_units _ _ _ Hs1).
  apply elem_of_cons in Hh as [->|Hh]; [unfold HDR in *; lia|]. apply elem_of_app in Hh as [Hh|Hh]; [pose proof (starts_range _ _ _ Hs1 h Hh); unfold HDR in *; lia|].
  apply elem_of_cons in Hh as [->|Hh]; [lia|]. pose proof (starts_range _ _ _ Hs2 h Hh). unfold HDR in *. lia.
Qed.

Lemma frees_length m ts : forall a, sized m a ts -> Z.of_nat (length (frees a ts)) <= units ts.
Proof.
  induction ts as [|[k f] ts IH]; intros a H; cbn; [lia|]. destruct H as (_ & Hk & H). specialize (IH _ H). rewrite length_app. destruct f; cbn; lia.
Qed.
Lemma fuel_ok ts s : heap_ok ts s -> (length (frees lo ts) + 2 <= heap_fuel s)%nat.
Proof.
  intros [[Hb He Hs _ _ _] Hk _]. pose proof (frees_length _ _ _ Hs). unfold heap_fuel. assert (units ts <= brk s / HDR); [|lia].
  apply Z.div_le_lower_bound; unfold HDR in *; lia.
Qed.

(** [free] of a block: the tile becomes free, merged with free neighbours. *)
Lemma free_tiles_ok ts s bp k : heap_ok ts s -> (bp, k) ∈ allocs lo ts -> wp (free_ (bp + HDR)) (fun _ s' =>
  exists ts', heap_ok ts' s' /\ brk s' = brk s /\ allocs lo ts ≡ₚ (bp, k) :: allocs lo ts' /\ kept (allocs lo ts') (umem s) (umem s') /\
    exists v, v ∈ frees lo ts' /\ k <= hsize (umem s') v) s.
Proof.
  intros Ho Hin. pose proof (fuel_ok _ _ Ho) as Hf. destruct Ho as [Hh Hbrk Hfp]. pose proof Hin as Hin'. apply allocs_split in Hin' as (t1 & t2 & -> & ->).
  pose proof (find_ok _ _ _ _ _ (heap_fuel s) Hh Hfp ltac:(lia)) as F. set (bp := lo + HDR * units t1) in *. set (p := lastn base (frees lo t1)) in *.
  destruct (free_mem_ok _ _ _ _ Hh) as (ts' & G1 & G2 & G3 & G4 & G5 & G6). fold bp p in G1, G3, G4, G5, G6.
  pose proof Hh as [Hb He Hs _ _ _]. pose proof (proj1 (sized_app _ _ _ _) Hs) as [Hs1 (_ & Hk0 & Hs2)]. pose proof (sized_units _ _ _ Hs1). pose proof (sized_units _ _ _ Hs2).
  rewrite units_app in He. cbn [units] in He.
  assert (Eb : u32 (bp + HDR - HDR) = bp) by (rewrite Z.add_simpl_r; apply u32_small; unfold bp, HDR, KERNBASE in *; lia).
  unfold wp. rewrite (free_run _ _ p) by (rewrite Eb; exact F). rewrite Eb. exists ts'. split; [split; [exact G1|cbn; rewrite G2; exact Hbrk|exact G4]|]. split; [reflexivity|].
  assert (Ep : allocs lo (t1 ++ (k, false) :: t2) ≡ₚ (bp, k) :: allocs lo ts').
  { rewrite G3, allocs_app. cbn [allocs app]. symmetry. apply Permutation_middle. }
  split; [exact Ep|]. split; [|exact G5]. intros a k' Ha x Hx. assert (Ha' : (a, k') ∈ allocs lo (t1 ++ (k, false) :: t2)) by (rewrite Ep; right; exact Ha).
  apply G6; (eapply payload_sep; [exact (proj2 Hb)|exact Hs|exact Ha'| |exact Hx]).
  - right. rewrite starts_app. apply elem_of_app. right. left.
  - pose proof (last_in (frees lo t1) base) as Hl. fold p in Hl. apply elem_of_cons in Hl as [->|Hl]; [left|right]. rewrite starts_app. apply elem_of_app. left. apply frees_starts, Hl.
Qed.

Lemma apart_snoc_false ts k : apart ts -> apart (ts ++ [(k, false)]).
Proof.
  intros H. destruct ts as [|[k1 f1] ts _] using rev_ind; [cbn; auto|]. rewrite <- app_assoc. apply apart_snoc. rewrite andb_false_r. auto.
Qed.

Lemma usbrk_up n s : 0 <= n -> usbrk n s = Ret (brk s, mkust (umem s) (freep s) (u32 (brk s + n))).
Proof. intros H. unfold usbrk. munfold. destruct (Z.ltb_spec n 0); [lia|reflexivity]. Qed.

(** [morecore]: a tile is added at the end and freed. *)
Lemma morecore_ok ts s nu : heap_ok ts s -> 0 < nu -> brk s + HDR * Z.max nu 4096 <= KERNBASE -> wp (morecore nu) (fun r s' =>
  r = freep s' /\ exists ts', heap_ok ts' s' /\ brk s' = brk s + HDR * Z.max nu 4096 /\ allocs lo ts' ≡ₚ allocs lo ts /\ kept (allocs lo ts) (umem s) (umem s') /\
    exists v, v ∈ frees lo ts' /\ nu <= hsize (umem s') v) s.
Proof.
  intros [[Hb He Hs Ha Hc Hz] Hbrk Hf] Hn Hmax. set (n := Z.max nu 4096) in *. unfold morecore.
  replace (if nu <? 4096 then 4096 else nu) with n by (unfold n; destruct (Z.ltb_spec nu 4096); lia).
  pose proof (sized_units _ _ _ Hs) as U. assert (Hn0 : 4096 <= n /\ nu <= n) by (unfold n; lia).
  assert (En : s32 (n * HDR) = HDR * n) by (rewrite s32_small; unfold HDR, KERNBASE in *; lia). rewrite En.
  apply wp_bind. unfold wp at 1. rewrite usbrk_up by (unfold HDR in *; lia). rewrite (u32_small (brk s + HDR * n)) by (unfold HDR, KERNBASE in *; lia).
  destruct (Z.eqb_spec (brk s) (u32 (-1))) as [E|_]; [change (u32 (-1)) with (2 ^ 32 - 1) in E; unfold KERNBASE, HDR in *; lia|].
  apply wp_bind, wp_modify. cbn [set_umem umem freep brk]. set (m1 := st32 (umem s) (brk s + 4) n).
  assert (O : only (brk s) (umem s) m1) by apply only_size.
  assert (E1 : hadd (brk s) 1 = brk s + HDR) by (unfold hadd; rewrite u32_small; unfold HDR, KERNBASE in *; lia). rewrite E1.
  assert (F : forall x, x ∈ base :: frees lo ts -> sep x (brk s) /\ x <> brk s).
  { intros x Hx. apply elem_of_cons in Hx as [->|Hx]; [unfold sep, HDR in *; lia|]. eapply frees_away; [exact Hs|right; lia|exact Hx]. }
  assert (Ef : frees lo (ts ++ [(n, false)]) = frees lo ts) by (rewrite frees_app; cbn; apply app_nil_r).
  assert (Ho : heap_ok (ts ++ [(n, false)]) (mkust m1 (freep s) (brk s + HDR * n))).
  { split; cbn [umem freep brk]; [split|rewrite units_app; cbn; lia|rewrite Ef; exact Hf].
    - exact Hb.
    - rewrite units_app. cbn. lia.
    - apply sized_app. split; [eapply only_sized; [exact O|exact Hs|lia]|]. rewrite <- Hbrk. cbn. split; [|unfold n; lia].
      unfold m1, hsize. rewrite ld32_st32_same. apply u32_small. unfold HDR, KERNBASE in *. lia.
    - apply apart_snoc_false, Ha.
    - rewrite Ef. eapply only_chain; [exact O|exact F|exact Hc].
    - rewrite (proj2 (only_node _ _ _ base O (proj1 (F base ltac:(left))) (proj2 (F base ltac:(left))))). exact Hz. }
  assert (Ea : allocs lo (ts ++ [(n, false)]) = allocs lo ts ++ [(brk s, n)]) by (rewrite allocs_app, Hbrk; reflexivity).
  apply wp_bind. eapply wp_mono; [apply (free_tiles_ok _ _ (brk s) n Ho); rewrite Ea; apply elem_of_app; right; left|].
  intros [] s' (ts' & Ho' & Hb' & Hp & Hk & v & Hv & Hv'). apply wp_gets. split; [reflexivity|]. exists ts'. split; [exact Ho'|]. split; [exact Hb'|].
  assert (Hp' : allocs lo ts' ≡ₚ allocs lo ts).
  { apply (Permutation_cons_inv (a := (brk s, n))). rewrite <- Hp, Ea. symmetry. apply Permutation_cons_append. }
  split; [exact Hp'|]. split; [|exists v; split; [exact Hv|unfold n in *; lia]]. eapply kept_trans; [|eapply kept_sub; [|exact Hk]; intros b; rewrite Hp'; auto].
  intros a k Hin x Hx. apply O. apply allocs_split in Hin as (t1 & t2 & -> & ->). apply sized_app in Hs as [_ (_ & _ & Hs2)].
  pose proof (sized_units _ _ _ Hs2). rewrite units_app in Hbrk. cbn in Hbrk. unfold HDR in *. lia.
Qed.

(** ** [malloc] *)

Lemma chain_next m L : forall p e u, chain m p L e -> u ∈ p :: L -> hptr m u ∈ L \/ hptr m u = e.
Proof.
  induction L as [|q L IH]; intros p e u H Hu; [apply list_elem_of_singleton in Hu as ->; auto|]. destruct H as [H1 H2].
  apply elem_of_cons in Hu as [->|Hu]; [left; rewrite H1; left|]. destruct (IH _ _ _ H2 Hu); [left; right|]; auto.
Qed.
Lemma chain_pred m F1 v F2 e : forall p u, chain m p (F1 ++ v :: F2) e -> NoDup (p :: F1 ++ v :: F2) -> e <> v ->
  u ∈ p :: F1 ++ v :: F2 -> hptr m u = v -> u = lastn p F1.
Proof.
  induction F1 as [|q F1 IH]; intros p u H Hn He Hu Hv; cbn [app chain lastn] in *; destruct H as [H1 H2]; apply NoDup_cons in Hn as [Hp Hn];
    (apply elem_of_cons in Hu as [->|Hu]).
  - reflexivity.
  - exfalso. destruct (chain_next _ _ _ _ _ H2 Hu) as [H|H]; [|congruence]. rewrite Hv in H. apply NoDup_cons in Hn as [Hn _]. auto.
  - exfalso. rewrite Hv in H1. subst q. apply NoDup_cons in Hn as [Hn _]. apply Hn, elem_of_app. right. left.
  - apply (IH q u); auto.
Qed.

(** The two ways to take a block of [n] units from a free one. *)
Lemma take_all m t1 n t2 : heap m (t1 ++ (n, true) :: t2) -> let v := lo + HDR * units t1 in let u := lastn base (frees lo t1) in
  heap (st32 m u (hptr m v)) (t1 ++ (n, false) :: t2) /\ u ∈ base :: frees lo (t1 ++ (n, false) :: t2).
Proof.
  intros [Hb He Hs Ha Hc Hz] v u. pose proof (nodes_sep _ _ (proj2 Hb) Hs) as Hsep. pose proof (nodes_sorted _ _ (proj2 Hb) Hs) as Hsort.
  assert (Hin : forall x, x ∈ base :: frees lo (t1 ++ (n, true) :: t2) -> x ∈ base :: starts lo (t1 ++ (n, true) :: t2)).
  { intros x Hx. apply elem_of_cons in Hx as [->|Hx]; [left|right]. apply frees_starts, Hx. }
  rewrite frees_app in *. cbn [frees app] in *. fold v in Hc, Hsort, Hin. apply chain_split in Hc as [C1 C2]. cbn [hd] in C1.
  assert (Hu : u ∈ base :: frees lo t1) by apply last_in.
  assert (Hu' : u ∈ base :: starts lo (t1 ++ (n, true) :: t2)) by (apply Hin; rewrite app_comm_cons; apply elem_of_app; auto).
  rewrite app_comm_cons in Hsort. apply StronglySorted_app in Hsort as (Hlt & S1 & S2).
  split; [|rewrite app_comm_cons; apply elem_of_app; left; exact Hu]. split.
  - exact Hb.
  - rewrite units_app in *. exact He.
  - assert (Hs' : sized (st32 m u (hptr m v)) lo (t1 ++ (n, true) :: t2)).
    { eapply sized_ext; [|exact Hs]. intros x Hx. apply hsize_set_ptr, Hsep; [right; exact Hx|exact Hu']. }
    rewrite sized_app in *. exact Hs'.
  - apply apart_mid in Ha as (Ha1 & _ & Ha2). apply apart_mid. cbn [andb]. split; [|auto]. apply apart_snoc_false.
    clear - Ha1. destruct t1 as [|[k1 f1] t1 _] using rev_ind; [exact I|]. rewrite <- app_assoc in Ha1. apply apart_snoc in Ha1. tauto.
  - rewrite frees_app. cbn [frees app]. fold v. apply chain_split. assert (Ev : hptr m v = hd base (frees (v + HDR * n) t2)).
    { clear - C2. destruct (frees _ t2); cbn in *; tauto. } split.
    + rewrite Ev. eapply chain_set_last; [| | |exact C1].
      * intros x y Hx Hy. apply Hsep; apply Hin; rewrite app_comm_cons; apply elem_of_app; auto.
      * apply sorted_nodup, S1.
      * rewrite <- Ev. apply ld32_range.
    + destruct (frees (v + HDR * n) t2) as [|q F2]; [exact I|]. cbn in C2. eapply links_ext; [|apply C2]. intros x Hx.
      rewrite hptr_set_ptr by (apply Hsep; [apply Hin; rewrite app_comm_cons; apply elem_of_app; right; right; exact Hx|exact Hu']).
      case_if; [|reflexivity]. subst x. specialize (Hlt u u Hu ltac:(right; exact Hx)). lia.
  - rewrite hsize_set_ptr; [exact Hz|]. apply Hsep; [left|exact Hu'].
Qed.

Lemma take_part m t1 k n t2 : heap m (t1 ++ (k, true) :: t2) -> 0 < n < k -> let v := lo + HDR * units t1 in let w := v + HDR * (k - n) in
  heap (st32 (st32 m (v + 4) (k - n)) (w + 4) n) (t1 ++ (k - n, true) :: (n, false) :: t2).
Proof.
  intros [Hb He Hs Ha Hc Hz] Hn v w. pose proof (nodes_sep _ _ (proj2 Hb) Hs) as Hsep.
  pose proof (proj1 (sized_app _ _ _ _) Hs) as [Hs1 Hs0]. fold v in Hs0. destruct Hs0 as (Hk & Hk0 & Hs2).
  rewrite units_app in He. cbn [units] in He. pose proof (sized_units _ _ _ Hs1). pose proof (sized_units _ _ _ Hs2).
  set (m1 := st32 m (v + 4) (k - n)). set (m2 := st32 m1 (w + 4) n).
  assert (O1 : only v m m1) by apply only_size. assert (O2 : only w m1 m2) by apply only_size.
  assert (Ew : w + HDR * n = v + HDR * k) by (unfold w; lia).
  assert (Ef : frees lo (t1 ++ (k - n, true) :: (n, false) :: t2) = frees lo (t1 ++ (k, true) :: t2)).
  { rewrite !frees_app. cbn [frees app]. fold v. fold w. rewrite Ew. reflexivity. }
  assert (Hw : forall x, x ∈ base :: starts lo (t1 ++ (k, true) :: t2) -> sep x w /\ x <> w).
  { intros x Hx. rewrite starts_app in Hx. cbn [starts] in Hx. fold v in Hx. apply elem_of_cons in Hx as [->|Hx]; [unfold sep, w, v, HDR in *; lia|].
    apply elem_of_app in Hx as [Hx|Hx]; [pose proof (starts_range _ _ _ Hs1 x Hx); unfold sep, w, v, HDR in *; lia|].
    apply elem_of_cons in Hx as [->|Hx]; [unfold sep, w, HDR; lia|]. pose proof (starts_range _ _ _ Hs2 x Hx). unfold sep, w, HDR in *. lia. }
  assert (Hv : v ∈ base :: starts lo (t1 ++ (k, true) :: t2)) by (right; rewrite starts_app; apply elem_of_app; right; left).
  split.
  - exact Hb.
  - rewrite units_app. cbn [units]. unfold HDR in *. lia.
  - apply sized_app. split; [eapply only_sized; [exact O2|eapply only_sized; [exact O1|exact Hs1|]|]; unfold w, v, HDR in *; lia|]. fold v. cbn [sized]. fold w. rewrite Ew.
    split; [rewrite (proj2 (only_node _ _ _ v O2 (proj1 (Hw v Hv)) (proj2 (Hw v Hv)))); unfold m1, hsize; rewrite ld32_st32_same; apply u32_small; unfold HDR, KERNBASE in *; lia|].
    split; [lia|]. split; [unfold m2, hsize; rewrite ld32_st32_same; apply u32_small; unfold HDR, KERNBASE in *; lia|]. split; [lia|].
    eapply only_sized; [exact O2|eapply only_sized; [exact O1|exact Hs2|]|]; unfold w, HDR in *; lia.
  - apply apart_mid in Ha as (Ha1 & _ & Ha2). apply apart_mid. split; [apply (apart_size _ k), Ha1|]. cbn. auto.
  - rewrite Ef. eapply links_ext; [|exact Hc]. intros x Hx.
    assert (Hx' : x ∈ base :: starts lo (t1 ++ (k, true) :: t2)) by (apply elem_of_cons in Hx as [->|Hx]; [left|right; apply frees_starts, Hx]).
    unfold m2, m1. rewrite !hptr_set_size; [reflexivity|apply Hsep; assumption|apply Hw, Hx'].
  - unfold m2, m1. rewrite hsize_set_size by (apply Hw; left). case_if; [subst; unfold w, v, HDR in *; lia|].
    rewrite hsize_set_size by (apply Hsep; [left|exact Hv]). case_if; [unfold v, HDR in *; lia|exact Hz].
Qed.

(** The result of taking [n] units: a new block, the others untouched. *)
Definition took (n : Z) (ts : tiles) (s : ust) (r : Z) (s' : ust) : Prop :=
  exists ts', heap_ok ts' s' /\ allocs lo ts' ≡ₚ (r - HDR, n) :: allocs lo ts /\ kept (allocs lo ts) (umem s) (umem s').

Lemma take_ok ts s n u v : heap_ok ts s -> 0 < n -> u ∈ base :: frees lo ts -> hptr (umem s) u = v -> v ∈ frees lo ts -> n <= hsize (umem s) v ->
  wp (malloc_take n u v) (took n ts s) s.
Proof.
  intros [Hh Hbrk Hf] Hn Hu Huv Hv Hk. pose proof Hv as Hv'. apply frees_split in Hv' as (t1 & k & t2 & -> & Ev).
  pose proof Hh as [Hb He Hs _ Hc _]. pose proof (proj1 (sized_app _ _ _ _) Hs) as [Hs1 Hs0]. rewrite <- Ev in Hs0. destruct Hs0 as (Ek & Hk0 & Hs2).
  rewrite Ek in Hk. pose proof (sized_units _ _ _ Hs1). pose proof (sized_units _ _ _ Hs2). rewrite units_app in He, Hbrk. cbn [units] in He, Hbrk.
  assert (Eu : u = lastn base (frees lo t1)).
  { pose proof (sorted_nodup _ (nodes_sorted _ _ (proj2 Hb) Hs)) as Hnd. rewrite frees_app in Hc, Hnd, Hu. cbn [frees app] in Hc, Hnd, Hu. rewrite <- Ev in *.
    eapply chain_pred; eauto. unfold HDR in *. lia. }
  assert (Hst : forall h, h ∈ base :: frees lo (t1 ++ (k, true) :: t2) -> h ∈ base :: starts lo (t1 ++ (k, true) :: t2)).
  { intros h Hh'. apply elem_of_cons in Hh' as [->|Hh']; [left|right; apply frees_starts, Hh']. }
  unfold malloc_take. apply wp_bind, wp_gets. rewrite Ek. destruct (Z.eqb_spec k n) as [->|Hne].
  - apply wp_bind, wp_bind, wp_modify, wp_pure, wp_bind, wp_modify, wp_pure. cbn [set_umem set_freep].
    destruct (take_all _ _ _ _ Hh) as [G1 G2]. rewrite <- Eu in G1, G2. rewrite <- Ev in G1.
    assert (Er : hadd v 1 - HDR = v) by (unfold hadd; rewrite u32_small; unfold HDR, KERNBASE in *; lia).
    exists (t1 ++ (n, false) :: t2). rewrite Er. split; [|split].
    + split; cbn; [exact G1|rewrite units_app; exact Hbrk|exact G2].
    + rewrite !allocs_app. cbn [allocs app]. rewrite <- Ev. symmetry. apply Permutation_middle.
    + intros a k' Ha x Hx. apply only_ptr. eapply payload_sep; [exact (proj2 Hb)|exact Hs|exact Ha|apply Hst, Hu|exact Hx].
  - pose proof (take_part _ _ _ n _ Hh ltac:(lia)) as G. rewrite <- Ev in G. set (w := v + HDR * (k - n)) in *.
    apply wp_bind, wp_bind, wp_modify, wp_bind, wp_gets. cbn [set_umem umem freep brk]. rewrite (u32_small (k - n)) by (unfold HDR, KERNBASE in *; lia).
    assert (Ew : hadd v (hsize (st32 (umem s) (v + 4) (k - n)) v) = w).
    { unfold hsize, hadd. rewrite ld32_st32_same, (u32_small (k - n)), u32_small; unfold HDR, KERNBASE in *; lia. }
    cbv zeta. rewrite Ew. apply wp_bind, wp_modify, wp_pure, wp_bind, wp_modify, wp_pure. cbn [set_umem set_freep umem freep brk].
    assert (Er : hadd w 1 - HDR = w) by (unfold hadd; rewrite u32_small; unfold w, HDR, KERNBASE in *; lia).
    exists (t1 ++ (k - n, true) :: (n, false) :: t2). rewrite Er. split; [|split].
    + split; cbn [umem freep brk set_umem set_freep]; [exact G|rewrite units_app; cbn [units]; unfold HDR in *; lia|].
      rewrite frees_app in *. cbn [frees app] in *. rewrite <- Ev in *. replace (v + HDR * (k - n) + HDR * n) with (v + HDR * k) by lia. exact Hu.
    + rewrite !allocs_app. cbn [allocs app]. rewrite <- Ev. fold w. replace (w + HDR * n) with (v + HDR * k) by (unfold w; lia). symmetry. apply Permutation_middle.
    + cbn [umem set_umem set_freep]. intros a k' Ha x Hx. rewrite (only_size w), (only_size v); [reflexivity| |].
      * eapply payload_sep; [exact (proj2 Hb)|exact Hs|exact Ha|apply Hst; right; exact Hv|exact Hx].
      * rewrite allocs_app in Ha. cbn [allocs app] in Ha. rewrite <- Ev in Ha.
        apply elem_of_app in Ha as [Ha|Ha]; [pose proof (allocs_range _ _ _ _ _ Hs1 Ha)|pose proof (allocs_range _ _ _ _ _ Hs2 Ha)]; unfold w, HDR in *; lia.
Qed.

Lemma loop_step f n prevp p s : malloc_loop (S f) n prevp p s =
  if hsize (umem s) p >=? n then malloc_take n prevp p s
  else if p =? freep s then (r <- morecore n ;; if r =? 0 then ret 0 else m <- gets umem ;; malloc_loop f n r (hptr m r)) s
  else malloc_loop f n p (hptr (umem s) p) s.
Proof. cbn [malloc_loop]. unfold bind at 1, get at 1. destruct (_ >=? _); [reflexivity|]. destruct (_ =? _); reflexivity. Qed.

(** Going around the list: either a block is big enough, or all are too small and
    [morecore] is called. *)
Lemma walk n fuel s V : forall prevp e, chain (umem s) prevp V e -> V <> [] -> lastn prevp V = freep s -> NoDup V ->
  (exists u v, u ∈ prevp :: V /\ v ∈ V /\ hptr (umem s) u = v /\ n <= hsize (umem s) v /\
     malloc_loop (length V + fuel) n prevp (hd 0 V) s = malloc_take n u v s) \/
  ((forall v, v ∈ V -> hsize (umem s) v < n) /\
     malloc_loop (length V + fuel) n prevp (hd 0 V) s =
       (r <- morecore n ;; if r =? 0 then ret 0 else m <- gets umem ;; malloc_loop fuel n r (hptr m r)) s).
Proof.
  induction V as [|p V IH]; intros prevp e Hc Hne Hl Hn; [congruence|]. destruct Hc as [H1 H2]. cbn [length plus hd lastn] in *.
  rewrite loop_step. destruct (hsize (umem s) p >=? n) eqn:E.
  { left. exists prevp, p. split; [left|]. split; [left|]. split; [exact H1|]. split; [lia|reflexivity]. }
  apply NoDup_cons in Hn as [Hp Hn]. destruct V as [|q V].
  - cbn in Hl. destruct (Z.eqb_spec p (freep s)) as [_|]; [|contradiction]. right. split; [|reflexivity]. intros v Hv. apply list_elem_of_singleton in Hv as ->. lia.
  - destruct (Z.eqb_spec p (freep s)) as [Ep|_].
    { exfalso. apply Hp. rewrite Ep, <- Hl. apply (last_in V q). }
    destruct H2 as [H2 H3]. rewrite H2. change q with (hd 0 (q :: V)) at 2 4. destruct (IH p e (conj H2 H3) ltac:(discriminate) Hl Hn) as [(u & v & Hu & Hv & G)|[G1 G2]].
    + left. exists u, v. split; [right; exact Hu|]. split; [right; exact Hv|exact G].
    + right. split; [|exact G2]. intros v Hv. apply elem_of_cons in Hv as [->|Hv]; [lia|auto].
Qed.

(** The nodes in the order in which a search visits them. *)
Lemma around ts s : heap_ok ts s -> exists V, V ≡ₚ base :: frees lo ts /\ chain (umem s) (freep s) V (hptr (umem s) (freep s)) /\
  V <> [] /\ lastn (freep s) V = freep s /\ NoDup V /\ hd 0 V = hptr (umem s) (freep s).
Proof.
  intros [[Hb He Hs _ Hc _] _ Hf]. pose proof (sorted_nodup _ (nodes_sorted _ _ (proj2 Hb) Hs)) as Hn.
  apply list_elem_of_split in Hf as (A & B & E). pose proof (chain_rotate _ _ _ _ _ _ Hc E) as R. set (f := freep s) in *.
  assert (P : (B ++ A) ++ [f] ≡ₚ base :: frees lo ts).
  { rewrite E, <- app_assoc, (Permutation_app_comm B). rewrite <- app_assoc. cbn. reflexivity. }
  assert (C : chain (umem s) f ((B ++ A) ++ [f]) (hptr (umem s) f)) by (apply chain_split; split; [exact R|reflexivity]).
  exists ((B ++ A) ++ [f]). split; [exact P|]. split; [exact C|]. split; [intros H; apply app_eq_nil in H as [_ H]; discriminate|].
  split; [apply lastn_app|]. split; [rewrite P; exact Hn|]. clear - C. destruct ((B ++ A) ++ [f]) as [|q V] eqn:E; [apply app_eq_nil in E as [_ E]; discriminate|].
  destruct C as [C _]. cbn. congruence.
Qed.

(** A search that will succeed. *)
Lemma search_ok ts s n fuel v : heap_ok ts s -> 0 < n -> v ∈ frees lo ts -> n <= hsize (umem s) v -> (length (frees lo ts) < fuel)%nat ->
  wp (malloc_loop fuel n (freep s) (hptr (umem s) (freep s))) (took n ts s) s.
Proof.
  intros Ho Hn Hv Hk Hfu. destruct (around _ _ Ho) as (V & P & C & Hne & Hl & Hnd & Eh). pose proof (Permutation_length P) as L. cbn in L.
  rewrite <- Eh. replace fuel with (length V + (fuel - length V))%nat by lia.
  destruct (walk n (fuel - length V) s V _ _ C Hne Hl Hnd) as [(u & w & Hu & Hw & Euw & Hkw & E)|[G _]].
  - unfold wp. rewrite E. apply (take_ok ts s n u w Ho Hn); auto.
    + apply elem_of_cons in Hu as [->|Hu]; [apply Ho|]. rewrite P in Hu. exact Hu.
    + rewrite P in Hw. apply elem_of_cons in Hw as [->|Hw]; [|exact Hw]. pose proof (h_zero _ _ (ok_heap _ _ Ho)). lia.
  - exfalso. specialize (G v ltac:(rewrite P; right; exact Hv)). lia.
Qed.

Lemma malloc_loop_ok ts s n : heap_ok ts s -> 0 < n -> brk s + HDR * Z.max n 4096 <= KERNBASE ->
  wp (malloc_loop (2 * heap_fuel s + Z.to_nat (Z.max n 4096)) n (freep s) (hptr (umem s) (freep s))) (took n ts s) s.
Proof.
  intros Ho Hn Hmax. pose proof (fuel_ok _ _ Ho) as Hf. destruct (around _ _ Ho) as (V & P & C & Hne & Hl & Hnd & Eh). pose proof (Permutation_length P) as L. cbn in L.
  set (fuel := (2 * heap_fuel s + Z.to_nat (Z.max n 4096))%nat) in *. rewrite <- Eh. replace fuel with (length V + (fuel - length V))%nat by lia.
  destruct (walk n (fuel - length V) s V _ _ C Hne Hl Hnd) as [(u & w & Hu & Hw & Euw & Hkw & E)|[_ E]].
  - unfold wp. rewrite E. apply (take_ok ts s n u w Ho Hn); auto.
    + apply elem_of_cons in Hu as [->|Hu]; [apply Ho|]. rewrite P in Hu. exact Hu.
    + rewrite P in Hw. apply elem_of_cons in Hw as [->|Hw]; [|exact Hw]. pose proof (h_zero _ _ (ok_heap _ _ Ho)). lia.
  - unfold wp. rewrite E. apply wp_bind. eapply wp_mono; [apply (morecore_ok ts s n Ho Hn Hmax)|]. intros r s1 (-> & ts1 & Ho1 & Hb1 & P1 & K1 & v & Hv & Hkv).
    assert (Hfp : freep s1 <> 0).
    { destruct Ho1 as [[Hb He Hs _ _ _] _ Hfp]. apply elem_of_cons in Hfp as [->|Hfp]; [lia|]. pose proof (starts_range _ _ _ Hs _ (frees_starts _ _ _ Hfp)). unfold HDR in *. lia. }
    destruct (Z.eqb_spec (freep s1) 0) as [|_]; [contradiction|]. apply wp_bind, wp_gets.
    eapply wp_mono; [apply (search_ok ts1 s1 n _ v Ho1 Hn Hv Hkv)|].
    + pose proof (fuel_ok _ _ Ho1) as Hf1. unfold fuel, heap_fuel in *. rewrite Hb1 in Hf1.
      replace ((brk s + HDR * Z.max n 4096) / HDR) with (brk s / HDR + Z.max n 4096) in Hf1 by (rewrite (Z.mul_comm HDR), Z.div_add by discriminate; reflexivity). lia.
    + intros r s' (ts' & Ho' & Pa & Ka). exists ts'. split; [exact Ho'|]. split; [rewrite Pa, P1; reflexivity|].
      eapply kept_trans; [exact K1|]. eapply kept_sub; [|exact Ka]. intros b. rewrite P1. auto.
Qed.

(** Before the first [malloc] the list is not set up. *)
Definition alive (ts : tiles) (s : ust) : Prop :=
  heap_ok ts s \/ (ts = [] /\ freep s = 0 /\ brk s = lo /\ 0 < base /\ base + HDR <= lo /\ lo <= KERNBASE).

Lemma nunits_pos n : 0 < nunits_for n.
Proof. unfold nunits_for. pose proof (u32_range (n + HDR - 1)). pose proof (Z.div_pos (u32 (n + HDR - 1)) HDR). unfold HDR in *. lia. Qed.

Lemma malloc_ok ts s nbytes : alive ts s -> brk s + HDR * Z.max (nunits_for nbytes) 4096 <= KERNBASE ->
  wp (malloc base nbytes) (took (nunits_for nbytes) ts s) s.
Proof.
  intros Ha Hmax. unfold malloc. set (n := nunits_for nbytes) in *. pose proof (nunits_pos nbytes) as Hn. fold n in Hn. apply wp_bind, wp_gets. apply wp_bind.
  destruct Ha as [Ho|(-> & Hf & Hbrk & Hb0 & Hb & Hlo)].
  - assert (Hfp : freep s <> 0).
    { destruct Ho as [[Hb He Hs _ _ _] _ Hfp]. apply elem_of_cons in Hfp as [->|Hfp]; [lia|]. pose proof (starts_range _ _ _ Hs _ (frees_starts _ _ _ Hfp)). unfold HDR in *. lia. }
    destruct (Z.eqb_spec (freep s) 0) as [|_]; [contradiction|]. apply wp_pure, wp_bind, wp_gets. apply malloc_loop_ok; assumption.
  - rewrite Hf, Z.eqb_refl. apply wp_bind, wp_modify, wp_bind, wp_modify, wp_bind, wp_modify, wp_pure, wp_bind, wp_gets. cbn [umem set_umem set_freep freep brk].
    match goal with |- wp _ _ ?st => set (s1 := st) end. assert (Ho : heap_ok [] s1).
    { unfold s1. split; cbn [umem freep brk set_umem set_freep]; [split|cbn; lia|left]; cbn [units sized apart frees chain]; auto; [lia| |].
      - rewrite hptr_set_size by (left; reflexivity). unfold hptr. rewrite ld32_st32_same. apply u32_small. unfold HDR, KERNBASE in *. lia.
      - unfold hsize. rewrite ld32_st32_same. reflexivity. }
    eapply wp_mono; [apply (malloc_loop_ok [] s1 n Ho Hn Hmax)|]. intros r s' (ts' & Ho' & P & K). exists ts'. split; [exact Ho'|]. split; [exact P|].
    intros a k H. apply elem_of_nil in H. contradiction.
Qed.

(** ** A store of blocks *)

Lemma allocs_keys m ts : forall a, sized m a ts -> NoDup (allocs a ts).*1.
Proof.
  induction ts as [|[k f] ts IH]; intros a H; cbn; [constructor|]. destruct H as (_ & Hk & H). rewrite fmap_app. destruct f; cbn; [apply (IH _ H)|].
  constructor; [|apply (IH _ H)]. intros Hin. apply list_elem_of_fmap in Hin as ([b k'] & -> & Hin). pose proof (allocs_range _ _ _ _ _ H Hin). cbn in *. unfold HDR in *. lia.
Qed.

Lemma allocs_disjoint m ts a k a' k' : sized m lo ts -> (a, k) ∈ allocs lo ts -> (a', k') ∈ allocs lo ts -> a <> a' ->
  a + HDR * k <= a' \/ a' + HDR * k' <= a.
Proof.
  intros Hs H H' Hne. apply allocs_split in H as (t1 & t2 & -> & ->). rewrite allocs_app in H'. cbn [allocs app] in H'. apply sized_app in Hs as [Hs1 (_ & Hk & Hs2)].
  apply elem_of_app in H' as [H'|H']; [right; apply (allocs_range _ _ _ _ _ Hs1 H')|]. apply elem_of_cons in H' as [H'|H']; [congruence|].
  left. apply (allocs_range _ _ _ _ _ Hs2 H').
Qed.

Lemma alive_sized ts s : alive ts s -> sized (umem s) lo ts /\ base + HDR <= lo /\ lo + HDR * units ts = brk s /\ brk s <= KERNBASE.
Proof.
  intros [[[Hb He Hs _ _ _] Hbrk _]|(-> & _ & Hbrk & _ & Hb & Hl)]; cbn; [|unfold HDR in *; lia]. rewrite Hbrk. tauto.
Qed.

(** A store of blocks: from the address [malloc] returned to the bytes in it. *)
Abbreviation store := (gmap Z (list Z)).

Record holds (ts : tiles) (s : ust) (B : store) : Prop := mkholds {
  ho_alive : alive ts s;
  ho_block : forall p bs, B !! p = Some bs -> (p - HDR, nunits_for (Z.of_nat (length bs))) ∈ allocs lo ts /\
    Z.of_nat (length bs) < 2 ^ 31 /\ forall i b, bs !! i = Some b -> ldb (umem s) (p + Z.of_nat i) = b;
  ho_all : forall a k, (a, k) ∈ allocs lo ts -> is_Some (B !! (a + HDR)) }.

Lemma nunits_fit n : 0 <= n < 2 ^ 31 -> n <= HDR * (nunits_for n - 1) < n + HDR.
Proof. intros H. unfold nunits_for. rewrite u32_small by (unfold HDR; lia). unfold HDR. Z.to_euclidean_division_equations. lia. Qed.

Definition room (nbytes : Z) (s : ust) : Prop :=
  0 <= nbytes < 2 ^ 31 /\ brk s + HDR * Z.max (nunits_for nbytes) 4096 <= KERNBASE.

Lemma malloc_holds ts s B nbytes : holds ts s B -> room nbytes s -> wp (malloc base nbytes) (fun p s' =>
  B !! p = None /\ p <> 0 /\ exists ts' bs, Z.of_nat (length bs) = nbytes /\ holds ts' s' (<[p := bs]> B)) s.
Proof.
  intros [Ha Hb Hall] [Hn Hr]. eapply wp_mono; [apply (malloc_ok ts s nbytes Ha Hr)|]. intros p s' (ts' & Ho' & P & K).
  set (k := nunits_for nbytes) in *. pose proof Ho' as [[Hb' _ Hs' _ _ _] _ _].
  assert (Hnew : forall k', (p - HDR, k') ∉ allocs lo ts).
  { intros k' Hin. pose proof (allocs_keys _ _ _ Hs') as Hnd. rewrite P in Hnd. cbn in Hnd. apply NoDup_cons in Hnd as [Hnd _]. apply Hnd.
    apply list_elem_of_fmap. exists (p - HDR, k'). auto. }
  assert (HB : B !! p = None) by (destruct (B !! p) as [bs|] eqn:E; [destruct (Hb p bs E) as [H _]; elim (Hnew _ H)|reflexivity]).
  split; [exact HB|]. split; [pose proof (allocs_range _ _ _ (p - HDR) k Hs' ltac:(rewrite P; left)); unfold HDR in *; lia|].
  exists ts', ((fun i => ldb (umem s') (p + Z.of_nat i)) <$> seq 0 (Z.to_nat nbytes)). split; [rewrite length_fmap, length_seq; lia|]. split.
  - left. exact Ho'.
  - intros q bs Hq. destruct (decide (q = p)) as [->|Hne].
    + rewrite lookup_insert_eq in Hq. injection Hq as <-. rewrite length_fmap, length_seq, Z2Nat.id by lia. fold k. split; [rewrite P; left|]. split; [lia|].
      intros i b Hi. apply list_lookup_fmap_Some in Hi as (j & -> & Hj). apply lookup_seq in Hj as [-> _]. reflexivity.
    + rewrite lookup_insert_ne in Hq by congruence. destruct (Hb q bs Hq) as (H1 & H2 & H3). split; [rewrite P; right; exact H1|]. split; [exact H2|].
      intros i b Hi. rewrite <- (H3 i b Hi). apply (K _ _ H1). apply lookup_lt_Some in Hi. pose proof (nunits_fit (Z.of_nat (length bs)) ltac:(lia)). unfold HDR in *. lia.
  - intros a k' Hin. rewrite P in Hin. apply elem_of_cons in Hin as [Hin|Hin].
    + injection Hin as -> _. rewrite Z.sub_add, lookup_insert_eq. eauto.
    + apply lookup_insert_is_Some'. right. apply (Hall _ _ Hin).
Qed.

Lemma free_holds ts s B p bs : holds ts s B -> B !! p = Some bs -> wp (free_ p) (fun _ s' => exists ts', holds ts' s' (delete p B)) s.
Proof.
  intros [Ha Hb Hall] Hp. destruct (Hb p bs Hp) as (Hin & _ & _). set (k := nunits_for _) in Hin.
  destruct Ha as [Ho|(-> & _)]; [|apply elem_of_nil in Hin; contradiction]. pose proof (h_sized _ _ (ok_heap _ _ Ho)) as Hs.
  pose proof (free_tiles_ok ts s (p - HDR) k Ho Hin) as W. rewrite Z.sub_add in W. eapply wp_mono; [exact W|].
  intros [] s' (ts' & Ho' & _ & P & K & _). exists ts'.
  assert (Hgone : forall k', (p - HDR, k') ∉ allocs lo ts').
  { intros k' H. pose proof (allocs_keys _ _ _ Hs) as Hnd. rewrite P in Hnd. cbn in Hnd. apply NoDup_cons in Hnd as [Hnd _]. apply Hnd.
    apply list_elem_of_fmap. exists (p - HDR, k'). auto. }
  split; [left; exact Ho'| |].
  - intros q cs Hq. apply lookup_delete_Some in Hq as [Hne Hq]. destruct (Hb q cs Hq) as (H1 & H2 & H3).
    rewrite P in H1. apply elem_of_cons in H1 as [H1|H1]; [injection H1 as H1 _; lia|]. split; [exact H1|]. split; [exact H2|].
    intros i b Hi. rewrite <- (H3 i b Hi). apply (K _ _ H1). apply lookup_lt_Some in Hi. pose proof (nunits_fit (Z.of_nat (length cs)) ltac:(lia)). unfold HDR in *. lia.
  - intros a k' H. destruct (decide (a + HDR = p)) as [<-|Hne]; [elim (Hgone k'); rewrite Z.add_simpl_r; exact H|].
    rewrite lookup_delete_ne by congruence. apply (Hall a k'). rewrite P. right. exact H.
Qed.

Lemma heap_other m ts x v : heap m ts -> (forall h, h ∈ base :: starts lo ts -> ~ (h <= x < h + HDR)) -> heap (stb m x v) ts.
Proof.
  intros [Hb He Hs Ha Hc Hz] Hx.
  assert (E : forall h, h ∈ base :: starts lo ts -> hptr (stb m x v) h = hptr m h /\ hsize (stb m x v) h = hsize m h).
  { intros h Hh. specialize (Hx h Hh). unfold HDR in Hx. split; apply ld32_ext; intros y Hy; apply ldb_stb_ne; lia. }
  split; auto.
  - eapply sized_ext; [|exact Hs]. intros h Hh. apply E. right. exact Hh.
  - eapply links_ext; [|exact Hc]. intros h Hh. apply E. apply elem_of_cons in Hh as [->|Hh]; [left|right; apply frees_starts, Hh].
  - rewrite <- Hz. apply E. left.
Qed.

(** The program writes byte [i] of a block. *)
Lemma write_holds ts s B p bs i v : holds ts s B -> B !! p = Some bs -> (i < length bs)%nat ->
  holds ts (set_umem (stb (umem s) (p + Z.of_nat i) v) s) (<[p := <[i := u8 v]> bs]> B).
Proof.
  intros [Ha Hb Hall] Hp Hi. destruct (Hb p bs Hp) as (Hin & Hl & Hby). pose proof (nunits_fit (Z.of_nat (length bs)) ltac:(lia)) as Hfit.
  pose proof (alive_sized _ _ Ha) as (Hs & Hbl & _ & _). split.
  - destruct Ha as [[Hh Hbrk Hf]|(-> & _)]; [left|apply elem_of_nil in Hin; contradiction]. split; auto. cbn. apply heap_other; [exact Hh|].
    intros h Hh'. eapply payload_sep; [exact Hbl|exact Hs|exact Hin|exact Hh'|]. unfold HDR in *. lia.
  - intros q cs Hq. destruct (decide (q = p)) as [->|Hne].
    + rewrite lookup_insert_eq in Hq. injection Hq as <-. rewrite length_insert. split; [exact Hin|]. split; [exact Hl|]. intros j b Hj. cbn.
      rewrite ldb_stb. case_if; [assert (j = i) as -> by lia; rewrite list_lookup_insert_eq in Hj by exact Hi; congruence|].
      rewrite list_lookup_insert_ne in Hj by lia. apply Hby, Hj.
    + rewrite lookup_insert_ne in Hq by congruence. destruct (Hb q cs Hq) as (H1 & H2 & H3). split; [exact H1|]. split; [exact H2|].
      intros j b Hj. cbn. rewrite <- (H3 j b Hj). apply ldb_stb_ne. apply lookup_lt_Some in Hj. pose proof (nunits_fit (Z.of_nat (length cs)) ltac:(lia)).
      pose proof (allocs_disjoint _ _ _ _ _ _ Hs Hin H1 ltac:(lia)). unfold HDR in *. lia.
  - intros a k H. apply lookup_insert_is_Some'. right. apply (Hall a k H).
Qed.

Lemma holds_disjoint ts s B p q bs cs : holds ts s B -> B !! p = Some bs -> B !! q = Some cs -> p <> q ->
  p + Z.of_nat (length bs) <= q \/ q + Z.of_nat (length cs) <= p.
Proof.
  intros [Ha Hb _] Hp Hq Hne. destruct (Hb p bs Hp) as (H1 & H2 & _). destruct (Hb q cs Hq) as (H3 & H4 & _).
  destruct (alive_sized _ _ Ha) as (Hs & _). pose proof (allocs_disjoint _ _ _ _ _ _ Hs H1 H3 ltac:(lia)).
  pose proof (nunits_fit (Z.of_nat (length bs)) ltac:(lia)). pose proof (nunits_fit (Z.of_nat (length cs)) ltac:(lia)). unfold HDR in *. lia.
Qed.

Lemma holds_inside ts s B p bs : holds ts s B -> B !! p = Some bs -> lo + HDR <= p /\ p + Z.of_nat (length bs) <= brk s.
Proof.
  intros [Ha Hb _] Hp. destruct (Hb p bs Hp) as (H1 & H2 & _). destruct (alive_sized _ _ Ha) as (Hs & _ & E & _).
  pose proof (allocs_range _ _ _ _ _ Hs H1). pose proof (nunits_fit (Z.of_nat (length bs)) ltac:(lia)). unfold HDR in *. lia.
Qed.

(** The heap of [s] is well formed and holds exactly the blocks [B]. *)
Definition store_ok (s : ust) (B : store) : Prop := exists ts, holds ts s B.

(** C25: The allocator is a store of blocks. In a process whose blocks handed out and not yet freed are [B] and whose heap may grow below KERNBASE, [malloc(n)] returns, with an address that is not null and not in use, and the store gains a block of [n] bytes there; [free] of a block returns and removes exactly that block; writing into a block changes that byte of that block only; all other blocks keep their bytes throughout. Blocks do not overlap and lie inside the heap. *)
Theorem malloc_free_store (s : ust) (B : store) : store_ok s B ->
  (forall n, room n s -> wp (malloc base n) (fun p s' => p <> 0 /\ B !! p = None /\
     exists bs, Z.of_nat (length bs) = n /\ store_ok s' (<[p := bs]> B)) s) /\
  (forall p bs, B !! p = Some bs ->
     wp (free_ p) (fun _ s' => store_ok s' (delete p B)) s /\
     (forall i v, (i < length bs)%nat -> store_ok (set_umem (stb (umem s) (p + Z.of_nat i) v) s) (<[p := <[i := u8 v]> bs]> B)) /\
     (forall i b, bs !! i = Some b -> ldb (umem s) (p + Z.of_nat i) = b) /\
     lo + HDR <= p /\ p + Z.of_nat (length bs) <= brk s /\
     forall q cs, B !! q = Some cs -> p <> q -> p + Z.of_nat (length bs) <= q \/ q + Z.of_nat (length cs) <= p).
Proof.
  intros [ts H]. split.
  - intros n Hr. eapply wp_mono; [apply (malloc_holds ts s B n H Hr)|]. intros p s' (H1 & H2 & ts' & bs & H3 & H4). split; [exact H2|]. split; [exact H1|].
    exists bs. split; [exact H3|]. exists ts'. exact H4.
  - intros p bs Hp. split; [eapply wp_mono; [apply (free_holds ts s B p bs H Hp)|]; intros [] s' [ts' H']; exists ts'; exact H'|].
    split; [intros i v Hi; exists ts; apply write_holds; assumption|]. split; [apply (ho_block _ _ _ H p bs Hp)|].
    destruct (holds_inside _ _ _ _ _ H Hp). split; [assumption|]. split; [assumption|]. intros q cs Hq Hne. eapply holds_disjoint; eauto.
Qed.

Lemma no_allocs_tiles a ts : apart ts -> allocs a ts = [] -> ts = [] \/ exists k, ts = [(k, true)].
Proof.
  destruct ts as [|[k f] ts]; [auto|]. cbn. intros [H1 _] H. destruct f; [|discriminate]. right. exists k. destruct ts as [|[k' f'] ts]; [reflexivity|].
  cbn in *. subst f'. cbn in H. discriminate.
Qed.

(** Freed memory is merged completely. When every block has been freed, in whatever order, the free list is a single block of all the memory the heap ever got, linked with [base]. *)
Theorem heap_coalesces (s : ust) : store_ok s ∅ -> lo < brk s ->
  hptr (umem s) base = lo /\ hptr (umem s) lo = base /\ HDR * hsize (umem s) lo = brk s - lo.
Proof.
  intros [ts [Ha _ Hall]] Hlt. assert (E : allocs lo ts = []).
  { destruct (allocs lo ts) as [|[a k] l] eqn:E; [reflexivity|]. destruct (Hall a k ltac:(left)) as [bs Hbs]. rewrite lookup_empty in Hbs. discriminate. }
  destruct Ha as [[[Hb He Hs Hap Hc Hz] Hbrk Hf]|(-> & _ & Hbrk & _)]; [|lia].
  destruct (no_allocs_tiles lo ts Hap E) as [->|[k ->]]; cbn in *; [lia|]. destruct Hc as [Hc1 Hc2]. destruct Hs as [Hk _]. rewrite Hk.
  split; [exact Hc1|]. split; [exact Hc2|]. lia.
Qed.
End Heap.

(** ** Examples *)

(** A process of three pages with [base] in its data segment. *)
Definition fresh : ust := mkust ∅ 0 0x3000.

Lemma fresh_ok : store_ok 0x2000 0x3000 fresh ∅.
Proof.
  exists []. split; [right; split; [reflexivity|cbn; unfold HDR, KERNBASE; lia]|intros p bs H; rewrite lookup_empty in H; discriminate|intros a k H; apply elem_of_nil in H; contradiction].
Qed.

Lemma malloc_free_store_witness : wp (malloc 0x2000 100) (fun p s' => p <> 0 /\
  exists bs, Z.of_nat (length bs) = 100 /\ store_ok 0x2000 0x3000 s' (<[p := bs]> ∅)) fresh.
Proof.
  eapply wp_mono; [apply (proj1 (malloc_free_store 0x2000 0x3000 fresh ∅ fresh_ok) 100); split; [lia|vm_compute; discriminate]|].
  cbv beta. intros p s' (H1 & _ & H2). split; [exact H1|exact H2].
Defined.

(** Three blocks, freed out of order. *)
Definition three_blocks : M ust unit :=
  a <- malloc 0x2000 100 ;; b <- malloc 0x2000 8 ;; c <- malloc 0x2000 5000 ;;
  free_ b ;;; free_ a ;;; free_ c.

Lemma three_blocks_run : exists s, three_blocks fresh = Ret (tt, s) /\ store_ok 0x2000 0x3000 s ∅ /\ brk s = 0x3000 + 0x8000.
Proof.
  set (s := match three_blocks fresh with Ret (_, s) => s | _ => fresh end). exists s. split; [vm_compute; reflexivity|]. split; [|vm_compute; reflexivity].
  exists [(4096, true)]. split; [left|intros p bs H; rewrite lookup_empty in H; discriminate|intros a k H; apply elem_of_nil in H; contradiction].
  split; [split|vm_compute; reflexivity|]; try (vm_compute; repeat split; congruence). right. vm_compute. left.
Qed.

Lemma heap_coalesces_witness : exists s, three_blocks fresh = Ret (tt, s) /\ hptr (umem s) 0x2000 = 0x3000 /\ hsize (umem s) 0x3000 = 4096.
Proof.
  destruct three_blocks_run as (s & E & Ho & Hb). exists s. split; [exact E|].
  destruct (heap_coalesces 0x2000 0x3000 s Ho ltac:(rewrite Hb; reflexivity)) as (H1 & _ & H3). split; [exact H1|]. rewrite Hb in H3. unfold HDR in H3. lia.
Defined.

(** The size computation wraps around: a request for all of memory is answered with
    a block that has no byte at all. *)
Lemma malloc_huge_wraps : wp (malloc 0x2000 (2 ^ 32 - 1)) (fun p s' => p <> 0 /\ hsize (umem s') (p - HDR) = 1) fresh.
Proof. vm_compute. split; [discriminate|reflexivity]. Qed.
