(* ===== verification/Net.v ===== *)
(** * The network

    Models the protocols (src/xv6/eth.c, arp.c, ipv4.c, icmp.c, tcp.c, http.c) and
    the sending side of the card's driver ([i8254_send] and the loop of
    [i8254_init_send] that gives the ring its buffers, src/xv6/i8254.c).

    Packets are bytes in memory at the offsets of the packed structures of
    src/xv6/pkts_hdr.h.  The card is its transmit registers and descriptors; the
    global arrays are lists of bytes.  What is printed on the console is left
    out. *)

From S2P Require Import Prelude Mem Mmu Kalloc.
Local Open Scope Z_scope.

(** ** Bytes and words *)

Definition ld16 (m : mem) (a : Z) : Z := ldb m a + 2 ^ 8 * ldb m (a + 1).
Definition st16 (m : mem) (a v : Z) : mem := stb (stb m a v) (a + 1) (Z.shiftr v 8).
Definition bytes_at (m : mem) (a : Z) (n : nat) : list Z := (fun i => ldb m (a + Z.of_nat i)) <$> seq 0 n.
(** [memmove] from a global array. *)
Fixpoint put_bytes (m : mem) (a : Z) (l : list Z) : mem :=
  match l with [] => m | b :: l' => put_bytes (stb m a b) (a + 1) l' end.

Definition N2H_ushort (v : Z) : Z := u16 (Z.shiftl (Z.land v 0xFF) 8 + Z.shiftr v 8).
Definition H2N_ushort (v : Z) : Z := u16 (Z.shiftl (Z.land v 0xFF) 8 + Z.shiftr v 8).
Definition H2N_uint (v : Z) : Z :=
  u32 (Z.shiftl (Z.land v 0xF) 24 + Z.shiftl (Z.land v 0xF0) 8 + Z.shiftr (Z.land v 0xF00) 8 + Z.shiftr (Z.land v 0xF000) 24).
Definition N2H_uint (v : Z) : Z :=
  u32 (Z.shiftl (Z.land v 0xFF) 24 + Z.shiftl (Z.land v 0xFF00) 8 + Z.shiftr (Z.land v 0xFF0000) 8 + Z.shiftr (Z.land v 0xFF000000) 24).

(** ** State *)

Definition I8254_SEND_DESC_NUM : Z := 256.
Record send_desc := mkdesc { d_buf_addr : Z; d_len : Z; d_cso : Z; d_cmd : Z; d_sta : Z; d_css : Z; d_special : Z }.

Definition ARP_TABLE_MAX : nat := 64.
Record arp_entry := mkarp { a_ip : list Z; a_mac : list Z; a_use : Z }.

(** Memory and its allocator; the transmit head and tail registers and the ring;
    [mac_addr], [my_ip], [arp_table], [ip_id], [send_id], [seq_num], [fin_flag]. *)
Record net := mknet {
  nk : kmem; tdh : Z; tdt : Z; txdesc : list send_desc;
  mac_addr : list Z; my_ip : list Z; arp_table : list arp_entry;
  ip_id : Z; send_id : Z; seq_num : Z; fin_flag : Z }.
Definition set_nk (v : kmem) (s : net) : net := mknet v (tdh s) (tdt s) (txdesc s) (mac_addr s) (my_ip s) (arp_table s) (ip_id s) (send_id s) (seq_num s) (fin_flag s).
Definition set_tdt (v : Z) (s : net) : net := mknet (nk s) (tdh s) v (txdesc s) (mac_addr s) (my_ip s) (arp_table s) (ip_id s) (send_id s) (seq_num s) (fin_flag s).
Definition set_txdesc (v : list send_desc) (s : net) : net := mknet (nk s) (tdh s) (tdt s) v (mac_addr s) (my_ip s) (arp_table s) (ip_id s) (send_id s) (seq_num s) (fin_flag s).
Definition set_arp_table (v : list arp_entry) (s : net) : net := mknet (nk s) (tdh s) (tdt s) (txdesc s) (mac_addr s) (my_ip s) v (ip_id s) (send_id s) (seq_num s) (fin_flag s).
Definition set_ip_id (v : Z) (s : net) : net := mknet (nk s) (tdh s) (tdt s) (txdesc s) (mac_addr s) (my_ip s) (arp_table s) v (send_id s) (seq_num s) (fin_flag s).
Definition set_send_id (v : Z) (s : net) : net := mknet (nk s) (tdh s) (tdt s) (txdesc s) (mac_addr s) (my_ip s) (arp_table s) (ip_id s) v (seq_num s) (fin_flag s).
Definition set_seq_num (v : Z) (s : net) : net := mknet (nk s) (tdh s) (tdt s) (txdesc s) (mac_addr s) (my_ip s) (arp_table s) (ip_id s) (send_id s) v (fin_flag s).
Definition set_fin_flag (v : Z) (s : net) : net := mknet (nk s) (tdh s) (tdt s) (txdesc s) (mac_addr s) (my_ip s) (arp_table s) (ip_id s) (send_id s) (seq_num s) v.

Definition nmem (s : net) : mem := k_mem (nk s).
Definition on_pages {A} (m : M kmem A) : M net A := lift nk set_nk m.
(** Change the memory. *)
Definition wr (f : mem -> mem) : M net unit := modify (fun s => set_nk (set_mem (f (nmem s)) (nk s)) s).

(** ** Packet layout *)

(** [struct eth_pkt] *)
Definition ETH_DST : Z := 0.
Definition ETH_SRC : Z := 6.
Definition ETH_TYPE : Z := 12.
Definition ETH_SIZE : Z := 14.
(** [struct arp_pkt], whose [dst_ip] is declared with six bytes *)
Definition ARP_HRD : Z := 0.
Definition ARP_PRO : Z := 2.
Definition ARP_HLEN : Z := 4.
Definition ARP_PLEN : Z := 5.
Definition ARP_OP : Z := 6.
Definition ARP_SRC_MAC : Z := 8.
Definition ARP_SRC_IP : Z := 14.
Definition ARP_DST_MAC : Z := 18.
Definition ARP_DST_IP : Z := 24.
Definition ARP_SIZE : Z := 30.
(** [struct ipv4_pkt] *)
Definition IP_VER : Z := 0.
Definition IP_SRV : Z := 1.
Definition IP_LEN : Z := 2.
Definition IP_ID : Z := 4.
Definition IP_FRAG : Z := 6.
Definition IP_TTL : Z := 8.
Definition IP_PROTO : Z := 9.
Definition IP_CHK : Z := 10.
Definition IP_SRC : Z := 12.
Definition IP_DST : Z := 16.
Definition IP_SIZE : Z := 20.
(** [struct icmp_echo_pkt] *)
Definition ICMP_TYPE : Z := 0.
Definition ICMP_CODE : Z := 1.
Definition ICMP_CHK : Z := 2.
Definition ICMP_ID : Z := 4.
Definition ICMP_SEQ : Z := 6.
Definition ICMP_TIME : Z := 8.
Definition ICMP_DATA : Z := 16.
Definition ICMP_SIZE : Z := 64.
(** [struct tcp_pkt] *)
Definition TCP_SPORT : Z := 0.
Definition TCP_DPORT : Z := 2.
Definition TCP_SEQ : Z := 4.
Definition TCP_ACK : Z := 8.
Definition TCP_BITS : Z := 12.
Definition TCP_WINDOW : Z := 14.
Definition TCP_CHK : Z := 16.
Definition TCP_URG : Z := 18.
Definition TCP_SIZE : Z := 20.

Definition ARP_HARDWARE_TYPE : Z := 0x0100.
Definition ARP_PROTOCOL_TYPE : Z := 0x0008.
Definition ARP_OPS_REQUEST : Z := 0x0100.
Definition ARP_OPS_REPLY : Z := 0x0200.
Definition ARP_UPDATED_TABLE : Z := 1.
Definition ARP_CREATED_REPLY : Z := 2.
Definition IPV4_TYPE_ICMP : Z := 1.
Definition IPV4_TYPE_TCP : Z := 6.
Definition ICMP_TYPE_ECHO_REQUEST : Z := 8.
Definition ICMP_TYPE_ECHO_REPLY : Z := 0.
Definition TCP_CODEBITS_ACK : Z := 0x10.
Definition TCP_CODEBITS_PSH : Z := 0x8.
Definition TCP_CODEBITS_SYN : Z := 0x2.
Definition TCP_CODEBITS_FIN : Z := 0x1.

(** ** Checksums *)

(** One step of the sum, with the carry added at the end. *)
Definition chk_step (chk w : Z) : Z :=
  let s := u32 (chk + w) in if s >? 0xFFFF then Z.land s 0xFFFF + 1 else s.
(** [(bin[i*2]<<8)+bin[i*2+1]] for the first [n] values of [i]. *)
Definition words_at (m : mem) (bin : Z) (n : nat) : list Z :=
  (fun i => Z.shiftl (ldb m (bin + Z.of_nat i * 2)) 8 + ldb m (bin + Z.of_nat i * 2 + 1)) <$> seq 0 n.

Definition ipv4_chksum (m : mem) (ipv4_addr : Z) : Z :=
  let len := u8 (Z.land (ldb m ipv4_addr) 0xF * 2) in
  u16 (Z.lnot (fold_left chk_step (words_at m ipv4_addr (Z.to_nat len)) 0)).
Definition icmp_chksum (m : mem) (icmp_addr : Z) : Z :=
  u16 (Z.lnot (fold_left chk_step (words_at m icmp_addr 32) 0)).

(** [tcp_addr] is the address of the IP header.  The pseudo header, in the order of
    [struct tcp_dummy]. *)
Definition tcp_dummy (ip : list Z) (m : mem) (tcp_addr : Z) : mem :=
  let tcp_len := H2N_ushort (u16 (N2H_ushort (ld16 m (tcp_addr + IP_LEN)) - IP_SIZE)) in
  st16 (put_bytes ∅ 0 (ip ++ bytes_at m (tcp_addr + IP_SRC) 4 ++ [0; IPV4_TYPE_TCP])) 10 tcp_len.
Definition tcp_chksum (ip : list Z) (m : mem) (tcp_addr : Z) : Z :=
  let d := tcp_dummy ip m tcp_addr in
  let n := Z.to_nat (N2H_ushort (ld16 d 10) / 2) in
  let chk := fold_left (fun c w => u32 (c + w)) (words_at d 0 6 ++ words_at m (tcp_addr + IP_SIZE) n) 0 in
  u16 (Z.lnot (u32 (chk + Z.shiftr chk 16))).

(** ** Packets *)

(** The Ethernet header of a packet to [dst]. *)
Definition eth_header (mac : list Z) (dst : list Z) (t1 : Z) (m : mem) (send : Z) : mem :=
  let m := put_bytes m (send + ETH_DST) dst in
  let m := put_bytes m (send + ETH_SRC) mac in
  let m := stb m (send + ETH_TYPE) 0x08 in
  stb m (send + ETH_TYPE + 1) t1.

(** What the two makers of ARP packets have in common. *)
Definition arp_fields (op : Z) (mac ip dst_mac dst_ip : list Z) (m : mem) (arp : Z) : mem :=
  let m := st16 m (arp + ARP_HRD) ARP_HARDWARE_TYPE in
  let m := st16 m (arp + ARP_PRO) ARP_PROTOCOL_TYPE in
  let m := stb m (arp + ARP_HLEN) 6 in
  let m := stb m (arp + ARP_PLEN) 4 in
  let m := st16 m (arp + ARP_OP) op in
  let m := put_bytes m (arp + ARP_DST_MAC) dst_mac in
  let m := put_bytes m (arp + ARP_DST_IP) dst_ip in
  let m := put_bytes m (arp + ARP_SRC_MAC) mac in
  put_bytes m (arp + ARP_SRC_IP) ip.

(** [arp_broadcast]; the size of the packet is [ETH_SIZE + ARP_SIZE]. *)
Definition arp_broadcast (mac ip : list Z) (host : Z) (m : mem) (send : Z) : mem :=
  let m := eth_header mac [0xff; 0xff; 0xff; 0xff; 0xff; 0xff] 0x06 m send in
  arp_fields ARP_OPS_REQUEST mac ip [0; 0; 0; 0; 0; 0] [10; 0; 1; u8 host] m (send + ETH_SIZE).

(** [arp_reply_pkt_create] for the request at [recv]. *)
Definition arp_reply_pkt_create (mac ip : list Z) (recv : Z) (m : mem) (send : Z) : mem :=
  let m := eth_header mac (bytes_at m (recv + ARP_SRC_MAC) 6) 0x06 m send in
  arp_fields ARP_OPS_REPLY mac ip (bytes_at m (recv + ARP_SRC_MAC) 6) (bytes_at m (recv + ARP_SRC_IP) 4) m (send + ETH_SIZE).

(** The IP header of a packet with [len] bytes after it. *)
Definition ipv4_fields (ip dst : list Z) (id frag proto len : Z) (m : mem) (p : Z) : mem :=
  let m := stb m (p + IP_VER) (Z.shiftl 4 4 + Z.land (IP_SIZE / 4) 0xF) in
  let m := stb m (p + IP_SRV) 0 in
  let m := st16 m (p + IP_LEN) (H2N_ushort (u16 (IP_SIZE + len))) in
  let m := st16 m (p + IP_ID) id in
  let m := st16 m (p + IP_FRAG) (H2N_ushort frag) in
  let m := stb m (p + IP_TTL) 255 in
  let m := stb m (p + IP_PROTO) proto in
  let m := put_bytes m (p + IP_SRC) ip in
  let m := put_bytes m (p + IP_DST) dst in
  let m := st16 m (p + IP_CHK) 0 in
  st16 m (p + IP_CHK) (H2N_ushort (ipv4_chksum m p)).

(** [(uint)ipv4_p + (ipv4_p->ver&0xF)*4] *)
Definition payload_of (m : mem) (ip : Z) : Z := ip + Z.land (ldb m (ip + IP_VER)) 0xF * 4.

Definition icmp_fields (recv : Z) (m : mem) (p : Z) : mem :=
  let m := stb m (p + ICMP_TYPE) ICMP_TYPE_ECHO_REPLY in
  let m := stb m (p + ICMP_CODE) 0 in
  let m := st16 m (p + ICMP_ID) (ld16 m (recv + ICMP_ID)) in
  let m := st16 m (p + ICMP_SEQ) (ld16 m (recv + ICMP_SEQ)) in
  let m := memmove m (p + ICMP_TIME) (recv + ICMP_TIME) 8 in
  let m := memmove m (p + ICMP_DATA) (recv + ICMP_DATA) 48 in
  let m := st16 m (p + ICMP_CHK) 0 in
  st16 m (p + ICMP_CHK) (H2N_ushort (icmp_chksum m p)).

(** [icmp_reply_pkt_create] for the packet at [recv]; the size is
    [ETH_SIZE + IP_SIZE + ICMP_SIZE]. *)
Definition icmp_reply_pkt_create (mac ip : list Z) (id : Z) (recv : Z) (m : mem) (send : Z) : mem :=
  let ipr := recv + ETH_SIZE in
  let icmpr := payload_of m ipr in
  let m := eth_header mac (bytes_at m (recv + ETH_SRC) 6) 0x00 m send in
  let m := ipv4_fields ip (bytes_at m (ipr + IP_SRC) 4) id 0x4000 IPV4_TYPE_ICMP ICMP_SIZE m (send + ETH_SIZE) in
  icmp_fields icmpr m (send + ETH_SIZE + IP_SIZE).

Definition tcp_fields (ip : list Z) (recv seq pkt_type : Z) (m : mem) (ips : Z) : mem :=
  let p := ips + IP_SIZE in
  let m := st16 m (p + TCP_SPORT) (ld16 m (recv + TCP_DPORT)) in
  let m := st16 m (p + TCP_DPORT) (ld16 m (recv + TCP_SPORT)) in
  let m := st32 m (p + TCP_SEQ) (H2N_uint seq) in
  let m := st32 m (p + TCP_ACK) (u32 (ld32 m (recv + TCP_SEQ) + Z.shiftl 1 (8 * 3))) in
  let m := stb m (p + TCP_BITS) 0 in
  let m := stb m (p + TCP_BITS + 1) 0 in
  let m := stb m (p + TCP_BITS) (Z.shiftl 5 4) in
  let m := stb m (p + TCP_BITS + 1) pkt_type in
  let m := st16 m (p + TCP_WINDOW) (H2N_ushort 14480) in
  let m := st16 m (p + TCP_URG) 0 in
  let m := st16 m (p + TCP_CHK) 0 in
  st16 m (p + TCP_CHK) (H2N_ushort (u16 (tcp_chksum ip m ips + 8))).

(** [tcp_pkt_create] in answer to the packet at [recv]; the size is
    [ETH_SIZE + IP_SIZE + TCP_SIZE + payload_size]. *)
Definition tcp_pkt_create (mac ip : list Z) (id seq recv pkt_type payload_size : Z) (m : mem) (send : Z) : mem :=
  let ipr := recv + ETH_SIZE in
  let tcpr := payload_of m ipr in
  let m := eth_header mac (bytes_at m (recv + ETH_SRC) 6) 0x00 m send in
  let m := ipv4_fields ip (bytes_at m (ipr + IP_SRC) 4) id 0x0000 IPV4_TYPE_TCP (TCP_SIZE + payload_size) m (send + ETH_SIZE) in
  tcp_fields ip tcpr seq pkt_type m (send + ETH_SIZE).

(** ** The card *)

(** [i8254_send]: the packet is copied into the buffer of the next descriptor. *)
Definition i8254_send (pkt_addr len : Z) : M net Z :=
  s <- get ;;
  let tx_available := I8254_SEND_DESC_NUM - u32 (I8254_SEND_DESC_NUM - tdh s + tdt s) mod I8254_SEND_DESC_NUM in
  let index := Z.to_nat (tdt s mod I8254_SEND_DESC_NUM) in
  if tx_available >? 0 then
    match txdesc s !! index with
    | None => panic "no descriptor"
    | Some d =>
        wr (fun m => memmove m (P2V (d_buf_addr d)) pkt_addr len) ;;;
        modify (set_txdesc (<[index := mkdesc (d_buf_addr d) (u16 len) 0 0xb 0 0 0]> (txdesc s))) ;;;
        modify (set_tdt (u32 (tdt s + 1) mod I8254_SEND_DESC_NUM)) ;;;
        ret len
    end
  else ret (-1).

(** The loop of [i8254_init_send] that allocates buffers, from [i] on. *)
Fixpoint init_send_bufs (n : nat) (i : nat) : M net unit :=
  match n with
  | O => ret tt
  | S n' =>
      b <- on_pages kalloc ;;
      if b =? 0 then ret tt
      else
        let set j a := modify (fun s => set_txdesc (alter (fun d => mkdesc a (d_len d) (d_cso d) (d_cmd d) (d_sta d) (d_css d) (d_special d)) j (txdesc s)) s) in
        set i (V2P b) ;;; set (S i) (V2P (b + 0x800)) ;;; init_send_bufs n' (S i)
  end.

Section Protocols.
(** The end of the kernel image. *)
Context (kend : Z).

(** Make a packet in a fresh page, send it, free the page. *)
Definition with_page {A} (k : Z -> M net A) : M net A :=
  send <- on_pages kalloc ;;
  r <- k send ;;
  on_pages (kfree kend send) ;;;
  ret r.

(** ** ARP *)

(** The loop of [arp_table_search]: entry [i] on, with the value of [empty]. *)
Fixpoint arp_search_loop (ip : list Z) (t : list arp_entry) (i empty : Z) : Z :=
  match t with
  | [] => empty - 1
  | e :: t' =>
      if decide (a_ip e = ip) then i
      else arp_search_loop ip t' (i + 1) (if (a_use e =? 0) && (empty =? 1) then - i else empty)
  end.
Definition arp_table_search (ip : list Z) (t : list arp_entry) : Z := arp_search_loop ip t 0 1.

(** [arp_table_update] with the sender's addresses. *)
Definition arp_table_update (mac ip : list Z) (t : list arp_entry) : list arp_entry :=
  let index := arp_table_search ip t in
  if index >? -1 then alter (fun e => mkarp (a_ip e) mac (a_use e)) (Z.to_nat index) t
  else <[Z.to_nat (- (index + 1)) := mkarp ip mac 1]> t.

Definition arp_proc (buffer_addr : Z) : M net Z :=
  s <- get ;;
  let m := nmem s in
  let dst_ip := bytes_at m (buffer_addr + ARP_DST_IP) 4 in
  let src_ip := bytes_at m (buffer_addr + ARP_SRC_IP) 4 in
  if negb (ld16 m (buffer_addr + ARP_HRD) =? ARP_HARDWARE_TYPE) then ret (-1)
  else if negb (ld16 m (buffer_addr + ARP_PRO) =? ARP_PROTOCOL_TYPE) then ret (-1)
  else if negb (ldb m (buffer_addr + ARP_HLEN) =? 6) then ret (-1)
  else if negb (ldb m (buffer_addr + ARP_PLEN) =? 4) then ret (-1)
  else if negb (bool_decide (my_ip s = dst_ip)) && negb (bool_decide (my_ip s = src_ip)) then ret (-1)
  else if (ld16 m (buffer_addr + ARP_OP) =? ARP_OPS_REQUEST) && bool_decide (my_ip s = dst_ip) then
    with_page (fun send =>
      wr (fun m => arp_reply_pkt_create (mac_addr s) (my_ip s) buffer_addr m send) ;;;
      i8254_send send (ETH_SIZE + ARP_SIZE)) ;;;
    ret ARP_CREATED_REPLY
  else if (ld16 m (buffer_addr + ARP_OP) =? ARP_OPS_REPLY) && bool_decide (my_ip s = dst_ip) then
    modify (fun s => set_arp_table (arp_table_update (bytes_at m (buffer_addr + ARP_SRC_MAC) 6) src_ip (arp_table s)) s) ;;;
    ret ARP_UPDATED_TABLE
  else ret (-1).

(** [while(res == -1)] of [arp_scan]; [i8254_send] does not return -1, so that one
    test is enough. *)
Fixpoint resend (fuel : nat) (send size res : Z) : M net unit :=
  match fuel with
  | O => nofuel
  | S f => if res =? -1 then r <- i8254_send send size ;; resend f send size r else ret tt
  end.
(** [for(int i=0;i<256;i++)] of [arp_scan], [n] rounds from host [i]. *)
Fixpoint arp_scan_loop (n : nat) (i : Z) : M net unit :=
  match n with
  | O => ret tt
  | S n' =>
      with_page (fun send =>
        s <- get ;;
        wr (fun m => arp_broadcast (mac_addr s) (my_ip s) i m send) ;;;
        res <- i8254_send send (ETH_SIZE + ARP_SIZE) ;;
        resend 1 send (ETH_SIZE + ARP_SIZE) res) ;;;
      arp_scan_loop n' (i + 1)
  end.
Definition arp_scan : M net unit := arp_scan_loop 256 0.

(** ** ICMP *)

Definition icmp_proc (buffer_addr : Z) : M net unit :=
  s <- get ;;
  let icmp := payload_of (nmem s) (buffer_addr + ETH_SIZE) in
  if (ldb (nmem s) (icmp + ICMP_CODE) =? 0) && (ldb (nmem s) (icmp + ICMP_TYPE) =? ICMP_TYPE_ECHO_REQUEST) then
    with_page (fun send =>
      wr (fun m => icmp_reply_pkt_create (mac_addr s) (my_ip s) (send_id s) buffer_addr m send) ;;;
      modify (fun s => set_send_id (u16 (send_id s + 1)) s) ;;;
      i8254_send send (ETH_SIZE + IP_SIZE + ICMP_SIZE)) ;;;
    ret tt
  else ret tt.

(** ** HTTP and TCP *)

Definition zs (s : string) : list Z := (fun a => Z.of_nat (Ascii.nat_of_ascii a)) <$> String.list_ascii_of_string s.
Definition CRLF : list Z := [13; 10].
(** The three strings that [http_proc] copies one after the other. *)
Definition http_text : list Z :=
  (zs "HTTP/1.0 200 OK " ++ CRLF) ++ (zs "Content-Type: text/html " ++ CRLF) ++ (CRLF ++ zs "Hello World!" ++ CRLF).

(** [http_proc]: the answer at [send]; the result is its length. *)
Definition http_proc (send : Z) : M net Z :=
  let len := Z.of_nat (length http_text) in
  wr (fun m => put_bytes m send http_text) ;;;
  (if negb (Z.rem len 2 =? 0) then wr (fun m => stb m (send + len) 0) else ret tt) ;;;
  modify (set_fin_flag 1) ;;;
  ret len.

(** [tcp_pkt_create] and [i8254_send] of the result. *)
Definition tcp_answer (buffer_addr send pkt_type payload_size : Z) : M net Z :=
  s <- get ;;
  wr (fun m => tcp_pkt_create (mac_addr s) (my_ip s) (send_id s) (seq_num s) buffer_addr pkt_type payload_size m send) ;;;
  modify (fun s => set_send_id (u16 (send_id s + 1)) s) ;;;
  i8254_send send (u32 (ETH_SIZE + IP_SIZE + TCP_SIZE + payload_size)).

(** The two branches on the text of the request differ in a message only. *)
Definition tcp_proc (buffer_addr : Z) : M net unit :=
  m <- gets nmem ;;
  let bits := ldb m (payload_of m (buffer_addr + ETH_SIZE) + TCP_BITS + 1) in
  with_page (fun send =>
    if negb (Z.land bits TCP_CODEBITS_SYN =? 0) then
      tcp_answer buffer_addr send (Z.lor TCP_CODEBITS_ACK TCP_CODEBITS_SYN) 0 ;;;
      modify (fun s => set_seq_num (u32 (seq_num s + 1)) s)
    else if bits =? Z.lor TCP_CODEBITS_PSH TCP_CODEBITS_ACK then
      tcp_answer buffer_addr send TCP_CODEBITS_ACK 0 ;;;
      n <- http_proc (send + ETH_SIZE + IP_SIZE + TCP_SIZE) ;;
      tcp_answer buffer_addr send (Z.lor TCP_CODEBITS_ACK TCP_CODEBITS_PSH) n ;;;
      modify (fun s => set_seq_num (u32 (seq_num s + 1)) s)
    else if bits =? TCP_CODEBITS_ACK then
      f <- gets fin_flag ;;
      if f =? 1 then
        tcp_answer buffer_addr send TCP_CODEBITS_FIN 0 ;;;
        modify (set_fin_flag 0)
      else ret tt
    else ret tt).

(** ** IP and Ethernet *)

Definition ipv4_proc (buffer_addr : Z) : M net unit :=
  s <- get ;;
  let ip := buffer_addr + ETH_SIZE in
  let id := ld16 (nmem s) (ip + IP_ID) in
  if negb (ip_id s =? id) && negb (bool_decide (my_ip s = bytes_at (nmem s) (ip + IP_SRC) 4)) then
    modify (set_ip_id id) ;;;
    let proto := ldb (nmem s) (ip + IP_PROTO) in
    if proto =? IPV4_TYPE_ICMP then icmp_proc buffer_addr
    else if proto =? IPV4_TYPE_TCP then tcp_proc buffer_addr
    else ret tt
  else ret tt.

Definition eth_proc (buffer_addr : Z) : M net unit :=
  m <- gets nmem ;;
  let t0 := ldb m (buffer_addr + ETH_TYPE) in
  let t1 := ldb m (buffer_addr + ETH_TYPE + 1) in
  if (t0 =? 0x08) && (t1 =? 0x06) then arp_proc (buffer_addr + ETH_SIZE) ;;; ret tt
  else if (t0 =? 0x08) && (t1 =? 0x00) then ipv4_proc buffer_addr
  else ret tt.
End Protocols.
