(* ===== verification/NetProps.v ===== *)
(** * Properties of the network code

    Checksums that verify, ARP requests and pings that are answered, and the ARP
    table. *)

From S2P Require Import Prelude Mem Mmu Kalloc Net.
Local Open Scope Z_scope.

(** ** Bytes *)

Abbreviation bytes l := (Forall (fun b => 0 <= b < 256) l).

Lemma ldb_st16 m a v x : ldb (st16 m a v) x = if x =? a + 1 then u8 (Z.shiftr v 8) else if x =? a then u8 v else ldb m x.
Proof. unfold st16. rewrite !ldb_stb. reflexivity. Qed.

Lemma ldb_put_bytes l : forall m a x,
  ldb (put_bytes m a l) x = if (a <=? x) && (x <? a + Z.of_nat (length l)) then u8 (default 0 (l !! Z.to_nat (x - a))) else ldb m x.
Proof.
  induction l as [|b l IH]; intros m a x; cbn [put_bytes length]; [case_if; [lia|reflexivity]|]. rewrite IH, ldb_stb.
  repeat case_if; try lia; try reflexivity.
  - replace (Z.to_nat (x - a)) with (S (Z.to_nat (x - (a + 1)))) by lia. reflexivity.
  - subst x. rewrite Z.sub_diag. reflexivity.
Qed.

Lemma length_bytes_at m a n : length (bytes_at m a n) = n.
Proof. unfold bytes_at. rewrite length_fmap, length_seq. reflexivity. Qed.
Lemma bytes_at_lookup m a n i : (i < n)%nat -> bytes_at m a n !! i = Some (ldb m (a + Z.of_nat i)).
Proof. intros H. unfold bytes_at. rewrite list_lookup_fmap, lookup_seq_lt by exact H. reflexivity. Qed.
Lemma bytes_at_bytes m a n : bytes (bytes_at m a n).
Proof. unfold bytes_at. apply Forall_fmap, Forall_forall. intros i _. apply ldb_range. Qed.
Lemma bytes_at_eq m a l : bytes_at m a (length l) = l <-> forall i b, l !! i = Some b -> ldb m (a + Z.of_nat i) = b.
Proof.
  split.
  - intros E i b Hi. assert (H := bytes_at_lookup m a (length l) i (lookup_lt_Some _ _ _ Hi)). rewrite E in H. congruence.
  - intros H. apply list_eq. intros i. destruct (l !! i) as [b|] eqn:E.
    + rewrite bytes_at_lookup by (apply lookup_lt_Some in E; exact E). f_equal. apply H, E.
    + apply lookup_ge_None in E. apply lookup_ge_None. rewrite length_bytes_at. exact E.
Qed.
Lemma bytes_at_ext m m' a a' n : (forall i, 0 <= i < Z.of_nat n -> ldb m' (a' + i) = ldb m (a + i)) -> bytes_at m' a' n = bytes_at m a n.
Proof. intros H. unfold bytes_at. apply list_fmap_ext. intros i x Hi. apply lookup_seq in Hi as [-> Hi]. apply H. lia. Qed.
Lemma bytes_at_app m a n k : bytes_at m a (n + k) = bytes_at m a n ++ bytes_at m (a + Z.of_nat n) k.
Proof.
  unfold bytes_at. rewrite seq_app, fmap_app. f_equal. pose proof (fmap_add_seq n 0 k) as E. rewrite Nat.add_0_r in E. rewrite Nat.add_0_l, <- E, <- list_fmap_compose.
  apply list_fmap_ext. intros i x _. cbn. f_equal. lia.
Qed.
Lemma bytes_at_put m a l : bytes l -> bytes_at (put_bytes m a l) a (length l) = l.
Proof.
  intros Hl. apply bytes_at_eq. intros i b Hi. pose proof (lookup_lt_Some _ _ _ Hi). rewrite ldb_put_bytes. case_if; [|lia].
  replace (Z.to_nat (a + Z.of_nat i - a)) with i by lia. rewrite Hi. apply u8_small. eapply Forall_lookup_1 in Hl; eauto.
Qed.

(** [m'] differs from [m] at most in the [n] bytes at [a]. *)
Definition within (a n : Z) (m m' : mem) : Prop := forall x, x < a \/ a + n <= x -> ldb m' x = ldb m x.
Lemma within_refl a n m : within a n m m.
Proof. intros x _. reflexivity. Qed.
Lemma within_trans a n m m1 m2 : within a n m m1 -> within a n m1 m2 -> within a n m m2.
Proof. intros H1 H2 x Hx. rewrite H2, H1 by exact Hx. reflexivity. Qed.
Lemma within_stb a n m x v : a <= x < a + n -> within a n m (stb m x v).
Proof. intros H y Hy. apply ldb_stb_ne. lia. Qed.
Lemma within_st16 a n m x v : a <= x < a + n - 1 -> within a n m (st16 m x v).
Proof. intros H y Hy. rewrite ldb_st16. repeat case_if; try lia; reflexivity. Qed.
Lemma within_st32 a n m x v : a <= x < a + n - 3 -> within a n m (st32 m x v).
Proof. intros H y Hy. rewrite ldb_st32. case_if; [lia|]. reflexivity. Qed.
Lemma within_put a n m x l : a <= x /\ x + Z.of_nat (length l) <= a + n -> within a n m (put_bytes m x l).
Proof. intros H y Hy. rewrite ldb_put_bytes. case_if; [lia|]. reflexivity. Qed.
Lemma within_memmove a n m d s k : 0 <= k -> a <= d /\ d + k <= a + n -> within a n m (memmove m d s k).
Proof. intros Hk H y Hy. rewrite ldb_memmove by exact Hk. case_if; [lia|]. reflexivity. Qed.
Lemma within_bytes a n m m' b k : within a n m m' -> b + Z.of_nat k <= a \/ a + n <= b -> bytes_at m' b k = bytes_at m b k.
Proof. intros H Hb. apply bytes_at_ext. intros i Hi. apply H. lia. Qed.

(** ** Checksums *)

Abbreviation word w := (0 <= w <= 0xFFFF).
(** The words of a byte string, most significant byte first. *)
Fixpoint words (l : list Z) : list Z :=
  match l with a :: b :: l' => a * 256 + b :: words l' | _ => [] end.
(** A receiver accepts [l]: the sum of its words, its checksum included, is all ones. *)
Definition verifies (l : list Z) : Prop := fold_left chk_step (words l) 0 = 0xFFFF.

Lemma chk_step_ok c w : word c -> word w ->
  word (chk_step c w) /\ (exists q, c + w = chk_step c w + 65535 * q) /\ (chk_step c w = 0 -> c = 0 /\ w = 0).
Proof.
  intros Hc Hw. unfold chk_step. rewrite u32_small by lia. assert (L : forall x, Z.land x 0xFFFF = x mod 65536) by (intros; apply (Z.land_ones _ 16); lia). destruct (Z.gtb_spec (c + w) 0xFFFF).
  - rewrite L.
    assert (E : (c + w) mod 65536 = c + w - 65536) by (symmetry; apply (Z.mod_unique _ _ 1); lia). rewrite E. split; [lia|]. split; [exists 1; lia|lia].
  - split; [lia|]. split; [exists 0; lia|lia].
Qed.

Lemma chk_sum_ok ws : forall c, word c -> Forall (fun w => word w) ws ->
  word (fold_left chk_step ws c) /\ (exists q, c + foldr Z.add 0 ws = fold_left chk_step ws c + 65535 * q) /\
  (fold_left chk_step ws c = 0 -> c = 0 /\ Forall (fun w => w = 0) ws).
Proof.
  induction ws as [|w ws IH]; intros c Hc Hw; cbn [fold_left foldr].
  - split; [exact Hc|]. split; [exists 0; lia|auto].
  - apply Forall_cons in Hw as [Hw Hws]. destruct (chk_step_ok c w Hc Hw) as (S1 & (q1 & E1) & S3). destruct (IH _ S1 Hws) as (I1 & (q2 & E2) & I3).
    split; [exact I1|]. split; [exists (q1 + q2); lia|]. intros E. destruct (I3 E) as [Z1 Z2]. destruct (S3 Z1) as [-> ->]. auto.
Qed.

(** The complement of the sum, put in the place of a zero, makes the sum all ones. *)
Lemma chk_complement u v : Forall (fun w => word w) (u ++ v) ->
  fold_left chk_step (u ++ (0xFFFF - fold_left chk_step (u ++ 0 :: v) 0) :: v) 0 = 0xFFFF.
Proof.
  intros H. set (r := fold_left chk_step (u ++ 0 :: v) 0). apply Forall_app in H as [Hu Hv].
  destruct (chk_sum_ok (u ++ 0 :: v) 0 ltac:(lia)) as (R1 & (q & R2) & _); [apply Forall_app; split; [exact Hu|constructor; [lia|exact Hv]]|]. fold r in R1, R2.
  destruct (decide (r = 0xFFFF)) as [E|E]; [rewrite E, Z.sub_diag; exact E|].
  destruct (chk_sum_ok (u ++ (0xFFFF - r) :: v) 0 ltac:(lia)) as (T1 & (q' & T2) & T3); [apply Forall_app; split; [exact Hu|constructor; [lia|exact Hv]]|].
  set (t := fold_left chk_step (u ++ (0xFFFF - r) :: v) 0) in *. rewrite foldr_app in R2, T2. cbn [foldr] in R2, T2.
  assert (Hshift : forall l z, foldr Z.add z l = foldr Z.add 0 l + z) by (induction l as [|x l IH]; intros z; cbn; [lia|rewrite IH; lia]).
  rewrite (Hshift u) in R2, T2. assert (Ht : t <> 0).
  { intros E0. destruct (T3 E0) as [_ Hz]. apply Forall_app in Hz as [_ Hz]. apply Forall_inv in Hz. lia. }
  lia.
Qed.

Lemma u16_lnot x : word x -> u16 (Z.lnot x) = 0xFFFF - x.
Proof. intros H. unfold u16, Z.lnot. symmetry. apply (Z.mod_unique _ _ (-1)); lia. Qed.

Lemma words_bytes l : bytes l -> Forall (fun w => word w) (words l).
Proof.
  assert (G : forall n l, (length l <= n)%nat -> bytes l -> Forall (fun w => word w) (words l)); [|intros H; eapply G; eauto].
  induction n as [|n IH]; intros [|a [|b k]] Hl H; cbn in *; try lia; try constructor.
  - apply Forall_cons in H as [Ha H]. apply Forall_cons in H as [Hb _]. cbn in *. lia.
  - apply IH; [lia|]. apply Forall_cons in H as [_ H]. apply Forall_cons in H as [_ H]. exact H.
Qed.

Lemma words_at_bytes m a n : words_at m a n = words (bytes_at m a (2 * n)).
Proof.
  revert a. induction n as [|n IH]; intros a; [reflexivity|]. replace (2 * S n)%nat with (2 + 2 * n)%nat by lia. rewrite bytes_at_app.
  change (bytes_at m a 2) with [ldb m (a + 0); ldb m (a + 1)]. cbn [app words]. rewrite <- IH.
  unfold words_at. cbn [seq fmap list_fmap]. f_equal; [rewrite Z.shiftl_mul_pow2, !Z.add_0_r by lia; reflexivity|].
  rewrite <- (fmap_S_seq 0 n), <- list_fmap_compose. apply list_fmap_ext. intros i x _. cbn -[Z.of_nat]. do 3 f_equal; lia.
Qed.

(** ** Fields *)

Section Fields.
Context (m : mem) (x a : Z) (n : nat).

Lemma ba_stb v : x < a \/ a + Z.of_nat n <= x -> bytes_at (stb m x v) a n = bytes_at m a n.
Proof. intros H. apply bytes_at_ext. intros i Hi. apply ldb_stb_ne. lia. Qed.
Lemma ba_st16 v : x + 2 <= a \/ a + Z.of_nat n <= x -> bytes_at (st16 m x v) a n = bytes_at m a n.
Proof. intros H. apply bytes_at_ext. intros i Hi. rewrite ldb_st16. repeat case_if; try lia; reflexivity. Qed.
Lemma ba_put l : x + Z.of_nat (length l) <= a \/ a + Z.of_nat n <= x -> bytes_at (put_bytes m x l) a n = bytes_at m a n.
Proof. intros H. apply bytes_at_ext. intros i Hi. rewrite ldb_put_bytes. case_if; [lia|reflexivity]. Qed.
Lemma ba_memmove s k : 0 <= k -> x + k <= a \/ a + Z.of_nat n <= x -> bytes_at (memmove m x s k) a n = bytes_at m a n.
Proof. intros Hk H. apply bytes_at_ext. intros i Hi. rewrite ldb_memmove by exact Hk. case_if; [lia|reflexivity]. Qed.

Lemma ba_stb_eq v : a = x -> bytes_at (stb m x v) a 1 = [u8 v].
Proof. intros ->. cbn. rewrite Z.add_0_r, ldb_stb_same. reflexivity. Qed.
Lemma ba_st16_eq v : a = x -> bytes_at (st16 m x v) a 2 = [u8 v; u8 (Z.shiftr v 8)].
Proof. intros ->. cbn -[Z.shiftr]. rewrite !ldb_st16. repeat case_if; try lia. reflexivity. Qed.
Lemma ba_put_eq l : a = x -> bytes l -> n = length l -> bytes_at (put_bytes m x l) a n = l.
Proof. intros -> Hl ->. apply bytes_at_put, Hl. Qed.
Lemma ba_memmove_eq s : a = x -> bytes_at (memmove m x s (Z.of_nat n)) a n = bytes_at m s n.
Proof. intros ->. apply bytes_at_ext. intros i Hi. rewrite ldb_memmove by lia. case_if; [f_equal; lia|lia]. Qed.
End Fields.

Ltac layout := unfold ETH_DST, ETH_SRC, ETH_TYPE, ETH_SIZE, ARP_HRD, ARP_PRO, ARP_HLEN, ARP_PLEN, ARP_OP, ARP_SRC_MAC, ARP_SRC_IP, ARP_DST_MAC, ARP_DST_IP, ARP_SIZE,
  IP_VER, IP_SRV, IP_LEN, IP_ID, IP_FRAG, IP_TTL, IP_PROTO, IP_CHK, IP_SRC, IP_DST, IP_SIZE, ICMP_TYPE, ICMP_CODE, ICMP_CHK, ICMP_ID, ICMP_SEQ, ICMP_TIME, ICMP_DATA, ICMP_SIZE,
  TCP_SPORT, TCP_DPORT, TCP_SEQ, TCP_ACK, TCP_BITS, TCP_WINDOW, TCP_CHK, TCP_URG, TCP_SIZE in *.
(** Skip the writes elsewhere, then read the one at this place. *)
Ltac skip := repeat first [rewrite ba_stb by (try lia)|rewrite ba_st16 by (try lia)|rewrite ba_put by (try lia)|rewrite ba_memmove by (try lia)].
Ltac field := skip; first [apply ba_stb_eq; lia|apply ba_st16_eq; lia|apply ba_put_eq; [lia|assumption|congruence]|apply (ba_memmove_eq _ _ _ _ _); lia].

Lemma ba_split m a n k b c : bytes_at m a n = b -> bytes_at m (a + Z.of_nat n) k = c -> bytes_at m a (n + k) = b ++ c.
Proof. intros <- <-. apply bytes_at_app. Qed.
Arguments ba_split m a n k b c : clear implicits.

Lemma eth_header_ok mac dst t1 m send : bytes mac -> bytes dst -> length mac = 6%nat -> length dst = 6%nat -> 0 <= t1 < 256 ->
  bytes_at (eth_header mac dst t1 m send) send 14 = dst ++ mac ++ [8; t1] /\ within send 14 m (eth_header mac dst t1 m send).
Proof.
  intros Hm Hd Lm Ld Ht. unfold eth_header. cbv zeta. layout. split.
  - apply (ba_split _ _ 6 8); [field|]. apply (ba_split _ _ 6 2); [field|]. apply (ba_split _ _ 1 1 [8] [t1]); [field|]. rewrite <- (u8_small t1) at 2 by lia. field.
  - eapply within_trans; [eapply within_trans; [eapply within_trans|]|]; [apply within_put|apply within_put|apply within_stb|apply within_stb]; lia.
Qed.

Definition arp_packet (op : Z) (mac ip dst_mac dst_ip : list Z) : list Z := [0; 1; 8; 0; 6; 4; 0; op] ++ mac ++ ip ++ dst_mac ++ dst_ip.

Lemma arp_fields_ok op mac ip dmac dip m p : bytes mac -> bytes ip -> bytes dmac -> bytes dip ->
  length mac = 6%nat -> length ip = 4%nat -> length dmac = 6%nat -> length dip = 4%nat -> 0 <= op < 256 ->
  bytes_at (arp_fields (op * 256) mac ip dmac dip m p) p 28 = arp_packet op mac ip dmac dip /\
  within p 28 m (arp_fields (op * 256) mac ip dmac dip m p).
Proof.
  intros B1 B2 B3 B4 L1 L2 L3 L4 Ho. unfold arp_fields. cbv zeta. unfold arp_packet. layout. split.
  - apply (ba_split _ _ 2 26 [0; 1] ([8; 0; 6; 4; 0; op] ++ mac ++ ip ++ dmac ++ dip)); [field|].
    apply (ba_split _ _ 2 24 [8; 0] ([6; 4; 0; op] ++ mac ++ ip ++ dmac ++ dip)); [field|].
    apply (ba_split _ _ 1 23 [6] ([4; 0; op] ++ mac ++ ip ++ dmac ++ dip)); [field|].
    apply (ba_split _ _ 1 22 [4] ([0; op] ++ mac ++ ip ++ dmac ++ dip)); [field|].
    apply (ba_split _ _ 2 20); [|apply (ba_split _ _ 6 14); [field|]; apply (ba_split _ _ 4 10); [field|]; apply (ba_split _ _ 6 4); [field|field]].
    skip. rewrite ba_st16_eq by lia. unfold u8. rewrite Z.shiftr_div_pow2 by lia. change (2 ^ 8) with 256. rewrite Z.div_mul by lia.
    f_equal; [apply Z.mod_mul; lia|]. f_equal. apply Z.mod_small, Ho.
  - repeat (eapply within_trans; [|first [apply within_put|apply within_stb|apply within_st16]; lia]). apply within_refl.
Qed.

(** ** Headers with checksums *)

Lemma words_app a b : Nat.even (length a) = true -> words (a ++ b) = words a ++ words b.
Proof.
  assert (G : forall n a, (length a <= n)%nat -> Nat.even (length a) = true -> words (a ++ b) = words a ++ words b); [|intros H; eapply G; eauto].
  induction n as [|n IH]; intros [|x [|y k]] Hl He; cbn in *; try lia; try discriminate; try reflexivity. f_equal. apply IH; [lia|exact He].
Qed.

Lemma H2N_bytes c : word c -> [u8 (H2N_ushort c); u8 (Z.shiftr (H2N_ushort c) 8)] = [c / 256; c mod 256].
Proof.
  intros Hc. unfold H2N_ushort. change 0xFF with (Z.ones 8). rewrite Z.land_ones, Z.shiftl_mul_pow2, !Z.shiftr_div_pow2 by lia. unfold u8, u16.
  change (2 ^ 8) with 256. change (2 ^ 16) with 65536. f_equal; [|f_equal]; Z.to_euclidean_division_equations; lia.
Qed.

(** Storing the checksum of a header whose checksum field was zero. *)
Lemma chk_store H T c : bytes H -> bytes T -> Nat.even (length H) = true ->
  c = u16 (Z.lnot (fold_left chk_step (words (H ++ [0; 0] ++ T)) 0)) ->
  exists c1 c2, [u8 (H2N_ushort c); u8 (Z.shiftr (H2N_ushort c) 8)] = [c1; c2] /\ verifies (H ++ [c1; c2] ++ T).
Proof.
  intros BH BT He ->. rewrite words_app by exact He. cbn [app words]. change (0 * 256 + 0) with 0. pose proof (words_bytes _ BH) as WH. pose proof (words_bytes _ BT) as WT.
  set (r := fold_left chk_step (words H ++ 0 :: words T) 0).
  assert (Hr : word r) by (apply chk_sum_ok; [lia|apply Forall_app; split; [exact WH|constructor; [lia|exact WT]]]).
  rewrite u16_lnot by exact Hr. exists ((65535 - r) / 256), ((65535 - r) mod 256). split; [apply H2N_bytes; lia|].
  unfold verifies. rewrite words_app by exact He. cbn [app words]. replace ((65535 - r) / 256 * 256 + (65535 - r) mod 256) with (65535 - r) by (Z.to_euclidean_division_equations; lia).
  apply chk_complement, Forall_app. auto.
Qed.

Definition ip_header (id : list Z) (frag proto len : Z) (chk ip dst : list Z) : list Z :=
  [0x45; 0; len / 256; len mod 256] ++ id ++ [frag / 256; frag mod 256; 255; proto] ++ chk ++ ip ++ dst.

Lemma u8_div c : word c -> u8 (c / 256) = c / 256 /\ 0 <= c / 256 < 256 /\ 0 <= c mod 256 < 256.
Proof. intros H. unfold u8. Z.to_euclidean_division_equations. lia. Qed.

Lemma ipv4_fields_ok ip dst id frag proto len m p : bytes ip -> bytes dst -> length ip = 4%nat -> length dst = 4%nat ->
  word (IP_SIZE + len) -> word frag -> 0 <= proto < 256 ->
  within p 20 m (ipv4_fields ip dst id frag proto len m p) /\
  exists c1 c2, let h := ip_header [u8 id; u8 (Z.shiftr id 8)] frag proto (IP_SIZE + len) [c1; c2] ip dst in
    bytes_at (ipv4_fields ip dst id frag proto len m p) p 20 = h /\ verifies h.
Proof.
  intros B1 B2 L1 L2 Hl Hf Hp. unfold ipv4_fields. cbv zeta. rewrite (u16_small (IP_SIZE + len)) by lia. set (m1 := st16 (put_bytes _ _ dst) _ 0).
  set (H := [0x45; 0; (IP_SIZE + len) / 256; (IP_SIZE + len) mod 256] ++ [u8 id; u8 (Z.shiftr id 8)] ++ [frag / 256; frag mod 256; 255; proto]).
  pose proof (u8_div _ Hl) as (_ & Hl1 & Hl2). pose proof (u8_div _ Hf) as (_ & Hf1 & Hf2).
  assert (BH : bytes H) by (unfold H; cbn [app]; repeat constructor; try lia; apply u8_range).
  assert (E10 : bytes_at m1 p 10 = H).
  { unfold m1, H. layout. apply (ba_split _ _ 1 9 [0x45] _); [field|]. apply (ba_split _ _ 1 8 [0] _); [field|].
    apply (ba_split _ _ 2 6 [_; _]); [skip; rewrite ba_st16_eq by lia; apply H2N_bytes, Hl|]. apply (ba_split _ _ 2 4 [_; _]); [field|].
    apply (ba_split _ _ 2 2 [_; _]); [skip; rewrite ba_st16_eq by lia; apply H2N_bytes, Hf|]. apply (ba_split _ _ 1 1 [255] [proto]); [field|].
    rewrite <- (u8_small proto) at 2 by lia. field. }
  assert (E4 : bytes_at m1 (p + 12) 4 = ip /\ bytes_at m1 (p + 16) 4 = dst) by (unfold m1; layout; split; field).
  assert (E20 : bytes_at m1 p 20 = H ++ [0; 0] ++ ip ++ dst).
  { apply (ba_split _ _ 10 10); [exact E10|]. apply (ba_split _ _ 2 8); [unfold m1; layout; field|].
    apply (ba_split _ _ 4 4); rewrite <- !Z.add_assoc; apply E4. }
  assert (Ec : ipv4_chksum m1 p = u16 (Z.lnot (fold_left chk_step (words (H ++ [0; 0] ++ ip ++ dst)) 0))).
  { unfold ipv4_chksum. assert (E0 : ldb m1 p = 0x45).
    { pose proof (bytes_at_lookup m1 p 20 0 ltac:(lia)) as E0. rewrite E20 in E0. cbn in E0. rewrite Z.add_0_r in E0. congruence. }
    rewrite E0. change (Z.to_nat (u8 (Z.land 69 15 * 2))) with 10%nat. rewrite words_at_bytes. change (2 * 10)%nat with 20%nat. rewrite E20. reflexivity. }
  destruct (chk_store H (ip ++ dst) _ BH ltac:(apply Forall_app; auto) ltac:(reflexivity) Ec) as (c1 & c2 & Ecc & V).
  split.
  - unfold m1. layout. repeat (eapply within_trans; [|first [apply within_put|apply within_stb|apply within_st16]; lia]). apply within_refl.
  - exists c1, c2. unfold ip_header. cbv zeta. replace ([69; 0; _; _] ++ _) with (H ++ [c1; c2] ++ ip ++ dst) by (unfold H; rewrite <- !app_assoc; reflexivity).
    split; [|exact V]. rewrite <- Ecc. layout. apply (ba_split _ _ 10 10); [skip; exact E10|]. apply (ba_split _ _ 2 8); [field|].
    skip. apply (ba_split _ _ 4 4); rewrite <- !Z.add_assoc; apply E4.
Qed.

Definition icmp_reply (chk id seq time data : list Z) : list Z := [ICMP_TYPE_ECHO_REPLY; 0] ++ chk ++ id ++ seq ++ time ++ data.

Lemma st16_ld16 m m1 a x : bytes_at (st16 m1 a (ld16 m x)) a 2 = bytes_at m x 2.
Proof.
  rewrite ba_st16_eq by reflexivity. unfold ld16. change (bytes_at m x 2) with [ldb m (x + 0); ldb m (x + 1)]. rewrite Z.add_0_r. pose proof (ldb_range m x). pose proof (ldb_range m (x + 1)).
  f_equal; [|f_equal]; unfold u8; rewrite ?Z.shiftr_div_pow2 by lia; change (2 ^ 8) with 256; Z.to_euclidean_division_equations; lia.
Qed.

Lemma icmp_fields_ok recv m p : recv + 64 <= p \/ p + 64 <= recv ->
  within p 64 m (icmp_fields recv m p) /\
  exists c1 c2, let h := icmp_reply [c1; c2] (bytes_at m (recv + ICMP_ID) 2) (bytes_at m (recv + ICMP_SEQ) 2) (bytes_at m (recv + ICMP_TIME) 8) (bytes_at m (recv + ICMP_DATA) 48) in
    bytes_at (icmp_fields recv m p) p 64 = h /\ verifies h.
Proof.
  intros Hd. unfold icmp_fields. cbv zeta. set (ma := st16 (stb _ _ 0) _ (ld16 _ _)). set (mb := st16 ma _ (ld16 ma _)).
  set (mc := memmove mb _ _ 8). set (md := memmove mc _ _ 48). set (m1 := st16 md _ 0).
  assert (W : within p 64 m ma /\ within p 64 m mb /\ within p 64 m mc /\ within p 64 m m1).
  { unfold m1, md, mc, mb, ma; layout.
    repeat split; repeat (eapply within_trans; [|first [apply within_stb|apply within_st16|apply within_memmove]; lia]); apply within_refl. }
  destruct W as (Wa & Wb & Wc & W1).
  set (T := bytes_at m (recv + ICMP_ID) 2 ++ bytes_at m (recv + ICMP_SEQ) 2 ++ bytes_at m (recv + ICMP_TIME) 8 ++ bytes_at m (recv + ICMP_DATA) 48).
  assert (ET : bytes_at m1 (p + 4) 60 = T).
  { unfold T. apply (ba_split _ _ 2 58); [|apply (ba_split _ _ 2 56); [|apply (ba_split _ _ 8 48)]]; unfold m1, md, mc, mb; layout; skip.
    - unfold ma. rewrite st16_ld16. skip. reflexivity.
    - replace (p + 4 + Z.of_nat 2) with (p + 6) by lia. rewrite st16_ld16. apply (within_bytes p 64); [exact Wa|lia].
    - rewrite (ba_memmove_eq _ _ _ 8) by lia. apply (within_bytes p 64); [exact Wb|lia].
    - rewrite (ba_memmove_eq _ _ _ 48) by lia. apply (within_bytes p 64); [exact Wc|lia]. }
  assert (E2 : bytes_at m1 p 2 = [0; 0]) by (unfold m1, md, mc, mb, ma; layout; skip; apply (ba_split _ _ 1 1 [0] [0]); field).
  assert (E64 : bytes_at m1 p 64 = [0; 0] ++ [0; 0] ++ T).
  { apply (ba_split _ _ 2 62); [exact E2|]. apply (ba_split _ _ 2 60); [unfold m1; layout; field|]. rewrite <- !Z.add_assoc. exact ET. }
  destruct (chk_store [0; 0] T (icmp_chksum m1 p)) as (c1 & c2 & Ecc & V); [repeat constructor; lia|unfold T; rewrite !Forall_app; auto using bytes_at_bytes|reflexivity| |].
  { unfold icmp_chksum. rewrite words_at_bytes. change (2 * 32)%nat with 64%nat. rewrite E64. reflexivity. }
  split; [eapply within_trans; [exact W1|]; layout; apply within_st16; lia|]. exists c1, c2. unfold icmp_reply. cbv zeta. fold T. split; [|exact V].
  rewrite <- Ecc. layout. apply (ba_split _ _ 2 62); [skip; exact E2|]. apply (ba_split _ _ 2 60 [_; _]); [field|]. skip. rewrite <- !Z.add_assoc. exact ET.
Qed.

(** ** Sending *)

Section Sending.
Context (kend : Z).

(** The card can take a packet: the next descriptor has a buffer outside the free
    pages [l]. *)
Record card_ready (d : send_desc) (l : list Z) (s : net) : Prop := mkready {
  cr_tdh : 0 <= tdh s < I8254_SEND_DESC_NUM;
  cr_tdt : 0 <= tdt s < I8254_SEND_DESC_NUM;
  cr_desc : txdesc s !! Z.to_nat (tdt s) = Some d;
  cr_buf : forall q, q ∈ l -> q + PGSIZE <= P2V (d_buf_addr d) \/ P2V (d_buf_addr d) + 2048 <= q }.

(** The packet [pkt] is in the buffer of the next descriptor, handed to the card. *)
Record queued (s : net) (pkt : list Z) (s' : net) : Prop := mkqueued {
  q_tdt : tdt s' = (tdt s + 1) mod I8254_SEND_DESC_NUM;
  q_desc : exists d, txdesc s !! Z.to_nat (tdt s) = Some d /\
    txdesc s' = <[Z.to_nat (tdt s) := mkdesc (d_buf_addr d) (Z.of_nat (length pkt)) 0 0xb 0 0 0]> (txdesc s) /\
    bytes_at (nmem s') (P2V (d_buf_addr d)) (length pkt) = pkt }.

Lemma send_run d l s a n : card_ready d l s -> 0 <= n < 2 ^ 16 ->
  i8254_send a n s = Ret (n, set_tdt ((tdt s + 1) mod 256)
    (set_txdesc (<[Z.to_nat (tdt s) := mkdesc (d_buf_addr d) n 0 0xb 0 0 0]> (txdesc s))
      (set_nk (set_mem (memmove (nmem s) (P2V (d_buf_addr d)) a n) (nk s)) s))).
Proof.
  intros [H1 H2 H3 _] Hn. unfold i8254_send, wr, I8254_SEND_DESC_NUM in *. munfold.
  pose proof (Z.mod_pos_bound (u32 (256 - tdh s + tdt s)) 256 ltac:(lia)). destruct (_ >? 0) eqn:E; [|lia].
  rewrite (Z.mod_small (tdt s)) by lia. rewrite H3, (u32_small (tdt s + 1)), (u16_small n) by lia. reflexivity.
Qed.

Lemma net_kmem_frame l k m' : kmem_inv kend l k -> (forall q x, q ∈ l -> q <= x < q + PGSIZE -> ldb m' x = ldb (k_mem k) x) -> kmem_inv kend l (set_mem m' k).
Proof.
  intros (H1 & H2 & H3) Hf. split; [exact H1|]. split; [exact H2|]. cbn [freelist k_mem set_mem]. eapply chain_ext; [|exact H3].
  intros q Hq. apply ld32_ext. intros x Hx. apply (Hf q); [exact Hq|]. unfold PGSIZE. lia.
Qed.

(** Writes into a page that was taken from the pool. *)
Lemma page_write p l k0 k1 m' : kmem_inv kend (p :: l) k0 -> kmem_inv kend l k1 -> within p PGSIZE (k_mem k1) m' -> kmem_inv kend l (set_mem m' k1).
Proof.
  intros Hi Hi1 W. apply net_kmem_frame; [exact Hi1|]. intros q x Hq Hx. apply W.
  pose proof (kmem_inv_pages _ _ _ Hi p ltac:(left)) as Hp. pose proof (kmem_inv_pages _ _ _ Hi q ltac:(right; exact Hq)) as Hq'.
  assert (p <> q) by (intros ->; destruct Hi as (_ & Hnd & _); apply NoDup_cons in Hnd; tauto).
  pose proof (page_ok_disjoint kend p q Hp Hq' ltac:(assumption)). unfold PGSIZE in *. lia.
Qed.

(** A page is taken, the packet made and sent, the page freed. *)
Lemma with_page_ok {A} (k : Z -> M net A) p l Q s : kmem_inv kend (p :: l) (nk s) ->
  (forall k1, kmem_inv kend l k1 -> k_mem k1 = nmem s -> wp (k p) (fun a s1 => kmem_inv kend l (nk s1) /\
     forall k2, kmem_inv kend (p :: l) k2 -> within p PGSIZE (nmem s1) (k_mem k2) -> Q a (set_nk k2 s1)) (set_nk k1 s)) ->
  wp (with_page kend k) Q s.
Proof.
  intros Hi Hk. destruct (kalloc_cons kend p l (nk s) Hi) as (k1 & E & Hi1 & Em & _).
  pose proof (kmem_inv_pages _ _ _ Hi p ltac:(left)) as Hp. assert (Hnin : p ∉ l) by (destruct Hi as (_ & Hnd & _); apply NoDup_cons in Hnd; apply Hnd).
  unfold with_page. apply wp_bind. unfold wp at 1, on_pages, lift. rewrite E. apply wp_bind. eapply wp_mono; [apply (Hk k1 Hi1 Em)|].
  intros a s1 [Hi2 HQ]. destruct (kfree_cons kend p l (nk s1) Hi2 Hp Hnin) as (k2 & E2 & Hi3 & _ & Hf). apply wp_bind. unfold wp at 1, on_pages, lift. rewrite E2.
  apply wp_pure, HQ; [exact Hi3|]. intros x Hx. apply Hf, Hx.
Qed.

(** A made packet is sent from page [p]. *)
Lemma made_sent d l p s s0 pkt (Q : Z -> net -> Prop) : card_ready d (p :: l) s0 -> kmem_inv kend l (nk s) -> p ∉ l ->
  tdh s = tdh s0 -> tdt s = tdt s0 -> txdesc s = txdesc s0 ->
  bytes_at (nmem s) p (length pkt) = pkt -> (length pkt <= 1600)%nat ->
  (forall s1, kmem_inv kend l (nk s1) -> (forall k2, within p PGSIZE (nmem s1) (k_mem k2) -> queued s0 pkt (set_nk k2 s1)) ->
     arp_table s1 = arp_table s -> ip_id s1 = ip_id s -> send_id s1 = send_id s -> Q (Z.of_nat (length pkt)) s1) ->
  wp (i8254_send p (Z.of_nat (length pkt))) Q s.
Proof.
  intros [C1 C2 C3 C4] Hi Hp Eh Et Ed Hb Hl HQ. assert (Hr : card_ready d l s) by (split; rewrite ?Eh, ?Et, ?Ed; auto; intros q Hq; apply C4; right; exact Hq).
  unfold wp. rewrite (send_run d l s p _ Hr) by lia. apply HQ; try reflexivity.
  - cbn [nk set_tdt set_txdesc set_nk]. apply net_kmem_frame; [exact Hi|]. intros q x Hq Hx. rewrite ldb_memmove by lia. case_if; [|reflexivity].
    destruct (C4 q ltac:(right; exact Hq)); lia.
  - intros k2 Hw. split; [cbn; rewrite Et; reflexivity|]. exists d. split; [exact C3|]. split; [cbn; rewrite Et, Ed; reflexivity|].
    unfold nmem at 1. cbn [nk set_nk]. rewrite (within_bytes _ _ _ _ _ _ Hw).
    + unfold nmem at 1. cbn [nk set_tdt set_txdesc set_nk k_mem set_mem]. rewrite ba_memmove_eq by reflexivity. exact Hb.
    + destruct (C4 p ltac:(left)); lia.
Qed.

(** The addresses of this machine. *)
Definition nic_ok (s : net) : Prop := bytes (mac_addr s) /\ bytes (my_ip s) /\ length (mac_addr s) = 6%nat /\ length (my_ip s) = 4%nat.

Lemma payload_range m ip : ip <= payload_of m ip <= ip + 60.
Proof.
  unfold payload_of. pose proof (Z.land_ones (ldb m (ip + IP_VER)) 4 ltac:(lia)) as E. change (Z.ones 4) with 15 in E. rewrite E.
  pose proof (Z.mod_pos_bound (ldb m (ip + IP_VER)) (2 ^ 4) ltac:(lia)). lia.
Qed.

(** The reply to the echo request at [recv], made at [send]. *)
Lemma icmp_reply_ok mac ip id recv m send : bytes mac -> bytes ip -> length mac = 6%nat -> length ip = 4%nat ->
  recv + 2048 <= send \/ send + 98 <= recv ->
  let ipr := recv + ETH_SIZE in let icmp := payload_of m ipr in
  within send 98 m (icmp_reply_pkt_create mac ip id recv m send) /\
  exists c1 c2 c3 c4,
    let iph := ip_header [u8 id; u8 (Z.shiftr id 8)] 0x4000 IPV4_TYPE_ICMP 84 [c1; c2] ip (bytes_at m (ipr + IP_SRC) 4) in
    let rep := icmp_reply [c3; c4] (bytes_at m (icmp + ICMP_ID) 2) (bytes_at m (icmp + ICMP_SEQ) 2) (bytes_at m (icmp + ICMP_TIME) 8) (bytes_at m (icmp + ICMP_DATA) 48) in
    verifies iph /\ verifies rep /\
    bytes_at (icmp_reply_pkt_create mac ip id recv m send) send 98 = (bytes_at m (recv + ETH_SRC) 6 ++ mac ++ [8; 0]) ++ iph ++ rep.
Proof.
  intros B1 B2 L1 L2 Hd ipr icmp. unfold icmp_reply_pkt_create. cbv zeta. fold ipr. fold icmp.
  pose proof (payload_range m ipr) as Hpl. fold icmp in Hpl. subst ipr. layout.
  destruct (eth_header_ok mac (bytes_at m (recv + 6) 6) 0 m send B1 (bytes_at_bytes _ _ _) L1 (length_bytes_at _ _ _) ltac:(lia)) as [E1 W1].
  set (m1 := eth_header _ _ _ _ _) in *.
  assert (Es : bytes_at m1 (recv + 14 + 12) 4 = bytes_at m (recv + 14 + 12) 4) by (apply (within_bytes send 14); [exact W1|lia]). rewrite Es.
  destruct (ipv4_fields_ok ip (bytes_at m (recv + 14 + 12) 4) id 0x4000 IPV4_TYPE_ICMP 64 m1 (send + 14) B2 (bytes_at_bytes _ _ _) L2 (length_bytes_at _ _ _)) as [W2 (c1 & c2 & E2 & V2)]; try (unfold IP_SIZE, IPV4_TYPE_ICMP; lia).
  set (m2 := ipv4_fields _ _ _ _ _ _ _ _) in *. destruct (icmp_fields_ok icmp m2 (send + 14 + 20) ltac:(lia)) as [W3 (c3 & c4 & E3 & V3)].
  set (m3 := icmp_fields _ _ _) in *.
  assert (W12 : forall b k, recv <= b -> b + Z.of_nat k <= recv + 2048 -> bytes_at m2 b k = bytes_at m b k).
  { intros b k Hb1 Hb2. rewrite (within_bytes (send + 14) 20 m1 m2 b k W2) by lia. apply (within_bytes send 14 m m1 b k W1). lia. }
  layout. rewrite !W12 in E3, V3 by lia. split.
  - intros x Hx. rewrite W3, W2, W1 by lia. reflexivity.
  - exists c1, c2, c3, c4. split; [exact V2|]. split; [exact V3|]. apply (ba_split _ _ 14 84).
    + rewrite (within_bytes _ _ _ _ _ _ W3), (within_bytes _ _ _ _ _ _ W2) by lia. exact E1.
    + apply (ba_split _ _ 20 64); [rewrite (within_bytes _ _ _ _ _ _ W3) by lia; exact E2|exact E3].
Qed.

(** The frame at [recv] is a new echo request from another machine. *)
Record echo_request (recv : Z) (s : net) : Prop := mkecho {
  er_eth : ldb (nmem s) (recv + ETH_TYPE) = 8 /\ ldb (nmem s) (recv + ETH_TYPE + 1) = 0;
  er_new : ip_id s <> ld16 (nmem s) (recv + ETH_SIZE + IP_ID);
  er_src : my_ip s <> bytes_at (nmem s) (recv + ETH_SIZE + IP_SRC) 4;
  er_proto : ldb (nmem s) (recv + ETH_SIZE + IP_PROTO) = IPV4_TYPE_ICMP;
  er_type : ldb (nmem s) (payload_of (nmem s) (recv + ETH_SIZE) + ICMP_TYPE) = ICMP_TYPE_ECHO_REQUEST;
  er_code : ldb (nmem s) (payload_of (nmem s) (recv + ETH_SIZE) + ICMP_CODE) = 0 }.

Lemma icmp_proc_ok d p l recv s : kmem_inv kend (p :: l) (nk s) -> card_ready d (p :: l) s -> nic_ok s -> recv + 2048 <= p \/ p + PGSIZE <= recv ->
  ldb (nmem s) (payload_of (nmem s) (recv + ETH_SIZE) + ICMP_TYPE) = ICMP_TYPE_ECHO_REQUEST ->
  ldb (nmem s) (payload_of (nmem s) (recv + ETH_SIZE) + ICMP_CODE) = 0 ->
  wp (icmp_proc kend recv) (fun _ s' => kmem_inv kend (p :: l) (nk s') /\ arp_table s' = arp_table s /\ ip_id s' = ip_id s /\ send_id s' = u16 (send_id s + 1) /\
    exists pkt, queued s pkt s' /\ length pkt = 98%nat /\ pkt = bytes_at (icmp_reply_pkt_create (mac_addr s) (my_ip s) (send_id s) recv (nmem s) p) p 98) s.
Proof.
  intros Hi Hc (B1 & B2 & L1 & L2) Hd Ht Hcd. unfold icmp_proc. apply wp_bind, wp_gets. cbv zeta. rewrite Ht, Hcd. cbn [Z.eqb andb]. change (ICMP_TYPE_ECHO_REQUEST =? ICMP_TYPE_ECHO_REQUEST) with true.
  apply wp_bind. assert (Hnin : p ∉ l) by (destruct Hi as (_ & Hnd & _); apply NoDup_cons in Hnd; apply Hnd).
  apply (with_page_ok _ p l _ s Hi). intros k1 Hi1 Em. apply wp_bind, wp_modify, wp_bind, wp_modify.
  set (F := icmp_reply_pkt_create (mac_addr s) (my_ip s) (send_id s) recv). set (pkt := bytes_at (F (nmem s) p) p 98).
  destruct (icmp_reply_ok (mac_addr s) (my_ip s) (send_id s) recv (nmem s) p B1 B2 L1 L2 ltac:(unfold PGSIZE in *; lia)) as [W _]. fold F in W.
  assert (Lp : length pkt = 98%nat) by apply length_bytes_at. change (ETH_SIZE + IP_SIZE + ICMP_SIZE) with (Z.of_nat 98). rewrite <- Lp.
  match goal with |- wp _ _ ?st => set (s1 := st) end.
  assert (Em1 : nmem s1 = F (nmem s) p) by (unfold s1, nmem at 1; cbn; unfold nmem; cbn; rewrite Em; reflexivity).
  eapply (made_sent d l p s1 s pkt); auto; [| |lia|].
  - unfold s1. cbn [nk set_send_id set_nk]. apply (page_write p l (nk s) k1 _ Hi Hi1). unfold nmem. cbn [nk set_nk]. rewrite Em. intros x Hx. apply W. unfold PGSIZE in *. lia.
  - rewrite Em1, Lp. reflexivity.
  - intros s2 Hi2 Hq Ea Ei Es. split; [exact Hi2|]. intros k2 Hi3 Hw. apply wp_pure. split; [exact Hi3|].
    split; [cbn; rewrite Ea; reflexivity|]. split; [cbn; rewrite Ei; reflexivity|]. split; [cbn; rewrite Es; reflexivity|].
    exists pkt. split; [apply Hq, Hw|]. split; [exact Lp|reflexivity].
Qed.


(** ** ARP *)

(** The frame at [recv] is an ARP packet for this machine. *)
Record arp_for_us (op : Z) (recv : Z) (s : net) : Prop := mkafu {
  af_eth : ldb (nmem s) (recv + ETH_TYPE) = 8 /\ ldb (nmem s) (recv + ETH_TYPE + 1) = 6;
  af_hrd : ld16 (nmem s) (recv + ETH_SIZE + ARP_HRD) = ARP_HARDWARE_TYPE;
  af_pro : ld16 (nmem s) (recv + ETH_SIZE + ARP_PRO) = ARP_PROTOCOL_TYPE;
  af_len : ldb (nmem s) (recv + ETH_SIZE + ARP_HLEN) = 6 /\ ldb (nmem s) (recv + ETH_SIZE + ARP_PLEN) = 4;
  af_op : ld16 (nmem s) (recv + ETH_SIZE + ARP_OP) = op;
  af_dst : my_ip s = bytes_at (nmem s) (recv + ETH_SIZE + ARP_DST_IP) 4 }.

Lemma arp_reply_ok mac ip recv m send : bytes mac -> bytes ip -> length mac = 6%nat -> length ip = 4%nat ->
  recv + 30 <= send \/ send + 44 <= recv ->
  within send 42 m (arp_reply_pkt_create mac ip recv m send) /\
  bytes_at (arp_reply_pkt_create mac ip recv m send) send 44 =
    (bytes_at m (recv + ARP_SRC_MAC) 6 ++ mac ++ [8; 6]) ++
    arp_packet 2 mac ip (bytes_at m (recv + ARP_SRC_MAC) 6) (bytes_at m (recv + ARP_SRC_IP) 4) ++ bytes_at m (send + 42) 2.
Proof.
  intros B1 B2 L1 L2 Hd. unfold arp_reply_pkt_create. cbv zeta. layout.
  destruct (eth_header_ok mac (bytes_at m (recv + 8) 6) 6 m send B1 (bytes_at_bytes _ _ _) L1 (length_bytes_at _ _ _) ltac:(lia)) as [E1 W1].
  set (m1 := eth_header _ _ _ _ _) in *. rewrite !(within_bytes _ _ _ _ _ _ W1) by lia. change ARP_OPS_REPLY with (2 * 256).
  destruct (arp_fields_ok 2 mac ip (bytes_at m (recv + 8) 6) (bytes_at m (recv + 14) 4) m1 (send + 14)) as [E2 W2]; auto using bytes_at_bytes, length_bytes_at; [lia|].
  set (m2 := arp_fields _ _ _ _ _ _ _) in *. split; [intros x Hx; rewrite W2, W1 by lia; reflexivity|].
  apply (ba_split _ _ 14 30); [rewrite (within_bytes _ _ _ _ _ _ W2) by lia; exact E1|]. apply (ba_split _ _ 28 2); [exact E2|].
  rewrite <- Z.add_assoc. rewrite (within_bytes _ _ _ _ _ _ W2), (within_bytes _ _ _ _ _ _ W1) by lia. reflexivity.
Qed.

(** An ARP request for this machine's address is answered. With a free page and a card that can take a packet, exactly one packet is queued: a reply to the asking machine that gives this machine's hardware address for its IP address (followed by two bytes of the page, because the packet type is declared two bytes too long). The free pages are the same as before. *)
Theorem arp_request_answered (d : send_desc) (p : Z) (l : list Z) (recv : Z) (s : net) :
  kmem_inv kend (p :: l) (nk s) -> card_ready d (p :: l) s -> nic_ok s -> recv + 2048 <= p \/ p + PGSIZE <= recv -> arp_for_us ARP_OPS_REQUEST recv s ->
  let m := nmem s in let src_mac := bytes_at m (recv + ETH_SIZE + ARP_SRC_MAC) 6 in
  wp (eth_proc kend recv) (fun _ s' => kmem_inv kend (p :: l) (nk s') /\ arp_table s' = arp_table s /\
    queued s ((src_mac ++ mac_addr s ++ [8; 6]) ++ arp_packet 2 (mac_addr s) (my_ip s) src_mac (bytes_at m (recv + ETH_SIZE + ARP_SRC_IP) 4) ++ bytes_at m (p + 42) 2) s') s.
Proof.
  intros Hi Hc (B1 & B2 & L1 & L2) Hd [(T0 & T1) H1 H2 (H3 & H4) H5 H6] m src_mac.
  unfold eth_proc. apply wp_bind, wp_gets. cbv zeta. rewrite T0, T1. cbn [Z.eqb Pos.eqb andb]. apply wp_bind.
  unfold arp_proc. apply wp_bind, wp_gets. cbv zeta. rewrite H1, H2, H3, H4, H5, !Z.eqb_refl, (bool_decide_eq_true_2 _ H6). cbn [negb andb Z.eqb Pos.eqb].
  assert (Hnin : p ∉ l) by (destruct Hi as (_ & Hnd & _); apply NoDup_cons in Hnd; apply Hnd). apply wp_bind.
  apply (with_page_ok _ p l _ s Hi). intros k1 Hi1 Em. apply wp_bind, wp_modify.
  set (F := arp_reply_pkt_create (mac_addr s) (my_ip s) (recv + ETH_SIZE)). set (pkt := bytes_at (F (nmem s) p) p 44).
  destruct (arp_reply_ok (mac_addr s) (my_ip s) (recv + ETH_SIZE) m p B1 B2 L1 L2 ltac:(unfold PGSIZE, ETH_SIZE in *; lia)) as [W E]. fold F in W, E.
  assert (Lp : length pkt = 44%nat) by apply length_bytes_at. change (ETH_SIZE + ARP_SIZE) with (Z.of_nat 44). rewrite <- Lp.
  match goal with |- wp _ _ ?st => set (s1 := st) end.
  assert (Em1 : nmem s1 = F (nmem s) p) by (unfold s1, nmem at 1; cbn; unfold nmem; cbn; rewrite Em; reflexivity).
  eapply (made_sent d l p s1 s pkt); auto; [| |lia|].
  - unfold s1. cbn [nk set_nk]. apply (page_write p l (nk s) k1 _ Hi Hi1). unfold nmem. cbn [nk set_nk]. rewrite Em. intros x Hx. apply W. unfold PGSIZE in *. lia.
  - rewrite Em1, Lp. reflexivity.
  - intros s2 Hi2 Hq Ea Ei Es. split; [exact Hi2|]. intros k2 Hi3 Hw. apply wp_pure, wp_pure. split; [exact Hi3|]. split; [cbn; rewrite Ea; reflexivity|].
    unfold src_mac. rewrite <- E. apply Hq, Hw.
Qed.
End Sending.

(** ** The ARP table *)

(** The hardware address the table has for [ip]. *)
Definition arp_lookup (ip : list Z) (t : list arp_entry) : option (list Z) :=
  (fun x => a_mac (snd x)) <$> list_find (fun e => a_ip e = ip) t.

Lemma search_found ip t : forall i e k x, list_find (fun e => a_ip e = ip) t = Some (k, x) -> arp_search_loop ip t i e = i + Z.of_nat k.
Proof.
  induction t as [|y t IH]; intros i e k x H; cbn in *; [discriminate|]. destruct (decide (a_ip y = ip)).
  - injection H as <- <-. lia.
  - apply fmap_Some in H as ([k' x'] & H & E). cbn in E. injection E as -> ->. rewrite (IH _ _ _ _ H). lia.
Qed.

Lemma search_missing ip t : list_find (fun e => a_ip e = ip) t = None -> forall i e, 0 <= i ->
  arp_search_loop ip t i e = if e =? 1 then match list_find (fun x => a_use x = 0) t with Some (k, _) => - (i + Z.of_nat k) - 1 | None => 0 end else e - 1.
Proof.
  induction t as [|y t IH]; intros H i e Hi; cbn in *; [destruct (Z.eqb_spec e 1); lia|]. destruct (decide (a_ip y = ip)); [discriminate|].
  apply fmap_None in H. rewrite (IH H) by lia. destruct (Z.eqb_spec e 1) as [->|He].
  - destruct (decide (a_use y = 0)) as [Hu|Hu].
    + rewrite Hu. cbn. destruct (Z.eqb_spec (- i) 1); [lia|]. lia.
    + destruct (Z.eqb_spec (a_use y) 0); [contradiction|]. cbn. destruct (list_find (fun x => a_use x = 0) t) as [[k x]|]; cbn; lia.
  - rewrite andb_false_r. destruct (Z.eqb_spec e 1); [contradiction|reflexivity].
Qed.

Lemma lookup_alter_mac ip ip' mac t k x : list_find (fun e => a_ip e = ip) t = Some (k, x) ->
  arp_lookup ip' (alter (fun e => mkarp (a_ip e) mac (a_use e)) k t) = if decide (ip' = ip) then Some mac else arp_lookup ip' t.
Proof.
  unfold arp_lookup. revert k. induction t as [|y t IH]; intros k H; cbn in H; [discriminate|]. destruct (decide (a_ip y = ip)) as [E|E].
  - injection H as <- <-. cbn. destruct (decide (a_ip y = ip')) as [E'|E']; destruct (decide (ip' = ip)); subst; try congruence; reflexivity.
  - apply fmap_Some in H as ([k' x'] & H & Ek). cbn in Ek. injection Ek as -> ->. cbn. destruct (decide (a_ip y = ip')) as [E'|E'].
    + destruct (decide (ip' = ip)); [congruence|reflexivity].
    + specialize (IH _ H). destruct (list_find _ (alter _ _ _)) as [[j z]|]; destruct (decide (ip' = ip)); destruct (list_find _ t) as [[j' z']|]; cbn in *; congruence.
Qed.

Lemma lookup_insert_entry ip ip' mac t k x : list_find (fun e => a_ip e = ip) t = None -> t !! k = Some x -> a_ip x <> ip' \/ ip' = ip ->
  arp_lookup ip' (<[k := mkarp ip mac 1]> t) = if decide (ip' = ip) then Some mac else arp_lookup ip' t.
Proof.
  unfold arp_lookup. revert k. induction t as [|y t IH]; intros k H Hk Hx; [discriminate|]. cbn in H. destruct (decide (a_ip y = ip)) as [E|E]; [discriminate|].
  apply fmap_None in H. destruct k as [|k]; cbn in Hk.
  - injection Hk as ->. cbn. destruct (decide (ip = ip')) as [->|E1].
    + destruct (decide (ip' = ip')); [reflexivity|congruence].
    + destruct (decide (ip' = ip)); [congruence|]. destruct (decide (a_ip x = ip')); [destruct Hx; congruence|reflexivity].
  - cbn. destruct (decide (a_ip y = ip')) as [E'|E'].
    + destruct (decide (ip' = ip)); [congruence|reflexivity].
    + specialize (IH _ H Hk Hx). destruct (list_find _ (<[k:=_]> t)) as [[j z]|]; destruct (decide (ip' = ip)); destruct (list_find _ t) as [[j' z']|]; cbn in *; congruence.
Qed.

(** The ARP table learns. When an address is already in the table or an entry is unused (unused entries have address 0.0.0.0), [arp_table_update] makes the table give the new hardware address for that IP address and leaves what it gives for every other real address unchanged. *)
Theorem arp_table_learns (mac ip : list Z) (t : list arp_entry) :
  (is_Some (arp_lookup ip t) \/ Exists (fun e => a_use e = 0) t) -> Forall (fun e => a_use e = 0 -> a_ip e = [0; 0; 0; 0]) t -> ip <> [0; 0; 0; 0] ->
  arp_lookup ip (arp_table_update mac ip t) = Some mac /\
  (forall ip', ip' <> ip -> ip' <> [0; 0; 0; 0] -> arp_lookup ip' (arp_table_update mac ip t) = arp_lookup ip' t) /\
  length (arp_table_update mac ip t) = length t.
Proof.
  intros Hor Hz Hip. unfold arp_table_update, arp_table_search. destruct (list_find (fun e => a_ip e = ip) t) as [[k x]|] eqn:E.
  - rewrite (search_found _ _ _ _ _ _ E). replace (0 + Z.of_nat k >? -1) with true by lia. replace (Z.to_nat (0 + Z.of_nat k)) with k by lia.
    split; [|split; [|apply length_alter]]; intros; rewrite (lookup_alter_mac ip _ _ _ _ _ E); destruct (decide (_ = ip)); congruence.
  - rewrite (search_missing _ _ E) by lia. cbn [Z.eqb Pos.eqb]. destruct (list_find (fun x => a_use x = 0) t) as [[k x]|] eqn:Eu.
    + replace (- (0 + Z.of_nat k) - 1 >? -1) with false by lia. replace (Z.to_nat (- (- (0 + Z.of_nat k) - 1 + 1))) with k by lia.
      apply list_find_Some in Eu as (Hk & Hu & _). pose proof (Forall_lookup_1 _ _ _ _ Hz Hk Hu) as Hx.
      split; [|split; [|apply length_insert]]; intros; rewrite (lookup_insert_entry ip _ _ _ _ _ E Hk) by (rewrite Hx; auto); destruct (decide (_ = ip)); congruence.
    + exfalso. apply list_find_None in Eu. destruct Hor as [Hs|He].
      * unfold arp_lookup in Hs. rewrite E in Hs. inversion Hs. discriminate.
      * apply Exists_exists in He as (e & He1 & He2). rewrite Forall_forall in Eu. exact (Eu e He1 He2).
Qed.

(** When the table is full, an unknown address is taken for the one in entry 0,
    which gets the wrong hardware address. *)
Lemma arp_table_full_corrupts : exists t, length t = ARP_TABLE_MAX /\ arp_lookup [10; 0; 1; 0] t = Some [1; 1; 1; 1; 1; 1] /\
  arp_lookup [10; 0; 1; 0] (arp_table_update [6; 6; 6; 6; 6; 6] [10; 0; 1; 99] t) = Some [6; 6; 6; 6; 6; 6].
Proof.
  exists ((fun i => mkarp [10; 0; 1; Z.of_nat i] [1; 1; 1; 1; 1; 1] 1) <$> seq 0 64). split; [reflexivity|]. split; vm_compute; reflexivity.
Qed.

(** [H2N_uint] masks half bytes: the sequence number 1 is right, 16 is not. *)
Lemma H2N_uint_masks : H2N_uint 1 = N2H_uint 1 /\ H2N_uint 0x10 <> N2H_uint 0x10.
Proof. split; [reflexivity|discriminate]. Qed.

(** [i8254_send] never reports a full ring: with 255 packets waiting it takes
    another, after which the ring looks empty. *)
Lemma send_never_full s : 0 <= tdh s < 256 -> 0 <= tdt s < 256 -> length (txdesc s) = 256%nat -> forall a n, 0 <= n ->
  exists s', i8254_send a n s = Ret (n, s').
Proof.
  intros H1 H2 H3 a n Hn. unfold i8254_send, wr, I8254_SEND_DESC_NUM. munfold.
  pose proof (Z.mod_pos_bound (u32 (256 - tdh s + tdt s)) 256 ltac:(lia)). destruct (_ >? 0) eqn:E; [|lia].
  destruct (txdesc s !! _) as [d|] eqn:Ed; [eauto|]. apply lookup_ge_None in Ed. rewrite Z.mod_small in Ed; lia.
Qed.

(** ** Examples *)

(** One free page; a frame received at 0x80110000. *)
Definition demo_net (frame : list Z) : net :=
  mknet (mkkmem false true 0x80300000 (put_bytes ∅ 0x80110000 frame)) 0 3
    (replicate 256 (mkdesc 0x400000 0 0 0 0 0 0)) [82; 84; 0; 18; 52; 86] [10; 0; 1; 10] [] (-1) 7 0 0.
Definition ping_frame : list Z :=
  [82; 84; 0; 18; 52; 86; 2; 2; 2; 2; 2; 2; 8; 0] ++ [0x45; 0; 0; 84; 0; 1; 0; 0; 64; 1; 0; 0; 10; 0; 1; 2; 10; 0; 1; 10] ++ [8; 0; 0; 0; 5; 6; 0; 1].
Definition arp_frame : list Z :=
  [255; 255; 255; 255; 255; 255; 2; 2; 2; 2; 2; 2; 8; 6] ++ [0; 1; 8; 0; 6; 4; 0; 1] ++ [2; 2; 2; 2; 2; 2; 10; 0; 1; 2] ++ [0; 0; 0; 0; 0; 0; 10; 0; 1; 10].

Lemma demo_net_inv frame : (length frame <= 2048)%nat -> kmem_inv 0x80200000 [0x80300000] (nk (demo_net frame)).
Proof.
  intros L. split; [reflexivity|]. split; [apply NoDup_singleton|]. cbn [chain freelist k_mem demo_net nk]. split; [reflexivity|]. split.
  - split; [reflexivity|]. unfold KERNBASE, PHYSTOP. lia.
  - assert (E : forall x, 0x80300000 <= x -> ldb (put_bytes ∅ 0x80110000 frame) x = 0).
    { intros x Hx. rewrite ldb_put_bytes. case_if; [lia|]. unfold ldb. rewrite lookup_empty. reflexivity. }
    unfold ld32. rewrite !E by lia. reflexivity.
Qed.

Lemma demo_ready frame : card_ready (mkdesc 0x400000 0 0 0 0 0 0) [0x80300000] (demo_net frame).
Proof.
  split; [cbn; unfold I8254_SEND_DESC_NUM; lia|cbn; unfold I8254_SEND_DESC_NUM; lia|reflexivity|]. intros q Hq. apply list_elem_of_singleton in Hq as ->. left. vm_compute. discriminate.
Qed.

Lemma demo_nic frame : nic_ok (demo_net frame).
Proof. split; [repeat constructor; cbn; lia|]. split; [repeat constructor; cbn; lia|]. split; reflexivity. Qed.


Lemma arp_request_answered_witness : wp (eth_proc 0x80200000 0x80110000) (fun _ s' => kmem_inv 0x80200000 [0x80300000] (nk s') /\ tdt s' = 4) (demo_net arp_frame).
Proof.
  eapply wp_mono; [apply (arp_request_answered 0x80200000 (mkdesc 0x400000 0 0 0 0 0 0) 0x80300000 [] 0x80110000 (demo_net arp_frame))|].
  - apply demo_net_inv. vm_compute. lia.
  - apply demo_ready.
  - apply demo_nic.
  - lia.
  - split; [split; reflexivity|reflexivity|reflexivity|split; reflexivity|reflexivity|reflexivity].
  - cbv beta zeta. intros _ s' (Hi & _ & Hq). split; [exact Hi|]. rewrite (q_tdt _ _ _ Hq). reflexivity.
Defined.

Lemma arp_table_learns_witness :
  arp_lookup [10; 0; 1; 2] (arp_table_update [2; 2; 2; 2; 2; 2] [10; 0; 1; 2] (replicate 64 (mkarp [0; 0; 0; 0] [0; 0; 0; 0; 0; 0] 0))) = Some [2; 2; 2; 2; 2; 2].
Proof.
  apply (arp_table_learns [2; 2; 2; 2; 2; 2] [10; 0; 1; 2] (replicate 64 (mkarp [0; 0; 0; 0] [0; 0; 0; 0; 0; 0] 0))).
  - right. apply Exists_cons_hd. reflexivity.
  - apply Forall_replicate. reflexivity.
  - discriminate.
Defined.

(** The first three rounds of the loop that gives the send ring its buffers: each
    round overwrites the second buffer of the round before, and most descriptors
    get none. *)
Definition ring_after (n : nat) : list Z :=
  match init_send_bufs n 0 (set_nk (mkkmem false true 0x80300000 (st32 (st32 ∅ 0x80300000 0x80301000) 0x80301000 0x80302000)) (demo_net [])) with
  | Ret (_, s) => d_buf_addr <$> take 5 (txdesc s)
  | _ => []
  end.
Lemma init_send_overlaps : ring_after 3 = [0x300000; 0x301000; 0x302000; 0x302800; 0x400000].
Proof. vm_compute. reflexivity. Qed.

(** A connection request from 10.0.1.[host], and the sum a receiver computes over the
    answer with its pseudo header. *)
Definition syn_frame (host : Z) : list Z :=
  [82; 84; 0; 18; 52; 86; 2; 2; 2; 2; 2; 2; 8; 0] ++ [0x45; 0; 0; 40; 0; 1; 0; 0; 64; 6; 0; 0; 10; 0; 1; host; 10; 0; 1; 10] ++
  [0x30; 0x39; 0; 80; 0; 0; 0; 9; 0; 0; 0; 0; 0x50; 2; 0; 0; 0; 0; 0; 0].
Definition syn_answer_sum (host : Z) : Z :=
  let m := put_bytes ∅ 0x80110000 (syn_frame host) in
  let m' := tcp_pkt_create [82; 84; 0; 18; 52; 86] [10; 0; 1; 10] 7 0 0x80110000 (Z.lor TCP_CODEBITS_ACK TCP_CODEBITS_SYN) 0 m 0x80300000 in
  fold_left chk_step (words ([10; 0; 1; 10] ++ [10; 0; 1; host] ++ [0; IPV4_TYPE_TCP; 0; 20] ++ bytes_at m' (0x80300000 + 34) 20)) 0.

(** The TCP checksum is made with this machine's address in the place of the
    destination's and corrected by 8, which is right for one destination only. *)
Lemma tcp_checksum_one_host : syn_answer_sum 2 = 0xFFFF /\ syn_answer_sum 3 <> 0xFFFF.
Proof. split; [vm_compute; reflexivity|vm_compute; discriminate]. Qed.
