(* ===== verification/Numeral.v ===== *)
(** * Digits of a number

    The loop [do buf[i++] = digits[x % base]; while((x /= base) != 0)] that both
    [printint] routines use (src/xv6/console.c, src/xv6/printf.c): the digits it
    produces, least significant first, and what they say. *)

From S2P Require Import Prelude.
Local Open Scope Z_scope.

Fixpoint ndigits (fuel : nat) (x base : Z) : list Z :=
  match fuel with
  | O => []
  | S f => x mod base :: (if x / base =? 0 then [] else ndigits f (x / base) base)
  end.

(** The number with the given digits, most significant first. *)
Definition value (base : Z) (l : list Z) : Z := fold_left (fun a d => a * base + d) l 0.

Lemma fold_value base l a : fold_left (fun a d => a * base + d) l a = a * base ^ Z.of_nat (length l) + value base l.
Proof.
  unfold value. revert a. induction l as [|d l IH]; intros a; cbn [fold_left length].
  - rewrite Z.pow_0_r. lia.
  - rewrite IH, (IH (0 * base + d)). rewrite Nat2Z.inj_succ, Z.pow_succ_r by lia. lia.
Qed.

Lemma value_snoc base l d : value base (l ++ [d]) = value base l * base + d.
Proof. unfold value. rewrite fold_left_app. reflexivity. Qed.

(** A numeral without leading zeros that denotes [x]. *)
Record denotes (base : Z) (l : list Z) (x : Z) : Prop := mkdenotes {
  dn_value : value base l = x;
  dn_digit : Forall (fun d => 0 <= d < base) l;
  dn_lead : l = [0] \/ exists d l', l = d :: l' /\ d <> 0;
  dn_bound : forall n, x < base ^ Z.of_nat n -> (0 < n)%nat -> (length l <= n)%nat }.

Lemma ndigits_denotes f : forall x base, 2 <= base -> 0 <= x < 2 ^ Z.of_nat f -> (0 < f)%nat ->
  denotes base (reverse (ndigits f x base)) x.
Proof.
  induction f as [|f IH]; intros x base Hb Hx Hf; [lia|]. cbn [ndigits]. rewrite reverse_cons.
  pose proof (Z.mod_pos_bound x base ltac:(lia)) as Hm. pose proof (Z.div_mod x base ltac:(lia)) as Ex.
  destruct (Z.eqb_spec (x / base) 0) as [E|E].
  - rewrite E in Ex. split; cbn; [lia|auto| |intros n _ Hn; lia]. destruct (decide (x mod base = 0)) as [->|Hne]; [left; reflexivity|right; eauto].
  - rewrite Nat2Z.inj_succ, Z.pow_succ_r in Hx by lia.
    assert (Hq : 0 < x / base < 2 ^ Z.of_nat f).
    { split; [pose proof (Z.div_pos x base); lia|]. apply Z.div_lt_upper_bound; nia. }
    destruct (IH (x / base) base Hb ltac:(lia)) as [I1 I2 I3 I4].
    { destruct f; [cbn in Hq; lia|lia]. }
    split.
    + rewrite value_snoc, I1. lia.
    + apply Forall_app. auto.
    + right. destruct I3 as [I3|(d & l' & -> & Hd)]; [|exists d, (l' ++ [x mod base]); auto].
      rewrite I3 in I1. cbn in I1. lia.
    + intros [|n] Hn _; [cbn in Hn; lia|]. rewrite length_app. cbn. rewrite Nat2Z.inj_succ, Z.pow_succ_r in Hn by lia.
      assert (Hxn : x / base < base ^ Z.of_nat n) by (apply Z.div_lt_upper_bound; lia).
      destruct n as [|n]; [cbn in Hxn; lia|]. pose proof (I4 (S n) Hxn ltac:(lia)). lia.
Qed.
