(* ===== verification/Console.v ===== *)
(** * The console

    Models [src/xv6/console.c]: formatted output, the position of the next glyph
    on the screen, and the input line with its editing keys.

    Output is recorded as events, newest first: bytes sent to the serial line,
    glyphs drawn, the screen scrolled.  [consoleintr] is given the characters that
    [getc] returns until it returns a negative one.  [consoleread] is cut at
    [sleep]; it is entered and left with the inode unlocked.  Bytes are stored as
    8-bit values. *)

From S2P Require Import Prelude Mem Numeral.
Local Open Scope Z_scope.

Definition BACKSPACE : Z := 0x100.
Definition CONSOLE_HORIZONTAL_MAX : Z := 53.
Definition CONSOLE_VERTICAL_MAX : Z := 20.
Definition FONT_WIDTH : Z := 15.
Definition FONT_HEIGHT : Z := 30.
Definition INPUT_BUF : Z := 128.
(** [C(x)], for a letter given by its code. *)
Definition C (x : Z) : Z := x - 64.
Definition NEWLINE : Z := 10.
Definition CR : Z := 13.

Inductive event := EUart (c : Z) | EGlyph (x y c : Z) | EScroll (height : Z).

(** [input], [console_pos], [panicked], the output so far, and how often
    [wakeup(&input.r)] was called. *)
Record cons := mkcons {
  ibuf : list Z; ir : Z; iw : Z; ie : Z; console_pos : Z; panicked : bool; cout : list event; cwoken : nat }.
Definition set_ibuf (v : list Z) (x : cons) : cons := mkcons v (ir x) (iw x) (ie x) (console_pos x) (panicked x) (cout x) (cwoken x).
Definition set_ir (v : Z) (x : cons) : cons := mkcons (ibuf x) v (iw x) (ie x) (console_pos x) (panicked x) (cout x) (cwoken x).
Definition set_iw (v : Z) (x : cons) : cons := mkcons (ibuf x) (ir x) v (ie x) (console_pos x) (panicked x) (cout x) (cwoken x).
Definition set_ie (v : Z) (x : cons) : cons := mkcons (ibuf x) (ir x) (iw x) v (console_pos x) (panicked x) (cout x) (cwoken x).
Definition set_console_pos (v : Z) (x : cons) : cons := mkcons (ibuf x) (ir x) (iw x) (ie x) v (panicked x) (cout x) (cwoken x).
Definition set_cout (v : list event) (x : cons) : cons := mkcons (ibuf x) (ir x) (iw x) (ie x) (console_pos x) (panicked x) v (cwoken x).
Definition set_cwoken (v : nat) (x : cons) : cons := mkcons (ibuf x) (ir x) (iw x) (ie x) (console_pos x) (panicked x) (cout x) v.

Definition emit (e : event) : M cons unit := modify (fun s => set_cout (e :: cout s) s).
Definition move (f : Z -> Z) : M cons unit := modify (fun s => set_console_pos (f (console_pos s)) s).
Definition wakeup_readers : M cons unit := modify (fun s => set_cwoken (S (cwoken s)) s).

(** ** Output *)

(** [if(console_pos >= ...) { console_pos -= ...; graphic_scroll_up(30); }] *)
Definition scroll_if_full : M cons unit :=
  p <- gets console_pos ;;
  if p >=? CONSOLE_VERTICAL_MAX * CONSOLE_HORIZONTAL_MAX then
    move (fun p => p - CONSOLE_HORIZONTAL_MAX) ;;; emit (EScroll 30)
  else ret tt.

Definition graphic_putc (c : Z) : M cons unit :=
  if c =? NEWLINE then
    move (fun p => p + (CONSOLE_HORIZONTAL_MAX - p mod CONSOLE_HORIZONTAL_MAX)) ;;;
    scroll_if_full
  else if c =? BACKSPACE then
    p <- gets console_pos ;;
    if p >? 0 then move (fun p => p - 1) else ret tt
  else
    scroll_if_full ;;;
    p <- gets console_pos ;;
    emit (EGlyph (p mod CONSOLE_HORIZONTAL_MAX * FONT_WIDTH + 2) (p / CONSOLE_HORIZONTAL_MAX * FONT_HEIGHT) c) ;;;
    move (fun p => p + 1).

Definition consputc (c : Z) : M cons unit :=
  p <- gets panicked ;;
  if p : bool then nofuel
  else
    (if c =? BACKSPACE then emit (EUart 8) ;;; emit (EUart 32) ;;; emit (EUart 8)
     else emit (EUart c)) ;;;
    graphic_putc c.

(** [digits[d]] *)
Definition hexdigit (d : Z) : Z := if d <? 10 then 48 + d else 97 + (d - 10).
(** What [printint] prints; [xx] is an [int], which has at most 32 digits. *)
Definition int_chars (xx base : Z) (sign : bool) : list Z :=
  let neg := sign && (xx <? 0) in
  let x := if neg then u32 (- xx) else u32 xx in
  (if neg then [45] else []) ++ (hexdigit <$> reverse (ndigits 32 x base)).

Fixpoint putchars (l : list Z) : M cons unit :=
  match l with [] => ret tt | c :: l' => consputc c ;;; putchars l' end.
Definition printint (xx base : Z) (sign : bool) : M cons unit := putchars (int_chars xx base sign).

Section Cprintf.
(** The string at an address. *)
Context (str : Z -> list Z).

(** The string "(null)". *)
Definition NULLSTR : list Z := [40; 110; 117; 108; 108; 41].

(** [cprintf] from the current position of the format; [argp] are the remaining
    argument words, of which the caller passes enough. *)
Fixpoint cprintf (fmt argp : list Z) : M cons unit :=
  match fmt with
  | [] => ret tt
  | c :: fmt1 =>
      if negb (c =? 37) then consputc c ;;; cprintf fmt1 argp
      else
        match fmt1 with
        | [] => ret tt
        | d :: fmt2 =>
            let arg := default 0 (head argp) in
            if d =? 100 then printint (s32 arg) 10 true ;;; cprintf fmt2 (tail argp)
            else if (d =? 120) || (d =? 112) then printint (s32 arg) 16 false ;;; cprintf fmt2 (tail argp)
            else if d =? 115 then putchars (if arg =? 0 then NULLSTR else str arg) ;;; cprintf fmt2 (tail argp)
            else if d =? 37 then consputc 37 ;;; cprintf fmt2 argp
            else consputc 37 ;;; consputc d ;;; cprintf fmt2 argp
        end
  end.
End Cprintf.

(** ** Input *)

(** [input.buf[i % INPUT_BUF]] *)
Definition ibyte (s : cons) (i : Z) : Z := default 0 (ibuf s !! Z.to_nat (i mod INPUT_BUF)).

(** [case C('U')]; [n] bounds the rounds by what is on the line. *)
Fixpoint kill_line (n : nat) : M cons unit :=
  match n with
  | O => ret tt
  | S n' =>
      s <- get ;;
      if negb (ie s =? iw s) && negb (ibyte s (u32 (ie s - 1)) =? NEWLINE) then
        modify (fun s => set_ie (u32 (ie s - 1)) s) ;;;
        consputc BACKSPACE ;;;
        kill_line n'
      else ret tt
  end.

(** [default:] an ordinary character. *)
Definition console_store (c : Z) : M cons unit :=
  s <- get ;;
  if negb (c =? 0) && (u32 (ie s - ir s) <? INPUT_BUF) then
    let c := if c =? CR then NEWLINE else c in
    modify (set_ibuf (<[Z.to_nat (ie s mod INPUT_BUF) := u8 c]> (ibuf s))) ;;;
    modify (set_ie (u32 (ie s + 1))) ;;;
    consputc c ;;;
    s <- get ;;
    if (c =? NEWLINE) || (c =? C 68) || (ie s =? u32 (ir s + INPUT_BUF)) then
      modify (set_iw (ie s)) ;;; wakeup_readers
    else ret tt
  else ret tt.

(** One character; the result tells whether to dump the processes. *)
Definition console_char (c : Z) : M cons bool :=
  if c =? C 80 then ret true
  else if c =? C 85 then
    n <- gets (fun s => u32 (ie s - iw s)) ;;
    kill_line (Z.to_nat n) ;;;
    ret false
  else if (c =? C 72) || (c =? 0x7f) then
    s <- get ;;
    (if negb (ie s =? iw s) then modify (set_ie (u32 (ie s - 1))) ;;; consputc BACKSPACE else ret tt) ;;;
    ret false
  else console_store c ;;; ret false.

(** [consoleintr] without the call of [procdump]: whether it is made. *)
Fixpoint consoleintr (cs : list Z) : M cons bool :=
  match cs with
  | [] => ret false
  | c :: cs' => d <- console_char c ;; d' <- consoleintr cs' ;; ret (d || d')
  end.

(** [while(n > 0)] of [consoleread]: the bytes stored, and the return value or, if
    it sleeps, the [n] it sleeps with. *)
Fixpoint consoleread (killed : bool) (target : Z) (n : nat) : M cons (list Z * (Z + nat)) :=
  match n with
  | O => ret ([], inl target)
  | S n' =>
      s <- get ;;
      if ir s =? iw s then ret ([], if killed then inl (-1) else inr n)
      else
        let c := ibyte s (ir s) in
        modify (set_ir (u32 (ir s + 1))) ;;;
        if c =? C 68 then
          (if Z.of_nat n <? target then modify (set_ir (ir s)) else ret tt) ;;;
          ret ([], inl (target - Z.of_nat n))
        else if c =? NEWLINE then ret ([c], inl (target - Z.of_nat n'))
        else
          r <- consoleread killed target n' ;;
          ret (c :: fst r, snd r)
  end.

(** [for(i = 0; i < n; i++) consputc(buf[i] & 0xff)] *)
Definition consolewrite (buf : list Z) : M cons Z := putchars (u8 <$> buf) ;;; ret (Z.of_nat (length buf)).
