(* ===== verification/ConsoleProps.v ===== *)
(** * Properties of the console

    The input line against a simple line editor, glyphs inside the screen, and
    printed numbers. *)

From S2P Require Import Prelude Mem Ring Numeral Console.
Local Open Scope Z_scope.

(** ** Output *)

(** The cursor is on the screen or just behind its end, and every glyph was drawn
    inside the grid. *)
Definition on_screen (e : event) : Prop :=
  match e with
  | EGlyph x y _ => 2 <= x <= (CONSOLE_HORIZONTAL_MAX - 1) * FONT_WIDTH + 2 /\ 0 <= y <= (CONSOLE_VERTICAL_MAX - 1) * FONT_HEIGHT
  | _ => True
  end.
Definition screen_ok (s : cons) : Prop :=
  0 <= console_pos s <= CONSOLE_VERTICAL_MAX * CONSOLE_HORIZONTAL_MAX /\ Forall on_screen (cout s).

(** Only the screen and the serial line changed. *)
Record output (s s' : cons) : Prop := mkoutput {
  o_buf : ibuf s' = ibuf s; o_r : ir s' = ir s; o_w : iw s' = iw s; o_e : ie s' = ie s;
  o_panic : panicked s' = panicked s; o_woken : cwoken s' = cwoken s;
  o_screen : screen_ok s -> screen_ok s' }.

Lemma output_refl s : output s s.
Proof. split; auto. Qed.
Lemma output_trans s s1 s2 : output s s1 -> output s1 s2 -> output s s2.
Proof. intros [] []. split; try congruence; auto. Qed.

Lemma output_emit e s : on_screen e -> output s (set_cout (e :: cout s) s).
Proof. intros He. split; auto. intros [H1 H2]. split; [exact H1|]. cbn. auto. Qed.

Lemma output_move f s : (screen_ok s -> 0 <= f (console_pos s) <= CONSOLE_VERTICAL_MAX * CONSOLE_HORIZONTAL_MAX) ->
  output s (set_console_pos (f (console_pos s)) s).
Proof. intros Hf. split; auto. intros H. pose proof (Hf H). destruct H. split; auto. Qed.

(** After a scroll the cursor is one line higher; without, it was on the screen. *)
Lemma wp_scroll {A} (k : unit -> M cons A) Q s :
  (console_pos s < CONSOLE_VERTICAL_MAX * CONSOLE_HORIZONTAL_MAX -> wp (k tt) Q s) ->
  (CONSOLE_VERTICAL_MAX * CONSOLE_HORIZONTAL_MAX <= console_pos s ->
   wp (k tt) Q (set_cout (EScroll 30 :: cout s) (set_console_pos (console_pos s - CONSOLE_HORIZONTAL_MAX) s))) ->
  wp (x <- scroll_if_full ;; k x) Q s.
Proof.
  intros H1 H2. apply wp_bind. unfold scroll_if_full. apply wp_bind, wp_gets. destruct (_ >=? _) eqn:E; zbool.
  - apply wp_bind, wp_modify, wp_modify. apply H2. lia.
  - apply wp_pure, H1. lia.
Qed.

Ltac screen := unfold CONSOLE_VERTICAL_MAX, CONSOLE_HORIZONTAL_MAX, FONT_WIDTH, FONT_HEIGHT in *;
  cbn [console_pos set_console_pos set_cout on_screen cout] in *.

Lemma glyph_on_screen p c : 0 <= p < CONSOLE_VERTICAL_MAX * CONSOLE_HORIZONTAL_MAX ->
  on_screen (EGlyph (p mod CONSOLE_HORIZONTAL_MAX * FONT_WIDTH + 2) (p / CONSOLE_HORIZONTAL_MAX * FONT_HEIGHT) c).
Proof.
  unfold on_screen. screen. intros H. pose proof (Z.mod_pos_bound p 53 ltac:(lia)). assert (0 <= p / 53 < 20); [|lia].
  split; [apply Z.div_pos; lia|apply Z.div_lt_upper_bound; lia].
Qed.

Lemma graphic_putc_ok c s : wp (graphic_putc c) (fun _ s' => output s s') s.
Proof.
  unfold graphic_putc. destruct (c =? NEWLINE); [|destruct (c =? BACKSPACE)].
  - apply wp_bind, wp_modify. assert (Hp : console_pos s mod 53 < 53) by (apply Z.mod_pos_bound; lia).
    unfold scroll_if_full. apply wp_bind, wp_gets. destruct (_ >=? _) eqn:E; zbool.
    + apply wp_bind, wp_modify, wp_modify. split; auto. intros [H1 H2]. split; cbn; [screen; Z.to_euclidean_division_equations; lia|].
      constructor; [exact I|exact H2].
    + apply wp_pure. split; auto. intros [H1 H2]. split; [screen; Z.to_euclidean_division_equations; lia|exact H2].
  - apply wp_bind, wp_gets. destruct (_ >? 0) eqn:E; zbool; [|apply wp_pure, output_refl].
    apply wp_modify, (output_move (fun p => p - 1)). intros [H _]. screen. lia.
  - apply wp_scroll; intros Hp; apply wp_bind, wp_gets, wp_bind, wp_modify, wp_modify; split; auto; intros [H1 H2];
      (split; [screen; lia|constructor; [apply glyph_on_screen; screen; lia|]]); [exact H2|constructor; [exact I|exact H2]].
Qed.

Lemma consputc_ok c s : panicked s = false -> wp (consputc c) (fun _ s' => output s s') s.
Proof.
  intros Hp. unfold consputc. apply wp_bind, wp_gets. rewrite Hp. apply wp_bind.
  assert (He : wp (if c =? BACKSPACE then emit (EUart 8) ;;; emit (EUart 32) ;;; emit (EUart 8) else emit (EUart c)) (fun _ s' => output s s') s).
  { destruct (_ =? _); [|apply wp_modify, output_emit; exact I]. apply wp_bind, wp_modify, wp_bind, wp_modify, wp_modify.
    eapply output_trans; [|apply output_emit; exact I]. eapply output_trans; apply output_emit; exact I. }
  eapply wp_mono; [exact He|]. intros [] s1 O1. eapply wp_mono; [apply graphic_putc_ok|]. intros [] s2 O2. eapply output_trans; eauto.
Qed.

(** ** The line editor *)

#[export] Instance input_size : RingSize INPUT_BUF.
Proof. split; reflexivity. Qed.

(** Bytes ready for [consoleread], and the line being typed. *)
Record editor := mked { ready : list Z; line : list Z }.

(** What a character does; the flag says whether readers are woken. *)
Definition ed_char (c : Z) (a : editor) : editor * bool :=
  if c =? C 80 then (a, false)
  else if c =? C 85 then (mked (ready a) [], false)
  else if (c =? C 72) || (c =? 0x7f) then (mked (ready a) (removelast (line a)), false)
  else if negb (c =? 0) && (Z.of_nat (length (ready a ++ line a)) <? INPUT_BUF) then
    let c' := if c =? CR then NEWLINE else c in
    if (c' =? NEWLINE) || (c' =? C 68) || (Z.of_nat (length (ready a ++ line a)) + 1 =? INPUT_BUF)
    then (mked (ready a ++ line a ++ [c']) [], true)
    else (mked (ready a) (line a ++ [c']), false)
  else (a, false).
(** A read: what is delivered, the outcome, and what stays ready. *)
Fixpoint ed_read (killed : bool) (target : Z) (n : nat) (l : list Z) : list Z * (Z + nat) * list Z :=
  match n, l with
  | O, _ => ([], inl target, l)
  | S n', [] => ([], if killed then inl (-1) else inr n, [])
  | S n', c :: l' =>
      if c =? C 68 then ([], inl (target - Z.of_nat n), if Z.of_nat n <? target then l else l')
      else if c =? NEWLINE then ([c], inl (target - Z.of_nat n'), l')
      else let '(d, r, l'') := ed_read killed target n' l' in (c :: d, r, l'')
  end.

Fixpoint ed_chars (cs : list Z) (a : editor) : editor * nat :=
  match cs with
  | [] => (a, 0%nat)
  | c :: cs' =>
      let (a1, w) := ed_char c a in
      let (a2, n) := ed_chars cs' a1 in
      (a2, (n + if w then 1 else 0)%nat)
  end.

Definition nready (s : cons) : Z := u32 (iw s - ir s).
Definition nline (s : cons) : Z := u32 (ie s - iw s).
Definition abs_ed (s : cons) : editor := mked (ring INPUT_BUF (ibuf s) (ir s) (nready s)) (ring INPUT_BUF (ibuf s) (iw s) (nline s)).

Record cons_ok (s : cons) : Prop := mkcok {
  co_len : length (ibuf s) = 128%nat;
  co_r : 0 <= ir s < 2 ^ 32; co_w : 0 <= iw s < 2 ^ 32; co_e : 0 <= ie s < 2 ^ 32;
  co_fit : nready s + nline s <= INPUT_BUF;
  co_line : NEWLINE ∉ line (abs_ed s);
  co_panic : panicked s = false }.

Lemma nready_range s : 0 <= nready s < 2 ^ 32.
Proof. unfold nready, u32. Z.to_euclidean_division_equations. lia. Qed.
Lemma nline_range s : 0 <= nline s < 2 ^ 32.
Proof. unfold nline, u32. Z.to_euclidean_division_equations. lia. Qed.

Lemma total_count s : cons_ok s -> u32 (ie s - ir s) = nready s + nline s.
Proof.
  intros [_ H1 H2 H3 H4 _ _]. unfold nready, nline, u32, INPUT_BUF in *. Z.to_euclidean_division_equations. lia.
Qed.

Lemma length_abs s : Z.of_nat (length (ready (abs_ed s) ++ line (abs_ed s))) = nready s + nline s.
Proof.
  cbn. rewrite length_app, !length_ring. pose proof (nready_range s). pose proof (nline_range s). lia.
Qed.

(** Output does not touch the input. *)
Lemma output_abs s s' : output s s' -> abs_ed s' = abs_ed s.
Proof. intros [H1 H2 H3 H4 _ _ _]. unfold abs_ed, nready, nline. rewrite H1, H2, H3, H4. reflexivity. Qed.

Lemma output_cons_ok s s' : output s s' -> cons_ok s -> cons_ok s'.
Proof.
  intros O [C1 C2 C3 C4 C5 C6 C7]. pose proof (output_abs _ _ O) as Ea. destruct O as [H1 H2 H3 H4 H5 _ _].
  split; rewrite ?Ea, ?H1, ?H2, ?H3, ?H4, ?H5; auto. unfold nready, nline in *. rewrite H2, H3, H4. exact C5.
Qed.

(** The edit index moved back over one byte of the line. *)
Lemma back_ok s : cons_ok s -> ie s <> iw s -> let s' := set_ie (u32 (ie s - 1)) s in
  nline s' = nline s - 1 /\ 0 < nline s /\ abs_ed s' = mked (ready (abs_ed s)) (removelast (line (abs_ed s))) /\ cons_ok s'.
Proof.
  intros Ho Hne s'. assert (Hl : nline s' = nline s - 1 /\ 0 < nline s).
  { destruct Ho as [_ _ H2 H3 _ _ _]. unfold s', nline, u32. cbn. Z.to_euclidean_division_equations. lia. }
  destruct Hl as [El Hp].
  assert (Ea : abs_ed s' = mked (ready (abs_ed s)) (removelast (line (abs_ed s)))).
  { unfold abs_ed at 1. cbn [ready line abs_ed]. f_equal. cbn [ibuf iw s' set_ie]. fold s'. rewrite El.
    replace (nline s) with (nline s - 1 + 1) at 2 by lia. rewrite (ring_snoc _ _ (nline s - 1)) by lia. rewrite removelast_last. reflexivity. }
  split; [exact El|]. split; [exact Hp|]. split; [exact Ea|]. destruct Ho as [C1 C2 C3 C4 C5 C6 C7]. split; auto.
  - cbn. apply u32_range.
  - change (nready s') with (nready s). rewrite El. lia.
  - rewrite Ea. cbn [line]. intros Hin. apply C6. revert Hin. generalize (line (abs_ed s)) as l. intros l Hin.
    destruct (decide (l = [])) as [->|Hl]; [exact Hin|]. rewrite (app_removelast_last 0 Hl). apply elem_of_app. auto.
Qed.

(** The console did what the editor did, [w] wakeups included. *)
Record follows (s : cons) (a : editor) (w : nat) (s' : cons) : Prop := mkfollows {
  fo_ok : cons_ok s';
  fo_abs : abs_ed s' = a;
  fo_woken : cwoken s' = (w + cwoken s)%nat;
  fo_screen : screen_ok s -> screen_ok s' }.

Lemma follows_same s : cons_ok s -> follows s (abs_ed s) 0 s.
Proof. intros H. split; auto. Qed.

Lemma follows_output s a w s1 s2 : follows s a w s1 -> output s1 s2 -> follows s a w s2.
Proof.
  intros [H1 H2 H3 H4] O. split; [eapply output_cons_ok; eauto|rewrite (output_abs _ _ O); exact H2| |].
  - rewrite (o_woken _ _ O). exact H3.
  - intros Hs. apply (o_screen _ _ O), H4, Hs.
Qed.

Lemma follows_trans s a1 w1 s1 a2 w2 s2 : follows s a1 w1 s1 -> follows s1 a2 w2 s2 -> follows s a2 (w2 + w1) s2.
Proof. intros [] []. split; auto. lia. Qed.

Lemma back_follows s : cons_ok s -> ie s <> iw s ->
  follows s (mked (ready (abs_ed s)) (removelast (line (abs_ed s)))) 0 (set_ie (u32 (ie s - 1)) s).
Proof. intros Ho Hne. destruct (back_ok s Ho Hne) as (_ & _ & Ea & Ho'). split; auto. Qed.

Lemma kill_line_ok n : forall s, cons_ok s -> nline s = Z.of_nat n ->
  wp (kill_line n) (fun _ s' => follows s (mked (ready (abs_ed s)) []) 0 s') s.
Proof.
  induction n as [|n IH]; intros s Ho Hn; cbn [kill_line].
  - apply wp_pure. assert (E : abs_ed s = mked (ready (abs_ed s)) []).
    { unfold abs_ed at 1. rewrite Hn. reflexivity. }
    rewrite <- E. apply follows_same, Ho.
  - apply wp_bind, wp_gets. assert (Hne : ie s <> iw s).
    { intros E. unfold nline in Hn. rewrite E, Z.sub_diag in Hn. change (u32 0) with 0 in Hn. lia. }
    destruct (back_ok s Ho Hne) as (El & Hp & Ea & Ho').
    assert (Hb : ibyte s (u32 (ie s - 1)) <> NEWLINE).
    { intros E. apply (co_line _ Ho). cbn [line abs_ed]. replace (nline s) with (nline s - 1 + 1) by lia.
      rewrite ring_snoc by lia. apply elem_of_app. right. apply list_elem_of_singleton. rewrite <- E. unfold ibyte.
      change (ring_at INPUT_BUF (ibuf s) (u32 (ie s - 1)) = ring_at INPUT_BUF (ibuf s) (u32 (iw s + (nline s - 1)))).
      rewrite !ring_at_u32. unfold ring_at. do 3 f_equal. unfold nline, u32, INPUT_BUF. Z.to_euclidean_division_equations. lia. }
    rewrite (proj2 (Z.eqb_neq _ _) Hne), (proj2 (Z.eqb_neq _ _) Hb). cbn [negb andb].
    apply wp_bind, wp_modify, wp_bind. eapply wp_mono; [apply consputc_ok, Ho'|]. intros [] s1 O1.
    pose proof (follows_output _ _ _ _ _ (back_follows s Ho Hne) O1) as F1.
    eapply wp_mono; [apply (IH s1 (fo_ok _ _ _ _ F1))|].
    + unfold nline. rewrite (o_e _ _ O1), (o_w _ _ O1). fold (nline (set_ie (u32 (ie s - 1)) s)). lia.
    + intros [] s2 F2. rewrite (fo_abs _ _ _ _ F1) in F2. exact (follows_trans _ _ _ _ _ _ _ F1 F2).
Qed.

(** A byte typed at the end of the line. *)
Lemma type_ok c s : cons_ok s -> nready s + nline s < INPUT_BUF -> 0 <= c < 256 -> 
  let s' := set_ie (u32 (ie s + 1)) (set_ibuf (<[Z.to_nat (ie s mod INPUT_BUF) := u8 c]> (ibuf s)) s) in
  length (ibuf s') = 128%nat /\ nready s' = nready s /\ nline s' = nline s + 1 /\
  abs_ed s' = mked (ready (abs_ed s)) (line (abs_ed s) ++ [c]).
Proof.
  intros Ho Hf Hc s'. pose proof (nready_range s) as Hr. pose proof (nline_range s) as Hl. pose proof Ho as [C1 C2 C3 C4 C5 C6 C7].
  assert (El : nline s' = nline s + 1).
  { unfold s', nline, u32, INPUT_BUF in *. cbn. Z.to_euclidean_division_equations. lia. }
  split; [cbn; rewrite length_insert; exact C1|]. split; [reflexivity|]. split; [exact El|].
  assert (Em : ie s mod INPUT_BUF = u32 (iw s + nline s) mod INPUT_BUF).
  { rewrite u32_mod_ring. unfold nline, u32, INPUT_BUF. Z.to_euclidean_division_equations. lia. }
  unfold abs_ed. cbn [ready line]. f_equal.
  - change (nready s') with (nready s). cbn [ibuf ir s' set_ie set_ibuf].
    replace (ie s mod INPUT_BUF) with (u32 (ir s + (nready s + nline s)) mod INPUT_BUF).
    + apply ring_insert_other; [rewrite C1; reflexivity|lia|lia].
    + rewrite u32_mod_ring. rewrite <- (total_count s Ho). unfold u32, INPUT_BUF. Z.to_euclidean_division_equations. lia.
  - rewrite El. cbn [ibuf iw s' set_ie set_ibuf]. rewrite Em. rewrite u8_small by exact Hc. apply ring_insert; [rewrite C1; reflexivity|lia].
Qed.

(** The line handed over to the readers. *)
Lemma hand_over_ok s : length (ibuf s) = 128%nat -> 0 <= ir s < 2 ^ 32 -> 0 <= iw s < 2 ^ 32 -> 0 <= ie s < 2 ^ 32 ->
  nready s + nline s <= INPUT_BUF -> panicked s = false ->
  let s' := set_iw (ie s) s in
  cons_ok s' /\ abs_ed s' = mked (ready (abs_ed s) ++ line (abs_ed s)) [].
Proof.
  intros H1 H2 H3 H4 H5 H6 s'. pose proof (nready_range s) as Hr. pose proof (nline_range s) as Hl.
  assert (E1 : nready s' = nready s + nline s).
  { unfold s', nready, nline, u32, INPUT_BUF in *. cbn. Z.to_euclidean_division_equations. lia. }
  assert (E2 : nline s' = 0) by (unfold s', nline; cbn; rewrite Z.sub_diag; reflexivity).
  assert (Ea : abs_ed s' = mked (ready (abs_ed s) ++ line (abs_ed s)) []).
  { unfold abs_ed at 1. rewrite E1, E2. cbn [ibuf ir iw s' set_iw]. rewrite ring_nil, ring_app by lia. f_equal. cbn [ready line abs_ed]. f_equal.
    rewrite ring_u32. unfold ring. apply list_fmap_ext. intros i k _. unfold ring_at. do 3 f_equal.
    unfold nready, u32, INPUT_BUF. Z.to_euclidean_division_equations. lia. }
  split; [|exact Ea]. split; auto; [lia|]. rewrite Ea. apply not_elem_of_nil.
Qed.

Lemma console_store_ok c s : cons_ok s -> 0 <= c < 256 -> c <> C 80 -> c <> C 85 -> (c =? C 72) || (c =? 0x7f) = false ->
  wp (console_store c) (fun _ s' =>
    follows s (fst (ed_char c (abs_ed s))) (if snd (ed_char c (abs_ed s)) then 1 else 0) s') s.
Proof.
  intros Ho Hc N1 N2 N3. unfold console_store, ed_char. rewrite length_abs, N3, (proj2 (Z.eqb_neq _ _) N1), (proj2 (Z.eqb_neq _ _) N2).
  apply wp_bind, wp_gets. rewrite (total_count s Ho).
  destruct (negb (c =? 0) && (nready s + nline s <? INPUT_BUF)) eqn:E3; [|apply wp_pure, follows_same, Ho].
  cbv zeta. set (c' := if c =? CR then NEWLINE else c). assert (Hc' : 0 <= c' < 256) by (unfold c', NEWLINE; destruct (c =? CR); lia).
  apply andb_true_iff in E3 as [_ E3]. apply Z.ltb_lt in E3. pose proof Ho as [C1 C2 C3 C4 C5 C6 C7].
  destruct (type_ok c' s Ho E3 Hc') as (T1 & T2 & T3 & T4). apply wp_bind, wp_modify, wp_bind, wp_modify.
  set (s1 := set_ie _ (set_ibuf _ s)) in *.
  apply wp_bind. eapply wp_mono; [apply (consputc_ok c' s1 C7)|]. intros [] s2 O2. apply wp_bind, wp_gets.
  pose proof (output_abs _ _ O2) as Ea. rewrite T4 in Ea. destruct O2 as [B1 B2 B3 B4 B5 B6 B7].
  assert (R2 : nready s2 = nready s) by (rewrite <- T2; unfold nready; rewrite B2, B3; reflexivity).
  assert (L2 : nline s2 = nline s + 1) by (rewrite <- T3; unfold nline; rewrite B3, B4; reflexivity).
  assert (He : (ie s2 =? u32 (ir s2 + INPUT_BUF)) = (nready s + nline s + 1 =? INPUT_BUF)).
  { pose proof (total_count s Ho) as Et. rewrite B4, B2. cbn. unfold INPUT_BUF, u32 in *.
    apply eq_true_iff_eq. rewrite !Z.eqb_eq. Z.to_euclidean_division_equations. lia. }
  rewrite He. destruct ((c' =? NEWLINE) || (c' =? C 68) || (nready s + nline s + 1 =? INPUT_BUF)) eqn:Ew.
  - apply wp_bind, wp_modify, wp_modify. cbn [fst snd].
    destruct (hand_over_ok s2 ltac:(rewrite B1; exact T1) ltac:(rewrite B2; exact C2) ltac:(rewrite B3; exact C3)
      ltac:(rewrite B4; apply u32_range) ltac:(rewrite R2, L2; lia) ltac:(rewrite B5; exact C7)) as [Ho2 Ea2].
    rewrite Ea in Ea2. cbn [ready line] in Ea2. split; [|exact Ea2| |].
    + destruct Ho2 as [D1 D2 D3 D4 D5 D6 D7]. split; auto.
    + cbn. rewrite B6. reflexivity.
    + intros Hs. apply B7. exact Hs.
  - apply wp_pure. cbn [fst snd]. split; [|exact Ea|rewrite B6; reflexivity|intros Hs; apply B7; exact Hs].
    split; rewrite ?Ea, ?B1, ?B2, ?B3, ?B4, ?B5; cbn; auto using u32_range; [lia|].
    rewrite elem_of_app, list_elem_of_singleton. apply orb_false_iff in Ew as [Ew _]. apply orb_false_iff in Ew as [Ew _].
    apply Z.eqb_neq in Ew. intros [?|?]; [tauto|congruence].
Qed.

Lemma console_char_ok c s : cons_ok s -> 0 <= c < 256 ->
  wp (console_char c) (fun d s' => d = (c =? C 80) /\
    follows s (fst (ed_char c (abs_ed s))) (if snd (ed_char c (abs_ed s)) then 1 else 0) s') s.
Proof.
  intros Ho Hc. unfold console_char.
  destruct (Z.eqb_spec c (C 80)) as [->|E0]; [apply wp_pure; split; [reflexivity|apply follows_same, Ho]|].
  destruct (Z.eqb_spec c (C 85)) as [->|E1].
  { apply wp_bind, wp_gets, wp_bind. eapply wp_mono; [apply kill_line_ok; [exact Ho|]|].
    - fold (nline s). pose proof (nline_range s). lia.
    - intros [] s' F. apply wp_pure. split; [reflexivity|exact F]. }
  destruct ((c =? C 72) || (c =? 0x7f)) eqn:E2.
  - unfold ed_char. rewrite E2, (proj2 (Z.eqb_neq _ _) E0), (proj2 (Z.eqb_neq _ _) E1).
    apply wp_bind, wp_gets, wp_bind. destruct (Z.eqb_spec (ie s) (iw s)) as [Ee|Ee]; cbn [negb].
    + apply wp_pure, wp_pure. split; [reflexivity|]. replace (removelast (line (abs_ed s))) with (line (abs_ed s)).
      * change (mked (ready (abs_ed s)) (line (abs_ed s))) with (abs_ed s). apply follows_same, Ho.
      * cbn. unfold nline. rewrite Ee, Z.sub_diag. reflexivity.
    + apply wp_bind, wp_modify. pose proof (back_follows s Ho Ee) as F.
      eapply wp_mono; [apply consputc_ok, (fo_ok _ _ _ _ F)|]. intros [] s1 O1. apply wp_pure. split; [reflexivity|].
      exact (follows_output _ _ _ _ _ F O1).
  - apply wp_bind. eapply wp_mono; [apply (console_store_ok c s Ho Hc E0 E1 E2)|]. intros [] s' F. apply wp_pure. auto.
Qed.

(** One byte taken by a reader. *)
Lemma pop_ok s : cons_ok s -> ir s <> iw s -> let s' := set_ir (u32 (ir s + 1)) s in
  ready (abs_ed s) = ibyte s (ir s) :: ready (abs_ed s') /\ line (abs_ed s') = line (abs_ed s) /\ cons_ok s'.
Proof.
  intros [C1 C2 C3 C4 C5 C6 C7] Hne s'. pose proof (nline_range s).
  assert (Er : nready s' = nready s - 1 /\ 0 < nready s).
  { unfold s', nready, u32. cbn. Z.to_euclidean_division_equations. lia. }
  destruct Er as [Er Hp]. split; [|split; [reflexivity|]].
  - cbn [ready abs_ed]. rewrite Er. apply ring_cons, Hp.
  - split; auto; [cbn; apply u32_range|]. rewrite Er. change (nline s') with (nline s). lia.
Qed.

Lemma consoleread_ok killed target n : forall s, cons_ok s ->
  wp (consoleread killed target n) (fun r s' =>
    r = fst (ed_read killed target n (ready (abs_ed s))) /\
    follows s (mked (snd (ed_read killed target n (ready (abs_ed s)))) (line (abs_ed s))) 0 s') s.
Proof.
  induction n as [|n IH]; intros s Ho; cbn [consoleread].
  { apply wp_pure. split; [reflexivity|]. exact (follows_same s Ho). }
  apply wp_bind, wp_gets. destruct (Z.eqb_spec (ir s) (iw s)) as [Ee|Ee].
  - apply wp_pure. assert (E : ready (abs_ed s) = []) by (cbn; unfold nready; rewrite Ee, Z.sub_diag; reflexivity).
    rewrite E. cbn. split; [reflexivity|]. pose proof (follows_same s Ho) as F. unfold abs_ed in F at 1. cbn [ready abs_ed] in E. rewrite E in F. exact F.
  - destruct (pop_ok s Ho Ee) as (Er & El & Ho'). rewrite Er. cbn [ed_read].
    assert (F : follows s (mked (ready (abs_ed (set_ir (u32 (ir s + 1)) s))) (line (abs_ed s))) 0 (set_ir (u32 (ir s + 1)) s))
      by (split; auto).
    apply wp_bind, wp_modify. cbv zeta. destruct (ibyte s (ir s) =? C 68).
    + apply wp_bind. destruct (Z.of_nat (S n) <? target).
      * apply wp_modify, wp_pure. split; [reflexivity|]. cbn [fst snd]. rewrite <- Er.
        replace (set_ir (ir s) (set_ir (u32 (ir s + 1)) s)) with s by (destruct s; reflexivity). exact (follows_same s Ho).
      * apply wp_pure, wp_pure. split; [reflexivity|]. exact F.
    + destruct (ibyte s (ir s) =? NEWLINE); [apply wp_pure; split; [reflexivity|exact F]|].
      apply wp_bind. eapply wp_mono; [apply (IH _ Ho')|]. intros r s' [-> F']. apply wp_pure.
      destruct (ed_read killed target n _) as [[d o] l]. split; [reflexivity|].
      destruct F' as [G1 G2 G3 G4]. cbn [fst snd] in *. rewrite El in G2. split; auto.
Qed.

Lemma consoleintr_ok cs : forall s, cons_ok s -> Forall (fun c => 0 <= c < 256) cs ->
  wp (consoleintr cs) (fun _ s' => follows s (fst (ed_chars cs (abs_ed s))) (snd (ed_chars cs (abs_ed s))) s') s.
Proof.
  induction cs as [|c cs IH]; intros s Ho Hcs; cbn [consoleintr].
  { apply wp_pure, follows_same, Ho. }
  apply Forall_cons in Hcs as [Hc Hcs]. apply wp_bind. eapply wp_mono; [apply (console_char_ok c s Ho Hc)|]. intros d s1 [_ F1].
  apply wp_bind. eapply wp_mono; [apply (IH s1 (fo_ok _ _ _ _ F1) Hcs)|]. intros d' s2 F2. apply wp_pure.
  rewrite (fo_abs _ _ _ _ F1) in F2. cbn [ed_chars]. destruct (ed_char c (abs_ed s)) as [a1 w]. cbn [fst snd] in *.
  destruct (ed_chars cs a1) as [a2 n]. exact (follows_trans _ _ _ _ _ _ _ F1 F2).
Qed.

(** ** Properties *)

(** C35: The console is a line editor. As long as the console has not panicked, whatever is typed and read, and however often the 32-bit indices wrap around: [consoleintr] does to the line being typed and to the bytes handed over to readers what the editor [ed_char] does with each character (erase, kill, end of line, end of file, full buffer), and wakes the readers exactly when it hands over a line; [consoleread] delivers what [ed_read] takes from the bytes handed over: at most the rest of a line, with end of file kept for the next read if bytes precede it. Glyphs echoed stay on the screen. *)
Theorem console_line_discipline (s : cons) : cons_ok s ->
  (forall cs, Forall (fun c => 0 <= c < 256) cs ->
    wp (consoleintr cs) (fun _ s' => follows s (fst (ed_chars cs (abs_ed s))) (snd (ed_chars cs (abs_ed s))) s') s) /\
  (forall killed target n,
    wp (consoleread killed target n) (fun r s' =>
      r = fst (ed_read killed target n (ready (abs_ed s))) /\
      follows s (mked (snd (ed_read killed target n (ready (abs_ed s)))) (line (abs_ed s))) 0 s') s).
Proof. intros Ho. split; [intros cs; apply consoleintr_ok, Ho|intros; apply consoleread_ok, Ho]. Qed.

Lemma putchars_ok l : forall s, panicked s = false -> wp (putchars l) (fun _ s' => output s s') s.
Proof.
  induction l as [|c l IH]; intros s Hp; cbn [putchars]; [apply wp_pure, output_refl|].
  apply wp_bind. eapply wp_mono; [apply (consputc_ok c s Hp)|]. intros [] s1 O1.
  eapply wp_mono; [apply IH; rewrite (o_panic _ _ O1); exact Hp|]. intros [] s2 O2. eapply output_trans; eauto.
Qed.

Lemma cprintf_ok str n : forall fmt argp s, (length fmt <= n)%nat -> panicked s = false -> wp (cprintf str fmt argp) (fun _ s' => output s s') s.
Proof.
  induction n as [|n IH]; intros fmt argp s Hl Hp; (destruct fmt as [|c fmt]; [apply wp_pure, output_refl|]); cbn in Hl; [lia|].
  assert (Hseq : forall (m : M cons unit) fmt' argp', (length fmt' <= n)%nat -> wp m (fun _ s' => output s s') s ->
    wp (m ;;; cprintf str fmt' argp') (fun _ s' => output s s') s).
  { intros m fmt' argp' Hl' Hm. apply wp_bind. eapply wp_mono; [exact Hm|]. intros [] s1 O1.
    eapply wp_mono; [apply (IH fmt' argp' s1 Hl'); rewrite (o_panic _ _ O1); exact Hp|]. intros [] s2 O2. eapply output_trans; eauto. }
  cbn [cprintf]. destruct (negb (c =? 37)); [apply Hseq; [lia|apply consputc_ok, Hp]|].
  destruct fmt as [|d fmt]; [apply wp_pure, output_refl|]. cbn in Hl. cbv zeta.
  destruct (d =? 100); [apply Hseq; [lia|apply putchars_ok, Hp]|].
  destruct (_ || _); [apply Hseq; [lia|apply putchars_ok, Hp]|]. destruct (d =? 115); [apply Hseq; [lia|apply putchars_ok, Hp]|].
  destruct (d =? 37); [apply Hseq; [lia|apply consputc_ok, Hp]|].
  apply wp_bind. eapply wp_mono; [apply (consputc_ok 37 s Hp)|]. intros [] s1 O1. pose proof (o_panic _ _ O1) as Hp1. rewrite Hp in Hp1.
  apply wp_bind. eapply wp_mono; [apply (consputc_ok d s1 Hp1)|]. intros [] s2 O2.
  eapply wp_mono; [apply (IH fmt argp s2); [lia|rewrite (o_panic _ _ O2); exact Hp1]|]. intros [] s3 O3.
  eapply output_trans; [eapply output_trans|]; eauto.
Qed.

(** Output stays on the screen. As long as the console has not panicked, [cprintf] with any format and arguments and [consolewrite] of any bytes return, leave the input alone, and draw every glyph inside the grid of 53 columns and 20 lines, scrolling where needed. *)
Theorem console_output_on_screen (str : Z -> list Z) (s : cons) : panicked s = false -> screen_ok s ->
  (forall fmt argp, wp (cprintf str fmt argp) (fun _ s' => screen_ok s' /\ abs_ed s' = abs_ed s) s) /\
  (forall buf, wp (consolewrite buf) (fun r s' => r = Z.of_nat (length buf) /\ screen_ok s' /\ abs_ed s' = abs_ed s) s).
Proof.
  intros Hp Hs. split.
  - intros fmt argp. eapply wp_mono; [apply (cprintf_ok str _ fmt argp s (le_n _) Hp)|]. intros [] s' O. split; [apply O, Hs|apply output_abs, O].
  - intros buf. unfold consolewrite. apply wp_bind. eapply wp_mono; [apply (putchars_ok _ s Hp)|]. intros [] s' O. apply wp_pure.
    split; [reflexivity|]. split; [apply O, Hs|apply output_abs, O].
Qed.

(** Printed numbers. For every [int] and the bases in use, [printint] prints an optional minus sign and the digits, without leading zeros, of the number (in base 16 of its 32-bit pattern), the most negative number included; and what it prints fits the 16-byte buffer. *)
Theorem printint_correct (xx base : Z) (sign : bool) : - 2 ^ 31 <= xx < 2 ^ 31 -> base = 10 \/ base = 16 ->
  exists ds, int_chars xx base sign = (if sign && (xx <? 0) then [45] else []) ++ (hexdigit <$> ds) /\
    denotes base ds (if sign then Z.abs xx else u32 xx) /\ (length (int_chars xx base sign) <= 16)%nat.
Proof.
  intros Hx Hb. unfold int_chars. set (x := if sign && (xx <? 0) then u32 (- xx) else u32 xx). exists (reverse (ndigits 32 x base)).
  assert (Hr : 0 <= x < 2 ^ 32) by (unfold x; destruct (_ && _); apply u32_range).
  assert (Ex : x = if sign then Z.abs xx else u32 xx).
  { unfold x. destruct sign; [|reflexivity]. cbn [andb]. destruct (Z.ltb_spec xx 0); rewrite u32_small by lia; lia. }
  pose proof (ndigits_denotes 32 x base ltac:(lia) Hr ltac:(lia)) as D. split; [reflexivity|]. split; [rewrite <- Ex; exact D|].
  assert (Hl : (length (reverse (ndigits 32 x base)) <= 10)%nat) by (apply (dn_bound _ _ _ D); [destruct Hb as [-> | ->]; cbn; lia|lia]).
  rewrite length_app, length_fmap. destruct (_ && _); cbn [length]; lia.
Qed.

(** ** Example states *)

Definition cons0 : cons := mkcons (replicate 128 0) 0 0 0 1060 false [] 0.

Lemma cons0_ok : cons_ok cons0.
Proof. split; cbn; try lia; try reflexivity; [vm_compute; discriminate|apply not_elem_of_nil]. Qed.

(** "ls" with a typing error corrected, then end of line. *)
Lemma console_line_discipline_witness :
  wp (consoleintr [108; 120; 0x7f; 115; 13]) (fun _ s' => abs_ed s' = mked [108; 115; 10] [] /\ cwoken s' = 1%nat) cons0.
Proof.
  eapply wp_mono; [apply (proj1 (console_line_discipline cons0 cons0_ok) [108; 120; 0x7f; 115; 13]); repeat constructor; lia|].
  intros d s' F. split; [rewrite (fo_abs _ _ _ _ F); reflexivity|rewrite (fo_woken _ _ _ _ F); reflexivity].
Defined.

Lemma console_output_on_screen_witness : wp (consolewrite [104; 105; 10]) (fun r s' => r = 3 /\ screen_ok s' /\ abs_ed s' = abs_ed cons0) cons0.
Proof.
  apply (proj2 (console_output_on_screen (fun _ => []) cons0 eq_refl ltac:(split; [vm_compute; split; discriminate|constructor])) [104; 105; 10]).
Defined.

Lemma printint_correct_witness : exists ds, int_chars (- 2 ^ 31) 10 true = 45 :: (hexdigit <$> ds) /\ denotes 10 ds (2 ^ 31).
Proof.
  destruct (printint_correct (- 2 ^ 31) 10 true ltac:(lia) ltac:(auto)) as (ds & E & D & _). exists ds. split; [exact E|exact D].
Defined.

(** Control characters are echoed as glyphs that the font does not have: it starts
    at the space. *)
Lemma control_glyph_outside_font : exists x y s', consoleintr [4] cons0 = Ret (false, s') /\ head (cout s') = Some (EGlyph x y 4).
Proof. eexists _, _, _. split; [reflexivity|]. cbn. reflexivity. Qed.
