(* ===== verification/Ulib.v ===== *)
(** * The user library

    Models [src/xv6/ulib.c] (string routines over the memory of the process, [gets]
    and [atoi]) and [src/xv6/printf.c].  Loops over strings take the length of the
    string as fuel.  [gets] and [printf] are given what [read] delivers and produce
    the bytes that [write] is called with, one at a time; [stat], which only
    makes system calls, is left out. *)

From S2P Require Import Prelude Mem Numeral.
Local Open Scope Z_scope.

(** ** Strings *)

Fixpoint ustrcpy (fuel : nat) (m : mem) (s t : Z) : outcome mem :=
  match fuel with
  | O => NoFuel
  | S f =>
      let c := ldb m t in
      let m' := stb m s c in
      if negb (c =? 0) then ustrcpy f m' (s + 1) (t + 1) else Ret m'
  end.

Fixpoint ustrcmp (fuel : nat) (m : mem) (p q : Z) : outcome Z :=
  match fuel with
  | O => NoFuel
  | S f =>
      if negb (ldb m p =? 0) && (ldb m p =? ldb m q) then ustrcmp f m (p + 1) (q + 1)
      else Ret (ldb m p - ldb m q)
  end.

Fixpoint ustrlen (fuel : nat) (m : mem) (s n : Z) : outcome Z :=
  match fuel with
  | O => NoFuel
  | S f => if negb (ldb m (s + n) =? 0) then ustrlen f m s (n + 1) else Ret n
  end.

Definition umemset (m : mem) (dst c n : Z) : mem := stosb m dst c (Z.to_nat n).
(** [while(n-- > 0) *dst++ = *src++], in this direction only. *)
Definition umemmove (m : mem) (dst src n : Z) : mem := move_up m dst src (Z.to_nat n).

(** [gets] with [k] bytes of room beside the final zero: the bytes stored, and the
    input left. *)
Fixpoint gets_loop (k : nat) (input : list Z) : list Z * list Z :=
  match k, input with
  | S k', c :: input' =>
      if (c =? 10) || (c =? 13) then ([c], input')
      else let (l, rest) := gets_loop k' input' in (c :: l, rest)
  | _, _ => ([], input)
  end.
Definition ugets (max : Z) (input : list Z) : list Z * list Z :=
  let (l, rest) := gets_loop (Z.to_nat (max - 1)) input in (l ++ [0], rest).

(** [atoi], on a string without its final zero. *)
Fixpoint atoi_loop (n : Z) (s : list Z) : Z :=
  match s with
  | c :: s' => if (48 <=? c) && (c <=? 57) then atoi_loop (s32 (n * 10 + c - 48)) s' else n
  | [] => n
  end.
Definition atoi (s : list Z) : Z := atoi_loop 0 s.

(** ** [printf] *)

(** [digits[d]] *)
Definition udigit (d : Z) : Z := if d <? 10 then 48 + d else 65 + (d - 10).
Definition uprintint (xx base : Z) (sgn : bool) : list Z :=
  let neg := sgn && (xx <? 0) in
  let x := if neg then u32 (- xx) else u32 xx in
  (if neg then [45] else []) ++ (udigit <$> reverse (ndigits 32 x base)).

Section Printf.
(** The string at an address. *)
Context (str : Z -> list Z).

(** The string "(null)". *)
Definition UNULL : list Z := [40; 110; 117; 108; 108; 41].

(** The loop, in state 0 or (if [st]) in state ['%']; [ap] are the argument words
    left, of which the caller passes enough. *)
Fixpoint printf_loop (st : bool) (fmt ap : list Z) : list Z :=
  match fmt with
  | [] => []
  | c :: fmt' =>
      if negb st then
        if c =? 37 then printf_loop true fmt' ap else c :: printf_loop false fmt' ap
      else
        let arg := default 0 (head ap) in
        if c =? 100 then uprintint (s32 arg) 10 true ++ printf_loop false fmt' (tail ap)
        else if (c =? 120) || (c =? 112) then uprintint (s32 arg) 16 false ++ printf_loop false fmt' (tail ap)
        else if c =? 115 then (if arg =? 0 then UNULL else str arg) ++ printf_loop false fmt' (tail ap)
        else if c =? 99 then u8 arg :: printf_loop false fmt' (tail ap)
        else if c =? 37 then c :: printf_loop false fmt' ap
        else 37 :: c :: printf_loop false fmt' ap
  end.
Definition printf (fmt ap : list Z) : list Z := printf_loop false fmt ap.
End Printf.

(** ** Strings in memory *)

(** The string [cs], and a zero, at [a]. *)
Fixpoint str_in (m : mem) (a : Z) (cs : list Z) : Prop :=
  match cs with
  | [] => ldb m a = 0
  | c :: cs' => ldb m a = c /\ c <> 0 /\ str_in m (a + 1) cs'
  end.

Lemma str_in_ext m m' cs : forall a, (forall x, a <= x <= a + Z.of_nat (length cs) -> ldb m' x = ldb m x) -> str_in m a cs -> str_in m' a cs.
Proof.
  induction cs as [|c cs IH]; intros a He H; cbn in *; [rewrite He by lia; exact H|]. destruct H as (H1 & H2 & H3).
  split; [rewrite He by lia; exact H1|]. split; [exact H2|]. apply IH; [|exact H3]. intros x Hx. apply He. lia.
Qed.

Lemma ustrlen_ok m s cs : forall fuel n, str_in m (s + n) cs -> (length cs < fuel)%nat -> ustrlen fuel m s n = Ret (n + Z.of_nat (length cs)).
Proof.
  induction cs as [|c cs IH]; intros [|f] n H Hf; cbn in Hf; try lia; cbn in *.
  - rewrite H. cbn. f_equal. lia.
  - destruct H as (H1 & H2 & H3). destruct (Z.eqb_spec (ldb m (s + n)) 0); [congruence|]. cbn. rewrite IH; [f_equal; lia| |lia]. rewrite Z.add_assoc. exact H3.
Qed.

Lemma ustrcpy_ok cs : forall fuel m s t, str_in m t cs -> (length cs < fuel)%nat ->
  s + Z.of_nat (length cs) < t \/ t + Z.of_nat (length cs) < s ->
  exists m', ustrcpy fuel m s t = Ret m' /\ str_in m' s cs /\
    forall x, ~ (s <= x <= s + Z.of_nat (length cs)) -> ldb m' x = ldb m x.
Proof.
  induction cs as [|c cs IH]; intros [|f] m s t H Hf Hd; cbn [length] in Hf; try lia; cbn [str_in ustrcpy] in *; cbv zeta.
  - rewrite H. cbn. eexists. split; [reflexivity|]. rewrite ldb_stb_same. split; [reflexivity|]. intros x Hx. apply ldb_stb_ne. cbn in Hx. lia.
  - destruct H as (H1 & H2 & H3). rewrite H1. destruct (Z.eqb_spec c 0); [congruence|]. cbn [negb].
    cbn [length] in Hd. destruct (IH f (stb m s c) (s + 1) (t + 1)) as (m' & E & S' & F); [|lia|lia|].
    + eapply str_in_ext; [|exact H3]. intros x Hx. apply ldb_stb_ne. lia.
    + exists m'. split; [exact E|]. pose proof (ldb_range m t) as Hr. split; [split; [|split; [exact H2|exact S']]|].
      * rewrite F by lia. rewrite ldb_stb_same. apply u8_small. lia.
      * intros x Hx. cbn [length] in Hx. rewrite F by lia. apply ldb_stb_ne. lia.
Qed.

(** Order of strings, as dictionaries have it. *)
Inductive lex_lt : list Z -> list Z -> Prop :=
| lex_nil c l : lex_lt [] (c :: l)
| lex_head a b l k : a < b -> lex_lt (a :: l) (b :: k)
| lex_tail a l k : lex_lt l k -> lex_lt (a :: l) (a :: k).

Lemma ustrcmp_ok a : forall fuel m p q b, str_in m p a -> str_in m q b -> (length a < fuel)%nat ->
  exists r, ustrcmp fuel m p q = Ret r /\ (r = 0 <-> a = b) /\ (r < 0 <-> lex_lt a b).
Proof.
  induction a as [|x a IH]; intros [|f] m p q b Ha Hb Hf; cbn [length] in Hf; try lia; cbn [str_in ustrcmp] in *.
  - rewrite Ha. cbn. eexists. split; [reflexivity|]. destruct b as [|y b]; cbn in Hb.
    + rewrite Hb. split; split; intros; try lia; try reflexivity. inversion H.
    + destruct Hb as (Hy & Hy0 & _). pose proof (ldb_range m q). split; split; intros; try lia; try discriminate. constructor.
  - destruct Ha as (Hx & Hx0 & Ha). rewrite Hx. destruct (Z.eqb_spec x 0); [congruence|]. cbn [negb andb]. pose proof (ldb_range m p). pose proof (ldb_range m q).
    destruct (Z.eqb_spec x (ldb m q)) as [E|E].
    + destruct b as [|y b]; cbn in Hb; [congruence|]. destruct Hb as (Hy & Hy0 & Hb). assert (y = x) as -> by congruence.
      destruct (IH f m (p + 1) (q + 1) b Ha Hb ltac:(lia)) as (r & R1 & R2 & R3). exists r. split; [exact R1|]. split.
      * rewrite R2. split; congruence.
      * rewrite R3. split; [apply lex_tail|]. intros Hl. inversion Hl; subst; [lia|assumption].
    + eexists. split; [reflexivity|]. destruct b as [|y b]; cbn in Hb; [split; split; intros Hl; try lia; try discriminate; inversion Hl|].
      destruct Hb as (Hy & Hy0 & Hb). subst y. split; split; intros Hl; try lia; [congruence|apply lex_head; lia|]. inversion Hl; subst; lia.
Qed.
