(* ===== verification/UlibProps.v ===== *)
(** * Properties of the user library

    Its string routines, numbers printed and read back, and [printf] against the
    kernel's [cprintf]. *)

From S2P Require Import Prelude Mem Numeral Ring Console ConsoleProps Ulib.
Local Open Scope Z_scope.

(** The string routines of the user library. For strings in memory and enough steps for their length: [strcpy] to a place that does not overlap returns, leaves the string there and changes no other byte; [strcmp] returns 0 exactly for equal strings and a negative number exactly when the first comes first in dictionary order; [strlen] returns the length. *)
Theorem ulib_strings (m : mem) (p q : Z) (a b : list Z) (fuel : nat) :
  str_in m p a -> str_in m q b -> (length a < fuel)%nat ->
  (forall s, s + Z.of_nat (length a) < p \/ p + Z.of_nat (length a) < s ->
     exists m', ustrcpy fuel m s p = Ret m' /\ str_in m' s a /\ forall x, ~ (s <= x <= s + Z.of_nat (length a)) -> ldb m' x = ldb m x) /\
  (exists r, ustrcmp fuel m p q = Ret r /\ (r = 0 <-> a = b) /\ (r < 0 <-> lex_lt a b)) /\
  ustrlen fuel m p 0 = Ret (Z.of_nat (length a)).
Proof.
  intros Ha Hb Hf. split; [intros s Hs; apply ustrcpy_ok; auto|]. split; [apply ustrcmp_ok; auto|].
  rewrite (ustrlen_ok m p a fuel 0); [reflexivity|rewrite Z.add_0_r; exact Ha|exact Hf].
Qed.

(** ** Numbers *)

Lemma value_nonneg base ds : 0 <= base -> Forall (fun d => 0 <= d < base) ds -> 0 <= value base ds.
Proof.
  intros Hb H. induction ds as [|d ds IH] using rev_ind; [cbn; lia|]. rewrite value_snoc. apply Forall_app in H as [H1 H2].
  specialize (IH H1). apply Forall_inv in H2. nia.
Qed.

(** Digits of a numeral, read one by one, give its value. *)
Lemma atoi_digits ds : forall n rest, Forall (fun d => 0 <= d < 10) ds -> 0 <= n ->
  n * 10 ^ Z.of_nat (length ds) + value 10 ds < 2 ^ 31 -> (forall c, head rest = Some c -> ~ (48 <= c <= 57)) ->
  atoi_loop n ((udigit <$> ds) ++ rest) = n * 10 ^ Z.of_nat (length ds) + value 10 ds.
Proof.
  induction ds as [|d ds IH]; intros n rest Hd Hn Hv Hr.
  - cbn. rewrite Z.mul_1_r, Z.add_0_r. destruct rest as [|c rest]; [reflexivity|]. specialize (Hr c eq_refl). cbn.
    destruct ((48 <=? c) && (c <=? 57)) eqn:E; [lia|reflexivity].
  - apply Forall_cons in Hd as [Hd Hds]. unfold udigit at 1. cbn [fmap list_fmap app atoi_loop]. fold udigit.
    destruct (Z.ltb_spec d 10); [|lia]. replace ((48 <=? 48 + d) && (48 + d <=? 57)) with true by lia.
    pose proof (value_nonneg 10 ds ltac:(lia) Hds) as Hp. cbn [length] in *. rewrite Nat2Z.inj_succ, Z.pow_succ_r in * by lia.
    assert (Ev : value 10 (d :: ds) = d * 10 ^ Z.of_nat (length ds) + value 10 ds) by (unfold value at 1; cbn [fold_left]; rewrite fold_value; f_equal).
    rewrite Ev in *. assert (H10 : 0 < 10 ^ Z.of_nat (length ds)) by (apply Z.pow_pos_nonneg; lia).
    rewrite s32_small by nia. rewrite IH; auto; [lia|lia|nia].
Qed.

(** Numbers printed are read back. For [n] from 0 up to the largest [int], [atoi] of what [printf] prints for ["%d"], followed by anything but a digit, is [n]. *)
Theorem printf_atoi_roundtrip (str : Z -> list Z) (n : Z) (rest : list Z) :
  0 <= n < 2 ^ 31 -> (forall c, head rest = Some c -> ~ (48 <= c <= 57)) ->
  atoi (printf str [37; 100] [n] ++ rest) = n.
Proof.
  intros Hn Hr. unfold atoi. change (printf str [37; 100] [n]) with (uprintint (s32 n) 10 true ++ []). rewrite app_nil_r, s32_small by lia. unfold uprintint.
  destruct (Z.ltb_spec n 0); [lia|]. cbn [andb app]. rewrite u32_small by lia.
  destruct (ndigits_denotes 32 n 10 ltac:(lia) ltac:(lia) ltac:(lia)) as [D1 D2 _ _].
  rewrite atoi_digits; auto; lia.
Qed.

Lemma printf_atoi_roundtrip_witness : atoi (printf (fun _ => []) [37; 100] [2147483647] ++ [10]) = 2147483647.
Proof. apply printf_atoi_roundtrip; [lia|]. intros c E. injection E as <-. lia. Defined.

Lemma ulib_strings_witness : let m : mem := <[0 := 97]> (<[1 := 98]> (<[8 := 97]> (<[9 := 99]> ∅))) in
  exists r, ustrcmp 3 m 0 8 = Ret r /\ (r = 0 <-> [97; 98] = [97; 99]) /\ (r < 0 <-> lex_lt [97; 98] [97; 99]).
Proof.
  intros m. apply (ulib_strings m 0 8 [97; 98] [97; 99] 3); [vm_compute; repeat split; discriminate|vm_compute; repeat split; discriminate|cbn; lia].
Defined.

(** ** [printf] and [cprintf] *)

(** The bytes sent to the serial line, oldest first. *)
Definition uart_of (e : event) : option Z := match e with EUart c => Some c | _ => None end.
Definition serial (s : cons) : list Z := reverse (omap uart_of (cout s)).

(** Small letters for capital ones. *)
Definition lower (c : Z) : Z := if (65 <=? c) && (c <=? 90) then c + 32 else c.

(** [m] sends [l] and the console works on. *)
Definition sends (l : list Z) (s s' : cons) : Prop := serial s' = serial s ++ l /\ panicked s' = panicked s.

Lemma sends_trans a b s s1 s2 : sends a s s1 -> sends b s1 s2 -> sends (a ++ b) s s2.
Proof. intros [H1 H2] [H3 H4]. split; [rewrite H3, H1, app_assoc; reflexivity|congruence]. Qed.

Lemma emit_serial e s : serial (set_cout (e :: cout s) s) = serial s ++ option_list (uart_of e).
Proof. unfold serial. cbn. destruct (uart_of e); cbn; [apply reverse_cons|rewrite app_nil_r; reflexivity]. Qed.

Lemma move_serial v s : serial (set_console_pos v s) = serial s.
Proof. reflexivity. Qed.

Lemma scroll_sends s : wp scroll_if_full (fun _ s' => sends [] s s') s.
Proof.
  unfold scroll_if_full. apply wp_bind, wp_gets. destruct (_ >=? _).
  - apply wp_bind, wp_modify, wp_modify. split; [|reflexivity]. rewrite emit_serial. reflexivity.
  - apply wp_pure. split; [rewrite app_nil_r|]; reflexivity.
Qed.

Lemma graphic_sends c s : wp (graphic_putc c) (fun _ s' => sends [] s s') s.
Proof.
  unfold graphic_putc. assert (R : forall s, sends [] s s) by (split; [rewrite app_nil_r|]; reflexivity). destruct (c =? NEWLINE); [|destruct (c =? BACKSPACE)].
  - apply wp_bind, wp_modify. eapply wp_mono; [apply scroll_sends|]. intros [] s1 H. exact H.
  - apply wp_bind, wp_gets. destruct (_ >? 0); [apply wp_modify; split; [rewrite move_serial, app_nil_r|]; reflexivity|apply wp_pure, R].
  - apply wp_bind. eapply wp_mono; [apply scroll_sends|]. intros [] s1 H. apply wp_bind, wp_gets, wp_bind, wp_modify, wp_modify.
    eapply (sends_trans [] []); [exact H|]. split; [rewrite move_serial, emit_serial; reflexivity|reflexivity].
Qed.

Lemma consputc_sends c s : c <> BACKSPACE -> panicked s = false -> wp (consputc c) (fun _ s' => sends [c] s s') s.
Proof.
  intros Hc Hp. unfold consputc. apply wp_bind, wp_gets. rewrite Hp. destruct (Z.eqb_spec c BACKSPACE); [contradiction|]. apply wp_bind, wp_modify.
  eapply wp_mono; [apply graphic_sends|]. intros [] s1 H. eapply (sends_trans [c] []); [|exact H]. split; [apply emit_serial|reflexivity].
Qed.

Lemma putchars_sends l : forall s, Forall (fun c => c <> BACKSPACE) l -> panicked s = false -> wp (putchars l) (fun _ s' => sends l s s') s.
Proof.
  induction l as [|c l IH]; intros s Hl Hp; cbn [putchars]; [apply wp_pure; split; [rewrite app_nil_r|]; reflexivity|].
  apply Forall_cons in Hl as [Hc Hl]. apply wp_bind. eapply wp_mono; [apply (consputc_sends c s Hc Hp)|]. intros [] s1 H.
  eapply wp_mono; [apply IH; [exact Hl|rewrite (proj2 H); exact Hp]|]. intros [] s2 H'. exact (sends_trans [c] l _ _ _ H H').
Qed.

Lemma lower_digit d : 0 <= d < 16 -> lower (hexdigit d) = lower (udigit d) /\ hexdigit d <> BACKSPACE.
Proof.
  intros H. unfold lower, hexdigit, udigit, BACKSPACE. destruct (Z.ltb_spec d 10).
  - split; [reflexivity|lia].
  - replace ((65 <=? 65 + (d - 10)) && (65 + (d - 10) <=? 90)) with true by lia.
    replace ((65 <=? 97 + (d - 10)) && (97 + (d - 10) <=? 90)) with false by lia. lia.
Qed.

Lemma int_chars_agree xx base sign : base = 10 \/ base = 16 ->
  lower <$> int_chars xx base sign = lower <$> uprintint xx base sign /\ Forall (fun c => c <> BACKSPACE) (int_chars xx base sign).
Proof.
  intros Hb. unfold int_chars, uprintint. set (x := if sign && (xx <? 0) then u32 (- xx) else u32 xx).
  assert (Hx : 0 <= x < 2 ^ 32) by (unfold x; destruct (_ && _); apply u32_range).
  destruct (ndigits_denotes 32 x base ltac:(lia) Hx ltac:(lia)) as [_ D _ _].
  assert (D' : Forall (fun d => 0 <= d < 16) (reverse (ndigits 32 x base))) by (eapply Forall_impl; [exact D|]; cbn; lia). split.
  - rewrite !fmap_app, <- !list_fmap_compose. f_equal. apply list_fmap_ext. intros i d Hd. cbn. apply lower_digit. eapply Forall_lookup_1 in D'; eauto.
  - apply Forall_app. split; [destruct (_ && _); repeat constructor; discriminate|]. apply Forall_fmap. eapply Forall_impl; [exact D'|]. intros d Hd. apply lower_digit, Hd.
Qed.

(** The bytes of a format or a string. *)
Abbreviation bytes l := (Forall (fun c => 0 <= c < 256) l).

Lemma bytes_no_backspace l : bytes l -> Forall (fun c => c <> BACKSPACE) l.
Proof. intros H. eapply Forall_impl; [exact H|]. unfold BACKSPACE. cbn. lia. Qed.

(** [m] returns having sent [P], up to the case of letters. *)
Definition prints (P : list Z) (m : M cons unit) (s : cons) : Prop :=
  wp m (fun _ s' => exists out, sends out s s' /\ lower <$> out = lower <$> P) s.

Lemma prints_then l l' (m k : M cons unit) P s : wp m (fun _ s' => sends l s s') s -> lower <$> l = lower <$> l' -> panicked s = false ->
  (forall s1, panicked s1 = false -> prints P k s1) -> prints (l' ++ P) (m ;;; k) s.
Proof.
  intros Hm He Hp Hk. apply wp_bind. eapply wp_mono; [exact Hm|]. intros [] s1 H1.
  eapply wp_mono; [apply Hk; rewrite (proj2 H1); exact Hp|]. intros [] s2 (out & H2 & E2). exists (l ++ out).
  split; [eapply sends_trans; eauto|]. rewrite !fmap_app. congruence.
Qed.

Lemma prints_nil s : prints [] (ret tt) s.
Proof. apply wp_pure. exists []. split; [split; [rewrite app_nil_r|]|]; reflexivity. Qed.

Lemma cprintf_prints str : (forall a, bytes (str a)) -> forall n fmt argp s, (length fmt <= n)%nat -> panicked s = false -> bytes fmt -> 99 ∉ fmt ->
  prints (printf_loop str false fmt argp) (cprintf str fmt argp) s.
Proof.
  intros Hs. induction n as [|n IH]; intros fmt argp s Hl Hp Hf Hc; (destruct fmt as [|c fmt]; [apply prints_nil|]); cbn in Hl; [lia|].
  apply Forall_cons in Hf as [Hcb Hf]. apply not_elem_of_cons in Hc as [_ Hc].
  assert (Hone : forall c s, 0 <= c < 256 -> panicked s = false -> wp (consputc c) (fun _ s' => sends [c] s s') s)
    by (intros; apply consputc_sends; [unfold BACKSPACE; lia|assumption]).
  cbn [cprintf printf_loop negb]. destruct (Z.eqb_spec c 37) as [->|Hne]; cbn [negb].
  2: { apply (prints_then [c] [c]); auto. intros s1 Hp1. apply IH; auto; lia. }
  destruct fmt as [|d fmt]; [apply prints_nil|]. apply Forall_cons in Hf as [Hdb Hf]. apply not_elem_of_cons in Hc as [Hd Hc].
  assert (Hk : forall argp s1, panicked s1 = false -> prints (printf_loop str false fmt argp) (cprintf str fmt argp) s1)
    by (intros; apply IH; auto; cbn in Hl; lia).
  cbn [printf_loop negb]. cbv zeta. destruct (d =? 100); [|destruct (_ || _); [|destruct (d =? 115)]].
  - eapply prints_then; [apply putchars_sends; [apply int_chars_agree; auto|exact Hp]|apply int_chars_agree; auto|exact Hp|apply Hk].
  - eapply prints_then; [apply putchars_sends; [apply int_chars_agree; auto|exact Hp]|apply int_chars_agree; auto|exact Hp|apply Hk].
  - eapply prints_then; [apply putchars_sends; [|exact Hp]|reflexivity|exact Hp|apply Hk]. apply bytes_no_backspace.
    destruct (_ =? 0); [repeat constructor; lia|apply Hs].
  - destruct (Z.eqb_spec d 99); [congruence|]. destruct (Z.eqb_spec d 37) as [->|_].
    + apply (prints_then [37] [37]); auto.
    + apply (prints_then [37] [37]); auto. intros s1 Hp1. apply (prints_then [d] [d]); auto.
Qed.

(** The kernel and the user library print alike. For a format without ["%c"], which only [printf] has, and strings of bytes, a console that has not panicked sends to the serial line, for [cprintf], exactly what [printf] writes, up to the case of hexadecimal digits. *)
Theorem cprintf_prints_like_printf (str : Z -> list Z) (fmt argp : list Z) (s : cons) :
  panicked s = false -> bytes fmt -> (forall a, bytes (str a)) -> 99 ∉ fmt ->
  wp (cprintf str fmt argp) (fun _ s' => exists out, serial s' = serial s ++ out /\ lower <$> out = lower <$> printf str fmt argp) s.
Proof.
  intros Hp Hf Hs Hc. eapply wp_mono; [apply (cprintf_prints str Hs (length fmt)); auto|]. intros [] s' (out & [H1 _] & H2). eauto.
Qed.

(** "x=%x" with argument 0xbeef. *)
Lemma cprintf_prints_like_printf_witness : wp (cprintf (fun _ => []) [120; 61; 37; 120] [0xbeef]) (fun _ s' =>
  exists out, serial s' = serial cons0 ++ out /\ lower <$> out = lower <$> [120; 61; 66; 69; 69; 70]) cons0.
Proof.
  apply (cprintf_prints_like_printf (fun _ => []) [120; 61; 37; 120] [0xbeef] cons0); [reflexivity|repeat constructor; lia|constructor|].
  intros H. repeat (apply elem_of_cons in H as [H|H]; [discriminate|]). apply elem_of_nil in H. exact H.
Defined.
