(* ===== verification/ShRun.v ===== *)
(** * The shell runs a command

    Models [runcmd], [getcmd] and [main] of [src/xv6/sh.c]: the processes a line
    starts, with the descriptors each of them holds.

    A process is described by what it comes to ([job]): it becomes a program, gives
    up with a message, waits for children, or leaves.  Processes run side by side,
    so a job is a tree and not a trace.  A command, and the pipe it makes, is
    named by its place in the line, and the forks it makes by that place and a number.  Whether [fork] succeeds, a file can be opened or executed or a directory
    entered is up to the kernel: [fork_ok], [open_ok], [exec_ok] and [chdir_ok].  The strings of a
    command are its words, as [parsecmd_strings] shows. *)

From S2P Require Import Prelude Sh Ulib ShProps.
Local Open Scope Z_scope.

(** ** Descriptors *)

Definition path := list nat.
(** What a descriptor stands for; [Given] is what the shell was started with. *)
Inductive fobj :=
| Given (n : nat)
| Opened (file : list Z) (mode : Z)
| ReadEnd (p : path)
| WriteEnd (p : path).
#[export] Instance fobj_eq_dec : EqDecision fobj.
Proof. solve_decision. Defined.
Definition fdtable := list (option fobj).
Definition NSLOT : nat := 16.

(** The lowest free slot, as [fdalloc] finds it. *)
Fixpoint fd_free (t : fdtable) : option nat :=
  match t with [] => None | None :: _ => Some O | Some _ :: t' => S <$> fd_free t' end.
Definition fd_alloc (f : fobj) (t : fdtable) : option (nat * fdtable) :=
  (fun fd => (fd, <[fd := Some f]> t)) <$> fd_free t.
Definition fd_close (fd : nat) (t : fdtable) : fdtable := <[fd := None]> t.
Definition fd_dup (fd : nat) (t : fdtable) : fdtable :=
  match t !! fd with Some (Some f) => default t (snd <$> fd_alloc f t) | _ => t end.
Definition fd_pipe (p : path) (t : fdtable) : option (nat * nat * fdtable) :=
  match fd_alloc (ReadEnd p) t with
  | Some (r, t1) =>
      match fd_alloc (WriteEnd p) t1 with
      | Some (w, t2) => Some (r, w, t2)
      | None => None
      end
  | None => None
  end.

(** ** [runcmd] *)

(** What becomes of a process, with its descriptors ([D]) at that point: it executes
    a program, prints a message and exits, exits, waits for a child and goes on,
    waits for two children and exits, or exits leaving a child behind. *)
Inductive job (D : Type) :=
| Become (argv : list (list Z)) (t : D)
| Complain (msg : string) (t : D)
| Leave (t : D)
| Then (child : job D) (t : D) (rest : job D)
| Both (left right : job D) (t : D)
| Spawn (child : job D) (msg : string) (t : D).
Arguments Become {D} _ _.
Arguments Complain {D} _ _.
Arguments Leave {D} _.
Arguments Then {D} _ _ _.
Arguments Both {D} _ _ _.
Arguments Spawn {D} _ _ _.

Section Run.
Context (fork_ok : path -> bool) (open_ok : list Z -> Z -> bool) (exec_ok chdir_ok : list Z -> bool).

Fixpoint runcmd (c : cmd) (p : path) (t : fdtable) : job fdtable :=
  match c with
  | EXEC [] => Leave t
  | EXEC (w :: argv) => if exec_ok (wtext w) then Become (wtext <$> w :: argv) t else Complain "exec failed" t
  | REDIR c r =>
      let t := fd_close (Z.to_nat (r_fd r)) t in
      match if open_ok (wtext (r_file r)) (r_mode r) then fd_alloc (Opened (wtext (r_file r)) (r_mode r)) t else None with
      | None => Complain "open failed" t
      | Some (_, t) => runcmd c (0%nat :: p) t
      end
  | LIST l r =>
      if fork_ok (2%nat :: p) then Then (runcmd l (0%nat :: p) t) t (runcmd r (1%nat :: p) t) else Complain "fork" t
  | PIPE l r =>
      match fd_pipe p t with
      | None => Complain "pipe" t
      | Some (p0, p1, t) =>
          if fork_ok (2%nat :: p) then
            let tl := fd_close p1 (fd_close p0 (fd_dup p1 (fd_close 1 t))) in
            let jl := runcmd l (0%nat :: p) tl in
            if fork_ok (3%nat :: p) then
              let tr := fd_close p1 (fd_close p0 (fd_dup p0 (fd_close 0 t))) in
              Both jl (runcmd r (1%nat :: p) tr) (fd_close p1 (fd_close p0 t))
            else Spawn jl "fork" t
          else Complain "fork" t
      end
  | BACK c => if fork_ok (2%nat :: p) then Spawn (runcmd c (0%nat :: p) t) "" t else Complain "fork" t
  end.

(** ** [main] *)

(** What the shell does for a line: change the directory, report that it cannot, start a
    child that runs a command or reports a syntax error, or give up itself. *)
Inductive deed :=
| Cd (dir : list Z)
| CannotCd (dir : list Z)
| Job (j : job fdtable)
| Syntax (e : string)
| Quit (e : string)
| Stuck.

(** [getcmd], with a buffer of 100 characters: the string in it, and the input that is
    left; [None] at the end of the input. *)
Definition getcmd (input : list Z) : option (list Z * list Z) :=
  let (buf, rest) := ugets 100 input in
  match cstring buf with [] => None | line => Some (line, rest) end.

(** [buf[0] == 'c' && buf[1] == 'd' && buf[2] == ' '] *)
Definition is_cd (line : list Z) : bool := bool_decide (take 3 line = [99; 100; 32]).
Definition run_line (p : path) (t : fdtable) (line : list Z) : deed :=
  if is_cd line then
    let dir := drop 3 (take (length line - 1) line) in
    if chdir_ok dir then Cd dir else CannotCd dir
  else
    match parsecmd line with
    | Ret (c, _) => Job (runcmd c (0%nat :: p) t)
    | Panic e => Syntax e
    | NoFuel => Stuck
    end.

(** The loop of [main], for at most [n] lines, of which the next is the [k]th.  Its
    [fork] is named [[k]]; when that fails the shell is gone. *)
Fixpoint main_loop (n k : nat) (t : fdtable) (input : list Z) : list deed :=
  match n with
  | O => [Stuck]
  | S n =>
      match getcmd input with
      | None => []
      | Some (line, rest) =>
          if is_cd line || fork_ok [k] then run_line [k] t line :: main_loop n (S k) t rest else [Quit "fork"]
      end
  end.
Definition CONSOLE : list Z := [99; 111; 110; 115; 111; 108; 101].
Definition O_RDWR : Z := 2.
(** [while((fd = open("console", O_RDWR)) >= 0) if(fd >= 3){ close(fd); break; }] *)
Fixpoint open_console (n : nat) (t : fdtable) : fdtable :=
  match n with
  | O => t
  | S n =>
      match if open_ok CONSOLE O_RDWR then fd_alloc (Opened CONSOLE O_RDWR) t else None with
      | None => t
      | Some (fd, t') => if bool_decide (3 <= fd)%nat then fd_close fd t' else open_console n t'
      end
  end.
Definition sh_main (t : fdtable) (input : list Z) : list deed :=
  main_loop (S (length input)) 0 (open_console 4 t) input.
End Run.
