(* ===== verification/ShRunProps.v ===== *)
(** * Properties of the shell

    The processes a command starts hold exactly the descriptors its redirections and
    pipes ask for; no process keeps an end of a pipe it does not use; and the shell
    runs the commands typed at it, one after the other. *)

From S2P Require Import Prelude Sh Ulib ShProps ShRun.
Local Open Scope Z_scope.

(** ** What a command asks for *)

(** Standard input, output and error, and nothing else. *)
Definition std (i o e : fobj) : fdtable := [Some i; Some o; Some e] ++ replicate 13 None.
(** A redirection of standard input or output. *)
Definition redirect (fd : Z) (f i o : fobj) : fobj * fobj := if fd =? 0 then (f, o) else (i, f).

Section Props.
Context (fork_ok : path -> bool) (open_ok : list Z -> Z -> bool) (exec_ok chdir_ok : list Z -> bool).
Notation srun := (runcmd fork_ok open_ok exec_ok).

(** The processes of a command, from standard input, output and error. *)
Fixpoint wired (c : scmd) (p : path) (i o e : fobj) : job fdtable :=
  match c with
  | SExec [] => Leave (std i o e)
  | SExec (w :: argv) => if exec_ok w then Become (w :: argv) (std i o e) else Complain "exec failed" (std i o e)
  | SRedir c f m fd =>
      if open_ok f m then let (i, o) := redirect fd (Opened f m) i o in wired c (0%nat :: p) i o e
      else Complain "open failed" (<[Z.to_nat fd := None]> (std i o e))
  | SList l r =>
      if fork_ok (2%nat :: p) then Then (wired l (0%nat :: p) i o e) (std i o e) (wired r (1%nat :: p) i o e)
      else Complain "fork" (std i o e)
  | SPipe l r =>
      let t := <[4%nat := Some (WriteEnd p)]> (<[3%nat := Some (ReadEnd p)]> (std i o e)) in
      if fork_ok (2%nat :: p) then
        let jl := wired l (0%nat :: p) i (WriteEnd p) e in
        if fork_ok (3%nat :: p) then Both jl (wired r (1%nat :: p) (ReadEnd p) o e) (std i o e) else Spawn jl "fork" t
      else Complain "fork" t
  | SBack c =>
      if fork_ok (2%nat :: p) then Spawn (wired c (0%nat :: p) i o e) "" (std i o e) else Complain "fork" (std i o e)
  end.

Lemma runcmd_wired c : forall p i o e, ok (erase c) -> srun c p (std i o e) = wired (erase c) p i o e.
Proof.
  induction c as [argv|c IH r|l IHl r IHr|l IHl r IHr|c IH]; intros p i o e Hok; cbn [erase ok] in *.
  - by destruct argv.
  - destruct Hok as [Hc [_ Hm]]. cbn [runcmd wired].
    destruct (open_ok _ _); [|done].
    destruct Hm as [[_ ->]|[_ ->]]; cbn; by apply IH.
  - destruct Hok as [Hl Hr]. cbn [runcmd wired].
    change (fd_pipe p (std i o e)) with (Some (3%nat, 4%nat, <[4%nat := Some (WriteEnd p)]> (<[3%nat := Some (ReadEnd p)]> (std i o e)))).
    cbn iota. destruct (fork_ok (2%nat :: p)); [|done].
    rewrite <-(IHl (0%nat :: p)), <-(IHr (1%nat :: p)) by done. done.
  - destruct Hok as [Hl Hr]. cbn [runcmd wired]. destruct (fork_ok _); [|done]. by rewrite IHl, IHr.
  - cbn [runcmd wired]. destruct (fork_ok _); [|done]. by rewrite IH.
Qed.

(** ** Ends of pipes *)

(** The descriptors of all the processes of a job. *)
Fixpoint tables (j : job fdtable) : list fdtable :=
  match j with
  | Become _ t | Complain _ t | Leave t => [t]
  | Then c t r => t :: tables c ++ tables r
  | Both l r t => t :: tables l ++ tables r
  | Spawn c _ t => t :: tables c
  end.
(** Every descriptor of the table, and of all the processes of a job, is in [P]. *)
Definition only (P : fobj -> Prop) (t : fdtable) : Prop := Forall (from_option P True) t.
Definition all_only (P : fobj -> Prop) (j : job fdtable) : Prop := Forall (only P) (tables j).

Lemma only_std (P : fobj -> Prop) i o e : P i -> P o -> P e -> only P (std i o e).
Proof. intros ???. by repeat constructor. Qed.
Lemma only_insert (P : fobj -> Prop) n x t : only P t -> from_option P True x -> only P (<[n := x]> t).
Proof. intros Ht Hx. by apply Forall_insert. Qed.
Lemma only_not P f t : only P t -> ~ P f -> Some f ∉ t.
Proof. intros Ht Hf Hin. unfold only in Ht. rewrite Forall_forall in Ht. by specialize (Ht _ Hin). Qed.
Lemma all_only_mono (P Q : fobj -> Prop) j : all_only P j -> (forall f, P f -> Q f) -> all_only Q j.
Proof.
  intros H HPQ. eapply Forall_impl; [exact H|]. intros t Ht. eapply Forall_impl; [exact Ht|]. intros [f|]; [apply HPQ|done].
Qed.

Lemma wired_holds (P : fobj -> Prop) : (forall file m, P (Opened file m)) -> forall c p i o e,
  (forall q, p `suffix_of` q -> P (ReadEnd q) /\ P (WriteEnd q)) -> P i -> P o -> P e -> all_only P (wired c p i o e).
Proof.
  intros HO. assert (Hsub : forall n (p : path), (forall q, p `suffix_of` q -> P (ReadEnd q) /\ P (WriteEnd q)) ->
    forall q, n :: p `suffix_of` q -> P (ReadEnd q) /\ P (WriteEnd q)).
  { intros n p H q Hq. apply H. etrans; [by exists [n]|done]. }
  induction c as [argv|c IH g m fd|l IHl r IHr|l IHl r IHr|c IH]; intros p i o e Hp Hi Ho He; cbn [wired];
    pose proof (only_std P i o e Hi Ho He) as Hs; destruct (Hp p) as [HR HW]; try done.
  - destruct argv; [by constructor|]. by destruct (exec_ok _); constructor.
  - destruct (open_ok g m); [|constructor; [by apply only_insert|done]].
    unfold redirect. destruct (fd =? 0); apply IH; try done; by apply Hsub.
  - assert (only P (<[4%nat := Some (WriteEnd p)]> (<[3%nat := Some (ReadEnd p)]> (std i o e))))
      by (by repeat apply only_insert).
    destruct (fork_ok _); [|by constructor]. destruct (fork_ok _); cbn; constructor; try done.
    + apply Forall_app. split; [apply IHl; try done; by apply Hsub|apply IHr; try done; by apply Hsub].
    + apply IHl; try done; by apply Hsub.
  - destruct (fork_ok _); [|by constructor]. constructor; [done|].
    apply Forall_app. split; [apply IHl; try done; by apply Hsub|apply IHr; try done; by apply Hsub].
  - destruct (fork_ok _); [|by constructor]. constructor; [done|]. apply IH; try done; by apply Hsub.
Qed.

Lemma longer_suffix (n : nat) (p q : path) : n :: p `suffix_of` q -> q <> p.
Proof. intros Hs ->. apply suffix_length in Hs. cbn in Hs. lia. Qed.

(** C29: when a pipeline runs, the process that waits for it holds no end of its pipe,
    no process of the right side holds the end for writing, and none of the left side
    the end for reading: the reader sees the end of the data when the writers are done. *)
Theorem pipe_ends_closed l r p i o e jl jr t :
  ok (erase l) -> ok (erase r) ->
  (forall f, f ∈ [i; o; e] -> f <> ReadEnd p /\ f <> WriteEnd p) ->
  srun (PIPE l r) p (std i o e) = Both jl jr t ->
  Some (WriteEnd p) ∉ t /\ Some (ReadEnd p) ∉ t
  /\ Forall (fun t => Some (WriteEnd p) ∉ t) (tables jr)
  /\ Forall (fun t => Some (ReadEnd p) ∉ t) (tables jl).
Proof.
  intros Hl Hr Hg H. rewrite runcmd_wired in H by done. cbn [erase wired] in H.
  destruct (fork_ok _) in H; [|done]. destruct (fork_ok _) in H; [|done]. injection H as <- <- <-.
  destruct (Hg i) as [? ?]; [by left|]. destruct (Hg o) as [? ?]; [right; by left|]. destruct (Hg e) as [? ?]; [do 2 right; by left|].
  split; [|split; [|split]].
  - apply (only_not (fun f => f <> WriteEnd p)); [by apply only_std|by intros []].
  - apply (only_not (fun f => f <> ReadEnd p)); [by apply only_std|by intros []].
  - eapply Forall_impl; [apply (wired_holds (fun f => f <> WriteEnd p)); try done|].
    + intros q Hq. split; [done|]. intros [= Hqp]. by apply longer_suffix in Hq.
    + intros t Ht. eapply only_not; [exact Ht|by intros []].
  - eapply Forall_impl; [apply (wired_holds (fun f => f <> ReadEnd p)); try done|].
    + intros q Hq. split; [|done]. intros [= Hqp]. by apply longer_suffix in Hq.
    + intros t Ht. eapply only_not; [exact Ht|by intros []].
Qed.

(** ** The loop of the shell *)

(** What one types: a command, or [cd]. *)
Inductive typed := TCmd (c : scmd) | TCd (dir : list Z).
Definition keys (x : typed) : list Z := match x with TCmd c => print 3 c | TCd dir => [99; 100; 32] ++ dir end.
Definition typed_ok (x : typed) : Prop :=
  Forall (fun c => c <> 0 /\ c <> 10 /\ c <> 13) (keys x) /\ (length (keys x) <= 98)%nat
  /\ match x with TCmd c => ok c | TCd _ => True end.
Definition input_of (xs : list typed) : list Z := concat ((fun x => keys x ++ [10]) <$> xs).
Definition answer (i o e : fobj) (k : nat) (x : typed) : deed :=
  match x with
  | TCmd c => Job (wired c [0%nat; k] i o e)
  | TCd dir => if chdir_ok dir then Cd dir else CannotCd dir
  end.

Lemma gets_loop_line l : forall k rest,
  Forall (fun c => c <> 0 /\ c <> 10 /\ c <> 13) l -> (length l < k)%nat ->
  gets_loop k (l ++ 10 :: rest) = (l ++ [10], rest).
Proof.
  induction l as [|c l IH]; intros k rest Hl Hk; destruct k as [|k]; [cbn in Hk; lia|done|cbn in Hk; lia|].
  apply Forall_cons in Hl as [(H0 & H1 & H2) Hl]. cbn [app gets_loop].
  destruct (Z.eqb_spec c 10); [done|]. destruct (Z.eqb_spec c 13); [done|]. cbn [orb]. rewrite IH; [done|done|cbn in Hk; lia].
Qed.
Lemma getcmd_line l rest :
  Forall (fun c => c <> 0 /\ c <> 10 /\ c <> 13) l -> (length l <= 98)%nat ->
  getcmd (l ++ 10 :: rest) = Some (l ++ [10], rest).
Proof.
  intros Hl Hn. unfold getcmd, ugets. change (Z.to_nat (100 - 1)) with 99%nat. rewrite gets_loop_line by (done || lia).
  rewrite <-app_assoc. change ([10] ++ [0]) with ([10] ++ 0 :: []). rewrite app_assoc, cstring_app; [by destruct l|].
  apply Forall_app. split; [|by repeat constructor]. eapply Forall_impl; [exact Hl|]. by intros c [? _].
Qed.

(** A command never looks like [cd]: it starts with a blank, a symbol or nothing. *)
Definition starts (s : list Z) : Prop := match s with [] => True | x :: _ => x ∈ [32; 40; 124; 38; 59] end.
Lemma print_app_starts s t : starts s -> starts t -> starts (s ++ t).
Proof. by destruct s. Qed.
Lemma print_starts c : forall n, starts (print n c).
Proof.
  assert (Hp : forall n c s, starts s -> starts (paren n c s))
    by (intros n c' s Hs; unfold paren; case_decide; [done|right; by left]).
  induction c as [argv|c IH g m fd|l IHl r IHr|l IHl r IHr|c IH]; intros n; cbn [print]; apply Hp.
  - destruct argv; [done|]. by left.
  - apply print_app_starts; [apply IH|by left].
  - apply print_app_starts; [apply IHl|]. do 2 right. by left.
  - apply print_app_starts; [apply IHl|]. do 4 right. by left.
  - apply print_app_starts; [apply IH|]. do 3 right. by left.
Qed.

Notation sline := (run_line fork_ok open_ok exec_ok chdir_ok).
Notation smain := (sh_main fork_ok open_ok exec_ok chdir_ok).

Lemma is_cd_cmd c : is_cd (print 3 c ++ [10]) = false.
Proof.
  unfold is_cd. apply bool_decide_eq_false. pose proof (print_starts c 3) as H.
  destruct (print 3 c) as [|x s]; [done|]. intros Heq. injection Heq as -> _. unfold starts in H. set_unfold. lia.
Qed.
Lemma run_line_typed x k i o e : typed_ok x -> sline [k] (std i o e) (keys x ++ [10]) = answer i o e k x.
Proof.
  intros (_ & _ & Hok). destruct x as [c|dir]; unfold run_line, answer; cbn [keys].
  - rewrite is_cd_cmd. destruct (parsecmd_blanks c [10] Hok eq_refl) as (c' & buf & -> & Hc).
    rewrite runcmd_wired by (by rewrite Hc). by rewrite Hc.
  - change (is_cd (([99; 100; 32] ++ dir) ++ [10])) with true. cbn iota.
    assert (Hd : drop 3 (take (length (([99; 100; 32] ++ dir) ++ [10]) - 1) (([99; 100; 32] ++ dir) ++ [10])) = dir).
    { rewrite length_app, Nat.add_sub, take_app_length. done. }
    by rewrite Hd.
Qed.

Lemma main_loop_typed xs : forall n k i o e,
  Forall typed_ok xs -> (forall k, fork_ok [k] = true) -> (length xs < n)%nat ->
  main_loop fork_ok open_ok exec_ok chdir_ok n k (std i o e) (input_of xs)
  = imap (fun j => answer i o e (k + j)) xs.
Proof.
  induction xs as [|x xs IH]; intros n k i o e Hx Hf Hn; (destruct n as [|n]; [lia|]); [done|].
  apply Forall_cons in Hx as [Hx Hxs]. unfold input_of. cbn [fmap list_fmap concat main_loop]. rewrite <-app_assoc.
  change ([10] ++ ?r) with (10 :: r). fold (input_of xs). pose proof Hx as (H1 & H2 & _).
  rewrite getcmd_line by done. rewrite Hf, orb_true_r, run_line_typed by done.
  cbn [imap]. rewrite Nat.add_0_r. f_equal. rewrite IH by (done || (cbn in Hn; lia)).
  apply imap_ext. intros j y _. cbn. f_equal. lia.
Qed.

End Props.

(** [cd ab] at the end of the input, without a newline, enters [a]: what is cut off is
    the last character, newline or not. *)
Lemma cd_cuts_last_character : run_line (fun _ => true) (fun _ _ => true) (fun _ => true) (fun _ => true) [] [] [99; 100; 32; 97; 98] = Cd [97].
Proof. reflexivity. Qed.
(** [a>>b] is the same command as [a>b]. *)
Lemma append_is_overwrite :
  exists c c' b b', parsecmd [97; 62; 62; 98] = Ret (c, b) /\ parsecmd [97; 62; 98] = Ret (c', b') /\ erase c = erase c'.
Proof. eexists _, _, _, _. split; [vm_compute; reflexivity|]. split; [vm_compute; reflexivity|]. reflexivity. Qed.

(** A pipeline, and a session, on a kernel where everything works. *)
Definition yes {A} (_ : A) : bool := true.
Definition yes2 (_ : list Z) (_ : Z) : bool := true.

Lemma pipe_ends_closed_witness :
  exists jl jr t, runcmd yes yes2 yes (PIPE (EXEC [mkword [97] 1]) (EXEC [mkword [98] 0])) [0%nat]
      (std (Given 0) (Given 1) (Given 2)) = Both jl jr t
    /\ Some (WriteEnd [0%nat]) ∉ t /\ Some (ReadEnd [0%nat]) ∉ t
    /\ Forall (fun t => Some (WriteEnd [0%nat]) ∉ t) (tables jr)
    /\ Forall (fun t => Some (ReadEnd [0%nat]) ∉ t) (tables jl).
Proof.
  eexists _, _, _. split; [vm_compute; reflexivity|].
  apply (pipe_ends_closed yes yes2 yes (EXEC [mkword [97] 1]) (EXEC [mkword [98] 0]) [0%nat] (Given 0) (Given 1) (Given 2)).
  - split; [by repeat constructor|cbn; unfold MAXARGS; lia].
  - split; [by repeat constructor|cbn; unfold MAXARGS; lia].
  - intros f Hf. set_unfold. naive_solver.
  - vm_compute. reflexivity.
Defined.

