(* ===== verification/Uthread.v ===== *)
(** * User-level threads

    Models [src/xv6/uthread1.c], [uthread2.c] and [uthread3.c], three thread libraries
    with the programs that use them: the table of threads, the thread that runs, the
    operations, and the programs as state machines.  A thread is where its program
    will go on ([pc]); a call of [thread_schedule] that switches makes another thread
    the current one, whose program then goes on.  The machine's side of a switch is in
    [Uswitch].  [exit] ends the process: the outcome [Panic], with the message.

    A timer interrupt makes a process with two or more threads call its scheduler
    ([src/xv6/trap.c]); that is the step [Preempt]. *)

From S2P Require Import Prelude.
Local Open Scope Z_scope.

Inductive tstate := FREE | RUNNING | RUNNABLE | WAIT.
#[export] Instance tstate_eq_dec : EqDecision tstate.
Proof. solve_decision. Defined.

(** A thread: state and numbers as in the structure, and where its program stands. *)
Record thread (PC : Type) := mkthread { state : tstate; tid : Z; ptid : Z; pc : PC }.
Arguments mkthread {PC} _ _ _ _.
Arguments state {PC} _.
Arguments tid {PC} _.
Arguments ptid {PC} _.
Arguments pc {PC} _.
(** The table, [current_thread], and the count the kernel keeps ([check_thread]). *)
Record ut (PC : Type) := mkut { all_thread : list (thread PC); current_thread : nat; nthreads : Z; lines : list nat }.
Arguments mkut {PC} _ _ _ _.
Arguments all_thread {PC} _.
Arguments current_thread {PC} _.
Arguments nthreads {PC} _.
Arguments lines {PC} _.

Section Table.
Context {PC : Type}.
Implicit Types (t : thread PC) (s : ut PC).

Definition set_state (st : tstate) t : thread PC := mkthread st (tid t) (ptid t) (pc t).
Definition set_pc (p : PC) t : thread PC := mkthread (state t) (tid t) (ptid t) p.
Definition on_thread (i : nat) (f : thread PC -> thread PC) : M (ut PC) unit :=
  modify (fun s => mkut (alter f i (all_thread s)) (current_thread s) (nthreads s) (lines s)).
Definition is_state (st : tstate) (i : nat) (s : ut PC) : bool :=
  match all_thread s !! i with Some t => bool_decide (state t = st) | None => false end.
Definition cur_thread (f : thread PC -> thread PC) : M (ut PC) unit := i <- gets current_thread ;; on_thread i f.

(** The first slot in which [f] holds. *)
Fixpoint find_from (n : nat) (f : nat -> thread PC -> bool) (l : list (thread PC)) : option nat :=
  match l with [] => None | t :: l' => if f n t then Some n else find_from (S n) f l' end.
(** [t->state == RUNNABLE && t != current_thread] *)
Definition other_runnable s : option nat :=
  find_from 0 (fun i t => bool_decide (state t = RUNNABLE) && negb (bool_decide (i = current_thread s))) (all_thread s).
(** [t->state == FREE] *)
Definition free_slot s : option nat := find_from 0 (fun _ t => bool_decide (state t = FREE)) (all_thread s).

(** The system call. *)
Definition check_thread (op : Z) : M (ut PC) unit :=
  modify (fun s => mkut (all_thread s) (current_thread s) (nthreads s + op) (lines s)).
(** [thread_switch], as the threads see it. *)
Definition switch_to (i : nat) : M (ut PC) unit :=
  modify (fun s => mkut (all_thread s) i (nthreads s) (lines s)).
(** A line of output, by the current thread. *)
Definition print_line : M (ut PC) unit :=
  modify (fun s => mkut (all_thread s) (current_thread s) (nthreads s) (lines s ++ [current_thread s])).
End Table.

Definition no_runnable : string := "thread_schedule: no runnable threads".

(** ** [uthread1.c] *)
Module U1.
Definition MAX_THREAD : nat := 4.
(** [main] behind its call of [thread_schedule], [mythread] with lines still to print,
    and [mythread] behind its call of [thread_schedule]: both would return from there. *)
Inductive code := Main | Mythread (k : nat) | Returning.
Definition blank : thread code := mkthread FREE 0 0 Main.

Section Code.
Context {PC : Type}.
(** Switching to [n], another thread. *)
Definition change_thread (n : nat) : M (ut PC) unit :=
  on_thread n (set_state RUNNING) ;;;
  c <- gets current_thread ;;
  run <- gets (is_state RUNNING c) ;;
  (if negb (bool_decide (c = 0%nat)) && run then on_thread c (set_state RUNNABLE) else ret tt) ;;;
  switch_to n.
Definition thread_schedule : M (ut PC) unit :=
  next <- gets other_runnable ;;
  match next with
  | Some n => change_thread n
  | None =>
      c <- gets current_thread ;;
      run <- gets (is_state RUNNABLE c) ;;
      if run : bool then ret tt else panic no_runnable
  end.
Definition thread_create (f : PC) : M (ut PC) unit :=
  slot <- gets free_slot ;;
  match slot with
  | None => ret tt
  | Some i => on_thread i (fun t => mkthread RUNNABLE (tid t) (ptid t) f) ;;; check_thread 1
  end.
End Code.

Definition thread_init : ut code := mkut (<[0%nat := mkthread RUNNING 0 0 Main]> (replicate MAX_THREAD blank)) 0 0 [].
Definition LINES : nat := 100.
(** [main] up to its [return]. *)
Definition main : M (ut code) unit :=
  thread_create (Mythread LINES) ;;; thread_create (Mythread LINES) ;;; thread_schedule.

(** The current thread goes on: a line of [mythread], or its end. *)
Definition go_on : M (ut code) unit :=
  s <- get ;;
  match all_thread s !! current_thread s with
  | Some t =>
      match pc t with
      | Main | Returning => panic "returned"
      | Mythread (S k) => print_line ;;; cur_thread (set_pc (Mythread k))
      | Mythread O => cur_thread (set_state FREE) ;;; check_thread (-1) ;;; cur_thread (set_pc Returning) ;;; thread_schedule
      end
  | None => ret tt
  end.
Inductive step := Go | Preempt.
Definition run_step (x : step) : M (ut code) unit :=
  match x with
  | Go => go_on
  | Preempt => n <- gets nthreads ;; if n >=? 2 then thread_schedule else ret tt
  end.
Fixpoint run (xs : list step) : M (ut code) unit :=
  match xs with [] => ret tt | x :: xs => run_step x ;;; run xs end.
Definition program (xs : list step) : outcome (unit * ut code) := (main ;;; run xs) thread_init.
End U1.

(** ** [uthread2.c] *)
Module U2.
Definition MAX_THREAD : nat := 10.
(** [main] in [thread_join_all]; [mythread] with children still to create, and in
    [thread_join_all]; [child_thread] with lines still to print; and a thread that would
    return. *)
Inductive code := Main | Mythread (k : nat) | Joining | Child (k : nat) | Returning.
Definition blank : thread code := mkthread FREE 0 0 Main.

Definition thread_schedule : M (ut code) unit :=
  next <- gets other_runnable ;;
  match next with
  | Some n => U1.change_thread n
  | None =>
      c <- gets current_thread ;;
      able <- gets (is_state RUNNABLE c) ;;
      run <- gets (is_state RUNNING c) ;;
      if able || run then ret tt else panic no_runnable
  end.
Definition thread_init : ut code := mkut (<[0%nat := mkthread RUNNING 0 0 Main]> (replicate MAX_THREAD blank)) 0 0 [].

Definition cur_tid (s : ut code) : Z := from_option tid 0 (all_thread s !! current_thread s).
Definition cur_ptid (s : ut code) : Z := from_option ptid 0 (all_thread s !! current_thread s).
(** There is no test for a full table: the thread behind its end is written. *)
Definition thread_create (f : code) : M (ut code) unit :=
  slot <- gets free_slot ;;
  match slot with
  | None => panic "thread_create: past all_thread"
  | Some i =>
      p <- gets cur_tid ;;
      on_thread i (fun t => mkthread RUNNABLE (Z.of_nat i) p f) ;;;
      check_thread 1
  end.

(** [t->state != FREE && t->ptid == current_thread->tid], for some [t]. *)
Definition has_child (s : ut code) : bool :=
  existsb (fun t => negb (bool_decide (state t = FREE)) && (ptid t =? cur_tid s)) (all_thread s).
(** One turn of the loop of [thread_join_all]: whether it is over. *)
Definition join_turn : M (ut code) bool :=
  found <- gets has_child ;;
  if found : bool then cur_thread (set_state WAIT) ;;; thread_schedule ;;; ret false else ret true.

(** [p->tid == id && p->state == WAIT], for the first [p]. *)
Definition waiting (id : Z) (s : ut code) : option nat :=
  find_from 0 (fun _ t => (tid t =? id) && bool_decide (state t = WAIT)) (all_thread s).
Definition wake (id : Z) : M (ut code) unit :=
  w <- gets (waiting id) ;;
  match w with Some i => on_thread i (set_state RUNNABLE) | None => ret tt end.
Definition sibling_alive (s : ut code) : bool :=
  existsb (fun t => (ptid t =? cur_ptid s) && negb (tid t =? cur_tid s) && negb (bool_decide (state t = FREE))) (all_thread s).
Definition wake_pthread : M (ut code) unit :=
  p <- gets cur_ptid ;;
  alive <- gets sibling_alive ;;
  if alive : bool then ret tt else wake p.

Definition LINES : nat := 100.
Definition CHILDREN : nat := 5.
(** The current thread goes on. *)
Definition go_on : M (ut code) unit :=
  s <- get ;;
  match all_thread s !! current_thread s with
  | Some t =>
      match pc t with
      | Main => over <- join_turn ;; if over : bool then panic "returned" else ret tt
      | Mythread (S k) => thread_create (Child LINES) ;;; cur_thread (set_pc (Mythread k))
      | Mythread O => cur_thread (set_pc Joining)
      | Joining =>
          over <- join_turn ;;
          if over : bool then
            cur_thread (set_state FREE) ;;; check_thread (-1) ;;; cur_thread (set_pc Returning) ;;; thread_schedule
          else ret tt
      | Child (S k) => print_line ;;; cur_thread (set_pc (Child k))
      | Child O =>
          p <- gets cur_ptid ;;
          wake p ;;;
          cur_thread (set_state FREE) ;;;
          check_thread (-1) ;;;
          wake_pthread ;;;
          cur_thread (set_pc Returning) ;;;
          thread_schedule
      | Returning => panic "returned"
      end
  | None => ret tt
  end.
Definition main : M (ut code) unit := thread_create (Mythread CHILDREN).
Definition run_step (x : U1.step) : M (ut code) unit :=
  match x with
  | U1.Go => go_on
  | U1.Preempt => n <- gets nthreads ;; if n >=? 2 then thread_schedule else ret tt
  end.
Fixpoint run (xs : list U1.step) : M (ut code) unit :=
  match xs with [] => ret tt | x :: xs => run_step x ;;; run xs end.
Definition program (xs : list U1.step) : outcome (unit * ut code) := (main ;;; run xs) thread_init.
End U2.

(** ** [uthread3.c] *)
Module U3.
Definition MAX_THREAD : nat := 10.
(** [main] with calls still to make, [mythread] with lines still to print, and a thread
    that would return. *)
Inductive call := Suspend (n : Z) | Resume (n : Z) | Sleep.
Inductive code := Main (todo : list call) | Mythread (k : nat) | Returning.
Definition script : list call :=
  [Sleep; Suspend 1; Sleep; Suspend 2; Sleep; Suspend 3; Sleep; Suspend 1; Resume 1; Sleep; Resume 2; Sleep; Resume 3; Sleep].
Definition blank : thread code := mkthread FREE 0 0 (Main []).

(** Whatever its state, the thread that is left becomes [RUNNABLE]. *)
Definition change_thread (n : nat) : M (ut code) unit :=
  on_thread n (set_state RUNNING) ;;;
  cur_thread (set_state RUNNABLE) ;;;
  switch_to n.
Definition thread_schedule : M (ut code) unit :=
  next <- gets other_runnable ;;
  match next with
  | Some n => change_thread n
  | None =>
      c <- gets current_thread ;;
      able <- gets (is_state RUNNABLE c) ;;
      if able : bool then ret tt else panic no_runnable
  end.
Definition thread_init : ut code := mkut (<[0%nat := mkthread RUNNING 0 0 (Main script)]> (replicate MAX_THREAD blank)) 0 0 [].
Definition thread_create (f : code) : M (ut code) Z :=
  slot <- gets free_slot ;;
  match slot with
  | None => ret (-1)
  | Some i => on_thread i (fun t => mkthread RUNNABLE (Z.of_nat i) (ptid t) f) ;;; check_thread 1 ;;; ret (Z.of_nat i)
  end.

(** [t->tid == tid], for the first [t]. *)
Definition with_tid (id : Z) (s : ut code) : option nat := find_from 0 (fun _ t => tid t =? id) (all_thread s).
(** Whether the call reports success. *)
Definition thread_suspend (id : Z) : M (ut code) bool :=
  w <- gets (with_tid id) ;;
  match w with
  | None => ret false
  | Some i =>
      waits <- gets (is_state WAIT i) ;;
      if waits : bool then ret false
      else
        on_thread i (set_state WAIT) ;;;
        c <- gets current_thread ;;
        (if bool_decide (i = c) then thread_schedule else ret tt) ;;;
        ret true
  end.
Definition thread_resume (id : Z) : M (ut code) bool :=
  w <- gets (with_tid id) ;;
  match w with
  | None => ret false
  | Some i =>
      runs <- gets (is_state RUNNING i) ;;
      if runs : bool then ret false else on_thread i (set_state RUNNABLE) ;;; ret true
  end.

Definition LINES : nat := 100.
Definition go_on : M (ut code) unit :=
  s <- get ;;
  match all_thread s !! current_thread s with
  | Some t =>
      match pc t with
      | Main [] => panic "exit"
      | Returning => panic "returned"
      | Main (c :: todo) =>
          cur_thread (set_pc (Main todo)) ;;;
          match c with
          | Suspend n => thread_suspend n ;;; ret tt
          | Resume n => thread_resume n ;;; ret tt
          | Sleep => ret tt
          end
      | Mythread (S k) => print_line ;;; cur_thread (set_pc (Mythread k))
      | Mythread O => cur_thread (set_state FREE) ;;; check_thread (-1) ;;; cur_thread (set_pc Returning) ;;; thread_schedule
      end
  | None => ret tt
  end.
Definition main : M (ut code) unit :=
  thread_create (Mythread LINES) ;;; thread_create (Mythread LINES) ;;; thread_create (Mythread LINES) ;;; ret tt.
End U3.
