(* ===== verification/UthreadProps.v ===== *)
(** * Properties of the user-level threads

    [uthread1]: however the timer interrupts it, the program ends, and not before both
    threads have printed all their lines.  [uthread2]: a thread that waits for its
    children is woken, nobody is lost, and the process ends only when every thread is
    done.  [uthread3]: a suspended thread is not chosen until it is resumed. *)

From S2P Require Import Prelude Uthread.
Local Open Scope Z_scope.

(** ** [uthread1]: two threads *)
Module Two.
Import U1.

(** What a thread has left to print; [None] when it is done. *)
Definition thr (runs : bool) (o : option nat) : thread code :=
  match o with
  | Some k => mkthread (if runs then RUNNING else RUNNABLE) 0 0 (Mythread k)
  | None => mkthread FREE 0 0 Returning
  end.
Definition alive (o : option nat) : Z := match o with Some _ => 1 | None => 0 end.
(** The second thread runs, or the first. *)
Definition rep (c : bool) (a b : option nat) (l : list nat) : ut code :=
  mkut [mkthread RUNNING 0 0 Main; thr (negb c) a; thr c b; blank] (if c then 2 else 1)%nat (alive a + alive b) l.

Lemma main_rep : main thread_init = Ret (tt, rep false (Some LINES) (Some LINES) []).
Proof. reflexivity. Qed.
Lemma preempt_rep c a b l :
  run_step Preempt (rep c a b l)
  = Ret (tt, match a, b with Some _, Some _ => rep (negb c) a b l | _, _ => rep c a b l end).
Proof. by destruct c, a, b. Qed.
Lemma go_first k b l : run_step Go (rep false (Some (S k)) b l) = Ret (tt, rep false (Some k) b (l ++ [1%nat])).
Proof. by destruct b. Qed.
Lemma go_second k a l : run_step Go (rep true a (Some (S k)) l) = Ret (tt, rep true a (Some k) (l ++ [2%nat])).
Proof. by destruct a. Qed.
Lemma end_first b l :
  run_step Go (rep false (Some O) b l) = match b with Some _ => Ret (tt, rep true None b l) | None => Panic no_runnable end.
Proof. by destruct b. Qed.
Lemma end_second a l :
  run_step Go (rep true a (Some O) l) = match a with Some _ => Ret (tt, rep false a None l) | None => Panic no_runnable end.
Proof. by destruct a. Qed.

Definition left (o : option nat) : nat := from_option id 0%nat o.
Definition todo (o : option nat) : nat := from_option S 0%nat o.
(** The thread that runs is not done; what was printed and what is left add up. *)
Definition sound (c : bool) (a b : option nat) (l : list nat) : Prop :=
  (if c then b else a) <> None
  /\ (count_occ Nat.eq_dec l 1 + left a = LINES)%nat /\ (count_occ Nat.eq_dec l 2 + left b = LINES)%nat.

(** One step: on, or to the end when nothing is left. *)
Lemma step_sound x c a b l : sound c a b l ->
  match run_step x (rep c a b l) with
  | Ret (_, s) => exists c' a' b' l', s = rep c' a' b' l' /\ sound c' a' b' l'
      /\ (todo a + todo b = todo a' + todo b' + match x with Go => 1 | Preempt => 0 end)%nat
  | Panic e => e = no_runnable /\ x = Go /\ count_occ Nat.eq_dec l 1%nat = LINES /\ count_occ Nat.eq_dec l 2%nat = LINES
      /\ (todo a + todo b = 1)%nat
  | NoFuel => False
  end.
Proof.
  intros (Hc & H1 & H2). destruct x.
  - destruct c.
    + destruct b as [[|k]|]; [rewrite end_second|rewrite go_second|done].
      * destruct a as [k|]; cbn in *; [|split; [done|split; [done|lia]]].
        eexists _, _, _, _. split; [reflexivity|]. split; [split; [done|cbn; lia]|cbn; lia].
      * eexists _, _, _, _. split; [reflexivity|]. cbn in *. split; [split; [done|rewrite !count_occ_app; cbn; lia]|cbn; lia].
    + destruct a as [[|k]|]; [rewrite end_first|rewrite go_first|done].
      * destruct b as [k|]; cbn in *; [|split; [done|split; [done|lia]]].
        eexists _, _, _, _. split; [reflexivity|]. split; [split; [done|cbn; lia]|cbn; lia].
      * eexists _, _, _, _. split; [reflexivity|]. cbn in *. split; [split; [done|rewrite !count_occ_app; cbn; lia]|cbn; lia].
  - rewrite preempt_rep. destruct a as [k|], b as [m|]; eexists _, _, _, _; (split; [reflexivity|]); (split; [split; [|done]|lia]);
      by destruct c.
Qed.

#[export] Instance step_eq_dec : EqDecision step.
Proof. solve_decision. Defined.
(** How often the program goes on. *)
Definition gos (xs : list step) : nat := length (filter (fun x => x = Go) xs).

Lemma run_sound xs : forall c a b l, sound c a b l ->
  match run xs (rep c a b l) with
  | Ret (_, s) => exists c' a' b' l', s = rep c' a' b' l' /\ sound c' a' b' l' /\ (todo a + todo b = todo a' + todo b' + gos xs)%nat
  | Panic e => e = no_runnable
  | NoFuel => False
  end.
Proof.
  induction xs as [|x xs IH]; intros c a b l Hs; cbn [run].
  - eexists _, _, _, _. split; [reflexivity|]. split; [done|cbn; lia].
  - unfold bind. pose proof (step_sound x c a b l Hs) as H. destruct (run_step x (rep c a b l)) as [[[] s]|e|]; [|by destruct H|done].
    destruct H as (c1 & a1 & b1 & l1 & -> & Hs1 & Ht). specialize (IH _ _ _ _ Hs1).
    destruct (run xs (rep c1 a1 b1 l1)) as [[[] s]|e|]; [|done..].
    destruct IH as (c2 & a2 & b2 & l2 & -> & Hs2 & Ht2). eexists _, _, _, _. split; [reflexivity|]. split; [done|].
    unfold gos in *. rewrite filter_cons. destruct x; case_decide; try done; cbn [length] in *; lia.
Qed.
Lemma program_run xs : program xs = run xs (rep false (Some LINES) (Some LINES) []).
Proof. unfold program. by rewrite (bind_step _ _ _ _ _ main_rep). Qed.
Lemma start_sound : sound false (Some LINES) (Some LINES) [].
Proof. done. Qed.
End Two.
Import Two.

(** however the timer interrupts it, [uthread1] comes to its end, by way of the
    scheduler that finds no thread to run, and it does so only when both threads have
    printed all their lines. *)
Theorem uthread1_completes xs :
  ((202 <= gos xs)%nat -> U1.program xs = Panic no_runnable)
  /\ forall s x e, U1.program xs = Ret (tt, s) -> U1.run_step x s = Panic e ->
       e = no_runnable /\ count_occ Nat.eq_dec (lines s) 1%nat = 100%nat /\ count_occ Nat.eq_dec (lines s) 2%nat = 100%nat.
Proof.
  rewrite program_run. pose proof (run_sound xs _ _ _ _ start_sound) as H. split.
  - intros Hg. destruct (U1.run xs _) as [[[] s]|e|]; [|by rewrite H|done].
    destruct H as (c & a & b & l & -> & (Hc & _) & Ht). unfold U1.LINES, todo in Ht. cbn [from_option] in Ht.
    destruct c; [destruct b|destruct a]; try done; cbn [from_option] in Ht; lia.
  - intros s x e Hp He. rewrite Hp in H. destruct H as (c & a & b & l & -> & Hs & _).
    pose proof (step_sound x c a b l Hs) as H. rewrite He in H. destruct H as (-> & _ & H1 & H2 & _). done.
Qed.
Lemma uthread1_completes_witness :
  U1.program (replicate 202 U1.Go) = Panic no_runnable.
Proof. apply (uthread1_completes (replicate 202 U1.Go)). vm_compute. lia. Defined.

(** ** Tables of threads *)

Section Table.
Context {PC : Type}.
Implicit Types (t : thread PC) (l : list (thread PC)).

Lemma find_from_Some (f : nat -> thread PC -> bool) l : forall n i,
  find_from n f l = Some i -> exists j t, i = (n + j)%nat /\ l !! j = Some t /\ f i t = true.
Proof.
  induction l as [|t l IH]; intros n i H; cbn [find_from] in H; [done|]. destruct (f n t) eqn:E.
  - injection H as <-. exists 0%nat, t. split; [lia|done].
  - destruct (IH (S n) i H) as (j & t' & -> & Hj & Hf). exists (S j), t'. split; [lia|done].
Qed.
Lemma find_from_None (f : nat -> thread PC -> bool) l : forall n,
  find_from n f l = None -> forall j t, l !! j = Some t -> f (n + j)%nat t = false.
Proof.
  induction l as [|t l IH]; intros n H j t' Hj; cbn [find_from] in H; [done|]. destruct (f n t) eqn:E; [done|].
  destruct j as [|j]; [injection Hj as <-; by rewrite Nat.add_0_r|].
  replace (n + S j)%nat with (S n + j)%nat by lia. by apply IH.
Qed.

Lemma sum_alter (f : thread PC -> nat) g i t l :
  l !! i = Some t -> (sum_list_with f (alter g i l) + f t = sum_list_with f l + f (g t))%nat.
Proof.
  revert i. induction l as [|x l IH]; intros i Hi; [done|]. destruct i as [|i]; cbn in *.
  - injection Hi as ->. lia.
  - specialize (IH i Hi). change (list_alter g i l) with (alter g i l). lia.
Qed.
Lemma sum_lookup (f : thread PC -> nat) i t l : l !! i = Some t -> (f t <= sum_list_with f l)%nat.
Proof. revert i. induction l as [|x l IH]; intros [|i] H; cbn in *; [done..|injection H as ->; lia|]. specialize (IH i H). lia. Qed.

(** Threads that differ at most in which of the ready ones runs. *)
Definition ready (st : tstate) : Prop := st = RUNNING \/ st = RUNNABLE.
Definition same t t' : Prop :=
  tid t = tid t' /\ ptid t = ptid t' /\ pc t = pc t' /\ (state t = state t' \/ ready (state t) /\ ready (state t')).
Lemma same_refl t : same t t.
Proof. unfold same. auto. Qed.
Lemma same_ready t st : ready (state t) -> ready st -> same t (set_state st t).
Proof. intros ??. do 3 (split; [done|]). by right. Qed.
Lemma same_alter l i t st :
  l !! i = Some t -> ready (state t) -> ready st -> Forall2 same l (alter (set_state st) i l).
Proof.
  intros Hi Ht Hst. apply Forall2_same_length_lookup. split; [by rewrite length_alter|]. intros j x y Hx Hy.
  destruct (decide (i = j)) as [<-|Hne].
  - rewrite list_lookup_alter_eq, Hi in Hy. injection Hy as <-. rewrite Hi in Hx. injection Hx as <-. by apply same_ready.
  - rewrite list_lookup_alter_ne in Hy by done. rewrite Hx in Hy. injection Hy as <-. apply same_refl.
Qed.
Lemma same_trans : Transitive same.
Proof. intros x y z (?&?&?&H) (?&?&?&H'). unfold same, ready in *. naive_solver congruence. Qed.
#[export] Instance same_reflexive : Reflexive same := same_refl.
#[export] Instance same_transitive : Transitive same := same_trans.
Lemma sum_same (f : thread PC -> nat) l l' :
  (forall t t', same t t' -> f t = f t') -> Forall2 same l l' -> sum_list_with f l = sum_list_with f l'.
Proof. intros Hf. induction 1 as [|t t' l l' H HF IH]; [done|]. cbn. by rewrite IH, (Hf t t'). Qed.
End Table.

(** ** [uthread2]: waiting for children *)
Module Join.
Import U2.

Definition mainT : thread code := mkthread WAIT 0 0 Main.
Definition al (t : thread code) : nat := if decide (state t = FREE) then 0 else 1.
(** Lines a child has left to print. *)
Definition left (t : thread code) : nat :=
  if decide (state t = FREE) then 0 else match pc t with Child k => k | _ => 0 end.
(** Children [mythread] has left to create. *)
Definition births (t : thread code) : nat := match pc t with Mythread k => k | _ => 0 end.
(** Steps a thread has left. *)
Definition weight (t : thread code) : nat :=
  if decide (state t = FREE) then 0
  else match pc t with
       | Mythread k => 204 * k + 2
       | Joining => if decide (state t = WAIT) then 0 else 1
       | Child k => 2 * (k + 1)
       | _ => 0
       end.
Definition kid (l : list (thread code)) (i : nat) (t : thread code) : Prop := (2 <= i)%nat /\ l !! i = Some t /\ state t <> FREE.
Definition kid_alive (l : list (thread code)) : Prop := exists i t, kid l i t.
Definition my_ok (my : thread code) : Prop :=
  state my <> FREE /\ tid my = 1 /\ ptid my = 0 /\ (pc my = Joining \/ exists k, pc my = Mythread k).

(** The table of threads once [main] waits: [mythread] in slot 1, with [b] children to
    create, and children behind it. *)
Record K (l : list (thread code)) (n : Z) (ls : list nat) (b : nat) := {
  k_len : length l = MAX_THREAD;
  k_main : l !! 0%nat = Some mainT;
  k_my : exists my, l !! 1%nat = Some my /\ my_ok my /\ (state my = WAIT -> pc my = Joining /\ kid_alive l)
    /\ n + Z.of_nat b <= 6 /\ (length ls + sum_list_with left l + 100 * b = 500)%nat;
  k_kids : forall i t, kid l i t -> tid t = Z.of_nat i /\ ptid t = 1 /\ (exists k, pc t = Child k) /\ state t <> WAIT;
  k_n : n + 1 = Z.of_nat (sum_list_with al l);
}.
Definition births_of (l : list (thread code)) : nat := from_option births 0%nat (l !! 1%nat).
(** One thread runs, not [main]. *)
Definition only_cur (l : list (thread code)) (c : nat) : Prop := forall i t, l !! i = Some t -> state t = RUNNING -> i = c.
Definition I (s : ut code) : Prop :=
  K (all_thread s) (nthreads s) (lines s) (births_of (all_thread s)) /\ (0 < current_thread s)%nat /\ only_cur (all_thread s) (current_thread s)
  /\ exists t, all_thread s !! current_thread s = Some t /\ state t = RUNNING.

Lemma same_al t t' : same t t' -> al t = al t'.
Proof. intros (_ & _ & _ & H). unfold al, ready in *. repeat case_decide; naive_solver congruence. Qed.
Lemma same_left t t' : same t t' -> left t = left t'.
Proof. intros (_ & _ & Hp & H). unfold left, ready in *. rewrite Hp. repeat case_decide; naive_solver congruence. Qed.
Lemma same_weight t t' : same t t' -> weight t = weight t'.
Proof.
  intros (_ & _ & Hp & H). unfold weight, ready in *. rewrite Hp.
  destruct (pc t'); repeat case_decide; naive_solver congruence.
Qed.
Lemma same_state (t t' : thread code) st : same t t' -> ~ ready st -> state t = st <-> state t' = st.
Proof. intros (_ & _ & _ & H) Hst. unfold ready in *. naive_solver congruence. Qed.
Lemma not_ready_free : ~ ready FREE.
Proof. by intros [?|?]. Qed.
Lemma not_ready_wait : ~ ready WAIT.
Proof. by intros [?|?]. Qed.

Lemma same_at (l l' : list (thread code)) i t' : Forall2 same l l' -> l' !! i = Some t' -> exists t, l !! i = Some t /\ same t t'.
Proof. intros H Hi. by apply (Forall2_lookup_r _ _ _ _ _ H Hi). Qed.
Lemma kid_same l l' i t' : Forall2 same l l' -> kid l' i t' -> exists t, kid l i t /\ same t t'.
Proof.
  intros HF (Hi & Ht & Hs). destruct (same_at _ _ _ _ HF Ht) as (t & Hl & Hsm). exists t. split; [|done].
  split; [done|]. split; [done|]. by rewrite (same_state t t' FREE Hsm not_ready_free).
Qed.
Lemma Forall2_same_sym l l' : Forall2 (@same code) l l' -> Forall2 same l' l.
Proof.
  intros H. apply Forall2_flip. eapply Forall2_impl; [exact H|]. intros x y (?&?&?&Hs). unfold same. cbn. naive_solver.
Qed.
Lemma K_same l l' n ls b : Forall2 same l l' -> K l n ls b -> K l' n ls b.
Proof.
  intros HF [Hlen Hmain (my & Hm & (Hf & Ht & Hp & Hc) & Hw & Hb & Hl) Hk Hn].
  pose proof (Forall2_same_sym _ _ HF) as HF'.
  destruct (same_at _ _ _ _ HF' Hm) as (my' & Hm' & (E1 & E2 & E3 & E4)).
  destruct (same_at _ _ _ _ HF' Hmain) as (mn & Hmn & (M1 & M2 & M3 & M4)).
  split.
  - by rewrite <-(Forall2_length _ _ _ HF).
  - rewrite Hmn. destruct mn as [st u v p]. unfold mainT, ready in *. cbn in *. subst.
    destruct M4 as [->|[_ [M4|M4]]]; done.
  - exists my'. split; [done|]. split.
    { split; [|rewrite E1, E2, E3; done]. rewrite (same_state my' my FREE); [done| |apply not_ready_free]. by repeat split. }
    split.
    { intros Hwt. rewrite E3. apply (same_state my' my WAIT) in Hwt; [|by repeat split|apply not_ready_wait].
      destruct (Hw Hwt) as [Hj (i & t & Hi)]. split; [done|].
      destruct (kid_same _ _ _ _ HF' Hi) as (t' & Hk' & _). by exists i, t'. }
    split; [done|]. by rewrite <-(sum_same left l l' same_left HF).
  - intros i t' Hi. destruct (kid_same _ _ _ _ HF Hi) as (t & Hki & Hsm). destruct (Hk i t Hki) as (? & ? & ? & Hwt).
    rewrite (same_state t t' WAIT Hsm not_ready_wait) in Hwt. destruct Hsm as (<- & <- & <- & _). done.
  - by rewrite <-(sum_same al l l' same_al HF).
Qed.

Lemma births_same l l' : Forall2 same l l' -> births_of l = births_of l'.
Proof.
  intros HF. unfold births_of. pose proof (Forall2_same_sym _ _ HF) as HF'.
  destruct (l !! 1%nat) as [t|] eqn:E.
  - destruct (same_at _ _ _ _ HF' E) as (t' & -> & (_ & _ & Hp & _)). cbn. unfold births. by rewrite Hp.
  - destruct (l' !! 1%nat) as [t'|] eqn:E'; [|done]. destruct (same_at _ _ _ _ HF E') as (t & Ht & _). congruence.
Qed.

Lemma other_runnable_spec (s : ut code) :
  match other_runnable s with
  | Some i => i <> current_thread s /\ exists t, all_thread s !! i = Some t /\ state t = RUNNABLE
  | None => forall i t, i <> current_thread s -> all_thread s !! i = Some t -> state t <> RUNNABLE
  end.
Proof.
  destruct (other_runnable s) as [i|] eqn:E; unfold other_runnable in E.
  - apply find_from_Some in E as (j & t & -> & Hj & Hf). cbn [Nat.add] in *.
    apply andb_true_iff in Hf as [H1 H2]. apply bool_decide_eq_true in H1. apply negb_true_iff, bool_decide_eq_false in H2.
    split; [done|]. by exists t.
  - intros i t Hi Ht Hst. pose proof (find_from_None _ _ _ E i t Ht) as H. cbn [Nat.add] in H.
    rewrite bool_decide_eq_true_2, bool_decide_eq_false_2 in H by done. done.
Qed.
Lemma is_state_at st i t (s : ut code) : all_thread s !! i = Some t -> is_state st i s = bool_decide (state t = st).
Proof. intros H. unfold is_state. by rewrite H. Qed.

(** A switch to a thread that can run. *)
Lemma change_ok l c n ls i ti tc :
  K l n ls (births_of l) -> only_cur l c -> (0 < c)%nat -> l !! c = Some tc -> i <> c -> l !! i = Some ti -> state ti = RUNNABLE ->
  exists l', U1.change_thread i (mkut l c n ls) = Ret (tt, mkut l' i n ls) /\ I (mkut l' i n ls) /\ Forall2 same l l'.
Proof.
  intros HK Hcur Hc Htc Hi Hti Hst. set (l1 := alter (set_state RUNNING) i l).
  assert (HF1 : Forall2 same l l1) by (eapply same_alter; [done|by right|by left]).
  assert (Hc1 : l1 !! c = Some tc) by (unfold l1; by rewrite list_lookup_alter_ne).
  set (l2 := if decide (state tc = RUNNING) then alter (set_state RUNNABLE) c l1 else l1).
  assert (HF2 : Forall2 same l l2).
  { unfold l2. case_decide as Hr; [|done]. etrans; [exact HF1|].
    eapply same_alter; [done|by left|by right]. }
  exists l2. split; [|split; [|done]].
  - unfold U1.change_thread, l2. mstep. cbn [all_thread current_thread nthreads lines on_thread modify].
    rewrite (is_state_at RUNNING c tc) by done. rewrite bool_decide_eq_false_2 by lia. cbn [negb andb].
    destruct (decide (state tc = RUNNING)) as [Hr|Hr]; [rewrite bool_decide_eq_true_2 by done|rewrite bool_decide_eq_false_2 by done]; done.
  - assert (Hi2 : l2 !! i = Some (set_state RUNNING ti)).
    { unfold l2. case_decide; rewrite ?list_lookup_alter_ne by done; unfold l1; by rewrite list_lookup_alter_eq, Hti. }
    split; [cbn; rewrite <-(births_same l l2 HF2); by eapply K_same|]. cbn [all_thread current_thread]. split.
    { destruct i; [|lia]. rewrite (k_main _ _ _ _ HK) in Hti. by injection Hti as <-. }
    split; [|by eexists]. intros j t Hj Hr. destruct (decide (j = i)) as [|Hne]; [done|]. exfalso.
    unfold l2 in Hj. destruct (decide (state tc = RUNNING)) as [Hrc|Hrc].
    + destruct (decide (j = c)) as [->|Hjc].
      * rewrite list_lookup_alter_eq, Hc1 in Hj. injection Hj as <-. done.
      * rewrite list_lookup_alter_ne in Hj by done. unfold l1 in Hj. rewrite list_lookup_alter_ne in Hj by done.
        by specialize (Hcur j t Hj Hr).
    + unfold l1 in Hj. rewrite list_lookup_alter_ne in Hj by done. specialize (Hcur j t Hj Hr). congruence.
Qed.

Lemma sched_ok l c n ls tc :
  K l n ls (births_of l) -> only_cur l c -> (0 < c)%nat -> l !! c = Some tc ->
  (state tc = RUNNING \/ exists i t, i <> c /\ l !! i = Some t /\ state t = RUNNABLE) ->
  exists l' c', thread_schedule (mkut l c n ls) = Ret (tt, mkut l' c' n ls) /\ I (mkut l' c' n ls) /\ Forall2 same l l'.
Proof.
  intros HK Hcur Hc Htc Hen. unfold thread_schedule. mstep.
  pose proof (other_runnable_spec (mkut l c n ls)) as Hspec. cbn [current_thread all_thread] in Hspec.
  destruct (other_runnable (mkut l c n ls)) as [i|].
  - destruct Hspec as [Hi (ti & Hti & Hst)]. destruct (change_ok l c n ls i ti tc) as (l' & He & HI & HF); [done..|].
    exists l', i. done.
  - assert (Hr : state tc = RUNNING). { destruct Hen as [|(i & t & Hi & Ht & Hst)]; [done|]. by destruct (Hspec i t Hi Ht). }
    exists l, c. cbn [current_thread]. rewrite (is_state_at RUNNING c tc), (is_state_at RUNNABLE c tc) by done.
    rewrite Hr. split; [done|]. split; [|done]. split; [done|]. split; [done|]. split; [done|]. by exists tc.
Qed.

(** A child changes, or is born or ends. *)
Lemma K_kid l n ls b i t g n' ls' b' :
  K l n ls b -> (2 <= i)%nat -> l !! i = Some t ->
  (state (g t) <> FREE -> tid (g t) = Z.of_nat i /\ ptid (g t) = 1 /\ (exists k, pc (g t) = Child k) /\ state (g t) <> WAIT) ->
  (state (g t) <> FREE \/ forall my, l !! 1%nat = Some my -> state my <> WAIT) ->
  n' + Z.of_nat (al t) = n + Z.of_nat (al (g t)) -> n' + Z.of_nat b' <= 6 ->
  (length ls' + left (g t) + 100 * b' = length ls + left t + 100 * b)%nat ->
  K (alter g i l) n' ls' b'.
Proof.
  intros [Hlen Hmain (my & Hm & Hok & Hw & Hb & Hl) Hk Hn] Hi Ht Hg Hal Hn' Hb' Hl'.
  pose proof (sum_alter al g i t l Ht) as Sa. pose proof (sum_alter left g i t l Ht) as Sl. split.
  - by rewrite length_alter.
  - rewrite list_lookup_alter_ne by lia. done.
  - exists my. rewrite list_lookup_alter_ne by lia. split; [done|]. split; [done|]. split; [|split; [done|lia]].
    intros Hwt. destruct (Hw Hwt) as [Hj (j & tj & Hkj & Htj & Hsj)]. split; [done|].
    destruct (decide (j = i)) as [->|Hne].
    + destruct Hal as [Hal|Hal]; [|by destruct (Hal my Hm)]. exists i, (g t). split; [done|]. by rewrite list_lookup_alter_eq, Ht.
    + exists j, tj. split; [done|]. by rewrite list_lookup_alter_ne.
  - intros j tj (Hj & Htj & Hsj). destruct (decide (j = i)) as [->|Hne].
    + rewrite list_lookup_alter_eq, Ht in Htj. injection Htj as <-. by apply Hg.
    + rewrite list_lookup_alter_ne in Htj by done. by apply Hk.
  - lia.
Qed.
(** [mythread] changes. *)
Lemma K_my l n ls b my g :
  K l n ls b -> l !! 1%nat = Some my -> my_ok (g my) -> left (g my) = left my ->
  (state (g my) = WAIT -> pc (g my) = Joining /\ kid_alive l) ->
  K (alter g 1%nat l) n ls b.
Proof.
  intros [Hlen Hmain (my' & Hm & Hok & Hw & Hb & Hl) Hk Hn] Hmy Hg Hlf Hgw. rewrite Hmy in Hm. injection Hm as <-.
  pose proof (sum_alter al g 1%nat my l Hmy) as Sa. pose proof (sum_alter left g 1%nat my l Hmy) as Sl.
  assert (Hkid : forall i t, kid (alter g 1%nat l) i t <-> kid l i t).
  { intros i t. unfold kid. split; intros (H1 & H2 & H3); (split; [done|]); rewrite list_lookup_alter_ne in * by lia; done. }
  split.
  - by rewrite length_alter.
  - rewrite list_lookup_alter_ne by lia. done.
  - exists (g my). rewrite list_lookup_alter_eq, Hmy. split; [done|]. split; [done|]. split; [|split; [done|lia]].
    intros Hwt. destruct (Hgw Hwt) as [Hj (i & t & Hi)]. split; [done|]. exists i, t. by apply Hkid.
  - intros i t Hi. by apply Hk, Hkid.
  - destruct Hok as [H1 _], Hg as [H2 _]. unfold al in Sa. rewrite !decide_False in Sa by done. unfold al in *. lia.
Qed.

(** ** The steps *)

Definition W (l : list (thread code)) : nat := sum_list_with weight l.
(** What a step comes to, from a table of weight [w]. *)
Definition goes (w : nat) (o : outcome (unit * ut code)) : Prop := exists s', o = Ret (tt, s') /\ I s' /\ (W (all_thread s') < w)%nat.

Lemma I_of l c n ls t :
  K l n ls (births_of l) -> (0 < c)%nat -> only_cur l c -> l !! c = Some t -> state t = RUNNING -> I (mkut l c n ls).
Proof. intros. split; [done|]. split; [done|]. split; [done|]. by exists t. Qed.
(** Changes of the running thread that leave it running. *)
Lemma only_cur_alter l c g : only_cur l c -> only_cur (alter g c l) c.
Proof.
  intros H i t Hi Hr. destruct (decide (i = c)) as [|Hne]; [done|]. rewrite list_lookup_alter_ne in Hi by done. by apply (H i t).
Qed.
Lemma births_alter l g i : i <> 1%nat -> births_of (alter g i l) = births_of l.
Proof. intros H. unfold births_of. by rewrite list_lookup_alter_ne. Qed.

Lemma left_alive t : state t <> FREE -> left t = match pc t with Child k => k | _ => 0%nat end.
Proof. intros H. unfold left. by rewrite decide_False. Qed.
Lemma weight_alive t : state t <> FREE ->
  weight t = match pc t with
             | Mythread k => 204 * k + 2
             | Joining => if decide (state t = WAIT) then 0 else 1
             | Child k => 2 * (k + 1)
             | _ => 0
             end%nat.
Proof. intros H. unfold weight. by rewrite decide_False. Qed.
Lemma al_alive t : state t <> FREE -> al t = 1%nat.
Proof. intros H. unfold al. by rewrite decide_False. Qed.

(** A child prints a line. *)
Lemma child_prints l c n ls t k :
  I (mkut l c n ls) -> l !! c = Some t -> pc t = Child (S k) -> (2 <= c)%nat ->
  goes (W l) (go_on (mkut l c n ls)).
Proof.
  intros (HK & Hc & Hcur & (t' & Ht' & Hr)) Ht Hp Hc2. cbn in *. rewrite Ht in Ht'. injection Ht' as <-.
  assert (Hkid : kid l c t) by (split; [done|]; split; [done|]; by rewrite Hr).
  destruct (k_kids _ _ _ _ HK c t Hkid) as (H1 & H2 & _ & _).
  exists (mkut (alter (set_pc (Child k)) c l) c n (ls ++ [c])). split; [|split].
  - unfold go_on. mstep. cbn. rewrite Ht, Hp. reflexivity.
  - eapply (I_of _ _ _ _ (set_pc (Child k) t)); [|done|by apply only_cur_alter|by rewrite list_lookup_alter_eq, Ht|done].
    rewrite births_alter by lia. eapply K_kid; [exact HK|done|exact Ht|..].
    + intros _. cbn. rewrite Hr. split; [done|]. split; [done|]. split; [by exists k|done].
    + left. cbn. by rewrite Hr.
    + unfold al. cbn. done.
    + destruct (k_my _ _ _ _ HK) as (my & _ & _ & _ & ? & _). done.
    + rewrite length_app, !left_alive by (cbn; congruence). cbn. rewrite Hp. lia.
  - cbn. unfold W. pose proof (sum_alter weight (set_pc (Child k)) c t l Ht) as Sw.
    rewrite (weight_alive t), (weight_alive (set_pc _ t)), Hp in Sw by (cbn; congruence). cbn [set_pc pc] in Sw. lia.
Qed.

Lemma cur_tid_at l c n ls t : l !! c = Some t -> cur_tid (mkut l c n ls) = tid t.
Proof. intros H. unfold cur_tid. cbn. by rewrite H. Qed.
Lemma cur_ptid_at l c n ls t : l !! c = Some t -> cur_ptid (mkut l c n ls) = ptid t.
Proof. intros H. unfold cur_ptid. cbn. by rewrite H. Qed.

(** There is room for every child. *)
Lemma sum_full l : (forall i t, l !! i = Some t -> state t <> FREE) -> sum_list_with al l = length l.
Proof.
  induction l as [|t l IH]; intros H; [done|]. cbn. rewrite (al_alive t) by (by apply (H 0%nat)).
  rewrite IH; [done|]. intros i x Hx. by apply (H (S i)).
Qed.
Lemma slot_found l c n ls b : K l n ls b -> exists i t, free_slot (mkut l c n ls) = Some i /\ (2 <= i)%nat /\ l !! i = Some t /\ state t = FREE.
Proof.
  intros HK. unfold free_slot. cbn [all_thread]. destruct (find_from _ _ _) as [i|] eqn:E.
  - apply find_from_Some in E as (j & t & -> & Hj & Hf). cbn [Nat.add]. apply bool_decide_eq_true in Hf.
    exists j, t. split; [done|]. split; [|done]. destruct j as [|[|j]]; [| |lia].
    + rewrite (k_main _ _ _ _ HK) in Hj. by injection Hj as <-.
    + destruct (k_my _ _ _ _ HK) as (my & Hm & (Hal & _) & _). congruence.
  - exfalso. destruct (k_my _ _ _ _ HK) as (my & _ & _ & _ & Hb & _). pose proof (k_n _ _ _ _ HK) as Hn.
    rewrite sum_full, (k_len _ _ _ _ HK) in Hn; [unfold MAX_THREAD in Hn; lia|].
    intros i t Ht Hf. pose proof (find_from_None _ _ _ E i t Ht) as H. cbn beta in H. by rewrite bool_decide_eq_true_2 in H.
Qed.

(** [mythread] creates a child, and then starts to wait for them. *)
Lemma my_creates l n ls my k :
  I (mkut l 1 n ls) -> l !! 1%nat = Some my -> pc my = Mythread (S k) -> goes (W l) (go_on (mkut l 1 n ls)).
Proof.
  intros (HK & Hc & Hcur & (t' & Ht' & Hr)) Hm Hp. cbn in *. rewrite Hm in Ht'. injection Ht' as <-.
  destruct (slot_found l 1 n ls _ HK) as (i & t & Hs & Hi & Ht & Hf).
  destruct (k_my _ _ _ _ HK) as (my' & Hm' & Hok & _ & Hb & _). rewrite Hm in Hm'. injection Hm' as <-.
  assert (Hbirths : births_of l = S k) by (unfold births_of; rewrite Hm; cbn; unfold births; by rewrite Hp).
  set (child := fun _ : thread code => mkthread RUNNABLE (Z.of_nat i) 1 (Child LINES)).
  set (l1 := alter child i l). assert (Hm1 : l1 !! 1%nat = Some my) by (unfold l1; rewrite list_lookup_alter_ne by lia; done).
  assert (HK1 : K l1 (n + 1) ls k).
  { eapply K_kid; [exact HK|done|exact Ht|..]; rewrite ?Hbirths in *.
    - intros _. split; [done|]. split; [done|]. split; [by exists LINES|done].
    - by left.
    - rewrite (al_alive (child t)) by done. unfold al. rewrite decide_True by done. lia.
    - lia.
    - rewrite (left_alive (child t)) by done. unfold left. rewrite decide_True by done. unfold child, LINES. cbn [pc]. lia. }
  exists (mkut (alter (set_pc (Mythread k)) 1%nat l1) 1 (n + 1) ls). split; [|split].
  - unfold go_on. mstep. cbn [all_thread current_thread]. rewrite Hm, Hp. unfold thread_create. mstep. rewrite Hs.
    rewrite (cur_tid_at l 1 n ls my Hm). destruct Hok as (_ & -> & _). reflexivity.
  - eapply (I_of _ _ _ _ (set_pc (Mythread k) my)); [|done| |by rewrite list_lookup_alter_eq, Hm1|done].
    + assert (births_of (alter (set_pc (Mythread k)) 1%nat l1) = k) as -> by (unfold births_of; by rewrite list_lookup_alter_eq, Hm1).
      eapply K_my; [done|exact Hm1|..].
      * destruct Hok as (? & ? & ? & _). split; [done|]. split; [done|]. split; [done|]. right. by exists k.
      * rewrite !left_alive by (cbn; congruence). by rewrite Hp.
      * cbn. by rewrite Hr.
    + apply only_cur_alter. intros j x Hj Hx. unfold l1 in Hj. destruct (decide (j = i)) as [->|Hne].
      * rewrite list_lookup_alter_eq, Ht in Hj. injection Hj as <-. done.
      * rewrite list_lookup_alter_ne in Hj by done. by apply (Hcur j x).
  - cbn [all_thread]. unfold W. pose proof (sum_alter weight child i t l Ht) as S1.
    pose proof (sum_alter weight (set_pc (Mythread k)) 1%nat my l1 Hm1) as S2. fold l1 in S1.
    rewrite (weight_alive (child t)) in S1 by done. rewrite (weight_alive my), (weight_alive (set_pc _ my)), Hp in S2 by (cbn; congruence).
    cbn [child set_pc pc] in S1, S2. unfold LINES in S1. lia.
Qed.

Lemma my_turns l n ls my :
  I (mkut l 1 n ls) -> l !! 1%nat = Some my -> pc my = Mythread 0 -> goes (W l) (go_on (mkut l 1 n ls)).
Proof.
  intros (HK & Hc & Hcur & (t' & Ht' & Hr)) Hm Hp. cbn in *. rewrite Hm in Ht'. injection Ht' as <-.
  destruct (k_my _ _ _ _ HK) as (my' & Hm' & (Hal & H1 & H2 & _) & _). rewrite Hm in Hm'. injection Hm' as <-.
  exists (mkut (alter (set_pc Joining) 1%nat l) 1 n ls). split; [|split].
  - unfold go_on. mstep. cbn [all_thread current_thread]. by rewrite Hm, Hp.
  - eapply (I_of _ _ _ _ (set_pc Joining my)); [|done|by apply only_cur_alter|by rewrite list_lookup_alter_eq, Hm|done].
    assert (births_of (alter (set_pc Joining) 1%nat l) = births_of l) as ->.
    { unfold births_of. rewrite list_lookup_alter_eq, Hm. cbn. unfold births. by rewrite Hp. }
    eapply K_my; [done|exact Hm|..].
    + split; [done|]. split; [done|]. split; [done|by left].
    + rewrite !left_alive by (cbn; congruence). by rewrite Hp.
    + cbn. by rewrite Hr.
  - cbn. unfold W. pose proof (sum_alter weight (set_pc Joining) 1%nat my l Hm) as Sw.
    rewrite (weight_alive my), (weight_alive (set_pc _ my)), Hp in Sw by (cbn; congruence).
    cbn [set_pc pc state] in Sw. rewrite decide_False in Sw by congruence. lia.
Qed.

Lemma K_my_at l n ls b my : K l n ls b -> l !! 1%nat = Some my ->
  my_ok my /\ (state my = WAIT -> pc my = Joining /\ kid_alive l) /\ (length ls + sum_list_with left l + 100 * b = 500)%nat.
Proof.
  intros HK Hm. destruct (k_my _ _ _ _ HK) as (my' & Hm' & Hok & Hw & _ & Hl). rewrite Hm in Hm'. by injection Hm' as <-.
Qed.
(** [thread_join_all] sees exactly the children that are alive. *)
Lemma has_child_spec l n ls b my : K l n ls b -> l !! 1%nat = Some my -> has_child (mkut l 1 n ls) = true <-> kid_alive l.
Proof.
  intros HK Hm. unfold has_child. rewrite (cur_tid_at _ _ _ _ _ Hm). cbn [all_thread].
  destruct (K_my_at _ _ _ _ _ HK Hm) as ((_ & -> & Hp & _) & _). rewrite existsb_exists. split.
  - intros (t & Hin & Ht). apply list_elem_of_In, list_elem_of_lookup in Hin as (i & Hi).
    apply andb_true_iff in Ht as [H1 H2]. apply negb_true_iff, bool_decide_eq_false in H1.
    exists i, t. split; [|done]. destruct i as [|[|i]]; [| |lia].
    + rewrite (k_main _ _ _ _ HK) in Hi. by injection Hi as <-.
    + rewrite Hm in Hi. injection Hi as <-. lia.
  - intros (i & t & Hk). destruct (k_kids _ _ _ _ HK i t Hk) as (_ & H2 & _). destruct Hk as (_ & Ht & Hal).
    exists t. split; [by eapply list_elem_of_In, list_elem_of_lookup_2|]. rewrite H2, bool_decide_eq_false_2 by done. done.
Qed.
(** A child that is alive can run when it does not run. *)
Lemma kid_runnable l n ls b c i t : K l n ls b -> only_cur l c -> kid l i t -> i <> c -> state t = RUNNABLE.
Proof.
  intros HK Hcur Hk Hi. destruct (k_kids _ _ _ _ HK i t Hk) as (_ & _ & _ & Hw). destruct Hk as (_ & Ht & Hal).
  destruct (state t) eqn:E; try done. by destruct (Hi (Hcur i t Ht E)).
Qed.

Lemma my_waits l n ls my :
  I (mkut l 1 n ls) -> l !! 1%nat = Some my -> pc my = Joining -> kid_alive l -> goes (W l) (go_on (mkut l 1 n ls)).
Proof.
  intros (HK & Hc & Hcur & (t' & Ht' & Hr)) Hm Hp Hkids. cbn in *. rewrite Hm in Ht'. injection Ht' as <-.
  destruct (K_my_at _ _ _ _ _ HK Hm) as ((Hal & H1 & H2 & _) & _).
  set (l1 := alter (set_state WAIT) 1%nat l).
  assert (Hm1 : l1 !! 1%nat = Some (set_state WAIT my)) by (unfold l1; by rewrite list_lookup_alter_eq, Hm).
  assert (HK1 : K l1 n ls (births_of l1)).
  { assert (births_of l1 = births_of l) as -> by (unfold births_of; by rewrite Hm1, Hm).
    eapply K_my; [done|exact Hm|..].
    - split; [done|]. split; [done|]. split; [done|by left].
    - rewrite !left_alive by (cbn; congruence). done.
    - done. }
  destruct Hkids as (i & t & Hk). pose proof Hk as (Hi & Ht & _).
  destruct (sched_ok l1 1 n ls (set_state WAIT my)) as (l' & c' & He & HI & HF); [done| |lia|done| |].
  { apply only_cur_alter. done. }
  { right. exists i, t. split; [lia|]. split; [unfold l1; rewrite list_lookup_alter_ne by lia; done|].
    eapply (kid_runnable l n ls _ 1); [done..|lia]. }
  exists (mkut l' c' n ls). split; [|split; [done|]].
  - unfold go_on. mstep. cbn [all_thread current_thread]. rewrite Hm, Hp. unfold join_turn. mstep.
    assert (has_child (mkut l 1 n ls) = true) as -> by (eapply has_child_spec; [done..|]; by exists i, t).
    change (cur_thread (set_state WAIT) (mkut l 1 n ls)) with (Ret (tt, mkut l1 1 n ls)). cbn iota. by rewrite He.
  - cbn [all_thread]. unfold W. rewrite <-(sum_same weight l1 l' same_weight HF).
    pose proof (sum_alter weight (set_state WAIT) 1%nat my l Hm) as Sw. fold l1 in Sw.
    rewrite (weight_alive my), (weight_alive (set_state _ my)), Hp in Sw by (cbn; congruence).
    cbn [set_state pc state] in Sw. rewrite Hp in Sw. rewrite decide_False, decide_True in Sw by congruence. lia.
Qed.

(** [mythread] is the last to end. *)
Lemma my_ends l n ls my :
  I (mkut l 1 n ls) -> l !! 1%nat = Some my -> pc my = Joining -> ~ kid_alive l -> go_on (mkut l 1 n ls) = Panic no_runnable.
Proof.
  intros (HK & Hc & Hcur & (t' & Ht' & Hr)) Hm Hp Hkids. cbn in *. rewrite Hm in Ht'. injection Ht' as <-.
  unfold go_on. mstep. cbn [all_thread current_thread]. rewrite Hm, Hp. unfold join_turn. mstep.
  assert (has_child (mkut l 1 n ls) = false) as -> by (apply not_true_iff_false; by rewrite has_child_spec).
  set (l1 := alter (set_pc Returning) 1%nat (alter (set_state FREE) 1%nat l)).
  change (match _ with Ret (_, s) => _ | Panic e => _ | NoFuel => _ end) with (thread_schedule (mkut l1 1 (n + -1) ls)).
  assert (Hm1 : l1 !! 1%nat = Some (set_pc Returning (set_state FREE my)))
    by (unfold l1; by rewrite list_lookup_alter_eq, list_lookup_alter_eq, Hm).
  unfold thread_schedule. mstep. pose proof (other_runnable_spec (mkut l1 1 (n + -1) ls)) as Hspec.
  destruct (other_runnable _) as [i|].
  - destruct Hspec as [Hi (t & Ht & Hst)]. cbn [all_thread current_thread] in *. exfalso.
    unfold l1 in Ht. rewrite !list_lookup_alter_ne in Ht by done. destruct i as [|[|i]]; [|done|].
    + rewrite (k_main _ _ _ _ HK) in Ht. by injection Ht as <-.
    + apply Hkids. exists (S (S i)), t. split; [lia|]. split; [done|]. by rewrite Hst.
  - cbn [current_thread]. rewrite !(is_state_at _ 1%nat (set_pc Returning (set_state FREE my))) by exact Hm1. done.
Qed.

(** [wake 1] makes [mythread] ready when it waits, and does nothing else. *)
Lemma waiting_spec l c n ls b my : K l n ls b -> l !! 1%nat = Some my ->
  waiting 1 (mkut l c n ls) = if decide (state my = WAIT) then Some 1%nat else None.
Proof.
  intros HK Hm. destruct (K_my_at _ _ _ _ _ HK Hm) as ((_ & Htid & _) & _). unfold waiting. cbn [all_thread].
  destruct (find_from _ _ _) as [i|] eqn:E.
  - apply find_from_Some in E as (j & t & -> & Hj & Hf). cbn [Nat.add] in *. apply andb_true_iff in Hf as [H1 H2].
    apply bool_decide_eq_true in H2. destruct j as [|[|j]].
    + rewrite (k_main _ _ _ _ HK) in Hj. by injection Hj as <-.
    + rewrite Hm in Hj. injection Hj as <-. by rewrite decide_True.
    + exfalso. destruct (k_kids _ _ _ _ HK (S (S j)) t) as (_ & _ & _ & Hw); [|done].
      split; [lia|]. split; [done|]. by rewrite H2.
  - rewrite decide_False; [done|]. intros Hw. pose proof (find_from_None _ _ _ E 1%nat my Hm) as H. cbn beta in H.
    by rewrite Htid, bool_decide_eq_true_2 in H.
Qed.
Lemma wake_spec l c n ls b my : K l n ls b -> l !! 1%nat = Some my ->
  wake 1 (mkut l c n ls) = Ret (tt, mkut (if decide (state my = WAIT) then alter (set_state RUNNABLE) 1%nat l else l) c n ls).
Proof.
  intros HK Hm. unfold wake. mstep. rewrite (waiting_spec _ _ _ _ _ _ HK Hm). by destruct (decide (state my = WAIT)).
Qed.
(** The table after the wake-up: [mythread] can run. *)
Lemma woken l n ls my c :
  K l n ls (births_of l) -> l !! 1%nat = Some my -> only_cur l c -> (2 <= c)%nat ->
  let l1 := if decide (state my = WAIT) then alter (set_state RUNNABLE) 1%nat l else l in
  K l1 n ls (births_of l1) /\ only_cur l1 c /\ (W l1 <= W l + 1)%nat /\ (forall i, i <> 1%nat -> l1 !! i = l !! i)
  /\ exists my1, l1 !! 1%nat = Some my1 /\ state my1 = RUNNABLE.
Proof.
  intros HK Hm Hcur Hc l1. destruct (K_my_at _ _ _ _ _ HK Hm) as ((Hal & H1 & H2 & H3) & Hw & _). unfold l1. clear l1.
  case_decide as Hwt.
  - assert (Hm1 : alter (set_state RUNNABLE) 1%nat l !! 1%nat = Some (set_state RUNNABLE my)) by (by rewrite list_lookup_alter_eq, Hm).
    split; [|split; [|split; [|split]]].
    + assert (births_of (alter (set_state RUNNABLE) 1%nat l) = births_of l) as -> by (unfold births_of; by rewrite Hm1, Hm).
      eapply K_my; [done|exact Hm|by split|by rewrite !left_alive by (cbn; congruence)|done].
    + intros i t Hi Hr. destruct (decide (i = 1%nat)) as [->|Hne]; [rewrite Hm1 in Hi; by injection Hi as <-|].
      rewrite list_lookup_alter_ne in Hi by done. by apply (Hcur i t).
    + unfold W. pose proof (sum_alter weight (set_state RUNNABLE) 1%nat my l Hm) as Sw. destruct (Hw Hwt) as [Hj _].
      rewrite (weight_alive (set_state _ my)) in Sw by done. cbn [set_state pc state] in Sw. rewrite Hj, decide_False in Sw by done. lia.
    + intros i Hi. by rewrite list_lookup_alter_ne.
    + by eexists.
  - split; [done|]. split; [done|]. split; [lia|]. split; [done|]. exists my. split; [done|].
    destruct (state my) eqn:E; try done. specialize (Hcur 1%nat my Hm E). lia.
Qed.

Lemma free_zero t : state t = FREE -> al t = 0%nat /\ left t = 0%nat /\ weight t = 0%nat.
Proof. intros H. unfold al, left, weight. by rewrite !decide_True. Qed.
(** The table without the child that ends. *)
Lemma K_end l c n ls t :
  K l n ls (births_of l) -> (2 <= c)%nat -> l !! c = Some t -> state t <> FREE -> pc t = Child 0 ->
  (forall my, l !! 1%nat = Some my -> state my <> WAIT) ->
  let l2 := alter (set_state FREE) c l in
  let l3 := alter (set_pc Returning) c l2 in
  K l2 (n + -1) ls (births_of l) /\ K l3 (n + -1) ls (births_of l3) /\ (W l3 + 2 = W l)%nat.
Proof.
  intros HK Hc Ht Hal Hp Hnw l2 l3. destruct (k_my _ _ _ _ HK) as (_ & _ & _ & _ & Hb & _).
  assert (Ht2 : l2 !! c = Some (set_state FREE t)) by (unfold l2; by rewrite list_lookup_alter_eq, Ht).
  destruct (free_zero (set_state FREE t) eq_refl) as (A1 & A2 & A3).
  destruct (free_zero (set_pc Returning (set_state FREE t)) eq_refl) as (B1 & B2 & B3).
  assert (HK2 : K l2 (n + -1) ls (births_of l)).
  { eapply K_kid; [exact HK|done|exact Ht|done|by right| |lia|].
    - rewrite (al_alive t), A1 by done. lia.
    - rewrite (left_alive t), Hp, A2 by done. lia. }
  split; [done|]. split.
  - assert (births_of l3 = births_of l) as -> by (unfold l3, l2; by rewrite !births_alter by lia).
    eapply K_kid; [exact HK2|done|exact Ht2|done| |lia|lia|lia].
    right. intros m Hm'. unfold l2 in Hm'. rewrite list_lookup_alter_ne in Hm' by lia. by apply Hnw.
  - pose proof (sum_alter weight (set_state FREE) c t l Ht) as S2. pose proof (sum_alter weight (set_pc Returning) c _ l2 Ht2) as S3.
    unfold W, l3. fold l2 in S2. rewrite (weight_alive t), Hp in S2 by done. lia.
Qed.

(** A child ends: its parent is ready, and is run or another child is. *)
Lemma child_ends l c n ls t :
  I (mkut l c n ls) -> l !! c = Some t -> pc t = Child 0 -> (2 <= c)%nat -> goes (W l) (go_on (mkut l c n ls)).
Proof.
  intros (HK & Hc & Hcur & (t' & Ht' & Hr)) Ht Hp Hc2. cbn in *. rewrite Ht in Ht'. injection Ht' as <-.
  assert (Hal : state t <> FREE) by congruence.
  destruct (k_kids _ _ _ _ HK c t) as (_ & Hpt & _); [done|]. destruct (k_my _ _ _ _ HK) as (my & Hm & _).
  pose proof (woken l n ls my c HK Hm Hcur Hc2) as Hwk. pose proof (wake_spec l c n ls _ my HK Hm) as Hwake.
  set (l1 := if decide (state my = WAIT) then alter (set_state RUNNABLE) 1%nat l else l) in *. cbv zeta in Hwk.
  destruct Hwk as (HK1 & Hcur1 & HW1 & Hat & (my1 & Hm1 & Hs1)). clearbody l1.
  assert (Ht1 : l1 !! c = Some t) by (rewrite Hat by lia; done).
  assert (Hnw : forall m, l1 !! 1%nat = Some m -> state m <> WAIT) by (intros m Hm'; rewrite Hm1 in Hm'; injection Hm' as <-; by rewrite Hs1).
  pose proof (K_end l1 c n ls t HK1 Hc2 Ht1 Hal Hp Hnw) as HE. cbv zeta in HE.
  set (l2 := alter (set_state FREE) c l1) in *. set (l3 := alter (set_pc Returning) c l2) in *.
  destruct HE as (HK2 & HK3 & HW3).
  assert (Ht2 : l2 !! c = Some (set_state FREE t)) by (unfold l2; by rewrite list_lookup_alter_eq, Ht1).
  assert (Hm2 : l2 !! 1%nat = Some my1) by (unfold l2; by rewrite list_lookup_alter_ne by lia).
  destruct (sched_ok l3 c (n + -1) ls (set_pc Returning (set_state FREE t))) as (l' & c' & He & HI & HF); [done| |lia| | |].
  { by do 2 apply only_cur_alter. }
  { unfold l3. by rewrite list_lookup_alter_eq, Ht2. }
  { right. exists 1%nat, my1. split; [lia|]. split; [|done]. unfold l3. by rewrite list_lookup_alter_ne by lia. }
  exists (mkut l' c' (n + -1) ls). split; [|split; [done|]].
  - unfold go_on. mstep. cbn [all_thread current_thread]. rewrite Ht, Hp, (cur_ptid_at _ _ _ _ _ Ht), Hpt, Hwake.
    change (cur_thread (set_state FREE) (mkut l1 c n ls)) with (Ret (tt, mkut l2 c n ls)). cbn iota.
    change (check_thread (-1) (mkut l2 c n ls)) with (Ret (tt, mkut l2 c (n + -1) ls)). cbn iota.
    assert (wake_pthread (mkut l2 c (n + -1) ls) = Ret (tt, mkut l2 c (n + -1) ls)) as ->.
    { unfold wake_pthread. mstep. rewrite (cur_ptid_at _ _ _ _ _ Ht2). cbn [set_state ptid]. rewrite Hpt.
      destruct (sibling_alive _); [done|]. rewrite (wake_spec _ _ _ _ _ _ HK2 Hm2). by rewrite decide_False by (by rewrite Hs1). }
    exact He.
  - cbn [all_thread]. unfold W in *. rewrite <-(sum_same weight l3 l' same_weight HF). lia.
Qed.

(** Once [main] waits: the process ends only with [mythread], after all its children. *)
Definition finished (s : ut code) : Prop := current_thread s = 1%nat /\ ~ kid_alive (all_thread s) /\ length (lines s) = 500%nat.
Definition turn (x : U1.step) : nat := match x with U1.Go => 1 | U1.Preempt => 0 end.
Lemma kids_dec l : kid_alive l \/ ~ kid_alive l.
Proof.
  destruct (decide (Exists (fun t => state t <> FREE) (drop 2 l))) as [H|H]; [left|right].
  - apply Exists_exists in H as (t & Hin & Ht). apply list_elem_of_lookup in Hin as (i & Hi). rewrite lookup_drop in Hi.
    exists (2 + i)%nat, t. split; [lia|done].
  - intros (i & t & Hi & Ht & Hal). apply H, Exists_exists. exists t. split; [|done].
    apply list_elem_of_lookup. exists (i - 2)%nat. rewrite lookup_drop. by replace (2 + (i - 2))%nat with i by lia.
Qed.
Lemma no_kids_left l : ~ kid_alive l -> l !! 0%nat = Some mainT -> (forall my, l !! 1%nat = Some my -> left my = 0%nat) ->
  sum_list_with left l = 0%nat.
Proof.
  intros Hk H0 H1. assert (H : forall i t, l !! i = Some t -> left t = 0%nat).
  { intros i t Ht. destruct i as [|[|i]]; [rewrite H0 in Ht; by injection Ht as <-|by apply H1|].
    destruct (decide (state t = FREE)) as [Hf|Hf]; [by apply free_zero|]. destruct Hk. exists (S (S i)), t. split; [lia|done]. }
  clear Hk H0 H1. induction l as [|t l IH]; [done|]. cbn. rewrite (H 0%nat t eq_refl), IH; [done|]. intros i x. by apply (H (S i)).
Qed.

Lemma go_ok s : I s ->
  match go_on s with
  | Ret (_, s') => I s' /\ (W (all_thread s') < W (all_thread s))%nat
  | Panic e => e = no_runnable /\ finished s
  | NoFuel => False
  end.
Proof.
  destruct s as [l c n ls]. intros HI. pose proof HI as (HK & Hc & Hcur & (t & Ht & Hr)). cbn [all_thread current_thread nthreads lines] in *.
  assert (Hgo : goes (W l) (go_on (mkut l c n ls)) -> match go_on (mkut l c n ls) with
    | Ret (_, s') => I s' /\ (W (all_thread s') < W l)%nat | Panic e => e = no_runnable /\ finished (mkut l c n ls) | NoFuel => False end).
  { by intros (s' & -> & ? & ?). }
  destruct (decide (c = 1%nat)) as [->|Hc1].
  - destruct (K_my_at _ _ _ _ _ HK Ht) as ((_ & _ & _ & [Hp|[k Hp]]) & _ & Hl).
    + destruct (kids_dec l) as [Hk|Hk]; [by eapply Hgo, my_waits|].
      rewrite (my_ends l n ls t) by done. split; [done|]. split; [done|]. split; [done|]. cbn [lines].
      rewrite (no_kids_left l Hk) in Hl.
      * assert (births_of l = 0%nat) as Hb by (unfold births_of; rewrite Ht; cbn; unfold births; by rewrite Hp). lia.
      * by apply (k_main _ _ _ _ HK).
      * intros my Hm. rewrite Ht in Hm. injection Hm as <-. rewrite left_alive by congruence. by rewrite Hp.
    + destruct k as [|k]; [by eapply Hgo, my_turns|by eapply Hgo, my_creates].
  - destruct (k_kids _ _ _ _ HK c t) as (_ & _ & [k Hp] & _); [split; [lia|]; split; [done|]; by rewrite Hr|].
    apply Hgo. destruct k as [|k]; [eapply child_ends|eapply child_prints]; done || lia.
Qed.
Lemma step_ok x s : I s ->
  match run_step x s with
  | Ret (_, s') => I s' /\ (W (all_thread s') + turn x <= W (all_thread s))%nat
  | Panic e => e = no_runnable /\ finished s
  | NoFuel => False
  end.
Proof.
  intros HI. destruct x; cbn [run_step turn].
  - pose proof (go_ok s HI) as H. destruct (go_on s) as [[[] s']|e|]; [|done..]. destruct H. split; [done|lia].
  - mstep. destruct (nthreads s >=? 2); [|split; [done|lia]]. destruct s as [l c n ls].
    pose proof HI as (HK & Hc & Hcur & (t & Ht & Hr)). cbn [all_thread current_thread nthreads lines] in *.
    destruct (sched_ok l c n ls t HK Hcur Hc Ht) as (l' & c' & -> & HI' & HF); [by left|]. split; [done|]. cbn.
    unfold W. rewrite <-(sum_same weight l l' same_weight HF). lia.
Qed.
Lemma run_ok xs : forall s, I s ->
  match run xs s with
  | Ret (_, s') => I s' /\ (W (all_thread s') + gos xs <= W (all_thread s))%nat
  | Panic e => e = no_runnable
  | NoFuel => False
  end.
Proof.
  induction xs as [|x xs IH]; intros s HI; cbn [run]; [split; [done|cbn; lia]|]. unfold bind.
  pose proof (step_ok x s HI) as H. destruct (run_step x s) as [[[] s1]|e|]; [|by destruct H|done]. destruct H as [HI1 HW1].
  specialize (IH s1 HI1). destruct (run xs s1) as [[[] s2]|e|]; [|done..]. destruct IH as [HI2 HW2]. split; [done|].
  unfold gos in *. rewrite filter_cons. destruct x; case_decide; try done; cbn [turn length] in *; lia.
Qed.

(** [main] before it waits, and the state in which it does. *)
Definition begun : ut code :=
  mkut (mkthread RUNNING 0 0 Main :: mkthread RUNNABLE 1 0 (Mythread CHILDREN) :: replicate 8 blank) 0 1 [].
Definition parted : ut code :=
  mkut (mainT :: mkthread RUNNING 1 0 (Mythread CHILDREN) :: replicate 8 blank) 1 1 [].
Lemma parted_I : I parted.
Proof.
  assert (Hb : forall i t, replicate 8 blank !! i = Some t -> state t = FREE) by (intros i t Ht; by apply lookup_replicate in Ht as [-> _]).
  eapply I_of; [|lia| |done|done].
  - split; [done|done| | |done].
    + eexists. split; [done|]. split; [split; [done|]; split; [done|]; split; [done|]; right; by exists CHILDREN|]. done.
    + intros i t (Hi & Ht & Hal). destruct i as [|[|i]]; [lia..|]. by destruct (Hal (Hb i t Ht)).
  - intros i t Ht Hr. destruct i as [|[|i]]; [by injection Ht as <-|done|]. specialize (Hb i t Ht). congruence.
Qed.
Lemma program_ok xs :
  match program xs with
  | Ret (_, s) => (s = begun /\ gos xs = 0%nat) \/ (I s /\ (gos xs < 1024)%nat)
  | Panic e => e = no_runnable
  | NoFuel => False
  end.
Proof.
  unfold program. assert (main thread_init = Ret (tt, begun)) as Hm by reflexivity. rewrite (bind_step _ _ _ _ _ Hm). clear Hm.
  induction xs as [|x xs IH]; [by left|]. cbn [run]. unfold bind. destruct x.
  - change (run_step U1.Go begun) with (Ret (tt, parted) : outcome (unit * ut code)). cbn iota.
    pose proof (run_ok xs parted parted_I) as H. destruct (run xs parted) as [[[] s]|e|]; [|done..]. destruct H as [HI HW].
    right. split; [done|]. change (W (all_thread parted)) with 1022%nat in HW.
    unfold gos in *. rewrite filter_cons, decide_True by done. cbn. lia.
  - change (run_step U1.Preempt begun) with (Ret (tt, begun) : outcome (unit * ut code)). cbn iota.
    unfold gos. rewrite filter_cons, decide_False by done. exact IH.
Qed.
End Join.
Import Join.

(** however the timer interrupts it, [uthread2] comes to its end, and only when
    [mythread], woken in time, has waited for its five children, which have printed all
    their lines; while it waits, a child is alive that will wake it. *)
Theorem uthread2_completes xs :
  ((1024 <= gos xs)%nat -> U2.program xs = Panic no_runnable)
  /\ (forall s x e, U2.program xs = Ret (tt, s) -> U2.run_step x s = Panic e -> e = no_runnable /\ finished s)
  /\ (forall s my, U2.program xs = Ret (tt, s) -> all_thread s !! 1%nat = Some my -> state my = WAIT -> kid_alive (all_thread s)).
Proof.
  pose proof (program_ok xs) as H. split; [|split].
  - intros Hg. destruct (U2.program xs) as [[[] s]|e|]; [|by rewrite H|done]. destruct H as [[_ H]|[_ H]]; lia.
  - intros s x e Hp He. rewrite Hp in H. destruct H as [[-> _]|[HI _]]; [by destruct x|].
    pose proof (step_ok x s HI) as Hs. by rewrite He in Hs.
  - intros s my Hp Hm Hw. rewrite Hp in H. destruct H as [[-> _]|[(HK & _) _]]; [by injection Hm as <-|].
    destruct (K_my_at _ _ _ _ _ HK Hm) as (_ & H & _). by apply H.
Qed.
Lemma uthread2_completes_witness : U2.program (replicate 1024 U1.Go) = Panic no_runnable.
Proof. apply (uthread2_completes (replicate 1024 U1.Go)). vm_compute. lia. Defined.

(** The wait of [main] for its children never ends: it finds itself. *)
Lemma main_waits_for_itself : U2.has_child U2.thread_init = true.
Proof. reflexivity. Qed.
(** The tenth thread is created behind the end of the table. *)
Lemma thread_create_overruns (f : U2.code) (s : ut U2.code) :
  Forall (fun t => state t <> FREE) (all_thread s) -> U2.thread_create f s = Panic "thread_create: past all_thread".
Proof.
  intros H. unfold U2.thread_create, free_slot. mstep. destruct (find_from _ _ _) as [i|] eqn:E; [|done].
  apply find_from_Some in E as (j & t & _ & Hj & Hf). apply bool_decide_eq_true in Hf.
  rewrite Forall_lookup in H. by destruct (H j t Hj).
Qed.

(** The search for the next thread starts at the first one each time: of three threads
    that are interrupted again and again, the third never runs. *)
Definition three (second : bool) : ut U1.code :=
  let th (runs : bool) := mkthread (if runs then RUNNING else RUNNABLE) 0 0 (U1.Mythread 100) in
  mkut [mkthread RUNNING 0 0 U1.Main; th (negb second); th second; th false] (if second then 2 else 1)%nat 3 [].
Lemma third_thread_starves n second :
  exists second', U1.run (replicate n U1.Preempt) (three second) = Ret (tt, three second').
Proof.
  revert second. induction n as [|n IH]; intros second; [by exists second|]. cbn [replicate U1.run]. unfold bind.
  assert (U1.run_step U1.Preempt (three second) = Ret (tt, three (negb second))) as -> by (by destruct second). apply IH.
Qed.

(** ** [uthread3]: suspended threads *)
Module Suspend.
Import U3.

Fixpoint scheds (n : nat) : M (ut code) unit := match n with O => ret tt | S n => thread_schedule ;;; scheds n end.
(** Thread [i] waits and does not run. *)
Definition rests (i : nat) (s : ut code) : Prop := i <> current_thread s /\ is_state WAIT i s = true.

Lemma is_state_alter st i j g (s : ut code) :
  i <> j -> is_state st i (mkut (alter g j (all_thread s)) (current_thread s) (nthreads s) (lines s)) = is_state st i s.
Proof. intros H. unfold is_state. cbn. by rewrite list_lookup_alter_ne. Qed.
Lemma tids_alter st j (l : list (thread code)) : tid <$> alter (set_state st) j l = tid <$> l.
Proof.
  apply list_eq. intros k. rewrite !list_lookup_fmap. destruct (decide (k = j)) as [->|Hne].
  - rewrite list_lookup_alter_eq. by destruct (l !! j).
  - by rewrite list_lookup_alter_ne.
Qed.
Lemma with_tid_ext id (s s' : ut code) : tid <$> all_thread s = tid <$> all_thread s' -> with_tid id s = with_tid id s'.
Proof.
  unfold with_tid. generalize 0%nat, (all_thread s'). induction (all_thread s) as [|t l IH]; intros n [|t' l'] H; try done.
  cbn in *. injection H as -> H. destruct (tid t' =? id); [done|]. by apply IH.
Qed.

Lemma schedule_rests i s s' :
  rests i s -> thread_schedule s = Ret (tt, s') -> rests i s' /\ tid <$> all_thread s' = tid <$> all_thread s.
Proof.
  intros [Hi Hw] H. unfold thread_schedule in H. revert H. mstep. destruct (other_runnable s) as [n|] eqn:E.
  - unfold other_runnable in E. apply find_from_Some in E as (j & t & Hj & Ht & Hf). cbn [Nat.add] in Hj. subst j.
    apply andb_true_iff in Hf as [H1 _]. apply bool_decide_eq_true in H1.
    assert (Hn : n <> i). { intros ->. unfold is_state in Hw. rewrite Ht in Hw. apply bool_decide_eq_true in Hw. congruence. }
    intros H. injection H as <-. cbn. split; [split; [done|]|by rewrite !tids_alter].
    unfold is_state in *. cbn. by rewrite !list_lookup_alter_ne by done.
  - destruct (is_state RUNNABLE (current_thread s) s); [|done]. by intros [= <-].
Qed.
Lemma scheds_rest n : forall i s s',
  rests i s -> scheds n s = Ret (tt, s') -> rests i s' /\ tid <$> all_thread s' = tid <$> all_thread s.
Proof.
  induction n as [|n IH]; intros i s s' Hr H; cbn [scheds] in H; [by injection H as <-|].
  apply bind_ret_inv in H as ([] & s1 & H1 & H2). destruct (schedule_rests i s s1 Hr H1) as [Hr1 Ht1].
  destruct (IH i s1 s' Hr1 H2) as [Hr2 Ht2]. split; [done|]. by rewrite Ht2.
Qed.
End Suspend.
Import Suspend.

(** a thread that another one suspends is not run however often the threads are
    scheduled, and [thread_resume] makes it ready again. *)
Theorem uthread3_suspend_resume s id i t :
  U3.with_tid id s = Some i -> all_thread s !! i = Some t -> state t <> WAIT -> i <> current_thread s ->
  exists s1, U3.thread_suspend id s = Ret (true, s1) /\
    forall n s2, scheds n s1 = Ret (tt, s2) ->
      current_thread s2 <> i /\ is_state WAIT i s2 = true
      /\ exists s3, U3.thread_resume id s2 = Ret (true, s3) /\ is_state RUNNABLE i s3 = true.
Proof.
  intros Hid Ht Hst Hi. unfold U3.thread_suspend. mstep. rewrite Hid. unfold is_state. rewrite Ht, bool_decide_eq_false_2 by done.
  cbn [on_thread modify]. rewrite bool_decide_eq_false_2 by done. eexists. split; [reflexivity|].
  intros n s2 H. set (s1 := mkut _ _ _ _) in H.
  assert (Hr : rests i s1) by (split; [done|]; unfold is_state, s1; cbn; by rewrite list_lookup_alter_eq, Ht).
  destruct (scheds_rest n i s1 s2 Hr H) as [[Hc Hw] Htid]. split; [done|]. fold (is_state WAIT i s2). split; [done|].
  assert (Hid2 : U3.with_tid id s2 = Some i).
  { rewrite <-Hid. apply with_tid_ext. rewrite Htid. unfold s1. cbn. by rewrite tids_alter. }
  unfold U3.thread_resume. mstep. rewrite Hid2. unfold is_state in Hw.
  destruct (all_thread s2 !! i) as [t2|] eqn:E; [|done]. apply bool_decide_eq_true in Hw.
  unfold is_state. rewrite E, Hw. cbn. eexists. split; [reflexivity|]. cbn. rewrite list_lookup_alter_eq, E. done.
Qed.
Lemma uthread3_suspend_resume_witness :
  exists s s1, U3.thread_suspend 1 s = Ret (true, s1) /\ current_thread s1 <> 1%nat.
Proof.
  exists (mkut [mkthread RUNNING 0 0 (U3.Main []); mkthread RUNNABLE 1 0 (U3.Mythread 1); mkthread RUNNABLE 2 0 (U3.Mythread 1)] 0 2 []).
  edestruct (uthread3_suspend_resume (mkut [mkthread RUNNING 0 0 (U3.Main []); mkthread RUNNABLE 1 0 (U3.Mythread 1);
    mkthread RUNNABLE 2 0 (U3.Mythread 1)] 0 2 []) 1 1) as (s1 & H1 & H2); [reflexivity|reflexivity|done|done|].
  exists s1. split; [exact H1|]. by apply (H2 0%nat s1).
Defined.

(** A thread of [uthread3] that has ended is put back among the ready ones. *)
Lemma ended_thread_revives :
  exists s, U3.thread_schedule (mkut [mkthread RUNNABLE 0 0 (U3.Main []); mkthread FREE 1 0 U3.Returning] 1 1 []) = Ret (tt, s)
    /\ is_state RUNNABLE 1 s = true.
Proof. eexists. split; [reflexivity|]. reflexivity. Qed.
