(* ===== verification/Uswitch.v ===== *)
(** * Switching between user-level threads

    Models [src/xv6/uthread_switch.S] on the registers and the memory of the process,
    and the stack that [thread_create] of [uthread1.c] and [uthread3.c] prepares.  The
    structure of a thread starts at its address [t]; [thread_switch] takes the word
    there for the saved stack pointer.  [CUR] and [NEXT] are the addresses of
    [current_thread] and [next_thread]. *)

From S2P Require Import Prelude Mem.
Local Open Scope Z_scope.

(** The registers [pushal] saves, without [%esp]. *)
Record regs := mkregs { eax : Z; ecx : Z; edx : Z; ebx : Z; ebp : Z; esi : Z; edi : Z }.
Record cpu := mkcpu { gregs : regs; esp : Z; eip : Z; ram : mem }.

Definition push (v : Z) (c : cpu) : cpu :=
  let sp := u32 (esp c - 4) in mkcpu (gregs c) sp (eip c) (st32 (ram c) sp v).
Definition pushal (c : cpu) : cpu :=
  let r := gregs c in
  push (edi r) (push (esi r) (push (ebp r) (push (esp c) (push (ebx r) (push (edx r) (push (ecx r) (push (eax r) c))))))).
Definition popal (c : cpu) : cpu :=
  let w k := ld32 (ram c) (u32 (esp c + k)) in
  mkcpu (mkregs (w 28) (w 24) (w 20) (w 16) (w 8) (w 4) (w 0)) (u32 (esp c + 32)) (eip c) (ram c).
Definition set_eax (v : Z) (c : cpu) : cpu :=
  let r := gregs c in mkcpu (mkregs v (ecx r) (edx r) (ebx r) (ebp r) (esi r) (edi r)) (esp c) (eip c) (ram c).
Definition store (a v : Z) (c : cpu) : cpu := mkcpu (gregs c) (esp c) (eip c) (st32 (ram c) a v).
Definition set_esp (v : Z) (c : cpu) : cpu := mkcpu (gregs c) v (eip c) (ram c).
Definition ret_ (c : cpu) : cpu := mkcpu (gregs c) (u32 (esp c + 4)) (ld32 (ram c) (esp c)) (ram c).

Section Switch.
Context (CUR NEXT : Z).

(** From its first instruction, with the return address on top of the stack. *)
Definition thread_switch (c : cpu) : cpu :=
  let c := pushal c in
  let c := set_eax (ld32 (ram c) CUR) c in
  let c := store (eax (gregs c)) (esp c) c in
  let c := set_eax (ld32 (ram c) NEXT) c in
  let c := set_esp (ld32 (ram c) (eax (gregs c))) c in
  let c := set_eax (ld32 (ram c) NEXT) c in
  let c := store CUR (eax (gregs c)) c in
  let c := popal c in
  let c := store NEXT 0 c in
  ret_ c.
End Switch.

Definition STACK_SIZE : Z := 8192.
(** What [thread_create] writes for the thread at [t]: in [uthread1.c] the stack pointer
    is the first word and the stack follows it. *)
Definition prepare_stack (t func : Z) (m : mem) : mem :=
  let m := st32 m t (u32 (t + 4 + STACK_SIZE)) in
  let m := st32 m t (u32 (ld32 m t - 4)) in
  let m := st32 m (ld32 m t) func in
  st32 m t (u32 (ld32 m t - 32)).
(** In [uthread3.c] the number of the thread comes first, and the stack pointer after it. *)
Definition prepare_stack3 (t id func : Z) (m : mem) : mem :=
  let m := st32 m (t + 4) (u32 (t + 8 + STACK_SIZE)) in
  let m := st32 m (t + 4) (u32 (ld32 m (t + 4) - 4)) in
  let m := st32 m t id in
  let m := st32 m (ld32 m (t + 4)) func in
  st32 m (t + 4) (u32 (ld32 m (t + 4) - 32)).

(** ** Saved threads *)

Definition word_ok (v : Z) : Prop := 0 <= v < 2 ^ 32.
Definition regs_ok (r : regs) : Prop :=
  word_ok (eax r) /\ word_ok (ecx r) /\ word_ok (edx r) /\ word_ok (ebx r) /\ word_ok (ebp r) /\ word_ok (esi r) /\ word_ok (edi r).
(** The thread at [t] can go on at [pc] with the registers [r] and the stack above [sp]. *)
Definition saved (m : mem) (t sp : Z) (r : regs) (pc : Z) : Prop :=
  ld32 m t = sp /\ 0 <= sp /\ sp + 36 < 2 ^ 32
  /\ ld32 m sp = edi r /\ ld32 m (sp + 4) = esi r /\ ld32 m (sp + 8) = ebp r /\ ld32 m (sp + 16) = ebx r
  /\ ld32 m (sp + 20) = edx r /\ ld32 m (sp + 24) = ecx r /\ ld32 m (sp + 28) = eax r /\ ld32 m (sp + 32) = pc.
(** Two stretches of memory have no byte in common. *)
Definition apart (a n b k : Z) : Prop := a + n <= b \/ b + k <= a.

(** A word in memory after stores elsewhere or here. *)
Ltac words :=
  repeat match goal with
  | |- context [ld32 (st32 ?m ?a ?v) ?b] =>
      first [rewrite (ld32_st32_ne m a v b) by (unfold apart in *; lia)
            |replace (ld32 (st32 m a v) b) with (u32 v) by (replace b with a by lia; symmetry; apply ld32_st32_same)]
  end.

Lemma push_eq v r sp pc m : 4 <= sp < 2 ^ 32 -> push v (mkcpu r sp pc m) = mkcpu r (sp - 4) pc (st32 m (sp - 4) v).
Proof. intros H. unfold push. cbn. by rewrite u32_small by lia. Qed.
Lemma pushal_spec c : 32 <= esp c < 2 ^ 32 -> regs_ok (gregs c) ->
  let sp := esp c - 32 in let m := ram (pushal c) in let r := gregs c in
  esp (pushal c) = sp /\ gregs (pushal c) = r
  /\ (ld32 m sp = edi r /\ ld32 m (sp + 4) = esi r /\ ld32 m (sp + 8) = ebp r /\ ld32 m (sp + 16) = ebx r
      /\ ld32 m (sp + 20) = edx r /\ ld32 m (sp + 24) = ecx r /\ ld32 m (sp + 28) = eax r)
  /\ forall x, apart x 4 sp 32 -> ld32 m x = ld32 (ram c) x.
Proof.
  intros Hsp Hr. destruct c as [r sp pc m]. cbn [esp gregs ram] in *. unfold pushal. cbn [esp gregs].
  do 8 (rewrite push_eq by lia). cbn [esp gregs ram].
  split; [lia|]. split; [done|]. split.
  - unfold regs_ok, word_ok in Hr. destruct Hr as (?&?&?&?&?&?&?).
    repeat split; words; apply u32_small; lia.
  - intros x Hx. by words.
Qed.

Section Switched.
Context (CUR NEXT : Z) (c : cpu).
Let A := ld32 (ram c) CUR.
Let B := ld32 (ram c) NEXT.
(** What a switch away from the thread at [A] writes: its stack, its stack pointer, and
    the two variables. *)
Definition untouched (a n : Z) : Prop :=
  apart a n (esp c - 32) 32 /\ apart a n (ld32 (ram c) CUR) 4 /\ apart a n CUR 4 /\ apart a n NEXT 4.
(** These, and the return address, do not overlap. *)
Definition laid_out : Prop :=
  32 <= esp c < 2 ^ 32 - 4 /\ regs_ok (gregs c)
  /\ apart A 4 (esp c - 32) 36 /\ apart CUR 4 (esp c - 32) 36 /\ apart NEXT 4 (esp c - 32) 36
  /\ apart CUR 4 A 4 /\ apart NEXT 4 A 4 /\ apart CUR 4 NEXT 4.

(** Memory after the switch. *)
Definition switched : mem := st32 (st32 (st32 (ram (pushal c)) A (esp c - 32)) CUR B) NEXT 0.

(** The switch in one piece. *)
Lemma thread_switch_eq : laid_out ->
  let m2 := st32 (ram (pushal c)) A (esp c - 32) in
  let spB := ld32 m2 B in
  let m3 := st32 m2 CUR B in
  let w k := ld32 m3 (u32 (spB + k)) in
  thread_switch CUR NEXT c
  = mkcpu (mkregs (w 28) (w 24) (w 20) (w 16) (w 8) (w 4) (w 0)) (u32 (u32 (spB + 32) + 4))
      (ld32 switched (u32 (spB + 32))) switched.
Proof.
  intros (Hsp & Hr & H1 & H2 & H3 & H4 & H5 & H6). unfold thread_switch, switched.
  destruct (pushal_spec c) as (Es & Er & _ & Hx); [lia|done|].
  destruct (pushal c) as [r s p m]. cbn [esp gregs ram] in *. subst r s. set (e := esp c - 32) in *. cbv zeta.
  cbv beta iota zeta delta [set_eax set_esp store popal ret_ gregs ram esp eip eax ecx edx ebx ebp esi edi].
  assert (Ea : ld32 m CUR = A) by (apply Hx; unfold apart in *; lia). rewrite Ea.
  assert (Eb : ld32 (st32 m A e) NEXT = B).
  { rewrite ld32_st32_ne by (unfold apart in *; lia). apply Hx. unfold apart in *; lia. }
  rewrite Eb. reflexivity.
Qed.

Lemma switched_untouched x : laid_out -> untouched x 4 -> ld32 switched x = ld32 (ram c) x.
Proof.
  intros (Hsp & Hr & _) (H1 & H2 & H3 & H4). unfold switched. fold A in H2. words.
  destruct (pushal_spec c) as (_ & _ & _ & Hx); [lia|done|]. by apply Hx.
Qed.
Lemma saved_untouched t sp r pc :
  laid_out -> untouched t 4 -> untouched sp 36 -> saved (ram c) t sp r pc -> saved switched t sp r pc.
Proof.
  intros HL Ht Hs (E0 & H0 & H36 & E1 & E2 & E3 & E4 & E5 & E6 & E7 & E8).
  assert (Hw : forall k, 0 <= k <= 32 -> ld32 switched (sp + k) = ld32 (ram c) (sp + k)).
  { intros k Hk. apply switched_untouched; [done|]. unfold untouched, apart in *. lia. }
  pose proof (Hw 0 ltac:(lia)) as W0. rewrite Z.add_0_r in W0.
  unfold saved. rewrite (switched_untouched t), W0, !Hw by (done || lia). repeat split; done || lia.
Qed.
(** The thread that is left. *)
Lemma saved_left : laid_out -> saved switched A (esp c - 32) (gregs c) (ld32 (ram c) (esp c)).
Proof.
  intros (Hsp & Hr & H1 & H2 & H3 & H4 & H5 & H6).
  destruct (pushal_spec c) as (_ & _ & (E1 & E2 & E3 & E4 & E5 & E6 & E7) & Hx); [lia|done|].
  assert (Hw : forall k, 0 <= k <= 32 -> ld32 switched (esp c - 32 + k) = ld32 (ram (pushal c)) (esp c - 32 + k))
    by (intros k Hk; unfold switched; by words).
  pose proof (Hw 0 ltac:(lia)) as W0. rewrite Z.add_0_r in W0.
  unfold saved. rewrite W0, !Hw by lia. split; [unfold switched; words; apply u32_small; lia|].
  do 9 (split; [done || lia|]). rewrite <-(Hx (esp c)) by (unfold apart; lia). f_equal. lia.
Qed.
Lemma thread_switch_result rB spB pcB :
  laid_out -> saved (ram c) B spB rB pcB -> untouched B 4 -> untouched spB 36 ->
  thread_switch CUR NEXT c = mkcpu rB (spB + 36) pcB switched.
Proof.
  intros HL HS HB HF. rewrite thread_switch_eq by done. cbv zeta.
  pose proof (saved_untouched B spB rB pcB HL HB HF HS) as HS'.
  destruct HS as (E & H0 & H36 & _). pose proof HL as (Hsp & Hr & _).
  assert (Hspb : ld32 (st32 (ram (pushal c)) A (esp c - 32)) B = spB).
  { destruct HB as (B1 & B2 & _). rewrite <-E. rewrite ld32_st32_ne by (unfold apart in *; fold A in B2; lia).
    destruct (pushal_spec c) as (_ & _ & _ & Hx); [lia|done|]. by apply Hx. }
  rewrite Hspb. destruct HS' as (_ & _ & _ & E1 & E2 & E3 & E4 & E5 & E6 & E7 & E8).
  assert (Hm3 : forall k, 0 <= k <= 32 -> ld32 (st32 (st32 (ram (pushal c)) A (esp c - 32)) CUR B) (u32 (spB + k)) = ld32 switched (spB + k)).
  { intros k Hk. rewrite u32_small by lia. destruct HF as (_ & _ & _ & F4). unfold switched. symmetry. apply ld32_st32_ne. unfold apart in *. lia. }
  rewrite (Hm3 28), (Hm3 24), (Hm3 20), (Hm3 16), (Hm3 8), (Hm3 4), (Hm3 0) by lia.
  rewrite Z.add_0_r, E1, E2, E3, E4, E5, E6, E7, (u32_small (spB + 32)), E8 by lia.
  rewrite u32_small by lia. f_equal; [by destruct rB|lia].
Qed.
End Switched.

(** a switch saves the thread that is left, loads the one that is chosen exactly as
    it was saved, makes it the current one, and leaves every other thread as it was. *)
Theorem thread_switch_swaps CUR NEXT c rB spB pcB :
  laid_out CUR NEXT c -> saved (ram c) (ld32 (ram c) NEXT) spB rB pcB ->
  untouched CUR NEXT c (ld32 (ram c) NEXT) 4 -> untouched CUR NEXT c spB 36 ->
  exists m', thread_switch CUR NEXT c = mkcpu rB (spB + 36) pcB m'
    /\ ld32 m' CUR = ld32 (ram c) NEXT /\ ld32 m' NEXT = 0
    /\ saved m' (ld32 (ram c) CUR) (esp c - 32) (gregs c) (ld32 (ram c) (esp c))
    /\ forall t sp r pc, untouched CUR NEXT c t 4 -> untouched CUR NEXT c sp 36 -> saved (ram c) t sp r pc -> saved m' t sp r pc.
Proof.
  intros HL HS HB HF. exists (switched CUR NEXT c). split; [by apply thread_switch_result|].
  pose proof HL as (_ & _ & _ & _ & _ & _ & _ & H6). split; [|split; [|split]].
  - unfold switched. rewrite ld32_st32_ne by (unfold apart in *; lia). rewrite ld32_st32_same. apply u32_small. apply ld32_range.
  - unfold switched. by rewrite ld32_st32_same.
  - by apply saved_left.
  - intros. by apply saved_untouched.
Qed.

Lemma prepare_stack_words t func m : 0 <= t < 2 ^ 31 -> word_ok func ->
  let sp := t + 4 + STACK_SIZE - 36 in
  ld32 (prepare_stack t func m) t = sp /\ ld32 (prepare_stack t func m) (sp + 32) = func.
Proof.
  intros Ht Hf sp. unfold word_ok in Hf. unfold prepare_stack, sp, STACK_SIZE. cbv zeta. clear sp.
  rewrite !(u32_small (t + 4 + 8192)) by lia. rewrite (ld32_st32_same m t), !(u32_small (t + 4 + 8192)) by lia.
  rewrite !(u32_small (t + 4 + 8192 - 4)) by lia.
  set (m1 := st32 (st32 m t _) t _). assert (E1 : ld32 m1 t = t + 4 + 8192 - 4) by (unfold m1; rewrite ld32_st32_same; apply u32_small; lia).
  rewrite E1. set (m2 := st32 m1 _ func). assert (E2 : ld32 m2 t = t + 4 + 8192 - 4) by (unfold m2; by words).
  assert (E3 : ld32 m2 (t + 4 + 8192 - 4) = func) by (unfold m2; rewrite ld32_st32_same; by apply u32_small).
  rewrite E2, ld32_st32_same, !(u32_small (t + 4 + 8192 - 4 - 32)) by lia. split; [lia|].
  rewrite ld32_st32_ne by lia. etrans; [|exact E3]. f_equal. lia.
Qed.

(** A thread that [thread_create] prepared starts, when it is switched to, at its
    function with an empty stack. *)
Theorem new_thread_starts CUR NEXT c func m :
  ram c = prepare_stack (ld32 (ram c) NEXT) func m -> word_ok func ->
  laid_out CUR NEXT c -> 0 <= ld32 (ram c) NEXT < 2 ^ 31 ->
  untouched CUR NEXT c (ld32 (ram c) NEXT) (4 + STACK_SIZE) ->
  eip (thread_switch CUR NEXT c) = func /\ esp (thread_switch CUR NEXT c) = ld32 (ram c) NEXT + 4 + STACK_SIZE.
Proof.
  intros Hm Hf HL Ht HU. remember (ld32 (ram c) NEXT) as t eqn:Et. set (sp := t + 4 + STACK_SIZE - 36).
  destruct (prepare_stack_words t func m Ht Hf) as [E1 E2]. rewrite <-Hm in E1, E2. fold sp in E1, E2.
  rewrite (thread_switch_result CUR NEXT c (mkregs (ld32 (ram c) (sp + 28)) (ld32 (ram c) (sp + 24)) (ld32 (ram c) (sp + 20))
    (ld32 (ram c) (sp + 16)) (ld32 (ram c) (sp + 8)) (ld32 (ram c) (sp + 4)) (ld32 (ram c) sp)) sp func).
  - cbn [eip esp]. split; [done|]. unfold sp. lia.
  - done.
  - rewrite <-Et. unfold saved. cbn [eax ecx edx ebx ebp esi edi]. split; [done|].
    split; [unfold sp, STACK_SIZE; lia|]. split; [unfold sp, STACK_SIZE; lia|]. by do 7 (split; [done|]).
  - rewrite <-Et. unfold untouched, apart, STACK_SIZE in *. lia.
  - unfold untouched, apart, sp, STACK_SIZE in *. lia.
Qed.

(** In [uthread3] the word a switch takes for the stack pointer is the number of the thread. *)
Theorem uthread3_switches_to_its_number CUR NEXT c id func m :
  ram c = prepare_stack3 (ld32 (ram c) NEXT) id func m -> 0 <= id < 10 ->
  laid_out CUR NEXT c -> 0 <= ld32 (ram c) NEXT < 2 ^ 31 -> untouched CUR NEXT c (ld32 (ram c) NEXT) 4 ->
  esp (thread_switch CUR NEXT c) = id + 36.
Proof.
  intros Hm Hid HL Ht HB. rewrite thread_switch_eq by done. cbv zeta. cbn [esp].
  assert (Hb : ld32 (ram c) (ld32 (ram c) NEXT) = id).
  { remember (ld32 (ram c) NEXT) as t. rewrite Hm. unfold prepare_stack3, STACK_SIZE. cbv zeta.
    rewrite !(u32_small (t + 8 + 8192)) by lia. rewrite (ld32_st32_same m (t + 4)), !(u32_small (t + 8 + 8192)) by lia.
    rewrite !(u32_small (t + 8 + 8192 - 4)) by lia. set (m1 := st32 (st32 m _ _) _ _).
    assert (E1 : ld32 (st32 m1 t id) (t + 4) = t + 8 + 8192 - 4)
      by (rewrite ld32_st32_ne by lia; unfold m1; rewrite ld32_st32_same; apply u32_small; lia).
    rewrite E1. rewrite !ld32_st32_ne by lia. rewrite ld32_st32_same. apply u32_small. lia. }
  destruct HB as (B1 & B2 & _). pose proof HL as (Hsp & Hr & _).
  rewrite ld32_st32_ne by (unfold apart in *; lia).
  destruct (pushal_spec c) as (_ & _ & _ & Hx); [lia|done|]. rewrite Hx, Hb by done. rewrite !u32_small; rewrite ?u32_small; lia.
Qed.

(** ** Witnesses *)

(** Thread 0 at 1000 runs on a stack below 500000 and switches to a new thread at 10000. *)
Definition demo : cpu :=
  mkcpu (mkregs 1 2 3 4 5 6 7) 500000 77
    (st32 (prepare_stack 10000 4242 (st32 (st32 ∅ 100 1000) 104 10000)) 500000 55).
Lemma demo_laid_out : laid_out 100 104 demo.
Proof. vm_compute. intuition congruence. Qed.
Lemma thread_switch_swaps_witness :
  exists m', thread_switch 100 104 demo = mkcpu (mkregs 0 0 0 0 0 0 0) 18196 4242 m' /\ ld32 m' 100 = 10000.
Proof.
  edestruct (thread_switch_swaps 100 104 demo (mkregs 0 0 0 0 0 0 0) 18160 4242) as (m' & H1 & H2 & _).
  - exact demo_laid_out.
  - vm_compute. intuition congruence.
  - vm_compute. intuition congruence.
  - vm_compute. intuition congruence.
  - exists m'. split; [exact H1|]. rewrite H2. vm_compute. reflexivity.
Defined.
