(* ===== verification/Io.v ===== *)
(** * Input and output ports

    The machine's devices as the kernel sees them through [inb] and [outb] of
    [src/xv6/x86.h] and through registers in memory: what is read is up to the
    devices, so that it is an input of the model, the answers in the order in which
    they are asked for; what is written, and what is asked, is recorded. *)

From S2P Require Import Prelude.
Local Open Scope Z_scope.

Inductive io := In (port v : Z) | Out (port v : Z).
#[export] Instance io_eq_dec : EqDecision io.
Proof. solve_decision. Defined.
(** The answers still to come, and what happened on the bus. *)
Record bus := mkbus { answers : list Z; traffic : list io }.

(** Runs out of fuel when the machine gives no more answers. *)
Definition input (port : Z) : M bus Z := fun b =>
  match answers b with
  | v :: rest => Ret (v, mkbus rest (traffic b ++ [In port v]))
  | [] => NoFuel
  end.
Definition output (port v : Z) : M bus unit :=
  modify (fun b => mkbus (answers b) (traffic b ++ [Out port v])).
Definition inb (port : Z) : M bus Z := v <- input port ;; ret (u8 v).
Definition outb (port data : Z) : M bus unit := output port (u8 data).
(** 32-bit ports, and registers in memory. *)
Definition in32 (port : Z) : M bus Z := v <- input port ;; ret (u32 v).
Definition out32 (port data : Z) : M bus unit := output port (u32 data).

(** What was written, in order. *)
Definition written (l : list io) : list (Z * Z) := omap (fun x => match x with Out p v => Some (p, v) | In _ _ => None end) l.

Lemma written_app l l' : written (l ++ l') = written l ++ written l'.
Proof. apply omap_app. Qed.
Lemma inb_cons port v rest tr : inb port (mkbus (v :: rest) tr) = Ret (u8 v, mkbus rest (tr ++ [In port v])).
Proof. reflexivity. Qed.
Lemma outb_eq port v b : outb port v b = Ret (tt, mkbus (answers b) (traffic b ++ [Out port (u8 v)])).
Proof. reflexivity. Qed.
