(* ===== verification/Kbd.v ===== *)
(** * The keyboard

    Models [src/xv6/kbd.c] and [src/xv6/kbd.h]: the translation of scan codes, with the
    state of the modifier keys between calls, and the interrupt handler that feeds the
    console.  Typing a text, key by key, puts exactly that text into the console. *)

From S2P Require Import Prelude Io Console.
Local Open Scope Z_scope.

Definition KBSTATP : Z := 0x64.
Definition KBS_DIB : Z := 0x01.
Definition KBDATAP : Z := 0x60.
Definition NO : Z := 0.
Definition SHIFT : Z := 1.
Definition CTL : Z := 2.
Definition ALT : Z := 4.
Definition CAPSLOCK : Z := 8.
Definition NUMLOCK : Z := 16.
Definition SCROLLLOCK : Z := 32.
Definition E0ESC : Z := 64.

(** A table of 256 bytes: the first entries in order, and entries by number. *)
Definition table (l : list Z) (more : list (Z * Z)) : list Z :=
  foldl (fun t '(i, v) => <[Z.to_nat i := v]> t) (l ++ replicate (256 - length l) NO) more.
Definition shiftcode : list Z :=
  table [] [(0x1D, CTL); (0x2A, SHIFT); (0x36, SHIFT); (0x38, ALT); (0x9D, CTL); (0xB8, ALT)].
Definition togglecode : list Z := table [] [(0x3A, CAPSLOCK); (0x45, NUMLOCK); (0x46, SCROLLLOCK)].

(** The keys with names: [KEY_HOME] to [KEY_DEL]. *)
Definition named_keys : list (Z * Z) :=
  [(0xC8, 0xE2); (0xD0, 0xE3); (0xC9, 0xE6); (0xD1, 0xE7); (0xCB, 0xE4); (0xCD, 0xE5); (0x97, 0xE0); (0xCF, 0xE1); (0xD2, 0xE8); (0xD3, 0xE9)].
Definition normalmap : list Z := table
  [NO; 0x1B; 49; 50; 51; 52; 53; 54;
   55; 56; 57; 48; 45; 61; 8; 9;
   113; 119; 101; 114; 116; 121; 117; 105;
   111; 112; 91; 93; 10; NO; 97; 115;
   100; 102; 103; 104; 106; 107; 108; 59;
   39; 96; NO; 92; 122; 120; 99; 118;
   98; 110; 109; 44; 46; 47; NO; 42;
   NO; 32; NO; NO; NO; NO; NO; NO;
   NO; NO; NO; NO; NO; NO; NO; 55;
   56; 57; 45; 52; 53; 54; 43; 49;
   50; 51; 48; 46; NO; NO; NO; NO]
  ([(0x9C, 10); (0xB5, 47)] ++ named_keys).
Definition shiftmap : list Z := table
  [NO; 27; 33; 64; 35; 36; 37; 94;
   38; 42; 40; 41; 95; 43; 8; 9;
   81; 87; 69; 82; 84; 89; 85; 73;
   79; 80; 123; 125; 10; NO; 65; 83;
   68; 70; 71; 72; 74; 75; 76; 58;
   34; 126; NO; 124; 90; 88; 67; 86;
   66; 78; 77; 60; 62; 63; NO; 42;
   NO; 32; NO; NO; NO; NO; NO; NO;
   NO; NO; NO; NO; NO; NO; NO; 55;
   56; 57; 45; 52; 53; 54; 43; 49;
   50; 51; 48; 46; NO; NO; NO; NO]
  ([(0x9C, 10); (0xB5, 47)] ++ named_keys).
(** [C(x)], as a byte. *)
Definition ctl (x : Z) : Z := u8 (x - 64).
Definition ctlmap : list Z := table
  [NO; NO; NO; NO; NO; NO; NO; NO;
   NO; NO; NO; NO; NO; NO; NO; NO;
   ctl 81; ctl 87; ctl 69; ctl 82; ctl 84; ctl 89; ctl 85; ctl 73;
   ctl 79; ctl 80; NO; NO; 13; NO; ctl 65; ctl 83;
   ctl 68; ctl 70; ctl 71; ctl 72; ctl 74; ctl 75; ctl 76; NO;
   NO; NO; NO; ctl 92; ctl 90; ctl 88; ctl 67; ctl 86;
   ctl 66; ctl 78; ctl 77; NO; NO; ctl 47; NO; NO]
  ([(0x9C, 13); (0xB5, ctl 47)] ++ named_keys).
Definition charcode (k : Z) : list Z := if k =? 0 then normalmap else if k =? SHIFT then shiftmap else ctlmap.
Definition at_ (t : list Z) (i : Z) : Z := default 0 (t !! Z.to_nat i).

(** A byte from the keyboard, with [shift]: the new [shift], and the result. *)
Definition kbd_data (shift data : Z) : Z * Z :=
  if data =? 0xE0 then (Z.lor shift E0ESC, 0)
  else if negb (Z.land data 0x80 =? 0) then
    let data := if negb (Z.land shift E0ESC =? 0) then data else Z.land data 0x7F in
    (Z.land shift (Z.lnot (Z.lor (at_ shiftcode data) E0ESC)), 0)
  else
    let '(shift, data) :=
      if negb (Z.land shift E0ESC =? 0) then (Z.land shift (Z.lnot E0ESC), Z.lor data 0x80) else (shift, data) in
    let shift := Z.lxor (Z.lor shift (at_ shiftcode data)) (at_ togglecode data) in
    let c := at_ (charcode (Z.land shift (Z.lor CTL SHIFT))) data in
    let c :=
      if negb (Z.land shift CAPSLOCK =? 0) then
        if (97 <=? c) && (c <=? 122) then c - 32 else if (65 <=? c) && (c <=? 90) then c + 32 else c
      else c in
    (shift, c).

Record kbd := mkkbd { kbus : bus; kshift : Z }.
Definition on_kbus {A} (m : M bus A) : M kbd A := lift kbus (fun b k => mkkbd b (kshift k)) m.
Definition kbdgetc : M kbd Z :=
  st <- on_kbus (inb KBSTATP) ;;
  if Z.land st KBS_DIB =? 0 then ret (-1)
  else
    data <- on_kbus (inb KBDATAP) ;;
    shift <- gets kshift ;;
    let r := kbd_data shift data in
    modify (fun k => mkkbd (kbus k) (fst r)) ;;;
    ret (snd r).

(** [while((c = getc()) >= 0)]: what [consoleintr] gets. *)
Fixpoint kbd_chars (fuel : nat) : M kbd (list Z) :=
  match fuel with
  | O => nofuel
  | S f => c <- kbdgetc ;; if c <? 0 then ret [] else cs <- kbd_chars f ;; ret (c :: cs)
  end.
Definition kbdintr (fuel : nat) : M (kbd * cons) bool :=
  cs <- lift fst (fun k s => (k, snd s)) (kbd_chars fuel) ;;
  lift snd (fun c s => (fst s, c)) (consoleintr cs).

(** ** Typing *)

(** The key whose entry is [c]. *)
Definition key_in (t : list Z) (c : Z) : option Z := (fun x => Z.of_nat (fst x)) <$> list_find (fun v => v = c) (take 0x80 t).
Definition release (k : Z) : Z := Z.lor k 0x80.
(** The scan codes of typing [c]: the key pressed and released, with the left shift key
    held down if need be. *)
Definition strokes (c : Z) : list Z :=
  match key_in normalmap c with
  | Some k => [k; release k]
  | None => match key_in shiftmap c with Some k => [0x2A; k; release k; release 0x2A] | None => [] end
  end.
(** What can be typed so: the printable characters, tab and newline. *)
Definition typable : list Z := [9; 10] ++ seqZ 32 95.

(** The results of [kbdgetc] for the bytes, and the state of the modifier keys after them. *)
Fixpoint kbd_run (shift : Z) (l : list Z) : list Z * Z :=
  match l with
  | [] => ([], shift)
  | d :: l => let (s, c) := kbd_data shift d in let (cs, s') := kbd_run s l in (c :: cs, s')
  end.
Definition nonzero (l : list Z) : list Z := filter (fun c => c <> 0) l.

Lemma kbd_run_app l l' : forall shift,
  kbd_run shift (l ++ l') = (fst (kbd_run shift l) ++ fst (kbd_run (snd (kbd_run shift l)) l'), snd (kbd_run (snd (kbd_run shift l)) l')).
Proof.
  induction l as [|d l IH]; intros shift; cbn [app kbd_run]; [cbn; by destruct (kbd_run shift l')|].
  destruct (kbd_data shift d) as [s c]. rewrite IH. destruct (kbd_run s l) as [cs s']. cbn [fst snd]. by destruct (kbd_run s' l').
Qed.
(** One character: typed with no key held down, it is what comes out. *)
Definition types (c : Z) : bool :=
  let (cs, s) := kbd_run 0 (strokes c) in
  bool_decide (nonzero cs = [c]) && (s =? 0) && forallb (fun d => (0 <=? d) && (d <? 256)) (strokes c) && forallb (fun x => (0 <=? x) && (x <? 256)) cs.
Lemma typable_types : forallb types typable = true.
Proof. vm_compute. reflexivity. Qed.

Lemma nonzero_app l l' : nonzero (l ++ l') = nonzero l ++ nonzero l'.
Proof. apply filter_app. Qed.
Lemma kbd_run_string s : Forall (fun c => c ∈ typable) s ->
  let r := kbd_run 0 (concat (strokes <$> s)) in
  nonzero (fst r) = s /\ snd r = 0 /\ Forall (fun d => 0 <= d < 256) (concat (strokes <$> s)) /\ Forall (fun c => 0 <= c < 256) (fst r).
Proof.
  induction 1 as [|c s Hc Hs IH]; [done|]. cbn [fmap list_fmap concat]. rewrite kbd_run_app.
  pose proof typable_types as Ht. rewrite forallb_forall in Ht. specialize (Ht c). rewrite <-list_elem_of_In in Ht. specialize (Ht Hc).
  unfold types in Ht. destruct (kbd_run 0 (strokes c)) as [cs sh]. cbn [fst snd].
  rewrite !andb_true_iff, !forallb_forall, bool_decide_eq_true, Z.eqb_eq in Ht. destruct Ht as (((Hn & ->) & Hd) & Hx).
  destruct IH as (I1 & I2 & I3 & I4). cbn [fst snd]. rewrite nonzero_app, Hn, I1. split; [done|]. split; [done|].
  split; apply Forall_app; (split; [|done]); apply Forall_forall; intros x Hin; rewrite list_elem_of_In in Hin.
  - specialize (Hd x Hin). rewrite andb_true_iff, Z.leb_le, Z.ltb_lt in Hd. lia.
  - specialize (Hx x Hin). rewrite andb_true_iff, Z.leb_le, Z.ltb_lt in Hx. lia.
Qed.

(** The controller has a byte, and then it has none. *)
Definition controller (l : list Z) : list Z := concat ((fun d => [KBS_DIB; d]) <$> l) ++ [0].
Lemma kbd_chars_run l : forall fuel rest tr shift,
  Forall (fun d => 0 <= d < 256) l -> Forall (fun c => 0 <= c) (fst (kbd_run shift l)) -> (length l < fuel)%nat ->
  exists tr', kbd_chars fuel (mkkbd (mkbus (controller l ++ rest) tr) shift)
    = Ret (fst (kbd_run shift l), mkkbd (mkbus rest tr') (snd (kbd_run shift l))).
Proof.
  induction l as [|d l IH]; intros fuel rest tr shift Hl Hc Hf; (destruct fuel as [|fuel]; [cbn in Hf; lia|]).
  - eexists. cbn. reflexivity.
  - apply Forall_cons in Hl as [Hd Hl]. cbn [kbd_run] in *. destruct (kbd_data shift d) as [s c] eqn:E.
    destruct (kbd_run s l) as [cs s'] eqn:Er. cbn [fst snd] in *. apply Forall_cons in Hc as [Hc Hcs].
    destruct (IH fuel rest ((tr ++ [In KBSTATP KBS_DIB]) ++ [In KBDATAP d]) s Hl) as (tr' & He); [by rewrite Er|cbn in Hf; lia|].
    rewrite Er in He. cbn [fst snd] in He. exists tr'. cbn [kbd_chars].
    assert (Hg : kbdgetc (mkkbd (mkbus (controller (d :: l) ++ rest) tr) shift)
      = Ret (c, mkkbd (mkbus (controller l ++ rest) ((tr ++ [In KBSTATP KBS_DIB]) ++ [In KBDATAP d])) s)).
    { unfold controller. cbn [fmap list_fmap concat app]. unfold kbdgetc, on_kbus, lift.
      erewrite bind_step by reflexivity. change (Z.land (u8 KBS_DIB) KBS_DIB =? 0) with false. cbn iota.
      erewrite bind_step by reflexivity. erewrite bind_step by reflexivity. cbn [kshift]. rewrite u8_small, E by lia. reflexivity. }
    rewrite (bind_step _ _ _ _ _ Hg). destruct (Z.ltb_spec c 0); [lia|]. by rewrite (bind_step _ _ _ _ _ He).
Qed.

(** Zeros are nothing to the console. *)
Lemma consoleintr_nonzero cs s : consoleintr (nonzero cs) s = consoleintr cs s.
Proof.
  revert s. induction cs as [|c cs IH]; intros s; [done|]. unfold nonzero. rewrite filter_cons. fold (nonzero cs).
  destruct (decide (c <> 0)) as [Hc|Hc].
  - cbn [consoleintr]. unfold bind. destruct (console_char c s) as [[d s']| |]; [|done..]. by rewrite IH.
  - apply dec_stable in Hc. subst c. rewrite IH. cbn [consoleintr]. unfold bind.
    change (console_char 0 s) with (Ret (false, s) : outcome (bool * cons)). cbn iota.
    destruct (consoleintr cs s) as [[d s']| |]; done.
Qed.

(** typing a text on the keyboard, each character with the keys it needs, gives the
    console exactly that text, and leaves no modifier key held down. *)
Theorem typing_reaches_console text rest tr c :
  Forall (fun x => x ∈ typable) text ->
  exists tr', kbdintr (S (4 * length text)) (mkkbd (mkbus (controller (concat (strokes <$> text)) ++ rest) tr) 0, c)
    = match consoleintr text c with
      | Ret (d, c') => Ret (d, (mkkbd (mkbus rest tr') 0, c'))
      | Panic e => Panic e
      | NoFuel => NoFuel
      end.
Proof.
  intros Ht. destruct (kbd_run_string text Ht) as (H1 & H2 & H3 & H4).
  destruct (kbd_chars_run (concat (strokes <$> text)) (S (4 * length text)) rest tr 0) as (tr' & He); [done| | |].
  { eapply Forall_impl; [exact H4|]. cbn. lia. }
  { clear. induction text as [|x l IH]; [cbn; lia|]. cbn [fmap list_fmap concat length]. rewrite length_app.
    assert ((length (strokes x) <= 4)%nat) by (unfold strokes; destruct (key_in normalmap x), (key_in shiftmap x); cbn; lia). lia. }
  exists tr'. unfold kbdintr. erewrite bind_step by (unfold lift; cbn [fst]; rewrite He; reflexivity).
  unfold lift. cbn [fst snd]. rewrite H2, <-consoleintr_nonzero, H1. done.
Qed.
Lemma typing_reaches_console_witness :
  exists tr' d c', kbdintr 9 (mkkbd (mkbus (controller (concat (strokes <$> [72; 105]))) []) 0, mkcons (replicate 128 0) 0 0 0 1060 false [] 0)
    = Ret (d, (mkkbd (mkbus [] tr') 0, c')).
Proof.
  destruct (typing_reaches_console [72; 105] [] [] (mkcons (replicate 128 0) 0 0 0 1060 false [] 0)) as (tr' & H).
  - repeat constructor; vm_compute; tauto.
  - rewrite app_nil_r in H. change (S (4 * length [72; 105])) with 9%nat in H. rewrite H. eexists tr', _, _. vm_compute. reflexivity.
Defined.

(** The Home key sends E0 47, which stands for entry C7; [KEY_HOME] is entry 97. *)
Lemma home_key_ignored : kbd_run 0 [0xE0; 0x47] = ([0; 0], 0) /\ at_ normalmap 0x97 = 0xE0.
Proof. split; reflexivity. Qed.
