(* ===== verification/Apic.v ===== *)
(** * Interrupt controllers and the clock

    Models [src/xv6/ioapic.c], [src/xv6/lapic.c], [src/xv6/picirq.c]: what is written to
    the registers of the I/O APIC and the local APIC, the start of another processor,
    and reading the clock.  Registers in memory are ports with their addresses; the
    local APIC's are numbered from [lapic].  The messages of [ioapicinit] are left out. *)

From S2P Require Import Prelude Mem Io.
Local Open Scope Z_scope.

Definition T_IRQ0 : Z := 32.
Definition IRQ_TIMER : Z := 0.
Definition IRQ_ERROR : Z := 19.
Definition IRQ_SPURIOUS : Z := 31.

(** ** [ioapic.c] *)

Definition IOAPIC : Z := 0xFEC00000.
Definition REG_ID : Z := 0.
Definition REG_VER : Z := 1.
Definition REG_TABLE : Z := 0x10.
Definition INT_DISABLED : Z := 0x00010000.
(** [ioapic->reg], [ioapic->data]. *)
Definition IOREG : Z := IOAPIC.
Definition IODATA : Z := IOAPIC + 16.

Definition ioapicread (reg : Z) : M bus Z := out32 IOREG reg ;;; in32 IODATA.
Definition ioapicwrite (reg data : Z) : M bus unit := out32 IOREG reg ;;; out32 IODATA data.
(** [for(i = 0; i <= maxintr; i++)], from [i], [n] times. *)
Fixpoint ioapic_mask (n : nat) (i : Z) : M bus unit :=
  match n with
  | O => ret tt
  | S n =>
      ioapicwrite (REG_TABLE + 2 * i) (Z.lor INT_DISABLED (T_IRQ0 + i)) ;;;
      ioapicwrite (REG_TABLE + 2 * i + 1) 0 ;;;
      ioapic_mask n (i + 1)
  end.
Definition ioapicinit : M bus unit :=
  ver <- ioapicread REG_VER ;;
  let maxintr := Z.land (Z.shiftr ver 16) 0xFF in
  ioapicread REG_ID ;;;
  ioapic_mask (S (Z.to_nat maxintr)) 0.
Definition ioapicenable (irq cpunum : Z) : M bus unit :=
  ioapicwrite (REG_TABLE + 2 * irq) (T_IRQ0 + irq) ;;;
  ioapicwrite (REG_TABLE + 2 * irq + 1) (Z.shiftl cpunum 24).

(** ** [picirq.c] *)

Definition IO_PIC1 : Z := 0x20.
Definition IO_PIC2 : Z := 0xA0.
Definition picinit : M bus unit := outb (IO_PIC1 + 1) 0xFF ;;; outb (IO_PIC2 + 1) 0xFF.

(** ** [lapic.c] *)

Definition ID : Z := 0x20 / 4.
Definition VER : Z := 0x30 / 4.
Definition TPR : Z := 0x80 / 4.
Definition EOI : Z := 0xB0 / 4.
Definition SVR : Z := 0xF0 / 4.
Definition ENABLE : Z := 0x100.
Definition ESR : Z := 0x280 / 4.
Definition ICRLO : Z := 0x300 / 4.
Definition INIT : Z := 0x500.
Definition STARTUP : Z := 0x600.
Definition DELIVS : Z := 0x1000.
Definition ASSERT : Z := 0x4000.
Definition LEVEL : Z := 0x8000.
Definition BCAST : Z := 0x80000.
Definition ICRHI : Z := 0x310 / 4.
Definition TIMER : Z := 0x320 / 4.
Definition X1 : Z := 0xB.
Definition PERIODIC : Z := 0x20000.
Definition PCINT : Z := 0x340 / 4.
Definition LINT0 : Z := 0x350 / 4.
Definition LINT1 : Z := 0x360 / 4.
Definition ERROR : Z := 0x370 / 4.
Definition MASKED : Z := 0x10000.
Definition TICR : Z := 0x380 / 4.
Definition TDCR : Z := 0x3E0 / 4.

Section Lapic.
(** The address [lapic], zero when there is none. *)
Context (lapic : Z).
Definition reg (index : Z) : Z := lapic + 4 * index.
Definition lapicw (index value : Z) : M bus unit := out32 (reg index) value ;;; in32 (reg ID) ;;; ret tt.

(** [while(lapic[ICRLO] & DELIVS)] *)
Fixpoint wait_delivered (fuel : nat) : M bus unit :=
  match fuel with
  | O => nofuel
  | S f => v <- in32 (reg ICRLO) ;; if Z.land v DELIVS =? 0 then ret tt else wait_delivered f
  end.
Definition lapicinit (fuel : nat) : M bus unit :=
  if lapic =? 0 then ret tt
  else
    lapicw SVR (Z.lor ENABLE (T_IRQ0 + IRQ_SPURIOUS)) ;;;
    lapicw TDCR X1 ;;;
    lapicw TIMER (Z.lor PERIODIC (T_IRQ0 + IRQ_TIMER)) ;;;
    lapicw TICR 10000000 ;;;
    lapicw LINT0 MASKED ;;;
    lapicw LINT1 MASKED ;;;
    ver <- in32 (reg VER) ;;
    (if Z.land (Z.shiftr ver 16) 0xFF >=? 4 then lapicw PCINT MASKED else ret tt) ;;;
    lapicw ERROR (T_IRQ0 + IRQ_ERROR) ;;;
    lapicw ESR 0 ;;;
    lapicw ESR 0 ;;;
    lapicw EOI 0 ;;;
    lapicw ICRHI 0 ;;;
    lapicw ICRLO (Z.lor (Z.lor BCAST INIT) LEVEL) ;;;
    wait_delivered fuel ;;;
    lapicw TPR 0.
Definition lapicid : M bus Z :=
  if lapic =? 0 then ret 0 else v <- in32 (reg ID) ;; ret (Z.shiftr v 24).
Definition lapiceoi : M bus unit := if lapic =? 0 then ret tt else lapicw EOI 0.

Definition CMOS_PORT : Z := 0x70.
Definition CMOS_RETURN : Z := 0x71.
(** [P2V((0x40<<4 | 0x67))], the warm reset vector. *)
Definition WRV : Z := Z.lor (Z.shiftl 0x40 4) 0x67 + 0x80000000.
(** The vector is in memory, the second of the two states. *)
Definition st16 (m : mem) (a v : Z) : mem := stb (stb m a (u8 v)) (a + 1) (u8 (Z.shiftr v 8)).
Definition on_bus {A} (m : M bus A) : M (bus * mem) A := lift fst (fun b s => (b, snd s)) m.
Definition startup (apicid addr : Z) : M bus unit :=
  lapicw ICRHI (Z.shiftl apicid 24) ;;; lapicw ICRLO (Z.lor STARTUP (Z.shiftr addr 12)).
Definition lapicstartap (apicid addr : Z) : M (bus * mem) unit :=
  on_bus (outb CMOS_PORT 0xF ;;; outb (CMOS_PORT + 1) 0x0A) ;;;
  modify (fun s => (fst s, st16 (st16 (snd s) WRV 0) (WRV + 2) (Z.shiftr addr 4))) ;;;
  on_bus (
    lapicw ICRHI (Z.shiftl apicid 24) ;;;
    lapicw ICRLO (Z.lor (Z.lor INIT LEVEL) ASSERT) ;;;
    lapicw ICRLO (Z.lor INIT LEVEL) ;;;
    startup apicid addr ;;;
    startup apicid addr).
End Lapic.

(** ** The clock *)

Definition CMOS_STATA : Z := 0x0a.
Definition CMOS_STATB : Z := 0x0b.
Definition CMOS_UIP : Z := 0x80.
Record rtcdate := mkdate { second : Z; minute : Z; hour : Z; day : Z; month : Z; year : Z }.
#[export] Instance rtcdate_eq_dec : EqDecision rtcdate.
Proof. solve_decision. Defined.

Definition cmos_read (r : Z) : M bus Z := outb CMOS_PORT r ;;; inb CMOS_RETURN.
Definition fill_rtcdate : M bus rtcdate :=
  s <- cmos_read 0 ;; mi <- cmos_read 2 ;; h <- cmos_read 4 ;; d <- cmos_read 7 ;; mo <- cmos_read 8 ;; y <- cmos_read 9 ;;
  ret (mkdate s mi h d mo y).
(** The loop: two readings that agree, the update flag clear between them. *)
Fixpoint read_steady (fuel : nat) : M bus rtcdate :=
  match fuel with
  | O => nofuel
  | S f =>
      t1 <- fill_rtcdate ;;
      a <- cmos_read CMOS_STATA ;;
      if negb (Z.land a CMOS_UIP =? 0) then read_steady f
      else
        t2 <- fill_rtcdate ;;
        if bool_decide (t1 = t2) then ret t1 else read_steady f
  end.
(** [CONV] *)
Definition conv (x : Z) : Z := Z.shiftr x 4 * 10 + Z.land x 0xf.
Definition cmostime (fuel : nat) : M bus rtcdate :=
  sb <- cmos_read CMOS_STATB ;;
  let bcd := Z.land sb 4 =? 0 in
  t <- read_steady fuel ;;
  let t := if bcd then mkdate (conv (second t)) (conv (minute t)) (conv (hour t)) (conv (day t)) (conv (month t)) (conv (year t)) else t in
  ret (mkdate (second t) (minute t) (hour t) (day t) (month t) (year t + 2000)).
