(* ===== verification/ApicProps.v ===== *)
(** * Properties of the interrupt controllers and the clock

    Interrupts that were enabled reach their processor and all others are masked; the
    clock is read without tearing and decoded; another processor is started where it
    should start. *)

From S2P Require Import Prelude Mem Io Apic.
Local Open Scope Z_scope.

(** ** The I/O APIC *)

(** The device: a register selects an entry, which the next write to the other fills. *)
Definition ioapic_dev (s : Z * (Z -> Z)) (w : Z * Z) : Z * (Z -> Z) :=
  let '(port, v) := w in
  if port =? IOREG then (v, snd s)
  else if port =? IODATA then (fst s, fun r => if r =? fst s then v else snd s r)
  else s.
Definition ioapic_after (l : list io) (t : Z -> Z) : Z -> Z := snd (foldl ioapic_dev (0, t) (written l)).

(** What a run of [m] writes. *)
Definition writes {A} (m : M bus A) (ws : list (Z * Z)) : Prop := forall b,
  exists a b', m b = Ret (a, b') /\ answers b' = answers b /\ written (traffic b') = written (traffic b) ++ ws.

Lemma writes_bind {A B} (m : M bus A) (k : A -> M bus B) ws ws' :
  writes m ws -> (forall a, writes (k a) ws') -> writes (bind m k) (ws ++ ws').
Proof.
  intros Hm Hk b. destruct (Hm b) as (a & b1 & H1 & A1 & W1). destruct (Hk a b1) as (a' & b2 & H2 & A2 & W2).
  exists a', b2. rewrite (bind_step _ _ _ _ _ H1), W2, W1, <-app_assoc. split; [done|]. split; [congruence|done].
Qed.
Lemma writes_ret {A} (a : A) : writes (ret a) [].
Proof. intros b. exists a, b. by rewrite app_nil_r. Qed.
Lemma writes_out p v : writes (out32 p v) [(p, u32 v)].
Proof. intros b. eexists _, _. split; [reflexivity|]. split; [done|]. cbn. by rewrite written_app. Qed.
Lemma writes_iow r v : writes (ioapicwrite r v) [(IOREG, u32 r); (IODATA, u32 v)].
Proof. apply (writes_bind _ _ [_] [_]); [apply writes_out|intros _; apply writes_out]. Qed.

Definition mask_words (n : nat) (i : Z) : list (Z * Z) :=
  concat ((fun k => let i := i + Z.of_nat k in
    [(IOREG, u32 (REG_TABLE + 2 * i)); (IODATA, u32 (Z.lor INT_DISABLED (T_IRQ0 + i))); (IOREG, u32 (REG_TABLE + 2 * i + 1)); (IODATA, 0)]) <$> seq 0 n).
Lemma mask_words_S n i :
  mask_words (S n) i = [(IOREG, u32 (REG_TABLE + 2 * i)); (IODATA, u32 (Z.lor INT_DISABLED (T_IRQ0 + i)))]
    ++ [(IOREG, u32 (REG_TABLE + 2 * i + 1)); (IODATA, 0)] ++ mask_words n (i + 1).
Proof.
  unfold mask_words. cbn [seq fmap list_fmap concat]. rewrite Z.add_0_r. cbn [app]. do 4 f_equal.
  rewrite <-fmap_S_seq, <-list_fmap_compose. f_equal. apply list_fmap_ext. intros k x _. cbn.
  replace (i + Z.of_nat (S x)) with (i + 1 + Z.of_nat x) by lia. done.
Qed.
Lemma writes_mask n : forall i, writes (ioapic_mask n i) (mask_words n i).
Proof.
  induction n as [|n IH]; intros i; cbn [ioapic_mask]; [apply writes_ret|]. rewrite mask_words_S.
  apply writes_bind; [apply writes_iow|]. intros _. apply writes_bind; [apply writes_iow|]. intros _. apply IH.
Qed.

(** Two writes fill one entry. *)
Lemma ioapic_dev_entry sel t r v l :
  foldl ioapic_dev (sel, t) ((IOREG, r) :: (IODATA, v) :: l) = foldl ioapic_dev (r, fun x => if x =? r then v else t x) l.
Proof. reflexivity. Qed.
(** The masked entries. *)
Definition disabled (i : Z) : Z := u32 (Z.lor INT_DISABLED (T_IRQ0 + i)).
Lemma mask_table n : forall i sel t x,
  0 <= i -> i + Z.of_nat n <= 256 ->
  snd (foldl ioapic_dev (sel, t) (mask_words n i)) x
  = if (REG_TABLE + 2 * i <=? x) && (x <? REG_TABLE + 2 * (i + Z.of_nat n))
    then (if Z.even x then disabled ((x - REG_TABLE) / 2) else 0) else t x.
Proof.
  unfold REG_TABLE. induction n as [|n IH]; intros i sel t x Hi Hn; [cbn; case_if; [lia|done]|].
  rewrite mask_words_S. unfold REG_TABLE. cbn [app]. rewrite !ioapic_dev_entry, IH by lia.
  rewrite !u32_small by lia. fold (disabled i).
  destruct (Z.eqb_spec x (16 + 2 * i)) as [->|H1].
  { rewrite Z.even_add_mul_2 by lia. change (Z.even 16) with true.
    replace ((16 + 2 * i - 16) / 2) with i by (replace (16 + 2 * i - 16) with (i * 2) by lia; by rewrite Z.div_mul).
    repeat case_if; try lia; done. }
  destruct (Z.eqb_spec x (16 + 2 * i + 1)) as [->|H2].
  { replace (16 + 2 * i + 1) with (17 + 2 * i) by lia. rewrite Z.even_add_mul_2 by lia. change (Z.even 17) with false.
    repeat case_if; try lia; done. }
  repeat case_if; try lia; done.
Qed.

Lemma disabled_masked i : Z.testbit (disabled i) 16 = true.
Proof. unfold disabled, u32. rewrite Z.mod_pow2_bits_low by lia. by rewrite Z.lor_spec. Qed.

(** after the I/O APIC is initialised and an interrupt enabled, that interrupt goes,
    with its vector, to the given processor, and every other line is masked. *)
Theorem ioapic_routes ver id rest t irq cpu :
  0 <= irq <= Z.land (Z.shiftr (u32 ver) 16) 0xFF -> 0 <= cpu < 256 ->
  exists b', (ioapicinit ;;; ioapicenable irq cpu) (mkbus (ver :: id :: rest) []) = Ret (tt, b') /\
    let t' := ioapic_after (traffic b') t in
    t' (REG_TABLE + 2 * irq) = T_IRQ0 + irq /\ t' (REG_TABLE + 2 * irq + 1) = Z.shiftl cpu 24
    /\ forall i, 0 <= i <= Z.land (Z.shiftr (u32 ver) 16) 0xFF -> i <> irq -> Z.testbit (t' (REG_TABLE + 2 * i)) 16 = true.
Proof.
  intros Hirq Hcpu. set (maxintr := Z.land (Z.shiftr (u32 ver) 16) 0xFF) in *.
  assert (Hmax : 0 <= maxintr < 256).
  { unfold maxintr. change 0xFF with (Z.ones 8). rewrite Z.land_ones by lia. apply Z.mod_pos_bound. lia. }
  set (b0 := mkbus rest [Out IOREG (u32 REG_VER); In IODATA ver; Out IOREG (u32 REG_ID); In IODATA id]).
  assert (Hw : writes (ioapic_mask (S (Z.to_nat maxintr)) 0 ;;; ioapicenable irq cpu)
    (mask_words (S (Z.to_nat maxintr)) 0 ++ [(IOREG, u32 (REG_TABLE + 2 * irq)); (IODATA, u32 (T_IRQ0 + irq))]
      ++ [(IOREG, u32 (REG_TABLE + 2 * irq + 1)); (IODATA, u32 (Z.shiftl cpu 24))])).
  { apply writes_bind; [apply writes_mask|]. intros _. apply writes_bind; [apply writes_iow|]. intros _. apply writes_iow. }
  destruct (Hw b0) as ([] & b' & He & _ & Ht). exists b'. split.
  { rewrite <-He. unfold ioapicinit, ioapicread. mstep. reflexivity. }
  cbv zeta. unfold ioapic_after. rewrite Ht.
  change (written (traffic b0)) with [(IOREG, u32 REG_VER); (IOREG, u32 REG_ID)].
  rewrite foldl_app. cbn [foldl ioapic_dev]. change (IOREG =? IOREG) with true. cbn [snd]. rewrite foldl_app.
  destruct (foldl ioapic_dev (u32 REG_ID, t) _) as [sel tm] eqn:Em. cbn [app]. rewrite !ioapic_dev_entry. cbn [foldl snd].
  assert (Hm : forall x, tm x = snd (foldl ioapic_dev (u32 REG_ID, t) (mask_words (S (Z.to_nat maxintr)) 0)) x) by (by rewrite Em).
  unfold REG_TABLE, T_IRQ0 in *. rewrite (u32_small (16 + 2 * irq)), (u32_small (16 + 2 * irq + 1)), (u32_small (32 + irq)) by lia.
  rewrite (u32_small (Z.shiftl cpu 24)) by (rewrite Z.shiftl_mul_pow2 by lia; lia).
  split; [repeat case_if; try lia; done|]. split; [repeat case_if; try lia; done|].
  intros i Hi Hne. repeat case_if; try lia. rewrite Hm, mask_table by lia. unfold REG_TABLE. rewrite Z.even_add_mul_2 by lia. change (Z.even 16) with true.
  repeat case_if; try lia. apply disabled_masked.
Qed.
Lemma ioapic_routes_witness :
  exists b', (ioapicinit ;;; ioapicenable 4 0) (mkbus [0x170011; 0] []) = Ret (tt, b')
    /\ ioapic_after (traffic b') (fun _ => 0) (REG_TABLE + 8) = 36.
Proof.
  destruct (ioapic_routes 0x170011 0 [] (fun _ => 0) 4 0) as (b' & He & H1 & _); [vm_compute; split; discriminate|lia|].
  exists b'. split; [exact He|exact H1].
Defined.

(** ** The clock *)

Definition fields (d : rtcdate) : list Z := [second d; minute d; hour d; day d; month d; year d].
(** A number below 100 as the clock keeps it: in decimal digits, or in binary. *)
Definition enc (bcd : bool) (x : Z) : Z := if bcd then 16 * (x / 10) + x mod 10 else x.
Definition shows (bcd : bool) (d : rtcdate) : list Z := enc bcd <$> fields d.
Definition date_ok (d : rtcdate) : Prop := Forall (fun x => 0 <= x < 100) (fields d).
(** Readings that are thrown away: an update was going on, or the time changed. *)
Inductive spoilt := Updating (t : rtcdate) (a : Z) | Torn (t1 : rtcdate) (a : Z) (t2 : rtcdate).
Definition byte (x : Z) : Prop := 0 <= x < 256.
Definition spoilt_ok (x : spoilt) : Prop :=
  match x with
  | Updating t a => Forall byte (fields t) /\ byte a /\ Z.land a CMOS_UIP <> 0
  | Torn t1 a t2 => Forall byte (fields t1) /\ Forall byte (fields t2) /\ byte a /\ t1 <> t2
  end.
Definition spoilt_answers (x : spoilt) : list Z :=
  match x with
  | Updating t a => fields t ++ [a]
  | Torn t1 a t2 => if Z.land a CMOS_UIP =? 0 then fields t1 ++ [a] ++ fields t2 else fields t1 ++ [a]
  end.

Lemma conv_enc x : 0 <= x < 100 -> conv (enc true x) = x /\ byte (enc true x).
Proof.
  intros Hx. unfold conv, enc, byte. pose proof (Z.mod_pos_bound x 10). pose proof (Z.div_mod x 10).
  assert (0 <= x / 10 < 10) by (split; [apply Z.div_pos; lia|apply Z.div_lt_upper_bound; lia]).
  rewrite Z.shiftr_div_pow2 by lia. change 0xf with (Z.ones 4). rewrite Z.land_ones by lia. change (2 ^ 4) with 16.
  replace (16 * (x / 10) + x mod 10) with (x mod 10 + (x / 10) * 16) by lia.
  rewrite Z.div_add, Z.mod_add by lia. rewrite (Z.div_small (x mod 10)), (Z.mod_small (x mod 10)) by lia. lia.
Qed.
Lemma cmos_read_eq r v rest tr : byte v -> exists tr', cmos_read r (mkbus (v :: rest) tr) = Ret (v, mkbus rest tr').
Proof.
  intros Hv. assert (E : u8 v = v) by (by apply u8_small). eexists. unfold cmos_read. mstep.
  cbn [answers traffic outb output modify]. unfold inb, input, bind, ret. cbn [answers traffic]. rewrite E. reflexivity.
Qed.
Lemma fill_eq t rest tr : Forall byte (fields t) -> exists tr', fill_rtcdate (mkbus (fields t ++ rest) tr) = Ret (t, mkbus rest tr').
Proof.
  destruct t as [a b c d e f]. unfold fields. cbn [second minute hour day month year app]. intros H.
  rewrite !Forall_cons in H. destruct H as (? & ? & ? & ? & ? & ? & _). unfold fill_rtcdate.
  destruct (cmos_read_eq 0 a (b :: c :: d :: e :: f :: rest) tr) as (t1 & E1); [done|]. rewrite (bind_step _ _ _ _ _ E1).
  destruct (cmos_read_eq 2 b (c :: d :: e :: f :: rest) t1) as (t2 & E2); [done|]. rewrite (bind_step _ _ _ _ _ E2).
  destruct (cmos_read_eq 4 c (d :: e :: f :: rest) t2) as (t3 & E3); [done|]. rewrite (bind_step _ _ _ _ _ E3).
  destruct (cmos_read_eq 7 d (e :: f :: rest) t3) as (t4 & E4); [done|]. rewrite (bind_step _ _ _ _ _ E4).
  destruct (cmos_read_eq 8 e (f :: rest) t4) as (t5 & E5); [done|]. rewrite (bind_step _ _ _ _ _ E5).
  destruct (cmos_read_eq 9 f rest t5) as (t6 & E6); [done|]. rewrite (bind_step _ _ _ _ _ E6). by exists t6.
Qed.
(** After any number of spoilt readings, a steady one. *)
Lemma read_steady_eq xs : forall fuel t a rest tr,
  Forall spoilt_ok xs -> Forall byte (fields t) -> byte a -> Z.land a CMOS_UIP = 0 -> (length xs < fuel)%nat ->
  exists tr', read_steady fuel (mkbus (concat (spoilt_answers <$> xs) ++ fields t ++ [a] ++ fields t ++ rest) tr) = Ret (t, mkbus rest tr').
Proof.
  induction xs as [|x xs IH]; intros fuel t a rest tr Hxs Ht Ha Hu Hf; (destruct fuel as [|fuel]; [cbn in Hf; lia|]); cbn [read_steady].
  - cbn [fmap list_fmap concat]. rewrite app_nil_l. destruct (fill_eq t ([a] ++ fields t ++ rest) tr Ht) as (t1 & E1). rewrite (bind_step _ _ _ _ _ E1).
    destruct (cmos_read_eq CMOS_STATA a (fields t ++ rest) t1 Ha) as (t2 & E2). cbn [app]. rewrite (bind_step _ _ _ _ _ E2), Hu.
    cbn [negb]. change (0 =? 0) with true. cbn [negb]. destruct (fill_eq t rest t2 Ht) as (t3 & E3). rewrite (bind_step _ _ _ _ _ E3).
    rewrite bool_decide_eq_true_2 by done. by exists t3.
  - apply Forall_cons in Hxs as [Hx Hxs]. cbn [fmap list_fmap concat]. cbn in Hf. rewrite <-app_assoc.
    set (next := concat _ ++ fields t ++ [a] ++ fields t ++ rest).
    assert (Hn : forall tr, exists tr', read_steady fuel (mkbus next tr) = Ret (t, mkbus rest tr')) by (intros; apply IH; done || lia).
    destruct x as [u b|u b v]; cbn [spoilt_answers].
    + destruct Hx as (Hu1 & Hb & Hb'). rewrite <-app_assoc. destruct (fill_eq u ([b] ++ next) tr Hu1) as (t1 & E1). rewrite (bind_step _ _ _ _ _ E1).
      destruct (cmos_read_eq CMOS_STATA b next t1 Hb) as (t2 & E2). cbn [app]. rewrite (bind_step _ _ _ _ _ E2).
      destruct (Z.eqb_spec (Z.land b CMOS_UIP) 0); [done|]. apply Hn.
    + destruct Hx as (Hu1 & Hv & Hb & Hne). destruct (Z.eqb_spec (Z.land b CMOS_UIP) 0) as [E|E].
      * rewrite <-!app_assoc. destruct (fill_eq u ([b] ++ fields v ++ next) tr Hu1) as (t1 & E1). rewrite (bind_step _ _ _ _ _ E1).
        destruct (cmos_read_eq CMOS_STATA b (fields v ++ next) t1 Hb) as (t2 & E2). cbn [app]. rewrite (bind_step _ _ _ _ _ E2), E.
        change (0 =? 0) with true. cbn [negb]. destruct (fill_eq v next t2 Hv) as (t3 & E3). rewrite (bind_step _ _ _ _ _ E3).
        rewrite bool_decide_eq_false_2 by done. apply Hn.
      * rewrite <-app_assoc. destruct (fill_eq u ([b] ++ next) tr Hu1) as (t1 & E1). rewrite (bind_step _ _ _ _ _ E1).
        destruct (cmos_read_eq CMOS_STATA b next t1 Hb) as (t2 & E2). cbn [app]. rewrite (bind_step _ _ _ _ _ E2).
        destruct (Z.eqb_spec (Z.land b CMOS_UIP) 0); [done|]. apply Hn.
Qed.

(** the clock is read as it shows the time, in decimal or binary digits, however
    many readings are spoilt by an update before a steady one. *)
Theorem cmostime_reads_clock (bcd : bool) xs d a rest fuel :
  Forall spoilt_ok xs -> date_ok d -> byte a -> Z.land a CMOS_UIP = 0 -> (length xs < fuel)%nat ->
  exists tr', cmostime fuel (mkbus ((if bcd then 0 else 4) :: concat (spoilt_answers <$> xs) ++ shows bcd d ++ [a] ++ shows bcd d ++ rest) [])
    = Ret (mkdate (second d) (minute d) (hour d) (day d) (month d) (year d + 2000), mkbus rest tr').
Proof.
  intros Hxs Hd Ha Hu Hf. unfold cmostime.
  set (t := mkdate (enc bcd (second d)) (enc bcd (minute d)) (enc bcd (hour d)) (enc bcd (day d)) (enc bcd (month d)) (enc bcd (year d))).
  change (shows bcd d) with (fields t). unfold date_ok, fields in Hd. rewrite !Forall_cons in Hd.
  destruct Hd as (D1 & D2 & D3 & D4 & D5 & D6 & _).
  assert (Hb : forall x, 0 <= x < 100 -> byte (enc bcd x)) by (intros x Hx; destruct bcd; [by apply conv_enc|unfold byte; cbn; lia]).
  assert (Ht : Forall byte (fields t)) by (unfold fields, t; cbn; repeat (apply Forall_cons; split; [by apply Hb|]); done).
  destruct (cmos_read_eq CMOS_STATB (if bcd then 0 else 4) (concat (spoilt_answers <$> xs) ++ fields t ++ [a] ++ fields t ++ rest) []) as (t1 & E1);
    [unfold byte; destruct bcd; lia|].
  rewrite (bind_step _ _ _ _ _ E1). destruct (read_steady_eq xs fuel t a rest t1) as (t2 & E2); [done..|].
  rewrite (bind_step _ _ _ _ _ E2). exists t2. unfold ret. do 2 f_equal. destruct bcd; [|done].
  change (Z.land 0 4 =? 0) with true. cbn iota. unfold t. cbn [second minute hour day month year].
  rewrite (proj1 (conv_enc (second d) D1)), (proj1 (conv_enc (minute d) D2)), (proj1 (conv_enc (hour d) D3)),
    (proj1 (conv_enc (day d) D4)), (proj1 (conv_enc (month d) D5)), (proj1 (conv_enc (year d) D6)). done.
Qed.
Lemma cmostime_reads_clock_witness :
  exists tr', cmostime 2 (mkbus (0 :: [0; 0; 0; 0; 0; 0; 0x80] ++ [0x59; 0x30; 0x12; 0x31; 0x12; 0x25] ++ [0] ++ [0x59; 0x30; 0x12; 0x31; 0x12; 0x25]) [])
    = Ret (mkdate 59 30 12 31 12 2025, mkbus [] tr').
Proof.
  apply (cmostime_reads_clock true [Updating (mkdate 0 0 0 0 0 0) 0x80] (mkdate 59 30 12 31 12 25) 0 [] 2).
  - repeat constructor; cbn; try lia; discriminate.
  - repeat constructor; cbn; lia.
  - unfold byte. lia.
  - reflexivity.
  - cbn. lia.
Defined.

(** ** Starting another processor *)

(** The entry code is found both ways: the startup interrupt carries its page number, and
    the warm reset vector its segment. *)
Lemma startap_entry addr : 0 <= addr < 2 ^ 20 -> addr mod 4096 = 0 ->
  4096 * Z.land (Z.lor STARTUP (Z.shiftr addr 12)) 0xFF = addr
  /\ 16 * Z.shiftr addr 4 = addr /\ Z.shiftr addr 4 < 2 ^ 16.
Proof.
  intros Ha Hm. assert (Hq : addr = addr / 4096 * 4096) by (rewrite (Z.div_mod addr 4096) at 1 by lia; lia).
  assert (0 <= addr / 4096 < 256) by (split; [apply Z.div_pos; lia|apply Z.div_lt_upper_bound; lia]).
  rewrite !Z.shiftr_div_pow2 by lia. change (2 ^ 12) with 4096. change (2 ^ 4) with 16. split; [|split].
  - rewrite Z.land_lor_distr_l. change (Z.land STARTUP 255) with 0. rewrite Z.lor_0_l.
    change 255 with (Z.ones 8). rewrite Z.land_ones, Z.mod_small by lia. lia.
  - rewrite Hq. replace (addr / 4096 * 4096) with (addr / 4096 * 256 * 16) by lia. rewrite Z.div_mul by lia. lia.
  - apply Z.div_lt_upper_bound; lia.
Qed.

(** What [lapicstartap] sends to the processor: reset it, and start it, twice. *)
Definition startap_writes (lapic apicid addr : Z) : list (Z * Z) :=
  let hi := (reg lapic ICRHI, u32 (Z.shiftl apicid 24)) in
  let start := (reg lapic ICRLO, u32 (Z.lor STARTUP (Z.shiftr addr 12))) in
  [(CMOS_PORT, 0xF); (CMOS_PORT + 1, 0x0A); hi; (reg lapic ICRLO, Z.lor (Z.lor INIT LEVEL) ASSERT); (reg lapic ICRLO, Z.lor INIT LEVEL);
   hi; start; hi; start].
(** Another processor is told to start at [addr], in both ways there are. *)
Theorem lapicstartap_starts lapic apicid addr ans m :
  length ans = 7%nat -> 0 <= addr < 2 ^ 20 -> addr mod 4096 = 0 ->
  exists b' m', lapicstartap lapic apicid addr (mkbus ans [], m) = Ret (tt, (b', m'))
    /\ written (traffic b') = startap_writes lapic apicid addr
    /\ 4096 * Z.land (Z.lor STARTUP (Z.shiftr addr 12)) 0xFF = addr
    /\ ld32 m' WRV = 2 ^ 16 * (addr / 16).
Proof.
  intros Hans Ha Hm. destruct (startap_entry addr Ha Hm) as (H1 & H2 & H3).
  destruct ans as [|a1 [|a2 [|a3 [|a4 [|a5 [|a6 [|a7 [|]]]]]]]]; try discriminate Hans.
  eexists _, (st16 (st16 m WRV 0) (WRV + 2) (Z.shiftr addr 4)). split; [reflexivity|]. split; [reflexivity|]. split; [done|].
  unfold ld32, st16. rewrite !ldb_stb. repeat case_if; try (unfold WRV in *; lia).
  assert (Hs : Z.shiftr addr 4 = addr / 16) by (by rewrite Z.shiftr_div_pow2). rewrite Hs in *.
  change (Z.shiftr 0 8) with 0. rewrite (Z.shiftr_div_pow2 (addr / 16)) by lia. unfold u8. rewrite !Z.mod_mod by lia.
  change (0 mod 2 ^ 8) with 0. change (2 ^ 8) with 256 in *. assert (0 <= addr / 16) by (apply Z.div_pos; lia).
  rewrite (Z.mod_small (addr / 16 / 256)) by (split; [apply Z.div_pos; lia|apply Z.div_lt_upper_bound; lia]).
  pose proof (Z.div_mod (addr / 16) 256). lia.
Qed.
