(* ===== verification/Uart.v ===== *)
(** * The serial line

    Models [src/xv6/uart.c] and [src/xv6/debug.c]: setting the port up, sending a character, and the interrupt
    handler that feeds the console. *)

From S2P Require Import Prelude Io Console Apic.
Local Open Scope Z_scope.

Definition COM1 : Z := 0x3f8.
Definition IRQ_COM1 : Z := 4.

(** The bus, and [uart]: is there a port? *)
Record serial := mkserial { sbus : bus; uart : bool }.
Definition on_sbus {A} (m : M bus A) : M serial A := lift sbus (fun b s => mkserial b (uart s)) m.

(** [for(i = 0; i < 128 && !(inb(COM1+5) & 0x20); i++) microdelay(10);] *)
Fixpoint wait_sent (n : nat) : M bus unit :=
  match n with
  | O => ret tt
  | S n => v <- inb (COM1 + 5) ;; if Z.land v 0x20 =? 0 then wait_sent n else ret tt
  end.
Definition uartputc (c : Z) : M serial unit :=
  u <- gets uart ;;
  if u : bool then on_sbus (wait_sent 128 ;;; outb COM1 c) else ret tt.
Fixpoint uartputs (l : list Z) : M serial unit :=
  match l with [] => ret tt | c :: l => uartputc c ;;; uartputs l end.
(** ["xv6...\n"] *)
Definition hello : list Z := [120; 118; 54; 46; 46; 46; 10].

Definition uartinit : M serial unit :=
  on_sbus (
    outb (COM1 + 2) 0 ;;;
    outb (COM1 + 3) 0x80 ;;;
    outb COM1 (115200 / 9600) ;;;
    outb (COM1 + 1) 0 ;;;
    outb (COM1 + 3) 0x03 ;;;
    outb (COM1 + 4) 0 ;;;
    outb (COM1 + 1) 0x01) ;;;
  st <- on_sbus (inb (COM1 + 5)) ;;
  if st =? 0xFF then ret tt
  else
    modify (fun s => mkserial (sbus s) true) ;;;
    on_sbus (inb (COM1 + 2) ;;; inb COM1 ;;; ioapicenable IRQ_COM1 0) ;;;
    uartputs hello.

Definition uartgetc : M serial Z :=
  u <- gets uart ;;
  if negb u then ret (-1)
  else
    st <- on_sbus (inb (COM1 + 5)) ;;
    if Z.land st 0x01 =? 0 then ret (-1) else on_sbus (inb COM1).
(** [while((c = getc()) >= 0)] of [consoleintr]. *)
Fixpoint uart_chars (fuel : nat) : M serial (list Z) :=
  match fuel with
  | O => nofuel
  | S f => c <- uartgetc ;; if c <? 0 then ret [] else cs <- uart_chars f ;; ret (c :: cs)
  end.
Definition uartintr (fuel : nat) : M (serial * cons) bool :=
  cs <- lift fst (fun u s => (u, snd s)) (uart_chars fuel) ;;
  lift snd (fun c s => (fst s, c)) (consoleintr cs).

(** [debug.c]: the port is set up for every character. *)
Definition uart_debug (p : Z) : M bus unit :=
  outb (COM1 + 2) 0 ;;;
  outb (COM1 + 3) 0x80 ;;;
  outb COM1 (115200 / 9600) ;;;
  outb (COM1 + 1) 0 ;;;
  outb (COM1 + 3) 0x03 ;;;
  outb (COM1 + 4) 0 ;;;
  wait_sent 128 ;;;
  outb COM1 p.
Fixpoint uart_debugs (p : list Z) : M bus unit :=
  match p with [] => ret tt | c :: p => uart_debug c ;;; uart_debugs p end.

(** ** Properties *)

Lemma wait_sent_ends n : forall ans tr, (n <= length ans)%nat ->
  exists k tr', wait_sent n (mkbus ans tr) = Ret (tt, mkbus (drop k ans) tr') /\ (k <= n)%nat /\ written tr' = written tr.
Proof.
  induction n as [|n IH]; intros ans tr Hn; cbn [wait_sent]; [exists 0%nat, tr; done|].
  destruct ans as [|v ans]; [cbn in Hn; lia|]. rewrite (bind_step _ _ _ _ _ (inb_cons _ _ _ _)).
  destruct (Z.land (u8 v) 32 =? 0).
  - destruct (IH ans (tr ++ [In (COM1 + 5) v])) as (k & tr' & -> & Hk & Hw); [cbn in Hn; lia|].
    exists (S k), tr'. split; [done|]. split; [lia|]. by rewrite Hw, written_app, app_nil_r.
  - exists 1%nat, (tr ++ [In (COM1 + 5) v]). split; [done|]. split; [lia|]. by rewrite written_app, app_nil_r.
Qed.
(** A character goes out, after at most 128 looks at the port, whatever the port says. *)
Theorem uartputc_sends c ans tr : (128 <= length ans)%nat ->
  exists k tr', uartputc c (mkserial (mkbus ans tr) true) = Ret (tt, mkserial (mkbus (drop k ans) tr') true)
    /\ (k <= 128)%nat /\ written tr' = written tr ++ [(COM1, u8 c)].
Proof.
  intros Hn. destruct (wait_sent_ends 128 ans tr Hn) as (k & tr' & He & Hk & Hw).
  exists k, (tr' ++ [Out COM1 (u8 c)]). unfold uartputc, on_sbus, lift. mstep. cbn [uart sbus]. rewrite He. split; [done|].
  split; [done|]. by rewrite written_app, Hw.
Qed.

(** A line with the characters [cs], and then none. *)
Definition received (cs : list Z) : list Z := concat ((fun c => [0x01; c]) <$> cs) ++ [0].
Lemma uart_chars_received cs : forall fuel rest tr, Forall (fun c => 0 <= c < 256) cs -> (length cs < fuel)%nat ->
  exists tr', uart_chars fuel (mkserial (mkbus (received cs ++ rest) tr) true) = Ret (cs, mkserial (mkbus rest tr') true).
Proof.
  induction cs as [|c cs IH]; intros fuel rest tr Hc Hf; (destruct fuel as [|fuel]; [cbn in Hf; lia|]); cbn [uart_chars].
  - by eexists.
  - apply Forall_cons in Hc as [Hc Hcs]. destruct (IH fuel rest ((tr ++ [In (COM1 + 5) 1]) ++ [In COM1 c]) Hcs) as (tr' & He); [cbn in Hf; lia|].
    exists tr'. assert (Hg : uartgetc (mkserial (mkbus (received (c :: cs) ++ rest) tr) true)
      = Ret (c, mkserial (mkbus (received cs ++ rest) ((tr ++ [In (COM1 + 5) 1]) ++ [In COM1 c])) true)).
    { assert (E : u8 c = c) by (by apply u8_small). rewrite <-E at 2. reflexivity. }
    rewrite (bind_step _ _ _ _ _ Hg). destruct (Z.ltb_spec c 0); [lia|]. by rewrite (bind_step _ _ _ _ _ He).
Qed.
(** What comes in on the line goes to the console. *)
Theorem serial_reaches_console cs rest tr c : Forall (fun x => 0 <= x < 256) cs ->
  exists tr', uartintr (S (length cs)) (mkserial (mkbus (received cs ++ rest) tr) true, c)
    = match consoleintr cs c with
      | Ret (d, c') => Ret (d, (mkserial (mkbus rest tr') true, c'))
      | Panic e => Panic e
      | NoFuel => NoFuel
      end.
Proof.
  intros Hc. destruct (uart_chars_received cs (S (length cs)) rest tr Hc) as (tr' & He); [lia|]. exists tr'.
  unfold uartintr. erewrite bind_step by (unfold lift; cbn [fst]; rewrite He; reflexivity). done.
Qed.
