(* ===== verification/Pci.v ===== *)
(** * PCI devices and the set-up of the network card

    Models [src/xv6/pci.c] and the set-up in [src/xv6/i8254.c]: configuration space is
    reached through two ports, every function of every device is probed, and the network
    card, when found, is programmed through registers in memory.  Pages come from
    [kalloc], whose results are an input.  What is printed is left out.

    Configuration addresses are different for different functions and registers; the
    scan finds exactly the functions that are there; the card listens to the hardware
    address the kernel uses. *)

From S2P Require Import Prelude Io Mmu.
Local Open Scope Z_scope.

Definition PCI_CONFIG : Z := 0xCF8.
Definition PCI_DATA : Z := 0xCFC.
Record pci_dev := mkdev {
  bus_num : Z; device_num : Z; function_num : Z; device_id : Z; vendor_id : Z;
  base_class : Z; sub_class : Z; interface : Z; revision_id : Z; bar0 : Z; bar1 : Z }.

Definition pci_write_config (config : Z) : M bus unit := out32 PCI_CONFIG config.
Definition pci_write_data (data : Z) : M bus unit := out32 PCI_DATA data.
Definition pci_read_config : M bus Z := in32 PCI_DATA.
Definition config_addr (bus_num device_num function_num reg_addr : Z) : Z :=
  Z.lor (Z.lor (Z.lor (Z.lor (Z.shiftl (Z.land bus_num 0xFF) 16) (Z.shiftl (Z.land device_num 0x1F) 11))
    (Z.shiftl (Z.land function_num 0x7) 8)) (Z.land reg_addr 0xFC)) 0x80000000.
Definition pci_access_config (b d f r : Z) : M bus Z := pci_write_config (config_addr b d f r) ;;; pci_read_config.
Definition pci_write_config_register (b d f r data : Z) : M bus unit :=
  pci_write_config (config_addr b d f r) ;;; pci_write_data data.

Definition I8254_DEVICE_ID : Z := 0x100E.
Definition I8254_VENDOR_ID : Z := 0x8086.

(** ** [i8254.c] *)

Record i8254_recv_desc := mkrecv {
  r_buf_addr : Z; r_padding : Z; r_len : Z; r_chk_sum : Z; r_status : Z; r_errors : Z; r_special : Z }.
Record i8254_send_desc := mksend {
  s_buf_addr : Z; s_padding : Z; s_len : Z; s_cso : Z; s_cmd : Z; s_sta : Z; s_css : Z; s_special : Z }.
(** The bus, pages [kalloc] will return (0 when there is none), the two rings, the
    hardware address and the word of the interrupt handler. *)
Record card := mkcard {
  cbus : bus; pages : list Z; recv_ring : list i8254_recv_desc; send_ring : list i8254_send_desc; cmac : list Z; intr_word : Z }.
Definition on_cbus {A} (m : M bus A) : M card A :=
  lift cbus (fun b c => mkcard b (pages c) (recv_ring c) (send_ring c) (cmac c) (intr_word c)) m.
Definition card_kalloc : M card Z :=
  c <- get ;;
  match pages c with
  | [] => nofuel
  | p :: rest => put (mkcard (cbus c) rest (recv_ring c) (send_ring c) (cmac c) (intr_word c)) ;;; ret p
  end.
Definition I8254_RECV_DESC_NUM : Z := 256.
Definition I8254_SEND_DESC_NUM : Z := 256.
Definition PCI_CMD_BUS_MASTER : Z := 4.
Definition I8254_CTRL_SLU : Z := 2 ^ 6.
Definition I8254_CTRL_ILOS : Z := 2 ^ 7.
Definition I8254_CTRL_RST : Z := 2 ^ 26.
Definition I8254_CTRL_VME : Z := 2 ^ 30.
Definition I8254_CTRL_PHY_RST : Z := 2 ^ 31.
Definition I8254_RAH_AV : Z := 2 ^ 31.
(** [I8254_IMS_RXT0 | I8254_IMS_RXDMT0 | I8254_IMS_RXSEQ | I8254_IMS_LSC | I8254_IMS_RXO] *)
Definition IMS_BITS : Z := 2 ^ 7 + 2 ^ 4 + 2 ^ 3 + 2 ^ 2 + 2 ^ 6.
(** [I8254_RCTL_UPE | I8254_RCTL_MPE | I8254_RCTL_BAM | I8254_RCTL_BSIZE | I8254_RCTL_SECRC] *)
Definition RCTL_BITS : Z := 2 ^ 3 + 2 ^ 4 + 2 ^ 15 + 2 ^ 26.
Definition I8254_RCTL_EN : Z := 2.
(** [I8254_TCTL_EN | I8254_TCTL_PSP | I8254_TCTL_COLD | I8254_TCTL_CT] *)
Definition TCTL_BITS : Z := 2 + 2 ^ 3 + 0x40 * 2 ^ 12 + 0xF * 2 ^ 4.
Definition TXDCTL_BITS : Z := 2 ^ 16 + 2 ^ 24.

Section Card.
Context (base_addr : Z).
Definition wr (off v : Z) : M card unit := on_cbus (out32 (base_addr + off) v).
Definition rd (off : Z) : M card Z := on_cbus (in32 (base_addr + off)).

(** The loop that waits for the word, and the word. *)
Fixpoint eeprom_wait (fuel : nat) : M card unit :=
  match fuel with
  | O => nofuel
  | S f => v <- rd 0x14 ;; if Z.land v 16 =? 0 then eeprom_wait f else ret tt
  end.
Definition i8254_read_eeprom (fuel : nat) (addr : Z) : M card Z :=
  wr 0x14 (Z.lor (Z.shiftl (Z.land addr 0xFF) 8) 1) ;;;
  eeprom_wait fuel ;;;
  v <- rd 0x14 ;;
  ret (Z.land (Z.shiftr v 16) 0xFFFF).

(** [for(int i=0;i<128;i++) mta[i] = 0;] *)
Fixpoint clear_mta (n : nat) (i : Z) : M card unit :=
  match n with O => ret tt | S n => wr (0x5200 + 4 * i) 0 ;;; clear_mta n (i + 1) end.
(** The loop that gives a ring its buffers, [n] times from [i]. *)
Fixpoint give_bufs (put_buf : nat -> Z -> card -> card) (n i : nat) : M card unit :=
  match n with
  | O => ret tt
  | S n =>
      p <- card_kalloc ;;
      if p =? 0 then ret tt
      else
        modify (put_buf i (V2P p)) ;;;
        modify (put_buf (S i) (V2P (u32 (p + 0x800)))) ;;;
        give_bufs put_buf n (S i)
  end.
Definition put_recv (i : nat) (a : Z) (c : card) : card :=
  mkcard (cbus c) (pages c) (alter (fun d => mkrecv a (r_padding d) (r_len d) (r_chk_sum d) (r_status d) (r_errors d) (r_special d)) i (recv_ring c)) (send_ring c) (cmac c) (intr_word c).
Definition put_send (i : nat) (a : Z) (c : card) : card :=
  mkcard (cbus c) (pages c) (recv_ring c) (alter (fun d => mksend a (s_padding d) (s_len d) (s_cso d) (s_cmd d) (s_sta d) (s_css d) (s_special d)) i (send_ring c)) (cmac c) (intr_word c).
(** The loops that clear the descriptors, all but the address. *)
Definition clear_recv (c : card) : card :=
  mkcard (cbus c) (pages c) ((fun d => mkrecv (r_buf_addr d) 0 0 0 0 0 0) <$> recv_ring c) (send_ring c) (cmac c) (intr_word c).
Definition clear_send (c : card) : card :=
  mkcard (cbus c) (pages c) (recv_ring c) ((fun d => mksend (s_buf_addr d) 0 0 0 0 0 0 0) <$> send_ring c) (cmac c) (intr_word c).

Definition i8254_init_recv (fuel : nat) : M card unit :=
  l <- i8254_read_eeprom fuel 0 ;;
  m <- i8254_read_eeprom fuel 1 ;;
  h <- i8254_read_eeprom fuel 2 ;;
  modify (fun c => mkcard (cbus c) (pages c) (recv_ring c) (send_ring c)
    [Z.land l 0xFF; Z.shiftr l 8; Z.land m 0xFF; Z.shiftr m 8; Z.land h 0xFF; Z.shiftr h 8] (intr_word c)) ;;;
  wr 0x5400 (Z.lor l (Z.shiftl m 16)) ;;;
  wr 0x5404 (Z.lor h I8254_RAH_AV) ;;;
  clear_mta 128 0 ;;;
  wr 0xD0 IMS_BITS ;;;
  wr 0xC8 IMS_BITS ;;;
  wr 0x2828 0 ;;;
  wr 0x100 RCTL_BITS ;;;
  d <- card_kalloc ;;
  wr 0x2800 (V2P d) ;;;
  wr 0x2804 0 ;;;
  wr 0x2808 (16 * I8254_RECV_DESC_NUM) ;;;
  wr 0x2810 0 ;;;
  wr 0x2818 I8254_RECV_DESC_NUM ;;;
  modify clear_recv ;;;
  give_bufs put_recv (Z.to_nat (I8254_RECV_DESC_NUM / 2)) 0 ;;;
  r <- rd 0x100 ;;
  wr 0x100 (Z.lor r I8254_RCTL_EN).

Definition i8254_init_send : M card unit :=
  wr 0x3828 TXDCTL_BITS ;;;
  d <- card_kalloc ;;
  wr 0x3800 (V2P d) ;;;
  wr 0x3804 0 ;;;
  wr 0x3808 (16 * I8254_SEND_DESC_NUM) ;;;
  wr 0x3810 0 ;;;
  wr 0x3818 0 ;;;
  modify clear_send ;;;
  give_bufs put_send (Z.to_nat (I8254_SEND_DESC_NUM / 2)) 0 ;;;
  wr 0x400 TCTL_BITS ;;;
  wr 0x410 (10 + 10 * 2 ^ 10 + 10 * 2 ^ 20).

(** [i8254_init] behind the command register of the device. *)
Definition card_init (fuel : nat) : M card unit :=
  wr 0xD8 0xFFFFFFFF ;;;
  v <- rd 0 ;; wr 0 (Z.lor v I8254_CTRL_RST) ;;;
  wr 0xD8 0xFFFFFFFF ;;;
  v <- rd 0 ;; wr 0 (Z.lor v I8254_CTRL_SLU) ;;;
  v <- rd 0 ;;
  wr 0 (Z.land v (Z.lor (Z.lor (Z.lnot I8254_CTRL_PHY_RST) (Z.lnot I8254_CTRL_VME)) (Z.lnot I8254_CTRL_ILOS))) ;;;
  card_kalloc ;;;
  modify (fun c => mkcard (cbus c) (pages c) (recv_ring c) (send_ring c) (cmac c) 0) ;;;
  i8254_init_recv fuel ;;;
  i8254_init_send ;;;
  wr 0xD8 0.
Definition i8254_intr : M card unit :=
  modify (fun c => mkcard (cbus c) (pages c) (recv_ring c) (send_ring c) (cmac c) 0xEEEEEE).
End Card.

Definition PCI_P2V (a : Z) : Z := u32 (a + PCI_VP_OFFSET).
Definition i8254_init (fuel : nat) (dev : pci_dev) : M card unit :=
  cmd <- on_cbus (pci_access_config (bus_num dev) (device_num dev) (function_num dev) 4) ;;
  on_cbus (pci_write_config_register (bus_num dev) (device_num dev) (function_num dev) 4 (Z.lor cmd PCI_CMD_BUS_MASTER)) ;;;
  card_init (PCI_P2V (bar0 dev)) fuel.

(** ** The scan of the bus *)

Section Scan.
(** [i8254_init] *)
Context (nic : pci_dev -> M card unit).
(** The device, as [dev] describes it at the end. *)
Definition pci_init_device (b d f : Z) : M card pci_dev :=
  data <- on_cbus (pci_access_config b d f 0) ;;
  let device_id := Z.shiftr data 16 in
  let vendor_id := Z.land data 0xFFFF in
  data <- on_cbus (pci_access_config b d f 0x8) ;;
  let '(base, sub, intf, rev) :=
    (Z.shiftr data 24, Z.land (Z.shiftr data 16) 0xFF, Z.land (Z.shiftr data 8) 0xFF, Z.land data 0xFF) in
  bar0 <- on_cbus (pci_access_config b d f 0x10) ;;
  bar1 <- on_cbus (pci_access_config b d f 0x14) ;;
  let dev := mkdev (u8 b) (u8 d) (u8 f) device_id vendor_id (u8 base) (u8 sub) (u8 intf) (u8 rev) bar0 bar1 in
  (if (device_id =? I8254_DEVICE_ID) && (vendor_id =? I8254_VENDOR_ID) then
     on_cbus (pci_access_config b d f 0xF0) ;;; nic dev
   else ret tt) ;;;
  ret dev.
(** The body of the three loops, for the functions in order: the devices found. *)
Fixpoint pci_scan (l : list (Z * Z * Z)) : M card (list pci_dev) :=
  match l with
  | [] => ret []
  | (i, j, k) :: l =>
      data <- on_cbus (pci_access_config i j k 0) ;;
      found <- (if Z.land data 0xFFFF =? 0xFFFF then ret [] else x <- pci_init_device i j k ;; ret [x]) ;;
      rest <- pci_scan l ;;
      ret (found ++ rest)
  end.
Definition functions : list (Z * Z * Z) :=
  i ← seqZ 0 256; j ← seqZ 0 32; k ← seqZ 0 8; [(i, j, k)].
End Scan.
Definition pci_init (fuel : nat) : M card (list pci_dev) := pci_scan (i8254_init fuel) functions.

(** ** Receiving *)

(** The two registers of the receive ring, as the card and the driver move them. *)
Record ring := mkring { rdh : Z; rdt : Z }.
(** One turn of the loop of [i8254_recv]: the descriptor whose packet is handled, if any. *)
Definition recv_turn (r : ring) : option Z * ring :=
  let avail := s32 (u32 (u32 (I8254_RECV_DESC_NUM - rdt r) + rdh r) mod I8254_RECV_DESC_NUM) in
  let '(idx, t) := if avail >? 0 then (Some (rdt r), u32 (rdt r + 1) mod I8254_RECV_DESC_NUM) else (None, rdt r) in
  (idx, mkring (rdh r) (if t =? rdh r then u32 (t - 1) else t)).

(** ** The scan and the set-up *)


Lemma lor_add a b n : 0 <= n -> 0 <= b < 2 ^ n -> a mod 2 ^ n = 0 -> Z.lor a b = a + b.
Proof.
  intros Hn Hb Ha. rewrite <-Z.add_lor_land. replace (Z.land a b) with 0; [lia|].
  symmetry. apply Z.bits_inj'. intros i Hi. rewrite Z.land_spec, Z.bits_0. destruct (Z_lt_dec i n).
  - replace a with (a / 2 ^ n * 2 ^ n) by (pose proof (Z.div_mod a (2 ^ n)); lia). by rewrite Z.mul_pow2_bits_low by lia.
  - rewrite <-(Z.mod_small b (2 ^ n)) by lia. rewrite Z.mod_pow2_bits_high by lia. apply andb_false_r.
Qed.
Lemma land_mask x n : 0 <= n -> 0 <= x < 2 ^ n -> Z.land x (Z.ones n) = x.
Proof. intros Hn Hx. rewrite Z.land_ones by lia. by apply Z.mod_small. Qed.

Definition in_space (b d f r : Z) : Prop := 0 <= b < 256 /\ 0 <= d < 32 /\ 0 <= f < 8 /\ 0 <= r < 256 /\ r mod 4 = 0.
Lemma config_addr_sum b d f r : in_space b d f r -> config_addr b d f r = 0x80000000 + b * 2 ^ 16 + d * 2 ^ 11 + f * 2 ^ 8 + r.
Proof.
  intros (Hb & Hd & Hf & Hr & Hr4). unfold config_addr. change 0xFF with (Z.ones 8). change 0x1F with (Z.ones 5). change 0x7 with (Z.ones 3).
  rewrite (land_mask b), (land_mask d), (land_mask f), !Z.shiftl_mul_pow2 by lia.
  assert (Hr' : Z.land r 0xFC = r).
  { replace r with (r / 4 * 4) by (pose proof (Z.div_mod r 4); lia). change 0xFC with (0x3F * 4).
    rewrite <-!(Z.shiftl_mul_pow2 _ 2), <-Z.shiftl_land by lia. f_equal. change 0x3F with (Z.ones 6). apply land_mask; [lia|].
    pose proof (Z.div_pos r 4). pose proof (Z.div_lt_upper_bound r 4 64). lia. }
  rewrite Hr'. rewrite (lor_add (b * 2 ^ 16) (d * 2 ^ 11) 16) by (lia || apply Z.mod_mul; lia).
  rewrite (lor_add (b * 2 ^ 16 + d * 2 ^ 11) (f * 2 ^ 8) 11); [|lia|lia|].
  2:{ replace (b * 2 ^ 16 + d * 2 ^ 11) with ((b * 32 + d) * 2 ^ 11) by lia. apply Z.mod_mul. lia. }
  rewrite (lor_add (b * 2 ^ 16 + d * 2 ^ 11 + f * 2 ^ 8) r 8); [|lia|lia|].
  2:{ replace (b * 2 ^ 16 + d * 2 ^ 11 + f * 2 ^ 8) with ((b * 256 + d * 8 + f) * 2 ^ 8) by lia. apply Z.mod_mul. lia. }
  rewrite Z.lor_comm. rewrite (lor_add 0x80000000 _ 31); [lia|lia| |done].
  change (2 ^ 31) with 0x80000000. change (2 ^ 16) with 65536. change (2 ^ 11) with 2048. change (2 ^ 8) with 256. lia.
Qed.
(** Two registers are never reached through the same address. *)
Theorem config_addr_inj b d f r b' d' f' r' :
  in_space b d f r -> in_space b' d' f' r' -> config_addr b d f r = config_addr b' d' f' r' -> b = b' /\ d = d' /\ f = f' /\ r = r'.
Proof. intros H H' E. rewrite !config_addr_sum in E by done. unfold in_space in *. lia. Qed.

(** ** The scan *)

Section Scan.
Context (nic : pci_dev -> M card unit) (nic_answers : pci_dev -> list Z).
(** The set-up of the card takes its answers and returns. *)
Definition nic_runs : Prop := forall dev c rest, answers (cbus c) = nic_answers dev ++ rest ->
  exists c', nic dev c = Ret (tt, c') /\ answers (cbus c') = rest.
(** Configuration space: the word at an address. *)
Context (cfg : Z -> Z) (cfg_range : forall a, 0 <= cfg a < 2 ^ 32).

Definition at_reg (x : Z * Z * Z) (r : Z) : Z := cfg (config_addr x.1.1 x.1.2 x.2 r).
Definition present (x : Z * Z * Z) : bool := negb (Z.land (at_reg x 0) 0xFFFF =? 0xFFFF).
Definition device (x : Z * Z * Z) : pci_dev :=
  let w := at_reg x 8 in
  mkdev (u8 x.1.1) (u8 x.1.2) (u8 x.2) (Z.shiftr (at_reg x 0) 16) (Z.land (at_reg x 0) 0xFFFF)
    (u8 (Z.shiftr w 24)) (u8 (Z.land (Z.shiftr w 16) 0xFF)) (u8 (Z.land (Z.shiftr w 8) 0xFF)) (u8 (Z.land w 0xFF)) (at_reg x 0x10) (at_reg x 0x14).
Definition is_nic (x : Z * Z * Z) : bool := (device_id (device x) =? I8254_DEVICE_ID) && (vendor_id (device x) =? I8254_VENDOR_ID).
(** What the machine answers while a function is probed. *)
Definition probe (x : Z * Z * Z) : list Z :=
  at_reg x 0 ::
  if present x then
    [at_reg x 0; at_reg x 8; at_reg x 0x10; at_reg x 0x14] ++ (if is_nic x then at_reg x 0xF0 :: nic_answers (device x) else [])
  else [].

Lemma access_eq b d f r v rest c : answers (cbus c) = v :: rest -> 0 <= v < 2 ^ 32 ->
  exists c', on_cbus (pci_access_config b d f r) c = Ret (v, c') /\ answers (cbus c') = rest.
Proof.
  intros Ha Hv. destruct c as [[ans tr] pg rb sb mac iw]. cbn in Ha. subst ans.
  exists (mkcard (mkbus rest ((tr ++ [Out PCI_CONFIG (u32 (config_addr b d f r))]) ++ [In PCI_DATA v])) pg rb sb mac iw).
  split; [|done]. assert (E : u32 v = v) by (by apply u32_small). rewrite <-E at 2. reflexivity.
Qed.
Lemma scan_finds l : forall c rest, nic_runs -> answers (cbus c) = concat (probe <$> l) ++ rest ->
  exists c', pci_scan nic l c = Ret (device <$> filter (fun x => present x) l, c') /\ answers (cbus c') = rest.
Proof.
  induction l as [|x l IH]; intros c rest Hn Ha; [by exists c|]. destruct x as [[i j] k].
  cbn [fmap list_fmap concat] in Ha. rewrite <-app_assoc in Ha. cbn [pci_scan].
  set (x := (i, j, k)) in *. unfold probe in Ha. cbn [app] in Ha.
  destruct (access_eq i j k 0 (at_reg x 0) _ c Ha (cfg_range _)) as (c1 & E1 & A1). rewrite (bind_step _ _ _ _ _ E1).
  rewrite filter_cons. fold (at_reg x 0). unfold present in A1 |- *. fold (present x) in A1 |- *.
  destruct (Z.land (at_reg x 0) 65535 =? 65535) eqn:Ep.
  - assert (Hp : present x = false) by (unfold present; by rewrite Ep). rewrite Hp in *. cbn [negb app] in A1.
    erewrite bind_step by reflexivity. destruct (IH c1 rest Hn A1) as (c2 & E2 & A2). rewrite (bind_step _ _ _ _ _ E2).
    exists c2. rewrite decide_False by (by intros []). done.
  - assert (Hp : present x = true) by (unfold present; by rewrite Ep). rewrite Hp in *. cbn [negb app] in A1.
    assert (Hd : exists c', pci_init_device nic i j k c1 = Ret (device x, c') /\ answers (cbus c') = concat (probe <$> l) ++ rest).
    { unfold pci_init_device.
      destruct (access_eq i j k 0 (at_reg x 0) _ c1 A1 (cfg_range _)) as (d1 & F1 & B1). rewrite (bind_step _ _ _ _ _ F1).
      destruct (access_eq i j k 8 (at_reg x 8) _ d1 B1 (cfg_range _)) as (d2 & F2 & B2). rewrite (bind_step _ _ _ _ _ F2).
      destruct (access_eq i j k 16 (at_reg x 16) _ d2 B2 (cfg_range _)) as (d3 & F3 & B3). rewrite (bind_step _ _ _ _ _ F3).
      destruct (access_eq i j k 20 (at_reg x 20) _ d3 B3 (cfg_range _)) as (d4 & F4 & B4). rewrite (bind_step _ _ _ _ _ F4).
      fold (device x). change (Z.shiftr (at_reg x 0) 16) with (device_id (device x)). change (Z.land (at_reg x 0) 65535) with (vendor_id (device x)).
      fold (is_nic x). destruct (is_nic x); [|exists d4; by erewrite bind_step by reflexivity].
      destruct (access_eq i j k 240 (at_reg x 240) _ d4 B4 (cfg_range _)) as (d5 & F5 & B5).
      destruct (Hn (device x) d5 _ B5) as (d6 & F6 & B6). exists d6.
      erewrite bind_step by (rewrite (bind_step _ _ _ _ _ F5); exact F6). done. }
    destruct Hd as (c2 & E2 & A2). erewrite bind_step by (erewrite bind_step by exact E2; reflexivity).
    destruct (IH c2 rest Hn A2) as (c3 & E3 & A3). rewrite (bind_step _ _ _ _ _ E3). exists c3. split; [|done].
    by rewrite decide_True by done.
Qed.

Lemma functions_all b d f : (b, d, f) ∈ functions <-> 0 <= b < 256 /\ 0 <= d < 32 /\ 0 <= f < 8.
Proof.
  unfold functions. rewrite list_elem_of_bind. split.
  - intros (i & (j & (k & Hx & Hk)%list_elem_of_bind & Hj)%list_elem_of_bind & Hi).
    apply list_elem_of_singleton in Hx. injection Hx as -> -> ->. apply elem_of_seqZ in Hk, Hj, Hi. lia.
  - intros (Hb & Hd & Hf). exists b. split; [|apply elem_of_seqZ; lia]. apply list_elem_of_bind. exists d.
    split; [|apply elem_of_seqZ; lia]. apply list_elem_of_bind. exists f. split; [by apply list_elem_of_singleton|apply elem_of_seqZ; lia].
Qed.
(** The scan finds the functions that are there, all of them and no others. *)
Theorem pci_scan_complete c rest : nic_runs -> answers (cbus c) = concat (probe <$> functions) ++ rest ->
  exists devs c', pci_scan nic functions c = Ret (devs, c') /\ answers (cbus c') = rest
    /\ forall dev, dev ∈ devs <-> exists b d f, 0 <= b < 256 /\ 0 <= d < 32 /\ 0 <= f < 8 /\ present (b, d, f) = true /\ dev = device (b, d, f).
Proof.
  intros Hn Ha. destruct (scan_finds functions c rest Hn Ha) as (c' & He & Hr). eexists _, c'. split; [exact He|]. split; [done|].
  intros dev. rewrite list_elem_of_fmap. split.
  - intros ([[b d] f] & -> & [Hp Hin]%list_elem_of_filter). apply functions_all in Hin as (? & ? & ?).
    exists b, d, f. split; [done|]. split; [done|]. split; [done|]. split; [by apply Is_true_true|done].
  - intros (b & d & f & ? & ? & ? & Hp & ->). exists (b, d, f). split; [done|]. apply list_elem_of_filter.
    split; [by rewrite Hp|]. by apply functions_all.
Qed.
End Scan.

(** ** The card *)

(** A word of the EEPROM: not ready [n] times, then ready, then read. *)
Definition eeprom (n : nat) (w : Z) : list Z := replicate n 0 ++ [16; w * 2 ^ 16 + 16].
Lemma eeprom_wait_ends base fuel n rest tr pg rb sb mac iw : (n < fuel)%nat -> exists tr',
  eeprom_wait base fuel (mkcard (mkbus (replicate n 0 ++ 16 :: rest) tr) pg rb sb mac iw)
    = Ret (tt, mkcard (mkbus rest tr') pg rb sb mac iw).
Proof.
  revert fuel tr. induction n as [|n IH]; intros [|fuel] tr Hf; try lia; [eexists; reflexivity|].
  destruct (IH fuel (tr ++ [In (base + 20) 0])) as [tr' He]; [lia|]. exists tr'. rewrite <-He. reflexivity.
Qed.
Lemma read_eeprom_word base fuel addr n w rest tr pg rb sb mac iw : 0 <= w < 2 ^ 16 -> (n < fuel)%nat -> exists tr',
  i8254_read_eeprom base fuel addr (mkcard (mkbus (eeprom n w ++ rest) tr) pg rb sb mac iw)
    = Ret (w, mkcard (mkbus rest tr') pg rb sb mac iw).
Proof.
  intros Hw Hf. unfold i8254_read_eeprom, eeprom. erewrite bind_step by reflexivity. cbn [cbus traffic answers pages recv_ring send_ring cmac intr_word].
  rewrite <-app_assoc. cbn [app].
  match goal with |- context [mkbus _ ?t] => destruct (eeprom_wait_ends base fuel n (w * 2 ^ 16 + 16 :: rest) t pg rb sb mac iw Hf) as [tr' He] end.
  eexists. erewrite bind_step by exact He.
  assert (E : Z.land (Z.shiftr (u32 (w * 2 ^ 16 + 16)) 16) 65535 = w).
  { rewrite u32_small by lia. rewrite Z.shiftr_div_pow2 by lia. replace (w * 2 ^ 16 + 16) with (16 + w * 2 ^ 16) by lia.
    rewrite Z.div_add by lia. change (16 / 2 ^ 16) with 0. change 65535 with (Z.ones 16). apply land_mask; lia. }
  rewrite <-E at 2. reflexivity.
Qed.

(** Half of the descriptors of the receive ring get a buffer, each half a page behind
    that of the one before it; the other half gets none. *)
Definition blank : i8254_recv_desc := mkrecv 0 0 0 0 0 0 0.
Lemma recv_ring_half_filled b ps rest tx mac iw : ps = (fun i => 0x80400000 + 0x1000 * i) <$> seqZ 0 128 ->
  match give_bufs put_recv 128 0 (mkcard b (ps ++ rest) (replicate 256 blank) tx mac iw) with
  | Ret (_, c) => r_buf_addr <$> recv_ring c
      = ((fun i => 0x400000 + 0x1000 * i) <$> seqZ 0 128) ++ [0x400000 + 0x1000 * 127 + 0x800] ++ replicate 127 0
  | _ => False
  end.
Proof. intros ->. vm_compute. reflexivity. Qed.
(** The receive loop, caught up with the card at the start of the ring, steps back to a
    descriptor far outside it, and takes that for the next packet. *)
Lemma recv_ring_underflow : recv_turn (mkring 0 0) = (None, mkring 0 (2 ^ 32 - 1)) /\ fst (recv_turn (mkring 0 (2 ^ 32 - 1))) = Some (2 ^ 32 - 1).
Proof. split; reflexivity. Qed.
(** Clearing three bits of the control register this way clears none. *)
Lemma ctrl_mask_is_all v : Z.land v (Z.lor (Z.lor (Z.lnot I8254_CTRL_PHY_RST) (Z.lnot I8254_CTRL_VME)) (Z.lnot I8254_CTRL_ILOS)) = v.
Proof. change (Z.lor (Z.lor (Z.lnot I8254_CTRL_PHY_RST) (Z.lnot I8254_CTRL_VME)) (Z.lnot I8254_CTRL_ILOS)) with (-1). apply Z.land_m1_r. Qed.
