(* ===== verification/FontBin.v ===== *)
(** * The font

    The glyphs of [src/xv6/font_bin.h], thirty rows of fifteen pixels for every printable
    character from the space on; the table is cut into four of its parts. *)

From S2P Require Import Prelude.
Local Open Scope Z_scope.

Definition font_bin0 : list (list Z) := [
  [0x0; 0x0; 0x0; 0x0; 0x0; 0x0; 0x0; 0x0; 0x0; 0x0;
   0x0; 0x0; 0x0; 0x0; 0x0; 0x0; 0x0; 0x0; 0x0; 0x0;
   0x0; 0x0; 0x0; 0x0; 0x0; 0x0; 0x0; 0x0; 0x0; 0x0];
  [0x0; 0x1C0; 0x1C0; 0x1C0; 0x1C0; 0x1C0; 0x1C0; 0x1C0; 0x1C0; 0x1C0;
   0x1C0; 0x180; 0x180; 0x180; 0x180; 0x180; 0x0; 0x0; 0x0; 0x1C0;
   0x3C0; 0x3C0; 0x1C0; 0x0; 0x0; 0x0; 0x0; 0x0; 0x0; 0x0];
  [0xC38; 0x1E38; 0x1E38; 0xE38; 0xE38; 0xC38; 0xC38; 0xC38; 0xC30; 0xC10;
   0x0; 0x0; 0x0; 0x0; 0x0; 0x0; 0x0; 0x0; 0x0; 0x0;
   0x0; 0x0; 0x0; 0x0; 0x0; 0x0; 0x0; 0x0; 0x0; 0x0];
  [0x0; 0x0; 0x318; 0x318; 0x318; 0x210; 0x630; 0x738; 0x3FFE; 0x3FFE;
   0x630; 0x630; 0x630; 0x630; 0x3FFC; 0x3FFC; 0x3FFC; 0xC60; 0xC60; 0xC60;
   0xC60; 0xC60; 0x18C0; 0x0; 0x0; 0x0; 0x0; 0x0; 0x0; 0x0];
  [0x180; 0x180; 0x3E0; 0x7F0; 0xFF8; 0xE18; 0x1C00; 0x1C00; 0x1E00; 0xF00;
   0xF80; 0x7C0; 0x3F0; 0x1F8; 0x78; 0x3C; 0x1C; 0x1C; 0x1C; 0x183C;
   0x1FF8; 0x1FF0; 0x7E0; 0x180; 0x180; 0x180; 0x80; 0x0; 0x0; 0x0];
  [0x0; 0x0; 0x1E00; 0x3F04; 0x330E; 0x730C; 0x6318; 0x6338; 0x6330; 0x3320;
   0x3700; 0x1E00; 0x800; 0x3C; 0x7C; 0x6C6; 0xCC6; 0x1CC6; 0x18C6; 0x38C6;
   0x30C6; 0x7C; 0x3C; 0x0; 0x0; 0x0; 0x0; 0x0; 0x0; 0x0];
  [0x0; 0x380; 0x7C0; 0xFE0; 0xC60; 0xC60; 0xC60; 0xC60; 0xEE0; 0xFC0;
   0xF80; 0x70E; 0xF0E; 0x1F8E; 0x1F8C; 0x39DC; 0x39FC; 0x38F8; 0x3878; 0x387C;
   0x3CFE; 0x1FFE; 0xFC4; 0x0; 0x0; 0x0; 0x0; 0x0; 0x0; 0x0];
  [0x1C0; 0x1C0; 0x1C0; 0x1C0; 0x1C0; 0x1C0; 0x1C0; 0x180; 0x180; 0x80;
   0x0; 0x0; 0x0; 0x0; 0x0; 0x0; 0x0; 0x0; 0x0; 0x0;
   0x0; 0x0; 0x0; 0x0; 0x0; 0x0; 0x0; 0x0; 0x0; 0x0];
  [0x38; 0x70; 0xE0; 0x1E0; 0x1C0; 0x380; 0x380; 0x380; 0x700; 0x700;
   0x700; 0x700; 0x700; 0x700; 0x700; 0x700; 0x700; 0x700; 0x700; 0x300;
   0x380; 0x380; 0x180; 0x1C0; 0xE0; 0xE0; 0x70; 0x38; 0x0; 0x0];
  [0xE00; 0xF00; 0x700; 0x380; 0x1C0; 0x1C0; 0xC0; 0xE0; 0xE0; 0xE0;
   0x60; 0x70; 0x70; 0x70; 0x70; 0x70; 0x70; 0x60; 0xE0; 0xE0;
   0xE0; 0xC0; 0x1C0; 0x380; 0x380; 0x700; 0xE00; 0xE00; 0x0; 0x0];
  [0x180; 0x180; 0x180; 0x1FF8; 0xFF8; 0x3E0; 0x3E0; 0x760; 0x630; 0x420;
   0x0; 0x0; 0x0; 0x0; 0x0; 0x0; 0x0; 0x0; 0x0; 0x0;
   0x0; 0x0; 0x0; 0x0; 0x0; 0x0; 0x0; 0x0; 0x0; 0x0];
  [0x0; 0x0; 0x0; 0x0; 0x0; 0x180; 0x180; 0x180; 0x180; 0x180;
   0x180; 0x3FFE; 0x3FFE; 0x1C0; 0x180; 0x180; 0x180; 0x180; 0x180; 0x180;
   0x0; 0x0; 0x0; 0x0; 0x0; 0x0; 0x0; 0x0; 0x0; 0x0];
  [0x0; 0x0; 0x0; 0x0; 0x0; 0x0; 0x0; 0x0; 0x0; 0x0;
   0x0; 0x0; 0x0; 0x0; 0x0; 0x0; 0x0; 0x0; 0x0; 0x3C0;
   0x3E0; 0x3E0; 0x1E0; 0x60; 0xC0; 0xC0; 0x380; 0x300; 0x200; 0x0];
  [0x0; 0x0; 0x0; 0x0; 0x0; 0x0; 0x0; 0x0; 0x0; 0x0;
   0x0; 0x0; 0x0; 0xFF0; 0xFF0; 0xFF0; 0x0; 0x0; 0x0; 0x0;
   0x0; 0x0; 0x0; 0x0; 0x0; 0x0; 0x0; 0x0; 0x0; 0x0];
  [0x0; 0x0; 0x0; 0x0; 0x0; 0x0; 0x0; 0x0; 0x0; 0x0;
   0x0; 0x0; 0x0; 0x0; 0x0; 0x0; 0x0; 0x0; 0x0; 0x1C0;
   0x3C0; 0x3C0; 0x1C0; 0x0; 0x0; 0x0; 0x0; 0x0; 0x0; 0x0];
  [0xC; 0xC; 0x1C; 0x18; 0x18; 0x30; 0x30; 0x30; 0x60; 0x60;
   0xE0; 0xC0; 0xC0; 0x180; 0x180; 0x180; 0x300; 0x300; 0x300; 0x600;
   0x600; 0xE00; 0xC00; 0xC00; 0x1800; 0x1800; 0x1800; 0x3000; 0x0; 0x0];
  [0x0; 0x0; 0x3E0; 0x7F0; 0xFF0; 0xE38; 0x1C38; 0x1C1C; 0x1C1C; 0x1C1C;
   0x3C1C; 0x3C1C; 0x3C1C; 0x3C1C; 0x1C1C; 0x1C1C; 0x1C1C; 0x1C1C; 0x1C38; 0xE38;
   0xF78; 0x7F0; 0x3E0; 0x0; 0x0; 0x0; 0x0; 0x0; 0x0; 0x0];
  [0x0; 0x0; 0x1C0; 0x7C0; 0xFC0; 0xFC0; 0x1C0; 0x1C0; 0x1C0; 0x1C0;
   0x1C0; 0x1C0; 0x1C0; 0x1C0; 0x1C0; 0x1C0; 0x1C0; 0x1C0; 0x1C0; 0x1C0;
   0x1FFC; 0x1FFC; 0x1FFC; 0x0; 0x0; 0x0; 0x0; 0x0; 0x0; 0x0];
  [0x0; 0x0; 0x7E0; 0x1FF0; 0x3FF0; 0x1838; 0x38; 0x38; 0x38; 0x38;
   0x38; 0x78; 0x70; 0xF0; 0xE0; 0x1C0; 0x3C0; 0x780; 0x700; 0xE00;
   0x1FFC; 0x3FFC; 0x3FFC; 0x0; 0x0; 0x0; 0x0; 0x0; 0x0; 0x0];
  [0x0; 0x0; 0x7E0; 0x1FF0; 0x1FF8; 0x1838; 0x38; 0x38; 0x38; 0x38;
   0xF0; 0x3E0; 0x3E0; 0x3F0; 0x78; 0x38; 0x1C; 0x1C; 0x1C; 0x1838;
   0x3EF8; 0x1FF0; 0xFE0; 0x0; 0x0; 0x0; 0x0; 0x0; 0x0; 0x0];
  [0x0; 0x0; 0xF0; 0xF0; 0x1F0; 0x1F0; 0x3F0; 0x370; 0x770; 0x670;
   0xE70; 0xC70; 0x1C70; 0x1870; 0x3878; 0x3FFC; 0x3FFC; 0x78; 0x70; 0x70;
   0x70; 0x70; 0x70; 0x0; 0x0; 0x0; 0x0; 0x0; 0x0; 0x0];
  [0x0; 0x0; 0xFF8; 0xFF8; 0xFF8; 0xE00; 0xE00; 0xE00; 0xC00; 0xC00;
   0xFE0; 0x1FF0; 0xC78; 0x38; 0x3C; 0x1C; 0x1C; 0x1C; 0x3C; 0x1038;
   0x3EF8; 0x1FF0; 0xFE0; 0x0; 0x0; 0x0; 0x0; 0x0; 0x0; 0x0];
  [0x0; 0x0; 0x1F0; 0x7F8; 0x7F8; 0xE08; 0x1E00; 0x1C00; 0x1C00; 0x1C00;
   0x1CE0; 0x1FF0; 0x1FF8; 0x1E3C; 0x1C1C; 0x1C1C; 0x1C1C; 0x1C1C; 0x1C1C; 0xE1C;
   0xF78; 0x7F0; 0x3E0; 0x0; 0x0; 0x0; 0x0; 0x0; 0x0; 0x0];
  [0x0; 0x0; 0x1FFC; 0x1FFC; 0x1FFC; 0x38; 0x38; 0x70; 0x70; 0xE0;
   0xE0; 0xE0; 0x1C0; 0x1C0; 0x1C0; 0x1C0; 0x3C0; 0x380; 0x380; 0x380;
   0x380; 0x380; 0x380; 0x0; 0x0; 0x0; 0x0; 0x0; 0x0; 0x0];
  [0x0; 0x0; 0x7E0; 0xFF0; 0xE78; 0x1C38; 0x1C18; 0x1C18; 0x1C18; 0x1E38;
   0xF30; 0x7F0; 0x7E0; 0xFF0; 0x1C78; 0x1C3C; 0x381C; 0x381C; 0x381C; 0x1C1C;
   0x1E3C; 0xFF8; 0x7F0; 0x0; 0x0; 0x0; 0x0; 0x0; 0x0; 0x0]].
Definition font_bin1 : list (list Z) := [
  [0x0; 0x0; 0x7C0; 0xFE0; 0x1E70; 0x1C38; 0x1C38; 0x381C; 0x381C; 0x381C;
   0x1C1C; 0x1C3C; 0x1FFC; 0xFFC; 0x79C; 0x1C; 0x1C; 0x38; 0x38; 0x878;
   0x1CF0; 0x1FE0; 0xFC0; 0x0; 0x0; 0x0; 0x0; 0x0; 0x0; 0x0];
  [0x0; 0x0; 0x0; 0x0; 0x0; 0x0; 0x0; 0x180; 0x3C0; 0x3C0;
   0x3C0; 0x1C0; 0x0; 0x0; 0x0; 0x0; 0x0; 0x0; 0x0; 0x1C0;
   0x3C0; 0x3C0; 0x1C0; 0x0; 0x0; 0x0; 0x0; 0x0; 0x0; 0x0];
  [0x0; 0x0; 0x0; 0x0; 0x0; 0x0; 0x0; 0x180; 0x3C0; 0x3C0;
   0x3C0; 0x1C0; 0x0; 0x0; 0x0; 0x0; 0x0; 0x0; 0x0; 0x3C0;
   0x3E0; 0x3E0; 0x1E0; 0x60; 0xC0; 0xC0; 0x380; 0x300; 0x200; 0x0];
  [0x0; 0x0; 0x0; 0x0; 0x0; 0x0; 0x6; 0x1E; 0xFE; 0x3F0;
   0x1F80; 0x3E00; 0x3C00; 0x3F00; 0x7E0; 0x1FC; 0x3E; 0xE; 0x0; 0x0;
   0x0; 0x0; 0x0; 0x0; 0x0; 0x0; 0x0; 0x0; 0x0; 0x0];
  [0x0; 0x0; 0x0; 0x0; 0x0; 0x0; 0x0; 0x3FFC; 0x3FFE; 0x3FFE;
   0x0; 0x0; 0x0; 0x0; 0x0; 0x3FFE; 0x3FFE; 0x0; 0x0; 0x0;
   0x0; 0x0; 0x0; 0x0; 0x0; 0x0; 0x0; 0x0; 0x0; 0x0];
  [0x0; 0x0; 0x0; 0x0; 0x0; 0x0; 0x2000; 0x3C00; 0x3F00; 0xFE0;
   0x1F8; 0x3C; 0x1C; 0xFC; 0x7F0; 0x3F80; 0x3E00; 0x3000; 0x0; 0x0;
   0x0; 0x0; 0x0; 0x0; 0x0; 0x0; 0x0; 0x0; 0x0; 0x0];
  [0x0; 0x7E0; 0xFF0; 0x1E78; 0x838; 0x38; 0x38; 0x38; 0x38; 0x70;
   0xF0; 0xE0; 0x1C0; 0x1C0; 0x380; 0x380; 0x0; 0x0; 0x0; 0x3C0;
   0x3C0; 0x3C0; 0x3C0; 0x0; 0x0; 0x0; 0x0; 0x0; 0x0; 0x0];
  [0x0; 0x0; 0x1E0; 0x7F0; 0xF38; 0xC1C; 0x1C0C; 0x180C; 0x380C; 0x380C;
   0x301C; 0x307C; 0x31FC; 0x31CC; 0x338C; 0x338C; 0x338C; 0x339C; 0x31FC; 0x31E4;
   0x3800; 0x1800; 0x1800; 0x1C00; 0xE00; 0x738; 0x3F8; 0xE0; 0x0; 0x0];
  [0x0; 0x0; 0x3E0; 0x3E0; 0x7E0; 0x7E0; 0x770; 0x770; 0x670; 0xE70;
   0xE70; 0xE38; 0xE38; 0xC38; 0x1FF8; 0x1FF8; 0x1FFC; 0x1C1C; 0x381C; 0x381C;
   0x381C; 0x380E; 0x380E; 0x0; 0x0; 0x0; 0x0; 0x0; 0x0; 0x0];
  [0x0; 0x0; 0x1FE0; 0x1FF8; 0x1C78; 0x1C3C; 0x1C3C; 0x1C3C; 0x1C38; 0x1C38;
   0x1EF0; 0x1FE0; 0x1FF8; 0x1C3C; 0x1C1C; 0x1C1C; 0x1C1C; 0x1C1C; 0x1C1C; 0x1C3C;
   0x1FF8; 0x1FF0; 0x1FE0; 0x0; 0x0; 0x0; 0x0; 0x0; 0x0; 0x0];
  [0x0; 0xE0; 0x3F8; 0x7FC; 0xF9C; 0xE00; 0x1E00; 0x1C00; 0x1C00; 0x1C00;
   0x3C00; 0x3C00; 0x3C00; 0x3C00; 0x3C00; 0x1C00; 0x1C00; 0x1C00; 0x1E00; 0xF0C;
   0xFFE; 0x7FC; 0x1F8; 0x0; 0x0; 0x0; 0x0; 0x0; 0x0; 0x0];
  [0x0; 0x0; 0x1FC0; 0x1FF0; 0x1CF0; 0x1C78; 0x1C38; 0x1C3C; 0x1C1C; 0x1C1C;
   0x1C1C; 0x1C1C; 0x1C1C; 0x1C1C; 0x1C1C; 0x1C1C; 0x1C1C; 0x1C3C; 0x1C38; 0x1C78;
   0x1FF0; 0x1FE0; 0x1F80; 0x0; 0x0; 0x0; 0x0; 0x0; 0x0; 0x0];
  [0x0; 0x0; 0x1FFC; 0x1FFC; 0x1E00; 0x1E00; 0x1E00; 0x1E00; 0x1E00; 0x1E00;
   0x1FF0; 0x1FF0; 0x1FF0; 0x1E00; 0x1E00; 0x1E00; 0x1E00; 0x1E00; 0x1E00; 0x1E00;
   0x1FFC; 0x1FFC; 0x1FFC; 0x0; 0x0; 0x0; 0x0; 0x0; 0x0; 0x0];
  [0x0; 0x0; 0xFFC; 0xFFC; 0xE00; 0xE00; 0xE00; 0xE00; 0xE00; 0xE00;
   0xE00; 0xFF8; 0xFF8; 0xFF8; 0xE00; 0xE00; 0xE00; 0xE00; 0xE00; 0xE00;
   0xE00; 0xE00; 0xE00; 0x0; 0x0; 0x0; 0x0; 0x0; 0x0; 0x0];
  [0x0; 0xE0; 0x3F8; 0x7FC; 0xF1C; 0x1E08; 0x1C00; 0x1C00; 0x1C00; 0x3C00;
   0x3C00; 0x3800; 0x387C; 0x3C7C; 0x3C1C; 0x3C1C; 0x1C1C; 0x1C1C; 0x1E1C; 0xE1C;
   0xFFC; 0x7FC; 0x3F8; 0x0; 0x0; 0x0; 0x0; 0x0; 0x0; 0x0];
  [0x0; 0x0; 0x1C1C; 0x1C1C; 0x1C1C; 0x1C1C; 0x1C1C; 0x1C1C; 0x1C1C; 0x1C1C;
   0x1FFC; 0x1FFC; 0x1FFC; 0x1C1C; 0x1C1C; 0x1C1C; 0x1C1C; 0x1C1C; 0x1C1C; 0x1C1C;
   0x1C1C; 0x1C1C; 0x1C1C; 0x0; 0x0; 0x0; 0x0; 0x0; 0x0; 0x0];
  [0x0; 0x0; 0x1FFC; 0x1FFC; 0x3C0; 0x1C0; 0x1C0; 0x1C0; 0x1C0; 0x1C0;
   0x1C0; 0x1C0; 0x1C0; 0x1C0; 0x1C0; 0x1C0; 0x1C0; 0x1C0; 0x1C0; 0x1C0;
   0x1FFC; 0x1FFC; 0x1FFC; 0x0; 0x0; 0x0; 0x0; 0x0; 0x0; 0x0];
  [0x0; 0x0; 0x38; 0x38; 0x38; 0x38; 0x38; 0x38; 0x38; 0x38;
   0x38; 0x38; 0x38; 0x38; 0x38; 0x38; 0x38; 0x38; 0x38; 0x1838;
   0x1FF8; 0x1FF0; 0x7E0; 0x0; 0x0; 0x0; 0x0; 0x0; 0x0; 0x0];
  [0x0; 0x0; 0x1C1C; 0x1C3C; 0x1C38; 0x1C70; 0x1C70; 0x1CE0; 0x1CE0; 0x1DC0;
   0x1DE0; 0x1FE0; 0x1FE0; 0x1FF0; 0x1E70; 0x1E70; 0x1C38; 0x1C38; 0x1C38; 0x1C1C;
   0x1C1C; 0x1C1C; 0x1C0E; 0x0; 0x0; 0x0; 0x0; 0x0; 0x0; 0x0];
  [0x0; 0x0; 0xE00; 0xE00; 0xE00; 0xE00; 0xE00; 0xE00; 0xE00; 0xE00;
   0xE00; 0xE00; 0xE00; 0xE00; 0xE00; 0xE00; 0xE00; 0xE00; 0xE00; 0xE00;
   0xFFC; 0xFFC; 0xFFC; 0x0; 0x0; 0x0; 0x0; 0x0; 0x0; 0x0];
  [0x0; 0x0; 0x3C1C; 0x3C1C; 0x3C3C; 0x3C3C; 0x3E3C; 0x3E3C; 0x3E7C; 0x3E6C;
   0x3B6C; 0x3B4C; 0x3BCC; 0x39CC; 0x39CC; 0x398C; 0x398C; 0x380C; 0x380C; 0x380C;
   0x380C; 0x380C; 0x380C; 0x0; 0x0; 0x0; 0x0; 0x0; 0x0; 0x0];
  [0x0; 0x0; 0x1C1C; 0x1E1C; 0x1E1C; 0x1E1C; 0x1F1C; 0x1F1C; 0x1B1C; 0x1B1C;
   0x199C; 0x199C; 0x199C; 0x18DC; 0x18DC; 0x18DC; 0x18FC; 0x187C; 0x187C; 0x187C;
   0x183C; 0x183C; 0x183C; 0x0; 0x0; 0x0; 0x0; 0x0; 0x0; 0x0];
  [0x0; 0x1C0; 0x7F0; 0xFF0; 0x1E78; 0x1C38; 0x1C1C; 0x3C1C; 0x3C1C; 0x381C;
   0x381C; 0x381C; 0x381C; 0x381C; 0x381C; 0x381C; 0x3C1C; 0x1C1C; 0x1C3C; 0x1E38;
   0xFF8; 0xFF0; 0x3E0; 0x0; 0x0; 0x0; 0x0; 0x0; 0x0; 0x0];
  [0x0; 0x0; 0x1FF0; 0x1FF8; 0x1C7C; 0x1C1C; 0x1C1C; 0x1C1E; 0x1C1E; 0x1C1C;
   0x1C1C; 0x1C3C; 0x1FF8; 0x1FF0; 0x1FC0; 0x1C00; 0x1C00; 0x1C00; 0x1C00; 0x1C00;
   0x1C00; 0x1C00; 0x1C00; 0x0; 0x0; 0x0; 0x0; 0x0; 0x0; 0x0];
  [0x0; 0x1C0; 0x7F0; 0xFF0; 0x1E78; 0x1C38; 0x1C1C; 0x3C1C; 0x3C1C; 0x381C;
   0x381C; 0x381C; 0x381C; 0x381C; 0x381C; 0x381C; 0x3C1C; 0x1C1C; 0x1C3C; 0x1C38;
   0xF78; 0xFF0; 0x3E0; 0x1C0; 0x1C0; 0xF0; 0x7E; 0x3E; 0xC; 0x0]].
Definition font_bin2 : list (list Z) := [
  [0x0; 0x0; 0x1FF0; 0x1FF8; 0x1C7C; 0x1C3C; 0x1C1C; 0x1C1C; 0x1C1C; 0x1C1C;
   0x1C3C; 0x1C78; 0x1FF8; 0x1FE0; 0x1CE0; 0x1CF0; 0x1C70; 0x1C70; 0x1C38; 0x1C38;
   0x1C3C; 0x1C1C; 0x1C1E; 0x0; 0x0; 0x0; 0x0; 0x0; 0x0; 0x0];
  [0x0; 0x1C0; 0x7F0; 0xFF8; 0x1E38; 0x1C00; 0x1C00; 0x1C00; 0x1E00; 0x1F00;
   0xF80; 0x7E0; 0x3F0; 0xF8; 0x7C; 0x3C; 0x1C; 0x1C; 0x81C; 0x1C3C;
   0x3FF8; 0x1FF8; 0x7E0; 0x0; 0x0; 0x0; 0x0; 0x0; 0x0; 0x0];
  [0x0; 0x0; 0x3FFE; 0x3FFE; 0x3C0; 0x1C0; 0x1C0; 0x1C0; 0x1C0; 0x1C0;
   0x1C0; 0x1C0; 0x1C0; 0x1C0; 0x1C0; 0x1C0; 0x1C0; 0x1C0; 0x1C0; 0x1C0;
   0x1C0; 0x1C0; 0x1C0; 0x0; 0x0; 0x0; 0x0; 0x0; 0x0; 0x0];
  [0x0; 0x0; 0x1C1C; 0x1C1C; 0x1C1C; 0x1C1C; 0x1C1C; 0x1C1C; 0x1C1C; 0x1C1C;
   0x1C1C; 0x1C1C; 0x1C1C; 0x1C1C; 0x1C1C; 0x1C1C; 0x1C1C; 0x1C1C; 0x1C1C; 0x1C3C;
   0x1FF8; 0xFF8; 0x7E0; 0x0; 0x0; 0x0; 0x0; 0x0; 0x0; 0x0];
  [0x0; 0x0; 0x381E; 0x381C; 0x381C; 0x3C1C; 0x1C1C; 0x1C1C; 0x1C38; 0x1C38;
   0xE38; 0xE38; 0xE38; 0xE30; 0xE70; 0x670; 0x770; 0x760; 0x760; 0x7E0;
   0x3E0; 0x3E0; 0x3C0; 0x0; 0x0; 0x0; 0x0; 0x0; 0x0; 0x0];
  [0x0; 0x0; 0x7006; 0x7006; 0x3006; 0x300E; 0x300E; 0x31CE; 0x31CE; 0x39CE;
   0x39CC; 0x39CC; 0x3BCC; 0x3BCC; 0x3B6C; 0x1B6C; 0x1A6C; 0x1E7C; 0x1E7C; 0x1E3C;
   0x1E3C; 0x1E38; 0x1C38; 0x0; 0x0; 0x0; 0x0; 0x0; 0x0; 0x0];
  [0x0; 0x0; 0x3C1C; 0x1C1C; 0x1C38; 0xE38; 0xE38; 0xE70; 0x770; 0x7E0;
   0x3E0; 0x3E0; 0x3C0; 0x3E0; 0x7E0; 0x770; 0xE70; 0xE70; 0xE38; 0x1C38;
   0x1C3C; 0x3C1C; 0x381C; 0x0; 0x0; 0x0; 0x0; 0x0; 0x0; 0x0];
  [0x0; 0x0; 0x381E; 0x3C1C; 0x1C1C; 0x1C38; 0x1C38; 0xE38; 0xE30; 0xE70;
   0x770; 0x7E0; 0x3E0; 0x3E0; 0x3C0; 0x1C0; 0x1C0; 0x1C0; 0x1C0; 0x1C0;
   0x1C0; 0x1C0; 0x1C0; 0x0; 0x0; 0x0; 0x0; 0x0; 0x0; 0x0];
  [0x0; 0x0; 0x1FFC; 0x1FFC; 0x3C; 0x38; 0x78; 0x70; 0xF0; 0xE0;
   0x1E0; 0x1C0; 0x3C0; 0x380; 0x780; 0x700; 0x700; 0xE00; 0xE00; 0x1C00;
   0x1FFC; 0x3FFC; 0x3FFC; 0x0; 0x0; 0x0; 0x0; 0x0; 0x0; 0x0];
  [0x3F8; 0x3F8; 0x300; 0x300; 0x300; 0x300; 0x300; 0x300; 0x300; 0x300;
   0x300; 0x300; 0x300; 0x300; 0x300; 0x300; 0x300; 0x300; 0x300; 0x300;
   0x300; 0x300; 0x300; 0x300; 0x300; 0x300; 0x3F8; 0x3F8; 0x0; 0x0];
  [0x3000; 0x1800; 0x1800; 0x1800; 0xC00; 0xC00; 0xE00; 0x600; 0x600; 0x300;
   0x300; 0x300; 0x180; 0x180; 0x180; 0xC0; 0xC0; 0xE0; 0x60; 0x60;
   0x30; 0x30; 0x30; 0x18; 0x18; 0x18; 0xC; 0xC; 0x0; 0x0];
  [0xFC0; 0xFC0; 0xC0; 0xC0; 0xC0; 0xC0; 0xC0; 0xC0; 0xC0; 0xC0;
   0xC0; 0xC0; 0xC0; 0xC0; 0xC0; 0xC0; 0xC0; 0xC0; 0xC0; 0xC0;
   0xC0; 0xC0; 0xC0; 0xC0; 0xC0; 0xC0; 0xFC0; 0xFC0; 0x0; 0x0];
  [0x0; 0x1C0; 0x3C0; 0x3C0; 0x3E0; 0x760; 0x660; 0x670; 0xE30; 0xE30;
   0xC38; 0x1C18; 0x1C1C; 0x181C; 0x0; 0x0; 0x0; 0x0; 0x0; 0x0;
   0x0; 0x0; 0x0; 0x0; 0x0; 0x0; 0x0; 0x0; 0x0; 0x0];
  [0x0; 0x0; 0x0; 0x0; 0x0; 0x0; 0x0; 0x0; 0x0; 0x0;
   0x0; 0x0; 0x0; 0x0; 0x0; 0x0; 0x0; 0x0; 0x0; 0x0;
   0x0; 0x0; 0x0; 0x0; 0x0; 0x1FFC; 0x1FFC; 0x0; 0x0; 0x0];
  [0x780; 0x380; 0x180; 0x1C0; 0x0; 0x0; 0x0; 0x0; 0x0; 0x0;
   0x0; 0x0; 0x0; 0x0; 0x0; 0x0; 0x0; 0x0; 0x0; 0x0;
   0x0; 0x0; 0x0; 0x0; 0x0; 0x0; 0x0; 0x0; 0x0; 0x0];
  [0x0; 0x0; 0x0; 0x0; 0x0; 0x0; 0x0; 0x7E0; 0x1FF8; 0xE78;
   0x38; 0x3C; 0x1C; 0xFC; 0x7FC; 0xF1C; 0x1C1C; 0x1C1C; 0x1C1C; 0x1C3C;
   0x1E7C; 0x1FFC; 0xF9C; 0x0; 0x0; 0x0; 0x0; 0x0; 0x0; 0x0];
  [0x0; 0x1C00; 0x1C00; 0x1C00; 0x1C00; 0x1C00; 0x1C00; 0x1DF0; 0x1FF8; 0x1F78;
   0x1E3C; 0x1C1C; 0x1C1C; 0x1C1C; 0x1C1C; 0x1C1C; 0x1C1C; 0x1C1C; 0x1C3C; 0x1C3C;
   0x1F78; 0x1FF0; 0x19E0; 0x0; 0x0; 0x0; 0x0; 0x0; 0x0; 0x0];
  [0x0; 0x0; 0x0; 0x0; 0x0; 0x0; 0x0; 0x3F8; 0x7FC; 0xF98;
   0xE00; 0x1E00; 0x1C00; 0x1C00; 0x1C00; 0x1C00; 0x1C00; 0x1C00; 0x1E00; 0xE00;
   0xF9C; 0x7FC; 0x3F8; 0x0; 0x0; 0x0; 0x0; 0x0; 0x0; 0x0];
  [0x0; 0x3C; 0x3C; 0x3C; 0x3C; 0x3C; 0x3C; 0x7FC; 0xFFC; 0x1F7C;
   0x1E3C; 0x1C3C; 0x3C3C; 0x3C3C; 0x3C3C; 0x3C3C; 0x3C3C; 0x3C3C; 0x1C3C; 0x1C3C;
   0x1E7C; 0xFFC; 0x79C; 0x0; 0x0; 0x0; 0x0; 0x0; 0x0; 0x0];
  [0x0; 0x0; 0x0; 0x0; 0x0; 0x0; 0x0; 0x3F0; 0x7F8; 0xF38;
   0x1C1C; 0x1C1C; 0x1C1C; 0x3C1C; 0x3FFC; 0x3FFC; 0x3C00; 0x1C00; 0x1C00; 0x1E00;
   0xF18; 0x7F8; 0x3F8; 0x0; 0x0; 0x0; 0x0; 0x0; 0x0; 0x0];
  [0x38; 0xFE; 0x1FE; 0x1C0; 0x3C0; 0x380; 0x380; 0x1FFC; 0x1FFC; 0x1FF8;
   0x380; 0x380; 0x380; 0x380; 0x380; 0x380; 0x380; 0x380; 0x380; 0x380;
   0x380; 0x380; 0x380; 0x0; 0x0; 0x0; 0x0; 0x0; 0x0; 0x0];
  [0x0; 0x0; 0x0; 0x0; 0x0; 0x0; 0x0; 0x7FE; 0xFFE; 0x1E7C;
   0x1C30; 0x1C38; 0x1C38; 0x1C38; 0x1C30; 0xE70; 0xFE0; 0xD80; 0x1C00; 0x1C00;
   0x1E00; 0xFFC; 0xFFC; 0x1C1E; 0x180E; 0x380E; 0x381C; 0x1E7C; 0xFF8; 0x3C0];
  [0x0; 0x1C00; 0x1C00; 0x1C00; 0x1C00; 0x1C00; 0x1C00; 0x1CF8; 0x1FF8; 0x1FFC;
   0x1E1C; 0x1C1C; 0x1C1C; 0x1C1C; 0x1C1C; 0x1C1C; 0x1C1C; 0x1C1C; 0x1C1C; 0x1C1C;
   0x1C1C; 0x1C1C; 0x1C1C; 0x0; 0x0; 0x0; 0x0; 0x0; 0x0; 0x0];
  [0xE0; 0x1E0; 0x1E0; 0xE0; 0x0; 0x0; 0x0; 0x1FE0; 0x1FE0; 0x1FE0;
   0xE0; 0xE0; 0xE0; 0xE0; 0xE0; 0xE0; 0xE0; 0xE0; 0xE0; 0xE0;
   0xE0; 0xE0; 0xE0; 0x0; 0x0; 0x0; 0x0; 0x0; 0x0; 0x0];
  [0xE0; 0x1E0; 0x1E0; 0xE0; 0x0; 0x0; 0x0; 0x1FE0; 0x1FE0; 0x1FE0;
   0xE0; 0xE0; 0xE0; 0xE0; 0xE0; 0xE0; 0xE0; 0xE0; 0xE0; 0xE0;
   0xE0; 0xE0; 0xE0; 0xE0; 0xE0; 0xE0; 0x1BE0; 0x3FC0; 0x3F80; 0x0]].
Definition font_bin3 : list (list Z) := [
  [0x0; 0x1C00; 0x1C00; 0x1C00; 0x1C00; 0x1C00; 0x1C00; 0x1C1C; 0x1C3C; 0x1C38;
   0x1C70; 0x1CF0; 0x1CE0; 0x1DC0; 0x1FE0; 0x1FE0; 0x1FF0; 0x1E70; 0x1C38; 0x1C38;
   0x1C1C; 0x1C1C; 0x1C1E; 0x0; 0x0; 0x0; 0x0; 0x0; 0x0; 0x0];
  [0x0; 0x1F80; 0x1F80; 0x380; 0x380; 0x380; 0x380; 0x380; 0x380; 0x380;
   0x380; 0x380; 0x380; 0x380; 0x380; 0x380; 0x380; 0x380; 0x380; 0x3C0;
   0x1E8; 0x1FC; 0xFC; 0x0; 0x0; 0x0; 0x0; 0x0; 0x0; 0x0];
  [0x0; 0x0; 0x0; 0x0; 0x0; 0x0; 0x0; 0x37BC; 0x3FFC; 0x3FFE;
   0x39CE; 0x398E; 0x398E; 0x398E; 0x398E; 0x398E; 0x398E; 0x398E; 0x398E; 0x398E;
   0x398E; 0x398E; 0x398E; 0x0; 0x0; 0x0; 0x0; 0x0; 0x0; 0x0];
  [0x0; 0x0; 0x0; 0x0; 0x0; 0x0; 0x0; 0x18F8; 0x1FF8; 0x1FFC;
   0x1E1C; 0x1C1C; 0x1C1C; 0x1C1C; 0x1C1C; 0x1C1C; 0x1C1C; 0x1C1C; 0x1C1C; 0x1C1C;
   0x1C1C; 0x1C1C; 0x1C1C; 0x0; 0x0; 0x0; 0x0; 0x0; 0x0; 0x0];
  [0x0; 0x0; 0x0; 0x0; 0x0; 0x0; 0x0; 0x7E0; 0xFF0; 0x1F78;
   0x1C3C; 0x1C1C; 0x3C1C; 0x3C1C; 0x381C; 0x381C; 0x3C1C; 0x3C1C; 0x1C1C; 0x1C3C;
   0x1F78; 0xFF0; 0x7E0; 0x0; 0x0; 0x0; 0x0; 0x0; 0x0; 0x0];
  [0x0; 0x0; 0x0; 0x0; 0x0; 0x0; 0x0; 0x19F0; 0x1FF8; 0x1F78;
   0x1E3C; 0x1C1C; 0x1C1C; 0x1C1C; 0x1C1C; 0x1C1C; 0x1C1C; 0x1C1C; 0x1C3C; 0x1C3C;
   0x1F78; 0x1FF0; 0x1DE0; 0x1C00; 0x1C00; 0x1C00; 0x1C00; 0x1C00; 0x1C00; 0x0];
  [0x0; 0x0; 0x0; 0x0; 0x0; 0x0; 0x0; 0x7DC; 0xFFC; 0x1F7C;
   0x1C3C; 0x1C3C; 0x3C3C; 0x3C3C; 0x383C; 0x383C; 0x3C3C; 0x3C3C; 0x1C3C; 0x1C3C;
   0x1E7C; 0xFFC; 0x7BC; 0x3C; 0x3C; 0x3C; 0x3C; 0x3C; 0x3C; 0x0];
  [0x0; 0x0; 0x0; 0x0; 0x0; 0x0; 0x0; 0xE7C; 0xEFC; 0xFFC;
   0xF80; 0xF00; 0xF00; 0xE00; 0xE00; 0xE00; 0xE00; 0xE00; 0xE00; 0xE00;
   0xE00; 0xE00; 0xE00; 0x0; 0x0; 0x0; 0x0; 0x0; 0x0; 0x0];
  [0x0; 0x0; 0x0; 0x0; 0x0; 0x0; 0x0; 0x7F0; 0xFF8; 0x1E38;
   0x1C00; 0x1C00; 0x1E00; 0xF80; 0x7E0; 0x1F8; 0x78; 0x3C; 0x1C; 0x1C;
   0x1C3C; 0x1FF8; 0xFF0; 0x0; 0x0; 0x0; 0x0; 0x0; 0x0; 0x0];
  [0x0; 0x0; 0x0; 0x380; 0x380; 0x380; 0x380; 0x3FFC; 0x3FFC; 0x1FF8;
   0x780; 0x780; 0x780; 0x780; 0x780; 0x780; 0x780; 0x780; 0x780; 0x380;
   0x3C0; 0x3FC; 0x1FC; 0x0; 0x0; 0x0; 0x0; 0x0; 0x0; 0x0];
  [0x0; 0x0; 0x0; 0x0; 0x0; 0x0; 0x0; 0x3C3C; 0x3C3C; 0x3C3C;
   0x3C3C; 0x3C3C; 0x3C3C; 0x3C3C; 0x3C3C; 0x3C3C; 0x3C3C; 0x3C3C; 0x3C3C; 0x3C7C;
   0x1FFC; 0x1FDC; 0xF9C; 0x0; 0x0; 0x0; 0x0; 0x0; 0x0; 0x0];
  [0x0; 0x0; 0x0; 0x0; 0x0; 0x0; 0x0; 0x381E; 0x381C; 0x3C1C;
   0x1C1C; 0x1C18; 0x1C38; 0xE38; 0xE38; 0xE30; 0xE70; 0x770; 0x760; 0x7E0;
   0x3E0; 0x3E0; 0x3C0; 0x0; 0x0; 0x0; 0x0; 0x0; 0x0; 0x0];
  [0x0; 0x0; 0x0; 0x0; 0x0; 0x0; 0x0; 0x7006; 0x7186; 0x71CE;
   0x31CE; 0x31CE; 0x31CE; 0x3BCE; 0x3B4C; 0x3B4C; 0x3B6C; 0x1A7C; 0x1E7C; 0x1E7C;
   0x1E3C; 0x1E38; 0x1E38; 0x0; 0x0; 0x0; 0x0; 0x0; 0x0; 0x0];
  [0x0; 0x0; 0x0; 0x0; 0x0; 0x0; 0x0; 0x3C1C; 0x1C3C; 0x1E38;
   0xE38; 0x770; 0x7E0; 0x3E0; 0x3C0; 0x3C0; 0x7E0; 0x7F0; 0xE70; 0xE78;
   0x1C38; 0x1C3C; 0x381C; 0x0; 0x0; 0x0; 0x0; 0x0; 0x0; 0x0];
  [0x0; 0x0; 0x0; 0x0; 0x0; 0x0; 0x0; 0x381E; 0x381C; 0x1C1C;
   0x1C1C; 0x1C18; 0xE38; 0xE38; 0xE38; 0x630; 0x770; 0x770; 0x370; 0x3E0;
   0x3E0; 0x1E0; 0x1C0; 0x1C0; 0x1C0; 0x380; 0x1F80; 0x1F00; 0x1E00; 0x0];
  [0x0; 0x0; 0x0; 0x0; 0x0; 0x0; 0x0; 0xFFC; 0xFFC; 0xFF8;
   0x38; 0x70; 0xE0; 0xE0; 0x1C0; 0x3C0; 0x380; 0x700; 0xF00; 0xE00;
   0x1FFC; 0x1FFC; 0x1FFC; 0x0; 0x0; 0x0; 0x0; 0x0; 0x0; 0x0];
  [0xF8; 0x1F8; 0x1C0; 0x180; 0x180; 0x180; 0x180; 0x180; 0x180; 0x180;
   0x180; 0x180; 0x380; 0xF00; 0xF00; 0x380; 0x180; 0x180; 0x180; 0x180;
   0x180; 0x180; 0x180; 0x180; 0x180; 0x1C0; 0x1F8; 0xF8; 0x0; 0x0];
  [0x180; 0x180; 0x180; 0x180; 0x180; 0x180; 0x180; 0x180; 0x180; 0x180;
   0x180; 0x180; 0x180; 0x180; 0x180; 0x180; 0x180; 0x180; 0x180; 0x180;
   0x180; 0x180; 0x180; 0x180; 0x180; 0x180; 0x180; 0x180; 0x180; 0x180];
  [0xF00; 0xF80; 0x1C0; 0x1C0; 0x1C0; 0x1C0; 0x1C0; 0x1C0; 0x180; 0x180;
   0x180; 0x1C0; 0x1E0; 0x78; 0xF8; 0x1E0; 0x1C0; 0x180; 0x180; 0x1C0;
   0x1C0; 0x1C0; 0x1C0; 0x1C0; 0x1C0; 0x1C0; 0xF80; 0xF00; 0x0; 0x0];
  [0x0; 0x0; 0x0; 0x0; 0x0; 0x0; 0x0; 0x0; 0x0; 0x0;
   0x1F00; 0x3F86; 0x31FE; 0x20FC; 0x30; 0x0; 0x0; 0x0; 0x0; 0x0;
   0x0; 0x0; 0x0; 0x0; 0x0; 0x0; 0x0; 0x0; 0x0; 0x0]].
Definition font_bin : list (list Z) := font_bin0 ++ font_bin1 ++ font_bin2 ++ font_bin3.

(** Ninety-five glyphs of thirty rows, no row wider than fifteen pixels. *)
Lemma font_bin_shape : length font_bin = 95%nat
  /\ Forall (fun g => length g = 30%nat /\ Forall (fun r => 0 <= r < 2 ^ 15) g) font_bin.
Proof.
  split; [reflexivity|].
  assert (E : forallb (fun g => (length g =? 30)%nat && forallb (fun r => (0 <=? r) && (r <? 2 ^ 15)) g) font_bin = true) by (vm_compute; reflexivity).
  apply Forall_forall. intros g Hg. rewrite forallb_forall in E. apply list_elem_of_In, E, andb_true_iff in Hg as [H1 H2].
  apply Nat.eqb_eq in H1. split; [exact H1|]. apply Forall_forall. intros r Hr. rewrite forallb_forall in H2.
  apply list_elem_of_In, H2, andb_true_iff in Hr as [? ?]. lia.
Qed.
