(* ===== verification/Uefi.v ===== *)
(** * What the firmware leaves in memory

    Models [src/xv6/mp_uefi.c]: the loader leaves a structure at [BOOTPARAM], which
    points to the table of interrupt controllers of the firmware (MADT); [mpinit_uefi]
    walks it for the processors.  The theorem gives the format of the table as an
    encoder and says what is found in any table that has it. *)

From S2P Require Import Prelude Mem Mmu.
Local Open Scope Z_scope.

Definition BOOTPARAM : Z := 0x50000.
Definition NCPU : Z := 4.
Definition P2V_WO (x : Z) : Z := u32 (x + KERNBASE).
(** [boot_param->madt_addr] *)
Definition madt_addr (m : mem) : Z := ld32 m (P2V_WO BOOTPARAM + 8).

(** The globals: the address of the local controller, [apicid] of each of [cpus], how
    many there are, and the number of the other controller. *)
Record machine := mkmachine { lapic : Z; apicids : list Z; ncpu : Z; ioapicid : Z }.

Definition sizeof_madt : Z := 44.
(** [madt->len], [madt->lapic_addr] *)
Definition madt_len (m : mem) (madt : Z) : Z := ld32 m (madt + 4).
Definition madt_lapic (m : mem) (madt : Z) : Z := ld32 m (madt + 36).

(** The body of the switch for the entry at [e]: the machine and how far to go on. *)
Definition madt_entry (m : mem) (e : Z) (x : machine) : machine * Z :=
  let record_len := ldb m (e + 1) in
  match ldb m e with
  | 0 =>
      (if ncpu x <? NCPU
       then mkmachine (lapic x) (<[Z.to_nat (ncpu x) := ldb m (e + 3)]> (apicids x)) (ncpu x + 1) (ioapicid x)
       else x, record_len)
  | 1 => (mkmachine (lapic x) (apicids x) (ncpu x) (ldb m (e + 2)), record_len)
  | 2 | 4 => (x, record_len)
  | 5 => (x, 0xC)
  | _ => (x, 0)
  end.
Fixpoint madt_walk (fuel : nat) (m : mem) (madt i : Z) (x : machine) : outcome machine :=
  match fuel with
  | O => NoFuel
  | S f =>
      if i <? madt_len m madt then
        let '(x', n) := madt_entry m (madt + i) x in
        madt_walk f m madt (u32 (i + n)) x'
      else Ret x
  end.
Definition mpinit_uefi (fuel : nat) (m : mem) (x : machine) : outcome machine :=
  let madt := P2V_WO (madt_addr m) in
  madt_walk fuel m madt sizeof_madt (mkmachine (madt_lapic m madt) (apicids x) 0 (ioapicid x)).

(** ** The format *)

(** The entries of a table, as the specification of the firmware names them. *)
Inductive entry :=
  | Processor (processor_id lapic_id flags : Z)
  | IoController (ioapic_id addr base : Z)
  | Override (bus_src irq_src gsi flags : Z)
  | Nmi (processor_id flags lint : Z)
  | Address (addr : Z).
Definition le16 (v : Z) : list Z := [u8 v; u8 (Z.shiftr v 8)].
Definition le32 (v : Z) : list Z := [u8 v; u8 (Z.shiftr v 8); u8 (Z.shiftr v 16); u8 (Z.shiftr v 24)].
Definition encode (e : entry) : list Z :=
  match e with
  | Processor p l f => [0; 8; u8 p; u8 l] ++ le32 f
  | IoController i a b => [1; 12; u8 i; 0] ++ le32 a ++ le32 b
  | Override b i g f => [2; 10; u8 b; u8 i] ++ le32 g ++ le16 f
  | Nmi p f l => [4; 6; u8 p] ++ le16 f ++ [u8 l]
  | Address a => [5; 12; 0; 0] ++ le32 a ++ [0; 0; 0; 0]
  end.
Definition table (es : list entry) : list Z := concat (encode <$> es).
Definition at_mem (m : mem) (a : Z) (l : list Z) : Prop := forall i b, l !! i = Some b -> ldb m (a + Z.of_nat i) = b.

(** The processors of a table, and the last of its other controllers. *)
Definition processors (es : list entry) : list Z := omap (fun e => match e with Processor _ l _ => Some (u8 l) | _ => None end) es.
Definition io_controller (old : Z) (es : list entry) : Z :=
  fold_left (fun v e => match e with IoController i _ _ => u8 i | _ => v end) es old.
(** The machine [x] with the processors [ps] behind those it has, as many as fit. *)
Definition with_processors (ps : list Z) (io : Z) (x : machine) : machine :=
  let new := take (Z.to_nat (NCPU - ncpu x)) ps in
  mkmachine (lapic x) (take (Z.to_nat (ncpu x)) (apicids x) ++ new ++ drop (Z.to_nat (ncpu x) + length new) (apicids x))
    (ncpu x + Z.of_nat (length new)) io.

Lemma at_mem_app m a l l' : at_mem m a (l ++ l') -> at_mem m a l /\ at_mem m (a + Z.of_nat (length l)) l'.
Proof.
  intros H. split; intros i b Hi.
  - apply H. by apply lookup_app_l_Some.
  - rewrite <-(H (length l + i)%nat b); [f_equal; lia|]. rewrite lookup_app_r by lia. by replace (length l + i - length l)%nat with i by lia.
Qed.
Lemma with_processors_nil io x : 0 <= ncpu x -> with_processors [] io x = mkmachine (lapic x) (apicids x) (ncpu x) io.
Proof.
  intros H. unfold with_processors. rewrite take_nil. cbn [length app]. rewrite Nat.add_0_r, take_drop.
  by rewrite Z.add_0_r.
Qed.
Lemma with_processors_cons p ps io x : 0 <= ncpu x -> length (apicids x) = Z.to_nat NCPU ->
  with_processors (p :: ps) io x = with_processors ps io
    (if ncpu x <? NCPU then mkmachine (lapic x) (<[Z.to_nat (ncpu x) := p]> (apicids x)) (ncpu x + 1) (ioapicid x) else x).
Proof.
  intros H Hl. destruct (ncpu x <? NCPU) eqn:E; zbool; unfold with_processors; cbn [lapic apicids ncpu].
  - replace (Z.to_nat (NCPU - ncpu x)) with (S (Z.to_nat (NCPU - (ncpu x + 1)))) by lia.
    replace (Z.to_nat (ncpu x + 1)) with (S (Z.to_nat (ncpu x))) by lia. cbn [take firstn length].
    assert (Hn : (Z.to_nat (ncpu x) < length (apicids x))%nat) by lia.
    rewrite (take_S_r _ _ p) by by apply list_lookup_insert_eq. rewrite take_insert_ge by lia. rewrite drop_insert_lt by lia.
    rewrite <-!app_assoc. cbn [app]. f_equal; [|lia]. do 3 f_equal. f_equal. lia.
  - replace (Z.to_nat (NCPU - ncpu x)) with 0%nat by lia. reflexivity.
Qed.

Lemma length_encode e : (6 <= length (encode e))%nat /\ (length (encode e) <= 12)%nat.
Proof. destruct e; cbn; lia. Qed.
(** One turn of the walk at an entry of the format. *)
Lemma madt_entry_ok m a e x : at_mem m a (encode e) -> madt_entry m a x =
  (match e with
   | Processor _ l _ =>
       if ncpu x <? NCPU then mkmachine (lapic x) (<[Z.to_nat (ncpu x) := u8 l]> (apicids x)) (ncpu x + 1) (ioapicid x) else x
   | IoController i _ _ => mkmachine (lapic x) (apicids x) (ncpu x) (u8 i)
   | _ => x
   end, Z.of_nat (length (encode e))).
Proof.
  intros H. assert (H0 := H 0%nat). assert (H1 := H 1%nat). assert (H2 := H 2%nat). assert (H3 := H 3%nat).
  rewrite Z.add_0_r in H0. change (Z.of_nat 1) with 1 in H1. change (Z.of_nat 2) with 2 in H2. change (Z.of_nat 3) with 3 in H3. unfold madt_entry.
  destruct e; cbn in H0, H1, H2, H3; rewrite (H0 _ eq_refl); cbv beta iota zeta; rewrite ?(H1 _ eq_refl), ?(H2 _ eq_refl), ?(H3 _ eq_refl); reflexivity.
Qed.
Lemma madt_walk_ok m madt es : forall fuel i x, (length es < fuel)%nat -> at_mem m (madt + i) (table es) ->
  0 <= i -> madt_len m madt = i + Z.of_nat (length (table es)) ->
  0 <= ncpu x -> length (apicids x) = Z.to_nat NCPU ->
  madt_walk fuel m madt i x = Ret (with_processors (processors es) (io_controller (ioapicid x) es) x).
Proof.
  induction es as [|e es IH]; intros [|fuel] i x Hf Hm Hi Hlen Hn Hl; cbn [length] in Hf; try lia; cbn [madt_walk].
  - cbn in Hlen. assert (E : i <? madt_len m madt = false) by (apply Z.ltb_ge; lia). rewrite E.
    cbn. rewrite with_processors_nil by lia. by destruct x.
  - assert (T : table (e :: es) = encode e ++ table es) by reflexivity. rewrite T in Hm, Hlen. rewrite length_app in Hlen.
    apply at_mem_app in Hm as [He Hes]. pose proof (length_encode e). pose proof (ld32_range m (madt + 4)).
    assert (E : i <? madt_len m madt = true) by (apply Z.ltb_lt; lia). rewrite E, (madt_entry_ok _ _ e) by exact He.
    rewrite u32_small by (unfold madt_len in Hlen; lia). rewrite <-Z.add_assoc in Hes.
    destruct e; (rewrite IH by (try lia; try exact Hes; first [reflexivity|lia|case_if; cbn [ncpu apicids]; rewrite ?length_insert; lia|cbn [ncpu apicids]; lia])); try reflexivity.
    + change (processors (Processor processor_id lapic_id flags :: es)) with (u8 lapic_id :: processors es).
      rewrite (with_processors_cons (u8 lapic_id)) by lia. by case_if.
Qed.

(** What the processor table of the firmware says is what the kernel finds: for any
    table of entries the kernel knows, wherever it is in memory, the walk ends, the
    processors are those of the table in its order, as many as [cpus] has room for, the
    controller of the devices is the last the table names, and the local controller is
    where the table says. *)
Theorem mpinit_finds_processors m es x fuel : let madt := P2V_WO (madt_addr m) in
  at_mem m (madt + sizeof_madt) (table es) -> madt_len m madt = sizeof_madt + Z.of_nat (length (table es)) ->
  length (apicids x) = Z.to_nat NCPU -> (length es < fuel)%nat ->
  exists x', mpinit_uefi fuel m x = Ret x' /\ lapic x' = madt_lapic m madt
    /\ ncpu x' = Z.min NCPU (Z.of_nat (length (processors es)))
    /\ take (Z.to_nat (ncpu x')) (apicids x') = take (Z.to_nat NCPU) (processors es)
    /\ ioapicid x' = io_controller (ioapicid x) es.
Proof.
  intros madt Hm Hlen Hl Hf. eexists. split; [apply (madt_walk_ok m madt es); try done; lia|].
  unfold with_processors. cbn [lapic apicids ncpu ioapicid]. split; [done|]. rewrite length_take. unfold NCPU. split; [lia|]. split; [|done].
  change (take (Z.to_nat 0) (apicids x)) with (@nil Z). cbn [app].
  rewrite take_app_le by (rewrite length_take; lia). apply take_ge. rewrite length_take, Z.sub_0_r. lia.
Qed.
Definition demo_madt : mem :=
  let put := fix put (m : mem) (a : Z) (l : list Z) := match l with [] => m | b :: l => put (stb m a b) (a + 1) l end in
  put (st32 (st32 (st32 ∅ (P2V_WO BOOTPARAM + 8) 0x60000) (P2V_WO 0x60000 + 4) (44 + 8 + 8 + 12)) (P2V_WO 0x60000 + 36) 0xFEE00000)
    (P2V_WO 0x60000 + 44) (table [Processor 0 0 1; Processor 1 4 1; IoController 2 0xFEC00000 0]).
Lemma mpinit_finds_processors_witness : exists x', mpinit_uefi 4 demo_madt (mkmachine 0 (replicate 4 0) 0 0) = Ret x' /\ ncpu x' = 2 /\ ioapicid x' = 2.
Proof.
  destruct (mpinit_finds_processors demo_madt [Processor 0 0 1; Processor 1 4 1; IoController 2 0xFEC00000 0] (mkmachine 0 (replicate 4 0) 0 0) 4)
    as (x' & He & _ & Hn & _ & Hi).
  - intros i b Hi. do 28 (destruct i as [|i]; [injection Hi as <-; vm_compute; reflexivity|]). discriminate Hi.
  - vm_compute. reflexivity.
  - reflexivity.
  - cbn. lia.
  - exists x'. split; [exact He|]. split; [exact Hn|exact Hi].
Defined.

(** An entry of any other kind stops the walk where it is, for ever. *)
Lemma unknown_entry_loops fuel : forall m madt i x, 0 <= i < madt_len m madt -> ldb m (madt + i) = 9 -> madt_walk fuel m madt i x = NoFuel.
Proof.
  induction fuel as [|fuel IH]; intros m madt i x Hi Hk; [reflexivity|]. cbn [madt_walk].
  destruct (Z.ltb_spec i (madt_len m madt)); [|lia]. unfold madt_entry. rewrite Hk. cbv beta iota zeta.
  rewrite Z.add_0_r, u32_small by (pose proof (ld32_range m (madt + 4)); unfold madt_len in *; lia). by apply IH.
Qed.
