(* ===== verification/Graphic.v ===== *)
(** * The frame buffer

    Models [src/xv6/graphic.c] and [src/xv6/font.c]: characters of the console are drawn
    into a frame buffer in memory, fifteen pixels wide and thirty high.  [Console.v] keeps
    what the console draws as events; here they are carried out.

    Drawing is exact: a glyph sets its own pixels and no others, and scrolling moves the
    picture.  So the frame buffer is at any time the picture of a grid of characters, and
    the console moves that grid as a teletype would. *)

From S2P Require Import Prelude Mem Mmu Uefi FontBin Console.
Local Open Scope Z_scope.

Record gpu := mkgpu {
  pvram_addr : Z; vvram_addr : Z; vram_size : Z; horizontal_resolution : Z; vertical_resolution : Z; pixels_per_line : Z }.
(** The five [long long] of [boot_param->graphic_config], cut to [uint]. *)
Definition graphic_config (m : mem) (k : Z) : Z := ld32 m (P2V_WO BOOTPARAM + 16 + 8 * k).
Definition graphic_init (m : mem) : gpu :=
  mkgpu (graphic_config m 0) (u32 (DEVSPACE - graphic_config m 1)) (graphic_config m 1)
    (graphic_config m 2) (graphic_config m 3) (graphic_config m 4).

Record graphic_pixel := mkpixel { blue : Z; green : Z; red : Z; black : Z }.
Definition black_pixel : graphic_pixel := mkpixel 0 0 0 0.
Definition white_pixel : graphic_pixel := mkpixel 0xFF 0xFF 0xFF 0.

Section Gpu.
Context (g : gpu).
Definition pixel_addr (x y : Z) : Z := u32 (vvram_addr g + u32 (4 * u32 (y * pixels_per_line g + x))).
Definition graphic_draw_pixel (m : mem) (x y : Z) (buffer : graphic_pixel) : mem :=
  let pixel := pixel_addr x y in
  stb (stb (stb m pixel (blue buffer)) (pixel + 1) (green buffer)) (pixel + 2) (red buffer).
Definition graphic_scroll_up (m : mem) (height : Z) : mem :=
  let addr_diff := u32 (4 * pixels_per_line g * height) in
  let m := memmove m (vvram_addr g) (u32 (vvram_addr g + addr_diff)) (u32 (vram_size g - addr_diff)) in
  memset m (u32 (vvram_addr g + vram_size g - addr_diff)) 0 addr_diff.

(** The inner loop of [font_render], [n] pixels still to draw of the row [w]. *)
Fixpoint render_row (m : mem) (x y w : Z) (n : nat) : mem :=
  match n with
  | O => m
  | S n' =>
      let j := Z.of_nat n' in
      let bin := Z.land w (Z.shiftl 1 j) in
      render_row (graphic_draw_pixel m (x + (14 - j)) y (if bin =? Z.shiftl 1 j then white_pixel else black_pixel)) x y w n'
  end.
Fixpoint render_rows (m : mem) (x y : Z) (rows : list Z) : mem :=
  match rows with
  | [] => m
  | w :: rows => render_rows (render_row m x y w 15) x (y + 1) rows
  end.
(** [font_bin[index-0x20]]; the table has no other rows. *)
Definition glyph (index : Z) : option (list Z) := if index <? 0x20 then None else font_bin !! Z.to_nat (index - 0x20).
Definition font_render (m : mem) (x y index : Z) : outcome mem :=
  match glyph index with
  | Some rows => Ret (render_rows m x y rows)
  | None => Panic "font_bin"
  end.
(** [char], which is signed, [n] of the fifty-two still to come. *)
Definition schar (b : Z) : Z := if b <? 128 then b else b - 256.
Fixpoint render_string (m : mem) (string row i : Z) (n : nat) : outcome mem :=
  match n with
  | O => Ret m
  | S n =>
      if ldb m (string + i) =? 0 then Ret m
      else
        match font_render m (i * 15 + 2) (row * 30) (schar (ldb m (string + i))) with
        | Ret m => render_string m string row (i + 1) n
        | Panic e => Panic e
        | NoFuel => NoFuel
        end
  end.
Definition font_render_string (m : mem) (string row : Z) : outcome mem := render_string m string row 0 52.

(** What the console draws, first event first. *)
Definition draw (m : mem) (e : event) : outcome mem :=
  match e with
  | EUart _ => Ret m
  | EScroll h => Ret (graphic_scroll_up m h)
  | EGlyph x y c => font_render m x y c
  end.
Fixpoint draws (m : mem) (l : list event) : outcome mem :=
  match l with
  | [] => Ret m
  | e :: l => match draw m e with Ret m => draws m l | Panic e => Panic e | NoFuel => NoFuel end
  end.
End Gpu.

(** ** What the screen shows *)


(** A frame buffer with room for the console, below [DEVSPACE] as [graphic_init] puts it. *)
Record frame_ok (g : gpu) : Prop := {
  fr_width : 797 <= pixels_per_line g;
  fr_height : 600 <= vertical_resolution g;
  fr_size : vram_size g = 4 * (vertical_resolution g * pixels_per_line g);
  fr_addr : vvram_addr g = DEVSPACE - vram_size g;
  fr_low : 0 <= vvram_addr g }.

Definition color (b : bool) : Z * Z * Z := if b then (255, 255, 255) else (0, 0, 0).
Definition ink (b : bool) : graphic_pixel := if b then white_pixel else black_pixel.

Section Frame.
Context (g : gpu) (Hg : frame_ok g).
Notation ppl := (pixels_per_line g).
Notation vres := (vertical_resolution g).
Definition addr (x y : Z) : Z := vvram_addr g + 4 * (y * ppl + x).
Definition pixel (m : mem) (x y : Z) : Z * Z * Z := (ldb m (addr x y), ldb m (addr x y + 1), ldb m (addr x y + 2)).
Definition inside (x y : Z) : Prop := 0 <= x < ppl /\ 0 <= y < vres.

Lemma offset_range x y : inside x y -> 0 <= y * ppl + x < vres * ppl.
Proof. intros [Hx Hy]. nia. Qed.
Lemma addr_range x y : inside x y -> vvram_addr g <= addr x y /\ addr x y + 4 <= DEVSPACE.
Proof. intros H%offset_range. destruct Hg. unfold addr. lia. Qed.
Lemma addr_inj x y x' y' : inside x y -> inside x' y' -> addr x y - 4 < addr x' y' < addr x y + 4 -> x = x' /\ y = y'.
Proof.
  intros [Hx Hy] [Hx' Hy'] H. unfold addr in H. assert (E : y * ppl + x = y' * ppl + x') by lia.
  assert (y = y') as <- by nia. split; [lia|done].
Qed.
Lemma pixel_addr_eq x y : inside x y -> pixel_addr g x y = addr x y.
Proof.
  intros H. assert (R := addr_range x y H). apply offset_range in H. destruct Hg. unfold pixel_addr, addr, DEVSPACE in *.
  rewrite (u32_small (y * ppl + x)) by lia. rewrite (u32_small (4 * _)) by lia. by apply u32_small; lia.
Qed.

Lemma draw_pixel_ok m x y b x' y' : inside x y -> inside x' y' ->
  pixel (graphic_draw_pixel g m x y (ink b)) x' y' = if (x' =? x) && (y' =? y) then color b else pixel m x' y'.
Proof.
  intros H H'. unfold graphic_draw_pixel, pixel. rewrite pixel_addr_eq by done. rewrite !ldb_stb.
  assert (I := addr_inj x y x' y' H H'). destruct ((x' =? x) && (y' =? y)) eqn:E; zbool.
  - subst. repeat case_if; try lia. by destruct b.
  - repeat case_if; try reflexivity; destruct I; lia.
Qed.

Lemma land_bit w j : 0 <= j -> (Z.land w (Z.shiftl 1 j) =? Z.shiftl 1 j) = Z.testbit w j.
Proof.
  intros Hj. rewrite Z.shiftl_1_l. destruct (Z.testbit w j) eqn:E.
  - apply Z.eqb_eq. apply Z.bits_inj'. intros n Hn. rewrite Z.land_spec, Z.pow2_bits_eqb by lia.
    destruct (Z.eqb_spec j n) as [<-|]; [by rewrite E|by rewrite andb_false_r].
  - apply Z.eqb_neq. intros H. assert (B : Z.testbit (Z.land w (2 ^ j)) j = true) by (rewrite H; apply Z.pow2_bits_true; lia).
    rewrite Z.land_spec, E in B. discriminate.
Qed.

Lemma render_row_ok w x y n : forall m x' y', (n <= 15)%nat -> inside x y -> inside (x + 14) y -> inside x' y' ->
  pixel (render_row g m x y w n) x' y' =
  if (y' =? y) && (x + 15 - Z.of_nat n <=? x') && (x' <? x + 15) then color (Z.testbit w (14 - (x' - x))) else pixel m x' y'.
Proof.
  induction n as [|n IH]; intros m x' y' Hn Hx Hx14 H'; cbn [render_row].
  - by destruct ((y' =? y) && (x + 15 - Z.of_nat 0 <=? x') && (x' <? x + 15)) eqn:E; zbool; [lia|].
  - rewrite IH by (done || lia). match goal with |- context [if ?b then white_pixel else black_pixel] => change (if b then white_pixel else black_pixel) with (ink b) end.
    rewrite draw_pixel_ok, land_bit by (done || lia || (unfold inside in *; lia)).
    destruct ((x' =? x + (14 - Z.of_nat n)) && (y' =? y)) eqn:E; zbool.
    + subst. rewrite Z.eqb_refl. repeat case_if; try lia; f_equal; f_equal; lia.
    + repeat case_if; try lia; reflexivity.
Qed.
Lemma render_rows_ok x rows : forall m y x' y', inside x y -> inside (x + 14) (y + Z.of_nat (length rows) - 1) -> inside x' y' ->
  pixel (render_rows g m x y rows) x' y' =
  if (x <=? x') && (x' <? x + 15) && (y <=? y') && (y' <? y + Z.of_nat (length rows))
  then color (Z.testbit (default 0 (rows !! Z.to_nat (y' - y))) (14 - (x' - x))) else pixel m x' y'.
Proof.
  induction rows as [|w rows IH]; intros m y x' y' H1 H2 H'; cbn [render_rows length].
  - repeat case_if; try lia; reflexivity.
  - destruct rows as [|w2 rows].
    + cbn [render_rows length] in *. rewrite render_row_ok by (done || lia || (unfold inside in *; lia)).
      destruct (Z.eqb_spec y' y) as [->|]; [rewrite Z.sub_diag|]; repeat case_if; try lia; reflexivity.
    + cbn [length] in H2. rewrite IH by (done || (unfold inside in *; cbn [length]; lia)).
      rewrite render_row_ok by (done || lia || (unfold inside in *; lia)). cbn [length].
      destruct (Z.eqb_spec y' y) as [->|]; [rewrite Z.sub_diag|].
      * repeat case_if; try lia; reflexivity.
      * repeat case_if; try lia; [|reflexivity]. replace (Z.to_nat (y' - y)) with (S (Z.to_nat (y' - (y + 1)))) by lia. reflexivity.
Qed.

Lemma scroll_ok m x y : inside x y ->
  pixel (graphic_scroll_up g m 30) x y = if y + 30 <? vres then pixel m x (y + 30) else color false.
Proof.
  intros H. assert (R := addr_range x y H). apply offset_range in H as O. destruct H as [Hx Hy]. destruct Hg.
  assert (D : u32 (4 * ppl * 30) = 120 * ppl) by (unfold DEVSPACE in *; rewrite u32_small; nia).
  assert (A : u32 (vvram_addr g + 120 * ppl) = vvram_addr g + 120 * ppl) by (unfold DEVSPACE in *; apply u32_small; nia).
  assert (S : u32 (vram_size g - 120 * ppl) = vram_size g - 120 * ppl) by (unfold DEVSPACE in *; apply u32_small; nia).
  assert (B : u32 (vvram_addr g + vram_size g - 120 * ppl) = DEVSPACE - 120 * ppl) by (unfold DEVSPACE in *; rewrite u32_small; nia).
  unfold graphic_scroll_up, pixel. rewrite D, A, S, B. rewrite !ldb_memset, !ldb_memmove by nia.
  assert (Hd : addr x (y + 30) = addr x y + 120 * ppl) by (unfold addr; lia). rewrite Hd.
  destruct (Z.ltb_spec (y + 30) vres) as [Hl|Hl].
  - assert (addr x y + 4 <= DEVSPACE - 120 * ppl) by (unfold addr; nia).
    repeat case_if; try lia. f_equal; [f_equal|]; f_equal; lia.
  - assert (DEVSPACE - 120 * ppl <= addr x y) by (unfold addr; nia). repeat case_if; try lia. reflexivity.
Qed.

(** ** The grid *)

(** The picture of a grid of characters, twenty rows of fifty-three. *)
Definition picture (cells : Z -> Z -> Z) (x y : Z) : bool :=
  (2 <=? x) && (x <? 797) && (y <? 600) &&
  Z.testbit (default 0 (default [] (glyph (cells (y / 30) ((x - 2) / 15))) !! Z.to_nat (y mod 30))) (14 - (x - 2) mod 15).
Definition shows (m : mem) (cells : Z -> Z -> Z) : Prop := forall x y, inside x y -> pixel m x y = color (picture cells x y).

Definition put_cell (cells : Z -> Z -> Z) (r c ch : Z) : Z -> Z -> Z := fun r' c' => if (r' =? r) && (c' =? c) then ch else cells r' c'.
Definition up (cells : Z -> Z -> Z) : Z -> Z -> Z := fun r c => if r <? 19 then cells (r + 1) c else 32.
Definition printable (c : Z) : Prop := 32 <= c < 127.

Lemma glyph_printable c : printable c -> exists rows, glyph c = Some rows /\ length rows = 30%nat.
Proof.
  intros H. unfold printable, glyph in *. destruct (Z.ltb_spec c 32); [lia|]. destruct font_bin_shape as [Hl Hf].
  destruct (font_bin !! Z.to_nat (c - 32)) as [rows|] eqn:E; [|apply lookup_ge_None in E; lia].
  exists rows. split; [done|]. eapply Forall_lookup_1 in Hf; [|exact E]. apply Hf.
Qed.
Lemma glyph_space i : default 0 (default [] (glyph 32) !! i) = 0.
Proof. do 30 (destruct i as [|i]; [reflexivity|]). reflexivity. Qed.

Lemma shows_scroll m cells : shows m cells -> shows (graphic_scroll_up g m 30) (up cells).
Proof.
  intros H x y Hi. rewrite scroll_ok by done. destruct Hg. pose proof (Z.div_mod y 30 ltac:(lia)). pose proof (Z.mod_pos_bound y 30 ltac:(lia)). unfold picture, up.
  assert (E : (y + 30) / 30 = y / 30 + 1) by (replace (y + 30) with (y + 1 * 30) by lia; by rewrite Z.div_add by lia).
  assert (E2 : (y + 30) mod 30 = y mod 30) by (replace (y + 30) with (y + 1 * 30) by lia; by rewrite Z.mod_add by lia).
  destruct (Z.ltb_spec (y + 30) vres) as [Hl|Hl].
  - rewrite H by (unfold inside in *; lia). unfold picture. rewrite E, E2. f_equal.
    destruct (Z.ltb_spec (y / 30) 19) as [Hr|Hr].
    + assert (y < 570) by lia.
      by destruct (Z.ltb_spec (y + 30) 600), (Z.ltb_spec y 600); try lia.
    + assert (570 <= y) by lia.
      rewrite glyph_space, Z.testbit_0_l, andb_false_r. destruct (Z.ltb_spec (y + 30) 600); [lia|]. by rewrite andb_false_r.
  - f_equal. assert (570 <= y) by lia. assert (19 <= y / 30) by (apply Z.div_le_lower_bound; lia).
    destruct (Z.ltb_spec (y / 30) 19); [lia|]. by rewrite glyph_space, Z.testbit_0_l, andb_false_r.
Qed.
Lemma shows_glyph m cells r c ch : shows m cells -> printable ch -> 0 <= r < 20 -> 0 <= c < 53 ->
  exists m', font_render g m (c * 15 + 2) (r * 30) ch = Ret m' /\ shows m' (put_cell cells r c ch).
Proof.
  intros H Hc Hr Hcl. destruct (glyph_printable ch Hc) as (rows & E & El). unfold font_render. rewrite E.
  eexists. split; [reflexivity|]. destruct Hg. intros x y Hi.
  rewrite render_rows_ok by (done || (rewrite ?El; unfold inside; lia)). rewrite El. change (Z.of_nat 30) with 30.
  pose proof (Z.div_mod y 30 ltac:(lia)). pose proof (Z.mod_pos_bound y 30 ltac:(lia)).
  pose proof (Z.div_mod (x - 2) 15 ltac:(lia)). pose proof (Z.mod_pos_bound (x - 2) 15 ltac:(lia)).
  rewrite H by done. unfold picture, put_cell.
  destruct ((c * 15 + 2 <=? x) && (x <? c * 15 + 2 + 15) && (r * 30 <=? y) && (y <? r * 30 + 30)) eqn:B; zbool.
  - assert (y / 30 = r) as -> by lia. assert ((x - 2) / 15 = c) as -> by lia. rewrite !Z.eqb_refl. cbn [andb]. rewrite E. cbn [default].
    replace (y mod 30) with (y - r * 30) by lia. replace ((x - 2) mod 15) with (x - (c * 15 + 2)) by lia.
    by destruct (Z.leb_spec 2 x), (Z.ltb_spec x 797), (Z.ltb_spec y 600); try lia.
  - destruct ((y / 30 =? r) && ((x - 2) / 15 =? c)) eqn:B2; zbool; [lia|done].
Qed.

(** Nothing but the frame buffer is written. *)
Definition outside (m m' : mem) : Prop := forall a, a < vvram_addr g \/ DEVSPACE <= a -> ldb m' a = ldb m a.
Lemma outside_trans m0 m1 m2 : outside m0 m1 -> outside m1 m2 -> outside m0 m2.
Proof. intros H1 H2 a Ha. by rewrite H2, H1. Qed.
Lemma draw_pixel_outside m x y p : inside x y -> outside m (graphic_draw_pixel g m x y p).
Proof.
  intros H a Ha. assert (R := addr_range x y H). unfold graphic_draw_pixel. rewrite pixel_addr_eq by done.
  rewrite !ldb_stb_ne by lia. done.
Qed.
Lemma render_row_outside w x y n : forall m, (n <= 15)%nat -> inside x y -> inside (x + 14) y -> outside m (render_row g m x y w n).
Proof.
  induction n as [|n IH]; intros m Hn H1 H2; [done|]. cbn [render_row]. eapply outside_trans; [|apply IH; (done || lia)].
  apply draw_pixel_outside. unfold inside in *. lia.
Qed.
Lemma render_rows_outside x rows : forall m y, inside x y -> inside (x + 14) (y + Z.of_nat (length rows) - 1) -> outside m (render_rows g m x y rows).
Proof.
  induction rows as [|w rows IH]; intros m y H1 H2; [done|]. cbn [render_rows].
  destruct rows as [|w2 rows]; cbn [length] in *.
  - apply render_row_outside; [lia|done|unfold inside in *; lia].
  - apply (outside_trans _ (render_row g m x y w 15)); [apply render_row_outside; [lia|done|unfold inside in *; lia]|].
    apply IH; unfold inside in *; cbn [length]; lia.
Qed.
Lemma scroll_outside m : outside m (graphic_scroll_up g m 30).
Proof.
  intros a Ha. destruct Hg. assert (D : u32 (4 * ppl * 30) = 120 * ppl) by (unfold DEVSPACE in *; rewrite u32_small; nia).
  assert (S : u32 (vram_size g - 120 * ppl) = vram_size g - 120 * ppl) by (unfold DEVSPACE in *; apply u32_small; nia).
  assert (B : u32 (vvram_addr g + vram_size g - 120 * ppl) = DEVSPACE - 120 * ppl) by (unfold DEVSPACE in *; rewrite u32_small; nia).
  unfold graphic_scroll_up. rewrite D, S, B. rewrite ldb_memset, ldb_memmove by nia. by repeat case_if; try nia.
Qed.
Lemma glyph_outside m r c ch m' : 0 <= r < 20 -> 0 <= c < 53 -> printable ch -> font_render g m (c * 15 + 2) (r * 30) ch = Ret m' -> outside m m'.
Proof.
  intros Hr Hc (rows & E & El)%glyph_printable. unfold font_render. rewrite E. intros [= <-]. destruct Hg.
  apply render_rows_outside; unfold inside; rewrite ?El; lia.
Qed.

(** ** The teletype *)

(** What the console means to do with a character: a grid and the place of the next. *)
Record tty := mktty { cells : Z -> Z -> Z; place : Z }.
Definition tty_scroll (t : tty) : tty := if place t >=? 20 * 53 then mktty (up (cells t)) (place t - 53) else t.
Definition tty_put (t : tty) (c : Z) : tty :=
  if c =? NEWLINE then tty_scroll (mktty (cells t) (place t + (53 - place t mod 53)))
  else if c =? BACKSPACE then mktty (cells t) (Z.max 0 (place t - 1))
  else let t := tty_scroll t in mktty (put_cell (cells t) (place t / 53) (place t mod 53) c) (place t + 1).
Definition on_screen (m : mem) (s : cons) (t : tty) : Prop := shows m (cells t) /\ console_pos s = place t /\ panicked s = false.
(** The events since [s], carried out. *)
Definition drawn (m : mem) (s s' : cons) (m' : mem) : Prop := exists es, cout s' = es ++ cout s /\ draws g m (rev es) = Ret m' /\ outside m m'.

Lemma draws_app m l l' : draws g m (l ++ l') = match draws g m l with Ret m' => draws g m' l' | Panic e => Panic e | NoFuel => NoFuel end.
Proof. revert m. induction l as [|e l IH]; intros m; [done|]. cbn. by destruct (draw g m e). Qed.
Lemma drawn_refl m s : drawn m s s m.
Proof. by exists []. Qed.
Lemma drawn_trans m0 m1 m2 s0 s1 s2 : drawn m0 s0 s1 m1 -> drawn m1 s1 s2 m2 -> drawn m0 s0 s2 m2.
Proof.
  intros (e1 & E1 & D1 & O1) (e2 & E2 & D2 & O2). exists (e2 ++ e1). split; [by rewrite E2, E1, app_assoc|].
  split; [by rewrite rev_app_distr, draws_app, D1|by eapply outside_trans].
Qed.
Lemma drawn_one m s s' e m' : cout s' = e :: cout s -> draw g m e = Ret m' -> outside m m' -> drawn m s s' m'.
Proof. intros H D O. exists [e]. split; [done|]. cbn. by rewrite D. Qed.
Lemma drawn_none m s s' : cout s' = cout s -> drawn m s s' m.
Proof. intros H. by exists []. Qed.

(** The screen follows the teletype. *)
Definition follows (f : M cons unit) (m : mem) (s : cons) (t' : tty) : Prop :=
  exists s' m', f s = Ret (tt, s') /\ drawn m s s' m' /\ on_screen m' s' t'.
Lemma follows_bind f k m s t1 t2 : follows f m s t1 -> (forall m s, on_screen m s t1 -> follows k m s t2) -> follows (f ;;; k) m s t2.
Proof.
  intros (s1 & m1 & E1 & D1 & S1) H2. destruct (H2 _ _ S1) as (s2 & m2 & E2 & D2 & S2). exists s2, m2.
  split; [by rewrite (bind_step _ _ _ _ _ E1)|]. split; [by eapply drawn_trans|done].
Qed.
Lemma follows_move f m s t : on_screen m s t -> follows (move f) m s (mktty (cells t) (f (place t))).
Proof. intros (H & Hp & Hk). eexists _, m. split; [reflexivity|]. split; [by apply drawn_none|]. split; [done|]. split; [cbn; congruence|done]. Qed.
Lemma follows_uart c m s t : on_screen m s t -> follows (emit (EUart c)) m s t.
Proof. intros H. eexists _, m. split; [reflexivity|]. split; [by eapply drawn_one|done]. Qed.
Lemma follows_scroll m s t : on_screen m s t -> follows scroll_if_full m s (tty_scroll t).
Proof.
  intros (H & Hp & Hk). unfold follows, scroll_if_full, tty_scroll. mstep. rewrite Hp.
  change (CONSOLE_VERTICAL_MAX * CONSOLE_HORIZONTAL_MAX) with (20 * 53). destruct (place t >=? 20 * 53).
  - eexists _, _. split; [reflexivity|]. split; [eapply drawn_one; [done|done|apply scroll_outside]|]. split; [by apply shows_scroll|]. split; [cbn; rewrite Hp; reflexivity|done].
  - exists s, m. split; [reflexivity|]. split; [apply drawn_refl|done].
Qed.
Lemma follows_glyph c m s t : on_screen m s t -> printable c -> 0 <= place t < 20 * 53 ->
  follows (emit (EGlyph (place t mod 53 * 15 + 2) (place t / 53 * 30) c)) m s (mktty (put_cell (cells t) (place t / 53) (place t mod 53) c) (place t)).
Proof.
  intros (H & Hp & Hk) Hc Hr. assert (Hrow : 0 <= place t / 53 < 20) by (split; [apply Z.div_pos; lia|apply Z.div_lt_upper_bound; lia]).
  assert (Hcol : 0 <= place t mod 53 < 53) by (apply Z.mod_pos_bound; lia).
  destruct (shows_glyph m (cells t) (place t / 53) (place t mod 53) c) as (m' & E & H'); try done.
  eexists _, m'. split; [reflexivity|]. split; [|done]. eapply drawn_one; [done|exact E|]. by eapply glyph_outside.
Qed.

Definition shown (c : Z) : Prop := c = NEWLINE \/ c = BACKSPACE \/ printable c.
Definition in_grid (t : tty) : Prop := 0 <= place t <= 20 * 53.
Lemma tty_scroll_room t : in_grid t -> 0 <= place (tty_scroll t) < 20 * 53.
Proof. unfold in_grid, tty_scroll. intros H. case_if; cbn; lia. Qed.
Lemma tty_put_in_grid t c : in_grid t -> in_grid (tty_put t c).
Proof.
  intros H. assert (R := tty_scroll_room t H). unfold in_grid, tty_put in *. pose proof (Z.mod_pos_bound (place t) 53 ltac:(lia)).
  pose proof (Z.div_mod (place t) 53 ltac:(lia)).
  destruct (c =? NEWLINE); [|destruct (c =? BACKSPACE); cbn; lia]. unfold tty_scroll. cbn [place]. case_if; cbn; lia.
Qed.
Lemma graphic_putc_follows c m s t : on_screen m s t -> in_grid t -> shown c -> follows (graphic_putc c) m s (tty_put t c).
Proof.
  intros Hs Hg' Hc. unfold graphic_putc, tty_put. destruct (c =? NEWLINE) eqn:E1; zbool.
  - eapply follows_bind; [by apply follows_move|]. intros m1 s1 S1. exact (follows_scroll _ _ _ S1).
  - destruct (c =? BACKSPACE) eqn:E2; zbool.
    + assert (Hp : console_pos s = place t) by apply Hs. unfold follows. erewrite bind_step by reflexivity. rewrite Hp.
      unfold in_grid in Hg'. destruct (place t >? 0) eqn:E3; zbool.
      * destruct (follows_move (fun p => p - 1) m s t Hs) as (s' & m' & H). rewrite Z.max_r by lia. by exists s', m'.
      * exists s, m. split; [reflexivity|]. split; [apply drawn_refl|]. assert (place t = 0) by lia.
        split; [apply Hs|]. split; [cbn; lia|apply Hs].
    + assert (P : printable c) by (destruct Hc as [|[|]]; done).
      eapply follows_bind; [by apply follows_scroll|]. intros m1 s1 S1. assert (R := tty_scroll_room t Hg').
      set (t1 := tty_scroll t) in *. assert (Hp : console_pos s1 = place t1) by apply S1.
      unfold follows. erewrite bind_step by reflexivity. rewrite Hp.
      apply (follows_bind _ _ _ _ _ _ (follows_glyph c m1 s1 t1 S1 P R)). intros m2 s2 S2. exact (follows_move (fun p => p + 1) _ _ _ S2).
Qed.
Lemma consputc_follows c m s t : on_screen m s t -> in_grid t -> shown c -> follows (consputc c) m s (tty_put t c).
Proof.
  intros Hs Hg' Hc. assert (Hk : panicked s = false) by apply Hs. unfold follows, consputc. erewrite bind_step by reflexivity. rewrite Hk.
  apply (follows_bind _ _ _ _ t).
  - destruct (c =? BACKSPACE); [|by apply follows_uart].
    eapply follows_bind; [by apply follows_uart|]. intros m1 s1 S1. eapply follows_bind; [by apply follows_uart|]. intros m2 s2 S2. by apply follows_uart.
  - intros m1 s1 S1. by apply graphic_putc_follows.
Qed.
Fixpoint consputs (l : list Z) : M cons unit := match l with [] => ret tt | c :: l => consputc c ;;; consputs l end.
Lemma consputs_follows text : forall m s t, on_screen m s t -> in_grid t -> Forall shown text ->
  follows (consputs text) m s (fold_left tty_put text t) /\ in_grid (fold_left tty_put text t).
Proof.
  induction text as [|c text IH]; intros m s t Hs Hg' Hf; cbn [consputs fold_left].
  - split; [|done]. exists s, m. split; [reflexivity|]. split; [apply drawn_refl|done].
  - apply Forall_cons in Hf as [Hc Hf]. assert (G := tty_put_in_grid t c Hg'). split.
    + apply (follows_bind _ _ _ _ (tty_put t c)); [by apply consputc_follows|]. intros m1 s1 S1. by apply IH.
    + destruct (consputc_follows c m s t Hs Hg' Hc) as (s1 & m1 & _ & _ & S1). by apply (IH m1 s1).
Qed.

End Frame.

(** The frame buffer of a machine with 800 by 600 pixels, black, and the console at the start. *)
Definition demo_gpu : gpu := mkgpu 0xC0000000 (DEVSPACE - 1920000) 1920000 800 600 800.
Definition demo_cons : cons := mkcons (replicate 128 0) 0 0 0 1060 false [] 0.
Lemma demo_frame : frame_ok demo_gpu.
Proof. split; cbn; unfold DEVSPACE; lia. Qed.
Lemma demo_black : shows demo_gpu ∅ (fun _ _ => 32).
Proof.
  intros x y _. unfold picture. rewrite glyph_space, Z.testbit_0_l, andb_false_r. unfold pixel, ldb. rewrite !lookup_empty. reflexivity.
Qed.
Lemma demo_screen : on_screen demo_gpu ∅ demo_cons (mktty (fun _ _ => 32) 1060).
Proof. split; [exact demo_black|]. split; reflexivity. Qed.
Lemma demo_text : Forall shown [104; 105; 10].
Proof. repeat constructor; unfold shown, printable, NEWLINE; lia. Qed.

(** The firmware's description of such a frame buffer makes [graphic_init] find one. *)
Lemma graphic_init_ok m : 797 <= graphic_config m 4 -> 600 <= graphic_config m 3 -> graphic_config m 1 <= DEVSPACE ->
  graphic_config m 1 = 4 * (graphic_config m 3 * graphic_config m 4) -> frame_ok (graphic_init m).
Proof.
  intros H1 H2 H3 H4. assert (0 <= graphic_config m 1) by (unfold graphic_config; apply ld32_range).
  split; cbn; try done; rewrite u32_small by (unfold DEVSPACE in *; lia); lia.
Qed.
(** A tab, or any other character without a glyph, is looked up outside the table. *)
Lemma tab_has_no_glyph g m x y : font_render g m x y 9 = Panic "font_bin" /\ font_render g m x y 0xE2 = Panic "font_bin".
Proof. split; reflexivity. Qed.
(** A backspace leaves the character it deletes on the screen. *)
Lemma backspace_leaves_glyph t : cells (tty_put t BACKSPACE) = cells t.
Proof. reflexivity. Qed.
