(* ===== verification/Ide.v ===== *)
(** * The disk driver

    Models [src/xv6/ide.c]: requests wait in a list linked through [qnext], the first of
    them is the one the disk works on, and the interrupt handler completes it and starts
    the next.  [iderw] is cut at [sleep]: [iderw_enter] queues the request, [iderw_turn]
    is a turn of the loop that waits.  The data of a buffer are its 128 words, as [insl]
    and [outsl] move them. *)

From S2P Require Import Prelude Spinlock Io Apic.
Local Open Scope Z_scope.

Definition BSIZE : Z := 512.
Definition SECTOR_SIZE : Z := 512.
Definition FSSIZE : Z := 4000.
Definition IDE_BSY : Z := 0x80.
Definition IDE_DRDY : Z := 0x40.
Definition IDE_DF : Z := 0x20.
Definition IDE_ERR : Z := 0x01.
Definition IDE_CMD_READ : Z := 0x20.
Definition IDE_CMD_WRITE : Z := 0x30.
Definition IDE_CMD_RDMUL : Z := 0xc4.
Definition IDE_CMD_WRMUL : Z := 0xc5.
Definition IRQ_IDE : Z := 14.

(** [struct buf], what the driver uses of it. *)
Record ibuf := mkibuf { i_valid : bool; i_dirty : bool; i_dev : Z; i_blockno : Z; i_data : list Z; qnext : option nat }.
(** The lock as its holder sees it, and the buffers woken, first first. *)
Record ide := mkide { idebus : bus; idelock : bool; idequeue : option nat; ibufs : nat -> ibuf; havedisk1 : bool; iwoken : list nat }.
Definition set_idebus (v : bus) (s : ide) : ide := mkide v (idelock s) (idequeue s) (ibufs s) (havedisk1 s) (iwoken s).
Definition set_idelock (v : bool) (s : ide) : ide := mkide (idebus s) v (idequeue s) (ibufs s) (havedisk1 s) (iwoken s).
Definition set_idequeue (v : option nat) (s : ide) : ide := mkide (idebus s) (idelock s) v (ibufs s) (havedisk1 s) (iwoken s).
Definition set_ibufs (v : nat -> ibuf) (s : ide) : ide := mkide (idebus s) (idelock s) (idequeue s) v (havedisk1 s) (iwoken s).
Definition set_havedisk1 (v : bool) (s : ide) : ide := mkide (idebus s) (idelock s) (idequeue s) (ibufs s) v (iwoken s).
Definition set_iwoken (v : list nat) (s : ide) : ide := mkide (idebus s) (idelock s) (idequeue s) (ibufs s) (havedisk1 s) v.
Definition on_idebus {A} (m : M bus A) : M ide A := lift idebus set_idebus m.
Definition set_qnext (v : option nat) (b : ibuf) : ibuf := mkibuf (i_valid b) (i_dirty b) (i_dev b) (i_blockno b) (i_data b) v.
Definition set_idata (v : list Z) (b : ibuf) : ibuf := mkibuf (i_valid b) (i_dirty b) (i_dev b) (i_blockno b) v (qnext b).
Definition set_done (b : ibuf) : ibuf := mkibuf true false (i_dev b) (i_blockno b) (i_data b) (qnext b).
Definition with_buf (i : nat) (f : ibuf -> ibuf) : M ide unit := modify (fun s => set_ibufs (<[i := f (ibufs s i)]> (ibufs s)) s).

Definition ide_acquire : M ide unit := fun s =>
  match lacquire (idelock s) with Ret b => Ret (tt, set_idelock b s) | Panic e => Panic e | NoFuel => NoFuel end.
Definition ide_release : M ide unit := fun s =>
  match lrelease (idelock s) with Ret b => Ret (tt, set_idelock b s) | Panic e => Panic e | NoFuel => NoFuel end.
Definition ide_wakeup (b : nat) : M ide unit := modify (fun s => set_iwoken (iwoken s ++ [b]) s).

(** [insl], [outsl] *)
Fixpoint insl (port : Z) (cnt : nat) : M bus (list Z) :=
  match cnt with O => ret [] | S n => w <- in32 port ;; l <- insl port n ;; ret (w :: l) end.
Fixpoint outsl (port : Z) (l : list Z) : M bus unit :=
  match l with [] => ret tt | w :: l => out32 port w ;;; outsl port l end.

Fixpoint idewait (fuel : nat) (checkerr : bool) : M bus Z :=
  match fuel with
  | O => nofuel
  | S f =>
      r <- inb 0x1f7 ;;
      if Z.land r (Z.lor IDE_BSY IDE_DRDY) =? IDE_DRDY then
        ret (if checkerr && negb (Z.land r (Z.lor IDE_DF IDE_ERR) =? 0) then -1 else 0)
      else idewait f checkerr
  end.

(** [for(i=0; i<1000; i++)] of [ideinit]: is there a second disk? *)
Fixpoint probe_disk1 (n : nat) : M bus bool :=
  match n with
  | O => ret false
  | S n => v <- inb 0x1f7 ;; if v =? 0 then probe_disk1 n else ret true
  end.
Definition ideinit (fuel : nat) (ncpu : Z) : M ide unit :=
  modify (set_idelock false) ;;;
  on_idebus (ioapicenable IRQ_IDE (ncpu - 1)) ;;;
  on_idebus (idewait fuel false) ;;;
  on_idebus (outb 0x1f6 (Z.lor 0xe0 (Z.shiftl 1 4))) ;;;
  h <- on_idebus (probe_disk1 1000) ;;
  (if h : bool then modify (set_havedisk1 true) else ret tt) ;;;
  on_idebus (outb 0x1f6 (Z.lor 0xe0 (Z.shiftl 0 4))).

Definition start_bus (fuel : nat) (b : ibuf) : M bus unit :=
  let sector_per_block := BSIZE / SECTOR_SIZE in
  let sector := s32 (u32 (i_blockno b * sector_per_block)) in
  let read_cmd := if sector_per_block =? 1 then IDE_CMD_READ else IDE_CMD_RDMUL in
  let write_cmd := if sector_per_block =? 1 then IDE_CMD_WRITE else IDE_CMD_WRMUL in
  if sector_per_block >? 7 then panic "idestart"
  else
    idewait fuel false ;;;
    outb 0x3f6 0 ;;;
    outb 0x1f2 sector_per_block ;;;
    outb 0x1f3 (Z.land sector 0xff) ;;;
    outb 0x1f4 (Z.land (Z.shiftr sector 8) 0xff) ;;;
    outb 0x1f5 (Z.land (Z.shiftr sector 16) 0xff) ;;;
    outb 0x1f6 (Z.lor (Z.lor 0xe0 (Z.shiftl (Z.land (i_dev b) 1) 4)) (Z.land (Z.shiftr sector 24) 0x0f)) ;;;
    if i_dirty b then outb 0x1f7 write_cmd ;;; outsl 0x1f0 (i_data b) else outb 0x1f7 read_cmd.
Definition idestart (fuel : nat) (b : option nat) : M ide unit :=
  match b with
  | None => panic "idestart"
  | Some i =>
      x <- gets (fun s => ibufs s i) ;;
      if i_blockno x >=? FSSIZE then panic "incorrect blockno" else on_idebus (start_bus fuel x)
  end.

Definition ideintr (fuel : nat) : M ide unit :=
  ide_acquire ;;;
  q <- gets idequeue ;;
  match q with
  | None => ide_release
  | Some b =>
      x <- gets (fun s => ibufs s b) ;;
      modify (set_idequeue (qnext x)) ;;;
      (if i_dirty x then ret tt
       else
         r <- on_idebus (idewait fuel true) ;;
         if r >=? 0 then l <- on_idebus (insl 0x1f0 (Z.to_nat (BSIZE / 4))) ;; with_buf b (set_idata l) else ret tt) ;;;
      with_buf b set_done ;;;
      ide_wakeup b ;;;
      q <- gets idequeue ;;
      match q with Some _ => idestart fuel q | None => ret tt end ;;;
      ide_release
  end.

(** The loop that walks [pp] to the end of the list, and the assignment behind it; [pp]
    points to the head of the list or to the [qnext] of a buffer. *)
Fixpoint ide_append (fuel : nat) (pp : option nat) (b : nat) : M ide unit :=
  match fuel with
  | O => nofuel
  | S f =>
      cur <- gets (fun s => match pp with None => idequeue s | Some x => qnext (ibufs s x) end) ;;
      match cur with
      | Some c => ide_append f (Some c) b
      | None => match pp with None => modify (set_idequeue (Some b)) | Some x => with_buf x (set_qnext (Some b)) end
      end
  end.
(** [held] is [holdingsleep(&b->lock)]. *)
Definition iderw_enter (fuel : nat) (held : bool) (b : nat) : M ide unit :=
  x <- gets (fun s => ibufs s b) ;;
  d1 <- gets havedisk1 ;;
  if negb held then panic "iderw: buf not locked"
  else if i_valid x && negb (i_dirty x) then panic "iderw: nothing to do"
  else if negb (i_dev x =? 0) && negb d1 then panic "iderw: ide disk 1 not present"
  else
    ide_acquire ;;;
    with_buf b (set_qnext None) ;;;
    ide_append fuel None b ;;;
    q <- gets idequeue ;;
    if decide (q = Some b) then idestart fuel (Some b) else ret tt.
(** Returns whether the request is finished, and the lock released; otherwise the
    process sleeps, which releases the lock too. *)
Definition iderw_turn (b : nat) : M ide bool :=
  x <- gets (fun s => ibufs s b) ;;
  ide_release ;;;
  ret (i_valid x && negb (i_dirty x)).
