(* ===== verification/IdeProps.v ===== *)
(** * The disk driver serves its requests in order

    The disk sees a command for every request, with the number of the sector and the data
    of the buffer, in the order the requests were made and one at a time; and when it
    answers, every process that waits gets its buffer. *)

From S2P Require Import Prelude Spinlock Io Apic Ide.
Local Open Scope Z_scope.

(** ** What the disk sees *)

(** A command: which disk, which sector, reading or writing, and the words to write. *)
Record command := mkcmd { c_disk : Z; c_sector : Z; c_cmd : Z; c_words : list Z }.
(** The registers of the disk, and the commands it got: a command is given by the write
    to the last register, with the sector in the four before it. *)
Record ata := mkata { r3 : Z; r4 : Z; r5 : Z; r6 : Z; cmds : list command }.
Definition add_word (w : Z) (l : list command) : list command :=
  match last l with
  | Some c => removelast l ++ [mkcmd (c_disk c) (c_sector c) (c_cmd c) (c_words c ++ [w])]
  | None => []
  end.
Definition ata_out (a : ata) (w : Z * Z) : ata :=
  let '(port, v) := w in
  if port =? 0x1f3 then mkata v (r4 a) (r5 a) (r6 a) (cmds a)
  else if port =? 0x1f4 then mkata (r3 a) v (r5 a) (r6 a) (cmds a)
  else if port =? 0x1f5 then mkata (r3 a) (r4 a) v (r6 a) (cmds a)
  else if port =? 0x1f6 then mkata (r3 a) (r4 a) (r5 a) v (cmds a)
  else if port =? 0x1f7 then
    mkata (r3 a) (r4 a) (r5 a) (r6 a)
      (cmds a ++ [mkcmd (Z.land (Z.shiftr (r6 a) 4) 1) (r3 a + 2 ^ 8 * r4 a + 2 ^ 16 * r5 a + 2 ^ 24 * Z.land (r6 a) 15) v []])
  else if port =? 0x1f0 then mkata (r3 a) (r4 a) (r5 a) (r6 a) (add_word v (cmds a))
  else a.
Definition view (b : bus) : ata := fold_left ata_out (written (traffic b)) (mkata 0 0 0 0 []).
Definition seen (b : bus) : list command := cmds (view b).
(** The command a buffer asks for. *)
Definition command_of (x : ibuf) : command :=
  mkcmd (Z.land (i_dev x) 1) (i_blockno x) (if i_dirty x then IDE_CMD_WRITE else IDE_CMD_READ) (if i_dirty x then u32 <$> i_data x else []).

Lemma view_out b p v : view (mkbus (answers b) (traffic b ++ [Out p v])) = ata_out (view b) (p, v).
Proof. unfold view. cbn [traffic]. rewrite written_app, fold_left_app. reflexivity. Qed.
Lemma view_in b l p v : view (mkbus l (traffic b ++ [In p v])) = view b.
Proof. unfold view. cbn [traffic]. by rewrite written_app, app_nil_r. Qed.

Lemma idewait_view fuel c : forall b r b', idewait fuel c b = Ret (r, b') -> view b' = view b.
Proof.
  induction fuel as [|f IH]; intros b r b' H; [discriminate|]. cbn [idewait] in H. inv_bind H.
  unfold inb, input in H0. mstep. destruct (answers b) as [|v ans]; [discriminate|]. injection H0 as <- <-.
  case_if_in H; [injection H as <- <-; apply view_in|]. apply IH in H. by rewrite H, view_in.
Qed.
Lemma insl_view n : forall b l b', insl 0x1f0 n b = Ret (l, b') -> view b' = view b.
Proof.
  induction n as [|n IH]; intros b l b' H; cbn [insl] in H; [by injection H as <- <-|]. inv_bind H. inv_bind H.
  unfold in32, input in H0. mstep. destruct (answers b) as [|v ans]; [discriminate|]. injection H0 as <- <-.
  injection H as <- <-. apply IH in H1. by rewrite H1, view_in.
Qed.
Lemma add_word_last w l c : add_word w (l ++ [c]) = l ++ [mkcmd (c_disk c) (c_sector c) (c_cmd c) (c_words c ++ [w])].
Proof. unfold add_word. by rewrite last_snoc, removelast_last. Qed.
Lemma outsl_view ws : forall b l c, cmds (view b) = l ++ [c] ->
  exists b', outsl 0x1f0 ws b = Ret (tt, b') /\ answers b' = answers b
    /\ cmds (view b') = l ++ [mkcmd (c_disk c) (c_sector c) (c_cmd c) (c_words c ++ (u32 <$> ws))].
Proof.
  induction ws as [|w ws IH]; intros b l c H; cbn [outsl].
  - exists b. split; [done|]. split; [done|]. cbn. rewrite H, app_nil_r. by destruct c.
  - erewrite bind_step by reflexivity.
    destruct (IH (mkbus (answers b) (traffic b ++ [Out 0x1f0 (u32 w)])) l (mkcmd (c_disk c) (c_sector c) (c_cmd c) (c_words c ++ [u32 w]))) as (b' & E & A & C).
    { rewrite view_out. cbn. by rewrite H, add_word_last. }
    exists b'. split; [exact E|]. split; [exact A|]. rewrite C. cbn [c_disk c_sector c_cmd c_words]. by rewrite <-app_assoc.
Qed.

Lemma lba d n : 0 <= n < FSSIZE -> 0 <= d < 2 ->
  let r := u8 (Z.lor (Z.lor 0xe0 (Z.shiftl d 4)) (Z.land (Z.shiftr n 24) 0x0f)) in
  u8 (Z.land n 0xff) + 2 ^ 8 * u8 (Z.land (Z.shiftr n 8) 0xff) + 2 ^ 16 * u8 (Z.land (Z.shiftr n 16) 0xff) + 2 ^ 24 * Z.land r 15 = n
  /\ Z.land (Z.shiftr r 4) 1 = d.
Proof.
  unfold FSSIZE. intros Hn Hd. rewrite !Z.shiftr_div_pow2 by lia. change 0xff with (Z.ones 8). rewrite !Z.land_ones by lia.
  rewrite (Z.div_small n (2 ^ 16)), (Z.div_small n (2 ^ 24)) by lia.
  assert (d = 0 \/ d = 1) as [-> | ->] by lia; cbn -[Z.modulo Z.div]; unfold u8; (split; [|reflexivity]);
    match goal with |- _ + _ + ?a + ?b = _ => change a with 0; change b with 0 end; rewrite !Z.mod_mod by lia;
    rewrite (Z.mod_small (n / 2 ^ 8)) by (split; [apply Z.div_pos; lia|apply Z.div_lt_upper_bound; lia]);
    pose proof (Z.div_mod n (2 ^ 8) ltac:(lia)); lia.
Qed.

(** Starting a request: it returns when the disk gets ready, and gives the disk the command
    of the buffer. *)
Definition startable (x : ibuf) : Prop := 0 <= i_blockno x < FSSIZE.
Lemma start_view x b : startable x -> exists b',
  (let sector := s32 (u32 (i_blockno x * (BSIZE / SECTOR_SIZE))) in
    outb 0x3f6 0 ;;;
    outb 0x1f2 (BSIZE / SECTOR_SIZE) ;;;
    outb 0x1f3 (Z.land sector 0xff) ;;;
    outb 0x1f4 (Z.land (Z.shiftr sector 8) 0xff) ;;;
    outb 0x1f5 (Z.land (Z.shiftr sector 16) 0xff) ;;;
    outb 0x1f6 (Z.lor (Z.lor 0xe0 (Z.shiftl (Z.land (i_dev x) 1) 4)) (Z.land (Z.shiftr sector 24) 0x0f)) ;;;
    if i_dirty x then outb 0x1f7 IDE_CMD_WRITE ;;; outsl 0x1f0 (i_data x) else outb 0x1f7 IDE_CMD_READ) b = Ret (tt, b')
  /\ answers b' = answers b /\ seen b' = seen b ++ [command_of x].
Proof.
  intros Hx. cbv zeta. change (BSIZE / SECTOR_SIZE) with 1. rewrite Z.mul_1_r, u32_small, s32_small by (unfold startable, FSSIZE in Hx; lia).
  assert (Hd : 0 <= Z.land (i_dev x) 1 < 2) by (change 1 with (Z.ones 1); rewrite Z.land_ones by lia; apply Z.mod_pos_bound; lia).
  destruct (lba _ _ Hx Hd) as [L D].
  rewrite !(bind_step _ _ _ _ _ (outb_eq _ _ _)). cbn [answers traffic].
  match goal with |- context [mkbus _ ?t] => set (tr := t) end.
  assert (V : forall c, 0 <= c < 256 -> cmds (view (mkbus (answers b) (tr ++ [Out 0x1f7 (u8 c)]))) = seen b ++ [mkcmd (Z.land (i_dev x) 1) (i_blockno x) c []]).
  { intros c Hc. unfold tr, view, seen, view. cbn [traffic]. rewrite !written_app, !fold_left_app. cbn. rewrite L, D. by rewrite u8_small. }
  clearbody tr. unfold command_of. destruct (i_dirty x).
  - rewrite (bind_step _ _ _ _ _ (outb_eq _ _ _)). cbn [answers traffic].
    destruct (outsl_view (i_data x) _ _ _ (V IDE_CMD_WRITE ltac:(unfold IDE_CMD_WRITE; lia))) as (b' & E & A & C).
    exists b'. split; [exact E|]. split; [exact A|]. exact C.
  - eexists. split; [apply outb_eq|]. split; [done|]. cbn [answers traffic]. apply V. unfold IDE_CMD_READ. lia.
Qed.
Lemma idewait_ready c b rest : answers b = 0x40 :: rest -> idewait 1 c b = Ret (0, mkbus rest (traffic b ++ [In 0x1f7 0x40])).
Proof. intros H. destruct b. cbn in H. subst. destruct c; reflexivity. Qed.
Lemma start_bus_returns x fuel b r b0 : startable x -> idewait fuel false b = Ret (r, b0) ->
  exists b', start_bus fuel x b = Ret (tt, b') /\ answers b' = answers b0 /\ seen b' = seen b ++ [command_of x].
Proof.
  intros Hx Hw. unfold start_bus. cbv zeta. change (BSIZE / SECTOR_SIZE >? 7) with false. cbv iota.
  rewrite (bind_step _ _ _ _ _ Hw). destruct (start_view x b0 Hx) as (b' & E & A & S). exists b'. split; [exact E|].
  split; [done|]. rewrite S. unfold seen. by rewrite (idewait_view _ _ _ _ _ Hw).
Qed.
Lemma start_bus_seen x fuel b b' : startable x -> start_bus fuel x b = Ret (tt, b') -> seen b' = seen b ++ [command_of x].
Proof.
  intros Hx H. unfold start_bus in H. cbv zeta in H. change (BSIZE / SECTOR_SIZE >? 7) with false in H. cbv iota in H.
  pose proof H as H2. inv_bind H2. destruct (start_bus_returns x fuel b _ _ Hx H0) as (b2 & E & _ & S).
  unfold start_bus in E. cbv zeta in E. change (BSIZE / SECTOR_SIZE >? 7) with false in E. cbv iota in E. congruence.
Qed.

(** ** The queue *)

(** The buffers of the list from [h]. *)
Fixpoint chain (bufs : nat -> ibuf) (h : option nat) (q : list nat) : Prop :=
  match q with
  | [] => h = None
  | b :: q => h = Some b /\ chain bufs (qnext (bufs b)) q
  end.
Definition qlink (pp : option nat) (b : nat) (s : ide) : ide :=
  match pp with None => set_idequeue (Some b) s | Some x => set_ibufs (<[x := set_qnext (Some b) (ibufs s x)]> (ibufs s)) s end.

Lemma queue_ext bufs bufs' q : forall h, (forall i, i ∈ q -> qnext (bufs' i) = qnext (bufs i)) -> chain bufs h q -> chain bufs' h q.
Proof.
  induction q as [|b q IH]; intros h H C; [done|]. destruct C as [-> C]. split; [done|]. rewrite H by set_solver.
  apply IH; [|done]. intros i Hi. apply H. set_solver.
Qed.
Lemma chain_fun bufs q : forall h q', chain bufs h q -> chain bufs h q' -> q = q'.
Proof.
  induction q as [|b q IH]; intros h [|b' q'] H H'; try done; cbn in H, H'; try (destruct H; congruence); try (destruct H'; congruence).
  destruct H as [-> H], H' as [[= <-] H']. f_equal. by eapply IH.
Qed.
Lemma ide_append_ok b q : forall fuel pp s, (length q < fuel)%nat ->
  chain (ibufs s) (match pp with None => idequeue s | Some x => qnext (ibufs s x) end) q ->
  ide_append fuel pp b s = Ret (tt, qlink (match last q with Some x => Some x | None => pp end) b s).
Proof.
  induction q as [|c q IH]; intros [|fuel] pp s Hf C; cbn [length] in Hf; try lia; cbn [ide_append].
  - erewrite bind_step by reflexivity. cbn [chain] in C. rewrite C. by destruct pp.
  - erewrite bind_step by reflexivity. destruct C as [-> C]. rewrite (IH fuel (Some c) s) by (done || lia).
    do 3 f_equal. destruct q; [done|]. by rewrite last_cons_cons; destruct (last (n :: q)) eqn:E; [|apply last_None in E].
Qed.
Lemma ide_append_ret b q : forall fuel pp s s', ide_append fuel pp b s = Ret (tt, s') ->
  chain (ibufs s) (match pp with None => idequeue s | Some x => qnext (ibufs s x) end) q -> (length q < fuel)%nat.
Proof.
  induction q as [|c q IH]; intros [|fuel] pp s s' H C; try discriminate; cbn [length ide_append] in *; [lia|].
  erewrite bind_step in H by reflexivity. destruct C as [E C]. rewrite E in H. apply IH in H; [lia|done].
Qed.
Lemma chain_snoc bufs x b q : forall h, chain bufs h (q ++ [x]) -> x ∉ q -> b ∉ q ++ [x] -> qnext (bufs b) = None ->
  chain (<[x := set_qnext (Some b) (bufs x)]> bufs) h (q ++ [x; b]).
Proof.
  induction q as [|c q IH]; intros h C Hx Hb Hn; cbn [app chain] in *.
  - destruct C as [-> C]. rewrite fn_insert_eq, fn_insert_ne by set_solver. done.
  - destruct C as [-> C]. split; [done|]. rewrite fn_insert_ne by set_solver. apply IH; set_solver.
Qed.
Lemma chain_qlink s q b : chain (ibufs s) (idequeue s) q -> NoDup q -> b ∉ q -> qnext (ibufs s b) = None ->
  chain (ibufs (qlink (last q) b s)) (idequeue (qlink (last q) b s)) (q ++ [b]).
Proof.
  intros C Hd Hb Hn. destruct q as [|x q _] using rev_ind; [done|]. rewrite last_snoc. cbn [qlink ibufs idequeue set_ibufs].
  rewrite <-app_assoc. apply NoDup_app in Hd as (_ & Hx & _). apply chain_snoc; [done|set_solver|done|done].
Qed.
Definition qclear (x : ibuf) : ibuf := set_qnext None x.
Lemma qclear_qlink pp s b i : qclear (ibufs (qlink pp b s) i) = qclear (ibufs s i).
Proof. destruct pp as [x|]; [|done]. cbn. destruct (decide (x = i)) as [->|]; [by rewrite fn_insert_eq|by rewrite fn_insert_ne]. Qed.

(** ** Requests and interrupts *)

Definition finished (x : ibuf) : bool := i_valid x && negb (i_dirty x).
(** A process that holds the lock of buffer [b] has put [x] there, calls [iderw], and
    goes to sleep. *)
Definition request (fuel : nat) (b : nat) (x : ibuf) : M ide bool :=
  modify (fun s => set_ibufs (<[b := x]> (ibufs s)) s) ;;; iderw_enter fuel true b ;;; iderw_turn b.
Definition waiting (s : ide) (b : nat) : Prop := exists q, chain (ibufs s) (idequeue s) q /\ b ∈ q.

Lemma idestart_ret fuel i s s' : idestart fuel (Some i) s = Ret (tt, s') ->
  exists b', start_bus fuel (ibufs s i) (idebus s) = Ret (tt, b') /\ s' = set_idebus b' s.
Proof.
  unfold idestart. intros H. inv_bind H. injection H0 as <- <-. case_if_in H; [discriminate|]. unfold on_idebus, lift in H.
  destruct (start_bus fuel (ibufs s i) (idebus s)) as [[[] b']| |] eqn:Eb; try discriminate. injection H as <-. by exists b'.
Qed.
Lemma request_ret fuel b x s q r s' : chain (ibufs s) (idequeue s) q -> NoDup q -> b ∉ q -> idelock s = false ->
  request fuel b x s = Ret (r, s') ->
  let s2 := qlink (last q) b (set_ibufs (<[b := qclear x]> (<[b := x]> (ibufs s))) s) in
  finished x = false /\ r = false /\ ibufs s' = ibufs s2 /\ idequeue s' = idequeue s2 /\ iwoken s' = iwoken s /\ idelock s' = false
    /\ (q = [] -> start_bus fuel (qclear x) (idebus s) = Ret (tt, idebus s')) /\ (q <> [] -> idebus s' = idebus s).
Proof.
  intros C Hd Hb Hk H. unfold request in H. erewrite bind_step in H by reflexivity. inv_bind H. rename H0 into He, H into Ht.
  unfold iderw_enter in He. do 2 (erewrite bind_step in He by reflexivity). cbn [ibufs set_ibufs] in He. rewrite fn_insert_eq in He.
  cbn [negb] in He. unfold finished. destruct (i_valid x && negb (i_dirty x)) eqn:Ef; [discriminate|].
  case_if_in He; [discriminate|]. erewrite bind_step in He by (unfold ide_acquire; cbn [idelock set_ibufs]; rewrite Hk; reflexivity).
  erewrite bind_step in He by reflexivity. inv_bind He. cbn [ibufs set_idelock set_ibufs] in H. rewrite fn_insert_eq in H.
  set (bufs := <[b := set_qnext None x]> (<[b := x]> (ibufs s))) in *. destruct a0, a.
  assert (C2 : chain bufs (idequeue s) q).
  { eapply queue_ext; [|exact C]. intros i Hi. unfold bufs. rewrite !fn_insert_ne by set_solver. done. }
  match type of H with ide_append _ _ _ ?t = _ => assert (Hf := ide_append_ret b q _ None t _ H C2); rewrite (ide_append_ok b q fuel None t Hf C2) in H end.
  injection H as <-.
  replace (match last q with Some x => Some x | None => None end) with (last q) in He by (by destruct (last q)).
  set (s1 := qlink (last q) b _) in He.
  assert (K : idelock s1 = true) by (unfold s1; by destruct (last q)). assert (W : iwoken s1 = iwoken s) by (unfold s1; by destruct (last q)).
  assert (B : idebus s1 = idebus s) by (unfold s1; by destruct (last q)).
  assert (F : ibufs s1 = ibufs (qlink (last q) b (set_ibufs bufs s)) /\ idequeue s1 = idequeue (qlink (last q) b (set_ibufs bufs s))) by (unfold s1; by destruct (last q)).
  assert (X : ibufs s1 b = qclear x).
  { unfold s1. destruct (last q) as [y|] eqn:Ey; cbn; unfold bufs; [|by rewrite fn_insert_eq].
    assert (b <> y) by (intros ->; apply last_Some_elem_of in Ey; done). by rewrite fn_insert_ne, fn_insert_eq. }
  clearbody s1. unfold iderw_turn in Ht. erewrite bind_step in He by reflexivity. erewrite bind_step in Ht by reflexivity.
  assert (Hq : idequeue s1 = Some b <-> q = []).
  { destruct F as [_ ->]. destruct q as [|y q]; [done|]. cbn in C. destruct C as [C _].
    destruct (last (y :: q)) eqn:Ey; [|by apply last_None in Ey]. cbn. rewrite C. split; [intros [= ->]; set_solver|done]. }
  assert (Fr : i_valid (qclear x) && negb (i_dirty (qclear x)) = false) by (cbn; destruct Ef as [-> | ->]; [done|apply andb_false_r]).
  destruct F as [F1 F2]. destruct (decide (idequeue s1 = Some b)) as [Hs|Hs].
  - apply idestart_ret in He as (b' & E' & ->). erewrite bind_step in Ht by (unfold ide_release; cbn [idelock set_idebus]; rewrite K; reflexivity).
    injection Ht as <- <-. cbn [ibufs idequeue iwoken idelock idebus set_idebus set_idelock]. rewrite X, Fr in *. rewrite B in E'.
    do 7 (split; [done|]). intros Hn. by apply Hq in Hs.
  - injection He as <-. erewrite bind_step in Ht by (unfold ide_release; rewrite K; reflexivity).
    injection Ht as <- <-. cbn [ibufs idequeue iwoken idelock idebus set_idelock]. rewrite X, Fr.
    do 6 (split; [done|]). split; [|done]. intros ->. by destruct Hs; apply Hq.
Qed.

(** What the interrupt handler does to the buffer at the head: it is finished, with the
    words of the disk when it was to be read and the disk did not fail. *)
Definition fill (fuel : nat) (b : nat) (x : ibuf) : M ide unit :=
  if i_dirty x then ret tt
  else
    r <- on_idebus (idewait fuel true) ;;
    if r >=? 0 then l <- on_idebus (insl 0x1f0 (Z.to_nat (BSIZE / 4))) ;; with_buf b (set_idata l) else ret tt.
Lemma on_idebus_ret {A} (f : M bus A) s a s' : on_idebus f s = Ret (a, s') -> exists b', f (idebus s) = Ret (a, b') /\ s' = set_idebus b' s.
Proof. unfold on_idebus, lift. destruct (f (idebus s)) as [[a' b']| |]; try discriminate. intros [= -> <-]. by exists b'. Qed.
Lemma fill_ret fuel b s s' : fill fuel b (ibufs s b) s = Ret (tt, s') ->
  idequeue s' = idequeue s /\ iwoken s' = iwoken s /\ idelock s' = idelock s /\ seen (idebus s') = seen (idebus s)
    /\ forall i, i <> b -> ibufs s' i = ibufs s i.
Proof.
  unfold fill. destruct (i_dirty (ibufs s b)); [by intros [= <-]|]. intros H. inv_bind H.
  apply on_idebus_ret in H0 as (b1 & Hw & ->). assert (V1 : seen b1 = seen (idebus s)) by (unfold seen; by rewrite (idewait_view _ _ _ _ _ Hw)).
  case_if_in H; [|by injection H as <-]. inv_bind H. apply on_idebus_ret in H0 as (b2 & Hl & ->). injection H as <-. cbn in Hl |- *.
  do 3 (split; [done|]). split; [unfold seen in *; by rewrite (insl_view _ _ _ _ Hl)|]. intros i Hi. by rewrite fn_insert_ne.
Qed.
Lemma ideintr_ret fuel s b q s' : chain (ibufs s) (idequeue s) (b :: q) -> NoDup (b :: q) -> idelock s = false ->
  Forall (fun i => startable (ibufs s i)) q -> ideintr fuel s = Ret (tt, s') ->
  idequeue s' = qnext (ibufs s b) /\ iwoken s' = iwoken s ++ [b] /\ idelock s' = false /\ finished (ibufs s' b) = true
    /\ (forall i, i <> b -> ibufs s' i = ibufs s i)
    /\ seen (idebus s') = seen (idebus s) ++ ((fun i => command_of (ibufs s i)) <$> take 1 q).
Proof.
  intros [Hh C] Hd Hk Hst H. unfold ideintr in H. erewrite bind_step in H by (unfold ide_acquire; rewrite Hk; reflexivity).
  erewrite bind_step in H by reflexivity. cbn [idequeue set_idelock] in H. rewrite Hh in H.
  do 2 (erewrite bind_step in H by reflexivity). inv_bind H.
  cbn [ibufs set_idequeue set_idelock] in H0. destruct a. fold (fill fuel b (ibufs s b)) in H0.
  set (s0' := set_idequeue _ _) in H0. change (ibufs s b) with (ibufs s0' b) in H0.
  apply fill_ret in H0 as (Q0 & W0 & K0 & V0 & I0). cbn in Q0, W0, K0, V0. change (ibufs s0') with (ibufs s) in I0. clear s0'.
  do 3 (erewrite bind_step in H by reflexivity). cbn [idequeue set_iwoken set_ibufs] in H. rewrite Q0 in H.
  set (s1 := set_iwoken _ _) in H.
  assert (F : idequeue s1 = qnext (ibufs s b) /\ iwoken s1 = iwoken s ++ [b] /\ idelock s1 = true /\ idebus s1 = idebus s0 /\ finished (ibufs s1 b) = true
    /\ forall i, i <> b -> ibufs s1 i = ibufs s i).
  { unfold s1. cbn. rewrite fn_insert_eq. split; [done|]. split; [by rewrite W0|]. do 3 (split; [done|]). intros i Hi. rewrite fn_insert_ne by done. by apply I0. }
  clearbody s1. destruct F as (F1 & F2 & F3 & F4 & F5 & F6). destruct q as [|c q]; cbn [chain] in C.
  - rewrite C in H. erewrite bind_step in H by reflexivity. unfold ide_release in H. rewrite F3 in H. injection H as <-. cbn.
    rewrite app_nil_r, F4. by repeat split.
  - destruct C as [C _]. rewrite C in H. inv_bind H. destruct a. apply idestart_ret in H0 as (b' & Hs & ->). unfold ide_release in H. cbn in H. rewrite F3 in H.
    injection H as <-. cbn. do 5 (split; [done|]). apply NoDup_cons in Hd as [Hb _]. rewrite F6 in Hs by set_solver.
    apply Forall_cons in Hst as [Hc _]. rewrite (start_bus_seen _ _ _ _ Hc Hs). by rewrite F4, V0.
Qed.
(** Without a request the interrupt changes nothing. *)
Lemma ideintr_idle fuel s s' : idequeue s = None -> idelock s = false -> ideintr fuel s = Ret (tt, s') -> s' = s.
Proof.
  intros Hq Hk H. unfold ideintr in H. erewrite bind_step in H by (unfold ide_acquire; rewrite Hk; reflexivity).
  erewrite bind_step in H by reflexivity. cbn in H. rewrite Hq in H. destruct s. cbn in *. subst. by injection H as <-.
Qed.

(** ** The system *)

(** A state of the driver, and the commands asked for so far, first first. *)
Inductive ide_step : ide * list command -> ide * list command -> Prop :=
  | Request fuel b x s h r s' : ~ waiting s b -> startable x -> request fuel b x s = Ret (r, s') -> ide_step (s, h) (s', h ++ [command_of x])
  | Interrupt fuel s h s' : ideintr fuel s = Ret (tt, s') -> ide_step (s, h) (s', h).
Definition ide_initial (s : ide) : Prop := idequeue s = None /\ idelock s = false /\ iwoken s = [] /\ seen (idebus s) = [].
Definition ide_reachable (s : ide) (h : list command) : Prop := exists s0, ide_initial s0 /\ rtc ide_step (s0, []) (s, h).

(** The queue is the requests that are not answered yet, and the disk works on the first. *)
Record ide_inv (s : ide) (h : list command) (q : list nat) : Prop := {
  ii_chain : chain (ibufs s) (idequeue s) q;
  ii_nodup : NoDup q;
  ii_lock : idelock s = false;
  ii_start : Forall (fun i => startable (ibufs s i)) q;
  ii_open : Forall (fun i => finished (ibufs s i) = false) q;
  ii_len : (length (iwoken s) <= length h)%nat;
  ii_hist : drop (length (iwoken s)) h = (fun i => command_of (ibufs s i)) <$> q;
  ii_seen : seen (idebus s) = take (length (iwoken s) + length (take 1 q)) h }.
Lemma Forall_unlink (Q : ibuf -> Prop) (bufs bufs' : nat -> ibuf) l : (forall x, Q (qclear x) <-> Q x) -> (forall i, i ∈ l -> qclear (bufs' i) = qclear (bufs i)) ->
  Forall (fun i => Q (bufs i)) l -> Forall (fun i => Q (bufs' i)) l.
Proof. intros HQ H F. rewrite Forall_forall in F |- *. intros i Hi. apply HQ. rewrite H by done. apply HQ. by apply F. Qed.
Lemma inv_request fuel b x s h q r s' : ide_inv s h q -> ~ waiting s b -> startable x -> request fuel b x s = Ret (r, s') ->
  ide_inv s' (h ++ [command_of x]) (q ++ [b]).
Proof.
  intros [C Hd Hk Hst Ho Hl Hh Hs] Hw Hx H. assert (Hb : b ∉ q) by (intros Hb; apply Hw; by exists q).
  destruct (request_ret fuel b x s q r s' C Hd Hb Hk H) as (Hf & _ & Eb & Eq & Ew & Ek & E0 & E1).
  set (s2 := set_ibufs (<[b := qclear x]> (<[b := x]> (ibufs s))) s) in *.
  assert (U : forall i, i ∈ q ++ [b] -> qclear (ibufs s' i) = if decide (i = b) then qclear x else qclear (ibufs s i)).
  { intros i _. rewrite Eb, qclear_qlink. unfold s2. cbn. destruct (decide (i = b)) as [->|]; [by rewrite fn_insert_eq|by rewrite !fn_insert_ne]. }
  assert (P : forall i, i ∈ q -> qclear (ibufs s' i) = qclear (ibufs s i)) by (intros i Hi; rewrite U by set_solver; rewrite decide_False; set_solver).
  assert (Pb : qclear (ibufs s' b) = qclear x) by (rewrite U by set_solver; by rewrite decide_True).
  assert (Hcmd : (fun i => command_of (ibufs s' i)) <$> q ++ [b] = ((fun i => command_of (ibufs s i)) <$> q) ++ [command_of x]).
  { rewrite fmap_app. f_equal; [|cbn; f_equal; by change (command_of (ibufs s' b)) with (command_of (qclear (ibufs s' b))); rewrite Pb].
    apply list_fmap_ext. intros k i Hi%list_elem_of_lookup_2. change (command_of (ibufs s' i)) with (command_of (qclear (ibufs s' i))). by rewrite P. }
  assert (C2 : chain (ibufs s2) (idequeue s2) q).
  { eapply queue_ext; [|exact C]. intros i Hi. unfold s2. cbn. rewrite !fn_insert_ne by set_solver. done. }
  split; try done.
  - rewrite Eb, Eq. apply chain_qlink; [done|done|done|]. unfold s2. cbn. by rewrite fn_insert_eq.
  - apply NoDup_app. split; [done|]. split; [set_solver|apply NoDup_singleton].
  - apply Forall_app. split; [by apply (Forall_unlink startable (ibufs s))|]. apply Forall_singleton.
    change (startable (qclear (ibufs s' b))). by rewrite Pb.
  - apply Forall_app. split; [by apply (Forall_unlink (fun x => finished x = false) (ibufs s))|]. apply Forall_singleton.
    change (finished (qclear (ibufs s' b)) = false). by rewrite Pb.
  - rewrite Ew, length_app. lia.
  - rewrite Ew, Hcmd, drop_app_le by done. by rewrite Hh.
  - rewrite Ew. assert (Hlen := f_equal length Hh). rewrite length_drop, length_fmap in Hlen. destruct q as [|c q].
    + cbn [app firstn length] in *. rewrite (start_bus_seen _ _ _ _ Hx (E0 eq_refl)), Hs. rewrite Nat.add_0_r, take_ge by lia.
      by rewrite take_ge by (rewrite length_app; cbn; lia).
    + rewrite E1 by done. rewrite Hs. cbn [length] in Hlen. cbn. rewrite !take_0. cbn [length]. by rewrite take_app_le by lia.
Qed.
Lemma inv_interrupt fuel s h q s' : ide_inv s h q -> ideintr fuel s = Ret (tt, s') -> ide_inv s' h (tail q).
Proof.
  intros [C Hd Hk Hst Ho Hl Hh Hs] H. destruct q as [|b q].
  { by rewrite (ideintr_idle fuel s s') by done. }
  assert (Hst' := Hst). apply Forall_cons in Hst' as [_ Hst'].
  destruct (ideintr_ret fuel s b q s' C Hd Hk Hst' H) as (Eq & Ew & Ek & _ & Eb & Es). destruct C as [_ C].
  apply NoDup_cons in Hd as [Hb Hd]. apply Forall_cons in Ho as [_ Ho].
  assert (P : forall i, i ∈ q -> ibufs s' i = ibufs s i) by (intros i Hi; apply Eb; set_solver).
  assert (L : length h = (length (iwoken s) + S (length q))%nat).
  { assert (Hlen := f_equal length Hh). rewrite length_drop, length_fmap in Hlen. cbn in Hlen. lia. }
  assert (D : drop (length (iwoken s')) h = (fun i => command_of (ibufs s' i)) <$> q).
  { rewrite Ew, length_app, <-drop_drop, Hh. cbn. apply list_fmap_ext. intros k i Hi%list_elem_of_lookup_2. by rewrite P. }
  cbn [tail]. split; try done.
  - rewrite Eq. eapply queue_ext; [|exact C]. intros i Hi. by rewrite P.
  - rewrite Forall_forall in Hst' |- *. intros i Hi. rewrite P by done. by apply Hst'.
  - rewrite Forall_forall in Ho |- *. intros i Hi. rewrite P by done. by apply Ho.
  - rewrite Ew, length_app. cbn. lia.
  - rewrite Es, Hs, Ew, length_app. rewrite Ew, length_app in D. cbn [length] in D |- *.
    rewrite <-(take_take_drop h (length (iwoken s) + 1) (length (take 1 q))), D. f_equal. destruct q as [|c q]; [done|]. cbn. rewrite take_0. cbn. by rewrite P by set_solver.
Qed.
Lemma ide_step_inv x y : ide_step x y -> (exists q, ide_inv (fst x) (snd x) q) -> exists q, ide_inv (fst y) (snd y) q.
Proof. intros [fuel b z s h r s' Hw Hx H|fuel s h s' H] [q Hq]; cbn [fst snd] in *; [exists (q ++ [b])|exists (tail q)]; [by eapply inv_request|by eapply inv_interrupt]. Qed.
Lemma ide_reachable_inv s h : ide_reachable s h -> exists q, ide_inv s h q.
Proof.
  intros (s0 & (I1 & I2 & I3 & I4) & Hr).
  assert (G : forall x y, rtc ide_step x y -> (exists q, ide_inv (fst x) (snd x) q) -> exists q, ide_inv (fst y) (snd y) q).
  { induction 1 as [x|x y z Hs _ IH]; [done|]. intros Hx. apply IH. by eapply ide_step_inv. }
  apply (G _ _ Hr). exists []. split; cbn; rewrite ?I3; cbn; (done || by constructor).
Qed.

(** C30: The disk gets the requests one by one in the order they were made.  In every state
    the driver can reach, by any sequence of requests and interrupts, the disk has seen
    the commands of the requests answered so far and, if any request waits, that of the
    first of those; each with its disk, its sector and its data.  The requests that wait
    are the list that starts at [idequeue], in the order they were made, none finished. *)
Theorem ide_commands_in_order s h : ide_reachable s h -> exists q, chain (ibufs s) (idequeue s) q /\ NoDup q
  /\ Forall (fun b => finished (ibufs s b) = false) q
  /\ seen (idebus s) = take (length (iwoken s) + length (take 1 q)) h
  /\ drop (length (iwoken s)) h = (fun b => command_of (ibufs s b)) <$> q.
Proof. intros [q []]%ide_reachable_inv. by exists q. Qed.

(** ** Every request is served *)

(** The answers of the disk to the requests [q]: ready, and the words of each sector read. *)
Fixpoint replies (bufs : nat -> ibuf) (words : nat -> list Z) (q : list nat) : list Z :=
  match q with
  | [] => []
  | b :: q => (if i_dirty (bufs b) then [] else 0x40 :: words b) ++ (match q with [] => [] | _ => [0x40] end) ++ replies bufs words q
  end.
Fixpoint interrupts (n : nat) : M ide unit := match n with O => ret tt | S n => ideintr 1 ;;; interrupts n end.

Lemma insl_words ws : forall b rest, answers b = ws ++ rest ->
  exists b', insl 0x1f0 (length ws) b = Ret (u32 <$> ws, b') /\ answers b' = rest.
Proof.
  induction ws as [|w ws IH]; intros b rest Ha; cbn [length insl]; [by exists b|].
  destruct b as [ans tr]. cbn in Ha. subst ans. destruct (IH (mkbus (ws ++ rest) (tr ++ [In 0x1f0 w])) rest eq_refl) as (b' & E & A).
  exists b'. split; [|done]. erewrite bind_step by reflexivity. by rewrite (bind_step _ _ _ _ _ E).
Qed.
Lemma fill_runs b ws rest s : length ws = 128%nat -> answers (idebus s) = (if i_dirty (ibufs s b) then [] else 0x40 :: ws) ++ rest ->
  exists s', fill 1 b (ibufs s b) s = Ret (tt, s') /\ answers (idebus s') = rest
    /\ i_data (ibufs s' b) = (if i_dirty (ibufs s b) then i_data (ibufs s b) else u32 <$> ws).
Proof.
  intros Hw Ha. unfold fill. destruct (i_dirty (ibufs s b)); [by exists s|]. cbn [app] in Ha.
  destruct (insl_words ws (mkbus (ws ++ rest) (traffic (idebus s) ++ [In 0x1f7 0x40])) rest eq_refl) as (b' & E & A).
  eexists. split; [|split].
  - erewrite bind_step by (unfold on_idebus, lift; rewrite (idewait_ready _ _ _ Ha); reflexivity). cbn [Z.geb Z.compare].
    change (Z.to_nat (BSIZE / 4)) with 128%nat. rewrite <-Hw. erewrite bind_step by (unfold on_idebus, lift; cbn [idebus set_idebus]; rewrite E; reflexivity). reflexivity.
  - exact A.
  - cbn. by rewrite fn_insert_eq.
Qed.
Lemma idestart_runs i s rest : startable (ibufs s i) -> answers (idebus s) = 0x40 :: rest ->
  exists b', idestart 1 (Some i) s = Ret (tt, set_idebus b' s) /\ answers b' = rest.
Proof.
  intros Hi Ha. destruct (start_bus_returns _ 1 _ _ _ Hi (idewait_ready false _ _ Ha)) as (b' & E & A & _). exists b'. split; [|exact A].
  unfold idestart. erewrite bind_step by reflexivity. unfold startable in Hi. destruct (Z.geb_spec (i_blockno (ibufs s i)) FSSIZE); [lia|].
  unfold on_idebus, lift. by rewrite E.
Qed.
Lemma ideintr_runs b q ws rest s : chain (ibufs s) (idequeue s) (b :: q) -> b ∉ q -> idelock s = false -> Forall (fun i => startable (ibufs s i)) q ->
  length ws = 128%nat ->
  answers (idebus s) = (if i_dirty (ibufs s b) then [] else 0x40 :: ws) ++ (match q with [] => [] | _ => [0x40] end) ++ rest ->
  exists s', ideintr 1 s = Ret (tt, s') /\ answers (idebus s') = rest
    /\ i_data (ibufs s' b) = (if i_dirty (ibufs s b) then i_data (ibufs s b) else u32 <$> ws).
Proof.
  intros [Hh C] Hb Hk Hst Hw Ha. unfold ideintr. erewrite bind_step by (unfold ide_acquire; rewrite Hk; reflexivity).
  erewrite bind_step by reflexivity. cbn [idequeue set_idelock]. rewrite Hh. do 2 (erewrite bind_step by reflexivity).
  cbn [ibufs set_idequeue set_idelock]. set (s0 := set_idequeue _ _). fold (fill 1 b (ibufs s0 b)).
  destruct (fill_runs b ws _ s0 Hw Ha) as (s1 & E1 & A1 & D1). change (ibufs s b) with (ibufs s0 b). rewrite (bind_step _ _ _ _ _ E1).
  apply fill_ret in E1 as (Q1 & _ & K1 & _ & I1). change (ibufs s0 b) with (ibufs s b) in D1.
  do 3 (erewrite bind_step by reflexivity). cbn [idequeue set_iwoken set_ibufs]. rewrite Q1.
  set (s2 := set_iwoken _ _). assert (K2 : idelock s2 = true) by exact K1. assert (A2 := A1 : answers (idebus s2) = _).
  assert (D2 : i_data (ibufs s2 b) = if i_dirty (ibufs s b) then i_data (ibufs s b) else u32 <$> ws) by (unfold s2; cbn; by rewrite fn_insert_eq).
  assert (I2 : forall i, i <> b -> ibufs s2 i = ibufs s i) by (intros i Hi; unfold s2; cbn; rewrite fn_insert_ne by done; by apply I1).
  clearbody s2. change (idequeue s0) with (qnext (ibufs s b)). destruct q as [|c q]; cbn [chain] in C.
  - rewrite C. erewrite bind_step by reflexivity. eexists. split; [unfold ide_release; rewrite K2; reflexivity|]. done.
  - destruct C as [C _]. rewrite C. apply Forall_cons in Hst as [Hc _]. rewrite <-(I2 c) in Hc by set_solver.
    destruct (idestart_runs c s2 rest Hc A2) as (b' & E3 & A3). rewrite (bind_step _ _ _ _ _ E3).
    eexists. split; [unfold ide_release; cbn [idelock set_idebus]; rewrite K2; reflexivity|]. done.
Qed.
Lemma replies_ext bufs bufs' words q : (forall i, i ∈ q -> bufs' i = bufs i) -> replies bufs' words q = replies bufs words q.
Proof.
  induction q as [|b q IH]; intros H; [done|]. cbn [replies]. rewrite H by set_solver. rewrite IH; [done|]. intros i Hi. apply H. set_solver.
Qed.

Lemma interrupts_serve words q : forall s h rest, ide_inv s h q -> (forall b, length (words b) = 128%nat) ->
  answers (idebus s) = replies (ibufs s) words q ++ rest ->
  exists s', interrupts (length q) s = Ret (tt, s') /\ ide_inv s' h [] /\ answers (idebus s') = rest /\ iwoken s' = iwoken s ++ q
    /\ (forall b, b ∈ q -> finished (ibufs s' b) = true /\ i_data (ibufs s' b) = if i_dirty (ibufs s b) then i_data (ibufs s b) else u32 <$> words b)
    /\ (forall b, b ∉ q -> ibufs s' b = ibufs s b).
Proof.
  induction q as [|b q IH]; intros s h rest Hi Hw Ha; cbn [length interrupts].
  - exists s. split; [done|]. split; [done|]. split; [done|]. split; [by rewrite app_nil_r|]. split; [set_solver|done].
  - destruct Hi as [C Hd Hk Hst Ho Hl Hh Hs] eqn:Ei. clear Ei. assert (Hd' := Hd). apply NoDup_cons in Hd' as [Hb _].
    apply Forall_cons in Hst as Hst'. destruct Hst' as [_ Hst'].
    cbn [replies] in Ha. rewrite <-!app_assoc in Ha.
    destruct (ideintr_runs b q (words b) _ s C Hb Hk Hst' (Hw b) Ha) as (s1 & E1 & A1 & D1).
    destruct (ideintr_ret 1 s b q s1 C Hd Hk Hst' E1) as (_ & W1 & _ & F1 & I1 & _).
    assert (N1 := inv_interrupt 1 s h (b :: q) s1 Hi E1). cbn [tail] in N1.
    destruct (IH s1 h rest N1 Hw) as (s2 & E2 & N2 & A2 & W2 & D2 & I2).
    { rewrite A1. f_equal. symmetry. apply replies_ext. intros i Hii. apply I1. set_solver. }
    exists s2. split; [by rewrite (bind_step _ _ _ _ _ E1)|]. split; [done|]. split; [done|]. split; [rewrite W2, W1, <-app_assoc; done|].
    split; intros i Hii.
    + apply elem_of_cons in Hii as [->|Hii]; [by rewrite I2|]. destruct (D2 i Hii) as [F D]. rewrite I1 in D by set_solver. done.
    + rewrite I2, I1 by set_solver. done.
Qed.

(** C31: Every request is served.  In any state the driver can reach, when the disk answers
    what it is asked, as many interrupts as there are requests finish them all and wake
    the processes in the order of the requests; each buffer that was to be read has the
    words the disk gave for it, those to be written keep theirs, no other buffer is
    touched, and the disk has seen all commands. *)
Theorem ide_serves_all s h q words rest : ide_reachable s h -> chain (ibufs s) (idequeue s) q -> (forall b, length (words b) = 128%nat) ->
  answers (idebus s) = replies (ibufs s) words q ++ rest ->
  exists s', interrupts (length q) s = Ret (tt, s') /\ idequeue s' = None /\ seen (idebus s') = h /\ iwoken s' = iwoken s ++ q
    /\ (forall b, b ∈ q -> finished (ibufs s' b) = true /\ i_data (ibufs s' b) = if i_dirty (ibufs s b) then i_data (ibufs s b) else u32 <$> words b)
    /\ (forall b, b ∉ q -> ibufs s' b = ibufs s b).
Proof.
  intros (q' & Hi)%ide_reachable_inv C Hw Ha. assert (q' = q) as -> by (destruct Hi; by eapply chain_fun).
  destruct (interrupts_serve words q s h rest Hi Hw Ha) as (s' & E & [C' _ _ _ _ Hl Hh Hs] & _ & W & D & I).
  exists s'. split; [done|]. split; [exact C'|]. split; [|done]. rewrite Hs. cbn [firstn length]. apply take_ge.
  assert (L := f_equal length Hh). rewrite length_drop in L. cbn in L. lia.
Qed.

Definition demo_buf : ibuf := mkibuf false false 0 7 [] None.
Definition demo_ide : ide := mkide (mkbus ([0x40] ++ (0x40 :: seqZ 0 128)) []) false None (fun _ => demo_buf) false [].
Definition demo_asked : ide := match request 2 0 demo_buf demo_ide with Ret (_, s) => s | _ => demo_ide end.
Lemma demo_reachable : ide_reachable demo_asked [command_of demo_buf].
Proof.
  exists demo_ide. split; [by repeat split|]. apply rtc_once. apply (Request 2 0 demo_buf demo_ide [] false).
  - intros ([|b q] & C & Hb); [by apply not_elem_of_nil in Hb|]. destruct C as [C _]. discriminate C.
  - unfold startable, FSSIZE. cbn. lia.
  - reflexivity.
Qed.
Lemma ide_commands_in_order_witness : exists q, chain (ibufs demo_asked) (idequeue demo_asked) q /\ NoDup q
  /\ Forall (fun b => finished (ibufs demo_asked b) = false) q
  /\ seen (idebus demo_asked) = take (length (iwoken demo_asked) + length (take 1 q)) [command_of demo_buf]
  /\ drop (length (iwoken demo_asked)) [command_of demo_buf] = (fun b => command_of (ibufs demo_asked b)) <$> q.
Proof. apply (ide_commands_in_order demo_asked [command_of demo_buf]). exact demo_reachable. Defined.
Lemma ide_serves_all_witness : exists s', interrupts 1 demo_asked = Ret (tt, s') /\ idequeue s' = None /\ iwoken s' = [0%nat] /\ finished (ibufs s' 0%nat) = true.
Proof.
  destruct (ide_serves_all demo_asked [command_of demo_buf] [0%nat] (fun _ => seqZ 0 128) [] demo_reachable) as (s' & E & Q & _ & W & D & _).
  - by split.
  - intros _. reflexivity.
  - reflexivity.
  - exists s'. split; [exact E|]. split; [exact Q|]. split; [exact W|]. apply D. constructor.
Defined.

(** A read that the disk reports as failed is finished all the same, with whatever was in
    the buffer. *)
Lemma failed_read_is_finished : match ideintr 1 (set_idebus (mkbus [0x41] []) demo_asked) with
  | Ret (_, s') => Some (finished (ibufs s' 0%nat), i_data (ibufs s' 0%nat))
  | _ => None
  end = Some (true, i_data demo_buf).
Proof. reflexivity. Qed.
