(* ===== verification/Bootmain.v ===== *)
(** * The boot loader

    Models [src/xv6/bootmain.c]: the kernel image, an ELF file from sector 1 of the disk
    on, is read sector by sector and its segments are put where they belong.  The disk
    is reached through its ports, as in [Io.v]. *)

From S2P Require Import Prelude Mem Io.
Local Open Scope Z_scope.

Definition SECTSIZE : Z := 512.
Definition ELF_MAGIC : Z := 0x464C457F.
(** The ports and the memory. *)
Record boot := mkboot { bbus : bus; bmem : mem }.
Definition on_bbus {A} (m : M bus A) : M boot A := lift bbus (fun b s => mkboot b (bmem s)) m.
Definition set_bmem (m : mem) (s : boot) : boot := mkboot (bbus s) m.

Fixpoint waitdisk (fuel : nat) : M bus unit :=
  match fuel with
  | O => nofuel
  | S f => v <- inb 0x1F7 ;; if Z.land v 0xC0 =? 0x40 then ret tt else waitdisk f
  end.
(** [insl(port, addr, cnt)] into memory. *)
Fixpoint insl_to (port addr : Z) (cnt : nat) : M boot unit :=
  match cnt with
  | O => ret tt
  | S n => w <- on_bbus (in32 port) ;; modify (fun s => set_bmem (st32 (bmem s) addr w) s) ;;; insl_to port (u32 (addr + 4)) n
  end.
Definition readsect (fuel : nat) (dst offset : Z) : M boot unit :=
  on_bbus (
    waitdisk fuel ;;;
    outb 0x1F2 1 ;;;
    outb 0x1F3 offset ;;;
    outb 0x1F4 (Z.shiftr offset 8) ;;;
    outb 0x1F5 (Z.shiftr offset 16) ;;;
    outb 0x1F6 (Z.lor (Z.shiftr offset 24) 0xE0) ;;;
    outb 0x1F7 0x20 ;;;
    waitdisk fuel) ;;;
  insl_to 0x1F0 dst (Z.to_nat (SECTSIZE / 4)).
Fixpoint read_sects (fuel : nat) (n : nat) (pa epa offset : Z) : M boot unit :=
  match n with
  | O => nofuel
  | S n =>
      if pa <? epa then readsect fuel pa offset ;;; read_sects fuel n (u32 (pa + SECTSIZE)) epa (u32 (offset + 1)) else ret tt
  end.
(** [n] bounds the sectors of a segment. *)
Definition readseg (fuel n : nat) (pa count offset : Z) : M boot unit :=
  let epa := u32 (pa + count) in
  let pa := u32 (pa - offset mod SECTSIZE) in
  read_sects fuel n pa epa (offset / SECTSIZE + 1).

(** [struct proghdr] at [ph], the fields used. *)
Definition ph_off (m : mem) (ph : Z) : Z := ld32 m (ph + 4).
Definition ph_paddr (m : mem) (ph : Z) : Z := ld32 m (ph + 12).
Definition ph_filesz (m : mem) (ph : Z) : Z := ld32 m (ph + 16).
Definition ph_memsz (m : mem) (ph : Z) : Z := ld32 m (ph + 20).
Fixpoint load_segments (fuel n : nat) (ph : Z) (cnt : nat) : M boot unit :=
  match cnt with
  | O => ret tt
  | S cnt =>
      m <- gets bmem ;;
      let pa := ph_paddr m ph in
      readseg fuel n pa (ph_filesz m ph) (ph_off m ph) ;;;
      m <- gets bmem ;;
      (if ph_memsz m ph >? ph_filesz m ph
       then modify (fun s => set_bmem (stosb (bmem s) (u32 (pa + ph_filesz m ph)) 0 (Z.to_nat (ph_memsz m ph - ph_filesz m ph))) s)
       else ret tt) ;;;
      load_segments fuel n (ph + 32) cnt
  end.
Definition elf : Z := 0x10000.
Definition elf_phnum (m : mem) : Z := ldb m (elf + 44) + 2 ^ 8 * ldb m (elf + 45).
(** The entry point, when the image is one. *)
Definition bootmain (fuel n : nat) : M boot (option Z) :=
  readseg fuel n elf 4096 0 ;;;
  m <- gets bmem ;;
  if negb (ld32 m elf =? ELF_MAGIC) then ret None
  else
    load_segments fuel n (u32 (elf + ld32 m (elf + 28))) (Z.to_nat (elf_phnum m)) ;;;
    m <- gets bmem ;;
    ret (Some (ld32 m (elf + 24))).

(** ** Properties *)

Section Disk.
(** The bytes of the image, sector 1 of the disk first. *)
Context (img : Z -> Z) (Himg : forall o, 0 <= img o < 256).
Definition word (o : Z) : Z := img o + 2 ^ 8 * img (o + 1) + 2 ^ 16 * img (o + 2) + 2 ^ 24 * img (o + 3).
Fixpoint words (n : nat) (o : Z) : list Z := match n with O => [] | S n => word o :: words n (o + 4) end.
(** What the disk answers when a sector is read: ready, ready, and the words. *)
Definition reply (k : Z) : list Z := 0x40 :: 0x40 :: words 128 ((k - 1) * 512).
Fixpoint replies (n : nat) (k : Z) : list Z := match n with O => [] | S n => reply k ++ replies n (k + 1) end.

Lemma word_byte o k : 0 <= k < 4 -> byte_of (word o) k = img (o + k).
Proof.
  intros Hk. pose proof (Himg o). pose proof (Himg (o + 1)). pose proof (Himg (o + 2)). pose proof (Himg (o + 3)).
  unfold byte_of, u8, word. rewrite Z.shiftr_div_pow2 by lia.
  assert (k = 0 \/ k = 1 \/ k = 2 \/ k = 3) as [-> | [-> | [-> | ->]]] by lia; cbn [Z.mul Pos.mul]; rewrite ?Z.add_0_r.
  all: Z.div_mod_to_equations; lia.
Qed.
Lemma word_range o : 0 <= word o < 2 ^ 32.
Proof. pose proof (Himg o). pose proof (Himg (o + 1)). pose proof (Himg (o + 2)). pose proof (Himg (o + 3)). unfold word. lia. Qed.

Lemma insl_to_ok n : forall o addr rest tr m, 0 <= addr -> addr + 4 * Z.of_nat n < 2 ^ 32 ->
  exists tr' m', insl_to 0x1F0 addr n (mkboot (mkbus (words n o ++ rest) tr) m) = Ret (tt, mkboot (mkbus rest tr') m')
    /\ forall a, ldb m' a = if (addr <=? a) && (a <? addr + 4 * Z.of_nat n) then img (o + (a - addr)) else ldb m a.
Proof.
  induction n as [|n IH]; intros o addr rest tr m Ha He; cbn [insl_to words].
  - exists tr, m. split; [done|]. intros a. by case_if; [lia|].
  - destruct (IH (o + 4) (addr + 4) rest (tr ++ [In 0x1F0 (word o)]) (st32 m addr (word o))) as (tr' & m' & E & Hm); [lia|lia|].
    exists tr', m'. split.
    + erewrite bind_step by reflexivity. rewrite u32_small by apply word_range. erewrite bind_step by reflexivity.
      rewrite u32_small by lia. exact E.
    + intros a. rewrite Hm, ldb_st32. destruct ((addr <=? a) && (a <? addr + 4)) eqn:E1; zbool.
      * rewrite word_byte by lia. by repeat case_if; try lia.
      * repeat case_if; try lia; try done; f_equal; lia.
Qed.
Lemma readsect_ok fuel dst k rest tr m : (0 < fuel)%nat -> 0 <= dst -> dst + 512 < 2 ^ 32 ->
  exists tr' m', readsect fuel dst k (mkboot (mkbus (reply k ++ rest) tr) m) = Ret (tt, mkboot (mkbus rest tr') m')
    /\ forall a, ldb m' a = if (dst <=? a) && (a <? dst + 512) then img ((k - 1) * 512 + (a - dst)) else ldb m a.
Proof.
  intros Hf Hd He. destruct fuel as [|fuel]; [lia|]. unfold readsect, reply. cbn [app].
  assert (W : exists tr0, on_bbus (waitdisk (S fuel) ;;; outb 0x1F2 1 ;;; outb 0x1F3 k ;;; outb 0x1F4 (Z.shiftr k 8) ;;; outb 0x1F5 (Z.shiftr k 16) ;;;
    outb 0x1F6 (Z.lor (Z.shiftr k 24) 0xE0) ;;; outb 0x1F7 0x20 ;;; waitdisk (S fuel))
    (mkboot (mkbus (0x40 :: 0x40 :: words 128 ((k - 1) * 512) ++ rest) tr) m) = Ret (tt, mkboot (mkbus (words 128 ((k - 1) * 512) ++ rest) tr0) m)) by (eexists; reflexivity).
  destruct W as [tr0 W]. rewrite (bind_step _ _ _ _ _ W). change (Z.to_nat (SECTSIZE / 4)) with 128%nat.
  destruct (insl_to_ok 128 ((k - 1) * 512) dst rest tr0 m) as (tr' & m' & E & Hm); [lia|lia|]. exists tr', m'. split; [exact E|exact Hm].
Qed.
Lemma read_sects_ok fuel c : forall n pa epa k rest tr m, (0 < fuel)%nat -> (c < n)%nat -> 0 <= pa -> 0 <= k -> k + Z.of_nat c < 2 ^ 32 ->
  pa + 512 * Z.of_nat c < 2 ^ 32 -> epa <= pa + 512 * Z.of_nat c -> pa + 512 * (Z.of_nat c - 1) < epa ->
  exists tr' m', read_sects fuel n pa epa k (mkboot (mkbus (replies c k ++ rest) tr) m) = Ret (tt, mkboot (mkbus rest tr') m')
    /\ forall a, ldb m' a = if (pa <=? a) && (a <? pa + 512 * Z.of_nat c) then img ((k - 1) * 512 + (a - pa)) else ldb m a.
Proof.
  induction c as [|c IH]; intros n pa epa k rest tr m Hf Hn Hp Hk Hkc Hc He1 He2; (destruct n as [|n]; [lia|]); cbn [read_sects replies].
  - destruct (Z.ltb_spec pa epa); [lia|]. exists tr, m. split; [done|]. intros a. by case_if; [lia|].
  - destruct (Z.ltb_spec pa epa); [|lia]. rewrite <-app_assoc.
    destruct (readsect_ok fuel pa k (replies c (k + 1) ++ rest) tr m Hf) as (tr1 & m1 & E1 & H1); [lia|lia|].
    rewrite (bind_step _ _ _ _ _ E1). rewrite !u32_small by (unfold SECTSIZE; lia). unfold SECTSIZE.
    destruct (IH n (pa + 512) epa (k + 1) rest tr1 m1) as (tr2 & m2 & E2 & H2); try lia.
    exists tr2, m2. split; [exact E2|]. intros a. rewrite H2, H1. repeat case_if; try lia; try done; f_equal; lia.
Qed.
(** The sectors a segment takes. *)
Definition nsect (count offset : Z) : nat := Z.to_nat ((offset mod 512 + count + 511) / 512).
Definition low (pa offset : Z) : Z := pa - offset mod 512.
Lemma readseg_ok fuel n pa count offset rest tr m : (0 < fuel)%nat -> (nsect count offset < n)%nat -> 0 <= count -> 0 <= offset ->
  0 <= low pa offset -> pa + count + 512 < 2 ^ 32 -> offset + count + 1024 < 2 ^ 32 ->
  exists tr' m', readseg fuel n pa count offset (mkboot (mkbus (replies (nsect count offset) (offset / 512 + 1) ++ rest) tr) m) = Ret (tt, mkboot (mkbus rest tr') m')
    /\ (forall i, 0 <= i < count -> ldb m' (pa + i) = img (offset + i))
    /\ (forall a, a < low pa offset -> ldb m' a = ldb m a).
Proof.
  intros Hf Hn Hc Ho Hl Hp Hoc. unfold readseg, low in *. change SECTSIZE with 512.
  pose proof (Z.div_mod offset 512 ltac:(lia)). pose proof (Z.mod_pos_bound offset 512 ltac:(lia)).
  pose proof (Z.div_mod (offset mod 512 + count + 511) 512 ltac:(lia)). pose proof (Z.mod_pos_bound (offset mod 512 + count + 511) 512 ltac:(lia)).
  assert (Hd : 0 <= (offset mod 512 + count + 511) / 512) by (apply Z.div_pos; lia). assert (0 <= offset / 512) by (apply Z.div_pos; lia).
  rewrite !u32_small by lia. unfold nsect in *.
  destruct (read_sects_ok fuel (Z.to_nat ((offset mod 512 + count + 511) / 512)) n (pa - offset mod 512) (pa + count) (offset / 512 + 1) rest tr m)
    as (tr' & m' & E & Hm); try lia.
  exists tr', m'. split; [exact E|]. split; intros i Hi; rewrite Hm.
  - case_if; [|lia]. f_equal. lia.
  - by case_if; [lia|].
Qed.

(** A segment as its header in the image describes it. *)
Record seg := mkseg { g_off : Z; g_paddr : Z; g_filesz : Z; g_memsz : Z }.
Definition described (o : Z) (g : seg) : Prop :=
  word (o + 4) = g_off g /\ word (o + 12) = g_paddr g /\ word (o + 16) = g_filesz g /\ word (o + 20) = g_memsz g.
Fixpoint headers (o : Z) (gs : list seg) : Prop := match gs with [] => True | g :: gs => described o g /\ headers (o + 32) gs end.
Definition g_low (g : seg) : Z := low (g_paddr g) (g_off g).
Definition g_end (g : seg) : Z := g_paddr g + Z.max (g_filesz g) (g_memsz g).
(** Above the page with the headers, and in the address space. *)
Definition fits (n : nat) (g : seg) : Prop :=
  elf + 4096 <= g_low g /\ g_end g + 512 < 2 ^ 32 /\ g_off g + g_filesz g + 1024 < 2 ^ 32 /\ (nsect (g_filesz g) (g_off g) < n)%nat.
(** In increasing order, the sectors of each behind the end of those before it. *)
Fixpoint increasing (gs : list seg) : Prop := match gs with [] => True | g :: gs => Forall (fun g' => g_end g <= g_low g') gs /\ increasing gs end.
Definition seg_replies (gs : list seg) : list Z := concat ((fun g => replies (nsect (g_filesz g) (g_off g)) (g_off g / 512 + 1)) <$> gs).
Definition loaded (m : mem) (g : seg) : Prop :=
  (forall i, 0 <= i < g_filesz g -> ldb m (g_paddr g + i) = img (g_off g + i)) /\
  (forall i, g_filesz g <= i < g_memsz g -> ldb m (g_paddr g + i) = 0).
Definition first_page (m : mem) : Prop := forall i, 0 <= i < 4096 -> ldb m (elf + i) = img i.

Lemma first_page_word m o : first_page m -> 0 <= o -> o + 4 <= 4096 -> ld32 m (elf + o) = word o.
Proof.
  intros H Ho He. unfold ld32, word. rewrite <-!Z.add_assoc. rewrite !H by lia. done.
Qed.
Lemma first_page_below m m' : first_page m -> (forall a, a < elf + 4096 -> ldb m' a = ldb m a) -> first_page m'.
Proof. intros H Hm i Hi. rewrite Hm by lia. by apply H. Qed.

(** The rest of a segment behind the bytes of the image is cleared. *)
Definition clear (m : mem) (g : seg) : mem :=
  if g_memsz g >? g_filesz g then stosb m (u32 (g_paddr g + g_filesz g)) 0 (Z.to_nat (g_memsz g - g_filesz g)) else m.
Lemma clear_loaded m g : 0 <= g_filesz g -> 0 <= g_paddr g -> g_end g < 2 ^ 32 -> (forall i, 0 <= i < g_filesz g -> ldb m (g_paddr g + i) = img (g_off g + i)) ->
  loaded (clear m g) g /\ forall a, a < g_paddr g -> ldb (clear m g) a = ldb m a.
Proof.
  intros H0 H1 H2 H. unfold clear, loaded, g_end in *. destruct (g_memsz g >? g_filesz g) eqn:E; zbool; [|by split; [split; [done|lia]|]].
  rewrite u32_small by lia. split; [split|]; intros i Hi; rewrite ldb_stosb, Z2Nat.id by lia.
  - case_if; [lia|]. by apply H.
  - case_if; [done|lia].
  - by case_if; [lia|].
Qed.
Lemma loaded_below m m' g : 0 <= g_filesz g -> (forall a, a < g_end g -> ldb m' a = ldb m a) -> loaded m g -> loaded m' g.
Proof. unfold g_end. intros H0 H [L1 L2]. split; intros i Hi; rewrite H by lia; [by apply L1|by apply L2]. Qed.

Lemma load_segments_ok fuel n gs : forall o rest tr m, (0 < fuel)%nat -> 0 <= o -> o + 32 * Z.of_nat (length gs) <= 4096 ->
  headers o gs -> Forall (fits n) gs -> increasing gs -> first_page m ->
  exists tr' m', load_segments fuel n (elf + o) (length gs) (mkboot (mkbus (seg_replies gs ++ rest) tr) m) = Ret (tt, mkboot (mkbus rest tr') m')
    /\ first_page m' /\ Forall (loaded m') gs /\ forall a, Forall (fun g => a < g_low g) gs -> ldb m' a = ldb m a.
Proof.
  induction gs as [|g gs IH]; intros o rest tr m Hf Ho Hp Hh Hfit Hinc Hm.
  { exists tr, m. repeat split; (done || by constructor). }
  destruct Hh as [(D1 & D2 & D3 & D4) Hh]. apply Forall_cons in Hfit as [(F1 & F2 & F3 & F4) Hfit]. destruct Hinc as [Hi Hinc].
  cbn [length] in Hp. cbn [length load_segments]. erewrite bind_step by reflexivity. cbn [bmem].
  assert (P : forall m, first_page m -> ph_off m (elf + o) = g_off g /\ ph_paddr m (elf + o) = g_paddr g /\ ph_filesz m (elf + o) = g_filesz g /\ ph_memsz m (elf + o) = g_memsz g).
  { intros m0 H0. unfold ph_off, ph_paddr, ph_filesz, ph_memsz. rewrite <-!Z.add_assoc. rewrite !(first_page_word m0) by (done || lia). done. }
  destruct (P m Hm) as (-> & -> & -> & _).
  assert (R1 := word_range (o + 4)). assert (R2 := word_range (o + 12)). assert (R3 := word_range (o + 16)). rewrite D1, D2, D3 in *.
  unfold seg_replies. cbn [fmap list_fmap concat]. rewrite <-app_assoc. fold (seg_replies gs).
  assert (Hlow : g_low g <= g_paddr g) by (unfold g_low, low; pose proof (Z.mod_pos_bound (g_off g) 512); lia).
  destruct (readseg_ok fuel n (g_paddr g) (g_filesz g) (g_off g) (seg_replies gs ++ rest) tr m) as (tr1 & m1 & E1 & L1 & B1); try (unfold g_low, g_end, elf in *; lia).
  rewrite (bind_step _ _ _ _ _ E1). erewrite bind_step by reflexivity. cbn [bmem].
  assert (Hm1 : first_page m1) by (apply (first_page_below m); [done|]; intros a Ha; apply B1; fold (g_low g); lia).
  destruct (P m1 Hm1) as (_ & _ & -> & ->).
  destruct (clear_loaded m1 g) as [C1 C2]; [lia|lia|lia|done|].
  assert (E2 : (if g_memsz g >? g_filesz g then modify (fun s => set_bmem (stosb (bmem s) (u32 (g_paddr g + g_filesz g)) 0 (Z.to_nat (g_memsz g - g_filesz g))) s)
    else ret tt) (mkboot (mkbus (seg_replies gs ++ rest) tr1) m1) = Ret (tt, mkboot (mkbus (seg_replies gs ++ rest) tr1) (clear m1 g))).
  { unfold clear. by destruct (g_memsz g >? g_filesz g). }
  rewrite (bind_step _ _ _ _ _ E2). rewrite <-Z.add_assoc.
  destruct (IH (o + 32) rest tr1 (clear m1 g)) as (tr2 & m2 & E3 & M2 & L2 & B2); try (done || lia).
  { apply (first_page_below m1); [done|]. intros a Ha. apply C2. lia. }
  exists tr2, m2. split; [exact E3|]. split; [done|]. split; [constructor; [|done]|].
  - apply (loaded_below (clear m1 g)); [lia| |done]. intros a Ha. apply B2. eapply Forall_impl; [exact Hi|]. cbn. lia.
  - intros a [Ha Has]%Forall_cons. rewrite B2 by done. rewrite C2 by lia. by apply B1.
Qed.

End Disk.

(** An image with one segment, of two bytes of the image and two zeroes. *)
Definition demo_img : Z -> Z := fun o => default 0 (list_to_map (M := gmap Z Z)
  [(0, 0x7F); (1, 0x45); (2, 0x4C); (3, 0x46); (26, 0x10); (28, 52); (44, 1); (57, 2); (66, 0x10); (68, 2); (72, 4); (512, 0xEB); (513, 0xFE)] !! o).
Lemma demo_img_range o : 0 <= demo_img o < 256.
Proof.
  unfold demo_img. destruct (list_to_map _ !! o) as [b|] eqn:E; [|cbn; lia]. cbn. apply elem_of_list_to_map_2 in E.
  repeat (apply elem_of_cons in E as [[= -> ->]|E]; [lia|]). by apply not_elem_of_nil in E.
Qed.
Definition demo_seg : seg := mkseg 512 0x100000 2 4.
