(* ===== verification/Mkfs.v ===== *)
(** * The builder of the file system image

    Models [src/xv6/mkfs.c]: the program that lays out a disk on the build host, with the
    files it is given in the root directory.  The image is a file of blocks, read and
    written a block at a time; a block behind its end cannot be read.  The structures on
    disk and their encoding are those of the kernel in [Fs.v].  An [exit(1)] and a failed
    [assert] are panics. *)

From S2P Require Import Prelude Mem Bio Fs.
Local Open Scope Z_scope.

Definition NINODES : Z := 200.
Definition FSSIZE : Z := 4000.
Definition nbitmap : Z := FSSIZE / (BSIZE * 8) + 1.
Definition ninodeblocks : Z := NINODES / IPB + 1.
Definition nlog : Z := LOGSIZE.
Definition nmeta : Z := 2 + nlog + ninodeblocks + nbitmap.
Definition nblocks : Z := FSSIZE - nmeta.
(** On the host as in the image the low byte comes first. *)
Definition xshort (x : Z) : Z := u16 x.
Definition xint (x : Z) : Z := u32 x.
Definition sb : superblock :=
  mksb (xint FSSIZE) (xint nblocks) (xint NINODES) (xint nlog) (xint 2) (xint (2 + nlog)) (xint (2 + nlog + ninodeblocks)).
Definition enc_sb (s : superblock) : list Z :=
  le32 (sb_size s) ++ le32 (sb_nblocks s) ++ le32 (sb_ninodes s) ++ le32 (sb_nlog s) ++ le32 (sb_logstart s) ++
  le32 (sb_inodestart s) ++ le32 (sb_bmapstart s).

(** The image with the number of its blocks, [freeinode] and [freeblock]. *)
Record mk := mkmk { img : Z -> list Z; img_len : Z; freeinode : Z; freeblock : Z }.
Definition set_img (v : Z -> list Z) (s : mk) : mk := mkmk v (img_len s) (freeinode s) (freeblock s).
Definition set_img_len (v : Z) (s : mk) : mk := mkmk (img s) v (freeinode s) (freeblock s).
Definition set_freeinode (v : Z) (s : mk) : mk := mkmk (img s) (img_len s) v (freeblock s).
Definition set_freeblock (v : Z) (s : mk) : mk := mkmk (img s) (img_len s) (freeinode s) v.

Definition zeroes : list Z := replicate 512 0.
Definition wsect (sec : Z) (buf : list Z) : M mk unit :=
  modify (fun s => set_img_len (Z.max (img_len s) (sec + 1)) (set_img (<[sec := buf]> (img s)) s)).
Definition rsect (sec : Z) : M mk (list Z) :=
  s <- get ;; if sec <? img_len s then ret (img s sec) else panic "read".

(** A [struct dinode] is the part of the kernel's inode that is on disk. *)
Definition dinode0 : inode := mkinode 0 0 0 (mksl false 0) false 0 0 0 0 0 (replicate 13 0).
Definition winode (inum : Z) (ip : inode) : M mk unit :=
  let bn := IBLOCK inum sb in
  buf <- rsect bn ;;
  wsect bn (splice buf (inum mod IPB * DINODE) (enc_dinode ip)).
Definition rinode (inum : Z) : M mk inode :=
  let bn := IBLOCK inum sb in
  buf <- rsect bn ;;
  ret (dec_dinode buf (inum mod IPB * DINODE) dinode0).
Definition ialloc (type : Z) : M mk Z :=
  inum <- gets freeinode ;;
  modify (set_freeinode (u32 (inum + 1))) ;;;
  winode inum (set_itype (xshort type) (set_inlink (xshort 1) (set_isize (xint 0) dinode0))) ;;;
  ret inum.

(** [for(i = 0; i < used; i++) buf[i/8] = buf[i/8] | (0x1 << (i%8));] *)
Fixpoint mark (n : nat) (i : Z) (buf : list Z) : list Z :=
  match n with
  | O => buf
  | S n => mark n (i + 1) (wr8 buf (i / 8) (Z.lor (byte_at buf (i / 8)) (Z.shiftl 1 (i mod 8))))
  end.
Definition balloc (used : Z) : M mk unit :=
  if negb (used <? BSIZE * 8) then panic "assert"
  else wsect (sb_bmapstart sb) (mark (Z.to_nat used) 0 zeroes).

(** [freeblock++] *)
Definition next_block : M mk Z := b <- gets freeblock ;; modify (set_freeblock (u32 (b + 1))) ;;; ret b.
(** The block [fbn] of the file, with the inode as it is then: the two branches of the
    body of the loop of [iappend]. *)
Definition iblock (din : inode) (fbn : Z) : M mk (inode * Z) :=
  if fbn <? NDIRECT then
    din <- (if addr_at din fbn =? 0 then b <- next_block ;; ret (set_addr fbn (xint b) din) else ret din) ;;
    ret (din, xint (addr_at din fbn))
  else
    din <- (if addr_at din NDIRECT =? 0 then b <- next_block ;; ret (set_addr NDIRECT (xint b) din) else ret din) ;;
    indirect <- rsect (xint (addr_at din NDIRECT)) ;;
    indirect <- (if rd32 indirect (4 * (fbn - NDIRECT)) =? 0 then
                   b <- next_block ;;
                   let indirect := wr32 indirect (4 * (fbn - NDIRECT)) (xint b) in
                   wsect (xint (addr_at din NDIRECT)) indirect ;;; ret indirect
                 else ret indirect) ;;
    ret (din, xint (rd32 indirect (4 * (fbn - NDIRECT)))).
Fixpoint iappend_loop (fuel : nat) (din : inode) (off : Z) (p : list Z) : M mk (inode * Z) :=
  match fuel with
  | O => nofuel
  | S f =>
      match p with
      | [] => ret (din, off)
      | _ =>
          let fbn := off / BSIZE in
          if negb (fbn <? MAXFILE) then panic "assert"
          else
            r <- iblock din fbn ;;
            let '(din, x) := r in
            let n1 := Z.min (Z.of_nat (length p)) ((fbn + 1) * BSIZE - off) in
            buf <- rsect x ;;
            wsect x (splice buf (off - fbn * BSIZE) (take (Z.to_nat n1) p)) ;;;
            iappend_loop f din (off + n1) (drop (Z.to_nat n1) p)
      end
  end.
Definition iappend (inum : Z) (p : list Z) : M mk unit :=
  din <- rinode inum ;;
  r <- iappend_loop (S (length p)) din (xint (isize din)) p ;;
  let '(din, off) := r in
  winode inum (set_isize (xint off) din).

(** A [struct dirent]. *)
Definition dirent (inum : Z) (name : list Z) : list Z := le16 (xshort inum) ++ dirname (Z.to_nat DIRSIZ) name.
(** [while((cc = read(fd, buf, sizeof(buf))) > 0) iappend(inum, buf, cc);] *)
Fixpoint append_file (fuel : nat) (inum : Z) (data : list Z) : M mk unit :=
  match fuel with
  | O => nofuel
  | S f =>
      match data with
      | [] => ret tt
      | _ => iappend inum (take 512 data) ;;; append_file f inum (drop 512 data)
      end
  end.
(** [if(argv[i][0] == '_') ++argv[i];] *)
Definition strip (name : list Z) : list Z := match name with 95 :: rest => rest | _ => name end.
Fixpoint add_files (rootino : Z) (files : list (list Z * list Z)) : M mk unit :=
  match files with
  | [] => ret tt
  | (name, data) :: files =>
      if bool_decide (47 ∈ name) then panic "assert"
      else
        inum <- ialloc T_FILE ;;
        iappend rootino (dirent inum (strip name)) ;;;
        append_file (S (length data)) inum data ;;;
        add_files rootino files
  end.
(** [for(i = 0; i < FSSIZE; i++) wsect(i, zeroes);] *)
Fixpoint clear_img (n : nat) (i : Z) : M mk unit :=
  match n with O => ret tt | S n => wsect i zeroes ;;; clear_img n (i + 1) end.
(** The files with their names as [argv] has them from [argv[2]] on. *)
Definition main (files : list (list Z * list Z)) : M mk unit :=
  modify (set_freeblock nmeta) ;;;
  clear_img (Z.to_nat FSSIZE) 0 ;;;
  wsect 1 (splice zeroes 0 (enc_sb sb)) ;;;
  rootino <- ialloc T_DIR ;;
  if negb (rootino =? ROOTINO) then panic "assert"
  else
    iappend rootino (dirent rootino [46]) ;;;
    iappend rootino (dirent rootino [46; 46]) ;;;
    add_files rootino files ;;;
    din <- rinode rootino ;;
    winode rootino (set_isize (xint ((xint (isize din) / BSIZE + 1) * BSIZE)) din) ;;;
    used <- gets freeblock ;;
    balloc used.
(** [freeinode] is initialised, the image is empty. *)
Definition mk0 : mk := mkmk (fun _ => []) 0 1 0.
