(* ===== verification/MkfsLay.v ===== *)
(** * How the image builder lays files out

    The state of an image under construction, as the files that are on it with the blocks
    each of them has, and that every routine of [src/xv6/mkfs.c] keeps it: appending to a
    file changes the blocks of that file and fresh ones, and no others. *)

From S2P Require Import Prelude Mem Bio BioRules Log LogRules LogProps Fs FsRules FsFile Mkfs.
Local Open Scope Z_scope.

(** ** Inodes in their blocks *)

(** A disk inode: thirteen addresses, and every field in its width. *)
Record dinode_ok (p : inode) : Prop := {
  di_type : 0 <= itype p < 2 ^ 15;
  di_nlink : 0 <= inlink p < 2 ^ 15;
  di_size : 0 <= isize p < 2 ^ 32;
  di_addrs : length (iaddrs p) = 13%nat;
  di_range : Forall (fun a => 0 <= a < 2 ^ 32) (iaddrs p);
  di_rest : p = mkinode 0 0 0 (mksl false 0) false (itype p) 0 0 (inlink p) (isize p) (iaddrs p) }.
Definition dinode (d : Z -> list Z) (i : Z) : inode := dec_dinode (d (IBLOCK i sb)) (i mod IPB * DINODE) dinode0.

(** Every field that is written fits. *)
Record storable (p : inode) : Prop := {
  sto_type : 0 <= itype p < 2 ^ 15; sto_major : 0 <= imajor p < 2 ^ 15; sto_minor : 0 <= iminor p < 2 ^ 15;
  sto_nlink : 0 <= inlink p < 2 ^ 15; sto_size : 0 <= isize p < 2 ^ 32;
  sto_addrs : length (iaddrs p) = 13%nat; sto_range : Forall (fun a => 0 <= a < 2 ^ 32) (iaddrs p) }.

Lemma length_enc13 p : length (iaddrs p) = 13%nat -> length (enc_dinode p) = 64%nat.
Proof.
  intros E. unfold enc_dinode. rewrite !length_app.
  assert (H : forall l : list Z, length (concat (le32 <$> l)) = (4 * length l)%nat) by (induction l as [|x l IH]; [done|]; cbn in *; lia).
  rewrite H, E. reflexivity.
Qed.
Lemma length_enc p : dinode_ok p -> length (enc_dinode p) = 64%nat.
Proof. intros []. by apply length_enc13. Qed.
Lemma rd32_le32 d o v : byte_at d o = u8 v -> byte_at d (o + 1) = u8 (Z.shiftr v 8) -> byte_at d (o + 2) = u8 (Z.shiftr v 16) ->
  byte_at d (o + 3) = u8 (Z.shiftr v 24) -> rd32 d o = u32 v.
Proof. intros H0 H1 H2 H3. unfold rd32. rewrite H0, H1, H2, H3. apply u32_shift_bytes. Qed.
Lemma rd16_le16 d o v : byte_at d o = u8 v -> byte_at d (o + 1) = u8 (Z.shiftr v 8) -> rd16 d o = u16 v.
Proof. intros H0 H1. unfold rd16. rewrite H0, H1. apply u16_shift_bytes. Qed.
(** A field of an encoded inode that is [d] from [o] on. *)
Definition shows_at (d : list Z) (o : Z) (e : list Z) : Prop := forall k, 0 <= k < 64 -> byte_at d (o + k) = byte_at e k.
Lemma rd32_at d o e k v : shows_at d o e -> 0 <= k -> k + 4 <= 64 -> 0 <= v < 2 ^ 32 -> take 4 (drop (Z.to_nat k) e) = le32 v -> rd32 d (o + k) = v.
Proof.
  intros H K1 K2 K3 E. rewrite <-(u32_small v) by exact K3.
  assert (B : forall c, 0 <= c < 4 -> byte_at d (o + k + c) = byte_at (le32 v) c).
  { intros c Hc. rewrite <-Z.add_assoc, H by lia. rewrite <-E. unfold byte_at. rewrite lookup_take_lt, lookup_drop by lia. do 2 f_equal. lia. }
  apply rd32_le32; [rewrite <-(Z.add_0_r (o + k))|..]; rewrite B by lia; reflexivity.
Qed.
Lemma rd16_at d o e k v : shows_at d o e -> 0 <= k -> k + 2 <= 64 -> 0 <= v < 2 ^ 15 -> take 2 (drop (Z.to_nat k) e) = le16 v -> s16 (rd16 d (o + k)) = v.
Proof.
  intros H K1 K2 K3 E.
  assert (B : forall c, 0 <= c < 2 -> byte_at d (o + k + c) = byte_at (le16 v) c).
  { intros c Hc. rewrite <-Z.add_assoc, H by lia. rewrite <-E. unfold byte_at. rewrite lookup_take_lt, lookup_drop by lia. do 2 f_equal. lia. }
  rewrite (rd16_le16 d (o + k) v); [|rewrite <-(Z.add_0_r (o + k)), B by lia; reflexivity|rewrite B by lia; reflexivity].
  unfold s16. rewrite u16_small by (rewrite u16_small by lia; lia). rewrite u16_small by lia. destruct (Z.ltb_spec v (2 ^ 15)); lia.
Qed.
Lemma set_fields a b c e f l p : set_itype a (set_imajor b (set_iminor c (set_inlink e (set_isize f (set_iaddrs l p))))) =
  mkinode (idev p) (inum p) (iref p) (ilk p) (ivalid p) a b c e f l.
Proof. by destruct p. Qed.
Lemma dec_dinode_eq d o : dec_dinode d o dinode0 = mkinode 0 0 0 (mksl false 0) false (s16 (rd16 d (o + 0))) (s16 (rd16 d (o + 2))) (s16 (rd16 d (o + 4)))
  (s16 (rd16 d (o + 6))) (rd32 d (o + 8)) ((fun k => rd32 d (o + (12 + 4 * k))) <$> [0; 1; 2; 3; 4; 5; 6; 7; 8; 9; 10; 11; 12]).
Proof.
  rewrite Z.add_0_r. unfold dec_dinode. rewrite set_fields. cbn [idev inum iref ilk ivalid dinode0]. f_equal.
  change (seqZ 0 (NDIRECT + 1)) with [0; 1; 2; 3; 4; 5; 6; 7; 8; 9; 10; 11; 12]. apply list_fmap_ext. intros i k _. by rewrite Z.add_assoc.
Qed.
Lemma dec_storable d o p : storable p -> shows_at d o (enc_dinode p) -> dec_dinode d o dinode0 =
  mkinode 0 0 0 (mksl false 0) false (itype p) (imajor p) (iminor p) (inlink p) (isize p) (iaddrs p).
Proof.
  intros [Ht Hj Hi Hn Hs Ha Hr] H. destruct p as [dv im rf lk vl ty mj mi nl sz ad]. cbn [itype imajor iminor inlink isize iaddrs] in *.
  do 13 (destruct ad as [|? ad]; [discriminate Ha|]). destruct ad; [|discriminate Ha].
  repeat (apply Forall_cons in Hr as [? Hr]). clear Hr Ha. rewrite dec_dinode_eq. cbn [fmap list_fmap].
  f_equal; [apply (rd16_at _ _ _ _ _ H); [lia|lia|lia|reflexivity]..|apply (rd32_at _ _ _ _ _ H); [lia|lia|lia|reflexivity]|].
  repeat (f_equal; [apply (rd32_at _ _ _ _ _ H); [lia|lia|lia|reflexivity]|]). f_equal. apply (rd32_at _ _ _ _ _ H); [lia|lia|lia|reflexivity].
Qed.
Lemma dec_enc d o p : dinode_ok p -> shows_at d o (enc_dinode p) -> dec_dinode d o dinode0 = p.
Proof.
  intros [Ht Hn Hs Ha Hr Hp] H. rewrite (dec_storable d o p); [|by rewrite Hp in *|done]. rewrite Hp at 2 3. by symmetry.
Qed.

(** ** Files on the image *)

(** The block of the file for slot [k]: a block of data, or the indirect block for -1. *)
Definition fblk (d : Z -> list Z) (p : inode) (k : Z) : Z :=
  if k <? NDIRECT then addr_at p k else rd32 (d (addr_at p NDIRECT)) (4 * (k - NDIRECT)).
Definition blk (d : Z -> list Z) (p : inode) (k : Z) : Z := if k =? -1 then addr_at p NDIRECT else fblk d p k.
(** The slots of a file of [n] blocks, and how many there are. *)
Definition slot (n k : Z) : Prop := 0 <= k < n \/ k = -1 /\ NDIRECT < n.
Definition cost (n : Z) : Z := n + (if NDIRECT <? n then 1 else 0).

(** The inode [p] with its [n] blocks below [fb] holds [data], and zeroes behind it. *)
Record laid (d : Z -> list Z) (fb : Z) (p : inode) (n : Z) (data : list Z) : Prop := {
  la_ok : dinode_ok p;
  la_n : 0 <= n <= MAXFILE;
  la_len : Z.of_nat (length data) <= 512 * n;
  la_range : forall k, slot n k -> nmeta <= blk d p k < fb;
  la_new : forall k, n <= k < NDIRECT -> addr_at p k = 0;
  la_ind : n <= NDIRECT -> addr_at p NDIRECT = 0;
  la_ent : NDIRECT < n -> forall k, n <= k < MAXFILE -> rd32 (d (addr_at p NDIRECT)) (4 * (k - NDIRECT)) = 0;
  la_byte : forall j, 0 <= j < 512 * n -> byte_at (d (blk d p (j / 512))) (j mod 512) = byte_at data j }.

Notation fnode := (inode * Z * list Z)%type.
Definition costs (N : list fnode) : Z := foldr (fun f a => cost (f.1.2) + a) 0 N.
Record lay (d : Z -> list Z) (fb : Z) (N : list fnode) : Prop := {
  ly_len : forall b, 0 <= b < FSSIZE -> length (d b) = 512%nat;
  ly_fb : fb = nmeta + costs N;
  ly_free : forall b, fb <= b < FSSIZE -> d b = zeroes;
  ly_file : forall i p n data, N !! i = Some (p, n, data) -> laid d fb p n data;
  ly_inj : forall i i' p n data p' n' data' k k', N !! i = Some (p, n, data) -> N !! i' = Some (p', n', data') ->
    slot n k -> slot n' k' -> blk d p k = blk d p' k' -> i = i' /\ k = k' }.

Lemma consts : NDIRECT = 12 /\ MAXFILE = 140 /\ FSSIZE = 4000 /\ nmeta = 59.
Proof. repeat split; reflexivity. Qed.
Ltac cst := destruct consts as (?C1 & ?C2 & ?C3 & ?C4).

Lemma cost_nonneg n : 0 <= n -> 0 <= cost n.
Proof. unfold cost. case_if; lia. Qed.
Lemma costs_insert N i p n data p' n' data' : N !! i = Some (p, n, data) -> costs (<[i := (p', n', data')]> N) = costs N + cost n' - cost n.
Proof.
  revert i. induction N as [|f N IH]; intros [|i] H; try discriminate.
  - cbn in H. injection H as ->. cbn. lia.
  - cbn in H. change (costs (f :: N)) with (cost f.1.2 + costs N).
    change (<[S i := (p', n', data')]> (f :: N)) with (f :: <[i := (p', n', data')]> N). unfold costs at 1. cbn [foldr]. fold (costs (<[i := (p', n', data')]> N)). rewrite (IH i H). lia.
Qed.
Lemma costs_app N M : costs (N ++ M) = costs N + costs M.
Proof.
  induction N as [|f N IH]; [done|]. change (costs ((f :: N) ++ M)) with (cost f.1.2 + costs (N ++ M)).
  change (costs (f :: N)) with (cost f.1.2 + costs N). lia.
Qed.

(** Slots are the same on a disk that keeps the blocks of the file. *)
Lemma blk_same d d' fb p n data k : laid d fb p n data -> (forall j, slot n j -> d' (blk d p j) = d (blk d p j)) -> slot n k -> blk d' p k = blk d p k.
Proof.
  intros H E Hk. unfold blk, fblk. destruct (k =? -1) eqn:E1; zbool; [done|]. destruct (k <? NDIRECT) eqn:E2; zbool; [done|].
  assert (S : slot n (-1)) by (right; split; [done|]; destruct Hk; lia).
  specialize (E (-1) S). unfold blk in E. cbn in E. by rewrite E.
Qed.
Lemma laid_same d d' fb fb' p n data : laid d fb p n data -> fb <= fb' -> (forall j, slot n j -> d' (blk d p j) = d (blk d p j)) -> laid d' fb' p n data.
Proof.
  intros H Hf E. assert (B := fun k => blk_same d d' fb p n data k H E). destruct H as [A1 A2 A3 A4 A5 A6 A7 A8]. split; try done.
  - intros k Hk. rewrite B by done. specialize (A4 k Hk). lia.
  - intros Hn k Hk. specialize (E (-1) (or_intror (conj eq_refl Hn))). unfold blk in E. cbn in E. rewrite E. by apply A7.
  - intros j Hj. assert (S : slot n (j / 512)) by (left; split; [apply Z.div_pos; lia|apply Z.div_lt_upper_bound; lia]).
    rewrite B, E by done. by apply A8.
Qed.

(** A file is changed in its own blocks and in fresh ones. *)
Lemma lay_upd d fb N i p n data d' fb' p' n' data' : lay d fb N -> N !! i = Some (p, n, data) ->
  fb <= fb' -> fb' = fb + cost n' - cost n -> laid d' fb' p' n' data' ->
  (forall b, 0 <= b < FSSIZE -> length (d' b) = 512%nat) -> (forall b, fb' <= b < FSSIZE -> d' b = d b) ->
  (forall b, nmeta <= b < fb -> (forall k, slot n k -> b <> blk d p k) -> d' b = d b) ->
  (forall k, slot n' k -> (exists k0, slot n k0 /\ blk d' p' k = blk d p k0) \/ fb <= blk d' p' k) ->
  (forall k k', slot n' k -> slot n' k' -> blk d' p' k = blk d' p' k' -> k = k') ->
  lay d' fb' (<[i := (p', n', data')]> N).
Proof.
  intros [L1 L2 L3 L4 L5] Hi Hf Hc Hl Hlen Hfree Hoth Hnew Hinj. assert (Hin : (i < length N)%nat) by (by eapply lookup_lt_Some).
  assert (O : forall i1 p1 n1 d1 k, i1 <> i -> N !! i1 = Some (p1, n1, d1) -> slot n1 k -> d' (blk d p1 k) = d (blk d p1 k)).
  { intros i1 p1 n1 d1 k Hne H1 Hk. apply Hoth; [by apply (la_range _ _ _ _ _ (L4 _ _ _ _ H1))|]. intros k0 Hk0 E. by destruct (L5 _ _ _ _ _ _ _ _ _ _ H1 Hi Hk Hk0 E). }
  assert (B : forall i1 p1 n1 d1 k, i1 <> i -> N !! i1 = Some (p1, n1, d1) -> slot n1 k -> blk d' p1 k = blk d p1 k).
  { intros i1 p1 n1 d1 k Hne H1 Hk. apply (blk_same d d' fb p1 n1 d1); [by eapply L4|intros j Hj; by eapply O|done]. }
  assert (X : forall i1 p1 n1 d1 k k', i1 <> i -> N !! i1 = Some (p1, n1, d1) -> slot n1 k -> slot n' k' -> blk d p1 k <> blk d' p' k').
  { intros i1 p1 n1 d1 k k' Hne H1 Hk Hk' E. destruct (Hnew k' Hk') as [(k0 & Hk0 & E0)|Hge].
    - rewrite E0 in E. by destruct (L5 _ _ _ _ _ _ _ _ _ _ H1 Hi Hk Hk0 E).
    - assert (R := la_range _ _ _ _ _ (L4 _ _ _ _ H1) k Hk). lia. }
  split.
  - done.
  - rewrite (costs_insert _ _ _ _ _ _ _ _ Hi). lia.
  - intros b Hb. rewrite Hfree by done. apply L3. lia.
  - intros i1 p1 n1 d1 H1. apply list_lookup_insert_Some in H1 as [(<- & [= -> -> ->] & _)|[Hne H1]]; [done|].
    apply (laid_same d d' fb); [by eapply L4|done|]. intros j Hj. by eapply O.
  - intros i1 i2 p1 n1 d1 p2 n2 d2 k k' H1 H2 Hk Hk' E.
    apply list_lookup_insert_Some in H1 as [(<- & [= -> -> ->] & _)|[Hne1 H1]]; apply list_lookup_insert_Some in H2 as [(<- & [= -> -> ->] & _)|[Hne2 H2]].
    + split; [done|]. by apply Hinj.
    + rewrite (B _ _ _ _ _ (not_eq_sym Hne2) H2 Hk') in E. by destruct (X _ _ _ _ _ _ (not_eq_sym Hne2) H2 Hk' Hk).
    + rewrite (B _ _ _ _ _ (not_eq_sym Hne1) H1 Hk) in E. by destruct (X _ _ _ _ _ _ (not_eq_sym Hne1) H1 Hk Hk').
    + rewrite (B _ _ _ _ _ (not_eq_sym Hne1) H1 Hk), (B _ _ _ _ _ (not_eq_sym Hne2) H2 Hk') in E. by eapply L5.
Qed.

(** ** A block more *)

Lemma slot_S n k : slot (n + 1) k -> slot n k \/ k = n \/ k = -1 /\ n = NDIRECT.
Proof. unfold slot. intros [H|[-> H]]; [|destruct (decide (n = NDIRECT)); [auto|]; left; right; split; [done|lia]]. destruct (decide (k = n)); [auto|left; left; lia]. Qed.
Lemma cost_S n : 0 <= n -> cost (n + 1) - cost n = if n =? NDIRECT then 2 else 1.
Proof. cst. unfold cost. intros H. repeat case_if; lia. Qed.
Lemma byte_zeroes k : byte_at zeroes k = 0.
Proof. unfold byte_at, zeroes. destruct (replicate 512 0 !! Z.to_nat k) eqn:E; [|done]. apply lookup_replicate in E as [-> _]. done. Qed.
Lemma byte_beyond l j : Z.of_nat (length l) <= j -> byte_at l j = 0.
Proof. intros H. unfold byte_at. by rewrite lookup_ge_None_2 by lia. Qed.

Lemma lay_fb d fb N : lay d fb N -> nmeta <= fb.
Proof.
  intros L. rewrite (ly_fb _ _ _ L). enough (0 <= costs N) by lia.
  assert (F : Forall (fun f : fnode => 0 <= f.1.2) N).
  { apply Forall_lookup. intros i [[p n] data] Hi. cbn. apply (la_n _ _ _ _ _ (ly_file _ _ _ L _ _ _ _ Hi)). }
  clear L. induction F as [|f N Hf _ IH]; [done|]. change (costs (f :: N)) with (cost f.1.2 + costs N). pose proof (cost_nonneg _ Hf). lia.
Qed.
Lemma grow_finish d fb N i p n data d' fb' p' : lay d fb N -> N !! i = Some (p, n, data) -> n < MAXFILE ->
  fb' = fb + cost (n + 1) - cost n -> fb' <= FSSIZE -> dinode_ok p' ->
  (forall k, slot n k -> blk d' p' k = blk d p k) -> blk d' p' n = fb' - 1 -> (n = NDIRECT -> blk d' p' (-1) = fb) ->
  (forall k, n + 1 <= k < NDIRECT -> addr_at p' k = 0) -> (n + 1 <= NDIRECT -> addr_at p' NDIRECT = 0) ->
  (NDIRECT < n + 1 -> forall k, n + 1 <= k < MAXFILE -> rd32 (d' (addr_at p' NDIRECT)) (4 * (k - NDIRECT)) = 0) ->
  (forall b, 0 <= b < FSSIZE -> length (d' b) = 512%nat) ->
  (forall b, n < NDIRECT \/ b <> blk d' p' (-1) -> d' b = d b) ->
  lay d' fb' (<[i := (p', n + 1, data)]> N).
Proof.
  cst. intros L Hi Hm Hfb Hfs Hok Hold Hn Hind A5 A6 A7 Hlen Hd. assert (H := ly_file _ _ _ L _ _ _ _ Hi).
  assert (Hn0 := la_n _ _ _ _ _ H). assert (Hc := cost_S n ltac:(lia)).
  assert (I : forall k k', slot n k -> slot n k' -> blk d p k = blk d p k' -> k = k') by (intros k k' Hk Hk' E; by destruct (ly_inj _ _ _ L _ _ _ _ _ _ _ _ _ _ Hi Hi Hk Hk' E)).
  assert (R := la_range _ _ _ _ _ H). assert (Hfb0 := lay_fb _ _ _ L).
  assert (F : fb <= fb' - 1 /\ (n = NDIRECT -> fb < fb' - 1)) by (rewrite Hfb; destruct (n =? NDIRECT) eqn:E; zbool; lia).
  assert (D : forall b, (n = NDIRECT -> b <> fb) -> (NDIRECT < n -> b <> blk d p (-1)) -> d' b = d b).
  { intros b B1 B2. apply Hd. destruct (decide (n < NDIRECT)); [by left|right]. destruct (decide (n = NDIRECT)) as [En|En]; [rewrite (Hind En); by apply B1|].
    rewrite Hold by (right; split; [done|lia]). apply B2. lia. }
  assert (S1 : NDIRECT < n -> slot n (-1)) by (intros Hlt; by right).
  eapply lay_upd; try done; try lia.
  - split; try done; try lia.
    + pose proof (la_len _ _ _ _ _ H). lia.
    + intros k [Hk|[->|[-> En]]]%slot_S; [rewrite Hold by done; specialize (R k Hk); lia|rewrite Hn; lia|rewrite (Hind En); lia].
    + intros j Hj. destruct (decide (j < 512 * n)) as [Hjn|Hjn].
      * assert (Hk : slot n (j / 512)) by (left; split; [apply Z.div_pos; lia|apply Z.div_lt_upper_bound; lia]). assert (0 <= j / 512) by (apply Z.div_pos; lia).
        rewrite Hold, D; [apply (la_byte _ _ _ _ _ H); lia|specialize (R _ Hk); lia| |done]. intros Hlt E. apply I in E; [lia|done|by apply S1].
      * assert (j / 512 = n) as -> by (symmetry; apply Z.div_unique with (j - 512 * n); lia). pose proof (la_len _ _ _ _ _ H).
        rewrite Hn, D, (ly_free _ _ _ L), byte_zeroes, byte_beyond; try lia. intros Hlt. specialize (R _ (S1 Hlt)). lia.
  - intros b Hb. apply D; [lia|]. intros Hlt. specialize (R _ (S1 Hlt)). lia.
  - intros b Hb Hs. apply D; [lia|]. intros Hlt. apply Hs, S1, Hlt.
  - intros k [Hk|[->|[-> En]]]%slot_S; [left; exists k; split; [done|by apply Hold]|right; lia|right; rewrite (Hind En); lia].
  - intros k k' [Hk|[->|[-> En]]]%slot_S [Hk'|[->|[-> En']]]%slot_S; rewrite ?(Hind En), ?(Hind En'), ?Hn, ?(Hold k Hk), ?(Hold k' Hk'); try done; intros E.
    + by apply I.
    + specialize (R k Hk). lia.
    + specialize (R k Hk). lia.
    + specialize (R k' Hk'). lia.
    + lia.
    + specialize (R k' Hk'). lia.
    + lia.
Qed.

Lemma addr_set p k a j : dinode_ok p -> 0 <= k <= NDIRECT -> 0 <= j -> addr_at (set_addr k a p) j = if j =? k then a else addr_at p j.
Proof.
  intros [] Hk Hj. cst. unfold addr_at, set_addr. cbn [iaddrs set_iaddrs]. destruct (Z.eqb_spec j k) as [->|Hne].
  - by rewrite list_lookup_insert_eq by lia.
  - by rewrite list_lookup_insert_ne by lia.
Qed.
Lemma dinode_set_addr p k a : dinode_ok p -> 0 <= a < 2 ^ 32 -> dinode_ok (set_addr k a p).
Proof.
  intros [H1 H2 H3 H4 H5 H6] Ha. unfold set_addr. split; cbn; try done.
  - by rewrite length_insert.
  - by apply Forall_insert.
  - destruct p. cbn in *. by injection H6 as -> -> -> -> -> -> ->.
Qed.
(** The three ways a file gets its next block. *)
Lemma grow_direct d fb N i p n data : lay d fb N -> N !! i = Some (p, n, data) -> n < NDIRECT -> fb + 1 <= FSSIZE ->
  lay d (fb + 1) (<[i := (set_addr n fb p, n + 1, data)]> N) /\ blk d (set_addr n fb p) n = fb.
Proof.
  cst. intros L Hi Hn Hf. assert (H := ly_file _ _ _ L _ _ _ _ Hi). assert (Hn0 := la_n _ _ _ _ _ H). assert (Hok := la_ok _ _ _ _ _ H).
  assert (Hfb := lay_fb _ _ _ L). assert (A := fun j => addr_set p n fb j Hok ltac:(lia)). assert (Hc := cost_S n ltac:(lia)).
  assert (B : forall k, 0 <= k < NDIRECT -> blk d (set_addr n fb p) k = if k =? n then fb else blk d p k).
  { intros k Hk. unfold blk, fblk. destruct (Z.eqb_spec k (-1)); [lia|]. destruct (Z.ltb_spec k NDIRECT); [|lia]. apply A. lia. }
  assert (E : blk d (set_addr n fb p) n = fb) by (rewrite B by lia; by rewrite Z.eqb_refl). split; [|exact E].
  eapply grow_finish; try done; try lia.
  - destruct (n =? NDIRECT) eqn:E1; zbool; lia.
  - apply dinode_set_addr; [done|lia].
  - intros k [Hk|[-> Hk]]; [|lia]. rewrite B by lia. by destruct (Z.eqb_spec k n); [lia|].
  - intros k Hk. rewrite A by lia. destruct (Z.eqb_spec k n); [lia|]. apply (la_new _ _ _ _ _ H). lia.
  - intros _. rewrite A by lia. destruct (Z.eqb_spec NDIRECT n); [lia|]. apply (la_ind _ _ _ _ _ H). lia.
  - apply (ly_len _ _ _ L).
Qed.
Lemma grow_first d fb N i p data : lay d fb N -> N !! i = Some (p, NDIRECT, data) -> fb + 2 <= FSSIZE ->
  let d' := <[fb := wr32 (d fb) 0 (fb + 1)]> d in
  rd32 (d fb) 0 = 0 /\ lay d' (fb + 2) (<[i := (set_addr NDIRECT fb p, NDIRECT + 1, data)]> N) /\ blk d' (set_addr NDIRECT fb p) NDIRECT = fb + 1.
Proof.
  cst. intros L Hi Hf d'. assert (H := ly_file _ _ _ L _ _ _ _ Hi). assert (Hok := la_ok _ _ _ _ _ H).
  assert (Hfb := lay_fb _ _ _ L). assert (A := fun j => addr_set p NDIRECT fb j Hok ltac:(lia)).
  assert (Z0 : d fb = zeroes) by (apply (ly_free _ _ _ L); lia). assert (A12 : addr_at (set_addr NDIRECT fb p) NDIRECT = fb) by (rewrite A by lia; by rewrite Z.eqb_refl).
  assert (D0 : d' fb = wr32 zeroes 0 (fb + 1)) by (unfold d'; rewrite zfn_insert_eq, Z0; done).
  assert (W : rd32 (d' fb) 0 = fb + 1) by (rewrite D0, rd32_wr32 by (cbn; lia); apply u32_small; lia).
  assert (B : forall k, 0 <= k < NDIRECT -> blk d' (set_addr NDIRECT fb p) k = blk d p k).
  { intros k Hk. unfold blk, fblk. destruct (Z.eqb_spec k (-1)); [lia|]. destruct (Z.ltb_spec k NDIRECT); [|lia]. rewrite A by lia. by destruct (Z.eqb_spec k NDIRECT); [lia|]. }
  assert (B1 : blk d' (set_addr NDIRECT fb p) (-1) = fb) by (unfold blk; cbn; exact A12).
  assert (E : blk d' (set_addr NDIRECT fb p) NDIRECT = fb + 1) by (unfold blk, fblk; cbn [Z.eqb]; rewrite Z.ltb_irrefl, A12; exact W).
  split; [by rewrite Z0|]. split; [|exact E].
  eapply grow_finish; try done; try lia.
  - change (cost (NDIRECT + 1)) with 14. change (cost NDIRECT) with 12. lia.
  - apply dinode_set_addr; [done|lia].
  - intros k [Hk|[-> Hk]]; [by apply B|lia].
  - intros _ k Hk. rewrite A12, D0, rd32_wr32_ne by lia. unfold rd32. by rewrite !byte_zeroes.
  - intros b Hb. unfold d'. destruct (decide (b = fb)) as [->|]; [by rewrite zfn_insert_eq, length_wr32, Z0|]. rewrite zfn_insert_ne by done. by apply (ly_len _ _ _ L).
  - intros b [Hb|Hb]; [lia|]. unfold d'. rewrite B1 in Hb. by rewrite zfn_insert_ne.
Qed.
Lemma grow_next d fb N i p n data : lay d fb N -> N !! i = Some (p, n, data) -> NDIRECT < n < MAXFILE -> fb + 1 <= FSSIZE ->
  let a := addr_at p NDIRECT in
  let d' := <[a := wr32 (d a) (4 * (n - NDIRECT)) fb]> d in
  nmeta <= a < fb /\ rd32 (d a) (4 * (n - NDIRECT)) = 0 /\ lay d' (fb + 1) (<[i := (p, n + 1, data)]> N) /\ blk d' p n = fb.
Proof.
  cst. intros L Hi Hn Hf a d'. assert (H := ly_file _ _ _ L _ _ _ _ Hi). assert (Hok := la_ok _ _ _ _ _ H). assert (Hfb := lay_fb _ _ _ L).
  assert (Ra : nmeta <= a < fb) by (apply (la_range _ _ _ _ _ H (-1)); right; split; [done|lia]). assert (La : length (d a) = 512%nat) by (apply (ly_len _ _ _ L); lia).
  assert (Da : d' a = wr32 (d a) (4 * (n - NDIRECT)) fb) by apply zfn_insert_eq.
  assert (E : blk d' p n = fb).
  { unfold blk, fblk. destruct (Z.eqb_spec n (-1)); [lia|]. destruct (Z.ltb_spec n NDIRECT); [lia|]. fold a. rewrite Da, rd32_wr32 by lia. apply u32_small. lia. }
  assert (Hc := cost_S n ltac:(lia)).
  split; [done|]. split; [apply (la_ent _ _ _ _ _ H); lia|]. split; [|exact E].
  eapply grow_finish; try done; try lia.
  - destruct (n =? NDIRECT) eqn:E1; zbool; lia.
  - intros k Hk. unfold blk, fblk. destruct (Z.eqb_spec k (-1)); [done|]. destruct (Z.ltb_spec k NDIRECT); [done|]. fold a.
    destruct Hk as [Hk|[-> _]]; [|done]. rewrite Da, rd32_wr32_ne by lia. done.
  - intros _ k Hk. fold a. rewrite Da, rd32_wr32_ne by lia. apply (la_ent _ _ _ _ _ H); lia.
  - intros b Hb. unfold d'. destruct (decide (b = a)) as [->|]; [by rewrite zfn_insert_eq, length_wr32|]. rewrite zfn_insert_ne by done. by apply (ly_len _ _ _ L).
  - intros b [Hb|Hb]; [lia|]. unfold d'. rewrite zfn_insert_ne; [done|]. intros <-. by apply Hb.
Qed.

(** Fields an append does not change. *)
Definition same_head (p p' : inode) : Prop := itype p' = itype p /\ inlink p' = inlink p /\ isize p' = isize p.
Lemma rsect_ok b d fi fb : b < FSSIZE -> rsect b (mkmk d FSSIZE fi fb) = Ret (d b, mkmk d FSSIZE fi fb).
Proof. intros H. unfold rsect. mstep. cbn [img_len img]. by destruct (Z.ltb_spec b FSSIZE); [|lia]. Qed.
Lemma wsect_ok b buf d fi fb : b < FSSIZE -> wsect b buf (mkmk d FSSIZE fi fb) = Ret (tt, mkmk (<[b := buf]> d) FSSIZE fi fb).
Proof. intros H. unfold wsect, modify, set_img_len, set_img. cbn [img_len img freeinode freeblock]. by rewrite Z.max_l by lia. Qed.
Lemma next_block_ok d fi fb : 0 <= fb < FSSIZE -> next_block (mkmk d FSSIZE fi fb) = Ret (fb, mkmk d FSSIZE fi (fb + 1)).
Proof. cst. intros H. unfold next_block. mstep. unfold set_freeblock. cbn [freeblock img img_len freeinode]. by rewrite u32_small by lia. Qed.

(** The block behind the end of the file is allocated. *)
Lemma iblock_new d fi fb N i p n data : lay d fb N -> N !! i = Some (p, n, data) -> n < MAXFILE -> fb + cost (n + 1) - cost n <= FSSIZE ->
  exists d' p', iblock p n (mkmk d FSSIZE fi fb) = Ret ((p', blk d' p' n), mkmk d' FSSIZE fi (fb + cost (n + 1) - cost n))
    /\ lay d' (fb + cost (n + 1) - cost n) (<[i := (p', n + 1, data)]> N) /\ same_head p p' /\ forall b, b < nmeta -> d' b = d b.
Proof.
  cst. intros L Hi Hm Hf. assert (H := ly_file _ _ _ L _ _ _ _ Hi). assert (Hn0 := la_n _ _ _ _ _ H). assert (Hfb := lay_fb _ _ _ L).
  assert (Hc := cost_S n ltac:(lia)). assert (Hfs : fb + 1 <= FSSIZE) by (destruct (Z.eqb_spec n NDIRECT); lia). unfold iblock. destruct (Z.ltb_spec n NDIRECT) as [Hlt|Hge].
  - destruct (grow_direct d fb N i p n data L Hi Hlt) as [L' E]; [destruct (Z.eqb_spec n NDIRECT); lia|].
    rewrite (la_new _ _ _ _ _ H) by lia. cbn [Z.eqb]. exists d, (set_addr n fb p).
    replace (fb + cost (n + 1) - cost n) with (fb + 1) by (destruct (Z.eqb_spec n NDIRECT); lia).
    assert (X : addr_at (set_addr n fb p) n = fb) by (rewrite addr_set by (lia || apply H); by rewrite Z.eqb_refl).
    erewrite bind_step by (rewrite (bind_step _ _ _ _ _ (next_block_ok d fi fb ltac:(destruct (Z.eqb_spec n NDIRECT); lia))); reflexivity).
    unfold xint. rewrite (u32_small fb) by lia. rewrite X, u32_small by lia. rewrite E. split; [done|]. done.
  - destruct (Z.eqb_spec n NDIRECT) as [->|Hne].
    + destruct (grow_first d fb N i p data L Hi ltac:(lia)) as (Z0 & L' & E). set (d' := <[fb := wr32 (d fb) 0 (fb + 1)]> d) in *.
      rewrite (la_ind _ _ _ _ _ H) by lia. cbn [Z.eqb]. exists d', (set_addr NDIRECT fb p). replace (fb + cost (NDIRECT + 1) - cost NDIRECT) with (fb + 2) by lia.
      assert (X : addr_at (set_addr NDIRECT fb p) NDIRECT = fb) by (rewrite addr_set by (lia || apply H); by rewrite Z.eqb_refl).
      erewrite bind_step by (rewrite (bind_step _ _ _ _ _ (next_block_ok d fi fb ltac:(lia))); reflexivity).
      unfold xint. rewrite (u32_small fb) by lia. rewrite X, (u32_small fb) by lia. erewrite bind_step by (apply rsect_ok; lia).
      change (4 * (NDIRECT - NDIRECT)) with 0. rewrite Z0. cbn [Z.eqb].
      erewrite bind_step by (rewrite (bind_step _ _ _ _ _ (next_block_ok d fi (fb + 1) ltac:(lia))), (bind_step _ _ _ _ _ (wsect_ok fb _ d fi _ ltac:(lia))); reflexivity).
      rewrite (u32_small (fb + 1)) by lia. fold d'. rewrite rd32_wr32, !u32_small by (rewrite ?u32_small; rewrite ?(ly_len _ _ _ L); lia). rewrite E.
      replace (fb + 1 + 1) with (fb + 2) by lia. split; [done|]. split; [done|]. split; [done|]. intros b Hb. unfold d'. by rewrite zfn_insert_ne by lia.
    + destruct (grow_next d fb N i p n data L Hi ltac:(lia) ltac:(lia)) as (Ra & Z0 & L' & E). set (a := addr_at p NDIRECT) in *. set (d' := <[a := _]> d) in *.
      exists d', p. replace (fb + cost (n + 1) - cost n) with (fb + 1) by lia. destruct (Z.eqb_spec a 0); [lia|].
      erewrite bind_step by reflexivity. fold a. unfold xint. rewrite (u32_small a) by lia. erewrite bind_step by (apply rsect_ok; lia). rewrite Z0. cbn [Z.eqb].
      erewrite bind_step by (rewrite (bind_step _ _ _ _ _ (next_block_ok d fi fb ltac:(lia))), (bind_step _ _ _ _ _ (wsect_ok a _ d fi _ ltac:(lia))); reflexivity).
      rewrite (u32_small fb) by lia. fold d'. rewrite rd32_wr32, !u32_small by (rewrite ?u32_small; rewrite ?(ly_len _ _ _ L); lia). rewrite E.
      split; [done|]. split; [done|]. split; [done|]. intros b Hb. unfold d'. by rewrite zfn_insert_ne by lia.
Qed.
(** A block the file has already is found. *)
Lemma iblock_old d fi fb N i p n data k : lay d fb N -> N !! i = Some (p, n, data) -> fb <= FSSIZE -> 0 <= k < n ->
  iblock p k (mkmk d FSSIZE fi fb) = Ret ((p, blk d p k), mkmk d FSSIZE fi fb).
Proof.
  cst. intros L Hi Hf Hk. assert (H := ly_file _ _ _ L _ _ _ _ Hi). assert (R := la_range _ _ _ _ _ H). assert (Rk := R k (or_introl Hk)).
  unfold iblock. unfold blk in Rk |- *. destruct (Z.eqb_spec k (-1)); [lia|]. unfold fblk in *. destruct (Z.ltb_spec k NDIRECT).
  - destruct (Z.eqb_spec (addr_at p k) 0); [lia|]. mstep. unfold xint. by rewrite u32_small by lia.
  - assert (Ra : nmeta <= addr_at p NDIRECT < fb) by (apply (R (-1)); right; split; [done|lia]).
    destruct (Z.eqb_spec (addr_at p NDIRECT) 0); [lia|]. erewrite bind_step by reflexivity. unfold xint. rewrite (u32_small (addr_at p NDIRECT)) by lia.
    erewrite bind_step by (apply rsect_ok; lia). destruct (Z.eqb_spec (rd32 (d (addr_at p NDIRECT)) (4 * (k - NDIRECT))) 0); [lia|].
    mstep. by rewrite u32_small by lia.
Qed.

(** ** Appending *)

Lemma overlay_bytes data c j : 0 <= j -> byte_at (data ++ c) j =
  if (Z.of_nat (length data) <=? j) && (j <? Z.of_nat (length data) + Z.of_nat (length c)) then byte_at c (j - Z.of_nat (length data)) else byte_at data j.
Proof.
  intros Hj. unfold byte_at. destruct (decide (j < Z.of_nat (length data))).
  - rewrite lookup_app_l by lia. case_if; [lia|done].
  - rewrite lookup_app_r by lia. replace (Z.to_nat j - length data)%nat with (Z.to_nat (j - Z.of_nat (length data))) by lia. case_if; [done|].
    rewrite !lookup_ge_None_2 by lia. done.
Qed.
Lemma write_chunk d fb N i p n data c : lay d fb N -> N !! i = Some (p, n, data) -> fb <= FSSIZE ->
  let off := Z.of_nat (length data) in let x := blk d p (off / 512) in
  off / 512 < n -> off mod 512 + Z.of_nat (length c) <= 512 ->
  nmeta <= x < fb /\ lay (<[x := splice (d x) (off mod 512) c]> d) fb (<[i := (p, n, data ++ c)]> N).
Proof.
  cst. intros L Hi Hf off x Hk Hc. assert (H := ly_file _ _ _ L _ _ _ _ Hi). assert (R := la_range _ _ _ _ _ H).
  pose proof (Z.div_mod off 512 ltac:(lia)). pose proof (Z.mod_pos_bound off 512 ltac:(lia)). assert (Hk0 : 0 <= off / 512) by (apply Z.div_pos; lia).
  assert (Sx : slot n (off / 512)) by (left; lia). assert (Rx : nmeta <= x < fb) by (by apply R). split; [exact Rx|].
  assert (Lx : length (d x) = 512%nat) by (apply (ly_len _ _ _ L); lia).
  assert (I : forall k k', slot n k -> slot n k' -> blk d p k = blk d p k' -> k = k') by (intros k k' Hk1 Hk2 E; by destruct (ly_inj _ _ _ L _ _ _ _ _ _ _ _ _ _ Hi Hi Hk1 Hk2 E)).
  set (d' := <[x := _]> d). assert (Dn : forall b, b <> x -> d' b = d b) by (intros b Hb; unfold d'; by rewrite zfn_insert_ne by congruence).
  assert (A : NDIRECT < n -> d' (addr_at p NDIRECT) = d (addr_at p NDIRECT)).
  { intros Hn. apply Dn. intros E. assert (S1 : slot n (-1)) by (by right). assert (-1 = off / 512) by (by apply I). lia. }
  assert (B : forall k, slot n k -> blk d' p k = blk d p k).
  { intros k Hs. unfold blk, fblk. destruct (Z.eqb_spec k (-1)); [done|]. destruct (Z.ltb_spec k NDIRECT); [done|]. rewrite A; [done|]. destruct Hs; lia. }
  eapply lay_upd; try done; try lia.
  - destruct H as [A1 A2 A3 A4 A5 A6 A7 A8]. split; try done.
    + rewrite length_app. lia.
    + intros k Hs. rewrite B by done. by apply A4.
    + intros Hn k Hs. rewrite A by done. by apply A7.
    + intros j Hj. pose proof (Z.div_mod j 512 ltac:(lia)). pose proof (Z.mod_pos_bound j 512 ltac:(lia)). assert (Sj : slot n (j / 512)) by (left; split; [apply Z.div_pos; lia|apply Z.div_lt_upper_bound; lia]).
      rewrite B by done. rewrite overlay_bytes by lia. destruct (Z.eqb_spec (j / 512) (off / 512)) as [E|E].
      * rewrite E. unfold d'. fold x. rewrite zfn_insert_eq, byte_splice by lia. rewrite <-A8 by lia. rewrite E. fold x. fold off.
        replace (off mod 512 <=? j mod 512) with (off <=? j) by (apply eq_bool_prop_intro; rewrite !Is_true_true, !Z.leb_le; lia).
        replace (j mod 512 <? off mod 512 + Z.of_nat (length c)) with (j <? off + Z.of_nat (length c)) by (apply eq_bool_prop_intro; rewrite !Is_true_true, !Z.ltb_lt; lia).
        case_if; [f_equal; lia|done].
      * rewrite Dn; [rewrite A8 by lia|intros E2; by apply I in E2]. case_if; [lia|done].
  - intros b Hb. unfold d'. destruct (decide (b = x)) as [->|]; [|rewrite zfn_insert_ne by congruence; by apply (ly_len _ _ _ L)]. rewrite zfn_insert_eq, length_splice; lia.
  - intros b Hb. apply Dn. lia.
  - intros b Hb Hs. apply Dn. by apply Hs.
  - intros k Hs. left. exists k. split; [done|by apply B].
  - intros k k' Hs Hs'. rewrite !B by done. by apply I.
Qed.

(** The blocks of [data]. *)
Definition nb (data : list Z) : Z := (Z.of_nat (length data) + 511) / 512.
Lemma cost_mono n m : n <= m -> cost n <= cost m.
Proof. intros H. unfold cost. repeat case_if; lia. Qed.
Lemma nb_eq data : 512 * (nb data - 1) < Z.of_nat (length data) <= 512 * nb data.
Proof. unfold nb. pose proof (Z.div_mod (Z.of_nat (length data) + 511) 512 ltac:(lia)). pose proof (Z.mod_pos_bound (Z.of_nat (length data) + 511) 512 ltac:(lia)). lia. Qed.
Lemma nb_unique data n : 512 * (n - 1) < Z.of_nat (length data) <= 512 * n -> nb data = n.
Proof. intros H. pose proof (nb_eq data). lia. Qed.

(** The block a byte more goes to. *)
Lemma iblock_ok d fi fb N i p data : lay d fb N -> N !! i = Some (p, nb data, data) ->
  let k := Z.of_nat (length data) / 512 in k < MAXFILE -> fb + cost (k + 1) - cost (nb data) <= FSSIZE ->
  exists d' p', iblock p k (mkmk d FSSIZE fi fb) = Ret ((p', blk d' p' k), mkmk d' FSSIZE fi (fb + cost (k + 1) - cost (nb data)))
    /\ lay d' (fb + cost (k + 1) - cost (nb data)) (<[i := (p', k + 1, data)]> N) /\ same_head p p' /\ forall b, b < nmeta -> d' b = d b.
Proof.
  intros L Hi k Hk Hf. pose proof (nb_eq data). pose proof (Z.div_mod (Z.of_nat (length data)) 512 ltac:(lia)). pose proof (Z.mod_pos_bound (Z.of_nat (length data)) 512 ltac:(lia)).
  assert (0 <= k) by (apply Z.div_pos; lia). fold k in H0. destruct (decide (nb data = k)) as [E|E].
  - rewrite E in *. by apply iblock_new.
  - assert (nb data = k + 1) as E1 by lia. rewrite E1 in *. exists d, p. replace (fb + cost (k + 1) - cost (k + 1)) with fb in * by lia.
    rewrite list_insert_id by done. split; [eapply iblock_old; [done|done|lia|lia]|]. done.
Qed.

Lemma iappend_loop_ok fi i : forall fuel c d fb N p data, (length c < fuel)%nat -> lay d fb N -> N !! i = Some (p, nb data, data) ->
  Z.of_nat (length (data ++ c)) <= MAXFILE * 512 -> let fb' := fb + cost (nb (data ++ c)) - cost (nb data) in fb' <= FSSIZE ->
  exists d' p', iappend_loop fuel p (Z.of_nat (length data)) c (mkmk d FSSIZE fi fb) = Ret ((p', Z.of_nat (length (data ++ c))), mkmk d' FSSIZE fi fb')
    /\ lay d' fb' (<[i := (p', nb (data ++ c), data ++ c)]> N) /\ same_head p p' /\ forall b, b < nmeta -> d' b = d b.
Proof.
  cst. induction fuel as [|fuel IH]; intros c d fb N p data Hl L Hi Hmax fb' Hf; [lia|]. cbn [iappend_loop]. destruct c as [|c0 c'].
  { unfold fb'. rewrite app_nil_r in *. exists d, p. replace (fb + cost (nb data) - cost (nb data)) with fb by lia. by rewrite list_insert_id. }
  set (c := c0 :: c') in *. assert (Hc : (0 < length c)%nat) by (cbn; lia). clearbody c. clear c0 c'. change BSIZE with 512. set (off := Z.of_nat (length data)). set (k := off / 512).
  pose proof (Z.div_mod off 512 ltac:(lia)) as E1. pose proof (Z.mod_pos_bound off 512 ltac:(lia)) as E2. fold k in E1. rewrite length_app in Hmax.
  destruct (Z.ltb_spec k MAXFILE) as [Hk|]; [|lia]. cbn [negb]. set (n1 := Z.min (Z.of_nat (length c)) ((k + 1) * 512 - off)).
  assert (Hn1 : 0 < n1 <= Z.of_nat (length c) /\ off mod 512 + n1 <= 512) by lia. set (c1 := take (Z.to_nat n1) c). set (c2 := drop (Z.to_nat n1) c).
  assert (Hc1 : Z.of_nat (length c1) = n1) by (unfold c1; rewrite length_take; lia). assert (Hcc : c = c1 ++ c2) by (symmetry; apply take_drop).
  assert (Hnb1 : nb (data ++ c1) = k + 1) by (apply nb_unique; rewrite length_app; lia).
  assert (Hmono : nb (data ++ c1) <= nb (data ++ c)).
  { pose proof (nb_eq (data ++ c)). pose proof (nb_eq (data ++ c1)). rewrite length_app in *. lia. }
  apply cost_mono in Hmono. rewrite Hnb1 in Hmono.
  destruct (iblock_ok d fi fb N i p data L Hi Hk) as (d1 & p1 & B1 & L1 & S1 & M1); [fold off; fold k; lia|]. fold off in B1, L1. fold k in B1, L1.
  set (fb1 := fb + cost (k + 1) - cost (nb data)) in *. rewrite (bind_step _ _ _ _ _ B1).
  assert (Hi1 : <[i := (p1, k + 1, data)]> N !! i = Some (p1, k + 1, data)) by (apply list_lookup_insert_eq; by eapply lookup_lt_Some).
  destruct (write_chunk d1 fb1 _ i p1 (k + 1) data c1 L1 Hi1) as [Rx L2]; [lia|fold off; fold k; lia|fold off; lia|]. fold off in Rx, L2. fold k in Rx, L2.
  erewrite bind_step by (apply rsect_ok; lia). erewrite bind_step by (apply wsect_ok; lia). rewrite list_insert_insert_eq in L2.
  replace (off - k * 512) with (off mod 512) by lia. fold c1 c2. set (d2 := <[blk d1 p1 k := _]> d1) in *.
  replace (off + n1) with (Z.of_nat (length (data ++ c1))) by (rewrite length_app; lia).
  destruct (IH c2 d2 fb1 (<[i := (p1, k + 1, data ++ c1)]> N) p1 (data ++ c1)) as (d3 & p3 & E3 & L3 & S3 & M3).
  - unfold c2. rewrite length_drop. lia.
  - done.
  - rewrite Hnb1. apply list_lookup_insert_eq. by eapply lookup_lt_Some.
  - rewrite <-app_assoc, <-Hcc, length_app. lia.
  - rewrite <-app_assoc, <-Hcc, Hnb1. lia.
  - rewrite <-app_assoc, <-Hcc, Hnb1, list_insert_insert_eq in *. exists d3, p3. replace (fb1 + cost (nb (data ++ c)) - cost (k + 1)) with fb' in * by lia.
    split; [done|]. split; [done|]. split; [unfold same_head in *; intuition congruence|].
    intros b Hb. rewrite M3, <-M1 by done. unfold d2. by rewrite zfn_insert_ne by lia.
Qed.

(** ** The inode blocks *)

Lemma IBLOCK_eq i : 0 <= i < 208 -> IBLOCK i sb = i / 8 + 32 /\ 32 <= IBLOCK i sb < 58.
Proof.
  intros H. assert (0 <= i / 8 < 26) by (split; [apply Z.div_pos; lia|apply Z.div_lt_upper_bound; lia]).
  assert (E : IBLOCK i sb = i / 8 + 32) by (unfold IBLOCK; change (sb_inodestart sb) with 32; change IPB with 8; apply u32_small; lia). rewrite E. lia.
Qed.
Lemma dec_dinode_ext d d' o : (forall k, 0 <= k < 64 -> byte_at d' (o + k) = byte_at d (o + k)) -> dec_dinode d' o dinode0 = dec_dinode d o dinode0.
Proof.
  intros H. assert (R2 : forall k, 0 <= k -> k + 2 <= 64 -> rd16 d' (o + k) = rd16 d (o + k)) by (intros k H1 H2; unfold rd16; rewrite <-Z.add_assoc, !H by lia; done).
  assert (R4 : forall k, 0 <= k -> k + 4 <= 64 -> rd32 d' (o + k) = rd32 d (o + k)) by (intros k H1 H2; unfold rd32; rewrite <-!Z.add_assoc, !H by lia; done).
  rewrite !dec_dinode_eq. rewrite !R2, (R4 8) by lia. f_equal. apply list_fmap_ext. intros i k Hk. apply R4.
  all: do 13 (destruct i as [|i]; [injection Hk as <-; lia|]); discriminate.
Qed.
Definition iput_at (d : Z -> list Z) (i : Z) (p : inode) : Z -> list Z :=
  <[IBLOCK i sb := splice (d (IBLOCK i sb)) (i mod IPB * DINODE) (enc_dinode p)]> d.
Lemma winode_ok i p d fi fb : 0 <= i < 208 -> winode i p (mkmk d FSSIZE fi fb) = Ret (tt, mkmk (iput_at d i p) FSSIZE fi fb).
Proof. cst. intros Hi. destruct (IBLOCK_eq i Hi) as [_ ?]. unfold winode. erewrite bind_step by (apply rsect_ok; lia). apply wsect_ok. lia. Qed.
Lemma rinode_ok i d fi fb : 0 <= i < 208 -> rinode i (mkmk d FSSIZE fi fb) = Ret (dinode d i, mkmk d FSSIZE fi fb).
Proof. cst. intros Hi. destruct (IBLOCK_eq i Hi) as [_ ?]. unfold rinode. erewrite bind_step by (apply rsect_ok; lia). done. Qed.
Lemma iput_at_block d i p b : b <> IBLOCK i sb -> iput_at d i p b = d b.
Proof. intros H. unfold iput_at. by rewrite zfn_insert_ne by congruence. Qed.
Lemma dinode_iput d i p j : 0 <= i < 208 -> 0 <= j < 208 -> dinode_ok p -> length (d (IBLOCK i sb)) = 512%nat ->
  dinode (iput_at d i p) j = if j =? i then p else dinode d j.
Proof.
  intros Hi Hj Hok Hl. assert (He := length_enc p Hok). destruct (IBLOCK_eq i Hi) as [Ei _], (IBLOCK_eq j Hj) as [Ej _].
  pose proof (Z.mod_pos_bound i 8 ltac:(lia)). pose proof (Z.mod_pos_bound j 8 ltac:(lia)). pose proof (Z.div_mod i 8 ltac:(lia)). pose proof (Z.div_mod j 8 ltac:(lia)).
  change IPB with 8. change DINODE with 64. unfold dinode, iput_at. change IPB with 8. change DINODE with 64.
  destruct (Z.eqb_spec j i) as [->|Hne].
  - rewrite zfn_insert_eq. apply dec_enc; [done|]. intros k Hk. rewrite byte_splice by lia. case_if; [f_equal; lia|lia].
  - destruct (decide (IBLOCK j sb = IBLOCK i sb)) as [E|E]; [|by rewrite zfn_insert_ne by congruence]. rewrite E, zfn_insert_eq. apply dec_dinode_ext.
    intros k Hk. rewrite byte_splice by lia. case_if; [lia|done].
Qed.

(** ** The image under construction *)

(** What is on the image: type and content of the inodes from 1 on. *)
Notation contents := (list (Z * list Z)).
Definition total (C : contents) : Z := foldr (fun c a => cost (nb (snd c)) + a) 0 C.
Definition superblock_image : list Z := splice zeroes 0 (enc_sb sb).
Record built (d : Z -> list Z) (fb : Z) (N : list fnode) (C : contents) : Prop := {
  bt_lay : lay d fb N;
  bt_len : length N = length C;
  bt_node : forall i p n data, N !! i = Some (p, n, data) -> exists ty, C !! i = Some (ty, data) /\ n = nb data
    /\ dinode d (1 + Z.of_nat i) = p /\ itype p = ty /\ inlink p = 1 /\ isize p = Z.of_nat (length data);
  bt_meta : forall b, 0 <= b < nmeta -> ~ (32 <= b < 58) -> d b = if b =? 1 then superblock_image else zeroes }.

Lemma total_app C C' : total (C ++ C') = total C + total C'.
Proof. induction C as [|c C IH]; [done|]. change (total ((c :: C) ++ C')) with (cost (nb c.2) + total (C ++ C')). change (total (c :: C)) with (cost (nb c.2) + total C). lia. Qed.
Lemma total_insert C i ty data ty' data' : C !! i = Some (ty, data) -> total (<[i := (ty', data')]> C) = total C + cost (nb data') - cost (nb data).
Proof.
  intros H. rewrite (insert_take_drop _ _ (ty', data')) by (by eapply lookup_lt_Some). rewrite <-(take_drop_middle C i (ty, data)) at 3 by done. rewrite !total_app.
  change (total ((ty', data') :: drop (S i) C)) with (cost (nb data') + total (drop (S i) C)). change (total ((ty, data) :: drop (S i) C)) with (cost (nb data) + total (drop (S i) C)). lia.
Qed.
Lemma built_fb d fb N C : built d fb N C -> fb = nmeta + total C.
Proof.
  intros [L Hl Hn _]. rewrite (ly_fb _ _ _ L). f_equal. clear L. revert C Hl Hn.
  assert (G : forall M D : list _, length M = length D -> (forall i p n data, M !! i = Some (p, n, data) -> exists ty, D !! i = Some (ty, data) /\ n = nb data) -> costs M = total D).
  { induction M as [|[[p n] data] M IH]; intros [|[ty data'] D] Hl Hn; try discriminate; [done|]. destruct (Hn 0%nat _ _ _ eq_refl) as (ty' & [= -> ->] & ->).
    change (cost (nb data) + costs M = cost (nb data) + total D). f_equal. apply IH; [by injection Hl|]. intros i q m dt Hi. apply (Hn (S i) q m dt Hi). }
  intros C Hl Hn. apply G; [done|]. intros i p n data Hi. destruct (Hn i p n data Hi) as (ty & H1 & H2 & _). by exists ty.
Qed.
Lemma lay_blocks d d' fb N : lay d fb N -> (forall b, nmeta <= b -> d' b = d b) -> (forall b, 0 <= b < FSSIZE -> length (d' b) = 512%nat) -> lay d' fb N.
Proof.
  intros L H Hl. assert (Hfb := lay_fb _ _ _ L). destruct L as [L1 L2 L3 L4 L5].
  assert (S : forall i p n data j, N !! i = Some (p, n, data) -> slot n j -> d' (blk d p j) = d (blk d p j)).
  { intros i p n data j Hi Hj. apply H. apply (la_range _ _ _ _ _ (L4 _ _ _ _ Hi) j Hj). }
  assert (B : forall i p n data k, N !! i = Some (p, n, data) -> slot n k -> blk d' p k = blk d p k).
  { intros i p n data k Hi Hk. eapply blk_same; [by eapply L4| |done]. intros j Hj. by eapply S. }
  split; try done.
  - intros b Hb. rewrite H by lia. by apply L3.
  - intros i p n data Hi. eapply laid_same; [by eapply L4|lia|]. intros j Hj. by eapply S.
  - intros i i' p n data p' n' data' k k' Hi Hi' Hk Hk' E. rewrite (B _ _ _ _ _ Hi Hk), (B _ _ _ _ _ Hi' Hk') in E. by eapply L5.
Qed.
Lemma lay_iput d fb N i p : lay d fb N -> 0 <= i < 208 -> dinode_ok p -> lay (iput_at d i p) fb N.
Proof.
  cst. intros L Hi Hok. destruct (IBLOCK_eq i Hi) as [_ HI]. apply (lay_blocks d); [done| |].
  - intros b Hb. apply iput_at_block. lia.
  - intros b Hb. unfold iput_at. destruct (decide (b = IBLOCK i sb)) as [->|]; [|rewrite zfn_insert_ne by congruence; by apply (ly_len _ _ _ L)].
    rewrite zfn_insert_eq, length_splice; [by apply (ly_len _ _ _ L)| |]; change IPB with 8; change DINODE with 64; pose proof (Z.mod_pos_bound i 8 ltac:(lia)); [lia|].
    rewrite (length_enc p Hok), (ly_len _ _ _ L) by done. lia.
Qed.

(** One file of the image is replaced by [p], which is on disk too. *)
Lemma built_iput d fb N C i p n data p' n' data' d' fb' ty : built d fb N C -> (length C <= 207)%nat -> N !! i = Some (p, n, data) ->
  lay d' fb' (<[i := (p', n', data')]> N) -> (forall b, b < nmeta -> d' b = d b) -> dinode_ok p' -> n' = nb data' ->
  itype p' = ty -> inlink p' = 1 -> isize p' = Z.of_nat (length data') ->
  built (iput_at d' (1 + Z.of_nat i) p') fb' (<[i := (p', n', data')]> N) (<[i := (ty, data')]> C).
Proof.
  cst. intros B Hc Hi L Hd Hok Hn Ht Hk Hs. assert (Hil : (i < length N)%nat) by (by eapply lookup_lt_Some). rewrite (bt_len _ _ _ _ B) in Hil.
  assert (Hr : 0 <= 1 + Z.of_nat i < 208) by lia. destruct (IBLOCK_eq _ Hr) as [_ HI].
  assert (D : forall j, 0 <= j < 208 -> dinode (iput_at d' (1 + Z.of_nat i) p') j = if j =? 1 + Z.of_nat i then p' else dinode d j).
  { intros j Hj. destruct (IBLOCK_eq j Hj) as [_ HJ]. rewrite dinode_iput by (done || apply (ly_len _ _ _ L); lia). case_if; [done|]. unfold dinode. by rewrite Hd by lia. }
  split.
  - by apply lay_iput.
  - rewrite !length_insert. apply (bt_len _ _ _ _ B).
  - intros j q m dt Hj. apply list_lookup_insert_Some in Hj as [(<- & [= -> -> ->] & _)|[Hne Hj]].
    + exists ty. rewrite list_lookup_insert_eq by done. rewrite D, Z.eqb_refl by lia. done.
    + destruct (bt_node _ _ _ _ B j q m dt Hj) as (ty' & H1 & H2 & H3 & H4). exists ty'. rewrite list_lookup_insert_ne by done. split; [done|]. split; [done|].
      assert (j < length C)%nat by (rewrite <-(bt_len _ _ _ _ B); by eapply lookup_lt_Some). rewrite D by lia. destruct (Z.eqb_spec (1 + Z.of_nat j) (1 + Z.of_nat i)); [lia|done].
  - intros b Hb Hni. rewrite iput_at_block by lia. rewrite Hd by lia. by apply (bt_meta _ _ _ _ B).
Qed.
Lemma dinode_set_isize p' sz : dinode_ok p' -> 0 <= sz < 2 ^ 32 -> dinode_ok (set_isize sz p').
Proof. intros [H1 H2 H3 H4 H5 H6] Hs. split; try done. destruct p'. cbn in *. by injection H6 as -> -> -> -> -> -> ->. Qed.
(** The size an inode has is not part of where its blocks are. *)
Lemma lay_isize d fb N i p n data sz : lay d fb (<[i := (p, n, data)]> N) -> (i < length N)%nat -> 0 <= sz < 2 ^ 32 -> lay d fb (<[i := (set_isize sz p, n, data)]> N).
Proof.
  intros L Hi Hs. replace (<[i := (set_isize sz p, n, data)]> N) with (<[i := (set_isize sz p, n, data)]> (<[i := (p, n, data)]> N)) by apply list_insert_insert_eq.
  assert (H : <[i := (p, n, data)]> N !! i = Some (p, n, data)) by (by apply list_lookup_insert_eq). assert (F := ly_file _ _ _ L _ _ _ _ H).
  eapply lay_upd; try done; try lia.
  - destruct F as [A1 A2 A3 A4 A5 A6 A7 A8]. split; try done. by apply dinode_set_isize.
  - apply (ly_len _ _ _ L).
  - intros k Hk. left. by exists k.
  - intros k k' Hk Hk' E. by destruct (ly_inj _ _ _ L _ _ _ _ _ _ _ _ _ _ H H Hk Hk' E).
Qed.
Lemma iappend_ok d fb N C i ty data c : built d fb N C -> (length C <= 207)%nat -> C !! i = Some (ty, data) ->
  Z.of_nat (length (data ++ c)) <= MAXFILE * 512 -> nmeta + total (<[i := (ty, data ++ c)]> C) <= FSSIZE ->
  let fi := 1 + Z.of_nat (length C) in
  exists d' N', let fb' := nmeta + total (<[i := (ty, data ++ c)]> C) in
    iappend (1 + Z.of_nat i) c (mkmk d FSSIZE fi fb) = Ret (tt, mkmk d' FSSIZE fi fb') /\ built d' fb' N' (<[i := (ty, data ++ c)]> C).
Proof.
  cst. intros B Hc Hi Hmax Htot fi. assert (Hil : (i < length N)%nat) by (rewrite (bt_len _ _ _ _ B); by eapply lookup_lt_Some).
  destruct (lookup_lt_is_Some_2 N i Hil) as [[[p n] dt] Hn]. destruct (bt_node _ _ _ _ B i p n dt Hn) as (ty' & E & -> & Dp & Ht & Hk & Hs).
  rewrite E in Hi. injection Hi as -> ->. assert (Hfb := built_fb _ _ _ _ B). rewrite (total_insert _ _ _ _ _ _ E) in Htot |- *.
  destruct (iappend_loop_ok fi i (S (length c)) c d fb N p data) as (d1 & p1 & E1 & L1 & (S1 & S2 & S3) & M1); [lia|apply B|done|done|lia|].
  set (fb1 := fb + cost (nb (data ++ c)) - cost (nb data)) in *. replace (nmeta + (total C + cost (nb (data ++ c)) - cost (nb data))) with fb1 by lia.
  set (p2 := set_isize (Z.of_nat (length (data ++ c))) p1). exists (iput_at d1 (1 + Z.of_nat i) p2), (<[i := (p2, nb (data ++ c), data ++ c)]> N).
  assert (Hl1 : <[i := (p1, nb (data ++ c), data ++ c)]> N !! i = Some (p1, nb (data ++ c), data ++ c)) by (by apply list_lookup_insert_eq).
  assert (O1 := la_ok _ _ _ _ _ (ly_file _ _ _ L1 _ _ _ _ Hl1)).
  assert (Hr : 0 <= 1 + Z.of_nat i < 208) by (rewrite (bt_len _ _ _ _ B) in Hil; lia). split.
  - unfold iappend. erewrite bind_step by (by apply rinode_ok). rewrite Dp, Hs. unfold xint. rewrite (u32_small (Z.of_nat (length data))) by (rewrite length_app in Hmax; lia).
    rewrite (bind_step _ _ _ _ _ E1). rewrite u32_small by lia. fold p2. by apply winode_ok.
  - eapply built_iput; try done.
    + apply lay_isize; [done|done|lia].
    + apply dinode_set_isize; [done|lia].
    + cbn. congruence.
    + cbn. congruence.
Qed.
Lemma ialloc_ok d fb N C ty : built d fb N C -> (length C < 207)%nat -> 0 <= ty < 2 ^ 15 ->
  exists d' N', ialloc ty (mkmk d FSSIZE (1 + Z.of_nat (length C)) fb) = Ret (1 + Z.of_nat (length C), mkmk d' FSSIZE (1 + Z.of_nat (length (C ++ [(ty, [])]))) fb)
    /\ built d' fb N' (C ++ [(ty, [])]).
Proof.
  cst. intros B Hc Hty. set (i := 1 + Z.of_nat (length C)). assert (Hr : 0 <= i < 208) by lia.
  set (p := set_itype (xshort ty) (set_inlink (xshort 1) (set_isize (xint 0) dinode0))). assert (Et : xshort ty = ty) by (apply u16_small; lia).
  assert (Hok : dinode_ok p) by (split; try done; unfold p; cbn [itype set_itype]; rewrite ?Et; try done; repeat constructor; cbn; lia).
  exists (iput_at d i p), (N ++ [(p, 0, [])]). rewrite length_app. cbn [length]. split.
  - unfold ialloc. erewrite bind_step by reflexivity. cbn [freeinode]. erewrite bind_step by reflexivity. unfold set_freeinode. cbn [img img_len freeblock].
    rewrite (u32_small (i + 1)) by lia. replace (1 + Z.of_nat (length C + 1)) with (i + 1) by lia. fold p. by rewrite (bind_step _ _ _ _ _ (winode_ok i p d (i + 1) fb Hr)).
  - destruct B as [L Hl Hn Hm]. assert (L' := lay_iput d fb N i p L Hr Hok). destruct (IBLOCK_eq i Hr) as [_ HI].
    assert (A0 : forall k, addr_at p k = 0).
    { intros k. unfold addr_at. change (iaddrs p) with (replicate 13 0). destruct (replicate 13 0 !! Z.to_nat k) eqn:E; [|done]. by apply lookup_replicate in E as [-> _]. }
    assert (P : laid (iput_at d i p) fb p 0 []) by (split; try done; unfold slot; intros; lia).
    split.
    + destruct L' as [L1 L2 L3 L4 L5]. split; try done.
      * rewrite costs_app. change (costs [(p, 0, [])]) with 0. lia.
      * intros j q m dt Hj. apply lookup_snoc_Some in Hj as [[_ Hj]|[_ [= <- <- <-]]]; [by eapply L4|exact P].
      * intros j j' q m dt q' m' dt' k k' Hj Hj' Hk Hk'. apply lookup_snoc_Some in Hj as [[_ Hj]|[_ [= <- <- <-]]]; [|unfold slot in Hk; lia].
        apply lookup_snoc_Some in Hj' as [[_ Hj']|[_ [= <- <- <-]]]; [by eapply L5|unfold slot in Hk'; lia].
    + rewrite !length_app. cbn. lia.
    + intros j q m dt Hj. apply lookup_snoc_Some in Hj as [[Hlt Hj]|[-> [= <- <- <-]]].
      * destruct (Hn j q m dt Hj) as (ty' & H1 & H2 & H3 & H4). exists ty'. rewrite lookup_app_l by lia. split; [done|]. split; [done|]. rewrite dinode_iput by (done || lia || apply (ly_len _ _ _ L); lia).
        destruct (Z.eqb_spec (1 + Z.of_nat j) i); [lia|done].
      * exists ty. rewrite lookup_app_r, Hl, Nat.sub_diag by lia. split; [done|]. split; [done|]. fold i. rewrite dinode_iput, Z.eqb_refl by (done || lia || apply (ly_len _ _ _ L); lia). done.
    + intros b Hb Hni. rewrite iput_at_block by lia. by apply Hm.
Qed.

Lemma nb_app data c : 0 <= nb data <= nb (data ++ c).
Proof. pose proof (nb_eq data). pose proof (nb_eq (data ++ c)). rewrite length_app in *. lia. Qed.
Lemma append_file_ok ty i : forall fuel c d fb N C data, built d fb N C -> (length C <= 207)%nat -> C !! i = Some (ty, data) -> (length c < fuel)%nat ->
  Z.of_nat (length (data ++ c)) <= MAXFILE * 512 -> nmeta + total (<[i := (ty, data ++ c)]> C) <= FSSIZE ->
  let fi := 1 + Z.of_nat (length C) in
  exists d' N', let fb' := nmeta + total (<[i := (ty, data ++ c)]> C) in
    append_file fuel (1 + Z.of_nat i) c (mkmk d FSSIZE fi fb) = Ret (tt, mkmk d' FSSIZE fi fb') /\ built d' fb' N' (<[i := (ty, data ++ c)]> C).
Proof.
  induction fuel as [|fuel IH]; intros c d fb N C data B Hc Hi Hf Hmax Htot fi; [lia|]. cbn [append_file]. destruct c as [|c0 c'].
  { rewrite app_nil_r, list_insert_id in * by done. exists d, N. cbv zeta. by rewrite <-(built_fb _ _ _ _ B). }
  set (c := c0 :: c') in *. assert (Hc0 : (0 < length c)%nat) by (cbn; lia). clearbody c. clear c0 c'.
  assert (Hcc : take 512 c ++ drop 512 c = c) by apply take_drop.
  assert (E1 : data ++ c = (data ++ take 512 c) ++ drop 512 c) by (rewrite <-app_assoc, Hcc; done).
  pose proof (nb_app (data ++ take 512 c) (drop 512 c)) as Hm. rewrite <-E1 in Hm. destruct Hm as [_ Hm]. apply cost_mono in Hm.
  rewrite (total_insert _ _ _ _ _ _ Hi) in Htot.
  destruct (iappend_ok d fb N C i ty data (take 512 c) B Hc Hi) as (d1 & N1 & A1 & B1); [rewrite E1, length_app in Hmax; lia|rewrite (total_insert _ _ _ _ _ _ Hi); lia|].
  cbv zeta in A1, B1. set (C1 := <[i := (ty, data ++ take 512 c)]> C) in *. assert (Hl1 : length C1 = length C) by apply length_insert.
  assert (Hi1 : C1 !! i = Some (ty, data ++ take 512 c)) by (apply list_lookup_insert_eq; by eapply lookup_lt_Some).
  assert (EC : <[i := (ty, (data ++ take 512 c) ++ drop 512 c)]> C1 = <[i := (ty, data ++ c)]> C) by (rewrite <-E1; apply list_insert_insert_eq).
  destruct (IH (drop 512 c) d1 _ N1 C1 (data ++ take 512 c) B1) as (d2 & N2 & A2 & B2); [lia|done|rewrite length_drop; lia|by rewrite <-E1|rewrite EC, (total_insert _ _ _ _ _ _ Hi); lia|].
  cbv zeta in A2, B2. rewrite EC, Hl1 in *. exists d2, N2. cbv zeta. split; [|done]. fold fi in A1, A2. by rewrite (bind_step _ _ _ _ _ A1).
Qed.
