(* ===== verification/MkfsProps.v ===== *)
(** * The image holds the files

    What [mkfs] lays out is what the kernel reads: every file given has an inode whose
    blocks hold its bytes, the root directory names it, the blocks in use are marked and
    no others, and reading a file of the image in the kernel gives what was put there. *)

From S2P Require Import Prelude Mem Bio BioRules Log LogRules LogProps Fs FsRules FsFile FsProps FileProps Mkfs MkfsLay.
Local Open Scope Z_scope.

(** The entries of [files] in the root directory, the first with inode [k]. *)
Fixpoint entries (k : Z) (files : list (list Z * list Z)) : list Z :=
  match files with [] => [] | (name, _) :: files => dirent k (strip name) ++ entries (k + 1) files end.
Definition nodes (files : list (list Z * list Z)) : list (Z * list Z) := (fun f => (T_FILE, snd f)) <$> files.

Lemma total_nonneg C : 0 <= total C.
Proof.
  induction C as [|c C IH]; [done|]. change (total (c :: C)) with (cost (nb c.2) + total C). pose proof (nb_app c.2 []).
  pose proof (cost_nonneg (nb c.2)). lia.
Qed.
Lemma nb_app_cost data c : cost (nb data) <= cost (nb (data ++ c)).
Proof. apply cost_mono. apply nb_app. Qed.

(** Every file is added behind the others, and its entry to the root. *)
Lemma add_files_ok files : forall d fb N rd rest, let C := (T_DIR, rd) :: rest in let rd' := rd ++ entries (2 + Z.of_nat (length rest)) files in
  let C' := (T_DIR, rd') :: rest ++ nodes files in
  built d fb N C -> (length C' <= 207)%nat -> Forall (fun f => 47 ∉ fst f /\ Z.of_nat (length (snd f)) <= MAXFILE * 512) files ->
  Z.of_nat (length rd') <= MAXFILE * 512 -> nmeta + total C' <= FSSIZE ->
  exists d' N', add_files 1 files (mkmk d FSSIZE (1 + Z.of_nat (length C)) fb) = Ret (tt, mkmk d' FSSIZE (1 + Z.of_nat (length C')) (nmeta + total C'))
    /\ built d' (nmeta + total C') N' C'.
Proof.
  induction files as [|[name data] files IH]; intros d fb N rd rest C rd' C' B Hc Hf Hmax Htot; cbn [add_files].
  { unfold C', rd', nodes in *. cbn [fmap list_fmap entries]. rewrite !app_nil_r in *. exists d, N. fold C. rewrite <-(built_fb _ _ _ _ B). done. }
  apply Forall_cons in Hf as [[Hn Hd] Hf]. cbn [fst snd] in Hn, Hd. rewrite bool_decide_eq_false_2 by done.
  assert (LC' : length C' = (2 + length rest + length files)%nat) by (unfold C', nodes; cbn; rewrite length_app; cbn; rewrite length_fmap; lia).
  assert (LC : length C = S (length rest)) by done.
  destruct (ialloc_ok d fb N C T_FILE B) as (d1 & N1 & E1 & B1); [lia|unfold T_FILE; lia|]. rewrite (bind_step _ _ _ _ _ E1).
  set (k := 1 + Z.of_nat (length C)) in *. assert (Ek : k = 2 + Z.of_nat (length rest)) by lia. set (e := dirent k (strip name)).
  set (C2 := (T_DIR, rd ++ e) :: rest ++ [(T_FILE, [])]). set (C3 := (T_DIR, rd ++ e) :: rest ++ [(T_FILE, data)]).
  assert (ER : rd' = (rd ++ e) ++ entries (k + 1) files) by (unfold rd'; rewrite <-app_assoc; unfold e; by rewrite Ek).
  assert (EN : rest ++ nodes ((name, data) :: files) = (rest ++ [(T_FILE, data)]) ++ nodes files) by (rewrite <-app_assoc; done).
  assert (T3 : total C3 <= total C').
  { unfold C3, C'. rewrite EN, ER. 
    change (cost (nb (rd ++ e)) + total (rest ++ [(T_FILE, data)]) <= cost (nb ((rd ++ e) ++ entries (k + 1) files)) + total ((rest ++ [(T_FILE, data)]) ++ nodes files)).
    rewrite (total_app (rest ++ _)). pose proof (nb_app_cost (rd ++ e) (entries (k + 1) files)). pose proof (total_nonneg (nodes files)). lia. }
  assert (T2 : total C2 <= total C3).
  { change (cost (nb (rd ++ e)) + total (rest ++ [(T_FILE, [])]) <= cost (nb (rd ++ e)) + total (rest ++ [(T_FILE, data)])).
    rewrite !total_app. pose proof (total_nonneg [(T_FILE, data)]). change (total [(T_FILE, [])]) with 0. lia. }
  destruct (iappend_ok d1 fb N1 (C ++ [(T_FILE, [])]) 0 T_DIR rd e B1) as (d2 & N2 & E2 & B2); [rewrite length_app; cbn [length]; lia|done|rewrite ER, length_app in Hmax; lia|change (nmeta + total C2 <= FSSIZE); lia|].
  cbv zeta in E2, B2. change (<[0%nat := (T_DIR, rd ++ e)]> (C ++ [(T_FILE, [])])) with C2 in E2, B2. rewrite (bind_step _ _ _ _ _ E2).
  assert (I2 : <[S (length rest) := (T_FILE, [] ++ data)]> C2 = C3).
  { unfold C2, C3. cbn [app]. change (<[S (length rest) := (T_FILE, data)]> ((T_DIR, rd ++ e) :: rest ++ [(T_FILE, [])])) with ((T_DIR, rd ++ e) :: <[length rest := (T_FILE, data)]> (rest ++ [(T_FILE, [])])).
    by rewrite insert_app_r_alt, Nat.sub_diag by lia. }
  destruct (append_file_ok T_FILE (S (length rest)) (S (length data)) data d2 _ N2 C2 [] B2) as (d3 & N3 & E3 & B3).
  { unfold C2. cbn [length]. rewrite length_app. cbn. lia. }
  { change ((rest ++ [(T_FILE, [])]) !! length rest = Some (T_FILE, [])). by rewrite lookup_app_r, Nat.sub_diag by lia. }
  { lia. }
  { done. }
  { rewrite I2. lia. }
  cbv zeta in E3, B3. rewrite I2 in E3, B3. assert (L2 : length C2 = S (S (length rest))) by (unfold C2; cbn [length]; rewrite length_app; cbn [length]; lia).
  assert (L3 : length C3 = length C2) by (unfold C3, C2; cbn [length]; rewrite !length_app; done).
  replace (length (C ++ [(T_FILE, [])])) with (length C2) in * by (rewrite L2, length_app; cbn [length]; lia).
  replace k with (1 + Z.of_nat (S (length rest))) by lia. rewrite (bind_step _ _ _ _ _ E3). rewrite <-L3.
  assert (Lr : 2 + Z.of_nat (length (rest ++ [(T_FILE, data)])) = k + 1) by (rewrite length_app; cbn [length]; lia).
  assert (EC : (T_DIR, (rd ++ e) ++ entries (2 + Z.of_nat (length (rest ++ [(T_FILE, data)]))) files) :: (rest ++ [(T_FILE, data)]) ++ nodes files = C') by (unfold C'; rewrite Lr, <-ER, EN; done).
  destruct (IH d3 (nmeta + total C3) N3 (rd ++ e) (rest ++ [(T_FILE, data)])) as (d4 & N4 & E4 & B4); rewrite ?EC; try done.
  { rewrite Lr, <-ER. done. }
  rewrite EC in E4, B4. by exists d4, N4.
Qed.

(** The image is cleared first. *)
Lemma clear_img_ok n : forall i d fi fb, 0 <= i -> exists d', clear_img n i (mkmk d i fi fb) = Ret (tt, mkmk d' (i + Z.of_nat n) fi fb)
  /\ forall b, d' b = if (i <=? b) && (b <? i + Z.of_nat n) then zeroes else d b.
Proof.
  induction n as [|n IH]; intros i d fi fb Hi; cbn [clear_img].
  - exists d. rewrite Z.add_0_r. split; [done|]. intros b. by case_if; [lia|].
  - unfold wsect at 1. erewrite bind_step by reflexivity. unfold set_img_len, set_img. cbn [img img_len freeinode freeblock]. rewrite Z.max_r by lia.
    destruct (IH (i + 1) (<[i := zeroes]> d) fi fb) as (d' & E & H); [lia|]. exists d'. replace (i + Z.of_nat (S n)) with (i + 1 + Z.of_nat n) by lia. split; [done|].
    intros b. rewrite H. destruct (decide (b = i)) as [->|]; [rewrite zfn_insert_eq|rewrite zfn_insert_ne by congruence]; repeat case_if; try lia; done.
Qed.

Lemma mark_ok n : forall i buf, 0 <= i -> i + Z.of_nat n <= 4096 -> length buf = 512%nat ->
  length (mark n i buf) = 512%nat /\ forall b, 0 <= b -> bit_clear (mark n i buf) b = if (i <=? b) && (b <? i + Z.of_nat n) then false else bit_clear buf b.
Proof.
  induction n as [|n IH]; intros i buf Hi Hn Hl; cbn [mark].
  - split; [done|]. intros b Hb. by case_if; [lia|].
  - change (Z.shiftl 1 (i mod 8)) with (bmask i). destruct (IH (i + 1) (wr8 buf (i / 8) (Z.lor (byte_at buf (i / 8)) (bmask i)))) as [L H]; [lia|lia|by rewrite length_wr8|].
    split; [done|]. intros b Hb. rewrite H, bit_set by lia. destruct (Z.eqb_spec b i) as [->|]; repeat case_if; try lia; done.
Qed.

(** ** The finished image *)

(** The image [d] with [used] blocks in use: its inodes from 1 on hold [C], every block of
    them its own, the first being a directory whose size is rounded up to blocks. *)
Record image (d : Z -> list Z) (used : Z) (C : list (Z * list Z)) : Prop := {
  im_len : forall b, 0 <= b < FSSIZE -> length (d b) = 512%nat;
  im_super : d 1 = superblock_image;
  im_log : forall b, 2 <= b < 32 -> d b = zeroes;
  im_used : used = nmeta + total C;
  im_bitmap : forall b, 0 <= b < FSSIZE -> bit_clear (d (sb_bmapstart sb)) b = (used <=? b);
  im_node : forall i ty data, C !! i = Some (ty, data) -> let p := dinode d (1 + Z.of_nat i) in
    itype p = ty /\ inlink p = 1 /\ laid d used p (nb data) data
    /\ isize p = if (i =? 0)%nat then (Z.of_nat (length data) / 512 + 1) * 512 else Z.of_nat (length data);
  im_disjoint : forall i i' ty data ty' data' k k', C !! i = Some (ty, data) -> C !! i' = Some (ty', data') ->
    slot (nb data) k -> slot (nb data') k' -> blk d (dinode d (1 + Z.of_nat i)) k = blk d (dinode d (1 + Z.of_nat i')) k' -> i = i' /\ k = k' }.

Definition root_entries (files : list (list Z * list Z)) : list Z := dirent 1 [46] ++ dirent 1 [46; 46] ++ entries 2 files.
Definition image_of (files : list (list Z * list Z)) : list (Z * list Z) := (T_DIR, root_entries files) :: nodes files.
(** What the builder can put on an image. *)
Record fit (files : list (list Z * list Z)) : Prop := {
  ft_count : (length files <= 198)%nat;
  ft_files : Forall (fun f => 47 ∉ fst f /\ Z.of_nat (length (snd f)) <= MAXFILE * 512) files;
  ft_total : nmeta + total (image_of files) <= FSSIZE }.

(** The size of the root is rounded and the bitmap written. *)
Lemma finish_image d N rd rest : built d (nmeta + total ((T_DIR, rd) :: rest)) N ((T_DIR, rd) :: rest) -> let used := nmeta + total ((T_DIR, rd) :: rest) in
  used <= FSSIZE -> (length rest <= 206)%nat -> Z.of_nat (length rd) <= MAXFILE * 512 ->
  let p := set_isize ((Z.of_nat (length rd) / 512 + 1) * 512) (dinode d 1) in
  image (<[sb_bmapstart sb := mark (Z.to_nat used) 0 zeroes]> (iput_at d 1 p)) used ((T_DIR, rd) :: rest).
Proof.
  cst. intros B used Hu Hr Hrd p. set (C := (T_DIR, rd) :: rest) in *. assert (Hu0 : nmeta <= used) by (pose proof (total_nonneg C); lia).
  destruct (lookup_lt_is_Some_2 N 0) as [[[p0 n0] d0] H0]; [rewrite (bt_len _ _ _ _ B); cbn; lia|].
  destruct (bt_node _ _ _ _ B _ _ _ _ H0) as (ty0 & [= <- <-] & -> & D0 & T0 & K0 & S0). change (1 + Z.of_nat 0) with 1 in D0.
  assert (L := bt_lay _ _ _ _ B). assert (O0 := la_ok _ _ _ _ _ (ly_file _ _ _ L _ _ _ _ H0)).
  assert (0 <= Z.of_nat (length rd) / 512 <= 140) by (split; [apply Z.div_pos; lia|apply Z.div_le_upper_bound; lia]).
  assert (Op : dinode_ok p) by (unfold p; rewrite D0; apply dinode_set_isize; [done|lia]).
  set (N1 := <[0%nat := (p, nb rd, rd)]> N).
  assert (L1 : lay d used N1) by (unfold N1, p; rewrite D0; apply lay_isize; [by rewrite list_insert_id|by eapply lookup_lt_Some|lia]).
  assert (L2 := lay_iput d used N1 1 p L1 ltac:(lia) Op). set (d2 := iput_at d 1 p) in *.
  destruct (mark_ok (Z.to_nat used) 0 zeroes) as [LM HM]; [lia|lia|done|]. change (sb_bmapstart sb) with 58. set (d3 := <[58 := _]> d2).
  assert (E3 : forall b, b <> 58 -> d3 b = d2 b) by (intros b Hb; unfold d3; by rewrite zfn_insert_ne by congruence).
  assert (Len3 : forall b, 0 <= b < FSSIZE -> length (d3 b) = 512%nat).
  { intros b Hb. unfold d3. destruct (decide (b = 58)) as [->|]; [by rewrite zfn_insert_eq|rewrite zfn_insert_ne by congruence; by apply (ly_len _ _ _ L2)]. }
  assert (L3 : lay d3 used N1) by (apply (lay_blocks d2); [done|intros b Hb; apply E3; lia|done]).
  assert (D3 : forall i q n data, N1 !! i = Some (q, n, data) -> dinode d3 (1 + Z.of_nat i) = q).
  { intros i q n data Hi. assert (Hil : (i < length N)%nat) by (apply lookup_lt_Some in Hi; unfold N1 in Hi; by rewrite length_insert in Hi). rewrite (bt_len _ _ _ _ B) in Hil. cbn [length C] in Hil.
    assert (R : 0 <= 1 + Z.of_nat i < 208) by (unfold C in Hil; cbn [length] in Hil; lia). destruct (IBLOCK_eq _ R) as [_ HI]. unfold dinode at 1. rewrite E3 by lia. fold (dinode d2 (1 + Z.of_nat i)).
    unfold d2. rewrite dinode_iput by (done || lia || apply (ly_len _ _ _ L); vm_compute; split; congruence).
    apply list_lookup_insert_Some in Hi as [(<- & [= <- <- <-] & _)|[Hne Hi]]; [done|]. destruct (Z.eqb_spec (1 + Z.of_nat i) 1); [lia|].
    by destruct (bt_node _ _ _ _ B _ _ _ _ Hi) as (? & _ & _ & ? & _). }
  assert (F : forall i ty data, C !! i = Some (ty, data) -> exists q, N1 !! i = Some (q, nb data, data) /\ itype q = ty /\ inlink q = 1
    /\ isize q = if (i =? 0)%nat then (Z.of_nat (length data) / 512 + 1) * 512 else Z.of_nat (length data)).
  { intros i ty data Hi. destruct (decide (i = 0%nat)) as [->|Hne].
    - injection Hi as <- <-. exists p. unfold N1. rewrite list_lookup_insert_eq by (by eapply lookup_lt_Some). unfold p. by rewrite D0.
    - destruct (lookup_lt_is_Some_2 N i) as [[[q n] dt] Hq]; [rewrite (bt_len _ _ _ _ B); by eapply lookup_lt_Some|].
      destruct (bt_node _ _ _ _ B _ _ _ _ Hq) as (ty' & Hc & -> & _ & Ht & Hk & Hs). rewrite Hi in Hc. injection Hc as -> ->.
      exists q. unfold N1. rewrite list_lookup_insert_ne by done. destruct i; [done|]. by rewrite <-Ht. }
  assert (M : forall b, 0 <= b < 32 -> d3 b = if b =? 1 then superblock_image else zeroes).
  { intros b Hb. rewrite E3 by lia. unfold d2. rewrite iput_at_block by (change (IBLOCK 1 sb) with 32; lia). apply (bt_meta _ _ _ _ B); lia. }
  split; [exact Len3| | |reflexivity| | |].
  - rewrite M by lia. reflexivity.
  - intros b Hb. rewrite M by lia. by destruct (Z.eqb_spec b 1); [lia|].
  - intros b Hb. unfold d3. rewrite zfn_insert_eq, HM by lia. destruct (Z.leb_spec used b); case_if; try lia; try done. unfold bit_clear. by rewrite byte_zeroes.
  - intros i ty data Hi. destruct (F i ty data Hi) as (q & Hq & Ht & Hk & Hs). cbv zeta. rewrite (D3 _ _ _ _ Hq). split; [done|]. split; [done|]. split; [by eapply ly_file|done].
  - intros i i' ty data ty' data' k k' Hi Hi' Hk Hk'. destruct (F _ _ _ Hi) as (q & Hq & _), (F _ _ _ Hi') as (q' & Hq' & _). rewrite (D3 _ _ _ _ Hq), (D3 _ _ _ _ Hq').
    by eapply (ly_inj _ _ _ L3).
Qed.

Lemma finish_run d N rd rest fi : let used := nmeta + total ((T_DIR, rd) :: rest) in built d used N ((T_DIR, rd) :: rest) ->
  used <= FSSIZE -> (length rest <= 206)%nat -> Z.of_nat (length rd) <= MAXFILE * 512 ->
  exists d', (din <- rinode 1 ;; winode 1 (set_isize (xint ((xint (isize din) / BSIZE + 1) * BSIZE)) din) ;;; u <- gets freeblock ;; Mkfs.balloc u)
    (mkmk d FSSIZE fi used) = Ret (tt, mkmk d' FSSIZE fi used) /\ image d' used ((T_DIR, rd) :: rest).
Proof.
  cst. intros used B Hu Hr Hrd. eexists. split; [|by apply (finish_image d N rd rest)]. erewrite bind_step by (apply rinode_ok; lia).
  destruct (lookup_lt_is_Some_2 N 0) as [[[p0 n0] d0] H0]; [rewrite (bt_len _ _ _ _ B); cbn; lia|].
  destruct (bt_node _ _ _ _ B _ _ _ _ H0) as (ty0 & [= _ <-] & _ & D0 & _ & _ & S0). change (1 + Z.of_nat 0) with 1 in D0. rewrite D0, S0.
  assert (0 <= Z.of_nat (length rd) / 512 <= 140) by (split; [apply Z.div_pos; lia|apply Z.div_le_upper_bound; lia]).
  unfold xint. change BSIZE with 512. rewrite (u32_small (Z.of_nat (length rd))), u32_small by lia. erewrite bind_step by (apply winode_ok; lia).
  erewrite bind_step by reflexivity. cbn [freeblock]. unfold Mkfs.balloc. change (BSIZE * 8) with 4096. destruct (Z.ltb_spec used 4096); [|lia]. cbn [negb].
  apply wsect_ok. change (sb_bmapstart sb) with 58. lia.
Qed.
Lemma length_dirname n : forall l, length (dirname n l) = n.
Proof. induction n as [|n IH]; intros l; cbn [dirname]; [done|]. case_if; [by rewrite length_replicate|]. cbn. by rewrite IH. Qed.
Lemma length_dirent k name : length (dirent k name) = 16%nat.
Proof. unfold dirent. rewrite length_app, length_dirname. done. Qed.
Lemma length_entries files : forall k, length (entries k files) = (16 * length files)%nat.
Proof. induction files as [|[name data] files IH]; intros k; cbn [entries length]; [done|]. rewrite length_app, length_dirent, IH. lia. Qed.
Lemma insert_head (c c' : Z * list Z) l : <[0%nat := c']> (c :: l) = c' :: l.
Proof. done. Qed.

Lemma cleared_image : exists d0, clear_img (Z.to_nat FSSIZE) 0 (mkmk (fun _ => []) 0 1 nmeta) = Ret (tt, mkmk d0 FSSIZE 1 nmeta)
  /\ built (<[1 := superblock_image]> d0) nmeta [] [].
Proof.
  cst. destruct (clear_img_ok (Z.to_nat FSSIZE) 0 (fun _ => []) 1 nmeta) as (d0 & E0 & H0); [lia|]. rewrite Z2Nat.id, Z.add_0_l in * by lia.
  exists d0. split; [exact E0|]. set (d1 := <[1 := superblock_image]> d0).
  assert (Z0 : forall b, 0 <= b < FSSIZE -> d0 b = zeroes) by (intros b Hb; rewrite H0; case_if; [done|lia]).
  split; [split|reflexivity|intros i p n data Hi; rewrite lookup_nil in Hi; discriminate|].
  - intros b Hb. unfold d1. destruct (decide (b = 1)) as [->|]; [rewrite zfn_insert_eq; reflexivity|]. rewrite zfn_insert_ne, Z0 by (congruence || lia). reflexivity.
  - change (costs []) with 0. lia.
  - intros b Hb. unfold d1. rewrite zfn_insert_ne by lia. apply Z0. lia.
  - intros i p n data Hi. rewrite lookup_nil in Hi. discriminate.
  - intros i i' p n data p' n' data' k k' Hi. rewrite lookup_nil in Hi. discriminate.
  - intros b Hb _. unfold d1. destruct (Z.eqb_spec b 1) as [->|]; [rewrite zfn_insert_eq; reflexivity|]. rewrite zfn_insert_ne by congruence. apply Z0. lia.
Qed.

Lemma main_builds files : fit files ->
  exists s', main files mk0 = Ret (tt, s') /\ img_len s' = FSSIZE /\ image (img s') (freeblock s') (image_of files).
Proof.
  cst. intros [Hn Hf Ht]. unfold main, mk0. erewrite bind_step by reflexivity. unfold set_freeblock. cbn [img img_len freeinode].
  destruct cleared_image as (d0 & E0 & B1). rewrite (bind_step _ _ _ _ _ E0). erewrite bind_step by (apply wsect_ok; lia). fold superblock_image.
  set (d1 := <[1 := superblock_image]> d0) in *. clearbody d1. clear E0 d0.
  destruct (ialloc_ok d1 nmeta [] [] T_DIR B1) as (d2 & N2 & E2 & B2); [cbn; lia|unfold T_DIR; lia|]. change (1 + Z.of_nat (length (@nil (Z * list Z)))) with 1 in E2.
  rewrite (bind_step _ _ _ _ _ E2). change (negb (1 =? ROOTINO)) with false. cbv iota. cbn [app length] in E2, B2 |- *.
  assert (Hroot : length (root_entries files) = (32 + 16 * length files)%nat) by (unfold root_entries; rewrite !length_app, !length_dirent, length_entries; lia).
  assert (TR : forall rd c, rd ++ c = root_entries files -> total [(T_DIR, rd)] <= total (image_of files)).
  { intros rd c Hc. unfold image_of. change (cost (nb rd) + 0 <= cost (nb (root_entries files)) + total (nodes files)). rewrite <-Hc. pose proof (nb_app_cost rd c). pose proof (total_nonneg (nodes files)). lia. }
  destruct (iappend_ok d2 nmeta N2 [(T_DIR, [])] 0 T_DIR [] (dirent 1 [46]) B2) as (d3 & N3 & E3 & B3); [cbn; lia|done|rewrite length_app, length_dirent; cbn [length]; lia|rewrite insert_head; pose proof (TR (dirent 1 [46]) _ eq_refl); cbn [app] in *; lia|].
  cbv zeta in E3, B3. rewrite insert_head in E3, B3. cbn [app] in E3, B3. rewrite (bind_step _ _ _ _ _ E3).
  set (rd := dirent 1 [46] ++ dirent 1 [46; 46]).
  destruct (iappend_ok d3 _ N3 [(T_DIR, dirent 1 [46])] 0 T_DIR (dirent 1 [46]) (dirent 1 [46; 46]) B3) as (d4 & N4 & E4 & B4); [cbn; lia|done|rewrite length_app, !length_dirent; lia| |].
  { rewrite insert_head. pose proof (TR rd (entries 2 files)) as T4. unfold rd, root_entries in T4. rewrite <-app_assoc in T4. specialize (T4 eq_refl). unfold rd in T4. lia. }
  cbv zeta in E4, B4. rewrite insert_head in E4, B4. fold rd in E4, B4. rewrite (bind_step _ _ _ _ _ E4).
  assert (EC : (T_DIR, rd ++ entries (2 + Z.of_nat (length (@nil (Z * list Z)))) files) :: [] ++ nodes files = image_of files) by (unfold image_of, root_entries, rd; rewrite <-app_assoc; done).
  destruct (add_files_ok files d4 _ N4 rd [] B4) as (d5 & N5 & E5 & B5); rewrite ?EC; try done.
  { unfold image_of, nodes. cbn [length]. rewrite length_fmap. lia. }
  { unfold rd. rewrite !length_app, !length_dirent, length_entries. lia. }
  rewrite EC in E5, B5. change (1 + Z.of_nat (length [(T_DIR, dirent 1 [46])])) with (1 + Z.of_nat (length [(T_DIR, rd)])). rewrite (bind_step _ _ _ _ _ E5).
  destruct (finish_run d5 N5 (root_entries files) (nodes files) (1 + Z.of_nat (length (image_of files))) B5) as (d6 & E6 & I6); [done|unfold nodes; rewrite length_fmap; lia|lia|].
  eexists. split; [exact E6|]. done.
Qed.
(** The image builder builds an image that holds the files.  For any files whose names
    have no slash and which fit, each with its indirect block, [mkfs] succeeds; inode 1
    is a directory with the entries dot, dot dot and one for each file with its inode,
    inode 2 + i is the i-th file with exactly its bytes, no block is used twice, the
    blocks marked in the bitmap are those below the first free one, the superblock
    describes the layout, and the log is empty. *)
Theorem mkfs_builds_image files : fit files ->
  exists s', main files mk0 = Ret (tt, s') /\ img_len s' = FSSIZE /\ image (img s') (freeblock s') (image_of files).
Proof. exact (main_builds files). Qed.

(** ** The kernel reads the image *)

Lemma held_icache n b i c s s1 : held n b i s s1 -> held n b i (set_icache c s) (set_icache c s1).
Proof.
  intros [T [[] H2 H3 H4 H5 H6 H7]]. split; [by apply trans_icache|]. split; try done.
  unfold beyond_cache in *. cbn. intuition.
Qed.
(** [ilock] reads the inode from the disk. *)
Lemma ilock_loads pid n ip s p0 : trans n s -> icache s ip = p0 -> 1 <= iref p0 -> locked (ilk p0) = false -> ivalid p0 = false -> idev p0 = 1 ->
  let b := IBLOCK (inum p0) (sblock s) in 0 <= b < disksize s ->
  let p := dec_dinode (view s b) (inum p0 mod IPB * DINODE) (set_ilk (mksl true pid) p0) in itype p <> 0 ->
  wp (ilock pid ip) (fun _ s' => trans n s' /\ reads s s' /\ icache s' ip = set_ivalid true p /\ (forall j, j <> ip -> icache s' j = icache s j)) s.
Proof.
  intros T E0 Hr Hl Hv Hd b Hb p Ht. unfold ilock. apply wp_bind, wp_gets. rewrite E0. destruct (Z.ltb_spec (iref p0) 1); [lia|].
  apply wp_bind. unfold acquiresleep. apply wp_bind, wp_gets. unfold ilockfield. rewrite E0, Hl. apply wp_modify.
  set (sa := ilockset ip (mksl true pid) s). assert (Ea : icache sa ip = set_ilk (mksl true pid) p0) by (unfold sa, ilockset; cbn; rewrite fn_insert_eq; by rewrite E0).
  assert (Ta : trans n sa) by (by apply trans_icache).
  apply wp_bind, wp_gets. rewrite Ea. cbn [ivalid set_ilk]. rewrite Hv. apply wp_bind, wp_gets. unfold id. rewrite Ea. apply wp_bind, wp_gets.
  change (sblock sa) with (sblock s). cbn [idev inum set_ilk]. rewrite Hd. fold b. apply (wp_bread pid n); [done|done|]. intros i s1 H1.
  apply (wp_getdata _ _ _ _ _ _ _ H1). change (view sa b) with (view s b). apply wp_bind, wp_modify.
  assert (E1 : icache s1 = icache sa) by apply (h1_beyond _ _ _ _ (proj2 H1)). rewrite E1, Ea. fold p. clearbody p. set (c := <[ip := p]> (icache sa)).
  apply (wp_brelse n b i (set_icache c sa) _ _ _ (held_icache n b i c sa s1 H1)). intros s3 T3 F3.
  assert (E3 : icache s3 ip = p) by (rewrite (fs_icache _ _ _ F3); apply fn_insert_eq).
  apply wp_bind, wp_modify, wp_bind, wp_gets. cbn [icache set_icache]. rewrite E3, fn_insert_eq. change (itype (set_ivalid true p)) with (itype p).
  destruct (Z.eqb_spec (itype p) 0); [done|]. apply wp_pure. split; [by apply trans_icache|]. split; [|split; [cbn; apply fn_insert_eq|]].
  - apply (reads_trans _ (set_icache c sa)); [apply (reads_trans _ sa); apply reads_icache|].
    apply (reads_trans _ s3); [by apply reads_fstep|apply reads_icache].
  - intros j Hj. cbn. rewrite fn_insert_ne by done. rewrite (fs_icache _ _ _ F3). unfold c. cbn. rewrite fn_insert_ne by done.
    unfold sa, ilockset. cbn. by rewrite fn_insert_ne.
Qed.

(** A kernel state whose disk is the image. *)
Record mounted (s : fs) (d : Z -> list Z) : Prop := {
  mt_view : forall b, 0 <= b < FSSIZE -> view s b = d b;
  mt_size : disksize s = FSSIZE;
  mt_start : lstart (logst s) = 2;
  mt_lsize : lsize (logst s) = 30 }.
(** An inode in memory with what the disk says of it. *)
Definition same_disk (p q : inode) : Prop := itype p = itype q /\ isize p = isize q /\ iaddrs p = iaddrs q.
Lemma dec_same_disk d o q : same_disk (dec_dinode d o q) (dec_dinode d o dinode0) /\ idev (dec_dinode d o q) = idev q.
Proof. unfold same_disk, dec_dinode. rewrite !set_fields. done. Qed.

Lemma valid_same_disk p q : same_disk p q -> same_disk (set_ivalid true p) q /\ idev (set_ivalid true p) = idev p.
Proof. done. Qed.
Lemma image_file s d used C i ty data p : image d used C -> used <= FSSIZE -> mounted s d -> C !! i = Some (ty, data) -> i <> 0%nat -> ty <> T_DEV ->
  same_disk p (dinode d (1 + Z.of_nat i)) -> idev p = 1 ->
  file_ok s p /\ isize p = Z.of_nat (length data) /\ forall j, 0 <= j < isize p -> fbyte s p j = byte_at data j.
Proof.
  cst. intros I Hu [Mv Ms Ma Ml] Hi Hi0 Ht (P1 & P2 & P3) Hd. destruct (im_node _ _ _ I i ty data Hi) as (N1 & _ & L & N4). set (q := dinode d (1 + Z.of_nat i)) in *.
  destruct i as [|i]; [done|]. cbn [Nat.eqb] in N4. rewrite <-P2 in N4. rewrite <-P1 in N1.
  assert (A : forall k, addr_at p k = addr_at q k) by (intros k; unfold addr_at; by rewrite P3).
  assert (R := la_range _ _ _ _ _ L). assert (Ln := la_n _ _ _ _ _ L). assert (Hlen := la_len _ _ _ _ _ L).
  assert (Hnb : FsFile.nblocks p = nb data) by (unfold FsFile.nblocks, nb; rewrite N4; change BSIZE with 512; f_equal; lia).
  assert (FB : forall k, 0 <= k < nb data -> file_block s p k = MkfsLay.blk d q k).
  { intros k Hk. unfold file_block, MkfsLay.blk, fblk. destruct (Z.eqb_spec k (-1)); [lia|]. rewrite !A. destruct (Z.ltb_spec k NDIRECT); [done|].
    assert (S1 : MkfsLay.slot (nb data) (-1)) by (right; split; [done|lia]). specialize (R _ S1). change (MkfsLay.blk d q (-1)) with (addr_at q NDIRECT) in R. rewrite Mv by lia. done. }
  assert (Hhome : forall b, nmeta <= b < used -> home s b) by (intros b Hb; unfold home, in_log; rewrite Ms, Ma, Ml; lia).
  assert (Sl : forall k, 0 <= k < nb data -> MkfsLay.slot (nb data) k) by (intros k Hk; by left).
  assert (J : forall k k', MkfsLay.slot (nb data) k -> MkfsLay.slot (nb data) k' -> MkfsLay.blk d q k = MkfsLay.blk d q k' -> k = k') by (intros k k' Hk Hk' E; by destruct (im_disjoint _ _ _ I _ _ _ _ _ _ _ _ Hi Hi Hk Hk' E)).
  split; [|split; [done|]].
  - split; rewrite ?Hnb.
    + done.
    + by rewrite N1.
    + change BSIZE with 512. lia.
    + intros k Hk. rewrite FB by done. specialize (R k (Sl k Hk)). split; [by apply Hhome|]. split; [lia|]. rewrite Mv by lia. apply (im_len _ _ _ I). lia.
    + intros Hn. assert (S1 : MkfsLay.slot (nb data) (-1)) by (right; split; [done|lia]). assert (R1 := R _ S1). change (MkfsLay.blk d q (-1)) with (addr_at q NDIRECT) in R1. rewrite A.
      split; [split; [by apply Hhome|lia]|]. intros k Hk E. rewrite FB in E by done. assert (k = -1) by (by apply J; [apply Sl| |]). lia.
    + intros k j Hk Hj. rewrite !FB by done. apply J; by apply Sl.
  - intros j Hj. rewrite N4 in Hj. assert (Hk : 0 <= j / 512 < nb data) by (split; [apply Z.div_pos; lia|apply Z.div_lt_upper_bound; lia]).
    unfold fbyte. change BSIZE with 512. rewrite FB, Mv by (done || (specialize (R _ (Sl _ Hk)); lia)). apply (la_byte _ _ _ _ _ L). lia.
Qed.

(** C21: The kernel reads from the image what the builder was given.  Built by [mkfs] from
    any files that fit, and mounted, the image gives for the inode 2 + i, when the kernel
    locks it, which loads it from the disk, and reads any number of bytes from its start,
    exactly those bytes of the i-th file. *)
Theorem mkfs_file_read_back files s' s i name data pid dev_read (dev_write : Z -> option (list Z -> M fs Z)) ip m n :
  fit files -> main files mk0 = Ret (tt, s') -> mounted s (img s') -> sblock s = sb -> trans m s -> files !! i = Some (name, data) ->
  let p0 := icache s ip in 1 <= iref p0 -> locked (ilk p0) = false -> ivalid p0 = false -> idev p0 = 1 -> inum p0 = 2 + Z.of_nat i ->
  0 <= n <= Z.of_nat (length data) ->
  wp (ilock pid ip ;;; readi pid dev_read ip 0 n) (fun r s2 => r = (n, take (Z.to_nat n) data) /\ trans m s2) s.
Proof.
  cst. intros F E Hm Hsb T Hi p0 Hr Hl Hv Hd Hn0 Hn. destruct (main_builds files F) as (s1 & E1 & _ & I). rewrite E in E1. injection E1 as <-.
  assert (Hlt : (i < length files)%nat) by (by eapply lookup_lt_Some). assert (Hc := ft_count _ F). assert (Hu : freeblock s' <= FSSIZE) by (rewrite (im_used _ _ _ I); apply F).
  assert (HC : image_of files !! S i = Some (T_FILE, data)) by (change (nodes files !! i = Some (T_FILE, data)); unfold nodes; rewrite list_lookup_fmap, Hi; done).
  destruct (IBLOCK_eq (2 + Z.of_nat i)) as [_ HI]; [lia|].
  set (d := img s') in *. set (o := (2 + Z.of_nat i) mod IPB * DINODE).
  assert (Hv0 : view s (IBLOCK (2 + Z.of_nat i) sb) = d (IBLOCK (2 + Z.of_nat i) sb)) by (apply (mt_view _ _ Hm); lia).
  destruct (dec_same_disk (d (IBLOCK (2 + Z.of_nat i) sb)) o (set_ilk (mksl true pid) p0)) as [D1 D2].
  change (dec_dinode (d (IBLOCK (2 + Z.of_nat i) sb)) o dinode0) with (dinode d (2 + Z.of_nat i)) in D1.
  replace (2 + Z.of_nat i) with (1 + Z.of_nat (S i)) in D1 at 2 by lia.
  apply wp_bind. eapply wp_mono.
  { apply (ilock_loads pid m ip s p0 T eq_refl Hr Hl Hv Hd); rewrite Hn0, Hsb; [rewrite (mt_size _ _ Hm); lia|].
    rewrite Hv0. fold o. rewrite (proj1 D1). destruct (im_node _ _ _ I _ _ _ HC) as (-> & _). done. }
  intros [] s2 (T2 & R2 & E2 & _). rewrite Hn0, Hsb, Hv0 in E2. fold o in E2. apply valid_same_disk in D1 as [D1 D3].
  set (p := set_ivalid true _) in *. rewrite D2 in D3. cbn [idev set_ilk] in D3. rewrite Hd in D3. clearbody p. clear D2.
  destruct (image_file s2 d (freeblock s') (image_of files) (S i) T_FILE data p I Hu) as (Fo & Fs & Fb);
    [|exact HC|lia|discriminate|exact D1|exact D3|].
  { destruct Hm as [M1 M2 M3 M4]. pose proof (fs_size _ _ _ R2) as S2. pose proof (f_equal lstart (fs_log _ _ _ R2)) as A2.
    pose proof (f_equal lsize (fs_log _ _ _ R2)) as Z2. cbn in S2, A2, Z2. split; try congruence. intros b Hb. by rewrite (reads_view _ _ _ R2), M1. }
  eapply wp_mono; [apply (readi_ok pid dev_read dev_write ip p m 0 n s2)|].
  - split; [exact T2|]. split; [exact E2|exact Fo].
  - lia.
  - lia.
  - assert (L := la_len _ _ _ _ _ (proj1 (proj2 (proj2 (im_node _ _ _ I _ _ _ HC))))). pose proof (la_n _ _ _ _ _ (proj1 (proj2 (proj2 (im_node _ _ _ I _ _ _ HC))))). lia.
  - intros r s3 (-> & T3 & _). split; [|done]. rewrite Fs, Z.min_l by lia. f_equal.
    change (take (Z.to_nat n) data) with (slice data 0 n). rewrite slice_bytes by lia. apply list_fmap_ext. intros k j Hj. apply lookup_seqZ in Hj. apply Fb. lia.
Qed.

(** Two bytes in a file, and a kernel that has just mounted an image. *)
Definition demo_files : list (list Z * list Z) := [([95; 97], [104; 105])].
Lemma demo_fit : fit demo_files.
Proof.
  split; [cbn; lia| |vm_compute; discriminate]. constructor; [|constructor]. split; [|vm_compute; discriminate].
  cbn. intros H. repeat (apply elem_of_cons in H as [H|H]; [discriminate|]). by apply not_elem_of_nil in H.
Qed.
Definition demo_kernel (d : Z -> list Z) : fs := volume FSSIZE d sb (fun _ => mkinode 1 2 1 (mksl false 0) false 0 0 0 0 0 []).
Lemma mkfs_builds_image_witness : exists s', main demo_files mk0 = Ret (tt, s') /\ img_len s' = FSSIZE /\ image (img s') (freeblock s') (image_of demo_files).
Proof. apply (mkfs_builds_image demo_files). exact demo_fit. Defined.
Lemma mkfs_file_read_back_witness : exists s', main demo_files mk0 = Ret (tt, s') /\
  wp (ilock 1 0 ;;; readi 1 (fun _ => None) 0 0 2) (fun r s2 => r = (2, [104; 105]) /\ trans 20 s2) (demo_kernel (img s')).
Proof.
  destruct (main_builds demo_files demo_fit) as (s' & E & _). exists s'. split; [exact E|].
  apply (mkfs_file_read_back demo_files s' (demo_kernel (img s')) 0 [95; 97] [104; 105] 1 (fun _ => None) (fun _ => None) 0 20 2 demo_fit E).
  - split; [intros b _; apply volume_view|reflexivity..].
  - reflexivity.
  - apply (trans_weaken 29); [lia|apply volume_trans; unfold FSSIZE; lia].
  - reflexivity.
  - cbn. lia.
  - reflexivity.
  - reflexivity.
  - reflexivity.
  - reflexivity.
  - cbn. lia.
Defined.

(** With thirty files the root directory fills its block, and its size, rounded up, is a
    block more than it has. *)
Lemma full_root_has_a_hole : let files := replicate 30 ([97], []) in
  Z.of_nat (length (root_entries files)) = 512 /\ (Z.of_nat (length (root_entries files)) / 512 + 1) * 512 = 1024 /\ nb (root_entries files) = 1.
Proof. vm_compute. auto. Qed.
