(* ===== verification/Desc.v ===== *)
(** * Descriptors

    The segment and gate descriptors of [src/xv6/mmu.h] and the routines that write them
    into the tables the processor reads: [seginit] and the task state that [switchuvm]
    sets up ([src/xv6/vm.c]), [tvinit] and [idtinit] ([src/xv6/trap.c]).  A descriptor is
    a structure of bit fields, in memory two words; the processor's reading of these words
    is given apart from the code that writes them. *)

From S2P Require Import Prelude Mem.
Local Open Scope Z_scope.

Definition SEG_KCODE : Z := 1.
Definition SEG_KDATA : Z := 2.
Definition SEG_UCODE : Z := 3.
Definition SEG_UDATA : Z := 4.
Definition SEG_TSS : Z := 5.
Definition NSEGS : Z := 6.
Definition DPL_USER : Z := 3.
Definition STA_X : Z := 0x8.
Definition STA_W : Z := 0x2.
Definition STA_R : Z := 0x2.
Definition STS_T32A : Z := 0x9.
Definition STS_T32B : Z := 0xB.
Definition STS_IG32 : Z := 0xE.
Definition STS_TG32 : Z := 0xF.
Definition T_SYSCALL : Z := 64.

(** A field of [w] bits keeps the low bits of what is stored. *)
Definition bits (w x : Z) : Z := x mod 2 ^ w.
(** Fields from the least significant one on, each with its width. *)
Fixpoint pack (l : list (Z * Z)) : Z :=
  match l with
  | [] => 0
  | (w, x) :: l' => bits w x + 2 ^ w * pack l'
  end.

(** ** Segments *)

Record segdesc := mksegdesc {
  lim_15_0 : Z; base_15_0 : Z; base_23_16 : Z; sg_type : Z; sg_s : Z; sg_dpl : Z; sg_p : Z;
  lim_19_16 : Z; avl : Z; sg_rsv1 : Z; db : Z; g : Z; base_31_24 : Z }.
Definition segdesc_lo (d : segdesc) : Z := pack [(16, lim_15_0 d); (16, base_15_0 d)].
Definition segdesc_hi (d : segdesc) : Z :=
  pack [(8, base_23_16 d); (4, sg_type d); (1, sg_s d); (2, sg_dpl d); (1, sg_p d);
        (4, lim_19_16 d); (1, avl d); (1, sg_rsv1 d); (1, db d); (1, g d); (8, base_31_24 d)].
Definition st_segdesc (m : mem) (a : Z) (d : segdesc) : mem :=
  st32 (st32 m a (segdesc_lo d)) (a + 4) (segdesc_hi d).

Definition SEG (type base lim dpl : Z) : segdesc :=
  mksegdesc (Z.land (Z.shiftr lim 12) 0xffff) (Z.land (u32 base) 0xffff) (Z.land (Z.shiftr (u32 base) 16) 0xff)
    type 1 dpl 1 (Z.shiftr (u32 lim) 28) 0 0 1 1 (Z.shiftr (u32 base) 24).
Definition SEG16 (type base lim dpl : Z) : segdesc :=
  mksegdesc (Z.land lim 0xffff) (Z.land (u32 base) 0xffff) (Z.land (Z.shiftr (u32 base) 16) 0xff)
    type 1 dpl 1 (Z.shiftr (u32 lim) 16) 0 0 1 0 (Z.shiftr (u32 base) 24).
Definition set_s (v : Z) (d : segdesc) : segdesc :=
  mksegdesc (lim_15_0 d) (base_15_0 d) (base_23_16 d) (sg_type d) v (sg_dpl d) (sg_p d)
    (lim_19_16 d) (avl d) (sg_rsv1 d) (db d) (g d) (base_31_24 d).

(** ** Gates *)

Record gatedesc := mkgatedesc {
  off_15_0 : Z; gd_cs : Z; args : Z; gd_rsv1 : Z; gd_type : Z; gd_s : Z; gd_dpl : Z; gd_p : Z; off_31_16 : Z }.
Definition gatedesc_lo (d : gatedesc) : Z := pack [(16, off_15_0 d); (16, gd_cs d)].
Definition gatedesc_hi (d : gatedesc) : Z :=
  pack [(5, args d); (3, gd_rsv1 d); (4, gd_type d); (1, gd_s d); (2, gd_dpl d); (1, gd_p d); (16, off_31_16 d)].
Definition st_gatedesc (m : mem) (a : Z) (d : gatedesc) : mem :=
  st32 (st32 m a (gatedesc_lo d)) (a + 4) (gatedesc_hi d).
Definition SETGATE (istrap : bool) (sel off d : Z) : gatedesc :=
  mkgatedesc (Z.land (u32 off) 0xffff) sel 0 0 (if istrap then STS_TG32 else STS_IG32) 0 d 1 (Z.shiftr (u32 off) 16).

(** ** What the processor reads *)

(** A bit field of a word, from bit [i] on, [w] bits wide. *)
Definition field (v i w : Z) : Z := v / 2 ^ i mod 2 ^ w.
Definition seg_base (lo hi : Z) : Z := field lo 16 16 + 2 ^ 16 * field hi 0 8 + 2 ^ 24 * field hi 24 8.
(** The last byte of the segment: the limit counts pages when the granularity bit is set. *)
Definition seg_limit (lo hi : Z) : Z :=
  let l := field lo 0 16 + 2 ^ 16 * field hi 16 4 in
  if field hi 23 1 =? 1 then l * 4096 + 4095 else l.
Definition seg_type (hi : Z) : Z := field hi 8 4.
Definition seg_s (hi : Z) : Z := field hi 12 1.
Definition seg_dpl (hi : Z) : Z := field hi 13 2.
Definition seg_present (hi : Z) : bool := field hi 15 1 =? 1.
Definition gate_off (lo hi : Z) : Z := field lo 0 16 + 2 ^ 16 * field hi 16 16.
Definition gate_cs (lo : Z) : Z := field lo 16 16.
Definition gate_type (hi : Z) : Z := field hi 8 4.
Definition gate_dpl (hi : Z) : Z := field hi 13 2.
Definition gate_present (hi : Z) : bool := field hi 15 1 =? 1.

(** ** The processor's table registers *)

Record tables := mktables { gdt_base : Z; gdt_limit : Z; idt_base : Z; idt_limit : Z; tss_base : Z }.
(** The six bytes [lgdt] and [lidt] load: the size less one and the address in two halves. *)
Definition pseudo_base (p : Z) : Z := u16 p + 2 ^ 16 * u16 (Z.shiftr (u32 p) 16).
Definition lgdt (p size : Z) (t : tables) : tables :=
  mktables (pseudo_base p) (u16 (size - 1)) (idt_base t) (idt_limit t) (tss_base t).
Definition lidt (p size : Z) (t : tables) : tables :=
  mktables (gdt_base t) (gdt_limit t) (pseudo_base p) (u16 (size - 1)) (tss_base t).

(** Memory and the table registers of the processor that runs. *)
Definition dst : Type := mem * tables.

(** [ltr] takes a task state that is available and marks it busy; any other descriptor
    is a fault. *)
Definition ltr (sel : Z) : M dst unit := fun '(m, t) =>
  let a := gdt_base t + sel in
  let hi := ld32 m (a + 4) in
  if (seg_type hi =? STS_T32A) && (seg_s hi =? 0) && seg_present hi then
    Ret (tt, (st32 m (a + 4) (Z.lor hi 0x200), mktables (gdt_base t) (gdt_limit t) (idt_base t) (idt_limit t) (seg_base (ld32 m a) hi)))
  else Panic "general protection".

(** Offsets in [struct cpu] and in [struct taskstate]. *)
Definition CPU_TS : Z := 8.
Definition CPU_GDT : Z := 112.
Definition TS_SIZE : Z := 104.
Definition TS_ESP0 : Z := 4.
Definition TS_SS0 : Z := 8.
Definition TS_IOMB : Z := 102.
Definition st16 (m : mem) (a v : Z) : mem := stb (stb m a v) (a + 1) (Z.shiftr v 8).
Definition ld16 (m : mem) (a : Z) : Z := ldb m a + 256 * ldb m (a + 1).

(** [c] is the address of the processor's [struct cpu]. *)
Definition seginit (c : Z) : M dst unit :=
  let gdt := c + CPU_GDT in
  modify (fun '(m, t) => (st_segdesc m (gdt + 8 * SEG_KCODE) (SEG (Z.lor STA_X STA_R) 0 0xffffffff 0), t)) ;;;
  modify (fun '(m, t) => (st_segdesc m (gdt + 8 * SEG_KDATA) (SEG STA_W 0 0xffffffff 0), t)) ;;;
  modify (fun '(m, t) => (st_segdesc m (gdt + 8 * SEG_UCODE) (SEG (Z.lor STA_X STA_R) 0 0xffffffff DPL_USER), t)) ;;;
  modify (fun '(m, t) => (st_segdesc m (gdt + 8 * SEG_UDATA) (SEG STA_W 0 0xffffffff DPL_USER), t)) ;;;
  modify (fun '(m, t) => (m, lgdt gdt (8 * NSEGS) t)).

(** The part of [switchuvm] between [pushcli] and [lcr3]: the process's kernel stack ends
    at [top]. *)
Definition switch_tss (c top : Z) : M dst unit :=
  let gdt := c + CPU_GDT in
  let ts := c + CPU_TS in
  let d := SEG16 STS_T32A ts (TS_SIZE - 1) 0 in
  modify (fun '(m, t) => (st_segdesc m (gdt + 8 * SEG_TSS) d, t)) ;;;
  modify (fun '(m, t) => (st_segdesc m (gdt + 8 * SEG_TSS) (set_s 0 d), t)) ;;;
  modify (fun '(m, t) => (st16 m (ts + TS_SS0) (Z.shiftl SEG_KDATA 3), t)) ;;;
  modify (fun '(m, t) => (st32 m (ts + TS_ESP0) top, t)) ;;;
  modify (fun '(m, t) => (st16 m (ts + TS_IOMB) 0xFFFF, t)) ;;;
  ltr (Z.shiftl SEG_TSS 3).

(** [for(i = 0; i < 256; i++) SETGATE(idt[i], ...)] for [n] turns from [i] on. *)
Fixpoint tvinit_loop (idt : Z) (vectors : Z -> Z) (n : nat) (i : Z) (m : mem) : mem :=
  match n with
  | O => m
  | S n' =>
      tvinit_loop idt vectors n' (i + 1) (st_gatedesc m (idt + 8 * i) (SETGATE false (Z.shiftl SEG_KCODE 3) (vectors i) 0))
  end.
Definition tvinit (idt : Z) (vectors : Z -> Z) : M dst unit :=
  modify (fun '(m, t) => (tvinit_loop idt vectors 256 0 m, t)) ;;;
  modify (fun '(m, t) =>
    (st_gatedesc m (idt + 8 * T_SYSCALL) (SETGATE true (Z.shiftl SEG_KCODE 3) (vectors T_SYSCALL) DPL_USER), t)).
Definition idtinit (idt : Z) : M dst unit := modify (fun '(m, t) => (m, lidt idt (8 * 256) t)).

(** ** Reading back what was packed *)

Fixpoint width (l : list (Z * Z)) : Z :=
  match l with [] => 0 | (w, _) :: l' => w + width l' end.
Definition widths_ok (l : list (Z * Z)) : Prop := Forall (fun p => 0 <= fst p) l.

Lemma width_nonneg l : widths_ok l -> 0 <= width l.
Proof. induction 1 as [|[w x] l H _ IH]; cbn in *; lia. Qed.
Lemma bits_range w x : 0 <= w -> 0 <= bits w x < 2 ^ w.
Proof. intros H. apply Z.mod_pos_bound. apply Z.pow_pos_nonneg; lia. Qed.
Lemma pack_range l : widths_ok l -> 0 <= pack l < 2 ^ width l.
Proof.
  induction 1 as [|[w x] l H Hl IH]; cbn in *; [lia|].
  pose proof (bits_range w x H). rewrite Z.pow_add_r by (auto using width_nonneg). nia.
Qed.
Lemma pack_app l1 l2 : widths_ok l1 -> pack (l1 ++ l2) = pack l1 + 2 ^ width l1 * pack l2.
Proof.
  induction 1 as [|[w x] l H Hl IH]; cbn [pack width app] in *; [lia|].
  rewrite IH, Z.pow_add_r by (auto using width_nonneg). ring.
Qed.
(** A field holds what was stored into it. *)
Lemma field_pack l1 w x l2 : widths_ok l1 -> 0 <= w -> field (pack (l1 ++ (w, x) :: l2)) (width l1) w = bits w x.
Proof.
  intros H Hw. rewrite pack_app by done. unfold field. cbn [pack].
  pose proof (pack_range l1 H) as Hr. pose proof (bits_range w x Hw) as Hb.
  assert (Hp : 0 < 2 ^ width l1) by lia. assert (Hq : 0 < 2 ^ w) by (apply Z.pow_pos_nonneg; lia).
  replace (pack l1 + 2 ^ width l1 * (bits w x + 2 ^ w * pack l2))
    with (pack l1 + (bits w x + pack l2 * 2 ^ w) * 2 ^ width l1) by ring.
  rewrite Z.div_add by lia. rewrite Z.div_small by lia. rewrite Z.add_0_l, Z.mod_add by lia. apply Z.mod_small, Hb.
Qed.
Ltac widths := repeat constructor; cbn; lia.

Section Seg.
Context (d : segdesc).
Notation lo := (segdesc_lo d).
Notation hi := (segdesc_hi d).
Lemma segdesc_range : 0 <= lo < 2 ^ 32 /\ 0 <= hi < 2 ^ 32.
Proof. split; apply pack_range; widths. Qed.
Lemma segdesc_dpl : seg_dpl hi = bits 2 (sg_dpl d).
Proof. apply (field_pack [(8, _); (4, _); (1, _)]); [widths|lia]. Qed.
Lemma segdesc_type : seg_type hi = bits 4 (sg_type d).
Proof. apply (field_pack [(8, _)]); [widths|lia]. Qed.
Lemma segdesc_s : seg_s hi = bits 1 (sg_s d).
Proof. apply (field_pack [(8, _); (4, _)]); [widths|lia]. Qed.
Lemma segdesc_p : seg_present hi = (bits 1 (sg_p d) =? 1).
Proof. unfold seg_present. f_equal. apply (field_pack [(8, _); (4, _); (1, _); (2, _)]); [widths|lia]. Qed.
Lemma segdesc_base : seg_base lo hi = bits 16 (base_15_0 d) + 2 ^ 16 * bits 8 (base_23_16 d) + 2 ^ 24 * bits 8 (base_31_24 d).
Proof.
  unfold seg_base. f_equal; [f_equal|]; [|f_equal|f_equal].
  - apply (field_pack [(16, _)]); [widths|lia].
  - apply (field_pack []); [widths|lia].
  - apply (field_pack [(8, _); (4, _); (1, _); (2, _); (1, _); (4, _); (1, _); (1, _); (1, _); (1, _)]); [widths|lia].
Qed.
Lemma segdesc_limit : seg_limit lo hi =
  let l := bits 16 (lim_15_0 d) + 2 ^ 16 * bits 4 (lim_19_16 d) in if bits 1 (g d) =? 1 then l * 4096 + 4095 else l.
Proof.
  unfold seg_limit.
  replace (field hi 23 1) with (bits 1 (g d))
    by (symmetry; apply (field_pack [(8, _); (4, _); (1, _); (2, _); (1, _); (4, _); (1, _); (1, _); (1, _)]); [widths|lia]).
  replace (field lo 0 16) with (bits 16 (lim_15_0 d)) by (symmetry; apply (field_pack []); [widths|lia]).
  replace (field hi 16 4) with (bits 4 (lim_19_16 d))
    by (symmetry; apply (field_pack [(8, _); (4, _); (1, _); (2, _); (1, _)]); [widths|lia]).
  reflexivity.
Qed.
End Seg.

Section Gate.
Context (d : gatedesc).
Notation lo := (gatedesc_lo d).
Notation hi := (gatedesc_hi d).
Lemma gatedesc_range : 0 <= lo < 2 ^ 32 /\ 0 <= hi < 2 ^ 32.
Proof. split; apply pack_range; widths. Qed.
Lemma gatedesc_fields :
  gate_off lo hi = bits 16 (off_15_0 d) + 2 ^ 16 * bits 16 (off_31_16 d) /\ gate_cs lo = bits 16 (gd_cs d)
  /\ gate_type hi = bits 4 (gd_type d) /\ gate_dpl hi = bits 2 (gd_dpl d) /\ gate_present hi = (bits 1 (gd_p d) =? 1).
Proof.
  split; [|split; [|split; [|split]]].
  - unfold gate_off. f_equal; [|f_equal].
    + apply (field_pack []); [widths|lia].
    + apply (field_pack [(5, _); (3, _); (4, _); (1, _); (2, _); (1, _)]); [widths|lia].
  - apply (field_pack [(16, _)]); [widths|lia].
  - apply (field_pack [(5, _); (3, _)]); [widths|lia].
  - apply (field_pack [(5, _); (3, _); (4, _); (1, _)]); [widths|lia].
  - unfold gate_present. f_equal. apply (field_pack [(5, _); (3, _); (4, _); (1, _); (2, _)]); [widths|lia].
Qed.
End Gate.

(** ** The macros *)

Lemma split_halves v : 0 <= v < 2 ^ 32 -> bits 16 (Z.land v 0xffff) + 2 ^ 16 * bits 16 (Z.shiftr v 16) = v.
Proof.
  intros H. unfold bits. change 0xffff with (Z.ones 16). rewrite Z.land_ones, Z.shiftr_div_pow2 by lia.
  rewrite Z.mod_mod by lia. rewrite (Z.mod_small (v / 2 ^ 16)); [|split; [apply Z.div_pos|apply Z.div_lt_upper_bound]; lia].
  pose proof (Z.div_mod v (2 ^ 16)). lia.
Qed.
Lemma split_base v : 0 <= v < 2 ^ 32 ->
  bits 16 (Z.land v 0xffff) + 2 ^ 16 * bits 8 (Z.land (Z.shiftr v 16) 0xff) + 2 ^ 24 * bits 8 (Z.shiftr v 24) = v.
Proof.
  intros H. unfold bits. change 0xffff with (Z.ones 16). change 0xff with (Z.ones 8).
  rewrite !Z.land_ones, !Z.shiftr_div_pow2 by lia. rewrite !Z.mod_mod by lia.
  rewrite (Z.mod_small (v / 2 ^ 24)) by (split; [apply Z.div_pos|apply Z.div_lt_upper_bound]; lia).
  change (2 ^ 24) with (2 ^ 16 * 2 ^ 8). rewrite <-Z.div_div by lia.
  pose proof (Z.div_mod v (2 ^ 16)). pose proof (Z.div_mod (v / 2 ^ 16) (2 ^ 8)). lia.
Qed.

(** [SEG] describes the segment from [base] on that ends with the page of [lim]. *)
Lemma SEG_spec type base lim dpl : 0 <= lim < 2 ^ 32 -> 0 <= dpl < 4 ->
  let d := SEG type base lim dpl in
  seg_base (segdesc_lo d) (segdesc_hi d) = u32 base /\ seg_limit (segdesc_lo d) (segdesc_hi d) = lim / 4096 * 4096 + 4095
  /\ seg_dpl (segdesc_hi d) = dpl /\ seg_present (segdesc_hi d) = true.
Proof.
  intros Hl Hd d. split; [|split; [|split]].
  - rewrite segdesc_base. apply split_base, u32_range.
  - rewrite segdesc_limit. cbv zeta. change (bits 1 (g d) =? 1) with true. cbn [lim_15_0 lim_19_16 d SEG].
    rewrite u32_small by lia. f_equal. f_equal. unfold bits. change 0xffff with (Z.ones 16).
    rewrite Z.land_ones, !Z.shiftr_div_pow2, Z.mod_mod by lia.
    rewrite (Z.mod_small (lim / 2 ^ 28)) by (split; [apply Z.div_pos|apply Z.div_lt_upper_bound]; lia).
    change (2 ^ 28) with (2 ^ 12 * 2 ^ 16). rewrite <-Z.div_div by lia. change (2 ^ 12) with 4096.
    pose proof (Z.div_mod (lim / 4096) (2 ^ 16)). lia.
  - rewrite segdesc_dpl. apply Z.mod_small. cbn. lia.
  - by rewrite segdesc_p.
Qed.
(** The gate leads to the address it was given. *)
Lemma SETGATE_spec istrap sel off d : 0 <= sel < 2 ^ 16 -> 0 <= d < 4 ->
  let x := SETGATE istrap sel off d in
  gate_off (gatedesc_lo x) (gatedesc_hi x) = u32 off /\ gate_cs (gatedesc_lo x) = sel
  /\ gate_type (gatedesc_hi x) = (if istrap then STS_TG32 else STS_IG32) /\ gate_dpl (gatedesc_hi x) = d
  /\ gate_present (gatedesc_hi x) = true.
Proof.
  intros Hs Hd x. destruct (gatedesc_fields x) as (-> & -> & -> & -> & ->). split; [|split; [|split; [|split]]].
  - apply split_halves, u32_range.
  - apply Z.mod_small. cbn. lia.
  - destruct istrap; reflexivity.
  - apply Z.mod_small. cbn. lia.
  - reflexivity.
Qed.

(** ** The tables in memory *)

(** The word at [a] does not overlap the [n] bytes from [b] on. *)
Definition off (a b n : Z) : Prop := a + 4 <= b \/ b + n <= a.

Lemma ldb_st16_ne m a v x : x <> a -> x <> a + 1 -> ldb (st16 m a v) x = ldb m x.
Proof. intros. unfold st16. by rewrite !ldb_stb_ne. Qed.
Lemma ld32_st16_ne m a v x : off x a 2 -> ld32 (st16 m a v) x = ld32 m x.
Proof. intros H. unfold off in H. apply ld32_ext. intros k Hk. apply ldb_st16_ne; lia. Qed.
Lemma ld16_st16_same m a v : ld16 (st16 m a v) a = u16 v.
Proof.
  unfold ld16, st16. rewrite (ldb_stb_ne _ (a + 1)), ldb_stb_same, ldb_stb_same by lia.
  unfold u8, u16. rewrite Z.shiftr_div_pow2 by lia. change (2 ^ 16) with (2 ^ 8 * 2 ^ 8).
  rewrite (Z.rem_mul_r v (2 ^ 8) (2 ^ 8)) by lia. lia.
Qed.
Lemma ld16_st16_ne m a v x : x + 2 <= a \/ a + 2 <= x -> ld16 (st16 m a v) x = ld16 m x.
Proof. intros. unfold ld16. by rewrite !ldb_st16_ne by lia. Qed.
Lemma ld16_st32_ne m a v x : x + 2 <= a \/ a + 4 <= x -> ld16 (st32 m a v) x = ld16 m x.
Proof. intros. unfold ld16. rewrite !ldb_st32. repeat (case_if; [lia|]). reflexivity. Qed.

Lemma ld32_segdesc_ne m a d x : off x a 8 -> ld32 (st_segdesc m a d) x = ld32 m x.
Proof. unfold off, st_segdesc. intros H. by rewrite !ld32_st32_ne by lia. Qed.
Lemma ld32_segdesc m a d : ld32 (st_segdesc m a d) a = segdesc_lo d /\ ld32 (st_segdesc m a d) (a + 4) = segdesc_hi d.
Proof.
  unfold st_segdesc. rewrite ld32_st32_ne, !ld32_st32_same by lia. destruct (segdesc_range d). split; by apply u32_small.
Qed.
Lemma ld32_gatedesc_ne m a d x : off x a 8 -> ld32 (st_gatedesc m a d) x = ld32 m x.
Proof. unfold off, st_gatedesc. intros H. by rewrite !ld32_st32_ne by lia. Qed.
Lemma ld32_gatedesc m a d : ld32 (st_gatedesc m a d) a = gatedesc_lo d /\ ld32 (st_gatedesc m a d) (a + 4) = gatedesc_hi d.
Proof.
  unfold st_gatedesc. rewrite ld32_st32_ne, !ld32_st32_same by lia. destruct (gatedesc_range d). split; by apply u32_small.
Qed.

Definition seg_for (k : Z) : segdesc :=
  SEG (if Z.odd k then Z.lor STA_X STA_R else STA_W) 0 0xffffffff (if k <? SEG_UCODE then 0 else DPL_USER).
Definition gate_for (vectors : Z -> Z) (n : Z) : gatedesc :=
  SETGATE (n =? T_SYSCALL) (Z.shiftl SEG_KCODE 3) (vectors n) (if n =? T_SYSCALL then DPL_USER else 0).

(** The processor's tables are those of the kernel, with the kernel stack ending at [top]. *)
Record installed (vectors : Z -> Z) (top : Z) (m : mem) (t : tables) : Prop := mkinstalled {
  in_limits : gdt_limit t = 8 * NSEGS - 1 /\ idt_limit t = 8 * 256 - 1;
  in_segs : forall k, SEG_KCODE <= k <= SEG_UDATA ->
    ld32 m (gdt_base t + 8 * k) = segdesc_lo (seg_for k) /\ ld32 m (gdt_base t + 8 * k + 4) = segdesc_hi (seg_for k);
  in_gates : forall n, 0 <= n < 256 ->
    ld32 m (idt_base t + 8 * n) = gatedesc_lo (gate_for vectors n) /\ ld32 m (idt_base t + 8 * n + 4) = gatedesc_hi (gate_for vectors n);
  in_stack : ld32 m (tss_base t + TS_ESP0) = top /\ ld16 m (tss_base t + TS_SS0) = Z.shiftl SEG_KDATA 3;
  in_iomb : ld16 m (tss_base t + TS_IOMB) = 0xFFFF }.

Section Tvinit.
Context (idt : Z) (vectors : Z -> Z).
Lemma tvinit_loop_ne n : forall i m x, off x (idt + 8 * i) (8 * Z.of_nat n) ->
  ld32 (tvinit_loop idt vectors n i m) x = ld32 m x.
Proof.
  induction n as [|n IH]; intros i m x H; cbn [tvinit_loop]; [done|]. unfold off in *.
  rewrite IH by (unfold off; lia). apply ld32_gatedesc_ne. unfold off. lia.
Qed.
Lemma tvinit_loop_at n : forall i m k, i <= k < i + Z.of_nat n ->
  let d := SETGATE false (Z.shiftl SEG_KCODE 3) (vectors k) 0 in
  ld32 (tvinit_loop idt vectors n i m) (idt + 8 * k) = gatedesc_lo d
  /\ ld32 (tvinit_loop idt vectors n i m) (idt + 8 * k + 4) = gatedesc_hi d.
Proof.
  induction n as [|n IH]; intros i m k H d; cbn [tvinit_loop]; [lia|].
  destruct (Z.eq_dec k i) as [->|]; [|apply IH; lia].
  rewrite !tvinit_loop_ne by (unfold off; lia). apply ld32_gatedesc.
Qed.
Lemma ldb_tvinit_loop n : forall i m x, x < idt + 8 * i \/ idt + 8 * (i + Z.of_nat n) <= x ->
  ldb (tvinit_loop idt vectors n i m) x = ldb m x.
Proof.
  induction n as [|n IH]; intros i m x H; cbn [tvinit_loop]; [done|]. rewrite IH by lia.
  unfold st_gatedesc. rewrite !ldb_st32. repeat (case_if; [lia|]). done.
Qed.
End Tvinit.

Section Install.
Context (c idt : Z) (vectors : Z -> Z).
Context (Hc : 0 <= c /\ c + 160 <= 2 ^ 32) (Hidt : 0 <= idt /\ idt + 2048 <= 2 ^ 32).
Context (Hsep : c + 160 <= idt \/ idt + 2048 <= c).

(** The processor reads the descriptor tables at their addresses, and they hold the
    kernel's segments and gates. *)
Record tables_set (m : mem) (t : tables) : Prop := mktables_set {
  ts_regs : gdt_base t = c + CPU_GDT /\ gdt_limit t = 8 * NSEGS - 1 /\ idt_base t = idt /\ idt_limit t = 8 * 256 - 1;
  ts_segs : forall k, SEG_KCODE <= k <= SEG_UDATA ->
    ld32 m (c + CPU_GDT + 8 * k) = segdesc_lo (seg_for k) /\ ld32 m (c + CPU_GDT + 8 * k + 4) = segdesc_hi (seg_for k);
  ts_gates : forall n, 0 <= n < 256 ->
    ld32 m (idt + 8 * n) = gatedesc_lo (gate_for vectors n) /\ ld32 m (idt + 8 * n + 4) = gatedesc_hi (gate_for vectors n) }.

Lemma pseudo_base_eq p : 0 <= p < 2 ^ 32 -> pseudo_base p = p.
Proof.
  intros H. unfold pseudo_base, u16. rewrite u32_small, Z.shiftr_div_pow2 by lia.
  rewrite (Z.mod_small (p / 2 ^ 16)); [|split; [apply Z.div_pos|apply Z.div_lt_upper_bound]; lia].
  pose proof (Z.div_mod p (2 ^ 16)). lia.
Qed.

Lemma seginit_segs m t : exists m' t', seginit c (m, t) = Ret (tt, (m', t'))
  /\ gdt_base t' = c + CPU_GDT /\ gdt_limit t' = 8 * NSEGS - 1
  /\ (forall k, SEG_KCODE <= k <= SEG_UDATA ->
       ld32 m' (c + CPU_GDT + 8 * k) = segdesc_lo (seg_for k) /\ ld32 m' (c + CPU_GDT + 8 * k + 4) = segdesc_hi (seg_for k)).
Proof.
  do 2 eexists. split; [reflexivity|]. cbn [gdt_base gdt_limit lgdt]. unfold CPU_GDT, SEG_KCODE, SEG_KDATA, SEG_UCODE, SEG_UDATA, NSEGS in *.
  split; [apply pseudo_base_eq; lia|]. split; [reflexivity|]. intros k Hk.
  assert (k = 1 \/ k = 2 \/ k = 3 \/ k = 4) as [-> | [-> | [-> | ->]]] by lia;
    split; rewrite ?ld32_segdesc_ne by (unfold off; lia); apply ld32_segdesc.
Qed.

Lemma tvinit_gates m t : exists m', tvinit idt vectors (m, t) = Ret (tt, (m', t))
  /\ (forall n, 0 <= n < 256 ->
       ld32 m' (idt + 8 * n) = gatedesc_lo (gate_for vectors n) /\ ld32 m' (idt + 8 * n + 4) = gatedesc_hi (gate_for vectors n))
  /\ (forall x, off x idt 2048 -> ld32 m' x = ld32 m x).
Proof.
  eexists. split; [reflexivity|]. split.
  - intros n Hn. unfold gate_for. destruct (Z.eqb_spec n T_SYSCALL) as [->|Hne].
    + apply ld32_gatedesc.
    + unfold T_SYSCALL in *. rewrite !ld32_gatedesc_ne by (unfold off; lia). apply (tvinit_loop_at idt vectors 256 0). lia.
  - intros x Hx. unfold T_SYSCALL, off in *. rewrite ld32_gatedesc_ne by (unfold off; lia).
    apply tvinit_loop_ne. unfold off. lia.
Qed.

(** Start-up of a processor: [seginit], [tvinit] and [idtinit] leave the tables set. *)
Lemma tables_set_up s : wp (seginit c ;;; tvinit idt vectors ;;; idtinit idt) (fun _ '(m, t) => tables_set m t) s.
Proof.
  destruct s as [m t]. destruct (seginit_segs m t) as (m1 & t1 & E1 & Hb & Hl & Hs).
  destruct (tvinit_gates m1 t1) as (m2 & E2 & Hg & Ho).
  apply wp_bind. unfold wp at 1. rewrite E1. apply wp_bind. unfold wp at 1. rewrite E2. unfold wp, idtinit, modify.
  split; cbn [gdt_base gdt_limit idt_base idt_limit lidt].
  - rewrite pseudo_base_eq by lia. done.
  - intros k Hk. unfold SEG_KCODE, SEG_UDATA, CPU_GDT in *. rewrite !Ho by (unfold off; lia). apply Hs, Hk.
  - exact Hg.
Qed.

Lemma tss_ready : let d := set_s 0 (SEG16 STS_T32A (c + CPU_TS) (TS_SIZE - 1) 0) in
  seg_base (segdesc_lo d) (segdesc_hi d) = c + CPU_TS
  /\ ((seg_type (segdesc_hi d) =? STS_T32A) && (seg_s (segdesc_hi d) =? 0) && seg_present (segdesc_hi d)) = true.
Proof.
  intros d. split.
  - rewrite segdesc_base. unfold CPU_TS in *. cbn [base_15_0 base_23_16 base_31_24 d set_s SEG16]. rewrite split_base; [|apply u32_range].
    apply u32_small. lia.
  - rewrite segdesc_type, segdesc_s, segdesc_p. reflexivity.
Qed.

(** [switchuvm] can be called again and again: it marks the task state available before
    it is loaded, and so never faults. *)
Lemma switch_tss_installs top m t : 0 <= top < 2 ^ 32 -> tables_set m t ->
  wp (switch_tss c top) (fun _ '(m', t') => installed vectors top m' t' /\ tables_set m' t') (m, t).
Proof.
  intros Htop [(Hb & Hl & Hi & Hil) Hs Hg]. unfold switch_tss. do 5 (apply wp_bind, wp_modify).
  set (d := set_s 0 _). set (m5 := st16 _ _ _). destruct tss_ready as [Hbase Hready]. fold d in Hbase, Hready.
  assert (Hd : ld32 m5 (c + 112 + 40) = segdesc_lo d /\ ld32 m5 (c + 112 + 40 + 4) = segdesc_hi d).
  { unfold m5, CPU_GDT, CPU_TS, TS_SS0, TS_ESP0, TS_IOMB, SEG_TSS in *.
    rewrite !ld32_st16_ne, !ld32_st32_ne, !ld32_st16_ne by (unfold off; lia). apply ld32_segdesc. }
  assert (Ho : forall x, off x (c + 8) 104 -> off x (c + 152) 8 -> ld32 m5 x = ld32 m x).
  { intros x H1 H2. unfold m5, CPU_GDT, CPU_TS, TS_SS0, TS_ESP0, TS_IOMB, SEG_TSS, off in *.
    rewrite ld32_st16_ne, ld32_st32_ne, ld32_st16_ne, !ld32_segdesc_ne by (unfold off; lia). done. }
  unfold wp, ltr. cbv beta iota zeta. rewrite Hb. change (c + CPU_GDT + Z.shiftl SEG_TSS 3) with (c + 112 + 40).
  destruct Hd as [Hlo Hhi]. rewrite Hhi, Hlo, Hready, Hbase. set (m6 := st32 m5 _ _).
  assert (Hm6 : forall x, off x (c + 8) 104 -> off x (c + 152) 8 -> ld32 m6 x = ld32 m x)
    by (intros x H1 H2; unfold m6, CPU_GDT; unfold off in *; rewrite ld32_st32_ne by lia; apply Ho; unfold off; lia).
  assert (HS : tables_set m6 (mktables (c + 112) (gdt_limit t) (idt_base t) (idt_limit t) (c + CPU_TS))).
  { split; cbn [gdt_base gdt_limit idt_base idt_limit]; [done| |].
    - intros k Hk. unfold SEG_KCODE, SEG_UDATA, CPU_GDT in *. rewrite !Hm6 by (unfold off; lia). apply Hs, Hk.
    - intros n Hn. rewrite !Hm6 by (unfold off; lia). apply Hg, Hn. }
  split; [|exact HS]. destruct HS as [_ Hs6 Hg6].
  split; cbn [gdt_base gdt_limit idt_base idt_limit tss_base]; [done|exact Hs6|rewrite Hi; exact Hg6| |];
    unfold m6, m5, CPU_TS, CPU_GDT, TS_ESP0, TS_SS0, TS_IOMB.
  - rewrite ld32_st32_ne, ld32_st16_ne, ld32_st32_same by (unfold off; lia). split; [by apply u32_small|].
    rewrite ld16_st32_ne, ld16_st16_ne, ld16_st32_ne, ld16_st16_same by lia. reflexivity.
  - rewrite ld16_st32_ne, ld16_st16_same by lia. reflexivity.
Qed.
End Install.
