(* ===== verification/Trapasm.v ===== *)
(** * Entering and leaving the kernel

    Models the assembly of the kernel on the processor's registers and memory: the entry
    points that [src/xv6/vectors.pl] generates, [alltraps] and [trapret]
    ([src/xv6/trapasm.S]), [swtch] ([src/xv6/swtch.S]), and the stubs of
    [src/xv6/usys.S].  What the processor itself does at an interrupt and at [iret]
    follows the descriptor tables in memory, as [Desc.v] writes them.  Segments are flat,
    so that an address is the offset of an instruction's operand; a page fault inside
    these routines is left out. *)

From S2P Require Import Prelude Mem Desc.
Local Open Scope Z_scope.

(** ** The processor *)

Inductive reg := EAX | ECX | EDX | EBX | ESP | EBP | ESI | EDI.
Inductive sreg := CS | SS | DS | ES | FS | GS.
Record gprs := mkgprs { r_eax : Z; r_ecx : Z; r_edx : Z; r_ebx : Z; r_esp : Z; r_ebp : Z; r_esi : Z; r_edi : Z }.
Record segs := mksegs { s_cs : Z; s_ss : Z; s_ds : Z; s_es : Z; s_fs : Z; s_gs : Z }.
Record x86 := mkx86 { gp : gprs; sg : segs; eip : Z; eflags : Z; tb : tables; ram : mem }.

Definition getr (r : reg) (c : x86) : Z :=
  match r with
  | EAX => r_eax (gp c) | ECX => r_ecx (gp c) | EDX => r_edx (gp c) | EBX => r_ebx (gp c)
  | ESP => r_esp (gp c) | EBP => r_ebp (gp c) | ESI => r_esi (gp c) | EDI => r_edi (gp c)
  end.
Definition setg (r : reg) (v : Z) (x : gprs) : gprs :=
  let '(mkgprs a c d b sp bp si di) := x in
  match r with
  | EAX => mkgprs v c d b sp bp si di | ECX => mkgprs a v d b sp bp si di
  | EDX => mkgprs a c v b sp bp si di | EBX => mkgprs a c d v sp bp si di
  | ESP => mkgprs a c d b v bp si di | EBP => mkgprs a c d b sp v si di
  | ESI => mkgprs a c d b sp bp v di | EDI => mkgprs a c d b sp bp si v
  end.
Definition setr (r : reg) (v : Z) (c : x86) : x86 := mkx86 (setg r v (gp c)) (sg c) (eip c) (eflags c) (tb c) (ram c).
Definition getsg (s : sreg) (x : segs) : Z :=
  match s with CS => s_cs x | SS => s_ss x | DS => s_ds x | ES => s_es x | FS => s_fs x | GS => s_gs x end.
Definition setsg (s : sreg) (v : Z) (x : segs) : segs :=
  let '(mksegs cs ss ds es fs gs) := x in
  match s with
  | CS => mksegs v ss ds es fs gs | SS => mksegs cs v ds es fs gs | DS => mksegs cs ss v es fs gs
  | ES => mksegs cs ss ds v fs gs | FS => mksegs cs ss ds es v gs | GS => mksegs cs ss ds es fs v
  end.
Definition sets (s : sreg) (v : Z) (c : x86) : x86 := mkx86 (gp c) (setsg s v (sg c)) (eip c) (eflags c) (tb c) (ram c).
Definition set_eip (v : Z) (c : x86) : x86 := mkx86 (gp c) (sg c) v (eflags c) (tb c) (ram c).
Definition set_eflags (v : Z) (c : x86) : x86 := mkx86 (gp c) (sg c) (eip c) v (tb c) (ram c).
Definition store (a v : Z) (c : x86) : x86 := mkx86 (gp c) (sg c) (eip c) (eflags c) (tb c) (st32 (ram c) a v).
Definition load (a : Z) (c : x86) : Z := ld32 (ram c) a.

Definition push (v : Z) (c : x86) : x86 :=
  let sp := u32 (getr ESP c - 4) in store sp v (setr ESP sp c).
Definition top_word (c : x86) : Z := load (getr ESP c) c.
Definition drop4 (c : x86) : x86 := setr ESP (u32 (getr ESP c + 4)) c.

(** ** Interrupts *)

Definition cpl (c : x86) : Z := s_cs (sg c) mod 4.
Definition FL_IF : Z := 0x200.
(** The flags TF, NT, RF and VM, cleared at every interrupt. *)
Definition FL_CLEARED : Z := 0x34100.
Definition lo_of (base sel : Z) (c : x86) : Z := load (base + sel / 8 * 8) c.
Definition hi_of (base sel : Z) (c : x86) : Z := load (base + sel / 8 * 8 + 4) c.

(** Through gate [n], with the error code the processor pushes, if any; [None] when the
    gate cannot be used. *)
Definition enter (n : Z) (code : option Z) (c : x86) : option x86 :=
  let lo := lo_of (idt_base (tb c)) (8 * n) c in
  let hi := hi_of (idt_base (tb c)) (8 * n) c in
  let sel := gate_cs lo in
  let dhi := hi_of (gdt_base (tb c)) sel c in
  let pl := seg_dpl dhi in
  if negb (8 * n + 7 <=? idt_limit (tb c)) || negb (gate_present hi) || negb (14 <=? gate_type hi)
     || negb (sel / 8 * 8 + 7 <=? gdt_limit (tb c)) || negb (seg_present dhi) || (cpl c <? pl)
  then None
  else
    let c1 := if pl <? cpl c then
                push (getr ESP c) (push (s_ss (sg c))
                  (setr ESP (load (tss_base (tb c) + TS_ESP0) c) (sets SS (ld16 (ram c) (tss_base (tb c) + TS_SS0)) c)))
              else c in
    let c2 := push (eip c) (push (s_cs (sg c)) (push (eflags c) c1)) in
    let c3 := match code with Some e => push e c2 | None => c2 end in
    let fl := Z.ldiff (eflags c) FL_CLEARED in
    Some (set_eip (gate_off lo hi) (sets CS (sel / 4 * 4 + pl)
      (set_eflags (if gate_type hi =? STS_IG32 then Z.ldiff fl FL_IF else fl) c3))).

(** The exceptions for which the processor pushes an error code. *)
Definition pushes_code (n : Z) : bool := (n =? 8) || ((10 <=? n) && (n <=? 14)) || (n =? 17).
Definition T_GPFLT : Z := 13.

Inductive event := Int (n : Z) | Exception (n code : Z) | Irq (n : Z).
(** The instruction [int] is subject to the privilege of the gate; an interrupt from a
    device waits until interrupts are enabled. *)
Definition deliver (e : event) (c : x86) : option x86 :=
  match e with
  | Int n => if gate_dpl (hi_of (idt_base (tb c)) (8 * n) c) <? cpl c then enter T_GPFLT (Some (8 * n + 2)) c
             else enter n None c
  | Exception n code => enter n (if pushes_code n then Some code else None) c
  | Irq n => if Z.testbit (eflags c) 9 then enter n None c else None
  end.

(** A data segment the new privilege level may not use is lost on return. *)
Definition keep_seg (pl : Z) (c : x86) (s : sreg) : x86 :=
  let sel := getsg s (sg c) in
  if (0 <? sel / 8) && (seg_dpl (hi_of (gdt_base (tb c)) sel c) <? pl) then sets s 0 c else c.
Definition iret (c : x86) : x86 :=
  let pl0 := cpl c in
  let c1 := drop4 (set_eip (top_word c) c) in
  let c2 := drop4 (sets CS (u16 (top_word c1)) c1) in
  let c3 := drop4 (set_eflags (top_word c2) c2) in
  if pl0 <? cpl c3 then
    let sp := top_word c3 in
    let c4 := drop4 c3 in
    let c5 := setr ESP sp (sets SS (u16 (top_word c4)) c4) in
    foldl (keep_seg (cpl c3)) c5 [DS; ES; FS; GS]
  else c3.

(** ** Instructions *)

Inductive instr :=
| pushl_r (r : reg) | pushl_s (s : sreg) | pushl_i (v : Z) | popl_r (r : reg) | popl_s (s : sreg)
| pushal | popal
| movl_mr (d : Z) (b r : reg)   (**r [movl d(%b), %r] *)
| movl_rm (r b : reg)           (**r [movl %r, (%b)] *)
| movl_rr (r r' : reg)          (**r [movl %r, %r'] *)
| movl_i (v : Z) (r : reg)
| movw_i (v : Z)                (**r [movw $v, %ax] *)
| movw_s (s : sreg)             (**r [movw %ax, %s] *)
| addl_i (v : Z) (r : reg)
| jmp (a : Z) | call (a back : Z) | ret_ | iret_
| int_ (n back : Z).

Definition pushal_ (c : x86) : x86 :=
  let sp := getr ESP c in
  push (getr EDI c) (push (getr ESI c) (push (getr EBP c) (push sp (push (getr EBX c)
    (push (getr EDX c) (push (getr ECX c) (push (getr EAX c) c))))))).
Definition popal_ (c : x86) : x86 :=
  let sp := getr ESP c in
  let w k := load (u32 (sp + k)) c in
  mkx86 (mkgprs (w 28) (w 24) (w 20) (w 16) (u32 (sp + 32)) (w 8) (w 4) (w 0)) (sg c) (eip c) (eflags c) (tb c) (ram c).

Definition exec (i : instr) (c : x86) : option x86 :=
  match i with
  | pushl_r r => Some (push (getr r c) c)
  | pushl_s s => Some (push (getsg s (sg c)) c)
  | pushl_i v => Some (push v c)
  | popl_r r => let v := top_word c in Some (setr r v (drop4 c))
  | popl_s s => let v := u16 (top_word c) in Some (sets s v (drop4 c))
  | pushal => Some (pushal_ c)
  | popal => Some (popal_ c)
  | movl_mr d b r => Some (setr r (load (u32 (getr b c + d)) c) c)
  | movl_rm r b => Some (store (getr b c) (getr r c) c)
  | movl_rr r r' => Some (setr r' (getr r c) c)
  | movl_i v r => Some (setr r v c)
  | movw_i v => Some (setr EAX (getr EAX c / 2 ^ 16 * 2 ^ 16 + v) c)
  | movw_s s => Some (sets s (u16 (getr EAX c)) c)
  | addl_i v r => Some (setr r (u32 (getr r c + v)) c)
  | jmp a => Some (set_eip a c)
  | call a back => Some (set_eip a (push back c))
  | ret_ => Some (set_eip (top_word c) (drop4 c))
  | iret_ => Some (iret c)
  | int_ n back => deliver (Int n) (set_eip back c)
  end.
Fixpoint run (l : list instr) (c : x86) : option x86 :=
  match l with [] => Some c | i :: l' => match exec i c with Some c' => run l' c' | None => None end end.

(** ** The code *)

Definition SYS_exec : Z := 7.
Section Code.
(** The addresses of [alltraps], of [trap] and of the instruction after the call of it. *)
Context (alltraps_at trap_at back_at : Z).

Definition vector (n : Z) : list instr :=
  (if negb ((n =? 8) || ((n >=? 10) && (n <=? 14)) || (n =? 17)) then [pushl_i 0] else [])
  ++ [pushl_i n; jmp alltraps_at].
Definition alltraps : list instr :=
  [pushl_s DS; pushl_s ES; pushl_s FS; pushl_s GS; pushal;
   movw_i (Z.shiftl SEG_KDATA 3); movw_s DS; movw_s ES;
   pushl_r ESP; call trap_at back_at].
Definition trapret : list instr :=
  [popal; popl_s GS; popl_s FS; popl_s ES; popl_s DS; addl_i 0x8 ESP; iret_].
(** After the call of [trap], [alltraps] falls through into [trapret]. *)
Definition alltraps_back : list instr := addl_i 4 ESP :: trapret.
Definition swtch : list instr :=
  [movl_mr 4 ESP EAX; movl_mr 8 ESP EDX;
   pushl_r EBP; pushl_r EBX; pushl_r ESI; pushl_r EDI;
   movl_rm ESP EAX; movl_rr EDX ESP;
   popl_r EDI; popl_r ESI; popl_r EBX; popl_r EBP; ret_].
(** The stub of a system call, up to the trap, which returns to [back]. *)
Definition SYSCALL (num back : Z) : list instr := [movl_i num EAX; int_ T_SYSCALL back].
Definition SYSCALL_back : list instr := [ret_].
(** [initcode.S] up to the call of [exec]. *)
Definition start (argv init back : Z) : list instr :=
  [pushl_i argv; pushl_i init; pushl_i 0; movl_i SYS_exec EAX; int_ T_SYSCALL back].
End Code.

(** ** The trap frame *)

Record trapframe := mktrapframe {
  tf_edi : Z; tf_esi : Z; tf_ebp : Z; tf_oesp : Z; tf_ebx : Z; tf_edx : Z; tf_ecx : Z; tf_eax : Z;
  tf_gs : Z; tf_fs : Z; tf_es : Z; tf_ds : Z; tf_trapno : Z; tf_err : Z; tf_eip : Z; tf_cs : Z; tf_eflags : Z;
  tf_esp : Z; tf_ss : Z }.
Definition read_frame (m : mem) (a : Z) : trapframe :=
  mktrapframe (ld32 m a) (ld32 m (a + 4)) (ld32 m (a + 8)) (ld32 m (a + 12)) (ld32 m (a + 16)) (ld32 m (a + 20))
    (ld32 m (a + 24)) (ld32 m (a + 28)) (ld16 m (a + 32)) (ld16 m (a + 36)) (ld16 m (a + 40)) (ld16 m (a + 44))
    (ld32 m (a + 48)) (ld32 m (a + 52)) (ld32 m (a + 56)) (ld16 m (a + 60)) (ld32 m (a + 64)) (ld32 m (a + 68)) (ld16 m (a + 72)).

(** [struct context] ([src/xv6/proc.h]): where a kernel thread that left through [swtch] goes on. *)
Record kcontext := mkkcontext { ctx_edi : Z; ctx_esi : Z; ctx_ebx : Z; ctx_ebp : Z; ctx_eip : Z }.
Definition read_context (m : mem) (a : Z) : kcontext :=
  mkkcontext (ld32 m a) (ld32 m (a + 4)) (ld32 m (a + 8)) (ld32 m (a + 12)) (ld32 m (a + 16)).
