(* ===== verification/TrapasmProps.v ===== *)
(** * Traps keep the interrupted program

    A trap from user mode, whatever its cause, leaves on the process's kernel stack a trap
    frame with all the program's registers and calls [trap] on it; [trapret] goes on in
    user mode with the registers of the frame.  A user program can enter the kernel by
    itself only at the system call's entry.  [swtch] saves and restores contexts. *)

From S2P Require Import Prelude Mem Desc Trapasm.
Local Open Scope Z_scope.

(** ** The stack *)

Fixpoint pushes (m : mem) (sp : Z) (l : list Z) : mem :=
  match l with [] => m | v :: l' => pushes (st32 m (sp - 4) v) (sp - 4) l' end.
Lemma pushes_app l1 l2 : forall m sp,
  pushes m sp (l1 ++ l2) = pushes (pushes m sp l1) (sp - 4 * Z.of_nat (length l1)) l2.
Proof.
  induction l1 as [|v l1 IH]; intros m sp; cbn [pushes app length]; [f_equal; lia|]. rewrite IH. f_equal. lia.
Qed.
Lemma ldb_pushes l : forall m sp x, x < sp - 4 * Z.of_nat (length l) \/ sp <= x -> ldb (pushes m sp l) x = ldb m x.
Proof.
  induction l as [|v l IH]; intros m sp x H; cbn [pushes length] in *; [done|].
  rewrite IH by lia. rewrite ldb_st32. case_if; [lia|done].
Qed.
Lemma pushes_ne l m sp x : off x (sp - 4 * Z.of_nat (length l)) (4 * Z.of_nat (length l)) -> ld32 (pushes m sp l) x = ld32 m x.
Proof. unfold off. intros H. apply ld32_ext. intros y Hy. apply ldb_pushes. lia. Qed.
Lemma pushes_at l : forall m sp i v, l !! i = Some v -> ld32 (pushes m sp l) (sp - 4 * (Z.of_nat i + 1)) = u32 v.
Proof.
  induction l as [|w l IH]; intros m sp i v H; [done|]. destruct i as [|i]; cbn [pushes lookup list_lookup] in *.
  - injection H as ->. rewrite pushes_ne by (unfold off; lia). replace (sp - 4 * (Z.of_nat 0 + 1)) with (sp - 4) by lia.
    apply ld32_st32_same.
  - replace (sp - 4 * (Z.of_nat (S i) + 1)) with (sp - 4 - 4 * (Z.of_nat i + 1)) by lia. by apply IH.
Qed.
Lemma ld16_ld32 m a : ld16 m a = u16 (ld32 m a).
Proof.
  unfold ld16, ld32, u16. pose proof (ldb_range m a). pose proof (ldb_range m (a + 1)).
  replace (ldb m a + _ * ldb m (a + 1) + _ * ldb m (a + 2) + _ * ldb m (a + 3))
    with (ldb m a + 256 * ldb m (a + 1) + (ldb m (a + 2) + 256 * ldb m (a + 3)) * 2 ^ 16) by ring.
  rewrite Z.mod_add by lia. symmetry. apply Z.mod_small. lia.
Qed.

Definition word_ok (v : Z) : Prop := 0 <= v < 2 ^ 32.
Definition sel_ok (v : Z) : Prop := 0 <= v < 2 ^ 16.
Definition gprs_ok (r : gprs) : Prop :=
  word_ok (r_eax r) /\ word_ok (r_ecx r) /\ word_ok (r_edx r) /\ word_ok (r_ebx r)
  /\ word_ok (r_esp r) /\ word_ok (r_ebp r) /\ word_ok (r_esi r) /\ word_ok (r_edi r).
Definition segs_ok (s : segs) : Prop :=
  sel_ok (s_cs s) /\ sel_ok (s_ss s) /\ sel_ok (s_ds s) /\ sel_ok (s_es s) /\ sel_ok (s_fs s) /\ sel_ok (s_gs s).

Lemma store_below v a c d b sp bp si di s ip fl t m : 4 <= sp < 2 ^ 32 ->
  push v (mkx86 (mkgprs a c d b sp bp si di) s ip fl t m)
  = mkx86 (mkgprs a c d b (sp - 4) bp si di) s ip fl t (st32 m (sp - 4) v).
Proof. intros H. unfold push, setr, store, getr. cbn. by rewrite u32_small by lia. Qed.

(** ** The gates *)

Section Gates.
Context (vectors : Z -> Z) (top : Z) (m : mem) (t : tables).
Context (Hin : installed vectors top m t).

Lemma gate_read n : 0 <= n < 256 ->
  let lo := ld32 m (idt_base t + 8 * n / 8 * 8) in
  let hi := ld32 m (idt_base t + 8 * n / 8 * 8 + 4) in
  gate_off lo hi = u32 (vectors n) /\ gate_cs lo = 8 /\ gate_type hi = (if n =? T_SYSCALL then STS_TG32 else STS_IG32)
  /\ gate_dpl hi = (if n =? T_SYSCALL then DPL_USER else 0) /\ gate_present hi = true.
Proof.
  intros Hn. replace (8 * n / 8 * 8) with (8 * n) by (rewrite Z.mul_comm, Z.div_mul; lia).
  destruct (in_gates _ _ _ _ Hin n Hn) as [-> ->]. apply SETGATE_spec; [done|].
  destruct (n =? T_SYSCALL); done.
Qed.
Lemma seg_read k r : SEG_KCODE <= k <= SEG_UDATA -> 0 <= r < 8 ->
  let hi := ld32 m (gdt_base t + (8 * k + r) / 8 * 8 + 4) in
  seg_dpl hi = (if k <? SEG_UCODE then 0 else DPL_USER) /\ seg_present hi = true.
Proof.
  intros Hk Hr. replace ((8 * k + r) / 8) with k by (rewrite Z.mul_comm, Z.div_add_l, Z.div_small; lia).
  cbv zeta. rewrite (Z.mul_comm k 8). destruct (in_segs _ _ _ _ Hin k Hk) as [_ ->].
  destruct (SEG_spec (if Z.odd k then Z.lor STA_X STA_R else STA_W) 0 0xffffffff (if k <? SEG_UCODE then 0 else DPL_USER)) as (_ & _ & E1 & E2);
    [lia|destruct (k <? SEG_UCODE); unfold DPL_USER; lia|exact (conj E1 E2)].
Qed.

Definition masked (n fl : Z) : Z :=
  let fl := Z.ldiff fl FL_CLEARED in if n =? T_SYSCALL then fl else Z.ldiff fl FL_IF.
Definition code_words (code : option Z) : list Z := match code with Some e => [e] | None => [] end.

(** The processor's part: to the gate's address, on the process's kernel stack. *)
Lemma enter_user n code a c d b sp bp si di s ip fl :
  0 <= n < 256 -> s_cs s mod 4 = 3 -> 24 <= top < 2 ^ 32 ->
  enter n code (mkx86 (mkgprs a c d b sp bp si di) s ip fl t m)
  = let l := [s_ss s; sp; fl; s_cs s; ip] ++ code_words code in
    Some (mkx86 (mkgprs a c d b (top - 4 * Z.of_nat (length l)) bp si di) (setsg CS 8 (setsg SS 16 s)) (u32 (vectors n))
      (masked n fl) t (pushes m top l)).
Proof.
  intros Hn Hpl Htop. unfold enter, lo_of, hi_of, load, cpl, getr. cbn [tb ram gp sg eip eflags r_esp].
  destruct (gate_read n Hn) as (Eo & Ec & Et & _ & Ep). rewrite Ec, Ep.
  destruct (seg_read 1 0) as [Ed Es]; [done|lia|]. cbv zeta in Ed, Es. change ((8 * 1 + 0) / 8 * 8) with 8 in Ed, Es. change (8 / 8 * 8) with 8. rewrite Ed, Es, Hpl.
  destruct (in_limits _ _ _ _ Hin) as [-> ->]. destruct (in_stack _ _ _ _ Hin) as [E0 E1]. rewrite E0, E1.
  replace (8 * n + 7 <=? 8 * 256 - 1) with true by lia. rewrite Et, Eo.
  replace (14 <=? (if n =? T_SYSCALL then STS_TG32 else STS_IG32)) with true by (destruct (n =? T_SYSCALL); done).
  replace ((if n =? T_SYSCALL then STS_TG32 else STS_IG32) =? STS_IG32) with (negb (n =? T_SYSCALL)) by (destruct (n =? T_SYSCALL); done).
  change (8 + 7 <=? 8 * NSEGS - 1) with true. change (3 <? (if 1 <? SEG_UCODE then 0 else DPL_USER)) with false.
  change ((if 1 <? SEG_UCODE then 0 else DPL_USER) <? 3) with true. cbn [negb orb]. change (setr ESP top _) with
    (mkx86 (mkgprs a c d b top bp si di) (setsg SS 16 s) ip fl t m). do 5 rewrite store_below by lia.
  change (8 / 4 * 4 + _) with 8. unfold masked. destruct s as [cs ss ds es fs gs], (n =? T_SYSCALL), code;
    cbn [code_words app length negb]; rewrite ?store_below by lia; cbv [set_eip sets set_eflags gp sg eip eflags tb ram setsg s_ss s_cs pushes];
    f_equal; f_equal; f_equal; lia.
Qed.
End Gates.

(** ** The kernel's part *)

Section Code.
Context (alltraps_at trap_at back_at : Z).

Lemma vector_run n a c d b sp bp si di s ip fl t m : 8 <= sp < 2 ^ 32 ->
  run (vector alltraps_at n) (mkx86 (mkgprs a c d b sp bp si di) s ip fl t m)
  = let l := (if pushes_code n then [] else [0]) ++ [n] in
    Some (mkx86 (mkgprs a c d b (sp - 4 * Z.of_nat (length l)) bp si di) s alltraps_at fl t (pushes m sp l)).
Proof.
  intros H. unfold vector. replace ((n =? 8) || ((n >=? 10) && (n <=? 14)) || (n =? 17)) with (pushes_code n).
  2: { unfold pushes_code. f_equal. f_equal. f_equal. rewrite Z.geb_leb. done. }
  destruct (pushes_code n); cbn [negb app run exec length pushes]; rewrite !store_below by lia;
    unfold set_eip; cbn [gp sg eip eflags tb ram]; do 3 f_equal; lia.
Qed.

Lemma alltraps_run a c d b sp bp si di s ip fl t m : 56 <= sp < 2 ^ 32 -> word_ok a ->
  run (alltraps trap_at back_at) (mkx86 (mkgprs a c d b sp bp si di) s ip fl t m)
  = Some (mkx86 (mkgprs (a / 2 ^ 16 * 2 ^ 16 + 16) c d b (sp - 56) bp si di) (setsg ES 16 (setsg DS 16 s)) trap_at fl t
      (pushes m sp [s_ds s; s_es s; s_fs s; s_gs s; a; c; d; b; sp - 16; bp; si; di; sp - 48; back_at])).
Proof.
  intros H Ha. unfold alltraps. cbn [run exec getsg sg]. rewrite store_below by lia. cbn [sg]. do 3 (rewrite store_below by lia; cbn [sg]).
  unfold pushal_. cbn [getr gp r_eax r_ecx r_edx r_ebx r_esp r_ebp r_esi r_edi]. do 8 rewrite store_below by lia.
  cbv [setr setg sets getr gp sg eip eflags tb ram r_eax r_esp].
  replace (u16 (a / 2 ^ 16 * 2 ^ 16 + Z.shiftl SEG_KDATA 3)) with 16
    by (unfold u16; rewrite Z.add_comm, Z.mod_add by lia; reflexivity).
  do 2 rewrite store_below by lia. cbv [set_eip gp sg eflags tb ram pushes]. change (Z.shiftl SEG_KDATA 3) with 16.
  replace (sp - 4 - 4 - 4 - 4 - 4 - 4 - 4 - 4 - 4 - 4 - 4 - 4) with (sp - 48) by lia.
  replace (sp - 4 - 4 - 4 - 4) with (sp - 16) by lia. replace (sp - 48 - 4 - 4) with (sp - 56) by lia. reflexivity.
Qed.
End Code.

(** ** From user mode to [trap] *)

Definition event_ok (e : event) (c : x86) : Prop :=
  match e with
  | Int n => 0 <= n < 256
  | Exception n code => 0 <= n < 32 /\ word_ok code
  | Irq n => 32 <= n < 256 /\ Z.testbit (eflags c) 9 = true
  end.
(** The number and the error code the kernel sees: a user program's own [int] counts as
    such only for the system call and is a protection fault otherwise. *)
Definition trap_number (e : event) : Z :=
  match e with Int n => if n =? T_SYSCALL then n else T_GPFLT | Exception n _ => n | Irq n => n end.
Definition trap_code (e : event) : Z :=
  match e with
  | Int n => if n =? T_SYSCALL then 0 else 8 * n + 2
  | Exception n code => if pushes_code n then code else 0
  | Irq _ => 0
  end.
Definition hw_code (e : event) : option Z :=
  match e with
  | Int n => if n =? T_SYSCALL then None else Some (8 * n + 2)
  | Exception n code => if pushes_code n then Some code else None
  | Irq _ => None
  end.
Lemma deliver_user e c vectors top : installed vectors top (ram c) (tb c) -> cpl c = 3 -> event_ok e c ->
  deliver e c = enter (trap_number e) (hw_code e) c /\ 0 <= trap_number e < 256
  /\ code_words (hw_code e) ++ (if pushes_code (trap_number e) then [] else [0]) = [trap_code e].
Proof.
  intros Hin Hpl He. destruct e as [n|n code|n]; cbn [event_ok deliver trap_number hw_code trap_code] in *.
  - destruct (gate_read _ _ _ _ Hin n He) as (_ & _ & _ & Ed & _). unfold hi_of, load. rewrite Ed, Hpl.
    destruct (Z.eqb_spec n T_SYSCALL) as [->|]; [done|]. change (0 <? 3) with true. unfold T_GPFLT. done.
  - split; [done|]. split; [lia|]. by destruct (pushes_code n).
  - destruct He as [Hn ->]. split; [done|]. split; [lia|].
    replace (pushes_code n) with false; [done|]. symmetry. unfold pushes_code. lia.
Qed.

(** The frame of an interrupted program; [tf] is where it lies. *)
Definition frame_of (c : x86) (e : event) (tf : Z) : trapframe :=
  let r := gp c in let s := sg c in
  mktrapframe (r_edi r) (r_esi r) (r_ebp r) (tf + 32) (r_ebx r) (r_edx r) (r_ecx r) (r_eax r)
    (s_gs s) (s_fs s) (s_es s) (s_ds s) (trap_number e) (trap_code e) (eip c) (s_cs s) (eflags c) (r_esp r) (s_ss s).

Section Entry.
Context (text : Z -> list instr) (vectors : Z -> Z) (alltraps_at trap_at back_at : Z).
(** The program text: every vector's address leads to its entry point. *)
Context (Hvec : forall n, 0 <= n < 256 -> text (u32 (vectors n)) = vector alltraps_at n)
  (Hall : text alltraps_at = alltraps trap_at back_at).

(** From the event to the call of [trap]. *)
Definition kernel_entry (e : event) (c : x86) : option x86 :=
  c1 ← deliver e c; c2 ← run (text (eip c1)) c1; run (text (eip c2)) c2.

Lemma kernel_entry_run e c top : installed vectors top (ram c) (tb c) -> cpl c = 3 -> event_ok e c ->
  100 <= top < 2 ^ 32 -> word_ok (r_eax (gp c)) ->
  let r := gp c in let s := sg c in
  kernel_entry e c = Some (mkx86
    (mkgprs (r_eax r / 2 ^ 16 * 2 ^ 16 + 16) (r_ecx r) (r_edx r) (r_ebx r) (top - 84) (r_ebp r) (r_esi r) (r_edi r))
    (mksegs 8 16 16 16 (s_fs s) (s_gs s)) trap_at (masked (trap_number e) (eflags c)) (tb c)
    (pushes (ram c) top ([s_ss s; r_esp r; eflags c; s_cs s; eip c; trap_code e; trap_number e;
       s_ds s; s_es s; s_fs s; s_gs s; r_eax r; r_ecx r; r_edx r; r_ebx r; top - 44; r_ebp r; r_esi r; r_edi r; top - 76; back_at]))).
Proof.
  intros Hin Hpl He Htop Ha. cbv zeta. destruct (deliver_user e c vectors top Hin Hpl He) as (Ed & Hn & Hcw).
  unfold kernel_entry. rewrite Ed. set (n := trap_number e) in *. set (hc := hw_code e) in *.
  set (z := if pushes_code n then [] else [0]) in *.
  destruct c as [[a cx d b sp bp si di] [cs ss ds es fs gs] ip fl t m]. cbn [gp sg eip eflags tb ram r_eax r_ecx r_edx r_ebx r_esp r_ebp r_esi r_edi s_cs s_ss s_ds s_es s_fs s_gs] in *.
  assert (Hlen : Z.of_nat (length (code_words hc)) + Z.of_nat (length z) = 1)
    by (apply (f_equal length) in Hcw; rewrite length_app in Hcw; cbn in Hcw; lia).
  rewrite (enter_user vectors top) by (done || lia). cbv zeta. cbn [mbind option_bind eip]. rewrite Hvec by done.
  cbn [app length]. rewrite vector_run by lia. cbv zeta. cbn [mbind option_bind eip]. rewrite Hall. fold z. rewrite length_app. cbn [length].
  rewrite alltraps_run by (done || lia). cbv [setsg s_ds s_es s_fs s_gs s_ss s_cs]. f_equal.
  set (k := Z.of_nat (S _)). set (k2 := Z.of_nat (length z + 1)).
  assert (Hk : top - 4 * k - 4 * k2 = top - 28) by (unfold k, k2; lia). rewrite Hk.
  replace (top - 28 - 56) with (top - 84) by lia. replace (top - 28 - 16) with (top - 44) by lia. replace (top - 28 - 48) with (top - 76) by lia.
  f_equal. change (ss :: sp :: fl :: cs :: ip :: code_words hc) with ([ss; sp; fl; cs; ip] ++ code_words hc).
  replace (top - 4 * k) with (top - 4 * Z.of_nat (length ([ss; sp; fl; cs; ip] ++ code_words hc))) by (rewrite length_app; unfold k; cbn [length]; lia).
  rewrite <-pushes_app. replace (([ss; sp; fl; cs; ip] ++ code_words hc) ++ z ++ [n]) with [ss; sp; fl; cs; ip; trap_code e; n]
    by (rewrite <-app_assoc, (app_assoc (code_words hc)), Hcw; reflexivity).
  replace (top - 28) with (top - 4 * Z.of_nat (length [ss; sp; fl; cs; ip; trap_code e; n])) by (cbn; lia).
  rewrite <-pushes_app. reflexivity.
Qed.
End Entry.

(** A data segment selector a user program can have loaded: a null one or one of its own. *)
Definition user_sel (v : Z) : Prop := 0 <= v < 4 \/ 8 * SEG_UCODE <= v < 8 * SEG_UDATA + 8.
(** A state of the processor in user mode. *)
Definition user_mode (c : x86) : Prop :=
  gprs_ok (gp c) /\ segs_ok (sg c) /\ word_ok (eip c) /\ word_ok (eflags c) /\ cpl c = 3
  /\ user_sel (s_ds (sg c)) /\ user_sel (s_es (sg c)) /\ user_sel (s_fs (sg c)) /\ user_sel (s_gs (sg c)).

Lemma pushed_word l m top i k v : l !! i = Some v -> word_ok v -> k = 76 - 4 * (Z.of_nat i + 1) ->
  ld32 (pushes m top l) (top - 76 + k) = v.
Proof.
  intros H Hv ->. replace (top - 76 + (76 - 4 * (Z.of_nat i + 1))) with (top - 4 * (Z.of_nat i + 1)) by lia.
  rewrite (pushes_at l m top i v H). by apply u32_small.
Qed.
Lemma pushed_half l m top i k v : l !! i = Some v -> sel_ok v -> k = 76 - 4 * (Z.of_nat i + 1) ->
  ld16 (pushes m top l) (top - 76 + k) = v.
Proof.
  intros H Hv Hk. rewrite ld16_ld32, (pushed_word l m top i k v) by (unfold word_ok, sel_ok in *; (done || lia)).
  by apply u16_small.
Qed.
Lemma event_words e c : event_ok e c -> word_ok (trap_number e) /\ word_ok (trap_code e).
Proof.
  unfold word_ok. destruct e as [n|n code|n]; cbn; unfold T_SYSCALL, T_GPFLT, word_ok; [case_if| |]; [lia..| |lia].
  intros [? ?]. split; [lia|]. case_if; lia.
Qed.
(** The frame on the stack holds the interrupted program's registers. *)
Lemma frame_pushed m top e c w : event_ok e c -> gprs_ok (gp c) -> segs_ok (sg c) -> word_ok (eip c) -> word_ok (eflags c) ->
  100 <= top < 2 ^ 32 ->
  let r := gp c in let s := sg c in
  read_frame (pushes m top ([s_ss s; r_esp r; eflags c; s_cs s; eip c; trap_code e; trap_number e;
       s_ds s; s_es s; s_fs s; s_gs s; r_eax r; r_ecx r; r_edx r; r_ebx r; top - 44; r_ebp r; r_esi r; r_edi r; top - 76; w])) (top - 76)
  = frame_of c e (top - 76).
Proof.
  intros He (G1 & G2 & G3 & G4 & G5 & G6 & G7 & G8) (S1 & S2 & S3 & S4 & S5 & S6) Hi Hf Ht. destruct (event_words e c He) as [N1 N2].
  cbv zeta. unfold read_frame, frame_of. set (l := [s_ss _; _; _; _; _; _; _; _; _; _; _; _; _; _; _; _; _; _; _; _; _]).
  pose proof (pushed_word l m top 18 0 (r_edi (gp c)) eq_refl G8 eq_refl) as E0. rewrite Z.add_0_r in E0. rewrite E0.
  assert (H44 : word_ok (top - 44)) by (unfold word_ok; lia).
  f_equal; lazymatch goal with
  | |- _ = _ - 76 + 32 => replace (top - 76 + 32) with (top - 44) by lia; apply (pushed_word l m top 15); [reflexivity|assumption|reflexivity]
  | |- ld32 _ (_ + ?k) = _ => let i := eval vm_compute in (Z.to_nat ((76 - k) / 4 - 1)) in apply (pushed_word l m top i); [reflexivity|assumption|reflexivity]
  | |- ld16 _ (_ + ?k) = _ => let i := eval vm_compute in (Z.to_nat ((76 - k) / 4 - 1)) in apply (pushed_half l m top i); [reflexivity|assumption|reflexivity]
  end.
Qed.

(** ** Back to user mode *)

Definition regs_of (f : trapframe) : gprs :=
  mkgprs (tf_eax f) (tf_ecx f) (tf_edx f) (tf_ebx f) (tf_esp f) (tf_ebp f) (tf_esi f) (tf_edi f).
Definition segs_of (f : trapframe) : segs := mksegs (tf_cs f) (tf_ss f) (tf_ds f) (tf_es f) (tf_fs f) (tf_gs f).
(** A frame that leads to user mode. *)
Definition user_frame (f : trapframe) : Prop :=
  tf_cs f mod 4 = 3 /\ user_sel (tf_ds f) /\ user_sel (tf_es f) /\ user_sel (tf_fs f) /\ user_sel (tf_gs f).

Lemma keep_user_sel vectors top c s : installed vectors top (ram c) (tb c) -> user_sel (getsg s (sg c)) -> keep_seg 3 c s = c.
Proof.
  intros Hin Hs. unfold keep_seg, hi_of, load. set (v := getsg s (sg c)) in *. destruct Hs as [Hs|Hs].
  - replace (v / 8) with 0 by (symmetry; apply Z.div_small; lia). reflexivity.
  - unfold SEG_UCODE, SEG_UDATA in Hs. assert (exists k r, v = 8 * k + r /\ 0 <= r < 8 /\ 3 <= k <= 4) as (k & r & Ev & Hr & Hk).
    { exists (v / 8), (v mod 8). pose proof (Z.div_mod v 8). pose proof (Z.mod_pos_bound v 8). lia. }
    rewrite Ev. destruct (seg_read _ _ _ _ Hin k r) as [-> _]; [unfold SEG_KCODE, SEG_UDATA; lia|done|].
    replace (k <? SEG_UCODE) with false by (unfold SEG_UCODE; lia). by rewrite andb_false_r.
Qed.

Lemma iret_user vectors top a c d b sp bp si di s ip fl t m :
  installed vectors top m t -> s_cs s mod 4 = 0 -> 0 <= sp -> sp + 20 < 2 ^ 32 -> ld16 m (sp + 4) mod 4 = 3 ->
  user_sel (s_ds s) -> user_sel (s_es s) -> user_sel (s_fs s) -> user_sel (s_gs s) ->
  iret (mkx86 (mkgprs a c d b sp bp si di) s ip fl t m)
  = mkx86 (mkgprs a c d b (ld32 m (sp + 12)) bp si di)
      (mksegs (ld16 m (sp + 4)) (ld16 m (sp + 16)) (s_ds s) (s_es s) (s_fs s) (s_gs s)) (ld32 m sp) (ld32 m (sp + 8)) t m.
Proof.
  intros Hin Hpl H0 H1 Hcs U1 U2 U3 U4. destruct s as [cs ss ds es fs gs]. cbn [s_cs s_ds s_es s_fs s_gs] in *.
  unfold iret, top_word, drop4, load, cpl. cbv beta iota zeta delta [getr gp ram r_esp sg eip eflags tb setr setg sets setsg set_eip set_eflags s_cs].
  rewrite (u32_small (sp + 4)), (u32_small (sp + 4 + 4)), (u32_small (sp + 4 + 4 + 4)), (u32_small (sp + 4 + 4 + 4 + 4)) by lia.
  rewrite Hpl, <-!ld16_ld32, Hcs. change (0 <? 3) with true. cbv iota.
  replace (sp + 4 + 4 + 4 + 4) with (sp + 16) by lia. replace (sp + 4 + 4 + 4) with (sp + 12) by lia. replace (sp + 4 + 4) with (sp + 8) by lia.
  cbn [foldl]. rewrite (keep_user_sel vectors top _ DS), (keep_user_sel vectors top _ ES), (keep_user_sel vectors top _ FS),
    (keep_user_sel vectors top _ GS) by done. reflexivity.
Qed.

(** [trapret] goes on in user mode with the registers of the frame. *)
Lemma trapret_resumes vectors top a c d b tf bp si di s ip fl t m :
  installed vectors top m t -> s_cs s mod 4 = 0 -> 0 <= tf -> tf + 76 < 2 ^ 32 -> user_frame (read_frame m tf) ->
  run trapret (mkx86 (mkgprs a c d b tf bp si di) s ip fl t m)
  = let f := read_frame m tf in Some (mkx86 (regs_of f) (segs_of f) (tf_eip f) (tf_eflags f) t m).
Proof.
  intros Hin Hpl H0 H1 (U0 & U1 & U2 & U3 & U4). unfold trapret. cbn [run exec].
  unfold popal_, top_word, drop4, load. cbv [getr gp ram r_esp sg eip eflags tb setr setg sets].
  rewrite (u32_small (tf + 32)), (u32_small (tf + 32 + 4)), (u32_small (tf + 32 + 4 + 4)), (u32_small (tf + 32 + 4 + 4 + 4)),
    (u32_small (tf + 32 + 4 + 4 + 4 + 4)), (u32_small (tf + 32 + 4 + 4 + 4 + 4 + 8)) by lia.
  replace (tf + 32 + 4 + 4 + 4 + 4 + 8) with (tf + 56) by lia. replace (tf + 32 + 4 + 4 + 4) with (tf + 44) by lia.
  replace (tf + 32 + 4 + 4) with (tf + 40) by lia. replace (tf + 32 + 4) with (tf + 36) by lia. rewrite <-!ld16_ld32.
  destruct s as [cs ss ds es fs gs]. cbv [setsg]. cbn [read_frame tf_cs tf_ds tf_es tf_fs tf_gs s_cs] in *.
  rewrite (iret_user vectors top); cbn [s_ds s_es s_fs s_gs s_cs]; try done; try lia.
  - unfold regs_of, segs_of, read_frame. cbn. rewrite !u32_small by lia. rewrite <-!Z.add_assoc, Z.add_0_r. reflexivity.
  - rewrite <-Z.add_assoc. exact U0.
Qed.

(** ** Contexts *)

Lemma run_cons i l c c' : exec i c = Some c' -> run (i :: l) c = run l c'.
Proof. intros H. cbn [run]. by rewrite H. Qed.
Lemma exec_popl r g s ip fl t m : 0 <= r_esp g -> r_esp g + 4 < 2 ^ 32 ->
  exec (popl_r r) (mkx86 g s ip fl t m) = Some (mkx86 (setg r (ld32 m (r_esp g)) (setg ESP (r_esp g + 4) g)) s ip fl t m).
Proof. intros H0 H1. cbn [exec]. unfold drop4, top_word, load. cbn [getr gp ram]. by rewrite u32_small by lia. Qed.

(** [swtch(old, new)], entered with its return address and arguments on the stack. *)
Lemma swtch_run a c d b sp bp si di s ip fl t m : 16 <= sp -> sp + 12 < 2 ^ 32 ->
  let old := ld32 m (sp + 4) in let new := ld32 m (sp + 8) in
  let m' := st32 (pushes m sp [bp; b; si; di]) old (sp - 16) in
  let x := read_context m' new in new + 20 < 2 ^ 32 ->
  run swtch (mkx86 (mkgprs a c d b sp bp si di) s ip fl t m)
  = Some (mkx86 (mkgprs old c new (ctx_ebx x) (new + 20) (ctx_ebp x) (ctx_esi x) (ctx_edi x)) s (ctx_eip x) fl t m').
Proof.
  intros H0 H1 old new m' x Hn. pose proof (ld32_range m (sp + 8)) as Hn0. fold new in Hn0.
  unfold swtch. do 2 (erewrite run_cons by reflexivity). cbv [setr setg getr gp sg eip eflags tb ram r_esp load].
  rewrite (u32_small (sp + 4)), (u32_small (sp + 8)) by lia. fold old new.
  do 4 (erewrite run_cons by (cbn [exec getr gp r_ebp r_ebx r_esi r_edi]; rewrite store_below by lia; reflexivity)).
  do 2 (erewrite run_cons by reflexivity). unfold store. cbv [setr setg getr gp sg eip eflags tb ram r_esp r_eax r_edx].
  change (st32 (st32 (st32 (st32 m (sp - 4) bp) (sp - 4 - 4) b) (sp - 4 - 4 - 4) si) (sp - 4 - 4 - 4 - 4) di) with (pushes m sp [bp; b; si; di]).
  replace (sp - 4 - 4 - 4 - 4) with (sp - 16) by lia. fold m'.
  do 4 (erewrite run_cons by (apply exec_popl; cbn [r_esp]; lia); cbv [setg r_esp]).
  erewrite run_cons by reflexivity. unfold drop4, top_word, load. cbv [setr setg getr gp sg eip eflags tb ram r_esp set_eip run].
  rewrite (u32_small (new + 4 + 4 + 4 + 4 + 4)) by lia.
  unfold x, read_context. cbn [ctx_edi ctx_esi ctx_ebx ctx_ebp ctx_eip]. rewrite <-!Z.add_assoc. reflexivity.
Qed.

Lemma read_context_ext m m' a : (forall x, a <= x < a + 20 -> ldb m x = ldb m' x) -> read_context m a = read_context m' a.
Proof. intros H. unfold read_context. f_equal; apply ld32_ext; intros x Hx; apply H; lia. Qed.

(** The stores of [swtch]: four words below the stack pointer and the caller's variable. *)
Definition swtch_apart (sp old a n : Z) : Prop := (a + n <= sp - 16 \/ sp <= a) /\ (a + n <= old \/ old + 4 <= a).

Section Swtch.
Context (r : gprs) (m : mem).
Let sp := r_esp r.
Let old := ld32 m (sp + 4).
Let m' := st32 (pushes m sp [r_ebp r; r_ebx r; r_esi r; r_edi r]) old (sp - 16).
Lemma swtch_frame a n : swtch_apart sp old a n -> forall x, a <= x < a + n -> ldb m' x = ldb m x.
Proof.
  intros [H1 H2] x Hx. unfold m'. rewrite ldb_st32. case_if; [lia|]. apply ldb_pushes. cbn [length]. lia.
Qed.
Lemma swtch_saves : gprs_ok r -> 16 <= sp -> sp + 12 < 2 ^ 32 -> old + 4 <= sp - 16 \/ sp + 4 <= old ->
  ld32 m' old = sp - 16
  /\ read_context m' (sp - 16) = mkkcontext (r_edi r) (r_esi r) (r_ebx r) (r_ebp r) (ld32 m sp).
Proof.
  intros (_ & _ & _ & G4 & _ & G6 & G7 & G8) H0 H1 Ho. unfold m'.
  split; [rewrite ld32_st32_same; apply u32_small; lia|]. unfold read_context.
  set (l := [r_ebp r; r_ebx r; r_esi r; r_edi r]).
  assert (Hw : forall i v, l !! i = Some v -> word_ok v -> ld32 (st32 (pushes m sp l) old (sp - 16)) (sp - 4 * (Z.of_nat i + 1)) = v).
  { intros i v Hi Hv. pose proof (lookup_lt_Some _ _ _ Hi) as Hl. cbn [length l] in Hl. rewrite ld32_st32_ne by lia.
    rewrite (pushes_at l m sp i v Hi). by apply u32_small. }
  f_equal.
  - exact (Hw 3%nat _ eq_refl G8).
  - replace (sp - 16 + 4) with (sp - 4 * (Z.of_nat 2 + 1)) by lia. exact (Hw 2%nat _ eq_refl G7).
  - replace (sp - 16 + 8) with (sp - 4 * (Z.of_nat 1 + 1)) by lia. exact (Hw 1%nat _ eq_refl G4).
  - replace (sp - 16 + 12) with (sp - 4 * (Z.of_nat 0 + 1)) by lia. exact (Hw 0%nat _ eq_refl G6).
  - replace (sp - 16 + 16) with sp by lia. rewrite ld32_st32_ne by lia. apply pushes_ne. unfold off. cbn [length l]. lia.
Qed.
End Swtch.

(** A call of [swtch]: the stack and the arguments are where they can be, and the stores
    do not reach the context that is loaded. *)
Definition swtch_call (c : x86) (old new : Z) : Prop :=
  let sp := r_esp (gp c) in
  gprs_ok (gp c) /\ 16 <= sp /\ sp + 12 < 2 ^ 32 /\ ld32 (ram c) (sp + 4) = old /\ ld32 (ram c) (sp + 8) = new
  /\ new + 20 < 2 ^ 32 /\ (old + 4 <= sp - 16 \/ sp + 4 <= old) /\ swtch_apart sp old new 20.

Lemma swtch_loads c old new : swtch_call c old new -> exists m',
  let x := read_context (ram c) new in
  run swtch c = Some (mkx86 (mkgprs old (r_ecx (gp c)) new (ctx_ebx x) (new + 20) (ctx_ebp x) (ctx_esi x) (ctx_edi x))
    (sg c) (ctx_eip x) (eflags c) (tb c) m')
  /\ ld32 m' old = r_esp (gp c) - 16
  /\ read_context m' (r_esp (gp c) - 16)
     = mkkcontext (r_edi (gp c)) (r_esi (gp c)) (r_ebx (gp c)) (r_ebp (gp c)) (ld32 (ram c) (r_esp (gp c)))
  /\ forall a n, swtch_apart (r_esp (gp c)) old a n -> forall y, a <= y < a + n -> ldb m' y = ldb (ram c) y.
Proof.
  destruct c as [r s ip fl t m]. cbn [gp ram sg eflags tb]. intros (Hr & H0 & H1 & E1 & E2 & H2 & H3 & H4). cbn [gp ram] in *.
  pose proof (swtch_saves r m Hr H0 H1) as Hs. rewrite E1 in Hs. specialize (Hs H3).
  pose proof (swtch_frame r m) as Hf. rewrite E1 in Hf.
  eexists. cbv zeta. split; [|split; [apply Hs|split; [apply Hs|exact Hf]]].
  rewrite (read_context_ext m _ new) by (intros y Hy; symmetry; apply (Hf new 20 H4 y Hy)).
  destruct r as [a c d b sp bp si di]. cbn [r_esp r_ebp r_ebx r_esi r_edi r_ecx] in *. rewrite swtch_run by (rewrite ?E2; lia). rewrite E1, E2. reflexivity.
Qed.

(** C13: [swtch] leaves the caller's context, loads the other one, and comes back: when
    another thread switches to the saved context, the caller goes on after its call with
    the registers a C function may rely on. *)
Theorem swtch_comes_back c old new : swtch_call c old new ->
  exists c1, run swtch c = Some c1
    /\ ld32 (ram c1) old = r_esp (gp c) - 16
    /\ (let x := read_context (ram c) new in
        eip c1 = ctx_eip x /\ r_ebx (gp c1) = ctx_ebx x /\ r_ebp (gp c1) = ctx_ebp x /\ r_esi (gp c1) = ctx_esi x
        /\ r_edi (gp c1) = ctx_edi x /\ r_esp (gp c1) = new + 20)
    /\ forall c2 old2, swtch_call c2 old2 (ld32 (ram c1) old) ->
         (forall y, ld32 (ram c1) old <= y < ld32 (ram c1) old + 20 -> ldb (ram c2) y = ldb (ram c1) y) ->
         exists c3, run swtch c2 = Some c3 /\ eip c3 = ld32 (ram c) (r_esp (gp c)) /\ r_esp (gp c3) = r_esp (gp c) + 4
           /\ r_ebx (gp c3) = r_ebx (gp c) /\ r_ebp (gp c3) = r_ebp (gp c) /\ r_esi (gp c3) = r_esi (gp c) /\ r_edi (gp c3) = r_edi (gp c).
Proof.
  intros Hc. destruct (swtch_loads c old new Hc) as (m' & E & Eo & Ex & _). eexists. split; [exact E|]. cbn [ram eip gp r_ebx r_ebp r_esi r_edi r_esp].
  split; [exact Eo|]. split; [done|]. intros c2 old2 Hc2 Hsame. rewrite Eo in *.
  destruct (swtch_loads c2 old2 _ Hc2) as (m2 & E2 & _). eexists. split; [exact E2|].
  rewrite (read_context_ext (ram c2) m') by exact Hsame. rewrite Ex. cbn. repeat split; lia.
Qed.

(** ** The theorems *)

(** C11: every way into the kernel from user mode ends in a call of [trap] on the process's
    own kernel stack, in kernel mode, on a frame that holds all the program's registers,
    with the number of the trap and its error code; the program's own [int] is a system
    call or a protection fault.  Interrupts are off unless it is a system call, and no
    memory but the top of that stack is written. *)
Theorem trap_enters_kernel text vectors alltraps_at trap_at back_at e c top :
  (forall n, 0 <= n < 256 -> text (u32 (vectors n)) = vector alltraps_at n) -> text alltraps_at = alltraps trap_at back_at ->
  installed vectors top (ram c) (tb c) -> user_mode c -> event_ok e c -> 100 <= top < 2 ^ 32 ->
  exists c1, kernel_entry text e c = Some c1
    /\ eip c1 = trap_at /\ cpl c1 = 0 /\ s_ds (sg c1) = 8 * SEG_KDATA
    /\ r_esp (gp c1) = top - 84 /\ ld32 (ram c1) (top - 84) = u32 back_at /\ ld32 (ram c1) (top - 80) = top - 76
    /\ read_frame (ram c1) (top - 76) = frame_of c e (top - 76)
    /\ Z.testbit (eflags c1) 9 = Z.testbit (eflags c) 9 && (trap_number e =? T_SYSCALL)
    /\ forall x, x < top - 84 \/ top <= x -> ldb (ram c1) x = ldb (ram c) x.
Proof.
  intros Hvec Hall Hin (Hg & Hs & Hi & Hf & Hpl & _) He Htop.
  rewrite (kernel_entry_run text vectors alltraps_at trap_at back_at Hvec Hall e c top) by (done || apply Hg).
  eexists. split; [reflexivity|]. cbn [eip sg s_ds s_cs gp r_esp ram eflags]. set (l := s_ss (sg c) :: _).
  split; [done|]. split; [done|]. split; [done|]. split; [done|]. split; [|split; [|split; [|split]]].
  - replace (top - 84) with (top - 4 * (Z.of_nat 20 + 1)) by lia. by apply pushes_at.
  - replace (top - 80) with (top - 4 * (Z.of_nat 19 + 1)) by lia. rewrite (pushes_at l (ram c) top 19 (top - 76)) by done. apply u32_small. lia.
  - by apply frame_pushed.
  - unfold masked. destruct (trap_number e =? T_SYSCALL); rewrite !Z.ldiff_spec; change (Z.testbit FL_CLEARED 9) with false;
      change (Z.testbit FL_IF 9) with true; cbn [negb]; by rewrite ?andb_true_r, ?andb_false_r.
  - intros x Hx. apply ldb_pushes. unfold l. cbn [length]. lia.
Qed.

(** [trap] returned: its caller goes on with the frame [f], the stack and the segments as
    before the call, and the processor's tables in place. *)
Definition returned (vectors : Z -> Z) (tf : Z) (f : trapframe) (c1 c2 : x86) : Prop :=
  eip c2 = ld32 (ram c1) (r_esp (gp c1)) /\ r_esp (gp c2) = r_esp (gp c1) + 4 /\ s_cs (sg c2) = s_cs (sg c1)
  /\ (exists top, installed vectors top (ram c2) (tb c2)) /\ read_frame (ram c2) tf = f.
Definition with_eax (v : Z) (f : trapframe) : trapframe :=
  mktrapframe (tf_edi f) (tf_esi f) (tf_ebp f) (tf_oesp f) (tf_ebx f) (tf_edx f) (tf_ecx f) v
    (tf_gs f) (tf_fs f) (tf_es f) (tf_ds f) (tf_trapno f) (tf_err f) (tf_eip f) (tf_cs f) (tf_eflags f) (tf_esp f) (tf_ss f).

Lemma alltraps_back_resumes vectors tf c : (exists top, installed vectors top (ram c) (tb c)) ->
  s_cs (sg c) mod 4 = 0 -> r_esp (gp c) = tf - 4 -> 4 <= tf -> tf + 76 < 2 ^ 32 -> user_frame (read_frame (ram c) tf) ->
  run alltraps_back c = let f := read_frame (ram c) tf in Some (mkx86 (regs_of f) (segs_of f) (tf_eip f) (tf_eflags f) (tb c) (ram c)).
Proof.
  intros (top & Hin) Hpl Hsp H0 H1 Hu. destruct c as [[a cx d b sp bp si di] s ip fl t m]. cbn [gp sg ram tb r_esp] in *. subst sp.
  unfold alltraps_back. erewrite run_cons by reflexivity. cbv [setr setg getr gp sg eip eflags tb ram r_esp].
  replace (u32 (tf - 4 + 4)) with tf by (rewrite u32_small; lia). by apply (trapret_resumes vectors top); try lia.
Qed.


(** ** Witnesses *)

Definition demo_vectors (n : Z) : Z := 0x80106000 + 16 * n.
Definition demo_text (a : Z) : list instr :=
  if a =? 0x80107000 then alltraps 0x80104000 0x80107100
  else if a =? 0x80107100 then alltraps_back
  else vector 0x80107000 ((a - 0x80106000) / 16).
(** The tables as start-up and a switch to a process leave them in memory that was empty. *)
Definition demo_boot : outcome (unit * dst) :=
  (seginit 0x80112000 ;;; tvinit 0x80113000 demo_vectors ;;; idtinit 0x80113000 ;;; switch_tss 0x80112000 0x80200000)
    (∅, mktables 0 0 0 0 0).
Definition demo_tables : dst := match demo_boot with Ret (_, s) => s | _ => (∅, mktables 0 0 0 0 0) end.
Lemma tables_installed : installed demo_vectors 0x80200000 (fst demo_tables) (snd demo_tables).
Proof.
  assert (H : match demo_boot with Ret (_, (m, t)) => installed demo_vectors 0x80200000 m t | _ => False end).
  { unfold demo_boot. pose proof (tables_set_up 0x80112000 0x80113000 demo_vectors ltac:(lia) ltac:(lia) ltac:(lia) (∅, mktables 0 0 0 0 0)) as H.
    unfold wp, bind in *. destruct (seginit _ _) as [[u s1]| |]; [|done..]. destruct (tvinit _ _ _) as [[u2 s2]| |]; [|done..].
    destruct (idtinit _ _) as [[u3 [m3 t3]]| |]; [|done..].
    pose proof (switch_tss_installs 0x80112000 0x80113000 demo_vectors ltac:(lia) ltac:(lia) 0x80200000 m3 t3 ltac:(lia) H) as H2.
    unfold wp in H2. destruct (switch_tss _ _ _) as [[u4 [m4 t4]]| |]; [|done..]. apply H2. }
  unfold demo_tables. destruct demo_boot as [[u [m t]]| |]; [exact H|done..].
Qed.
(** A user program at address 100. *)
Definition prog : x86 :=
  mkx86 (mkgprs 1 2 3 4 5000 6 7 8) (mksegs 27 35 35 35 0 0) 100 0x202 (snd demo_tables) (fst demo_tables).
Lemma prog_user : user_mode prog.
Proof.
  unfold user_mode, gprs_ok, segs_ok, word_ok, sel_ok, user_sel, cpl, SEG_UCODE, SEG_UDATA. cbn [prog gp sg eip eflags r_eax r_ecx r_edx r_ebx r_esp r_ebp r_esi r_edi s_cs s_ss s_ds s_es s_fs s_gs].
  repeat split; try lia.
Qed.
Lemma demo_vec n : 0 <= n < 256 -> demo_text (u32 (demo_vectors n)) = vector 0x80107000 n.
Proof.
  intros H. unfold demo_text, demo_vectors. rewrite u32_small by lia.
  replace (0x80106000 + 16 * n =? 0x80107000) with false by lia. replace (0x80106000 + 16 * n =? 0x80107100) with false by lia.
  f_equal. rewrite Z.add_simpl_l, Z.mul_comm. by apply Z.div_mul.
Qed.
Lemma trap_enters_kernel_witness : exists c1, kernel_entry demo_text (Int 14) prog = Some c1
  /\ tf_trapno (read_frame (ram c1) 0x801FFFB4) = 13 /\ tf_eip (read_frame (ram c1) 0x801FFFB4) = 100.
Proof.
  destruct (trap_enters_kernel demo_text demo_vectors 0x80107000 0x80104000 0x80107100 (Int 14) prog 0x80200000) as (c1 & E & _ & _ & _ & _ & _ & _ & Hf & _).
  - exact demo_vec.
  - reflexivity.
  - exact tables_installed.
  - exact prog_user.
  - cbn. lia.
  - lia.
  - exists c1. change 0x801FFFB4 with (0x80200000 - 76). rewrite Hf. split; [exact E|]. split; reflexivity.
Defined.
Definition demo_swtch : x86 :=
  mkx86 (mkgprs 1 2 3 4 0x801FFF00 6 7 8) (mksegs 8 16 16 16 0 0) 0x80103000 2 (mktables 0 0 0 0 0)
    (st32 (st32 (st32 ∅ 0x801FFF00 0x80103333) 0x801FFF04 0x80114000) 0x801FFF08 0x80300000).
Lemma swtch_comes_back_witness : exists c1, run swtch demo_swtch = Some c1 /\ ld32 (ram c1) 0x80114000 = 0x801FFEF0.
Proof.
  destruct (swtch_comes_back demo_swtch 0x80114000 0x80300000) as (c1 & E & Eo & _).
  - unfold swtch_call, swtch_apart, gprs_ok, word_ok. cbn [demo_swtch gp r_eax r_ecx r_edx r_ebx r_esp r_ebp r_esi r_edi ram].
    repeat (split; [first [reflexivity|lia]|]). lia.
  - exists c1. exact (conj E Eo).
Defined.
