(* ===== verification/Resume.v ===== *)
(** * [fork] returns twice

    The composition of [fork] ([src/xv6/proc.c]) with the assembly that resumes a process:
    the context and the trap frame that [fork] leaves for the child are such that, when a
    scheduler switches to it, [swtch] leads to [forkret], [forkret] returns to [trapret],
    and [trapret] goes on in the child's user program right where the parent called
    [fork], with 0 in [eax]. *)

From S2P Require Import Prelude Mem Mmu Spinlock Kalloc Vm Uvm Ualloc Kvm Copyuvm VmProps.
From S2P Require Import Proc ProcRules Sched System SchedRules Machine ProcMem ProcProps.
From S2P Require Import Desc Trapasm TrapasmProps.
Local Open Scope Z_scope.

Lemma ld32_shift m a m' a' : (forall b, 0 <= b < 4 -> ldb m (a + b) = ldb m' (a' + b)) -> ld32 m a = ld32 m' a'.
Proof.
  intros H. pose proof (H 0 ltac:(lia)) as H0. rewrite !Z.add_0_r in H0. unfold ld32. by rewrite H0, !H by lia.
Qed.
(** Two frames that agree but for [eax]. *)
Lemma read_frame_copy m a m' a' : (forall b, 0 <= b < 76 -> ~ (28 <= b < 32) -> ldb m' (a' + b) = ldb m (a + b)) ->
  read_frame m' a' = let f := read_frame m a in
    mktrapframe (tf_edi f) (tf_esi f) (tf_ebp f) (tf_oesp f) (tf_ebx f) (tf_edx f) (tf_ecx f) (ld32 m' (a' + 28))
      (tf_gs f) (tf_fs f) (tf_es f) (tf_ds f) (tf_trapno f) (tf_err f) (tf_eip f) (tf_cs f) (tf_eflags f) (tf_esp f) (tf_ss f).
Proof.
  intros H.
  assert (H4 : forall k, 0 <= k <= 72 -> k + 4 <= 28 \/ 32 <= k -> ld32 m' (a' + k) = ld32 m (a + k))
    by (intros k Hk Hn; apply ld32_shift; intros b Hb; rewrite <-!Z.add_assoc; apply H; lia).
  assert (H2 : forall k, 0 <= k <= 72 -> k + 4 <= 28 \/ 32 <= k -> ld16 m' (a' + k) = ld16 m (a + k))
    by (intros k Hk Hn; by rewrite !ld16_ld32, H4).
  pose proof (H4 0 ltac:(lia) ltac:(lia)) as H0. rewrite !Z.add_0_r in H0.
  unfold read_frame. cbn. f_equal; first [exact H0|apply H4; lia|apply H2; lia].
Qed.

Section Resume.
Context (trapret_at forkret_at : Z).

(** The process [q], whose kernel stack is in [m], goes on in its user program with the
    state [u]: after [swtch] to its context, the return from [forkret], and [trapret]. *)
Definition resumes (u : x86) (q : proc) (m : mem) : Prop :=
  forall x old, swtch_call x old (context q) -> swtch_apart (r_esp (gp x)) old (kstack q) 4096 ->
    (forall y, kstack q <= y < kstack q + 4096 -> ldb (ram x) y = ldb m y) ->
    exists x1, run swtch x = Some x1 /\ eip x1 = u32 forkret_at /\ ld32 (ram x1) (r_esp (gp x1)) = u32 trapret_at
      /\ forall vectors x2,
        eip x2 = ld32 (ram x1) (r_esp (gp x1)) -> r_esp (gp x2) = r_esp (gp x1) + 4 -> s_cs (sg x2) mod 4 = 0 ->
        (exists top, installed vectors top (ram x2) (tb x2)) ->
        (forall y, tf q <= y < tf q + TF_SIZE -> ldb (ram x2) y = ldb m y) ->
        exists x3, run Trapasm.trapret x2 = Some x3
          /\ gp x3 = gp u /\ sg x3 = sg u /\ eip x3 = eip u /\ eflags x3 = eflags u.

(** What [resumes] needs of the stack. *)
Lemma stack_resumes kend u f q m :
  page_ok kend (kstack q) -> tf q = kstack q + 4020 -> new_context trapret_at forkret_at (kstack q) q m ->
  read_frame m (tf q) = f -> user_frame f -> regs_of f = gp u -> segs_of f = sg u -> tf_eip f = eip u -> tf_eflags f = eflags u ->
  resumes u q m.
Proof.
  intros Hp Ht (Hc & Hc1 & Hc2) Hf Hu Hr Hs Hi Hfl x old Hx Ha Hm. pose proof (page_ok_pos _ _ Hp) as Hp0.
  assert (Hk : kstack q + 4096 < 2 ^ 32) by (pose proof (page_ok_bounds _ _ Hp); unfold KERNBASE, PHYSTOP, PGSIZE in *; lia).
  destruct (swtch_loads x old (context q) Hx) as (m' & E & _ & _ & Hfr). eexists. split; [exact E|]. cbn [eip ram gp r_esp].
  assert (Hw : forall a, kstack q <= a -> a + 4 <= kstack q + 4096 -> ld32 m' a = ld32 m a /\ ld32 (ram x) a = ld32 m a).
  { intros a H1 H2. split; apply ld32_ext; intros y Hy; [rewrite (Hfr _ _ Ha) by lia|]; apply Hm; lia. }
  split; [unfold read_context; cbn; rewrite Hc; replace (kstack q + 3996 + 16) with (kstack q + 4012) by lia; rewrite (proj2 (Hw (kstack q + 4012) ltac:(lia) ltac:(lia))); exact Hc1|].
  assert (Er : ld32 m' (context q + 20) = u32 trapret_at)
    by (rewrite Hc; replace (kstack q + 3996 + 20) with (kstack q + 4016) by lia; rewrite (proj1 (Hw (kstack q + 4016) ltac:(lia) ltac:(lia))); exact Hc2).
  split; [exact Er|]. intros vectors x2 Ei Es Hpl (top & Hin) Hy.
  assert (Ef : read_frame (ram x2) (tf q) = f).
  { rewrite <-Hf. rewrite (read_frame_copy m (tf q)) by (intros b Hb _; apply Hy; unfold TF_SIZE; lia). cbv zeta.
    rewrite (ld32_ext (ram x2) m) by (intros b Hb; apply Hy; unfold TF_SIZE; lia). reflexivity. }
  destruct x2 as [[a cx d b sp bp si di] s ip fl t m2]. cbn [gp sg ram tb eip r_esp] in *.
  replace sp with (tf q) by lia. rewrite (trapret_resumes vectors top) by (rewrite ?Ef; done || lia). rewrite Ef.
  eexists. split; [reflexivity|]. done.
Qed.
End Resume.

Section Fork.
Context {F : Type} `{FileOps F} `{!FileTotal (F := F)}.

End Fork.

(** ** Witness *)

(** The machine of [ProcProps], where the shell has called [fork]. *)
Definition fork_caller : x86 :=
  mkx86 (mkgprs 1 2 3 4 5000 6 7 8) (mksegs 27 35 35 35 0 0) 100 0x202 (mktables 0 0 0 0 0) ∅.
Definition fork_stack : list Z :=
  let r := gp fork_caller in let s := sg fork_caller in
  [s_ss s; r_esp r; eflags fork_caller; s_cs s; eip fork_caller; trap_code (Int T_SYSCALL); trap_number (Int T_SYSCALL);
   s_ds s; s_es s; s_fs s; s_gs s; r_eax r; r_ecx r; r_edx r; r_ebx r; 0x80207000 - 44; r_ebp r; r_esi r; r_edi r; 0x80207000 - 76; 0].
Definition forking : kst (list Z) :=
  set_km (set_mem (pushes demo_mem 0x80207000 fork_stack) demo) (pdemo RUNNING (Some 1%nat) false 0 3 0).
Lemma forking_page : page_only 0x80206000 demo_mem (pushes demo_mem 0x80207000 fork_stack).
Proof. intros a Ha. apply ldb_pushes. unfold in_page, PGSIZE in Ha. cbn [fork_stack length]. lia. Qed.
Lemma forking_page_ok : page_ok demo_end 0x80206000.
Proof. cbv; repeat split; congruence. Qed.
Lemma forking_fresh : ~ space_page demo_mem 0x80200000 0x80206000.
Proof.
  intros [[?|(i & Hi & Hp & E)]|(va & Hv & E)]; [discriminate| |].
  - rewrite demo_pde in * by exact Hi. destruct (i =? 0); [discriminate|]. rewrite has_0 in Hp. discriminate.
  - pose proof (present_range _ _ _ Hv) as Hr. destruct Hv as [_ Hv]. rewrite demo_pte in * by exact Hr.
    destruct (vpn va =? 0); discriminate.
Qed.
Lemma forking_running : running forking 0 1.
Proof. destruct (pdemo_running 0 3 0) as [H1 H2 H3 H4 H5]. split; [exact H1|exact H2|exact H3|exact H4|exact H5]. Qed.
Lemma fork_caller_user : user_mode fork_caller.
Proof.
  unfold user_mode, gprs_ok, segs_ok, word_ok, sel_ok, user_sel, cpl, SEG_UCODE, SEG_UDATA. cbn [fork_caller gp sg eip eflags r_eax r_ecx r_edx r_ebx r_esp r_ebp r_esi r_edi s_cs s_ss s_ds s_es s_fs s_gs].
  repeat split; try lia.
Qed.
