(* ===== verification/Startup.v ===== *)
(** * Start-up

    Models the code that runs before the kernel's C code can: [entry] of
    [src/xv6/entry.S], the code other processors start with ([src/xv6/entryother.S]), the
    boot sector up to its call of [bootmain] ([src/xv6/bootasm.S]), the page directory
    [entrypgdir] and [startothers] of [src/xv6/main.c].  A processor is its registers,
    control registers and segment tables; memory is the kernel's, where physical address
    [a] is found at [P2V a], and an access goes through the page directory once paging is
    on.  Fetching of instructions is left out. *)

From S2P Require Import Prelude Mem Mmu Kalloc Vm Io Apic Desc.
Local Open Scope Z_scope.

Definition CR0_PE : Z := 0x00000001.
Definition CR0_WP : Z := 0x00010000.
Definition CR0_PG : Z := 0x80000000.
Definition CR4_PSE : Z := 0x00000010.

(** ** The first page directory *)

(** The initialiser of [entrypgdir]: entry [i]. *)
Definition entrypgdir (i : Z) : Z :=
  if i =? 0 then Z.lor (Z.lor PTE_P PTE_W) PTE_PS
  else if i =? Z.shiftr KERNBASE PDXSHIFT then Z.lor (Z.lor PTE_P PTE_W) PTE_PS
  else 0.

(** ** The processor *)

Inductive seg := sCS | sSS | sDS | sES | sFS | sGS.
Record bcpu := mkbcpu {
  b_eax : Z; b_ecx : Z; b_edx : Z; b_esp : Z; b_eip : Z; b_if : bool; b_seg : seg -> Z;
  b_cr0 : Z; b_cr3 : Z; b_cr4 : Z; b_efer : Z; b_gdt : Z; b_gdtlim : Z; b_ram : mem }.

Definition paging (c : bcpu) : bool := Z.testbit (b_cr0 c) 31.
(** A directory entry in memory, and the address of a page of 4 megabytes. *)
Definition dir_entry (c : bcpu) (va : Z) : Z := ld32 (b_ram c) (P2V (b_cr3 c) + 4 * PDX va).
Definition translate (c : bcpu) (va : Z) : option Z :=
  if paging c then
    let pde := dir_entry c va in
    if Mmu.has pde PTE_P && Mmu.has pde PTE_PS && Z.testbit (b_cr4 c) 4 then Some (pde / 2 ^ 22 * 2 ^ 22 + va mod 2 ^ 22) else None
  else Some va.
Definition bload (a : Z) (c : bcpu) : option Z := pa ← translate c a; Some (ld32 (b_ram c) (P2V pa)).

Definition set_eax (v : Z) (c : bcpu) : bcpu :=
  mkbcpu v (b_ecx c) (b_edx c) (b_esp c) (b_eip c) (b_if c) (b_seg c) (b_cr0 c) (b_cr3 c) (b_cr4 c) (b_efer c) (b_gdt c) (b_gdtlim c) (b_ram c).
Definition set_ecx (v : Z) (c : bcpu) : bcpu :=
  mkbcpu (b_eax c) v (b_edx c) (b_esp c) (b_eip c) (b_if c) (b_seg c) (b_cr0 c) (b_cr3 c) (b_cr4 c) (b_efer c) (b_gdt c) (b_gdtlim c) (b_ram c).
Definition set_edx (v : Z) (c : bcpu) : bcpu :=
  mkbcpu (b_eax c) (b_ecx c) v (b_esp c) (b_eip c) (b_if c) (b_seg c) (b_cr0 c) (b_cr3 c) (b_cr4 c) (b_efer c) (b_gdt c) (b_gdtlim c) (b_ram c).
Definition set_esp (v : Z) (c : bcpu) : bcpu :=
  mkbcpu (b_eax c) (b_ecx c) (b_edx c) v (b_eip c) (b_if c) (b_seg c) (b_cr0 c) (b_cr3 c) (b_cr4 c) (b_efer c) (b_gdt c) (b_gdtlim c) (b_ram c).
Definition set_eip (v : Z) (c : bcpu) : bcpu :=
  mkbcpu (b_eax c) (b_ecx c) (b_edx c) (b_esp c) v (b_if c) (b_seg c) (b_cr0 c) (b_cr3 c) (b_cr4 c) (b_efer c) (b_gdt c) (b_gdtlim c) (b_ram c).
Definition set_if (v : bool) (c : bcpu) : bcpu :=
  mkbcpu (b_eax c) (b_ecx c) (b_edx c) (b_esp c) (b_eip c) v (b_seg c) (b_cr0 c) (b_cr3 c) (b_cr4 c) (b_efer c) (b_gdt c) (b_gdtlim c) (b_ram c).
#[export] Instance seg_eq_dec : EqDecision seg.
Proof. solve_decision. Defined.
Definition set_seg (s : seg) (v : Z) (c : bcpu) : bcpu :=
  mkbcpu (b_eax c) (b_ecx c) (b_edx c) (b_esp c) (b_eip c) (b_if c) (fun s' => if decide (s' = s) then v else b_seg c s')
    (b_cr0 c) (b_cr3 c) (b_cr4 c) (b_efer c) (b_gdt c) (b_gdtlim c) (b_ram c).
Inductive creg := CR0 | CR3 | CR4.
Definition getcr (r : creg) (c : bcpu) : Z := match r with CR0 => b_cr0 c | CR3 => b_cr3 c | CR4 => b_cr4 c end.
Definition setcr (r : creg) (v : Z) (c : bcpu) : bcpu :=
  let '(mkbcpu ax cx dx sp ip fl sg r0 r3 r4 ef gb gl m) := c in
  match r with
  | CR0 => mkbcpu ax cx dx sp ip fl sg v r3 r4 ef gb gl m
  | CR3 => mkbcpu ax cx dx sp ip fl sg r0 v r4 ef gb gl m
  | CR4 => mkbcpu ax cx dx sp ip fl sg r0 r3 v ef gb gl m
  end.
Definition set_efer (v : Z) (c : bcpu) : bcpu :=
  mkbcpu (b_eax c) (b_ecx c) (b_edx c) (b_esp c) (b_eip c) (b_if c) (b_seg c) (b_cr0 c) (b_cr3 c) (b_cr4 c) v (b_gdt c) (b_gdtlim c) (b_ram c).
Definition set_gdtr (b l : Z) (c : bcpu) : bcpu :=
  mkbcpu (b_eax c) (b_ecx c) (b_edx c) (b_esp c) (b_eip c) (b_if c) (b_seg c) (b_cr0 c) (b_cr3 c) (b_cr4 c) (b_efer c) b l (b_ram c).
Definition set_ram (m : mem) (c : bcpu) : bcpu :=
  mkbcpu (b_eax c) (b_ecx c) (b_edx c) (b_esp c) (b_eip c) (b_if c) (b_seg c) (b_cr0 c) (b_cr3 c) (b_cr4 c) (b_efer c) (b_gdt c) (b_gdtlim c) m.
Definition bpush (v : Z) (c : bcpu) : option bcpu :=
  let sp := u32 (b_esp c - 4) in
  pa ← translate c sp; Some (set_esp sp (set_ram (st32 (b_ram c) (P2V pa) v) c)).

(** ** Instructions *)

Inductive binstr :=
| cli_ | xorw_ax
| movw_i (v : Z)             (**r [movw $v, %ax] *)
| movw_s (s : seg)           (**r [movw %ax, %s] *)
| lgdt_ (a : Z)
| movl_cr (r : creg)         (**r [movl %r, %eax] *)
| movl_rc (r : creg)         (**r [movl %eax, %r] *)
| orl_ (v : Z) | andl_ (v : Z) | movl_eax (v : Z) | movl_ecx (v : Z) | movl_edx (v : Z) | movl_esp (v : Z)
| loadl_eax (a : Z) | loadl_esp (a : Z)
| ljmp_ (sel a : Z) | jmp_edx | call_ (a back : Z) | call_m (a back : Z)
| rdmsr_ | wrmsr_.

(** The model-specific register the code uses. *)
Definition IA32_EFER : Z := 0xC0000080.
Definition bexec (i : binstr) (c : bcpu) : option bcpu :=
  match i with
  | cli_ => Some (set_if false c)
  | xorw_ax => Some (set_eax (b_eax c / 2 ^ 16 * 2 ^ 16) c)
  | movw_i v => Some (set_eax (b_eax c / 2 ^ 16 * 2 ^ 16 + v) c)
  | movw_s s => Some (set_seg s (u16 (b_eax c)) c)
  | lgdt_ a => Some (set_gdtr (ld32 (b_ram c) (P2V (a + 2))) (Desc.ld16 (b_ram c) (P2V a)) c)
  | movl_cr r => Some (set_eax (getcr r c) c)
  | movl_rc r => Some (setcr r (b_eax c) c)
  | orl_ v => Some (set_eax (Z.lor (b_eax c) v) c)
  | andl_ v => Some (set_eax (Z.land (b_eax c) v) c)
  | movl_eax v => Some (set_eax v c)
  | movl_ecx v => Some (set_ecx v c)
  | movl_edx v => Some (set_edx v c)
  | movl_esp v => Some (set_esp v c)
  | loadl_eax a => v ← bload a c; Some (set_eax v c)
  | loadl_esp a => v ← bload a c; Some (set_esp v c)
  | ljmp_ sel a => Some (set_eip a (set_seg sCS sel c))
  | jmp_edx => Some (set_eip (b_edx c) c)
  | call_ a back => c' ← bpush back c; Some (set_eip a c')
  | call_m a back => v ← bload a c; c' ← bpush back c; Some (set_eip v c')
  | rdmsr_ => if b_ecx c =? IA32_EFER then Some (set_edx (b_efer c / 2 ^ 32) (set_eax (b_efer c mod 2 ^ 32) c)) else None
  | wrmsr_ => if b_ecx c =? IA32_EFER then Some (set_efer (b_edx c * 2 ^ 32 + b_eax c) c) else None
  end.
Fixpoint brun (l : list binstr) (c : bcpu) : option bcpu :=
  match l with [] => Some c | i :: l' => c' ← bexec i c; brun l' c' end.

(** ** The code *)

Section Code.
(** Addresses the linker assigns. *)
Context (entrypgdir_at stack_at main_at : Z).

Definition entry : list binstr :=
  [movw_i 0x10; movw_s sDS; movw_s sES; movw_s sSS; movw_i 0; movw_s sFS; movw_s sGS;
   movl_cr CR0; andl_ 0x7fffffff; movl_rc CR0;
   movl_eax (V2P entrypgdir_at); movl_rc CR3;
   movl_ecx 0x0c0000080; rdmsr_; andl_ 0xFFFFFEFF; wrmsr_;
   movl_cr CR4; orl_ CR4_PSE; andl_ 0xFFFFFFDF; movl_rc CR4;
   movl_cr CR0; orl_ 0x80010001; movl_rc CR0;
   movl_esp (stack_at + KSTACKSIZE); movl_edx main_at; jmp_edx].
End Code.

(** [SEG_NULLASM] and [SEG_ASM]: the eight bytes of a descriptor. *)
Definition SEG_NULLASM : list Z := [0; 0; 0; 0; 0; 0; 0; 0].
Definition word_bytes (v : Z) : list Z := [u8 v; u8 (Z.shiftr v 8)].
Definition SEG_ASM (type base lim : Z) : list Z :=
  word_bytes (Z.land (Z.shiftr lim 12) 0xffff) ++ word_bytes (Z.land base 0xffff)
  ++ [Z.land (Z.shiftr base 16) 0xff; Z.lor 0x90 type; Z.lor 0xC0 (Z.land (Z.shiftr lim 28) 0xf); Z.land (Z.shiftr base 24) 0xff].
Definition gdt_bytes : list Z := SEG_NULLASM ++ SEG_ASM (Z.lor STA_X STA_R) 0 0xffffffff ++ SEG_ASM STA_W 0 0xffffffff.
(** [gdtdesc], for a table at [gdt]. *)
Definition gdtdesc_bytes (gdt : Z) : list Z :=
  word_bytes (24 - 1) ++ [u8 gdt; u8 (Z.shiftr gdt 8); u8 (Z.shiftr gdt 16); u8 (Z.shiftr gdt 24)].

(** [entryother.S], linked at [START]: in real mode, and from [start32] on. *)
Definition START : Z := 0x7000.
Definition other_start (gdtdesc start32_at : Z) : list binstr :=
  [cli_; xorw_ax; movw_s sDS; movw_s sES; movw_s sSS; lgdt_ gdtdesc;
   movl_cr CR0; orl_ CR0_PE; movl_rc CR0; ljmp_ (Z.shiftl SEG_KCODE 3) start32_at].
Definition data_segs : list binstr :=
  [movw_i (Z.shiftl SEG_KDATA 3); movw_s sDS; movw_s sES; movw_s sSS; movw_i 0; movw_s sFS; movw_s sGS].
Definition other_start32 (back : Z) : list binstr :=
  data_segs ++
  [movl_cr CR4; orl_ CR4_PSE; movl_rc CR4;
   loadl_eax (START - 12); movl_rc CR3;
   movl_cr CR0; orl_ (Z.lor (Z.lor CR0_PE CR0_PG) CR0_WP); movl_rc CR0;
   loadl_esp (START - 4); call_m (START - 8) back].

(** The boot sector: address line 20 is enabled through the keyboard controller. *)
Fixpoint kbd_ready (fuel : nat) : M bus unit :=
  match fuel with
  | O => nofuel
  | S f => al <- inb 0x64 ;; if negb (Z.land al 0x2 =? 0) then kbd_ready f else ret tt
  end.
Definition seta20 (fuel : nat) : M bus unit :=
  kbd_ready fuel ;;; outb 0x64 0xd1 ;;; kbd_ready fuel ;;; outb 0x60 0xdf.
Definition boot_start (gdtdesc start32_at : Z) : list binstr :=
  [cli_; xorw_ax; movw_s sDS; movw_s sES; movw_s sSS] ++
  [lgdt_ gdtdesc; movl_cr CR0; orl_ CR0_PE; movl_rc CR0; ljmp_ (Z.shiftl SEG_KCODE 3) start32_at].
Definition boot_start32 (start_at bootmain_at back : Z) : list binstr :=
  data_segs ++ [movl_esp start_at; call_ bootmain_at back].

(** ** Starting the other processors *)

(** [st_woken] records which processors were told to start, and the memory they find. *)
Record starting := mkstarting { st_km : kmem; st_bus : bus; st_started : list Z; st_woken : list (Z * mem) }.
Definition on_starting_mem {A} (f : M kmem A) : M starting A :=
  lift st_km (fun k s => mkstarting k (st_bus s) (st_started s) (st_woken s)) f.
(** What a processor's [started] reads, in the order it is read, is up to that processor. *)
Fixpoint wait_started (fuel : nat) : M starting unit := fun s =>
  match fuel, st_started s with
  | S f, v :: l => 
      let s' := mkstarting (st_km s) (st_bus s) l (st_woken s) in
      if v =? 0 then wait_started f s' else Ret (tt, s')
  | _, _ => NoFuel
  end.

Section Others.
Context (lapic entryother_start entryother_size mpenter_at entrypgdir_at : Z).
Definition startap (apicid addr : Z) : M starting unit := fun s =>
  match lapicstartap lapic apicid addr (st_bus s, k_mem (st_km s)) with
  | Ret (_, (b, m)) => Ret (tt, mkstarting (set_mem m (st_km s)) b (st_started s) (st_woken s ++ [(apicid, m)]))
  | Panic e => Panic e
  | NoFuel => NoFuel
  end.
Definition code : Z := P2V 0x7000.
(** The body of the loop for a processor other than the one that runs, up to the wait. *)
Definition start_one (apicid : Z) : M starting unit :=
  stack <- on_starting_mem kalloc ;;
  on_starting_mem (st (code - 4) (stack + KSTACKSIZE)) ;;;
  on_starting_mem (st (code - 8) mpenter_at) ;;;
  on_starting_mem (st (code - 12) (V2P entrypgdir_at)) ;;;
  startap apicid (V2P code).
(** [for(c = cpus; c < cpus+ncpu; c++)]: the processors by their APIC numbers; [me] is
    the number of the one that runs. *)
Fixpoint start_loop (fuel : nat) (me : nat) (i : nat) (apicids : list Z) : M starting unit :=
  match apicids with
  | [] => ret tt
  | id :: l =>
      if (i =? me)%nat then start_loop fuel me (S i) l
      else start_one id ;;; wait_started fuel ;;; start_loop fuel me (S i) l
  end.
Definition startothers (fuel me : nat) (apicids : list Z) : M starting unit :=
  on_starting_mem (mmove code entryother_start entryother_size) ;;;
  start_loop fuel me 0 apicids.
End Others.

(** ** What is mapped *)

Lemma P2V_of_V2P a : 0 <= a < 2 ^ 32 -> P2V (V2P a) = a.
Proof.
  intros H. unfold P2V, V2P, u32. rewrite Zplus_mod_idemp_l. replace (a - KERNBASE + KERNBASE) with a by lia. by apply Z.mod_small.
Qed.
(** [entrypgdir] in memory. *)
Definition boot_dir (m : mem) (at_ : Z) : Prop := forall i, 0 <= i < 1024 -> ld32 m (at_ + 4 * i) = entrypgdir i.
(** The low four megabytes, where they are and above [KERNBASE], and nothing else. *)
Definition boot_map (va : Z) : option Z :=
  if va <? 2 ^ 22 then Some va else if (KERNBASE <=? va) && (va <? KERNBASE + 2 ^ 22) then Some (va - KERNBASE) else None.

Lemma PDX_div va : 0 <= va < 2 ^ 32 -> PDX va = va / 2 ^ 22.
Proof.
  intros H. unfold PDX, PDXSHIFT. rewrite Z.shiftr_div_pow2 by lia. change 0x3FF with (Z.ones 10). rewrite Z.land_ones by lia.
  apply Z.mod_small. split; [apply Z.div_pos|apply Z.div_lt_upper_bound]; lia.
Qed.
Lemma boot_translate c at_ va : boot_dir (b_ram c) at_ -> 0 <= at_ < 2 ^ 32 -> b_cr3 c = V2P at_ -> paging c = true ->
  Z.testbit (b_cr4 c) 4 = true -> 0 <= va < 2 ^ 32 -> translate c va = boot_map va.
Proof.
  intros Hd Ha H3 Hp H4 Hva. unfold translate, dir_entry. cbv zeta. rewrite Hp, H4, H3, P2V_of_V2P, PDX_div by done.
  set (i := va / 2 ^ 22). assert (Hi : 0 <= i < 1024) by (split; [apply Z.div_pos|apply Z.div_lt_upper_bound]; lia).
  pose proof (Z.div_mod va (2 ^ 22) ltac:(lia)) as Hm. pose proof (Z.mod_pos_bound va (2 ^ 22) ltac:(lia)) as Hb. fold i in Hm. rewrite !Hd by done. unfold entrypgdir, boot_map.
  change (Z.shiftr KERNBASE PDXSHIFT) with 512. change (Z.lor (Z.lor PTE_P PTE_W) PTE_PS) with 0x83. unfold KERNBASE.
  destruct (Z.eqb_spec i 0) as [E|Hn]; [|destruct (Z.eqb_spec i 512) as [E|Hn2]].
  - replace (va <? 2 ^ 22) with true by lia. change (0x83 / 2 ^ 22) with 0. change (has 0x83 PTE_P && has 0x83 PTE_PS && true) with true.
    cbv iota. f_equal. lia.
  - replace (va <? 2 ^ 22) with false by lia. replace ((0x80000000 <=? va) && (va <? 0x80000000 + 2 ^ 22)) with true by lia.
    change (0x83 / 2 ^ 22) with 0. change (has 0x83 PTE_P && has 0x83 PTE_PS && true) with true. cbv iota. f_equal. lia.
  - replace (va <? 2 ^ 22) with false by lia. replace ((0x80000000 <=? va) && (va <? 0x80000000 + 2 ^ 22)) with false by lia.
    reflexivity.
Qed.

(** [entry] turns paging on with the first page directory, in the mode its entries are
    meant for, and jumps to [main] on the boot stack. *)
Lemma entry_maps_kernel entrypgdir_at stack_at main_at c :
  boot_dir (b_ram c) entrypgdir_at -> 0 <= entrypgdir_at < 2 ^ 32 -> 0 <= b_efer c ->
  exists c', brun (entry entrypgdir_at stack_at main_at) c = Some c'
    /\ b_eip c' = main_at /\ b_esp c' = stack_at + KSTACKSIZE /\ b_ram c' = b_ram c
    /\ paging c' = true /\ Z.testbit (b_cr4 c') 5 = false /\ Z.testbit (b_efer c') 8 = false
    /\ forall va, 0 <= va < 2 ^ 32 -> translate c' va = boot_map va.
Proof.
  intros Hd Ha He. destruct c as [ax cx dx sp ip fl sg r0 r3 r4 ef gb gl m]. cbn [b_ram b_efer] in *. unfold entry.
  cbv beta iota zeta delta [brun bexec mbind option_bind set_eax set_ecx set_edx set_esp set_eip set_seg getcr setcr set_efer
    b_eax b_ecx b_edx b_esp b_eip b_if b_seg b_cr0 b_cr3 b_cr4 b_efer b_gdt b_gdtlim b_ram].
  change (0x0c0000080 =? IA32_EFER) with true. cbv iota.
  eexists. split; [reflexivity|]. cbn [b_eip b_esp b_ram b_cr4 b_efer]. set (c' := mkbcpu _ _ _ _ _ _ _ _ _ _ _ _ _ _).
  assert (Hp : paging c' = true) by (unfold paging, c'; cbn [b_cr0]; rewrite Z.lor_spec; apply orb_true_r).
  split; [done|]. split; [done|]. split; [done|]. split; [exact Hp|]. split; [|split].
  - rewrite Z.land_spec. apply andb_false_r.
  - rewrite <-(Z.mod_pow2_bits_low _ 32) by lia. rewrite Z.add_comm, Z.mod_add by lia. rewrite Z.mod_pow2_bits_low by lia.
    rewrite Z.land_spec. apply andb_false_r.
  - intros va Hva. apply (boot_translate c' entrypgdir_at); try done.
    unfold c'. cbn [b_cr4]. rewrite Z.land_spec, Z.lor_spec, orb_true_r. reflexivity.
Qed.

(** ** Another processor *)

Definition holds (m : mem) (a : Z) (l : list Z) : Prop := forall i v, l !! i = Some v -> ldb m (a + Z.of_nat i) = v.
Lemma holds_word m a l k b0 b1 b2 b3 : holds m a l ->
  l !! k = Some b0 -> l !! (k + 1)%nat = Some b1 -> l !! (k + 2)%nat = Some b2 -> l !! (k + 3)%nat = Some b3 ->
  ld32 m (a + Z.of_nat k) = b0 + 2 ^ 8 * b1 + 2 ^ 16 * b2 + 2 ^ 24 * b3.
Proof.
  intros H H0 H1 H2 H3. unfold ld32. rewrite (H _ _ H0).
  replace (a + Z.of_nat k + 1) with (a + Z.of_nat (k + 1)) by lia. replace (a + Z.of_nat k + 2) with (a + Z.of_nat (k + 2)) by lia.
  replace (a + Z.of_nat k + 3) with (a + Z.of_nat (k + 3)) by lia. by rewrite (H _ _ H1), (H _ _ H2), (H _ _ H3).
Qed.
(** The table and its descriptor in the copied code. *)
Definition other_image (m : mem) (gdt gdtdesc : Z) : Prop :=
  holds m (P2V gdt) gdt_bytes /\ holds m (P2V gdtdesc) (gdtdesc_bytes gdt).
(** Segment [k] of the table at [gdt] is all of memory. *)
Definition flat_seg (m : mem) (gdt k : Z) : Prop :=
  let lo := ld32 m (P2V gdt + 8 * k) in let hi := ld32 m (P2V gdt + 8 * k + 4) in
  seg_base lo hi = 0 /\ seg_limit lo hi = 2 ^ 32 - 1 /\ seg_present hi = true /\ seg_dpl hi = 0.
Lemma other_image_flat m gdt gdtdesc : other_image m gdt gdtdesc -> flat_seg m gdt SEG_KCODE /\ flat_seg m gdt SEG_KDATA.
Proof.
  intros [H _]. unfold flat_seg, SEG_KCODE, SEG_KDATA.
  replace (P2V gdt + 8 * 1 + 4) with (P2V gdt + Z.of_nat 12) by lia. replace (P2V gdt + 8 * 1) with (P2V gdt + Z.of_nat 8) by lia.
  replace (P2V gdt + 8 * 2 + 4) with (P2V gdt + Z.of_nat 20) by lia. replace (P2V gdt + 8 * 2) with (P2V gdt + Z.of_nat 16) by lia.
  cbv zeta. erewrite !(holds_word m (P2V gdt) gdt_bytes) by (exact H || reflexivity). vm_compute. done.
Qed.

Lemma P2V_low a : 0 <= a < 2 ^ 31 -> P2V a = KERNBASE + a.
Proof. intros H. unfold P2V. rewrite u32_small; unfold KERNBASE; lia. Qed.
Lemma brun_app l1 l2 c : brun (l1 ++ l2) c = (c' ← brun l1 c; brun l2 c').
Proof. revert c. induction l1 as [|i l1 IH]; intros c; cbn; [done|]. destruct (bexec i c); cbn; auto. Qed.

Lemma brun_step i l c c' : bexec i c = Some c' -> brun (i :: l) c = brun l c'.
Proof. intros H. cbn [brun]. by rewrite H. Qed.
(** One instruction that does not use memory. *)
Ltac bstep :=
  erewrite brun_step by
    (cbv beta iota zeta delta [bexec set_eax set_ecx set_edx set_esp set_eip set_seg set_if set_gdtr getcr setcr
       b_eax b_ecx b_edx b_esp b_eip b_if b_seg b_cr0 b_cr3 b_cr4 b_efer b_gdt b_gdtlim b_ram]; reflexivity).

Section Boots.
Context (gdt gdtdesc start32_at back mpenter_at entrypgdir_at k : Z) (m : mem).
Context (Hgdt : 0 <= gdt < 2 ^ 31) (Hdesc : 0 <= gdtdesc < 2 ^ 31 - 8) (Hdir : KERNBASE <= entrypgdir_at /\ entrypgdir_at + 4096 <= k)
  (Hk : k + 4096 <= KERNBASE + 2 ^ 22) (Hmp : 0 <= mpenter_at < 2 ^ 32).
Context (Himg : other_image m gdt gdtdesc) (Hbd : boot_dir m entrypgdir_at).
Context (Hw4 : ld32 m (code - 4) = k + KSTACKSIZE) (Hw8 : ld32 m (code - 8) = mpenter_at) (Hw12 : ld32 m (code - 12) = V2P entrypgdir_at).

Lemma desc_words : ld32 m (P2V (gdtdesc + 2)) = gdt /\ Desc.ld16 m (P2V gdtdesc) = 23.
Proof.
  destruct Himg as [_ H]. split.
  - rewrite P2V_low by lia. replace (KERNBASE + (gdtdesc + 2)) with (P2V gdtdesc + Z.of_nat 2) by (rewrite P2V_low; lia).
    erewrite (holds_word m _ (gdtdesc_bytes gdt) 2) by (exact H || reflexivity).
    pose proof (u32_bytes gdt) as E. unfold byte_of in E. change (8 * 0) with 0 in E. rewrite Z.shiftr_0_r in E.
    change (8 * 1) with 8 in E. change (8 * 2) with 16 in E. change (8 * 3) with 24 in E. rewrite E. apply u32_small. lia.
  - unfold Desc.ld16. pose proof (H 0%nat _ eq_refl) as H0. pose proof (H 1%nat _ eq_refl) as H1.
    replace (P2V gdtdesc + Z.of_nat 0) with (P2V gdtdesc) in H0 by lia. change (Z.of_nat 1) with 1 in H1. rewrite H0, H1. reflexivity.
Qed.

Lemma other_real_mode c : b_ram c = m -> paging c = false ->
  exists c1, brun (other_start gdtdesc start32_at) c = Some c1 /\ b_eip c1 = start32_at /\ b_ram c1 = m
    /\ b_gdt c1 = gdt /\ b_gdtlim c1 = 23 /\ b_seg c1 sCS = 8 * SEG_KCODE /\ b_if c1 = false
    /\ Z.testbit (b_cr0 c1) 0 = true /\ paging c1 = false.
Proof.
  intros Hm Hp. destruct desc_words as [E1 E2]. destruct c as [ax cx dx sp ip fl sg r0 r3 r4 ef gb gl m0]. cbn [b_ram] in Hm. subst m0.
  unfold other_start. cbn [brun bexec mbind option_bind].
  cbv beta iota zeta delta [set_eax set_ecx set_edx set_esp set_eip set_seg set_if set_gdtr getcr setcr
    b_eax b_ecx b_edx b_esp b_eip b_if b_seg b_cr0 b_cr3 b_cr4 b_efer b_gdt b_gdtlim b_ram].
  rewrite E1, E2. eexists. split; [reflexivity|]. unfold paging in *. cbn [b_eip b_ram b_gdt b_gdtlim b_seg b_if b_cr0] in *.
  do 5 (split; [reflexivity|]). split; [reflexivity|]. split; [rewrite Z.lor_spec; apply orb_true_r|].
  rewrite Z.lor_spec, Hp. reflexivity.
Qed.

Lemma translate_off c a : paging c = false -> translate c a = Some a.
Proof. intros H. unfold translate. by rewrite H. Qed.
(** The first page directory is in use. *)
Record boot_ready (c : bcpu) : Prop := mkboot_ready {
  br_dir : boot_dir (b_ram c) entrypgdir_at; br_cr3 : b_cr3 c = V2P entrypgdir_at; br_pg : paging c = true;
  br_pse : Z.testbit (b_cr4 c) 4 = true }.
Lemma ready_translate c va : boot_ready c -> 0 <= va < 2 ^ 32 -> translate c va = boot_map va.
Proof.
  intros [B1 B2 B3 B4] Hva. apply (boot_translate c entrypgdir_at); try done. unfold KERNBASE in *. lia.
Qed.
Lemma boot_load c a : boot_ready c -> 0 <= a < 2 ^ 22 -> bload a c = Some (ld32 (b_ram c) (KERNBASE + a)).
Proof.
  intros H Ha. unfold bload. rewrite ready_translate by (done || lia). unfold boot_map. replace (a <? 2 ^ 22) with true by lia.
  cbn [mbind option_bind]. by rewrite P2V_low by lia.
Qed.
Lemma boot_push v c : boot_ready c -> b_esp c = k + KSTACKSIZE ->
  bpush v c = Some (set_esp (k + 4092) (set_ram (st32 (b_ram c) (k + 4092) v) c)).
Proof.
  intros H E. unfold bpush. rewrite E. unfold KSTACKSIZE. unfold KERNBASE in *. rewrite u32_small by lia. replace (k + 4096 - 4) with (k + 4092) by lia.
  rewrite ready_translate by (done || lia). unfold boot_map, KERNBASE. replace (k + 4092 <? 2 ^ 22) with false by lia.
  replace ((0x80000000 <=? k + 4092) && (k + 4092 <? 0x80000000 + 2 ^ 22)) with true by lia. cbn [mbind option_bind].
  rewrite P2V_low by lia. unfold KERNBASE. by replace (0x80000000 + (k + 4092 - 0x80000000)) with (k + 4092) by lia.
Qed.
Lemma dir_kept : boot_dir (st32 m (k + 4092) back) entrypgdir_at.
Proof. intros i Hi. rewrite ld32_st32_ne by lia. by apply Hbd. Qed.

Lemma other_protected c : b_ram c = m -> paging c = false ->
  exists c', brun (other_start32 back) c = Some c' /\ b_eip c' = mpenter_at /\ b_esp c' = k + 4092
    /\ paging c' = true /\ b_seg c' sCS = b_seg c sCS /\ b_seg c' sDS = 8 * SEG_KDATA /\ b_seg c' sSS = 8 * SEG_KDATA
    /\ b_gdt c' = b_gdt c /\ b_ram c' = st32 m (k + 4092) back
    /\ forall va, 0 <= va < 2 ^ 32 -> translate c' va = boot_map va.
Proof.
  intros Hm Hp. destruct c as [ax cx dx sp ip fl sg r0 r3 r4 ef gb gl m0]. cbn [b_ram] in Hm. subst m0.
  unfold other_start32, data_segs. cbn [app]. do 10 bstep.
  erewrite brun_step by (cbn [bexec]; unfold bload; rewrite translate_off by exact Hp; cbn [mbind option_bind b_ram];
    rewrite P2V_low by (unfold START; lia); change (KERNBASE + (START - 12)) with (code - 12); rewrite Hw12; reflexivity).
  do 4 bstep. set (c2 := mkbcpu _ _ _ _ _ _ _ _ _ _ _ _ _ _).
  assert (H1 : boot_ready c2) by (split; [exact Hbd|done|unfold paging, c2; cbn [b_cr0]; rewrite Z.lor_spec; apply orb_true_r
    |unfold c2; cbn [b_cr4]; rewrite Z.lor_spec; apply orb_true_r]).
  erewrite brun_step by (cbn [bexec]; rewrite (boot_load c2 (START - 4)) by (done || unfold START; lia); cbn [b_ram c2];
    change (KERNBASE + (START - 4)) with (code - 4); rewrite Hw4; reflexivity).
  set (c3 := set_esp _ c2). assert (H2 : boot_ready c3) by (destruct H1 as [B1 B2 B3 B4]; split; [exact B1|exact B2|exact B3|exact B4]).
  erewrite brun_step by (cbn [bexec]; rewrite (boot_load c3 (START - 8)) by (done || unfold START; lia); cbn [b_ram c3 set_esp c2];
    change (KERNBASE + (START - 8)) with (code - 8); rewrite Hw8; cbn [mbind option_bind]; rewrite (boot_push back c3 H2 eq_refl); reflexivity).
  cbn [brun]. eexists. split; [reflexivity|]. cbn [b_eip b_esp b_seg b_gdt b_ram set_eip set_esp set_ram c3 c2].
  assert (E16 : u16 (ax / 2 ^ 16 * 2 ^ 16 + Z.shiftl SEG_KDATA 3) = 8 * SEG_KDATA)
    by (unfold u16; rewrite Z.add_comm, Z.mod_add by lia; reflexivity).
  split; [done|]. split; [done|]. split; [exact (br_pg _ H2)|]. split; [reflexivity|].
  split; [exact E16|]. split; [exact E16|]. split; [done|]. split; [done|].
  intros va Hva. apply ready_translate; [|done]. destruct H2 as [B1 B2 B3 B4]. split; [exact dir_kept|exact B2|exact B3|exact B4].
Qed.

(** Where a processor that was told to start at [START] ends up: in [mpenter], on its
    stack, with flat segments and the first page directory. *)
Definition boots_into_mpenter : Prop :=
  forall c, b_ram c = m -> paging c = false ->
    exists c1 c', brun (other_start gdtdesc start32_at) c = Some c1 /\ b_eip c1 = start32_at
      /\ brun (other_start32 back) c1 = Some c' /\ b_eip c' = mpenter_at /\ b_esp c' = k + KSTACKSIZE - 4
      /\ b_seg c' sCS = 8 * SEG_KCODE /\ b_seg c' sDS = 8 * SEG_KDATA /\ b_seg c' sSS = 8 * SEG_KDATA
      /\ b_gdt c' = gdt /\ flat_seg m gdt SEG_KCODE /\ flat_seg m gdt SEG_KDATA
      /\ b_ram c' = st32 m (k + KSTACKSIZE - 4) back
      /\ forall va, 0 <= va < 2 ^ 32 -> translate c' va = boot_map va.
Lemma other_boots : boots_into_mpenter.
Proof.
  intros c Hm Hp. destruct (other_real_mode c Hm Hp) as (c1 & E1 & Hi & Hm1 & Hg & _ & Hcs & _ & _ & Hp1).
  destruct (other_protected c1 Hm1 Hp1) as (c' & E2 & Hi2 & Hsp & _ & Hs1 & Hs2 & Hs3 & Hg2 & Hr & Ht).
  destruct (other_image_flat m gdt gdtdesc Himg) as [Hf1 Hf2]. unfold KSTACKSIZE. replace (k + 4096 - 4) with (k + 4092) by lia.
  exists c1, c'. rewrite Hg2, Hs1. repeat (split; [done|]). exact Ht.
Qed.
End Boots.

(** ** [startothers] *)

Section Others.
Context (kend lapic entryother_start entryother_size mpenter_at entrypgdir_at gdt gdtdesc start32_at back : Z).
Context (Hkend : KERNBASE + 0x8000 <= kend).
Context (Hgdt : START <= gdt /\ gdt + 24 <= 0x8000) (Hdesc : START <= gdtdesc /\ gdtdesc + 6 <= 0x8000).
Context (Hdir : KERNBASE + 0x8000 <= entrypgdir_at /\ entrypgdir_at + 4096 <= kend) (Hmp : 0 <= mpenter_at < 2 ^ 32).

(** The bytes that a turn of the loop leaves alone: those of the copied code and all
    above it. *)
Lemma low_frame m x a b c d : KERNBASE + START <= x ->
  ldb (Apic.st16 (Apic.st16 (st32 (st32 (st32 m (code - 4) a) (code - 8) b) (code - 12) c) WRV 0) (WRV + 2) d) x = ldb m x.
Proof.
  intros Hx. change code with (KERNBASE + START). unfold START, KERNBASE in *. unfold Apic.st16. change WRV with 0x80000467.
  rewrite !ldb_stb_ne by lia. rewrite !ldb_st32. repeat (case_if; [lia|]). done.
Qed.
Lemma holds_frame m m' a l : (forall x, a <= x < a + Z.of_nat (length l) -> ldb m' x = ldb m x) -> holds m a l -> holds m' a l.
Proof. intros H Hh i v Hi. rewrite H; [by apply Hh|]. pose proof (lookup_lt_Some _ _ _ Hi). lia. Qed.
Definition in_place (m : mem) : Prop := other_image m gdt gdtdesc /\ boot_dir m entrypgdir_at.
Lemma in_place_frame m m' : (forall x, KERNBASE + START <= x -> ldb m' x = ldb m x) -> in_place m -> in_place m'.
Proof.
  intros H [[H1 H2] H3]. unfold START, KERNBASE in *. split; [split|].
  - eapply holds_frame; [|exact H1]. intros x Hx. rewrite P2V_low in Hx by lia. apply H. unfold KERNBASE in *. lia.
  - eapply holds_frame; [|exact H2]. intros x Hx. rewrite P2V_low in Hx by lia. apply H. unfold KERNBASE in *. lia.
  - intros i Hi. rewrite (ld32_ext m' m); [by apply H3|]. intros x Hx. apply H. lia.
Qed.

Lemma ld32_apic16_ne m a v x : x + 4 <= a \/ a + 2 <= x -> ld32 (Apic.st16 m a v) x = ld32 m x.
Proof. intros H. apply ld32_ext. intros y Hy. unfold Apic.st16. by rewrite !ldb_stb_ne by lia. Qed.
Lemma startap_eq apicid addr a1 a2 a3 a4 a5 a6 a7 rest tr m : exists b',
  lapicstartap lapic apicid addr (mkbus ([a1; a2; a3; a4; a5; a6; a7] ++ rest) tr, m)
  = Ret (tt, (b', Apic.st16 (Apic.st16 m WRV 0) (WRV + 2) (Z.shiftr addr 4))) /\ answers b' = rest.
Proof. eexists. split; reflexivity. Qed.

(** One turn: the processor gets a page of its own for its stack and is told to start,
    and from there it gets into [mpenter] on that stack. *)
Lemma start_one_boots apicid k l s a1 a2 a3 a4 a5 a6 a7 rest :
  kmem_inv kend (k :: l) (st_km s) -> k + 4096 <= KERNBASE + 2 ^ 22 -> in_place (k_mem (st_km s)) ->
  answers (st_bus s) = [a1; a2; a3; a4; a5; a6; a7] ++ rest ->
  wp (start_one lapic mpenter_at entrypgdir_at apicid) (fun _ s' =>
    kmem_inv kend l (st_km s') /\ in_place (k_mem (st_km s')) /\ answers (st_bus s') = rest /\ st_started s' = st_started s
    /\ st_woken s' = st_woken s ++ [(apicid, k_mem (st_km s'))]
    /\ boots_into_mpenter gdt gdtdesc start32_at back mpenter_at k (k_mem (st_km s'))) s.
Proof.
  intros Hi Hk Hin Ha. unfold start_one. destruct (kalloc_cons kend k l _ Hi) as (km1 & E & Hi1 & Em & _).
  assert (Hko : page_ok kend k) by (apply (kmem_inv_pages _ _ _ Hi); left).
  pose proof (page_ok_bounds _ _ Hko) as Hkb. assert (Hke : kend <= k) by apply Hko.
  destruct s as [km0 [ans tr] started woken]. cbn [st_km st_bus answers st_started st_woken] in *. subst ans.
  apply wp_bind. unfold wp at 1, on_starting_mem, lift. cbn [st_km]. rewrite E. do 3 (apply wp_bind; unfold wp at 1, lift, st, modify; cbn [st_km st_bus st_started st_woken]).
  unfold wp, startap. cbn [st_bus st_km]. lazymatch goal with
  |- context [lapicstartap _ _ _ (_, ?mm)] => destruct (startap_eq apicid (V2P code) a1 a2 a3 a4 a5 a6 a7 rest tr mm) as (b' & Eb & Hans) end.
  rewrite Eb. cbn [st_km st_bus st_started st_woken k_mem set_mem]. set (m' := Apic.st16 _ _ _).
  assert (Hfr : forall x, KERNBASE + START <= x -> ldb m' x = ldb (k_mem km0) x) by (intros x Hx; unfold m'; rewrite <-Em; by apply low_frame).
  assert (Hin' : in_place m') by (apply (in_place_frame (k_mem km0)); done).
  split; [|split; [exact Hin'|split; [exact Hans|split; [done|split; [done|]]]]].
  - assert (Hf : kmem_inv kend l (set_mem m' km1)); [|exact Hf].
    apply kmem_inv_frame; [exact Hi1|]. intros q x Hq Hx. rewrite Hfr, Em; [done|].
    assert (page_ok kend q) as Hqo by (apply (kmem_inv_pages _ _ _ Hi1 _ Hq)). destruct Hqo as (_ & Hqk & _).
    unfold in_page, START, KERNBASE in *. lia.
  - destruct Hin' as [Himg Hbd]. apply other_boots with (entrypgdir_at := entrypgdir_at); try assumption; try (unfold START, KERNBASE in *; lia).
    all: unfold m'; change code with (KERNBASE + START); unfold START, KERNBASE, PHYSTOP, PGSIZE in *; change WRV with 0x80000467.
    all: rewrite !ld32_apic16_ne by lia.
    + rewrite !ld32_st32_ne, ld32_st32_same by lia. apply u32_small. unfold KSTACKSIZE. lia.
    + rewrite ld32_st32_ne, ld32_st32_same by lia. by apply u32_small.
    + rewrite ld32_st32_same. apply u32_small, u32_range.
Qed.

(** The processors other than [me], numbered from [i] on. *)
Fixpoint others (me i : nat) (ids : list Z) : list Z :=
  match ids with [] => [] | id :: l => (if (i =? me)%nat then [] else [id]) ++ others me (S i) l end.
(** What [started] reads when a processor is up after [n] turns of the waiting loop. *)
Definition polls (ns : list nat) : list Z := flat_map (fun n => replicate n 0 ++ [1]) ns.

Lemma wait_started_ok fuel n rest : forall s, (n < fuel)%nat -> st_started s = (replicate n 0 ++ [1]) ++ rest ->
  wait_started fuel s = Ret (tt, mkstarting (st_km s) (st_bus s) rest (st_woken s)).
Proof.
  revert fuel. induction n as [|n IH]; intros [|fuel] [km b l w] Hf Hs; [lia| |lia|]; cbn in Hs; subst l; cbn; [done|].
  by rewrite IH by (cbn; lia || done).
Qed.

Lemma start_loop_boots fuel me ids : forall i s ks l ns rest,
  kmem_inv kend (ks ++ l) (st_km s) -> Forall (fun k => k + 4096 <= KERNBASE + 2 ^ 22) ks -> in_place (k_mem (st_km s)) ->
  length ks = length (others me i ids) -> length ns = length ks -> Forall (fun n => n < fuel)%nat ns ->
  st_started s = polls ns ++ rest -> length (answers (st_bus s)) = (7 * length ks)%nat ->
  wp (start_loop lapic mpenter_at entrypgdir_at fuel me i ids) (fun _ s' => kmem_inv kend l (st_km s') /\ exists ms,
    st_woken s' = st_woken s ++ zip (others me i ids) ms
    /\ Forall2 (boots_into_mpenter gdt gdtdesc start32_at back mpenter_at) ks ms) s.
Proof.
  induction ids as [|id ids IH]; intros i s ks l ns rest Hi Hk Hin Hlk Hln Hfu Hst Ha; cbn [start_loop others] in *.
  - destruct ks; [|discriminate]. split; [exact Hi|]. exists []. split; [by rewrite app_nil_r|constructor].
  - destruct (i =? me)%nat eqn:Em; cbn [app] in *; [by eapply IH|].
    destruct ks as [|k ks]; [discriminate|]. destruct ns as [|n ns]; [discriminate|]. cbn [length app] in *.
    apply Forall_cons in Hk as [Hk0 Hk]. apply Forall_cons in Hfu as [Hf0 Hfu].
    destruct (answers (st_bus s)) as [|a1 [|a2 [|a3 [|a4 [|a5 [|a6 [|a7 ar]]]]]]] eqn:Ea; cbn in Ha; try lia.
    apply wp_bind. eapply wp_mono; [apply (start_one_boots id k (ks ++ l) s a1 a2 a3 a4 a5 a6 a7 ar); auto|].
    intros [] s1 (Hi1 & Hin1 & Ha1 & Hst1 & Hw1 & Hb1). apply wp_bind. unfold wp at 1.
    rewrite (wait_started_ok fuel n (polls ns ++ rest)) by (try lia; rewrite Hst1, Hst; cbn; by rewrite <-!app_assoc).
    eapply wp_mono; [apply (IH (S i) _ ks l ns rest); cbn [st_km st_bus st_started]; auto; try lia; rewrite ?Ha1; lia|].
    cbn [st_woken]. intros [] s2 (Hi2 & ms & Hw2 & Hb2). split; [exact Hi2|]. exists (k_mem (st_km s1) :: ms).
    split; [rewrite Hw2, Hw1, <-app_assoc; reflexivity|by constructor].
Qed.

(** The copy of the code that the other processors start with. *)
Definition image_linked (m : mem) : Prop :=
  0 <= entryother_size <= 0x1000 /\ gdt + 24 <= START + entryother_size /\ gdtdesc + 6 <= START + entryother_size
  /\ holds m (entryother_start + (gdt - START)) gdt_bytes /\ holds m (entryother_start + (gdtdesc - START)) (gdtdesc_bytes gdt)
  /\ boot_dir m entrypgdir_at.
Lemma copied_in_place m : image_linked m -> in_place (memmove m code entryother_start entryother_size).
Proof.
  intros (Hsz & Hg & Hd & H1 & H2 & H3). change code with (KERNBASE + START). split; [split|].
  - intros j v Hj. pose proof (lookup_lt_Some _ _ _ Hj) as Hl. cbn in Hl. unfold START, KERNBASE in *. rewrite P2V_low by lia.
    unfold KERNBASE. rewrite ldb_memmove by lia. case_if; [|lia]. rewrite <-(H1 j v Hj). f_equal. lia.
  - intros j v Hj. pose proof (lookup_lt_Some _ _ _ Hj) as Hl. cbn in Hl. unfold START, KERNBASE in *. rewrite P2V_low by lia.
    unfold KERNBASE. rewrite ldb_memmove by lia. case_if; [|lia]. rewrite <-(H2 j v Hj). f_equal. lia.
  - intros j Hj. rewrite <-(H3 j Hj). apply ld32_ext. intros x Hx. unfold START, KERNBASE in *. rewrite ldb_memmove by lia.
    case_if; [lia|done].
Qed.
End Others.


(** ** The boot sector *)

(** The controller's input buffer is full. *)
Definition busy (v : Z) : Prop := Z.land (u8 v) 0x2 <> 0.
Lemma kbd_ready_ok v rest : ~ busy v -> forall fuel l tr, Forall busy l -> (length l < fuel)%nat ->
  exists tr', kbd_ready fuel (mkbus (l ++ v :: rest) tr) = Ret (tt, mkbus rest tr') /\ written tr' = written tr.
Proof.
  intros Hv. unfold busy in Hv. induction fuel as [|fuel IH]; intros l tr Hb Hf; [lia|].
  destruct l as [|x l]; cbn [kbd_ready app length] in *; unfold bind; rewrite inb_cons.
  - destruct (Z.eqb_spec (Z.land (u8 v) 2) 0); [|tauto]. eexists. split; [reflexivity|]. by rewrite written_app, app_nil_r.
  - apply Forall_cons in Hb as [Hx Hb]. unfold busy in Hx. destruct (Z.eqb_spec (Z.land (u8 x) 2) 0); [done|]. cbn [negb].
    destruct (IH l (tr ++ [In 0x64 x]) Hb) as (tr' & E & Ew); [lia|]. eexists. split; [exact E|].
    by rewrite Ew, written_app, app_nil_r.
Qed.
(** Address line 20 is enabled as soon as the controller takes the two commands. *)
Lemma seta20_enables fuel l1 l2 v1 v2 rest : Forall busy l1 -> Forall busy l2 -> ~ busy v1 -> ~ busy v2 ->
  (length l1 < fuel)%nat -> (length l2 < fuel)%nat ->
  exists b, seta20 fuel (mkbus (l1 ++ v1 :: l2 ++ v2 :: rest) []) = Ret (tt, b)
    /\ answers b = rest /\ written (traffic b) = [(0x64, 0xd1); (0x60, 0xdf)].
Proof.
  intros H1 H2 E1 E2 L1 L2. unfold seta20, bind.
  destruct (kbd_ready_ok v1 (l2 ++ v2 :: rest) E1 fuel l1 [] H1 L1) as (t1 & R1 & W1). rewrite R1, outb_eq. cbn [answers traffic].
  destruct (kbd_ready_ok v2 rest E2 fuel l2 (t1 ++ [Out 0x64 (u8 0xd1)]) H2 L2) as (t2 & R2 & W2). rewrite R2, outb_eq.
  eexists. split; [reflexivity|]. split; [reflexivity|]. cbn [traffic]. by rewrite written_app, W2, written_app, W1.
Qed.
(** The boot sector calls [bootmain] in protected mode with flat segments, on the stack
    below its own code. *)
Lemma boot_sector_calls gdt gdtdesc start32_at start_at bootmain_at back c :
  0 <= gdt < 2 ^ 31 -> 0 <= gdtdesc < 2 ^ 31 - 8 -> 4 <= start_at < 2 ^ 31 -> other_image (b_ram c) gdt gdtdesc -> paging c = false ->
  exists c1 c', brun (boot_start gdtdesc start32_at) c = Some c1 /\ b_eip c1 = start32_at /\ Z.testbit (b_cr0 c1) 0 = true
    /\ brun (boot_start32 start_at bootmain_at back) c1 = Some c' /\ b_eip c' = bootmain_at /\ b_esp c' = start_at - 4
    /\ b_gdt c' = gdt /\ flat_seg (b_ram c) gdt SEG_KCODE /\ flat_seg (b_ram c) gdt SEG_KDATA.
Proof.
  intros Hg Hd Hs Him Hp. destruct (other_real_mode gdt gdtdesc start32_at (b_ram c) Hg Hd Him c eq_refl Hp) as
    (c1 & E1 & Hi & Hm & Hgd & _ & _ & _ & Hpe & Hp1).
  destruct (other_image_flat _ _ _ Him) as [F1 F2]. exists c1. destruct c1 as [ax cx dx sp ip fl sg r0 r3 r4 ef gb gl m]. cbn in Hi, Hgd, Hpe.
  eexists. split; [exact E1|]. split; [exact Hi|]. split; [exact Hpe|]. unfold boot_start32, data_segs. cbn [app]. split.
  - do 8 bstep. erewrite brun_step by (cbn [bexec]; unfold bpush; rewrite translate_off by exact Hp1; reflexivity). reflexivity.
  - cbn. rewrite u32_small by lia. done.
Qed.

(** ** Witness *)

Fixpoint put_bytes (m : mem) (a : Z) (l : list Z) : mem :=
  match l with [] => m | b :: l' => put_bytes (stb m a b) (a + 1) l' end.
(** The code at 0x80110000, its table at 0x60 and the descriptor at 0x78. *)
Definition start_mem : mem :=
  st32 (st32 (put_bytes (put_bytes ∅ 0x80110060 gdt_bytes) 0x80110078 (gdtdesc_bytes 0x7060)) 0x80111000 0x83) 0x80111800 0x83.
Definition start_demo : starting :=
  mkstarting (mkkmem false false 0x80200000 start_mem) (mkbus [0; 0; 0; 0; 0; 0; 0] []) [0; 0; 1] [].
Lemma start_image : image_linked 0x80110000 0x80 0x80111000 0x7060 0x7078 start_mem.
Proof.
  unfold image_linked, START. do 3 (split; [lia|]). split; [|split].
  - intros j v Hj. do 24 (destruct j as [|j]; [injection Hj as <-; vm_compute; reflexivity|]). discriminate.
  - intros j v Hj. do 6 (destruct j as [|j]; [injection Hj as <-; vm_compute; reflexivity|]). discriminate.
  - intros j Hj. unfold entrypgdir. change (Z.shiftr KERNBASE PDXSHIFT) with 512.
    destruct (Z.eqb_spec j 0) as [->|H0]; [vm_compute; reflexivity|]. destruct (Z.eqb_spec j 512) as [->|H1]; [vm_compute; reflexivity|].
    unfold start_mem. rewrite !ld32_st32_ne by lia. rewrite (ld32_ext _ ∅); [unfold ld32, ldb; by rewrite !lookup_empty|].
    intros x Hx. cbn [put_bytes gdt_bytes gdtdesc_bytes SEG_NULLASM SEG_ASM word_bytes app]. rewrite !ldb_stb_ne by lia. done.
Qed.
