(* ===== verification/FsVol.v ===== *)
(** * The store of blocks

    Which blocks belong to which file: every block of a file is marked in the free map and
    belongs to one file only, and what lies behind the end of a file is not allocated.  The
    basic changes of the store, a block taken from the map, attached to a file, or written,
    keep it in order, and keep the other files. *)

From S2P Require Import Prelude Mem Bio Log BioRules LogRules LogProps Fs FsRules FsFile.
Local Open Scope Z_scope.

(** ** Blocks of a file *)

(** The blocks of [p] when its first [nb] blocks are allocated. *)
Definition owns (s : fs) (p : inode) (nb b : Z) : Prop :=
  (exists k, 0 <= k < nb /\ b = file_block s p k) \/ addr_at p NDIRECT <> 0 /\ b = addr_at p NDIRECT.
(** A block of the inode area or of the free map. *)
Definition meta (s : fs) (b : Z) : Prop :=
  (exists n, 1 <= n < sb_ninodes (sblock s) /\ b = IBLOCK n (sblock s)) \/
  (exists c, 0 <= c < sb_size (sblock s) /\ b = BBLOCK c (sblock s)).
Record data_block (s : fs) (b : Z) : Prop := mkdata {
  db_home : home s b; db_range : 0 < b < sb_size (sblock s); db_used : inuse s b = true;
  db_len : length (view s b) = 512%nat; db_meta : ~ meta s b }.

(** A file with [nb] blocks. *)
Record alloc_ok (s : fs) (p : inode) (nb : Z) : Prop := mkalloc {
  ao_len : length (iaddrs p) = 13%nat;
  ao_nb : 0 <= nb <= MAXFILE;
  ao_data : forall b, owns s p nb b -> data_block s b;
  ao_ind : NDIRECT < nb -> addr_at p NDIRECT <> 0;
  ao_zero : forall k, nb <= k < NDIRECT -> addr_at p k = 0;
  ao_izero : forall k, nb <= k < MAXFILE -> NDIRECT <= k -> addr_at p NDIRECT <> 0 -> rd32 (view s (addr_at p NDIRECT)) (4 * (k - NDIRECT)) = 0;
  ao_inj : forall k j, 0 <= k < nb -> 0 <= j < nb -> file_block s p k = file_block s p j -> k = j;
  ao_apart : forall k, 0 <= k < nb -> file_block s p k <> addr_at p NDIRECT }.

(** The disk, its superblock and the place of the log stay. *)
Record steady (s s' : fs) : Prop := mksteady {
  sd_sb : sblock s' = sblock s; sd_size : disksize s' = disksize s; sd_log : forall b, in_log (logst s') b <-> in_log (logst s) b }.
Lemma steady_fstep ws s s' : fstep ws s s' -> steady s s'.
Proof. intros F. split; [apply F|apply F|]. intros b. apply (fstep_in_log _ _ _ _ F). Qed.
Lemma steady_home s s' b : steady s s' -> home s b -> home s' b.
Proof. intros [_ E L] (H1 & H2 & H3). unfold home. rewrite E, L. done. Qed.
Lemma steady_meta s s' b : steady s s' -> meta s' b <-> meta s b.
Proof. intros [E _ _]. unfold meta. by rewrite E. Qed.
Lemma steady_trans s s1 s2 : steady s s1 -> steady s1 s2 -> steady s s2.
Proof. intros [A1 A2 A3] [B1 B2 B3]. split; [congruence|congruence|]. intros b. by rewrite B3, A3. Qed.

(** The blocks of the file are as before. *)
Definition same_file (s s' : fs) (p : inode) (nb : Z) : Prop := forall b, owns s p nb b -> view s' b = view s b.

Lemma same_block s s' p nb k : alloc_ok s p nb -> same_file s s' p nb -> 0 <= k < nb -> file_block s' p k = file_block s p k.
Proof.
  intros A S Hk. unfold file_block. destruct (Z.ltb_spec k NDIRECT); [done|]. rewrite S; [done|]. right. split; [apply (ao_ind _ _ _ A); lia|done].
Qed.
Lemma same_owns s s' p nb b : alloc_ok s p nb -> same_file s s' p nb -> owns s' p nb b <-> owns s p nb b.
Proof.
  intros A S. unfold owns. split; (intros [(k & Hk & ->)|H]; [left; exists k|right; done]); rewrite (same_block s s' p nb k A S Hk); done.
Qed.
Lemma same_bytes s s' p nb j : alloc_ok s p nb -> same_file s s' p nb -> 0 <= j < BSIZE * nb -> fbyte s' p j = fbyte s p j.
Proof.
  intros A S Hj. assert (Hk : 0 <= j / BSIZE < nb) by (rewrite BSIZE_eq in *; Z.to_euclidean_division_equations; lia).
  unfold fbyte. rewrite (same_block s s' p nb _ A S Hk), S; [done|]. left. by exists (j / BSIZE).
Qed.
Lemma same_file_trans s s1 s2 p nb : alloc_ok s p nb -> same_file s s1 p nb -> same_file s1 s2 p nb -> same_file s s2 p nb.
Proof. intros A S1 S2 b Hb. rewrite S2, S1; [done|done|]. by apply (same_owns s s1). Qed.

Lemma alloc_frame s s' p nb : alloc_ok s p nb -> steady s s' -> same_file s s' p nb -> (forall b, owns s p nb b -> inuse s' b = true) -> alloc_ok s' p nb.
Proof.
  intros A D S Hu. pose proof A as [A1 A2 A3 A4 A5 A6 A7 A8]. split; [done|done|..].
  - intros b Hb. apply (same_owns s s' p nb b A S) in Hb. destruct (A3 b Hb) as [B1 B2 B3 B4 B5].
    split; [by apply (steady_home s)|by rewrite (sd_sb _ _ D)|by apply Hu|by rewrite S|by rewrite (steady_meta _ _ _ D)].
  - done.
  - done.
  - intros k Hk Hn Ha. rewrite S; [by apply A6|]. by right.
  - intros k j Hk Hj. rewrite !(same_block s s' p nb) by done. by apply A7.
  - intros k Hk. rewrite (same_block s s' p nb) by done. by apply A8.
Qed.

(** The bytes of a file whose blocks are allocated. *)
Lemma alloc_file s p nb : alloc_ok s p nb -> idev p = 1 -> itype p <> T_DEV -> 0 <= isize p -> nblocks p <= nb -> file_ok s p.
Proof.
  intros [A1 A2 A3 A4 A5 A6 A7 A8] Hd Ht Hs Hn.
  assert (Hmax : isize p <= MAXFILE * BSIZE) by (unfold nblocks in Hn; rewrite BSIZE_eq in *; Z.to_euclidean_division_equations; lia).
  split; [done|done|done|..].
  - intros k Hk. destruct (A3 (file_block s p k)) as [B1 B2 B3 B4 B5]; [left; exists k; split; [lia|done]|]. split; [done|]. split; [lia|done].
  - intros Hk. assert (Ha : addr_at p NDIRECT <> 0) by (apply A4; lia). split.
    + split; [|done]. apply A3. by right.
    + intros k Hk'. apply A8. lia.
  - intros k j Hk Hj. apply A7; lia.
Qed.

(** ** The store *)

(** Inode [n] of the table is in use. *)
Definition used (s : fs) (I : Z -> inode) (n : Z) : Prop := 1 <= n < sb_ninodes (sblock s) /\ itype (I n) <> 0.

(** The files are [I n], each with [N n] blocks. *)
Record store_ok (s : fs) (I : Z -> inode) (N : Z -> Z) : Prop := mkstore {
  so_map : bitmap_ok s;
  so_sb : sb_current s;
  so_size : disksize s <= 2 ^ 31;
  so_boot : inuse s 0 = true;
  so_iblock : forall n, 1 <= n < sb_ninodes (sblock s) -> let b := IBLOCK n (sblock s) in
    home s b /\ 0 <= b < sb_size (sblock s) /\ length (view s b) = 512%nat /\ inuse s b = true /\
    forall c, 0 <= c < sb_size (sblock s) -> BBLOCK c (sblock s) <> b;
  so_file : forall n, used s I n -> alloc_ok s (I n) (N n);
  so_owner : forall n m b, used s I n -> used s I m -> owns s (I n) (N n) b -> owns s (I m) (N m) b -> n = m }.

(** A block outside the free map is written. *)
Lemma plain_write s s' I N b d : store_ok s I N -> home s b -> (forall c, 0 <= c < sb_size (sblock s) -> BBLOCK c (sblock s) <> b) -> fstep [(b, d)] s s' ->
  bitmap_ok s' /\ sb_current s' /\ (forall c, view s' c = if c =? b then d else view s c) /\
  (forall c, 0 <= c < sb_size (sblock s) -> inuse s' c = inuse s c).
Proof.
  intros S B1 B5 Fs. pose proof (steady_fstep _ _ _ Fs) as D.
  assert (V : forall c, view s' c = if c =? b then d else view s c).
  { intros c. rewrite (fs_view _ _ _ Fs). cbn [apply_writes]. destruct (Z.eqb_spec c b) as [->|]; [apply zfn_insert_eq|by rewrite zfn_insert_ne by congruence]. }
  assert (Vb : forall c, 0 <= c < sb_size (sblock s) -> view s' (BBLOCK c (sblock s)) = view s (BBLOCK c (sblock s))).
  { intros c Hc. rewrite V. destruct (Z.eqb_spec (BBLOCK c (sblock s)) b) as [E|]; [|done]. by destruct (B5 c Hc). }
  assert (U : forall c, 0 <= c < sb_size (sblock s) -> inuse s' c = inuse s c) by (intros c Hc; unfold inuse; by rewrite (sd_sb _ _ D), Vb).
  split; [|split; [|done]].
  - destruct (so_map _ _ _ S) as [M1 M2 M3 M4 M5]. split; rewrite ?(sd_sb _ _ D), ?(sd_size _ _ D); [done|done|..].
    + intros c Hc. by apply (steady_home s), M3.
    + intros c Hc. by rewrite Vb, M4.
    + intros c Hc Hf. rewrite U in Hf by done. destruct (M5 c Hc Hf). split; [by apply (steady_home s)|done].
  - destruct (so_sb _ _ _ S) as [C1 C2]. split; [|by rewrite (sd_size _ _ D)]. rewrite V, (sd_sb _ _ D).
    destruct B1 as (_ & _ & B1). destruct (Z.eqb_spec 1 b); [congruence|done].
Qed.

(** Nobody's block. *)
Definition unowned (s : fs) (I : Z -> inode) (N : Z -> Z) (b : Z) : Prop := forall n, used s I n -> ~ owns s (I n) (N n) b.
(** All files but [n] are as before. *)
Definition others_same (I : Z -> inode) (N : Z -> Z) (n : Z) (s s' : fs) : Prop :=
  forall m, used s I m -> m <> n -> same_file s s' (I m) (N m).

(** Free blocks. *)
Definition nfreeb (s : fs) : Z := Z.of_nat (length (filter (fun b => inuse s b = false) (seqZ 0 (sb_size (sblock s))))).

(** A step keeps the store when it keeps the files and the areas of inodes and map. *)
Lemma store_frame s s' I N : store_ok s I N -> steady s s' -> bitmap_ok s' -> sb_current s' ->
  (forall n, 1 <= n < sb_ninodes (sblock s) -> length (view s' (IBLOCK n (sblock s))) = 512%nat) ->
  (forall b, 0 <= b < sb_size (sblock s) -> inuse s b = true -> inuse s' b = true) ->
  (forall m, used s I m -> same_file s s' (I m) (N m)) -> store_ok s' I N.
Proof.
  intros S D Hm Hs Hl Hu Hf. pose proof (sd_sb _ _ D) as Es. split; [done|done|by rewrite (sd_size _ _ D); apply S| |..].
  - apply Hu; [pose proof (bo_size _ (so_map _ _ _ S)); lia|apply S].
  - intros n Hn. rewrite Es in *. destruct (so_iblock _ _ _ S n Hn) as (B1 & B2 & B3 & B4 & B5).
    split; [by apply (steady_home s)|]. split; [done|]. split; [by apply Hl|]. split; [by apply Hu|done].
  - intros n Hn. unfold used in Hn. rewrite Es in Hn. apply (alloc_frame s); [by apply S|done|by apply Hf|].
    intros b Hb. destruct (ao_data _ _ _ (so_file _ _ _ S n Hn) b Hb) as [B1 B2 B3 B4 B5]. apply Hu; [lia|done].
  - intros n m b Hn Hmm. unfold used in Hn, Hmm. rewrite Es in Hn, Hmm.
    rewrite (same_owns s s' (I n) (N n)) by (apply S || apply Hf; done). rewrite (same_owns s s' (I m) (N m)) by (apply S || apply Hf; done).
    by apply (so_owner _ _ _ S).
Qed.

(** ** A block taken from the map *)

Definition zeros : list Z := replicate (Z.to_nat BSIZE) 0.
Definition allocs (r : Z) (s s' : fs) : Prop := first_free s r /\ fstep [(BBLOCK r (sblock s), marked s r Z.lor); (r, zeros)] s s'.

Lemma allocs_view r s s' b : bitmap_ok s -> allocs r s s' ->
  view s' b = if b =? r then zeros else if b =? BBLOCK r (sblock s) then marked s r Z.lor else view s b.
Proof.
  intros Ho [(Hr & Hf & _) F]. rewrite (fs_view _ _ _ F). cbn [apply_writes].
  destruct (Z.eqb_spec b r) as [->|Hne]; [apply zfn_insert_eq|rewrite zfn_insert_ne by congruence].
  destruct (Z.eqb_spec b (BBLOCK r (sblock s))) as [->|]; [apply zfn_insert_eq|by rewrite zfn_insert_ne by congruence].
Qed.

Lemma allocs_inuse r s s' c : bitmap_ok s -> allocs r s s' -> 0 <= c < sb_size (sblock s) -> inuse s' c = (c =? r) || inuse s c.
Proof. intros Ho [Hr F]. by apply (balloc_inuse s s' r Ho Hr F). Qed.

Lemma allocs_bitmap r s s' : bitmap_ok s -> allocs r s s' -> bitmap_ok s'.
Proof.
  intros Ho Ha. pose proof Ha as [(Hr & Hf & _) F]. pose proof (steady_fstep _ _ _ F) as D. pose proof Ho as [H1 H2 H3 H4 H5].
  destruct (H5 r Hr Hf) as [_ Hnm]. split; rewrite ?(sd_sb _ _ D), ?(sd_size _ _ D); [done|done|..].
  - intros b Hb. apply (steady_home s); [done|by apply H3].
  - intros b Hb. rewrite (allocs_view r s s') by done. destruct (Z.eqb_spec (BBLOCK b (sblock s)) r) as [E|_]; [done|].
    destruct (Z.eqb_spec (BBLOCK b (sblock s)) (BBLOCK r (sblock s))); [|by apply H4]. unfold marked. rewrite length_wr8. by apply H4.
  - intros b Hb Hu. rewrite (allocs_inuse r s s') in Hu by done. apply orb_false_iff in Hu as [_ Hu].
    destruct (H5 b Hb Hu) as [A B]. split; [by apply (steady_home s)|done].
Qed.

Lemma owned_not_free s I N n b r : store_ok s I N -> used s I n -> owns s (I n) (N n) b -> first_free s r -> b <> r.
Proof.
  intros S Hn Hb (Hr & Hf & _) ->. pose proof (db_used _ _ (ao_data _ _ _ (so_file _ _ _ S n Hn) r Hb)). congruence.
Qed.
Lemma owned_not_map s I N n b c : store_ok s I N -> used s I n -> owns s (I n) (N n) b -> 0 <= c < sb_size (sblock s) -> b <> BBLOCK c (sblock s).
Proof. intros S Hn Hb Hc ->. apply (db_meta _ _ (ao_data _ _ _ (so_file _ _ _ S n Hn) _ Hb)). right. by exists c. Qed.

Lemma allocs_store r s s' I N : store_ok s I N -> allocs r s s' ->
  store_ok s' I N /\ data_block s' r /\ unowned s' I N r /\ view s' r = zeros /\ (forall m, used s I m -> same_file s s' (I m) (N m)) /\
  (forall n, 1 <= n < sb_ninodes (sblock s) -> view s' (IBLOCK n (sblock s)) = view s (IBLOCK n (sblock s))).
Proof.
  intros S Ha. pose proof Ha as [Hff F]. pose proof Hff as (Hr & Hf & _). pose proof (so_map _ _ _ S) as Ho. pose proof (steady_fstep _ _ _ F) as D.
  destruct (bo_free _ Ho r Hr Hf) as [Hh Hnm].
  assert (Sf : forall m, used s I m -> same_file s s' (I m) (N m)).
  { intros m Hm b Hb. rewrite (allocs_view r s s') by done. destruct (Z.eqb_spec b r) as [->|]; [destruct (owned_not_free _ _ _ _ _ _ S Hm Hb Hff); done|].
    destruct (Z.eqb_spec b (BBLOCK r (sblock s))) as [E|]; [destruct (owned_not_map _ _ _ _ _ r S Hm Hb Hr E)|done]. }
  assert (Hi : forall n, 1 <= n < sb_ninodes (sblock s) -> IBLOCK n (sblock s) <> r /\ view s' (IBLOCK n (sblock s)) = view s (IBLOCK n (sblock s))).
  { intros n Hn. destruct (so_iblock _ _ _ S n Hn) as (B1 & B2 & B3 & B4 & B5). rewrite (allocs_view r s s') by done.
    destruct (Z.eqb_spec (IBLOCK n (sblock s)) r) as [E|]; [rewrite E, Hf in B4; done|].
    destruct (Z.eqb_spec (IBLOCK n (sblock s)) (BBLOCK r (sblock s))) as [E|]; [destruct (B5 r Hr); done|done]. }
  assert (V1 : view s' 1 = view s 1).
  { rewrite (allocs_view r s s') by done. destruct Hh as (_ & _ & Hr1). destruct (bo_home _ Ho r Hr) as (_ & _ & Hm1).
    destruct (Z.eqb_spec 1 r); [congruence|]. destruct (Z.eqb_spec 1 (BBLOCK r (sblock s))); [congruence|done]. }
  assert (S' : store_ok s' I N).
  { apply (store_frame s); [done|done|by apply (allocs_bitmap r s)| | | |done].
    - destruct (so_sb _ _ _ S) as [C1 C2]. split; [by rewrite V1, (sd_sb _ _ D)|by rewrite (sd_size _ _ D)].
    - intros n Hn. destruct (Hi n Hn) as [_ ->]. apply (so_iblock _ _ _ S n Hn).
    - intros b Hb Hu. rewrite (allocs_inuse r s s') by done. rewrite Hu. apply orb_true_r. }
  split; [done|]. split; [|split; [|split; [|split; [done|intros n Hn; by apply Hi]]]].
  - split; [by apply (steady_home s)| | | |].
    + rewrite (sd_sb _ _ D). destruct (Z.eq_dec r 0) as [->|]; [|lia].
      rewrite (so_boot _ _ _ S) in Hf. done.
    + rewrite (allocs_inuse r s s') by done. by rewrite Z.eqb_refl.
    + rewrite (allocs_view r s s'), Z.eqb_refl by done. done.
    + rewrite (steady_meta _ _ _ D). intros [(n & Hn & E)|(c & Hc & E)]; [by destruct (Hi n Hn)|destruct (Hnm c Hc); done].
  - intros n Hn Hb. assert (Hn' : used s I n) by (unfold used in *; by rewrite <- (sd_sb _ _ D)).
    apply (same_owns s s' (I n) (N n)) in Hb; [|by apply S|by apply Sf]. by apply (owned_not_free _ _ _ _ _ _ S Hn' Hb Hff).
  - rewrite (allocs_view r s s'), Z.eqb_refl by done. done.
Qed.

(** ** One file changes *)

Lemma addr_at_set k a p j : 0 <= k < Z.of_nat (length (iaddrs p)) -> 0 <= j -> addr_at (set_addr k a p) j = if j =? k then a else addr_at p j.
Proof.
  intros Hk Hj. unfold addr_at, set_addr. cbn [iaddrs set_iaddrs]. destruct (Z.eqb_spec j k) as [->|Hne].
  - rewrite list_lookup_insert_eq by lia. done.
  - by rewrite list_lookup_insert_ne by lia.
Qed.

Section One.
Context (I : Z -> inode) (N : Z -> Z) (n : Z).

(** The store, with [p] and its [nb] blocks as file [n]. *)
Definition filed (s : fs) (p : inode) (nb : Z) : Prop := store_ok s (<[n := p]> I) (<[n := nb]> N) /\ 1 <= n < sb_ninodes (sblock s) /\ itype p <> 0.

Lemma filed_used s p nb : filed s p nb -> used s (<[n := p]> I) n.
Proof. intros (_ & H & Ht). split; [done|]. by rewrite zfn_insert_eq. Qed.
Lemma filed_alloc s p nb : filed s p nb -> alloc_ok s p nb.
Proof.
  intros F. pose proof (so_file _ _ _ (proj1 F) n (filed_used _ _ _ F)) as A. by rewrite !zfn_insert_eq in A.
Qed.
Lemma filed_other s p nb m : filed s p nb -> m <> n -> used s I m -> alloc_ok s (I m) (N m).
Proof.
  intros F Hne [H1 H2]. assert (U : used s (<[n := p]> I) m) by (split; [done|by rewrite zfn_insert_ne by congruence]).
  pose proof (so_file _ _ _ (proj1 F) m U) as A. by rewrite !zfn_insert_ne in A by congruence.
Qed.

(** Block [b] is in no file. *)
Definition fresh (s : fs) (p : inode) (nb b : Z) : Prop := ~ owns s p nb b /\ forall m, m <> n -> used s I m -> ~ owns s (I m) (N m) b.
Lemma fresh_unowned s p nb b : filed s p nb -> unowned s (<[n := p]> I) (<[n := nb]> N) b -> fresh s p nb b.
Proof.
  intros F U. split.
  - pose proof (U n (filed_used _ _ _ F)) as X. by rewrite !zfn_insert_eq in X.
  - intros m Hne [H1 H2]. assert (Um : used s (<[n := p]> I) m) by (split; [done|by rewrite zfn_insert_ne by congruence]).
    pose proof (U m Um) as X. by rewrite !zfn_insert_ne in X by congruence.
Qed.
(** All other files stay. *)
Definition keeps (s s' : fs) : Prop := forall m, m <> n -> used s I m -> same_file s s' (I m) (N m).

(** Inode and map areas stay in order. *)
Record areas (s s' : fs) : Prop := mkareas {
  ar_steady : steady s s'; ar_map : bitmap_ok s'; ar_sb : sb_current s';
  ar_iblock : forall m, 1 <= m < sb_ninodes (sblock s) -> view s' (IBLOCK m (sblock s)) = view s (IBLOCK m (sblock s));
  ar_used : forall b, 0 <= b < sb_size (sblock s) -> inuse s b = true -> inuse s' b = true }.

Lemma filed_update s s' p nb p' nb' : filed s p nb -> areas s s' -> keeps s s' -> itype p' <> 0 -> alloc_ok s' p' nb' ->
  (forall b, owns s' p' nb' b -> owns s p nb b \/ fresh s p nb b) -> filed s' p' nb'.
Proof.
  intros F [D Hm Hs Hi Hu] K Ht A Ho. pose proof F as (S & Hn & Ht0). pose proof (sd_sb _ _ D) as Es.
  split; [|by rewrite Es]. split; [done|done|rewrite (sd_size _ _ D); apply S| |..].
  - apply Hu; [pose proof (bo_size _ (so_map _ _ _ S)); lia|apply S].
  - intros m Hm'. rewrite Es in *. destruct (so_iblock _ _ _ S m Hm') as (B1 & B2 & B3 & B4 & B5).
    split; [by apply (steady_home s)|]. split; [done|]. split; [by rewrite Hi|]. split; [by apply Hu|done].
  - intros m [U1 U2]. rewrite Es in U1. destruct (decide (m = n)) as [->|Hne]; [by rewrite !zfn_insert_eq|].
    rewrite !zfn_insert_ne in * by congruence. pose proof (filed_other s p nb m F Hne (conj U1 U2)) as Am.
    apply (alloc_frame s); [done|done|by apply K|]. intros b Hb. destruct (ao_data _ _ _ Am b Hb) as [C1 C2 C3 C4 C5]. apply Hu; [lia|done].
  - assert (X : forall m b, m <> n -> used s' (<[n := p']> I) m -> owns s' p' nb' b -> owns s' (I m) (N m) b -> False).
    { intros m b Hne [U1 U2] Hb Hbm. rewrite Es in U1. rewrite zfn_insert_ne in U2 by congruence.
      pose proof (filed_other s p nb m F Hne (conj U1 U2)) as Am. apply (same_owns s s') in Hbm; [|done|by apply K].
      destruct (Ho b Hb) as [Hp|[_ Hf]]; [|by apply (Hf m Hne (conj U1 U2))]. apply Hne.
      apply (so_owner _ _ _ S m n b); [split; [done|by rewrite zfn_insert_ne by congruence]|by apply (filed_used s p nb)|..].
      - by rewrite !zfn_insert_ne by congruence.
      - by rewrite !zfn_insert_eq. }
    intros m1 m2 b U1 U2 O1 O2. destruct (decide (m1 = n)) as [->|H1], (decide (m2 = n)) as [->|H2]; [done| | |].
    + rewrite !zfn_insert_eq in O1. rewrite !zfn_insert_ne in O2 by congruence. by destruct (X m2 b).
    + rewrite !zfn_insert_eq in O2. rewrite !zfn_insert_ne in O1 by congruence. by destruct (X m1 b).
    + destruct U1 as [U1 U1'], U2 as [U2 U2']. rewrite Es in *. rewrite !zfn_insert_ne in * by congruence.
      pose proof (filed_other s p nb m1 F H1 (conj U1 U1')) as A1. pose proof (filed_other s p nb m2 F H2 (conj U2 U2')) as A2.
      apply (same_owns s s') in O1; [|done|by apply K]. apply (same_owns s s') in O2; [|done|by apply K].
      apply (so_owner _ _ _ S m1 m2 b); [split; [done|by rewrite zfn_insert_ne by congruence]|split; [done|by rewrite zfn_insert_ne by congruence]|..];
        by rewrite !zfn_insert_ne by congruence.
Qed.

(** Steps that change nothing. *)
Lemma areas_refl s p nb : filed s p nb -> areas s s.
Proof. intros (S & _). split; [by split|apply S|apply S|done|done]. Qed.
Lemma keeps_refl s : keeps s s.
Proof. by intros m _ _ b _. Qed.

(** A block of file [n] is written. *)
Lemma owned_write s s' p nb b d : filed s p nb -> owns s p nb b -> fstep [(b, d)] s s' ->
  areas s s' /\ keeps s s' /\ (forall c, view s' c = if c =? b then d else view s c) /\
  (forall c, 0 <= c < sb_size (sblock s) -> inuse s' c = inuse s c).
Proof.
  intros F Hb Fs. pose proof F as (S & Hn & Ht). pose proof (steady_fstep _ _ _ Fs) as D.
  destruct (ao_data _ _ _ (filed_alloc _ _ _ F) b Hb) as [B1 B2 B3 B4 B5].
  destruct (plain_write s s' _ _ b d S B1) as (M & C & V & U); [intros c Hc <-; apply B5; right; by exists c|done|].
  split; [|split; [|done]].
  - split; [done|done|done| |].
    + intros m Hm. rewrite V. destruct (Z.eqb_spec (IBLOCK m (sblock s)) b) as [<-|]; [|done]. destruct B5. left. by exists m.
    + intros c Hc. by rewrite U.
  - intros m Hne Um c Hc. rewrite V. destruct (Z.eqb_spec c b) as [->|]; [|done]. exfalso. apply Hne.
    apply (so_owner _ _ _ S m n b); [destruct Um; split; [done|by rewrite zfn_insert_ne by congruence]|by apply (filed_used s p nb)|..].
    + by rewrite !zfn_insert_ne by congruence.
    + by rewrite !zfn_insert_eq.
Qed.

(** A new block becomes block [nb] of the file, one of the first twelve. *)
Lemma attach_direct s p nb r : filed s p nb -> nb < NDIRECT -> data_block s r -> fresh s p nb r ->
  let p' := set_addr nb r p in
  filed s p' (nb + 1) /\ file_block s p' nb = r /\ forall k, 0 <= k < nb -> file_block s p' k = file_block s p k.
Proof.
  intros F Hnb Hd Hf p'. pose proof (filed_alloc _ _ _ F) as A. pose proof A as [A1 A2 A3 A4 A5 A6 A7 A8]. unfold NDIRECT in Hnb.
  assert (Ea : forall j, 0 <= j -> addr_at p' j = if j =? nb then r else addr_at p j) by (intros j Hj; apply addr_at_set; lia).
  assert (En : addr_at p' NDIRECT = addr_at p NDIRECT) by (rewrite Ea by (unfold NDIRECT; lia); destruct (Z.eqb_spec NDIRECT nb); [unfold NDIRECT in *; lia|done]).
  assert (Ek : forall k, 0 <= k < nb -> file_block s p' k = file_block s p k).
  { intros k Hk. unfold file_block, NDIRECT. destruct (Z.ltb_spec k 12); [|lia]. rewrite Ea by lia. destruct (Z.eqb_spec k nb); [lia|done]. }
  assert (Er : file_block s p' nb = r) by (unfold file_block, NDIRECT; destruct (Z.ltb_spec nb 12); [|lia]; rewrite Ea, Z.eqb_refl by lia; done).
  assert (Ho : forall b, owns s p' (nb + 1) b -> owns s p nb b \/ b = r).
  { intros b [(k & Hk & ->)|[H1 H2]]; [|left; right; by rewrite <- En]. destruct (decide (k = nb)) as [->|]; [by right|].
    left. left. exists k. split; [lia|]. apply Ek. lia. }
  assert (Hk0 : forall k, 0 <= k < nb -> owns s p nb (file_block s p k)) by (intros k Hk; left; by exists k).
  split; [|done]. apply (filed_update s s p nb); [done|by apply (areas_refl _ p nb)|apply keeps_refl|apply F| |].
  - split.
    + cbn. by rewrite length_insert.
    + unfold MAXFILE, NDIRECT, NINDIRECT in *. change (BSIZE / 4) with 128 in *. lia.
    + intros b Hb. destruct (Ho b Hb) as [Hb'| ->]; [by apply A3|done].
    + unfold NDIRECT. lia.
    + intros k Hk. rewrite Ea by lia. destruct (Z.eqb_spec k nb); [lia|]. apply A5. lia.
    + intros k Hk Hk12. rewrite En. apply A6; [lia|done].
    + intros k j Hk Hj E. destruct (decide (k = nb)) as [->|], (decide (j = nb)) as [->|]; [done| | |].
      * exfalso. rewrite Er, Ek in E by lia. apply (proj1 Hf). rewrite E. apply Hk0. lia.
      * exfalso. rewrite Er, Ek in E by lia. apply (proj1 Hf). rewrite <- E. apply Hk0. lia.
      * rewrite !Ek in E by lia. apply A7; [lia|lia|done].
    + intros k Hk. rewrite En. destruct (decide (k = nb)) as [->|]; [|rewrite Ek by lia; apply A8; lia].
      rewrite Er. intros E. apply (proj1 Hf). right. split; [|done]. pose proof (db_range _ _ Hd). lia.
  - intros b Hb. destruct (Ho b Hb) as [Hb'| ->]; auto.
Qed.

Lemma rd32_zeros o : 0 <= o -> rd32 zeros o = 0.
Proof.
  intros Ho. assert (B : forall k, 0 <= k -> byte_at zeros k = 0).
  { intros k Hk. unfold byte_at, zeros. destruct (replicate _ _ !! _) as [x|] eqn:E; [|done]. by apply lookup_replicate in E as [-> _]. }
  unfold rd32. by rewrite !B by lia.
Qed.

(** A new block of zeros becomes the indirect block. *)
Lemma attach_indirect s p nb r : filed s p nb -> addr_at p NDIRECT = 0 -> data_block s r -> fresh s p nb r -> view s r = zeros ->
  let p' := set_addr NDIRECT r p in filed s p' nb /\ addr_at p' NDIRECT = r /\ forall k, 0 <= k < nb -> file_block s p' k = file_block s p k.
Proof.
  intros F Ha Hd Hf Hz p'. pose proof (filed_alloc _ _ _ F) as A. pose proof A as [A1 A2 A3 A4 A5 A6 A7 A8].
  assert (Hnb : nb <= NDIRECT) by (destruct (Z.le_gt_cases nb NDIRECT); [done|]; destruct A4; [lia|done]). unfold NDIRECT in Hnb.
  assert (Ea : forall j, 0 <= j -> addr_at p' j = if j =? NDIRECT then r else addr_at p j) by (intros j Hj; apply addr_at_set; [unfold NDIRECT|]; lia).
  assert (En : addr_at p' NDIRECT = r) by (by rewrite Ea, Z.eqb_refl by (unfold NDIRECT; lia)).
  assert (Ek : forall k, 0 <= k < nb -> file_block s p' k = file_block s p k).
  { intros k Hk. unfold file_block. rewrite Ea by lia. unfold NDIRECT. destruct (Z.ltb_spec k 12); [|lia]. destruct (Z.eqb_spec k 12); [lia|done]. }
  assert (Ho : forall b, owns s p' nb b -> owns s p nb b \/ b = r).
  { intros b [(k & Hk & ->)|[_ ->]]; [|right; done]. left. left. exists k. split; [done|]. by apply Ek. }
  split; [|done]. apply (filed_update s s p nb); [done|by apply (areas_refl _ p nb)|apply keeps_refl|apply F| |].
  - split.
    + cbn. by rewrite length_insert.
    + done.
    + intros b Hb. destruct (Ho b Hb) as [Hb'| ->]; [by apply A3|done].
    + unfold NDIRECT. lia.
    + intros k Hk. rewrite Ea by lia. destruct (Z.eqb_spec k NDIRECT); [lia|]. apply A5. lia.
    + intros k Hk Hk12 _. rewrite En, Hz. apply rd32_zeros. lia.
    + intros k j Hk Hj. rewrite !Ek by done. by apply A7.
    + intros k Hk. rewrite En, Ek by done. intros E. apply (proj1 Hf). left. by exists k.
  - intros b Hb. destruct (Ho b Hb) as [Hb'| ->]; auto.
Qed.

(** A new block becomes block [nb] of the file through the indirect block. *)
Lemma attach_entry s s' p nb r : filed s p nb -> NDIRECT <= nb < MAXFILE -> addr_at p NDIRECT <> 0 -> data_block s r -> fresh s p nb r ->
  fstep [(addr_at p NDIRECT, wr32 (view s (addr_at p NDIRECT)) (4 * (nb - NDIRECT)) r)] s s' ->
  filed s' p (nb + 1) /\ areas s s' /\ keeps s s' /\ file_block s' p nb = r /\ (forall k, 0 <= k < nb -> file_block s' p k = file_block s p k) /\
  (forall b, b <> addr_at p NDIRECT -> view s' b = view s b) /\ (forall c, 0 <= c < sb_size (sblock s) -> inuse s' c = inuse s c).
Proof.
  intros F Hnb Ha Hd Hf Fs. pose proof (filed_alloc _ _ _ F) as A. pose proof A as [A1 A2 A3 A4 A5 A6 A7 A8].
  assert (Oa : owns s p nb (addr_at p NDIRECT)) by (by right).
  destruct (owned_write s s' p nb _ _ F Oa Fs) as (Ar & K & V & U). destruct (A3 _ Oa) as [D1 D2 D3 D4 D5].
  set (a := addr_at p NDIRECT) in *. change MAXFILE with 140 in *. change NDIRECT with 12 in *.
  assert (Rr : r <> a) by (intros ->; by apply (proj1 Hf)). pose proof (db_range _ _ Hd) as Hr.
  assert (Hr32 : u32 r = r) by (apply u32_small; pose proof (bo_size _ (so_map _ _ _ (proj1 F))); pose proof (so_size _ _ _ (proj1 F)); lia).
  assert (Ent : forall j, 12 <= j < 140 -> rd32 (view s' a) (4 * (j - 12)) = if j =? nb then r else rd32 (view s a) (4 * (j - 12))).
  { intros j Hj. rewrite V, Z.eqb_refl. destruct (Z.eqb_spec j nb) as [->|]; [rewrite rd32_wr32 by (rewrite ?D4; lia); done|]. by rewrite rd32_wr32_ne by lia. }
  assert (Er : file_block s' p nb = r) by (unfold file_block; change NDIRECT with 12; destruct (Z.ltb_spec nb 12); [lia|]; fold a; rewrite Ent, Z.eqb_refl by lia; done).
  assert (Ek : forall k, 0 <= k < nb -> file_block s' p k = file_block s p k).
  { intros k Hk. unfold file_block. change NDIRECT with 12. destruct (Z.ltb_spec k 12); [done|]. fold a. rewrite Ent by lia. destruct (Z.eqb_spec k nb); [lia|done]. }
  assert (Vd : forall b, b <> a -> view s' b = view s b) by (intros b Hb; rewrite V; destruct (Z.eqb_spec b a); done).
  assert (Ho : forall b, owns s' p (nb + 1) b -> owns s p nb b \/ b = r).
  { intros b [(k & Hk & ->)|[_ ->]]; [|left; done]. destruct (decide (k = nb)) as [->|]; [by right|]. left. left. exists k. split; [lia|]. apply Ek. lia. }
  assert (Db : forall b, data_block s b -> data_block s' b).
  { intros b [B1 B2 B3 B4 B5]. pose proof (ar_steady _ _ Ar) as D. split; [by apply (steady_home s)|by rewrite (sd_sb _ _ D)|rewrite U by lia; done| |by rewrite (steady_meta _ _ _ D)].
    rewrite V. destruct (b =? a); [by rewrite length_wr32|done]. }
  split; [|done]. apply (filed_update s s' p nb); [done|done|done|apply F| |].
  - split; change NDIRECT with 12; change MAXFILE with 140; fold a.
    + done.
    + lia.
    + intros b Hb. destruct (Ho b Hb) as [Hb'| ->]; apply Db; [by apply A3|done].
    + done.
    + intros k Hk. lia.
    + intros k Hk Hk12 _. rewrite Ent by lia. destruct (Z.eqb_spec k nb); [lia|]. apply A6; [lia|done|done].
    + intros k j Hk Hj E. destruct (decide (k = nb)) as [->|], (decide (j = nb)) as [->|]; [done| | |].
      * exfalso. rewrite Er, Ek in E by lia. apply (proj1 Hf). rewrite E. left. exists j. split; [lia|done].
      * exfalso. rewrite Er, Ek in E by lia. apply (proj1 Hf). rewrite <- E. left. exists k. split; [lia|done].
      * rewrite !Ek in E by lia. apply A7; [lia|lia|done].
    + intros k Hk. destruct (decide (k = nb)) as [->|]; [by rewrite Er|]. rewrite Ek by lia. apply A8. lia.
  - intros b Hb. destruct (Ho b Hb) as [Hb'| ->]; auto.
Qed.

(** A data block of the file is written. *)
Lemma write_block s s' p nb k d : filed s p nb -> 0 <= k < nb -> length d = 512%nat -> fstep [(file_block s p k, d)] s s' ->
  filed s' p nb /\ areas s s' /\ keeps s s' /\ (forall j, 0 <= j < nb -> file_block s' p j = file_block s p j) /\
  (forall b, view s' b = if b =? file_block s p k then d else view s b) /\ (forall c, 0 <= c < sb_size (sblock s) -> inuse s' c = inuse s c).
Proof.
  intros F Hk Hd Fs. pose proof (filed_alloc _ _ _ F) as A. pose proof A as [A1 A2 A3 A4 A5 A6 A7 A8].
  assert (Ob : owns s p nb (file_block s p k)) by (left; by exists k).
  destruct (owned_write s s' p nb _ _ F Ob Fs) as (Ar & K & V & U). set (b0 := file_block s p k) in *.
  assert (Va : view s' (addr_at p NDIRECT) = view s (addr_at p NDIRECT)) by (rewrite V; destruct (Z.eqb_spec (addr_at p NDIRECT) b0) as [E|]; [by destruct (A8 k Hk)|done]).
  assert (Ek : forall j, file_block s' p j = file_block s p j) by (intros j; unfold file_block; by rewrite Va).
  assert (Ho : forall b, owns s' p nb b -> owns s p nb b).
  { intros b [(j & Hj & ->)|X]; [|by right]. left. exists j. split; [done|]. apply Ek. }
  split; [|done]. apply (filed_update s s' p nb); [done|done|done|apply F| |auto].
  pose proof (ar_steady _ _ Ar) as D. split; [done|done| |done|done|by rewrite Va| |].
  - intros b Hb. destruct (A3 b (Ho b Hb)) as [B1 B2 B3 B4 B5].
    split; [by apply (steady_home s)|by rewrite (sd_sb _ _ D)|rewrite U by lia; done| |by rewrite (steady_meta _ _ _ D)].
    rewrite V. by destruct (b =? b0).
  - intros j1 j2 H1 H2. rewrite !Ek. by apply A7.
  - intros j Hj. rewrite Ek. by apply A8.
Qed.
End One.
