(* ===== verification/FsName.v ===== *)
(** * Directories and paths

    A directory is a file of 16-byte entries; [dirlookup] finds the first entry of a
    name.  Names are compared up to their first zero byte and at most [DIRSIZ] bytes.

    The inodes in use and their directories form a graph of names on the disk; [namex] walks it, through
    an inode cache that agrees with the disk, and keeps the counts of references right. *)

From S2P Require Import Prelude Mem Bio Log BioRules LogRules LogProps Fs FsRules FsFile FsProps FileProps MkfsLay MkfsProps.
Local Open Scope Z_scope.

(** ** Names *)

(** The string a field of [n] bytes holds. *)
Fixpoint cstr (n : nat) (s : list Z) : list Z :=
  match n with
  | O => []
  | S n' => if default 0 (head s) =? 0 then [] else default 0 (head s) :: cstr n' (tail s)
  end.
(** The name an element of a path, or the field of an entry, stands for. *)
Definition fname (s : list Z) : list Z := cstr (Z.to_nat DIRSIZ) s.

Lemma name_eq_cstr n : forall s t, name_eq n s t = true <-> cstr n s = cstr n t.
Proof.
  induction n as [|n IH]; intros s t; [easy|]. cbn [name_eq cstr]. set (a := default 0 (head s)). set (b := default 0 (head t)).
  rewrite andb_true_iff, orb_true_iff, IH, !Z.eqb_eq. destruct (Z.eqb_spec a 0) as [Ha|Ha], (Z.eqb_spec b 0) as [Hb|Hb].
  - rewrite Ha, Hb. tauto.
  - split; [lia|discriminate].
  - split; [lia|discriminate].
  - split; [intros (E1 & E2); destruct E2 as [E2|E2]; [lia|rewrite E1, E2; reflexivity]|]. intros E. injection E as E1 E2. auto.
Qed.

Lemma namecmp_fname s t : namecmp s t = bool_decide (fname s = fname t).
Proof. apply eq_bool_prop_intro. rewrite bool_decide_spec, Is_true_true. apply name_eq_cstr. Qed.

Lemma cstr_len n : forall s, (length (cstr n s) <= n)%nat.
Proof. induction n as [|n IH]; intros s; cbn; [lia|]. destruct (_ =? 0); cbn; [lia|]. specialize (IH (tail s)). lia. Qed.

Lemma dirname_cstr n : forall s, dirname n s = cstr n s ++ replicate (n - length (cstr n s)) 0.
Proof.
  induction n as [|n IH]; intros s; [reflexivity|]. cbn [dirname cstr]. destruct (_ =? 0); [reflexivity|]. cbn [app length Nat.sub].
  f_equal. apply IH.
Qed.

Lemma dirname_len n s : length (dirname n s) = n.
Proof. rewrite dirname_cstr, length_app, length_replicate. pose proof (cstr_len n s). lia. Qed.

(** Storing a name and reading it back. *)
Lemma cstr_dirname n : forall s, cstr n (dirname n s) = cstr n s.
Proof.
  induction n as [|n IH]; intros s; [reflexivity|]. cbn [dirname cstr]. destruct (Z.eqb_spec (default 0 (head s)) 0) as [E|E]; [reflexivity|].
  cbn. destruct (Z.eqb_spec (default 0 (head s)) 0); [done|]. f_equal. apply IH.
Qed.

Lemma fname_dirname s : fname (dirname (Z.to_nat DIRSIZ) s) = fname s.
Proof. apply cstr_dirname. Qed.

Lemma cstr_take n s : cstr n (take n s) = cstr n s.
Proof.
  revert s. induction n as [|n IH]; intros s; [reflexivity|]. destruct s as [|a s]; [reflexivity|]. cbn. destruct (a =? 0); [reflexivity|].
  f_equal. apply IH.
Qed.

(** ** Entries *)

Definition nents (p : inode) : Z := isize p / DIRENT.
(** [struct dirent] number [k]: the inode number and the name field. *)
Definition dent (s : fs) (p : inode) (k : Z) : Z * list Z :=
  let b := fbyte s p <$> seqZ (DIRENT * k) DIRENT in (rd16 b 0, drop 2 b).
(** Entry [k] is in use and has this name. *)
Definition names (s : fs) (p : inode) (name : list Z) (k : Z) : Prop :=
  fst (dent s p k) <> 0 /\ fname (snd (dent s p k)) = fname name.
#[global] Instance names_dec s p name k : Decision (names s p name k).
Proof. unfold names. apply _. Defined.
(** The first entry of the name, and the inode it leads to. *)
Definition dir_slot (s : fs) (p : inode) (name : list Z) : option Z := snd <$> list_find (names s p name) (seqZ 0 (nents p)).
Definition dir_find (s : fs) (p : inode) (name : list Z) : option Z := (fun k => fst (dent s p k)) <$> dir_slot s p name.

(** A directory in order. *)
Record dir_ok (s : fs) (p : inode) : Prop := mkdir_ok {
  do_file : file_ok s p;
  do_type : itype p = T_DIR;
  do_size : isize p mod DIRENT = 0 }.

Lemma dir_size s p : dir_ok s p -> isize p = DIRENT * nents p.
Proof. intros [_ _ H]. unfold nents. pose proof (Z.div_mod (isize p) DIRENT ltac:(easy)). lia. Qed.

Lemma dent_same s s' p k : fstep [] s s' -> dent s' p k = dent s p k.
Proof. intros F. unfold dent. rewrite (list_fmap_ext (fbyte s' p) (fbyte s p)); [done|]. intros. by apply fbyte_same. Qed.

Lemma names_same s s' p name k : fstep [] s s' -> names s' p name k <-> names s p name k.
Proof. intros F. unfold names. by rewrite (dent_same _ _ _ _ F). Qed.

Lemma dir_slot_some s p name k : dir_slot s p name = Some k ->
  0 <= k < nents p /\ names s p name k /\ forall j, 0 <= j < k -> ~ names s p name j.
Proof.
  unfold dir_slot. destruct (list_find _ _) as [[i k']|] eqn:E; [|done]. intros [= ->].
  apply list_find_Some in E as (E & Hn & Hj). apply lookup_seqZ in E as [-> Hi]. split; [lia|]. split; [done|].
  intros j Hj0. apply (Hj (Z.to_nat j)); [|lia]. apply lookup_seqZ. lia.
Qed.

Lemma dir_slot_none s p name : dir_slot s p name = None -> forall k, 0 <= k < nents p -> ~ names s p name k.
Proof.
  unfold dir_slot. destruct (list_find _ _) as [[i k']|] eqn:E; [done|]. intros _ k Hk.
  apply list_find_None in E. rewrite Forall_forall in E. apply E, elem_of_seqZ. lia.
Qed.

Lemma dir_slot_intro s p name k : 0 <= k < nents p -> names s p name k -> (forall j, 0 <= j < k -> ~ names s p name j) ->
  dir_slot s p name = Some k.
Proof.
  intros Hk Hn Hj. destruct (dir_slot s p name) as [i|] eqn:E.
  - apply dir_slot_some in E as (Hi & Hin & Hij). f_equal. destruct (Z.lt_trichotomy i k) as [H|[H|H]]; [|done|].
    + destruct (Hj i); [lia|done].
    + destruct (Hij k); [lia|done].
  - destruct (dir_slot_none _ _ _ E k Hk Hn).
Qed.

Lemma dir_slot_intro_none s p name : (forall k, 0 <= k < nents p -> ~ names s p name k) -> dir_slot s p name = None.
Proof.
  intros H. destruct (dir_slot s p name) as [i|] eqn:E; [|done]. apply dir_slot_some in E as (Hi & Hn & _). destruct (H i Hi Hn).
Qed.

(** ** Looking up a name *)

Section Lookup.
Context (pid : Z) (dev_read : Z -> option (Z -> M fs (Z * list Z))).
Context (dp : nat) (p : inode).

(** Reading one entry. *)
Lemma read_dent {A} m i s (k : Z * list Z -> M fs A) Q : opened dp p m s -> 0 <= i -> DIRENT * i + DIRENT <= isize p ->
  (forall s', opened dp p m s' -> fstep [] s s' -> wp (k (DIRENT, fbyte s p <$> seqZ (DIRENT * i) DIRENT)) Q s') ->
  wp (r <- readi pid dev_read dp (DIRENT * i) DIRENT ;; k r) Q s.
Proof.
  intros Ho Hi Hsz HQ. pose proof Ho as (T & E & H). pose proof (fo_size _ _ H) as Hmax. change (MAXFILE * BSIZE) with 71680 in Hmax.
  change DIRENT with 16 in *. apply wp_bind. eapply wp_mono; [apply (readi_ok pid dev_read (fun _ => None) dp p m (16 * i) 16 s Ho); lia|].
  cbv zeta. rewrite Z.min_l by lia. intros r s' (-> & T' & F). apply HQ; [|done]. by eapply opened_same.
Qed.

Lemma dirlookup_loop_ok name f : forall m i s, opened dp p m s -> isize p mod DIRENT = 0 -> 0 <= i <= nents p ->
  nents p - i < Z.of_nat f -> (forall j, 0 <= j < i -> ~ names s p name j) ->
  wp (dirlookup_loop pid dev_read f dp name (DIRENT * i)) (fun r s' => trans m s' /\ fstep [] s s' /\
    r = (fun k => (fst (dent s p k), DIRENT * k)) <$> dir_slot s p name) s.
Proof.
  induction f as [|f IH]; intros m i s Ho Hsz Hi Hf Hj; [lia|]. cbn [dirlookup_loop].
  pose proof (Z.div_mod (isize p) DIRENT ltac:(easy)) as Hd. fold (nents p) in Hd. rewrite Hsz in Hd.
  apply wp_bind, wp_gets. pose proof Ho as (T & E & H). rewrite E. destruct (Z.ltb_spec (DIRENT * i) (isize p)) as [Hlt|Hge].
  - change DIRENT with 16 in Hd, Hlt. apply (read_dent m); [done|lia|change DIRENT with 16; lia|]. intros s1 O1 F1. cbn [fst snd].
    rewrite Z.eqb_refl. cbn [negb]. change (rd16 (fbyte s p <$> seqZ (DIRENT * i) DIRENT) 0) with (fst (dent s p i)).
    change (drop 2 (fbyte s p <$> seqZ (DIRENT * i) DIRENT)) with (snd (dent s p i)).
    assert (Hnext : ~ names s p name i -> wp (dirlookup_loop pid dev_read f dp name (DIRENT * i + DIRENT)) (fun r s' => trans m s' /\ fstep [] s s' /\
      r = (fun k => (fst (dent s p k), DIRENT * k)) <$> dir_slot s p name) s1).
    { intros Hno. replace (DIRENT * i + DIRENT) with (DIRENT * (i + 1)) by lia.
      eapply wp_mono; [apply (IH m (i + 1) s1 O1 Hsz); [lia|lia|]|].
      - intros j Hj'. rewrite (names_same _ _ _ _ _ F1). destruct (decide (j = i)) as [->|]; [done|]. apply Hj. lia.
      - intros r s' (T' & F' & ->). split; [done|]. split; [exact (fstep_trans _ _ _ _ _ F1 F')|].
        unfold dir_slot. rewrite (list_find_ext (names s1 p name) (names s p name)) by (intros; apply (names_same _ _ _ _ _ F1)).
        destruct (snd <$> _); [|done]. cbn [fmap option_fmap option_map]. by rewrite (dent_same _ _ _ _ F1). }
    destruct (Z.eqb_spec (fst (dent s p i)) 0) as [Hz|Hnz].
    + apply Hnext. unfold names. lia.
    + rewrite namecmp_fname. case_bool_decide as Hn.
      * apply wp_pure. split; [apply O1|]. split; [done|]. rewrite (dir_slot_intro s p name i); [done|lia|by split|done].
      * apply Hnext. intros [_ Hc]. congruence.
  - change DIRENT with 16 in Hge, Hd. apply wp_pure. split; [done|]. split; [apply fstep_refl|].
    rewrite dir_slot_intro_none; [done|]. intros k Hk. apply Hj. lia.
Qed.
End Lookup.

(** ** The graph of names *)


(** ** Inodes on the disk *)

(** Inode [n] as the disk has it. *)
Definition dino (s : fs) (n : Z) : inode :=
  dec_dinode (view s (IBLOCK n (sblock s))) (n mod IPB * DINODE) (mkinode 1 n 0 (mksl false 0) true 0 0 0 0 0 []).
(** The same inode, as far as the disk goes. *)
Record like (p q : inode) : Prop := mklike {
  lk_type : itype p = itype q; lk_major : imajor p = imajor q; lk_minor : iminor p = iminor q; lk_nlink : inlink p = inlink q;
  lk_size : isize p = isize q; lk_addrs : iaddrs p = iaddrs q }.
(** An inode in use. *)
Definition live (s : fs) (n : Z) : Prop := 1 <= n < sb_ninodes (sblock s) /\ itype (dino s n) <> 0.

Lemma addr_like p q k : like p q -> addr_at p k = addr_at q k.
Proof. intros [_ _ _ _ _ H]. unfold addr_at. by rewrite H. Qed.
Lemma block_like s p q k : like p q -> file_block s p k = file_block s q k.
Proof. intros L. unfold file_block. by rewrite !(addr_like _ _ _ L). Qed.
Lemma fbyte_like s p q j : like p q -> fbyte s p j = fbyte s q j.
Proof. intros L. unfold fbyte. by rewrite (block_like _ _ _ _ L). Qed.
Lemma dent_like s p q k : like p q -> dent s p k = dent s q k.
Proof. intros L. unfold dent. by rewrite (list_fmap_ext (fbyte s p) (fbyte s q)) by (intros; by apply fbyte_like). Qed.
Lemma file_like s p q : like p q -> idev p = 1 -> file_ok s q -> file_ok s p.
Proof.
  intros L Hd [F1 F2 F3 F4 F5 F6]. pose proof (lk_size _ _ L) as Es. assert (En : nblocks p = nblocks q) by (unfold nblocks; by rewrite Es).
  split; [done|by rewrite (lk_type _ _ L)|by rewrite Es|..]; rewrite En.
  - intros k Hk. rewrite (block_like _ _ _ _ L). auto.
  - intros Hn. rewrite (addr_like _ _ _ L). destruct (F5 Hn) as [A B]. split; [done|]. intros k Hk. rewrite (block_like _ _ _ _ L). auto.
  - intros k j Hk Hj. rewrite !(block_like _ _ _ _ L). auto.
Qed.
Lemma dir_slot_like s p q name : like p q -> dir_slot s p name = dir_slot s q name.
Proof.
  intros L. unfold dir_slot, nents. rewrite (lk_size _ _ L).
  by rewrite (list_find_ext (names s p name) (names s q name)) by (intros k; unfold names; by rewrite (dent_like _ _ _ _ L)).
Qed.

(** ** Steps that read *)

Lemma reads_dino s s' n : reads s s' -> dino s' n = dino s n.
Proof. intros F. unfold dino. rewrite (reads_view _ _ _ F), (fs_sb _ _ _ F). reflexivity. Qed.
Lemma reads_live s s' n : reads s s' -> live s' n <-> live s n.
Proof. intros F. unfold live. rewrite (reads_dino _ _ _ F), (fs_sb _ _ _ F). reflexivity. Qed.
Lemma reads_file s s' p : reads s s' -> file_ok s p -> file_ok s' p.
Proof. intros F [F1 F2 F3 F4 F5 F6]. apply (file_same _ _ _ F). by split. Qed.
Lemma reads_dent s s' p k : reads s s' -> dent s' p k = dent s p k.
Proof. intros F. apply (dent_same _ _ _ _ F). Qed.
Lemma reads_slot s s' p name : reads s s' -> dir_slot s' p name = dir_slot s p name.
Proof. intros F. unfold dir_slot. by rewrite (list_find_ext (names s' p name) (names s p name)) by (intros k; unfold names; by rewrite (reads_dent _ _ _ _ F)). Qed.

(** ** The graph of names *)

Record graph_ok (s : fs) : Prop := mkgraph {
  gr_block : forall n, 1 <= n < sb_ninodes (sblock s) -> 0 <= IBLOCK n (sblock s) < disksize s;
  gr_dir : forall n, live s n -> itype (dino s n) = T_DIR -> dir_ok s (dino s n);
  gr_entry : forall n k, live s n -> itype (dino s n) = T_DIR -> 0 <= k < nents (dino s n) -> let m := fst (dent s (dino s n) k) in
    m <> 0 -> live s m /\ inlink (dino s m) <> 0;
  gr_root : live s ROOTINO /\ inlink (dino s ROOTINO) <> 0 }.

(** Following names from inode [n]. *)
Fixpoint walk (s : fs) (n : Z) (es : list (list Z)) {struct es} : option Z :=
  match es with
  | [] => Some n
  | e :: es' => if itype (dino s n) =? T_DIR then match dir_find s (dino s n) e with Some m => walk s m es' | None => None end else None
  end.
(** The directory in which the last name is to be found. *)
Definition walk_parent (s : fs) (n : Z) (es : list (list Z)) : option Z :=
  match es with
  | [] => None
  | _ => match walk s n (removelast es) with Some m => if itype (dino s m) =? T_DIR then Some m else None | None => None end
  end.

Lemma reads_find s s' p e : reads s s' -> dir_find s' p e = dir_find s p e.
Proof.
  intros F. unfold dir_find. rewrite (reads_slot _ _ _ _ F). destruct (dir_slot s p e); [|done]. cbn [fmap option_fmap option_map].
  by rewrite (reads_dent _ _ _ _ F).
Qed.
Lemma reads_walk s s' es : reads s s' -> forall n, walk s' n es = walk s n es.
Proof.
  intros F. induction es as [|e es IH]; intros n; [done|]. cbn [walk]. rewrite !(reads_dino _ _ _ F), (reads_find _ _ _ _ F).
  case_if; [|done]. destruct (dir_find _ _ _); [|done]. apply IH.
Qed.
Lemma reads_graph s s' : reads s s' -> graph_ok s -> graph_ok s'.
Proof.
  intros F [G1 G2 G3 G4]. pose proof (fs_sb _ _ _ F) as Es. cbn in Es. pose proof (fs_size _ _ _ F) as Ez. cbn in Ez. split.
  - intros n. rewrite Es, Ez. apply G1.
  - intros n. rewrite (reads_live _ _ _ F), (reads_dino _ _ _ F). intros Hl Ht. destruct (G2 n Hl Ht) as [D1 D2 D3].
    split; [|done|done]. by apply (reads_file s).
  - intros n k. rewrite (reads_live _ _ _ F), (reads_dino _ _ _ F), (reads_dent _ _ _ _ F). intros Hl Ht Hk m Hm.
    rewrite (reads_live _ _ _ F), (reads_dino _ _ _ F). by apply (G3 n k).
  - rewrite (reads_live _ _ _ F), (reads_dino _ _ _ F). done.
Qed.

(** ** The inode cache agrees with the disk *)

(** Entries of the cache nobody refers to. *)
Definition nfree (s : fs) : nat := length (filter (fun i => iref (icache s i) = 0) (seq 0 NINODE)).

(** No inode is cached twice, what is cached is what the disk has, and no entry but [h]
    is locked. *)
Record cache_ok (h : option nat) (s : fs) : Prop := mkcache {
  ck_icache : icache_ok s;
  ck_like : forall i n, (i < NINODE)%nat -> refers s 1 n i -> ivalid (icache s i) = true -> like (icache s i) (dino s n);
  ck_lock : forall i, (i < NINODE)%nat -> h <> Some i -> locked (ilk (icache s i)) = false }.

(** One entry changed: its count becomes [v]. *)
Lemma touch_ok h h' i n v s s' : cache_ok h s -> reads s s' -> (i < NINODE)%nat -> recount i 1 n v s s' -> 0 <= v ->
  (refers s 1 n i \/ iref (icache s i) = 0 /\ forall j, (j < NINODE)%nat -> ~ refers s 1 n j) ->
  (0 < v -> ivalid (icache s' i) = true -> like (icache s' i) (dino s n)) ->
  (h' <> Some i -> locked (ilk (icache s' i)) = false) -> (forall j, j <> i -> h' <> Some j -> h <> Some j) ->
  cache_ok h' s' /\ (forall d' n', refs s' d' n' = if (d' =? 1) && (n' =? n) then v else refs s d' n') /\
  (nfree s' + one (iref (icache s i) =? 0)%Z = nfree s + one (v =? 0)%Z)%nat.
Proof.
  intros [C1 C2 C3] F Hi R Hv Hold Hlike Hlock Hh. destruct (recount_ok i 1 n v s s' C1 Hi R Hv Hold) as [Ho' Er].
  pose proof (rc_other _ _ _ _ _ _ R) as Hoth. split; [|split; [done|]].
  - split; [done|..].
    + intros j n' Hj (H1 & H2 & H3) Hval. rewrite (reads_dino _ _ _ F). destruct (decide (j = i)) as [->|Hne].
      * rewrite (rc_num _ _ _ _ _ _ R) in H3. subst n'. apply Hlike; [|done]. by rewrite <- (rc_ref _ _ _ _ _ _ R).
      * rewrite (Hoth j Hne) in *. by apply C2.
    + intros j Hj Hne. destruct (decide (j = i)) as [->|Hne']; [by apply Hlock|]. rewrite (Hoth j Hne'). apply C3; auto.
  - pose proof (count_change (fun i => iref (icache s i) = 0) (fun i => iref (icache s' i) = 0) (seq 0 NINODE) i) as X.
    cbv beta in X. rewrite !eqb_decide, (rc_ref _ _ _ _ _ _ R) in X. apply X; [apply NoDup_seq|apply elem_of_seq; lia|].
    intros j Hne. by rewrite (Hoth j Hne).
Qed.

(** ** Locking, releasing and finding inodes *)

Lemma dec_like d o p q : like (dec_dinode d o p) (dec_dinode d o q).
Proof. unfold dec_dinode. rewrite !set_fields. by split. Qed.
Lemma dec_frame d o p : let q := dec_dinode d o p in idev q = idev p /\ inum q = inum p /\ iref q = iref p /\ ilk q = ilk p.
Proof. done. Qed.

(** Entry [i] holds inode [n], locked and read. *)
Record locks (pid : Z) (i : nat) (n : Z) (s : fs) : Prop := mklocks {
  ls_in : (i < NINODE)%nat;
  ls_ref : refers s 1 n i;
  ls_like : like (icache s i) (dino s n);
  ls_valid : ivalid (icache s i) = true;
  ls_lock : ilk (icache s i) = mksl true pid }.

Section Inodes.
Context (pid : Z).

Lemma loaded i n s : idev (icache s i) = 1 -> inum (icache s i) = n ->
  let q := dec_dinode (view s (IBLOCK n (sblock s))) (n mod IPB * DINODE) (set_ilk (mksl true pid) (icache s i)) in
  idev q = 1 /\ inum q = n /\ iref q = iref (icache s i) /\ ilk q = mksl true pid /\ like q (dino s n).
Proof.
  intros H1 H2 q. destruct (dec_frame (view s (IBLOCK n (sblock s))) (n mod IPB * DINODE) (set_ilk (mksl true pid) (icache s i))) as (D1 & D2 & D3 & D4).
  fold q in D1, D2, D3, D4. rewrite D1, D2, D3, D4. split; [exact H1|]. split; [exact H2|]. split; [reflexivity|]. split; [reflexivity|]. apply dec_like.
Qed.

(** What [ilock] of inode [n] in entry [i] does. *)
Definition ilocked (m : nat) (i : nat) (n : Z) (s s' : fs) : Prop :=
  trans m s' /\ reads s s' /\ recount i 1 n (iref (icache s i)) s s' /\ locks pid i n s'.

Lemma ilock_cached m i n s : trans m s -> cache_ok None s -> (i < NINODE)%nat -> refers s 1 n i -> ivalid (icache s i) = true ->
  wp (ilock pid i) (fun _ s' => ilocked m i n s s') s.
Proof.
  intros T [C1 C2 C3] Hi Hr Hv. pose proof Hr as (H1 & H2 & H3). pose proof (C3 i Hi ltac:(done)) as Hlk.
  unfold ilock. apply wp_bind, wp_gets. destruct (Z.ltb_spec (iref (icache s i)) 1); [lia|].
  unfold acquiresleep. apply wp_bind, wp_bind, wp_gets. unfold ilockfield. rewrite Hlk. apply wp_modify, wp_bind, wp_gets.
  unfold ilockset. cbn [icache set_icache]. rewrite fn_insert_eq. cbn [ivalid set_ilk]. rewrite Hv. apply wp_pure.
  set (s' := set_icache _ s). assert (E : icache s' i = set_ilk (mksl true pid) (icache s i)) by apply fn_insert_eq.
  assert (Ho : forall j, j <> i -> icache s' j = icache s j) by (intros j Hj; by apply fn_insert_ne).
  assert (R : reads s s') by apply reads_icache. split; [by apply trans_icache|]. clearbody s'. split; [done|]. split.
  - split; rewrite ?E; done.
  - pose proof (C2 i n Hi Hr Hv) as [L1 L2 L3 L4 L5 L6]. split; unfold refers; rewrite ?E; try done.
    rewrite (reads_dino _ _ _ R). by split.
Qed.

Lemma load_locks m i n q s s' : (i < NINODE)%nat -> refers s 1 n i ->
  idev q = 1 /\ inum q = n /\ iref q = iref (icache s i) /\ ilk q = mksl true pid /\ like q (dino s n) ->
  trans m s' /\ reads s s' /\ icache s' i = set_ivalid true q /\ (forall j, j <> i -> icache s' j = icache s j) -> ilocked m i n s s'.
Proof.
  intros Hi (H1 & H2 & H3) (D1 & D2 & D3 & D4 & L) (T' & R & E & Ho). split; [done|]. split; [done|]. split.
  - split; rewrite ?E; cbn [idev inum iref set_ivalid]; done.
  - destruct L as [L1 L2 L3 L4 L5 L6]. split; unfold refers; rewrite ?E; cbn [idev inum iref ivalid ilk set_ivalid]; try done.
    + rewrite D1, D2, D3. done.
    + rewrite (reads_dino _ _ _ R). by split.
Qed.

Lemma ilock_uncached m i n s : trans m s -> cache_ok None s -> (i < NINODE)%nat -> refers s 1 n i -> ivalid (icache s i) = false ->
  live s n -> 0 <= IBLOCK n (sblock s) < disksize s -> wp (ilock pid i) (fun _ s' => ilocked m i n s s') s.
Proof.
  intros T [C1 C2 C3] Hi Hr Hv [_ Hl] Hb. pose proof Hr as (H1 & H2 & H3). pose proof (C3 i Hi ltac:(done)) as Hlk.
  pose proof (loaded i n s H2 H3) as D. cbv zeta in D.
  pose proof (ilock_loads pid m i s (icache s i) T eq_refl ltac:(lia) Hlk Hv H2) as W. cbv zeta in W. rewrite H3 in W.
  revert D W. generalize (dec_dinode (view s (IBLOCK n (sblock s))) (n mod IPB * DINODE) (set_ilk (mksl true pid) (icache s i))).
  intros q D W. eapply wp_mono; [apply (W Hb)|].
  - destruct D as (_ & _ & _ & _ & L). by rewrite (lk_type _ _ L).
  - intros [] s'. by apply load_locks.
Qed.

Lemma ilock_ok m i n s : trans m s -> cache_ok None s -> (i < NINODE)%nat -> refers s 1 n i -> live s n ->
  0 <= IBLOCK n (sblock s) < disksize s -> wp (ilock pid i) (fun _ s' => ilocked m i n s s') s.
Proof. intros. destruct (ivalid (icache s i)) eqn:Hv; [by apply ilock_cached|by apply ilock_uncached]. Qed.

(** Whether inode [n] of device [d] is inode [k]. *)
Definition here (d n k : Z) : Z := if (d =? 1) && (n =? k) then 1 else 0.
(** The references to inode [n] have changed by [v], and no others. *)
Definition counted (n v : Z) (s s' : fs) : Prop := forall d' n', refs s' d' n' = refs s d' n' + v * here d' n' n.

Lemma counted_intro n v s s' : (forall d' n', refs s' d' n' = if (d' =? 1) && (n' =? n) then refs s 1 n + v else refs s d' n') -> counted n v s s'.
Proof. intros E d' n'. rewrite E. unfold here. destruct (Z.eqb_spec d' 1) as [->|], (Z.eqb_spec n' n) as [->|]; cbn [andb]; lia. Qed.

(** What letting go of inode [n] in entry [i] does. *)
Definition released (i : nat) (n : Z) (s s' : fs) : Prop :=
  cache_ok None s' /\ (exists c, s' = set_icache c s) /\ counted n (-1) s s' /\
  (nfree s' = nfree s + one (iref (icache s i) =? 1)%Z)%nat /\ (forall j, j <> i -> icache s' j = icache s j) /\
  iref (icache s' i) = iref (icache s i) - 1 /\ idev (icache s' i) = 1 /\ inum (icache s' i) = n.

(** [iput] of an inode that stays. *)
Lemma iput_ok i n s : cache_ok None s -> (i < NINODE)%nat -> refers s 1 n i -> inlink (dino s n) <> 0 \/ 2 <= iref (icache s i) ->
  wp (iput pid i) (fun _ s' => released i n s s') s.
Proof.
  intros C Hi Hr Hlive. pose proof Hr as (H1 & H2 & H3). pose proof (ck_lock _ _ C i Hi ltac:(done)) as Hlk.
  pose proof (ck_like _ _ C i n Hi Hr) as Hl.
  unfold iput, acquiresleep, releasesleep. apply wp_bind, wp_bind, wp_gets. unfold ilockfield, ilockset. rewrite Hlk.
  apply wp_modify, wp_bind, wp_gets. unfold id. cbn [icache set_icache]. rewrite !fn_insert_eq.
  cbn [ivalid inlink iref set_ilk].
  destruct (_ && _ && _) eqn:E; [apply andb_true_iff in E as [[E1 E2]%andb_true_iff E3]; rewrite (lk_nlink _ _ (Hl E1)) in E2; lia|].
  apply wp_bind, wp_pure, wp_bind, wp_modify, wp_modify. cbn [icache set_icache]. rewrite !fn_insert_eq. cbn [iref set_ilk].
  set (s' := set_icache _ _). assert (Ei : icache s' i = set_iref (iref (icache s i) - 1) (set_ilk (mksl false 0) (icache s i))) by (unfold s'; cbn; by rewrite fn_insert_eq).
  assert (Eo : forall j, j <> i -> icache s' j = icache s j) by (intros j Hj; unfold s'; cbn; by rewrite !fn_insert_ne by done).
  assert (R : recount i 1 n (iref (icache s i) + -1) s s') by (split; rewrite ?Ei; done).
  destruct (touch_ok None None i n (iref (icache s i) + -1) s s' C) as (C' & Er & En); try done.
  - lia.
  - by left.
  - rewrite Ei. intros _ Hv. destruct (Hl Hv) as [L1 L2 L3 L4 L5 L6]. by split.
  - by rewrite Ei.
  - split; [done|]. split; [by eexists|]. split; [|split; [|split; [done|by rewrite Ei]]].
    + apply counted_intro. intros d' n'. rewrite Er, (refs_at s 1 n i (ck_icache _ _ C) Hi Hr). done.
    + destruct (Z.eqb_spec (iref (icache s i)) 0); [lia|]. cbn [one] in En. rewrite Nat.add_0_r in En. rewrite En. f_equal. f_equal. lia.
Qed.

(** [iunlock] of the locked inode. *)
Lemma iunlock_ok i n s : cache_ok (Some i) s -> locks pid i n s ->
  wp (iunlock i) (fun _ s' => cache_ok None s' /\ (exists c, s' = set_icache c s) /\ refers s' 1 n i /\ (forall d' n', refs s' d' n' = refs s d' n') /\
    nfree s' = nfree s /\ (forall j, j <> i -> icache s' j = icache s j) /\ iref (icache s' i) = iref (icache s i)) s.
Proof.
  intros C [Hi Hr Hl Hv Hlk]. pose proof Hr as (H1 & H2 & H3).
  unfold iunlock, holdingsleep, releasesleep. apply wp_bind, wp_gets. unfold ilockfield. rewrite Hlk. cbn [locked].
  apply wp_bind, wp_gets. destruct (Z.ltb_spec (iref (icache s i)) 1); [lia|]. cbn [negb orb]. apply wp_modify. unfold ilockset.
  set (s' := set_icache _ _). assert (Ei : icache s' i = set_ilk (mksl false 0) (icache s i)) by (unfold s'; cbn; by rewrite fn_insert_eq).
  assert (Eo : forall j, j <> i -> icache s' j = icache s j) by (intros j Hj; unfold s'; cbn; by rewrite !fn_insert_ne by done).
  assert (R : recount i 1 n (iref (icache s i)) s s') by (split; rewrite ?Ei; done).
  destruct (touch_ok (Some i) None i n (iref (icache s i)) s s' C) as (C' & Er & En); try done.
  - lia.
  - by left.
  - rewrite Ei. intros _ _. destruct Hl as [L1 L2 L3 L4 L5 L6]. by split.
  - by rewrite Ei.
  - congruence.
  - split; [done|]. split; [by eexists|]. split; [unfold refers; by rewrite Ei|]. split; [|split; [lia|split; [done|by rewrite Ei]]].
    intros d' n'. rewrite Er. destruct (Z.eqb_spec d' 1) as [->|], (Z.eqb_spec n' n) as [->|]; cbn [andb]; try done.
    by rewrite (refs_at s 1 n i (ck_icache _ _ C) Hi Hr).
Qed.

Lemma iunlockput_ok i n s : cache_ok (Some i) s -> locks pid i n s -> inlink (dino s n) <> 0 \/ 2 <= iref (icache s i) ->
  wp (iunlockput pid i) (fun _ s' => released i n s s') s.
Proof.
  intros C L Hlive. unfold iunlockput. apply wp_bind. eapply wp_mono; [apply (iunlock_ok i n s C L)|].
  intros [] s1 (C1 & (c & ->) & Hr & Er & En & Eo & Ei).
  eapply wp_mono; [apply (iput_ok i n _ C1 (ls_in _ _ _ _ L) Hr)|].
  { rewrite Ei. by rewrite (reads_dino s) by apply reads_icache. }
  intros [] s2 (C2 & (c2 & ->) & Hc & Hn & Ho & Hf). split; [done|]. split; [by exists c2|]. split; [intros d' n'; by rewrite Hc, Er|].
  rewrite En, Ei in Hn. split; [done|]. split; [intros j Hj; by rewrite Ho, Eo|]. by rewrite Ei in Hf.
Qed.
End Inodes.

(** Entries in use change in their counts only. *)
Definition grown (s s' : fs) : Prop := forall j, 0 < iref (icache s j) ->
  iref (icache s j) <= iref (icache s' j) /\ icache s' j = set_iref (iref (icache s' j)) (icache s j).

Lemma nfree_some s : (0 < nfree s)%nat -> exists i, (i < NINODE)%nat /\ iref (icache s i) = 0.
Proof.
  unfold nfree. destruct (filter _ _) as [|i l] eqn:E; [cbn; lia|]. intros _. exists i.
  assert (Hi : i ∈ filter (fun i => iref (icache s i) = 0) (seq 0 NINODE)) by (rewrite E; left).
  apply list_elem_of_filter in Hi as [Hz Hi]. apply elem_of_seq in Hi. split; [lia|done].
Qed.

Lemma iget_cached h n s : cache_ok h s -> (0 < nfree s)%nat ->
  wp (iget 1 n) (fun i s' => (i < NINODE)%nat /\ cache_ok h s' /\ (exists c, s' = set_icache c s) /\ counted n 1 s s' /\ refers s' 1 n i /\
    (nfree s' + one (iref (icache s' i) =? 1)%Z = nfree s)%nat /\ grown s s' /\ (forall j, j <> i -> icache s' j = icache s j)) s.
Proof.
  intros C Hfree. pose proof (ck_icache _ _ C) as Ho. destruct (nfree_some s Hfree) as (i0 & Hi0 & Hz0). unfold iget. apply wp_bind, wp_gets.
  pose proof (find_seq (fun i => 0 < iref (icache s i) /\ idev (icache s i) = 1 /\ inum (icache s i) = n) NINODE) as Hf.
  destruct (list_find _ _) as [[k i]|].
  - destruct Hf as (Hi & Hr). pose proof (refs_at s 1 n i Ho Hi Hr) as E. pose proof Hr as (H1 & H2 & H3).
    apply wp_bind, wp_modify, wp_pure. set (s' := set_icache _ s).
    assert (Ei : icache s' i = set_iref (iref (icache s i) + 1) (icache s i)) by (unfold s'; cbn; by rewrite fn_insert_eq).
    assert (Eo : forall j, j <> i -> icache s' j = icache s j) by (intros j Hj; unfold s'; cbn; by rewrite !fn_insert_ne by done).
    assert (R : recount i 1 n (iref (icache s i) + 1) s s') by (split; rewrite ?Ei; done).
    destruct (touch_ok h h i n (iref (icache s i) + 1) s s' C) as (C' & Er & En); try done.
    + lia.
    + by left.
    + rewrite Ei. intros _ Hv. destruct (ck_like _ _ C i n Hi Hr Hv) as [L1 L2 L3 L4 L5 L6]. by split.
    + rewrite Ei. apply (ck_lock _ _ C i Hi).
    + split; [done|]. split; [done|]. split; [by eexists|]. split; [|split; [|split; [|split; [|done]]]].
      * apply counted_intro. intros d' n'. by rewrite Er, E.
      * unfold refers. rewrite Ei. cbn. lia.
      * rewrite Ei. cbn [iref set_iref]. destruct (Z.eqb_spec (iref (icache s i)) 0), (Z.eqb_spec (iref (icache s i) + 1) 0), (Z.eqb_spec (iref (icache s i) + 1) 1); unfold one in *; lia.
      * intros j Hj. destruct (decide (j = i)) as [->|Hne]; [rewrite Ei; cbn; split; [lia|done]|]. rewrite (Eo j Hne). split; [lia|]. by destruct (icache s j).
  - pose proof (find_seq (fun i => iref (icache s i) = 0) NINODE) as Hg. destruct (list_find _ _) as [[k i]|]; [|destruct (Hg i0 Hi0 Hz0)].
    destruct Hg as (Hi & Hz). apply wp_bind, wp_modify, wp_pure. set (s' := set_icache _ s).
    assert (Ei : icache s' i = set_ivalid false (set_iref 1 (set_inum n (set_idev 1 (icache s i))))) by (unfold s'; cbn; by rewrite fn_insert_eq).
    assert (Eo : forall j, j <> i -> icache s' j = icache s j) by (intros j Hj; unfold s'; cbn; by rewrite !fn_insert_ne by done).
    assert (R : recount i 1 n 1 s s') by (split; rewrite ?Ei; done).
    destruct (touch_ok h h i n 1 s s' C) as (C' & Er & En); try done.
    + by right.
    + by rewrite Ei.
    + rewrite Ei. apply (ck_lock _ _ C i Hi).
    + split; [done|]. split; [done|]. split; [by eexists|]. split; [|split; [|split; [|split; [|done]]]].
      * apply counted_intro. intros d' n'. by rewrite Er, (refs_none s 1 n Hf).
      * unfold refers. rewrite Ei. cbn. lia.
      * rewrite Ei. cbn [iref set_iref set_ivalid]. rewrite Hz in En. change (0 =? 0) with true in En. change (1 =? 0) with false in En. change (1 =? 1) with true. unfold one in *. lia.
      * intros j Hj. destruct (decide (j = i)) as [->|Hne]; [lia|]. rewrite (Eo j Hne). split; [lia|]. by destruct (icache s j).
Qed.

(** Steps that keep the cache. *)
Lemma same_refs s s' d n : icache s' = icache s -> refs s' d n = refs s d n.
Proof. destruct s as [? ? ? ? ? ? ? c], s' as [? ? ? ? ? ? ? c']. intros E. change (c' = c) in E. subst. reflexivity. Qed.
Lemma same_nfree s s' : icache s' = icache s -> nfree s' = nfree s.
Proof. destruct s as [? ? ? ? ? ? ? c], s' as [? ? ? ? ? ? ? c']. intros E. change (c' = c) in E. subst. reflexivity. Qed.
Lemma same_icache_ok s s' : icache s' = icache s -> icache_ok s -> icache_ok s'.
Proof. destruct s as [? ? ? ? ? ? ? c], s' as [? ? ? ? ? ? ? c']. intros E [H1 H2]. change (c' = c) in E. subst. by split. Qed.
Lemma cache_fstep h s s' : fstep [] s s' -> cache_ok h s -> cache_ok h s'.
Proof.
  intros F [C1 C2 C3]. pose proof (fs_icache _ _ _ F) as E. split.
  - by apply (same_icache_ok s).
  - intros i n Hi. unfold refers. rewrite E, (reads_dino s s' n (reads_fstep _ _ F)). by apply C2.
  - intros i. rewrite E. apply C3.
Qed.
Lemma locks_grown pid i n s s' : locks pid i n s -> reads s s' -> grown s s' -> locks pid i n s'.
Proof.
  intros [Hi (H1 & H2 & H3) [L1 L2 L3 L4 L5 L6] Hv Hk] R G. destruct (G i H1) as [Hle E].
  split; unfold refers; rewrite ?(reads_dino _ _ _ R); [done|..]; rewrite E; try done; cbn [iref set_iref idev inum]; lia.
Qed.
Lemma locks_fstep pid i n s s' : locks pid i n s -> fstep [] s s' -> locks pid i n s'.
Proof.
  intros L F. apply (locks_grown _ _ _ _ _ L (reads_fstep _ _ F)). intros j Hj. rewrite (fs_icache _ _ _ F). split; [lia|]. by destruct (icache s j).
Qed.

Lemma graph_find s n name k : graph_ok s -> live s n -> itype (dino s n) = T_DIR -> dir_find s (dino s n) name = Some k ->
  live s k /\ inlink (dino s k) <> 0.
Proof.
  intros G Hl Ht. unfold dir_find. destruct (dir_slot s (dino s n) name) as [x|] eqn:E; [|done]. cbn [fmap option_fmap option_map].
  intros [= <-]. apply dir_slot_some in E as (Hx & [Hn _] & _). by apply (gr_entry _ G n x).
Qed.

Lemma find_like s p q name : like p q -> dir_find s p name = dir_find s q name.
Proof.
  intros L. unfold dir_find. rewrite (dir_slot_like _ _ _ _ L). destruct (dir_slot s q name); [|done]. cbn [fmap option_fmap option_map].
  by rewrite (dent_like _ _ _ _ L).
Qed.

Section Paths.
Context (pid : Z) (cwd : nat) (dev_read : Z -> option (Z -> M fs (Z * list Z))).

(** [dirlookup] in a locked directory. *)
Lemma dirlookup_ok m i n name s : trans m s -> cache_ok (Some i) s -> locks pid i n s -> dir_ok s (dino s n) -> (0 < nfree s)%nat ->
  wp (dirlookup pid dev_read i name) (fun r s' => trans m s' /\ reads s s' /\ cache_ok (Some i) s' /\ locks pid i n s' /\
    match dir_slot s (dino s n) name with
    | None => r = None /\ icache s' = icache s
    | Some x => exists j, let k := fst (dent s (dino s n) x) in r = Some (j, DIRENT * x) /\ (j < NINODE)%nat /\ refers s' 1 k j /\ counted k 1 s s' /\
        (nfree s' + one (iref (icache s' j) =? 1)%Z = nfree s)%nat /\ grown s s'
    end) s.
Proof.
  intros T C L [Df Dt Dz] Hfree. pose proof L as [Hi (H1 & H2 & H3) Hl Hv Hk]. unfold dirlookup. apply wp_bind, wp_gets. unfold id.
  rewrite (lk_type _ _ Hl), Dt. cbn [negb Z.eqb Pos.eqb T_DIR]. apply wp_bind.
  assert (Fo : file_ok s (icache s i)) by (by apply (file_like _ _ _ Hl)).
  assert (Hz : isize (icache s i) mod DIRENT = 0) by (by rewrite (lk_size _ _ Hl)).
  pose proof (Z.div_pos (isize (icache s i)) DIRENT ltac:(apply (fo_size _ _ Fo)) ltac:(done)) as Hpos.
  eapply wp_mono; [apply (dirlookup_loop_ok pid dev_read i (icache s i) name _ m 0 s); [by split|done|unfold nents; lia|unfold nents; lia|lia]|].
  intros r s1 (T1 & F1 & ->). rewrite (dir_slot_like _ _ _ _ Hl). destruct (dir_slot s (dino s n) name) as [x|].
  - cbn [fmap option_fmap option_map]. rewrite H2, (dent_like _ _ _ _ Hl). set (k := fst (dent s (dino s n) x)).
    pose proof (cache_fstep _ _ _ F1 C) as C1. apply wp_bind. pose proof (fs_icache _ _ _ F1) as E1.
    eapply wp_mono; [apply (iget_cached (Some i) k s1 C1); by rewrite (same_nfree _ _ E1)|].
    intros j s2 (Hj & C2 & (c & ->) & Hc & Hr & Hn & G & _). apply wp_pure.
    assert (R : reads s (set_icache c s1)) by (apply (reads_trans _ s1); [by apply reads_fstep|apply reads_icache]).
    assert (G' : grown s (set_icache c s1)) by (intros a Ha; rewrite <- E1 in Ha |- *; by apply G).
    split; [by apply trans_icache|]. split; [done|]. split; [done|]. split; [by apply (locks_grown _ _ _ s)|]. exists j. cbv zeta.
    split; [done|]. split; [done|]. split; [done|]. split; [|split; [by rewrite Hn, (same_nfree _ _ E1)|done]].
    intros d' n'. rewrite Hc, (same_refs _ _ _ _ E1). done.
  - apply wp_pure. split; [done|]. split; [by apply reads_fstep|]. split; [by apply (cache_fstep _ s)|].
    split; [by apply (locks_fstep _ _ _ s)|]. split; [done|]. apply (fs_icache _ _ _ F1).
Qed.

(** ** Walking a path *)

(** Between operations of the file system. *)
Record ready (m : nat) (s : fs) : Prop := mkready_fs {
  rd_trans : trans m s; rd_cache : cache_ok None s; rd_graph : graph_ok s }.
(** The walk is at inode [n], held in entry [i]; with the entry it will give up there
    is room for one more. *)
Record at_node (i : nat) (n : Z) (s : fs) : Prop := mkat {
  an_in : (i < NINODE)%nat; an_ref : refers s 1 n i; an_live : live s n;
  an_stays : inlink (dino s n) <> 0 \/ 2 <= iref (icache s i);
  an_room : (2 <= nfree s + one (iref (icache s i) =? 1)%Z)%nat }.

Lemma ready_after m s s' : ready m s -> trans m s' -> cache_ok None s' -> reads s s' -> ready m s'.
Proof. intros [_ _ G] T C R. split; [done|done|]. by apply (reads_graph s). Qed.

(** [ilock] at the start of a step. *)
Lemma lock_at m i n s : ready m s -> at_node i n s -> wp (ilock pid i) (fun _ s1 => trans m s1 /\ reads s s1 /\ cache_ok (Some i) s1 /\
  locks pid i n s1 /\ nfree s1 = nfree s /\ (forall d k, refs s1 d k = refs s d k) /\ iref (icache s1 i) = iref (icache s i)) s.
Proof.
  intros [T C G] [Hi Hr Hl _ _]. pose proof Hr as (H1 & H2 & H3).
  eapply wp_mono; [apply (ilock_ok pid m i n s T C Hi Hr Hl (gr_block _ G n (proj1 Hl)))|]. intros [] s1 (T1 & R1 & Rc & L1).
  destruct (touch_ok None (Some i) i n (iref (icache s i)) s s1 C R1 Hi Rc) as (C1 & Er & En).
  - lia.
  - by left.
  - intros _ _. rewrite <- (reads_dino _ _ _ R1). apply L1.
  - done.
  - done.
  - do 4 (split; [done|]). split; [lia|]. split; [|apply Rc]. intros d k. rewrite Er.
    destruct (Z.eqb_spec d 1) as [->|], (Z.eqb_spec k n) as [->|]; cbn [andb]; try done. by rewrite (refs_at s 1 n i (ck_icache _ _ C) Hi Hr).
Qed.

(** From the locked inode [n] in [i] to inode [k], found in [j]. *)
Lemma move_at i n j k s1 s2 s3 : cache_ok (Some i) s1 -> locks pid i n s1 -> (2 <= nfree s1 + one (iref (icache s1 i) =? 1)%Z)%nat ->
  cache_ok (Some i) s2 -> locks pid i n s2 -> (j < NINODE)%nat -> refers s2 1 k j -> counted k 1 s1 s2 ->
  (nfree s2 + one (iref (icache s2 j) =? 1)%Z = nfree s1)%nat -> live s2 k -> inlink (dino s2 k) <> 0 ->
  released i n s2 s3 -> at_node j k s3.
Proof.
  intros C1 L1 H1 C2 L2 Hj Hr Hc Hn Hl Hnl (C3 & (c & ->) & Hc3 & Hn3 & Ho & Ei & Ed & Em).
  pose proof (refs_at s1 1 n i (ck_icache _ _ C1) (ls_in _ _ _ _ L1) (ls_ref _ _ _ _ L1)) as A1.
  pose proof (refs_at s2 1 n i (ck_icache _ _ C2) (ls_in _ _ _ _ L2) (ls_ref _ _ _ _ L2)) as A2.
  pose proof (Hc 1 n) as A3. rewrite A1, A2 in A3. unfold here in A3. pose proof (ls_ref _ _ _ _ L1) as (P1 & _).
  assert (Rd : reads s2 (set_icache c s2)) by apply reads_icache.
  assert (Href : refers (set_icache c s2) 1 k j /\ iref (icache (set_icache c s2) j) = iref (icache s2 j) - (if decide (j = i) then 1 else 0) /\
    iref (icache s2 i) = iref (icache s1 i) + (if decide (j = i) then 1 else 0)).
  { destruct (decide (j = i)) as [->|Hne].
    - destruct Hr as (Q1 & Q2 & Q3), (ls_ref _ _ _ _ L2) as (_ & _ & Q4). assert (k = n) as -> by congruence.
      rewrite !Z.eqb_refl in A3. cbn [andb] in A3. unfold refers. rewrite Ei. repeat split; try done; lia.
    - assert (n <> k). { intros <-. apply Hne. apply (io_uniq _ (ck_icache _ _ C2) 1 n); [done|apply L2|done|apply L2]. }
      destruct (Z.eqb_spec n k); [done|]. rewrite andb_false_r in A3. unfold refers. rewrite (Ho j Hne). split; [done|]. lia. }
  destruct Href as (Href & E1 & E2). split; [done|done|by rewrite (reads_live _ _ _ Rd)|left; by rewrite (reads_dino _ _ _ Rd)|].
  rewrite Hn3, E1. destruct (decide (j = i)) as [->|Hne].
  - replace (iref (icache s2 i) - 1) with (iref (icache s1 i)) by lia. destruct (Z.eqb_spec (iref (icache s2 i)) 1); [lia|]. unfold one in *. lia.
  - rewrite Z.sub_0_r. replace (iref (icache s2 i)) with (iref (icache s1 i)) by lia. lia.
Qed.

(** Where [namex] ends, from inode [n] on: the inode and the last name. *)
Fixpoint goto (parent : bool) (s : fs) (n : Z) (es : list (list Z)) (name : list Z) {struct es} : option (Z * list Z) :=
  match es with
  | [] => if parent then None else Some (n, name)
  | e :: es' =>
      if negb (itype (dino s n) =? T_DIR) then None
      else if parent && bool_decide (es' = []) then Some (n, take (Z.to_nat DIRSIZ) e)
      else match dir_find s (dino s n) e with
           | Some k => goto parent s k es' (take (Z.to_nat DIRSIZ) e)
           | None => None
           end
  end.

Lemma slot_take s p e : dir_slot s p (take (Z.to_nat DIRSIZ) e) = dir_slot s p e.
Proof.
  unfold dir_slot. rewrite (list_find_ext (names s p (take (Z.to_nat DIRSIZ) e)) (names s p e)); [done|].
  intros k. unfold names, fname. by rewrite cstr_take.
Qed.

Lemma reads_goto parent s s' es : reads s s' -> forall n name, goto parent s' n es name = goto parent s n es name.
Proof.
  intros R. induction es as [|e es IH]; intros n name; [done|]. cbn [goto]. rewrite (reads_dino _ _ _ R), (reads_find _ _ _ _ R).
  destruct (dir_find _ _ _); [|done]. by rewrite IH.
Qed.

(** The outcome of [namex]: nothing, or a reference to the inode found in place of the one
    to the start. *)
Definition found (n : Z) (g : option (Z * list Z)) (s : fs) (r : option (nat * list Z)) (s' : fs) : Prop :=
  match g with
  | None => r = None /\ counted n (-1) s s'
  | Some (k, name) => exists j, r = Some (j, name) /\ at_node j k s' /\
      forall d' n', refs s' d' n' = refs s d' n' - here d' n' n + here d' n' k
  end.

(** Giving up in the locked inode. *)
Lemma namex_fails m i n s s1 : ready m s -> at_node i n s -> trans m s1 -> reads s s1 -> cache_ok (Some i) s1 -> locks pid i n s1 ->
  (forall d k, refs s1 d k = refs s d k) -> iref (icache s1 i) = iref (icache s i) ->
  wp (iunlockput pid i ;;; ret None) (fun r s' => ready m s' /\ reads s s' /\ found n None s r s') s1.
Proof.
  intros Rd A T1 R1 C1 L1 Er Ei. apply wp_bind. eapply wp_mono; [apply (iunlockput_ok pid i n s1 C1 L1)|].
  { rewrite Ei, (reads_dino _ _ _ R1). apply A. }
  intros [] s2 (C2 & (c & ->) & Hc & _). apply wp_pure.
  assert (R2 : reads s (set_icache c s1)) by (apply (reads_trans _ s1); [done|apply reads_icache]).
  split; [apply (ready_after m s); auto using trans_icache|]. split; [done|]. split; [done|]. intros d' n'. by rewrite Hc, Er.
Qed.

Lemma namex_loop_ok parent m f : forall i n path name s, (length path < f)%nat -> ready m s -> at_node i n s ->
  wp (namex_loop pid dev_read f i path parent name) (fun r s' => ready m s' /\ reads s s' /\
    found n (goto parent s n (components path) name) s r s') s.
Proof.
  induction f as [|f IH]; intros i n path name s Hf Rd A; [lia|]. cbn [namex_loop]. pose proof (skipelem_ok path) as Hs.
  destruct (skipelem path) as [[path' e]|].
  - destruct Hs as (e0 & Ec & -> & Hlen & Hlast). rewrite Ec. cbn [goto].
    apply wp_bind. eapply wp_mono; [apply (lock_at m i n s Rd A)|]. intros [] s1 (T1 & R1 & C1 & L1 & En & Er & Ei).
    apply wp_bind, wp_gets. rewrite (lk_type _ _ (ls_like _ _ _ _ L1)), (reads_dino _ _ _ R1).
    destruct (Z.eqb_spec (itype (dino s n)) T_DIR) as [Ht|Ht]; cbn [negb]; [|by apply (namex_fails m i n)].
    rewrite (bool_decide_ext (path' = []) (components path' = [])) by (by rewrite Hlast). destruct (parent && _) eqn:Ep.
    + apply wp_bind. eapply wp_mono; [apply (iunlock_ok pid i n s1 C1 L1)|]. intros [] s2 (C2 & (c & ->) & Hr & Er2 & En2 & Eo & Ei2).
      apply wp_pure. assert (R2 : reads s (set_icache c s1)) by (apply (reads_trans _ s1); [done|apply reads_icache]).
      split; [apply (ready_after m s); auto using trans_icache|]. split; [done|]. exists i. split; [done|]. split.
      * destruct A as [A1 A2 A3 A4 A5]. split; [done|done|by rewrite (reads_live _ _ _ R2)|rewrite (reads_dino _ _ _ R2), Ei2, Ei; done|].
        by rewrite En2, Ei2, En, Ei.
      * intros d' n'. rewrite Er2, Er. lia.
    + pose proof (rd_graph _ _ Rd) as G. assert (G1 : graph_ok s1) by (by apply (reads_graph s)).
      assert (Hd : dir_ok s1 (dino s1 n)) by (apply (gr_dir _ G1); [by apply (reads_live _ _ _ R1), A|by rewrite (reads_dino _ _ _ R1)]).
      pose proof (an_room _ _ _ A) as Hroom. rewrite <- En, <- Ei in Hroom.
      apply wp_bind. eapply wp_mono; [apply (dirlookup_ok m i n _ s1 T1 C1 L1 Hd)|]; [unfold one in Hroom; destruct (_ =? 1); lia|].
      intros r s2 (T2 & R2 & C2 & L2 & Hr). rewrite (reads_dino _ _ _ R1), slot_take, (reads_slot _ _ _ _ R1) in Hr. unfold dir_find.
      pose proof (reads_trans _ _ _ R1 R2) as R12. destruct (dir_slot s (dino s n) e0) as [x|] eqn:Ex; cbn [fmap option_fmap option_map].
      * destruct Hr as (j & Hr). cbv zeta in Hr. rewrite (reads_dent _ _ _ _ R1) in Hr. set (k := fst (dent s (dino s n) x)) in *.
        destruct Hr as (-> & Hj & Hrj & Hc & Hn & Gr). apply wp_bind. destruct (Gr i (proj1 (ls_ref _ _ _ _ L1))) as [Hge _].
        destruct (graph_find s n e0 k G (an_live _ _ _ A) Ht) as [Hlk Hnk]; [unfold dir_find; by rewrite Ex|].
        eapply wp_mono; [apply (iunlockput_ok pid i n s2 C2 L2)|].
        { rewrite (reads_dino _ _ _ R12). destruct (an_stays _ _ _ A); [by left|right; lia]. }
        intros [] s3 Hrel. pose proof Hrel as (C3 & (c & ->) & Hc3 & _).
        assert (R3 : reads s (set_icache c s2)) by (apply (reads_trans _ s2); [done|apply reads_icache]).
        assert (A3 : at_node j k (set_icache c s2)).
        { apply (move_at i n j k s1 s2 _ C1 L1 Hroom C2 L2 Hj Hrj Hc Hn); [by apply (reads_live _ _ _ R12)|by rewrite (reads_dino _ _ _ R12)|done]. }
        eapply wp_mono; [apply (IH j k path' _ (set_icache c s2)); [lia| |done]|].
        { apply (ready_after m s); auto using trans_icache. }
        intros r s' (Rd' & R' & Hf'). split; [done|]. split; [by apply (reads_trans _ (set_icache c s2))|].
        rewrite (reads_goto _ _ _ _ R3) in Hf'. unfold found in *. destruct (goto _ _ _ _ _) as [[k' nm]|].
        -- destruct Hf' as (j' & -> & A' & Hrefs). exists j'. split; [done|]. split; [done|]. intros d' n'. rewrite Hrefs, Hc3, Hc, Er. lia.
        -- destruct Hf' as (-> & Hrefs). split; [done|]. intros d' n'. rewrite Hrefs, Hc3, Hc, Er. lia.
      * destruct Hr as (-> & Eic). apply (namex_fails m i n); auto; [|by rewrite Eic]. intros d k. by rewrite (same_refs _ _ _ _ Eic), Er.
  - rewrite Hs. cbn [goto]. destruct parent.
    + apply wp_bind. destruct A as [A1 A2 A3 A4 A5]. eapply wp_mono; [apply (iput_ok pid i n s (rd_cache _ _ Rd) A1 A2 A4)|].
      intros [] s' (C' & (c & ->) & Hc & _). apply wp_pure. assert (R2 : reads s (set_icache c s)) by apply reads_icache.
      split; [apply (ready_after m s); auto using trans_icache; apply trans_icache, Rd|]. split; [done|]. by split.
    + apply wp_pure. split; [done|]. split; [apply reads_fstep, fstep_refl|]. exists i. split; [done|]. split; [done|]. intros d' n'. lia.
Qed.

(** The start of the walk. *)
Definition begins (c : Z) (path : list Z) : Z := if bool_decide (head path = Some SLASH) then ROOTINO else c.

Lemma idup_at m c s : ready m s -> (2 <= nfree s)%nat -> (cwd < NINODE)%nat -> refers s 1 c cwd -> live s c ->
  wp (idup cwd) (fun i s' => ready m s' /\ reads s s' /\ counted c 1 s s' /\ at_node i c s') s.
Proof.
  intros Rd Hf Hi Hr Hl. pose proof (rd_cache _ _ Rd) as C. pose proof Hr as (H1 & H2 & H3). unfold idup. apply wp_bind, wp_modify, wp_pure.
  set (s' := set_icache _ s). assert (Ei : icache s' cwd = set_iref (iref (icache s cwd) + 1) (icache s cwd)) by apply fn_insert_eq.
  assert (Eo : forall j, j <> cwd -> icache s' j = icache s j) by (intros j Hj; by apply fn_insert_ne).
  assert (Rc : recount cwd 1 c (iref (icache s cwd) + 1) s s') by (split; rewrite ?Ei; done).
  assert (R : reads s s') by apply reads_icache.
  destruct (touch_ok None None cwd c (iref (icache s cwd) + 1) s s' C R Hi Rc) as (C' & Er & En).
  - lia.
  - by left.
  - rewrite Ei. intros _ Hv. destruct (ck_like _ _ C cwd c Hi Hr Hv) as [L1 L2 L3 L4 L5 L6]. by split.
  - rewrite Ei. apply (ck_lock _ _ C cwd Hi).
  - done.
  - split; [apply (ready_after m s); auto; apply trans_icache, Rd|]. split; [done|]. split.
    + apply counted_intro. intros d' n'. by rewrite Er, (refs_at s 1 c cwd (ck_icache _ _ C) Hi Hr).
    + destruct (Z.eqb_spec (iref (icache s cwd)) 0), (Z.eqb_spec (iref (icache s cwd) + 1) 0); try lia. unfold one in En.
      split; [done| |by rewrite (reads_live _ _ _ R)|right|lia]; unfold refers; rewrite Ei; cbn [iref idev inum set_iref]; lia.
Qed.

Lemma root_at m s : ready m s -> (2 <= nfree s)%nat ->
  wp (iget ROOTDEV ROOTINO) (fun i s' => ready m s' /\ reads s s' /\ counted ROOTINO 1 s s' /\ at_node i ROOTINO s') s.
Proof.
  intros Rd Hf. destruct (gr_root _ (rd_graph _ _ Rd)) as [Hl Hn]. change ROOTDEV with 1.
  eapply wp_mono; [apply (iget_cached None ROOTINO s (rd_cache _ _ Rd)); lia|].
  intros i s' (Hi & C' & (c & ->) & Hc & Hr & En & _). assert (R : reads s (set_icache c s)) by apply reads_icache.
  split; [apply (ready_after m s); auto; apply trans_icache, Rd|]. split; [done|]. split; [done|].
  split; [done|done|by rewrite (reads_live _ _ _ R)|left; by rewrite (reads_dino _ _ _ R)|lia].
Qed.

Lemma namex_ok parent m c path s : ready m s -> (2 <= nfree s)%nat -> (cwd < NINODE)%nat -> refers s 1 c cwd -> live s c ->
  wp (namex pid cwd dev_read path parent) (fun r s' => ready m s' /\ reads s s' /\
    match goto parent s (begins c path) (components path) [] with
    | None => r = None /\ forall d' n', refs s' d' n' = refs s d' n'
    | Some (k, name) => exists j, r = Some (j, name) /\ at_node j k s' /\ counted k 1 s s'
    end) s.
Proof.
  intros Rd Hf Hi Hr Hl. unfold namex. apply wp_bind.
  assert (W : wp (if bool_decide (head path = Some SLASH) then iget ROOTDEV ROOTINO else idup cwd)
    (fun i s' => ready m s' /\ reads s s' /\ counted (begins c path) 1 s s' /\ at_node i (begins c path) s') s)
    by (unfold begins; case_bool_decide; [by apply root_at|by apply idup_at]).
  eapply wp_mono; [exact W|]. intros i s1 (Rd1 & R1 & Hc & A1).
  eapply wp_mono; [apply (namex_loop_ok parent m _ i (begins c path) path [] s1); [lia|done|done]|].
  intros r s' (Rd' & R' & Hfd). split; [done|]. split; [by apply (reads_trans _ s1)|]. rewrite (reads_goto _ _ _ _ R1) in Hfd.
  unfold found in Hfd. destruct (goto _ _ _ _ _) as [[k name]|].
  - destruct Hfd as (j & -> & A' & E). exists j. split; [done|]. split; [done|]. intros d' n'. rewrite E, Hc. lia.
  - destruct Hfd as (-> & E). split; [done|]. intros d' n'. rewrite E, Hc. lia.
Qed.
End Paths.

Lemma goto_walk s es : forall n name, fst <$> goto false s n es name = walk s n es.
Proof.
  induction es as [|e es IH]; intros n name; [done|]. cbn [goto walk]. destruct (_ =? T_DIR); [|done]. cbn [negb andb].
  destruct (dir_find _ _ _); [|done]. apply IH.
Qed.

Lemma goto_parent s es : forall n name, goto true s n es name =
  match walk_parent s n es, last es with Some k, Some e => Some (k, take (Z.to_nat DIRSIZ) e) | _, _ => None end.
Proof.
  induction es as [|e es IH]; intros n name; [done|]. cbn [goto]. destruct es as [|e' es].
  - rewrite bool_decide_eq_true_2 by done. cbn. destruct (_ =? T_DIR); done.
  - rewrite bool_decide_eq_false_2 by done. cbn [andb]. unfold walk_parent. change (removelast (e :: e' :: es)) with (e :: removelast (e' :: es)).
    cbn [walk]. change (last (e :: e' :: es)) with (last (e' :: es)). destruct (_ =? T_DIR); [|done]. cbn [negb].
    destruct (dir_find _ _ _); [|done]. apply IH.
Qed.

(** C22: a path leads where its names lead.  In an open transaction, while the inode cache
    agrees with the disk and has two entries to spare, [namei] follows the components of
    the path from the root, or from the current directory [c], through the directories on
    the disk: it returns an entry for the inode they lead to, whose count is one higher
    and no other's, or 0 with every count as before, exactly when a component is missing
    or is not in a directory; [nameiparent] stops in the directory of the last component,
    whose name it returns.  Neither changes a block, panics, or leaves an inode locked. *)
Theorem namei_resolves (pid : Z) (cwd : nat) (dev_read : Z -> option (Z -> M fs (Z * list Z))) (m : nat) (c : Z) (path : list Z) (s : fs) :
  ready m s -> (2 <= nfree s)%nat -> (cwd < NINODE)%nat -> refers s 1 c cwd -> live s c ->
  let from := if bool_decide (head path = Some SLASH) then ROOTINO else c in
  let es := components path in
  wp (namei pid cwd dev_read path) (fun r s' => ready m s' /\ reads s s' /\
    match walk s from es with
    | None => r = None /\ forall d' n', refs s' d' n' = refs s d' n'
    | Some k => exists j, r = Some j /\ (j < NINODE)%nat /\ refers s' 1 k j /\ counted k 1 s s'
    end) s /\
  wp (nameiparent pid cwd dev_read path) (fun r s' => ready m s' /\ reads s s' /\
    match walk_parent s from es, last es with
    | Some k, Some e => exists j, r = Some (j, take (Z.to_nat DIRSIZ) e) /\ (j < NINODE)%nat /\ refers s' 1 k j /\ counted k 1 s s'
    | _, _ => r = None /\ forall d' n', refs s' d' n' = refs s d' n'
    end) s.
Proof.
  intros Rd Hf Hi Hr Hl from es. split.
  - unfold namei. apply wp_bind. eapply wp_mono; [apply (namex_ok pid cwd dev_read false m c path s Rd Hf Hi Hr Hl)|].
    intros r s' (Rd' & R & Hres). apply wp_pure. split; [done|]. split; [done|]. fold (begins c path) in from. unfold from, es.
    rewrite <- (goto_walk s (components path) (begins c path) []). destruct (goto _ _ _ _ _) as [[k name]|]; cbn [fmap option_fmap option_map fst].
    + destruct Hres as (j & -> & A & Hc). exists j. split; [done|]. split; [apply A|]. split; [apply A|done].
    + destruct Hres as (-> & E). done.
  - eapply wp_mono; [apply (namex_ok pid cwd dev_read true m c path s Rd Hf Hi Hr Hl)|].
    intros r s' (Rd' & R & Hres). split; [done|]. split; [done|]. rewrite goto_parent in Hres. fold (begins c path) in from. fold from in Hres. fold es in Hres.
    destruct (walk_parent s from es) as [k|]; [|done]. destruct (last es) as [e|]; [|done].
    destruct Hres as (j & -> & A & Hc). exists j. split; [done|]. split; [apply A|]. split; [apply A|done].
Qed.

(** ** An example tree *)

(** [/d/f]: inode 1 is the root, 2 the directory [d] in it, 3 the empty file [f] in [d]. *)
Definition tree_entry (n : Z) (name : list Z) : list Z := le16 n ++ dirname (Z.to_nat DIRSIZ) name.
Definition tree_dir (a b : Z) (name : list Z) (c : Z) : list Z :=
  tree_entry a [46] ++ tree_entry b [46; 46] ++ tree_entry c name ++ replicate 464 0.
Definition tree_node (t n a : Z) : inode := mkinode 1 0 0 (mksl false 0) true t 0 0 1 n (a :: replicate 12 0).
Definition tree_inodes : list Z :=
  concat (enc_dinode <$> [tree_node 0 0 0; tree_node T_DIR 48 100; tree_node T_DIR 48 101; tree_node T_FILE 0 0]) ++ replicate 256 0.
Definition tree_disk (b : Z) : list Z :=
  if b =? 32 then tree_inodes else if b =? 100 then tree_dir 1 1 [100] 2 else if b =? 101 then tree_dir 2 1 [102] 3
  else replicate 512 0.
Definition tree : fs := volume 1000 tree_disk (mksb 1000 900 8 30 2 32 60)
  (fun i => mkinode 1 1 (if i then 1 else 0) (mksl false 0) false 0 0 0 0 0 []).

Lemma tree_dino n : 1 <= n < 8 -> dino tree n = dec_dinode tree_inodes (n * 64) (mkinode 1 n 0 (mksl false 0) true 0 0 0 0 0 []).
Proof.
  intros H. unfold dino, tree. rewrite volume_view. change (sblock (volume _ _ ?sb _)) with sb.
  unfold IBLOCK, IPB, DINODE. cbn [sb_inodestart]. change (BSIZE / 64) with 8. rewrite Z.div_small, Z.mod_small by lia. done.
Qed.
Lemma tree_dino1 : like (dino tree 1) (tree_node T_DIR 48 100).
Proof. rewrite tree_dino by lia. by split; vm_compute. Qed.
Lemma tree_dino2 : like (dino tree 2) (tree_node T_DIR 48 101).
Proof. rewrite tree_dino by lia. by split; vm_compute. Qed.
Lemma tree_live n : live tree n -> n = 1 \/ n = 2 \/ n = 3.
Proof.
  intros [H1 H2]. change (1 <= n < 8) in H1. rewrite tree_dino in H2 by done.
  assert (n = 1 \/ n = 2 \/ n = 3 \/ n = 4 \/ n = 5 \/ n = 6 \/ n = 7) as [?|[?|[?|[->|[->|[->| ->]]]]]] by lia; auto; destruct H2; vm_compute; done.
Qed.
Lemma tree_live3 n : 1 <= n <= 3 -> live tree n /\ inlink (dino tree n) <> 0.
Proof.
  intros H. unfold live. rewrite tree_dino by lia. split; [split|].
  - change (1 <= n < 8). lia.
  - assert (n = 1 \/ n = 2 \/ n = 3) as [->|[->| ->]] by lia; vm_compute; done.
  - assert (n = 1 \/ n = 2 \/ n = 3) as [->|[->| ->]] by lia; vm_compute; done.
Qed.
Lemma tree_dir_ok a : 100 <= a <= 101 -> dir_ok tree (tree_node T_DIR 48 a).
Proof.
  intros Ha. assert (Hk : forall k, 0 <= k < nblocks (tree_node T_DIR 48 a) -> k = 0 /\ file_block tree (tree_node T_DIR 48 a) k = a).
  { intros k Hk. change (nblocks (tree_node T_DIR 48 a)) with 1 in Hk. assert (k = 0) as -> by lia. done. }
  split; [|done|done]. split; [done|done|split; done|..].
  - intros k H. destruct (Hk k H) as [_ ->]. unfold tree. rewrite volume_view. split; [unfold home, in_log; cbn; lia|]. split; [lia|].
    assert (a = 100 \/ a = 101) as [->| ->] by lia; vm_compute; done.
  - intros H. change (nblocks (tree_node T_DIR 48 a)) with 1 in H. unfold NDIRECT in H. lia.
  - intros k j H1 H2 _. destruct (Hk k H1), (Hk j H2). congruence.
Qed.
Lemma tree_dents a k : 100 <= a <= 101 -> 0 <= k < 3 -> 1 <= fst (dent tree (tree_node T_DIR 48 a) k) <= 3.
Proof.
  intros Ha Hk. unfold dent. rewrite (list_fmap_ext (fbyte tree (tree_node T_DIR 48 a)) (byte_at (tree_disk a))).
  - assert (a = 100 \/ a = 101) as [->| ->] by lia; assert (k = 0 \/ k = 1 \/ k = 2) as [->|[->| ->]] by lia; vm_compute; split; discriminate.
  - intros i j Hj. apply lookup_seqZ in Hj. change DIRENT with 16 in Hj. unfold fbyte, tree. rewrite volume_view. change BSIZE with 512.
    rewrite Z.div_small, Z.mod_small by lia. done.
Qed.
Lemma tree_graph : graph_ok tree.
Proof.
  assert (D : forall n, live tree n -> itype (dino tree n) = T_DIR -> exists a, 100 <= a <= 101 /\ like (dino tree n) (tree_node T_DIR 48 a)).
  { intros n Hl. destruct (tree_live n Hl) as [->|[->| ->]].
    - intros _. exists 100. split; [lia|apply tree_dino1].
    - intros _. exists 101. split; [lia|apply tree_dino2].
    - rewrite tree_dino by lia. vm_compute. done. }
  split.
  - intros n Hn. change (1 <= n < 8) in Hn. unfold IBLOCK, IPB. cbn [tree volume sblock sb_inodestart disksize]. change (BSIZE / DINODE) with 8.
    rewrite Z.div_small by lia. vm_compute. split; [discriminate|done].
  - intros n Hl Ht. destruct (D n Hl Ht) as (a & Ha & L). destruct (tree_dir_ok a Ha) as [Fo _ _].
    split; [by apply (file_like _ _ _ L)|done|by rewrite (lk_size _ _ L)].
  - intros n k Hl Ht Hk m Hm. destruct (D n Hl Ht) as (a & Ha & L). unfold nents in Hk. rewrite (lk_size _ _ L) in Hk. change (0 <= k < 3) in Hk.
    apply tree_live3. unfold m. rewrite (dent_like _ _ _ _ L). by apply tree_dents.
  - by apply tree_live3.
Qed.
Lemma tree_ready : ready 29 tree.
Proof.
  split; [apply volume_trans; lia| |apply tree_graph]. split.
  - split; [intros [|i] _; cbn; lia|]. intros d n [|i] [|j] _ _ [H1 _] [H2 _]; cbn in *; lia || reflexivity.
  - done.
  - done.
Qed.

Lemma namei_resolves_witness :
  wp (namei 1 0 (fun _ => None) [47; 100; 47; 102]) (fun r s' => exists j, r = Some j /\ refers s' 1 3 j) tree.
Proof.
  destruct (namei_resolves 1 0 (fun _ => None) 29 1 [47; 100; 47; 102] tree tree_ready) as [W _].
  - vm_compute. lia.
  - unfold NINODE. lia.
  - done.
  - apply tree_live3. lia.
  - eapply wp_mono; [exact W|]. cbv zeta. intros r s' (_ & _ & H).
    assert (E : walk tree ROOTINO (components [47; 100; 47; 102]) = Some 3) by (vm_compute; reflexivity).
    rewrite bool_decide_eq_true_2, E in H by done. destruct H as (j & -> & _ & Hr & _). exists j. split; [reflexivity|exact Hr].
Defined.
