(* ===== verification/FsGrow.v ===== *)
(** * Files that grow

    [bmap] allocates the block behind the end of a file, and [writei] extends the file with
    it: the file then holds its old bytes and the new ones, and every other file what it
    held before. *)

From S2P Require Import Prelude Mkfs Mem Bio Log BioRules LogRules LogProps Fs FsRules FsFile FsProps FsVol FsName FileProps MkfsLay.
Local Open Scope Z_scope.

(** Blocks and inodes change, but nothing else of the file system, and no block on the disk. *)
Definition moves (s s' : fs) : Prop := exists ws, fstep ws (set_icache (icache s') s) s'.

Lemma moves_fstep ws s s' : fstep ws s s' -> moves s s'.
Proof. intros [A1 A2 A3 A4 A5 A6]. exists ws. by split. Qed.
Lemma moves_icache c s : moves s (set_icache c s).
Proof. exists []. by split. Qed.
Lemma moves_trans s s1 s2 : moves s s1 -> moves s1 s2 -> moves s s2.
Proof.
  intros [w1 [A1 A2 A3 A4 A5 A6]] [w2 [B1 B2 B3 B4 B5 B6]]. exists (w1 ++ w2). split; cbn in *; try congruence.
  intros b. rewrite B1, apply_app. apply apply_ext, A1.
Qed.
Lemma moves_steady s s' : moves s s' -> steady s s'.
Proof. intros [ws F]. apply (steady_fstep ws) in F as [E1 E2 E3]. by split. Qed.

Lemma areas_trans s s1 s2 : areas s s1 -> areas s1 s2 -> areas s s2.
Proof.
  intros [A1 A2 A3 A4 A5] [B1 B2 B3 B4 B5]. pose proof (sd_sb _ _ A1) as E. rewrite E in *. split; [by apply (steady_trans _ s1)|done|done|..].
  - intros m Hm. by rewrite B4, A4.
  - auto.
Qed.
Lemma areas_icache c s s' : areas s s' -> areas s (set_icache c s').
Proof. intros [A1 [M1 M2 M3 M4 M5] A3 A4 A5]. split; [by destruct A1; split|by split|done|done|done]. Qed.

(** How many blocks are free does not depend on more than the map. *)
Lemma filter_ext_in {A} (P Q : A -> Prop) `{forall x, Decision (P x)} `{forall x, Decision (Q x)} (l : list A) :
  (forall x, x ∈ l -> P x <-> Q x) -> filter P l = filter Q l.
Proof.
  induction l as [|a l IH]; intros E; [done|]. rewrite !filter_cons, IH by (intros x Hx; apply E; by right).
  destruct (decide (P a)) as [Hp|Hp], (decide (Q a)) as [Hq|Hq]; try done; destruct (E a ltac:(left)); tauto.
Qed.
Lemma nfreeb_same s s' : sblock s' = sblock s -> (forall c, 0 <= c < sb_size (sblock s) -> inuse s' c = inuse s c) -> nfreeb s' = nfreeb s.
Proof.
  intros E U. unfold nfreeb. rewrite E. f_equal. f_equal. apply filter_ext_in. intros b Hb. apply elem_of_seqZ in Hb. rewrite U by lia. done.
Qed.
Lemma nfreeb_allocs r s s' : bitmap_ok s -> allocs r s s' -> nfreeb s' + 1 = nfreeb s.
Proof.
  intros Ho Ha. pose proof Ha as [(Hr & Hf & _) F]. unfold nfreeb. rewrite (fs_sb _ _ _ F).
  rewrite (filter_ext_in (fun b => inuse s' b = false) (fun b => b <> r /\ inuse s b = false)).
  - pose proof (count_change (fun b => inuse s b = false) (fun b => b <> r /\ inuse s b = false) (seqZ 0 (sb_size (sblock s))) r) as C.
    rewrite (bool_decide_eq_true_2 (inuse s r = false)) in C by done. rewrite (bool_decide_eq_false_2 (r <> r /\ _)) in C by tauto. cbn [one] in C.
    pose proof (C ltac:(apply NoDup_seqZ) ltac:(apply elem_of_seqZ; lia) ltac:(intros; tauto)). lia.
  - intros b Hb. apply elem_of_seqZ in Hb. rewrite (allocs_inuse r s s') by (done || lia). destruct (Z.eqb_spec b r); cbn; intuition congruence.
Qed.

Section Grow.
Context (pid : Z) (I : Z -> inode) (N : Z -> Z) (n : Z) (i : nat).

Notation filed := (filed I N n).
Notation fresh := (fresh I N n).
Notation keeps := (keeps I N n).

Lemma filed_allocs s s' p nb r : filed s p nb -> allocs r s s' ->
  filed s' p nb /\ areas s s' /\ keeps s s' /\ data_block s' r /\ fresh s' p nb r /\ view s' r = zeros /\ same_file s s' p nb.
Proof.
  intros F Ha. pose proof F as (S & Hn & Ht). destruct (allocs_store r s s' _ _ S Ha) as (S' & D & U & Z & Sf & Hi).
  pose proof Ha as [Hff Fs]. pose proof (steady_fstep _ _ _ Fs) as St.
  assert (F' : filed s' p nb) by (split; [done|]; by rewrite (sd_sb _ _ St)).
  split; [done|]. split; [|split; [|split; [done|split; [by apply fresh_unowned|split; [done|]]]]].
  - split; [done|apply S'|apply S'|done|]. intros b Hb Hu. rewrite (allocs_inuse r s s') by (apply S || done). rewrite Hu. apply orb_true_r.
  - intros m Hne [U1 U2] b Hb. assert (Um : used s (<[n := p]> I) m) by (split; [done|by rewrite zfn_insert_ne by congruence]).
    apply (Sf m Um). by rewrite !zfn_insert_ne by congruence.
  - pose proof (Sf n (filed_used _ _ _ _ _ _ F)) as X. by rewrite !zfn_insert_eq in X.
Qed.

Lemma filed_icache c s p nb : filed s p nb -> filed (set_icache c s) p nb.
Proof.
  intros F. apply (filed_update I N n s _ p nb); [done|apply areas_icache, (areas_refl I N n s p nb F)|by intros m _ _ b _|apply F| |].
  - apply (alloc_frame s); [by apply (filed_alloc I N n)|by split|by intros b _|].
    intros b Hb. apply (db_used s b), (ao_data _ _ _ (filed_alloc _ _ _ _ _ _ F)), Hb.
  - intros b Hb. by left.
Qed.

Lemma keeps_trans s s1 s2 p nb : filed s p nb -> areas s s1 -> keeps s s1 -> keeps s1 s2 -> keeps s s2.
Proof.
  intros F Ar K1 K2 m Hne Um. apply (same_file_trans s s1); [by apply (filed_other I N n s p nb)|by apply K1|].
  apply K2; [done|]. unfold used in *. by rewrite (sd_sb _ _ (ar_steady _ _ Ar)).
Qed.

(** The number of blocks of a file, the indirect block included. *)
Definition owned (p : inode) (nb : Z) : Z := nb + (if addr_at p NDIRECT =? 0 then 0 else 1).

(** From [p] with [nb] blocks to [p'] with [nb']: the old blocks stay, with their content;
    blocks are taken from the free ones; the other files stay. *)
Record grew (m : nat) (p : inode) (nb : Z) (s : fs) (p' : inode) (nb' : Z) (s' : fs) : Prop := mkgrew {
  gw_trans : trans m s';
  gw_inode : icache s' i = p' /\ p' = set_iaddrs (iaddrs p') p;
  gw_cache : forall j, j <> i -> icache s' j = icache s j;
  gw_filed : filed s' p' nb';
  gw_areas : areas s s';
  gw_keeps : keeps s s';
  gw_moves : moves s s';
  gw_old : forall j, 0 <= j < nb -> let b := file_block s p j in file_block s' p' j = b /\ view s' b = view s b;
  gw_count : nfreeb s' + owned p' nb' = nfreeb s + owned p nb }.

Lemma grew_trans m1 m2 p nb s p1 nb1 s1 p2 nb2 s2 : filed s p nb -> nb <= nb1 -> grew m1 p nb s p1 nb1 s1 -> grew m2 p1 nb1 s1 p2 nb2 s2 ->
  grew m2 p nb s p2 nb2 s2.
Proof.
  intros F Hle [A1 [A2 A2'] A3 A4 A5 A6 A7 A8 A9] [B1 [B2 B2'] B3 B4 B5 B6 B7 B8 B9]. split.
  - done.
  - split; [done|]. rewrite B2', A2'. by destruct p.
  - intros j Hj. by rewrite B3, A3.
  - done.
  - by apply (areas_trans _ s1).
  - by apply (keeps_trans s s1 s2 p nb).
  - by apply (moves_trans _ s1).
  - intros j Hj b. destruct (A8 j Hj) as [E1 V1]. destruct (B8 j ltac:(lia)) as [E2 V2]. rewrite E1 in E2, V2. fold b in E2, V2, V1. split; [done|congruence].
  - lia.
Qed.

(** A step that reads. *)
Lemma grew_same m p nb s s' : trans m s' -> icache s i = p -> filed s p nb -> fstep [] s s' -> grew m p nb s p nb s'.
Proof.
  intros T' E F Fs. pose proof (filed_alloc _ _ _ _ _ _ F) as A.
  assert (V : forall b, view s' b = view s b) by (intros b; apply (fs_view _ _ _ Fs)).
  assert (Ek : forall j, file_block s' p j = file_block s p j) by (intros j; unfold file_block; by rewrite V).
  assert (U : forall c, inuse s' c = inuse s c) by (intros c; apply (inuse_same _ _ _ Fs)).
  assert (Ar : areas s s').
  { destruct F as (S & _). split; [by apply (steady_fstep [])|apply (bitmap_same _ _ Fs), S| |intros b _; apply V|intros b _; by rewrite U].
    destruct (so_sb _ _ _ S) as [C1 C2]. split; [by rewrite V, (fs_sb _ _ _ Fs)|by rewrite (fs_size _ _ _ Fs)]. }
  split; [done|split; [by rewrite (fs_icache _ _ _ Fs)|by destruct p]|by intros j _; rewrite (fs_icache _ _ _ Fs)| |done|by intros x _ _ b _|by apply (moves_fstep [])|done|].
  - apply (filed_update I N n s s' p nb); [done|done|by intros x _ _ b _|apply F| |].
    + apply (alloc_frame s); [done|by apply (steady_fstep [])|by intros b _|]. intros b Hb. rewrite U. by apply (db_used s b), (ao_data _ _ _ A).
    + intros b [(j & Hj & ->)|X]; left; [left; exists j; by rewrite Ek|by right].
  - f_equal. by apply nfreeb_same; [apply (fs_sb _ _ _ Fs)|].
Qed.

(** What [bmap] on block [k] of the file does. *)
Definition mapped (m : nat) (k : Z) (p : inode) (nb : Z) (s : fs) (a : Z) (s' : fs) : Prop :=
  exists p', grew m p nb s p' (Z.max nb (k + 1)) s' /\ a = file_block s' p' k /\ (nb <= k -> view s' a = zeros) /\ (k < nb -> p' = p).

Lemma map_old m k p nb s : trans m s -> icache s i = p -> idev p = 1 -> filed s p nb -> 0 <= k < nb ->
  wp (bmap pid i k) (fun a s' => mapped m k p nb s a s') s.
Proof.
  intros T E Hd F Hk. pose proof (filed_alloc _ _ _ _ _ _ F) as A. pose proof A as [A1 A2 A3 A4 A5 A6 A7 A8].
  assert (Hs : forall a s', trans m s' -> fstep [] s s' -> a = file_block s p k -> mapped m k p nb s a s').
  { intros a s' T' Fs Ea. exists p. rewrite Z.max_l by lia. split; [by apply grew_same|]. split; [|split; [lia|done]].
    rewrite Ea. unfold file_block. by rewrite (fs_view _ _ _ Fs). }
  assert (Hnz : file_block s p k <> 0) by (destruct (A3 (file_block s p k)) as [_ B2 _ _ _]; [left; by exists k|lia]).
  unfold bmap. apply wp_bind, wp_gets. rewrite E. unfold id. unfold file_block in Hnz. destruct (Z.ltb_spec k NDIRECT).
  - destruct (Z.eqb_spec (addr_at p k) 0); [done|]. apply wp_pure. apply Hs; [done|apply fstep_refl|]. unfold file_block. destruct (Z.ltb_spec k NDIRECT); [done|lia].
  - destruct (Z.ltb_spec (k - NDIRECT) NINDIRECT); [|unfold MAXFILE in A2; lia].
    assert (Ha : addr_at p NDIRECT <> 0) by (apply A4; lia). destruct (Z.eqb_spec (addr_at p NDIRECT) 0); [done|].
    apply wp_bind, wp_pure, wp_bind, wp_gets. rewrite E, Hd. destruct (A3 (addr_at p NDIRECT)) as [[B1 _] _ _ _ _]; [by right|].
    apply (wp_bread pid m); [done|done|]. intros x s1 H1. apply (wp_getdata _ _ _ _ _ _ _ H1). cbv zeta.
    destruct (Z.eqb_spec (rd32 (view s (addr_at p NDIRECT)) (4 * (k - NDIRECT))) 0); [done|].
    apply (wp_brelse _ _ _ _ _ _ _ H1). intros s' T' F'. apply wp_pure. apply Hs; [done|done|]. unfold file_block. destruct (Z.ltb_spec k NDIRECT); [lia|done].
Qed.

(** [ip->addrs[x] = balloc(ip->dev)]: the block taken, and the state before it is attached. *)
Lemma nfreeb_some s : 0 < nfreeb s -> exists c, 0 <= c < sb_size (sblock s) /\ inuse s c = false.
Proof.
  unfold nfreeb. destruct (filter _ _) as [|c l] eqn:E; [cbn; lia|]. intros _. exists c.
  assert (Hc : c ∈ filter (fun b => inuse s b = false) (seqZ 0 (sb_size (sblock s)))) by (rewrite E; left).
  apply list_elem_of_filter in Hc as [Hz Hc]. apply elem_of_seqZ in Hc. split; [lia|done].
Qed.

(** The block [r] taken from the map becomes part of the inode. *)
Lemma grew_attach m p nb s r s1 x nb' : icache s i = p -> filed s p nb -> allocs r s s1 -> trans m s1 ->
  let p' := set_addr x r p in filed s1 p' nb' -> (forall k, 0 <= k < nb -> file_block s1 p' k = file_block s1 p k) ->
  owned p' nb' = owned p nb + 1 -> grew m p nb s p' nb' (set_icache (<[i := p']> (icache s1)) s1).
Proof.
  intros E F Ha T p' F' Ek Hc. destruct (filed_allocs s s1 p nb r F Ha) as (F1 & Ar & K & D & Fr & Z0 & Sf).
  pose proof Ha as [_ Fs]. split.
  - by apply trans_icache.
  - split; [apply fn_insert_eq|by destruct p].
  - intros j Hj. cbn. rewrite fn_insert_ne by congruence. by rewrite (fs_icache _ _ _ Fs).
  - by apply filed_icache.
  - by apply areas_icache.
  - done.
  - apply (moves_trans _ s1); [by apply (moves_fstep _ _ _ Fs)|apply moves_icache].
  - intros j Hj b. pose proof (Ek j Hj) as E1. rewrite (same_block s s1 p nb) in E1 by (done || by apply (filed_alloc I N n)).
    split; [done|]. apply (Sf b). left. by exists j.
  - pose proof (nfreeb_allocs r s s1 (so_map _ _ _ (proj1 F)) Ha). change (nfreeb (set_icache _ s1)) with (nfreeb s1). lia.
Qed.

Lemma map_direct m p nb s : trans (S (S m)) s -> icache s i = p -> idev p = 1 -> filed s p nb -> nb < NDIRECT -> 1 <= nfreeb s ->
  wp (bmap pid i nb) (fun a s' => mapped m nb p nb s a s') s.
Proof.
  intros T E Hd F Hk Hfree. pose proof (filed_alloc _ _ _ _ _ _ F) as A. pose proof (ao_nb _ _ _ A) as Hnb. pose proof F as (S & _).
  unfold bmap. apply wp_bind, wp_gets. rewrite E. unfold id. destruct (Z.ltb_spec nb NDIRECT); [|lia].
  rewrite (ao_zero _ _ _ A nb) by lia. rewrite Z.eqb_refl, Hd. apply wp_bind.
  eapply wp_mono; [apply (balloc_ok pid m s T (so_map _ _ _ S) (so_size _ _ _ S)); apply nfreeb_some; lia|].
  intros r s1 (Hff & T1 & Fs). assert (Ha : allocs r s s1) by done. apply wp_bind, wp_modify, wp_pure.
  assert (E1 : icache s1 i = p) by (rewrite (fs_icache _ _ _ Fs); done). rewrite E1.
  destruct (filed_allocs s s1 p nb r F Ha) as (F1 & Ar & K & D & Fr & Z0 & Sf).
  destruct (attach_direct I N n s1 p nb r F1 Hk D Fr) as (F2 & E2 & E3). exists (set_addr nb r p). rewrite Z.max_r by lia. split; [|split; [done|split; [done|lia]]].
  apply (grew_attach m p nb s r s1 nb (nb + 1)); [done|done|done|done|done|done|].
  unfold owned. rewrite addr_at_set by (rewrite ?(ao_len _ _ _ A); unfold NDIRECT in *; lia). destruct (Z.eqb_spec NDIRECT nb); lia.
Qed.

(** [if(ip->addrs[NDIRECT] == 0) ip->addrs[NDIRECT] = balloc(ip->dev)] *)
Lemma need_indirect m p nb s : trans (S (S m)) s -> icache s i = p -> idev p = 1 -> filed s p nb -> (addr_at p NDIRECT = 0 -> 1 <= nfreeb s) ->
  wp (if addr_at p NDIRECT =? 0 then a' <- balloc pid (idev p) ;; updi i (set_addr NDIRECT a') else ret tt)
    (fun _ s' => exists p', grew m p nb s p' nb s' /\ addr_at p' NDIRECT <> 0) s.
Proof.
  intros T E Hd F Hfree. pose proof (filed_alloc _ _ _ _ _ _ F) as A. pose proof F as (S & _). destruct (Z.eqb_spec (addr_at p NDIRECT) 0) as [Hz|Hz].
  - rewrite Hd. apply wp_bind. eapply wp_mono; [apply (balloc_ok pid m s T (so_map _ _ _ S) (so_size _ _ _ S)); apply nfreeb_some; specialize (Hfree Hz); lia|].
    intros r s1 (Hff & T1 & Fs). assert (Ha : allocs r s s1) by done. apply wp_modify.
    assert (E1 : icache s1 i = p) by (rewrite (fs_icache _ _ _ Fs); done). rewrite E1.
    destruct (filed_allocs s s1 p nb r F Ha) as (F1 & Ar & K & D & Fr & Z0 & Sf).
    destruct (attach_indirect I N n s1 p nb r F1 Hz D Fr Z0) as (F2 & E2 & E3). exists (set_addr NDIRECT r p). pose proof (db_range _ _ D) as Hr. split; [|lia].
    apply (grew_attach m p nb s r s1 NDIRECT nb); [done|done|done|done|done|done|]. unfold owned. rewrite E2, Hz.
    destruct (Z.eqb_spec r 0); [lia|]. cbn. lia.
  - apply wp_pure. exists p. split; [|done]. apply grew_same; [by apply (trans_weaken (Datatypes.S (Datatypes.S m))); [lia|]|done|done|apply fstep_refl].
Qed.

(** The entry of the indirect block filled in while it is held. *)
Lemma map_entry m p nb s ii s2 a' : icache s i = p -> filed s p nb -> NDIRECT <= nb < MAXFILE -> addr_at p NDIRECT <> 0 ->
  1 <= nfreeb s -> held (4 + m) (addr_at p NDIRECT) ii s s2 -> a' = 4 * (nb - NDIRECT) ->
  wp (e' <- balloc pid 1 ;; updb ii (fun b => set_bdata (wr32 (bdata b) a' e') b) ;;; log_write ii ;;; brelse ii ;;; ret e')
    (fun a s' => mapped m nb p nb s a s') s2.
Proof.
  intros E F Hnb Hz Hfree H2 ->. pose proof (filed_alloc _ _ _ _ _ _ F) as A. pose proof F as (S & _). set (b0 := addr_at p NDIRECT) in *.
  destruct (ao_data _ _ _ A b0) as [B1 B2 B3 B4 B5]; [by right|].
  assert (Hmo : map_other (fun b => b <> b0) s).
  { intros c Hc. split; [intros E0; apply B5; right; by exists c|]. intros Hu ->. congruence. }
  apply wp_bind. eapply wp_mono; [apply (balloc_in pid (beside b0 ii) (held_beside b0 ii) (fun b => b <> b0) (Datatypes.S m) s s2); [exact H2|apply S|exact Hmo|apply S|apply nfreeb_some; lia]|].
  intros r s3 (Hff & s1 & H3 & Fs). assert (Ha : allocs r s s1) by done. apply (wp_updb_data ii (fun d => wr32 d (4 * (nb - NDIRECT)) r)).
  destruct (filed_allocs s s1 p nb r F Ha) as (F1 & Ar & K & D & Fr & Z0 & Sf). pose proof H3 as [_ A3]. rewrite (h1_data _ _ _ _ A3).
  assert (Eb : view s1 b0 = view s b0) by (apply Sf; by right).
  apply (wp_log (Datatypes.S m) b0 ii _ s1 s3 _ _ H3); [by apply (steady_home s); [apply (steady_fstep _ _ _ Fs)|]|].
  intros s4 T4 F4. apply wp_pure. destruct (attach_entry I N n s1 s4 p nb r F1 Hnb Hz D Fr F4) as (F5 & Ar5 & K5 & E5 & E6 & V5 & U5).
  exists p. rewrite Z.max_r by lia. split; [|split; [done|split; [|done]]].
  - split.
    + by apply (trans_weaken (Datatypes.S m)); [lia|].
    + split; [by rewrite (fs_icache _ _ _ F4), (fs_icache _ _ _ Fs)|by destruct p].
    + intros j _. by rewrite (fs_icache _ _ _ F4), (fs_icache _ _ _ Fs).
    + done.
    + by apply (areas_trans _ s1).
    + by apply (keeps_trans s s1 s4 p nb).
    + apply (moves_trans _ s1); [apply (moves_fstep _ _ _ Fs)|apply (moves_fstep _ _ _ F4)].
    + intros j Hj b. rewrite E6 by done. rewrite (same_block s s1 p nb) by done. split; [done|].
      assert (Hb : owns s p nb b) by (left; by exists j). rewrite V5, (Sf b Hb) by (apply (ao_apart _ _ _ A); lia). done.
    + pose proof (nfreeb_allocs r s s1 (so_map _ _ _ S) Ha). rewrite (nfreeb_same s1 s4); [unfold owned; lia|apply F4|done].
  - intros _. rewrite V5; [done|]. intros ->. by apply (proj1 Fr); right.
Qed.

Lemma map_indirect m p nb s : trans (6 + m) s -> icache s i = p -> idev p = 1 -> filed s p nb -> NDIRECT <= nb < MAXFILE ->
  1 + (if addr_at p NDIRECT =? 0 then 1 else 0) <= nfreeb s ->
  wp (bmap pid i nb) (fun a s' => mapped m nb p nb s a s') s.
Proof.
  intros T E Hd F Hk Hfree. unfold bmap. apply wp_bind, wp_gets. rewrite E. unfold id. destruct (Z.ltb_spec nb NDIRECT); [lia|]. cbv zeta.
  destruct (Z.ltb_spec (nb - NDIRECT) NINDIRECT); [|unfold MAXFILE in Hk; lia].
  apply wp_bind. eapply wp_mono; [apply (need_indirect (4 + m) p nb s T E Hd F)|]; [intros Hz; rewrite Hz in Hfree; cbn in Hfree; lia|].
  intros [] s1 (p1 & G1 & Hz1). pose proof (gw_inode _ _ _ _ _ _ _ G1) as [E1 Ep]. apply wp_bind, wp_gets. rewrite E1.
  assert (Hd1 : idev p1 = 1) by (by rewrite Ep). pose proof (gw_filed _ _ _ _ _ _ _ G1) as F1. pose proof (filed_alloc _ _ _ _ _ _ F1) as A1.
  destruct (ao_data _ _ _ A1 (addr_at p1 NDIRECT)) as [[B1 _] _ _ _ _]; [by right|]. rewrite Hd.
  apply (wp_bread pid (4 + m)); [apply G1|done|]. intros ii s2 H2. apply (wp_getdata _ _ _ _ _ _ _ H2). cbv zeta.
  rewrite (ao_izero _ _ _ A1 nb) by (done || lia). rewrite Z.eqb_refl.
  assert (Hc : 1 <= nfreeb s1).
  { pose proof (gw_count _ _ _ _ _ _ _ G1) as C. unfold owned in C. destruct (Z.eqb_spec (addr_at p1 NDIRECT) 0); [done|]. destruct (addr_at p NDIRECT =? 0); lia. }
  eapply wp_mono; [apply (map_entry m p1 nb s1 ii s2 _ E1 F1 Hk Hz1 Hc H2 eq_refl)|]. intros a s3 (p2 & G2 & Ea & Hv & _).
  exists p2. split; [|split; [done|split; [done|lia]]]. by apply (grew_trans (4 + m) m p nb s p1 nb s1); [|lia|..].
Qed.

(** [bmap] on a block of the file or the one behind its end. *)
Lemma bmap_grow m k p nb s : trans (6 + m) s -> icache s i = p -> idev p = 1 -> filed s p nb -> 0 <= k <= nb -> k < MAXFILE ->
  (k = nb -> 1 + (if addr_at p NDIRECT =? 0 then 1 else 0) <= nfreeb s) ->
  wp (bmap pid i k) (fun a s' => mapped m k p nb s a s') s.
Proof.
  intros T E Hd F Hk Hm Hfree. destruct (decide (k = nb)) as [->|].
  - destruct (Z.lt_ge_cases nb NDIRECT).
    + apply map_direct; [by apply (trans_weaken (6 + m)); [lia|]|done|done|done|done|]. specialize (Hfree eq_refl). destruct (_ =? 0); lia.
    + apply map_indirect; [done|done|done|done|lia|auto].
  - apply map_old; [by apply (trans_weaken (6 + m)); [lia|]|done|done|done|lia].
Qed.

(** ** Writing *)

(** The bytes of the file after [src] was overlaid over it at [off]; what is new and not
    written is zero. *)
Definition overlaid (off : Z) (src : list Z) (old : Z -> Z) (end_ j : Z) : Z :=
  if (off <=? j) && (j <? off + Z.of_nat (length src)) then byte_at src (j - off) else if j <? end_ then old j else 0.

Record extended (m : nat) (off : Z) (src : list Z) (p : inode) (nb : Z) (s : fs) (p' : inode) (nb' : Z) (s' : fs) : Prop := mkext {
  ex_trans : trans m s';
  ex_inode : icache s' i = p' /\ p' = set_iaddrs (iaddrs p') p;
  ex_cache : forall j, j <> i -> icache s' j = icache s j;
  ex_filed : filed s' p' nb';
  ex_areas : areas s s';
  ex_keeps : keeps s s';
  ex_moves : moves s s';
  ex_bytes : forall j, 0 <= j < BSIZE * nb' -> fbyte s' p' j = overlaid off src (fbyte s p) (BSIZE * nb) j;
  ex_count : nfreeb s' + owned p' nb' = nfreeb s + owned p nb;
  ex_still : nb' = nb -> p' = p }.

Lemma overlaid_app off src1 src2 old e1 e2 j : off + Z.of_nat (length src1) <= e2 -> e1 <= e2 ->
  overlaid (off + Z.of_nat (length src1)) src2 (overlaid off src1 old e1) e2 j = overlaid off (src1 ++ src2) old e1 j.
Proof.
  intros H1 H2. unfold overlaid. rewrite length_app. unfold byte_at. destruct (Z.ltb_spec j e2), (Z.ltb_spec j e1); try lia;
    repeat (case_if; zbool); try lia; try reflexivity.
  all: try (rewrite lookup_app_r by lia; f_equal; f_equal; lia); try (rewrite lookup_app_l by lia; reflexivity).
Qed.

Lemma extended_nil m off p nb s : trans m s -> icache s i = p -> filed s p nb -> extended m off [] p nb s p nb s.
Proof.
  intros T E F. split; [done|split; [done|by destruct p]|done|done|by apply (areas_refl I N n s p nb)|by intros x _ _ b _|by apply (moves_fstep []), fstep_refl| |done|done].
  intros j Hj. unfold overlaid. change (Z.of_nat (length [])) with 0. destruct (Z.leb_spec off j), (Z.ltb_spec j (off + 0)), (Z.ltb_spec j (BSIZE * nb)); cbn [andb]; (lia || done).
Qed.

Lemma extended_trans m1 m2 off src1 src2 p nb s p1 nb1 s1 p2 nb2 s2 : filed s p nb -> nb <= nb1 <= nb2 -> off + Z.of_nat (length src1) <= BSIZE * nb1 ->
  extended m1 off src1 p nb s p1 nb1 s1 -> extended m2 (off + Z.of_nat (length src1)) src2 p1 nb1 s1 p2 nb2 s2 ->
  0 <= off -> extended m2 off (src1 ++ src2) p nb s p2 nb2 s2.
Proof.
  intros F Hle Ho [A1 [A2 A2'] A3 A4 A5 A6 A7 A8 A9 A10] [B1 [B2 B2'] B3 B4 B5 B6 B7 B8 B9 B10] H0. split.
  - done.
  - split; [done|]. rewrite B2', A2'. by destruct p.
  - intros j Hj. by rewrite B3, A3.
  - done.
  - by apply (areas_trans _ s1).
  - by apply (keeps_trans s s1 s2 p nb).
  - by apply (moves_trans _ s1).
  - intros j Hj. rewrite B8 by done. rewrite <- (overlaid_app off src1 src2 _ _ (BSIZE * nb1)) by (rewrite BSIZE_eq in *; lia).
    unfold overlaid at 1 2. destruct (_ && _) eqn:Eb; [done|]. destruct (Z.ltb_spec j (BSIZE * nb1)); [|done]. apply A8. lia.
  - lia.
  - intros Hn. rewrite B10 by lia. apply A10. lia.
Qed.

(** The block behind the end reads as zeros. *)
Lemma mapped_bytes m k p nb s p1 s1 a : filed s p nb -> 0 <= k <= nb -> grew m p nb s p1 (Z.max nb (k + 1)) s1 -> a = file_block s1 p1 k -> (nb <= k -> view s1 a = zeros) ->
  forall j, 0 <= j < BSIZE * Z.max nb (k + 1) -> fbyte s1 p1 j = if j <? BSIZE * nb then fbyte s p j else 0.
Proof.
  intros F Hk G -> Hz j Hj. unfold fbyte. rewrite BSIZE_eq in *. destruct (Z.ltb_spec j (512 * nb)).
  - destruct (gw_old _ _ _ _ _ _ _ G (j / 512)) as [E1 E2]; [Z.to_euclidean_division_equations; lia|]. by rewrite E1, E2.
  - assert (j / 512 = k) as -> by (Z.to_euclidean_division_equations; lia). rewrite Hz by lia. unfold byte_at, zeros.
    rewrite lookup_replicate_2; [done|]. rewrite BSIZE_eq. pose proof (Z.mod_pos_bound j 512 ltac:(lia)). lia.
Qed.

Lemma extended_write m off k src p nb s a s1 s2 : filed s p nb -> 0 <= k <= nb -> k = off / BSIZE -> off mod BSIZE + Z.of_nat (length src) <= BSIZE ->
  mapped (S m) k p nb s a s1 -> trans m s2 -> fstep [(a, splice (view s1 a) (off mod BSIZE) src)] s1 s2 ->
  exists p', extended m off src p nb s p' (Z.max nb (k + 1)) s2.
Proof.
  intros F Hk Ek Hl (p1 & G & Ea & Hz & Hs) T2 Fs. exists p1. pose proof (mapped_bytes _ _ _ _ _ _ _ _ F Hk G Ea Hz) as Hb.
  pose proof G as [A1 [A2 A2'] A3 A4 A5 A6 A7 A8 A9]. set (nb1 := Z.max nb (k + 1)) in *. subst a. pose proof (filed_alloc _ _ _ _ _ _ A4) as Al.
  assert (Hmod : 0 <= off mod BSIZE < BSIZE) by (apply Z.mod_pos_bound; reflexivity).
  assert (Hlen : length (view s1 (file_block s1 p1 k)) = 512%nat) by (apply (ao_data _ _ _ Al); left; exists k; split; [lia|done]).
  assert (Hd : length (splice (view s1 (file_block s1 p1 k)) (off mod BSIZE) src) = 512%nat) by (rewrite length_splice; rewrite ?Hlen, ?BSIZE_eq in *; lia).
  destruct (write_block I N n s1 s2 p1 nb1 k _ A4 ltac:(lia) Hd Fs) as (F2 & Ar2 & K2 & E2 & V2 & U2). split.
  - done.
  - split; [by rewrite (fs_icache _ _ _ Fs)|done].
  - intros j Hj. rewrite (fs_icache _ _ _ Fs). auto.
  - done.
  - by apply (areas_trans _ s1).
  - by apply (keeps_trans s s1 s2 p nb).
  - apply (moves_trans _ s1); [done|by apply (moves_fstep _ _ _ Fs)].
  - intros j Hj. assert (Hjk : 0 <= j / BSIZE < nb1) by (rewrite BSIZE_eq in *; Z.to_euclidean_division_equations; lia).
    unfold overlaid. rewrite <- Hb by done. unfold fbyte at 1. rewrite E2, V2 by done.
    destruct (Z.eqb_spec (file_block s1 p1 (j / BSIZE)) (file_block s1 p1 k)) as [Eq|Ne].
    + apply (ao_inj _ _ _ Al) in Eq; [|done|lia]. pose proof (Z.mod_pos_bound j BSIZE ltac:(reflexivity)) as Hmj. rewrite byte_splice by (rewrite ?Hlen, ?BSIZE_eq in *; lia).
      assert (Ej : j - off = j mod BSIZE - off mod BSIZE) by (rewrite BSIZE_eq in *; Z.to_euclidean_division_equations; lia).
      replace (off <=? j) with (off mod BSIZE <=? j mod BSIZE) by lia.
      replace (j <? off + Z.of_nat (length src)) with (j mod BSIZE <? off mod BSIZE + Z.of_nat (length src)) by lia. rewrite Ej.
      unfold fbyte. by rewrite Eq.
    + destruct (_ && _) eqn:Eb; [|done]. apply andb_true_iff in Eb as [E3 E4]. destruct Ne. f_equal.
      rewrite BSIZE_eq in *. Z.to_euclidean_division_equations. lia.
  - rewrite (nfreeb_same s1 s2); [done|apply Fs|done].
  - intros Hn. apply Hs. lia.
Qed.

(** The blocks of the file after [len] bytes at [off]. *)
Definition blocks_after (nb off len : Z) : Z := Z.max nb ((off + len + BSIZE - 1) / BSIZE).
(** There are free blocks for all of them and for an indirect block. *)
Definition enough_free (p : inode) (nb nb' : Z) (s : fs) : Prop :=
  nb < nb' -> nb' - nb + (if addr_at p NDIRECT =? 0 then 1 else 0) <= nfreeb s.

Lemma enough_free_step m off src p nb s p1 nb1 s1 nb' : enough_free p nb nb' s -> nb <= nb1 -> extended m off src p nb s p1 nb1 s1 -> enough_free p1 nb1 nb' s1.
Proof.
  intros H Hle X Hlt. pose proof (ex_count _ _ _ _ _ _ _ _ _ X) as C. unfold owned in C. specialize (H ltac:(lia)).
  destruct (addr_at p NDIRECT =? 0), (addr_at p1 NDIRECT =? 0); lia.
Qed.

Lemma writei_loop_grow f : forall m src off p nb s, let len := Z.of_nat (length src) in
  trans (7 * wblocks off len + m) s -> icache s i = p -> idev p = 1 -> filed s p nb -> 0 <= off <= BSIZE * nb ->
  off + len <= MAXFILE * BSIZE -> enough f off len -> enough_free p nb (blocks_after nb off len) s ->
  wp (writei_loop pid f i src off) (fun _ s' => exists p', extended m off src p nb s p' (blocks_after nb off len) s') s.
Proof.
  induction f as [|f IH]; intros m src off p nb s len T E Hd F Ho Hmax He Hfree; cbn [writei_loop].
  { exfalso. pose proof (Z.mod_pos_bound off BSIZE ltac:(reflexivity)) as Hm. destruct He as [[_ He]|He]; rewrite BSIZE_eq in *; lia. }
  fold len. destruct (len <=? 0) eqn:En; zbool.
  - apply wp_pure. assert (src = []) as -> by (destruct src; [auto|unfold len in *; cbn in *; lia]). exists p.
    assert (blocks_after nb off len = nb) as -> by (unfold blocks_after, len; cbn [length]; rewrite BSIZE_eq in *; Z.to_euclidean_division_equations; lia).
    apply extended_nil; [eapply trans_weaken; [|exact T]; lia|done|done].
  - apply wp_bind, wp_gets. rewrite E, Hd. set (k := Z.min len (BSIZE - off mod BSIZE)).
    destruct (wblocks_step (fun _ => None) (fun _ => None) off len ltac:(lia) ltac:(lia)) as (W0 & W1). fold k in W0, W1. rewrite W1 in T.
    assert (Hmod : 0 <= off mod BSIZE < BSIZE) by (apply Z.mod_pos_bound; reflexivity).
    assert (Hlt : Z.of_nat (length (take (Z.to_nat k) src)) = k) by (rewrite length_take; unfold k, len; lia).
    assert (Hk : 0 <= off / BSIZE <= nb /\ off / BSIZE < MAXFILE) by (rewrite BSIZE_eq in *; Z.to_euclidean_division_equations; lia).
    set (w := wblocks (off + k) (len - k)) in *. apply wp_bind.
    eapply wp_mono; [apply (bmap_grow (S (7 * w + m)) (off / BSIZE) p nb s); [eapply trans_weaken; [|exact T]; lia|done|done|done|lia|lia|]|].
    { intros Ek. unfold enough_free in Hfree. unfold blocks_after in Hfree. rewrite BSIZE_eq in *. Z.to_euclidean_division_equations. lia. }
    intros a s1 Hm1. pose proof Hm1 as (p1 & G & Ea & _). pose proof (gw_filed _ _ _ _ _ _ _ G) as F1.
    assert (Hh1 : home s1 a) by (rewrite Ea; apply (ao_data _ _ _ (filed_alloc _ _ _ _ _ _ F1)); left; eexists; split; [|done]; lia).
    apply (wp_bread pid (S (7 * w + m)) _ s1); [apply G|apply Hh1|]. intros ii s2 H2.
    apply (wp_updb_data ii (fun d => splice d (off mod BSIZE) (take (Z.to_nat k) src))). cbn beta. rewrite (h1_data _ _ _ _ (proj2 H2)).
    apply (wp_log _ _ _ _ _ _ _ _ H2 Hh1). intros s3 T3 F3.
    destruct (extended_write (7 * w + m) off (off / BSIZE) (take (Z.to_nat k) src) p nb s a s1 s3 F ltac:(lia) eq_refl ltac:(lia) Hm1 T3 F3) as (p3 & X).
    pose proof (ex_inode _ _ _ _ _ _ _ _ _ X) as [E3 Ep3]. set (nb1 := Z.max nb (off / BSIZE + 1)) in *.
    assert (Hld : Z.of_nat (length (drop (Z.to_nat k) src)) = len - k) by (rewrite length_drop; unfold len; lia).
    assert (Hba : blocks_after nb1 (off + k) (len - k) = blocks_after nb off len).
    { unfold blocks_after, nb1. replace (off + k + (len - k)) with (off + len) by lia. rewrite BSIZE_eq in *. Z.to_euclidean_division_equations. lia. }
    assert (Hnb1 : off + k <= BSIZE * nb1) by (unfold nb1, k; rewrite BSIZE_eq in *; Z.to_euclidean_division_equations; lia).
    eapply wp_mono; [apply (IH m (drop (Z.to_nat k) src) (off + k) p3 nb1 s3); rewrite ?Hld, ?Hba|].
    + exact T3.
    + done.
    + by rewrite Ep3.
    + apply X.
    + lia.
    + lia.
    + apply (enough_step (fun _ => None) (fun _ => None)); auto; lia.
    + apply (enough_free_step (7 * w + m) off (take (Z.to_nat k) src) p nb s p3 nb1 s3); [done|lia|done].
    + intros [] s' (p' & X'). exists p'. rewrite Hld, Hba in X'. rewrite <- (take_drop (Z.to_nat k) src).
      apply (extended_trans (7 * w + m) m off _ _ p nb s p3 nb1 s3); [done|unfold blocks_after in *; lia|lia|done| |lia]. by rewrite Hlt.
Qed.

(** ** The inode on the disk *)

Lemma dec_over d o q : dec_dinode d o q = let x := dec_dinode d o dinode0 in
  mkinode (idev q) (inum q) (iref q) (ilk q) (ivalid q) (itype x) (imajor x) (iminor x) (inlink x) (isize x) (iaddrs x).
Proof. unfold dec_dinode. by rewrite !set_fields. Qed.
Lemma storable_like d o p q : storable p -> shows_at d o (enc_dinode p) -> like p (dec_dinode d o q).
Proof. intros Hp Hs. rewrite dec_over, (dec_storable d o p Hp Hs). by split. Qed.

(** Two inodes never share their place. *)
Lemma iplace_inj sb m k : 0 <= m < 2 ^ 32 -> 0 <= k < 2 ^ 32 -> IBLOCK m sb = IBLOCK k sb -> m mod IPB = k mod IPB -> m = k.
Proof.
  intros Hm Hk. unfold IBLOCK, u32. change IPB with 8. intros E1 E2. Z.to_euclidean_division_equations. lia.
Qed.

(** What [iupdate] writes. *)
Definition inode_put (s : fs) (p : inode) : list Z :=
  splice (view s (IBLOCK n (sblock s))) (n mod IPB * DINODE) (enc_dinode p).

Lemma iupdate_ok m p nb s : trans (S m) s -> icache s i = p -> idev p = 1 -> inum p = n -> filed s p nb ->
  wp (iupdate pid i) (fun _ s' => trans m s' /\ fstep [(IBLOCK n (sblock s), inode_put s p)] s s') s.
Proof.
  intros T E Hd Hn (S & Hin & _). destruct (so_iblock _ _ _ S n Hin) as (Hh & _). unfold iupdate.
  apply wp_bind, wp_gets. rewrite E. unfold id. apply wp_bind, wp_gets. rewrite Hd, Hn.
  apply (wp_bread pid (Datatypes.S m)); [done|apply Hh|]. intros ii s1 H1. apply (wp_getdata _ _ _ _ _ _ _ H1).
  apply (log_held m _ ii (inode_put s p) s s1 H1 Hh).
Qed.

(** The inode area takes the inode: the free map, the files and the other inodes stay. *)
Lemma inode_write s s' p nb : filed s p nb -> storable p -> sb_ninodes (sblock s) <= 2 ^ 32 -> fstep [(IBLOCK n (sblock s), inode_put s p)] s s' ->
  filed s' p nb /\ steady s s' /\ keeps s s' /\ same_file s s' p nb /\ like p (dino s' n) /\
  (forall m, 1 <= m < sb_ninodes (sblock s) -> m <> n -> dino s' m = dino s m) /\ (forall c, 0 <= c < sb_size (sblock s) -> inuse s' c = inuse s c).
Proof.
  intros F Hp Hmax Fs. pose proof F as (S & Hn & Ht). pose proof (steady_fstep _ _ _ Fs) as D. set (b := IBLOCK n (sblock s)) in *.
  destruct (so_iblock _ _ _ S n Hn) as (B1 & B2 & B3 & B4 & B5). fold b in B1, B2, B3, B4, B5.
  assert (He : length (enc_dinode p) = 64%nat) by apply length_enc13, Hp.
  assert (Ho : 0 <= n mod IPB < 8) by (apply Z.mod_pos_bound; reflexivity). change DINODE with 64 in *.
  destruct (plain_write s s' _ _ b _ S B1 B5 Fs) as (M & C & V & U).
  assert (K : forall m, used s (<[n := p]> I) m -> same_file s s' ((<[n := p]> I) m) ((<[n := nb]> N) m)).
  { intros m Um c Hc. rewrite V. destruct (Z.eqb_spec c b) as [->|]; [|done]. destruct (db_meta _ _ (ao_data _ _ _ (so_file _ _ _ S m Um) b Hc)). left. by exists n. }
  split; [split; [|by rewrite (sd_sb _ _ D)]|split; [done|split; [|split; [|split; [|split; [|done]]]]]].
  - apply (store_frame s); [done|done|..].
    + done.
    + done.
    + intros m Hm. rewrite V. case_if; [|by apply (so_iblock _ _ _ S m Hm)]. unfold inode_put. fold b. change DINODE with 64. rewrite length_splice; rewrite ?B3, ?He; lia.
    + intros c Hc. by rewrite U.
    + done.
  - intros m Hne [U1 U2]. pose proof (K m) as X. rewrite !zfn_insert_ne in X by congruence. apply X. split; [done|by rewrite zfn_insert_ne by congruence].
  - pose proof (K n (filed_used _ _ _ _ _ _ F)) as X. by rewrite !zfn_insert_eq in X.
  - unfold dino. apply storable_like; [done|]. rewrite (sd_sb _ _ D), V, Z.eqb_refl. unfold inode_put. fold b. intros k Hk.
    rewrite byte_splice by (rewrite ?B3, ?He; change DINODE with 64; lia). change DINODE with 64. rewrite He. case_if; [f_equal; lia|lia].
  - intros m Hm Hne. unfold dino. rewrite (sd_sb _ _ D), V. destruct (Z.eqb_spec (IBLOCK m (sblock s)) b) as [E|]; [|done].
    rewrite E. rewrite !(dec_over _ _ (mkinode 1 m _ _ _ _ _ _ _ _ _)). erewrite dec_dinode_ext; [done|]. intros k Hk. unfold inode_put. fold b.
    pose proof (Z.mod_pos_bound m IPB ltac:(reflexivity)) as Hmm. change IPB with 8 in *. change DINODE with 64.
    rewrite byte_splice by (rewrite ?B3, ?He; lia). rewrite He. case_if; [|done].
    destruct Hne. apply (iplace_inj (sblock s)); [lia|lia|done|]. change IPB with 8. lia.
Qed.

(** ** [writei] *)

Lemma addrs_block s p q k : iaddrs p = iaddrs q -> addr_at p k = addr_at q k /\ file_block s p k = file_block s q k.
Proof. intros E. unfold file_block, addr_at. by rewrite E. Qed.
Lemma addrs_owns s p q nb b : iaddrs p = iaddrs q -> owns s p nb b <-> owns s q nb b.
Proof.
  intros E. unfold owns. rewrite (proj1 (addrs_block s p q NDIRECT E)).
  split; (intros [(k & Hk & ->)|X]; [left; exists k; by rewrite (proj2 (addrs_block s p q k E))|by right]).
Qed.
Lemma alloc_addrs s p q nb : iaddrs p = iaddrs q -> alloc_ok s q nb -> alloc_ok s p nb.
Proof.
  intros E [A1 A2 A3 A4 A5 A6 A7 A8]. pose proof (fun k => proj1 (addrs_block s p q k E)) as Ea. pose proof (fun k => proj2 (addrs_block s p q k E)) as Eb.
  split; [by rewrite E|done|intros b; rewrite (addrs_owns s p q) by done; apply A3|by rewrite Ea|intros k; rewrite Ea; apply A5|intros k; rewrite Ea; apply A6| |].
  - intros k j. rewrite !Eb. apply A7.
  - intros k. rewrite Eb, Ea. apply A8.
Qed.
Lemma filed_addrs s p q nb : iaddrs q = iaddrs p -> itype q <> 0 -> filed s p nb -> filed s q nb.
Proof.
  intros E Ht F. apply (filed_update I N n s s p nb); [done|by apply (areas_refl I N n s p nb)|by intros x _ _ b _|done| |].
  - by apply (alloc_addrs s q p), (filed_alloc I N n).
  - intros b. rewrite (addrs_owns s q p) by done. by left.
Qed.

(** The addresses of an inode are blocks of the disk. *)
Lemma alloc_addr_range s p nb : alloc_ok s p nb -> disksize s <= 2 ^ 31 -> Forall (fun a => 0 <= a < 2 ^ 32) (iaddrs p).
Proof.
  intros [A1 A2 A3 A4 A5 A6 A7 A8] Hd. apply Forall_lookup. intros k a Hk. pose proof (lookup_lt_Some _ _ _ Hk) as Hlt.
  assert (Ea : addr_at p (Z.of_nat k) = a) by (unfold addr_at; rewrite Nat2Z.id, Hk; done).
  assert (Hb : owns s p nb a \/ a = 0).
  { destruct (decide (k = 12%nat)) as [->|]; [destruct (decide (a = 0)); [by right|left; right; change (Z.of_nat 12) with NDIRECT in *; split; [congruence|done]]|].
    destruct (Z.lt_ge_cases (Z.of_nat k) nb); [left; left; exists (Z.of_nat k)|right; rewrite <- Ea; apply A5; change NDIRECT with 12; lia].
    split; [lia|]. unfold file_block. change NDIRECT with 12. destruct (Z.ltb_spec (Z.of_nat k) 12); [done|lia]. }
  destruct Hb as [Hb| ->]; [|lia]. destruct (A3 a Hb) as [[B _] _ _ _ _]. lia.
Qed.

(** A file that got [src] at [off], and grew where needed: its inode is on the disk, and all
    other inodes and files are as they were. *)
Record stored (off : Z) (src : list Z) (p : inode) (nb : Z) (s : fs) (p' : inode) (nb' : Z) (s' : fs) : Prop := mkstored {
  sr_inode : p' = set_isize (Z.max (isize p) (off + Z.of_nat (length src))) (set_iaddrs (iaddrs p') p);
  sr_steady : steady s s';
  sr_filed : filed s' p' nb';
  sr_like : like p' (dino s' n);
  sr_dino : forall k, 1 <= k < sb_ninodes (sblock s) -> k <> n -> dino s' k = dino s k;
  sr_keeps : keeps s s';
  sr_bytes : forall j, 0 <= j < isize p' -> fbyte s' p' j =
    if (off <=? j) && (j <? off + Z.of_nat (length src)) then byte_at src (j - off) else fbyte s p j;
  sr_count : nfreeb s' + owned p' nb' = nfreeb s + owned p nb }.

(** What [writei] of [src] at [off] does. *)
Record wrote (m : nat) (off : Z) (src : list Z) (p : inode) (nb : Z) (s : fs) (p' : inode) (nb' : Z) (s' : fs) : Prop := mkwrote {
  wr_trans : trans m s';
  wr_inode : icache s' i = p';
  wr_cache : forall j, j <> i -> icache s' j = icache s j;
  wr_moves : moves s s';
  wr_stored : stored off src p nb s p' nb' s' }.

(** The length and the addresses go to the disk. *)
Lemma wrote_update m off src p nb s p1 nb1 s1 s2 : let len := Z.of_nat (length src) in
  filed s p nb -> storable p -> sb_ninodes (sblock s) <= 2 ^ 32 -> isize p < off + len <= BSIZE * nb1 -> 0 <= off <= isize p -> isize p <= BSIZE * nb ->
  off + len < 2 ^ 32 -> extended (S m) off src p nb s p1 nb1 s1 ->
  let p2 := set_isize (off + len) p1 in let s1' := set_icache (<[i := p2]> (icache s1)) s1 in
  trans m s2 -> fstep [(IBLOCK n (sblock s1'), inode_put s1' p2)] s1' s2 -> wrote m off src p nb s p2 nb1 s2.
Proof.
  intros len F Hp Hmax H1 H2 Hb H3 X p2 s1' T2 Fs. pose proof X as [A1 [A2 A2'] A3 A4 A5 A6 A7 A8 A9 A10].
  pose proof (ar_steady _ _ A5) as D1. pose proof F as (_ & _ & Ht).
  assert (Ep : iaddrs p2 = iaddrs p1) by done. assert (Ht2 : itype p2 <> 0) by (unfold p2; by rewrite A2').
  assert (F1 : filed s1' p2 nb1) by (apply filed_icache; by apply (filed_addrs s1 p1)).
  assert (Hs2 : storable p2).
  { pose proof (filed_alloc _ _ _ _ _ _ F1) as A. destruct Hp as [P1 P2 P3 P4 P5 P6 P7]. unfold p2. rewrite A2'.
    split; cbn [itype imajor iminor inlink isize iaddrs set_isize set_iaddrs]; [done|done|done|done|lia|apply (ao_len _ _ _ A)|].
    apply (alloc_addr_range s1' p2 nb1 A). apply (so_size _ _ _ (proj1 F1)). }
  change (sblock s1') with (sblock s1) in *. rewrite <- (sd_sb _ _ D1) in Hmax.
  destruct (inode_write s1' s2 p2 nb1 F1 Hs2 Hmax Fs) as (F2 & D2 & K2 & Sf & L2 & O2 & U2). split; [done| | | |split].
  - rewrite (fs_icache _ _ _ Fs). apply fn_insert_eq.
  - intros j Hj. rewrite (fs_icache _ _ _ Fs). unfold s1'. cbn [icache set_icache]. rewrite fn_insert_ne by congruence. auto.
  - apply (moves_trans _ s1); [done|]. apply (moves_trans _ s1'); [apply moves_icache|by apply (moves_fstep _ _ _ Fs)].
  - unfold p2. rewrite A2'. rewrite Z.max_r by lia. by destruct p.
  - apply (steady_trans _ s1); [done|]. by destruct D2; split.
  - done.
  - done.
  - intros k Hk Hne. rewrite O2 by (done || by change (sblock s1') with (sblock s1); rewrite (sd_sb _ _ D1)). unfold dino.
    change (view s1') with (view s1). change (sblock s1') with (sblock s1). by rewrite (sd_sb _ _ D1), (ar_iblock _ _ A5).
  - apply (keeps_trans s s1 s2 p nb); [done|done|done|]. exact K2.
  - intros j Hj. change (isize p2) with (off + len) in Hj. rewrite (same_bytes s1' s2 p2 nb1) by (done || lia || by apply (filed_alloc I N n)).
    change (fbyte s1' p2 j) with (fbyte s1 p1 j). rewrite A8 by lia. unfold overlaid. fold len.
    destruct (Z.leb_spec off j), (Z.ltb_spec j (off + len)), (Z.ltb_spec j (BSIZE * nb)); cbn [andb]; (done || lia).
  - change (owned p2 nb1) with (owned p1 nb1). rewrite <- A9. f_equal. change (nfreeb s1) with (nfreeb s1'). apply nfreeb_same; [apply Fs|done].
Qed.

(** Inside the file the inode stays as it is. *)
Lemma wrote_inside m off src p nb s p1 s1 : let len := Z.of_nat (length src) in
  filed s p nb -> like p (dino s n) -> 0 <= off -> off + len <= isize p -> isize p <= BSIZE * nb ->
  extended m off src p nb s p1 nb s1 -> wrote m off src p nb s p1 nb s1.
Proof.
  intros len F L H0 H1 H2 [A1 [A2 A2'] A3 A4 A5 A6 A7 A8 A9 A10]. pose proof (A10 eq_refl) as Ep. rewrite Ep in *. clear Ep.
  pose proof (ar_steady _ _ A5) as D1. pose proof F as (_ & Hn & _).
  assert (Ed : forall k, 1 <= k < sb_ninodes (sblock s) -> dino s1 k = dino s k) by (intros k Hk; unfold dino; by rewrite (sd_sb _ _ D1), (ar_iblock _ _ A5)).
  split; [done|done|done|done|]. split; [|done|done|rewrite Ed by exact Hn; exact L|intros k Hk _; by apply Ed|done| |done].
  - fold len. rewrite Z.max_l by lia. by destruct p.
  - intros j Hj. rewrite A8 by lia. unfold overlaid. fold len. destruct (_ && _); [done|]. destruct (Z.ltb_spec j (BSIZE * nb)); (done || lia).
Qed.

Lemma writei_grow dev_write m src off p nb s : let len := Z.of_nat (length src) in
  trans (7 * wblocks off len + S m) s -> icache s i = p -> idev p = 1 -> inum p = n -> itype p <> T_DEV -> filed s p nb ->
  storable p -> like p (dino s n) -> sb_ninodes (sblock s) <= 2 ^ 32 -> 0 <= off <= isize p -> isize p <= BSIZE * nb ->
  off + len <= MAXFILE * BSIZE -> enough_free p nb (blocks_after nb off len) s ->
  wp (writei pid dev_write i src off) (fun r s' => r = len /\ exists p', wrote m off src p nb s p' (blocks_after nb off len) s') s.
Proof.
  intros len T E Hd Hn Ht F Hp L Hmax Ho Hsz Hlen Hfree. change (MAXFILE * BSIZE) with 71680 in *. pose proof (Nat2Z.is_nonneg (length src)) as H0. fold len in H0.
  unfold writei. apply wp_bind, wp_gets. rewrite E. unfold id. fold len. destruct (Z.eqb_spec (itype p) T_DEV); [done|].
  rewrite u32_small by lia. destruct (Z.gtb_spec off (isize p)); [lia|]. destruct (Z.ltb_spec (off + len) off); [lia|].
  cbn [orb]. change (MAXFILE * BSIZE) with 71680. destruct (Z.gtb_spec (off + len) 71680); [lia|].
  apply wp_bind. eapply wp_mono; [apply (writei_loop_grow _ (S m) src off p nb s); fold len; try done; [lia|]|].
  { right. rewrite BSIZE_eq. pose proof (Z.mod_pos_bound off 512 ltac:(lia)). Z.to_euclidean_division_equations. lia. }
  fold len. intros [] s1 (p1 & X). pose proof (ex_inode _ _ _ _ _ _ _ _ _ X) as [E1 Ep1].
  apply wp_bind, wp_gets. rewrite E1. assert (Ez : isize p1 = isize p) by (by rewrite Ep1). rewrite Ez.
  assert (Hr : s32 len = len) by (apply s32_small; lia). set (nb1 := blocks_after nb off len) in *.
  destruct ((len >? 0) && (off + len >? isize p)) eqn:Ec; zbool.
  - apply wp_bind, wp_bind, wp_modify. rewrite E1. set (p2 := set_isize (off + len) p1). set (s1' := set_icache _ s1).
    assert (F1 : filed s1' p2 nb1).
    { apply filed_icache, (filed_addrs s1 p1); [done| |apply X]. unfold p2. rewrite Ep1. apply F. }
    eapply wp_mono; [apply (iupdate_ok m p2 nb1 s1')|].
    + apply trans_icache. apply X.
    + unfold s1'. apply fn_insert_eq.
    + unfold p2. by rewrite Ep1.
    + unfold p2. by rewrite Ep1.
    + done.
    + intros [] s2 (T2 & F2). apply wp_pure. split; [done|]. exists p2.
      apply (wrote_update m off src p nb s p1 nb1 s1 s2); fold len; try done; [|lia]. split; [lia|].
      unfold nb1, blocks_after. rewrite BSIZE_eq. Z.to_euclidean_division_equations. lia.
  - apply wp_bind, wp_pure, wp_pure. split; [done|]. exists p1.
    assert (En : nb1 = nb) by (unfold nb1, blocks_after; rewrite BSIZE_eq in *; apply andb_false_iff in Ec; zbool; Z.to_euclidean_division_equations; lia).
    rewrite En in *. apply (wrote_inside m off src p nb s p1 s1); fold len; try done; [lia|apply andb_false_iff in Ec; zbool; lia|].
    destruct X as [X1 X2 X3 X4 X5 X6 X7 X8 X9 X10]. split; try done. by apply (trans_weaken (S m)); [lia|].
Qed.
End Grow.
