(* ===== verification/FsWrite.v ===== *)
(** * Writing files that grow

    [filewrite] on a file in the file system: chunk by chunk, each in a transaction of its
    own, the file takes the bytes, with new blocks from the free map where it needs them. *)

From S2P Require Import Prelude Mkfs Mem Mmu Kalloc Bio Log BioRules LogRules LogProps Fs FsRules FsFile FsProps Pipe File FileProps.
From S2P Require Import MkfsLay FsVol FsName FsGrow.
Local Open Scope Z_scope.

(** ** Across a transaction *)

(** The same file system, but for the blocks of the log. *)
Definition alike (s s' : fs) : Prop := steady s s' /\ forall b, ~ in_log (logst s) b -> view s' b = view s b.

Lemma agree_alike s s' : agree s s' -> sblock s' = sblock s -> alike s s'.
Proof.
  intros A E. split; [|apply A]. split; [done|apply A|]. intros b. by apply agree_in_log.
Qed.

Section Alike.
Context (I : Z -> inode) (N : Z -> Z) (s s' : fs).
Context (S : store_ok s I N) (A : alike s s') (H1 : ~ in_log (logst s) 1).

Lemma alike_home b : home s b -> view s' b = view s b.
Proof. intros (_ & Hb & _). by apply A. Qed.
Lemma alike_inuse c : 0 <= c < sb_size (sblock s) -> inuse s' c = inuse s c.
Proof. intros Hc. unfold inuse. rewrite (sd_sb _ _ (proj1 A)), alike_home; [done|]. apply S, Hc. Qed.
Lemma alike_dino k : 1 <= k < sb_ninodes (sblock s) -> dino s' k = dino s k.
Proof. intros Hk. unfold dino. rewrite (sd_sb _ _ (proj1 A)), alike_home; [done|]. apply (so_iblock _ _ _ S k Hk). Qed.
Lemma alike_nfreeb : nfreeb s' = nfreeb s.
Proof. apply nfreeb_same; [apply A|apply alike_inuse]. Qed.
Lemma alike_same p nb : alloc_ok s p nb -> same_file s s' p nb.
Proof. intros Al b Hb. apply alike_home, (ao_data _ _ _ Al b Hb). Qed.

Lemma alike_store : store_ok s' I N.
Proof.
  destruct A as [D V]. apply (store_frame s); [done|done|..].
  - destruct (so_map _ _ _ S) as [M1 M2 M3 M4 M5]. split; rewrite ?(sd_sb _ _ D), ?(sd_size _ _ D); [done|done|..].
    + intros c Hc. by apply (steady_home s), M3.
    + intros c Hc. rewrite alike_home by by apply M3. by apply M4.
    + intros c Hc Hf. rewrite alike_inuse in Hf by done. destruct (M5 c Hc Hf). split; [by apply (steady_home s)|done].
  - destruct (so_sb _ _ _ S) as [C1 C2]. split; [by rewrite V, (sd_sb _ _ D)|by rewrite (sd_size _ _ D)].
  - intros k Hk. destruct (so_iblock _ _ _ S k Hk) as (B1 & _ & B3 & _). by rewrite alike_home.
  - intros b Hb. by rewrite alike_inuse.
  - intros k Hk. apply alike_same, S, Hk.
Qed.
End Alike.

Section Stored.
Context (I : Z -> inode) (N : Z -> Z) (n : Z).
Notation filed := (filed I N n).
Notation stored := (stored I N n).

Lemma alike_filed s s' p nb : filed s p nb -> alike s s' -> ~ in_log (logst s) 1 -> filed s' p nb.
Proof. intros (S & H) A H1. split; [by apply (alike_store _ _ s)|]. by rewrite (sd_sb _ _ (proj1 A)). Qed.

Lemma keeps_steady s s1 s2 p nb : filed s p nb -> steady s s1 -> keeps I N n s s1 -> keeps I N n s1 s2 -> keeps I N n s s2.
Proof.
  intros F D K1 K2 m Hne Um. apply (same_file_trans s s1); [by apply (filed_other I N n s p nb)|by apply K1|].
  apply K2; [done|]. unfold used in *. by rewrite (sd_sb _ _ D).
Qed.
Lemma alike_keeps s s' p nb : filed s p nb -> alike s s' -> keeps I N n s s'.
Proof. intros F A m Hne Um. apply alike_same; [done|]. by apply (filed_other I N n s p nb). Qed.

(** Before and after, transactions may begin and end. *)
Lemma stored_alike off src p nb s s1 p' nb' s2 s3 : filed s p nb -> isize p <= BSIZE * nb -> isize p' <= BSIZE * nb' -> 0 <= off <= isize p ->
  alike s s1 -> ~ in_log (logst s) 1 -> stored off src p nb s1 p' nb' s2 -> alike s2 s3 -> stored off src p nb s p' nb' s3.
Proof.
  intros F Hb Hb' Ho A1 H1 [R1 R2 R3 R4 R5 R6 R7 R8] A2. pose proof F as (S & Hn & _). pose proof (proj1 A1) as D1. pose proof (proj1 A2) as D2.
  assert (H2 : ~ in_log (logst s2) 1) by (by rewrite (sd_log _ _ R2), (sd_log _ _ D1)).
  pose proof (proj1 R3) as S2. assert (Es : sblock s2 = sblock s) by (by rewrite (sd_sb _ _ R2), (sd_sb _ _ D1)).
  split; [done| |by apply (alike_filed s2)|..].
  - apply (steady_trans _ s1); [done|]. by apply (steady_trans _ s2).
  - rewrite (alike_dino _ _ s2 s3 S2 A2) by (by rewrite Es). done.
  - intros k Hk Hne. rewrite (alike_dino _ _ s2 s3 S2 A2) by (by rewrite Es). rewrite R5 by (by rewrite ?(sd_sb _ _ D1)). apply (alike_dino _ _ s s1 S A1 k Hk).
  - apply (keeps_steady s s1 s3 p nb F D1 (alike_keeps s s1 p nb F A1)).
    apply (keeps_steady s1 s2 s3 p nb (alike_filed s s1 p nb F A1 H1) R2 R6). by apply (alike_keeps s2 s3 p' nb').
  - intros j Hj. rewrite (same_bytes s2 s3 p' nb'); [|by apply (filed_alloc I N n)|apply alike_same; [done|by apply (filed_alloc I N n)]|lia].
    rewrite R7 by done. destruct (_ && _) eqn:E; [done|]. rewrite R1 in Hj. cbn [isize set_isize] in Hj.
    apply (same_bytes s s1 p nb); [by apply (filed_alloc I N n)|apply alike_same; [done|by apply (filed_alloc I N n)]|].
    apply andb_false_iff in E. zbool. lia.
  - rewrite (alike_nfreeb _ _ s2 s3 S2 A2), R8. by rewrite (alike_nfreeb _ _ s s1 S A1).
Qed.

(** The lock of the inode is not part of it. *)
Lemma stored_ilk l off src p nb s p' nb' s' : stored off src (set_ilk l p) nb s (set_ilk l p') nb' s' -> ilk p' = ilk p -> stored off src p nb s p' nb' s'.
Proof.
  intros [R1 R2 R3 R4 R5 R6 R7 R8] El. split; [|done| |by destruct R4; split|done|done|done|done].
  - destruct p, p'. cbn in *. injection R1. intros. subst. done.
  - apply (filed_addrs I N n s' (set_ilk l p')); [done|apply R3|done].
Qed.

Lemma stored_trans off src1 src2 p nb s p1 nb1 s1 p2 nb2 s2 : filed s p nb -> 0 <= off ->
  stored off src1 p nb s p1 nb1 s1 -> stored (off + Z.of_nat (length src1)) src2 p1 nb1 s1 p2 nb2 s2 ->
  stored off (src1 ++ src2) p nb s p2 nb2 s2.
Proof.
  intros F Ho [A1 A2 A3 A4 A5 A6 A7 A8] [B1 B2 B3 B4 B5 B6 B7 B8]. assert (Es : sblock s1 = sblock s) by apply A2.
  assert (E1 : isize p1 = Z.max (isize p) (off + Z.of_nat (length src1))) by (by rewrite A1).
  assert (E2 : isize p2 = Z.max (isize p1) (off + Z.of_nat (length src1) + Z.of_nat (length src2))) by (by rewrite B1). split.
  - rewrite B1 at 1. rewrite E1, A1. rewrite length_app, Nat2Z.inj_add. unfold set_isize, set_iaddrs. cbn. f_equal. lia.
  - by apply (steady_trans _ s1).
  - done.
  - done.
  - intros k Hk Hne. rewrite B5 by (by rewrite ?Es). by apply A5.
  - by apply (keeps_steady s s1 s2 p nb).
  - intros j Hj. rewrite B7 by done. rewrite <- overlay_app. cbv zeta. destruct (_ && _) eqn:Eb; [done|]. apply A7.
    apply andb_false_iff in Eb. zbool. lia.
  - lia.
Qed.

Lemma stored_nil off p nb s : filed s p nb -> like p (dino s n) -> off <= isize p -> stored off [] p nb s p nb s.
Proof.
  intros F L Ho. split; [|by split|done|done|done|by intros m _ _ b _| |done].
  - rewrite Z.max_l by (cbn; lia). by destruct p.
  - intros j Hj. destruct (_ && _) eqn:E; [|done]. apply andb_true_iff in E as [E1 E2]. cbn in E2. zbool. lia.
Qed.

Lemma stored_free off src p nb s p1 nb1 s1 nb' : enough_free p nb nb' s -> nb <= nb1 -> stored off src p nb s p1 nb1 s1 -> enough_free p1 nb1 nb' s1.
Proof.
  intros H Hle X Hlt. pose proof (sr_count _ _ _ _ _ _ _ _ _ _ _ X) as C. unfold owned in C. specialize (H ltac:(lia)).
  destruct (addr_at p NDIRECT =? 0), (addr_at p1 NDIRECT =? 0); lia.
Qed.

(** ** One round of [filewrite] *)

(** The file system is idle, and file [n], with [nb] blocks, is in entry [ip] of the inode
    cache, as the disk has it and unlocked. *)
Record gfile (ip : nat) (p : inode) (nb : Z) (s : fs) : Prop := mkgfile {
  gf_quiet : quiet_fs s;
  gf_room : 30 <= lsize (logst s);
  gf_inodes : sb_ninodes (sblock s) <= 2 ^ 32;
  gf_inode : icache s ip = p;
  gf_filed : filed s p nb;
  gf_size : 0 <= isize p <= BSIZE * nb;
  gf_stor : storable p;
  gf_like : like p (dino s n);
  gf_head : idev p = 1 /\ inum p = n /\ itype p <> T_DEV;
  gf_valid : ivalid p = true /\ 1 <= iref p /\ ilk p = mksl false 0 }.

Context (pid : Z) (dev_write : Z -> option (list Z -> M fs Z)).

Lemma gfile_locked ip p nb s : gfile ip p nb s -> filed (begun pid ip p s) (set_ilk (mksl true pid) p) nb.
Proof.
  intros G. pose proof (gf_filed _ _ _ _ G) as F. apply (filed_addrs I N n _ p); [done|exact (proj2 (proj2 F))|].
  apply (alike_filed s); [exact F|apply agree_alike; [by split|done]|exact (proj1 (qf_sb _ (gf_quiet _ _ _ _ G)))].
Qed.

(** The file after the transaction is again in order. *)
Lemma gfile_after ip p nb s q nb' s' off src : gfile ip p nb s -> quiet_fs s' -> logst s' = logst s -> icache s' ip = q ->
  0 <= off -> off + Z.of_nat (length src) <= BSIZE * nb' -> nb <= nb' -> nb' <= MAXFILE -> stored off src p nb s q nb' s' -> gfile ip q nb' s'.
Proof.
  intros [G1 G2 G3 G4 G5 G6 G7 G8 G9 G10] Q L E Ho Hb Hnb Hmax X. pose proof X as [R1 R2 R3 R4 R5 R6 R7 R8].
  assert (Ez : isize q = Z.max (isize p) (off + Z.of_nat (length src))) by (by rewrite R1).
  split; [done|by rewrite L|by rewrite (sd_sb _ _ R2)|done|done|rewrite Ez, BSIZE_eq in *; lia| |done|by rewrite R1|by rewrite R1].
  destruct G7 as [P1 P2 P3 P4 P5 P6 P7]. pose proof (filed_alloc _ _ _ _ _ _ R3) as A. change MAXFILE with 140 in Hmax.
  split; [by rewrite R1|by rewrite R1|by rewrite R1|by rewrite R1|rewrite Ez, BSIZE_eq in *; lia|apply (ao_len _ _ _ A)|].
  apply (alloc_addr_range s' q nb' A). apply (so_size _ _ _ (proj1 R3)).
Qed.

(** The file system's part of a chunk: one transaction. *)
Lemma put_chunk_ok ip p nb src off s : let len := Z.of_nat (length src) in let nb' := blocks_after nb off len in
  gfile ip p nb s -> 0 <= off <= isize p -> len <= WRITEMAX -> off + len <= MAXFILE * BSIZE -> enough_free p nb nb' s ->
  wp (begin_op ;;; ilock pid ip) (fun _ s1 => wp (writei pid dev_write ip src off) (fun r s2 => r = len /\
    wp (iunlock ip ;;; end_op pid) (fun _ s' => exists q, gfile ip q nb' s' /\ stored off src p nb s q nb' s' /\
      forall j, j <> ip -> icache s' j = icache s j) s2) s1) s.
Proof.
  intros len nb' G Ho Hlen Hmax Hfree. pose proof G as [G1 G2 G3 G4 G5 G6 G7 G8 (G9 & G9' & G9'') (G10 & G11 & G12)].
  eapply wp_mono; [apply (begin_ilock_trans pid 29 ip p s); auto; lia|]. intros [] s1 [T1 ->]. set (p1 := set_ilk (mksl true pid) p).
  assert (A1 : alike s (begun pid ip p s)) by (apply agree_alike; [by split|done]). pose proof (wblocks_max off len ltac:(lia) Hlen) as Hw.
  eapply wp_mono; [apply (writei_grow pid I N n ip dev_write 0 src off p1 nb (begun pid ip p s)); fold len nb'; try done|].
  - eapply trans_weaken; [|exact T1]. lia.
  - cbn. apply fn_lookup_insert.
  - by apply gfile_locked.
  - by destruct G7; split.
  - destruct G8 as [L1 L2 L3 L4 L5 L6]. by split.
  - exact (proj2 G6).
  - fold len nb'. intros r s2 (-> & p2 & [W1 W2 W3 (ws & W4) W5]). split; [done|].
    pose proof (sr_inode _ _ _ _ _ _ _ _ _ _ _ W5) as R1. fold len in R1. set (q := set_ilk (mksl false 0) p2).
    assert (El : ilk p2 = mksl true pid) by (by rewrite R1).
    assert (Eq : p2 = set_ilk (mksl true pid) q) by (unfold q; rewrite <- El; by destruct p2).
    assert (Hnb : nb <= nb' /\ nb' <= MAXFILE /\ off + len <= BSIZE * nb').
    { pose proof (ao_nb _ _ _ (filed_alloc _ _ _ _ _ _ G5)). change MAXFILE with 140 in *. unfold nb', blocks_after. rewrite BSIZE_eq in *. Z.to_euclidean_division_equations. lia. }
    eapply wp_mono; [apply (iunlock_end_trans pid ip q 0 s s2)|]; auto.
    + rewrite (fs_log _ _ _ W4). done.
    + intros b. rewrite (fs_disk _ _ _ W4). done.
    + rewrite (fs_size _ _ _ W4). done.
    + by rewrite W2.
    + unfold q. rewrite R1. by destruct p.
    + intros j Hj. rewrite W3 by done. cbn. apply fn_lookup_insert_ne. congruence.
    + intros [] s3 (Q3 & A3 & L3 & B3 & C3). exists q.
      assert (X : stored off src p nb s q nb' s3).
      { apply (stored_alike off src p nb s (begun pid ip p s) q nb' s2 s3); [done|lia| |lia|done| | |by apply agree_alike].
        - unfold q. rewrite R1. cbn. rewrite BSIZE_eq in *. lia.
        - exact (proj1 (qf_sb _ G1)).
        - apply (stored_ilk (mksl true pid)); [by rewrite <- Eq|]. cbn. by rewrite G12. }
      split; [|split; [done|]].
      * apply (gfile_after ip p nb s q nb' s3 off src); try done; [|lia|lia|lia|lia]. rewrite C3. apply fn_lookup_insert.
      * intros j Hj. rewrite C3. apply fn_lookup_insert_ne. congruence.
Qed.
End Stored.

(** ** [filewrite] *)

Section Write.
Context {P : Type} `{PageOps P}.
Context (pid : Z) (dev_write : Z -> option (list Z -> M fs Z)).
Context (I : Z -> inode) (N : Z -> Z) (n : Z).
Notation stored := (stored I N n).

(** Entry [f] of the file table is [x] with offset [o], and open on the file. *)
Record gopen (f : nat) (x : file) (o : Z) (p : inode) (nb : Z) (s : ffs P) : Prop := mkgopen {
  go_file : gfile I N n (fip x) p nb (ffsys s);
  go_entry : ftab s f = set_foff o x;
  go_off : 0 <= o <= isize p }.

(** What [filewrite] of [src] did. *)
Record filewrote (f : nat) (x : file) (o : Z) (src : list Z) (p : inode) (nb : Z) (s : ffs P) (q : inode) (s' : ffs P) : Prop := mkfwrote {
  fw_open : gopen f x (o + Z.of_nat (length src)) q (blocks_after nb o (Z.of_nat (length src))) s';
  fw_stored : stored o src p nb (ffsys s) q (blocks_after nb o (Z.of_nat (length src))) (ffsys s');
  fw_cache : forall j, j <> fip x -> icache (ffsys s') j = icache (ffsys s) j;
  fw_table : forall g, g <> f -> ftab s' g = ftab s g }.

Lemma filewrite_chunk_grow f x o p nb addr s : let len := Z.of_nat (length addr) in gopen f x o p nb s -> 0 < len <= WRITEMAX ->
  o + len <= MAXFILE * BSIZE -> enough_free p nb (blocks_after nb o len) (ffsys s) ->
  wp (filewrite_chunk pid dev_write f addr) (fun r s' => r = len /\ exists q, filewrote f x o addr p nb s q s') s.
Proof.
  intros len [G Ex Ho] Hn Hmax Hfree. unfold filewrite_chunk. apply wp_bind, wp_gets. rewrite Ex. cbn [fip set_foff]. change (MAXFILE * BSIZE) with 71680 in *.
  apply wp_fsys2. eapply wp_mono; [apply (put_chunk_ok I N n pid dev_write _ p nb addr o _ G Ho); done || lia|]. fold len. intros [] s1 W1.
  apply wp_bind, wp_gets. cbn [ftab set_ffsys]. rewrite Ex. cbn [foff set_foff].
  apply wp_fsys. cbn [ffsys set_ffsys]. eapply wp_mono; [exact W1|]. intros r s2 (-> & W2).
  apply wp_bind. destruct (_ >? 0) eqn:E; zbool; [|lia]. apply wp_modify. cbn [ftab set_ffsys]. rewrite Ex.
  apply wp_fsys2. cbn [ffsys set_ffsys set_ftab]. eapply wp_mono; [exact W2|]. intros [] s3 (q & G3 & X & C3). apply wp_pure. split; [done|]. exists q.
  assert (Ez : isize q = Z.max (isize p) (o + len)) by (by rewrite (sr_inode _ _ _ _ _ _ _ _ _ _ _ X)). split; [|done|done|].
  - split; cbn [ffsys ftab set_ffsys set_ftab]; [done| |fold len; lia]. rewrite fn_lookup_insert. unfold set_foff. cbn. fold len. by rewrite u32_small by lia.
  - intros g Hg. cbn. apply fn_lookup_insert_ne. congruence.
Qed.

Lemma filewrite_loop_grow fuel : forall f x o p nb addr i s, let rest := drop (Z.to_nat i) addr in let len := Z.of_nat (length addr) in
  gopen f x (o + i) p nb s -> 0 <= i <= len -> 0 <= o -> o + len <= MAXFILE * BSIZE -> len - i < Z.of_nat fuel ->
  enough_free p nb (blocks_after nb (o + i) (len - i)) (ffsys s) ->
  wp (filewrite_loop pid dev_write fuel f addr i len) (fun r s' => r = len /\ exists q, filewrote f x (o + i) rest p nb s q s') s.
Proof.
  induction fuel as [|fuel IH]; intros f x o p nb addr i s rest len W Hi Ho Hmax Hf Hfree; [lia|]. cbn [filewrite_loop].
  assert (Hr : Z.of_nat (length rest) = len - i) by (unfold rest; rewrite length_drop; unfold len; lia). destruct (Z.ltb_spec i len).
  - set (n1 := Z.min (len - i) WRITEMAX). change WRITEMAX with 1536 in n1.
    assert (Hl : Z.of_nat (length (slice addr i n1)) = n1) by (unfold slice; rewrite length_take, length_drop; unfold n1, len; lia).
    assert (Hba : blocks_after (blocks_after nb (o + i) n1) (o + (i + n1)) (len - (i + n1)) = blocks_after nb (o + i) (len - i)).
    { unfold blocks_after, n1. rewrite BSIZE_eq. replace (o + (i + _) + (len - (i + _))) with (o + i + (len - i)) by lia. Z.to_euclidean_division_equations. lia. }
    assert (Hle : nb <= blocks_after nb (o + i) n1 <= blocks_after nb (o + i) (len - i)).
    { split; [|rewrite <- Hba]; unfold blocks_after; lia. }
    apply wp_bind. eapply wp_mono; [apply (filewrite_chunk_grow f x (o + i) p nb (slice addr i n1) s W); rewrite Hl|].
    + change WRITEMAX with 1536. lia.
    + lia.
    + intros Hlt. specialize (Hfree ltac:(lia)). lia.
    + rewrite Hl. intros r s1 (-> & q & X1). pose proof X1 as [O1 S1 C1 T1]. rewrite Hl in O1, S1. destruct (n1 <? 0) eqn:E1; zbool; [lia|]. rewrite Z.eqb_refl. cbn [negb].
      assert (Ed : drop (Z.to_nat i) addr = slice addr i n1 ++ drop (Z.to_nat (i + n1)) addr).
      { unfold slice. rewrite <- (take_drop (Z.to_nat n1) (drop (Z.to_nat i) addr)) at 1. f_equal. rewrite drop_drop. f_equal. lia. }
      eapply wp_mono; [apply (IH f x o q (blocks_after nb (o + i) n1) addr (i + n1) s1); fold len; rewrite ?Hba; try lia|].
      * rewrite Z.add_assoc. exact O1.
      * apply (stored_free I N n (o + i) (slice addr i n1) p nb (ffsys s) _ _ _ _ Hfree (proj1 Hle) S1).
      * fold len. intros r s2 (-> & q2 & [O2 S2 C2 T2]). split; [done|]. exists q2.
        assert (Hr2 : Z.of_nat (length (drop (Z.to_nat (i + n1)) addr)) = len - (i + n1)) by (rewrite length_drop; unfold len; lia).
        rewrite Hr2, Hba in O2, S2. split; rewrite ?Hr.
        -- replace (o + i + (len - i)) with (o + (i + n1) + (len - (i + n1))) by lia. done.
        -- unfold rest. rewrite Ed. pose proof (go_file _ _ _ _ _ _ W) as G. pose proof (go_off _ _ _ _ _ _ W).
           apply (stored_trans I N n (o + i) _ _ p nb (ffsys s) q (blocks_after nb (o + i) n1) (ffsys s1)); [apply G|lia|done|]. by rewrite Hl, <- Z.add_assoc.
        -- intros j Hj. by rewrite C2, C1.
        -- intros g Hg. by rewrite T2, T1.
  - apply wp_pure. assert (i = len) as -> by lia. split; [done|]. exists p.
    assert (Er : rest = []) by (unfold rest, len; rewrite Nat2Z.id; apply drop_all). rewrite Er. pose proof W as [G W2 W3].
    assert (Hnb : blocks_after nb (o + len) (Z.of_nat (length (@nil Z))) = nb).
    { pose proof (gf_size _ _ _ _ _ _ _ G). unfold blocks_after. cbn [length]. rewrite BSIZE_eq in *. Z.to_euclidean_division_equations. lia. }
    split; [|rewrite Hnb; apply stored_nil; [apply G|apply G|lia]|done|done]. rewrite Hnb. cbn [length]. rewrite Z.add_0_r. done.
Qed.
End Write.

(** ** The disk afterwards *)

(** Inode [n], and byte [j] of the file of inode [p], on the disk [d]. *)
Definition disk_inode (sb : superblock) (d : Z -> list Z) (n : Z) : inode :=
  dec_dinode (d (IBLOCK n sb)) (n mod IPB * DINODE) (mkinode 1 n 0 (mksl false 0) true 0 0 0 0 0 []).
Definition disk_byte (d : Z -> list Z) (p : inode) (j : Z) : Z := byte_at (d (fblk d p (j / BSIZE))) (j mod BSIZE).

Lemma quiet_inode s n : quiet_fs s -> disk_inode (sblock s) (disk s) n = dino s n.
Proof. intros Q. unfold disk_inode, dino. by rewrite quiet_view. Qed.
Lemma quiet_byte s p j : quiet_fs s -> disk_byte (disk s) p j = fbyte s p j.
Proof. intros Q. unfold disk_byte, fblk, fbyte, file_block. by rewrite !quiet_view. Qed.

(** C4: A write through a descriptor extends the file, durably. On an idle file system whose files are in order, [filewrite] of [addr] at an offset up to the end of the file, with room below [MAXFILE] and enough free blocks, returns the number of bytes, however many transactions it takes and however many blocks, the indirect one among them, it must allocate. When it returns the file system is idle and in order again, with the offset advanced; the inode on the disk has the new length; the file on the disk reads as [addr] at that place and as before elsewhere; every other inode on the disk, and every byte of every other file, is as it was; and the free blocks are fewer by exactly the number the file gained. *)
Theorem filewrite_extends {P} `{PageOps P} (pid : Z) (killed : bool) (dev_write : Z -> option (list Z -> M fs Z))
    (I : Z -> inode) (N : Z -> Z) (n : Z) (f : nat) (x : file) (o : Z) (p : inode) (nb : Z) (addr : list Z) (s : ffs P) :
  let len := Z.of_nat (length addr) in let nb' := blocks_after nb o len in let sb := sblock (ffsys s) in let d := disk (ffsys s) in
  gopen I N n f x o p nb s -> ftyp x = FD_INODE -> fwritable x = true -> o + len <= MAXFILE * BSIZE -> enough_free p nb nb' (ffsys s) ->
  wp (filewrite pid killed dev_write f addr) (fun r s' => let d' := disk (ffsys s') in let q := disk_inode sb d' n in
    r = len /\ (exists p', like p' q /\ gopen I N n f x (o + len) p' nb' s') /\ isize q = Z.max (isize p) (o + len) /\
    (forall j, 0 <= j < isize q -> disk_byte d' q j = if (o <=? j) && (j <? o + len) then byte_at addr (j - o) else disk_byte d p j) /\
    (forall k, 1 <= k < sb_ninodes sb -> k <> n -> disk_inode sb d' k = disk_inode sb d k /\
      (itype (I k) <> 0 -> forall j, 0 <= j < BSIZE * N k -> disk_byte d' (I k) j = disk_byte d (I k) j)) /\
    nfreeb (ffsys s') + owned q nb' = nfreeb (ffsys s) + owned p nb) s.
Proof.
  intros len nb' sb d W Ht Hw Hmax Hfree. unfold filewrite. apply wp_bind, wp_gets. rewrite (go_entry _ _ _ _ _ _ _ _ _ W). unfold id. cbn [fwritable ftyp set_foff].
  rewrite Hw, Ht. cbn [negb]. apply wp_bind. replace o with (o + 0) in W by lia. pose proof (go_off _ _ _ _ _ _ _ _ _ W) as Ho. pose proof (go_file _ _ _ _ _ _ _ _ _ W) as G.
  eapply wp_mono; [apply (filewrite_loop_grow pid dev_write I N n (S (length addr)) f x o p nb addr 0 s W); fold len; [lia|lia|done|lia|]|].
  { replace (o + 0) with o by lia. by rewrite Z.sub_0_r. }
  intros r s' (-> & q0 & [O S C T]). fold len in O, S |- *. apply wp_pure. rewrite Z.eqb_refl. rewrite drop_0, Z.add_0_r in O, S. fold len nb' in O, S. cbv zeta.
  pose proof (go_file _ _ _ _ _ _ _ _ _ O) as G'. pose proof (gf_quiet _ _ _ _ _ _ _ G) as Q. pose proof (gf_quiet _ _ _ _ _ _ _ G') as Q'.
  pose proof S as [R1 R2 R3 R4 R5 R6 R7 R8]. fold len in R1, R7. assert (Es : sb = sblock (ffsys s')) by (symmetry; apply R2).
  rewrite Es, (quiet_inode _ n Q'). assert (Ez : isize (dino (ffsys s') n) = isize q0) by (symmetry; apply R4).
  split; [done|]. split; [by exists q0|]. split; [rewrite Ez, R1; done|]. split; [|split].
  - intros j Hj. rewrite Ez in Hj. rewrite (quiet_byte _ _ _ Q'), (quiet_byte _ _ _ Q). rewrite <- (fbyte_like _ _ _ j R4). by apply R7.
  - intros k Hk Hne. rewrite <- Es in Hk |- *. split.
    + rewrite Es at 1. unfold sb, d. rewrite (quiet_inode _ _ Q), (quiet_inode _ _ Q'). by apply R5.
    + intros Hu j Hj. rewrite (quiet_byte _ _ _ Q'), (quiet_byte _ _ _ Q).
      apply (same_bytes _ _ _ (N k)); [by apply (filed_other I N n (ffsys s) p nb); [apply G|..]|by apply R6|done].
  - unfold owned in *. by rewrite <- (addr_like _ _ NDIRECT R4).
Qed.

(** ** Example *)

Lemma nfreeb_ge s l : NoDup l -> Forall (fun c => 0 <= c < sb_size (sblock s) /\ inuse s c = false) l -> Z.of_nat (length l) <= nfreeb s.
Proof.
  intros Hn Hl. unfold nfreeb. apply inj_le, submseteq_length, NoDup_submseteq; [done|]. intros c Hc.
  rewrite Forall_forall in Hl. destruct (Hl c Hc) as [H1 H2]. apply list_elem_of_filter. split; [done|]. apply elem_of_seqZ. lia.
Qed.

(** The volume of [FsProps] has one file. *)
Definition no_inode : inode := mkinode 1 0 0 (mksl false 0) false 0 0 0 0 0 [].
Notation vol_inodes := (<[7 := vol_inode]> (fun _ : Z => no_inode)).
Notation vol_blocks := (<[7 := 2]> (fun _ : Z => 0)).

Lemma vol_used k : used vol vol_inodes k -> k = 7.
Proof.
  intros [_ H]. destruct (decide (k = 7)) as [|Hne]; [done|]. by rewrite zfn_insert_ne in H by congruence.
Qed.
Lemma vol_low b : 0 <= b < 104 \/ 200 <= b < 202 -> inuse vol b = true.
Proof.
  intros Hb. unfold inuse. rewrite vol_BBLOCK, vol_view by lia.
  assert (Hall : forallb (fun b => negb (bit_clear (vol_disk 60) (b mod BPB))) (seqZ 0 104 ++ [200; 201]) = true) by (vm_compute; reflexivity).
  rewrite forallb_forall in Hall. apply Hall, list_elem_of_In, elem_of_app. destruct Hb; [left; apply elem_of_seqZ; lia|right].
  assert (b = 200 \/ b = 201) as [->| ->] by lia; set_solver.
Qed.
Lemma vol_iblock k : 1 <= k < 200 -> 32 <= IBLOCK k (sblock vol) < 57.
Proof. intros Hk. rewrite vol_sblock. unfold IBLOCK. cbn [sb_inodestart]. change IPB with 8. rewrite u32_small; Z.to_euclidean_division_equations; lia. Qed.
Lemma vol_len b : length (vol_disk b) = 512%nat.
Proof. unfold vol_disk. repeat case_if; vm_compute; reflexivity. Qed.

Lemma vol_owns b : owns vol vol_inode 2 b -> 200 <= b < 202.
Proof.
  intros [(k & Hk & ->)|[H _]]; [|by destruct H]. assert (k = 0 \/ k = 1) as [->| ->] by lia; vm_compute; split; (discriminate || done).
Qed.
Lemma vol_alloc : alloc_ok vol vol_inode 2.
Proof.
  assert (Hk : forall k, 0 <= k < 2 -> file_block vol vol_inode k = 200 + k).
  { intros k Hk. assert (k = 0 \/ k = 1) as [-> | ->] by lia; reflexivity. }
  split; [done|change MAXFILE with 140; lia| |change NDIRECT with 12; lia| |done|intros k j H1 H2; rewrite !Hk by done; lia|intros k H1; rewrite Hk by done; change (200 + k <> 0); lia].
  - intros b Hb. apply vol_owns in Hb. split.
    + unfold home, in_log. cbn. lia.
    + rewrite vol_sblock. cbn. lia.
    + apply vol_low. lia.
    + rewrite vol_view. apply vol_len.
    + intros [(k & Hk' & ->)|(c & Hc & ->)]; [rewrite vol_sblock in Hk'; pose proof (vol_iblock k Hk'); lia|rewrite vol_BBLOCK in Hb by (by rewrite vol_sblock in Hc); lia].
  - intros k Hk'. change NDIRECT with 12 in Hk'. unfold addr_at. change (iaddrs vol_inode) with ([200; 201] ++ replicate 11 0).
    rewrite lookup_app_r by (cbn; lia). cbn [length]. by rewrite lookup_replicate_2 by lia.
Qed.
Lemma vol_store : store_ok vol vol_inodes vol_blocks.
Proof.
  split; [apply vol_bitmap|split; [by rewrite vol_view|done]|done|apply vol_low; lia| | |intros k m b Hk Hm _ _; by rewrite (vol_used k Hk), (vol_used m Hm)].
  - intros k Hk b. rewrite vol_sblock in Hk. pose proof (vol_iblock k Hk) as Hb. fold b in Hb. split; [unfold home, in_log; cbn; lia|].
    rewrite vol_sblock. cbn [sb_size]. split; [lia|]. split; [rewrite vol_view; apply vol_len|]. split; [apply vol_low; lia|].
    intros c Hc. rewrite <- vol_sblock, vol_BBLOCK by done. lia.
  - intros k Hk. rewrite (vol_used k Hk). rewrite !zfn_insert_eq. apply vol_alloc.
Qed.

Lemma volq_gfile : gfile (fun _ => no_inode) (fun _ => 0) 7 0 vol_inode 2 volq.
Proof.
  assert (A : alike vol volq) by (apply agree_alike; [by split|done]).
  assert (H1 : ~ in_log (logst vol) 1) by (unfold in_log; cbn; lia).
  split; [exact volq_quiet|done|done|done| |change (0 <= 700 <= 1024); lia| | |done|done].
  - apply (alike_filed _ _ _ vol); [|done|done]. split; [exact vol_store|]. split; [rewrite vol_sblock; cbn; lia|done].
  - split; try (cbn; lia); [done|]. cbn. repeat constructor; lia.
  - rewrite (alike_dino _ _ vol volq vol_store A 7) by (rewrite vol_sblock; cbn; lia). unfold dino. rewrite vol_view, vol_sblock. by split; vm_compute.
Qed.

#[local] Existing Instance demo_pages.
(** 600 bytes at offset 500 of the 700-byte file: it then has 1100 bytes, in a third block. *)
Lemma filewrite_extends_witness :
  wp (filewrite 1 false (fun _ => None) 0 (replicate 600 9)) (fun r s' => r = 600 /\
    let q := disk_inode (sblock volq) (disk (ffsys s')) 7 in isize q = 1100 /\
    disk_byte (disk (ffsys s')) q 499 = 0 /\ disk_byte (disk (ffsys s')) q 1099 = 9 /\ nfreeb (ffsys s') + owned q 3 = nfreeb volq + 2) demo_ffs.
Proof.
  eapply wp_mono; [apply (filewrite_extends 1 false (fun _ => None) (fun _ => no_inode) (fun _ => 0) 7 0 file_open 500 vol_inode 2 (replicate 600 9) demo_ffs)|].
  - split; [exact volq_gfile|reflexivity|cbn; lia].
  - reflexivity.
  - reflexivity.
  - vm_compute. discriminate.
  - intros _. change (2 <= nfreeb vol). apply (nfreeb_ge vol [104; 105]); [apply (bool_decide_unpack _); reflexivity|].
    constructor; [|constructor; [|constructor]]; (split; [rewrite vol_sblock; cbn; lia|]); unfold inuse; rewrite vol_BBLOCK, vol_view by lia; vm_compute; reflexivity.
  - cbv zeta. intros r s' (-> & _ & E & B & _ & C). split; [reflexivity|]. change (ffsys demo_ffs) with volq in *. change (isize (disk_inode (sblock volq) (disk (ffsys s')) 7) = 1100) in E.
    split; [exact E|]. split; [|split; [|exact C]].
    + rewrite B by (rewrite E; lia). reflexivity.
    + rewrite B by (rewrite E; lia). reflexivity.
Defined.
